(* ===== verification/_CoqProject ===== *)
-Q . S2P
Prelude.v
Crc.v
Paging.v
PhysMem.v
PhysMemProps.v
PhysMemFlags.v
PhysMemDma.v
Keypoints.v
Tasks.v
TasksRing.v
TasksProps.v
HashMap.v
HashMapProps.v
DataNode.v
DataNodeProps.v
File.v
FileProps.v
Npfs.v
DirProps.v
NpfsProps.v
Format.v
FormatProps.v
Heap.v
HeapTree.v
HeapRep.v
HeapProps.v
HeapAlloc.v
MemoryLayout.v
PageTables.v
PageTablesProps.v
PageMapProps.v
PhysicalFrames.v
MappingProps.v
VirtualMemory.v
AddressSpaces.v
KernelHeapProps.v
GeneralMappingProps.v
MappingFlaws.v
Packed.v
Trb.v
TrbProps.v
XhciContext.v
XhciContextProps.v
TransferRing.v
TransferRingProps.v
UsbDescriptors.v
UsbDescriptorsProps.v
UsbDescriptorsRound.v
HidKeyboard.v
HidKeyboardProps.v
HidDriver.v
HidDriverProps.v
Storage.v
BlockDevice.v
BlockDeviceProps.v
GptProps.v
BlockLifetime.v
Scsi.v
ScsiProps.v
BulkOnly.v
BulkOnlyProps.v
BulkDriver.v
BulkDriverProps.v
XhciController.v
XhciPorts.v
XhciControllerProps.v
XhciPortsProps.v
XhciDevice.v
XhciDeviceProps.v
IOHeap.v
IOHeapProps.v
KeyboardQueue.v
KeyboardQueueProps.v
Interrupts.v
InterruptsProps.v
Apic.v
ApicProps.v
Ps2.v
Ps2Props.v
