(* ===== verification/Prelude.v ===== *)
(** * A verification of the BadLands kernel

    BadLands is a 64-bit operating system kernel with its UEFI boot loader.
    This library models its core in Rocq, file by file after the C++ source
    under [src/], and proves what the parts promise to each other.

    ** The program and how its parts interact

    The boot loader hands the kernel a memory map. [PhysicalMemory] turns it
    into a page allocator (bitmaps and a cache of large pages), [Paging] edits
    the page tables through a recursive mapping, [VirtualMemory] gives address
    ranges to the [Heap], and everything else lives on that heap: the file
    system (an in-memory tree of nodes, directories as hash maps, files as
    trees of blocks), the scheduler's task list, the USB structures. Keyboards
    reach the kernel as PS/2 scan codes or over xHCI; text leaves it through
    the formatter.

    ** Which file models what

    - [Prelude] : machine words, bits, lists and the tactics shared by all.
    - [Crc] : [kernel/src/crypto/crc.cpp].
    - [Paging] : entry formats and the recursive mapping of
      [kernel/include/mm/Paging.hpp] and [kernel/src/mm/Paging.cpp].
    - [PhysMem], [PhysMemProps], [PhysMemFlags], [PhysMemDma] :
      [kernel/src/mm/PhysicalMemory.cpp]. The bitmaps and the large-page cache
      are the state, every allocation and release an operation on it.
    - [Heap], [HeapTree], [HeapRep], [HeapProps], [HeapAlloc] :
      [kernel/src/mm/Heap.cpp]. The AVL tree with its pointers in a node store;
      [PageSource] is what it asks of the memory manager.
    - [IOHeap], [IOHeapProps] : [kernel/src/mm/IOHeap.cpp] and
      [kernel/src/mm/Utils.cpp], on a memory of bytes.
    - [MemoryLayout] : the zones of [common/include/shared/memory/layout.hpp]
      and [kernel/include/mm/VirtualMemoryLayout.hpp].
    - [PageTables] : the machine (physical memory as words, the processor's
      walk, accesses through it), the page-table editor of
      [kernel/src/mm/VirtualMemory.cpp] and the page fault handler of
      [kernel/src/interrupts/core/PageFault.cpp]; the physical allocator is the
      class [FrameAllocator], with its laws in [PageTablesProps] and
      [PhysMem] as its instance in [PhysicalFrames]. [PageTablesProps] and
      [PageMapProps] hold the invariant [space_ok] of an address space and what
      an edition leaves alone ([edited]), [MappingProps] the theorems.
    - [VirtualMemory] : the map of free ranges of [VirtualMemory.cpp] and its
      allocators; [AddressSpaces] : general mappings, flags, DMA, [Setup], new
      address spaces and the secondary mapping of [Paging.cpp].
      [KernelHeapProps] has the invariant of the kernel's map and makes it the
      [PageSource] of the heap, [GeneralMappingProps] the general mappings,
      [MappingFlaws] what goes wrong.
    - [Keypoints] : the scan code decoders of
      [kernel/src/devices/PS2/Keypoints.cpp].
    - [Tasks], [TasksRing], [TasksProps] : [kernel/src/sched/TaskManager.cpp]
      and [Dispatcher.cpp]; the circular list of tasks with its pointers.
    - [HashMap], [HashMapProps] : [kernel/include/ext/BasicHashMap.hpp] and
      [FNV1A.hpp].
    - [DataNode], [DataNodeProps], [File], [FileProps], [Npfs], [DirProps],
      [NpfsProps] : [kernel/src/fs/NPFS.cpp], [IFNode.cpp] and [VFS.cpp]; block
      trees, files, directories, node lifetimes, paths.
    - [Format], [FormatProps] : [kernel/src/screen/Format.cpp].
    - [Packed], [Trb], [TrbProps] : [common/include/shared/Bitwise.hpp] and
      [kernel/src/devices/USB/xHCI/TRB.cpp].
    - [XhciContext], [XhciContextProps], [TransferRing], [TransferRingProps] :
      [kernel/src/devices/USB/xHCI/Specification.cpp]; contexts and rings in a
      shared memory, the allocators as the interface [KernelMemory].
    - [UsbDescriptors], [UsbDescriptorsProps], [UsbDescriptorsRound] : the
      descriptor parser of [kernel/src/devices/USB/xHCI/Device.cpp].
    - [XhciController], [XhciControllerProps], [XhciPorts], [XhciPortsProps] :
      [kernel/src/devices/USB/xHCI/Controller.cpp]; the registers, the command
      and event rings, the interrupt handler and the slots; the scratchpad, the
      ports and the task that scans them, creation and release. The hardware
      and the rest of the kernel are the class [ControllerHost], a device is
      the class [SlotDevice].
    - [XhciDevice], [XhciDeviceProps] : the rest of [Device.cpp]; accesses,
      control requests, endpoints, drivers, initialisation and release. The
      controller is the class [DeviceHost], a driver the class [UsbDriver].
    - [HidKeyboard], [HidKeyboardProps] : [kernel/src/devices/USB/HID/Keyboard.cpp];
      the reports a keyboard declares, the bitmaps of its keys, the packets it
      sends.
    - [HidDriver], [HidDriverProps] : [kernel/src/devices/USB/HID/Driver.cpp];
      the report descriptor parser over an explicit heap, the devices behind
      the class [InterfaceDevice], the driver's transactions.
    - [Storage] : the interfaces of the storage stack: a block device
      ([Interface], with its laws [DiskLaws]), a storage controller
      ([Controller], [ControllerLaws]), and the SCSI unit behind it
      ([CommandUnit], [ScsiUnitLaws]).
    - [BlockDevice], [BlockDeviceProps], [GptProps] :
      [kernel/src/devices/Block/Device.cpp]; devices, partitions, names, the
      partition table and its validation. [BlockLifetime] : who frees a device
      and when, with the directory that calls back.
    - [Scsi], [ScsiProps] : [kernel/src/devices/Storage/SCSI/Driver.cpp]; the
      capacity, transfers cut into commands; [ScsiProps] makes it a block
      device over any controller that works.
    - [BulkOnly], [BulkOnlyProps], [BulkDriver], [BulkDriverProps] :
      [kernel/src/devices/USB/MassStorage/BBB/Driver.cpp]; the wrappers and the
      transfers over the USB device (class [Bulk]), which make a storage
      controller for short transfers; creation and release over the rest of the
      kernel (class [UsbHost]).
    - [Interrupts], [InterruptsProps] : [kernel/src/interrupts/IDT.cpp] and
      [InterruptProvider.cpp]; the gates, the providers and the vectors in use.
    - [Apic], [ApicProps] : [kernel/src/interrupts/APIC.cpp]; the local and I/O
      controllers, the table of the firmware that lists them, the routing of
      interrupts. The registers and the rest of the kernel are the class
      [ApicHost], with the laws of an I/O controller in [IoApicLaws].
    - [KeyboardQueue], [KeyboardQueueProps] :
      [kernel/src/devices/KeyboardDispatcher/]; the queue between the keyboards
      and their reader, as operations and as a transition system, and the map
      of key codes.
    - [Ps2], [Ps2Props] : [Controller.cpp] and [Keyboard.cpp] of
      [kernel/src/devices/PS2/]; commands under a timeout, recovery from
      errors, initialisation, interrupts. The ports are the class [Ps2Host].

    ** What the theorems show

    Allocators: no page, frame or block is given out twice, what is free can be
    had, releasing undoes allocating, the structures stay well formed whatever
    the order of calls. Mappings: an edition of the page tables changes the
    translation of the pages it is about and of no other, on failure of none;
    the software walk agrees with the processor's; ranges of kernel memory
    never overlap until one is released. Containers: the hash map, the block trees and the
    directories behave as finite maps, iteration visits each entry once. The
    scheduler is a fair round robin. Decoders and encoders (scan codes, page
    table entries, CRC, numbers, transfer blocks, contexts, descriptors) are
    inverse to their specifications. A keyboard's packets tell the state of its
    keys; parsing a report descriptor ends and frees what it allocated. Rings
    deliver blocks once and in order.
    Storage: from the partition to the bulk endpoints each layer is proved
    against the interface of the one below, so that bytes written to a
    partition are on its blocks of the unit, can be read back, and no other
    partition changes; tables of partitions are accepted exactly when their
    checksums are right; devices are freed once; drivers give back what they
    took.
    USB: an interrupt handles each posted event once and in order, the port
    task misses no change, a control request ends with the answer of its own
    status stage, an endpoint's ring is where its driver looks for it, no
    operation starts on a device being destroyed.
    Interrupts and keyboards: a vector is held once, an interrupt is routed to
    the entry of its number and no other register changes, the walk of the
    firmware's table ends and does what each entry means; keys typed on a PS/2
    keyboard are in the queue in order, the queue is first in first out.
    Where the code falls short of its intent, the theorem states what it does.

    ** Conventions, bounds and fuel

    Machine integers are [Z] with wrap-around written at the operation ([u8],
    [u16], [u32], [u64]); pointers are [Z] addresses or positions in a store of
    objects. Loops whose end is not structural take fuel, and each comes with
    the bound that makes it enough: the height of the AVL tree, a path has no
    more components than characters, a bitmap scan no more steps than bits, a configuration descriptor is at most 65535 bytes
    long. The search of [MapGeneralPages] may visit every page of its zone
    (about 1.3 * 10^8): its loop runs on binary numbers and stops where the
    source does. The recovery of the PS/2 keyboard ends after three errors, so
    four levels are enough; its timeouts count down from 1000. A theorem about
    such a loop says that it returns, not only what it returns.

    ** What is not modelled, and why

    Interrupt entry in assembly, the legacy timer, UEFI boot services, the ACPI
    driver, PCI enumeration, drawing, and the shell: they are input and output
    or the machine itself. Locks are taken as held: an operation of the source
    that takes its lock first is one atomic step here, but for the keyboard
    queue, whose two locks admit a reader and a writer at once. The processor's
    translation caches are not modelled, each access walks the tables; bits 48
    to 63 of an address are ignored, so that a non-canonical address is not
    told from the canonical one. A register of a controller and a port are an
    access to the class that stands for the hardware. What the language leaves
    undefined, such as a shift by more than the width, is a parameter until a
    theorem fixes the processor's answer. A device on a bus is a class with the
    laws of its documented protocol, with an instance in memory for the
    witnesses. *)

(** ** Shared definitions, lemmas and tactics *)
From Stdlib Require Export ZArith Lia Btauto.
From stdpp Require Export base numbers list list_numbers gmap option functions.
From stdpp Require Export list list_basics list_relations.

Open Scope Z_scope.

(** ** Machine words

    A [w]-bit unsigned integer is a [Z] in [0 .. 2^w - 1]; an operation of the
    C++ code that may leave the range is followed by the wrap of its type. *)

Definition wrap (w x : Z) : Z := x mod 2 ^ w.

Abbreviation u8 := (wrap 8).
Abbreviation u16 := (wrap 16).
Abbreviation u32 := (wrap 32).
Abbreviation u64 := (wrap 64).

(** The value of [x] read as a two's complement integer of [w] bits. *)
Definition signed (w x : Z) : Z :=
  let y := wrap w x in if y <? 2 ^ (w - 1) then y else y - 2 ^ w.

(** [~x] on [w] bits. *)
Definition bnot (w x : Z) : Z := 2 ^ w - 1 - x.

(** The three idioms [x |= (1 << b)], [x &= ~(1 << b)] and
    [(x & (1 << b)) != 0] the kernel uses on its bitmaps. *)
Definition setbit (x b : Z) : Z := Z.lor x (Z.shiftl 1 b).
Definition clrbit (x b : Z) : Z := Z.ldiff x (Z.shiftl 1 b).
Definition hasbit (x b : Z) : bool := negb (Z.land x (Z.shiftl 1 b) =? 0).

Declare Scope badlands_scope.
Delimit Scope badlands_scope with badlands.
Notation "x '.|' b" := (setbit x b) (at level 50, left associativity) : badlands_scope.
Notation "x '.\' b" := (clrbit x b) (at level 50, left associativity) : badlands_scope.
Open Scope badlands_scope.

(** ** Tactics *)

(** Splits the boolean tests of the goal and of the hypotheses. *)
Ltac bool_cases :=
  repeat match goal with
  | H : context [?a =? ?b] |- _ => destruct (Z.eqb_spec a b)
  | |- context [?a =? ?b] => destruct (Z.eqb_spec a b)
  | H : context [?a <? ?b] |- _ => destruct (Z.ltb_spec a b)
  | |- context [?a <? ?b] => destruct (Z.ltb_spec a b)
  | H : context [?a <=? ?b] |- _ => destruct (Z.leb_spec a b)
  | |- context [?a <=? ?b] => destruct (Z.leb_spec a b)
  end.

(** Turns every boolean connective and comparison of the context into a
    proposition. *)
Ltac boolp :=
  rewrite ?andb_true_iff, ?orb_true_iff, ?negb_true_iff, ?Z.eqb_eq, ?Z.eqb_neq,
    ?Z.ltb_lt, ?Z.ltb_ge, ?Z.leb_le, ?Z.leb_gt in *.

(** Euclidean division facts for [lia]. *)
Ltac zdiv := Z.to_euclidean_division_equations; lia.

Create HintDb words discriminated.

(** ** Words *)

Lemma wrap_small w x : 0 <= x < 2 ^ w -> wrap w x = x.
Proof. apply Z.mod_small. Qed.

Lemma wrap_range w x : 0 <= w -> 0 <= wrap w x < 2 ^ w.
Proof. intros. apply Z.mod_pos_bound. by apply Z.pow_pos_nonneg. Qed.

Lemma signed_range w x : 0 < w -> - 2 ^ (w - 1) <= signed w x < 2 ^ (w - 1).
Proof.
  intros Hw. pose proof (wrap_range w x ltac:(lia)) as Hr. unfold signed. cbv zeta.
  replace (2 ^ w) with (2 * 2 ^ (w - 1)) in * by (rewrite <- Z.pow_succ_r by lia; f_equal; lia).
  destruct (Z.ltb_spec (wrap w x) (2 ^ (w - 1))); lia.
Qed.

Lemma wrap_testbit w x i :
  0 <= w -> Z.testbit (wrap w x) i = (i <? w) && Z.testbit x i.
Proof.
  intros Hw. unfold wrap. destruct (Z.ltb_spec i w) as [Hi|Hi]; simpl.
  - by rewrite Z.mod_pow2_bits_low.
  - by rewrite Z.mod_pow2_bits_high.
Qed.

Lemma bnot_testbit w x i : 0 <= i < w -> Z.testbit (bnot w x) i = negb (Z.testbit x i).
Proof.
  intros Hi. unfold bnot. replace (2 ^ w - 1 - x) with (Z.lnot x + 2 ^ w) by (unfold Z.lnot; lia).
  rewrite <- (Z.lnot_spec x i) by lia.
  apply Z.b2z_inj. rewrite !Z.testbit_spec' by lia.
  replace (2 ^ w) with (2 * 2 ^ (w - i - 1) * 2 ^ i) by (rewrite <- Z.mul_assoc, <- Z.pow_add_r, <- Z.pow_succ_r by lia; f_equal; lia).
  rewrite Z.div_add, (Z.mul_comm 2), Z.mod_add by (try lia; apply Z.pow_nonzero; lia). done.
Qed.

Lemma pow2_pos n : 0 <= n -> 0 < 2 ^ n.
Proof. intros; by apply Z.pow_pos_nonneg. Qed.
#[export] Hint Resolve wrap_range pow2_pos : words.

(** A number is below [2 ^ w] when it has no bit from [w] up. *)
Lemma range_of_testbit w x :
  0 <= w -> 0 <= x -> (forall i, w <= i -> Z.testbit x i = false) -> x < 2 ^ w.
Proof.
  intros Hw Hx H. destruct (Z.eq_dec x 0) as [->|Hn]; [auto with words|].
  apply Z.log2_lt_pow2; [lia|].
  destruct (Z.lt_ge_cases (Z.log2 x) w) as [|Hge]; [done|].
  specialize (H _ Hge). rewrite Z.bit_log2 in H by lia. done.
Qed.

Lemma testbit_high w x i : 0 <= x < 2 ^ w -> w <= i -> Z.testbit x i = false.
Proof.
  intros Hx Hi. destruct (Z.lt_ge_cases w 0) as [Hw|Hw].
  { rewrite Z.pow_neg_r in Hx by lia. lia. }
  rewrite <- (Z.mod_small x (2 ^ w)) by done. by apply Z.mod_pow2_bits_high.
Qed.

Lemma lor_range w x y : 0 <= w -> 0 <= x < 2 ^ w -> 0 <= y < 2 ^ w -> 0 <= Z.lor x y < 2 ^ w.
Proof.
  intros Hw Hx Hy. assert (0 <= Z.lor x y) by (apply Z.lor_nonneg; lia).
  split; [done|]. apply range_of_testbit; [done..|].
  intros i Hi. by rewrite Z.lor_spec, (testbit_high w x), (testbit_high w y).
Qed.

Lemma lxor_range w x y : 0 <= w -> 0 <= x < 2 ^ w -> 0 <= y < 2 ^ w -> 0 <= Z.lxor x y < 2 ^ w.
Proof.
  intros Hw Hx Hy. assert (0 <= Z.lxor x y) by (apply Z.lxor_nonneg; lia).
  split; [done|]. apply range_of_testbit; [done..|].
  intros i Hi. by rewrite Z.lxor_spec, (testbit_high w x), (testbit_high w y).
Qed.

Lemma land_range w x y : 0 <= w -> 0 <= x < 2 ^ w -> 0 <= Z.land x y < 2 ^ w.
Proof.
  intros Hw Hx. assert (0 <= Z.land x y) by (apply Z.land_nonneg; lia).
  split; [done|]. apply range_of_testbit; [done..|].
  intros i Hi. by rewrite Z.land_spec, (testbit_high w x).
Qed.

Lemma shiftr_range w x n : 0 <= n -> 0 <= x < 2 ^ w -> 0 <= Z.shiftr x n < 2 ^ w.
Proof.
  intros Hn Hx. rewrite Z.shiftr_div_pow2 by done.
  assert (0 < 2 ^ n) by auto with words.
  split; [apply Z.div_pos; lia|].
  apply Z.le_lt_trans with x; [|lia]. apply Z.div_le_upper_bound; nia.
Qed.
#[export] Hint Resolve lor_range lxor_range land_range shiftr_range : words.

(** ** Single bits *)

Lemma testbit_1_shiftl b i : 0 <= b -> Z.testbit (Z.shiftl 1 b) i = (i =? b).
Proof.
  intros Hb. rewrite Z.shiftl_1_l. destruct (Z.eqb_spec i b) as [->|].
  - by apply Z.pow2_bits_true.
  - apply Z.pow2_bits_false; lia.
Qed.

Lemma testbit_setbit x b i :
  0 <= b -> Z.testbit (x .| b) i = Z.testbit x i || (i =? b).
Proof. intros. unfold setbit. by rewrite Z.lor_spec, testbit_1_shiftl. Qed.

Lemma testbit_clrbit x b i :
  0 <= b -> Z.testbit (x .\ b) i = Z.testbit x i && negb (i =? b).
Proof. intros. unfold clrbit. by rewrite Z.ldiff_spec, testbit_1_shiftl. Qed.

Lemma hasbit_testbit x b : 0 <= b -> hasbit x b = Z.testbit x b.
Proof.
  intros Hb. unfold hasbit. destruct (Z.testbit x b) eqn:E.
  - apply negb_true_iff, Z.eqb_neq. intros H.
    apply (f_equal (fun z => Z.testbit z b)) in H.
    rewrite Z.land_spec, testbit_1_shiftl, E, Z.eqb_refl, Z.bits_0 in H by done. done.
  - apply negb_false_iff, Z.eqb_eq, Z.bits_inj'. intros i Hi.
    rewrite Z.land_spec, testbit_1_shiftl, Z.bits_0 by done.
    destruct (Z.eqb_spec i b) as [->|]; [by rewrite E|by rewrite andb_false_r].
Qed.

Lemma setbit_range w x b : 0 <= b < w -> 0 <= x < 2 ^ w -> 0 <= x .| b < 2 ^ w.
Proof.
  intros Hb Hx. unfold setbit. apply lor_range; [lia|done|].
  rewrite Z.shiftl_1_l. split; [lia|]. apply Z.pow_lt_mono_r; lia.
Qed.

Lemma clrbit_range w x b : 0 <= b < w -> 0 <= x < 2 ^ w -> 0 <= x .\ b < 2 ^ w.
Proof.
  intros Hb Hx. assert (0 <= x .\ b) by (apply Z.ldiff_nonneg; lia).
  split; [done|]. apply range_of_testbit; [lia|done|].
  intros i Hi. by rewrite testbit_clrbit, (testbit_high w x) by lia.
Qed.
#[export] Hint Resolve setbit_range clrbit_range : words.

(** ** Flag words

    [if (b) x |= m], and [(x & m) != 0]. *)

Definition orif (b : bool) (x m : Z) : Z := if b then Z.lor x m else x.
Definition hasflag (x m : Z) : bool := negb (Z.land x m =? 0).

Lemma testbit_orif b x m i : Z.testbit (orif b x m) i = Z.testbit x i || (b && Z.testbit m i).
Proof. unfold orif. destruct b; rewrite ?Z.lor_spec; btauto. Qed.

Lemma hasflag_pow2 x k : 0 <= k -> hasflag x (2 ^ k) = Z.testbit x k.
Proof. intros Hk. rewrite <- Z.shiftl_1_l. by apply hasbit_testbit. Qed.

Lemma land_orif b x m mask :
  Z.land m mask = 0 -> Z.land (orif b x m) mask = Z.land x mask.
Proof. intros H. unfold orif. destruct b; rewrite ?Z.land_lor_distr_l, ?H, ?Z.lor_0_r; done. Qed.

Lemma orif_range w b x m :
  0 <= w -> 0 <= x < 2 ^ w -> 0 <= m < 2 ^ w -> 0 <= orif b x m < 2 ^ w.
Proof. unfold orif. destruct b; auto with words. Qed.
#[export] Hint Resolve orif_range : words.

(** Two words without a common bit: [|] is [+]. *)
Lemma lor_add_disjoint x y : Z.land x y = 0 -> Z.lor x y = x + y.
Proof. intros H. rewrite <- Z.lxor_lor by done. symmetry. by apply Z.add_nocarry_lxor. Qed.

Lemma land_shiftl_low x y n : 0 <= n -> 0 <= y < 2 ^ n -> Z.land (Z.shiftl x n) y = 0.
Proof.
  intros Hn Hy. apply Z.bits_inj'. intros i Hi.
  rewrite Z.land_spec, Z.bits_0, Z.shiftl_spec by done.
  destruct (Z.lt_ge_cases i n); [rewrite Z.testbit_neg_r by lia; done|].
  rewrite (testbit_high n y) by done. btauto.
Qed.

Lemma lor_shiftl_low x y n :
  0 <= n -> 0 <= y < 2 ^ n -> Z.lor (Z.shiftl x n) y = x * 2 ^ n + y.
Proof.
  intros Hn Hy. rewrite lor_add_disjoint by (by apply land_shiftl_low).
  by rewrite Z.shiftl_mul_pow2.
Qed.

Lemma lor_mul_low x y n :
  0 <= n -> 0 <= y < 2 ^ n -> Z.lor (x * 2 ^ n) y = x * 2 ^ n + y.
Proof. intros Hn Hy. rewrite <- lor_shiftl_low by done. by rewrite Z.shiftl_mul_pow2. Qed.

(** Shift and mask of a bit field. *)
Lemma field_div_mod x k n :
  0 <= k -> 0 <= n -> Z.land (Z.shiftr x k) (Z.ones n) = (x / 2 ^ k) mod 2 ^ n.
Proof. intros. by rewrite Z.land_ones, Z.shiftr_div_pow2. Qed.

(** ** What a run of the code can die of *)

Inductive fault :=
| Hang             (** the loop did not end within the fuel *)
| WildCopy         (** a copy of 2^64 - n bytes *)
| DivideByZero
| NullAccess
| WildAccess       (** an access to memory that is no such object *)
| BadFree.         (** a block freed twice *)

#[global] Instance fault_eq_dec : EqDecision fault.
Proof. solve_decision. Defined.

(** Computations on a state, which end with a result or die. *)
Definition io (W A : Type) : Type := W -> fault + (A * W).

#[global] Instance io_ret W : MRet (io W) := fun A x w => inr (x, w).
#[global] Instance io_bind W : MBind (io W) := fun A B f m w =>
  match m w with
  | inl e => inl e
  | inr (x, w) => f x w
  end.

Definition stop {W A} (e : fault) : io W A := fun _ => inl e.

(** A partial operation whose failure is the fault [e]. *)
Definition or_stop {W A} (e : fault) (o : option A) : io W A :=
  match o with Some x => mret x | None => stop e end.

(** A computation on a part of the state. *)
Definition zoom {W V A} (get : W -> V) (set : V -> W -> W) (m : io V A) : io W A := fun w =>
  match m (get w) with
  | inl e => inl e
  | inr (x, v) => inr (x, set v w)
  end.

(** ** Loops with an early exit

    [for_each l body s] runs the body on the items of [l] in order, threading
    the state; the loop stops at the first item whose body returns a value. *)

Fixpoint for_each {A S R} (l : list A) (body : A -> S -> S * option R) (s : S)
    : S * option R :=
  match l with
  | [] => (s, None)
  | a :: l' =>
      match body a s with
      | (s', Some r) => (s', Some r)
      | (s', None) => for_each l' body s'
      end
  end.

(** An invariant of the body holds at the exit of the loop, and the value
    returned was returned by one iteration. *)
Lemma for_each_inv {A S R} (P : S -> Prop) (Q : S -> R -> Prop)
    (body : A -> S -> S * option R) l s :
  (forall a s s' o, a ∈ l -> P s -> body a s = (s', o) ->
     match o with None => P s' | Some r => Q s' r end) ->
  P s ->
  match for_each l body s with
  | (s', None) => P s'
  | (s', Some r) => Q s' r
  end.
Proof.
  revert s. induction l as [|a l IH]; intros s Hb Hs; simpl; [done|].
  destruct (body a s) as [s' [r|]] eqn:E.
  - by apply (Hb a s s' (Some r)); [left| |].
  - apply IH; [|by apply (Hb a s s' None); [left| |]].
    intros a' s1 s2 o Ha. apply Hb. by right.
Qed.

(** Invariant of a counting loop. *)
Lemma for_each_seqZ_inv {S R} (P : Z -> S -> Prop) (Q : Z -> S -> R -> Prop)
    (body : Z -> S -> S * option R) lo n s :
  0 <= n ->
  (forall i s, lo <= i < lo + n -> P i s ->
     match body i s with (s', None) => P (i + 1) s' | (s', Some r) => Q i s' r end) ->
  P lo s ->
  match for_each (seqZ lo n) body s with
  | (s', None) => P (lo + n) s'
  | (s', Some r) => exists i, lo <= i < lo + n /\ Q i s' r
  end.
Proof.
  intros Hn. revert lo s. pattern n. apply natlike_ind; [|clear n Hn; intros n Hn IH|done]; intros lo s Hb Hs.
  - rewrite Z.add_0_r. done.
  - rewrite seqZ_cons by lia. simpl. pose proof (Hb lo s ltac:(lia) Hs) as H1.
    destruct (body lo s) as [s1 [r|]]; [exists lo; split; [lia|done]|].
    rewrite Z.pred_succ. specialize (IH (Z.succ lo) s1).
    replace (lo + Z.succ n) with (Z.succ lo + n) by lia.
    assert (H : match for_each (seqZ (Z.succ lo) n) body s1 with
      | (s', Some r) => exists i, Z.succ lo <= i < Z.succ lo + n /\ Q i s' r
      | (s', None) => P (Z.succ lo + n) s' end).
    { apply IH; [|done]. intros i s2 Hi. apply Hb. lia. }
    destruct (for_each _ body s1) as [s2 [r|]]; [|done].
    destruct H as (i & Hi & HQ). exists i. split; [lia|done].
Qed.

(** The loop falls through exactly when no iteration returns. *)
Lemma for_each_pure {A S R} (f : A -> option R) (l : list A) (s : S) :
  for_each l (fun a s => (s, f a)) s = (s, head (omap f l)).
Proof.
  revert s. induction l as [|a l IH]; intros s; simpl; [done|].
  destruct (f a); [done|apply IH].
Qed.

(** ** Arrays as functions *)

Lemma upd_lookup {T} (f : Z -> T) a b t :
  (<[a := t]> f) b = if decide (a = b) then t else f b.
Proof. done. Qed.

(** ** Lists *)

(** Deciding a property of all bytes by enumeration. *)
Lemma forallb_seqZ (f : Z -> bool) n m :
  forallb f (seqZ n m) = true -> forall i, n <= i < n + m -> f i = true.
Proof.
  rewrite forallb_forall. intros H i Hi. apply H. apply list_elem_of_In.
  by apply elem_of_seqZ.
Qed.

Lemma existsb_seqZ (f : Z -> bool) n m :
  existsb f (seqZ n m) = true <-> exists i, n <= i < n + m /\ f i = true.
Proof.
  rewrite existsb_exists. split; intros (i & Hi & Hf); exists i; split; auto.
  - apply list_elem_of_In, elem_of_seqZ in Hi. done.
  - apply list_elem_of_In, elem_of_seqZ. done.
Qed.

(** ** Byte buffers: reads and writes that must stay inside *)

(** [n] bytes of a buffer from position [i], and overwriting them. *)
Definition load (buf : list Z) (i n : Z) : option (list Z) :=
  if (0 <=? i) && (0 <=? n) && (i + n <=? Z.of_nat (length buf))
  then Some (take (Z.to_nat n) (drop (Z.to_nat i) buf)) else None.
Definition splice (buf : list Z) (i : Z) (bytes : list Z) : list Z :=
  take (Z.to_nat i) buf ++ bytes ++ drop (Z.to_nat i + length bytes) buf.
Definition put (buf : list Z) (i : Z) (bytes : list Z) : option (list Z) :=
  if (0 <=? i) && (i + Z.of_nat (length bytes) <=? Z.of_nat (length buf)) then Some (splice buf i bytes) else None.

(** [Utils::memcpy(dst + i, src + j, n)] *)
Definition memcpy (dst : list Z) (i : Z) (src : list Z) (j n : Z) : option (list Z) :=
  bytes ← load src j n; put dst i bytes.

Lemma length_splice buf i bytes :
  0 <= i -> i + Z.of_nat (length bytes) <= Z.of_nat (length buf) -> length (splice buf i bytes) = length buf.
Proof. intros Hi Hl. unfold splice. rewrite !length_app, length_take, length_drop. lia. Qed.

Lemma lookup_splice buf i bytes k :
  0 <= i -> i + Z.of_nat (length bytes) <= Z.of_nat (length buf) ->
  splice buf i bytes !! k =
    if decide (i <= Z.of_nat k < i + Z.of_nat (length bytes)) then bytes !! (k - Z.to_nat i)%nat else buf !! k.
Proof.
  intros Hi Hl. unfold splice. destruct (decide (Z.of_nat k < i)).
  - rewrite decide_False by lia. rewrite lookup_app_l by (rewrite length_take; lia). by rewrite lookup_take_lt by lia.
  - rewrite lookup_app_r by (rewrite length_take; lia). rewrite length_take.
    replace (Z.to_nat i `min` length buf)%nat with (Z.to_nat i) by lia.
    destruct (decide (i <= Z.of_nat k < i + Z.of_nat (length bytes))).
    + by rewrite lookup_app_l by lia.
    + rewrite lookup_app_r by lia. rewrite lookup_drop. f_equal. lia.
Qed.

Lemma load_all buf : load buf 0 (Z.of_nat (length buf)) = Some buf.
Proof.
  unfold load. rewrite (proj2 (Z.leb_le 0 (Z.of_nat _))), (proj2 (Z.leb_le (0 + _) _)) by lia. cbn.
  by rewrite Nat2Z.id, drop_0, firstn_all.
Qed.

Lemma load_some buf i n : 0 <= i -> 0 <= n -> i + n <= Z.of_nat (length buf) ->
  load buf i n = Some (take (Z.to_nat n) (drop (Z.to_nat i) buf)).
Proof.
  intros. unfold load. by rewrite (proj2 (Z.leb_le 0 i)), (proj2 (Z.leb_le 0 n)), (proj2 (Z.leb_le (i + n) _)) by lia.
Qed.

Lemma load_none buf i n : Z.of_nat (length buf) < i + n -> load buf i n = None.
Proof. intros. unfold load. by rewrite (proj2 (Z.leb_gt (i + n) _)), andb_false_r by lia. Qed.

Lemma put_some buf i bytes : 0 <= i -> i + Z.of_nat (length bytes) <= Z.of_nat (length buf) ->
  put buf i bytes = Some (splice buf i bytes).
Proof.
  intros. unfold put. by rewrite (proj2 (Z.leb_le 0 i)), (proj2 (Z.leb_le (i + _) _)) by lia.
Qed.

(** Little-endian numbers. *)
Fixpoint le (bytes : list Z) : Z :=
  match bytes with [] => 0 | b :: bytes => b + 256 * le bytes end.
Fixpoint le_bytes (n : nat) (x : Z) : list Z :=
  match n with O => [] | S n => x mod 256 :: le_bytes n (x / 256) end.

Lemma le_le_bytes n x : 0 <= x < 256 ^ Z.of_nat n -> le (le_bytes n x) = x.
Proof.
  revert x. induction n as [|n IH]; intros x Hx; cbn [le le_bytes]; [cbn in Hx; lia|].
  replace (Z.of_nat (S n)) with (Z.succ (Z.of_nat n)) in Hx by lia. rewrite Z.pow_succ_r in Hx by lia.
  rewrite IH; [pose proof (Z.div_mod x 256 ltac:(lia)); lia|].
  split; [apply Z.div_pos; lia|apply Z.div_lt_upper_bound; lia].
Qed.

Lemma length_le_bytes n v : length (le_bytes n v) = n.
Proof. revert v. induction n; intros v; cbn; auto. Qed.

(** [*(uintN_t* )(buf + i)] *)
Definition load_le (buf : list Z) (i n : Z) : option Z := le <$> load buf i n.

Lemma memcpy_oob dst i src j n : Z.of_nat (length dst) < i + n -> 0 <= n -> memcpy dst i src j n = None.
Proof.
  intros Hi Hn. unfold memcpy. destruct (load src j n) as [bytes|] eqn:E; [|done]. cbn.
  unfold load in E. destruct (_ && _) eqn:Eb; [|done]. injection E as <-.
  unfold put. rewrite length_take, length_drop. rewrite (proj2 (Z.leb_gt (i + _) _)) by lia. by rewrite andb_false_r.
Qed.
