(* ===== verification/Crc.v ===== *)
(** * Component: CRC-32 ([kernel/src/crypto/crc.cpp], [kernel/include/crypto/crc.hpp])

    The table-driven checksum used on GPT headers, its streaming engine, and
    the bitwise definition of the reflected CRC-32 it must agree with. *)
From S2P Require Import Prelude.

(** ** Definitions *)

(** The table of [crc.cpp], entry by entry. *)
Definition CRC32_LUT : list Z :=
  [ 0x00000000; 0x77073096; 0xee0e612c; 0x990951ba; 0x076dc419; 0x706af48f; 0xe963a535; 0x9e6495a3;
    0x0edb8832; 0x79dcb8a4; 0xe0d5e91e; 0x97d2d988; 0x09b64c2b; 0x7eb17cbd; 0xe7b82d07; 0x90bf1d91;
    0x1db71064; 0x6ab020f2; 0xf3b97148; 0x84be41de; 0x1adad47d; 0x6ddde4eb; 0xf4d4b551; 0x83d385c7;
    0x136c9856; 0x646ba8c0; 0xfd62f97a; 0x8a65c9ec; 0x14015c4f; 0x63066cd9; 0xfa0f3d63; 0x8d080df5;
    0x3b6e20c8; 0x4c69105e; 0xd56041e4; 0xa2677172; 0x3c03e4d1; 0x4b04d447; 0xd20d85fd; 0xa50ab56b;
    0x35b5a8fa; 0x42b2986c; 0xdbbbc9d6; 0xacbcf940; 0x32d86ce3; 0x45df5c75; 0xdcd60dcf; 0xabd13d59;
    0x26d930ac; 0x51de003a; 0xc8d75180; 0xbfd06116; 0x21b4f4b5; 0x56b3c423; 0xcfba9599; 0xb8bda50f;
    0x2802b89e; 0x5f058808; 0xc60cd9b2; 0xb10be924; 0x2f6f7c87; 0x58684c11; 0xc1611dab; 0xb6662d3d;
    0x76dc4190; 0x01db7106; 0x98d220bc; 0xefd5102a; 0x71b18589; 0x06b6b51f; 0x9fbfe4a5; 0xe8b8d433;
    0x7807c9a2; 0x0f00f934; 0x9609a88e; 0xe10e9818; 0x7f6a0dbb; 0x086d3d2d; 0x91646c97; 0xe6635c01;
    0x6b6b51f4; 0x1c6c6162; 0x856530d8; 0xf262004e; 0x6c0695ed; 0x1b01a57b; 0x8208f4c1; 0xf50fc457;
    0x65b0d9c6; 0x12b7e950; 0x8bbeb8ea; 0xfcb9887c; 0x62dd1ddf; 0x15da2d49; 0x8cd37cf3; 0xfbd44c65;
    0x4db26158; 0x3ab551ce; 0xa3bc0074; 0xd4bb30e2; 0x4adfa541; 0x3dd895d7; 0xa4d1c46d; 0xd3d6f4fb;
    0x4369e96a; 0x346ed9fc; 0xad678846; 0xda60b8d0; 0x44042d73; 0x33031de5; 0xaa0a4c5f; 0xdd0d7cc9;
    0x5005713c; 0x270241aa; 0xbe0b1010; 0xc90c2086; 0x5768b525; 0x206f85b3; 0xb966d409; 0xce61e49f;
    0x5edef90e; 0x29d9c998; 0xb0d09822; 0xc7d7a8b4; 0x59b33d17; 0x2eb40d81; 0xb7bd5c3b; 0xc0ba6cad;
    0xedb88320; 0x9abfb3b6; 0x03b6e20c; 0x74b1d29a; 0xead54739; 0x9dd277af; 0x04db2615; 0x73dc1683;
    0xe3630b12; 0x94643b84; 0x0d6d6a3e; 0x7a6a5aa8; 0xe40ecf0b; 0x9309ff9d; 0x0a00ae27; 0x7d079eb1;
    0xf00f9344; 0x8708a3d2; 0x1e01f268; 0x6906c2fe; 0xf762575d; 0x806567cb; 0x196c3671; 0x6e6b06e7;
    0xfed41b76; 0x89d32be0; 0x10da7a5a; 0x67dd4acc; 0xf9b9df6f; 0x8ebeeff9; 0x17b7be43; 0x60b08ed5;
    0xd6d6a3e8; 0xa1d1937e; 0x38d8c2c4; 0x4fdff252; 0xd1bb67f1; 0xa6bc5767; 0x3fb506dd; 0x48b2364b;
    0xd80d2bda; 0xaf0a1b4c; 0x36034af6; 0x41047a60; 0xdf60efc3; 0xa867df55; 0x316e8eef; 0x4669be79;
    0xcb61b38c; 0xbc66831a; 0x256fd2a0; 0x5268e236; 0xcc0c7795; 0xbb0b4703; 0x220216b9; 0x5505262f;
    0xc5ba3bbe; 0xb2bd0b28; 0x2bb45a92; 0x5cb36a04; 0xc2d7ffa7; 0xb5d0cf31; 0x2cd99e8b; 0x5bdeae1d;
    0x9b64c2b0; 0xec63f226; 0x756aa39c; 0x026d930a; 0x9c0906a9; 0xeb0e363f; 0x72076785; 0x05005713;
    0x95bf4a82; 0xe2b87a14; 0x7bb12bae; 0x0cb61b38; 0x92d28e9b; 0xe5d5be0d; 0x7cdcefb7; 0x0bdbdf21;
    0x86d3d2d4; 0xf1d4e242; 0x68ddb3f8; 0x1fda836e; 0x81be16cd; 0xf6b9265b; 0x6fb077e1; 0x18b74777;
    0x88085ae6; 0xff0f6a70; 0x66063bca; 0x11010b5c; 0x8f659eff; 0xf862ae69; 0x616bffd3; 0x166ccf45;
    0xa00ae278; 0xd70dd2ee; 0x4e048354; 0x3903b3c2; 0xa7672661; 0xd06016f7; 0x4969474d; 0x3e6e77db;
    0xaed16a4a; 0xd9d65adc; 0x40df0b66; 0x37d83bf0; 0xa9bcae53; 0xdebb9ec5; 0x47b2cf7f; 0x30b5ffe9;
    0xbdbdf21c; 0xcabac28a; 0x53b39330; 0x24b4a3a6; 0xbad03605; 0xcdd70693; 0x54de5729; 0x23d967bf;
    0xb3667a2e; 0xc4614ab8; 0x5d681b02; 0x2a6f2b94; 0xb40bbe37; 0xc30c8ea1; 0x5a05df1b; 0x2d02ef8d].

(** The loop body shared by [CRC32] and [CRC32Engine::Update]:
    [crc32 ^= data[i]; crc32 = (crc32 >> 8) ^ CRC32_LUT[crc32 & 0xFF]]. *)
Definition crc_step (crc32 byte : Z) : Z :=
  let crc32 := Z.lxor crc32 byte in
  Z.lxor (Z.shiftr crc32 8) (nth (Z.to_nat (Z.land crc32 0xFF)) CRC32_LUT 0).

Definition CRC32 (data : list Z) : Z :=
  let crc32 := foldl crc_step 0xFFFFFFFF data in
  Z.lxor crc32 0xFFFFFFFF.

Record CRC32Engine := { crc32 : Z }.

Definition CRC32Engine_new : CRC32Engine := {| crc32 := 0xFFFFFFFF |}.

Definition CRC32Engine_Update (e : CRC32Engine) (data : list Z) : CRC32Engine :=
  {| crc32 := foldl crc_step (crc32 e) data |}.

Definition CRC32Engine_Finalize (e : CRC32Engine) : Z := Z.lxor (crc32 e) 0xFFFFFFFF.

(** ** Specification

    The reflected CRC-32 shifts one bit at a time and subtracts the
    polynomial [0xEDB88320] when the bit shifted out is set. *)
Definition crc_bit (c : Z) : Z :=
  if Z.odd c then Z.lxor (Z.shiftr c 1) 0xEDB88320 else Z.shiftr c 1.

Definition crc_byte_spec (c byte : Z) : Z := Nat.iter 8 crc_bit (Z.lxor c byte).

Definition crc32_spec (data : list Z) : Z :=
  Z.lxor (foldl crc_byte_spec 0xFFFFFFFF data) 0xFFFFFFFF.

Definition byte (b : Z) : Prop := 0 <= b < 256.
#[global] Instance byte_dec b : Decision (byte b).
Proof. unfold byte. apply _. Defined.

(** ** Linearity of the bitwise step *)

Lemma crc_bit_lxor a b : crc_bit (Z.lxor a b) = Z.lxor (crc_bit a) (crc_bit b).
Proof.
  unfold crc_bit. rewrite <- !Z.bit0_odd, Z.lxor_spec, Z.shiftr_lxor.
  apply Z.bits_inj'. intros i _.
  destruct (Z.testbit a 0), (Z.testbit b 0); simpl xorb; rewrite ?Z.lxor_spec; btauto.
Qed.

Lemma crc_bits_lxor n a b :
  Nat.iter n crc_bit (Z.lxor a b) = Z.lxor (Nat.iter n crc_bit a) (Nat.iter n crc_bit b).
Proof. induction n as [|n IH]; simpl; [done|]. by rewrite IH, crc_bit_lxor. Qed.

(** A word whose low [n] bits are clear is only shifted. *)
Lemma crc_bits_shift (n : nat) c :
  Nat.iter n crc_bit (Z.shiftl c (Z.of_nat n)) = c.
Proof.
  revert c. induction n as [|n IH]; intros c.
  - simpl. apply Z.shiftl_0_r.
  - rewrite Nat.iter_succ_r. rewrite <- (IH c) at 2. f_equal.
    unfold crc_bit. rewrite <- Z.bit0_odd, Z.shiftl_spec_low by lia.
    rewrite Z.shiftr_shiftl_l by lia. f_equal. lia.
Qed.

(** The 256 entries of the table are the bitwise reduction of their index. *)
Lemma lut_reduces : forall i, byte i ->
  nth (Z.to_nat i) CRC32_LUT 0 = Nat.iter 8 crc_bit i.
Proof.
  intros i Hi. apply Z.eqb_eq.
  apply (forallb_seqZ (fun i => nth (Z.to_nat i) CRC32_LUT 0 =? Nat.iter 8 crc_bit i) 0 256);
    [by vm_compute|unfold byte in Hi; lia].
Qed.

Lemma split_low_byte c : 0 <= c -> c = Z.lxor (Z.shiftl (Z.shiftr c 8) 8) (Z.land c 0xFF).
Proof.
  intros Hc. change 0xFF with (Z.ones 8). apply Z.bits_inj'. intros i Hi.
  rewrite Z.lxor_spec, Z.land_spec, Z.shiftl_spec by done.
  destruct (Z.lt_ge_cases i 8).
  - rewrite Z.ones_spec_low, (Z.testbit_neg_r _ (i - 8)) by lia. btauto.
  - rewrite Z.ones_spec_high, Z.shiftr_spec, Z.sub_add by lia. btauto.
Qed.

Lemma low_byte c : byte (Z.land c 0xFF).
Proof. change 0xFF with (Z.ones 8). rewrite Z.land_ones by done. apply Z.mod_pos_bound. done. Qed.

Lemma crc_step_spec c b : 0 <= c -> byte b -> crc_step c b = crc_byte_spec c b.
Proof.
  intros Hc Hb. unfold crc_step, crc_byte_spec. set (d := Z.lxor c b).
  assert (0 <= d) by (apply Z.lxor_nonneg; unfold byte in Hb; lia).
  rewrite (split_low_byte d) at 3 by done.
  rewrite crc_bits_lxor. change (Z.shiftl (Z.shiftr d 8) 8) with (Z.shiftl (Z.shiftr d 8) (Z.of_nat 8)).
  rewrite crc_bits_shift, lut_reduces; [done|apply low_byte].
Qed.

(** ** The running value stays a 32-bit word *)

Lemma lut_range i : 0 <= nth i CRC32_LUT 0 < 2 ^ 32.
Proof.
  destruct (Nat.lt_ge_cases i (length CRC32_LUT)) as [Hi|Hi].
  - assert (H : forallb (fun x => (0 <=? x) && (x <? 2 ^ 32)) CRC32_LUT = true) by (by vm_compute).
    rewrite forallb_forall in H. specialize (H _ (nth_In CRC32_LUT 0 Hi)). by boolp.
  - by rewrite nth_overflow by done.
Qed.

Lemma crc_step_range c b : 0 <= c < 2 ^ 32 -> byte b -> 0 <= crc_step c b < 2 ^ 32.
Proof.
  intros Hc Hb. unfold crc_step. apply lxor_range; [done| |apply lut_range].
  apply shiftr_range; [done|]. apply lxor_range; [done..|]. unfold byte in Hb. lia.
Qed.

Lemma crc_fold_range c l :
  0 <= c < 2 ^ 32 -> Forall byte l -> 0 <= foldl crc_step c l < 2 ^ 32.
Proof.
  intros Hc Hl. revert c Hc. induction Hl as [|b l Hb _ IH]; intros c Hc; simpl; [done|].
  apply IH. by apply crc_step_range.
Qed.

Lemma crc_fold_spec c l :
  0 <= c < 2 ^ 32 -> Forall byte l -> foldl crc_step c l = foldl crc_byte_spec c l.
Proof.
  intros Hc Hl. revert c Hc. induction Hl as [|b l Hb _ IH]; intros c Hc; simpl; [done|].
  rewrite <- crc_step_spec by (done || lia). apply IH. by apply crc_step_range.
Qed.

(** ** Injectivity *)

(** The polynomial has bit 31, so the bit shifted out can be read back. *)
Lemma crc_bit_kernel c : 0 <= c < 2 ^ 32 -> crc_bit c = 0 -> c = 0.
Proof.
  intros Hc H. unfold crc_bit in H. destruct (Z.odd c) eqn:E.
  - apply (f_equal (fun z => Z.testbit z 31)) in H.
    rewrite Z.lxor_spec, Z.shiftr_spec, (testbit_high 32 c) in H by done. done.
  - rewrite Z.shiftr_div_pow2 in H by done. rewrite Zodd_mod in E. boolp.
    apply Z.eqb_neq in E. zdiv.
Qed.

Lemma crc_bit_range c : 0 <= c < 2 ^ 32 -> 0 <= crc_bit c < 2 ^ 32.
Proof. intros Hc. unfold crc_bit. destruct (Z.odd c); auto with words lia. Qed.

Lemma crc_bits_kernel n c : 0 <= c < 2 ^ 32 -> Nat.iter n crc_bit c = 0 -> c = 0.
Proof.
  intros Hc. revert c Hc. induction n as [|n IH]; intros c Hc H; [done|].
  rewrite Nat.iter_succ_r in H. apply crc_bit_kernel; [done|].
  apply IH; [by apply crc_bit_range|done].
Qed.

Lemma crc_bits_inj n c d :
  0 <= c < 2 ^ 32 -> 0 <= d < 2 ^ 32 ->
  Nat.iter n crc_bit c = Nat.iter n crc_bit d -> c = d.
Proof.
  intros Hc Hd H. apply Z.lxor_eq, (crc_bits_kernel n); [auto with words lia|].
  by rewrite crc_bits_lxor, H, Z.lxor_nilpotent.
Qed.

Lemma crc_step_inj c d a b :
  0 <= c < 2 ^ 32 -> 0 <= d < 2 ^ 32 -> byte a -> byte b ->
  crc_step c a = crc_step d b -> Z.lxor c a = Z.lxor d b.
Proof.
  intros Hc Hd Ha Hb. rewrite !crc_step_spec by (done || lia).
  unfold byte in *. apply crc_bits_inj; apply lxor_range; lia.
Qed.

Lemma crc_fold_inj c d l :
  0 <= c < 2 ^ 32 -> 0 <= d < 2 ^ 32 -> Forall byte l ->
  foldl crc_step c l = foldl crc_step d l -> c = d.
Proof.
  intros Hc Hd Hl. revert c d Hc Hd. induction Hl as [|b l Hb _ IH]; intros c d Hc Hd H; [done|].
  simpl in H. apply IH in H; [|by apply crc_step_range..].
  apply crc_step_inj in H; [|done..].
  apply (f_equal (Z.lxor b)) in H. rewrite !(Z.lxor_comm b) in H.
  by rewrite !Z.lxor_assoc, Z.lxor_nilpotent, !Z.lxor_0_r in H.
Qed.

(** ** Properties *)

(** C36: the table-driven checksum equals the bitwise reflected CRC-32 of
    polynomial [0xEDB88320] on every byte string. *)
Theorem CRC32_correct (data : list Z) :
  Forall byte data -> CRC32 data = crc32_spec data.
Proof. intros H. unfold CRC32, crc32_spec. by rewrite crc_fold_spec. Qed.

Lemma CRC32_correct_witness :
  CRC32 [49; 50; 51; 52; 53; 54; 55; 56; 57] = crc32_spec [49; 50; 51; 52; 53; 54; 55; 56; 57]
  /\ CRC32 [49; 50; 51; 52; 53; 54; 55; 56; 57] = 0xCBF43926.
Proof.
  split; [|by vm_compute]. apply CRC32_correct.
  repeat constructor; by vm_compute.
Defined.

(** feeding the engine any number of chunks and finalising gives the
    one-shot checksum of their concatenation. *)
Theorem CRC32Engine_chunks (chunks : list (list Z)) :
  CRC32Engine_Finalize (foldl CRC32Engine_Update CRC32Engine_new chunks)
  = CRC32 (concat chunks).
Proof.
  unfold CRC32Engine_Finalize, CRC32. f_equal.
  change 0xFFFFFFFF with (crc32 CRC32Engine_new). generalize CRC32Engine_new.
  induction chunks as [|l ls IH]; intros e; simpl; [done|].
  by rewrite IH, foldl_app.
Qed.

(** two messages that differ in exactly one byte never have the same
    checksum. *)
Theorem CRC32_detects_byte (pre post : list Z) (a b : Z) :
  Forall byte pre -> Forall byte post -> byte a -> byte b -> a <> b ->
  CRC32 (pre ++ a :: post) <> CRC32 (pre ++ b :: post).
Proof.
  intros Hpre Hpost Ha Hb Hab H. unfold CRC32 in H.
  apply (f_equal (fun z => Z.lxor z 0xFFFFFFFF)) in H.
  rewrite !Z.lxor_assoc, Z.lxor_nilpotent, !Z.lxor_0_r, !foldl_app in H. simpl in H.
  pose proof (crc_fold_range 0xFFFFFFFF pre ltac:(done) Hpre) as Hr.
  apply crc_fold_inj in H; [|by apply crc_step_range..|done].
  apply crc_step_inj in H; [|done..]. apply Hab.
  apply (f_equal (Z.lxor (foldl crc_step 0xFFFFFFFF pre))) in H.
  by rewrite <- !Z.lxor_assoc, Z.lxor_nilpotent, !Z.lxor_0_l in H.
Qed.

Lemma CRC32_detects_byte_witness : CRC32 ([1; 2] ++ 3 :: [4]) <> CRC32 ([1; 2] ++ 7 :: [4]).
Proof. apply CRC32_detects_byte; [repeat constructor; by vm_compute..|by vm_compute|by vm_compute|done]. Defined.
