(* ===== verification/Paging.v ===== *)
(** * Component: page-table entries and recursive mapping
    ([kernel/src/mm/Paging.cpp], [kernel/include/mm/Paging.hpp],
    [common/include/shared/memory/defs.hpp])

    The four entry formats with their encoders and decoders, the arithmetic
    of the two recursive mappings, and the software walk that reads the
    tables through them.  An entry is a 64-bit word; the tables are read
    through a function from virtual addresses to 64-bit words. *)
From S2P Require Import Prelude.

(** ** Constants of [defs.hpp] *)

Definition PAGE_SIZE : Z := 0x1000.
Definition FRAME_SIZE : Z := 0x1000.
Definition PT_ENTRIES : Z := 0x200.
Definition ENTRY_SIZE : Z := 8.
Definition PML4E_COVERAGE : Z := 0x8000000000.
Definition PDPTE_COVERAGE : Z := 0x40000000.
Definition PDE_COVERAGE : Z := 0x200000.
Definition PTE_COVERAGE : Z := 0x1000.

(** Bits shared by the four levels ([PML4E_PRESENT], [PDPTE_PRESENT], ...). *)
Definition PRESENT : Z := 0x1.
Definition READWRITE : Z := 0x2.
Definition USERMODE : Z := 0x4.
Definition PWT_BIT : Z := 0x8.
Definition PCD_BIT : Z := 0x10.
Definition ACCESSED : Z := 0x20.
Definition DIRTY : Z := 0x40.
Definition PAGE_SIZE_BIT : Z := 0x80.
Definition GLOBAL : Z := 0x100.
Definition XD : Z := 0x8000000000000000.
Definition PTE_PAT : Z := 0x80.
Definition LARGE_PAT : Z := 0x1000.
Definition ADDRESS : Z := 0xFFFFFFFFFF000.
Definition PDE_2MB_ADDRESS : Z := 0xFFFFFFFE00000.
Definition PDPTE_1GB_ADDRESS : Z := 0xFFFFFC0000000.

(** ** Entry formats *)

Record PTEInfo := {
  pte_present : bool; pte_readWrite : bool; pte_userMode : bool; pte_PWT : bool;
  pte_PCD : bool; pte_accessed : bool; pte_dirty : bool; pte_PAT : bool;
  pte_global : bool; pte_executeDisable : bool; pte_address : Z }.

(** [PDEInfo] and [PDPTEInfo] have the same fields. *)
Record PDEInfo := {
  pde_present : bool; pde_readWrite : bool; pde_userMode : bool; pde_PWT : bool;
  pde_PCD : bool; pde_accessed : bool; pde_dirty : bool; pde_pageSize : bool;
  pde_global : bool; pde_PAT : bool; pde_executeDisable : bool; pde_address : Z }.

Record PML4EInfo := {
  pml4e_present : bool; pml4e_readWrite : bool; pml4e_userMode : bool; pml4e_PWT : bool;
  pml4e_PCD : bool; pml4e_accessed : bool; pml4e_executeDisable : bool; pml4e_address : Z }.

Definition GetPTEInfo (pte : Z) : PTEInfo := {|
  pte_present := hasflag pte PRESENT;
  pte_readWrite := hasflag pte READWRITE;
  pte_userMode := hasflag pte USERMODE;
  pte_PWT := hasflag pte PWT_BIT;
  pte_PCD := hasflag pte PCD_BIT;
  pte_accessed := hasflag pte ACCESSED;
  pte_dirty := hasflag pte DIRTY;
  pte_PAT := hasflag pte PTE_PAT;
  pte_global := hasflag pte GLOBAL;
  pte_executeDisable := hasflag pte XD;
  pte_address := Z.land pte ADDRESS |}.

Definition SetPTEInfo (info : PTEInfo) : Z :=
  let entry := 0 in
  let entry := orif (pte_present info) entry PRESENT in
  let entry := orif (pte_readWrite info) entry READWRITE in
  let entry := orif (pte_userMode info) entry USERMODE in
  let entry := orif (pte_PWT info) entry PWT_BIT in
  let entry := orif (pte_PCD info) entry PCD_BIT in
  let entry := orif (pte_PAT info) entry PTE_PAT in
  let entry := orif (pte_global info) entry GLOBAL in
  let entry := orif (pte_executeDisable info) entry XD in
  Z.lor entry (Z.land (pte_address info) ADDRESS).

(** The decoders of PDEs and PDPTEs differ in the mask of a large page only. *)
Definition GetLargeInfo (large_mask pde : Z) : PDEInfo :=
  let pageSize := hasflag pde PAGE_SIZE_BIT in
  {| pde_present := hasflag pde PRESENT;
     pde_readWrite := hasflag pde READWRITE;
     pde_userMode := hasflag pde USERMODE;
     pde_PWT := hasflag pde PWT_BIT;
     pde_PCD := hasflag pde PCD_BIT;
     pde_accessed := hasflag pde ACCESSED;
     pde_dirty := if pageSize then hasflag pde DIRTY else false;
     pde_pageSize := pageSize;
     pde_global := if pageSize then hasflag pde GLOBAL else false;
     pde_PAT := if pageSize then hasflag pde LARGE_PAT else false;
     pde_executeDisable := hasflag pde XD;
     pde_address := if pageSize then Z.land pde large_mask else Z.land pde ADDRESS |}.

Definition SetLargeInfo (large_mask : Z) (info : PDEInfo) : Z :=
  let entry := 0 in
  let entry := orif (pde_present info) entry PRESENT in
  let entry := orif (pde_readWrite info) entry READWRITE in
  let entry := orif (pde_userMode info) entry USERMODE in
  let entry := orif (pde_PWT info) entry PWT_BIT in
  let entry := orif (pde_PCD info) entry PCD_BIT in
  let entry := orif (pde_pageSize info) entry PAGE_SIZE_BIT in
  let entry := orif (pde_executeDisable info) entry XD in
  if pde_pageSize info then
    let entry := orif (pde_global info) entry GLOBAL in
    let entry := orif (pde_PAT info) entry LARGE_PAT in
    Z.lor entry (Z.land (pde_address info) large_mask)
  else Z.lor entry (Z.land (pde_address info) ADDRESS).

Definition GetPDEInfo : Z -> PDEInfo := GetLargeInfo PDE_2MB_ADDRESS.
Definition SetPDEInfo : PDEInfo -> Z := SetLargeInfo PDE_2MB_ADDRESS.
Definition GetPDPTEInfo : Z -> PDEInfo := GetLargeInfo PDPTE_1GB_ADDRESS.
Definition SetPDPTEInfo : PDEInfo -> Z := SetLargeInfo PDPTE_1GB_ADDRESS.

Definition GetPML4EInfo (pml4e : Z) : PML4EInfo := {|
  pml4e_present := hasflag pml4e PRESENT;
  pml4e_readWrite := hasflag pml4e READWRITE;
  pml4e_userMode := hasflag pml4e USERMODE;
  pml4e_PWT := hasflag pml4e PWT_BIT;
  pml4e_PCD := hasflag pml4e PCD_BIT;
  pml4e_accessed := hasflag pml4e ACCESSED;
  pml4e_executeDisable := hasflag pml4e XD;
  pml4e_address := Z.land pml4e ADDRESS |}.

Definition SetPML4EInfo (info : PML4EInfo) : Z :=
  let entry := 0 in
  let entry := orif (pml4e_present info) entry PRESENT in
  let entry := orif (pml4e_readWrite info) entry READWRITE in
  let entry := orif (pml4e_userMode info) entry USERMODE in
  let entry := orif (pml4e_PWT info) entry PWT_BIT in
  let entry := orif (pml4e_PCD info) entry PCD_BIT in
  let entry := orif (pml4e_executeDisable info) entry XD in
  Z.lor entry (Z.land (pml4e_address info) ADDRESS).

(** [UnmapPTE], [UnmapPDE], [UnmapPDPTE] and [UnmapPML4E] store zero. *)
Definition UnmapEntry : Z := 0.

(** ** Virtual addresses *)

Record VirtualAddress := {
  PML4_offset : Z; PDPT_offset : Z; PD_offset : Z; PT_offset : Z; offset : Z }.

Definition ParseVirtualAddress (address : Z) : VirtualAddress := {|
  PML4_offset := Z.land (Z.shiftr address 39) 0x1FF;
  PDPT_offset := Z.land (Z.shiftr address 30) 0x1FF;
  PD_offset := Z.land (Z.shiftr address 21) 0x1FF;
  PT_offset := Z.land (Z.shiftr address 12) 0x1FF;
  offset := Z.land address 0xFFF |}.

Definition va_ok (v : VirtualAddress) : Prop :=
  0 <= PML4_offset v < 512 /\ 0 <= PDPT_offset v < 512 /\ 0 <= PD_offset v < 512
  /\ 0 <= PT_offset v < 512 /\ 0 <= offset v < 4096.

(** ** Recursive mappings

    [Shared::Memory::Layout::PAGING_LOOP_*] (PML4 slot 510) and
    [Paging::Secondary::PAGING_LOOP_*] (slot 509). *)

Definition RecursiveMemoryMapping_start : Z := 0xFFFFFF0000000000.
Definition SecondaryRecursiveMapping_start : Z := 0xFFFFFE8000000000.

Definition mapping_start (usePrimary : bool) : Z :=
  if usePrimary then RecursiveMemoryMapping_start else SecondaryRecursiveMapping_start.

Definition PAGING_LOOP_MASK (p : bool) : Z := Z.land (Z.shiftr (mapping_start p) 39) 0x1FF.
Definition PAGING_LOOP_1 (p : bool) : Z := mapping_start p.
Definition PAGING_LOOP_2 (p : bool) : Z :=
  Z.lor (PAGING_LOOP_1 p) (Z.shiftl (PAGING_LOOP_MASK p) 30).
Definition PAGING_LOOP_3 (p : bool) : Z :=
  Z.lor (PAGING_LOOP_2 p) (Z.shiftl (PAGING_LOOP_MASK p) 21).
Definition PAGING_LOOP_4 (p : bool) : Z :=
  Z.lor (PAGING_LOOP_3 p) (Z.shiftl (PAGING_LOOP_MASK p) 12).

Definition GetPTAddress (a : VirtualAddress) (p : bool) : Z :=
  Z.lor (Z.lor (Z.lor (PAGING_LOOP_1 p) (Z.shiftl (PML4_offset a) 30))
    (Z.shiftl (PDPT_offset a) 21)) (Z.shiftl (PD_offset a) 12).

Definition GetPDAddress (a : VirtualAddress) (p : bool) : Z :=
  Z.lor (Z.lor (PAGING_LOOP_2 p) (Z.shiftl (PML4_offset a) 21))
    (Z.shiftl (PDPT_offset a) 12).

Definition GetPDPTAddress (a : VirtualAddress) (p : bool) : Z :=
  Z.lor (PAGING_LOOP_3 p) (Z.shiftl (PML4_offset a) 12).

Definition GetPML4Address (p : bool) : Z := PAGING_LOOP_4 p.

(** Pointer arithmetic on [uint64_t*]: the index is scaled by [ENTRY_SIZE]. *)
Definition GetPTEAddress (a : VirtualAddress) (p : bool) : Z :=
  u64 (GetPTAddress a p + ENTRY_SIZE * PT_offset a).
Definition GetPDEAddress (a : VirtualAddress) (p : bool) : Z :=
  u64 (GetPDAddress a p + ENTRY_SIZE * PD_offset a).
Definition GetPDPTEAddress (a : VirtualAddress) (p : bool) : Z :=
  u64 (GetPDPTAddress a p + ENTRY_SIZE * PDPT_offset a).
Definition GetPML4EAddress (a : VirtualAddress) (p : bool) : Z :=
  u64 (GetPML4Address p + ENTRY_SIZE * PML4_offset a).

(** ** The software walk

    [vmem] gives the 64-bit word at a virtual address, as the dereferences of
    the entry pointers read it. *)
Section Walk.
Context (vmem : Z -> Z).

Definition IsMapped (virtual_address : Z) (usePrimary : bool) : bool :=
  let mapping := ParseVirtualAddress virtual_address in
  if negb (pml4e_present (GetPML4EInfo (vmem (GetPML4EAddress mapping usePrimary)))) then false
  else if negb (pde_present (GetPDPTEInfo (vmem (GetPDPTEAddress mapping usePrimary)))) then false
  else
    let pde_info := GetPDEInfo (vmem (GetPDEAddress mapping usePrimary)) in
    if negb (pde_present pde_info) then false
    else if pde_pageSize pde_info then true
    else pte_present (GetPTEInfo (vmem (GetPTEAddress mapping usePrimary))).

Definition GetPhysicalAddress (virtual_address : Z) (usePrimary : bool) : option Z :=
  let mapping := ParseVirtualAddress virtual_address in
  if negb (IsMapped virtual_address usePrimary) then None
  else
    let pde_info := GetPDEInfo (vmem (GetPDEAddress mapping usePrimary)) in
    if pde_pageSize pde_info then
      let frame_offset := Z.land virtual_address (PDE_COVERAGE - 1) in
      Some (Z.lor (pde_address pde_info) frame_offset)
    else
      let pte_info := GetPTEInfo (vmem (GetPTEAddress mapping usePrimary)) in
      if negb (pte_present pte_info) then None
      else
        let frame_offset := Z.land virtual_address (PTE_COVERAGE - 1) in
        Some (Z.lor (pte_address pte_info) frame_offset).
End Walk.

(** What survives being written to an entry: the processor-owned accessed and
    dirty bits are not written, the address is truncated to its field, and a
    non-leaf PDE or PDPTE has neither global nor PAT bit. *)
Definition pte_norm (i : PTEInfo) : PTEInfo := {|
  pte_present := pte_present i; pte_readWrite := pte_readWrite i;
  pte_userMode := pte_userMode i; pte_PWT := pte_PWT i; pte_PCD := pte_PCD i;
  pte_accessed := false; pte_dirty := false; pte_PAT := pte_PAT i;
  pte_global := pte_global i; pte_executeDisable := pte_executeDisable i;
  pte_address := Z.land (pte_address i) ADDRESS |}.

Definition pde_norm (large_mask : Z) (i : PDEInfo) : PDEInfo := {|
  pde_present := pde_present i; pde_readWrite := pde_readWrite i;
  pde_userMode := pde_userMode i; pde_PWT := pde_PWT i; pde_PCD := pde_PCD i;
  pde_accessed := false; pde_dirty := false; pde_pageSize := pde_pageSize i;
  pde_global := pde_pageSize i && pde_global i; pde_PAT := pde_pageSize i && pde_PAT i;
  pde_executeDisable := pde_executeDisable i;
  pde_address := Z.land (pde_address i) (if pde_pageSize i then large_mask else ADDRESS) |}.

Definition pml4e_norm (i : PML4EInfo) : PML4EInfo := {|
  pml4e_present := pml4e_present i; pml4e_readWrite := pml4e_readWrite i;
  pml4e_userMode := pml4e_userMode i; pml4e_PWT := pml4e_PWT i; pml4e_PCD := pml4e_PCD i;
  pml4e_accessed := false; pml4e_executeDisable := pml4e_executeDisable i;
  pml4e_address := Z.land (pml4e_address i) ADDRESS |}.

(** ** Lemmas on entries *)

(** Evaluates the bits of the constants in the goal. *)
Ltac eval_testbits :=
  repeat match goal with
  | |- context [Z.testbit ?c ?k] =>
      let v := eval vm_compute in (Z.testbit c k) in
      match v with
      | true => change (Z.testbit c k) with true
      | false => change (Z.testbit c k) with false
      end
  end.

(** One flag of a decoded entry. *)
Ltac solve_flag :=
  match goal with |- context [hasflag ?x ?m] =>
    let k := eval vm_compute in (Z.log2 m) in
    change (hasflag x m) with (hasflag x (2 ^ k));
    rewrite (hasflag_pow2 _ k) by done
  end;
  rewrite ?Z.lor_spec, ?testbit_orif, ?Z.land_spec; eval_testbits; btauto.

(** The address field of a decoded entry. *)
Ltac solve_address :=
  rewrite Z.land_lor_distr_l, !land_orif by reflexivity;
  rewrite Z.land_0_l, Z.lor_0_l, <- Z.land_assoc; f_equal.

Lemma GetSetPTE i : GetPTEInfo (SetPTEInfo i) = pte_norm i.
Proof.
  unfold GetPTEInfo, SetPTEInfo, pte_norm; cbv zeta.
  f_equal; try solve_flag. solve_address.
Qed.

Lemma GetSetLarge m i :
  m = PDE_2MB_ADDRESS \/ m = PDPTE_1GB_ADDRESS ->
  GetLargeInfo m (SetLargeInfo m i) = pde_norm m i.
Proof.
  intros Hm. unfold GetLargeInfo, SetLargeInfo, pde_norm; cbv zeta.
  assert (Hps : hasflag (SetLargeInfo m i) PAGE_SIZE_BIT = pde_pageSize i).
  { unfold SetLargeInfo; cbv zeta.
    destruct (pde_pageSize i), Hm as [-> | ->]; solve_flag. }
  unfold SetLargeInfo in Hps; cbv zeta in Hps. rewrite Hps.
  destruct (pde_pageSize i) eqn:E, Hm as [-> | ->];
    f_equal; try solve_flag; try (by rewrite E); solve_address.
Qed.

Lemma GetSetPML4E i : GetPML4EInfo (SetPML4EInfo i) = pml4e_norm i.
Proof.
  unfold GetPML4EInfo, SetPML4EInfo, pml4e_norm; cbv zeta.
  f_equal; try solve_flag. solve_address.
Qed.

(** ** Lemmas on addresses *)

(** Parsing is positional decomposition in base 512, 512, 512, 512, 4096. *)
Lemma ParseVirtualAddress_digits x :
  ParseVirtualAddress x = {|
    PML4_offset := (x / 2 ^ 39) mod 512; PDPT_offset := (x / 2 ^ 30) mod 512;
    PD_offset := (x / 2 ^ 21) mod 512; PT_offset := (x / 2 ^ 12) mod 512;
    offset := x mod 4096 |}.
Proof.
  unfold ParseVirtualAddress. change 0x1FF with (Z.ones 9). change 0xFFF with (Z.ones 12).
  by rewrite !field_div_mod, Z.land_ones by done.
Qed.

Lemma ParseVirtualAddress_ok x : va_ok (ParseVirtualAddress x).
Proof.
  rewrite ParseVirtualAddress_digits. unfold va_ok; simpl.
  repeat split; apply Z.mod_pos_bound; done.
Qed.

Lemma ParseVirtualAddress_pages x :
  let v := ParseVirtualAddress x in
  PML4_offset v * 2 ^ 27 + PDPT_offset v * 2 ^ 18 + PD_offset v * 2 ^ 9 + PT_offset v
  = (x mod 2 ^ 48) / PAGE_SIZE.
Proof.
  rewrite ParseVirtualAddress_digits. unfold PAGE_SIZE; cbn [PML4_offset PDPT_offset PD_offset PT_offset].
  zdiv.
Qed.

(** The address as a sum of its digits above a base. *)
Definition va_sum (base d39 d30 d21 d12 off : Z) : Z :=
  base * 2 ^ 48 + d39 * 2 ^ 39 + d30 * 2 ^ 30 + d21 * 2 ^ 21 + d12 * 2 ^ 12 + off.

Lemma Parse_va_sum base a b c d off :
  0 <= a < 512 -> 0 <= b < 512 -> 0 <= c < 512 -> 0 <= d < 512 -> 0 <= off < 4096 ->
  ParseVirtualAddress (va_sum base a b c d off) = {|
    PML4_offset := a; PDPT_offset := b; PD_offset := c; PT_offset := d; offset := off |}.
Proof.
  intros. rewrite ParseVirtualAddress_digits. unfold va_sum.
  f_equal; change (2 ^ 48) with (2 ^ 9 * 2 ^ 39); zdiv.
Qed.

Lemma va_sum_u64 base a b c d off :
  0 <= base < 2 ^ 16 ->
  0 <= a < 512 -> 0 <= b < 512 -> 0 <= c < 512 -> 0 <= d < 512 -> 0 <= off < 4096 ->
  u64 (va_sum base a b c d off) = va_sum base a b c d off.
Proof. intros. apply wrap_small. unfold va_sum. lia. Qed.

(** The PML4 slot of a recursive mapping. *)
Definition loop_slot (p : bool) : Z := if p then 510 else 509.

Lemma loop_slot_range p : 0 <= loop_slot p < 512.
Proof. by destruct p. Qed.

Lemma loop_bases p :
  PAGING_LOOP_1 p = (0xFFFF * 512 + loop_slot p) * 2 ^ 39
  /\ PAGING_LOOP_2 p = ((0xFFFF * 512 + loop_slot p) * 512 + loop_slot p) * 2 ^ 30
  /\ PAGING_LOOP_3 p
     = (((0xFFFF * 512 + loop_slot p) * 512 + loop_slot p) * 512 + loop_slot p) * 2 ^ 21
  /\ PAGING_LOOP_4 p
     = ((((0xFFFF * 512 + loop_slot p) * 512 + loop_slot p) * 512 + loop_slot p) * 512
        + loop_slot p) * 2 ^ 12.
Proof. by destruct p. Qed.

(** One [|] of a shifted 9-bit field below a multiple of the next power. *)
Lemma lor_field x y k :
  0 <= k -> 0 <= y < 512 ->
  Z.lor (x * 2 ^ (k + 9)) (Z.shiftl y k) = (x * 512 + y) * 2 ^ k.
Proof.
  intros Hk Hy. assert (0 < 2 ^ k) by auto with words.
  rewrite Z.shiftl_mul_pow2, lor_mul_low, Z.pow_add_r by (rewrite ?Z.pow_add_r; lia || nia).
  change (2 ^ 9) with 512. lia.
Qed.

Lemma GetPTEAddress_sum a p :
  va_ok a ->
  GetPTEAddress a p = va_sum 0xFFFF (loop_slot p) (PML4_offset a) (PDPT_offset a)
                        (PD_offset a) (8 * PT_offset a).
Proof.
  intros (H1 & H2 & H3 & H4 & H5). pose proof (loop_slot_range p).
  rewrite <- va_sum_u64 by lia. unfold GetPTEAddress. f_equal. unfold GetPTAddress.
  destruct (loop_bases p) as (-> & _).
  rewrite (lor_field _ _ 30), (lor_field _ _ 21), (lor_field _ _ 12) by lia.
  unfold va_sum, ENTRY_SIZE. lia.
Qed.

Lemma GetPDEAddress_sum a p :
  va_ok a ->
  GetPDEAddress a p = va_sum 0xFFFF (loop_slot p) (loop_slot p) (PML4_offset a)
                        (PDPT_offset a) (8 * PD_offset a).
Proof.
  intros (H1 & H2 & H3 & H4 & H5). pose proof (loop_slot_range p).
  rewrite <- va_sum_u64 by lia. unfold GetPDEAddress. f_equal. unfold GetPDAddress.
  destruct (loop_bases p) as (_ & -> & _).
  rewrite (lor_field _ _ 21), (lor_field _ _ 12) by lia.
  unfold va_sum, ENTRY_SIZE. lia.
Qed.

Lemma GetPDPTEAddress_sum a p :
  va_ok a ->
  GetPDPTEAddress a p = va_sum 0xFFFF (loop_slot p) (loop_slot p) (loop_slot p)
                          (PML4_offset a) (8 * PDPT_offset a).
Proof.
  intros (H1 & H2 & H3 & H4 & H5). pose proof (loop_slot_range p).
  rewrite <- va_sum_u64 by lia. unfold GetPDPTEAddress. f_equal. unfold GetPDPTAddress.
  destruct (loop_bases p) as (_ & _ & -> & _).
  rewrite (lor_field _ _ 12) by lia. unfold va_sum, ENTRY_SIZE. lia.
Qed.

Lemma GetPML4EAddress_sum a p :
  va_ok a ->
  GetPML4EAddress a p = va_sum 0xFFFF (loop_slot p) (loop_slot p) (loop_slot p)
                          (loop_slot p) (8 * PML4_offset a).
Proof.
  intros (H1 & H2 & H3 & H4 & H5). pose proof (loop_slot_range p).
  rewrite <- va_sum_u64 by lia. unfold GetPML4EAddress. f_equal. unfold GetPML4Address.
  destruct (loop_bases p) as (_ & _ & _ & ->). unfold va_sum, ENTRY_SIZE. lia.
Qed.

(** A field mask keeps the digits between two powers of two. *)
Lemma land_mask e k n :
  0 <= k -> 0 <= n -> Z.land e (Z.shiftl (Z.ones n) k) = (e / 2 ^ k) mod 2 ^ n * 2 ^ k.
Proof.
  intros Hk Hn. rewrite <- field_div_mod, <- Z.shiftl_mul_pow2 by done.
  apply Z.bits_inj'. intros i Hi. rewrite Z.land_spec, !Z.shiftl_spec by done.
  destruct (Z.lt_ge_cases i k).
  - rewrite !(Z.testbit_neg_r _ (i - k)) by lia. btauto.
  - rewrite Z.land_spec, Z.shiftr_spec, Z.sub_add by lia. done.
Qed.

Lemma frame_lor_offset e k n x :
  0 <= k -> 0 <= n ->
  Z.lor (Z.land e (Z.shiftl (Z.ones n) k)) (Z.land x (2 ^ k - 1))
  = (e / 2 ^ k) mod 2 ^ n * 2 ^ k + x mod 2 ^ k.
Proof.
  intros Hk Hn. rewrite land_mask by done. assert (0 < 2 ^ k) by auto with words.
  replace (2 ^ k - 1) with (Z.ones k) by (rewrite Z.ones_equiv; lia).
  rewrite Z.land_ones by done. apply lor_mul_low; [done|]. by apply Z.mod_pos_bound.
Qed.

(** ** Properties *)

(** decoding an entry just encoded gives back every field that the
    encoder stores, at the four levels and for small and large pages. *)
Theorem entries_roundtrip (i : PTEInfo) (d t : PDEInfo) (r : PML4EInfo) :
  GetPTEInfo (SetPTEInfo i) = pte_norm i
  /\ GetPDEInfo (SetPDEInfo d) = pde_norm PDE_2MB_ADDRESS d
  /\ GetPDPTEInfo (SetPDPTEInfo t) = pde_norm PDPTE_1GB_ADDRESS t
  /\ GetPML4EInfo (SetPML4EInfo r) = pml4e_norm r.
Proof.
  split; [apply GetSetPTE|]. split; [apply GetSetLarge; by left|].
  split; [apply GetSetLarge; by right|apply GetSetPML4E].
Qed.

(** the address computed for the entry of [x] at each level goes through
    the recursive slot once per level above the table wanted, then through
    the indices of [x], and its page offset selects the entry. *)
Theorem recursive_mapping (x : Z) (p : bool) :
  let v := ParseVirtualAddress x in let s := loop_slot p in
  ParseVirtualAddress (GetPTEAddress v p)
    = {| PML4_offset := s; PDPT_offset := PML4_offset v; PD_offset := PDPT_offset v;
         PT_offset := PD_offset v; offset := 8 * PT_offset v |}
  /\ ParseVirtualAddress (GetPDEAddress v p)
    = {| PML4_offset := s; PDPT_offset := s; PD_offset := PML4_offset v;
         PT_offset := PDPT_offset v; offset := 8 * PD_offset v |}
  /\ ParseVirtualAddress (GetPDPTEAddress v p)
    = {| PML4_offset := s; PDPT_offset := s; PD_offset := s;
         PT_offset := PML4_offset v; offset := 8 * PDPT_offset v |}
  /\ ParseVirtualAddress (GetPML4EAddress v p)
    = {| PML4_offset := s; PDPT_offset := s; PD_offset := s;
         PT_offset := s; offset := 8 * PML4_offset v |}.
Proof.
  intros v s. pose proof (ParseVirtualAddress_ok x) as Hok. fold v in Hok.
  pose proof (loop_slot_range p) as Hs. fold s in Hs.
  rewrite GetPTEAddress_sum, GetPDEAddress_sum, GetPDPTEAddress_sum, GetPML4EAddress_sum by done.
  destruct Hok as (H1 & H2 & H3 & H4 & H5). fold s.
  rewrite !Parse_va_sum by lia. done.
Qed.

(** two addresses share their page-table entry exactly when they lie in
    the same 4 KiB page of the 48-bit address space. *)
Theorem GetPTEAddress_injective (x y : Z) (p : bool) :
  GetPTEAddress (ParseVirtualAddress x) p = GetPTEAddress (ParseVirtualAddress y) p
  <-> (x mod 2 ^ 48) / PAGE_SIZE = (y mod 2 ^ 48) / PAGE_SIZE.
Proof.
  rewrite !GetPTEAddress_sum by apply ParseVirtualAddress_ok.
  rewrite <- (ParseVirtualAddress_pages x), <- (ParseVirtualAddress_pages y).
  destruct (ParseVirtualAddress_ok x) as (? & ? & ? & ? & _).
  destruct (ParseVirtualAddress_ok y) as (? & ? & ? & ? & _).
  unfold va_sum. lia.
Qed.

(** a mapped address translates to its frame plus the offset of the
    address in the page, 2 MiB or 4 KiB according to bit 7 of the directory
    entry; an unmapped one has no translation. *)
Theorem GetPhysicalAddress_translates (vmem : Z -> Z) (x : Z) (p : bool) :
  GetPhysicalAddress vmem x p =
    let v := ParseVirtualAddress x in
    let e2 := vmem (GetPDEAddress v p) in
    let e1 := vmem (GetPTEAddress v p) in
    if IsMapped vmem x p then
      Some (if Z.testbit e2 7
            then (e2 / 2 ^ 21) mod 2 ^ 31 * 2 ^ 21 + x mod 2 ^ 21
            else (e1 / 2 ^ 12) mod 2 ^ 40 * 2 ^ 12 + x mod 2 ^ 12)
    else None.
Proof.
  cbv zeta. unfold GetPhysicalAddress. destruct (IsMapped vmem x p) eqn:Hm; [|done].
  set (v := ParseVirtualAddress x) in *. set (e2 := vmem (GetPDEAddress v p)) in *.
  set (e1 := vmem (GetPTEAddress v p)) in *. simpl negb. cbv iota.
  assert (Hps : pde_pageSize (GetPDEInfo e2) = Z.testbit e2 7)
    by (simpl; change PAGE_SIZE_BIT with (2 ^ 7); by rewrite hasflag_pow2).
  rewrite Hps. destruct (Z.testbit e2 7) eqn:E.
  - f_equal. change (pde_address (GetPDEInfo e2)) with
      (if hasflag e2 (2 ^ 7) then Z.land e2 PDE_2MB_ADDRESS else Z.land e2 ADDRESS).
    rewrite hasflag_pow2, E by done. apply (frame_lor_offset e2 21 31); done.
  - assert (Hp : pte_present (GetPTEInfo e1) = true).
    { unfold IsMapped in Hm. fold v e1 e2 in Hm. rewrite Hps in Hm.
      repeat case_match; done. }
    cbv zeta. simpl in Hp |- *. rewrite Hp. simpl negb. cbv iota. f_equal. apply (frame_lor_offset e1 12 40); done.
Qed.
