(* ===== verification/PhysMem.v ===== *)
(** * Component: physical memory ([kernel/src/mm/PhysicalMemory.cpp])

    The hierarchical bitmap allocator: one bit per 4 KiB page, an
    (any used, any free) pair of bits per 2 MiB and per 32 MiB region, two
    ring caches of free regions and one cached page, and the byte bitmap of
    the DMA zone.  This file holds the state and the operations; the
    properties are in [PhysMemProps]. *)
From S2P Require Import Prelude Paging.

(** ** Constants *)

Definition DMAZone_start : Z := 0.
Definition DMAZone_limit : Z := 0x1000000.
Definition DMA_PAGES : Z := DMAZone_limit / FRAME_SIZE.
Definition DMA_BITMAP_SIZE : Z := DMA_PAGES / 8.
Definition MAX_ADDRESSABLE_MEMORY : Z := 0x4000000000.
Definition BITMAP_ENTRIES_4KB : Z := MAX_ADDRESSABLE_MEMORY / PTE_COVERAGE.
Definition BITMAP_ENTRIES_2MB : Z := BITMAP_ENTRIES_4KB / PT_ENTRIES.
Definition BITMAP_ENTRIES_32MB : Z := BITMAP_ENTRIES_2MB / 16.
Definition BITMAP_WORDS_4KB : Z := BITMAP_ENTRIES_4KB / 64.
Definition BITMAP_WORDS_2MB : Z := BITMAP_ENTRIES_2MB / 64.
Definition BITMAP_WORDS_32MB : Z := BITMAP_ENTRIES_32MB / 64.
Definition ALL_ONES : Z := 0xFFFFFFFFFFFFFFFF.

(** ** Arrays of words *)

Abbreviation words := (Z -> Z).

(** [(W[r / 64] & (UNIT << (r % 64))) != 0], and the two updates. *)
Definition getbit (f : words) (r : Z) : bool := hasbit (f (r / 64)) (r mod 64).
Definition setw (f : words) (r : Z) : words := <[r / 64 := f (r / 64) .| (r mod 64)]> f.
Definition clrw (f : words) (r : Z) : words := <[r / 64 := f (r / 64) .\ (r mod 64)]> f.

(** [if (c) W |= bit; else W &= ~bit]. *)
Definition putw (c : bool) (f : words) (r : Z) : words := if c then setw f r else clrw f r.

(** [for (w = lo; w < hi; ++w) W[w] = v]. *)
Definition fillw (lo hi v : Z) (f : words) : words :=
  foldl (fun f w => <[w := v]> f) f (seqZ lo (hi - lo)).

(** [std::countr_zero] on 64 bits. *)
Definition countr_zero (x : Z) : Z := default 64 (find (Z.testbit x) (seqZ 0 64)).

(** ** The ring of cached regions *)

Definition CACHE_SIZE : Z := 64.

Record LargeMemoryCache := {
  cache : words; cache_head : Z; cache_tail : Z; cache_count : Z }.

Definition cache_empty : LargeMemoryCache :=
  {| cache := fun _ => 0; cache_head := 0; cache_tail := 0; cache_count := 0 |}.

Definition IsEmpty (c : LargeMemoryCache) : bool := cache_count c =? 0.
Definition IsFull (c : LargeMemoryCache) : bool := cache_count c =? CACHE_SIZE.

Definition Push (c : LargeMemoryCache) (entry : Z) : LargeMemoryCache :=
  if negb (IsFull c) then
    {| cache := <[cache_tail c := u32 entry]> (cache c);
       cache_head := cache_head c;
       cache_tail := (cache_tail c + 1) mod CACHE_SIZE;
       cache_count := cache_count c + 1 |}
  else c.

Definition Pop (c : LargeMemoryCache) : LargeMemoryCache * option Z :=
  if negb (IsEmpty c) then
    let entry := cache c (cache_head c) in
    ({| cache := cache c;
        cache_head := (cache_head c + 1) mod CACHE_SIZE;
        cache_tail := cache_tail c;
        cache_count := cache_count c - 1 |}, Some entry)
  else (c, None).

(** ** State *)

Record pm := {
  used32 : words; free32 : words;       (* BitMap32MB[.].AnyUsed, .AnyFree *)
  used2 : words; free2 : words;         (* BitMap2MB[.].AnyUsed, .AnyFree *)
  bm4 : words;                          (* BitMap4KB *)
  Cache32MB : LargeMemoryCache; Cache2MB : LargeMemoryCache;
  Cached4KB : option Z;
  DMA_bitmap : words }.                 (* the bytes from DMA_bitmap on *)

Definition set_used32 (f : words) (s : pm) : pm :=
  {| used32 := f; free32 := free32 s; used2 := used2 s; free2 := free2 s; bm4 := bm4 s;
     Cache32MB := Cache32MB s; Cache2MB := Cache2MB s; Cached4KB := Cached4KB s;
     DMA_bitmap := DMA_bitmap s |}.
Definition set_free32 (f : words) (s : pm) : pm :=
  {| used32 := used32 s; free32 := f; used2 := used2 s; free2 := free2 s; bm4 := bm4 s;
     Cache32MB := Cache32MB s; Cache2MB := Cache2MB s; Cached4KB := Cached4KB s;
     DMA_bitmap := DMA_bitmap s |}.
Definition set_used2 (f : words) (s : pm) : pm :=
  {| used32 := used32 s; free32 := free32 s; used2 := f; free2 := free2 s; bm4 := bm4 s;
     Cache32MB := Cache32MB s; Cache2MB := Cache2MB s; Cached4KB := Cached4KB s;
     DMA_bitmap := DMA_bitmap s |}.
Definition set_free2 (f : words) (s : pm) : pm :=
  {| used32 := used32 s; free32 := free32 s; used2 := used2 s; free2 := f; bm4 := bm4 s;
     Cache32MB := Cache32MB s; Cache2MB := Cache2MB s; Cached4KB := Cached4KB s;
     DMA_bitmap := DMA_bitmap s |}.
Definition set_bm4 (f : words) (s : pm) : pm :=
  {| used32 := used32 s; free32 := free32 s; used2 := used2 s; free2 := free2 s; bm4 := f;
     Cache32MB := Cache32MB s; Cache2MB := Cache2MB s; Cached4KB := Cached4KB s;
     DMA_bitmap := DMA_bitmap s |}.
Definition set_cache32 (c : LargeMemoryCache) (s : pm) : pm :=
  {| used32 := used32 s; free32 := free32 s; used2 := used2 s; free2 := free2 s; bm4 := bm4 s;
     Cache32MB := c; Cache2MB := Cache2MB s; Cached4KB := Cached4KB s;
     DMA_bitmap := DMA_bitmap s |}.
Definition set_cache2 (c : LargeMemoryCache) (s : pm) : pm :=
  {| used32 := used32 s; free32 := free32 s; used2 := used2 s; free2 := free2 s; bm4 := bm4 s;
     Cache32MB := Cache32MB s; Cache2MB := c; Cached4KB := Cached4KB s;
     DMA_bitmap := DMA_bitmap s |}.
Definition set_cached4 (o : option Z) (s : pm) : pm :=
  {| used32 := used32 s; free32 := free32 s; used2 := used2 s; free2 := free2 s; bm4 := bm4 s;
     Cache32MB := Cache32MB s; Cache2MB := Cache2MB s; Cached4KB := o;
     DMA_bitmap := DMA_bitmap s |}.
Definition set_dma (f : words) (s : pm) : pm :=
  {| used32 := used32 s; free32 := free32 s; used2 := used2 s; free2 := free2 s; bm4 := bm4 s;
     Cache32MB := Cache32MB s; Cache2MB := Cache2MB s; Cached4KB := Cached4KB s;
     DMA_bitmap := f |}.

Definition push32 (r : Z) (s : pm) : pm := set_cache32 (Push (Cache32MB s) r) s.
Definition push2 (r : Z) (s : pm) : pm := set_cache2 (Push (Cache2MB s) r) s.

(** ** Helpers *)

Definition IsAddressable (address : Z) : bool := address <? MAX_ADDRESSABLE_MEMORY.
Definition IsDMAAddress (address : Z) : bool :=
  (DMAZone_start <=? address) && (address <? DMAZone_start + DMAZone_limit).
Definition Get2MBParent32MB (region_2mb : Z) : Z := region_2mb / 16.
Definition Get4KBParent2MB (region_4kb : Z) : Z := region_4kb / PT_ENTRIES.

(** First and last word of the 4 KiB bitmap covering a 2 MiB region. *)
Definition start_word_4kb (region : Z) : Z := region * PT_ENTRIES / 64.
Definition end_word_4kb (region : Z) : Z := (region + 1) * PT_ENTRIES / 64.
Definition words_4kb (region : Z) : list Z :=
  seqZ (start_word_4kb region) (end_word_4kb region - start_word_4kb region).

Definition Try4KBCache (s : pm) : pm * option Z :=
  match Cached4KB s with
  | Some region =>
      let s := set_cached4 None s in
      let parent_2mb := Get4KBParent2MB region in
      if getbit (free2 s) parent_2mb then (s, Some region) else (s, None)
  | None => (s, None)
  end.

Definition Mark32MBRegionUsed (s : pm) (region : Z) : pm :=
  let s := set_used32 (setw (used32 s) region) s in
  let first_2mb := region * 16 in
  let all_used := forallb (fun i => getbit (used2 s) (first_2mb + i)) (seqZ 0 16) in
  if all_used then set_free32 (clrw (free32 s) region) s else s.

Definition Mark2MBRegionUsed (s : pm) (region : Z) : pm :=
  let s := set_used2 (setw (used2 s) region) s in
  let parent_32mb := Get2MBParent32MB region in
  let s := Mark32MBRegionUsed s parent_32mb in
  let first_4kb := region * PT_ENTRIES in
  let all_used := forallb (fun i => getbit (bm4 s) (first_4kb + i)) (seqZ 0 PT_ENTRIES) in
  if all_used then set_free2 (clrw (free2 s) region) s else s.

Definition Update32MBFlags (s : pm) (region_32mb : Z) : pm * bool :=
  let first_2mb := region_32mb * 16 in
  let any_used := existsb (fun i => getbit (used2 s) (first_2mb + i)) (seqZ 0 16) in
  let any_free := existsb (fun i => getbit (free2 s) (first_2mb + i)) (seqZ 0 16) in
  let s := set_used32 (putw any_used (used32 s) region_32mb) s in
  let s := set_free32 (putw any_free (free32 s) region_32mb) s in
  (s, negb any_used).

Definition Mark2MBRegionFreed (s : pm) (region : Z) : pm :=
  let s := set_bm4 (fillw (start_word_4kb region) (end_word_4kb region) 0 (bm4 s)) s in
  let s := set_used2 (clrw (used2 s) region) s in
  let s := set_free2 (setw (free2 s) region) s in
  let parent_32mb := Get2MBParent32MB region in
  let '(s, parent_free) := Update32MBFlags s parent_32mb in
  let s := if parent_free then push32 parent_32mb s else s in
  push2 region s.

Definition Region2MBHasUsed (s : pm) (region : Z) : bool :=
  existsb (fun w => negb (bm4 s w =? 0)) (words_4kb region).

Definition AllocateCached32MBPage (s : pm) : pm * Z :=
  let '(c, region_wrapper) := Pop (Cache32MB s) in
  let s := set_cache32 c s in
  match region_wrapper with
  | Some region =>
      if negb (getbit (used32 s) region) then
        (Mark32MBRegionUsed s region, region * 16 * PDE_COVERAGE)
      else (s, 0)
  | None => (s, 0)
  end.

Definition AllocateCached2MBPage (s : pm) : pm * Z :=
  let '(c, region_wrapper) := Pop (Cache2MB s) in
  let s := set_cache2 c s in
  match region_wrapper with
  | Some region =>
      let parent_32mb := Get2MBParent32MB region in
      if negb (getbit (used2 s) region) then
        let s := set_used2 (setw (used2 s) region) s in
        let s := set_free2 (clrw (free2 s) region) s in
        (Mark32MBRegionUsed s parent_32mb, region * PDE_COVERAGE)
      else (s, 0)
  | None => (s, 0)
  end.

(** ** Setup

    The parts of [PhysicalMemory::Setup] that build the bitmaps: the initial
    fill, the pages freed for one memory descriptor, and the two loops that
    derive the 2 MiB and 32 MiB flags. *)

Definition Setup_fill (s : pm) : pm :=
  let s := set_used32 (fun _ => ALL_ONES) (set_free32 (fun _ => 0) s) in
  let s := set_used2 (fun _ => ALL_ONES) (set_free2 (fun _ => 0) s) in
  set_bm4 (fun _ => ALL_ONES) s.

Definition Setup_free_pages (s : pm) (phys_addr num_pages : Z) : pm :=
  foldl (fun s page =>
    let addr := phys_addr + page * FRAME_SIZE in
    if IsAddressable addr then set_bm4 (clrw (bm4 s) (addr / FRAME_SIZE)) s else s)
  s (seqZ 0 num_pages).

Definition Setup_update_2mb (s : pm) (region_2mb : Z) : pm :=
  let has_used := existsb (fun w => negb (bm4 s w =? 0)) (words_4kb region_2mb) in
  let has_free := existsb (fun w => negb (bm4 s w =? ALL_ONES)) (words_4kb region_2mb) in
  let s := set_used2 (putw has_used (used2 s) region_2mb) s in
  set_free2 (putw has_free (free2 s) region_2mb) s.

Definition Setup_update_32mb (s : pm) (region_32mb : Z) : pm :=
  let first_2mb := region_32mb * 16 in
  let has_used := existsb (fun i => getbit (used2 s) (first_2mb + i)) (seqZ 0 16) in
  let has_free := existsb (fun i => getbit (free2 s) (first_2mb + i)) (seqZ 0 16) in
  let s := set_used32 (putw has_used (used32 s) region_32mb) s in
  set_free32 (putw has_free (free32 s) region_32mb) s.

Definition Setup_update_flags (s : pm) : pm :=
  let s := foldl Setup_update_2mb s (seqZ 0 BITMAP_ENTRIES_2MB) in
  foldl Setup_update_32mb s (seqZ 0 BITMAP_ENTRIES_32MB).

(** The bitmaps after [Setup], for the (start, pages) pairs it frees. *)
Definition Setup_bitmaps (s : pm) (descs : list (Z * Z)) : pm :=
  let s := Setup_fill s in
  let s := foldl (fun s d => Setup_free_pages s (fst d) (snd d)) s descs in
  Setup_update_flags s.

(** ** Allocation *)

(** The word loop inside a 2 MiB region: the first clear bit of the first word
    that is not full is taken, and the next one of the same word is cached. *)
Definition take_in_word (kb4_idx : Z) (s : pm) : pm * option Z :=
  let word := bm4 s kb4_idx in
  if negb (word =? ALL_ONES) then
    let page_bit := countr_zero (bnot 64 word) in
    let page_region := kb4_idx * 64 + page_bit in
    let s := set_bm4 (<[kb4_idx := word .| page_bit]> (bm4 s)) s in
    let s :=
      if negb (bm4 s kb4_idx =? ALL_ONES) then
        let next_bit := countr_zero (bnot 64 (bm4 s kb4_idx)) in
        set_cached4 (Some (kb4_idx * 64 + next_bit)) s
      else s in
    (s, Some (page_region * FRAME_SIZE))
  else (s, None).

Definition take_in_2mb (region_2mb : Z) (s : pm) : pm * option Z :=
  if getbit (free2 s) region_2mb then
    let s := Mark2MBRegionUsed s region_2mb in
    for_each (words_4kb region_2mb) take_in_word s
  else (s, None).

Definition take_in_32mb_word (i : Z) (s : pm) : pm * option Z :=
  let has_free := free32 s i in
  if negb (has_free =? 0) then
    let partial := Z.land (used32 s i) (free32 s i) in
    let target := if negb (partial =? 0) then partial else has_free in
    let bit := countr_zero target in
    let region_32mb := i * 64 + bit in
    let first_2mb := region_32mb * 16 in
    for_each (seqZ 0 16) (fun j s => take_in_2mb (first_2mb + j) s) s
  else (s, None).

Definition Allocate (s : pm) : pm * Z :=
  let '(s, cached) := Try4KBCache s in
  match cached with
  | Some region =>
      let s := set_bm4 (setw (bm4 s) region) s in
      let s := Mark2MBRegionUsed s (Get4KBParent2MB region) in
      (s, region * FRAME_SIZE)
  | None =>
      let '(s, r) := for_each (seqZ 0 BITMAP_WORDS_32MB) take_in_32mb_word s in
      (s, default 0 r)
  end.

(** The inner [for] of [Allocate2MB]: pushes the unused 2 MiB children until
    the cache is full. *)
Definition push_children (first_2mb : Z) (s : pm) : pm :=
  fst (for_each (R := unit) (seqZ 0 16) (fun j s =>
    let region_2mb := first_2mb + j in
    if negb (getbit (used2 s) region_2mb) then
      let s := push2 region_2mb s in
      if IsFull (Cache2MB s) then (s, Some ()) else (s, None)
    else (s, None)) s).

(** [while (partial_mask != 0 && !Cache2MB.IsFull())]: a bit of the mask is
    cleared at each turn, so 64 turns are enough. *)
Fixpoint fill_cache2 (fuel : nat) (i partial_mask : Z) (s : pm) : pm :=
  match fuel with
  | O => s
  | S fuel =>
      if negb (partial_mask =? 0) && negb (IsFull (Cache2MB s)) then
        let bit := countr_zero partial_mask in
        let partial_mask := partial_mask .\ bit in
        let region_32mb := i * 64 + bit in
        fill_cache2 fuel i partial_mask (push_children (region_32mb * 16) s)
      else s
  end.

Definition take_partial_2mb (i : Z) (s : pm) : pm * option Z :=
  let partial_mask := Z.land (used32 s i) (free32 s i) in
  if negb (partial_mask =? 0) then
    let s := fill_cache2 64 i partial_mask s in
    if negb (IsEmpty (Cache2MB s)) then
      let '(s, p) := AllocateCached2MBPage s in (s, Some p)
    else (s, None)
  else (s, None).

Definition take_free_2mb (i : Z) (s : pm) : pm * option Z :=
  let free_regions := bnot 64 (used32 s i) in
  if negb (free_regions =? 0) then
    let bit := countr_zero free_regions in
    let region_32mb := i * 64 + bit in
    let s := push2 (region_32mb * 16) s in
    let '(s, p) := AllocateCached2MBPage s in (s, Some p)
  else (s, None).

Definition Allocate2MB (s : pm) : pm * Z :=
  let '(s, cached_page) := AllocateCached2MBPage s in
  if negb (cached_page =? 0) then (s, cached_page)
  else
    match for_each (seqZ 0 BITMAP_WORDS_32MB) take_partial_2mb s with
    | (s, Some p) => (s, p)
    | (s, None) =>
        let '(s, r) := for_each (seqZ 0 BITMAP_WORDS_32MB) take_free_2mb s in
        (s, default 0 r)
    end.

(** The refill of [Cache32MB]; same bound on the turns of the [while]. *)
Fixpoint fill_cache32 (fuel : nat) (i free_regions : Z) (s : pm) : pm :=
  match fuel with
  | O => s
  | S fuel =>
      if negb (free_regions =? 0) && negb (IsFull (Cache32MB s)) then
        let bit := countr_zero free_regions in
        let free_regions := free_regions .\ bit in
        let region := i * 64 + bit in
        if BITMAP_ENTRIES_32MB <=? region then s
        else fill_cache32 fuel i free_regions (push32 region s)
      else s
  end.

Definition Allocate32MB (s : pm) : pm * Z :=
  let '(s, cached_page) := AllocateCached32MBPage s in
  if negb (cached_page =? 0) then (s, cached_page)
  else
    let '(s, _) := for_each (R := unit) (seqZ 0 BITMAP_WORDS_32MB) (fun i s =>
      if IsFull (Cache32MB s) then (s, Some ())
      else (fill_cache32 64 i (bnot 64 (used32 s i)) s, None)) s in
    AllocateCached32MBPage s.

(** ** Release *)

(** [if ((address % n) != 0) address = address - (address % n)]. *)
Definition align_down (address n : Z) : Z :=
  if negb (address mod n =? 0) then address - address mod n else address.

(** The part of [Free] after its tests: the page [region] is in use. *)
Definition release_page (s : pm) (region : Z) : pm :=
  let s := set_bm4 (clrw (bm4 s) region) s in
  let parent_2mb := Get4KBParent2MB region in
  let s := set_free2 (setw (free2 s) parent_2mb) s in
  let s := if negb (Region2MBHasUsed s parent_2mb) then
             push2 parent_2mb (set_used2 (clrw (used2 s) parent_2mb) s)
           else s in
  let parent_32mb := Get2MBParent32MB parent_2mb in
  let '(s, fully_free) := Update32MBFlags s parent_32mb in
  let s := if fully_free then push32 parent_32mb s else s in
  set_cached4 (Some region) s.

Definition Free (s : pm) (ptr : Z) : pm * bool :=
  if ptr =? 0 then (s, false)
  else
    let address := ptr in
    if negb (IsAddressable address) || IsDMAAddress address then (s, false)
    else
      let address := align_down address FRAME_SIZE in
      let region := address / FRAME_SIZE in
      if negb (getbit (bm4 s) region) then (s, true)
      else (release_page s region, true).

Definition Free2MB (s : pm) (ptr : Z) : pm * bool :=
  if ptr =? 0 then (s, false)
  else
    let address := ptr in
    if negb (IsAddressable address) || IsDMAAddress address then (s, false)
    else
      let address := align_down address PDE_COVERAGE in
      let region := address / PDE_COVERAGE in
      if negb (getbit (used2 s) region) then (s, false)
      else (Mark2MBRegionFreed s region, true).

(** [Free32MB(nullptr)] evaluates [Failure()] without returning it and goes
    on; the DMA test then rejects address 0. *)
Definition Free32MB (s : pm) (ptr : Z) : pm * bool :=
  let address := ptr in
  if negb (IsAddressable address) || IsDMAAddress address then (s, false)
  else
    let address := align_down address (16 * PDE_COVERAGE) in
    let region := address / (16 * PDE_COVERAGE) in
    if negb (getbit (used32 s) region) then (s, false)
    else
      let first_2mb := region * 16 in
      let s := foldl (fun s i =>
        let child_2mb := first_2mb + i in
        let s := set_bm4 (fillw (start_word_4kb child_2mb) (end_word_4kb child_2mb) 0 (bm4 s)) s in
        let s := set_used2 (clrw (used2 s) child_2mb) s in
        let s := set_free2 (setw (free2 s) child_2mb) s in
        push2 child_2mb s) s (seqZ 0 16) in
      let s := set_used32 (clrw (used32 s) region) s in
      let s := set_free32 (setw (free32 s) region) s in
      (push32 region s, true).

Definition Free1GB (s : pm) (ptr : Z) : pm * bool :=
  let SUB_32MB_PAGES := PDPTE_COVERAGE / (16 * PDE_COVERAGE) in
  match for_each (seqZ 0 SUB_32MB_PAGES) (fun i s =>
      let sub_address := u64 (ptr + i * (16 * PDE_COVERAGE)) in
      let '(s, ok) := Free32MB s sub_address in
      if negb ok then (s, Some false) else (s, None)) s with
  | (s, Some r) => (s, r)
  | (s, None) => (s, true)
  end.

(** ** The DMA zone *)

Inductive StatusCode := SUCCESS | OUT_OF_MEMORY | INVALID_PARAMETER | FREE | ALLOCATED.

Definition dma_bit (f : words) (page : Z) : bool := hasbit (f (page / 8)) (page mod 8).

Definition QueryDMAAddress (s : pm) (address : Z) : StatusCode :=
  if DMAZone_limit <=? address then INVALID_PARAMETER
  else
    let page := address / FRAME_SIZE in
    if negb (dma_bit (DMA_bitmap s) page) then FREE else ALLOCATED.

(** [for (p = startPage; p < startPage + pages; ++p) DMA_bitmap[p/8] |= 1 << p%8]. *)
Definition dma_mark (startPage pages : Z) (f : words) : words :=
  foldl (fun f p => <[p / 8 := f (p / 8) .| (p mod 8)]> f) f (seqZ startPage pages).

Definition dma_unmark (firstPage pages : Z) (f : words) : words :=
  foldl (fun f p => <[p / 8 := f (p / 8) .\ (p mod 8)]> f) f (seqZ firstPage pages).

(** One turn of the scan of [AllocateDMA]; the state is
    ([startPage], [pagesFound]).  The two nested loops visit the pages
    [8 * i + j] in increasing order. *)
Definition dma_scan (f : words) (pages page : Z) (st : Z * Z) : (Z * Z) * option Z :=
  let '(startPage, pagesFound) := st in
  let st :=
    if dma_bit f page then (startPage, 0)
    else if pagesFound =? 0 then (page, 1) else (startPage, pagesFound + 1) in
  if pages <=? snd st then (st, Some (fst st)) else (st, None).

Definition AllocateDMA (s : pm) (pages : Z) : pm * Z :=
  if pages =? 0 then (s, 0)
  else
    match for_each (seqZ 0 (DMA_BITMAP_SIZE * 8)) (dma_scan (DMA_bitmap s) pages) (0, 0) with
    | (_, Some startPage) =>
        (set_dma (dma_mark startPage pages (DMA_bitmap s)) s, startPage * FRAME_SIZE)
    | (_, None) => (s, 0)
    end.

(** The range test of [FreeDMA] evaluates [Failure()] and discards it. *)
Definition FreeDMA (s : pm) (ptr pages : Z) : pm * bool :=
  let firstPage := ptr / FRAME_SIZE in
  (set_dma (dma_unmark firstPage pages (DMA_bitmap s)) s, true).
