(* ===== verification/PhysMemProps.v ===== *)
(** * Properties of the physical memory allocator

    Safety of the 4 KiB and 2 MiB interface (no block is handed out twice),
    completeness of [Allocate] on precise flags, correctness of the flags
    built by [Setup], the ring cache, the DMA bitmap, and the behaviours in
    which the code departs from its intent. *)
From S2P Require Import Prelude Paging PhysMem.

(** ** Bitmap lemmas *)

Lemma getbit_testbit f r : getbit f r = Z.testbit (f (r / 64)) (r mod 64).
Proof. apply hasbit_testbit. apply Z.mod_pos_bound. done. Qed.

Lemma word_bit_eq q r : q / 64 = r / 64 -> q mod 64 = r mod 64 -> q = r.
Proof. zdiv. Qed.

Lemma mod64_range r : 0 <= r mod 64 < 64.
Proof. by apply Z.mod_pos_bound. Qed.

Lemma getbit_setw f r q : getbit (setw f r) q = (q =? r) || getbit f q.
Proof.
  rewrite !getbit_testbit. unfold setw. pose proof (mod64_range r).
  rewrite upd_lookup. case_decide as Hd.
  - rewrite <- Hd, testbit_setbit, orb_comm by lia. f_equal.
    pose proof (word_bit_eq q r). bool_cases; subst; lia.
  - destruct (Z.eqb_spec q r); [congruence|done].
Qed.

Lemma getbit_clrw f r q : getbit (clrw f r) q = negb (q =? r) && getbit f q.
Proof.
  rewrite !getbit_testbit. unfold clrw. pose proof (mod64_range r).
  rewrite upd_lookup. case_decide as Hd.
  - rewrite <- Hd, testbit_clrbit, andb_comm by lia. f_equal.
    pose proof (word_bit_eq q r). bool_cases; subst; lia.
  - destruct (Z.eqb_spec q r); [congruence|done].
Qed.

Lemma getbit_clrw_true f r q : getbit (clrw f r) q = true -> q <> r /\ getbit f q = true.
Proof. rewrite getbit_clrw, andb_true_iff, negb_true_iff, Z.eqb_neq. done. Qed.

Lemma getbit_putw c f r q : getbit (putw c f r) q = if q =? r then c else getbit f q.
Proof.
  unfold putw. destruct c; rewrite ?getbit_setw, ?getbit_clrw; by destruct (q =? r).
Qed.

Lemma fillw_lookup lo hi v f w :
  fillw lo hi v f w = if (lo <=? w) && (w <? hi) then v else f w.
Proof.
  unfold fillw.
  assert (H : forall l (f : words),
    foldl (fun f w => <[w := v]> f) f l w = if existsb (Z.eqb w) l then v else f w).
  { clear. induction l as [|x l IH] using rev_ind; intros f; [done|].
    rewrite foldl_snoc, upd_lookup, IH, existsb_app; simpl.
    case_decide as Hd; destruct (Z.eqb_spec w x); try congruence;
      by destruct (existsb (Z.eqb w) l). }
  rewrite H. assert (E : existsb (Z.eqb w) (seqZ lo (hi - lo)) = (lo <=? w) && (w <? hi)); [|by rewrite E].
  apply eq_true_iff_eq. rewrite existsb_seqZ, andb_true_iff, Z.leb_le, Z.ltb_lt.
  split; [intros (i & Hi & Hw); apply Z.eqb_eq in Hw; lia|].
  intros Hw. exists w. rewrite Z.eqb_refl. lia.
Qed.

Definition wordsOk (f : words) : Prop := forall i, 0 <= f i < 2 ^ 64.

Lemma wordsOk_insert f i v : wordsOk f -> 0 <= v < 2 ^ 64 -> wordsOk (<[i := v]> f).
Proof. intros Hf Hv j. rewrite upd_lookup. by case_decide. Qed.

Lemma wordsOk_setw f r : wordsOk f -> wordsOk (setw f r).
Proof. intros Hf. apply wordsOk_insert; [done|]. apply setbit_range; [apply mod64_range|done]. Qed.

Lemma wordsOk_clrw f r : wordsOk f -> wordsOk (clrw f r).
Proof. intros Hf. apply wordsOk_insert; [done|]. apply clrbit_range; [apply mod64_range|done]. Qed.

Lemma wordsOk_putw c f r : wordsOk f -> wordsOk (putw c f r).
Proof. destruct c; [apply wordsOk_setw|apply wordsOk_clrw]. Qed.

Lemma wordsOk_fillw lo hi f : wordsOk f -> wordsOk (fillw lo hi 0 f).
Proof. intros Hf i. rewrite fillw_lookup. case_match; [lia|apply Hf]. Qed.
#[export] Hint Resolve wordsOk_setw wordsOk_clrw wordsOk_putw wordsOk_fillw : words.

(** ** Count of trailing zeroes *)

Lemma countr_zero_spec x :
  0 <= x < 2 ^ 64 -> x <> 0 -> 0 <= countr_zero x < 64 /\ Z.testbit x (countr_zero x) = true.
Proof.
  intros Hx Hn. unfold countr_zero. destruct (find _ _) as [b|] eqn:E.
  - apply find_some in E as [Hin Hb].
    apply list_elem_of_In, elem_of_seqZ in Hin. simpl. split; [lia|done].
  - exfalso. apply Hn. apply Z.bits_inj'. intros i Hi. rewrite Z.bits_0.
    destruct (Z.lt_ge_cases i 64); [|by apply (testbit_high 64)].
    apply (find_none _ _ E). apply list_elem_of_In, elem_of_seqZ. lia.
Qed.

Lemma first_clear x :
  0 <= x < 2 ^ 64 -> x <> ALL_ONES ->
  let b := countr_zero (bnot 64 x) in 0 <= b < 64 /\ Z.testbit x b = false.
Proof.
  intros Hx Hn. destruct (countr_zero_spec (bnot 64 x)) as [Hb Ht].
  - unfold bnot. lia.
  - unfold bnot, ALL_ONES in *. lia.
  - rewrite bnot_testbit in Ht by lia. split; [done|]. by apply negb_true_iff.
Qed.

(** ** Geometry *)

Lemma start_word_eq r : start_word_4kb r = 8 * r.
Proof. unfold start_word_4kb, PT_ENTRIES. zdiv. Qed.
Lemma end_word_eq r : end_word_4kb r = 8 * r + 8.
Proof. unfold end_word_4kb, PT_ENTRIES. zdiv. Qed.

Lemma elem_of_words_4kb w r : w ∈ words_4kb r <-> w / 8 = r.
Proof. unfold words_4kb. rewrite start_word_eq, end_word_eq, elem_of_seqZ. zdiv. Qed.

Lemma parent_of_word p : (p / 64) / 8 = Get4KBParent2MB p.
Proof. unfold Get4KBParent2MB, PT_ENTRIES. zdiv. Qed.

(** A word that is not zero has a page in use, one that is not full a free page. *)
Lemma word_nonzero f w : wordsOk f -> f w <> 0 -> exists p, p / 64 = w /\ getbit f p = true.
Proof.
  intros Hf Hn. destruct (countr_zero_spec (f w)) as [Hb Ht]; [done..|].
  exists (w * 64 + countr_zero (f w)).
  assert (Hq : (w * 64 + countr_zero (f w)) / 64 = w) by zdiv.
  split; [done|]. rewrite getbit_testbit, Hq.
  by replace ((w * 64 + countr_zero (f w)) mod 64) with (countr_zero (f w)) by zdiv.
Qed.

Lemma getbit_word_zero f p : f (p / 64) = 0 -> getbit f p = false.
Proof. intros H. by rewrite getbit_testbit, H, Z.bits_0. Qed.

Lemma getbit_word_full f p : f (p / 64) = ALL_ONES -> getbit f p = true.
Proof.
  intros H. rewrite getbit_testbit, H. change ALL_ONES with (Z.ones 64).
  apply Z.ones_spec_low, mod64_range.
Qed.

Lemma word_not_full f w : wordsOk f -> f w <> ALL_ONES -> exists p, p / 64 = w /\ getbit f p = false.
Proof.
  intros Hf Hn. destruct (first_clear (f w)) as [Hb Ht]; [done..|].
  set (b := countr_zero _) in *. exists (w * 64 + b).
  assert (Hq : (w * 64 + b) / 64 = w) by zdiv.
  split; [done|]. rewrite getbit_testbit, Hq.
  by replace ((w * 64 + b) mod 64) with b by zdiv.
Qed.

(** ** Marking is quiet

    Every helper that only records use keeps the 4 KiB bitmap, never clears a
    [used] flag of a 2 MiB region and never sets a [free] flag.  The 32 MiB
    flags and the caches do not matter for safety. *)
Record quiet (s s' : pm) : Prop := {
  q_bm4 : bm4 s' = bm4 s;
  q_used : forall q, getbit (used2 s) q = true -> getbit (used2 s') q = true;
  q_free : forall q, getbit (free2 s') q = true -> getbit (free2 s) q = true;
  q_cached : Cached4KB s' = Cached4KB s }.

Lemma quiet_refl s : quiet s s.
Proof. by split. Qed.

Lemma quiet_trans s1 s2 s3 : quiet s1 s2 -> quiet s2 s3 -> quiet s1 s3.
Proof. intros [] []. split; [congruence|auto..|congruence]. Qed.
#[export] Hint Resolve quiet_refl quiet_trans : words.

(** The part of the state safety depends on. *)
Definition core (s : pm) : words * words * words * option Z :=
  (used2 s, free2 s, bm4 s, Cached4KB s).

Lemma quiet_core s s1 s2 : core s1 = core s2 -> quiet s s1 -> quiet s s2.
Proof.
  unfold core. intros H [H1 H2 H3 H4]. injection H as E1 E2 E3 E4.
  split; rewrite <- ?E1, <- ?E2, <- ?E3, <- ?E4; auto.
Qed.

Lemma core_quiet s s' : core s' = core s -> quiet s s'.
Proof. intros H. by apply (quiet_core s s s'). Qed.

Lemma Mark32_core s r : core (Mark32MBRegionUsed s r) = core s.
Proof. unfold Mark32MBRegionUsed. by case_match. Qed.

Lemma push2_core r s : core (push2 r s) = core s.
Proof. done. Qed.

Lemma Update32_core s r : core (fst (Update32MBFlags s r)) = core s.
Proof. done. Qed.

Lemma quiet_mark_used s r : quiet s (set_used2 (setw (used2 s) r) s).
Proof. split; simpl; [done| |done..]. intros q Hq. by rewrite getbit_setw, Hq, orb_true_r. Qed.

Lemma quiet_clear_free s r : quiet s (set_free2 (clrw (free2 s) r) s).
Proof. split; simpl; [done..| |done]. intros q. rewrite getbit_clrw. boolp. tauto. Qed.

Lemma Mark2_quiet s r : quiet s (Mark2MBRegionUsed s r).
Proof.
  unfold Mark2MBRegionUsed. set (s1 := set_used2 _ s).
  assert (H : quiet s (Mark32MBRegionUsed s1 (Get2MBParent32MB r))).
  { eapply quiet_core; [symmetry; apply Mark32_core|apply quiet_mark_used]. }
  case_match; [|done]. eapply quiet_trans; [done|apply quiet_clear_free].
Qed.

Lemma Mark2_used s r : getbit (used2 (Mark2MBRegionUsed s r)) r = true.
Proof.
  unfold Mark2MBRegionUsed. set (s1 := set_used2 _ s).
  pose proof (Mark32_core s1 (Get2MBParent32MB r)) as Hc. unfold core in Hc.
  set (s2 := Mark32MBRegionUsed _ _) in *. injection Hc as Hu _ _ _.
  assert (getbit (used2 s2) r = true)
    by (rewrite Hu; simpl; by rewrite getbit_setw, Z.eqb_refl).
  by case_match.
Qed.

(** ** A page taken from the bitmap *)

(** The cached page is free in the 4 KiB bitmap. *)
Definition cachedOk (s : pm) : Prop :=
  forall p, Cached4KB s = Some p -> getbit (bm4 s) p = false.

Record took (s s' : pm) (p : Z) : Prop := {
  t_was_free : getbit (bm4 s) p = false;
  t_bm4 : bm4 s' = setw (bm4 s) p;
  t_used : forall q, getbit (used2 s) q = true -> getbit (used2 s') q = true;
  t_parent : getbit (used2 s') (Get4KBParent2MB p) = true;
  t_free : forall q, getbit (free2 s') q = true -> getbit (free2 s) q = true;
  t_cached : cachedOk s' }.

Lemma took_quiet s s1 s' p : quiet s s1 -> took s1 s' p -> took s s' p.
Proof.
  intros [H1 H2 H3 H4] [T1 T2 T3 T4 T5 T6]. split; try congruence; auto.
Qed.

Lemma countr_word idx b : 0 <= b < 64 -> (idx * 64 + b) / 64 = idx /\ (idx * 64 + b) mod 64 = b.
Proof. split; zdiv. Qed.

Lemma took_set_cached s s1 p c :
  took s s1 p -> getbit (bm4 s1) c = false -> took s (set_cached4 (Some c) s1) p.
Proof. intros [T1 T2 T3 T4 T5 T6] Hc. split; try done. intros q Hq. by simplify_eq/=. Qed.

Lemma first_clear_page f w :
  wordsOk f -> f w <> ALL_ONES ->
  let p := w * 64 + countr_zero (bnot 64 (f w)) in
  p / 64 = w /\ getbit f p = false
  /\ <[w := f w .| countr_zero (bnot 64 (f w))]> f = setw f p.
Proof.
  intros Hf Hn. destruct (first_clear (f w)) as [Hb Ht]; [done..|].
  destruct (countr_word w _ Hb) as [Hq Hm]. unfold setw.
  by rewrite getbit_testbit, Hq, Hm.
Qed.

Lemma take_in_word_spec s idx s' o :
  wordsOk (bm4 s) -> Cached4KB s = None ->
  getbit (used2 s) (idx / 8) = true -> take_in_word idx s = (s', o) ->
  match o with
  | None => s' = s /\ bm4 s idx = ALL_ONES
  | Some a => exists p, a = p * FRAME_SIZE /\ p / 64 = idx /\ took s s' p
  end.
Proof.
  intros Hw Hc Hu. unfold take_in_word.
  destruct (Z.eqb_spec (bm4 s idx) ALL_ONES) as [He|Hne]; [by intros [= <- <-]|].
  destruct (first_clear_page (bm4 s) idx Hw Hne) as (Hq & Hfree & Hset).
  set (p := idx * 64 + _) in *. rewrite Hset. cbv zeta.
  set (s1 := set_bm4 (setw (bm4 s) p) s).
  assert (Hp : Get4KBParent2MB p = idx / 8) by (rewrite <- parent_of_word; congruence).
  assert (H1 : took s s1 p).
  { split; try done; try (by rewrite Hp). intros q Hq'. simpl in Hq'. congruence. }
  intros [<- <-]%pair_equal_spec. exists p. split; [done|]. split; [done|].
  destruct (Z.eqb_spec (bm4 s1 idx) ALL_ONES) as [He2|Hne2]; [done|].
  apply took_set_cached; [done|].
  apply first_clear_page; [apply wordsOk_setw, Hw|done].
Qed.

(** The outcome of a scan: nothing taken and only flags moved, or one page of
    a region whose free flag was set. *)
Definition scanned (s s' : pm) (o : option Z) : Prop :=
  match o with
  | None => quiet s s'
  | Some a => exists p, a = p * FRAME_SIZE /\ took s s' p
                /\ getbit (free2 s) (Get4KBParent2MB p) = true
  end.

Lemma scanned_quiet s s1 s' o : quiet s s1 -> scanned s1 s' o -> scanned s s' o.
Proof.
  destruct o; simpl; [|by eauto with words].
  intros Hq (p & -> & Ht & Hf). exists p. split; [done|].
  split; [by eapply took_quiet|]. by apply (q_free _ _ Hq).
Qed.

(** A loop of scans is a scan. *)
Lemma for_each_scanned {A} (l : list A) (body : A -> pm -> pm * option Z) s s' o :
  wordsOk (bm4 s) -> Cached4KB s = None ->
  (forall a s s' o, wordsOk (bm4 s) -> Cached4KB s = None ->
     body a s = (s', o) -> scanned s s' o) ->
  for_each l body s = (s', o) -> scanned s s' o.
Proof.
  intros Hw Hc Hb H.
  pose proof (for_each_inv (quiet s) (fun s1 a => scanned s s1 (Some a)) body l s) as Hinv.
  rewrite H in Hinv.
  assert (Hstep : forall a s1 s2 o', a ∈ l -> quiet s s1 -> body a s1 = (s2, o') -> scanned s s2 o').
  { intros a s1 s2 o' _ Hq Hbody. pose proof Hq as [Q1 Q2 Q3 Q4].
    apply (scanned_quiet s s1 s2 o' Hq).
    apply (Hb a s1 s2 o'); [by rewrite Q1|by rewrite Q4|done]. }
  destruct o; (apply Hinv; [|apply quiet_refl]); intros a s1 s2 o' Ha Hq Hbody;
    pose proof (Hstep a s1 s2 o' Ha Hq Hbody) as Hs; by destruct o'.
Qed.

Lemma take_in_2mb_scanned s r s' o :
  wordsOk (bm4 s) -> Cached4KB s = None -> take_in_2mb r s = (s', o) -> scanned s s' o.
Proof.
  intros Hw Hc. unfold take_in_2mb. destruct (getbit (free2 s) r) eqn:Hf.
  2: { intros [= <- <-]. apply quiet_refl. }
  pose proof (Mark2_quiet s r) as Hq. pose proof (Mark2_used s r) as Hu.
  set (s1 := Mark2MBRegionUsed s r) in *. pose proof Hq as [Q1 Q2 Q3 Q4]. intros H.
  pose proof (for_each_inv (fun s2 => s2 = s1)
    (fun s2 a => exists p, a = p * FRAME_SIZE /\ Get4KBParent2MB p = r /\ took s1 s2 p)
    take_in_word (words_4kb r) s1) as Hinv. rewrite H in Hinv.
  assert (Hres : match o with
                 | Some a => exists p, a = p * FRAME_SIZE /\ Get4KBParent2MB p = r /\ took s1 s' p
                 | None => s' = s1 end).
  { destruct o; apply Hinv; try done; intros w s2 s3 o' Hin -> Hbody;
      apply elem_of_words_4kb in Hin;
      (eapply take_in_word_spec in Hbody; [|by rewrite Q1|congruence|by rewrite Hin]);
      destruct o'; [|by destruct Hbody| |by destruct Hbody];
      destruct Hbody as (p & -> & Hpw & Ht); exists p; rewrite <- parent_of_word, Hpw, Hin; done. }
  destruct o as [a|]; [|by subst s'].
  destruct Hres as (p & -> & <- & Ht). exists p. split; [done|].
  split; [by eapply took_quiet|done].
Qed.

Lemma take_in_32mb_word_scanned s i s' o :
  wordsOk (bm4 s) -> Cached4KB s = None -> take_in_32mb_word i s = (s', o) -> scanned s s' o.
Proof.
  intros Hw Hc. unfold take_in_32mb_word. destruct (negb (free32 s i =? 0)).
  2: { intros [= <- <-]. apply quiet_refl. }
  intros H. eapply for_each_scanned; [done|done| |exact H].
  intros j s1 s2 o2 Hw1 Hc1. by apply take_in_2mb_scanned.
Qed.

(** [Allocate] either returns null and only moves flags, or returns a page
    that was free, in a region flagged free, and marks exactly that page. *)
Definition allocated (s s' : pm) (a : Z) : Prop :=
  (a = 0 /\ bm4 s' = bm4 s /\ (forall q, getbit (used2 s) q = true -> getbit (used2 s') q = true)
   /\ (forall q, getbit (free2 s') q = true -> getbit (free2 s) q = true) /\ cachedOk s')
  \/ exists p, a = p * FRAME_SIZE /\ took s s' p /\ getbit (free2 s) (Get4KBParent2MB p) = true.

Lemma Try4KBCache_spec s s' o :
  Try4KBCache s = (s', o) ->
  s' = set_cached4 None s /\
  match o with
  | Some p => Cached4KB s = Some p /\ getbit (free2 s) (Get4KBParent2MB p) = true
  | None => True
  end.
Proof.
  unfold Try4KBCache. destruct (Cached4KB s) as [p|] eqn:E; [|intros [= <- <-]; split; [|done]].
  - cbv zeta. simpl free2. destruct (getbit (free2 s) _) eqn:Hf; intros [= <- <-]; done.
  - destruct s; simpl in *; by rewrite E.
Qed.

Lemma Allocate_spec s : wordsOk (bm4 s) -> cachedOk s -> allocated s (fst (Allocate s)) (snd (Allocate s)).
Proof.
  intros Hw Hc. unfold Allocate. destruct (Try4KBCache s) as [s1 o] eqn:Ht.
  apply Try4KBCache_spec in Ht as [-> Ho]. set (s1 := set_cached4 None s). destruct o as [p|].
  - destruct Ho as [Hcp Hf]. right. exists p. split; [done|]. split; [|done]. simpl fst.
    set (s2 := set_bm4 (setw (bm4 s1) p) s1).
    pose proof (Mark2_quiet s2 (Get4KBParent2MB p)) as [Q1 Q2 Q3 Q4].
    split; [by apply Hc|done|done|apply Mark2_used|done|].
    intros q Hq. change (Cached4KB (Mark2MBRegionUsed s2 (Get4KBParent2MB p)) = Some q) in Hq.
    rewrite Q4 in Hq. done.
  - destruct (for_each _ _ s1) as [s' r] eqn:H.
    eapply for_each_scanned in H; [|done|done|intros ??????; by apply take_in_32mb_word_scanned].
    destruct r as [a|]; simpl in *.
    + right. destruct H as (p & -> & [] & Hf). exists p. split; [done|]. split; [|done]. by split.
    + left. destruct H as [Q1 Q2 Q3 Q4]. split; [done|]. repeat split; try done.
      intros q Hq. simpl in Q4. congruence.
Qed.

(** ** Large pages *)

Record took2 (s s' : pm) (r : Z) : Prop := {
  t2_was_unused : getbit (used2 s) r = false;
  t2_used : getbit (used2 s') r = true;
  t2_not_free : getbit (free2 s') r = false }.

Definition allocated2 (s s' : pm) (a : Z) : Prop :=
  quiet s s' /\ (a = 0 \/ exists r, a = r * PDE_COVERAGE /\ took2 s s' r).

Lemma allocated2_quiet s s1 s' a : quiet s s1 -> allocated2 s1 s' a -> allocated2 s s' a.
Proof.
  intros Hq [Hq' Ha]. split; [by eauto with words|]. destruct Ha as [|(r & -> & [T1 T2 T3])]; [by left|].
  right. exists r. split; [done|]. split; [|done..].
  destruct (getbit (used2 s) r) eqn:E; [|done]. apply (q_used _ _ Hq) in E. congruence.
Qed.

Lemma AllocateCached2MBPage_spec s :
  allocated2 s (fst (AllocateCached2MBPage s)) (snd (AllocateCached2MBPage s)).
Proof.
  unfold AllocateCached2MBPage. destruct (Pop (Cache2MB s)) as [c [r|]].
  2: { split; [by apply core_quiet|by left]. }
  set (s1 := set_cache2 c s). destruct (getbit (used2 s1) r) eqn:Hu; simpl negb; cbv iota.
  { split; [by apply core_quiet|by left]. }
  set (s2 := set_free2 _ _). cbn [fst snd].
  assert (Hq : quiet s s2).
  { split; simpl; try done.
    - intros q Hq. by rewrite getbit_setw, Hq, orb_true_r.
    - intros q. rewrite getbit_clrw. boolp. tauto. }
  pose proof (Mark32_core s2 (Get2MBParent32MB r)) as Hc. unfold core in Hc.
  injection Hc as E1 E2 E3 E4. split.
  - eapply quiet_core; [symmetry; apply Mark32_core|done].
  - right. exists r. split; [done|]. split; [done|..].
    + rewrite E1. simpl. by rewrite getbit_setw, Z.eqb_refl.
    + rewrite E2. simpl. by rewrite getbit_clrw, Z.eqb_refl.
Qed.

Lemma for_each_core {A R} (l : list A) (body : A -> pm -> pm * option R) s :
  (forall a s, core (fst (body a s)) = core s) -> core (fst (for_each l body s)) = core s.
Proof.
  intros Hb. revert s. induction l as [|a l IH]; intros s; simpl; [done|].
  specialize (Hb a s). destruct (body a s) as [s1 [r|]]; simpl in *; [done|].
  by rewrite IH.
Qed.

Lemma push_children_core f s : core (push_children f s) = core s.
Proof.
  apply for_each_core. intros j s1. cbv zeta.
  destruct (negb _); [|done]. by destruct (IsFull _).
Qed.

Lemma fill_cache2_core n i m s : core (fill_cache2 n i m s) = core s.
Proof.
  revert m s. induction n as [|n IH]; intros m s; simpl; [done|].
  case_match; [|done]. by rewrite IH, push_children_core.
Qed.

Lemma for_each_allocated2 (l : list Z) (body : Z -> pm -> pm * option Z) s :
  (forall a s, allocated2 s (fst (body a s)) (default 0 (snd (body a s)))) ->
  allocated2 s (fst (for_each l body s)) (default 0 (snd (for_each l body s))).
Proof.
  intros Hb. revert s. induction l as [|a l IH]; intros s; simpl.
  { split; [apply quiet_refl|by left]. }
  specialize (Hb a s). destruct (body a s) as [s1 [r|]]; simpl in *; [done|].
  destruct Hb as [Hq _]. eapply allocated2_quiet; [exact Hq|apply IH].
Qed.

Lemma take_partial_2mb_spec i s :
  allocated2 s (fst (take_partial_2mb i s)) (default 0 (snd (take_partial_2mb i s))).
Proof.
  assert (H0 : forall s', core s' = core s -> allocated2 s s' 0)
    by (intros; split; [by apply core_quiet|by left]).
  unfold take_partial_2mb. case_match; [|by apply H0]. set (s1 := fill_cache2 _ _ _ _).
  assert (Hc : core s1 = core s) by apply fill_cache2_core. clearbody s1.
  case_match; [|by apply H0].
  pose proof (AllocateCached2MBPage_spec s1) as Ha.
  destruct (AllocateCached2MBPage s1) as [s2 p]. simpl in *.
  eapply allocated2_quiet; [apply core_quiet, Hc|exact Ha].
Qed.

Lemma take_free_2mb_spec i s :
  allocated2 s (fst (take_free_2mb i s)) (default 0 (snd (take_free_2mb i s))).
Proof.
  unfold take_free_2mb. case_match; [|split; [apply quiet_refl|by left]].
  set (s1 := push2 _ s). pose proof (AllocateCached2MBPage_spec s1) as Ha.
  destruct (AllocateCached2MBPage s1) as [s2 p]. simpl in *.
  eapply allocated2_quiet; [apply core_quiet, push2_core|exact Ha].
Qed.

Lemma Allocate2MB_spec s : allocated2 s (fst (Allocate2MB s)) (snd (Allocate2MB s)).
Proof.
  unfold Allocate2MB. pose proof (AllocateCached2MBPage_spec s) as Ha.
  destruct (AllocateCached2MBPage s) as [s1 p]. simpl in Ha.
  destruct (Z.eqb_spec p 0); [|done]. simpl negb. cbv iota. destruct Ha as [Hq _].
  eapply allocated2_quiet; [exact Hq|].
  pose proof (for_each_allocated2 (seqZ 0 BITMAP_WORDS_32MB) take_partial_2mb s1
    (fun a s => take_partial_2mb_spec a s)) as H1.
  destruct (for_each _ take_partial_2mb s1) as [s2 [a|]]; [done|]. simpl in H1.
  destruct H1 as [Hq1 _]. eapply allocated2_quiet; [exact Hq1|].
  pose proof (for_each_allocated2 (seqZ 0 BITMAP_WORDS_32MB) take_free_2mb s2
    (fun a s => take_free_2mb_spec a s)) as H2.
  by destruct (for_each _ take_free_2mb s2) as [s3 o].
Qed.

(** ** Release *)

(** A flag of a 2 MiB region is set whenever one of its pages is in use. *)
Definition usedOk (s : pm) : Prop :=
  forall p, getbit (bm4 s) p = true -> getbit (used2 s) (Get4KBParent2MB p) = true.

Record released (s s' : pm) (p : Z) : Prop := {
  r_bm4 : forall q, getbit (bm4 s') q = negb (q =? p) && getbit (bm4 s) q;
  r_words : wordsOk (bm4 s) -> wordsOk (bm4 s');
  r_usedOk : usedOk s -> wordsOk (bm4 s) -> usedOk s';
  r_used : forall q, q <> Get4KBParent2MB p -> getbit (used2 s') q = getbit (used2 s) q;
  r_free : forall q, q <> Get4KBParent2MB p -> getbit (free2 s') q = getbit (free2 s) q;
  r_cached : Cached4KB s' = Some p }.

Lemma Region2MBHasUsed_false s r p :
  Region2MBHasUsed s r = false -> Get4KBParent2MB p = r -> getbit (bm4 s) p = false.
Proof.
  intros H <-. apply getbit_word_zero.
  unfold Region2MBHasUsed in H. destruct (Z.eq_dec (bm4 s (p / 64)) 0) as [|Hn]; [done|].
  enough (existsb (fun w => negb (bm4 s w =? 0)) (words_4kb (Get4KBParent2MB p)) = true) by congruence.
  apply existsb_exists. exists (p / 64). split.
  - apply list_elem_of_In, elem_of_words_4kb, parent_of_word.
  - by apply negb_true_iff, Z.eqb_neq.
Qed.

Lemma align_down_div a n : 0 < n -> align_down a n / n = a / n.
Proof.
  intros Hn. unfold align_down. case_match; [|done].
  rewrite (Z.div_mod a n) at 1 by lia. rewrite Z.add_simpl_r, Z.mul_comm. apply Z.div_mul. lia.
Qed.

Lemma release_page_spec s p : released s (release_page s p) p.
Proof.
  unfold release_page. set (s1 := set_free2 _ _). set (s2 := if negb _ then _ else s1).
  destruct (Update32MBFlags s2 _) as [s3 ff] eqn:Hup.
  pose proof (Update32_core s2 (Get2MBParent32MB (Get4KBParent2MB p))) as Hc.
  rewrite Hup in Hc. cbn [fst] in Hc.
  assert (Hc4 : core (if ff then push32 (Get2MBParent32MB (Get4KBParent2MB p)) s3 else s3) = core s2)
    by (by destruct ff).
  clear Hc Hup. set (s4 := if ff then _ else s3) in *. clearbody s4.
  unfold core in Hc4. injection Hc4 as E1 E2 E3 E4. cbv zeta.
  assert (Hb : bm4 s2 = clrw (bm4 s) p) by (unfold s2; by destruct (negb _)).
  assert (Hf : free2 s2 = setw (free2 s) (Get4KBParent2MB p)) by (unfold s2; by destruct (negb _)).
  assert (Hu : used2 s2 = if negb (Region2MBHasUsed s1 (Get4KBParent2MB p))
                          then clrw (used2 s) (Get4KBParent2MB p) else used2 s)
    by (unfold s2; by destruct (negb _)).
  assert (Hb1 : bm4 s1 = clrw (bm4 s) p) by done. clearbody s1 s2.
  split; cbn [set_cached4 bm4 used2 free2 Cached4KB];
    rewrite ?E1, ?E2, ?E3, ?Hb, ?Hf, ?Hu; try done.
  - intros q. apply getbit_clrw.
  - apply wordsOk_clrw.
  - intros Hok Hw q. cbn [set_cached4 bm4 used2]. rewrite E1, E3, Hb, Hu. clear Hu. intros Hq.
    destruct (Region2MBHasUsed s1 _) eqn:Hreg; cbn [negb].
    + apply Hok. by apply getbit_clrw_true in Hq as [_ Hq].
    + rewrite getbit_clrw. destruct (Z.eqb_spec (Get4KBParent2MB q) (Get4KBParent2MB p)) as [He|].
      * pose proof (Region2MBHasUsed_false s1 _ _ Hreg He) as Hcl. congruence.
      * simpl. apply Hok. by apply getbit_clrw_true in Hq as [_ Hq].
  - intros q Hq. destruct (negb _); [|done].
    rewrite getbit_clrw. by destruct (Z.eqb_spec q (Get4KBParent2MB p)).
  - intros q Hq. rewrite getbit_setw. by destruct (Z.eqb_spec q (Get4KBParent2MB p)).
Qed.

Lemma Free_spec s ptr s' ok :
  Free s ptr = (s', ok) ->
  (s' = s /\ (ok = true -> getbit (bm4 s) (ptr / FRAME_SIZE) = false))
  \/ (ok = true /\ released s s' (ptr / FRAME_SIZE)).
Proof.
  unfold Free. destruct (ptr =? 0); [intros [= <- <-]; by left|].
  destruct (negb _ || _); [intros [= <- <-]; by left|]. cbv zeta.
  rewrite align_down_div by done. destruct (getbit (bm4 s) _) eqn:Hp; cbn [negb].
  - intros [= <- <-]. right. split; [done|apply release_page_spec].
  - intros [= <- <-]. by left.
Qed.

(** The release of a page in use outside the DMA zone. *)
Lemma Free_in_use s a :
  DMAZone_limit <= a < MAX_ADDRESSABLE_MEMORY -> getbit (bm4 s) (a / FRAME_SIZE) = true ->
  Free s a = (release_page s (a / FRAME_SIZE), true).
Proof.
  intros Hr Hbit. unfold Free, IsAddressable, IsDMAAddress.
  assert ((a =? 0) = false) as -> by (apply Z.eqb_neq; unfold DMAZone_limit in Hr; lia).
  assert ((a <? MAX_ADDRESSABLE_MEMORY) = true) as -> by (apply Z.ltb_lt; lia).
  assert ((a <? DMAZone_start + DMAZone_limit) = false) as -> by (apply Z.ltb_ge; unfold DMAZone_start; lia).
  rewrite andb_false_r. cbn [negb orb]. cbv zeta. by rewrite align_down_div, Hbit by done.
Qed.

(** Releasing a 2 MiB region. *)
Record released2 (s s' : pm) (r : Z) : Prop := {
  r2_bm4 : forall q, getbit (bm4 s') q = negb (Get4KBParent2MB q =? r) && getbit (bm4 s) q;
  r2_words : wordsOk (bm4 s) -> wordsOk (bm4 s');
  r2_used : forall q, getbit (used2 s') q = negb (q =? r) && getbit (used2 s) q;
  r2_free : forall q, getbit (free2 s') q = (q =? r) || getbit (free2 s) q;
  r2_cached : Cached4KB s' = Cached4KB s }.

Lemma getbit_fill_region f r q :
  getbit (fillw (start_word_4kb r) (end_word_4kb r) 0 f) q
  = negb (Get4KBParent2MB q =? r) && getbit f q.
Proof.
  rewrite !getbit_testbit, fillw_lookup, start_word_eq, end_word_eq, <- parent_of_word.
  destruct ((8 * r <=? q / 64) && (q / 64 <? 8 * r + 8)) eqn:E.
  - boolp. replace (q / 64 / 8) with r by zdiv. by rewrite Z.eqb_refl, Z.bits_0.
  - destruct (Z.eqb_spec (q / 64 / 8) r); [|done].
    apply andb_false_iff in E as [E|E]; boolp; zdiv.
Qed.

Lemma Mark2MBRegionFreed_spec s r : released2 s (Mark2MBRegionFreed s r) r.
Proof.
  unfold Mark2MBRegionFreed. set (s1 := set_free2 _ _).
  destruct (Update32MBFlags s1 _) as [s2 pf] eqn:Hup.
  pose proof (Update32_core s1 (Get2MBParent32MB r)) as Hc.
  rewrite Hup in Hc. cbn [fst] in Hc.
  assert (Hc4 : core (push2 r (if pf then push32 (Get2MBParent32MB r) s2 else s2)) = core s1)
    by (by destruct pf).
  cbv zeta. set (s3 := push2 _ _) in *. clearbody s3.
  unfold core in Hc4. injection Hc4 as E1 E2 E3 E4.
  split; rewrite ?E1, ?E2, ?E3, ?E4; try done; simpl; intros.
  - apply getbit_fill_region.
  - by apply wordsOk_fillw.
  - apply getbit_clrw.
  - apply getbit_setw.
Qed.

Lemma Free2MB_spec s ptr s' ok :
  Free2MB s ptr = (s', ok) ->
  if ok then released2 s s' (ptr / PDE_COVERAGE) else s' = s.
Proof.
  unfold Free2MB. destruct (ptr =? 0); [by intros [= <- <-]|].
  destruct (negb _ || _); [by intros [= <- <-]|]. cbv zeta.
  rewrite align_down_div by done. destruct (negb _); [by intros [= <- <-]|].
  intros [= <- <-]. apply Mark2MBRegionFreed_spec.
Qed.

(** ** Clients of the 4 KiB and 2 MiB interface

    The state of the allocator with the blocks its clients hold.  A client
    releases only what it holds. *)
Inductive block := Page (p : Z) | Large (r : Z).

#[global] Instance block_eq_dec : EqDecision block.
Proof. solve_decision. Defined.

Definition block_start (b : block) : Z :=
  match b with Page p => p * FRAME_SIZE | Large r => r * PDE_COVERAGE end.
Definition block_size (b : block) : Z :=
  match b with Page _ => FRAME_SIZE | Large _ => PDE_COVERAGE end.

Definition disjoint_blocks (b c : block) : Prop :=
  block_start b + block_size b <= block_start c
  \/ block_start c + block_size c <= block_start b.

Definition forget (b : block) (live : list block) : list block := filter (.≠ b) live.

Inductive client_step : pm * list block -> pm * list block -> Prop :=
| step_Allocate s live s' a :
    Allocate s = (s', a) ->
    client_step (s, live) (s', if a =? 0 then live else Page (a / FRAME_SIZE) :: live)
| step_Allocate2MB s live s' a :
    Allocate2MB s = (s', a) ->
    client_step (s, live) (s', if a =? 0 then live else Large (a / PDE_COVERAGE) :: live)
| step_Free s live ptr s' ok :
    Page (ptr / FRAME_SIZE) ∈ live -> Free s ptr = (s', ok) ->
    client_step (s, live) (s', if ok then forget (Page (ptr / FRAME_SIZE)) live else live)
| step_Free2MB s live ptr s' ok :
    Large (ptr / PDE_COVERAGE) ∈ live -> Free2MB s ptr = (s', ok) ->
    client_step (s, live) (s', if ok then forget (Large (ptr / PDE_COVERAGE)) live else live).

(** What the boot code establishes: words of 64 bits, nothing cached, and a
    used flag for every region with a page in use. *)
Definition booted (s : pm) : Prop :=
  wordsOk (bm4 s) /\ Cached4KB s = None /\ usedOk s.

Record inv (s : pm) (live : list block) : Prop := {
  inv_words : wordsOk (bm4 s);
  inv_cached : cachedOk s;
  inv_usedOk : usedOk s;
  inv_nodup : NoDup live;
  inv_page : forall p, Page p ∈ live -> getbit (bm4 s) p = true;
  inv_large : forall r, Large r ∈ live -> getbit (used2 s) r = true /\ getbit (free2 s) r = false;
  inv_sep : forall p, Page p ∈ live -> Large (Get4KBParent2MB p) ∉ live }.

Lemma elem_of_forget b c live : c ∈ forget b live <-> c <> b /\ c ∈ live.
Proof. unfold forget. by rewrite list_elem_of_filter. Qed.

Lemma page_div p : p * FRAME_SIZE / FRAME_SIZE = p.
Proof. by apply Z.div_mul. Qed.
Lemma large_div r : r * PDE_COVERAGE / PDE_COVERAGE = r.
Proof. by apply Z.div_mul. Qed.

Lemma not_true_false b : (b = true -> False) -> b = false.
Proof. destruct b; tauto. Qed.

(** Moving only flags keeps the invariant. *)
Lemma inv_flags s s' live :
  inv s live -> bm4 s' = bm4 s -> cachedOk s' ->
  (forall q, getbit (used2 s) q = true -> getbit (used2 s') q = true) ->
  (forall q, getbit (free2 s') q = true -> getbit (free2 s) q = true) -> inv s' live.
Proof.
  intros [I1 I2 I3 I4 I5 I6 I7] Hb Hc Hu Hf. split; try done; rewrite ?Hb; try done.
  - intros p. rewrite Hb. auto.
  - intros r Hr. destruct (I6 r Hr) as [H1 H2]. split; [auto|].
    apply not_true_false. intros H. apply Hf in H. congruence.
Qed.

Lemma inv_took s s' live p :
  inv s live -> took s s' p -> getbit (free2 s) (Get4KBParent2MB p) = true ->
  inv s' (Page p :: live).
Proof.
  intros [I1 I2 I3 I4 I5 I6 I7] [T1 T2 T3 T4 T5 T6] Hf.
  assert (Hsep : Large (Get4KBParent2MB p) ∉ live) by (intros H; destruct (I6 _ H); congruence).
  split; try done.
  - rewrite T2. by apply wordsOk_setw.
  - intros q. rewrite T2, getbit_setw, orb_true_iff, Z.eqb_eq. intros [->|Hq]; auto.
  - constructor; [|done]. intros Hp. apply I5 in Hp. congruence.
  - intros q Hq. rewrite T2, getbit_setw. apply elem_of_cons in Hq as [Hq|Hq].
    + simplify_eq. by rewrite Z.eqb_refl.
    + by rewrite (I5 _ Hq), orb_true_r.
  - intros r Hr. apply elem_of_cons in Hr as [Hr|Hr]; [done|].
    destruct (I6 r Hr) as [H1 H2]. split; [auto|].
    apply not_true_false. intros H. apply T5 in H. congruence.
  - intros q Hq. rewrite not_elem_of_cons. split; [done|].
    apply elem_of_cons in Hq as [Hq|Hq]; [by simplify_eq|auto].
Qed.

Lemma inv_took2 s s' live r :
  inv s live -> quiet s s' -> took2 s s' r -> inv s' (Large r :: live).
Proof.
  intros HI [Q1 Q2 Q3 Q4] [T1 T2 T3].
  assert (HI' : inv s' live).
  { apply (inv_flags s); try done. unfold cachedOk. rewrite Q1, Q4. apply HI. }
  destruct HI as [I1 I2 I3 I4 I5 I6 I7]. destruct HI'. split; try done.
  - constructor; [|done]. intros Hr. destruct (I6 _ Hr). congruence.
  - intros p Hp. apply elem_of_cons in Hp as [Hp|Hp]; [done|auto].
  - intros q Hq. apply elem_of_cons in Hq as [Hq|Hq]; [by simplify_eq|auto].
  - intros p Hp. apply elem_of_cons in Hp as [Hp|Hp]; [done|].
    rewrite not_elem_of_cons. split; [|auto]. intros Heq. simplify_eq.
    apply I5, I3 in Hp. congruence.
Qed.

Lemma inv_released s s' live p :
  inv s live -> Page p ∈ live -> released s s' p -> inv s' (forget (Page p) live).
Proof.
  intros [I1 I2 I3 I4 I5 I6 I7] Hin [R1 R2 R3 R4 R5 R6]. split; auto.
  - intros q Hq. rewrite R6 in Hq. simplify_eq. by rewrite R1, Z.eqb_refl.
  - by apply NoDup_filter.
  - intros q [Hne Hq]%elem_of_forget. rewrite R1, (I5 _ Hq).
    destruct (Z.eqb_spec q p); [congruence|done].
  - intros r [_ Hr]%elem_of_forget.
    assert (r <> Get4KBParent2MB p) by (intros ->; by apply (I7 p)).
    rewrite R4, R5 by done. auto.
  - intros q [_ Hq]%elem_of_forget [_ Hr]%elem_of_forget. by apply (I7 q).
Qed.

Lemma inv_released2 s s' live r :
  inv s live -> Large r ∈ live -> released2 s s' r -> inv s' (forget (Large r) live).
Proof.
  intros [I1 I2 I3 I4 I5 I6 I7] Hin [R1 R2 R3 R4 R5]. split; auto.
  - intros q Hq. rewrite R5 in Hq. rewrite R1, (I2 _ Hq). by rewrite andb_false_r.
  - intros q. rewrite R1, R3, !andb_true_iff, !negb_true_iff. intros [? ?]. auto.
  - by apply NoDup_filter.
  - intros q [_ Hq]%elem_of_forget. rewrite R1, (I5 _ Hq).
    destruct (Z.eqb_spec (Get4KBParent2MB q) r) as [<-|]; [|done]. by destruct (I7 q Hq).
  - intros q [Hne Hq]%elem_of_forget. destruct (I6 q Hq) as [H1 H2].
    rewrite R3, R4, H1, H2. destruct (Z.eqb_spec q r); [congruence|done].
  - intros q [_ Hq]%elem_of_forget [_ Hr]%elem_of_forget. by apply (I7 q).
Qed.

Lemma inv_step s live s' live' :
  inv s live -> client_step (s, live) (s', live') -> inv s' live'.
Proof.
  intros HI Hstep. inversion Hstep as [? ? ? a H|? ? ? a H|? ? ptr ? ok Hin H|? ? ptr ? ok Hin H]; subst; clear Hstep.
  - pose proof (Allocate_spec s (inv_words _ _ HI) (inv_cached _ _ HI)) as Ha.
    rewrite H in Ha. cbn [fst snd] in Ha.
    destruct Ha as [(-> & H1 & H2 & H3 & H4)|(p & -> & Ht & Hf)]; [by apply (inv_flags s)|].
    rewrite page_div. pose proof (inv_took _ _ _ _ HI Ht Hf) as HI2.
    destruct (_ =? 0); [|done]. destruct HI2 as [J1 J2 J3 J4 J5 J6 J7]. split; try done.
    + by apply NoDup_cons in J4 as [_ ?].
    + intros q Hq. apply J5. by right.
    + intros q Hq. apply J6. by right.
    + intros q Hq Hr. apply (J7 q); by right.
  - pose proof (Allocate2MB_spec s) as [Hq Ha]. rewrite H in Hq, Ha. cbn [fst snd] in Hq, Ha.
    assert (HI' : inv s' live).
    { destruct Hq as [Q1 Q2 Q3 Q4]. apply (inv_flags s); try done.
      unfold cachedOk. rewrite Q1, Q4. apply HI. }
    destruct Ha as [->|(r & -> & Ht)]; [done|]. rewrite large_div.
    destruct (_ =? 0); [done|]. by apply (inv_took2 s).
  - apply Free_spec in H as [[-> Hok]|[-> Hr]].
    + destruct ok; [|done]. apply (inv_page _ _ HI) in Hin. specialize (Hok eq_refl). congruence.
    + by apply (inv_released s).
  - apply Free2MB_spec in H. destruct ok; [|by subst]. by apply (inv_released2 s).
Qed.

Lemma inv_reachable s0 s live :
  booted s0 -> rtc client_step (s0, []) (s, live) -> inv s live.
Proof.
  intros (B1 & B2 & B3) H.
  assert (H0 : inv s0 []).
  { split; try done; try (by intros ? ?%elem_of_nil); [|constructor].
    intros p Hp. congruence. }
  remember (s0, []) as x eqn:Ex. remember (s, live) as y eqn:Ey.
  revert s0 s live B1 B2 B3 H0 Ex Ey.
  assert (Hgen : forall x y, rtc client_step x y -> inv x.1 x.2 -> inv y.1 y.2).
  { clear. induction 1 as [|[s1 l1] [s2 l2] [s3 l3] Hs _ IH]; [done|].
    intros HI. apply IH. by eapply inv_step. }
  intros. subst. by apply (Hgen _ _ H).
Qed.

Lemma inv_disjoint s live b c : inv s live -> b ∈ live -> c ∈ live -> b <> c -> disjoint_blocks b c.
Proof.
  intros HI Hb Hc Hne. unfold disjoint_blocks.
  assert (Hpl : forall p r, Page p ∈ live -> Large r ∈ live -> p / 512 <> r).
  { intros p r Hp Hr <-. by apply (inv_sep _ _ HI p). }
  destruct b as [p|r], c as [q|t]; simpl; unfold FRAME_SIZE, PDE_COVERAGE.
  - assert (p <> q) by congruence. lia.
  - specialize (Hpl p t Hb Hc). zdiv.
  - specialize (Hpl q r Hc Hb). zdiv.
  - assert (r <> t) by congruence. lia.
Qed.

(** ** A concrete state

    The bitmaps [Setup] builds when the 32 MiB region of index 1 (physical
    addresses 32 MiB to 64 MiB) is the only free memory. *)
Definition one_region : pm := {|
  used32 := fun i => if i =? 0 then ALL_ONES - 2 else ALL_ONES;
  free32 := fun i => if i =? 0 then 2 else 0;
  used2 := fun i => if i =? 0 then ALL_ONES - 0xFFFF0000 else ALL_ONES;
  free2 := fun i => if i =? 0 then 0xFFFF0000 else 0;
  bm4 := fun w => if (128 <=? w) && (w <? 256) then 0 else ALL_ONES;
  Cache32MB := cache_empty; Cache2MB := cache_empty; Cached4KB := None;
  DMA_bitmap := fun i => if i =? 0 then 1 else 0 |}.

Lemma one_region_bm4 p : getbit (bm4 one_region) p = negb ((16 <=? p / 512) && (p / 512 <? 32)).
Proof.
  destruct ((128 <=? p / 64) && (p / 64 <? 256)) eqn:E.
  - rewrite getbit_word_zero by (simpl; by rewrite E). symmetry. apply negb_false_iff.
    boolp. zdiv.
  - rewrite getbit_word_full by (simpl; by rewrite E). symmetry. apply negb_true_iff.
    apply andb_false_iff in E as [E|E]; apply andb_false_iff; boolp; [left|right]; zdiv.
Qed.

(** A property of the bits of word 0 of a bitmap constant elsewhere. *)
Lemma word0_cases (f : words) (P : Z -> bool -> Prop) r :
  (forall b, 0 <= b < 64 -> P b (Z.testbit (f 0) b)) ->
  (r / 64 <> 0 -> P r (getbit f r)) -> P r (getbit f r).
Proof.
  intros H0 H1. destruct (Z.eq_dec (r / 64) 0) as [E|E]; [|auto].
  rewrite getbit_testbit, E. assert (Hr : r mod 64 = r) by zdiv. rewrite Hr.
  apply H0. rewrite <- Hr. apply mod64_range.
Qed.

Lemma one_region_used2 r : getbit (used2 one_region) r = negb ((16 <=? r) && (r <? 32)).
Proof.
  apply (word0_cases _ (fun r b => b = negb ((16 <=? r) && (r <? 32)))).
  - intros b Hb. apply eqb_prop. revert b Hb.
    apply (forallb_seqZ (fun b => eqb (Z.testbit (used2 one_region 0) b) (negb ((16 <=? b) && (b <? 32)))) 0 64).
    by vm_compute.
  - intros Hr. rewrite getbit_word_full by (simpl; by destruct (Z.eqb_spec (r / 64) 0)).
    symmetry. apply negb_true_iff, andb_false_iff. bool_cases; auto; zdiv.
Qed.

Lemma one_region_booted : booted one_region.
Proof.
  split; [|split; [done|]].
  - intros i. simpl. by destruct (_ && _).
  - intros p. rewrite one_region_bm4, one_region_used2.
    by replace (Get4KBParent2MB p) with (p / 512) by done.
Qed.

(** ** Safety *)

(** C1: whatever sequence of [Allocate], [Allocate2MB], [Free] and [Free2MB]
    the clients run from a booted state, two blocks held at the same time never
    overlap. *)
Theorem live_blocks_disjoint (s0 s : pm) (live : list block) (i j : nat) (b c : block) :
  booted s0 -> rtc client_step (s0, []) (s, live) ->
  live !! i = Some b -> live !! j = Some c -> i <> j -> disjoint_blocks b c.
Proof.
  intros Hb H Hi Hj Hij. pose proof (inv_reachable s0 s live Hb H) as HI.
  apply (inv_disjoint s live); try done; try by eapply list_elem_of_lookup_2.
  intros ->. apply Hij. eapply NoDup_lookup; [apply HI|done|done].
Qed.

Lemma live_blocks_disjoint_witness : disjoint_blocks (Large 17) (Page 8192).
Proof.
  set (s1 := Allocate one_region). set (s2 := Allocate2MB (fst s1)).
  apply (live_blocks_disjoint one_region (fst s2) [Large 17; Page 8192] 0 1);
    [apply one_region_booted| |done..].
  apply rtc_l with (fst s1, [Page 8192]).
  - replace [Page 8192] with (if snd s1 =? 0 then [] else [Page (snd s1 / FRAME_SIZE)]) by (by vm_compute).
    apply step_Allocate, surjective_pairing.
  - apply rtc_once.
    replace [Large 17; Page 8192] with
      (if snd s2 =? 0 then [Page 8192] else [Large (snd s2 / PDE_COVERAGE); Page 8192]) by (by vm_compute).
    apply step_Allocate2MB, surjective_pairing.
Defined.

(** a page just allocated and released again leaves the 4 KiB bitmap as it
    was, and is the page the next [Allocate] looks at first. *)
Theorem Free_Allocate (s : pm) (a : Z) (s1 s2 : pm) (ok : bool) :
  wordsOk (bm4 s) -> cachedOk s -> Allocate s = (s1, a) -> DMAZone_limit <= a < MAX_ADDRESSABLE_MEMORY ->
  Free s1 a = (s2, ok) ->
  ok = true /\ (forall p, getbit (bm4 s2) p = getbit (bm4 s) p)
  /\ Cached4KB s2 = Some (a / FRAME_SIZE).
Proof.
  intros Hw Hc Ha Hr Hf. pose proof (Allocate_spec s Hw Hc) as Hs. rewrite Ha in Hs.
  assert (a <> 0) by (unfold DMAZone_limit in Hr; lia).
  cbn [fst snd] in Hs. destruct Hs as [(-> & _)|(p & Hap & [T1 T2 T3 T4 T5 T6] & _)]; [done|].
  assert (Hbit : getbit (bm4 s1) (a / FRAME_SIZE) = true)
    by (rewrite Hap, page_div, T2, getbit_setw, Z.eqb_refl; done).
  pose proof (Free_in_use s1 a Hr Hbit) as Hf'. rewrite Hf' in Hf. apply pair_equal_spec in Hf as [<- <-].
  split; [done|].
  destruct (release_page_spec s1 (a / FRAME_SIZE)) as [R1 R2 R3 R4 R5 R6].
  split; [|done]. intros q. rewrite R1, T2, getbit_setw, Hap, page_div.
  destruct (Z.eqb_spec q p) as [->|]; [by rewrite T1|done].
Qed.

Lemma Free_Allocate_witness :
  let r := Allocate one_region in let r' := Free (fst r) (snd r) in
  snd r = 0x2000000 /\ snd r' = true /\ Cached4KB (fst r') = Some 8192.
Proof.
  intros r r'. split; [by vm_compute|].
  destruct (Free_Allocate one_region (snd r) (fst r) (fst r') (snd r')) as (H1 & _ & H2).
  - intros i. simpl. by destruct (_ && _).
  - intros p H. done.
  - apply surjective_pairing.
  - split; by vm_compute.
  - apply surjective_pairing.
  - split; [exact H1|]. rewrite H2. by vm_compute.
Defined.
