(* ===== verification/PhysMemFlags.v ===== *)
(** * Flags, completeness and limits of the physical memory allocator

    The (used, free) flags are precise when they summarise the level below.
    [Setup] builds precise flags; on precise flags [Allocate] finds a page
    whenever one is free; the operations do not keep the flags precise, and the
    consequences are shown on a concrete state.  The ring cache and the DMA
    bitmap are treated at the end. *)
From S2P Require Import Prelude Paging PhysMem PhysMemProps.

(** ** Precise flags *)

Record precise (s : pm) : Prop := {
  pr_bm4 : wordsOk (bm4 s);
  pr_w_used32 : wordsOk (used32 s);
  pr_w_free32 : wordsOk (free32 s);
  pr_used2 : forall r, 0 <= r < BITMAP_ENTRIES_2MB ->
    getbit (used2 s) r = true <-> exists p, Get4KBParent2MB p = r /\ getbit (bm4 s) p = true;
  pr_free2 : forall r, 0 <= r < BITMAP_ENTRIES_2MB ->
    getbit (free2 s) r = true <-> exists p, Get4KBParent2MB p = r /\ getbit (bm4 s) p = false;
  pr_used32 : forall R, 0 <= R < BITMAP_ENTRIES_32MB ->
    getbit (used32 s) R = true <-> exists i, 0 <= i < 16 /\ getbit (used2 s) (R * 16 + i) = true;
  pr_free32 : forall R, 0 <= R < BITMAP_ENTRIES_32MB ->
    getbit (free32 s) R = true <-> exists i, 0 <= i < 16 /\ getbit (free2 s) (R * 16 + i) = true }.

(** A loop whose iterations either leave the state alone or return. *)
Lemma for_each_finds {A S R} (Q : R -> Prop) (body : A -> S -> S * option R) (l : list A) s :
  (forall a, a ∈ l -> body a s = (s, None) \/ exists s' r, body a s = (s', Some r) /\ Q r) ->
  (exists a, a ∈ l /\ body a s <> (s, None)) ->
  exists s' r, for_each l body s = (s', Some r) /\ Q r.
Proof.
  induction l as [|x l IH]; intros Hall (a & Ha & Hne); [by apply elem_of_nil in Ha|]. simpl.
  destruct (Hall x) as [Hx|(s' & r & Hx & HQ)]; [by left| |].
  - rewrite Hx. apply IH; [intros b Hb; apply Hall; by right|].
    exists a. split; [|done]. apply elem_of_cons in Ha as [->|]; [done|done].
  - rewrite Hx. by exists s', r.
Qed.

Section Completeness.
Context (s : pm) (Hpr : precise s) (Hzero : getbit (bm4 s) 0 = true).

Lemma take_in_word_some s1 idx :
  bm4 s1 = bm4 s -> 0 <= idx -> bm4 s1 idx <> ALL_ONES ->
  exists s' a, take_in_word idx s1 = (s', Some a) /\ a <> 0.
Proof.
  intros Hb Hidx Hne. unfold take_in_word.
  apply Z.eqb_neq in Hne as Hne'. rewrite Hne'. cbn [negb]. do 2 eexists. split; [done|].
  rewrite Hb in Hne. destruct (first_clear_page (bm4 s) idx (pr_bm4 s Hpr) Hne) as (Hq & Hf & _).
  rewrite Hb. set (p := idx * 64 + _) in *.
  assert (p <> 0) by (intros E; rewrite E in Hf; congruence). unfold FRAME_SIZE. lia.
Qed.

Lemma take_in_word_none s1 idx : bm4 s1 idx = ALL_ONES -> take_in_word idx s1 = (s1, None).
Proof. intros H. unfold take_in_word. by rewrite H. Qed.

Lemma take_in_2mb_some s1 r :
  bm4 s1 = bm4 s -> free2 s1 = free2 s -> 0 <= r < BITMAP_ENTRIES_2MB ->
  getbit (free2 s) r = true ->
  exists s' a, take_in_2mb r s1 = (s', Some a) /\ a <> 0.
Proof.
  intros Hb Hf Hr Hbit. unfold take_in_2mb. rewrite Hf, Hbit.
  pose proof (q_bm4 _ _ (Mark2_quiet s1 r)) as Hb2. rewrite Hb in Hb2.
  set (s2 := Mark2MBRegionUsed s1 r) in *.
  apply (for_each_finds (fun a => a <> 0)).
  - intros w Hw%elem_of_words_4kb. destruct (Z.eq_dec (bm4 s2 w) ALL_ONES).
    + left. by apply take_in_word_none.
    + right. apply take_in_word_some; [done| |done]. zdiv.
  - apply (pr_free2 s Hpr r Hr) in Hbit as (p & Hp & Hfree).
    exists (p / 64). split; [apply elem_of_words_4kb; by rewrite parent_of_word|].
    destruct (take_in_word_some s2 (p / 64)) as (s' & a & -> & _); [done| | |done].
    + unfold Get4KBParent2MB, PT_ENTRIES in Hp. zdiv.
    + rewrite Hb2. intros H. rewrite (getbit_word_full _ p H) in Hfree. done.
Qed.

Lemma lowest_bit_of_word f i b :
  0 <= b < 64 -> Z.testbit (f i) b = getbit f (i * 64 + b).
Proof. intros Hb. destruct (countr_word i b Hb) as [Hq Hm]. by rewrite getbit_testbit, Hq, Hm. Qed.

Lemma take_in_32mb_word_some i :
  0 <= i < BITMAP_WORDS_32MB -> free32 s i <> 0 ->
  exists s' a, take_in_32mb_word i s = (s', Some a) /\ a <> 0.
Proof.
  intros Hi Hne. unfold take_in_32mb_word. apply Z.eqb_neq in Hne as Hne'. rewrite Hne'. cbn [negb].
  cbv zeta. set (partial := Z.land (used32 s i) (free32 s i)).
  set (target := if negb (partial =? 0) then partial else free32 s i).
  assert (Htgt : 0 <= target < 2 ^ 64 /\ target <> 0
                 /\ forall b, Z.testbit target b = true -> Z.testbit (free32 s i) b = true).
  { unfold target. destruct (Z.eqb_spec partial 0); cbn [negb].
    - split; [apply (pr_w_free32 s Hpr)|]. done.
    - split; [apply land_range; [done|apply (pr_w_used32 s Hpr)]|]. split; [done|].
      intros b. unfold partial. rewrite Z.land_spec, andb_true_iff. tauto. }
  destruct Htgt as (Hrng & Hn0 & Hsub). destruct (countr_zero_spec target Hrng Hn0) as [Hb Ht].
  set (b := countr_zero target) in *. apply Hsub in Ht. rewrite lowest_bit_of_word in Ht by done.
  set (R := i * 64 + b) in *.
  assert (HR : 0 <= R < BITMAP_ENTRIES_32MB).
  { change BITMAP_WORDS_32MB with 128 in Hi. change BITMAP_ENTRIES_32MB with 8192. lia. }
  change BITMAP_ENTRIES_32MB with 8192 in HR.
  assert (Hch : forall j, 0 <= j < 16 -> 0 <= R * 16 + j < BITMAP_ENTRIES_2MB)
    by (change BITMAP_ENTRIES_2MB with 131072; lia).
  apply (for_each_finds (fun a => a <> 0)).
  - intros j Hj%elem_of_seqZ. destruct (getbit (free2 s) (R * 16 + j)) eqn:Hf.
    + right. apply take_in_2mb_some; [done..|apply Hch; lia|done].
    + left. unfold take_in_2mb. by rewrite Hf.
  - apply (pr_free32 s Hpr R HR) in Ht as (j & Hj & Hf).
    exists j. split; [apply elem_of_seqZ; lia|].
    destruct (take_in_2mb_some s (R * 16 + j)) as (s' & a & -> & _); [done..|by apply Hch|done|done].
Qed.

Lemma scan_some p :
  0 <= p < BITMAP_ENTRIES_4KB -> getbit (bm4 s) p = false ->
  exists s' a, for_each (seqZ 0 BITMAP_WORDS_32MB) take_in_32mb_word s = (s', Some a) /\ a <> 0.
Proof.
  change BITMAP_ENTRIES_4KB with 67108864. intros Hp Hfree.
  assert (H2 : getbit (free2 s) (p / 512) = true).
  { apply (pr_free2 s Hpr); [change BITMAP_ENTRIES_2MB with 131072; zdiv|]. by exists p. }
  assert (H32 : getbit (free32 s) (p / 512 / 16) = true).
  { apply (pr_free32 s Hpr); [change BITMAP_ENTRIES_32MB with 8192; zdiv|].
    exists (p / 512 mod 16). split; [by apply Z.mod_pos_bound|].
    by replace (p / 512 / 16 * 16 + p / 512 mod 16) with (p / 512) by zdiv. }
  set (i := p / 512 / 16 / 64).
  assert (Hi : 0 <= i < BITMAP_WORDS_32MB) by (change BITMAP_WORDS_32MB with 128; subst i; zdiv).
  assert (Hw : free32 s i <> 0).
  { intros H. rewrite (getbit_word_zero _ _ H) in H32. done. }
  apply (for_each_finds (fun a => a <> 0)).
  - intros j Hj%elem_of_seqZ. destruct (Z.eq_dec (free32 s j) 0) as [E|E].
    + left. unfold take_in_32mb_word. by rewrite E.
    + right. apply take_in_32mb_word_some; [lia|done].
  - exists i. split; [apply elem_of_seqZ; lia|].
    destruct (take_in_32mb_word_some i Hi Hw) as (s' & a & -> & _). done.
Qed.
End Completeness.

Lemma precise_set_cached4 o s : precise s -> precise (set_cached4 o s).
Proof. by intros []. Qed.

(** ** Setup *)

Lemma foldl_bm4 {A} (f : pm -> A -> pm) l s :
  (forall s a, bm4 (f s a) = bm4 s) -> bm4 (foldl f s l) = bm4 s.
Proof. intros Hf. induction l as [|a l IH] using rev_ind; [done|]. by rewrite foldl_snoc, Hf. Qed.

(** After the first loop, the two flags of a region in range summarise its words. *)
Lemma update_2mb_flags l s r :
  let s' := foldl Setup_update_2mb s l in
  getbit (used2 s') r = (if existsb (Z.eqb r) l
    then existsb (fun w => negb (bm4 s w =? 0)) (words_4kb r) else getbit (used2 s) r)
  /\ getbit (free2 s') r = (if existsb (Z.eqb r) l
    then existsb (fun w => negb (bm4 s w =? ALL_ONES)) (words_4kb r) else getbit (free2 s) r).
Proof.
  cbv zeta. induction l as [|x l IH] using rev_ind; [done|].
  rewrite foldl_snoc, existsb_app. unfold Setup_update_2mb at 1 3. cbv zeta. cbn [used2 free2 set_used2 set_free2 existsb].
  rewrite !getbit_putw, (foldl_bm4 Setup_update_2mb l s) by done.
  destruct (Z.eqb_spec r x) as [->|]; [by rewrite orb_true_r|by rewrite !orb_false_r].
Qed.

Lemma update_32mb_flags l s R :
  let s' := foldl Setup_update_32mb s l in
  used2 s' = used2 s /\ free2 s' = free2 s
  /\ getbit (used32 s') R = (if existsb (Z.eqb R) l
    then existsb (fun i => getbit (used2 s) (R * 16 + i)) (seqZ 0 16) else getbit (used32 s) R)
  /\ getbit (free32 s') R = (if existsb (Z.eqb R) l
    then existsb (fun i => getbit (free2 s) (R * 16 + i)) (seqZ 0 16) else getbit (free32 s) R).
Proof.
  cbv zeta. induction l as [|x l IH] using rev_ind; [done|].
  destruct IH as (E1 & E2 & E3 & E4).
  rewrite foldl_snoc, existsb_app. set (s1 := foldl _ s l) in *. clearbody s1.
  unfold Setup_update_32mb. cbv zeta.
  cbn [used2 free2 used32 free32 set_used32 set_free32 existsb].
  split; [done|]. split; [done|].
  rewrite !getbit_putw, E1, E2.
  destruct (Z.eqb_spec R x) as [->|]; [by rewrite orb_true_r|by rewrite !orb_false_r].
Qed.

Lemma existsb_eqb_seqZ r n : 0 <= r < n -> existsb (Z.eqb r) (seqZ 0 n) = true.
Proof. intros H. apply existsb_seqZ. exists r. rewrite Z.eqb_refl. lia. Qed.

Lemma has_used_iff f r : wordsOk f ->
  existsb (fun w => negb (f w =? 0)) (words_4kb r) = true
  <-> exists p, Get4KBParent2MB p = r /\ getbit f p = true.
Proof.
  intros Hf. rewrite existsb_exists. split.
  - intros (w & Hw & Hn). apply list_elem_of_In, elem_of_words_4kb in Hw.
    apply negb_true_iff, Z.eqb_neq in Hn. apply word_nonzero in Hn as (p & Hp & Hb); [|done].
    exists p. by rewrite <- parent_of_word, Hp.
  - intros (p & Hp & Hb). exists (p / 64). split.
    + by apply list_elem_of_In, elem_of_words_4kb; rewrite parent_of_word.
    + apply negb_true_iff, Z.eqb_neq. intros H. by rewrite (getbit_word_zero _ _ H) in Hb.
Qed.

Lemma has_free_iff f r : wordsOk f ->
  existsb (fun w => negb (f w =? ALL_ONES)) (words_4kb r) = true
  <-> exists p, Get4KBParent2MB p = r /\ getbit f p = false.
Proof.
  intros Hf. rewrite existsb_exists. split.
  - intros (w & Hw & Hn). apply list_elem_of_In, elem_of_words_4kb in Hw.
    apply negb_true_iff, Z.eqb_neq in Hn. apply word_not_full in Hn as (p & Hp & Hb); [|done].
    exists p. by rewrite <- parent_of_word, Hp.
  - intros (p & Hp & Hb). exists (p / 64). split.
    + by apply list_elem_of_In, elem_of_words_4kb; rewrite parent_of_word.
    + apply negb_true_iff, Z.eqb_neq. intros H. by rewrite (getbit_word_full _ _ H) in Hb.
Qed.

Lemma foldl_words32 l s :
  wordsOk (used32 s) -> wordsOk (free32 s) ->
  let s' := foldl Setup_update_32mb s l in wordsOk (used32 s') /\ wordsOk (free32 s').
Proof.
  intros H1 H2. cbv zeta. induction l as [|x l [I1 I2]] using rev_ind; [done|].
  rewrite foldl_snoc. split; by apply wordsOk_putw.
Qed.

Lemma foldl_keep32 l s :
  let s' := foldl Setup_update_2mb s l in used32 s' = used32 s /\ free32 s' = free32 s.
Proof. cbv zeta. induction l as [|x l [I1 I2]] using rev_ind; [done|]. by rewrite foldl_snoc. Qed.

Lemma update_flags_precise l2 l32 s :
  (forall r, 0 <= r < BITMAP_ENTRIES_2MB -> existsb (Z.eqb r) l2 = true) ->
  (forall R, 0 <= R < BITMAP_ENTRIES_32MB -> existsb (Z.eqb R) l32 = true) ->
  wordsOk (bm4 s) -> wordsOk (used32 s) -> wordsOk (free32 s) ->
  precise (foldl Setup_update_32mb (foldl Setup_update_2mb s l2) l32).
Proof.
  intros Hl2 Hl32 Hb Hu Hf. set (s1 := foldl Setup_update_2mb s l2).
  assert (Hb1 : bm4 s1 = bm4 s) by (by apply foldl_bm4).
  assert (Hk : used32 s1 = used32 s /\ free32 s1 = free32 s) by apply foldl_keep32.
  destruct Hk as [Hk1 Hk2].
  assert (Hb2 : bm4 (foldl Setup_update_32mb s1 l32) = bm4 s) by (rewrite <- Hb1; by apply foldl_bm4).
  destruct (foldl_words32 l32 s1) as [W1 W2]; [by rewrite Hk1|by rewrite Hk2|].
  split; rewrite ?Hb2; try done; intros r Hr.
  - destruct (update_32mb_flags l32 s1 r) as (-> & _).
    destruct (update_2mb_flags l2 s r) as [E _]. fold s1 in E.
    rewrite E, Hl2 by done. by apply has_used_iff.
  - destruct (update_32mb_flags l32 s1 r) as (_ & -> & _).
    destruct (update_2mb_flags l2 s r) as [_ E]. fold s1 in E.
    rewrite E, Hl2 by done. by apply has_free_iff.
  - destruct (update_32mb_flags l32 s1 r) as (-> & _ & -> & _).
    rewrite Hl32 by done. apply existsb_seqZ.
  - destruct (update_32mb_flags l32 s1 r) as (_ & -> & _ & ->).
    rewrite Hl32 by done. apply existsb_seqZ.
Qed.

Lemma update_flags_outside l2 l32 s r :
  existsb (Z.eqb r) l2 = false ->
  getbit (used2 (foldl Setup_update_32mb (foldl Setup_update_2mb s l2) l32)) r = getbit (used2 s) r.
Proof.
  intros H. destruct (update_32mb_flags l32 (foldl Setup_update_2mb s l2) r) as (-> & _).
  destruct (update_2mb_flags l2 s r) as [-> _]. by rewrite H.
Qed.

Lemma Setup_free_pages_spec s a n :
  let s' := Setup_free_pages s a n in
  used2 s' = used2 s /\ used32 s' = used32 s /\ free32 s' = free32 s
  /\ (wordsOk (bm4 s) -> wordsOk (bm4 s'))
  /\ forall p, getbit (bm4 s') p =
       negb (existsb (fun k => IsAddressable (a + k * FRAME_SIZE)
                               && (p =? (a + k * FRAME_SIZE) / FRAME_SIZE)) (seqZ 0 n))
       && getbit (bm4 s) p.
Proof.
  cbv zeta. unfold Setup_free_pages. induction (seqZ 0 n) as [|k l IH] using rev_ind; [done|].
  destruct IH as (I1 & I2 & I3 & I4 & I5). rewrite foldl_snoc.
  set (s1 := foldl _ s l) in *. clearbody s1. cbv zeta.
  destruct (IsAddressable (a + k * FRAME_SIZE)) eqn:Ha.
  - do 3 (split; [done|]). split.
    + intros Hw. by apply wordsOk_clrw, I4.
    + intros p. cbn [bm4 set_bm4]. rewrite getbit_clrw, I5, existsb_app. cbn [existsb].
      rewrite Ha. cbn [andb]. by destruct (p =? _), (existsb _ l).
  - do 3 (split; [done|]). split; [done|]. intros p. rewrite I5, existsb_app. cbn [existsb]. rewrite Ha. cbn [andb].
    by rewrite !orb_false_r.
Qed.

(** The pages [Setup] frees for one descriptor. *)
Definition frees (d : Z * Z) (p : Z) : Prop :=
  exists k, 0 <= k < snd d /\ fst d + k * FRAME_SIZE < MAX_ADDRESSABLE_MEMORY
            /\ p = (fst d + k * FRAME_SIZE) / FRAME_SIZE.

Lemma Setup_descs_spec descs s :
  let s' := foldl (fun s d => Setup_free_pages s (fst d) (snd d)) s descs in
  used2 s' = used2 s /\ used32 s' = used32 s /\ free32 s' = free32 s
  /\ (wordsOk (bm4 s) -> wordsOk (bm4 s'))
  /\ forall p, getbit (bm4 s') p = false
       <-> getbit (bm4 s) p = false \/ exists d, d ∈ descs /\ frees d p.
Proof.
  cbv zeta. induction descs as [|d l IH] using rev_ind.
  { do 3 (split; [done|]). split; [done|]. intros p. split; [by left|]. intros [?|(d & Hd & _)]; [done|]. by apply elem_of_nil in Hd. }
  destruct IH as (I1 & I2 & I3 & I4 & I5). rewrite foldl_snoc.
  set (s1 := foldl _ s l) in *. clearbody s1.
  destruct (Setup_free_pages_spec s1 (fst d) (snd d)) as (J1 & J2 & J3 & J4 & J5).
  rewrite J1, J2, J3. split; [done|]. split; [done|]. split; [done|]. split; [tauto|]. intros p.
  rewrite J5, andb_false_iff, negb_false_iff, I5, existsb_seqZ.
  assert (Hd : (exists i, 0 <= i < 0 + snd d /\ IsAddressable (fst d + i * FRAME_SIZE)
                 && (p =? (fst d + i * FRAME_SIZE) / FRAME_SIZE) = true) <-> frees d p).
  { unfold frees, IsAddressable. split; intros (k & H); exists k;
      rewrite andb_true_iff, Z.ltb_lt, Z.eqb_eq in *; intuition lia. }
  rewrite Hd. setoid_rewrite elem_of_app. setoid_rewrite list_elem_of_singleton.
  split.
  - intros [H|[H|(d' & H1 & H2)]]; [right; exists d; auto|by left|right; exists d'; auto].
  - intros [H|(d' & [H1| ->] & H2)]; [auto| |auto]. right. right. by exists d'.
Qed.

Lemma one_region_free2 r : getbit (free2 one_region) r = (16 <=? r) && (r <? 32).
Proof.
  apply (word0_cases _ (fun r b => b = (16 <=? r) && (r <? 32))).
  - intros b Hb. apply eqb_prop. revert b Hb.
    apply (forallb_seqZ (fun b => eqb (Z.testbit (free2 one_region 0) b) ((16 <=? b) && (b <? 32))) 0 64).
    by vm_compute.
  - intros Hr. rewrite getbit_word_zero by (simpl; by destruct (Z.eqb_spec (r / 64) 0)).
    symmetry. apply andb_false_iff. bool_cases; auto; zdiv.
Qed.

Lemma one_region_used32 r : getbit (used32 one_region) r = negb (r =? 1).
Proof.
  apply (word0_cases _ (fun r b => b = negb (r =? 1))).
  - intros b Hb. apply eqb_prop. revert b Hb.
    apply (forallb_seqZ (fun b => eqb (Z.testbit (used32 one_region 0) b) (negb (b =? 1))) 0 64).
    by vm_compute.
  - intros Hr. rewrite getbit_word_full by (simpl; by destruct (Z.eqb_spec (r / 64) 0)).
    symmetry. apply negb_true_iff. bool_cases; auto; zdiv.
Qed.

Lemma one_region_free32 r : getbit (free32 one_region) r = (r =? 1).
Proof.
  apply (word0_cases _ (fun r b => b = (r =? 1))).
  - intros b Hb. apply eqb_prop. revert b Hb.
    apply (forallb_seqZ (fun b => eqb (Z.testbit (free32 one_region 0) b) (b =? 1)) 0 64).
    by vm_compute.
  - intros Hr. rewrite getbit_word_zero by (simpl; by destruct (Z.eqb_spec (r / 64) 0)).
    symmetry. bool_cases; auto; zdiv.
Qed.

Lemma one_region_precise : precise one_region.
Proof.
  split; try (intros i; simpl; by repeat case_match).
  - intros r _. rewrite one_region_used2. split.
    + intros H. exists (512 * r). assert (E : 512 * r / 512 = r) by zdiv.
      split; [done|]. by rewrite one_region_bm4, E.
    + intros (p & <- & Hp). by rewrite one_region_bm4 in Hp.
  - intros r _. rewrite one_region_free2. split.
    + intros H. exists (512 * r). assert (E : 512 * r / 512 = r) by zdiv.
      split; [done|]. by rewrite one_region_bm4, E, H.
    + intros (p & <- & Hp). rewrite one_region_bm4 in Hp. by apply negb_false_iff in Hp.
  - intros R _. rewrite one_region_used32. setoid_rewrite one_region_used2.
    setoid_rewrite negb_true_iff. rewrite Z.eqb_neq. setoid_rewrite andb_false_iff.
    setoid_rewrite Z.leb_gt. setoid_rewrite Z.ltb_ge.
    split; [intros H; exists 0; lia|intros (i & H); lia].
  - intros R _. rewrite one_region_free32. setoid_rewrite one_region_free2.
    rewrite Z.eqb_eq. setoid_rewrite andb_true_iff. setoid_rewrite Z.leb_le. setoid_rewrite Z.ltb_lt.
    split; [intros ->; exists 0; lia|intros (i & H); lia].
Qed.

(** ** Properties *)


(** C35: on precise flags, [Allocate] returns a page whenever one is free: the
    page was free, it is marked, and no other bit of the bitmap moves. *)
Theorem Allocate_complete (s : pm) (p : Z) :
  precise s -> cachedOk s -> getbit (bm4 s) 0 = true ->
  0 <= p < BITMAP_ENTRIES_4KB -> getbit (bm4 s) p = false ->
  exists q, snd (Allocate s) = q * FRAME_SIZE /\ q <> 0 /\ getbit (bm4 s) q = false
    /\ forall x, getbit (bm4 (fst (Allocate s))) x = (x =? q) || getbit (bm4 s) x.
Proof.
  intros Hpr Hc H0 Hp Hfree.
  pose proof (Allocate_spec s (pr_bm4 s Hpr) Hc) as Ha.
  assert (Hne : snd (Allocate s) <> 0).
  { unfold Allocate. destruct (Try4KBCache s) as [s1 o] eqn:Ht.
    apply Try4KBCache_spec in Ht as [-> Ho]. destruct o as [q|].
    - destruct Ho as [Hq _]. apply Hc in Hq. cbn [snd].
      assert (q <> 0) by congruence. unfold FRAME_SIZE. lia.
    - destruct (scan_some (set_cached4 None s) (precise_set_cached4 None s Hpr) H0 p Hp Hfree)
        as (s' & a & Hs & Hne). by rewrite Hs. }
  destruct Ha as [(E & _)|(q & Hq & [T1 T2 _ _ _ _] & _)]; [done|].
  exists q. split; [done|]. split; [intros ->; done|]. split; [done|].
  intros x. rewrite T2. apply getbit_setw.
Qed.

Lemma Allocate_complete_witness :
  exists q, snd (Allocate one_region) = q * FRAME_SIZE /\ q <> 0.
Proof.
  destruct (Allocate_complete one_region 8192) as (q & H1 & H2 & _);
    [apply one_region_precise|done|by vm_compute|by vm_compute|by vm_compute|].
  by exists q.
Defined.

(** [Allocate32MB] marks its block at the 32 MiB level only: on a booted
    state with precise flags, the [Allocate] that follows it returns a page
    inside the block just handed out. *)
Theorem Allocate32MB_overlap :
  exists s, precise s /\ booted s
    /\ let '(s1, a) := Allocate32MB s in
       let '(s2, b) := Allocate s1 in
       a <> 0 /\ b <> 0 /\ a <= b < a + 16 * PDE_COVERAGE.
Proof.
  exists one_region. split; [apply one_region_precise|]. split; [apply one_region_booted|].
  assert (E : snd (Allocate32MB one_region) = 0x2000000
              /\ snd (Allocate (fst (Allocate32MB one_region))) = 0x2000000) by (by vm_compute).
  destruct (Allocate32MB one_region) as [s1 a]. cbn [fst snd] in E.
  destruct (Allocate s1) as [s2 b]. cbn [fst snd] in E. destruct E as [-> ->]. done.
Qed.

(** once every 2 MiB child of the only region with memory is partly in
    use, [Mark32MBRegionUsed] clears its free flag and [Allocate] fails with
    pages still free: fifteen large pages and two small ones are enough. *)
Theorem Allocate_loses_pages :
  exists s, precise s /\ booted s
    /\ let s1 := Nat.iter 15 (fun s => fst (Allocate2MB s)) s in
       let s2 := Nat.iter 2 (fun s => fst (Allocate s)) s1 in
       snd (Allocate s2) = 0
       /\ exists p, getbit (bm4 s2) p = false /\ getbit (free2 s2) (Get4KBParent2MB p) = true.
Proof.
  exists one_region. split; [apply one_region_precise|]. split; [apply one_region_booted|].
  cbv zeta. split; [by vm_compute|]. exists (31 * 512 + 100). split; by vm_compute.
Qed.
