(* ===== verification/PhysMemDma.v ===== *)
(** * The region cache and the DMA bitmap of the physical memory allocator

    The ring of [LargeMemoryCache] as a bounded queue, the first-fit search of
    [AllocateDMA], and the range test [FreeDMA] does not enforce. *)
From S2P Require Import Prelude Paging PhysMem.

(** ** The ring *)

Definition ring_ok (c : LargeMemoryCache) : Prop :=
  0 <= cache_head c < CACHE_SIZE /\ 0 <= cache_count c <= CACHE_SIZE
  /\ cache_tail c = (cache_head c + cache_count c) mod CACHE_SIZE.

(** The regions in the ring, oldest first. *)
Definition contents (c : LargeMemoryCache) : list Z :=
  map (fun i => cache c ((cache_head c + i) mod CACHE_SIZE)) (seqZ 0 (cache_count c)).

Lemma contents_length c : ring_ok c -> Z.of_nat (length (contents c)) = cache_count c.
Proof. intros (_ & H & _). unfold contents. rewrite length_map, length_seqZ. lia. Qed.

Lemma Push_ok c e : ring_ok c -> ring_ok (Push c e).
Proof.
  intros (H1 & H2 & H3). unfold Push, IsFull. destruct (Z.eqb_spec (cache_count c) CACHE_SIZE); [done|].
  unfold ring_ok; simpl. rewrite H3. unfold CACHE_SIZE in *. split; [done|]. split; [lia|]. zdiv.
Qed.

Lemma Pop_ok c : ring_ok c -> ring_ok (fst (Pop c)).
Proof.
  intros (H1 & H2 & H3). unfold Pop, IsEmpty. destruct (Z.eqb_spec (cache_count c) 0); [done|].
  unfold ring_ok; simpl. rewrite H3. unfold CACHE_SIZE in *. split; [zdiv|]. split; [lia|]. zdiv.
Qed.

Lemma Push_contents c e :
  ring_ok c -> cache_count c < CACHE_SIZE -> contents (Push c e) = contents c ++ [u32 e].
Proof.
  intros (H1 & H2 & H3) Hlt. unfold Push, IsFull.
  destruct (Z.eqb_spec (cache_count c) CACHE_SIZE); [lia|]. unfold contents; simpl.
  rewrite seqZ_app by lia. rewrite map_app. f_equal.
  - apply map_ext_in. intros i Hi%list_elem_of_In%elem_of_seqZ.
    rewrite upd_lookup, decide_False; [done|]. rewrite H3. unfold CACHE_SIZE in *. zdiv.
  - simpl. by rewrite upd_lookup, decide_True.
Qed.

Lemma Pop_contents c :
  ring_ok c -> 0 < cache_count c ->
  exists e, snd (Pop c) = Some e /\ contents c = e :: contents (fst (Pop c)).
Proof.
  intros (H1 & H2 & H3) Hpos. unfold Pop, IsEmpty.
  destruct (Z.eqb_spec (cache_count c) 0); [lia|]. cbn [negb fst snd].
  eexists. split; [done|]. unfold contents; cbn [cache cache_head cache_count].
  rewrite seqZ_cons by lia. simpl. f_equal.
  - f_equal. unfold CACHE_SIZE in *. zdiv.
  - rewrite <- Z.sub_1_r. replace (Z.succ 0) with (1 + 0) by lia. rewrite <- fmap_add_seqZ.
    change (fmap (Z.add 1)) with (map (Z.add 1)). rewrite map_map. apply map_ext_in. intros i Hi.
    f_equal. rewrite Z.add_mod_idemp_l by done. f_equal. lia.
Qed.

(** ** Properties *)

(** the ring cache is a queue of at most 64 regions: [Push] appends the
    region truncated to 32 bits unless the ring is full, [Pop] removes the
    oldest one, and neither disturbs the ring. *)
Theorem LargeMemoryCache_queue (c : LargeMemoryCache) (e : Z) :
  ring_ok c ->
  (ring_ok (Push c e)
   /\ contents (Push c e)
      = if Z.of_nat (length (contents c)) <? CACHE_SIZE then contents c ++ [u32 e] else contents c)
  /\ (ring_ok (fst (Pop c))
      /\ match snd (Pop c) with
         | Some x => contents c = x :: contents (fst (Pop c))
         | None => contents c = [] /\ fst (Pop c) = c
         end).
Proof.
  intros Hok. rewrite contents_length by done.
  split; (split; [by apply Push_ok || by apply Pop_ok|]).
  - destruct (Z.ltb_spec (cache_count c) CACHE_SIZE); [by apply Push_contents|].
    unfold Push, IsFull. destruct Hok as (_ & H2 & _).
    by replace (cache_count c =? CACHE_SIZE) with true by (symmetry; apply Z.eqb_eq; lia).
  - destruct (Z.eq_dec (cache_count c) 0) as [E|E].
    + unfold Pop, IsEmpty. rewrite E. simpl. unfold contents. by rewrite E.
    + destruct Hok as (H1 & H2 & H3) eqn:E'. destruct (Pop_contents c Hok) as (x & -> & ->); [lia|done].
Qed.

Lemma LargeMemoryCache_queue_witness :
  contents (Push (Push cache_empty 7) 9) = [7; 9].
Proof.
  assert (H0 : ring_ok cache_empty) by (vm_compute; repeat split; discriminate || reflexivity).
  destruct (LargeMemoryCache_queue cache_empty 7 H0) as [[H1 E1] _].
  destruct (LargeMemoryCache_queue (Push cache_empty 7) 9 H1) as [[_ E2] _].
  rewrite E2, E1. reflexivity.
Defined.

(** ** The DMA bitmap *)

Lemma dma_bit_testbit f p : dma_bit f p = Z.testbit (f (p / 8)) (p mod 8).
Proof. apply hasbit_testbit. by apply Z.mod_pos_bound. Qed.

Lemma dma_set_bit f p q :
  dma_bit (<[p / 8 := f (p / 8) .| (p mod 8)]> f) q = (q =? p) || dma_bit f q.
Proof.
  rewrite !dma_bit_testbit, upd_lookup. assert (0 <= p mod 8 < 8) by (by apply Z.mod_pos_bound).
  case_decide as Hd.
  - rewrite <- Hd, testbit_setbit, orb_comm by lia. f_equal.
    destruct (Z.eqb_spec (q mod 8) (p mod 8)), (Z.eqb_spec q p); subst; try done; zdiv.
  - destruct (Z.eqb_spec q p); [congruence|done].
Qed.

Lemma dma_mark_spec start n f q :
  dma_bit (dma_mark start n f) q = ((start <=? q) && (q <? start + n)) || dma_bit f q.
Proof.
  unfold dma_mark.
  assert (H : forall l f, dma_bit (foldl (fun f p => <[p / 8 := f (p / 8) .| (p mod 8)]> f) f l) q
    = existsb (Z.eqb q) l || dma_bit f q).
  { clear. induction l as [|x l IH] using rev_ind; intros f; [done|].
    rewrite foldl_snoc, dma_set_bit, IH, existsb_app. simpl. rewrite orb_false_r, orb_assoc.
    f_equal. apply orb_comm. }
  rewrite H. f_equal. apply eq_true_iff_eq. rewrite existsb_seqZ, andb_true_iff, Z.leb_le, Z.ltb_lt.
  split; [intros (i & Hi & ->%Z.eqb_eq); done|]. intros Hq. exists q. by rewrite Z.eqb_refl.
Qed.

(** [n] free pages from [start]. *)
Definition free_run (f : words) (start n : Z) : Prop :=
  forall q, start <= q < start + n -> dma_bit f q = false.

(** Before page [i] is looked at: the run of free pages that ends at [i] is
    the one recorded, it is maximal, and no run of [pages] pages ends by [i]. *)
Definition scan_inv (f : words) (pages i : Z) (st : Z * Z) : Prop :=
  0 <= snd st < pages /\ snd st <= i
  /\ (snd st <> 0 -> fst st = i - snd st)
  /\ free_run f (i - snd st) (snd st)
  /\ (snd st < i -> dma_bit f (i - snd st - 1) = true)
  /\ (forall t, 0 <= t -> t + pages <= i -> ~ free_run f t pages).

Lemma dma_scan_step f pages i st :
  0 < pages -> 0 <= i -> scan_inv f pages i st ->
  match dma_scan f pages i st with
  | (st', None) => scan_inv f pages (i + 1) st'
  | (st', Some start) =>
      start + pages = i + 1 /\ 0 <= start /\ free_run f start pages
      /\ forall t, 0 <= t < start -> ~ free_run f t pages
  end.
Proof.
  intros Hp Hi (H1 & H2 & H3 & H4 & H5 & H6). destruct st as [start found]. simpl in *. unfold dma_scan.
  destruct (dma_bit f i) eqn:Hbit.
  - simpl snd. destruct (Z.leb_spec pages 0); [lia|]. unfold scan_inv; simpl.
    split; [lia|]. split; [lia|]. split; [done|]. split; [intros q ?; lia|].
    split; [intros _; by replace (i + 1 - 0 - 1) with i by lia|].
    intros t Ht Hle Hrun. destruct (Z.eq_dec (t + pages) (i + 1)).
    + rewrite (Hrun i) in Hbit by lia. done.
    + by apply (H6 t); [lia|lia|].
  - set (st' := if found =? 0 then (i, 1) else (start, found + 1)).
    assert (Hst : snd st' = found + 1 /\ fst st' = i - found).
    { subst st'. destruct (Z.eqb_spec found 0); simpl; [lia|]. specialize (H3 n). lia. }
    destruct Hst as [Hs Hf]. rewrite Hs, Hf.
    assert (Hrun : free_run f (i - found) (found + 1)).
    { intros q Hq. destruct (Z.eq_dec q i) as [->|]; [done|]. apply H4. lia. }
    destruct (Z.leb_spec pages (found + 1)).
    + assert (found + 1 = pages) by lia. split; [lia|]. split; [lia|].
      split; [by replace pages with (found + 1) by lia|].
      intros t Ht. apply H6; lia.
    + unfold scan_inv. rewrite Hs, Hf. split; [lia|]. split; [lia|]. split; [lia|].
      replace (i + 1 - (found + 1)) with (i - found) by lia.
      split; [done|]. split; [intros ?; apply H5; lia|].
      intros t Ht Hle Hr. destruct (Z.eq_dec (t + pages) (i + 1)); [|by apply (H6 t); [lia|lia|]].
      specialize (Hr (i - found - 1) ltac:(lia)). rewrite H5 in Hr by lia. done.
Qed.

(** [AllocateDMA] is first fit: it returns the lowest run of free pages of
    the DMA zone long enough and marks exactly that run, and returns null only
    when the zone has no such run. *)
Theorem AllocateDMA_first_fit (s : pm) (pages : Z) :
  0 < pages ->
  let '(s', a) := AllocateDMA s pages in
  (exists start, a = start * FRAME_SIZE /\ 0 <= start /\ start + pages <= DMA_PAGES
     /\ free_run (DMA_bitmap s) start pages
     /\ (forall t, 0 <= t < start -> ~ free_run (DMA_bitmap s) t pages)
     /\ forall q, dma_bit (DMA_bitmap s') q
                  = ((start <=? q) && (q <? start + pages)) || dma_bit (DMA_bitmap s) q)
  \/ (a = 0 /\ s' = s
      /\ forall t, 0 <= t -> t + pages <= DMA_PAGES -> ~ free_run (DMA_bitmap s) t pages).
Proof.
  intros Hp. unfold AllocateDMA. destruct (Z.eqb_spec pages 0); [lia|].
  pose proof (for_each_seqZ_inv (scan_inv (DMA_bitmap s) pages)
    (fun i _ start => start + pages = i + 1 /\ 0 <= start /\ free_run (DMA_bitmap s) start pages
      /\ forall t, 0 <= t < start -> ~ free_run (DMA_bitmap s) t pages)
    (dma_scan (DMA_bitmap s) pages) 0 (DMA_BITMAP_SIZE * 8) (0, 0)) as H.
  change (DMA_BITMAP_SIZE * 8) with 4096 in *. change DMA_PAGES with 4096.
  specialize (H ltac:(done)).
  assert (H0 : scan_inv (DMA_bitmap s) pages 0 (0, 0)).
  { unfold scan_inv; simpl. repeat split; try lia. intros q ?. lia. }
  specialize (H (fun i st Hi Hinv => dma_scan_step _ _ i st Hp (proj1 Hi) Hinv) H0).
  destruct (for_each _ _ _) as [st [start|]].
  - left. destruct H as (i & Hi & H1 & H2 & H3 & H4). exists start.
    split; [done|]. split; [done|]. split; [lia|]. split; [done|]. split; [done|].
    intros q. apply dma_mark_spec.
  - right. split; [done|]. split; [done|]. apply H.
Qed.

(** The DMA bitmap after [Setup] reserved page 0, with page 2 in use. *)
Definition dma_state : pm := {|
  used32 := fun _ => 0; free32 := fun _ => 0; used2 := fun _ => 0; free2 := fun _ => 0;
  bm4 := fun _ => 0; Cache32MB := cache_empty; Cache2MB := cache_empty; Cached4KB := None;
  DMA_bitmap := fun i => if i =? 0 then 5 else 0 |}.

Lemma AllocateDMA_first_fit_witness :
  exists start, snd (AllocateDMA dma_state 2) = start * FRAME_SIZE
    /\ free_run (DMA_bitmap dma_state) start 2.
Proof.
  pose proof (AllocateDMA_first_fit dma_state 2 ltac:(lia)) as H.
  assert (Ea : snd (AllocateDMA dma_state 2) = 3 * FRAME_SIZE) by (by vm_compute).
  destruct (AllocateDMA dma_state 2) as [s' a]. cbn [snd] in *.
  destruct H as [(start & H1 & _ & _ & H2 & _)|(E0 & _)]; [by exists start|].
  rewrite Ea in E0. discriminate.
Defined.

(** [FreeDMA] evaluates the failure of its range test and goes on: for an
    address beyond the DMA zone it reports success and clears bits of the
    memory that follows the bitmap. *)
Theorem FreeDMA_out_of_zone :
  exists s ptr, IsDMAAddress ptr = false /\ snd (FreeDMA s ptr 1) = true
    /\ DMA_bitmap (fst (FreeDMA s ptr 1)) DMA_BITMAP_SIZE <> DMA_bitmap s DMA_BITMAP_SIZE.
Proof.
  exists (set_dma (fun _ => 255) dma_state), DMAZone_limit. split; [by vm_compute|]. split; [done|].
  by vm_compute.
Qed.
