(* ===== verification/Keypoints.v ===== *)
(** * Component: PS/2 scan codes ([kernel/src/devices/PS2/Keypoints.cpp])

    The three scan code set handlers: state machines fed one byte at a time by
    the keyboard interrupt, which emit a key packet or nothing.  The static
    variables of a handler are its state; reading a static array out of its
    bounds is the result [None]. *)
From S2P Require Import Prelude.

(** ** Tables *)

Definition KEYPOINT (row column : Z) : Z :=
  Z.lor (Z.land row 0x07) (Z.shiftl (Z.land column 0x1F) 3).

Definition EXT_1_2 : Z := 0xE0.   (* SCAN_CODE_SET_1_EXT_1_2, SCAN_CODE_SET_2_EXT_1_2 *)
Definition EXT_3 : Z := 0xE1.     (* SCAN_CODE_SET_1_EXT_3, SCAN_CODE_SET_2_EXT_3 *)
Definition RELEASE : Z := 0xF0.   (* SCAN_CODE_SET_2_RELEASE, SCAN_CODE_SET_3_RELEASE *)
Definition KEY_PRESSED : Z := 0x100.

Definition scan_code_set_1_keypoints : list Z := [
  KEYPOINT 0 0; KEYPOINT 2 0; KEYPOINT 3 1; KEYPOINT 3 2;
  KEYPOINT 3 3; KEYPOINT 3 4; KEYPOINT 3 5; KEYPOINT 3 6;
  KEYPOINT 3 7; KEYPOINT 3 8; KEYPOINT 3 9; KEYPOINT 3 10;
  KEYPOINT 3 11; KEYPOINT 3 12; KEYPOINT 3 13; KEYPOINT 4 0;
  KEYPOINT 4 1; KEYPOINT 4 2; KEYPOINT 4 3; KEYPOINT 4 4;
  KEYPOINT 4 5; KEYPOINT 4 6; KEYPOINT 4 7; KEYPOINT 4 8;
  KEYPOINT 4 9; KEYPOINT 4 10; KEYPOINT 4 11; KEYPOINT 4 12;
  KEYPOINT 5 13; KEYPOINT 7 0; KEYPOINT 5 1; KEYPOINT 5 2;
  KEYPOINT 5 3; KEYPOINT 5 4; KEYPOINT 5 5; KEYPOINT 5 6;
  KEYPOINT 5 7; KEYPOINT 5 8; KEYPOINT 5 9; KEYPOINT 5 10;
  KEYPOINT 5 11; KEYPOINT 3 0; KEYPOINT 6 0; KEYPOINT 4 13;
  KEYPOINT 6 2; KEYPOINT 6 3; KEYPOINT 6 4; KEYPOINT 6 5;
  KEYPOINT 6 6; KEYPOINT 6 7; KEYPOINT 6 8; KEYPOINT 6 9;
  KEYPOINT 6 10; KEYPOINT 6 11; KEYPOINT 6 12; KEYPOINT 3 18;
  KEYPOINT 7 2; KEYPOINT 7 6; KEYPOINT 5 0; KEYPOINT 2 1;
  KEYPOINT 2 2; KEYPOINT 2 3; KEYPOINT 2 4; KEYPOINT 2 5;
  KEYPOINT 2 6; KEYPOINT 2 7; KEYPOINT 2 8; KEYPOINT 2 9;
  KEYPOINT 2 10; KEYPOINT 3 16; KEYPOINT 1 14; KEYPOINT 4 16;
  KEYPOINT 4 17; KEYPOINT 4 18; KEYPOINT 3 19; KEYPOINT 5 16;
  KEYPOINT 5 17; KEYPOINT 5 18; KEYPOINT 5 19; KEYPOINT 6 16;
  KEYPOINT 6 17; KEYPOINT 6 18; KEYPOINT 7 16; KEYPOINT 7 18;
  KEYPOINT 0 0; KEYPOINT 0 0; KEYPOINT 0 0; KEYPOINT 2 11;
  KEYPOINT 2 12; KEYPOINT 6 19; KEYPOINT 0 0; KEYPOINT 0 0;
  KEYPOINT 0 0; KEYPOINT 0 0; KEYPOINT 0 0; KEYPOINT 0 0;
  KEYPOINT 0 0; KEYPOINT 0 0; KEYPOINT 0 0; KEYPOINT 0 0;
  KEYPOINT 1 1; KEYPOINT 1 2; KEYPOINT 1 3; KEYPOINT 1 4;
  KEYPOINT 1 5; KEYPOINT 1 6; KEYPOINT 1 7; KEYPOINT 1 8;
  KEYPOINT 1 9; KEYPOINT 1 10; KEYPOINT 1 11; KEYPOINT 0 0;
  KEYPOINT 0 0; KEYPOINT 0 0; KEYPOINT 0 0; KEYPOINT 0 0;
  KEYPOINT 0 0; KEYPOINT 0 0; KEYPOINT 1 12; KEYPOINT 0 0;
  KEYPOINT 0 0; KEYPOINT 0 0; KEYPOINT 0 0; KEYPOINT 0 0;
  KEYPOINT 0 0; KEYPOINT 0 0; KEYPOINT 0 0; KEYPOINT 0 0;
  KEYPOINT 0 0; KEYPOINT 2 0; KEYPOINT 3 1; KEYPOINT 3 2;
  KEYPOINT 3 3; KEYPOINT 3 4; KEYPOINT 3 5; KEYPOINT 3 6;
  KEYPOINT 3 7; KEYPOINT 3 8; KEYPOINT 3 9; KEYPOINT 3 10;
  KEYPOINT 3 11; KEYPOINT 3 12; KEYPOINT 3 13; KEYPOINT 4 0;
  KEYPOINT 4 1; KEYPOINT 4 2; KEYPOINT 4 3; KEYPOINT 4 4;
  KEYPOINT 4 5; KEYPOINT 4 6; KEYPOINT 4 7; KEYPOINT 4 8;
  KEYPOINT 4 9; KEYPOINT 4 10; KEYPOINT 4 11; KEYPOINT 4 12;
  KEYPOINT 5 13; KEYPOINT 7 0; KEYPOINT 5 1; KEYPOINT 5 2;
  KEYPOINT 5 3; KEYPOINT 5 4; KEYPOINT 5 5; KEYPOINT 5 6;
  KEYPOINT 5 7; KEYPOINT 5 8; KEYPOINT 5 9; KEYPOINT 5 10;
  KEYPOINT 5 11; KEYPOINT 3 0; KEYPOINT 6 0; KEYPOINT 4 13;
  KEYPOINT 6 2; KEYPOINT 6 3; KEYPOINT 6 4; KEYPOINT 6 5;
  KEYPOINT 6 6; KEYPOINT 6 7; KEYPOINT 6 8; KEYPOINT 6 9;
  KEYPOINT 6 10; KEYPOINT 6 11; KEYPOINT 6 12; KEYPOINT 3 18;
  KEYPOINT 7 2; KEYPOINT 7 6; KEYPOINT 5 0; KEYPOINT 2 1;
  KEYPOINT 2 2; KEYPOINT 2 3; KEYPOINT 2 4; KEYPOINT 2 5;
  KEYPOINT 2 6; KEYPOINT 2 7; KEYPOINT 2 8; KEYPOINT 2 9;
  KEYPOINT 2 10; KEYPOINT 3 16; KEYPOINT 1 14; KEYPOINT 4 16;
  KEYPOINT 4 17; KEYPOINT 4 18; KEYPOINT 3 19; KEYPOINT 5 16;
  KEYPOINT 5 17; KEYPOINT 5 18; KEYPOINT 5 19; KEYPOINT 6 16;
  KEYPOINT 6 17; KEYPOINT 6 18; KEYPOINT 7 16; KEYPOINT 7 18;
  KEYPOINT 0 0; KEYPOINT 0 0; KEYPOINT 0 0; KEYPOINT 2 11;
  KEYPOINT 2 12; KEYPOINT 6 19; KEYPOINT 0 0; KEYPOINT 0 0;
  KEYPOINT 0 0; KEYPOINT 0 0; KEYPOINT 0 0; KEYPOINT 0 0;
  KEYPOINT 0 0; KEYPOINT 0 0; KEYPOINT 0 0; KEYPOINT 0 0;
  KEYPOINT 1 1; KEYPOINT 1 2; KEYPOINT 1 3; KEYPOINT 1 4;
  KEYPOINT 1 5; KEYPOINT 1 6; KEYPOINT 1 7; KEYPOINT 1 8;
  KEYPOINT 1 9; KEYPOINT 1 10; KEYPOINT 1 11; KEYPOINT 0 0;
  KEYPOINT 0 0; KEYPOINT 0 0; KEYPOINT 0 0; KEYPOINT 0 0;
  KEYPOINT 0 0; KEYPOINT 0 0; KEYPOINT 1 12; KEYPOINT 0 0;
  KEYPOINT 0 0; KEYPOINT 0 0; KEYPOINT 0 0; KEYPOINT 0 0;
  KEYPOINT 0 0; KEYPOINT 0 0; KEYPOINT 0 0; KEYPOINT 0 0].

Definition ext_1_scan_code_set_1_keypoints : list Z := [
  KEYPOINT 0 0; KEYPOINT 0 0; KEYPOINT 0 0; KEYPOINT 0 0;
  KEYPOINT 0 0; KEYPOINT 0 0; KEYPOINT 0 0; KEYPOINT 0 0;
  KEYPOINT 0 0; KEYPOINT 0 0; KEYPOINT 0 0; KEYPOINT 0 0;
  KEYPOINT 0 0; KEYPOINT 0 0; KEYPOINT 0 0; KEYPOINT 0 0;
  KEYPOINT 2 17; KEYPOINT 0 0; KEYPOINT 0 0; KEYPOINT 0 0;
  KEYPOINT 0 0; KEYPOINT 0 0; KEYPOINT 0 0; KEYPOINT 0 0;
  KEYPOINT 0 0; KEYPOINT 2 19; KEYPOINT 0 0; KEYPOINT 0 0;
  KEYPOINT 7 19; KEYPOINT 7 11; KEYPOINT 0 0; KEYPOINT 0 0;
  KEYPOINT 1 16; KEYPOINT 1 19; KEYPOINT 2 18; KEYPOINT 0 0;
  KEYPOINT 2 16; KEYPOINT 0 0; KEYPOINT 0 0; KEYPOINT 0 0;
  KEYPOINT 0 0; KEYPOINT 0 0; KEYPOINT 0 0; KEYPOINT 0 0;
  KEYPOINT 0 0; KEYPOINT 0 0; KEYPOINT 1 17; KEYPOINT 0 0;
  KEYPOINT 1 18; KEYPOINT 0 0; KEYPOINT 0 10; KEYPOINT 0 0;
  KEYPOINT 0 0; KEYPOINT 3 17; KEYPOINT 0 0; KEYPOINT 0 0;
  KEYPOINT 7 8; KEYPOINT 0 0; KEYPOINT 0 0; KEYPOINT 0 0;
  KEYPOINT 0 0; KEYPOINT 0 0; KEYPOINT 0 0; KEYPOINT 0 0;
  KEYPOINT 0 0; KEYPOINT 0 0; KEYPOINT 0 0; KEYPOINT 0 0;
  KEYPOINT 0 0; KEYPOINT 0 0; KEYPOINT 0 0; KEYPOINT 2 14;
  KEYPOINT 6 13; KEYPOINT 2 15; KEYPOINT 0 0; KEYPOINT 7 12;
  KEYPOINT 0 0; KEYPOINT 7 14; KEYPOINT 0 0; KEYPOINT 3 15;
  KEYPOINT 7 13; KEYPOINT 4 14; KEYPOINT 2 13; KEYPOINT 3 14;
  KEYPOINT 0 0; KEYPOINT 0 0; KEYPOINT 0 0; KEYPOINT 0 0;
  KEYPOINT 0 0; KEYPOINT 0 0; KEYPOINT 0 0; KEYPOINT 7 1;
  KEYPOINT 7 9; KEYPOINT 7 10; KEYPOINT 0 0; KEYPOINT 0 0;
  KEYPOINT 0 0; KEYPOINT 0 0; KEYPOINT 0 0; KEYPOINT 0 0;
  KEYPOINT 0 0; KEYPOINT 0 11; KEYPOINT 0 12; KEYPOINT 0 13;
  KEYPOINT 0 14; KEYPOINT 0 15; KEYPOINT 0 16; KEYPOINT 0 17;
  KEYPOINT 0 18; KEYPOINT 0 19; KEYPOINT 0 0; KEYPOINT 0 0;
  KEYPOINT 0 0; KEYPOINT 0 0; KEYPOINT 0 0; KEYPOINT 0 0;
  KEYPOINT 0 0; KEYPOINT 0 0; KEYPOINT 0 0; KEYPOINT 0 0;
  KEYPOINT 0 0; KEYPOINT 0 0; KEYPOINT 0 0; KEYPOINT 0 0;
  KEYPOINT 0 0; KEYPOINT 0 0; KEYPOINT 0 0; KEYPOINT 0 0;
  KEYPOINT 0 0; KEYPOINT 0 0; KEYPOINT 0 0; KEYPOINT 0 0;
  KEYPOINT 0 0; KEYPOINT 0 0; KEYPOINT 0 0; KEYPOINT 0 0;
  KEYPOINT 0 0; KEYPOINT 0 0; KEYPOINT 0 0; KEYPOINT 0 0;
  KEYPOINT 0 0; KEYPOINT 0 0; KEYPOINT 0 0; KEYPOINT 0 0;
  KEYPOINT 2 17; KEYPOINT 0 0; KEYPOINT 0 0; KEYPOINT 0 0;
  KEYPOINT 0 0; KEYPOINT 0 0; KEYPOINT 0 0; KEYPOINT 0 0;
  KEYPOINT 0 0; KEYPOINT 2 19; KEYPOINT 0 0; KEYPOINT 0 0;
  KEYPOINT 7 19; KEYPOINT 7 11; KEYPOINT 0 0; KEYPOINT 0 0;
  KEYPOINT 1 16; KEYPOINT 1 19; KEYPOINT 2 18; KEYPOINT 0 0;
  KEYPOINT 2 16; KEYPOINT 0 0; KEYPOINT 0 0; KEYPOINT 0 0;
  KEYPOINT 0 0; KEYPOINT 0 0; KEYPOINT 0 0; KEYPOINT 0 0;
  KEYPOINT 0 0; KEYPOINT 0 0; KEYPOINT 1 17; KEYPOINT 0 0;
  KEYPOINT 1 18; KEYPOINT 0 0; KEYPOINT 0 10; KEYPOINT 0 0;
  KEYPOINT 0 0; KEYPOINT 3 17; KEYPOINT 0 0; KEYPOINT 0 0;
  KEYPOINT 7 8; KEYPOINT 0 0; KEYPOINT 0 0; KEYPOINT 0 0;
  KEYPOINT 0 0; KEYPOINT 0 0; KEYPOINT 0 0; KEYPOINT 0 0;
  KEYPOINT 0 0; KEYPOINT 0 0; KEYPOINT 0 0; KEYPOINT 0 0;
  KEYPOINT 0 0; KEYPOINT 0 0; KEYPOINT 0 0; KEYPOINT 2 14;
  KEYPOINT 6 13; KEYPOINT 2 15; KEYPOINT 0 0; KEYPOINT 7 12;
  KEYPOINT 0 0; KEYPOINT 7 14; KEYPOINT 0 0; KEYPOINT 3 15;
  KEYPOINT 7 13; KEYPOINT 4 14; KEYPOINT 2 13; KEYPOINT 3 14;
  KEYPOINT 0 0; KEYPOINT 0 0; KEYPOINT 0 0; KEYPOINT 0 0;
  KEYPOINT 0 0; KEYPOINT 0 0; KEYPOINT 0 0; KEYPOINT 7 1;
  KEYPOINT 7 9; KEYPOINT 7 10; KEYPOINT 0 0; KEYPOINT 0 0;
  KEYPOINT 0 0; KEYPOINT 0 0; KEYPOINT 0 0; KEYPOINT 0 0;
  KEYPOINT 0 0; KEYPOINT 0 11; KEYPOINT 0 12; KEYPOINT 0 13;
  KEYPOINT 0 14; KEYPOINT 0 15; KEYPOINT 0 16; KEYPOINT 0 17;
  KEYPOINT 0 18; KEYPOINT 0 19; KEYPOINT 0 0; KEYPOINT 0 0;
  KEYPOINT 0 0; KEYPOINT 0 0; KEYPOINT 0 0; KEYPOINT 0 0;
  KEYPOINT 0 0; KEYPOINT 0 0; KEYPOINT 0 0; KEYPOINT 0 0;
  KEYPOINT 0 0; KEYPOINT 0 0; KEYPOINT 0 0; KEYPOINT 0 0;
  KEYPOINT 0 0; KEYPOINT 0 0; KEYPOINT 0 0; KEYPOINT 0 0].

Definition ext_2_scan_code_set_1_scancodes_pressed : list Z := [0xE0; 0x2A; 0xE0; 0x37].
Definition ext_2_scan_code_set_1_scancodes_released : list Z := [0xE0; 0xB7; 0xE0; 0xAA].
Definition ext_2_scan_code_set_1_keypoint : Z := KEYPOINT 1 13.
Definition ext_3_scan_code_set_1_scancodes : list Z := [0xE1; 0x1D; 0x45; 0xE1; 0x9D; 0xC5].
Definition ext_3_scan_code_set_1_keypoint : Z := KEYPOINT 1 15.

Definition scan_code_set_2_keypoints : list Z := [
  KEYPOINT 0 0; KEYPOINT 2 9; KEYPOINT 0 0; KEYPOINT 2 5;
  KEYPOINT 2 3; KEYPOINT 2 1; KEYPOINT 2 2; KEYPOINT 2 12;
  KEYPOINT 0 0; KEYPOINT 2 10; KEYPOINT 2 8; KEYPOINT 2 6;
  KEYPOINT 2 4; KEYPOINT 4 0; KEYPOINT 3 0; KEYPOINT 0 0;
  KEYPOINT 0 0; KEYPOINT 7 2; KEYPOINT 6 0; KEYPOINT 0 0;
  KEYPOINT 7 0; KEYPOINT 4 1; KEYPOINT 3 1; KEYPOINT 0 0;
  KEYPOINT 0 0; KEYPOINT 0 0; KEYPOINT 6 2; KEYPOINT 5 2;
  KEYPOINT 5 1; KEYPOINT 4 2; KEYPOINT 3 2; KEYPOINT 0 0;
  KEYPOINT 0 0; KEYPOINT 6 4; KEYPOINT 6 3; KEYPOINT 5 3;
  KEYPOINT 4 3; KEYPOINT 3 4; KEYPOINT 3 3; KEYPOINT 0 0;
  KEYPOINT 0 0; KEYPOINT 7 6; KEYPOINT 6 5; KEYPOINT 5 4;
  KEYPOINT 4 5; KEYPOINT 4 4; KEYPOINT 3 5; KEYPOINT 0 0;
  KEYPOINT 0 0; KEYPOINT 6 7; KEYPOINT 6 6; KEYPOINT 5 6;
  KEYPOINT 5 5; KEYPOINT 4 6; KEYPOINT 3 6; KEYPOINT 0 0;
  KEYPOINT 0 0; KEYPOINT 0 0; KEYPOINT 6 8; KEYPOINT 5 7;
  KEYPOINT 4 7; KEYPOINT 3 7; KEYPOINT 3 8; KEYPOINT 0 0;
  KEYPOINT 0 0; KEYPOINT 6 9; KEYPOINT 5 8; KEYPOINT 4 8;
  KEYPOINT 4 9; KEYPOINT 3 10; KEYPOINT 3 9; KEYPOINT 0 0;
  KEYPOINT 0 0; KEYPOINT 6 10; KEYPOINT 6 11; KEYPOINT 5 9;
  KEYPOINT 5 10; KEYPOINT 4 10; KEYPOINT 3 11; KEYPOINT 0 0;
  KEYPOINT 0 0; KEYPOINT 0 0; KEYPOINT 5 11; KEYPOINT 0 0;
  KEYPOINT 4 11; KEYPOINT 3 12; KEYPOINT 0 0; KEYPOINT 0 0;
  KEYPOINT 5 0; KEYPOINT 6 12; KEYPOINT 5 13; KEYPOINT 4 12;
  KEYPOINT 0 0; KEYPOINT 4 13; KEYPOINT 0 0; KEYPOINT 0 0;
  KEYPOINT 0 0; KEYPOINT 0 0; KEYPOINT 0 0; KEYPOINT 0 0;
  KEYPOINT 0 0; KEYPOINT 0 0; KEYPOINT 3 13; KEYPOINT 0 0;
  KEYPOINT 0 0; KEYPOINT 6 16; KEYPOINT 0 0; KEYPOINT 5 16;
  KEYPOINT 4 16; KEYPOINT 0 0; KEYPOINT 0 0; KEYPOINT 0 0;
  KEYPOINT 7 16; KEYPOINT 7 18; KEYPOINT 6 17; KEYPOINT 5 17;
  KEYPOINT 5 18; KEYPOINT 4 17; KEYPOINT 2 0; KEYPOINT 3 16;
  KEYPOINT 2 11; KEYPOINT 5 19; KEYPOINT 6 18; KEYPOINT 3 19;
  KEYPOINT 3 18; KEYPOINT 4 18; KEYPOINT 1 14; KEYPOINT 0 0;
  KEYPOINT 0 0; KEYPOINT 0 0; KEYPOINT 0 0; KEYPOINT 2 7;
  KEYPOINT 0 0; KEYPOINT 0 0; KEYPOINT 0 0; KEYPOINT 0 0;
  KEYPOINT 0 0; KEYPOINT 0 0; KEYPOINT 0 0; KEYPOINT 0 0;
  KEYPOINT 0 0; KEYPOINT 0 0; KEYPOINT 0 0; KEYPOINT 0 0;
  KEYPOINT 0 0; KEYPOINT 0 0; KEYPOINT 0 0; KEYPOINT 0 0;
  KEYPOINT 0 0; KEYPOINT 0 0; KEYPOINT 0 0; KEYPOINT 0 0;
  KEYPOINT 0 0; KEYPOINT 0 0; KEYPOINT 0 0; KEYPOINT 0 0;
  KEYPOINT 0 0; KEYPOINT 0 0; KEYPOINT 0 0; KEYPOINT 0 0;
  KEYPOINT 0 0; KEYPOINT 0 0; KEYPOINT 0 0; KEYPOINT 0 0;
  KEYPOINT 0 0; KEYPOINT 0 0; KEYPOINT 0 0; KEYPOINT 0 0;
  KEYPOINT 0 0; KEYPOINT 0 0; KEYPOINT 0 0; KEYPOINT 0 0;
  KEYPOINT 0 0; KEYPOINT 0 0; KEYPOINT 0 0; KEYPOINT 0 0;
  KEYPOINT 0 0; KEYPOINT 0 0; KEYPOINT 0 0; KEYPOINT 0 0;
  KEYPOINT 0 0; KEYPOINT 0 0; KEYPOINT 0 0; KEYPOINT 0 0;
  KEYPOINT 0 0; KEYPOINT 0 0; KEYPOINT 0 0; KEYPOINT 0 0;
  KEYPOINT 0 0; KEYPOINT 0 0; KEYPOINT 0 0; KEYPOINT 0 0;
  KEYPOINT 0 0; KEYPOINT 0 0; KEYPOINT 0 0; KEYPOINT 0 0;
  KEYPOINT 0 0; KEYPOINT 0 0; KEYPOINT 0 0; KEYPOINT 0 0;
  KEYPOINT 0 0; KEYPOINT 0 0; KEYPOINT 0 0; KEYPOINT 0 0;
  KEYPOINT 0 0; KEYPOINT 0 0; KEYPOINT 0 0; KEYPOINT 0 0;
  KEYPOINT 0 0; KEYPOINT 0 0; KEYPOINT 0 0; KEYPOINT 0 0;
  KEYPOINT 0 0; KEYPOINT 0 0; KEYPOINT 0 0; KEYPOINT 0 0;
  KEYPOINT 0 0; KEYPOINT 0 0; KEYPOINT 0 0; KEYPOINT 0 0;
  KEYPOINT 0 0; KEYPOINT 0 0; KEYPOINT 0 0; KEYPOINT 0 0;
  KEYPOINT 0 0; KEYPOINT 0 0; KEYPOINT 0 0; KEYPOINT 0 0;
  KEYPOINT 0 0; KEYPOINT 0 0; KEYPOINT 0 0; KEYPOINT 0 0;
  KEYPOINT 0 0; KEYPOINT 0 0; KEYPOINT 0 0; KEYPOINT 0 0;
  KEYPOINT 0 0; KEYPOINT 0 0; KEYPOINT 0 0; KEYPOINT 0 0;
  KEYPOINT 0 0; KEYPOINT 0 0; KEYPOINT 0 0; KEYPOINT 0 0;
  KEYPOINT 0 0; KEYPOINT 0 0; KEYPOINT 0 0; KEYPOINT 0 0;
  KEYPOINT 0 0; KEYPOINT 0 0; KEYPOINT 0 0; KEYPOINT 0 0;
  KEYPOINT 0 0; KEYPOINT 0 0; KEYPOINT 0 0; KEYPOINT 0 0].

Definition ext_1_scan_code_set_2_keypoints : list Z := [
  KEYPOINT 0 0; KEYPOINT 0 0; KEYPOINT 0 0; KEYPOINT 0 0;
  KEYPOINT 0 0; KEYPOINT 0 0; KEYPOINT 0 0; KEYPOINT 0 0;
  KEYPOINT 0 0; KEYPOINT 0 0; KEYPOINT 0 0; KEYPOINT 0 0;
  KEYPOINT 0 0; KEYPOINT 0 0; KEYPOINT 0 0; KEYPOINT 0 0;
  KEYPOINT 0 11; KEYPOINT 7 8; KEYPOINT 0 0; KEYPOINT 0 0;
  KEYPOINT 7 11; KEYPOINT 2 17; KEYPOINT 0 0; KEYPOINT 0 0;
  KEYPOINT 0 12; KEYPOINT 0 0; KEYPOINT 0 0; KEYPOINT 0 0;
  KEYPOINT 0 0; KEYPOINT 0 0; KEYPOINT 0 0; KEYPOINT 7 1;
  KEYPOINT 0 13; KEYPOINT 1 17; KEYPOINT 0 0; KEYPOINT 1 16;
  KEYPOINT 0 0; KEYPOINT 0 0; KEYPOINT 0 0; KEYPOINT 7 9;
  KEYPOINT 0 14; KEYPOINT 0 0; KEYPOINT 0 0; KEYPOINT 1 19;
  KEYPOINT 0 0; KEYPOINT 0 0; KEYPOINT 0 0; KEYPOINT 7 10;
  KEYPOINT 0 15; KEYPOINT 0 0; KEYPOINT 1 18; KEYPOINT 0 0;
  KEYPOINT 2 18; KEYPOINT 0 0; KEYPOINT 0 0; KEYPOINT 0 0;
  KEYPOINT 0 16; KEYPOINT 0 0; KEYPOINT 0 10; KEYPOINT 2 16;
  KEYPOINT 0 0; KEYPOINT 0 0; KEYPOINT 0 0; KEYPOINT 0 0;
  KEYPOINT 0 17; KEYPOINT 0 0; KEYPOINT 0 0; KEYPOINT 0 0;
  KEYPOINT 0 0; KEYPOINT 0 0; KEYPOINT 0 0; KEYPOINT 0 0;
  KEYPOINT 0 18; KEYPOINT 0 0; KEYPOINT 3 17; KEYPOINT 0 0;
  KEYPOINT 0 0; KEYPOINT 2 19; KEYPOINT 0 0; KEYPOINT 0 0;
  KEYPOINT 0 19; KEYPOINT 0 0; KEYPOINT 0 0; KEYPOINT 0 0;
  KEYPOINT 0 0; KEYPOINT 0 0; KEYPOINT 0 0; KEYPOINT 0 0;
  KEYPOINT 0 0; KEYPOINT 0 0; KEYPOINT 7 19; KEYPOINT 0 0;
  KEYPOINT 0 0; KEYPOINT 0 0; KEYPOINT 0 0; KEYPOINT 0 0;
  KEYPOINT 0 0; KEYPOINT 0 0; KEYPOINT 0 0; KEYPOINT 0 0;
  KEYPOINT 0 0; KEYPOINT 0 0; KEYPOINT 0 0; KEYPOINT 0 0;
  KEYPOINT 0 0; KEYPOINT 3 15; KEYPOINT 0 0; KEYPOINT 7 12;
  KEYPOINT 2 14; KEYPOINT 0 0; KEYPOINT 0 0; KEYPOINT 0 0;
  KEYPOINT 2 13; KEYPOINT 3 14; KEYPOINT 7 13; KEYPOINT 0 0;
  KEYPOINT 7 14; KEYPOINT 6 13; KEYPOINT 0 0; KEYPOINT 0 0;
  KEYPOINT 0 0; KEYPOINT 0 0; KEYPOINT 4 14; KEYPOINT 0 0;
  KEYPOINT 0 0; KEYPOINT 2 15; KEYPOINT 0 0; KEYPOINT 0 0;
  KEYPOINT 0 0; KEYPOINT 0 0; KEYPOINT 0 0; KEYPOINT 0 0;
  KEYPOINT 0 0; KEYPOINT 0 0; KEYPOINT 0 0; KEYPOINT 0 0;
  KEYPOINT 0 0; KEYPOINT 0 0; KEYPOINT 0 0; KEYPOINT 0 0;
  KEYPOINT 0 0; KEYPOINT 0 0; KEYPOINT 0 0; KEYPOINT 0 0;
  KEYPOINT 0 0; KEYPOINT 0 0; KEYPOINT 0 0; KEYPOINT 0 0;
  KEYPOINT 0 0; KEYPOINT 0 0; KEYPOINT 0 0; KEYPOINT 0 0;
  KEYPOINT 0 0; KEYPOINT 0 0; KEYPOINT 0 0; KEYPOINT 0 0;
  KEYPOINT 0 0; KEYPOINT 0 0; KEYPOINT 0 0; KEYPOINT 0 0;
  KEYPOINT 0 0; KEYPOINT 0 0; KEYPOINT 0 0; KEYPOINT 0 0;
  KEYPOINT 0 0; KEYPOINT 0 0; KEYPOINT 0 0; KEYPOINT 0 0;
  KEYPOINT 0 0; KEYPOINT 0 0; KEYPOINT 0 0; KEYPOINT 0 0;
  KEYPOINT 0 0; KEYPOINT 0 0; KEYPOINT 0 0; KEYPOINT 0 0;
  KEYPOINT 0 0; KEYPOINT 0 0; KEYPOINT 0 0; KEYPOINT 0 0;
  KEYPOINT 0 0; KEYPOINT 0 0; KEYPOINT 0 0; KEYPOINT 0 0;
  KEYPOINT 0 0; KEYPOINT 0 0; KEYPOINT 0 0; KEYPOINT 0 0;
  KEYPOINT 0 0; KEYPOINT 0 0; KEYPOINT 0 0; KEYPOINT 0 0;
  KEYPOINT 0 0; KEYPOINT 0 0; KEYPOINT 0 0; KEYPOINT 0 0;
  KEYPOINT 0 0; KEYPOINT 0 0; KEYPOINT 0 0; KEYPOINT 0 0;
  KEYPOINT 0 0; KEYPOINT 0 0; KEYPOINT 0 0; KEYPOINT 0 0;
  KEYPOINT 0 0; KEYPOINT 0 0; KEYPOINT 0 0; KEYPOINT 0 0;
  KEYPOINT 0 0; KEYPOINT 0 0; KEYPOINT 0 0; KEYPOINT 0 0;
  KEYPOINT 0 0; KEYPOINT 0 0; KEYPOINT 0 0; KEYPOINT 0 0;
  KEYPOINT 0 0; KEYPOINT 0 0; KEYPOINT 0 0; KEYPOINT 0 0;
  KEYPOINT 0 0; KEYPOINT 0 0; KEYPOINT 0 0; KEYPOINT 0 0;
  KEYPOINT 0 0; KEYPOINT 0 0; KEYPOINT 0 0; KEYPOINT 0 0;
  KEYPOINT 0 0; KEYPOINT 0 0; KEYPOINT 0 0; KEYPOINT 0 0;
  KEYPOINT 0 0; KEYPOINT 0 0; KEYPOINT 0 0; KEYPOINT 0 0;
  KEYPOINT 0 0; KEYPOINT 0 0; KEYPOINT 0 0; KEYPOINT 0 0;
  KEYPOINT 0 0; KEYPOINT 0 0; KEYPOINT 0 0; KEYPOINT 0 0;
  KEYPOINT 0 0; KEYPOINT 0 0; KEYPOINT 0 0; KEYPOINT 0 0;
  KEYPOINT 0 0; KEYPOINT 0 0; KEYPOINT 0 0; KEYPOINT 0 0;
  KEYPOINT 0 0; KEYPOINT 0 0; KEYPOINT 0 0; KEYPOINT 0 0].

Definition ext_2_scan_code_set_2_scancodes_pressed : list Z := [0xE0; 0x12; 0xE0; 0x7C].
Definition ext_2_scan_code_set_2_scancodes_released : list Z := [0xE0; 0xF0; 0x7C; 0xE0; 0xF0; 0x12].
Definition ext_2_scan_code_set_2_keypoint : Z := KEYPOINT 1 13.
Definition ext_3_scan_code_set_2_scancodes : list Z :=
  [0xE1; 0x14; 0x77; 0xE1; 0xF0; 0x14; 0xF0; 0x77].
Definition ext_3_scan_code_set_2_keypoint : Z := KEYPOINT 1 15.

Definition scan_code_set_3_keypoints : list Z := [
  KEYPOINT 0 0; KEYPOINT 0 0; KEYPOINT 0 0; KEYPOINT 0 0;
  KEYPOINT 0 0; KEYPOINT 0 0; KEYPOINT 0 0; KEYPOINT 2 1;
  KEYPOINT 2 0; KEYPOINT 0 0; KEYPOINT 0 0; KEYPOINT 0 0;
  KEYPOINT 0 0; KEYPOINT 4 0; KEYPOINT 3 0; KEYPOINT 2 2;
  KEYPOINT 0 0; KEYPOINT 7 0; KEYPOINT 6 0; KEYPOINT 0 0;
  KEYPOINT 5 0; KEYPOINT 4 1; KEYPOINT 3 1; KEYPOINT 2 3;
  KEYPOINT 0 0; KEYPOINT 7 2; KEYPOINT 6 2; KEYPOINT 5 2;
  KEYPOINT 5 1; KEYPOINT 4 2; KEYPOINT 3 2; KEYPOINT 2 4;
  KEYPOINT 0 0; KEYPOINT 6 4; KEYPOINT 6 3; KEYPOINT 5 3;
  KEYPOINT 4 3; KEYPOINT 3 4; KEYPOINT 3 3; KEYPOINT 2 5;
  KEYPOINT 0 0; KEYPOINT 7 6; KEYPOINT 6 5; KEYPOINT 5 4;
  KEYPOINT 4 5; KEYPOINT 4 4; KEYPOINT 3 5; KEYPOINT 2 6;
  KEYPOINT 0 0; KEYPOINT 6 7; KEYPOINT 6 6; KEYPOINT 5 6;
  KEYPOINT 5 5; KEYPOINT 4 6; KEYPOINT 3 6; KEYPOINT 2 7;
  KEYPOINT 0 0; KEYPOINT 7 8; KEYPOINT 6 8; KEYPOINT 5 7;
  KEYPOINT 4 7; KEYPOINT 3 7; KEYPOINT 3 8; KEYPOINT 2 8;
  KEYPOINT 0 0; KEYPOINT 6 9; KEYPOINT 5 8; KEYPOINT 4 8;
  KEYPOINT 4 9; KEYPOINT 3 10; KEYPOINT 3 9; KEYPOINT 2 9;
  KEYPOINT 0 0; KEYPOINT 6 10; KEYPOINT 3 17; KEYPOINT 5 9;
  KEYPOINT 5 10; KEYPOINT 4 10; KEYPOINT 3 11; KEYPOINT 2 10;
  KEYPOINT 0 0; KEYPOINT 0 0; KEYPOINT 5 11; KEYPOINT 0 0;
  KEYPOINT 4 11; KEYPOINT 3 12; KEYPOINT 2 11; KEYPOINT 1 13;
  KEYPOINT 7 11; KEYPOINT 6 12; KEYPOINT 5 13; KEYPOINT 4 12;
  KEYPOINT 4 13; KEYPOINT 0 0; KEYPOINT 2 12; KEYPOINT 1 14;
  KEYPOINT 7 13; KEYPOINT 7 12; KEYPOINT 1 15; KEYPOINT 6 13;
  KEYPOINT 3 14; KEYPOINT 3 15; KEYPOINT 3 13; KEYPOINT 2 13;
  KEYPOINT 0 0; KEYPOINT 6 16; KEYPOINT 7 14; KEYPOINT 5 16;
  KEYPOINT 4 16; KEYPOINT 4 14; KEYPOINT 2 14; KEYPOINT 2 15;
  KEYPOINT 7 16; KEYPOINT 7 18; KEYPOINT 6 17; KEYPOINT 5 17;
  KEYPOINT 5 18; KEYPOINT 4 17; KEYPOINT 3 16; KEYPOINT 0 0;
  KEYPOINT 0 0; KEYPOINT 7 19; KEYPOINT 6 18; KEYPOINT 0 0;
  KEYPOINT 5 19; KEYPOINT 4 18; KEYPOINT 3 18; KEYPOINT 0 0;
  KEYPOINT 0 0; KEYPOINT 0 0; KEYPOINT 0 0; KEYPOINT 0 0;
  KEYPOINT 0 0; KEYPOINT 0 0; KEYPOINT 0 0; KEYPOINT 0 0;
  KEYPOINT 0 0; KEYPOINT 0 0; KEYPOINT 0 0; KEYPOINT 7 1;
  KEYPOINT 7 9; KEYPOINT 7 10; KEYPOINT 0 0; KEYPOINT 0 0;
  KEYPOINT 0 0; KEYPOINT 0 0; KEYPOINT 0 0; KEYPOINT 0 0;
  KEYPOINT 0 0; KEYPOINT 0 0; KEYPOINT 0 0; KEYPOINT 0 0;
  KEYPOINT 0 0; KEYPOINT 0 0; KEYPOINT 0 0; KEYPOINT 0 0;
  KEYPOINT 0 0; KEYPOINT 0 0; KEYPOINT 0 0; KEYPOINT 0 0;
  KEYPOINT 0 0; KEYPOINT 0 0; KEYPOINT 0 0; KEYPOINT 0 0;
  KEYPOINT 0 0; KEYPOINT 0 0; KEYPOINT 0 0; KEYPOINT 0 0;
  KEYPOINT 0 0; KEYPOINT 0 0; KEYPOINT 0 0; KEYPOINT 0 0;
  KEYPOINT 0 0; KEYPOINT 0 0; KEYPOINT 0 0; KEYPOINT 0 0;
  KEYPOINT 0 0; KEYPOINT 0 0; KEYPOINT 0 0; KEYPOINT 0 0;
  KEYPOINT 0 0; KEYPOINT 0 0; KEYPOINT 0 0; KEYPOINT 0 0;
  KEYPOINT 0 0; KEYPOINT 0 0; KEYPOINT 0 0; KEYPOINT 0 0;
  KEYPOINT 0 0; KEYPOINT 0 0; KEYPOINT 0 0; KEYPOINT 0 0;
  KEYPOINT 0 0; KEYPOINT 0 0; KEYPOINT 0 0; KEYPOINT 0 0;
  KEYPOINT 0 0; KEYPOINT 0 0; KEYPOINT 0 0; KEYPOINT 0 0;
  KEYPOINT 0 0; KEYPOINT 0 0; KEYPOINT 0 0; KEYPOINT 0 0;
  KEYPOINT 0 0; KEYPOINT 0 0; KEYPOINT 0 0; KEYPOINT 0 0;
  KEYPOINT 0 0; KEYPOINT 0 0; KEYPOINT 0 0; KEYPOINT 0 0;
  KEYPOINT 0 0; KEYPOINT 0 0; KEYPOINT 0 0; KEYPOINT 0 0;
  KEYPOINT 0 0; KEYPOINT 0 0; KEYPOINT 0 0; KEYPOINT 0 0;
  KEYPOINT 0 0; KEYPOINT 0 0; KEYPOINT 0 0; KEYPOINT 0 0;
  KEYPOINT 0 0; KEYPOINT 0 0; KEYPOINT 0 0; KEYPOINT 0 0;
  KEYPOINT 0 0; KEYPOINT 0 0; KEYPOINT 0 0; KEYPOINT 0 0;
  KEYPOINT 0 0; KEYPOINT 0 0; KEYPOINT 0 0; KEYPOINT 0 0;
  KEYPOINT 0 0; KEYPOINT 0 0; KEYPOINT 0 0; KEYPOINT 0 0;
  KEYPOINT 0 0; KEYPOINT 0 0; KEYPOINT 0 0; KEYPOINT 0 0;
  KEYPOINT 0 0; KEYPOINT 0 0; KEYPOINT 0 0; KEYPOINT 0 0;
  KEYPOINT 0 0; KEYPOINT 0 0; KEYPOINT 0 0; KEYPOINT 0 0;
  KEYPOINT 0 0; KEYPOINT 0 0; KEYPOINT 0 0; KEYPOINT 0 0].

(** ** Packets and responses *)

Record BasicKeyPacket := { scancode : Z; keypoint : Z; flags : Z }.

(** [EventResponse], with the packet stored in [*buffer]. *)
Inductive EventResponse := IGNORE | PACKET_CREATED (packet : BasicKeyPacket).

Inductive state_t := DEFAULT | EXTENDED1 | EXTENDED2_PRESS | EXTENDED2_RELEASE | EXTENDED3.

(** The static variables of the handlers of sets 1 and 2 ([onRelease] is used
    by set 2 only). *)
Record kbd := { state : state_t; bytesRead : Z; onError : bool; onRelease : bool }.

Definition kbd_init : kbd :=
  {| state := DEFAULT; bytesRead := 0; onError := false; onRelease := false |}.

Definition rd (l : list Z) (i : Z) : option Z :=
  if i <? 0 then None else l !! Z.to_nat i.

Definition packet (byte kp : Z) (pressed : bool) : BasicKeyPacket :=
  {| scancode := byte; keypoint := kp; flags := if pressed then KEY_PRESSED else 0 |}.

(** One byte of a multi-byte sequence of [n] bytes: [codes] is the expected
    sequence, [st] the state, [out] the packet of a complete sequence, [fin]
    what the last assignments make of the state on success and on error. *)
Definition sequence_step (codes : list Z) (n kp : Z) (pressed : bool)
    (rel_ok rel_err : bool -> bool) (s : kbd) (byte : Z) : option (kbd * EventResponse) :=
  c ← rd codes (bytesRead s);
  let b := u32 (bytesRead s + 1) in
  if (byte =? c) && negb (onError s) then
    if b =? n then
      Some ({| state := DEFAULT; bytesRead := 0; onError := onError s;
               onRelease := rel_ok (onRelease s) |},
            PACKET_CREATED (packet byte kp pressed))
    else Some ({| state := state s; bytesRead := b; onError := onError s;
                  onRelease := onRelease s |}, IGNORE)
  else
    if b =? n then
      Some ({| state := DEFAULT; bytesRead := 0; onError := false;
               onRelease := rel_err (onRelease s) |}, IGNORE)
    else Some ({| state := state s; bytesRead := b; onError := true;
                  onRelease := onRelease s |}, IGNORE).

Definition goto (st : state_t) (s : kbd) : kbd :=
  {| state := st; bytesRead := u32 (bytesRead s + 1); onError := onError s;
     onRelease := onRelease s |}.

(** ** The handlers *)

Definition KeyboardScanCodeSet1Handler (s : kbd) (byte : Z) : option (kbd * EventResponse) :=
  match state s with
  | DEFAULT =>
      if byte =? EXT_1_2 then Some (goto EXTENDED1 s, IGNORE)
      else if byte =? EXT_3 then Some (goto EXTENDED3 s, IGNORE)
      else
        kp ← rd scan_code_set_1_keypoints byte;
        Some (s, PACKET_CREATED (packet byte kp (Z.land byte 0x80 =? 0)))
  | EXTENDED1 =>
      c1 ← rd ext_2_scan_code_set_1_scancodes_pressed 1;
      c2 ← rd ext_2_scan_code_set_1_scancodes_released 1;
      if byte =? c1 then Some (goto EXTENDED2_PRESS s, IGNORE)
      else if byte =? c2 then Some (goto EXTENDED2_RELEASE s, IGNORE)
      else
        kp ← rd ext_1_scan_code_set_1_keypoints byte;
        Some ({| state := DEFAULT; bytesRead := 0; onError := onError s; onRelease := onRelease s |},
              PACKET_CREATED (packet byte kp (Z.land byte 0x80 =? 0)))
  | EXTENDED2_PRESS =>
      sequence_step ext_2_scan_code_set_1_scancodes_pressed 4 ext_2_scan_code_set_1_keypoint true
        id id s byte
  | EXTENDED2_RELEASE =>
      sequence_step ext_2_scan_code_set_1_scancodes_released 4 ext_2_scan_code_set_1_keypoint false
        id id s byte
  | EXTENDED3 =>
      sequence_step ext_3_scan_code_set_1_scancodes 6 ext_3_scan_code_set_1_keypoint true
        id id s byte
  end.

Definition KeyboardScanCodeSet2Handler (s : kbd) (byte : Z) : option (kbd * EventResponse) :=
  let released := {| state := state s; bytesRead := u32 (bytesRead s + 1); onError := onError s;
                     onRelease := true |} in
  let idle := {| state := DEFAULT; bytesRead := 0; onError := onError s; onRelease := false |} in
  match state s with
  | DEFAULT =>
      if byte =? EXT_1_2 then Some (goto EXTENDED1 s, IGNORE)
      else if byte =? EXT_3 then Some (goto EXTENDED3 s, IGNORE)
      else if byte =? RELEASE then Some (released, IGNORE)
      else
        kp ← rd scan_code_set_2_keypoints (byte mod 0x84);
        Some (idle, PACKET_CREATED (packet byte kp (negb (onRelease s))))
  | EXTENDED1 =>
      if byte =? RELEASE then Some (released, IGNORE)
      else
        c1 ← rd ext_2_scan_code_set_2_scancodes_pressed (bytesRead s);
        if byte =? c1 then Some (goto EXTENDED2_PRESS s, IGNORE)
        else
          c2 ← rd ext_2_scan_code_set_2_scancodes_released (bytesRead s);
          if byte =? c2 then Some (goto EXTENDED2_RELEASE s, IGNORE)
          else
            kp ← rd ext_1_scan_code_set_2_keypoints byte;
            Some (idle, PACKET_CREATED (packet byte kp (negb (onRelease s))))
  | EXTENDED2_PRESS =>
      sequence_step ext_2_scan_code_set_2_scancodes_pressed 4 ext_2_scan_code_set_2_keypoint true
        id (fun _ => false) s byte
  | EXTENDED2_RELEASE =>
      sequence_step ext_2_scan_code_set_2_scancodes_released 6 ext_2_scan_code_set_2_keypoint false
        (fun _ => false) (fun _ => false) s byte
  | EXTENDED3 =>
      sequence_step ext_3_scan_code_set_2_scancodes 8 ext_3_scan_code_set_2_keypoint true
        id id s byte
  end.

(** The state of the handler of set 3 is whether the release prefix was seen. *)
Definition KeyboardScanCodeSet3Handler (release : bool) (byte : Z) : option (bool * EventResponse) :=
  if byte =? RELEASE then Some (true, IGNORE)
  else
    kp ← rd scan_code_set_3_keypoints byte;
    Some (false, PACKET_CREATED (packet byte kp (negb release))).

(** Feeding a handler a sequence of bytes; the packets come out in order. *)
Fixpoint feed {S} (handler : S -> Z -> option (S * EventResponse)) (s : S) (bytes : list Z)
    : option (S * list BasicKeyPacket) :=
  match bytes with
  | [] => Some (s, [])
  | byte :: bytes' =>
      '(s', r) ← handler s byte;
      '(s'', ps) ← feed handler s' bytes';
      Some (s'', match r with IGNORE => ps | PACKET_CREATED p => p :: ps end)
  end.

(** * The keyboard's side: what a key event is on the wire

    The specification of the three scan code sets, as the sequences the tables
    of the handlers announce.  A key is plain, prefixed by [EXT_1_2], or one of
    the two keys that own a multi-byte sequence. *)
Inductive key := Plain (c : Z) | Ext (c : Z) | PrintScreen | Pause.
Record event := { ev_key : key; ev_pressed : bool }.

Definition encode1 (e : event) : list Z :=
  let code c := if ev_pressed e then c else Z.lor c 0x80 in
  match ev_key e with
  | Plain c => [code c]
  | Ext c => [EXT_1_2; code c]
  | PrintScreen => if ev_pressed e then [0xE0; 0x2A; 0xE0; 0x37] else [0xE0; 0xB7; 0xE0; 0xAA]
  | Pause => [0xE1; 0x1D; 0x45; 0xE1; 0x9D; 0xC5]
  end.

Definition encode2 (e : event) : list Z :=
  let code c := if ev_pressed e then [c] else [RELEASE; c] in
  match ev_key e with
  | Plain c => code c
  | Ext c => EXT_1_2 :: code c
  | PrintScreen =>
      if ev_pressed e then [0xE0; 0x12; 0xE0; 0x7C] else [0xE0; 0xF0; 0x7C; 0xE0; 0xF0; 0x12]
  | Pause => [0xE1; 0x14; 0x77; 0xE1; 0xF0; 0x14; 0xF0; 0x77]
  end.

(** The key point of a key, given the tables of its set. *)
Definition key_point (plain ext : list Z) (k : key) : option Z :=
  match k with
  | Plain c => rd plain c
  | Ext c => rd ext c
  | PrintScreen => Some (KEYPOINT 1 13)
  | Pause => Some (KEYPOINT 1 15)
  end.

(** The packet a driver should deliver: the key point of the make code, the
    last byte of the sequence as scan code, and the direction. *)
Definition expected (plain ext : list Z) (wire : list Z) (e : event) : option BasicKeyPacket :=
  kp ← key_point plain ext (ev_key e);
  Some (packet (List.last wire 0) kp (ev_pressed e)).

(** The events each set can express: code 0x60 and 0x61 of set 1 would break
    with the prefixes, the codes of the fake shifts start a longer sequence,
    and Pause has no release. *)
Definition expressible1 (e : event) : bool :=
  match ev_key e with
  | Plain c => (0 <=? c) && (c <? 0x80) && negb (c =? 0x60) && negb (c =? 0x61)
  | Ext c => (0 <=? c) && (c <? 0x80) && negb (c =? 0x2A) && negb (c =? 0x37)
  | PrintScreen => true
  | Pause => ev_pressed e
  end.

Definition expressible2 (e : event) : bool :=
  match ev_key e with
  | Plain c => (0 <=? c) && (c <? 0x84)
  | Ext c => (0 <=? c) && (c <? 0x80) && negb (c =? 0x12) && negb (c =? 0x7C)
  | PrintScreen => true
  | Pause => ev_pressed e
  end.

(** ** Feeding sequences *)

Section Feed.
Context {S : Type} (handler : S -> Z -> option (S * EventResponse)).

Lemma feed_app s l1 l2 :
  feed handler s (l1 ++ l2) =
    '(s', p1) ← feed handler s l1; '(s'', p2) ← feed handler s' l2; Some (s'', p1 ++ p2).
Proof.
  revert s; induction l1 as [|b l1 IH]; intros s; cbn.
  - destruct (feed handler s l2) as [[]|]; done.
  - destruct (handler s b) as [[s1 r]|]; cbn; [|done].
    rewrite IH. destruct (feed handler s1 l1) as [[s2 p1]|]; cbn; [|done].
    destruct (feed handler s2 l2) as [[s3 p2]|]; cbn; [|done]. by destruct r.
Qed.

(** A handler that decodes each event of a class from its idle state decodes
    every sequence of them. *)
Lemma feed_events (idle : S) (enc : event -> list Z) (pk : event -> option BasicKeyPacket)
    (ok : event -> bool) :
  (forall e, ok e = true -> exists p, pk e = Some p /\ feed handler idle (enc e) = Some (idle, [p])) ->
  forall es, forallb ok es = true ->
    exists ps, mapM pk es = Some ps /\ feed handler idle (concat (map enc es)) = Some (idle, ps).
Proof.
  intros one. induction es as [|e es IH]; cbn; [eauto|].
  intros [He Hes]%andb_prop. destruct (one e He) as (p & -> & Hp). destruct (IH Hes) as (ps & -> & Hps).
  exists (p :: ps). split; [done|]. rewrite feed_app, Hp; cbn. by rewrite Hps.
Qed.

(** An invariant of the handler bounds every reachable state. *)
Lemma feed_inv (I : S -> Prop) (okb : Z -> bool) :
  (forall s b, I s -> okb b = true -> exists s' r, handler s b = Some (s', r) /\ I s') ->
  forall l s, I s -> forallb okb l = true ->
    exists s' ps, feed handler s l = Some (s', ps) /\ I s' /\ (length ps <= length l)%nat.
Proof.
  intros step. induction l as [|b l IH]; cbn; intros s Hs; [eauto 6|].
  intros [Hb Hl]%andb_prop. destruct (step s b Hs Hb) as (s1 & r & -> & H1); cbn.
  destruct (IH s1 H1 Hl) as (s2 & ps & -> & H2 & Hlen); cbn.
  destruct r; eexists _, _; (split; [reflexivity|]); cbn; auto with lia.
Qed.
End Feed.

(** ** Sweeps over the byte range *)

Definition decodes (handler : kbd -> Z -> option (kbd * EventResponse)) (enc : event -> list Z)
    (plain ext : list Z) (e : event) : bool :=
  match expected plain ext (enc e) e, feed handler kbd_init (enc e) with
  | Some p, Some (s, [q]) =>
      match state s with DEFAULT => true | _ => false end && (bytesRead s =? 0) &&
      negb (onError s) && negb (onRelease s) &&
      (scancode p =? scancode q) && (keypoint p =? keypoint q) && (flags p =? flags q)
  | _, _ => false
  end.

Lemma decodes_spec handler enc plain ext e :
  decodes handler enc plain ext e = true ->
  exists p, expected plain ext (enc e) e = Some p /\ feed handler kbd_init (enc e) = Some (kbd_init, [p]).
Proof.
  unfold decodes. destruct (expected _ _ _ _) as [p|]; [|done].
  destruct (feed _ _ _) as [[s [|q [|]]]|]; try done. destruct s as [st br er rl], p, q; cbn.
  destruct st; try done. destruct er, rl; rewrite ?andb_false_r; try done; cbn.
  rewrite ?andb_true_r, !andb_true_iff, !Z.eqb_eq. intros [[[-> ->] ->] ->]. eauto.
Qed.

Lemma forallb_range (P : Z -> bool) n m :
  forallb P (seqZ 0 n) = true -> forall c, ((0 <=? c) && (c <? m)) = true -> m <= n -> P c = true.
Proof. rewrite forallb_forall. intros H c Hc ?. apply H, list_elem_of_In, elem_of_seqZ. lia. Qed.

Definition sweep (ok : event -> bool) (dec : event -> bool) : bool :=
  forallb (fun c => forallb (fun e => implb (ok e) (dec e))
     [{| ev_key := Plain c; ev_pressed := true |}; {| ev_key := Plain c; ev_pressed := false |};
      {| ev_key := Ext c; ev_pressed := true |}; {| ev_key := Ext c; ev_pressed := false |};
      {| ev_key := PrintScreen; ev_pressed := true |}; {| ev_key := PrintScreen; ev_pressed := false |};
      {| ev_key := Pause; ev_pressed := true |}; {| ev_key := Pause; ev_pressed := false |}])
    (seqZ 0 0x84).

Lemma sweep_spec ok dec :
  sweep ok dec = true ->
  forall e, ok e = true ->
    match ev_key e with Plain c | Ext c => (0 <=? c) && (c <? 0x84) = true | _ => True end -> dec e = true.
Proof.
  intros H [k b] He Hc. cbn in Hc.
  pose (c := match k with Plain c | Ext c => c | _ => 0 end).
  assert (Hr : (0 <=? c) && (c <? 0x84) = true) by (destruct k; subst c; cbn; auto).
  pose proof (forallb_range _ _ _ H c Hr ltac:(lia)) as Hs. cbn beta in Hs. subst c.
  rewrite forallb_forall in Hs. specialize (Hs {| ev_key := k; ev_pressed := b |}).
  assert (implb (ok {| ev_key := k; ev_pressed := b |}) (dec {| ev_key := k; ev_pressed := b |}) = true) as Hi.
  { apply Hs. destruct k, b; cbn; tauto. }
  by rewrite He in Hi.
Qed.

Definition decodes1 := decodes KeyboardScanCodeSet1Handler encode1
  scan_code_set_1_keypoints ext_1_scan_code_set_1_keypoints.
Definition decodes2 := decodes KeyboardScanCodeSet2Handler encode2
  scan_code_set_2_keypoints ext_1_scan_code_set_2_keypoints.

Lemma sweep1 : sweep expressible1 decodes1 = true.
Proof. vm_compute. reflexivity. Qed.
Lemma sweep2 : sweep expressible2 decodes2 = true.
Proof. vm_compute. reflexivity. Qed.

Lemma expressible_decodes1 e : expressible1 e = true -> decodes1 e = true.
Proof. intros He. apply (sweep_spec _ _ sweep1 _ He). destruct e as [[c|c| |] b]; cbn in *; lia. Qed.
Lemma expressible_decodes2 e : expressible2 e = true -> decodes2 e = true.
Proof. intros He. apply (sweep_spec _ _ sweep2 _ He). destruct e as [[c|c| |] b]; cbn in *; lia. Qed.

(** ** Reachable states of the set 1 handler *)

(** How far into a sequence each state can be: the array read next is inside
    its bounds. *)
Definition set1_inv (s : kbd) : Prop :=
  match state s with
  | DEFAULT => bytesRead s = 0 /\ onError s = false
  | EXTENDED1 => bytesRead s = 1 /\ onError s = false
  | EXTENDED2_PRESS | EXTENDED2_RELEASE => 2 <= bytesRead s <= 3
  | EXTENDED3 => 1 <= bytesRead s <= 5
  end.

(** The bytes left before the state is [DEFAULT] whatever they are. *)
Definition pending (s : kbd) : Z :=
  match state s with
  | DEFAULT => 0
  | EXTENDED1 => 3
  | EXTENDED2_PRESS | EXTENDED2_RELEASE => 4 - bytesRead s
  | EXTENDED3 => 6 - bytesRead s
  end.

Definition is_byte (b : Z) : bool := (0 <=? b) && (b <? 256).

Lemma rd_in l i : 0 <= i < Z.of_nat (length l) -> exists x, rd l i = Some x.
Proof.
  intros Hi. unfold rd. rewrite (proj2 (Z.ltb_ge _ _)) by lia. apply lookup_lt_is_Some. lia.
Qed.

Lemma sequence_step_inv codes n kp pr f g s b :
  Z.of_nat (length codes) = n -> 0 <= bytesRead s < n -> n < 100 ->
  exists s' r, sequence_step codes n kp pr f g s b = Some (s', r) /\
    if bytesRead s + 1 =? n then state s' = DEFAULT /\ bytesRead s' = 0 /\ onError s' = false
    else state s' = state s /\ bytesRead s' = bytesRead s + 1 /\ r = IGNORE.
Proof.
  intros Hl Hb Hn. unfold sequence_step. destruct (rd_in codes (bytesRead s)) as [c ->]; [lia|]. cbn -[wrap].
  replace (u32 (bytesRead s + 1)) with (bytesRead s + 1) by (rewrite wrap_small; lia).
  destruct (bytesRead s + 1 =? n); destruct (b =? c), (onError s) eqn:Ho; cbn;
    eexists _, _; (split; [reflexivity|]); cbn; auto.
Qed.

Lemma set1_step s b :
  set1_inv s -> is_byte b = true ->
  exists s' r, KeyboardScanCodeSet1Handler s b = Some (s', r) /\ set1_inv s' /\
    (state s = DEFAULT \/ pending s' < pending s).
Proof.
  intros Hs [Hb1 Hb2]%andb_prop. unfold KeyboardScanCodeSet1Handler, goto, set1_inv in *.
  destruct (state s) eqn:Est.
  - destruct Hs as [H0 Ho]. destruct (b =? EXT_1_2); [|destruct (b =? EXT_3)].
    1,2: rewrite H0, Ho; change (u32 (0 + 1)) with 1;
      eexists _, _; (split; [reflexivity|]); cbn; split; [lia|by left].
    destruct (rd_in scan_code_set_1_keypoints b) as [kp ->]; [cbn; lia|].
    eexists _, _; (split; [reflexivity|]); rewrite Est; auto.
  - destruct Hs as [H0 Ho]. change (rd ext_2_scan_code_set_1_scancodes_pressed 1) with (Some 0x2A).
    change (rd ext_2_scan_code_set_1_scancodes_released 1) with (Some 0xB7). cbn -[rd].
    destruct (b =? 42); [|destruct (b =? 183)].
    1,2: rewrite H0; change (u32 (1 + 1)) with 2;
      eexists _, _; (split; [reflexivity|]); unfold pending; rewrite Est; cbn; lia.
    destruct (rd_in ext_1_scan_code_set_1_keypoints b) as [kp ->]; [cbn; lia|].
    eexists _, _; (split; [reflexivity|]); unfold pending; rewrite Est; cbn; auto with lia.
  - edestruct (sequence_step_inv ext_2_scan_code_set_1_scancodes_pressed 4) as (s' & r & -> & Hr);
      [done|lia|lia|]. exists s', r. split; [done|]. unfold pending; rewrite Est.
    destruct (Z.eqb_spec (bytesRead s + 1) 4); destruct Hr as (-> & ? & ?); rewrite ?Est; lia || (split; [done|lia]).
  - edestruct (sequence_step_inv ext_2_scan_code_set_1_scancodes_released 4) as (s' & r & -> & Hr);
      [done|lia|lia|]. exists s', r. split; [done|]. unfold pending; rewrite Est.
    destruct (Z.eqb_spec (bytesRead s + 1) 4); destruct Hr as (-> & ? & ?); rewrite ?Est; lia || (split; [done|lia]).
  - edestruct (sequence_step_inv ext_3_scan_code_set_1_scancodes 6) as (s' & r & -> & Hr);
      [done|lia|lia|]. exists s', r. split; [done|]. unfold pending; rewrite Est.
    destruct (Z.eqb_spec (bytesRead s + 1) 6); destruct Hr as (-> & ? & ?); rewrite ?Est; lia || (split; [done|lia]).
Qed.

Lemma set1_reachable l :
  forallb is_byte l = true ->
  exists s ps, feed KeyboardScanCodeSet1Handler kbd_init l = Some (s, ps) /\ set1_inv s /\
    (length ps <= length l)%nat.
Proof.
  intros Hl. eapply feed_inv; [|done|exact Hl]. intros s b Hs Hb.
  destruct (set1_step s b Hs Hb) as (s' & r & ? & ? & _). eauto.
Qed.

Lemma set1_settles (l : list Z) s :
  set1_inv s -> forallb is_byte l = true -> pending s <= Z.of_nat (length l) ->
  exists k s' ps, (k <= length l)%nat /\
    feed KeyboardScanCodeSet1Handler s (take k l) = Some (s', ps) /\ state s' = DEFAULT.
Proof.
  revert s; induction l as [|b l IH]; intros s Hs Hl Hp.
  - exists 0%nat, s, []. repeat split; [lia|].
    unfold pending, set1_inv in *. destruct (state s); cbn in Hp; try done; lia.
  - apply andb_prop in Hl as [Hb Hl].
    destruct (set1_step s b Hs Hb) as (s1 & r & Hr & H1 & [Hd|Hlt]).
    + exists 0%nat, s, []. repeat split; [lia|done].
    + destruct (IH s1 H1 Hl) as (k & s2 & ps & Hk & Hf & Hd); [cbn in Hp; lia|].
      exists (S k). cbn. rewrite Hr; cbn. rewrite Hf; cbn. eauto 8 with lia.
Qed.

(** * Theorems *)

(** The set 1 handler decodes what a set 1 keyboard sends: after any
    sequence of key events, each sent as its make or break bytes, exactly one
    packet per event has been delivered, in order, with the key point of the
    key's make code, its direction and its last byte, and the handler is back
    in its initial state. *)
Theorem set1_decodes (es : list event) :
  forallb expressible1 es = true ->
  exists ps,
    mapM (fun e => expected scan_code_set_1_keypoints ext_1_scan_code_set_1_keypoints (encode1 e) e) es = Some ps /\
    feed KeyboardScanCodeSet1Handler kbd_init (concat (map encode1 es)) = Some (kbd_init, ps).
Proof.
  apply feed_events. intros e He. apply decodes_spec, expressible_decodes1, He.
Qed.

Lemma set1_decodes_witness :
  exists ps, length ps = 3%nat /\
    feed KeyboardScanCodeSet1Handler kbd_init [0x1E; 0xE0; 0x2A; 0xE0; 0x37; 0xE0; 0xC8] = Some (kbd_init, ps).
Proof.
  destruct (set1_decodes [{| ev_key := Plain 0x1E; ev_pressed := true |};
    {| ev_key := PrintScreen; ev_pressed := true |}; {| ev_key := Ext 0x48; ev_pressed := false |}] eq_refl)
    as (ps & Hm & Hf).
  exists ps. split; [|exact Hf]. rewrite <- (length_mapM _ _ _ Hm). reflexivity.
Defined.

(** The set 2 handler decodes what a set 2 keyboard sends, release prefix
    and multi-byte keys included: one packet per event, in order, press and
    release of a key giving the same key point. *)
Theorem set2_decodes (es : list event) :
  forallb expressible2 es = true ->
  exists ps,
    mapM (fun e => expected scan_code_set_2_keypoints ext_1_scan_code_set_2_keypoints (encode2 e) e) es = Some ps /\
    feed KeyboardScanCodeSet2Handler kbd_init (concat (map encode2 es)) = Some (kbd_init, ps).
Proof.
  apply feed_events. intros e He. apply decodes_spec, expressible_decodes2, He.
Qed.

Lemma set2_decodes_witness :
  exists ps, length ps = 3%nat /\
    feed KeyboardScanCodeSet2Handler kbd_init [0x1C; 0xF0; 0x1C; 0xE0; 0xF0; 0x75] = Some (kbd_init, ps).
Proof.
  destruct (set2_decodes [{| ev_key := Plain 0x1C; ev_pressed := true |};
    {| ev_key := Plain 0x1C; ev_pressed := false |}; {| ev_key := Ext 0x75; ev_pressed := false |}] eq_refl)
    as (ps & Hm & Hf).
  exists ps. split; [|exact Hf]. rewrite <- (length_mapM _ _ _ Hm). reflexivity.
Defined.

(** Whatever bytes the controller delivers (noise, lost bytes), the set 1
    handler never reads a table out of its bounds, delivers at most one packet
    per byte, and resynchronises: within the next five bytes it is back in
    its default state. *)
Theorem set1_resynchronises (l next : list Z) :
  forallb is_byte l = true -> forallb is_byte next = true -> length next = 5%nat ->
  exists s ps k s' ps',
    feed KeyboardScanCodeSet1Handler kbd_init l = Some (s, ps) /\ (length ps <= length l)%nat /\
    (k <= 5)%nat /\
    feed KeyboardScanCodeSet1Handler s (take k next) = Some (s', ps') /\ state s' = DEFAULT.
Proof.
  intros Hl Hn H5. destruct (set1_reachable l Hl) as (s & ps & Hf & Hs & Hlen).
  destruct (set1_settles next s Hs Hn) as (k & s' & ps' & Hk & Hf' & Hd).
  { unfold pending, set1_inv in *. destruct (state s); lia. }
  exists s, ps, k, s', ps'. rewrite <- H5. auto.
Qed.

Lemma set1_resynchronises_witness :
  exists s ps k s' ps',
    feed KeyboardScanCodeSet1Handler kbd_init [0xE1; 0x00] = Some (s, ps) /\ (length ps <= 2)%nat /\
    (k <= 5)%nat /\
    feed KeyboardScanCodeSet1Handler s (take k [1; 2; 3; 4; 5]) = Some (s', ps') /\ state s' = DEFAULT.
Proof. apply (set1_resynchronises [0xE1; 0x00] [1; 2; 3; 4; 5]); reflexivity. Defined.

(** The set 2 handler has no such bound: after the extended prefix it
    counts every release prefix, and with three of them it compares the next
    byte against the element after the end of a four-byte array. *)
Theorem set2_reads_past_sequence (byte : Z) :
  feed KeyboardScanCodeSet2Handler kbd_init [0xE0; 0xF0; 0xF0; 0xF0; byte] = None <-> byte <> RELEASE.
Proof.
  rewrite (feed_app _ _ [0xE0; 0xF0; 0xF0; 0xF0] [byte]).
  change (feed _ kbd_init [_; _; _; _]) with
    (Some ({| state := EXTENDED1; bytesRead := 4; onError := false; onRelease := true |}, @nil BasicKeyPacket)).
  cbn -[RELEASE]. destruct (Z.eqb_spec byte RELEASE); cbn; naive_solver.
Qed.
