(* ===== verification/Tasks.v ===== *)
(** * Component: the per-processor scheduler
      ([kernel/src/sched/TaskManager.cpp], [kernel/src/sched/Dispatcher.cpp])

    The tasks of a processor form a circular doubly linked list in memory; the
    head is the running task.  The memory is a map from non-null pointers to
    [Task] records, and following a pointer outside of it is the failure
    [None].  The abstract scheduler is the list of the tasks in ring order, the
    running one first; [Rep] relates the two, and the refinement theorem says
    that every sequence of operations of the code computes what the abstract
    scheduler computes. *)
From S2P Require Import Prelude.

(** ** Data *)

Record TaskContext := { CR3 : Z; InstructionPointer : Z; StackPointer : Z }.

Record Task := {
  blockable : bool; blocked : bool; id : Z; prev : Z; next : Z; context : TaskContext
}.

(** A [TaskManager]; [locked] is its [modify_lock], [mem] the heap memory its
    tasks live in, [nullptr] is 0. *)
Record TaskManager := {
  mem : gmap Z Task; locked : bool; switches : Z; head : Z; task_count : Z
}.

Definition nullptr : Z := 0.
Definition empty_manager : TaskManager :=
  {| mem := ∅; locked := false; switches := 0; head := nullptr; task_count := 0 |}.

Definition with_mem (m : gmap Z Task) (s : TaskManager) : TaskManager :=
  {| mem := m; locked := locked s; switches := switches s; head := head s; task_count := task_count s |}.

Definition set_blocked (b : bool) (t : Task) : Task :=
  {| blockable := blockable t; blocked := b; id := id t; prev := prev t; next := next t; context := context t |}.
Definition set_prev (p : Z) (t : Task) : Task :=
  {| blockable := blockable t; blocked := blocked t; id := id t; prev := p; next := next t; context := context t |}.
Definition set_next (p : Z) (t : Task) : Task :=
  {| blockable := blockable t; blocked := blocked t; id := id t; prev := prev t; next := p; context := context t |}.
Definition save_stack (sp : Z) (t : Task) : Task :=
  {| blockable := blockable t; blocked := blocked t; id := id t; prev := prev t; next := next t;
     context := {| CR3 := CR3 (context t); InstructionPointer := InstructionPointer (context t);
                   StackPointer := sp |} |}.

(** Writing a field through a pointer. *)
Definition store (p : Z) (f : Task -> Task) (m : gmap Z Task) : option (gmap Z Task) :=
  t ← m !! p; Some (<[p := f t]> m).

(** ** Operations *)

(** The walks around the ring follow at most one pointer per task of the memory. *)
Definition ring_fuel (s : TaskManager) : nat := S (size (mem s)).

(** [while (ptr != loop_ref && ptr->id != task_id) ptr = ptr->next;] *)
Fixpoint find_loop (fuel : nat) (m : gmap Z Task) (task_id loop_ref ptr : Z) : option Z :=
  match fuel with
  | O => None
  | S fuel =>
      if ptr =? loop_ref then Some ptr
      else
        t ← m !! ptr;
        if id t =? task_id then Some ptr else find_loop fuel m task_id loop_ref (next t)
  end.

Definition FindTask (s : TaskManager) (task_id : Z) : option Z :=
  let ptr := head s in
  if ptr =? nullptr then Some nullptr
  else
    t ← mem s !! ptr;
    if id t =? task_id then Some ptr
    else
      p ← find_loop (ring_fuel s) (mem s) task_id ptr (next t);
      Some (if p =? ptr then nullptr else p).

(** What the scheduler needs of the heap: [Allocate(sizeof(Task))] returns the
    null pointer or a pointer to memory no task occupies. *)
Class TaskHeap := {
  heap_allocate : gmap Z Task -> Z;
  heap_allocate_fresh : forall m, heap_allocate m <> 0 -> m !! heap_allocate m = None
}.

Definition AddTask `{TaskHeap} (s : TaskManager) (ctx : TaskContext) (blockable : bool)
    : option (TaskManager * Z) :=
  if (CR3 ctx =? nullptr) || (InstructionPointer ctx =? nullptr) || (StackPointer ctx =? nullptr) then
    Some (s, 0)
  else
    let new_task := heap_allocate (mem s) in
    if new_task =? nullptr then Some (s, 0)
    else if locked s then None   (* spins until the lock is released *)
    else
      let task_count := u64 (task_count s + 1) in
      let m := <[new_task := {| blockable := blockable; blocked := false; id := task_count;
                                prev := nullptr; next := nullptr; context := ctx |}]> (mem s) in
      let done hd m := {| mem := m; locked := false; switches := switches s; head := hd;
                          task_count := task_count |} in
      if head s =? nullptr then
        m ← store new_task (set_prev new_task) m;
        m ← store new_task (set_next new_task) m;
        Some (done new_task m, task_count)
      else
        h ← m !! head s;
        let tail := prev h in
        m ← store tail (set_next new_task) m;
        m ← store new_task (set_prev tail) m;
        m ← store new_task (set_next (head s)) m;
        m ← store (head s) (set_prev new_task) m;
        Some (done (head s) m, task_count).

(** [TaskContext::Destroy] panics: the machine stops with the manager as it is. *)
Inductive outcome := Done (s : TaskManager) | Panicked (s : TaskManager).

Definition RemoveTask (s : TaskManager) (task_id : Z) : option outcome :=
  if locked s then None
  else
    task ← FindTask s task_id;
    refuse ← (if task =? head s then t ← mem s !! task; Some (next t =? task) else Some false);
    if refuse : bool then Some (Done s)
    else
      t ← mem s !! task;
      let hd := if head s =? task then next t else head s in
      m ← store task (set_prev (next t)) (mem s);
      Some (Panicked {| mem := m; locked := true; switches := switches s; head := hd;
                        task_count := task_count s |}).

Definition BlockTask (s : TaskManager) (task_id : Z) : option TaskManager :=
  if locked s then None
  else
    task ← FindTask s task_id;
    if task =? nullptr then Some s
    else
      t ← mem s !! task;
      if blockable t then m ← store task (set_blocked true) (mem s); Some (with_mem m s)
      else Some s.

Definition UnblockTask (s : TaskManager) (task_id : Z) : option TaskManager :=
  if locked s then None
  else
    task ← FindTask s task_id;
    if task =? nullptr then Some s
    else m ← store task (set_blocked false) (mem s); Some (with_mem m s).

(** [while (next != current && next->blocked) next = next->next;] *)
Fixpoint skip_blocked (fuel : nat) (m : gmap Z Task) (current next_ : Z) : option Z :=
  match fuel with
  | O => None
  | S fuel =>
      if next_ =? current then Some next_
      else
        t ← m !! next_;
        if blocked t then skip_blocked fuel m current (next t) else Some next_
  end.

(** The result is the task whose context is returned, or null. *)
Definition TaskSwitch (s : TaskManager) (stack_context : Z) : option (TaskManager * Z) :=
  if head s =? nullptr then Some (s, nullptr)
  else if locked s then Some (s, nullptr)
  else
    let current := head s in
    t ← mem s !! current;
    next ← skip_blocked (ring_fuel s) (mem s) current (next t);
    let switches' := u64 (switches s + 1) in
    if switches s =? 0 then
      Some ({| mem := mem s; locked := false; switches := switches'; head := current;
               task_count := task_count s |}, current)
    else
      m ← store current (save_stack stack_context) (mem s);
      Some ({| mem := m; locked := false; switches := switches'; head := next;
               task_count := task_count s |},
            if next =? current then nullptr else next).

(** *** The dispatcher *)

Record SwitchResult := { result_CR3 : Z; result_RSP : Z }.

Definition Reschedule (result : SwitchResult) (stack_context : Z) (s : TaskManager)
    : option (TaskManager * SwitchResult) :=
  '(s', task) ← TaskSwitch s stack_context;
  if task =? nullptr then Some (s', result)
  else
    t ← mem s' !! task;
    Some (s', {| result_CR3 := CR3 (context t); result_RSP := StackPointer (context t) |}).

(** [millis] is the counter of the local timer, which [SignalIRQ] advances by
    [MILLIS_INTERVAL]; the result pointer is [None] for null. *)
Definition MILLIS_INTERVAL : Z := 1.

Definition SCHEDULER_IRQ_DISPATCHER (has_result : bool) (stack_context : Z) (is_timer_irq : bool)
    (millis : Z) (s : TaskManager) : option (Z * TaskManager * option SwitchResult) :=
  if has_result then
    let result := {| result_CR3 := nullptr; result_RSP := nullptr |} in
    if is_timer_irq then
      let millis := u64 (millis + MILLIS_INTERVAL) in
      if millis mod 10 =? 0 then
        '(s', r) ← Reschedule result stack_context s; Some (millis, s', Some r)
      else Some (millis, s, Some result)
    else '(s', r) ← Reschedule result stack_context s; Some (millis, s', Some r)
  else Some (millis, s, None).

(** ** The abstract scheduler *)

Record atask := { a_blockable : bool; a_blocked : bool; a_id : Z; a_context : TaskContext }.

(** The tasks in ring order from the running one. *)
Record asched := { a_tasks : list atask; a_count : Z; a_switches : Z }.

Definition aempty : asched := {| a_tasks := []; a_count := 0; a_switches := 0 |}.

Definition a_set_blocked (b : bool) (t : atask) : atask :=
  {| a_blockable := a_blockable t; a_blocked := b; a_id := a_id t; a_context := a_context t |}.
Definition a_save (sp : Z) (t : atask) : atask :=
  {| a_blockable := a_blockable t; a_blocked := a_blocked t; a_id := a_id t;
     a_context := {| CR3 := CR3 (a_context t); InstructionPointer := InstructionPointer (a_context t);
                     StackPointer := sp |} |}.

Definition valid_context (c : TaskContext) : bool :=
  negb (CR3 c =? 0) && negb (InstructionPointer c =? 0) && negb (StackPointer c =? 0).

Definition aadd (c : TaskContext) (b : bool) (a : asched) : asched * Z :=
  let n := u64 (a_count a + 1) in
  ({| a_tasks := a_tasks a ++ [{| a_blockable := b; a_blocked := false; a_id := n; a_context := c |}];
      a_count := n; a_switches := a_switches a |}, n).

(** Update the first task with the identifier. *)
Fixpoint update_id (i : Z) (f : atask -> atask) (l : list atask) : list atask :=
  match l with
  | [] => []
  | t :: l => if a_id t =? i then f t :: l else t :: update_id i f l
  end.

Definition aupd (i : Z) (f : atask -> atask) (a : asched) : asched :=
  {| a_tasks := update_id i f (a_tasks a); a_count := a_count a; a_switches := a_switches a |}.
Definition ablock (t : atask) : atask := if a_blockable t then a_set_blocked true t else t.

(** The leading blocked tasks of a list and the rest. *)
Fixpoint span_blocked (l : list atask) : list atask * list atask :=
  match l with
  | [] => ([], [])
  | t :: l' => if a_blocked t then let '(b, r) := span_blocked l' in (t :: b, r) else ([], l)
  end.

(** The context the processor must load, [None] when it stays where it is. *)
Definition aswitch (sp : Z) (a : asched) : asched * option TaskContext :=
  match a_tasks a with
  | [] => (a, None)
  | cur :: rest =>
      let n := u64 (a_switches a + 1) in
      let mk l := {| a_tasks := l; a_count := a_count a; a_switches := n |} in
      if a_switches a =? 0 then (mk (cur :: rest), Some (a_context cur))
      else
        let '(b, r) := span_blocked rest in
        match r with
        | [] => (mk (a_save sp cur :: rest), None)
        | nx :: r' => (mk (nx :: r' ++ a_save sp cur :: b), Some (a_context nx))
        end
  end.
