(* ===== verification/TasksRing.v ===== *)
(** * The ring of tasks in memory

    The representation predicate between the linked tasks and the abstract
    scheduler, and what each walk and update of the list does to it. *)
From S2P Require Import Prelude Tasks.

(** The memory record of an abstract task. *)
Definition task_of (a : atask) (prv nxt : Z) : Task :=
  {| blockable := a_blockable a; blocked := a_blocked a; id := a_id a; prev := prv; next := nxt;
     context := a_context a |}.

Definition first (l : list (Z * atask)) (d : Z) : Z := match l with [] => d | (p, _) :: _ => p end.
Fixpoint lastp (l : list (Z * atask)) (d : Z) : Z := match l with [] => d | (p, _) :: l => lastp l p end.

(** A doubly linked segment from [prv] to [nxt]. *)
Fixpoint dseg (m : gmap Z Task) (l : list (Z * atask)) (prv nxt : Z) : Prop :=
  match l with
  | [] => True
  | (p, a) :: l' => m !! p = Some (task_of a prv (first l' nxt)) /\ dseg m l' p nxt
  end.

Definition ring (m : gmap Z Task) (l : list (Z * atask)) : Prop := dseg m l (lastp l 0) (first l 0).

Record Rep_with (s : TaskManager) (a : asched) (l : list (Z * atask)) : Prop := {
  rep_nodup : NoDup l.*1;
  rep_nonnull : 0 ∉ l.*1;
  rep_tasks : l.*2 = a_tasks a;
  rep_ring : ring (mem s) l;
  rep_head : head s = first l 0;
  rep_lock : locked s = false;
  rep_count : task_count s = a_count a;
  rep_switches : switches s = a_switches a
}.
Definition Rep (s : TaskManager) (a : asched) : Prop := exists l, Rep_with s a l.

(** ** Segments *)

Lemma first_app l1 l2 d : first (l1 ++ l2) d = first l1 (first l2 d).
Proof. by destruct l1 as [|[]]. Qed.
Lemma lastp_app l1 l2 d : lastp (l1 ++ l2) d = lastp l2 (lastp l1 d).
Proof. revert d; induction l1 as [|[] l1 IH]; intros d; [done|apply IH]. Qed.
Lemma lastp_cons_snoc l p a d : lastp (l ++ [(p, a)]) d = p.
Proof. by rewrite lastp_app. Qed.

Lemma dseg_app m l1 l2 prv nxt :
  dseg m (l1 ++ l2) prv nxt <-> dseg m l1 prv (first l2 nxt) /\ dseg m l2 (lastp l1 prv) nxt.
Proof.
  revert prv; induction l1 as [|[p a] l1 IH]; intros prv; cbn; [tauto|].
  rewrite IH, first_app. tauto.
Qed.

Lemma dseg_insert_ne m l prv nxt q t : q ∉ l.*1 -> dseg m l prv nxt -> dseg (<[q := t]> m) l prv nxt.
Proof.
  revert prv; induction l as [|[p a] l IH]; intros prv; [done|]. cbn.
  intros [? ?]%not_elem_of_cons [Hp Hl]. rewrite lookup_insert_ne by done. auto.
Qed.

Lemma dseg_dom m l prv nxt p : dseg m l prv nxt -> p ∈ l.*1 -> p ∈ dom m.
Proof.
  revert prv; induction l as [|[q a] l IH]; intros prv; cbn; [by intros _ ?%elem_of_nil|].
  intros [Hq Hl] [->|Hp]%elem_of_cons; [by apply elem_of_dom|eauto].
Qed.

Lemma dseg_length m l prv nxt : NoDup l.*1 -> dseg m l prv nxt -> (length l <= size m)%nat.
Proof.
  intros Hn Hd. rewrite <- size_dom, <- (length_fmap fst), <- (size_list_to_set (C := gset Z)) by done.
  apply subseteq_size. intros p Hp%elem_of_list_to_set. eapply dseg_dom; eauto.
Qed.

(** ** Rings *)

Lemma ring_rotate m l1 l2 : ring m (l1 ++ l2) -> ring m (l2 ++ l1).
Proof.
  unfold ring. destruct l1 as [|[p a] l1]; [by rewrite app_nil_r|].
  destruct l2 as [|[q b] l2]; [by rewrite app_nil_r|].
  rewrite !dseg_app, !lastp_app, !first_app. cbn [first lastp]. tauto.
Qed.

(** Changing a task in place, keeping its links. *)
Lemma ring_update m l1 p a l2 :
  NoDup (l1 ++ (p, a) :: l2).*1 -> ring m (l1 ++ (p, a) :: l2) ->
  exists prv nxt, m !! p = Some (task_of a prv nxt) /\
    forall a', ring (<[p := task_of a' prv nxt]> m) (l1 ++ (p, a') :: l2).
Proof.
  unfold ring. rewrite fmap_app. cbn. intros (_ & Hn1 & [Hn2 _]%NoDup_cons)%NoDup_app.
  assert (p ∉ l1.*1) by (intros Hp; apply (Hn1 p Hp); constructor).
  assert (E : forall b, first (l1 ++ (p, b) :: l2) 0 = first l1 p) by (intros; by rewrite first_app).
  assert (F : forall b, lastp (l1 ++ (p, b) :: l2) 0 = lastp l2 p) by (intros; by rewrite lastp_app).
  rewrite E, F, dseg_app. cbn. intros (H1 & Hp & H2). eexists _, _; split; [exact Hp|].
  intros a'. rewrite E, F, dseg_app. cbn.
  rewrite lookup_insert_eq. split; [|split]; [by apply dseg_insert_ne|done|by apply dseg_insert_ne].
Qed.

Lemma store_at p f m t : m !! p = Some t -> store p f m = Some (<[p := f t]> m).
Proof. intros H. unfold store. by rewrite H. Qed.

(** Linking a new task in before the head. *)
Lemma ring_snoc m h a l n b :
  NoDup (h :: l.*1) -> n ∉ h :: l.*1 -> ring m ((h, a) :: l) ->
  exists t m1 m2 m3 m4,
    <[n := task_of b 0 0]> m !! h = Some t /\
    store (prev t) (set_next n) (<[n := task_of b 0 0]> m) = Some m1 /\
    store n (set_prev (prev t)) m1 = Some m2 /\ store n (set_next h) m2 = Some m3 /\
    store h (set_prev n) m3 = Some m4 /\ ring m4 ((h, a) :: l ++ [(n, b)]).
Proof.
  unfold ring. cbn. intros [Hh Hl]%NoDup_cons [Hnh Hnl]%not_elem_of_cons [Hm Hs].
  rewrite lookup_insert_ne by done. rewrite lastp_cons_snoc, first_app. cbn.
  destruct l as [|[q c] l' _] using rev_ind.
  - cbn in Hm. eexists _, _, _, _, _. split; [exact Hm|].
    split; [apply store_at; rewrite lookup_insert_ne by done; exact Hm|].
    split; [apply store_at; rewrite lookup_insert_ne, lookup_insert_eq by done; reflexivity|].
    split; [apply store_at, lookup_insert_eq|].
    split; [apply store_at; rewrite 2!lookup_insert_ne, lookup_insert_eq by done; reflexivity|].
    cbn [app dseg lastp first fst]. rewrite lookup_insert_eq, lookup_insert_ne, lookup_insert_eq by congruence. auto.
  - rewrite fmap_app in Hh, Hl, Hnl. cbn [fmap list_fmap fst] in Hh, Hl, Hnl.
    apply not_elem_of_app in Hh as [Hh1 [Hhq _]%not_elem_of_cons].
    apply not_elem_of_app in Hnl as [Hn1 [Hnq _]%not_elem_of_cons].
    apply NoDup_app in Hl as (_ & Hq & _). assert (q ∉ l'.*1) by (intros Hx; apply (Hq q Hx); constructor).
    rewrite lastp_cons_snoc in Hm. rewrite dseg_app in Hs. destruct Hs as (Hs1 & Hsq & _). cbn [first] in Hs1, Hsq.
    eexists _, _, _, _, _. split; [exact Hm|].
    split; [apply store_at; rewrite lookup_insert_ne by done; exact Hsq|].
    split; [apply store_at; rewrite lookup_insert_ne, lookup_insert_eq by done; reflexivity|].
    split; [apply store_at, lookup_insert_eq|].
    split; [apply store_at; rewrite 4!lookup_insert_ne by done; exact Hm|].
    rewrite lookup_insert_eq. split; [rewrite !first_app; reflexivity|].
    change (prev (task_of a q _)) with q.
    rewrite !dseg_app, lastp_app. cbn [dseg first lastp]. split; [split; [|split; [|done]]|split; [|done]].
    + repeat (apply dseg_insert_ne; [done|]). exact Hs1.
    + rewrite 3!lookup_insert_ne, lookup_insert_eq by done. done.
    + by rewrite lookup_insert_ne, lookup_insert_eq by done.
Qed.

(** ** Walks *)

(** The pointer a search for [i] ends on: the first task with the identifier,
    or [d]. *)
Fixpoint find_ptr (i : Z) (l : list (Z * atask)) (d : Z) : Z :=
  match l with
  | [] => d
  | (p, a) :: l => if a_id a =? i then p else find_ptr i l d
  end.

Lemma find_loop_dseg m i l h prv fuel :
  dseg m l prv h -> h ∉ l.*1 -> (length l < fuel)%nat ->
  find_loop fuel m i h (first l h) = Some (find_ptr i l h).
Proof.
  revert prv fuel; induction l as [|[p a] l IH]; intros prv [|fuel] Hd Hh Hf; cbn in *; try lia.
  - by rewrite Z.eqb_refl.
  - apply not_elem_of_cons in Hh as [Hp Hh]. destruct Hd as [Hm Hd].
    rewrite (proj2 (Z.eqb_neq p h)) by done. rewrite Hm. cbn.
    destruct (a_id a =? i); [done|]. apply (IH p); [done|done|lia].
Qed.

Lemma find_ptr_in i l d : find_ptr i l d = d \/ find_ptr i l d ∈ l.*1.
Proof.
  induction l as [|[p a] l IH]; cbn; [by left|]. destruct (a_id a =? i); [right; constructor|].
  destruct IH; [by left|right; by constructor].
Qed.

Lemma find_ptr_default i l d d' : find_ptr i l d ∈ l.*1 -> d ∉ l.*1 -> find_ptr i l d' = find_ptr i l d.
Proof.
  induction l as [|[p a] l IH]; cbn; [by intros ?%elem_of_nil|].
  destruct (a_id a =? i); [done|]. intros Hp [Hd Hl]%not_elem_of_cons.
  apply elem_of_cons in Hp as [Hp|Hp]; [|auto].
  destruct (find_ptr_in i l d) as [E|E]; [congruence|]. auto.
Qed.

Lemma find_ptr_missing i l d d' : find_ptr i l d ∉ l.*1 -> find_ptr i l d' = d'.
Proof.
  induction l as [|[p a] l IH]; cbn; [done|]. rewrite not_elem_of_cons.
  destruct (a_id a =? i); [intros [? _]; done|intros [_ ?]; auto].
Qed.

(** Either no task has the identifier or the first one that has splits the list. *)
Lemma find_ptr_split i (f : atask -> atask) l d :
  d ∉ l.*1 ->
  (find_ptr i l d = d /\ update_id i f l.*2 = l.*2) \/
  (exists l1 p a l2, l = l1 ++ (p, a) :: l2 /\ find_ptr i l d = p /\ a_id a = i /\
     update_id i f l.*2 = l1.*2 ++ f a :: l2.*2).
Proof.
  induction l as [|[p a] l IH]; intros Hd; [by left|]. cbn.
  destruct (Z.eqb_spec (a_id a) i).
  - right. by exists [], p, a, l.
  - apply not_elem_of_cons in Hd as [_ Hd]. destruct (IH Hd) as [[-> ->]|(l1 & q & c & l2 & -> & -> & ? & ->)].
    + by left.
    + right. by exists ((p, a) :: l1), q, c, l2.
Qed.

Lemma span_blocked_all l b q : span_blocked l = (b, q) -> Forall (fun t => a_blocked t = true) b.
Proof.
  revert b q; induction l as [|t l IH]; intros b q; cbn; [by intros [= <- <-]|].
  destruct (a_blocked t) eqn:E; [|by intros [= <- <-]].
  destruct (span_blocked l) as [b' q']. intros [= <- <-]. constructor; eauto.
Qed.

Section Represented.
Context (s : TaskManager) (a : asched) (l : list (Z * atask)) (R : Rep_with s a l).

Lemma rep_fuel : (length l < ring_fuel s)%nat.
Proof. pose proof (dseg_length _ _ _ _ (rep_nodup _ _ _ R) (rep_ring _ _ _ R)). unfold ring_fuel. lia. Qed.

Lemma FindTask_rep i : FindTask s i = Some (find_ptr i l 0).
Proof.
  pose proof rep_fuel as Hf. destruct R as [Hn H0 _ Hr Hh _ _ _]. unfold FindTask. rewrite Hh.
  destruct l as [|[p t] r]; [done|]. cbn [first fmap list_fmap fst find_ptr] in *.
  apply not_elem_of_cons in H0 as [Hp H0]. apply NoDup_cons in Hn as [Hpr Hn].
  rewrite (proj2 (Z.eqb_neq p nullptr)) by (unfold nullptr; congruence).
  destruct Hr as [Hm Hd]. cbn [first] in Hm, Hd. rewrite Hm. cbn -[find_loop].
  destruct (a_id t =? i); [done|].
  rewrite (find_loop_dseg _ _ r p p) by (done || cbn in Hf; lia). cbn.
  destruct (find_ptr_in i r p) as [E|E].
  - rewrite E, Z.eqb_refl, (find_ptr_missing i r p); [done|]. by rewrite E.
  - rewrite (proj2 (Z.eqb_neq _ p)) by (intros Hx; by rewrite Hx in E).
    by rewrite (find_ptr_default i r p 0).
Qed.

(** Where the search of the next runnable task ends. *)
Lemma skip_blocked_dseg m r prv h fuel :
  dseg m r prv h -> h ∉ r.*1 -> (length r < fuel)%nat ->
  exists b q, r = b ++ q /\ skip_blocked fuel m h (first r h) = Some (first q h) /\
    span_blocked r.*2 = (b.*2, q.*2).
Proof.
  revert prv fuel; induction r as [|[p t] r IH]; intros prv [|fuel] Hd Hh Hf; cbn in *; try lia.
  - exists [], []. by rewrite Z.eqb_refl.
  - apply not_elem_of_cons in Hh as [Hp Hh]. destruct Hd as [Hm Hd].
    rewrite (proj2 (Z.eqb_neq p h)) by done. rewrite Hm. cbn. destruct (a_blocked t) eqn:Eb.
    + destruct (IH p fuel Hd Hh ltac:(lia)) as (b & q & -> & Hs & Hq). exists ((p, t) :: b), q.
      by rewrite Hq.
    + by exists [], ((p, t) :: r).
Qed.
End Represented.

(** ** Operations preserve the representation *)

Lemma Rep_with_update s a l1 p t l2 f :
  Rep_with s a (l1 ++ (p, t) :: l2) ->
  exists prv nxt, mem s !! p = Some (task_of t prv nxt) /\
    (a_id (f t) = a_id t -> update_id (a_id t) f (a_tasks a) = l1.*2 ++ f t :: l2.*2 ->
     Rep_with (with_mem (<[p := task_of (f t) prv nxt]> (mem s)) s) (aupd (a_id t) f a)
       (l1 ++ (p, f t) :: l2)).
Proof.
  intros [Hn H0 Ht Hr Hh Hl Hc Hs]. destruct (ring_update _ _ _ _ _ Hn Hr) as (prv & nxt & Hm & Hr').
  exists prv, nxt. split; [done|]. intros _ Hu. rewrite fmap_app in Hn, H0.
  constructor; cbn; rewrite ?fmap_app; try done.
  by rewrite Hh, !first_app.
Qed.
