(* ===== verification/TasksProps.v ===== *)
(** * Theorems on the scheduler

    The task manager refines the abstract scheduler; every runnable task gets
    the processor within one turn of the ring; the dispatcher grants slices of
    ten timer ticks; what removing a task does. *)
From S2P Require Import Prelude Tasks TasksRing.

(** ** Each operation refines its abstract counterpart *)

Lemma AddTask_refines `{TaskHeap} s a c b :
  Rep s a ->
  exists s' i, AddTask s c b = Some (s', i) /\
    if valid_context c && negb (heap_allocate (mem s) =? 0)
    then i = (aadd c b a).2 /\ Rep s' (aadd c b a).1 else i = 0 /\ s' = s.
Proof.
  intros [l R]. unfold AddTask.
  replace (_ || _) with (negb (valid_context c)) by (unfold valid_context, nullptr; btauto).
  destruct (valid_context c); cbn [negb andb]; [|eauto].
  pose proof (heap_allocate_fresh (mem s)) as Hfresh. cbv zeta. set (n := heap_allocate (mem s)) in *.
  change (n =? nullptr) with (n =? 0). destruct (Z.eqb_spec n 0) as [E|Hn]; cbn [negb]; [eauto|]. specialize (Hfresh Hn).
  destruct R as [Hnd H0 Ht Hr Hh Hl Hc Hs]. rewrite Hl.
  set (t := {| a_blockable := b; a_blocked := false; a_id := u64 (a_count a + 1); a_context := c |}).
  rewrite Hc. change {| blockable := _; blocked := _; id := _; prev := _; next := _; context := _ |}
    with (task_of t 0 0).
  assert (Hnl : n ∉ l.*1).
  { intros Hin. pose proof (dseg_dom _ _ _ _ _ Hr Hin) as [? ?]%elem_of_dom. congruence. }
  destruct l as [|[h x] r]; cbn [first] in Hh; rewrite Hh.
  - cbn -[store wrap]. rewrite (store_at _ _ _ _ (lookup_insert_eq _ _ _)). cbn -[store wrap].
    rewrite (store_at _ _ _ _ (lookup_insert_eq _ _ _)). cbn -[wrap].
    eexists _, _; split; [reflexivity|]. split; [done|].
    exists [(n, t)]. constructor; cbn; try done.
    + apply NoDup_singleton.
    + intros ?%list_elem_of_singleton. done.
    + by rewrite <- Ht.
    + split; [|done]. by rewrite lookup_insert_eq.
  - cbn [fmap list_fmap fst] in *. apply not_elem_of_cons in H0 as Hh0. destruct Hh0 as [Hh0 _].
    rewrite (proj2 (Z.eqb_neq h nullptr)) by (unfold nullptr; congruence).
    destruct (ring_snoc (mem s) h x r n t Hnd Hnl Hr) as (th & m1 & m2 & m3 & m4 & E0 & E1 & E2 & E3 & E4 & Hr').
    rewrite E0. cbn -[store wrap]. rewrite E1. cbn -[store wrap]. rewrite E2. cbn -[store wrap].
    rewrite E3. cbn -[store wrap]. rewrite E4. cbn -[wrap].
    eexists _, _; split; [reflexivity|]. split; [done|].
    exists (((h, x) :: r) ++ [(n, t)]). constructor; cbn -[wrap]; rewrite ?fmap_app; try done.
    + cbn. rewrite app_comm_cons. apply NoDup_app. split; [done|]. split; [|apply NoDup_singleton].
      intros y Hy ?%list_elem_of_singleton. congruence.
    + cbn. rewrite app_comm_cons, not_elem_of_app. split; [done|].
      intros ?%list_elem_of_singleton. by apply Hn.
    + cbn. by rewrite <- Ht.
Qed.

(** The common part of [BlockTask] and [UnblockTask]: find, then update. *)
Lemma find_update_refines s a i f :
  (forall x, a_id (f x) = a_id x) -> Rep s a ->
  (exists l, Rep_with s a l /\ FindTask s i = Some 0 /\ aupd i f a = a) \/
  (exists l1 p t l2 prv nxt, p <> 0 /\ Rep_with s a (l1 ++ (p, t) :: l2) /\ a_id t = i /\
     FindTask s i = Some p /\ mem s !! p = Some (task_of t prv nxt) /\
     update_id i f (a_tasks a) = l1.*2 ++ f t :: l2.*2 /\
     Rep (with_mem (<[p := task_of (f t) prv nxt]> (mem s)) s) (aupd i f a)).
Proof.
  intros Hf [l R]. pose proof (rep_nonnull _ _ _ R) as H0.
  pose proof (FindTask_rep s a l R i) as HF.
  destruct (find_ptr_split i f l 0 H0) as [[E Hu]|(l1 & p & t & l2 & -> & E & Hi & Hu)].
  - left. exists l. split; [done|]. split; [congruence|]. unfold aupd.
    rewrite <- (rep_tasks _ _ _ R), Hu, (rep_tasks _ _ _ R). by destruct a.
  - right. rewrite (rep_tasks _ _ _ R) in Hu.
    destruct (Rep_with_update s a l1 p t l2 f R) as (prv & nxt & Hm & Hr).
    exists l1, p, t, l2, prv, nxt. subst i. split; [|repeat (split; [done || congruence|])].
    + intros ->. apply H0. rewrite fmap_app. apply elem_of_app. right. constructor.
    + eexists. apply Hr; done.
Qed.

Lemma BlockTask_refines s a i :
  Rep s a -> exists s', BlockTask s i = Some s' /\ Rep s' (aupd i ablock a).
Proof.
  intros R. unfold BlockTask.
  destruct (find_update_refines s a i ablock) as
    [(l & Rl & HF & Ha)|(l1 & p & t & l2 & prv & nxt & Hp & Rl & Hi & HF & Hm & Hu & Hr)];
    [by intros [[] ? ? ?]|done| |]; rewrite (rep_lock _ _ _ Rl), HF; cbn -[store].
  - rewrite Ha. eauto.
  - rewrite (proj2 (Z.eqb_neq p nullptr)) by done. rewrite Hm. cbn -[store].
    unfold ablock in Hr at 1. destruct (a_blockable t) eqn:Eb.
    + rewrite (store_at _ _ _ _ Hm). cbn. eauto.
    + exists s. split; [done|]. revert Hr. unfold aupd. unfold ablock in Hu. rewrite Eb in Hu.
      rewrite insert_id by done. by destruct s.
Qed.

Lemma UnblockTask_refines s a i :
  Rep s a -> exists s', UnblockTask s i = Some s' /\ Rep s' (aupd i (a_set_blocked false) a).
Proof.
  intros R. unfold UnblockTask.
  destruct (find_update_refines s a i (a_set_blocked false)) as
    [(l & Rl & HF & Ha)|(l1 & p & t & l2 & prv & nxt & Hp & Rl & Hi & HF & Hm & Hu & Hr)];
    [done|done| |]; rewrite (rep_lock _ _ _ Rl), HF; cbn -[store].
  - rewrite Ha. eauto.
  - rewrite (proj2 (Z.eqb_neq p nullptr)) by done. rewrite (store_at _ _ _ _ Hm). cbn. eauto.
Qed.

Lemma TaskSwitch_with s a h x r sp :
  Rep_with s a ((h, x) :: r) -> switches s <> 0 ->
  exists b q s', r = b ++ q /\ span_blocked r.*2 = (b.*2, q.*2) /\
    TaskSwitch s sp = Some (s', if decide (q = []) then nullptr else first q h) /\
    Rep_with s' (aswitch sp a).1 (q ++ (h, a_save sp x) :: b).
Proof.
  intros R Hsw. pose proof (rep_fuel s a _ R) as Hf. destruct R as [Hn H0 Ht Hr Hh Hl Hc Hs].
  pose proof (ring_update (mem s) [] h x r Hn Hr) as (prv & nxt & Hm & Hr').
  destruct Hr as [Hm' Hd]. cbn [first fmap list_fmap fst snd app] in *.
  apply NoDup_cons in Hn as Hnr. destruct Hnr as [Hhr Hnr].
  apply not_elem_of_cons in H0 as H0r. destruct H0r as [H0h H0r].
  assert (nxt = first r h) as -> by (unfold task_of in Hm, Hm'; congruence).
  destruct (skip_blocked_dseg (mem s) r h h (ring_fuel s)) as (b & q & Hbq & Hsk & Hsp); [done|done|cbn in Hf; lia|].
  exists b, q. unfold TaskSwitch. rewrite Hh, Hl, (proj2 (Z.eqb_neq h nullptr)) by (unfold nullptr; congruence).
  rewrite Hm. cbn -[skip_blocked wrap store]. rewrite Hsk. cbn -[skip_blocked wrap store].
  rewrite (proj2 (Z.eqb_neq (switches s) 0)) by done. rewrite (store_at _ _ _ _ Hm). cbn -[wrap].
  eexists; split; [done|]. split; [done|].
  assert (Hfq : q <> [] -> first q h <> h).
  { intros Hq. destruct q as [|[y ty] q]; [done|]. cbn. intros ->. apply Hhr.
    rewrite Hbq, fmap_app. apply elem_of_app. right. constructor. }
  split.
  { f_equal. f_equal. destruct (decide (q = [])) as [->|Hq]; cbn.
    - by rewrite Z.eqb_refl.
    - by rewrite (proj2 (Z.eqb_neq _ h)) by auto. }
  specialize (Hr' (a_save sp x)). subst r. rewrite app_comm_cons in Hr'. apply ring_rotate in Hr'.
  assert (P : (q ++ (h, a_save sp x) :: b).*1 ≡ₚ ((h, x) :: b ++ q).*1).
  { cbn. rewrite !fmap_app. cbn. solve_Permutation. }
  constructor; cbn -[wrap].
  - by rewrite P.
  - by rewrite P.
  - unfold aswitch. rewrite <- Ht, <- Hs, (proj2 (Z.eqb_neq (switches s) 0)) by done.
    rewrite Hsp, fmap_app. destruct q as [|[y ty] q]; cbn; [by rewrite app_nil_r|done].
  - exact Hr'.
  - by destruct q as [|[]].
  - done.
  - unfold aswitch. rewrite <- Ht. destruct (_ =? 0), (span_blocked _) as [? []]; done.
  - unfold aswitch. rewrite <- Ht, Hs. destruct (_ =? 0), (span_blocked _) as [? []]; done.
Qed.

(** The context a returned task pointer gives access to. *)
Definition loaded (s : TaskManager) (task : Z) : option (option TaskContext) :=
  if task =? nullptr then Some None else t ← mem s !! task; Some (Some (context t)).

Lemma TaskSwitch_refines s a sp :
  Rep s a ->
  exists s' task, TaskSwitch s sp = Some (s', task) /\ Rep s' (aswitch sp a).1 /\
    loaded s' task = Some (aswitch sp a).2.
Proof.
  intros [[|[h x] r] R].
  - exists s, nullptr. unfold TaskSwitch, aswitch.
    rewrite (rep_head _ _ _ R), <- (rep_tasks _ _ _ R). cbn. split; [done|]. split; [by exists []|done].
  - pose proof (rep_nonnull _ _ _ R) as H0. cbn in H0. apply not_elem_of_cons in H0 as H0'. destruct H0' as [Hh0 H0r].
    destruct (decide (switches s = 0)) as [Hz|Hz].
    + pose proof (rep_fuel s a _ R) as Hf. destruct R as [Hn _ Ht Hr Hh Hl Hc Hs].
      unfold TaskSwitch, aswitch. rewrite <- Ht, <- Hs, Hz, Hh, Hl. cbn [first fmap list_fmap snd Z.eqb].
      rewrite (proj2 (Z.eqb_neq h nullptr)) by (unfold nullptr; congruence).
      apply NoDup_cons in Hn as Hnr. destruct Hnr as [Hhr _]. pose proof Hr as [Hm Hd]. cbn [first] in Hm, Hd.
      rewrite Hm. cbn -[skip_blocked wrap].
      destruct (skip_blocked_dseg (mem s) r h h (ring_fuel s)) as (b & q & _ & -> & _); [done|done|cbn in Hf; lia|].
      cbn -[wrap]. eexists _, _; split; [reflexivity|]. split.
      * exists ((h, x) :: r). constructor; try done.
      * unfold loaded. rewrite (proj2 (Z.eqb_neq h nullptr)) by (unfold nullptr; congruence). cbn. by rewrite Hm.
    + destruct (TaskSwitch_with s a h x r sp R Hz) as (b & q & s' & -> & Hsp & Hsw & R').
      eexists _, _; split; [exact Hsw|]. split; [by eexists|].
      destruct R as [_ _ Ht _ _ _ _ Hs]. cbn [fmap list_fmap snd] in Ht.
      unfold aswitch. rewrite <- Ht, <- Hs, (proj2 (Z.eqb_neq (switches s) 0)), Hsp by done.
      destruct q as [|[y ty] q]; [done|]. destruct (decide _) as [E|_]; [done|]. cbn. unfold loaded.
      assert (y <> 0). { intros ->. apply H0r. rewrite fmap_app. apply elem_of_app. right. constructor. }
      rewrite (proj2 (Z.eqb_neq y nullptr)) by (unfold nullptr; congruence).
      destruct (rep_ring _ _ _ R') as [Hy _]. by rewrite Hy.
Qed.

(** ** Traces *)

Inductive op := OAdd (c : TaskContext) (b : bool) | OBlock (i : Z) | OUnblock (i : Z) | OSwitch (sp : Z).
Inductive reply := RId (i : Z) | RUnit | RSwitch (c : option TaskContext).

Section Traces.
Context `{TaskHeap}.

Definition step (s : TaskManager) (o : op) : option (TaskManager * reply) :=
  match o with
  | OAdd c b => '(s', i) ← AddTask s c b; Some (s', RId i)
  | OBlock i => s' ← BlockTask s i; Some (s', RUnit)
  | OUnblock i => s' ← UnblockTask s i; Some (s', RUnit)
  | OSwitch sp => '(s', p) ← TaskSwitch s sp; c ← loaded s' p; Some (s', RSwitch c)
  end.

Fixpoint run (s : TaskManager) (os : list op) : option (TaskManager * list reply) :=
  match os with
  | [] => Some (s, [])
  | o :: os => '(s', r) ← step s o; '(s'', rs) ← run s' os; Some (s'', r :: rs)
  end.

(** The abstract step; [ok] tells whether the heap had memory for a task. *)
Definition astep (a : asched) (o : op) (ok : bool) : asched * reply :=
  match o with
  | OAdd c b => if valid_context c && ok then let '(a', i) := aadd c b a in (a', RId i) else (a, RId 0)
  | OBlock i => (aupd i ablock a, RUnit)
  | OUnblock i => (aupd i (a_set_blocked false) a, RUnit)
  | OSwitch sp => let '(a', c) := aswitch sp a in (a', RSwitch c)
  end.

Fixpoint arun (a : asched) (os : list (op * bool)) : asched * list reply :=
  match os with
  | [] => (a, [])
  | (o, ok) :: os => let '(a', r) := astep a o ok in let '(a'', rs) := arun a' os in (a'', r :: rs)
  end.

Lemma step_refines s a o :
  Rep s a ->
  exists s' r, step s o = Some (s', r) /\
    let ok := negb (heap_allocate (mem s) =? 0) in (astep a o ok).2 = r /\ Rep s' (astep a o ok).1.
Proof.
  intros R. destruct o as [c b|i|i|sp]; cbn -[AddTask BlockTask UnblockTask TaskSwitch aadd aswitch].
  - destruct (AddTask_refines s a c b R) as (s' & i & E & Hs). rewrite E. cbn -[aadd].
    eexists _, _; split; [reflexivity|]. destruct (_ && _), Hs as [-> Hs]; [by destruct (aadd c b a)|by subst].
  - destruct (BlockTask_refines s a i R) as (s' & -> & R'). cbn. eauto.
  - destruct (UnblockTask_refines s a i R) as (s' & -> & R'). cbn. eauto.
  - destruct (TaskSwitch_refines s a sp R) as (s' & p & -> & R' & Hc). cbn -[aswitch loaded].
    rewrite Hc. cbn -[aswitch]. eexists _, _; split; [reflexivity|]. by destruct (aswitch sp a).
Qed.
End Traces.

Section TraceRefinement.
Context `{TaskHeap}.

Lemma run_refines s a os :
  Rep s a ->
  exists oks s' rs, length oks = length os /\ run s os = Some (s', rs) /\
    (arun a (zip os oks)).2 = rs /\ Rep s' (arun a (zip os oks)).1 /\
    ((forall m, heap_allocate m <> 0) -> Forall (fun ok => ok = true) oks).
Proof.
  revert s a; induction os as [|o os IH]; intros s a R.
  { exists [], s, []. repeat split; [done|constructor]. }
  destruct (step_refines s a o R) as (s1 & r & E & Hr & R1). cbv zeta in *.
  set (ok := negb (heap_allocate (mem s) =? 0)) in *.
  destruct (IH s1 _ R1) as (oks & s2 & rs & Hlen & E2 & Hrs & R2 & Hall).
  exists (ok :: oks), s2, (r :: rs). cbn -[step astep]. rewrite E. cbn -[astep]. rewrite E2. cbn -[astep].
  destruct (astep a o ok) as [a1 r1]. cbn in *. subst r1.
  destruct (arun a1 (zip os oks)) as [a2 rs2]. cbn in *. subst rs2.
  repeat split; [lia|done|]. intros Hm. constructor; [|auto].
  subst ok. by rewrite (proj2 (Z.eqb_neq _ 0) (Hm (mem s))).
Qed.
End TraceRefinement.

Lemma Rep_empty : Rep empty_manager aempty.
Proof. exists []. constructor; try done; [apply NoDup_nil_2|apply not_elem_of_nil]. Qed.

(** A heap that always finds memory, to instantiate the interface. *)
#[export] Instance unbounded_heap : TaskHeap.
Proof.
  refine {| heap_allocate m := fresh (dom m ∪ {[0]}) |}.
  intros m _. apply not_elem_of_dom. intros Hm.
  apply (is_fresh (dom m ∪ {[0]})). set_solver.
Defined.

(** ** Fairness *)

Fixpoint switch_n (s : TaskManager) (sps : list Z) : option TaskManager :=
  match sps with
  | [] => Some s
  | sp :: sps => '(s', _) ← TaskSwitch s sp; switch_n s' sps
  end.

(** ** The dispatcher *)

(** A sequence of timer interrupts, each with the stack it interrupted. *)
Fixpoint ticks (millis : Z) (s : TaskManager) (sps : list Z)
    : option (Z * TaskManager * list SwitchResult) :=
  match sps with
  | [] => Some (millis, s, [])
  | sp :: sps =>
      '(millis', s', r) ← SCHEDULER_IRQ_DISPATCHER true sp true millis s;
      r ← r;
      '(millis'', s'', rs) ← ticks millis' s' sps;
      Some (millis'', s'', r :: rs)
  end.

Definition no_switch : SwitchResult := {| result_CR3 := 0; result_RSP := 0 |}.

Lemma ticks_idle n : forall millis s sps,
  length sps = n -> 0 <= millis -> millis mod 10 + Z.of_nat n < 10 -> millis + Z.of_nat n < 2 ^ 64 ->
  ticks millis s sps = Some (millis + Z.of_nat n, s, repeat no_switch n).
Proof.
  induction n as [|n IH]; intros millis s [|sp sps]; cbn [length]; try done; intros Hl Hm H10 H64.
  - cbn. by rewrite Z.add_0_r.
  - cbn [ticks]. unfold SCHEDULER_IRQ_DISPATCHER, MILLIS_INTERVAL. rewrite wrap_small by lia.
    assert (E : (millis + 1) mod 10 = millis mod 10 + 1) by (zdiv; lia).
    rewrite E, (proj2 (Z.eqb_neq (millis mod 10 + 1) 0)) by (zdiv; lia). cbn -[ticks].
    rewrite IH by lia. cbn. f_equal. f_equal. f_equal. lia.
Qed.

Lemma ticks_app millis s l1 l2 :
  ticks millis s (l1 ++ l2) =
    '(m1, s1, r1) ← ticks millis s l1; '(m2, s2, r2) ← ticks m1 s1 l2; Some (m2, s2, r1 ++ r2).
Proof.
  revert millis s; induction l1 as [|sp l1 IH]; intros millis s; cbn -[SCHEDULER_IRQ_DISPATCHER].
  - by destruct (ticks millis s l2) as [[[] ?]|].
  - destruct (SCHEDULER_IRQ_DISPATCHER _ _ _ _ _) as [[[m1 s1] [r|]]|]; cbn; try done.
    rewrite IH. destruct (ticks m1 s1 l1) as [[[m2 s2] rs]|]; cbn; [|done].
    by destruct (ticks m2 s2 l2) as [[[] ?]|].
Qed.

(** * Theorems *)

(** C8: From the empty manager, every sequence of additions, blockings,
    unblockings and switches runs without following a bad pointer or walking
    the ring forever, and replies exactly what the abstract scheduler replies:
    identifiers in order of addition, the contexts to load at each switch; an
    addition fails only for an invalid context or when the heap fails. *)
Theorem manager_refines `{TaskHeap} (os : list op) :
  exists oks s' rs, length oks = length os /\ run empty_manager os = Some (s', rs) /\
    (arun aempty (zip os oks)).2 = rs /\ Rep s' (arun aempty (zip os oks)).1 /\
    ((forall m, heap_allocate m <> 0) -> Forall (fun ok => ok = true) oks).
Proof. apply run_refines, Rep_empty. Qed.

Definition ctx1 : TaskContext := {| CR3 := 1; InstructionPointer := 2; StackPointer := 3 |}.

Lemma manager_refines_witness :
  exists s', run (H := unbounded_heap) empty_manager
    [OAdd ctx1 false; OAdd ctx1 true; OSwitch 7; OSwitch 8; OBlock 2; OSwitch 9] =
    Some (s', [RId 1; RId 2; RSwitch (Some ctx1); RSwitch (Some ctx1); RUnit;
               RSwitch (Some {| CR3 := 1; InstructionPointer := 2; StackPointer := 8 |})]).
Proof.
  destruct (manager_refines (H := unbounded_heap)
    [OAdd ctx1 false; OAdd ctx1 true; OSwitch 7; OSwitch 8; OBlock 2; OSwitch 9])
    as (oks & s' & rs & Hl & Hrun & Hrs & _ & Hall).
  exists s'. rewrite Hrun. f_equal. f_equal. rewrite <- Hrs.
  assert (Hoks : Forall (fun ok => ok = true) oks).
  { apply Hall. intros m E. cbn in E. apply (is_fresh (dom m ∪ {[0]})). rewrite E. set_solver. }
  destruct oks as [|b1 [|b2 [|b3 [|b4 [|b5 [|b6 [|]]]]]]]; try discriminate Hl.
  repeat (apply Forall_cons in Hoks as [-> Hoks]). reflexivity.
Defined.

(** C38: Round robin without starvation: a task that is not blocked and is [k]
    places after the running one runs after at most [k] switches, whatever the
    other tasks are. *)
Theorem round_robin (k : nat) : forall s a l p t sps,
  Rep_with s a l -> l !! k = Some (p, t) -> a_blocked t = false ->
  0 < switches s -> switches s + Z.of_nat k < 2 ^ 64 -> length sps = k ->
  exists j s', (j <= k)%nat /\ switch_n s (take j sps) = Some s' /\ head s' = p.
Proof.
  induction k as [k IH] using lt_wf_ind. intros s a l p t sps R Hk Ht Hs0 Hs64 Hsp.
  destruct l as [|[h x] r]; [by rewrite lookup_nil in Hk|].
  destruct k as [|k].
  { injection Hk as -> ->. exists 0%nat, s. cbn. split; [lia|]. split; [done|]. apply (rep_head _ _ _ R). }
  destruct sps as [|sp sps]; [done|]. cbn in Hsp. change (r !! k = Some (p, t)) in Hk.
  destruct (TaskSwitch_with s a h x r sp R ltac:(lia)) as (b & q & s1 & -> & Hspan & Hsw & R1).
  assert (Hb : (length b <= k)%nat).
  { destruct (decide (length b <= k)%nat); [done|exfalso].
    rewrite lookup_app_l in Hk by lia.
    assert (Hall : Forall (fun x => a_blocked x = true) b.*2) by exact (span_blocked_all _ _ _ Hspan).
    rewrite Forall_fmap, Forall_lookup in Hall. specialize (Hall _ _ Hk). cbn in Hall. congruence. }
  rewrite lookup_app_r in Hk by lia. pose proof (lookup_lt_Some _ _ _ Hk) as Hq.
  pose proof (rep_switches _ _ _ R1) as Hs1.
  assert (switches s1 = switches s + 1) as Hs1'.
  { rewrite Hs1. unfold aswitch. rewrite <- (rep_tasks _ _ _ R). cbn [fmap list_fmap snd].
    rewrite <- (rep_switches _ _ _ R), (proj2 (Z.eqb_neq (switches s) 0)) by lia.
    destruct (span_blocked _) as [? []]; cbn [a_switches fst]; rewrite wrap_small; lia. }
  destruct (IH (k - length b)%nat ltac:(lia) s1 _ _ p t (take (k - length b) sps) R1) as (j & s2 & Hj & Hrun & Hh);
    [|done|lia|lia|rewrite length_take; lia|].
  { rewrite lookup_app_l by lia. done. }
  exists (S j), s2. split; [lia|]. cbn -[TaskSwitch]. rewrite Hsw. cbn -[TaskSwitch].
  rewrite take_take, Nat.min_l in Hrun by lia. done.
Qed.

Definition two_tasks : TaskManager :=
  {| mem := list_to_map
       [(8, {| blockable := false; blocked := false; id := 1; prev := 16; next := 16; context := ctx1 |});
        (16, {| blockable := true; blocked := false; id := 2; prev := 8; next := 8; context := ctx1 |})];
     locked := false; switches := 1; head := 8; task_count := 2 |}.

Lemma round_robin_witness :
  exists j s', (j <= 1)%nat /\ switch_n two_tasks (take j [100]) = Some s' /\ head s' = 16.
Proof.
  set (t1 := {| a_blockable := false; a_blocked := false; a_id := 1; a_context := ctx1 |}).
  set (t2 := {| a_blockable := true; a_blocked := false; a_id := 2; a_context := ctx1 |}).
  apply (round_robin 1 two_tasks {| a_tasks := [t1; t2]; a_count := 2; a_switches := 1 |} [(8, t1); (16, t2)] 16 t2);
    try reflexivity.
  constructor; try reflexivity.
  - apply (bool_decide_unpack _). reflexivity.
  - apply (bool_decide_unpack _). reflexivity.
  - repeat split.
Defined.

(** Time slices: from a multiple of ten milliseconds, ten timer interrupts
    reschedule exactly once, at the tenth, with the stack of that interrupt;
    the nine others leave the processor and the task manager alone. *)
Theorem ten_ticks_one_switch (millis : Z) (s : TaskManager) (sps : list Z) (sp : Z) :
  millis mod 10 = 0 -> 0 <= millis -> millis + 10 < 2 ^ 64 -> length sps = 9%nat ->
  ticks millis s (sps ++ [sp]) =
    '(s', r) ← Reschedule no_switch sp s; Some (millis + 10, s', repeat no_switch 9 ++ [r]).
Proof.
  intros H0 Hm H64 Hl. rewrite ticks_app, (ticks_idle 9) by lia. cbn [mbind option_bind].
  cbn [ticks]. unfold SCHEDULER_IRQ_DISPATCHER, MILLIS_INTERVAL.
  rewrite wrap_small by lia. replace (millis + Z.of_nat 9 + 1) with (millis + 10) by lia.
  rewrite (proj2 (Z.eqb_eq ((millis + 10) mod 10) 0)) by (zdiv; lia).
  change {| result_CR3 := nullptr; result_RSP := nullptr |} with no_switch.
  destruct (Reschedule no_switch sp s) as [[s' r]|]; reflexivity.
Qed.

Lemma ten_ticks_one_switch_witness :
  ticks 20 two_tasks ([1; 2; 3; 4; 5; 6; 7; 8; 9] ++ [10]) =
    '(s', r) ← Reschedule no_switch 10 two_tasks; Some (30, s', repeat no_switch 9 ++ [r]).
Proof. apply (ten_ticks_one_switch 20 two_tasks [1; 2; 3; 4; 5; 6; 7; 8; 9] 10); (reflexivity || lia). Defined.

(** Removing a task never returns with the task removed: for the only task
    it does nothing, for an unknown identifier it follows the null pointer,
    and otherwise it stops the machine in the destruction of the context, with
    every task still linked: only the back link of the victim has changed. *)
Theorem RemoveTask_never_removes (s : TaskManager) (a : asched) (l : list (Z * atask)) (i : Z) :
  Rep_with s a l -> mem s !! 0 = None ->
  RemoveTask s i =
    let p := find_ptr i l 0 in
    if p =? 0 then None
    else if (length l =? 1)%nat then Some (Done s)
    else
      t ← mem s !! p;
      Some (Panicked {| mem := <[p := set_prev (next t) t]> (mem s); locked := true;
                        switches := switches s; task_count := task_count s;
                        head := if head s =? p then next t else head s |}).
Proof.
  intros R Hnull. cbv zeta. set (p := find_ptr i l 0). unfold RemoveTask. rewrite (rep_lock _ _ _ R), (FindTask_rep s a l R i). fold p. cbn [mbind option_bind].
  destruct R as [Hn H0 _ Hr Hh _ _ _]. rewrite Hh. destruct l as [|[h x] r].
  { subst p. cbn [find_ptr first Z.eqb]. by rewrite Hnull. }
  destruct Hr as [Hm _]. cbn [first fmap list_fmap fst] in *.
  apply not_elem_of_cons in H0 as [H0h H0]. apply NoDup_cons in Hn as [Hhr _].
  destruct (Z.eqb_spec p 0) as [E|Hp].
  { rewrite E, (proj2 (Z.eqb_neq 0 h)) by done. cbn. by rewrite Hnull. }
  pose proof (find_ptr_in i ((h, x) :: r) 0) as Hin. fold p in Hin. clearbody p.
  destruct (Z.eqb_spec p h) as [->|Hph].
  - rewrite Hm. cbn. destruct r as [|[y ty] r]; cbn.
    + by rewrite Z.eqb_refl.
    + rewrite (proj2 (Z.eqb_neq y h)) by (intros ->; apply Hhr; constructor). cbn.
      unfold store. by rewrite Hm, Z.eqb_refl.
  - cbn -[store]. destruct Hin as [E|Hin]; [done|].
    apply elem_of_cons in Hin as [?|Hin]; [done|]. destruct r as [|y r]; [by apply elem_of_nil in Hin|]. cbn -[store].
    destruct (mem s !! p) as [t|] eqn:Et; [|done]. cbn -[store].
    by rewrite (store_at _ _ _ _ Et), (proj2 (Z.eqb_neq h p)) by done.
Qed.

Lemma RemoveTask_never_removes_witness :
  RemoveTask two_tasks 3 = None /\
  exists s', RemoveTask two_tasks 2 = Some (Panicked s') /\ size (mem s') = 2%nat.
Proof.
  set (t1 := {| a_blockable := false; a_blocked := false; a_id := 1; a_context := ctx1 |}).
  set (t2 := {| a_blockable := true; a_blocked := false; a_id := 2; a_context := ctx1 |}).
  assert (R : Rep_with two_tasks {| a_tasks := [t1; t2]; a_count := 2; a_switches := 1 |} [(8, t1); (16, t2)]).
  { constructor; try reflexivity.
    - apply (bool_decide_unpack _). reflexivity.
    - apply (bool_decide_unpack _). reflexivity.
    - repeat split. }
  split.
  - rewrite (RemoveTask_never_removes _ _ _ 3 R eq_refl). reflexivity.
  - rewrite (RemoveTask_never_removes _ _ _ 2 R eq_refl). eexists. split; reflexivity.
Defined.
