(* ===== verification/HashMap.v ===== *)
(** * Component: hash map and FNV-1a
      ([kernel/include/ext/BasicHashMap.hpp], [kernel/include/ext/FNV1A.hpp])

    The bucket array with its chains of fixed-size aggregates, presence bit
    words included, and the iterator.  An aggregate is owned by one link of one
    chain, so a chain is a list; a pointer to a value is the triple (bucket,
    place in the chain, slot).  Whether the heap finds memory for a new
    aggregate is an argument of [insert]. *)
From S2P Require Import Prelude.

(** ** FNV-1a *)

Definition FNV_prime : Z := 0x01000193.
Definition FNV_offset_basis : Z := 0x811c9dc5.

(** One iteration of the loops: [hash ^= byte; hash *= FNV_prime]. *)
Definition fnv_step (hash byte : Z) : Z := u32 (Z.lxor hash byte * FNV_prime).

(** On the object representation of the key. *)
Definition FNV1A32 (raw : list Z) : Z := fold_left fnv_step raw FNV_offset_basis.

(** On a string: up to its terminator; [char] is signed, so a byte from 0x80
    is extended with ones. *)
Fixpoint fnv_chars (hash : Z) (x : list Z) : Z :=
  match x with
  | [] => hash
  | c :: x => if c =? 0 then hash else fnv_chars (u32 (Z.lxor hash (u32 (signed 8 c)) * FNV_prime)) x
  end.
Definition FNV1A32_string (x : list Z) : Z := fnv_chars FNV_offset_basis x.

(** Keys give the bytes of their object representation. *)
Class Key (K : Type) := { raw : K -> list Z; zero_key : K }.

#[export] Instance uint32_key : Key Z := {|
  raw x := [Z.land x 0xFF; Z.land (Z.shiftr x 8) 0xFF; Z.land (Z.shiftr x 16) 0xFF; Z.land (Z.shiftr x 24) 0xFF];
  zero_key := 0
|}.

Section BasicHashMap.
Context {K V : Type} `{EqDecision K} `{Key K} `{Inhabited V}.
Context (capacity aggregate_ratio : nat).

(** ** Aggregates *)

Record Aggregate := { values : list V; keys : list K; presence : list Z }.

Definition presence_words : nat := (aggregate_ratio + 31) / 32.

Definition new_aggregate : Aggregate :=
  {| values := replicate aggregate_ratio inhabitant; keys := replicate aggregate_ratio zero_key;
     presence := replicate presence_words 0 |}.

Definition word (agg : Aggregate) (i : nat) : Z := default 0 (presence agg !! (i / 32)%nat).
Definition present (agg : Aggregate) (i : nat) : bool := Z.testbit (word agg i) (Z.of_nat (i mod 32)).

(** The loops over the slots of an aggregate: a whole word of presence bits
    is skipped when [skip] holds of it ([i += 31], then [++i]). *)
Fixpoint scan (fuel : nat) (agg : Aggregate) (skip : Z -> bool) (test : nat -> bool) (i : nat)
    : option nat :=
  match fuel with
  | O => None
  | S fuel =>
      if (aggregate_ratio <=? i)%nat then None
      else if skip (word agg i) then scan fuel agg skip test (i + 32)
      else if test i then Some i
      else scan fuel agg skip test (i + 1)
  end.
Definition scan_fuel : nat := S aggregate_ratio.

Definition access (agg : Aggregate) (key : K) : option nat :=
  scan scan_fuel agg (fun w => w =? 0)
    (fun i => present agg i && bool_decide (keys agg !! i = Some key)) 0.

Definition write_slot (agg : Aggregate) (i : nat) (key : K) (value : V) : Aggregate :=
  {| values := <[i := value]> (values agg); keys := <[i := key]> (keys agg);
     presence := <[(i / 32)%nat := Z.lor (word agg i) (u32 (Z.shiftl 1 (Z.of_nat (i mod 32))))]>
                   (presence agg) |}.

Definition agg_insert (agg : Aggregate) (key : K) (value : V) : option (Aggregate * nat) :=
  i ← scan scan_fuel agg (fun w => w =? 0xFFFFFFFF) (fun i => negb (present agg i)) 0;
  Some (write_slot agg i key value, i).

Definition next_present (agg : Aggregate) (i : nat) : option nat :=
  scan scan_fuel agg (fun w => w =? 0) (present agg) i.

(** ** The map *)

Record BasicHashMap := { entries : list (list Aggregate); elements_count : Z }.

Definition empty_map : BasicHashMap := {| entries := replicate capacity []; elements_count := 0 |}.
Definition chain (h : BasicHashMap) (entry : nat) : list Aggregate := default [] (entries h !! entry).
Definition bucket (key : K) : nat := Z.to_nat (FNV1A32 (raw key) mod Z.of_nat capacity).

(** A pointer into the values. *)
#[local] Abbreviation position := (nat * nat * nat)%type.

Definition deref (h : BasicHashMap) (p : position) : option V :=
  let '(entry, a, i) := p in agg ← chain h entry !! a; values agg !! i.

Definition size (h : BasicHashMap) : Z := elements_count h.

(** The walk of [at] along a chain, [a] being the place of its head. *)
Fixpoint at_chain (c : list Aggregate) (key : K) (a : nat) : option (nat * nat) :=
  match c with
  | [] => None
  | agg :: c => match access agg key with Some i => Some (a, i) | None => at_chain c key (S a) end
  end.

Definition at_ (h : BasicHashMap) (key : K) : option position :=
  let hash := bucket key in
  '(a, i) ← at_chain (chain h hash) key 0; Some (hash, a, i).

Definition set_chain (h : BasicHashMap) (entry : nat) (c : list Aggregate) (n : Z) : BasicHashMap :=
  {| entries := <[entry := c]> (entries h); elements_count := n |}.

(** The first aggregate of the chain with a free slot takes the pair. *)
Fixpoint insert_chain (c : list Aggregate) (key : K) (value : V) (a : nat)
    : option (list Aggregate * (nat * nat)) :=
  match c with
  | [] => None
  | agg :: c =>
      match agg_insert agg key value with
      | Some (agg', i) => Some (agg' :: c, (a, i))
      | None => '(c', p) ← insert_chain c key value (S a); Some (agg :: c', p)
      end
  end.

Definition set_value (agg : Aggregate) (i : nat) (value : V) : Aggregate :=
  {| values := <[i := value]> (values agg); keys := keys agg; presence := presence agg |}.

(** [has_memory]: the result of [Heap::Allocate(sizeof(Aggregate))] is not null. *)
Definition insert (h : BasicHashMap) (key : K) (value : V) (has_memory : bool)
    : BasicHashMap * option position :=
  let hash := bucket key in
  let c := chain h hash in
  let count := u64 (elements_count h + 1) in
  match c with
  | [] =>
      if has_memory then
        let agg := {| values := <[0%nat := value]> (values new_aggregate);
                      keys := <[0%nat := key]> (keys new_aggregate);
                      presence := <[0%nat := 1]> (presence new_aggregate) |} in
        (set_chain h hash [agg] count, Some (hash, 0%nat, 0%nat))
      else (h, None)
  | _ =>
      match at_ h key with
      | Some (e, a, i) =>
          (set_chain h hash (alter (fun agg => set_value agg i value) a c) (elements_count h),
           Some (e, a, i))
      | None =>
          match insert_chain c key value 0 with
          | Some (c', (a, i)) => (set_chain h hash c' count, Some (hash, a, i))
          | None =>
              if has_memory then
                match agg_insert new_aggregate key value with
                | Some (agg, i) => (set_chain h hash (c ++ [agg]) count, Some (hash, length c, i))
                | None => (set_chain h hash (c ++ [new_aggregate]) count, None)
                end
              else (h, None)
          end
      end
  end.

(** ** The iterator *)

Record Iterator := { error : bool; ref : Z; pos : position }.

Definition end_ (h : BasicHashMap) : Iterator := {| error := false; ref := size h; pos := (0, 0, 0)%nat |}.

(** The loops of [operator++]: a place past the end of the chain is the null
    aggregate. *)
Fixpoint advance (fuel : nat) (h : BasicHashMap) (entry a i : nat) : option position :=
  match fuel with
  | O => None
  | S fuel =>
      if (capacity <=? entry)%nat then None
      else
        match chain h entry !! a with
        | Some agg =>
            match next_present agg i with
            | Some j => Some (entry, a, j)
            | None => advance fuel h entry (S a) 0
            end
        | None => advance fuel h (S entry) 0 i
        end
  end.

(** One step per bucket and per aggregate. *)
Definition advance_fuel (h : BasicHashMap) : nat := S (capacity + length (concat (entries h))).

Definition next_iterator (h : BasicHashMap) (it : Iterator) : Iterator :=
  if error it then it
  else
    let '(entry, a, i) := pos it in
    match advance (advance_fuel h) h entry a (S i) with
    | Some p => {| error := false; ref := u64 (ref it + 1); pos := p |}
    | None => {| error := true; ref := ref it; pos := pos it |}
    end.

(** [while (entry < capacity && entries[entry] == nullptr) ++entry] *)
Fixpoint skip_null (fuel : nat) (h : BasicHashMap) (entry : nat) : nat :=
  match fuel with
  | O => entry
  | S fuel =>
      if (entry <? capacity)%nat && match chain h entry with [] => true | _ => false end
      then skip_null fuel h (S entry) else entry
  end.

Definition begin_ (h : BasicHashMap) : Iterator :=
  if size h =? 0 then end_ h
  else
    let entry := skip_null capacity h 0 in
    match advance (advance_fuel h) h entry 0 0 with
    | Some p => {| error := false; ref := 0; pos := p |}
    | None => end_ h
    end.

Definition iterator_eq (x y : Iterator) : bool :=
  if error x || error y then true else ref x =? ref y.

Definition iterator_deref (h : BasicHashMap) (it : Iterator) : option V :=
  if error it then None else deref h (pos it).

(** [for (it = begin(); it != end(); ++it) visit( *it)] *)
Fixpoint for_range (fuel : nat) (h : BasicHashMap) (it : Iterator) : option (list (option V)) :=
  match fuel with
  | O => None
  | S fuel =>
      if iterator_eq it (end_ h) then Some []
      else
        vs ← for_range fuel h (next_iterator h it);
        Some (iterator_deref h it :: vs)
  end.
End BasicHashMap.

Arguments Aggregate : clear implicits.
Arguments BasicHashMap : clear implicits.
