(* ===== verification/HashMapProps.v ===== *)
(** * Theorems on the hash map

    The hash map implements a finite map, and iterating over it enumerates that
    map. *)
From S2P Require Import Prelude HashMap.

Section Props.
Context {K V : Type} `{Countable K} `{Key K} `{Inhabited V}.
Context (capacity ratio : nat) (cap_pos : (0 < capacity)%nat) (ratio_pos : (0 < ratio)%nat).

#[local] Abbreviation agg_t := (Aggregate K V).
#[local] Abbreviation map_t := (BasicHashMap K V).

(** ** Scanning an aggregate *)

Lemma word_step (agg : agg_t) i : ((i + 1) mod 32 = 0)%nat \/ word agg (i + 1) = word agg i.
Proof.
  destruct (decide ((i + 1) mod 32 = 0)%nat) as [|E]; [by left|right]. unfold word. do 2 f_equal.
  pose proof (Nat.div_mod_eq i 32). pose proof (Nat.div_mod_eq (i + 1) 32).
  pose proof (Nat.mod_upper_bound i 32). pose proof (Nat.mod_upper_bound (i + 1) 32). lia.
Qed.

Lemma scan_spec (agg : agg_t) skip test :
  (forall j, skip (word agg j) = true -> test j = false) ->
  forall fuel i, (ratio < fuel + i)%nat -> (i mod 32 = 0)%nat \/ skip (word agg i) = false ->
  match scan ratio fuel agg skip test i with
  | Some j => (i <= j < ratio)%nat /\ test j = true /\ forall k, (i <= k < j)%nat -> test k = false
  | None => forall k, (i <= k < ratio)%nat -> test k = false
  end.
Proof.
  intros Hskip. induction fuel as [|fuel IH]; intros i Hf Hi; cbn; [intros; lia|].
  destruct (Nat.leb_spec ratio i); [intros; lia|].
  destruct (skip (word agg i)) eqn:Hs.
  - destruct Hi as [Hi|]; [|done].
    assert (Hw : forall k, (i <= k < i + 32)%nat -> test k = false).
    { intros k Hk. apply Hskip. rewrite <- Hs. unfold word. do 3 f_equal.
      pose proof (Nat.div_mod_eq i 32). pose proof (Nat.div_mod_eq k 32).
      pose proof (Nat.mod_upper_bound k 32). lia. }
    assert (Hm : ((i + 32) mod 32 = 0)%nat).
    { replace (i + 32)%nat with (i + 1 * 32)%nat by lia. rewrite Nat.Div0.mod_add. done. }
    specialize (IH (i + 32)%nat ltac:(lia) (or_introl Hm)).
    destruct (scan _ _ _ _ _ _) as [j|].
    + destruct IH as (? & ? & IH). split; [lia|]. split; [done|]. intros k Hk.
      destruct (decide (k < i + 32)%nat); [apply Hw; lia|apply IH; lia].
    + intros k Hk. destruct (decide (k < i + 32)%nat); [apply Hw; lia|apply IH; lia].
  - destruct (test i) eqn:Ht; [repeat split; [lia|done|done|intros; lia]|].
    specialize (IH (i + 1)%nat ltac:(lia)).
    assert (Hn : ((i + 1) mod 32 = 0)%nat \/ skip (word agg (i + 1)) = false).
    { destruct (word_step agg i) as [E|E]; [by left|right; by rewrite E]. }
    specialize (IH Hn). destruct (scan _ _ _ _ _ _) as [j|].
    + destruct IH as (? & ? & IH). split; [lia|]. split; [done|]. intros k Hk.
      destruct (decide (k = i)) as [->|]; [done|apply IH; lia].
    + intros k Hk. destruct (decide (k = i)) as [->|]; [done|apply IH; lia].
Qed.

(** ** The contents of an aggregate *)

Definition wf_agg (agg : agg_t) : Prop :=
  length (values agg) = ratio /\ length (keys agg) = ratio /\
  length (presence agg) = presence_words ratio /\ Forall (fun w => 0 <= w < 2 ^ 32) (presence agg).

Definition slot (agg : agg_t) (i : nat) : option (K * V) :=
  if present agg i then k ← keys agg !! i; v ← values agg !! i; Some (k, v) else None.

Definition agg_items (agg : agg_t) : list (K * V) := omap (slot agg) (seq 0 ratio).

Lemma word_zero_present (agg : agg_t) j : (word agg j =? 0) = true -> present agg j = false.
Proof. unfold present. intros ->%Z.eqb_eq. apply Z.bits_0. Qed.

Lemma word_full_present (agg : agg_t) j : (word agg j =? 0xFFFFFFFF) = true -> negb (present agg j) = false.
Proof.
  unfold present. intros ->%Z.eqb_eq. change 0xFFFFFFFF with (Z.ones 32).
  rewrite Z.ones_spec_low; [done|]. pose proof (Nat.mod_upper_bound j 32). lia.
Qed.

Lemma wf_slot agg i : wf_agg agg -> (i < ratio)%nat -> present agg i = true ->
  exists k v, slot agg i = Some (k, v) /\ keys agg !! i = Some k /\ values agg !! i = Some v.
Proof.
  intros (Hv & Hk & _) Hi Hp. unfold slot. rewrite Hp.
  destruct (lookup_lt_is_Some_2 (keys agg) i) as [k Ek]; [lia|].
  destruct (lookup_lt_is_Some_2 (values agg) i) as [v Ev]; [lia|].
  exists k, v. by rewrite Ek, Ev.
Qed.

Lemma elem_agg_items agg kv : kv ∈ agg_items agg <-> exists i, (i < ratio)%nat /\ slot agg i = Some kv.
Proof.
  unfold agg_items. rewrite list_elem_of_omap. setoid_rewrite elem_of_seq. split.
  - intros (i & ? & ?). exists i. split; [lia|done].
  - intros (i & ? & ?). exists i. split; [lia|done].
Qed.

Lemma access_spec agg key :
  wf_agg agg ->
  match access ratio agg key with
  | Some i => exists v, (i < ratio)%nat /\ slot agg i = Some (key, v) /\ values agg !! i = Some v
  | None => key ∉ (agg_items agg).*1
  end.
Proof.
  intros Hwf. unfold access.
  pose proof (scan_spec agg (fun w => w =? 0)
    (fun i => present agg i && bool_decide (keys agg !! i = Some key))) as Hs.
  specialize (Hs ltac:(intros j Hj; cbn beta in Hj |- *; by rewrite (word_zero_present agg j Hj)) (scan_fuel ratio) 0%nat
                ltac:(unfold scan_fuel; lia) (or_introl eq_refl)).
  destruct (scan _ _ _ _ _ _) as [i|].
  - destruct Hs as (Hi & [Hp Hk%bool_decide_eq_true]%andb_prop & _).
    destruct (wf_slot agg i Hwf ltac:(lia) Hp) as (k & v & Hsl & Ek & Ev).
    exists v. split; [lia|]. split; [congruence|done].
  - intros ([k v] & -> & (i & Hi & Hsl)%elem_agg_items)%list_elem_of_fmap. cbn in Hs.
    specialize (Hs i ltac:(lia)). unfold slot in Hsl. destruct (present agg i); [|done]. cbn in Hs.
    destruct (keys agg !! i) eqn:Ek, (values agg !! i); cbn in Hsl; try done.
    injection Hsl as -> ->. by rewrite bool_decide_true in Hs.
Qed.

(** Changing one slot changes the items at one place. *)
Lemma agg_items_update (agg agg' : agg_t) i :
  (i < ratio)%nat -> (forall j, (j < ratio)%nat -> j <> i -> slot agg' j = slot agg j) ->
  exists l1 l2, agg_items agg = l1 ++ option_list (slot agg i) ++ l2 /\
    agg_items agg' = l1 ++ option_list (slot agg' i) ++ l2.
Proof.
  intros Hi Hj. unfold agg_items. replace ratio with (i + S (ratio - S i))%nat by lia.
  rewrite seq_app, !omap_app. cbn [seq omap list_omap]. exists (omap (slot agg) (seq 0 i)), (omap (slot agg) (seq (S (0 + i)) (ratio - S i))).
  assert (E1 : omap (slot agg') (seq 0 i) = omap (slot agg) (seq 0 i)).
  { apply list_omap_ext, Forall_Forall2_diag, Forall_forall. intros j [? ?]%elem_of_seq. apply Hj; lia. }
  assert (E2 : omap (slot agg') (seq (S (0 + i)) (ratio - S i)) = omap (slot agg) (seq (S (0 + i)) (ratio - S i))).
  { apply list_omap_ext, Forall_Forall2_diag, Forall_forall. intros j [? ?]%elem_of_seq. apply Hj; lia. }
  cbn in *. rewrite E1, E2. by destruct (slot agg i), (slot agg' i).
Qed.

(** ** Writing a slot *)

Lemma present_write agg i k v j :
  wf_agg agg -> (i < ratio)%nat -> (j < ratio)%nat ->
  present (write_slot agg i k v) j = if decide (j = i) then true else present agg j.
Proof.
  intros (_ & _ & Hp & _) Hi Hj. unfold present, word, write_slot. cbn [presence].
  pose proof (Nat.div_mod_eq i 32) as Di. pose proof (Nat.div_mod_eq j 32) as Dj.
  pose proof (Nat.mod_upper_bound i 32). pose proof (Nat.mod_upper_bound j 32).
  assert (Hw : (i / 32 < length (presence agg))%nat).
  { rewrite Hp. unfold presence_words. apply Nat.Div0.div_lt_upper_bound.
    pose proof (Nat.div_mod_eq (ratio + 31) 32). pose proof (Nat.mod_upper_bound (ratio + 31) 32). lia. }
  destruct (decide (j / 32 = i / 32)%nat) as [Hq|Hq].
  - rewrite Hq, list_lookup_insert_eq by done. cbn [default from_option id]. rewrite Z.lor_spec.
    rewrite wrap_small by (rewrite Z.shiftl_1_l; split; [apply Z.pow_nonneg; lia|apply Z.pow_lt_mono_r; lia]).
    rewrite Z.shiftl_1_l, Z.pow2_bits_eqb by lia.
    destruct (decide (j = i)) as [->|Hne].
    + rewrite Z.eqb_refl. apply orb_true_r.
    + rewrite (proj2 (Z.eqb_neq _ _)) by lia. apply orb_false_r.
  - rewrite list_lookup_insert_ne by done. by destruct (decide (j = i)) as [->|].
Qed.

Lemma slot_write agg i k v j :
  wf_agg agg -> (i < ratio)%nat -> (j < ratio)%nat ->
  slot (write_slot agg i k v) j = if decide (j = i) then Some (k, v) else slot agg j.
Proof.
  intros Hwf Hi Hj. unfold slot. rewrite present_write by done. destruct Hwf as (Hv & Hk & _). cbn.
  destruct (decide (j = i)) as [->|Hne].
  - by rewrite !list_lookup_insert_eq by lia.
  - by rewrite !list_lookup_insert_ne by done.
Qed.

Lemma wf_write agg i k v : wf_agg agg -> (i < ratio)%nat -> wf_agg (write_slot agg i k v).
Proof.
  intros (Hv & Hk & Hp & Hw) Hi. unfold wf_agg, write_slot; cbn.
  rewrite !length_insert. repeat (split; [done|]). apply Forall_insert; [done|].
  assert (0 <= word agg i < 2 ^ 32).
  { unfold word. destruct (presence agg !! _) eqn:E; cbn; [|lia]. by eapply Forall_lookup_1 in Hw. }
  apply (lor_range 32); [lia|done|]. unfold wrap. apply Z.mod_pos_bound. lia.
Qed.

Lemma agg_insert_spec agg k v :
  wf_agg agg ->
  match agg_insert ratio agg k v with
  | Some (agg', i) => wf_agg agg' /\ values agg' !! i = Some v /\
      exists l1 l2, agg_items agg = l1 ++ l2 /\ agg_items agg' = l1 ++ (k, v) :: l2
  | None => forall i, (i < ratio)%nat -> present agg i = true
  end.
Proof.
  intros Hwf. unfold agg_insert.
  pose proof (scan_spec agg (fun w => w =? 0xFFFFFFFF) (fun i => negb (present agg i))
    (word_full_present agg) (scan_fuel ratio) 0%nat ltac:(unfold scan_fuel; lia) (or_introl eq_refl)) as Hs.
  destruct (scan _ _ _ _ _ _) as [i|]; cbn.
  - destruct Hs as (Hi & Hp & _). split; [apply wf_write; [done|lia]|]. destruct Hwf as (Hv & ?).
    split; [cbn; rewrite list_lookup_insert_eq; [done|lia]|].
    destruct (agg_items_update agg (write_slot agg i k v) i) as (l1 & l2 & E1 & E2); [lia| |].
    { intros j Hj Hne. rewrite slot_write by (done || lia). by rewrite decide_False. }
    exists l1, l2. rewrite E1, E2, slot_write, decide_True by (done || lia). split; [|done].
    unfold slot. apply negb_true_iff in Hp. by rewrite Hp.
  - intros i Hi. specialize (Hs i ltac:(lia)). by apply negb_false_iff in Hs.
Qed.

Lemma wf_new : wf_agg (new_aggregate ratio).
Proof.
  unfold wf_agg, new_aggregate; cbn. rewrite !length_replicate. repeat (split; [done|]).
  apply Forall_replicate. lia.
Qed.

Lemma present_new i : present (new_aggregate ratio : agg_t) i = false.
Proof.
  unfold present, word; cbn. destruct (replicate _ _ !! _) eqn:E; cbn; [|apply Z.bits_0].
  apply lookup_replicate in E as [-> _]. apply Z.bits_0.
Qed.

Lemma items_new : agg_items (new_aggregate ratio) = [].
Proof.
  unfold agg_items. induction (seq 0 ratio) as [|i l IH]; [done|]. cbn. unfold slot at 1. by rewrite present_new.
Qed.

(** [insert] on an empty bucket writes slot 0 of a new aggregate directly. *)
Definition first_aggregate (k : K) (v : V) : agg_t :=
  let agg : agg_t := new_aggregate ratio in
  {| values := <[0%nat := v]> (values agg); keys := <[0%nat := k]> (keys agg);
     presence := <[0%nat := 1]> (presence agg) |}.

Lemma agg_insert_new k v :
  agg_insert ratio (new_aggregate ratio) k v = Some (first_aggregate k v, 0%nat).
Proof.
  unfold agg_insert, scan_fuel. cbn [scan]. destruct ratio as [|r] eqn:Er; [lia|]. rewrite <- Er.
  rewrite present_new. rewrite (proj2 (Nat.leb_gt _ _)) by lia.
  assert (Hw : word (new_aggregate ratio : agg_t) 0 = 0).
  { unfold word; cbn. destruct (replicate _ _ !! _) eqn:E; [|done]. by apply lookup_replicate in E as [-> _]. }
  rewrite Hw. cbn. unfold write_slot. rewrite Hw. done.
Qed.

(** ** Chains *)

Definition chain_items (c : list agg_t) : list (K * V) := concat (map agg_items c).

(** The pair is in the new contents; the rest is as before, less the former
    pair of the key when there was one. *)
Definition Ins (k : K) (v : V) (new : bool) (l l' : list (K * V)) : Prop :=
  exists l1 l2, l' = l1 ++ (k, v) :: l2 /\
    if new then l = l1 ++ l2 else exists v0, l = l1 ++ (k, v0) :: l2.

Lemma Ins_app k v new l l' p q : Ins k v new l l' -> Ins k v new (p ++ l ++ q) (p ++ l' ++ q).
Proof.
  intros (l1 & l2 & -> & Hl). exists (p ++ l1), (l2 ++ q). rewrite <- !app_assoc. split; [done|].
  destruct new; [subst; by rewrite <- !app_assoc|]. destruct Hl as [v0 ->]. exists v0. by rewrite <- !app_assoc.
Qed.

Lemma at_chain_spec c k : Forall wf_agg c -> forall a0,
  match at_chain ratio c k a0 with
  | Some (a, i) => (a0 <= a)%nat /\ exists agg v, c !! (a - a0)%nat = Some agg /\ (i < ratio)%nat /\
      slot agg i = Some (k, v) /\ values agg !! i = Some v
  | None => k ∉ (chain_items c).*1
  end.
Proof.
  induction 1 as [|agg c Hwf Hc IH]; intros a0; cbn [at_chain]; [apply not_elem_of_nil|].
  pose proof (access_spec agg k Hwf) as Ha. destruct (access ratio agg k) as [i|].
  - destruct Ha as (v & ? & ? & ?). cbn beta iota. split; [lia|]. exists agg, v. by rewrite Nat.sub_diag.
  - specialize (IH (S a0)). destruct (at_chain ratio c k (S a0)) as [[a i]|].
    + destruct IH as (? & agg' & v & ? & ?). split; [lia|]. exists agg', v.
      replace (a - a0)%nat with (S (a - S a0)) by lia. done.
    + unfold chain_items. cbn. rewrite fmap_app, not_elem_of_app. done.
Qed.

Lemma insert_chain_spec c k v : Forall wf_agg c -> forall a0,
  match insert_chain ratio c k v a0 with
  | Some (c', (a, i)) => Forall wf_agg c' /\ (a0 <= a)%nat /\
      (agg ← c' !! (a - a0)%nat; values agg !! i) = Some v /\ Ins k v true (chain_items c) (chain_items c')
  | None => True
  end.
Proof.
  induction 1 as [|agg c Hwf Hc IH]; intros a0; cbn [insert_chain]; [done|].
  pose proof (agg_insert_spec agg k v Hwf) as Ha. destruct (agg_insert ratio agg k v) as [[agg' i]|].
  - destruct Ha as (Hwf' & Hv & l1 & l2 & E1 & E2). cbn beta iota. split; [by constructor|]. split; [lia|].
    rewrite Nat.sub_diag. split; [done|]. unfold chain_items; cbn. rewrite E1, E2.
    apply (Ins_app k v true (l1 ++ l2) (l1 ++ (k, v) :: l2) []). by exists l1, l2.
  - specialize (IH (S a0)). destruct (insert_chain ratio c k v (S a0)) as [[c' [a i]]|]; cbn [mbind option_bind]; [|done].
    destruct IH as (Hwf' & ? & Hd & HI). split; [by constructor|]. split; [lia|].
    replace (a - a0)%nat with (S (a - S a0)) by lia. split; [done|].
    unfold chain_items; cbn. pose proof (Ins_app k v true _ _ (agg_items agg) [] HI) as HI'.
    by rewrite !app_nil_r in HI'.
Qed.

(** ** The whole map *)

Definition items (h : map_t) : list (K * V) := concat (map chain_items (entries h)).

Record wf (h : map_t) : Prop := {
  wf_len : length (entries h) = capacity;
  wf_aggs : Forall (Forall wf_agg) (entries h);
  wf_keys : forall e c, entries h !! e = Some c -> Forall (fun kv => bucket capacity kv.1 = e) (chain_items c);
  wf_nodup : forall e c, entries h !! e = Some c -> NoDup (chain_items c).*1;
  wf_count : elements_count h = u64 (Z.of_nat (length (items h)))
}.

(** The finite map a hash map stands for. *)
Definition to_map (h : map_t) : gmap K V := list_to_map (items h).

Lemma bucket_lt k : (bucket capacity k < capacity)%nat.
Proof. unfold bucket. pose proof (Z.mod_pos_bound (FNV1A32 (raw k)) (Z.of_nat capacity)). lia. Qed.

Lemma chain_lookup h k : wf h -> entries h !! bucket capacity k = Some (chain h (bucket capacity k)).
Proof.
  intros W. unfold chain. destruct (lookup_lt_is_Some_2 (entries h) (bucket capacity k)) as [c E];
    [rewrite (wf_len h W); apply bucket_lt|]. by rewrite E.
Qed.

Lemma elem_concat_chains (cs : list (list agg_t)) kv :
  kv ∈ concat (map chain_items cs) <-> exists e c, cs !! e = Some c /\ kv ∈ chain_items c.
Proof.
  induction cs as [|c cs IH]; cbn.
  - split; [by intros ?%elem_of_nil|by intros (? & ? & ? & _)].
  - rewrite elem_of_app, IH. split.
    + intros [Hc|(e & c' & ? & ?)]; [by exists 0%nat, c|by exists (S e), c'].
    + intros ([|e] & c' & Hc & ?); [injection Hc as ->; by left|right; by exists e, c'].
Qed.

Lemma NoDup_chains (cs : list (list agg_t)) (f : nat -> nat) :
  (forall e e', f e = f e' -> e = e') ->
  (forall e c, cs !! e = Some c -> Forall (fun kv => bucket capacity kv.1 = f e) (chain_items c)) ->
  (forall e c, cs !! e = Some c -> NoDup (chain_items c).*1) ->
  NoDup (concat (map chain_items cs)).*1.
Proof.
  revert f; induction cs as [|c cs IH]; intros f Hf Hk Hn; cbn; [apply NoDup_nil_2|].
  rewrite fmap_app. apply NoDup_app. split; [by apply (Hn 0%nat)|]. split.
  - intros k ([k1 v1] & -> & Hc)%list_elem_of_fmap ([k2 v2] & E & (e & c' & Hc' & Hin)%elem_concat_chains)%list_elem_of_fmap.
    cbn in E. subst k2. pose proof (Hk 0%nat c eq_refl) as K1. pose proof (Hk (S e) c' Hc') as K2.
    rewrite Forall_forall in K1, K2. specialize (K1 _ Hc). specialize (K2 _ Hin). cbn in K1, K2.
    rewrite K1 in K2. by apply Hf in K2.
  - apply (IH (fun e => f (S e))).
    + intros e e' E. apply Hf in E. lia.
    + intros e c' Hc'. by apply (Hk (S e)).
    + intros e c' Hc'. by apply (Hn (S e)).
Qed.

Lemma NoDup_items h : wf h -> NoDup (items h).*1.
Proof. intros W. apply (NoDup_chains _ id); [done|apply W|apply W]. Qed.

Lemma to_map_lookup h k v : wf h ->
  to_map h !! k = Some v <-> (k, v) ∈ chain_items (chain h (bucket capacity k)).
Proof.
  intros W. unfold to_map.
  transitivity ((k, v) ∈ items h); [symmetry; apply elem_of_list_to_map; by apply NoDup_items|].
  unfold items. rewrite elem_concat_chains. split.
  - intros (e & c & Hc & Hin). pose proof (wf_keys h W e c Hc) as Hk. rewrite Forall_forall in Hk.
    specialize (Hk _ Hin). cbn in Hk. rewrite Hk. unfold chain. by rewrite Hc.
  - intros Hin. exists (bucket capacity k), (chain h (bucket capacity k)). split; [by apply chain_lookup|done].
Qed.

Lemma to_map_missing h k : wf h ->
  k ∉ (chain_items (chain h (bucket capacity k))).*1 -> to_map h !! k = None.
Proof.
  intros W Hk. destruct (to_map h !! k) as [v|] eqn:E; [exfalso|done].
  apply (to_map_lookup h k v W) in E. apply Hk, list_elem_of_fmap. by exists (k, v).
Qed.

Lemma Ins_map k v new l l' :
  Ins k v new l l' -> NoDup l.*1 -> (new = true -> k ∉ l.*1) ->
  (list_to_map l' : gmap K V) = <[k := v]> (list_to_map l) /\ NoDup l'.*1 /\
  length l' = (length l + Nat.b2n new)%nat.
Proof.
  intros (l1 & l2 & -> & Hl) Hn Hk.
  assert (P : l1 ++ (k, v) :: l2 ≡ₚ (k, v) :: l1 ++ l2) by by rewrite Permutation_middle.
  destruct new.
  - subst l. assert (Hn' : NoDup (l1 ++ (k, v) :: l2).*1).
    { rewrite P. cbn. constructor; auto. }
    split; [|split; [done|rewrite !length_app; cbn; lia]].
    by rewrite (list_to_map_proper _ _ Hn' P).
  - destruct Hl as [v0 ->].
    assert (P0 : l1 ++ (k, v0) :: l2 ≡ₚ (k, v0) :: l1 ++ l2) by by rewrite Permutation_middle.
    assert (Hn' : NoDup (l1 ++ (k, v) :: l2).*1).
    { rewrite P. rewrite P0 in Hn. done. }
    split; [|split; [done|rewrite !length_app; cbn; lia]].
    rewrite (list_to_map_proper _ _ Hn' P), (list_to_map_proper _ _ Hn P0). cbn. by rewrite insert_insert_eq.
Qed.

Lemma set_chain_wf (h : map_t) k v (new : bool) c' :
  let e := bucket capacity k in let c := chain h e in
  let n := if new then u64 (elements_count h + 1) else elements_count h in
  wf h -> Forall wf_agg c' -> Ins k v new (chain_items c) (chain_items c') ->
  (new = true -> k ∉ (chain_items c).*1) ->
  wf (set_chain h e c' n) /\ to_map (set_chain h e c' n) = <[k := v]> (to_map h).
Proof.
  intros e c n W Hc' HI Hk. pose proof (chain_lookup h k W) as Hl. change (entries h !! e = Some c) in Hl.
  assert (Hsplit : exists p q, items h = p ++ chain_items c ++ q /\ items (set_chain h e c' n) = p ++ chain_items c' ++ q).
  { pose proof (lookup_lt_Some _ _ _ Hl) as He. exists (concat (map chain_items (take e (entries h)))), (concat (map chain_items (drop (S e) (entries h)))).
    unfold items, set_chain; cbn [entries]. rewrite insert_take_drop by done.
    rewrite <- (take_drop_middle (entries h) e c Hl) at 1. rewrite !map_app, !concat_app. done. }
  destruct Hsplit as (p & q & E & E').
  assert (HI' : Ins k v new (items h) (items (set_chain h e c' n))) by (rewrite E, E'; by apply Ins_app).
  assert (Hk' : new = true -> k ∉ (items h).*1).
  { intros Hn ([k1 v1] & Ek & Hin)%list_elem_of_fmap. cbn in Ek. subst k1.
    assert (Hm : to_map h !! k = Some v1) by (unfold to_map; apply elem_of_list_to_map; [by apply NoDup_items|done]).
    by rewrite (to_map_missing h k W (Hk Hn)) in Hm. }
  destruct (Ins_map _ _ _ _ _ HI' (NoDup_items h W) Hk') as (Hmap & _ & Hlen).
  destruct (Ins_map _ _ _ _ _ HI (wf_nodup h W e c Hl) Hk) as (_ & Hnd & _).
  split; [|exact Hmap]. constructor.
  - cbn. rewrite length_insert. apply (wf_len h W).
  - cbn. apply Forall_insert; [apply (wf_aggs h W)|done].
  - cbn. intros e' c2 Hc2. destruct (decide (e' = e)) as [->|Hne].
    + rewrite list_lookup_insert_eq in Hc2 by (by eapply lookup_lt_Some). injection Hc2 as <-.
      pose proof (wf_keys h W e c Hl) as Hkk. destruct HI as (l1 & l2 & -> & Hl12).
      assert (Forall (fun kv : K * V => bucket capacity kv.1 = e) (l1 ++ l2)).
      { destruct new; [by rewrite Hl12 in Hkk|]. destruct Hl12 as [v0 Hl12]. rewrite Hl12 in Hkk.
        apply Forall_app in Hkk as [? [_ ?]%Forall_cons]. by apply Forall_app. }
      apply Forall_app in H2 as [? ?]. apply Forall_app. split; [done|]. by constructor.
    + rewrite list_lookup_insert_ne in Hc2 by done. by apply (wf_keys h W).
  - cbn. intros e' c2 Hc2. destruct (decide (e' = e)) as [->|Hne].
    + rewrite list_lookup_insert_eq in Hc2 by (by eapply lookup_lt_Some). by injection Hc2 as <-.
    + rewrite list_lookup_insert_ne in Hc2 by done. by apply (wf_nodup h W e').
  - rewrite Hlen. subst n. cbn [set_chain elements_count]. rewrite (wf_count h W). destruct new; cbn [Nat.b2n].
    + rewrite Nat2Z.inj_add. unfold wrap. rewrite Zplus_mod_idemp_l. done.
    + by rewrite Nat.add_0_r.
Qed.

Lemma wf_empty : wf (empty_map capacity) /\ to_map (empty_map capacity) = ∅.
Proof.
  assert (E : items (empty_map capacity) = []).
  { unfold items, empty_map; cbn. induction capacity as [|n IH]; [done|]. cbn. destruct n; [done|]. by apply IH, Nat.lt_0_succ. }
  split; [constructor|].
  - apply length_replicate.
  - by apply Forall_replicate.
  - intros e c [-> _]%lookup_replicate. constructor.
  - intros e c [-> _]%lookup_replicate. constructor.
  - by rewrite E.
  - unfold to_map. by rewrite E.
Qed.

Lemma deref_set_chain (h : map_t) e c n a i :
  (e < length (entries h))%nat -> deref (set_chain h e c n) (e, a, i) = (agg ← c !! a; values agg !! i).
Proof. intros He. unfold deref, chain, set_chain; cbn. by rewrite list_lookup_insert_eq. Qed.

(** Overwriting the value of a present slot. *)
Lemma alter_ins c a i agg k v0 v :
  c !! a = Some agg -> (i < ratio)%nat -> slot agg i = Some (k, v0) -> Forall wf_agg c ->
  let c' := alter (fun agg => set_value agg i v) a c in
  Forall wf_agg c' /\ (agg ← c' !! a; values agg !! i) = Some v /\ Ins k v false (chain_items c) (chain_items c').
Proof.
  intros Ha Hi Hs Hwf c'. pose proof (proj1 (Forall_lookup _ _) Hwf _ _ Ha) as Hwa.
  assert (E : c' = take a c ++ set_value agg i v :: drop (S a) c).
  { subst c'. rewrite <- (take_drop_middle c a agg Ha) at 1. rewrite alter_app_r_alt; rewrite length_take_le;
      [by rewrite Nat.sub_diag|pose proof (lookup_lt_Some _ _ _ Ha); lia|lia|pose proof (lookup_lt_Some _ _ _ Ha); lia]. }
  assert (Hwa' : wf_agg (set_value agg i v)) by (destruct Hwa as (? & ? & ?); split; [cbn; by rewrite length_insert|done]).
  assert (Hsv : slot (set_value agg i v) i = Some (k, v)).
  { unfold slot in *. change (present (set_value agg i v) i) with (present agg i). destruct (present agg i); [|done].
    cbn. destruct (keys agg !! i); [|done]. cbn in *. rewrite list_lookup_insert_eq by (destruct Hwa; lia).
    destruct (values agg !! i); [|done]. by injection Hs as -> _. }
  split; [|split].
  - rewrite E. apply Forall_app. split; [by apply Forall_take|]. constructor; [done|by apply Forall_drop].
  - subst c'. rewrite list_lookup_alter_eq, Ha. cbn. apply list_lookup_insert_eq. destruct Hwa; lia.
  - rewrite E, <- (take_drop_middle c a agg Ha) at 1. unfold chain_items. rewrite !map_app, !concat_app. cbn.
    apply Ins_app with (q := concat _).
    destruct (agg_items_update agg (set_value agg i v) i Hi) as (l1 & l2 & E1 & E2).
    { intros j Hj Hne. unfold slot. change (present (set_value agg i v) j) with (present agg j). cbn.
      by rewrite list_lookup_insert_ne. }
    rewrite E1, E2, Hs, Hsv. exists l1, l2. split; [done|]. by exists v0.
Qed.

Lemma insert_append c k v :
  Forall wf_agg c ->
  Forall wf_agg (c ++ [first_aggregate k v]) /\
  ((c ++ [first_aggregate k v]) !! length c ≫= fun agg => values agg !! 0%nat) = Some v /\
  Ins k v true (chain_items c) (chain_items (c ++ [first_aggregate k v])).
Proof.
  intros Hc. pose proof (agg_insert_spec (new_aggregate ratio) k v wf_new) as Ha.
  rewrite agg_insert_new in Ha. destruct Ha as (Hwf & Hv & l1 & l2 & E1 & E2).
  rewrite items_new in E1. symmetry in E1. apply app_eq_nil in E1 as [-> ->].
  split; [apply Forall_app; split; [done|by constructor]|]. split.
  - rewrite lookup_app_r, Nat.sub_diag by lia. exact Hv.
  - unfold chain_items. rewrite map_app, concat_app. cbn. rewrite E2. cbn.
    exists (concat (map agg_items c)), []. by rewrite app_nil_r.
Qed.

Lemma insert_spec h k v ok :
  wf h ->
  match insert capacity ratio h k v ok with
  | (h', Some p) => wf h' /\ to_map h' = <[k := v]> (to_map h) /\ deref h' p = Some v
  | (h', None) => ok = false /\ h' = h
  end.
Proof.
  intros W. pose proof (chain_lookup h k W) as Hl. pose proof (lookup_lt_Some _ _ _ Hl) as He.
  pose proof (proj1 (Forall_lookup _ _) (wf_aggs h W) _ _ Hl) as Hc.
  unfold insert, at_. pose proof (at_chain_spec _ k Hc 0) as Hat. pose proof (insert_chain_spec _ k v Hc 0) as Hic.
  pose proof (insert_append _ k v Hc) as (HA1 & HA2 & HA3).
  pose proof (fun new c' => set_chain_wf h k v new c' W) as Hset. cbv zeta in Hset.
  rewrite agg_insert_new.
  destruct (chain h (bucket capacity k)) as [|agg0 c0] eqn:Ec.
  - destruct ok; [|done]. fold (first_aggregate k v).
    destruct (Hset true [first_aggregate k v] HA1 HA3 (fun _ => not_elem_of_nil _)) as [? ?].
    split; [done|]. split; [done|]. by rewrite deref_set_chain.
  - set (c := agg0 :: c0) in *. destruct (at_chain ratio c k 0) as [[a i]|]; cbn [mbind option_bind].
    + destruct Hat as (_ & agg & v0 & Ha & Hi & Hs & _). rewrite Nat.sub_0_r in Ha.
      destruct (alter_ins c a i agg k v0 v Ha Hi Hs Hc) as (Hwf' & Hd & HI).
      destruct (Hset false _ Hwf' HI ltac:(done)) as [? ?]. split; [done|]. split; [done|]. by rewrite deref_set_chain.
    + destruct (insert_chain ratio c k v 0) as [[c' [a i]]|].
      * destruct Hic as (Hwf' & _ & Hd & HI). rewrite Nat.sub_0_r in Hd.
        destruct (Hset true c' Hwf' HI (fun _ => Hat)) as [? ?]. split; [done|]. split; [done|]. by rewrite deref_set_chain.
      * destruct ok; [|done]. destruct (Hset true _ HA1 HA3 (fun _ => Hat)) as [? ?].
        split; [done|]. split; [done|]. by rewrite deref_set_chain.
Qed.

Lemma at_spec h k :
  wf h -> match at_ capacity ratio h k with
          | Some p => deref h p = to_map h !! k /\ is_Some (to_map h !! k)
          | None => to_map h !! k = None
          end.
Proof.
  intros W. pose proof (chain_lookup h k W) as Hl.
  pose proof (proj1 (Forall_lookup _ _) (wf_aggs h W) _ _ Hl) as Hc.
  unfold at_. pose proof (at_chain_spec _ k Hc 0) as Hat.
  destruct (at_chain ratio _ k 0) as [[a i]|]; cbn [mbind option_bind].
  - destruct Hat as (_ & agg & v & Ha & Hi & Hs & Hv). rewrite Nat.sub_0_r in Ha.
    assert (E : to_map h !! k = Some v).
    { apply to_map_lookup; [done|]. unfold chain_items. apply list_elem_of_In, in_concat. exists (agg_items agg).
      split; [apply in_map, list_elem_of_In; by eapply list_elem_of_lookup_2|].
      apply list_elem_of_In, elem_agg_items. eauto. }
    rewrite E. split; [|done]. unfold deref. by rewrite Ha.
  - by apply to_map_missing.
Qed.

(** ** The iterator *)

#[local] Abbreviation place := (nat * nat * agg_t)%type.

(** The aggregates from place [a] of bucket [e] on, with their places. *)
Fixpoint chain_places (e a : nat) (c : list agg_t) : list place :=
  match c with [] => [] | agg :: c => (e, a, agg) :: chain_places e (S a) c end.
Fixpoint bucket_places (e : nat) (cs : list (list agg_t)) : list place :=
  match cs with [] => [] | c :: cs => chain_places e 0 c ++ bucket_places (S e) cs end.
Definition places_from (h : map_t) (e a : nat) : list place :=
  chain_places e a (drop a (chain h e)) ++ bucket_places (S e) (drop (S e) (entries h)).

(** The present slots from slot [i] of the first aggregate on. *)
Definition slots_from (agg : agg_t) (i : nat) : list nat :=
  List.filter (present agg) (seq i (ratio - i)).
Definition place_slots (p : place) (i : nat) : list (nat * nat * nat) :=
  map (fun j => (p.1, j)) (slots_from p.2 i).
Definition positions (l : list place) (i : nat) : list (nat * nat * nat) :=
  match l with [] => [] | p :: l => place_slots p i ++ concat (map (fun p => place_slots p 0) l) end.

Lemma next_present_spec agg i :
  (i mod 32 = 0)%nat \/ word agg i <> 0 ->
  match next_present ratio agg i with
  | Some j => (i <= j < ratio)%nat /\ present agg j = true /\ slots_from agg i = j :: slots_from agg (S j)
  | None => slots_from agg i = []
  end.
Proof.
  intros Hi. unfold next_present.
  pose proof (scan_spec agg (fun w => w =? 0) (present agg) (word_zero_present agg) (scan_fuel ratio) i
    ltac:(unfold scan_fuel; lia)) as Hs.
  assert (Hi' : (i mod 32 = 0)%nat \/ (word agg i =? 0) = false) by (rewrite Z.eqb_neq; done).
  specialize (Hs Hi'). unfold slots_from.
  assert (Hf : forall a n, (forall k, (a <= k < a + n)%nat -> present agg k = false) -> List.filter (present agg) (seq a n) = []).
  { intros a n; revert a; induction n as [|n IH]; intros a Hk; [done|]. cbn. rewrite Hk by lia.
    apply IH. intros k Hkk. apply Hk. lia. }
  destruct (scan _ _ _ _ _ _) as [j|].
  - destruct Hs as (Hj & Hp & Hk). split; [done|]. split; [done|].
    replace (ratio - i)%nat with ((j - i) + S (ratio - S j))%nat by lia.
    rewrite seq_app, List.filter_app, Hf by (intros k ?; apply Hk; lia). cbn.
    replace (i + (j - i))%nat with j by lia. by rewrite Hp.
  - apply Hf. intros k ?. apply Hs. lia.
Qed.

Lemma drop_S_lookup {A} (l : list A) a x : l !! a = Some x -> drop a l = x :: drop (S a) l.
Proof. apply drop_S. Qed.

Lemma places_from_some h e a agg : chain h e !! a = Some agg -> places_from h e a = (e, a, agg) :: places_from h e (S a).
Proof. intros Ha. unfold places_from. by rewrite (drop_S_lookup _ _ _ Ha). Qed.

Lemma places_from_none h e a : chain h e !! a = None -> (e < length (entries h))%nat ->
  places_from h e a = if decide (S e < length (entries h))%nat then places_from h (S e) 0 else [].
Proof.
  intros Ha He. unfold places_from at 1. rewrite drop_ge by by apply lookup_ge_None. cbn.
  destruct (decide _) as [Hlt|Hge].
  - destruct (lookup_lt_is_Some_2 (entries h) (S e) Hlt) as [c Ec].
    rewrite (drop_S_lookup _ _ _ Ec). cbn. unfold places_from, chain. by rewrite Ec.
  - by rewrite drop_ge by lia.
Qed.

Lemma length_chain_places e a c : length (chain_places e a c) = length c.
Proof. revert a; induction c as [|x c IH]; intros a; cbn; [done|]. by rewrite IH. Qed.

Lemma length_bucket_places e (cs : list (list agg_t)) : length (bucket_places e cs) = length (concat cs).
Proof.
  revert e; induction cs as [|c cs IH]; intros e; cbn; [done|]. by rewrite !length_app, length_chain_places, IH.
Qed.

(** What [advance] finds: the first present slot. *)
Lemma advance_spec h : wf h -> forall fuel e a i,
  (e < capacity)%nat ->
  (length (places_from h e a) + (capacity - e) < fuel)%nat ->
  i = 0%nat \/ (exists agg, chain h e !! a = Some agg /\ ((i mod 32 = 0)%nat \/ word agg i <> 0)) ->
  match advance capacity ratio fuel h e a i with
  | Some (e', a', j) => exists agg, chain h e' !! a' = Some agg /\ (e' < capacity)%nat /\ present agg j = true /\
      positions (places_from h e a) i = (e', a', j) :: positions (places_from h e' a') (S j)
  | None => positions (places_from h e a) i = []
  end.
Proof.
  intros W. induction fuel as [|fuel IH]; intros e a i He Hf Hi; [lia|]. cbn [advance].
  rewrite (proj2 (Nat.leb_gt _ _)) by done.
  destruct (chain h e !! a) as [agg|] eqn:Ea.
  - rewrite (places_from_some _ _ _ _ Ea) in *. cbn [length] in Hf.
    assert (Hi' : (i mod 32 = 0)%nat \/ word agg i <> 0).
    { destruct Hi as [->|(x & Hx & ?)]; [by left|]. injection Hx as ->. done. }
    pose proof (next_present_spec agg i Hi') as Hn. destruct (next_present ratio agg i) as [j|].
    + destruct Hn as (Hj & Hp & E). exists agg. rewrite (places_from_some _ _ _ _ Ea). split; [done|]. split; [done|]. split; [done|].
      cbn [positions]. unfold place_slots at 1. cbn [snd]. rewrite E. done.
    + specialize (IH e (S a) 0%nat He ltac:(lia) (or_introl eq_refl)).
      assert (E : positions ((e, a, agg) :: places_from h e (S a)) i = positions (places_from h e (S a)) 0).
      { cbn [positions]. unfold place_slots at 1. cbn [snd]. rewrite Hn. cbn. by destruct (places_from h e (S a)). }
      rewrite E. exact IH.
  - assert (i = 0%nat) as -> by (destruct Hi as [|(x & Hx & _)]; done).
    pose proof (places_from_none h e a Ea) as Hp. rewrite (wf_len h W) in Hp. specialize (Hp He). rewrite Hp in *.
    destruct (decide (S e < capacity)%nat) as [Hlt|Hge].
    + apply IH; [done|lia|by left].
    + destruct fuel as [|fuel]; [lia|]. cbn [advance].
      by rewrite (proj2 (Nat.leb_le _ _)) by lia.
Qed.

Lemma present_word agg j : present agg j = true -> ((S j mod 32 = 0)%nat \/ word (agg : agg_t) (S j) <> 0).
Proof.
  intros Hp. replace (S j) with (j + 1)%nat by lia. destruct (word_step agg j) as [E|E]; [by left|right].
  rewrite E. intros E0. apply Z.eqb_eq in E0. by rewrite (word_zero_present agg j E0) in Hp.
Qed.

Lemma skip_null_spec h : wf h -> forall fuel e,
  (e <= capacity)%nat -> (capacity - e <= fuel)%nat ->
  let e' := skip_null capacity fuel h e in
  (e <= e' <= capacity)%nat /\
  if decide (e' < capacity)%nat then (e < capacity)%nat /\ places_from h e 0 = places_from h e' 0
  else (e < capacity)%nat -> places_from h e 0 = [].
Proof.
  intros W. induction fuel as [|fuel IH]; intros e He Hf; cbv zeta; cbn [skip_null].
  - split; [lia|]. destruct (decide _); [exfalso; lia|intros; exfalso; lia].
  - destruct (Nat.ltb_spec e capacity) as [Hlt|Hge]; cbn [andb]; [|split; [lia|]; destruct (decide _); [exfalso; lia|intros; exfalso; lia]].
    destruct (chain h e) as [|x c] eqn:Ec.
    + cbv zeta in IH. destruct (IH (S e) ltac:(lia) ltac:(lia)) as [Hb IH']. split; [lia|].
      assert (E0 : chain h e !! 0%nat = None) by by rewrite Ec.
      pose proof (places_from_none h e 0 E0) as Hp. rewrite (wf_len h W) in Hp. specialize (Hp Hlt).
      destruct (decide (skip_null capacity fuel h (S e) < capacity)%nat).
      * destruct IH' as [Hlt' IH']. rewrite decide_True in Hp by done. rewrite Hp. auto.
      * intros _. rewrite Hp. destruct (decide (S e < capacity)%nat); auto.
    + split; [lia|]. destruct (decide _); [done|exfalso; lia].
Qed.

Lemma value_at_slot agg l : wf_agg agg -> Forall (fun i => (i < ratio)%nat) l ->
  map (fun j => values agg !! j) (List.filter (present agg) l) = map (fun kv => Some kv.2) (omap (slot agg) l).
Proof.
  intros Hwf. induction 1 as [|i l Hi _ IH]; [done|]. cbn. destruct (present agg i) eqn:Hp.
  - destruct (wf_slot agg i Hwf Hi Hp) as (k & v & -> & _ & Hv). cbn. by rewrite Hv, IH.
  - unfold slot at 1. by rewrite Hp, IH.
Qed.

Lemma place_values h e a agg : wf_agg agg -> chain h e !! a = Some agg ->
  map (deref h) (place_slots (e, a, agg) 0) = map (fun kv => Some kv.2) (agg_items agg).
Proof.
  intros Hwf Ha. unfold agg_items. rewrite <- value_at_slot; [|done|].
  - unfold place_slots, slots_from. cbn [fst snd]. rewrite Nat.sub_0_r, map_map. apply map_ext. intros j. unfold deref. by rewrite Ha.
  - apply Forall_forall. intros i Hi%elem_of_seq. lia.
Qed.

Lemma places_values h : wf h -> forall cs e, (forall n c, cs !! n = Some c -> entries h !! (e + n)%nat = Some c) ->
  map (deref h) (concat (map (fun p => place_slots p 0) (bucket_places e cs))) =
    map (fun kv => Some kv.2) (concat (map chain_items cs)).
Proof.
  intros W. induction cs as [|c cs IH]; intros e He; [done|]. cbn. rewrite !map_app, !concat_app, !map_app.
  f_equal.
  - pose proof (He 0%nat c eq_refl) as Hc. rewrite Nat.add_0_r in Hc.
    assert (Hch : chain h e = c) by (unfold chain; by rewrite Hc).
    pose proof (proj1 (Forall_lookup _ _) (wf_aggs h W) _ _ Hc) as Hwc. rewrite <- Hch in Hwc |- *. clear Hch Hc.
    unfold chain_items.
    assert (Hgen : forall l a, (forall n g, l !! n = Some g -> chain h e !! (a + n)%nat = Some g) -> Forall wf_agg l ->
      map (deref h) (concat (map (fun p => place_slots p 0) (chain_places e a l))) =
        map (fun kv => Some kv.2) (concat (map agg_items l))).
    { induction l as [|g l IHl]; intros a Hl Hwl; [done|]. cbn [chain_places map concat]. rewrite !map_app.
      apply Forall_cons in Hwl as [Hg Hwl]. f_equal.
      - apply place_values; [done|]. rewrite <- (Nat.add_0_r a). by apply Hl.
      - apply IHl; [|done]. intros n g' Hn. replace (S a + n)%nat with (a + S n)%nat by lia. by apply Hl. }
    apply Hgen; [done|done].
  - apply IH. intros n c' Hn. replace (S e + n)%nat with (e + S n)%nat by lia. by apply He.
Qed.

Lemma places_all h : wf h -> places_from h 0 0 = bucket_places 0 (entries h).
Proof.
  intros W. unfold places_from. destruct (lookup_lt_is_Some_2 (entries h) 0) as [c Ec]; [rewrite (wf_len h W); done|].
  pose proof (drop_S_lookup _ _ _ Ec) as E. rewrite drop_0 in E. rewrite E at 2. cbn. unfold chain. by rewrite Ec.
Qed.

Lemma positions_values h : wf h ->
  map (deref h) (positions (places_from h 0 0) 0) = map (fun kv => Some kv.2) (items h).
Proof.
  intros W. rewrite places_all by done. unfold items. rewrite <- (places_values h W (entries h) 0) by done.
  f_equal. unfold positions. by destruct (bucket_places 0 (entries h)).
Qed.

Lemma length_places_fuel h e a : wf h -> (e < capacity)%nat -> (a = 0%nat \/ is_Some (chain h e !! a)) ->
  (length (places_from h e a) + (capacity - e) < advance_fuel capacity h)%nat.
Proof.
  intros W He _. unfold places_from, advance_fuel. rewrite length_app, length_chain_places, length_bucket_places.
  destruct (lookup_lt_is_Some_2 (entries h) e) as [c Ec]; [by rewrite (wf_len h W)|].
  unfold chain. rewrite Ec. cbn. rewrite <- (take_drop_middle (entries h) e c Ec) at 2.
  rewrite concat_app, length_app. cbn. rewrite length_app, length_drop. lia.
Qed.

(** From an iterator at a present slot the loop visits the rest. *)
Lemma for_range_from h : wf h -> size h = Z.of_nat (length (items h)) -> size h < 2 ^ 64 ->
  forall l fuel n e a j agg,
  chain h e !! a = Some agg -> (e < capacity)%nat -> present agg j = true -> 0 <= n ->
  positions (places_from h e a) (S j) = l -> n + 1 + Z.of_nat (length l) = size h -> (S (length l) < fuel)%nat ->
  for_range capacity ratio fuel h {| error := false; ref := n; pos := (e, a, j) |} =
    Some (map (deref h) ((e, a, j) :: l)).
Proof.
  intros W Hsz H64. induction l as [|p l IH]; intros fuel n e a j agg Ha He Hp Hn Hpos Hlen Hf.
  all: destruct fuel as [|fuel]; [lia|]; cbn [for_range iterator_eq error ref end_ orb];
    rewrite (proj2 (Z.eqb_neq n (size h))) by lia; unfold next_iterator; cbn [error pos].
  all: pose proof (advance_spec h W (advance_fuel capacity h) e a (S j) He
      (length_places_fuel h e a W He (or_intror (mk_is_Some _ _ Ha)))
      (or_intror (ex_intro _ agg (conj Ha (present_word agg j Hp))))) as Hadv; rewrite Hpos in Hadv.
  - destruct (advance _ _ _ _ _ _ _) as [[[e' a'] j']|]; [by destruct Hadv as (? & _ & _ & _ & ?)|].
    destruct fuel as [|fuel]; [cbn in Hf; lia|]. cbn. done.
  - destruct (advance _ _ _ _ _ _ _) as [[[e' a'] j']|]; [|done].
    destruct Hadv as (agg' & Ha' & He' & Hp' & E). injection E as -> E. cbn in Hlen, Hf.
    cbn [ref]. rewrite wrap_small by lia.
    rewrite (IH fuel (n + 1) e' a' j' agg') by (done || lia). done.
Qed.

Lemma for_range_spec h : wf h -> Z.of_nat (length (items h)) < 2 ^ 64 ->
  for_range capacity ratio (S (S (length (items h)))) h (begin_ capacity ratio h) =
    Some (map (fun kv => Some kv.2) (items h)).
Proof.
  intros W H64. assert (Hsz : size h = Z.of_nat (length (items h))).
  { unfold size. rewrite (wf_count h W). apply wrap_small. lia. }
  rewrite <- positions_values by done.
  assert (Hl : length (positions (places_from h 0 0) 0) = length (items h)).
  { rewrite <- (length_map (deref h)), positions_values by done. by rewrite length_map. }
  unfold begin_. destruct (Z.eqb_spec (size h) 0) as [Hz|Hnz].
  - cbn [for_range]. unfold iterator_eq, end_; cbn [error ref orb]. rewrite Z.eqb_refl.
    by rewrite (nil_length_inv (positions _ _)) by lia.
  - destruct (skip_null_spec h W capacity 0 ltac:(lia) ltac:(lia)) as [Hb Hs].
    set (e0 := skip_null capacity capacity h 0) in *.
    destruct (decide (e0 < capacity)%nat) as [Hlt|Hge].
    2:{ rewrite Hs in Hl by done. cbn in Hl. lia. }
    destruct Hs as [_ Hs]. rewrite Hs in *.
    pose proof (advance_spec h W (advance_fuel capacity h) e0 0 0 Hlt
      (length_places_fuel h e0 0 W Hlt (or_introl eq_refl)) (or_introl eq_refl)) as Hadv.
    destruct (advance _ _ _ _ _ _ _) as [[[e a] j]|]; [|rewrite Hadv in Hl; cbn in Hl; lia].
    destruct Hadv as (agg & Ha & He & Hp & E). rewrite E in *. cbn [length] in Hl.
    rewrite (for_range_from h W Hsz ltac:(lia) (positions (places_from h e a) (S j)) _ 0 e a j agg) by (done || lia).
    done.
Qed.

(** ** Sequences of insertions *)

Definition build (kvs : list (K * V)) : map_t :=
  fold_left (fun h kv => (insert capacity ratio h kv.1 kv.2 true).1) kvs (empty_map capacity).
Definition build_map (kvs : list (K * V)) : gmap K V :=
  fold_left (fun m kv => <[kv.1 := kv.2]> m) kvs ∅.

Lemma build_spec kvs : wf (build kvs) /\ to_map (build kvs) = build_map kvs.
Proof.
  unfold build, build_map. destruct wf_empty as [W E]. revert W E.
  generalize (empty_map capacity : map_t) (∅ : gmap K V).
  induction kvs as [|[k v] kvs IH]; intros h m W E; cbn -[insert]; [done|].
  pose proof (insert_spec h k v true W) as Hi.
  destruct (insert capacity ratio h k v true) as [h' [p|]]; [|by destruct Hi].
  destruct Hi as (W' & Em & _). apply IH; [done|]. cbn. by rewrite Em, E.
Qed.

Lemma size_items h : wf h -> length (items h) = base.size (to_map h).
Proof.
  intros W. rewrite <- length_map_to_list. apply Permutation_length.
  symmetry. apply map_to_list_to_map. by apply NoDup_items.
Qed.
End Props.

(** * Theorems *)

(** C11: The hash map implements a finite map: after any sequence of
    insertions, [at] gives for every key a pointer to the value last inserted
    for it, and the null pointer exactly for the keys never inserted; the
    element count is the number of keys.  Whatever the bucket count and the
    size of the aggregates, and however the keys collide. *)
Theorem hashmap_refines_map {K V} `{Countable K, Key K, Inhabited V} (capacity ratio : nat)
    (kvs : list (K * V)) (k : K) :
  (0 < capacity)%nat -> (0 < ratio)%nat ->
  let h := build capacity ratio kvs in
  let m := build_map kvs in
  (p ← at_ capacity ratio h k; deref h p) = m !! k /\
  (at_ capacity ratio h k = None <-> m !! k = None) /\
  HashMap.size h = u64 (Z.of_nat (base.size m)).
Proof.
  intros Hc Hr h m. destruct (build_spec capacity ratio Hc Hr kvs) as [W E]. fold h m in W, E.
  pose proof (at_spec capacity ratio Hc Hr h k W) as Ha. rewrite E in Ha.
  split; [|split].
  - destruct (at_ capacity ratio h k) as [p|]; cbn; [by destruct Ha|done].
  - destruct (at_ capacity ratio h k) as [p|]; [|done]. destruct Ha as [_ [v Hv]]. by rewrite Hv.
  - rewrite <- E, <- (size_items capacity ratio Hc Hr h W). apply (wf_count _ _ _ W).
Qed.

(** Seven LAPIC identifiers in a map of two buckets of two slots: chains grow
    and keys are overwritten. *)
Definition sample : list (Z * Z) := [(0, 10); (1, 11); (2, 12); (3, 13); (4, 14); (0, 20); (5, 15)].

Lemma hashmap_refines_map_witness :
  (p ← at_ 2 2 (build 2 2 sample) 0; deref (build 2 2 sample) p) = Some 20 /\
  HashMap.size (build 2 2 sample) = 6.
Proof.
  destruct (hashmap_refines_map 2 2 sample 0 ltac:(lia) ltac:(lia)) as (H1 & _ & H3).
  split; [exact H1|exact H3].
Defined.

(** Iterating over the map, [for (auto it = begin(); it != end(); ++it)],
    ends and visits the value of every key exactly once. *)
Theorem iteration_enumerates {K V} `{Countable K, Key K, Inhabited V} (capacity ratio : nat)
    (kvs : list (K * V)) :
  (0 < capacity)%nat -> (0 < ratio)%nat -> Z.of_nat (base.size (build_map kvs)) < 2 ^ 64 ->
  let h := build capacity ratio kvs in
  exists l, l ≡ₚ map_to_list (build_map kvs) /\
    for_range capacity ratio (S (S (length l))) h (begin_ capacity ratio h) =
      Some (map (fun kv => Some kv.2) l).
Proof.
  intros Hc Hr H64 h. destruct (build_spec capacity ratio Hc Hr kvs) as [W E]. fold h in W, E.
  exists (items ratio h). split.
  - rewrite <- E. symmetry. apply map_to_list_to_map. apply (NoDup_items capacity ratio Hc Hr h W).
  - apply (for_range_spec capacity ratio Hc Hr h W). rewrite (size_items capacity ratio Hc Hr h W), E. done.
Qed.

Lemma iteration_enumerates_witness :
  exists l, l ≡ₚ map_to_list (build_map sample) /\
    for_range 2 2 (S (S (length l))) (build 2 2 sample) (begin_ 2 2 (build 2 2 sample)) =
      Some (map (fun kv => Some kv.2) l).
Proof. apply (iteration_enumerates 2 2 sample); [lia|lia|reflexivity]. Defined.

(** When the heap has no memory for an aggregate, an insertion either
    returns null and changes nothing, or did not need the memory. *)
Theorem insert_without_memory {K V} `{Countable K, Key K, Inhabited V} (capacity ratio : nat)
    (h : BasicHashMap K V) (k : K) (v : V) :
  insert capacity ratio h k v false = (h, None) \/
  insert capacity ratio h k v false = insert capacity ratio h k v true.
Proof.
  unfold insert. destruct (chain h (bucket capacity k)); [by left|].
  destruct (at_ capacity ratio h k) as [[[]]|]; [by right|].
  destruct (insert_chain ratio _ k v 0) as [[? []]|]; [by right|by left].
Qed.
