(* ===== verification/DataNode.v ===== *)
(** * Component: block trees ([DataNode] in [kernel/src/fs/NPFS.cpp])

    The blocks of a file or directory hang from a tree of 64-way junctions that
    grows at the root on demand.  The element type of a block is a parameter:
    bytes for a file, directory entries for a directory.  A pointer to a block
    is used only under the lock of its node, so it is the block number; a null
    pointer, an error status and a machine trap are distinct results. *)
From S2P Require Import Prelude.

Definition JUNCTION_SIZE : Z := 64.
Definition BLOCK_SIZE : Z := 0x1000.

(** The answers of the successive calls of [Heap::Allocate]; once the list is
    exhausted every call succeeds. *)
Definition answers := list bool.
Definition allocate (h : answers) : bool * answers :=
  match h with [] => (true, []) | b :: h => (b, h) end.

(** [FS::Status] (in [kernel/include/fs/Status.hpp]). *)
Inductive Status :=
  | SUCCESS | INVALID_PARAMETER | UNSUPPORTED | NOT_READY | DEVICE_ERROR | READ_PROTECTED
  | WRITE_PROTECTED | LOCK_PROTECTED | VOLUME_CORRUPTED | VOLUME_FULL | NOT_FOUND | ALREADY_EXISTS
  | UNAVAILABLE | ACCESS_DENIED | TIMEOUT | ABORTED | OUT_OF_BOUNDS | IN_USE.
#[export] Instance Status_eq_dec : EqDecision Status.
Proof. solve_decision. Defined.

(** Following the tree to a block: it may trap on a division by zero. *)
Inductive access (B : Type) := Trap | Null | Block (b : B).
Arguments Trap {B}. Arguments Null {B}. Arguments Block {B} b.

Section DataNode.
Context {A : Type} (zero : A) (block_len : nat).

#[warnings="-register-all"]
Inductive DataStorageVector :=
  | TerminalDataVector (data : list A)
  | DataJunction (depth : nat) (junction : list (option DataStorageVector)).

Definition new_terminal : DataStorageVector := TerminalDataVector (replicate block_len zero).
Definition new_junction (depth : nat) : DataStorageVector :=
  DataJunction depth (replicate (Z.to_nat JUNCTION_SIZE) None).
(** [DataJunction(depth, first)] *)
Definition new_root (depth : nat) (first : DataStorageVector) : DataStorageVector :=
  DataJunction depth (<[0%nat := Some first]> (replicate (Z.to_nat JUNCTION_SIZE) None)).

Definition GetDepth (v : DataStorageVector) : nat :=
  match v with TerminalDataVector _ => 0 | DataJunction depth _ => depth end.

(** [for (size_t r = 1; r < depth; ++r) reductor *= JUNCTION_SIZE;] *)
Definition reductor (depth : nat) : Z := Nat.iter (depth - 1) (fun r => u64 (r * JUNCTION_SIZE)) 1.

Definition child (junction : list (option DataStorageVector)) (i : Z) : option DataStorageVector :=
  default None (junction !! Z.to_nat i).

(** The recursion goes one level down per call: the fuel is the depth. *)
Fixpoint GetWeakBlock (fuel : nat) (v : DataStorageVector) (blockId : Z) : access (list A) :=
  match v, fuel with
  | TerminalDataVector _, _ => Null
  | DataJunction _ _, O => Trap
  | DataJunction depth junction, S fuel =>
      if (depth =? 1)%nat then
        if JUNCTION_SIZE <=? blockId then Null
        else
          match child junction blockId with
          | Some (TerminalDataVector data) => Block data
          | Some (DataJunction _ _) => Trap
          | None => Null
          end
      else
        let reductor := reductor depth in
        if reductor =? 0 then Trap
        else
          let junctionId := blockId / reductor in
          let subId := blockId mod reductor in
          if JUNCTION_SIZE <=? junctionId then Null
          else
            match child junction junctionId with
            | Some subVector => GetWeakBlock fuel subVector subId
            | None => Null
            end
  end.

(** The result of [GetBlock(blockId)]: the block exists afterwards, or an error. *)
Inductive fetched := Fetched | FetchError (e : Status) | FetchTrap.

Fixpoint GetBlock (fuel : nat) (v : DataStorageVector) (blockId : Z) (h : answers)
    : DataStorageVector * answers * fetched :=
  match v, fuel with
  | TerminalDataVector _, _ => (v, h, FetchTrap)   (* the base class: a null block *)
  | DataJunction _ _, O => (v, h, FetchTrap)
  | DataJunction depth junction, S fuel =>
      let update i c := DataJunction depth (<[Z.to_nat i := Some c]> junction) in
      if (depth =? 1)%nat then
        if JUNCTION_SIZE <=? blockId then (v, h, FetchError OUT_OF_BOUNDS)
        else
          match child junction blockId with
          | Some _ => (v, h, Fetched)
          | None =>
              let '(ok, h) := allocate h in
              if ok then (update blockId new_terminal, h, Fetched) else (v, h, FetchError DEVICE_ERROR)
          end
      else
        let reductor := reductor depth in
        if reductor =? 0 then (v, h, FetchTrap)
        else
          let junctionId := blockId / reductor in
          let subId := blockId mod reductor in
          if JUNCTION_SIZE <=? junctionId then (v, h, FetchError OUT_OF_BOUNDS)
          else
            match child junction junctionId with
            | Some subVector =>
                let '(sub, h, r) := GetBlock fuel subVector subId h in (update junctionId sub, h, r)
            | None =>
                let '(ok, h) := allocate h in
                if ok then
                  let '(sub, h, r) := GetBlock fuel (new_junction (depth - 1)) subId h in
                  (update junctionId sub, h, r)
                else (v, h, FetchError DEVICE_ERROR)
            end
  end.

(** Writing through a pointer to a block. *)
Fixpoint update_block (fuel : nat) (v : DataStorageVector) (blockId : Z) (f : list A -> list A)
    : DataStorageVector :=
  match v, fuel with
  | TerminalDataVector data, _ => TerminalDataVector (f data)
  | DataJunction _ _, O => v
  | DataJunction depth junction, S fuel =>
      let i := blockId / reductor depth in
      match child junction i with
      | Some c =>
          DataJunction depth
            (<[Z.to_nat i := Some (update_block fuel c (blockId mod reductor depth) f)]> junction)
      | None => v
      end
  end.

(** ** The node: the root vector *)

Definition DataNode := DataStorageVector.

(** [Construct]: a junction of depth one. *)
Definition Construct (h : answers) : option DataNode * answers :=
  let '(ok, h) := allocate h in (if ok then Some (new_junction 1) else None, h).

Definition node_GetWeakBlock (d : DataNode) (blockId : Z) : access (list A) :=
  GetWeakBlock (GetDepth d) d blockId.

(** The retry loop of [DataNode::GetBlock]: each failed attempt but the last
    adds a level at the root. *)
Fixpoint GetBlock_retry (remaining_attempts : nat) (d : DataNode) (blockId : Z) (h : answers) (r : fetched)
    : DataNode * answers * access unit :=
  match r with
  | Fetched => (d, h, Block tt)
  | FetchTrap => (d, h, Trap)
  | FetchError _ =>
      match remaining_attempts with
      | O | 1%nat => (d, h, Null)
      | S remaining_attempts =>
          let '(ok, h) := allocate h in
          if ok then
            let d := new_root (S (GetDepth d)) d in
            let '(d, h, r) := GetBlock (GetDepth d) d blockId h in
            GetBlock_retry remaining_attempts d blockId h r
          else (d, h, Null)
      end
  end.

Definition node_GetBlock (d : DataNode) (blockId : Z) (h : answers) : DataNode * answers * access unit :=
  let '(d, h, r) := GetBlock (GetDepth d) d blockId h in
  GetBlock_retry 5 d blockId h r.

Definition node_update (d : DataNode) (blockId : Z) (f : list A -> list A) : DataNode :=
  update_block (GetDepth d) d blockId f.

(** ** Specification: a tree of depth [d] is a partial map from the numbers
    below [64^d] to blocks *)

Definition span (d : nat) : Z := JUNCTION_SIZE ^ Z.of_nat d.

Fixpoint wf (d : nat) (v : DataStorageVector) : Prop :=
  match d, v with
  | O, TerminalDataVector data => length data = block_len
  | S d, DataJunction depth junction =>
      depth = S d /\ length junction = Z.to_nat JUNCTION_SIZE /\
      (forall i c, junction !! i = Some (Some c) -> wf d c)
  | _, _ => False
  end.

Fixpoint block_at (d : nat) (v : DataStorageVector) (id : Z) : option (list A) :=
  match d, v with
  | O, TerminalDataVector data => if id =? 0 then Some data else None
  | S d, DataJunction _ junction =>
      if (0 <=? id) && (id <? span (S d)) then c ← child junction (id / span d); block_at d c (id mod span d)
      else None
  | _, _ => None
  end.

Lemma span_S d : span (S d) = JUNCTION_SIZE * span d.
Proof. unfold span. rewrite Nat2Z.inj_succ, Z.pow_succ_r by lia. done. Qed.
Lemma span_pos d : 0 < span d.
Proof. unfold span, JUNCTION_SIZE. apply Z.pow_pos_nonneg; lia. Qed.

(** The loop that computes the divisor does not wrap up to depth 11. *)
Lemma reductor_span d : (d <= 10)%nat -> reductor (S d) = span d.
Proof.
  unfold reductor. cbn [Nat.sub]. rewrite Nat.sub_0_r. induction d as [|d IH]; intros Hd; [done|].
  rewrite Nat.iter_succ, IH by lia. rewrite span_S, Z.mul_comm. apply wrap_small.
  rewrite <- span_S. split; [pose proof (span_pos (S d)); lia|].
  unfold span, JUNCTION_SIZE. change 64 with (2 ^ 6). rewrite <- Z.pow_mul_r by lia.
  apply Z.pow_lt_mono_r; lia.
Qed.

(** ... and is zero from depth 12 on. *)
Lemma reductor_wraps d : (12 <= d)%nat -> reductor d = 0.
Proof.
  intros Hd. unfold reductor. replace (d - 1)%nat with ((d - 12) + 11)%nat by lia.
  generalize (d - 12)%nat as n. induction n as [|n IH]; [reflexivity|]. cbn [Nat.add]. by rewrite Nat.iter_succ, IH.
Qed.

Lemma child_lookup junction i c : child junction i = Some c <-> junction !! Z.to_nat i = Some (Some c).
Proof. unfold child. destruct (junction !! _) as [[]|]; cbn; naive_solver. Qed.

Lemma wf_depth d v : wf d v -> GetDepth v = d.
Proof. destruct d, v; cbn; try done. by intros [-> _]. Qed.

Lemma div_span id d : 0 <= id < span (S d) -> 0 <= id / span d < JUNCTION_SIZE /\ 0 <= id mod span d < span d.
Proof.
  intros Hid. pose proof (span_pos d). rewrite span_S in Hid. split; [|apply Z.mod_pos_bound; lia].
  split; [apply Z.div_pos; lia|]. apply Z.div_lt_upper_bound; lia.
Qed.

Lemma div_span_ge id d : span (S d) <= id -> JUNCTION_SIZE <= id / span d.
Proof. intros Hid. pose proof (span_pos d). rewrite span_S in Hid. apply Z.div_le_lower_bound; lia. Qed.

(** The code's search finds what the specification says. *)
Lemma GetWeakBlock_spec d : forall v id,
  wf (S d) v -> (d <= 10)%nat -> 0 <= id ->
  GetWeakBlock (S d) v id = match block_at (S d) v id with Some b => Block b | None => Null end.
Proof.
  induction d as [|d IH]; intros [data|depth j] id Hwf Hd Hid; try done.
  - destruct Hwf as (-> & Hj & Hc). cbn -[span child]. change (span 0) with 1. change (span 1) with 64.
    rewrite (proj2 (Z.leb_le 0 id) Hid), Z.div_1_r, Z.mod_1_r. cbn [andb].
    unfold JUNCTION_SIZE. destruct (Z.leb_spec 64 id), (Z.ltb_spec id 64); try lia; [done|].
    destruct (child j id) as [c|] eqn:Ec; [|done]. apply child_lookup in Ec. specialize (Hc _ _ Ec). by destruct c.
  - destruct Hwf as (-> & Hj & Hc). remember (S d) as d1 eqn:Ed1. cbn [GetWeakBlock block_at].
    rewrite (proj2 (Nat.eqb_neq (S d1) 1)) by lia. rewrite reductor_span by lia.
    pose proof (span_pos d1). rewrite (proj2 (Z.eqb_neq (span d1) 0)) by lia.
    rewrite (proj2 (Z.leb_le 0 id) Hid). cbn [andb].
    destruct (Z.ltb_spec id (span (S d1))) as [Hlt|Hge].
    + destruct (div_span id d1) as [? ?]; [lia|]. rewrite (proj2 (Z.leb_gt _ _)) by lia.
      destruct (child j (id / span d1)) as [c|] eqn:Ec; [|done]. apply child_lookup in Ec. cbn.
      subst d1. apply IH; [by eapply Hc|lia|lia].
    + rewrite (proj2 (Z.leb_le _ _)); [done|by apply div_span_ge].
Qed.
End DataNode.
