(* ===== verification/DataNodeProps.v ===== *)
(** * Block trees implement partial maps from block numbers to blocks *)
From S2P Require Import Prelude DataNode.

Section Props.
Context {A : Type} (zero : A) (block_len : nat).
#[local] Abbreviation vector := (DataStorageVector (A := A)).
#[local] Abbreviation wf := (wf block_len).
#[local] Abbreviation zeros := (replicate block_len zero).

Definition all_ok (h : answers) : Prop := Forall (fun b => b = true) h.

Lemma allocate_ok h : all_ok h -> exists h', allocate h = (true, h') /\ all_ok h'.
Proof. intros [|b h' Hb Hh]; cbn; [by exists []; repeat constructor|exists h'; by subst]. Qed.

Lemma block_at_range d (v : vector) k b : block_at d v k = Some b -> 0 <= k < span d.
Proof.
  destruct d as [|d], v as [data|depth j]; cbn -[span]; try done.
  - destruct (Z.eqb_spec k 0); [|done]. intros _. change (span 0) with 1. lia.
  - destruct (Z.leb_spec 0 k), (Z.ltb_spec k (span (S d))); cbn; try done; lia.
Qed.

Lemma block_at_out d (v : vector) k : ~ 0 <= k < span d -> block_at d v k = None.
Proof. intros Hk. destruct (block_at d v k) eqn:E; [|done]. by apply block_at_range in E. Qed.

Lemma block_at_junction d depth (j : list (option vector)) k :
  0 <= k < span (S d) ->
  block_at (S d) (DataJunction depth j) k = c ← child j (k / span d); block_at d c (k mod span d).
Proof.
  intros Hk. cbn -[span]. rewrite (proj2 (Z.leb_le 0 k)), (proj2 (Z.ltb_lt k _)) by lia. done.
Qed.

Lemma child_insert (j : list (option vector)) i i' c :
  length j = Z.to_nat JUNCTION_SIZE -> 0 <= i < JUNCTION_SIZE -> 0 <= i' ->
  child (<[Z.to_nat i := Some c]> j) i' = if i' =? i then Some c else child j i'.
Proof.
  intros Hj Hi Hi'. unfold child. destruct (Z.eqb_spec i' i) as [->|Hne].
  - by rewrite list_lookup_insert_eq by lia.
  - by rewrite list_lookup_insert_ne by lia.
Qed.

(** Replacing the subtree [id] is in. *)
Lemma block_at_insert d depth (j : list (option vector)) id c k :
  length j = Z.to_nat JUNCTION_SIZE -> 0 <= id < span (S d) ->
  block_at (S d) (DataJunction depth (<[Z.to_nat (id / span d) := Some c]> j)) k =
    if (0 <=? k) && (k <? span (S d)) && (k / span d =? id / span d) then block_at d c (k mod span d)
    else block_at (S d) (DataJunction depth j) k.
Proof.
  intros Hj Hid. destruct (decide (0 <= k < span (S d))) as [Hk|Hk].
  - destruct (div_span id d Hid) as [? ?], (div_span k d Hk) as [? ?].
    rewrite !block_at_junction, child_insert by (done || lia).
    rewrite (proj2 (Z.leb_le 0 k)), (proj2 (Z.ltb_lt k _)) by lia. cbn [andb].
    by destruct (k / span d =? id / span d).
  - rewrite block_at_out by done. destruct ((0 <=? k) && _ && _) eqn:E; [exfalso; lia|]. by rewrite block_at_out.
Qed.

Lemma same_slot k id d : 0 <= k < span (S d) -> 0 <= id < span (S d) ->
  k = id <-> k / span d = id / span d /\ k mod span d = id mod span d.
Proof.
  intros Hk Hid. pose proof (span_pos d). split; [by intros ->|]. intros [H1 H2].
  rewrite (Z.div_mod k (span d)), (Z.div_mod id (span d)) by lia. by rewrite H1, H2.
Qed.

Lemma wf_insert d (j : list (option vector)) i c :
  wf (S d) (DataJunction (S d) j) -> wf d c -> wf (S d) (DataJunction (S d) (<[i := Some c]> j)).
Proof.
  intros (_ & Hj & Hc) Hw. split; [done|]. rewrite length_insert. split; [done|].
  intros i' c' E. apply list_lookup_insert_Some in E as [(-> & E & _)|[_ E]]; [by injection E as <-|by eapply Hc].
Qed.

Lemma child_empty i : child (replicate (Z.to_nat JUNCTION_SIZE) (None : option vector)) i = None.
Proof. unfold child. destruct (_ !! _) eqn:E; [|done]. apply lookup_replicate in E as [-> _]. done. Qed.

Lemma wf_new_node d : wf (S d) (new_junction (S d) : vector).
Proof.
  split; [done|]. split; [apply length_replicate|]. intros i c E. apply lookup_replicate in E as [E _]. done.
Qed.

Lemma block_at_new d k : block_at (S d) (new_junction (S d) : vector) k = None.
Proof. cbn -[span]. destruct (_ && _); [|done]. by rewrite child_empty. Qed.

(** Growing at the root keeps every block where it was. *)
Lemma wf_new_root d (v : vector) : wf (S d) v -> wf (S (S d)) (new_root (S (S d)) v).
Proof. intros Hv. apply (wf_insert (S d)); [apply wf_new_node|done]. Qed.

Lemma block_at_new_root d (v : vector) k : block_at (S (S d)) (new_root (S (S d)) v) k = block_at (S d) v k.
Proof.
  pose proof (span_pos (S d)). pose proof (span_S (S d)) as Hs. unfold JUNCTION_SIZE in Hs.
  pose proof (block_at_insert (S d) (S (S d)) (replicate (Z.to_nat JUNCTION_SIZE) None) 0 v k
    (length_replicate _ _) ltac:(lia)) as E.
  rewrite Z.div_0_l in E by lia. change (Z.to_nat 0) with 0%nat in E. unfold new_root. rewrite E.
  destruct (decide (0 <= k < span (S d))) as [Hk|Hk].
  - rewrite Z.div_small, Z.mod_small by lia. rewrite (proj2 (Z.leb_le 0 k)), (proj2 (Z.ltb_lt k _)) by lia. done.
  - rewrite (block_at_out (S d) v k Hk). destruct ((0 <=? k) && _ && _) eqn:Eb.
    + apply andb_prop in Eb as [Eb E0%Z.eqb_eq]. apply Z.div_small_iff in E0; lia.
    + apply (block_at_new (S d)).
Qed.

(** ** Fetching a block *)

(** What fetching block [id] of a tree [v] of depth [S d] does. *)
Definition fetch_post (d : nat) (v : vector) (id : Z) (h : answers)
    (res : vector * answers * fetched) : Prop :=
  let '(v', h', r) := res in
  wf (S d) v' /\ (all_ok h -> all_ok h') /\
  match r with
  | Fetched => id < span (S d) /\
      forall k, block_at (S d) v' k =
        if k =? id then Some (default zeros (block_at (S d) v id)) else block_at (S d) v k
  | FetchError e => (forall k, block_at (S d) v' k = block_at (S d) v k) /\ (all_ok h -> span (S d) <= id)
  | FetchTrap => False
  end.

Lemma fetch_unchanged d v id h h' e :
  wf (S d) v -> (all_ok h -> all_ok h') -> (all_ok h -> span (S d) <= id) ->
  fetch_post d v id h (v, h', FetchError e).
Proof. by repeat split. Qed.

Lemma allocate_fails h h' : allocate h = (false, h') -> ~ all_ok h.
Proof. intros E Hh. destruct (allocate_ok h Hh) as (h2 & E2 & _). congruence. Qed.

Lemma allocate_rest h ok h' : allocate h = (ok, h') -> all_ok h -> all_ok h'.
Proof. intros E Hh. destruct (allocate_ok h Hh) as (h2 & E2 & ?). rewrite E in E2. by injection E2 as _ ->. Qed.

Lemma fetch_terminal (v : vector) id h :
  wf 1 v -> 0 <= id -> fetch_post 0 v id h (GetBlock zero block_len 1 v id h).
Proof.
  destruct v as [data|depth j]; [done|]. intros Hwf Hid. pose proof Hwf as (-> & Hj & Hc). cbn [GetBlock Nat.eqb].
  destruct (Z.leb_spec JUNCTION_SIZE id) as [Hge|Hlt]; [by apply fetch_unchanged|].
  assert (Hat : forall k c, 0 <= k < JUNCTION_SIZE ->
    block_at 1 (DataJunction c j) k = c ← child j k; block_at 0 c 0).
  { intros k c Hk. rewrite (block_at_junction 0) by done. change (span 0) with 1. by rewrite Z.div_1_r, Z.mod_1_r. }
  destruct (child j id) as [c|] eqn:Ec.
  { repeat (split; [done|]). intros k. destruct (Z.eqb_spec k id) as [->|]; [|done].
    rewrite Hat, Ec by lia. apply child_lookup in Ec. specialize (Hc _ _ Ec). by destruct c. }
  destruct (allocate h) as [[|] h'] eqn:Eh.
  2:{ apply fetch_unchanged; [done|eauto using allocate_rest|]. by intros ?%(allocate_fails h h'). }
  split; [apply (wf_insert 0); [done|apply length_replicate]|]. split; [eauto using allocate_rest|].
  split; [done|]. intros k.
  pose proof (block_at_insert 0 1 j id (new_terminal zero block_len) k Hj ltac:(change (span 1) with JUNCTION_SIZE; lia)) as E.
  change (span 1) with JUNCTION_SIZE in E. change (span 0) with 1 in E. rewrite !Z.div_1_r, Z.mod_1_r in E.
  rewrite E, (Hat id), Ec by lia. clear E. destruct (Z.eqb_spec k id) as [->|Hne].
  - by rewrite (proj2 (Z.leb_le 0 id)), (proj2 (Z.ltb_lt id _)) by lia.
  - by rewrite andb_false_r.
Qed.

(** Fetching in the subtree [c] that stands, or is put, in the slot of [id]. *)
Lemma fetch_subtree d (j : list (option vector)) id h c ha :
  wf (S (S d)) (DataJunction (S (S d)) j) -> 0 <= id < span (S (S d)) ->
  wf (S d) c -> (all_ok h -> all_ok ha) ->
  (forall k, block_at (S d) c k = c0 ← child j (id / span (S d)); block_at (S d) c0 k) ->
  fetch_post d c (id mod span (S d)) ha (GetBlock zero block_len (S d) c (id mod span (S d)) ha) ->
  fetch_post (S d) (DataJunction (S (S d)) j) id h
    (let '(sub, h, r) := GetBlock zero block_len (S d) c (id mod span (S d)) ha in
     (DataJunction (S (S d)) (<[Z.to_nat (id / span (S d)) := Some sub]> j), h, r)).
Proof.
  intros Hwf Hr Hwc Hha Hcj IH. pose proof Hwf as (_ & Hj & Hc). remember (S d) as d1 eqn:Ed1.
  destruct (GetBlock zero block_len d1 c _ ha) as [[sub h'] r]. rewrite Ed1 in IH. cbn [fetch_post] in IH. rewrite <- Ed1 in IH.
  destruct IH as (Hws & Hh' & IH). split; [by apply wf_insert|]. split; [auto|].
  assert (Eold : forall k, 0 <= k < span (S d1) -> k / span d1 = id / span d1 ->
    block_at (S d1) (DataJunction (S d1) j) k = block_at d1 c (k mod span d1)).
  { intros k Hk Hkq. by rewrite block_at_junction, Hkq, Hcj by done. }
  destruct r as [|e|]; [|destruct IH as [IH Hal]|done].
  - destruct IH as [_ IH]. split; [lia|]. intros k. rewrite block_at_insert by (done || lia).
    destruct ((0 <=? k) && _ && _) eqn:Eb.
    + apply andb_prop in Eb as [Ek Eq%Z.eqb_eq]. assert (Hk : 0 <= k < span (S d1)) by lia.
      rewrite IH, (Eold k Hk Eq), (Eold id Hr eq_refl).
      destruct (Z.eqb_spec k id) as [->|Hne]; [by rewrite Z.eqb_refl|].
      rewrite (proj2 (Z.eqb_neq (k mod _) _)); [done|]. intros E. apply Hne, (same_slot k id d1); auto.
    + destruct (Z.eqb_spec k id) as [->|]; [|done]. rewrite Z.eqb_refl, andb_true_r in Eb. lia.
  - split.
    + intros k. rewrite block_at_insert by (done || lia). destruct ((0 <=? k) && _ && _) eqn:Eb; [|done].
      apply andb_prop in Eb as [Ek Eq%Z.eqb_eq]. rewrite IH. symmetry. apply Eold; [lia|done].
    + intros Hh. specialize (Hal (Hha Hh)). pose proof (div_span id d1 Hr). lia.
Qed.

Lemma GetBlock_spec d : forall (v : vector) id h,
  wf (S d) v -> (d <= 10)%nat -> 0 <= id -> fetch_post d v id h (GetBlock zero block_len (S d) v id h).
Proof.
  induction d as [|d IH]; intros v id h Hwf Hd Hid; [by apply fetch_terminal|].
  destruct v as [data|depth j]; [done|]. pose proof Hwf as (-> & Hj & Hc). remember (S d) as d1 eqn:Ed1.
  cbn [GetBlock]. rewrite (proj2 (Nat.eqb_neq (S d1) 1)) by lia. rewrite reductor_span by lia.
  pose proof (span_pos d1). rewrite (proj2 (Z.eqb_neq (span d1) 0)) by lia.
  destruct (Z.leb_spec JUNCTION_SIZE (id / span d1)) as [Hge|Hlt].
  { apply fetch_unchanged; [done|done|]. intros _.
    destruct (Z.le_gt_cases (span (S d1)) id) as [|Hx]; [done|]. destruct (div_span id d1); lia. }
  assert (Hr : 0 <= id < span (S d1)).
  { split; [done|]. destruct (Z.le_gt_cases (span (S d1)) id) as [Hx|]; [|done].
    pose proof (div_span_ge id d1 Hx). lia. }
  pose proof (div_span id d1 Hr) as [Hq Hm]. subst d1.
  destruct (child j (id / span (S d))) as [c|] eqn:Ec.
  - assert (Hwc : wf (S d) c) by (apply child_lookup in Ec; by eapply Hc).
    apply fetch_subtree; [done|done|done|done|by rewrite Ec|apply IH; [done|lia|lia]].
  - destruct (allocate h) as [[|] ha] eqn:Eh.
    + apply fetch_subtree; [done|done|apply wf_new_node|eauto using allocate_rest| |apply IH; [apply wf_new_node|lia|lia]].
      intros k. by rewrite block_at_new, Ec.
    + apply fetch_unchanged; [done|eauto using allocate_rest|]. by intros ?%(allocate_fails h ha).
Qed.

(** ** The node *)

(** The blocks of a node. *)
Definition blocks (d : vector) (k : Z) : option (list A) := block_at (GetDepth d) d k.

Definition with_block (b : Z -> option (list A)) (id : Z) (k : Z) : option (list A) :=
  if k =? id then Some (default zeros (b id)) else b k.

(** The state of the retry loop at depth [S d] with result [r], relative to the
    blocks [B] the call started with; [P] says that no allocation fails. *)
Definition retry_inv (P : Prop) (B : Z -> option (list A)) (id : Z) (d : nat) (v : vector) (h : answers)
    (r : fetched) : Prop :=
  wf (S d) v /\ (P -> all_ok h) /\
  match r with
  | Fetched => id < span (S d) /\ forall k, block_at (S d) v k = with_block B id k
  | FetchError _ => (forall k, block_at (S d) v k = B k) /\ (P -> span (S d) <= id)
  | FetchTrap => False
  end.

Lemma retry_grow P B id d v h e :
  0 <= id -> (d < 10)%nat -> retry_inv P B id d v h (FetchError e) ->
  let '(v', h', r') := GetBlock zero block_len (S (S d)) (new_root (S (S d)) v) id h in
  retry_inv P B id (S d) v' h' r'.
Proof.
  intros Hid Hd (Hw & Hh & Hb & _).
  pose proof (GetBlock_spec (S d) (new_root (S (S d)) v) id h (wf_new_root d v Hw) ltac:(lia) Hid) as Hg.
  destruct (GetBlock _ _ _ _ _ _) as [[v1 h1] r1]. destruct Hg as (Hw1 & Hh1 & Hg).
  split; [done|]. split; [auto|]. destruct r1 as [|e1|]; [| |done]; destruct Hg as [Hg1 Hg2].
  - split; [done|]. intros k. rewrite Hg2. unfold with_block. by rewrite !block_at_new_root, !Hb.
  - split; [intros k; by rewrite Hg1, block_at_new_root|auto].
Qed.

Lemma retry_spec P B id : 0 <= id -> forall n d v h r,
  retry_inv P B id d v h r -> (d + n <= 10)%nat ->
  let '(v', h', res) := GetBlock_retry zero block_len (S n) v id h r in
  (P -> all_ok h') /\ exists d', (d <= d' <= d + n)%nat /\ wf (S d') v' /\
  match res with
  | Block _ => id < span (S d') /\ (P -> d' = d \/ span d' <= id) /\
      forall k, block_at (S d') v' k = with_block B id k
  | Null => (forall k, block_at (S d') v' k = B k) /\ (P -> span (S (d + n)) <= id)
  | Trap => False
  end.
Proof.
  intros Hid. induction n as [|n IH]; intros d v h r Hinv Hd; pose proof Hinv as (Hw & Hh & Hr).
  - destruct r as [|e|]; [| |done]; (split; [done|]); exists d; (split; [lia|]); (split; [done|]); [naive_solver|].
    rewrite Nat.add_0_r. done.
  - destruct r as [|e|]; [split; [done|]; exists d; split; [lia|naive_solver]| |done].
    change (GetBlock_retry zero block_len (S (S n)) v id h (FetchError e)) with
      (let '(ok, h) := allocate h in
       if ok then
         let d := new_root (S (GetDepth v)) v in
         let '(d, h, r) := GetBlock zero block_len (GetDepth d) d id h in
         GetBlock_retry zero block_len (S n) d id h r
       else (v, h, Null)).
    destruct (allocate h) as [[|] h1] eqn:Eh.
    2:{ split; [eauto using allocate_rest|]. exists d. split; [lia|]. split; [done|]. split; [apply Hr|]. intros HP. by destruct (allocate_fails h h1 Eh (Hh HP)). }
    rewrite (wf_depth _ _ _ Hw). cbv zeta. cbn [GetDepth new_root].
    pose proof (retry_grow P B id d v h1 e Hid ltac:(lia)) as Hg.
    assert (Hinv1 : retry_inv P B id d v h1 (FetchError e)) by (split; [done|]; split; [eauto using allocate_rest|done]).
    specialize (Hg Hinv1). destruct (GetBlock _ _ _ _ _ _) as [[v1 h2] r1].
    specialize (IH (S d) v1 h2 r1 Hg ltac:(lia)).
    destruct (GetBlock_retry _ _ _ _ _ _ _) as [[v2 h3] res]. destruct IH as (Hh3 & d' & ? & ? & IH).
    split; [done|]. exists d'. split; [lia|]. split; [done|]. rewrite Nat.add_succ_comm in IH. destruct res as [| |b]; [done|done|].
    destruct IH as (? & Hmin & ?). split; [done|]. split; [|done]. intros HP. right.
    destruct (Hmin HP) as [->|]; [by apply Hr|done].
Qed.

Lemma node_GetBlock_spec (v : vector) id h n :
  wf (S n) v -> (n <= 6)%nat -> 0 <= id ->
  let '(v', h', res) := node_GetBlock zero block_len v id h in
  (all_ok h -> all_ok h') /\ exists n', (n <= n' <= n + 4)%nat /\ wf (S n') v' /\
  match res with
  | Block _ => id < span (S n') /\ (all_ok h -> n' = n \/ span n' <= id) /\
      forall k, blocks v' k = with_block (blocks v) id k
  | Null => (forall k, blocks v' k = blocks v k) /\ (all_ok h -> span (n + 5) <= id)
  | Trap => False
  end.
Proof.
  intros Hw Hn Hid. unfold node_GetBlock. rewrite (wf_depth _ _ _ Hw).
  pose proof (GetBlock_spec n v id h Hw ltac:(lia) Hid) as Hg.
  destruct (GetBlock _ _ _ _ _ _) as [[v1 h1] r1]. destruct Hg as (Hw1 & Hh1 & Hg).
  pose proof (retry_spec (all_ok h) (blocks v) id Hid 4 n v1 h1 r1) as Hr.
  assert (Eb : forall k, blocks v k = block_at (S n) v k) by (intros k; unfold blocks; by rewrite (wf_depth _ _ _ Hw)).
  assert (Hinv : retry_inv (all_ok h) (blocks v) id n v1 h1 r1).
  { split; [done|]. split; [done|]. destruct r1 as [|e|]; [| |done]; destruct Hg as [Hg1 Hg2].
    - split; [done|]. intros k. rewrite Hg2. unfold with_block. by rewrite !Eb.
    - split; [|done]. intros k. by rewrite Hg1, Eb. }
  specialize (Hr Hinv ltac:(lia)). destruct (GetBlock_retry _ _ _ _ _ _ _) as [[v2 h2] res].
  destruct Hr as (Hh2 & n' & Hn' & Hw' & Hr). split; [done|]. exists n'. split; [done|]. split; [done|].
  assert (Eb' : forall k, blocks v2 k = block_at (S n') v2 k) by (intros k; unfold blocks; by rewrite (wf_depth _ _ _ Hw')).
  destruct res as [| |b]; [done| |].
  - destruct Hr as [Hr1 Hr2]. split; [intros k; by rewrite Eb', Hr1|]. intros Hh. replace (n + 5)%nat with (S (n + 4)) by lia. auto.
  - destruct Hr as (Hr1 & Hr2 & Hr3). split; [done|]. split; [done|]. intros k. by rewrite Eb', Hr3.
Qed.

Lemma span_mono a b : (a <= b)%nat -> span a <= span b.
Proof. intros. unfold span, JUNCTION_SIZE. apply Z.pow_le_mono_r; lia. Qed.

(** Nodes of depth at most five, and the blocks they reach: with memory a
    fetch succeeds and the node stays one. *)
Definition node_ok (v : vector) : Prop := exists n, wf (S n) v /\ (n <= 4)%nat.

Lemma node_GetBlock_ok (v : vector) id h :
  node_ok v -> all_ok h -> 0 <= id < span 5 ->
  exists v' h', node_GetBlock zero block_len v id h = (v', h', Block tt) /\ node_ok v' /\ all_ok h' /\
    forall k, blocks v' k = with_block (blocks v) id k.
Proof.
  intros (n & Hw & Hn) Hh Hid. pose proof (node_GetBlock_spec v id h n Hw ltac:(lia) ltac:(lia)) as Hg.
  destruct (node_GetBlock _ _ _ _ _) as [[v1 h1] res]. destruct Hg as (Hh1 & n1 & Hn1 & Hw1 & Hg).
  destruct res as [| |[]]; [done| |].
  { exfalso. destruct Hg as [_ Hg]. specialize (Hg Hh). pose proof (span_mono 5 (n + 5) ltac:(lia)). lia. }
  destruct Hg as (_ & Hmin & Hg). exists v1, h1. split; [done|]. split; [|auto]. exists n1. split; [done|].
  destruct (Hmin Hh) as [->|Hge]; [done|]. destruct (decide (n1 <= 4)%nat); [done|exfalso].
  pose proof (span_mono 5 n1 ltac:(lia)). lia.
Qed.

(** ** Writing in a block *)

Lemma update_block_spec f d : (d <= 11)%nat -> forall (v : vector) id b,
  wf d v -> block_at d v id = Some b -> length (f b) = block_len ->
  wf d (update_block d v id f) /\
  forall k, block_at d (update_block d v id f) k = if k =? id then Some (f b) else block_at d v k.
Proof.
  induction d as [|d IH]; intros Hd [data|depth j] id b Hw Hb Hf; try done.
  - cbn in *. destruct (Z.eqb_spec id 0); [|done]. injection Hb as ->. subst id. split; [done|]. intros k.
    by destruct (k =? 0).
  - pose proof (block_at_range _ _ _ _ Hb) as Hid. rewrite block_at_junction in Hb by done.
    pose proof Hw as (-> & Hj & Hc). cbn [update_block]. rewrite reductor_span by lia.
    destruct (child j (id / span d)) as [c|] eqn:Ec; [|done]. cbn in Hb.
    assert (Hwc : wf d c) by (apply child_lookup in Ec; by eapply Hc).
    destruct (IH ltac:(lia) c (id mod span d) b Hwc Hb Hf) as [Hw' Hb'].
    split; [by apply wf_insert|]. intros k. rewrite block_at_insert by (done || lia).
    destruct ((0 <=? k) && _ && _) eqn:Eb.
    + apply andb_prop in Eb as [Ek Eq%Z.eqb_eq]. assert (Hk : 0 <= k < span (S d)) by lia.
      rewrite Hb', (block_at_junction d (S d) j k Hk), Eq, Ec. cbn [mbind option_bind].
      destruct (Z.eqb_spec k id) as [->|Hne]; [by rewrite Z.eqb_refl|].
      rewrite (proj2 (Z.eqb_neq (k mod _) _)); [done|]. intros E. apply Hne, (same_slot k id d); auto.
    + destruct (Z.eqb_spec k id) as [->|]; [|done]. rewrite Z.eqb_refl, andb_true_r in Eb. lia.
Qed.

Lemma node_update_spec f (v : vector) id b n :
  wf (S n) v -> (n <= 10)%nat -> blocks v id = Some b -> length (f b) = block_len ->
  wf (S n) (node_update v id f) /\
  forall k, blocks (node_update v id f) k = if k =? id then Some (f b) else blocks v k.
Proof.
  intros Hw Hn Hb Hf. unfold node_update, blocks in *. rewrite (wf_depth _ _ _ Hw) in *.
  destruct (update_block_spec f (S n) ltac:(lia) v id b Hw Hb Hf) as [Hw' Hb'].
  split; [done|]. intros k. by rewrite (wf_depth _ _ _ Hw').
Qed.

Lemma node_GetWeakBlock_spec (v : vector) id n :
  wf (S n) v -> (n <= 10)%nat -> 0 <= id ->
  node_GetWeakBlock v id = match blocks v id with Some b => Block b | None => Null end.
Proof.
  intros Hw Hn Hid. unfold node_GetWeakBlock, blocks. rewrite (wf_depth _ _ _ Hw).
  by apply (GetWeakBlock_spec block_len).
Qed.

Lemma block_length d : forall (v : vector) id b, wf d v -> block_at d v id = Some b -> length b = block_len.
Proof.
  induction d as [|d IH]; intros [data|depth j] id b Hw Hb; try done.
  - cbn in *. destruct (id =? 0); [|done]. by injection Hb as <-.
  - pose proof (block_at_range _ _ _ _ Hb) as Hid. rewrite block_at_junction in Hb by done.
    destruct (child j _) as [c|] eqn:Ec; [|done]. apply child_lookup in Ec.
    destruct Hw as (_ & _ & Hc). eapply IH; [by eapply Hc|exact Hb].
Qed.

Lemma blocks_length (v : vector) id b : node_ok v -> blocks v id = Some b -> length b = block_len.
Proof. intros (n & Hw & _). unfold blocks. rewrite (wf_depth _ _ _ Hw). by apply block_length. Qed.

Lemma node_update_ok f (v : vector) id b :
  node_ok v -> blocks v id = Some b -> length (f b) = block_len ->
  node_ok (node_update v id f) /\ forall k, blocks (node_update v id f) k = if k =? id then Some (f b) else blocks v k.
Proof.
  intros (n & Hw & Hn) Hb Hf. destruct (node_update_spec f v id b n Hw ltac:(lia) Hb Hf). split; [by exists n|done].
Qed.

Lemma node_GetWeakBlock_ok (v : vector) id :
  node_ok v -> 0 <= id -> node_GetWeakBlock v id = match blocks v id with Some b => Block b | None => Null end.
Proof. intros (n & Hw & Hn) Hid. apply (node_GetWeakBlock_spec v id n); [done|lia|done]. Qed.

Lemma node_new_ok : node_ok (new_junction 1) /\ forall k, blocks (new_junction 1 : vector) k = None.
Proof. split; [exists 0%nat; split; [apply wf_new_node|lia]|]. apply (block_at_new 0). Qed.
End Props.

(** * Theorems *)

Section Node.
Context {A : Type} (zero : A) (block_len : nat).

(** Operations on a node, as its users make them: ask for a block and write in
    it, or look one up. *)
Inductive node_op := Put (id : Z) (data : list A) | Get (id : Z).

Fixpoint node_run (v : DataStorageVector (A := A)) (h : answers) (ops : list node_op)
    : DataStorageVector * list (access (list A)) :=
  match ops with
  | [] => (v, [])
  | Put id data :: ops =>
      let '(v, h, r) := node_GetBlock zero block_len v id h in
      match r with
      | Block _ => node_run (node_update v id (fun _ => data)) h ops
      | _ => let '(v, rs) := node_run v h ops in (v, rs)
      end
  | Get id :: ops => let '(v', rs) := node_run v h ops in (v', node_GetWeakBlock v id :: rs)
  end.

(** The same on a finite map, given which fetches find their block. *)
Fixpoint map_run (m : gmap Z (list A)) (ops : list node_op) : list (access (list A)) :=
  match ops with
  | [] => []
  | Put id data :: ops => map_run (<[id := data]> m) ops
  | Get id :: ops => match m !! id with Some b => Block b | None => Null end :: map_run m ops
  end.

Definition op_ok (o : node_op) : Prop :=
  match o with Put id data => 0 <= id < span 5 /\ length data = block_len | Get id => 0 <= id end.

Lemma node_run_map ops : forall v h m,
  node_ok block_len v -> all_ok h -> Forall op_ok ops -> (forall k, blocks v k = m !! k) ->
  (node_run v h ops).2 = map_run m ops.
Proof.
  induction ops as [|[id data|id] ops IH]; intros v h m Hw Hh Ho Hm; [done| |];
    apply Forall_cons in Ho as [Ho' Ho]; cbn [node_run map_run].
  - destruct Ho' as [Hid Hlen].
    destruct (node_GetBlock_ok zero block_len v id h Hw Hh ltac:(lia)) as (v1 & h1 & -> & Hw1 & Hh1 & Hg).
    assert (Hb : exists b0, blocks v1 id = Some b0) by (rewrite Hg; unfold with_block; rewrite Z.eqb_refl; eauto).
    destruct Hb as [b0 Hb].
    destruct (node_update_ok block_len (fun _ => data) v1 id b0 Hw1 Hb Hlen) as [Hw2 Hb2].
    apply IH; [done..|]. intros k. rewrite Hb2, Hg. unfold with_block.
    destruct (Z.eqb_spec k id) as [->|Hne]; [by rewrite lookup_insert_eq|]. by rewrite lookup_insert_ne.
  - specialize (IH v h m Hw Hh Ho Hm). destruct (node_run v h ops) as [v' rs]. cbn in *.
    by rewrite IH, (node_GetWeakBlock_ok block_len v id), Hm by done.
Qed.
End Node.

(** C12: A block tree is a partial map: from an empty node, with memory, any
    sequence of fetch-and-write and of lookups of blocks below 2^30 replies what
    a finite map replies, although the tree grows at its root in between. *)
Theorem tree_refines_map {A} (zero : A) (block_len : nat) (ops : list (node_op (A := A))) :
  Forall (op_ok block_len) ops ->
  exists v, (Construct []).1 = Some v /\ (node_run zero block_len v [] ops).2 = map_run ∅ ops.
Proof.
  intros Ho. eexists. split; [reflexivity|]. destruct (node_new_ok (A := A) block_len) as [Hok Hnew].
  apply (node_run_map zero block_len ops); [done|constructor|done|].
  intros k. by rewrite lookup_empty, Hnew.
Qed.

Lemma tree_refines_map_witness :
  exists v, (Construct []).1 = Some v /\
    (node_run 0 2 v [] [Put 3 [1; 2]; Put 70000 [5; 6]; Get 3; Get 4; Get 70000]).2 =
      [Block [1; 2]; Null; Block [5; 6]].
Proof.
  apply (tree_refines_map 0 2 [Put 3 [1; 2]; Put 70000 [5; 6]; Get 3; Get 4; Get 70000]).
  repeat constructor; cbn; lia || reflexivity.
Defined.

(** Successive fetches of one block: their replies and the final depth. *)
Fixpoint fetches (n : nat) (v : DataStorageVector (A := Z)) (id : Z) (h : answers) : list (access unit) * nat :=
  match n with
  | O => ([], GetDepth v)
  | S n =>
      let '(v, h, r) := node_GetBlock 0 2 v id h in
      let '(rs, d) := fetches n v id h in (r :: rs, d)
  end.

(** The growth loop has no bound on the depth, and from depth 12 on the
    divisor of the block number wraps to zero: any lookup traps.  A node gets
    there when three fetches in a row find memory for junctions but not for a
    block. *)
Theorem deep_tree_traps :
  (forall depth (j : list (option (DataStorageVector (A := Z)))) id,
     (12 <= depth)%nat -> node_GetWeakBlock (DataJunction depth j) id = Trap) /\
  fetches 3 (new_junction 1) 0 (concat (replicate 3 (concat (replicate 4 [false; true]) ++ [false]))) = ([Null; Null; Trap], 12%nat).
Proof.
  split.
  - intros depth j id Hd. unfold node_GetWeakBlock. cbn [GetDepth]. destruct depth as [|d]; [lia|].
    cbn [GetWeakBlock]. rewrite (proj2 (Nat.eqb_neq (S d) 1)) by lia. by rewrite reductor_wraps by lia.
  - vm_compute. reflexivity.
Qed.
