(* ===== verification/File.v ===== *)
(** * Component: files ([NPFS::File::Read] and [Write] in [kernel/src/fs/NPFS.cpp])

    A file is a block tree of bytes and a size.  Buffers are lists; a copy that
    leaves a block or a buffer is a [Fault], as is a trap of the block tree. *)
From S2P Require Import Prelude DataNode DataNodeProps.

(** Results of the file system's functions. *)
Inductive outcome (R : Type) := Ok (r : R) | Err (e : Status) | Fault.
Arguments Ok {R} r. Arguments Err {R} e. Arguments Fault {R}.

Record FileData := { data : DataNode (A := Z); size : Z }.

(** [for (size_t i = 1; i <= n; ++i) dst[dst_end - i] = src[src_end - i];] *)
Fixpoint copy_back (n : nat) (i : Z) (dst : list Z) (dst_end : Z) (src : list Z) (src_end : Z) : option (list Z) :=
  match n with
  | O => Some dst
  | S n => dst ← memcpy dst (dst_end - i) src (src_end - i) 1; copy_back n (i + 1) dst dst_end src src_end
  end.

Definition GetEffectiveEnd (offset count size : Z) : Z :=
  if (size <? u64 (offset + count)) || (u64 (offset + count) <? offset) then size else u64 (offset + count).

(** ** Read *)

(** The loop over whole blocks, from block [i], [n] of them, [pos] being where
    the buffer pointer is. *)
Fixpoint read_blocks (n : nat) (d : DataNode (A := Z)) (i : Z) (buffer : list Z) (pos : Z) : option (list Z * Z) :=
  match n with
  | O => Some (buffer, pos)
  | S n =>
      buffer ← match node_GetWeakBlock d i with
               | Trap => None
               | Null => Some buffer
               | Block blk => memcpy buffer pos blk 0 BLOCK_SIZE
               end;
      read_blocks n d (i + 1) buffer (pos + BLOCK_SIZE)
  end.

(** The result is the buffer and the count reported. *)
Definition Read (f : FileData) (offset count : Z) (buffer : list Z) : outcome (list Z * Z) :=
  if size f <=? offset then Ok (buffer, 0)
  else
    let blockOffset := offset mod BLOCK_SIZE in
    let end_ := GetEffectiveEnd offset count (size f) in
    let remaining := end_ mod BLOCK_SIZE in
    let firstBlock := offset / BLOCK_SIZE in
    let lastBlock := end_ / BLOCK_SIZE in
    let effectiveCount := end_ - offset in
    let bufferEnd := effectiveCount in
    if firstBlock =? lastBlock then
      match node_GetWeakBlock (data f) firstBlock with
      | Trap => Fault
      | Null => Ok (buffer, effectiveCount)
      | Block blk =>
          match memcpy buffer 0 blk blockOffset effectiveCount with
          | Some buffer => Ok (buffer, effectiveCount)
          | None => Fault
          end
      end
    else
      let untilNextBlock := BLOCK_SIZE - blockOffset in
      let head :=
        if blockOffset =? 0 then Some (buffer, 0, offset, effectiveCount)
        else
          buffer ← match node_GetWeakBlock (data f) firstBlock with
                   | Trap => None
                   | Null => Some buffer
                   | Block blk =>
                       (* the copy is repeated [untilNextBlock] times *)
                       Nat.iter (Z.to_nat untilNextBlock)
                         (fun b => b ← b; memcpy b 0 blk blockOffset untilNextBlock) (Some buffer)
                   end;
          Some (buffer, untilNextBlock, offset + untilNextBlock, effectiveCount - untilNextBlock) in
      match head with
      | None => Fault
      | Some (buffer, pos, offset, effectiveCount) =>
          let tail :=
            if remaining =? 0 then Some (buffer, effectiveCount)
            else
              buffer ← match node_GetWeakBlock (data f) lastBlock with
                       | Trap => None
                       | Null => Some buffer
                       | Block blk => copy_back (Z.to_nat remaining) 1 buffer bufferEnd blk end_
                       end;
              Some (buffer, effectiveCount - remaining) in
          match tail with
          | None => Fault
          | Some (buffer, effectiveCount) =>
              if negb (offset mod BLOCK_SIZE =? 0) || negb (effectiveCount mod BLOCK_SIZE =? 0) then
                Err DEVICE_ERROR
              else
                match read_blocks (Z.to_nat (effectiveCount / BLOCK_SIZE)) (data f) (offset / BLOCK_SIZE)
                        buffer pos with
                | None => Fault
                | Some (buffer, pos) => Ok (buffer, bufferEnd - pos)
                end
          end
      end.

(** ** Write *)

Definition set_data (f : FileData) (d : DataNode (A := Z)) : FileData := {| data := d; size := size f |}.

(** [GetBlock] and a use of the block, [use] giving its new contents. *)
Definition with_GetBlock (f : FileData) (blockId : Z) (h : answers) (use : list Z -> option (list Z))
    : FileData * answers * outcome unit :=
  let '(d, h, r) := node_GetBlock 0 (Z.to_nat BLOCK_SIZE) (data f) blockId h in
  match r with
  | Trap => (set_data f d, h, Fault)
  | Null => (set_data f d, h, Err DEVICE_ERROR)
  | Block _ =>
      match node_GetWeakBlock d blockId with
      | Block blk =>
          match use blk with
          | Some blk' => (set_data f (node_update d blockId (fun _ => blk')), h, Ok tt)
          | None => (set_data f d, h, Fault)
          end
      | _ => (set_data f d, h, Fault)
      end
  end.

(** The loop over whole blocks: the block is compared with the buffer
    ([Utils::memcmp]) and left as it is. *)
Fixpoint write_blocks (n : nat) (f : FileData) (i : Z) (h : answers) (buffer : list Z) (pos : Z)
    : FileData * answers * outcome Z :=
  match n with
  | O => (f, h, Ok pos)
  | S n =>
      let '(f, h, r) := with_GetBlock f i h (fun blk => load buffer pos BLOCK_SIZE ≫= fun _ => Some blk) in
      match r with
      | Ok _ => write_blocks n f (i + 1) h buffer (pos + BLOCK_SIZE)
      | Err e => (f, h, Err e)
      | Fault => (f, h, Fault)
      end
  end.

Definition Write (f : FileData) (offset count : Z) (buffer : list Z) (h : answers)
    : FileData * answers * outcome Z :=
  let count := if u64 (offset + count) <? offset then u64 (2 ^ 64 - 1 - offset) else count in
  let blockOffset := offset mod BLOCK_SIZE in
  let end_ := u64 (offset + count) in
  let remaining := end_ mod BLOCK_SIZE in
  let firstBlock := offset / BLOCK_SIZE in
  let lastBlock := end_ / BLOCK_SIZE in
  let bufferEnd := count in
  let f := {| data := data f; size := if size f <? end_ then end_ else size f |} in
  if firstBlock =? lastBlock then
    let '(f, h, r) := with_GetBlock f firstBlock h (fun blk => memcpy blk blockOffset buffer 0 count) in
    (f, h, match r with Ok _ => Ok count | Err e => Err e | Fault => Fault end)
  else
    let untilNextBlock := BLOCK_SIZE - blockOffset in
    let '(f, h, r) :=
      if blockOffset =? 0 then (f, h, Ok (0, offset, count))
      else
        let '(f, h, r) := with_GetBlock f firstBlock h (fun blk => memcpy blk blockOffset buffer 0 untilNextBlock) in
        (f, h, match r with
               | Ok _ => Ok (untilNextBlock, offset + untilNextBlock, count - untilNextBlock)
               | Err e => Err e | Fault => Fault
               end) in
    match r with
    | Err e => (f, h, Err e)
    | Fault => (f, h, Fault)
    | Ok (pos, offset, count) =>
        let '(f, h, r) :=
          if remaining =? 0 then (f, h, Ok count)
          else
            let '(f, h, r) := with_GetBlock f lastBlock h
              (fun blk => copy_back (Z.to_nat remaining) 1 blk end_ buffer bufferEnd) in
            (f, h, match r with Ok _ => Ok (count - remaining) | Err e => Err e | Fault => Fault end) in
        match r with
        | Err e => (f, h, Err e)
        | Fault => (f, h, Fault)
        | Ok count =>
            if negb (offset mod BLOCK_SIZE =? 0) || negb (count mod BLOCK_SIZE =? 0) then (f, h, Err DEVICE_ERROR)
            else
              let '(f, h, r) :=
                write_blocks (Z.to_nat (count / BLOCK_SIZE)) f (offset / BLOCK_SIZE) h buffer pos in
              (f, h, match r with Ok pos => Ok (bufferEnd - pos) | Err e => Err e | Fault => Fault end)
        end
    end.

(** A file of size zero ([File::Construct]: two allocations). *)
Definition File_Construct (h : answers) : option FileData * answers :=
  let '(ok, h) := allocate h in
  if ok then
    let '(d, h) := Construct h in
    (match d with Some d => Some {| data := d; size := 0 |} | None => None end, h)
  else (None, h).
