(* ===== verification/FileProps.v ===== *)
(** * Theorems on files

    Transfers inside one block behave as reads and writes of an array of bytes;
    transfers that span blocks do not. *)
From S2P Require Import Prelude DataNode DataNodeProps File.

(** ** The array of bytes a file stands for *)

Definition byte (f : FileData) (k : Z) : Z :=
  default 0 (b ← blocks (data f) (k / BLOCK_SIZE); b !! Z.to_nat (k mod BLOCK_SIZE)).

#[local] Abbreviation block_len := (Z.to_nat BLOCK_SIZE).

Definition file_ok (f : FileData) : Prop :=
  0 <= size f < 2 ^ 64 /\ node_ok block_len (data f).

(** The blocks below 2^30, the reach of a tree of depth five. *)
Definition MAX_OFFSET : Z := 2 ^ 42.

Lemma span_5 : span 5 = 2 ^ 30.
Proof. reflexivity. Qed.

Lemma block_in_reach k : 0 <= k < MAX_OFFSET -> 0 <= k / BLOCK_SIZE < span 5.
Proof.
  unfold MAX_OFFSET, BLOCK_SIZE. rewrite span_5. intros Hk. split; [apply Z.div_pos; lia|apply Z.div_lt_upper_bound; lia].
Qed.

Lemma file_block f k b : file_ok f -> blocks (data f) k = Some b -> length b = block_len.
Proof. intros (_ & Hn). by apply (blocks_length block_len). Qed.

Definition old_block (f : FileData) (id : Z) : list Z := default (replicate block_len 0) (blocks (data f) id).

Lemma old_block_length f id : file_ok f -> length (old_block f id) = block_len.
Proof.
  intros Hf. unfold old_block. destruct (blocks (data f) id) eqn:E; cbn; [by eapply file_block|apply length_replicate].
Qed.

(** Fetching a block within reach, with memory, succeeds: what happens next is
    up to the use of the block. *)
Lemma with_GetBlock_spec f id h use :
  file_ok f -> 0 <= id < span 5 -> all_ok h ->
  match use (old_block f id) with
  | None => (with_GetBlock f id h use).2 = Fault
  | Some b' => length b' = block_len ->
      exists f' h', with_GetBlock f id h use = (f', h', Ok tt) /\ file_ok f' /\ all_ok h' /\
        size f' = size f /\ forall k, blocks (data f') k = if k =? id then Some b' else blocks (data f) k
  end.
Proof.
  intros (Hs & Hn) Hid Hh. unfold with_GetBlock.
  destruct (node_GetBlock_ok 0 block_len (data f) id h Hn Hh Hid) as (v1 & h1 & -> & Hn1 & Hh1 & Hg).
  assert (Hb : blocks v1 id = Some (old_block f id)).
  { rewrite Hg. unfold with_block. by rewrite Z.eqb_refl. }
  rewrite (node_GetWeakBlock_ok block_len v1 id), Hb by (done || lia).
  destruct (use (old_block f id)) as [b'|]; [|done]. intros Hlen.
  destruct (node_update_ok block_len (fun _ => b') v1 id _ Hn1 Hb Hlen) as [Hn2 Hb2].
  eexists _, _. repeat (split; [done|]). intros k. cbn. rewrite Hb2, Hg. unfold with_block. by destruct (k =? id).
Qed.

(** Replacing a block by a splice of itself changes the bytes spliced. *)
Lemma byte_splice f f' id bo bytes k :
  file_ok f -> 0 <= bo -> bo + Z.of_nat (length bytes) <= BLOCK_SIZE -> 0 <= k ->
  (forall j, blocks (data f') j = if j =? id then Some (splice (old_block f id) bo bytes) else blocks (data f) j) ->
  let start := id * BLOCK_SIZE + bo in
  byte f' k = if decide (start <= k < start + Z.of_nat (length bytes))
              then default 0 (bytes !! Z.to_nat (k - start)) else byte f k.
Proof.
  intros Hf Hbo Hlen Hk Hb start. unfold byte. rewrite Hb.
  pose proof (old_block_length f id Hf) as Hl. assert (HB : BLOCK_SIZE = 4096) by done.
  pose proof (Z.div_mod k BLOCK_SIZE ltac:(lia)) as Hdm. pose proof (Z.mod_pos_bound k BLOCK_SIZE ltac:(lia)) as Hmb.
  destruct (Z.eqb_spec (k / BLOCK_SIZE) id) as [E|E].
  - cbn [mbind option_bind]. rewrite lookup_splice by lia.
    destruct (decide (bo <= Z.of_nat (Z.to_nat (k mod BLOCK_SIZE)) < bo + Z.of_nat (length bytes))).
    + rewrite decide_True by lia. f_equal. f_equal. lia.
    + rewrite decide_False by lia. unfold old_block. rewrite E. destruct (blocks (data f) id); cbn; [done|].
      destruct (replicate _ _ !! _) eqn:Er; [|done]. by apply lookup_replicate in Er as [-> _].
  - rewrite decide_False; [done|]. intros Hin. apply E. subst start. nia.
Qed.

Lemma u64_small x : 0 <= x < 2 ^ 64 -> u64 x = x.
Proof. apply wrap_small. Qed.

Lemma Write_within_spec f offset count buffer h :
  file_ok f -> all_ok h -> 0 <= offset -> offset + count < MAX_OFFSET ->
  offset mod BLOCK_SIZE + count < BLOCK_SIZE -> Z.of_nat (length buffer) = count ->
  exists f' h', Write f offset count buffer h = (f', h', Ok count) /\ file_ok f' /\ all_ok h' /\
    size f' = Z.max (size f) (offset + count) /\
    blocks (data f') (offset / BLOCK_SIZE) = Some (splice (old_block f (offset / BLOCK_SIZE)) (offset mod BLOCK_SIZE) buffer) /\
    forall k, 0 <= k ->
      byte f' k = if decide (offset <= k < offset + count) then default 0 (buffer !! Z.to_nat (k - offset)) else byte f k.
Proof.
  intros Hf Hh Ho Hm Hb Hlen. assert (HM : MAX_OFFSET = 2 ^ 42) by done. assert (HB : BLOCK_SIZE = 4096) by done.
  pose proof (Z.div_mod offset BLOCK_SIZE ltac:(lia)) as Hdm. pose proof (Z.mod_pos_bound offset BLOCK_SIZE ltac:(lia)) as Hmb.
  assert (H64 : 0 <= offset + count < 2 ^ 64) by lia.
  unfold Write. rewrite (u64_small (offset + count)) by done. rewrite (proj2 (Z.ltb_ge _ _)) by lia.
  rewrite (u64_small (offset + count)) by done. cbv zeta.
  assert (E : offset / BLOCK_SIZE = (offset + count) / BLOCK_SIZE).
  { apply Z.div_unique with (r := offset mod BLOCK_SIZE + count); lia. }
  rewrite <- E, Z.eqb_refl.
  set (f0 := {| data := data f; size := if size f <? offset + count then offset + count else size f |}).
  assert (Hf0 : file_ok f0).
  { destruct Hf as (Hs & Hn). split; [|done]. cbn. destruct (_ <? _); lia. }
  pose proof (with_GetBlock_spec f0 (offset / BLOCK_SIZE) h
    (fun blk => memcpy blk (offset mod BLOCK_SIZE) buffer 0 count) Hf0 (block_in_reach offset ltac:(lia)) Hh) as Hg.
  pose proof (old_block_length f0 (offset / BLOCK_SIZE) Hf0) as Hol.
  assert (Hu : memcpy (old_block f0 (offset / BLOCK_SIZE)) (offset mod BLOCK_SIZE) buffer 0 count =
    Some (splice (old_block f0 (offset / BLOCK_SIZE)) (offset mod BLOCK_SIZE) buffer)).
  { unfold memcpy. rewrite <- Hlen, load_all. cbn [mbind option_bind]. apply put_some; lia. }
  cbn beta in Hg. rewrite Hu in Hg.
  destruct Hg as (f' & h' & -> & Hf' & Hh' & Hs & Hbl); [by rewrite length_splice by lia|].
  exists f', h'. split; [done|]. split; [done|]. split; [done|]. split; [|split].
  - rewrite Hs. cbn. destruct (Z.ltb_spec (size f) (offset + count)); lia.
  - rewrite Hbl, Z.eqb_refl. done.
  - intros k Hk. pose proof (byte_splice f0 f' (offset / BLOCK_SIZE) (offset mod BLOCK_SIZE) buffer k Hf0 ltac:(lia) ltac:(lia) Hk Hbl) as Hby. cbv zeta in Hby.
    rewrite Hby. replace (offset / BLOCK_SIZE * BLOCK_SIZE + offset mod BLOCK_SIZE) with offset by lia. by rewrite Hlen.
Qed.

(** ** Reads inside a block *)

Lemma effective_end f offset count :
  0 <= size f < 2 ^ 64 -> 0 <= offset < size f -> 0 <= count -> offset + count < 2 ^ 64 ->
  GetEffectiveEnd offset count (size f) = Z.min (offset + count) (size f).
Proof.
  intros Hs Ho Hc H64. unfold GetEffectiveEnd. rewrite u64_small by lia.
  destruct (Z.ltb_spec (size f) (offset + count)), (Z.ltb_spec (offset + count) offset); cbn; lia.
Qed.

(** The bytes of a file from an offset. *)
Definition bytes_from (f : FileData) (offset n : Z) : list Z := (fun i => byte f (offset + i)) <$> seqZ 0 n.

Lemma load_bytes f offset n b :
  file_ok f -> blocks (data f) (offset / BLOCK_SIZE) = Some b -> 0 <= offset -> 0 <= n ->
  offset mod BLOCK_SIZE + n <= BLOCK_SIZE -> load b (offset mod BLOCK_SIZE) n = Some (bytes_from f offset n).
Proof.
  intros Hf Hb Ho Hn Hfit. assert (HB : BLOCK_SIZE = 4096) by done.
  pose proof (Z.div_mod offset BLOCK_SIZE ltac:(lia)) as Hdm. pose proof (Z.mod_pos_bound offset BLOCK_SIZE ltac:(lia)) as Hmb.
  pose proof (file_block f _ _ Hf Hb) as Hl. rewrite load_some by lia. f_equal. apply list_eq. intros i.
  unfold bytes_from. rewrite list_lookup_fmap. destruct (decide (Z.of_nat i < n)).
  - rewrite lookup_take_lt, lookup_drop by lia. rewrite lookup_seqZ_lt by lia. cbn [fmap option_fmap option_map].
    unfold byte. assert (E : (offset + (0 + Z.of_nat i)) / BLOCK_SIZE = offset / BLOCK_SIZE).
    { symmetry. apply Z.div_unique with (r := offset mod BLOCK_SIZE + Z.of_nat i); lia. }
    assert (Em : (offset + (0 + Z.of_nat i)) mod BLOCK_SIZE = offset mod BLOCK_SIZE + Z.of_nat i).
    { symmetry. apply Z.mod_unique with (q := offset / BLOCK_SIZE); lia. }
    rewrite E, Em, Hb. cbn [mbind option_bind].
    replace (Z.to_nat (offset mod BLOCK_SIZE + Z.of_nat i)) with (Z.to_nat (offset mod BLOCK_SIZE) + i)%nat by lia.
    destruct (lookup_lt_is_Some_2 b (Z.to_nat (offset mod BLOCK_SIZE) + i)) as [x ->]; [lia|done].
  - rewrite lookup_take_ge by lia. rewrite lookup_ge_None_2; [done|]. rewrite length_seqZ. lia.
Qed.

Lemma length_bytes_from f offset n : 0 <= n -> Z.of_nat (length (bytes_from f offset n)) = n.
Proof. intros Hn. unfold bytes_from. rewrite length_fmap, length_seqZ. lia. Qed.

Lemma Read_within_spec f offset count dst :
  file_ok f -> 0 <= offset < size f -> 0 <= count -> offset + count < 2 ^ 64 ->
  let n := Z.min (offset + count) (size f) - offset in
  offset mod BLOCK_SIZE + n < BLOCK_SIZE -> n <= Z.of_nat (length dst) ->
  Read f offset count dst =
    Ok (match blocks (data f) (offset / BLOCK_SIZE) with
        | Some _ => splice dst 0 (bytes_from f offset n)
        | None => dst
        end, n).
Proof.
  intros Hf Ho Hc H64 n Hn Hlen. pose proof Hf as (Hs & Hw). assert (HB : BLOCK_SIZE = 4096) by done.
  pose proof (Z.div_mod offset BLOCK_SIZE ltac:(lia)) as Hdm. pose proof (Z.mod_pos_bound offset BLOCK_SIZE ltac:(lia)) as Hmb.
  unfold Read. rewrite (proj2 (Z.leb_gt _ _)) by lia. rewrite effective_end by lia. fold n.
  assert (E : offset / BLOCK_SIZE = Z.min (offset + count) (size f) / BLOCK_SIZE).
  { apply Z.div_unique with (r := offset mod BLOCK_SIZE + n); lia. }
  cbv zeta. rewrite <- E, Z.eqb_refl.
  rewrite (node_GetWeakBlock_ok block_len (data f) _ Hw) by (apply Z.div_pos; lia).
  destruct (blocks (data f) (offset / BLOCK_SIZE)) as [b|] eqn:Eb; [|done].
  unfold memcpy. rewrite (load_bytes f offset n b Hf Eb) by lia. cbn [mbind option_bind].
  rewrite put_some by (rewrite ?length_bytes_from; lia). done.
Qed.

(** ** Transfers of whole blocks *)

Lemma byte_same f f' id :
  (forall j, blocks (data f') j = if j =? id then Some (old_block f id) else blocks (data f) j) ->
  forall k, byte f' k = byte f k.
Proof.
  intros Hb k. unfold byte. rewrite Hb. destruct (Z.eqb_spec (k / BLOCK_SIZE) id) as [->|]; [|done].
  unfold old_block. destruct (blocks (data f) id); cbn; [done|].
  destruct (replicate _ _ !! _) eqn:Er; [|done]. by apply lookup_replicate in Er as [-> _].
Qed.

Lemma write_blocks_spec n : forall f i h buffer pos,
  file_ok f -> all_ok h -> 0 <= i -> i + Z.of_nat n <= span 5 -> 0 <= pos ->
  pos + Z.of_nat n * BLOCK_SIZE <= Z.of_nat (length buffer) ->
  exists f' h', write_blocks n f i h buffer pos = (f', h', Ok (pos + Z.of_nat n * BLOCK_SIZE)) /\
    file_ok f' /\ size f' = size f /\ forall k, byte f' k = byte f k.
Proof.
  induction n as [|n IH]; intros f i h buffer pos Hf Hh Hi Hr Hp Hl; cbn [write_blocks].
  - exists f, h. split; [do 2 f_equal; lia|done].
  - assert (HB : BLOCK_SIZE = 4096) by done.
    pose proof (with_GetBlock_spec f i h (fun blk => load buffer pos BLOCK_SIZE ≫= fun _ => Some blk) Hf ltac:(lia) Hh) as Hg.
    cbn beta in Hg. rewrite load_some in Hg |- * by lia. cbn [mbind option_bind] in Hg |- *.
    destruct Hg as (f1 & h1 & -> & Hf1 & Hh1 & Hs1 & Hb1); [by apply old_block_length|].
    destruct (IH f1 (i + 1) h1 buffer (pos + BLOCK_SIZE)) as (f' & h' & -> & Hf' & Hs' & Hby'); try done; try lia.
    exists f', h'. split; [do 2 f_equal; lia|]. split; [done|]. split; [congruence|].
    intros k. rewrite Hby'. apply (byte_same f f1 i Hb1).
Qed.

(** * Theorems *)

(** A write inside one block followed by a read of the same range gives
    the bytes back, with the right counts; every other byte of the file keeps
    its value and the size grows to cover the range. *)
Theorem write_read_within_block (f : FileData) (offset : Z) (buffer dst : list Z) (h : answers) :
  let count := Z.of_nat (length buffer) in
  file_ok f -> all_ok h -> 0 <= offset -> offset + count < MAX_OFFSET ->
  offset mod BLOCK_SIZE + count < BLOCK_SIZE -> length dst = length buffer ->
  exists f' h', Write f offset count buffer h = (f', h', Ok count) /\ file_ok f' /\
    Read f' offset count dst = Ok (buffer, count) /\
    size f' = Z.max (size f) (offset + count) /\
    forall k, 0 <= k -> ~ offset <= k < offset + count -> byte f' k = byte f k.
Proof.
  intros count Hf Hh Ho Hm Hb Hdst. assert (HM : MAX_OFFSET = 2 ^ 42) by done.
  destruct (Write_within_spec f offset count buffer h Hf Hh Ho Hm Hb eq_refl)
    as (f' & h' & Hw & Hf' & Hh' & Hs & Hbl & Hby).
  exists f', h'. split; [done|]. split; [done|].
  split; [|split; [done|intros k Hk Hout; rewrite Hby, decide_False; done]].
  destruct (decide (count = 0)) as [Hz|Hnz].
  { assert (buffer = []) as -> by (apply nil_length_inv; lia). assert (dst = []) as -> by (by apply nil_length_inv).
    unfold count in *. cbn in *. destruct (Z.leb_spec (size f') offset) as [|Hlt].
    - unfold Read. by rewrite (proj2 (Z.leb_le _ _)).
    - rewrite Read_within_spec by (done || lia || (cbn; lia)). rewrite Hbl.
      replace (Z.min (offset + Z.of_nat 0) (size f') - offset) with 0 by lia. done. }
  rewrite Read_within_spec; [|done|lia|lia|lia|lia|lia]. rewrite Hbl.
  replace (Z.min (offset + count) (size f') - offset) with count by lia. f_equal. f_equal.
  unfold splice. change (take (Z.to_nat 0) dst) with (@nil Z). cbn [app]. assert (El : length (bytes_from f' offset count) = length buffer).
  { pose proof (length_bytes_from f' offset count). lia. }
  rewrite drop_ge by lia. rewrite app_nil_r. apply list_eq. intros i. unfold bytes_from in *. rewrite list_lookup_fmap.
  destruct (decide (Z.of_nat i < count)).
  - rewrite lookup_seqZ_lt by lia. cbn [fmap option_fmap option_map]. rewrite Hby, decide_True by lia.
    replace (Z.to_nat (offset + (0 + Z.of_nat i) - offset)) with i by lia.
    destruct (lookup_lt_is_Some_2 buffer i) as [x ->]; [lia|done].
  - rewrite !lookup_ge_None_2; [done|lia|rewrite length_seqZ; lia].
Qed.

(** A new file. *)
Definition new_file : FileData := {| data := new_junction 1; size := 0 |}.

Lemma new_file_ok : file_ok new_file.
Proof. split; [cbn; lia|apply node_new_ok]. Qed.

Lemma write_read_within_block_witness :
  exists f' h', Write new_file 5000 4 [1; 2; 3; 4] [] = (f', h', Ok 4) /\ file_ok f' /\
    Read f' 5000 4 [0; 0; 0; 0] = Ok ([1; 2; 3; 4], 4) /\ size f' = 5004.
Proof.
  destruct (write_read_within_block new_file 5000 [1; 2; 3; 4] [0; 0; 0; 0] []) as (f' & h' & H1 & H2 & H3 & H4 & _);
    [apply new_file_ok|constructor|lia|reflexivity|reflexivity|reflexivity|].
  exists f', h'. exact (conj H1 (conj H2 (conj H3 H4))).
Defined.

(** A read inside one block of a file delivers the bytes of the file when
    the block exists; where it does not (a hole), the buffer is left as it was
    while the full count is reported: the caller reads its own old bytes. *)
Theorem read_within_block (f : FileData) (offset count : Z) (dst : list Z) :
  let n := Z.min (offset + count) (size f) - offset in
  file_ok f -> 0 <= offset < size f -> 0 <= count -> offset + count < 2 ^ 64 ->
  offset mod BLOCK_SIZE + n < BLOCK_SIZE -> n <= Z.of_nat (length dst) ->
  Read f offset count dst =
    Ok (match blocks (data f) (offset / BLOCK_SIZE) with
        | Some _ => splice dst 0 (bytes_from f offset n)
        | None => dst
        end, n).
Proof. intros n Hf Ho Hc H64 Hn Hl. by apply Read_within_spec. Qed.

Lemma read_within_block_witness :
  Read {| data := new_junction 1; size := 100 |} 10 3 [7; 8; 9] = Ok ([7; 8; 9], 3).
Proof.
  apply (read_within_block {| data := new_junction 1; size := 100 |} 10 3 [7; 8; 9]);
    [split; [cbn; lia|apply node_new_ok]|cbn; lia|lia|lia|reflexivity|cbn; lia].
Defined.

(** A write of whole blocks stores nothing: the blocks are compared with
    the buffer instead of written.  It extends the size, reports a count of
    zero, and every byte of the file keeps its value. *)
Theorem whole_block_write_lost (f : FileData) (blk n : Z) (buffer : list Z) (h : answers) :
  file_ok f -> all_ok h -> 0 <= blk -> 0 < n -> blk + n < span 5 ->
  Z.of_nat (length buffer) = n * BLOCK_SIZE ->
  exists f' h', Write f (blk * BLOCK_SIZE) (n * BLOCK_SIZE) buffer h = (f', h', Ok 0) /\
    size f' = Z.max (size f) ((blk + n) * BLOCK_SIZE) /\ forall k, byte f' k = byte f k.
Proof.
  intros Hf Hh Hb Hn Hr Hl. assert (HB : BLOCK_SIZE = 4096) by done. rewrite span_5 in Hr.
  unfold Write. rewrite (u64_small (blk * BLOCK_SIZE + n * BLOCK_SIZE)) by lia. rewrite (proj2 (Z.ltb_ge _ _)) by lia.
  rewrite (u64_small (blk * BLOCK_SIZE + n * BLOCK_SIZE)) by lia. rewrite <- Z.mul_add_distr_r.
  rewrite !Z.mod_mul, !Z.div_mul by lia. rewrite (proj2 (Z.eqb_neq blk (blk + n))) by lia. cbn [Z.eqb negb orb].
  rewrite !Z.mod_mul, !Z.div_mul by lia. cbn [Z.eqb negb orb].
  set (f0 := {| data := data f; size := if size f <? (blk + n) * BLOCK_SIZE then (blk + n) * BLOCK_SIZE else size f |}).
  assert (Hf0 : file_ok f0).
  { destruct Hf as (Hs & Hn'). split; [|done]. cbn -[Z.mul]. destruct (_ <? _); lia. }
  destruct (write_blocks_spec (Z.to_nat n) f0 blk h buffer 0 Hf0 Hh) as (f' & h' & -> & Hf' & Hs & Hby);
    [lia|rewrite span_5; lia|lia|lia|].
  exists f', h'. split; [do 2 f_equal; lia|]. split; [|done].
  rewrite Hs. unfold f0. cbn -[Z.mul]. destruct (Z.ltb_spec (size f) ((blk + n) * BLOCK_SIZE)); lia.
Qed.

Lemma whole_block_write_lost_witness :
  exists f' h', Write new_file 0 4096 (replicate 4096 7) [] = (f', h', Ok 0) /\
    size f' = 4096 /\ forall k, byte f' k = byte new_file k.
Proof.
  apply (whole_block_write_lost new_file 0 1 (replicate 4096 7) []);
    [apply new_file_ok|constructor|lia|lia|reflexivity|reflexivity].
Defined.

(** A write that crosses a block boundary and does not end on one leaves
    its last block: the tail is stored at the position in the file instead of
    the position in the block. *)
Theorem crossing_write_faults (f : FileData) (offset : Z) (buffer : list Z) (h : answers) :
  let count := Z.of_nat (length buffer) in
  file_ok f -> all_ok h -> 0 <= offset -> offset + count < MAX_OFFSET ->
  offset / BLOCK_SIZE <> (offset + count) / BLOCK_SIZE -> (offset + count) mod BLOCK_SIZE <> 0 ->
  (Write f offset count buffer h).2 = Fault.
Proof.
  intros count Hf Hh Ho Hm Hne Hrem. assert (HM : MAX_OFFSET = 2 ^ 42) by done. assert (HB : BLOCK_SIZE = 4096) by done.
  unfold Write. rewrite (u64_small (offset + count)) by lia. rewrite (proj2 (Z.ltb_ge _ _)) by lia.
  rewrite (u64_small (offset + count)) by lia. rewrite (proj2 (Z.eqb_neq (offset / _) _)) by done.
  set (f0 := {| data := data f; size := if size f <? offset + count then offset + count else size f |}).
  assert (Hf0 : file_ok f0).
  { destruct Hf as (Hs & m & Hw & Hn). split; [|by exists m]. cbn -[Z.add]. destruct (_ <? _); lia. }
  assert (Htail : forall f1 h1, file_ok f1 -> all_ok h1 ->
    (with_GetBlock f1 ((offset + count) / BLOCK_SIZE) h1 (fun blk =>
       copy_back (Z.to_nat ((offset + count) mod BLOCK_SIZE)) 1 blk (offset + count) buffer count)).2 = Fault).
  { intros f1 h1 Hf1 Hh1. pose proof (with_GetBlock_spec f1 ((offset + count) / BLOCK_SIZE) h1 (fun blk =>
      copy_back (Z.to_nat ((offset + count) mod BLOCK_SIZE)) 1 blk (offset + count) buffer count) Hf1
      (block_in_reach (offset + count) ltac:(lia)) Hh1) as Hg. cbn beta in Hg.
    pose proof (old_block_length f1 ((offset + count) / BLOCK_SIZE) Hf1) as Hol.
    pose proof (Z.mod_pos_bound (offset + count) BLOCK_SIZE ltac:(lia)).
    pose proof (Z.div_mod (offset + count) BLOCK_SIZE ltac:(lia)).
    pose proof (Z.div_le_mono offset (offset + count) BLOCK_SIZE ltac:(lia) ltac:(lia)).
    assert (0 <= offset / BLOCK_SIZE) by (apply Z.div_pos; lia).
    destruct (Z.to_nat ((offset + count) mod BLOCK_SIZE)) as [|r] eqn:Er; [lia|]. cbn [copy_back] in *.
    rewrite memcpy_oob in Hg by lia. exact Hg. }
  rewrite (proj2 (Z.eqb_neq ((offset + count) mod _) 0)) by done. destruct (offset mod BLOCK_SIZE =? 0) eqn:Ez.
  - specialize (Htail f0 h Hf0 Hh). destruct (with_GetBlock _ _ _ _) as [[f1 h1] r1]. cbn in Htail. by subst r1.
  - pose proof (Z.mod_pos_bound offset BLOCK_SIZE ltac:(lia)) as Hmb. pose proof (Z.div_mod offset BLOCK_SIZE ltac:(lia)) as Hdm.
    set (until := BLOCK_SIZE - offset mod BLOCK_SIZE). apply Z.eqb_neq in Ez.
    assert (Hu : 0 <= until <= count).
    { subst until. split; [lia|]. destruct (Z.le_gt_cases (BLOCK_SIZE - offset mod BLOCK_SIZE) count); [done|exfalso].
      apply Hne. apply Z.div_unique with (r := offset mod BLOCK_SIZE + count); lia. }
    pose proof (with_GetBlock_spec f0 (offset / BLOCK_SIZE) h
      (fun blk => memcpy blk (offset mod BLOCK_SIZE) buffer 0 until) Hf0 (block_in_reach offset ltac:(lia)) Hh) as Hg.
    pose proof (old_block_length f0 (offset / BLOCK_SIZE) Hf0) as Hol. cbn beta in Hg.
    assert (Hu' : memcpy (old_block f0 (offset / BLOCK_SIZE)) (offset mod BLOCK_SIZE) buffer 0 until =
      Some (splice (old_block f0 (offset / BLOCK_SIZE)) (offset mod BLOCK_SIZE) (take (Z.to_nat until) (drop (Z.to_nat 0) buffer)))).
    { unfold memcpy. rewrite load_some by lia. cbn [mbind option_bind].
      apply put_some; rewrite ?length_take, ?length_drop; lia. }
    rewrite Hu' in Hg.
    destruct Hg as (f1 & h1 & -> & Hf1 & Hh1 & _); [rewrite length_splice; rewrite ?length_take, ?length_drop; lia|].
    specialize (Htail f1 h1 Hf1 Hh1). destruct (with_GetBlock _ _ _ _) as [[f2 h2] r2]. cbn in Htail. by subst r2.
Qed.

Lemma crossing_write_faults_witness : (Write new_file 4095 3 [1; 2; 3] []).2 = Fault.
Proof.
  apply (crossing_write_faults new_file 4095 [1; 2; 3] []);
    [apply new_file_ok|constructor|lia|reflexivity|discriminate|discriminate].
Defined.
