(* ===== verification/Npfs.v ===== *)
(** * Component: directories, nodes and paths
      ([kernel/src/fs/NPFS.cpp], [kernel/src/fs/IFNode.cpp], [kernel/src/fs/VFS.cpp])

    The nodes of the file system live in a store, a map from addresses to
    [IFNode] records with their reference counts; a directory is a block tree of
    entries that hold the address of a node and a copy of its name.  Using an
    address the store does not hold (a node that was destroyed) is a [Fault]. *)
From S2P Require Import Prelude DataNode File.

(** ** Directory entries *)

(** [NPFS::Directory::DirectoryEntry]: 32 bytes, so 128 to a block. *)
Record DirectoryEntry := { entry_node : Z; entry_length : Z; entry_name : list Z }.
Definition null_entry : DirectoryEntry := {| entry_node := 0; entry_length := 0; entry_name := [] |}.
Definition sizeof_DirectoryEntry : Z := 32.
Definition entriesPerBlock : nat := Z.to_nat (BLOCK_SIZE / sizeof_DirectoryEntry).

#[local] Abbreviation dir_data := (DataNode (A := DirectoryEntry)).

(** A reference to a name ([FS::DirectoryEntry]): its [NameLength] characters,
    or a null [Name]. *)
Definition fileref := option (list Z).

(** The loop over the entries of a block. *)
Fixpoint find_slot (p : DirectoryEntry -> bool) (blk : list DirectoryEntry) (j : nat) : option (nat * DirectoryEntry) :=
  match blk with
  | [] => None
  | e :: blk => if p e then Some (j, e) else find_slot p blk (S j)
  end.

Definition matches (name : list Z) (e : DirectoryEntry) : bool :=
  (entry_length e =? Z.of_nat (length name)) && bool_decide (take (length name) (entry_name e) = name).
Definition is_free (e : DirectoryEntry) : bool := entry_length e =? 0.

(** [for (size_t i = 0; blk != nullptr; blk = node->GetWeakBlock(++i))]: stops
    at the first entry that satisfies [p], or with the number of the first
    missing block.  [fuel] bounds the number of blocks. *)
Fixpoint scan_blocks (fuel : nat) (p : DirectoryEntry -> bool) (d : dir_data) (i : Z)
    : outcome (Z * option (nat * DirectoryEntry)) :=
  match fuel with
  | O => Fault
  | S fuel =>
      match node_GetWeakBlock d i with
      | Trap => Fault
      | Null => Ok (i, None)
      | Block blk =>
          match find_slot p blk 0 with
          | Some (j, e) => Ok (i, Some (j, e))
          | None => scan_blocks fuel p d (i + 1)
          end
      end
  end.

Definition FindEntry (fuel : nat) (d : dir_data) (name : fileref) : outcome (Z * nat * DirectoryEntry) :=
  match name with
  | None | Some [] => Err INVALID_PARAMETER
  | Some n =>
      match scan_blocks fuel (matches n) d 0 with
      | Fault => Fault
      | Err e => Err e
      | Ok (i, Some (j, e)) => Ok (i, j, e)
      | Ok (_, None) => Err NOT_FOUND
      end
  end.

Definition write_entry (d : dir_data) (i : Z) (j : nat) (e : DirectoryEntry) : dir_data :=
  node_update d i (fun blk => <[j := e]> blk).

Definition CreateEntry (fuel : nat) (d : dir_data) (e : DirectoryEntry) (h : answers)
    : dir_data * answers * outcome unit :=
  match FindEntry fuel d (Some (entry_name e)) with
  | Fault => (d, h, Fault)
  | Ok _ => (d, h, Err ALREADY_EXISTS)
  | Err NOT_FOUND =>
      match scan_blocks fuel is_free d 0 with
      | Fault => (d, h, Fault)
      | Err e => (d, h, Err e)
      | Ok (i, Some (j, _)) => (write_entry d i j e, h, Ok tt)
      | Ok (i, None) =>
          let '(d, h, r) := node_GetBlock null_entry entriesPerBlock d i h in
          match r with
          | Trap => (d, h, Fault)
          | Null => (d, h, Err DEVICE_ERROR)
          | Block _ =>
              (* memset of the block, then the first entry *)
              (node_update d i (fun _ => e :: replicate (entriesPerBlock - 1) null_entry), h, Ok tt)
          end
      end
  | Err st => (d, h, Err st)
  end.

(** ** Nodes *)

Inductive Body := FileBody (f : FileData) | DirectoryBody (d : dir_data).
Record IFNode := { openReferences : Z; removed : bool; body : Body }.

Abbreviation Store := (gmap Z IFNode).

Definition with_references (n : Z) (x : IFNode) : IFNode :=
  {| openReferences := n; removed := removed x; body := body x |}.
Definition mark_removed (x : IFNode) : IFNode :=
  {| openReferences := openReferences x; removed := true; body := body x |}.
Definition with_body (b : Body) (x : IFNode) : IFNode :=
  {| openReferences := openReferences x; removed := removed x; body := b |}.

Definition Open (st : Store) (p : Z) : option (Store * Status) :=
  x ← st !! p;
  if removed x then Some (st, UNAVAILABLE)
  else Some (<[p := with_references (u64 (openReferences x + 1)) x]> st, SUCCESS).

(** [Destroy(deleted)] of a file or a directory: a deleted node frees its data
    and itself. *)
Definition Destroy (st : Store) (p : Z) (deleted : bool) : Store := if deleted then delete p st else st.

Definition Close (st : Store) (p : Z) : option Store :=
  x ← st !! p;
  let n := u64 (openReferences x - 1) in
  let st := <[p := with_references n x]> st in
  Some (if n =? 0 then Destroy st p (removed x) else st).

Definition MarkForRemoval (st : Store) (p : Z) : option Store :=
  x ← st !! p; Some (<[p := mark_removed x]> st).

(** ** Directory operations; a file answers [UNSUPPORTED] to each of them *)

Section Operations.
Context (fuel : nat).

Definition Find (st : Store) (dir : Z) (name : fileref) : Store * outcome Z :=
  match st !! dir with
  | None => (st, Fault)
  | Some x =>
      match body x with
      | FileBody _ => (st, Err UNSUPPORTED)
      | DirectoryBody d =>
          match FindEntry fuel d name with
          | Fault => (st, Fault)
          | Err e => (st, Err e)
          | Ok (_, _, e) =>
              match Open st (entry_node e) with
              | None => (st, Fault)
              | Some (st, SUCCESS) => (st, Ok (entry_node e))
              | Some (st, status) => (st, Err status)
              end
          end
      end
  end.

(** Adding an entry to the directory at [dir]. *)
Definition add_entry (st : Store) (dir : Z) (e : DirectoryEntry) (h : answers)
    : Store * answers * outcome unit :=
  match st !! dir with
  | None => (st, h, Fault)
  | Some x =>
      match body x with
      | FileBody _ => (st, h, Err UNSUPPORTED)
      | DirectoryBody d =>
          let '(d, h, r) := CreateEntry fuel d e h in
          (<[dir := with_body (DirectoryBody d) x]> st, h, r)
      end
  end.

Inductive FileType := FILE | DIRECTORY.

(** The new node: [File::Construct] and [Directory::Construct] each allocate
    their data and its first junction. *)
Definition construct_body (type : FileType) (h : answers) : option Body * answers :=
  match type with
  | FILE => let '(f, h) := File_Construct h in (FileBody <$> f, h)
  | DIRECTORY =>
      let '(ok, h) := allocate h in
      if ok then let '(d, h) := Construct h in (DirectoryBody <$> d, h) else (None, h)
  end.

(** [address]: where the heap puts the node, when it does. *)
Definition Create (st : Store) (dir : Z) (name : fileref) (type : FileType) (address : Z) (h : answers)
    : Store * answers * outcome unit :=
  match st !! dir with
  | None => (st, h, Fault)
  | Some x =>
      match body x, name with
      | FileBody _, _ => (st, h, Err UNSUPPORTED)
      | _, None => (st, h, Err INVALID_PARAMETER)
      | DirectoryBody _, Some n =>
          let '(ok_name, h) := allocate h in
          if negb ok_name then (st, h, Err DEVICE_ERROR)
          else
            let '(ok_node, h) := allocate h in
            if negb ok_node then (st, h, Err DEVICE_ERROR)
            else
              let '(b, h) := construct_body type h in
              match b with
              | None => (st, h, Err DEVICE_ERROR)
              | Some b =>
                  let e := {| entry_node := address; entry_length := Z.of_nat (length n); entry_name := n |} in
                  let '(st, h, r) := add_entry st dir e h in
                  match r with
                  | Ok _ => (<[address := {| openReferences := 0; removed := false; body := b |}]> st, h, Ok tt)
                  | r => (st, h, r)   (* the node is freed *)
                  end
              end
      end
  end.

Definition AddNode (st : Store) (dir : Z) (name : fileref) (node : Z) (h : answers)
    : Store * answers * outcome unit :=
  match st !! dir with
  | None => (st, h, Fault)
  | Some x =>
      match body x, name with
      | FileBody _, _ => (st, h, Err UNSUPPORTED)
      | _, None => (st, h, Err INVALID_PARAMETER)
      | DirectoryBody _, Some n =>
          let '(ok_name, h) := allocate h in
          if negb ok_name then (st, h, Err DEVICE_ERROR)
          else add_entry st dir {| entry_node := node; entry_length := Z.of_nat (length n); entry_name := n |} h
      end
  end.

Definition Remove (st : Store) (dir : Z) (name : fileref) : Store * outcome unit :=
  match st !! dir with
  | None => (st, Fault)
  | Some x =>
      match body x with
      | FileBody _ => (st, Err UNSUPPORTED)
      | DirectoryBody d =>
          match FindEntry fuel d name with
          | Fault => (st, Fault)
          | Err e => (st, Err e)
          | Ok (i, j, e) =>
              let node := entry_node e in
              match Open st node with
              | None => (st, Fault)
              | Some (st', UNAVAILABLE) => (st', Ok tt)
              | Some (st', SUCCESS) =>
                  match MarkForRemoval st' node with
                  | None => (st', Fault)
                  | Some st' =>
                      (* the entry is cleared in the directory, which may be the node itself *)
                      match st' !! dir with
                      | None => (st', Fault)
                      | Some x =>
                          let st' := <[dir := with_body (DirectoryBody (write_entry d i j null_entry)) x]> st' in
                          match Close st' node with
                          | None => (st', Fault)
                          | Some st' => (st', Ok tt)
                          end
                      end
                  end
              | Some (st', status) => (st', Err status)
              end
          end
      end
  end.

(** The loops of [List]: the used entries from slot [entryId] of block
    [blockId] on, at most [remaining] of them.  The block loop only stops at a
    missing block. *)
Fixpoint list_slots (blk : list DirectoryEntry) (remaining : nat) : list (list Z) * nat :=
  match blk, remaining with
  | [], _ | _, O => ([], remaining)
  | e :: blk, S r =>
      if is_free e then list_slots blk remaining
      else let '(l, r) := list_slots blk r in (take (Z.to_nat (entry_length e)) (entry_name e) :: l, r)
  end.

Fixpoint list_blocks (fuel : nat) (d : dir_data) (blockId : Z) (entryId remaining : nat) : option (list (list Z) * nat) :=
  match fuel with
  | O => None
  | S fuel =>
      match node_GetWeakBlock d blockId with
      | Trap => None
      | Null => Some ([], remaining)
      | Block blk =>
          let '(l, remaining) := list_slots (drop entryId blk) remaining in
          '(l', remaining) ← list_blocks fuel d (blockId + 1) 0 remaining;
          Some (l ++ l', remaining)
      end
  end.

(** The names listed; the count returned is their number. *)
Definition List (st : Store) (dir : Z) (length from : nat) : outcome (list (list Z) * nat) :=
  match st !! dir with
  | None => Fault
  | Some x =>
      match body x with
      | FileBody _ => Err UNSUPPORTED
      | DirectoryBody d =>
          match list_blocks fuel d (Z.of_nat (from / entriesPerBlock)) (from mod entriesPerBlock) length with
          | None => Fault
          | Some (l, remaining) => Ok (l, length - remaining)%nat
          end
      end
  end.

(** ** Paths *)

Definition MAX_FILE_PATH : Z := 4096.
Definition slash : Z := 47.

(** A path is its character buffer and the length to take; a name inside it is
    an offset and a length. *)
Record path := { text : list Z; path_length : Z }.
Record name_ref := { name_at : Z; name_length : Z }.

Definition char (t : list Z) (i : Z) : option Z := if i <? 0 then None else t !! Z.to_nat i.
Definition ref_name (t : list Z) (r : name_ref) : option (list Z) := load t (name_at r) (name_length r).

Definition CheckFilePath (p : path) : option bool :=
  if (MAX_FILE_PATH <? path_length p) || (path_length p <? 2) then Some false
  else c ← char (text p) 0; Some (c =? slash).

Definition IsApplicationPath (t : list Z) : option bool := c ← char t 1; Some (negb (c =? slash)).

(** [while (filename.Name[0] != '/' && filename.Name > filepath.Name)] *)
Fixpoint back_to_slash (fuel : nat) (t : list Z) (i len : Z) : option (Z * Z) :=
  c ← char t i;
  if negb (c =? slash) && (0 <? i) then
    match fuel with O => None | S fuel => back_to_slash fuel t (i - 1) (len + 1) end
  else Some (i, len).

Definition ExtractFileName (p : path) : outcome name_ref :=
  if (path_length p =? 0) || (MAX_FILE_PATH <? path_length p) then Err INVALID_PARAMETER
  else
    let last := path_length p - 1 in
    match
      c ← char (text p) last;
      if (c =? slash) && (path_length p =? 1) then Some {| name_at := last; name_length := 0 |}
      else
        let i := if c =? slash then last - 1 else last in
        '(i, len) ← back_to_slash (Z.to_nat (path_length p)) (text p) i 0;
        c0 ← char (text p) 0;
        Some {| name_at := if negb (i =? 0) || (c0 =? slash) then i + 1 else i; name_length := len |}
    with
    | Some r => Ok r
    | None => Fault
    end.

(** "partitions" *)
Definition applicationBase : list Z := [112; 97; 114; 116; 105; 116; 105; 111; 110; 115].

(** The node the resolution starts from, and the offset it starts at. *)
Definition HandleApplicationPath (st : Store) (node : Z) (t : list Z) : Store * outcome (Z * Z) :=
  match IsApplicationPath t with
  | None => (st, Fault)
  | Some true =>
      let '(st, r) := Find st node (Some applicationBase) in
      match r with
      | Fault => (st, Fault)
      | Err e => (st, Err e)
      | Ok n => match Close st node with Some st => (st, Ok (n, 1)) | None => (st, Fault) end
      end
  | Some false => (st, Ok (node, 2))
  end.

(** The loop over the parent path: [i] runs over its characters, [cur] is the
    name being read.  After a separator the name restarts [NameLength + 2]
    characters further. *)
Fixpoint resolve (fuel : nat) (st : Store) (t : list Z) (parent_length i : Z) (cur : name_ref) (node : Z)
    : Store * outcome (Z * name_ref) :=
  match fuel with
  | O => (st, Fault)
  | S fuel =>
      if parent_length <=? i then (st, Ok (node, cur))
      else
        match char t i with
        | None => (st, Fault)
        | Some c =>
            if c =? slash then
              if name_length cur =? 0 then
                match Close st node with Some st => (st, Err INVALID_PARAMETER) | None => (st, Fault) end
              else
                match ref_name t cur with
                | None => (st, Fault)
                | Some name =>
                    let '(st, r) := Find st node (Some name) in
                    match Close st node with
                    | None => (st, Fault)
                    | Some st =>
                        match r with
                        | Fault => (st, Fault)
                        | Err e => (st, Err e)
                        | Ok n =>
                            resolve fuel st t parent_length (i + 1)
                              {| name_at := name_at cur + name_length cur + 2; name_length := 0 |} n
                        end
                    end
                end
            else
              resolve fuel st t parent_length (i + 1)
                {| name_at := name_at cur; name_length := name_length cur + 1 |} node
        end
  end.

Definition OpenParent (st : Store) (root : Z) (p : path) : Store * outcome (Z * name_ref) :=
  match CheckFilePath p with
  | None => (st, Fault)
  | Some false => (st, Err INVALID_PARAMETER)
  | Some true =>
      match ExtractFileName p with
      | Fault => (st, Fault)
      | Err e => (st, Err e)
      | Ok filename =>
          let parent_length := name_at filename in
          match Open st root with
          | None => (st, Fault)
          | Some (st, SUCCESS) =>
              let '(st, r) := HandleApplicationPath st root (text p) in
              match r with
              | Fault => (st, Fault)
              | Err e => match Close st root with Some st => (st, Err e) | None => (st, Fault) end
              | Ok (node, start) =>
                  let '(st, r) := resolve (S (Z.to_nat parent_length)) st (text p) parent_length start
                                    {| name_at := start; name_length := 0 |} node in
                  match r with
                  | Fault => (st, Fault)
                  | Err e => (st, Err e)
                  | Ok (node, cur) =>
                      if name_length cur =? 0 then (st, Ok (node, filename))
                      else
                        match ref_name (text p) cur with
                        | None => (st, Fault)
                        | Some name =>
                            let '(st, r) := Find st node (Some name) in
                            (st, match r with Ok n => Ok (n, filename) | Err e => Err e | Fault => Fault end)
                        end
                  end
              end
          | Some (st, status) => (st, Err status)
          end
      end
  end.

(** [VFS::Open] *)
Definition VFS_Open (st : Store) (root : Z) (p : path) : Store * outcome Z :=
  let '(st, r) := OpenParent st root p in
  match r with
  | Fault => (st, Fault)
  | Err e => (st, Err e)
  | Ok (node, filename) =>
      if name_length filename =? 0 then (st, Ok node)
      else
        match ref_name (text p) filename with
        | None => (st, Fault)
        | Some name =>
            let '(st, r) := Find st node (Some name) in
            match Close st node with
            | None => (st, Fault)
            | Some st => (st, r)
            end
        end
  end.
End Operations.
