(* ===== verification/DirProps.v ===== *)
(** * Directories implement finite maps from names to nodes *)
From S2P Require Import Prelude DataNode DataNodeProps File Npfs.

#[local] Abbreviation dir_data := (DataNode (A := DirectoryEntry)).

(** ** The entries of a directory *)

Definition block_entries (d : dir_data) (k : Z) : list DirectoryEntry := default [] (blocks d k).
Definition all_entries (d : dir_data) (nb : nat) : list DirectoryEntry :=
  concat (map (fun k => block_entries d (Z.of_nat k)) (seq 0 nb)).
Definition used (l : list DirectoryEntry) : list DirectoryEntry := List.filter (fun e => negb (is_free e)) l.

(** The blocks of a directory are the first [nb] ones. *)
Record dir_shape (d : dir_data) (nb : nat) : Prop := {
  shape_node : node_ok entriesPerBlock d;
  shape_reach : Z.of_nat nb < span 5;
  shape_blocks : forall k, 0 <= k -> is_Some (blocks d k) <-> k < Z.of_nat nb
}.

Lemma find_slot_spec p blk j0 :
  match find_slot p blk j0 with
  | Some (j, e) => exists l1 l2, blk = l1 ++ e :: l2 /\ j = (j0 + length l1)%nat /\ p e = true /\
      Forall (fun e => p e = false) l1
  | None => Forall (fun e => p e = false) blk
  end.
Proof.
  revert j0; induction blk as [|e blk IH]; intros j0; cbn; [constructor|].
  destruct (p e) eqn:Hp.
  - exists [], blk. cbn. by rewrite Nat.add_0_r.
  - specialize (IH (S j0)). destruct (find_slot p blk (S j0)) as [[j e']|].
    + destruct IH as (l1 & l2 & -> & -> & ? & ?). exists (e :: l1), l2. cbn. rewrite Nat.add_succ_r.
      repeat split; [done|]. by constructor.
    + by constructor.
Qed.

Lemma all_entries_split d nb i : (i < nb)%nat ->
  all_entries d nb = all_entries d i ++ block_entries d (Z.of_nat i) ++
    concat (map (fun k => block_entries d (Z.of_nat k)) (seq (S i) (nb - S i))).
Proof.
  intros Hi. unfold all_entries. replace nb with (i + S (nb - S i))%nat at 1 by lia.
  by rewrite seq_app, map_app, concat_app.
Qed.

Lemma all_entries_S d nb : all_entries d (S nb) = all_entries d nb ++ block_entries d (Z.of_nat nb).
Proof. unfold all_entries. rewrite seq_S, map_app, concat_app. cbn. by rewrite app_nil_r. Qed.

Lemma all_entries_ext d d' nb : (forall k, 0 <= k < Z.of_nat nb -> blocks d' k = blocks d k) ->
  all_entries d' nb = all_entries d nb.
Proof.
  intros Hb. unfold all_entries. f_equal. apply map_ext_in. intros k Hk%in_seq. unfold block_entries.
  by rewrite Hb by lia.
Qed.

(** The search over the blocks: the first entry with the property, or the
    number of blocks. *)
Lemma scan_blocks_spec fuel p d nb i :
  dir_shape d nb -> (i <= nb)%nat -> (nb < fuel + i)%nat ->
  Forall (fun e => p e = false) (all_entries d i) ->
  (exists i' j e l1 l2, scan_blocks fuel p d (Z.of_nat i) = Ok (Z.of_nat i', Some (j, e)) /\ (i' < nb)%nat /\
     block_entries d (Z.of_nat i') = l1 ++ e :: l2 /\ j = length l1 /\ p e = true) \/
  (scan_blocks fuel p d (Z.of_nat i) = Ok (Z.of_nat nb, None) /\ Forall (fun e => p e = false) (all_entries d nb)).
Proof.
  intros Hs. revert i; induction fuel as [|fuel IH]; intros i Hi Hf Hall; [lia|]. cbn [scan_blocks].
  rewrite (node_GetWeakBlock_ok entriesPerBlock) by (apply Hs || lia).
  destruct (blocks d (Z.of_nat i)) as [blk|] eqn:Eb.
  - assert (Hlt : (i < nb)%nat) by (pose proof (proj1 (shape_blocks d nb Hs (Z.of_nat i) ltac:(lia)) (mk_is_Some _ _ Eb)); lia).
    pose proof (find_slot_spec p blk 0) as Hfs. assert (Ebe : block_entries d (Z.of_nat i) = blk) by (unfold block_entries; by rewrite Eb).
    destruct (find_slot p blk 0) as [[j e]|].
    + left. destruct Hfs as (l1 & l2 & E & -> & Hp & _). exists i, (0 + length l1)%nat, e, l1, l2. by rewrite Ebe.
    + replace (Z.of_nat i + 1) with (Z.of_nat (S i)) by lia. apply IH; [lia|lia|].
      rewrite all_entries_S, Ebe. by apply Forall_app.
  - right. assert (i = nb) as ->; [|done]. destruct (decide (i < nb)%nat) as [Hlt|]; [exfalso|lia].
    destruct (proj2 (shape_blocks d nb Hs (Z.of_nat i) ltac:(lia)) ltac:(lia)) as [b Hb]. congruence.
Qed.

(** ** Rewriting an entry, and a new block *)

Lemma node_update_shape d nb i f b :
  dir_shape d nb -> (i < nb)%nat -> blocks d (Z.of_nat i) = Some b -> length (f b) = entriesPerBlock ->
  dir_shape (node_update d (Z.of_nat i) f) nb /\
  forall k, blocks (node_update d (Z.of_nat i) f) k = if k =? Z.of_nat i then Some (f b) else blocks d k.
Proof.
  intros [Hn Hr Hb] Hi Eb Hl. destruct (node_update_ok _ f d _ b Hn Eb Hl) as [Hn' Hb'].
  split; [|done]. constructor; [done|done|]. intros k Hk. rewrite Hb', <- Hb by done.
  destruct (Z.eqb_spec k (Z.of_nat i)) as [->|]; [|done]. rewrite Eb. split; by eexists.
Qed.

Lemma write_entry_spec d nb i l1 e l2 e' :
  dir_shape d nb -> (i < nb)%nat -> block_entries d (Z.of_nat i) = l1 ++ e :: l2 ->
  dir_shape (write_entry d (Z.of_nat i) (length l1) e') nb /\
  exists p q, all_entries d nb = p ++ e :: q /\ all_entries (write_entry d (Z.of_nat i) (length l1) e') nb = p ++ e' :: q.
Proof.
  intros Hs Hi Eb. unfold write_entry.
  destruct (proj2 (shape_blocks d nb Hs (Z.of_nat i) ltac:(lia)) ltac:(lia)) as [b Hb].
  assert (b = l1 ++ e :: l2) as -> by (unfold block_entries in Eb; by rewrite Hb in Eb).
  pose proof (blocks_length entriesPerBlock d _ _ (shape_node d nb Hs) Hb) as Hl.
  destruct (node_update_shape d nb i (fun blk => <[length l1 := e']> blk) _ Hs Hi Hb) as [Hs' Hb'];
    [by rewrite length_insert|].
  split; [done|]. set (d' := node_update d (Z.of_nat i) (fun blk => <[length l1 := e']> blk)) in *.
  assert (Eb' : block_entries d' (Z.of_nat i) = l1 ++ e' :: l2).
  { unfold block_entries. rewrite Hb', Z.eqb_refl. cbn.
    rewrite <- (Nat.add_0_r (length l1)), insert_app_r. done. }
  set (rest := concat (map (fun k => block_entries d (Z.of_nat k)) (seq (S i) (nb - S i)))).
  exists (all_entries d i ++ l1), (l2 ++ rest). split.
  - rewrite (all_entries_split d nb i Hi), Eb, <- !app_assoc. done.
  - rewrite (all_entries_split d' nb i Hi), Eb', <- !app_assoc. cbn. f_equal; [|do 2 f_equal; f_equal].
    + apply all_entries_ext. intros k Hk. rewrite Hb', (proj2 (Z.eqb_neq _ _)) by lia. done.
    + unfold rest. f_equal. apply map_ext_in. intros k Hk%in_seq. unfold block_entries.
      rewrite Hb', (proj2 (Z.eqb_neq _ _)) by lia. done.
Qed.

Lemma new_block_spec d nb e h :
  dir_shape d nb -> all_ok h -> Z.of_nat nb + 1 < span 5 ->
  exists d0 h', node_GetBlock null_entry entriesPerBlock d (Z.of_nat nb) h = (d0, h', Block tt) /\ all_ok h' /\
    let d' := node_update d0 (Z.of_nat nb) (fun _ => e :: replicate (entriesPerBlock - 1) null_entry) in
    dir_shape d' (S nb) /\
    all_entries d' (S nb) = all_entries d nb ++ e :: replicate (entriesPerBlock - 1) null_entry.
Proof.
  intros Hs Hh Hr. pose proof Hs as [Hn _ Hb].
  destruct (node_GetBlock_ok null_entry entriesPerBlock d (Z.of_nat nb) h Hn Hh ltac:(lia)) as (d0 & h' & E & Hn0 & Hh' & Hb0).
  exists d0, h'. split; [done|]. split; [done|]. intros d'.
  assert (Eb : exists b, blocks d0 (Z.of_nat nb) = Some b) by (rewrite Hb0; unfold with_block; rewrite Z.eqb_refl; eauto).
  destruct Eb as [b Eb].
  destruct (node_update_ok entriesPerBlock (fun _ => e :: replicate (entriesPerBlock - 1) null_entry) d0 _ b Hn0 Eb) as [Hn' Hb'].
  { cbn [length]. rewrite length_replicate. reflexivity. }
  assert (Hall : forall k, blocks d' k = if k =? Z.of_nat nb then Some (e :: replicate (entriesPerBlock - 1) null_entry) else blocks d k).
  { intros k. subst d'. rewrite Hb', Hb0. unfold with_block. by destruct (k =? Z.of_nat nb). }
  split.
  - constructor; [done|lia|]. intros k Hk. rewrite Hall. destruct (Z.eqb_spec k (Z.of_nat nb)) as [->|Hne].
    + split; [lia|by eexists].
    + rewrite Hb by done. lia.
  - rewrite all_entries_S. f_equal.
    + apply all_entries_ext. intros k Hk. rewrite Hall, (proj2 (Z.eqb_neq _ _)) by lia. done.
    + unfold block_entries. by rewrite Hall, Z.eqb_refl.
Qed.

(** ** The finite map a directory stands for *)

Definition pair_of (e : DirectoryEntry) : list Z * Z := (entry_name e, entry_node e).
Definition entry_wf (e : DirectoryEntry) : Prop := entry_length e = Z.of_nat (length (entry_name e)).

Record dir_rep (d : dir_data) (nb : nat) (m : gmap (list Z) Z) : Prop := {
  rep_shape : dir_shape d nb;
  rep_wf : Forall entry_wf (used (all_entries d nb));
  rep_names : NoDup (map pair_of (used (all_entries d nb))).*1;
  rep_map : m = list_to_map (map pair_of (used (all_entries d nb)))
}.

Lemma used_mid p e q : used (p ++ e :: q) = used p ++ (if is_free e then [] else [e]) ++ used q.
Proof. unfold used. rewrite List.filter_app. cbn. by destruct (is_free e). Qed.

Lemma elem_used e l : e ∈ used l <-> e ∈ l /\ is_free e = false.
Proof.
  unfold used. rewrite !list_elem_of_In, List.filter_In. destruct (is_free e); cbn; tauto || (split; intros []; done).
Qed.

Lemma matches_used n e : n <> [] -> entry_wf e -> matches n e = true <-> is_free e = false /\ entry_name e = n.
Proof.
  intros Hn Hw. unfold matches, is_free, entry_wf in *. rewrite andb_true_iff, Z.eqb_eq, bool_decide_eq_true, Hw.
  rewrite Z.eqb_neq. split.
  - intros [Hl Ht]. assert (El : length (entry_name e) = length n) by lia. rewrite <- El, firstn_all in Ht. split; [|done].
    rewrite El. destruct n; cbn; [done|lia].
  - intros [_ ->]. by rewrite firstn_all.
Qed.

Lemma free_not_matches n e : n <> [] -> is_free e = true -> matches n e = false.
Proof.
  intros Hn. unfold matches, is_free. intros ->%Z.eqb_eq. destruct n; [done|]. cbn [length].
  by rewrite (proj2 (Z.eqb_neq 0 _)) by lia.
Qed.

Lemma rep_lookup d nb m n x : dir_rep d nb m ->
  m !! n = Some x <-> exists e, e ∈ used (all_entries d nb) /\ entry_name e = n /\ entry_node e = x.
Proof.
  intros [_ _ Hn ->]. transitivity ((n, x) ∈ map pair_of (used (all_entries d nb))).
  - symmetry. by apply elem_of_list_to_map.
  - rewrite list_elem_of_fmap. split.
    + intros (e & E & He). injection E as -> ->. by exists e.
    + intros (e & He & <- & <-). by exists e.
Qed.

Lemma elem_block d nb i l1 e l2 : dir_shape d nb -> (i < nb)%nat -> block_entries d (Z.of_nat i) = l1 ++ e :: l2 ->
  e ∈ all_entries d nb.
Proof.
  intros Hs Hi E. rewrite (all_entries_split d nb i Hi), E, !elem_of_app, elem_of_cons. auto.
Qed.

Lemma FindEntry_spec fuel d nb m n :
  dir_rep d nb m -> n <> [] -> (nb < fuel)%nat ->
  (exists i e l1 l2, FindEntry fuel d (Some n) = Ok (Z.of_nat i, length l1, e) /\ (i < nb)%nat /\
     block_entries d (Z.of_nat i) = l1 ++ e :: l2 /\ is_free e = false /\ entry_name e = n /\
     m !! n = Some (entry_node e)) \/
  (FindEntry fuel d (Some n) = Err NOT_FOUND /\ m !! n = None).
Proof.
  intros R Hn Hf. unfold FindEntry. destruct n as [|c n'] eqn:En; [done|]. rewrite <- En in *. clear En.
  destruct (scan_blocks_spec fuel (matches n) d nb 0 (rep_shape _ _ _ R) ltac:(lia) ltac:(lia) ltac:(constructor))
    as [(i & j & e & l1 & l2 & E & Hi & Eb & -> & Hp)|[E Hall]]; change (Z.of_nat 0) with 0 in E; rewrite E.
  - left. exists i, e, l1, l2. split; [done|]. split; [done|]. split; [done|].
    pose proof (elem_block _ _ _ _ _ _ (rep_shape _ _ _ R) Hi Eb) as Hin.
    assert (Hfree : is_free e = false).
    { destruct (is_free e) eqn:Ef; [|done]. by rewrite (free_not_matches n e Hn Ef) in Hp. }
    assert (Hu : e ∈ used (all_entries d nb)) by by apply elem_used.
    pose proof (proj1 (Forall_forall _ _) (rep_wf _ _ _ R) e Hu) as Hw.
    apply (matches_used n e Hn Hw) in Hp as [_ Hname]. split; [done|]. split; [done|].
    apply (rep_lookup _ _ _ _ _ R). by exists e.
  - right. split; [done|]. destruct (m !! n) as [x|] eqn:Em; [exfalso|done].
    apply (rep_lookup _ _ _ _ _ R) in Em as (e & Hu & Hname & _). pose proof Hu as [Hin Hfree]%elem_used.
    pose proof (proj1 (Forall_forall _ _) (rep_wf _ _ _ R) e Hu) as Hw.
    rewrite Forall_forall in Hall. specialize (Hall e Hin).
    assert (matches n e = true) by by apply matches_used. congruence.
Qed.

(** Replacing an entry by the null entry, and a null one by an entry. *)
Lemma clear_rep d nb m i l1 e l2 :
  dir_rep d nb m -> (i < nb)%nat -> block_entries d (Z.of_nat i) = l1 ++ e :: l2 -> is_free e = false ->
  dir_rep (write_entry d (Z.of_nat i) (length l1) null_entry) nb (delete (entry_name e) m).
Proof.
  intros [Hs Hw Hn ->] Hi Eb Hf.
  destruct (write_entry_spec d nb i l1 e l2 null_entry Hs Hi Eb) as (Hs' & p & q & E & E').
  rewrite E, used_mid, Hf in Hw, Hn |- *. rewrite !map_app in Hn |- *. cbn [map app] in Hn |- *.
  constructor; [done|rewrite E', used_mid; cbn..].
  - apply Forall_app in Hw as [? [_ ?]%Forall_cons]. by apply Forall_app.
  - rewrite !map_app. apply NoDup_app in Hn as (H1 & H2 & [_ H3]%NoDup_cons). apply NoDup_app.
    split; [done|]. split; [|done]. intros x Hx Hx'. apply (H2 x Hx). by right.
  - apply NoDup_app in Hn as (_ & H2 & [H3 _]%NoDup_cons).
    rewrite map_app, !list_to_map_app. cbn. change (pair_of e) with (entry_name e, entry_node e). cbn.
    rewrite delete_union, delete_insert_eq. f_equal.
    + rewrite delete_id; [done|]. apply not_elem_of_list_to_map_1. intros Hx. apply (H2 _ Hx). by left.
    + apply delete_id. by apply not_elem_of_list_to_map_1.
Qed.

Lemma add_rep (U : list DirectoryEntry) (d' : dir_data) (nb' : nat) (p q : list DirectoryEntry) (e : DirectoryEntry) (m : gmap (list Z) Z) :
  dir_shape d' nb' -> used (all_entries d' nb') = p ++ e :: q -> U = p ++ q ->
  Forall entry_wf U -> NoDup (map pair_of U).*1 -> m = list_to_map (map pair_of U) ->
  entry_wf e -> m !! entry_name e = None ->
  dir_rep d' nb' (<[entry_name e := entry_node e]> m).
Proof.
  intros Hs E -> Hw Hn -> He Hm.
  assert (P : map pair_of (p ++ e :: q) ≡ₚ pair_of e :: map pair_of (p ++ q)).
  { rewrite <- Permutation_middle. done. }
  assert (Hn' : NoDup (map pair_of (p ++ e :: q)).*1).
  { rewrite P. cbn. constructor; [|done]. by apply not_elem_of_list_to_map_2. }
  constructor; rewrite ?E; [done| |done|].
  - apply Forall_app in Hw as [? ?]. apply Forall_app. split; [done|by constructor].
  - by rewrite (list_to_map_proper _ _ Hn' P).
Qed.

Lemma CreateEntry_spec fuel d nb m n x h :
  let e := {| entry_node := x; entry_length := Z.of_nat (length n); entry_name := n |} in
  dir_rep d nb m -> n <> [] -> (nb < fuel)%nat -> all_ok h -> Z.of_nat nb + 1 < span 5 ->
  match m !! n with
  | Some _ => CreateEntry fuel d e h = (d, h, Err ALREADY_EXISTS)
  | None => exists d' nb' h', CreateEntry fuel d e h = (d', h', Ok tt) /\ dir_rep d' nb' (<[n := x]> m) /\
      (nb' <= S nb)%nat /\ all_ok h'
  end.
Proof.
  intros e R Hn Hf Hh Hr. unfold CreateEntry. cbn [entry_name e].
  destruct (FindEntry_spec fuel d nb m n R Hn Hf) as [(i & e0 & l1 & l2 & -> & _ & _ & _ & _ & ->)|[-> Em]]; [done|].
  rewrite Em. pose proof R as [Hs Hw Hnd Hm].
  assert (Hfree : is_free e = false) by (unfold is_free; cbn; destruct n; [done|cbn; apply Z.eqb_neq; lia]).
  destruct (scan_blocks_spec fuel is_free d nb 0 Hs ltac:(lia) ltac:(lia) ltac:(constructor))
    as [(i & j & e0 & l1 & l2 & E & Hi & Eb & -> & Hp)|[E Hall]]; change (Z.of_nat 0) with 0 in E; rewrite E.
  - destruct (write_entry_spec d nb i l1 e0 l2 e Hs Hi Eb) as (Hs' & p & q & E1 & E2).
    eexists _, nb, h. split; [reflexivity|]. split; [|split; [lia|done]].
    apply (add_rep (used (all_entries d nb)) _ _ (used p) (used q) e); try done.
    + by rewrite E2, used_mid, Hfree.
    + by rewrite E1, used_mid, Hp.
  - destruct (new_block_spec d nb e h Hs Hh Hr) as (d0 & h' & -> & Hh' & Hs' & E').
    eexists _, (S nb), h'. split; [reflexivity|]. split; [|split; [lia|done]].
    apply (add_rep (used (all_entries d nb)) _ _ (used (all_entries d nb)) [] e); try done.
    + rewrite E', used_mid, Hfree. reflexivity.
    + by rewrite app_nil_r.
Qed.

Lemma dir_new_rep : dir_rep (new_junction 1) 0 ∅.
Proof.
  destruct (node_new_ok (A := DirectoryEntry) entriesPerBlock) as [Hok Hnew].
  constructor; [|constructor|constructor|done]. constructor; [done|reflexivity|].
  intros k Hk. rewrite Hnew. split; [by intros [? ?]|lia].
Qed.
