(* ===== verification/NpfsProps.v ===== *)
(** * Theorems on directories, node lifetimes and paths *)
From S2P Require Import Prelude DataNode DataNodeProps File Npfs DirProps.

(** ** Sequences of directory operations *)

Inductive dir_op := DAdd (name : list Z) (node : Z) | DFind (name : list Z) | DRemove (name : list Z).

#[local] Abbreviation dir_data := (DataNode (A := DirectoryEntry)).

Definition dir_step (fuel : nat) (d : dir_data) (h : answers) (o : dir_op) : dir_data * answers * outcome (option Z) :=
  match o with
  | DAdd n x =>
      let '(d, h, r) :=
        CreateEntry fuel d {| entry_node := x; entry_length := Z.of_nat (length n); entry_name := n |} h in
      (d, h, match r with Ok _ => Ok None | Err e => Err e | Fault => Fault end)
  | DFind n =>
      (d, h, match FindEntry fuel d (Some n) with
             | Ok (_, _, e) => Ok (Some (entry_node e)) | Err e => Err e | Fault => Fault end)
  | DRemove n =>
      match FindEntry fuel d (Some n) with
      | Ok (i, j, e) => (write_entry d i j null_entry, h, Ok (Some (entry_node e)))
      | Err e => (d, h, Err e)
      | Fault => (d, h, Fault)
      end
  end.

Fixpoint dir_run (fuel : nat) (d : dir_data) (h : answers) (os : list dir_op) : list (outcome (option Z)) :=
  match os with
  | [] => []
  | o :: os => let '(d, h, r) := dir_step fuel d h o in r :: dir_run fuel d h os
  end.

(** The same on a finite map. *)
Definition map_step (m : gmap (list Z) Z) (o : dir_op) : gmap (list Z) Z * outcome (option Z) :=
  match o with
  | DAdd [] _ | DFind [] | DRemove [] => (m, Err INVALID_PARAMETER)
  | DAdd n x => match m !! n with Some _ => (m, Err ALREADY_EXISTS) | None => (<[n := x]> m, Ok None) end
  | DFind n => (m, match m !! n with Some x => Ok (Some x) | None => Err NOT_FOUND end)
  | DRemove n => match m !! n with Some x => (delete n m, Ok (Some x)) | None => (m, Err NOT_FOUND) end
  end.

Fixpoint map_run (m : gmap (list Z) Z) (os : list dir_op) : list (outcome (option Z)) :=
  match os with [] => [] | o :: os => let '(m, r) := map_step m o in r :: map_run m os end.

Lemma dir_step_spec fuel d nb m h o :
  dir_rep d nb m -> (nb < fuel)%nat -> all_ok h -> Z.of_nat nb + 1 < span 5 ->
  let '(d', h', r) := dir_step fuel d h o in
  all_ok h' /\ (map_step m o).2 = r /\ exists nb', dir_rep d' nb' (map_step m o).1 /\ (nb' <= S nb)%nat.
Proof.
  intros R Hf Hh Hr. destruct o as [n x|n|n]; cbn [dir_step map_step].
  - destruct n as [|c n0]; [split; [done|]; split; [done|]; exists nb; auto with lia|].
    pose proof (CreateEntry_spec fuel d nb m (c :: n0) x h R ltac:(done) Hf Hh Hr) as Hc. cbv zeta in Hc.
    destruct (m !! (c :: n0)).
    + rewrite Hc. split; [done|]. split; [done|]. exists nb. auto with lia.
    + destruct Hc as (d' & nb' & h' & -> & R' & Hle & Hh'). split; [done|]. split; [done|]. by exists nb'.
  - destruct n as [|c n0]; [split; [done|]; split; [done|]; exists nb; auto with lia|].
    destruct (FindEntry_spec fuel d nb m (c :: n0) R ltac:(done) Hf)
      as [(i & e & l1 & l2 & -> & _ & _ & _ & _ & ->)|[-> ->]]; (split; [done|]; split; [done|]; exists nb; auto with lia).
  - destruct n as [|c n0]; [split; [done|]; split; [done|]; exists nb; auto with lia|].
    destruct (FindEntry_spec fuel d nb m (c :: n0) R ltac:(done) Hf)
      as [(i & e & l1 & l2 & -> & Hi & Eb & Hfr & Hn & ->)|[-> ->]].
    + split; [done|]. split; [done|]. exists nb. split; [|lia]. rewrite <- Hn. by eapply clear_rep.
    + split; [done|]. split; [done|]. exists nb. auto with lia.
Qed.

Lemma dir_run_spec fuel os : forall d nb m h,
  dir_rep d nb m -> (nb + length os < fuel)%nat -> all_ok h -> Z.of_nat (nb + length os) + 1 < span 5 ->
  dir_run fuel d h os = map_run m os.
Proof.
  induction os as [|o os IH]; intros d nb m h R Hf Hh Hr; [done|]. cbn [length] in Hf, Hr. cbn [dir_run map_run].
  pose proof (dir_step_spec fuel d nb m h o R ltac:(lia) Hh ltac:(lia)) as Hs.
  destruct (dir_step fuel d h o) as [[d' h'] r], (map_step m o) as [m' r']. cbn in Hs.
  destruct Hs as (Hh' & -> & nb' & R' & Hle). f_equal. apply (IH d' nb' m' h' R'); [lia|done|lia].
Qed.

(** ** References *)

(** Reference counts stay below the width of the counter. *)
Definition counted (x : IFNode) : Prop := 0 <= openReferences x < 2 ^ 64 - 1.

Lemma Open_spec st p x : st !! p = Some x -> removed x = false -> counted x ->
  Open st p = Some (<[p := with_references (openReferences x + 1) x]> st, SUCCESS).
Proof. intros Hp Hx Hc. unfold Open. rewrite Hp. cbn. rewrite Hx. rewrite wrap_small; [done|]. unfold counted in Hc. lia. Qed.

Lemma Close_spec st p x : st !! p = Some x -> 0 < openReferences x < 2 ^ 64 ->
  Close st p = Some (if (openReferences x =? 1) && removed x then delete p st
                     else <[p := with_references (openReferences x - 1) x]> st).
Proof.
  intros Hp Hc. unfold Close. rewrite Hp. cbn -[wrap]. rewrite wrap_small by lia.
  destruct (Z.eqb_spec (openReferences x - 1) 0), (Z.eqb_spec (openReferences x) 1); try lia; cbn [andb]; [|done].
  unfold Destroy. destruct (removed x); [|done]. by rewrite delete_insert_eq.
Qed.

(** Opening a node and closing it again leaves the store as it was. *)
Lemma Open_Close st p x : st !! p = Some x -> removed x = false -> counted x ->
  Close (<[p := with_references (openReferences x + 1) x]> st) p = Some st.
Proof.
  intros Hp Hx Hc. unfold counted in Hc.
  rewrite (Close_spec _ _ (with_references (openReferences x + 1) x)); [|by rewrite lookup_insert_eq|cbn; lia].
  cbn. rewrite Hx, andb_false_r, insert_insert_eq. f_equal. replace (openReferences x + 1 - 1) with (openReferences x) by lia.
  apply insert_id. rewrite Hp. by destruct x.
Qed.

Fixpoint close_n (n : nat) (st : Store) (p : Z) : option Store :=
  match n with O => Some st | S n => st ← Close st p; close_n n st p end.

(** ** Lookups in a directory of the store *)

(** Node [p] of the store is a directory with contents [m], in at most [fuel] blocks. *)
Definition is_dir (fuel : nat) (st : Store) (p : Z) (m : gmap (list Z) Z) : Prop :=
  exists x d nb, st !! p = Some x /\ body x = DirectoryBody d /\ dir_rep d nb m /\ (nb < fuel)%nat.

Lemma Find_hit fuel st dir m n p x :
  is_dir fuel st dir m -> n <> [] -> m !! n = Some p -> st !! p = Some x -> removed x = false -> counted x ->
  Find fuel st dir (Some n) = (<[p := with_references (openReferences x + 1) x]> st, Ok p).
Proof.
  intros (y & d & nb & Hy & Hb & R & Hf) Hn Hm Hp Hx Hc. unfold Find. rewrite Hy, Hb.
  destruct (FindEntry_spec fuel d nb m n R Hn Hf) as [(i & e & l1 & l2 & -> & _ & _ & _ & _ & Em)|[_ Em]]; [|congruence].
  assert (entry_node e = p) as -> by congruence. by rewrite (Open_spec st p x Hp Hx Hc).
Qed.

Lemma Find_miss fuel st dir m n :
  is_dir fuel st dir m -> n <> [] -> m !! n = None -> Find fuel st dir (Some n) = (st, Err NOT_FOUND).
Proof.
  intros (y & d & nb & Hy & Hb & R & Hf) Hn Hm. unfold Find. rewrite Hy, Hb.
  destruct (FindEntry_spec fuel d nb m n R Hn Hf) as [(i & e & l1 & l2 & -> & _ & _ & _ & _ & Em)|[-> _]]; [congruence|done].
Qed.

Lemma is_dir_insert fuel st dir m p x x' :
  is_dir fuel st dir m -> st !! p = Some x -> body x' = body x -> is_dir fuel (<[p := x']> st) dir m.
Proof.
  intros (y & d & nb & Hy & Hb & R & Hf) Hp Hx. destruct (decide (p = dir)) as [->|Hne].
  - exists x', d, nb. rewrite lookup_insert_eq. split; [done|]. split; [congruence|done].
  - exists y, d, nb. by rewrite lookup_insert_ne.
Qed.

(** ** Paths *)

Definition no_slash (l : list Z) : Prop := Forall (fun c => c <> slash) l.

Lemma char_app_l t u i : 0 <= i < Z.of_nat (length t) -> char (t ++ u) i = char t i.
Proof. intros Hi. unfold char. rewrite (proj2 (Z.ltb_ge _ _)) by lia. by rewrite lookup_app_l by lia. Qed.

Lemma char_mid pre c u : char (pre ++ c :: u) (Z.of_nat (length pre)) = Some c.
Proof.
  unfold char. rewrite (proj2 (Z.ltb_ge _ _)) by lia. rewrite Nat2Z.id, lookup_app_r by lia. by rewrite Nat.sub_diag.
Qed.

Lemma load_mid pre n u : load (pre ++ n ++ u) (Z.of_nat (length pre)) (Z.of_nat (length n)) = Some n.
Proof.
  unfold load. rewrite !length_app, (proj2 (Z.leb_le 0 _)), (proj2 (Z.leb_le 0 (Z.of_nat (length n)))), (proj2 (Z.leb_le (_ + _) _)) by lia.
  cbn. by rewrite !Nat2Z.id, drop_app_length, take_app_length.
Qed.

(** Walking back over a name up to the separator in front of it. *)
Lemma back_to_slash_spec pre f : forall u len fuel,
  no_slash f -> (length f <= fuel)%nat ->
  back_to_slash fuel (pre ++ slash :: f ++ u) (Z.of_nat (length pre + length f)) len =
    Some (Z.of_nat (length pre), len + Z.of_nat (length f)).
Proof.
  induction f as [|c f IH] using rev_ind; intros u len fuel Hf Hl.
  - cbn [length app]. rewrite Nat.add_0_r. destruct fuel; cbn -[char]; rewrite char_mid; cbn; do 2 f_equal; lia.
  - apply Forall_app in Hf as [Hf [Hc _]%Forall_cons]. rewrite length_app in Hl. cbn in Hl. destruct fuel as [|fuel]; [lia|].
    cbn [back_to_slash].
    assert (Ec : char (pre ++ slash :: (f ++ [c]) ++ u) (Z.of_nat (length pre + length (f ++ [c]))) = Some c).
    { rewrite <- (char_mid (pre ++ slash :: f) c u). f_equal; [|rewrite !length_app; cbn; lia].
      cbn. rewrite <- !app_assoc. done. }
    rewrite Ec. cbn [mbind option_bind]. rewrite (proj2 (Z.eqb_neq c slash)) by done.
    rewrite (proj2 (Z.ltb_lt 0 _)) by (rewrite length_app; cbn; lia). cbn [negb andb].
    replace (Z.of_nat (length pre + length (f ++ [c])) - 1) with (Z.of_nat (length pre + length f))
      by (rewrite length_app; cbn; lia).
    rewrite <- app_assoc. rewrite IH by (done || lia). do 2 f_equal. rewrite length_app. cbn. lia.
Qed.

(** The last component of a path and the length of what is in front of it. *)
Lemma ExtractFileName_spec pre f :
  no_slash f -> f <> [] -> match pre with [] => True | c :: _ => c = slash end ->
  Z.of_nat (length pre + length f) < MAX_FILE_PATH ->
  ExtractFileName {| text := pre ++ slash :: f; path_length := Z.of_nat (length pre + 1 + length f) |} =
    Ok {| name_at := Z.of_nat (length pre) + 1; name_length := Z.of_nat (length f) |}.
Proof.
  intros Hf Hne Hpre Hlen. unfold ExtractFileName, MAX_FILE_PATH in *. cbn [path_length text].
  rewrite (proj2 (Z.eqb_neq _ 0)), (proj2 (Z.ltb_ge _ _)) by lia. cbn [orb].
  assert (Hlast : exists c, char (pre ++ slash :: f) (Z.of_nat (length pre + 1 + length f) - 1) = Some c /\ c <> slash).
  { destruct f as [|c f _] using rev_ind; [done|]. exists c.
    apply Forall_app in Hf as [_ [Hc _]%Forall_cons]. split; [|done].
    rewrite <- (char_mid (pre ++ slash :: f) c []). f_equal; [by rewrite <- app_assoc|rewrite !length_app; cbn; lia]. }
  destruct Hlast as (c & -> & Hc). cbn [mbind option_bind]. rewrite (proj2 (Z.eqb_neq c slash)) by done. cbn [andb].
  replace (Z.of_nat (length pre + 1 + length f) - 1) with (Z.of_nat (length pre + length f)) by lia.
  pose proof (back_to_slash_spec pre f [] 0 (Z.to_nat (Z.of_nat (length pre + 1 + length f))) Hf ltac:(lia)) as E.
  rewrite app_nil_r in E. rewrite E. cbn [mbind option_bind].
  assert (E0 : char (pre ++ slash :: f) 0 = Some slash) by (destruct pre as [|c0 pre]; [done|by subst]).
  rewrite E0. cbn. rewrite orb_true_r. done.
Qed.

(** Reading a component: its characters are added to the current name. *)
Lemma resolve_component fuel st pre c u parent_length at_ node : forall n,
  no_slash c -> Z.of_nat (length pre + length c) <= parent_length ->
  resolve fuel (length c + n) st (pre ++ c ++ u) parent_length (Z.of_nat (length pre)) {| name_at := at_; name_length := 0 |} node =
  resolve fuel n st (pre ++ c ++ u) parent_length (Z.of_nat (length pre + length c)) {| name_at := at_; name_length := Z.of_nat (length c) |} node.
Proof.
  intros n Hc Hl.
  assert (H : forall k done rest, c = done ++ rest -> length rest = k ->
    resolve fuel (k + n) st (pre ++ c ++ u) parent_length (Z.of_nat (length pre + length done))
      {| name_at := at_; name_length := Z.of_nat (length done) |} node =
    resolve fuel n st (pre ++ c ++ u) parent_length (Z.of_nat (length pre + length c)) {| name_at := at_; name_length := Z.of_nat (length c) |} node).
  { induction k as [|k IH]; intros done rest E Hk.
    - apply nil_length_inv in Hk as ->. rewrite app_nil_r in E. by subst done.
    - destruct rest as [|x rest]; [done|]. cbn [Nat.add resolve].
      assert (Hlc : (length c = length done + S (length rest))%nat) by (rewrite E, length_app; done).
      rewrite (proj2 (Z.leb_gt _ _)) by lia.
      assert (Ex : char (pre ++ c ++ u) (Z.of_nat (length pre + length done)) = Some x).
      { rewrite <- (char_mid (pre ++ done) x (rest ++ u)). f_equal; [|rewrite length_app; lia].
        rewrite E, <- !app_assoc. done. }
      rewrite Ex. assert (x <> slash). { rewrite E in Hc. apply Forall_app in Hc as [_ [? _]%Forall_cons]. done. }
      rewrite (proj2 (Z.eqb_neq x slash)) by done. cbn [name_at name_length].
      rewrite <- (IH (done ++ [x]) rest); [|by rewrite <- app_assoc|by injection Hk].
      f_equal; [|f_equal]; rewrite length_app; cbn; lia. }
  specialize (H (length c) [] c eq_refl eq_refl). cbn [length] in H. by rewrite Nat.add_0_r in H.
Qed.

(** ** Resolving a path *)

(** A node of the store that can be opened and closed. *)
Definition usable (st : Store) (p : Z) (x : IFNode) : Prop :=
  st !! p = Some x /\ removed x = false /\ counted x.

Definition opened (x : IFNode) : IFNode := with_references (openReferences x + 1) x.

Lemma CheckFilePath_ok t n : 2 <= n <= MAX_FILE_PATH -> char t 0 = Some slash ->
  CheckFilePath {| text := t; path_length := n |} = Some true.
Proof.
  intros Hn Hc. unfold CheckFilePath. cbn [text path_length].
  rewrite (proj2 (Z.ltb_ge _ _)), (proj2 (Z.ltb_ge _ _)) by lia. cbn [orb]. by rewrite Hc.
Qed.

(** Walking one step down: the child is opened, the parent closed. *)
Lemma step_down fuel st p xp m n q xq :
  usable st p xp -> is_dir fuel st p m -> n <> [] -> m !! n = Some q -> usable st q xq -> p <> q ->
  Find fuel (<[p := opened xp]> st) p (Some n) = (<[q := opened xq]> (<[p := opened xp]> st), Ok q) /\
  Close (<[q := opened xq]> (<[p := opened xp]> st)) p = Some (<[q := opened xq]> st).
Proof.
  intros (Hp & Hpr & Hpc) Hd Hn Hm (Hq & Hqr & Hqc) Hne. split.
  - apply (Find_hit fuel _ p m n q xq); try done; [by eapply is_dir_insert|by rewrite lookup_insert_ne].
  - rewrite insert_insert_ne by done.
    replace (<[p := opened xp]> (<[q := opened xq]> st)) with
      (<[p := with_references (openReferences xp + 1) xp]> (<[q := opened xq]> st)) by done.
    apply Open_Close; [by rewrite lookup_insert_ne|done|done].
Qed.

(** A step down to a name that is not there. *)
Lemma step_miss fuel st p xp m n :
  usable st p xp -> is_dir fuel st p m -> n <> [] -> m !! n = None ->
  Find fuel (<[p := opened xp]> st) p (Some n) = (<[p := opened xp]> st, Err NOT_FOUND) /\
  Close (<[p := opened xp]> st) p = Some st.
Proof.
  intros (Hp & Hpr & Hpc) Hd Hn Hm. split; [|by apply Open_Close].
  apply (Find_miss fuel _ p m n); [by eapply is_dir_insert|done|done].
Qed.

(** The parent of a path of one component is the directory of partitions. *)
Lemma OpenParent_partition fuel st root xr mr pd xp name :
  usable st root xr -> is_dir fuel st root mr -> mr !! applicationBase = Some pd -> usable st pd xp -> root <> pd ->
  no_slash name -> name <> [] -> Z.of_nat (length name) < MAX_FILE_PATH ->
  OpenParent fuel st root {| text := slash :: name; path_length := Z.of_nat (length name) + 1 |} =
    (<[pd := opened xp]> st, Ok (pd, {| name_at := 1; name_length := Z.of_nat (length name) |})).
Proof.
  intros Hr Hdr Hm Hpd Hne Hns Hn Hl. unfold OpenParent.
  assert (0 < length name)%nat by (destruct name; [done|cbn; lia]).
  rewrite CheckFilePath_ok by (done || lia).
  pose proof (ExtractFileName_spec [] name Hns Hn I ltac:(cbn; lia)) as E. cbn [app length Nat.add] in E.
  replace (Z.of_nat (S (length name))) with (Z.of_nat (length name) + 1) in E by lia. rewrite E. cbn [name_at].
  destruct Hr as (Hr1 & Hr2 & Hr3). rewrite (Open_spec st root xr Hr1 Hr2 Hr3). fold (opened xr).
  destruct (step_down fuel st root xr mr applicationBase pd xp) as [HF HC]; try done.
  unfold HandleApplicationPath, IsApplicationPath. cbn [text].
  assert (Ec : exists c, char (slash :: name) 1 = Some c /\ c <> slash).
  { destruct name as [|c name]; [done|]. exists c. apply Forall_cons in Hns as [? _]. done. }
  destruct Ec as (c & -> & Hc). cbn [mbind option_bind]. rewrite (proj2 (Z.eqb_neq c slash)) by done. cbn [negb].
  rewrite HF, HC. cbn. done.
Qed.

(** * Theorems *)



(** C39: A node marked for removal lives until its last reference is closed:
    with [r] references, every close but the last leaves it in the store, where
    opening it again is refused, and the last one frees it.  A node that is not
    marked is never freed by a close. *)
Theorem removed_node_lifetime (st : Store) (p : Z) (x : IFNode) (r : nat) :
  st !! p = Some x -> openReferences x = Z.of_nat (S r) -> Z.of_nat (S r) < 2 ^ 64 ->
  close_n (S r) st p =
    Some (if removed x then delete p st else <[p := with_references 0 x]> st) /\
  forall j, (j <= r)%nat -> exists x',
    close_n j st p = Some (<[p := x']> st) /\ openReferences x' = Z.of_nat (S r - j) /\ body x' = body x /\
    (removed x = true -> Open (<[p := x']> st) p = Some (<[p := x']> st, UNAVAILABLE)).
Proof.
  revert st x. induction r as [|r IH]; intros st x Hp Hr H64.
  - split.
    + cbn [close_n]. rewrite (Close_spec st p x Hp), Hr by lia. cbn [Z.of_nat Z.eqb Pos.of_succ_nat Pos.eqb andb mbind option_bind].
      by destruct (removed x).
    + intros j Hj. assert (j = 0%nat) as -> by lia. exists x. cbn [close_n]. rewrite insert_id by done.
      repeat (split; [done|]). intros Hx. unfold Open. rewrite Hp. cbn. by rewrite Hx.
  - assert (Ec : Close st p = Some (<[p := with_references (Z.of_nat (S r)) x]> st)).
    { rewrite (Close_spec st p x Hp), (proj2 (Z.eqb_neq (openReferences x) 1)) by lia. cbn [andb].
      do 3 f_equal. lia. }
    set (x1 := with_references (Z.of_nat (S r)) x) in *.
    destruct (IH (<[p := x1]> st) x1) as [Hlast Hbefore]; [by rewrite lookup_insert_eq|done|lia|].
    split.
    + change (close_n (S (S r)) st p) with (st ← Close st p; close_n (S r) st p).
      rewrite Ec. cbn [mbind option_bind]. rewrite Hlast. unfold x1 at 1; cbn [removed with_references].
      by rewrite delete_insert_eq, insert_insert_eq.
    + intros [|j] Hj.
      * exists x. cbn [close_n]. rewrite insert_id by done. rewrite Hr.
        repeat (split; [done|]). intros Hx. unfold Open. rewrite Hp. cbn. by rewrite Hx.
      * destruct (Hbefore j ltac:(lia)) as (x' & Hx' & Hr' & Hb' & Ho'). exists x'.
        cbn [close_n]. rewrite Ec. cbn [mbind option_bind]. rewrite insert_insert_eq in Hx', Ho'.
        split; [done|]. split; [rewrite Hr'; f_equal; lia|]. done.
Qed.

Definition one_node : Store := {[ 5 := {| openReferences := 2; removed := true; body := DirectoryBody (new_junction 1) |} ]}.

Lemma removed_node_lifetime_witness : close_n 2 one_node 5 = Some (delete 5 one_node).
Proof.
  apply (removed_node_lifetime one_node 5 {| openReferences := 2; removed := true; body := DirectoryBody (new_junction 1) |} 1);
    reflexivity.
Defined.

(** Removing a name: the entry disappears from the directory and the node
    is freed at once when nobody has it open, and only marked otherwise; every
    other name keeps its node. *)
Theorem Remove_entry (fuel : nat) (st : Store) (dir p : Z) (m : gmap (list Z) Z) (n : list Z) (x : IFNode) :
  is_dir fuel st dir m -> n <> [] -> m !! n = Some p -> dir <> p ->
  st !! p = Some x -> removed x = false -> counted x ->
  exists st', Remove fuel st dir (Some n) = (st', Ok tt) /\
    is_dir fuel st' dir (delete n m) /\
    st' !! p = (if openReferences x =? 0 then None else Some (mark_removed x)) /\
    (forall q, q <> p -> q <> dir -> st' !! q = st !! q) /\
    Find fuel st' dir (Some n) = (st', Err NOT_FOUND).
Proof.
  intros (y & d & nb & Hy & Hb & R & Hf) Hn Hm Hne Hp Hx Hc. unfold Remove. rewrite Hy, Hb.
  destruct (FindEntry_spec fuel d nb m n R Hn Hf) as [(i & e & l1 & l2 & -> & Hi & Eb & Hfr & Hname & Em)|[_ Em]]; [|congruence].
  assert (entry_node e = p) as Hep by congruence. rewrite Hep, (Open_spec st p x Hp Hx Hc).
  unfold MarkForRemoval. rewrite lookup_insert_eq. cbn [mbind option_bind]. rewrite insert_insert_eq.
  rewrite lookup_insert_ne, Hy by done. set (x1 := mark_removed (with_references (openReferences x + 1) x)).
  set (y1 := with_body (DirectoryBody (write_entry d (Z.of_nat i) (length l1) null_entry)) y).
  set (st1 := <[dir := y1]> (<[p := x1]> st)).
  assert (H1 : st1 !! p = Some x1) by (unfold st1; by rewrite lookup_insert_ne, lookup_insert_eq by done).
  rewrite (Close_spec st1 p x1 H1) by (unfold counted in Hc; cbn; lia).
  set (st' := if (openReferences x1 =? 1) && removed x1 then delete p st1
              else <[p := with_references (openReferences x1 - 1) x1]> st1). exists st'. split; [done|].
  assert (Hd : is_dir fuel st' dir (delete n m)).
  { exists y1, (write_entry d (Z.of_nat i) (length l1) null_entry), nb. split; [|split; [done|split; [|done]]].
    - unfold st', st1. destruct (_ && _); [rewrite lookup_delete_ne|rewrite lookup_insert_ne]; [|done| |done]; by rewrite lookup_insert_eq.
    - rewrite <- Hname. by apply (clear_rep d nb m i l1 e l2). }
  split; [done|]. split; [|split].
  - unfold st', x1; cbn [openReferences mark_removed with_references removed]. rewrite andb_true_r.
    replace (openReferences x + 1 =? 1) with (openReferences x =? 0) by lia.
    destruct (openReferences x =? 0); [by rewrite lookup_delete_eq|]. rewrite lookup_insert_eq.
    do 2 f_equal. unfold mark_removed, with_references; cbn. f_equal. lia.
  - intros q Hq1 Hq2. unfold st', st1. destruct (_ && _); [rewrite lookup_delete_ne|rewrite lookup_insert_ne]; try done; by rewrite !lookup_insert_ne.
  - apply (Find_miss fuel st' dir (delete n m) n); [done|done|by rewrite lookup_delete_eq].
Qed.

(** Opening "/name": the name is looked up in the directory "partitions" of
    the root.  When it is there its node is returned with one more reference,
    when it is not the answer is [NOT_FOUND]; every other reference taken on
    the way is given back. *)
Theorem open_partition (fuel : nat) (st : Store) (root pd : Z) (xr xp : IFNode) (mr mp : gmap (list Z) Z) (name : list Z) :
  usable st root xr -> is_dir fuel st root mr -> mr !! applicationBase = Some pd ->
  usable st pd xp -> is_dir fuel st pd mp -> root <> pd ->
  no_slash name -> name <> [] -> Z.of_nat (length name) < MAX_FILE_PATH ->
  let p := {| text := slash :: name; path_length := Z.of_nat (length name) + 1 |} in
  (mp !! name = None -> VFS_Open fuel st root p = (st, Err NOT_FOUND)) /\
  (forall node xn, mp !! name = Some node -> usable st node xn -> pd <> node ->
     VFS_Open fuel st root p = (<[node := opened xn]> st, Ok node)).
Proof.
  intros Hr Hdr Hm Hpd Hdp Hne Hns Hn Hl p. unfold VFS_Open, p.
  rewrite (OpenParent_partition fuel st root xr mr pd xp name) by done. cbn [name_length text].
  assert (0 < length name)%nat by (destruct name; [done|cbn; lia]).
  rewrite (proj2 (Z.eqb_neq _ 0)) by lia.
  assert (En : ref_name (slash :: name) {| name_at := 1; name_length := Z.of_nat (length name) |} = Some name).
  { pose proof (load_mid [slash] name []) as E. by rewrite app_nil_r in E. }
  rewrite En. split.
  - intros Hmiss. destruct (step_miss fuel st pd xp mp name) as [HF HC]; try done. by rewrite HF, HC.
  - intros node xn Hhit Hxn Hpn. destruct (step_down fuel st pd xp mp name node xn) as [HF HC]; try done. by rewrite HF, HC.
Qed.

(** Beyond one component the resolution looks up the wrong names: in
    "//a/b/f" the second name starts one character late and takes the
    separator in, so whatever [b] the directory holds the answer is
    [NOT_FOUND], as long as it has no entry named like the end of [b] and a
    slash. *)
Theorem second_component_misread (fuel : nat) (st : Store) (root n1 : Z) (xr x1 : IFNode)
    (mr m1 : gmap (list Z) Z) (a b f : list Z) :
  usable st root xr -> is_dir fuel st root mr -> a <> [] -> b <> [] -> f <> [] ->
  no_slash a -> no_slash b -> no_slash f -> mr !! a = Some n1 ->
  usable st n1 x1 -> is_dir fuel st n1 m1 -> root <> n1 ->
  m1 !! (tail b ++ [slash]) = None ->
  let t := [slash; slash] ++ a ++ [slash] ++ b ++ slash :: f in
  Z.of_nat (length t) <= MAX_FILE_PATH ->
  VFS_Open fuel st root {| text := t; path_length := Z.of_nat (length t) |} = (st, Err NOT_FOUND).
Proof.
  intros Hr Hdr Ha Hb Hf Hsa Hsb Hsf Hma H1 Hd1 Hne Hmiss t Hlen.
  set (pre := [slash; slash] ++ a ++ [slash] ++ b).
  assert (Et : t = pre ++ slash :: f) by (unfold t, pre; by rewrite <- !app_assoc).
  assert (Hlp : length pre = (3 + length a + length b)%nat) by (unfold pre; rewrite !length_app; cbn; lia).
  assert (Hlt : length t = (length pre + 1 + length f)%nat) by (rewrite Et, length_app; cbn; lia).
  assert (Hla : (0 < length a)%nat) by (destruct a; [done|cbn; lia]).
  assert (Hlb : (0 < length b)%nat) by (destruct b; [done|cbn; lia]).
  unfold VFS_Open, OpenParent. rewrite CheckFilePath_ok by (done || (split; [|done]; rewrite Hlt, Hlp; lia)).
  pose proof (ExtractFileName_spec pre f Hsf Hf eq_refl ltac:(unfold MAX_FILE_PATH in *; lia)) as E.
  rewrite <- Et, <- Hlt in E. rewrite E. cbn [name_at].
  pose proof Hr as (Hr1 & Hr2 & Hr3). rewrite (Open_spec st root xr Hr1 Hr2 Hr3). fold (opened xr).
  unfold HandleApplicationPath, IsApplicationPath. cbn [text]. change (char t 1) with (Some slash). cbn [mbind option_bind Z.eqb negb].
  change (slash =? slash) with true. cbn [negb].
  (* the first component *)
  replace (S (Z.to_nat (Z.of_nat (length pre) + 1))) with (length a + (1 + (length b + 4)))%nat by lia.
  pose proof (resolve_component fuel (<[root := opened xr]> st) [slash; slash] a ([slash] ++ b ++ slash :: f)
    (Z.of_nat (length pre) + 1) 2 root (1 + (length b + 4)) Hsa ltac:(rewrite Hlp; cbn [length]; lia)) as R1.
  change ([slash; slash] ++ a ++ [slash] ++ b ++ slash :: f) with t in R1. change (Z.of_nat (length [slash; slash])) with 2 in R1.
  rewrite R1. clear R1. cbn [Nat.add resolve length]. rewrite (proj2 (Z.leb_gt _ _)) by lia.
  assert (C1 : char t (Z.of_nat (S (S (length a)))) = Some slash).
  { rewrite <- (char_mid ([slash; slash] ++ a) slash (b ++ slash :: f)). f_equal. }
  rewrite C1. change (slash =? slash) with true. cbn [name_length]. rewrite (proj2 (Z.eqb_neq _ 0)) by lia.
  assert (N1 : ref_name t {| name_at := 2; name_length := Z.of_nat (length a) |} = Some a).
  { apply (load_mid [slash; slash] a). }
  rewrite N1. destruct (step_down fuel st root xr mr a n1 x1) as [HF HC]; try done. rewrite HF, HC.
  (* the second component *)
  cbn [name_at name_length].
  pose proof (resolve_component fuel (<[n1 := opened x1]> st) ([slash; slash] ++ a ++ [slash]) b (slash :: f)
    (Z.of_nat (length pre) + 1) (2 + Z.of_nat (length a) + 2) n1 4 Hsb) as R2.
  assert (Hl3 : length ([slash; slash] ++ a ++ [slash]) = (3 + length a)%nat) by (rewrite !length_app; cbn; lia).
  rewrite Hl3 in R2. specialize (R2 ltac:(lia)).
  assert (Et2 : ([slash; slash] ++ a ++ [slash]) ++ b ++ slash :: f = t) by (unfold t; by rewrite <- !app_assoc).
  rewrite Et2 in R2. replace (Z.of_nat (S (S (length a))) + 1) with (Z.of_nat (3 + length a)) by lia.
  rewrite R2. clear R2. cbn [resolve]. rewrite (proj2 (Z.leb_gt _ _)) by lia.
  assert (C2 : char t (Z.of_nat (3 + length a + length b)) = Some slash).
  { rewrite <- (char_mid pre slash f). f_equal; [done|]. by rewrite Hlp. }
  rewrite C2. change (slash =? slash) with true. cbn [name_length]. rewrite (proj2 (Z.eqb_neq _ 0)) by lia.
  assert (N2 : ref_name t {| name_at := 2 + Z.of_nat (length a) + 2; name_length := Z.of_nat (length b) |} = Some (tail b ++ [slash])).
  { destruct b as [|c b']; [done|]. pose proof (load_mid ([slash; slash] ++ a ++ [slash; c]) (b' ++ [slash]) f) as E2.
    unfold ref_name. cbn [name_at name_length tail]. rewrite <- E2. f_equal.
    - unfold t. rewrite <- !app_assoc. done.
    - rewrite !length_app; cbn; lia.
    - rewrite length_app; cbn; lia. }
  rewrite N2. destruct (step_miss fuel st n1 x1 m1 (tail b ++ [slash])) as [HF2 HC2]; try done; [by destruct (tail b)|].
  by rewrite HF2, HC2.
Qed.

(** ** Witnesses for the path theorems: small trees *)

Lemma one_entry_dir n x : n <> [] -> exists d nb, dir_rep d nb {[ n := x ]} /\ (nb < 3)%nat.
Proof.
  intros Hn. pose proof (CreateEntry_spec 3 _ 0 ∅ n x [] dir_new_rep Hn ltac:(lia) ltac:(constructor) eq_refl) as Hc.
  cbv zeta in Hc. rewrite lookup_empty in Hc. destruct Hc as (d & nb & h & _ & R & Hle & _).
  exists d, nb. split; [exact R|lia].
Qed.

Definition directory (d : dir_data) : IFNode := {| openReferences := 0; removed := false; body := DirectoryBody d |}.
Definition three_nodes (d1 d2 d3 : dir_data) : Store :=
  {[ 1 := directory d1; 2 := directory d2; 3 := directory d3 ]}.

Lemma three_usable d1 d2 d3 :
  usable (three_nodes d1 d2 d3) 1 (directory d1) /\ usable (three_nodes d1 d2 d3) 2 (directory d2) /\
  usable (three_nodes d1 d2 d3) 3 (directory d3).
Proof. repeat split; done. Qed.

Lemma three_dirs d1 nb1 m1 d2 nb2 m2 d3 :
  dir_rep d1 nb1 m1 -> (nb1 < 3)%nat -> dir_rep d2 nb2 m2 -> (nb2 < 3)%nat ->
  is_dir 3 (three_nodes d1 d2 d3) 1 m1 /\ is_dir 3 (three_nodes d1 d2 d3) 2 m2.
Proof.
  intros R1 H1 R2 H2. split; [exists (directory d1), d1, nb1|exists (directory d2), d2, nb2]; done.
Qed.

(** "/x" where the partitions hold "x". *)
Lemma open_partition_witness :
  exists st st', VFS_Open 3 st 1 {| text := [47; 120]; path_length := 2 |} = (st', Ok 3).
Proof.
  destruct (one_entry_dir applicationBase 2 ltac:(done)) as (d1 & nb1 & R1 & H1).
  destruct (one_entry_dir [120] 3 ltac:(done)) as (d2 & nb2 & R2 & H2).
  destruct (three_dirs d1 nb1 _ d2 nb2 _ (new_junction 1) R1 H1 R2 H2) as [D1 D2].
  destruct (three_usable d1 d2 (new_junction 1)) as (U1 & U2 & U3).
  exists (three_nodes d1 d2 (new_junction 1)), (<[3 := opened (directory (new_junction 1))]> (three_nodes d1 d2 (new_junction 1))).
  destruct (open_partition 3 (three_nodes d1 d2 (new_junction 1)) 1 2 _ _ _ _ [120] U1 D1
    (lookup_singleton_eq _ _) U2 D2) as [_ Hhit]; [lia|by repeat constructor|done|cbn; unfold MAX_FILE_PATH; lia|].
  apply (Hhit 3 _ (lookup_singleton_eq _ _) U3). lia.
Defined.

(** "//a/bc/f" where "a" holds "bc". *)
Lemma second_component_misread_witness :
  exists st, VFS_Open 3 st 1 {| text := [47; 47; 97; 47; 98; 99; 47; 102]; path_length := 8 |} = (st, Err NOT_FOUND).
Proof.
  destruct (one_entry_dir [97] 2 ltac:(done)) as (d1 & nb1 & R1 & H1).
  destruct (one_entry_dir [98; 99] 3 ltac:(done)) as (d2 & nb2 & R2 & H2).
  destruct (three_dirs d1 nb1 _ d2 nb2 _ (new_junction 1) R1 H1 R2 H2) as [D1 D2].
  destruct (three_usable d1 d2 (new_junction 1)) as (U1 & U2 & U3).
  exists (three_nodes d1 d2 (new_junction 1)).
  apply (second_component_misread 3 (three_nodes d1 d2 (new_junction 1)) 1 2 _ _ _ _ [97] [98; 99] [102] U1 D1
    ltac:(done) ltac:(done) ltac:(done) ltac:(by repeat constructor) ltac:(by repeat constructor)
    ltac:(by repeat constructor) (lookup_singleton_eq _ _) U2 D2); [lia|done|done].
Defined.

(** Removing "a" from a directory that holds it. *)
Lemma Remove_entry_witness :
  exists st st', Remove 3 st 1 (Some [97]) = (st', Ok tt) /\ st' !! 2 = None /\
    Find 3 st' 1 (Some [97]) = (st', Err NOT_FOUND).
Proof.
  destruct (one_entry_dir [97] 2 ltac:(done)) as (d1 & nb1 & R1 & H1).
  destruct (three_dirs d1 nb1 _ (new_junction 1) 0 _ (new_junction 1) R1 H1 dir_new_rep ltac:(lia)) as [D1 _].
  destruct (three_usable d1 (new_junction 1) (new_junction 1)) as (_ & (U1 & U2 & U3) & _).
  exists (three_nodes d1 (new_junction 1) (new_junction 1)).
  destruct (Remove_entry 3 _ 1 2 _ [97] _ D1 ltac:(done) (lookup_singleton_eq _ _) ltac:(lia) U1 U2 U3)
    as (st' & HR & _ & H2 & _ & HF).
  exists st'. exact (conj HR (conj H2 HF)).
Defined.
