(* ===== verification/Format.v ===== *)
(** * Component: formatted output ([kernel/src/screen/Format.cpp])

    [vprintf] interprets a format against a list of arguments and emits
    characters.  The format is its characters with the terminating zero; reading
    past it, a buffer overrun, or an argument of the wrong kind is a [Fault],
    and a loop that never ends is [Diverges]. *)
From S2P Require Import Prelude.

Inductive length_modifier := hh | h | none | l | ll | j | z | t | L.

(** A variadic argument: an integer as the 64 bits of its slot, or a string
    (its characters, without the terminator). *)
Inductive arg := Num (slot : Z) | Str (s : list Z).

(** [va_arg]: the next argument, read at the width and sign of its type. *)
Definition va_num (args : list arg) : option (Z * list arg) :=
  match args with Num x :: args => Some (x, args) | _ => None end.
Definition va_str (args : list arg) : option (list Z * list arg) :=
  match args with Str s :: args => Some (s, args) | _ => None end.
Definition va_int (args : list arg) : option (Z * list arg) :=
  '(x, args) ← va_num args; Some (signed 32 (u32 x), args).

(** [fetch_signed_number] and [fetch_unsigned_number]; [None] inside is
    [*success = false]. *)
Definition fetch_signed_number (lmodif : length_modifier) (args : list arg) : option (option (Z * list arg)) :=
  match lmodif with
  | hh | h | none => '(x, args) ← va_num args; Some (Some (signed 32 (u32 x), args))
  | l | ll | j | z | t => '(x, args) ← va_num args; Some (Some (signed 64 (u64 x), args))
  | L => Some None
  end.
Definition fetch_unsigned_number (lmodif : length_modifier) (args : list arg) : option (option (Z * list arg)) :=
  match lmodif with
  | hh | h | none => '(x, args) ← va_num args; Some (Some (u32 x, args))
  | l | ll | j | z | t => '(x, args) ← va_num args; Some (Some (u64 x, args))
  | L => Some None
  end.

(** ** Numbers *)

Definition DIGITS_SIZE : nat := 22.   (* BUFFER_SIZE of itoa and utoa *)

Definition digit_char (i : Z) : Z := if i <? 10 then i + 48 else i + 97 - 10.

(** [while (v || tp == tmp)]: the digits, least significant first; [room] is
    what is left of [tmp]. *)
Fixpoint emit_digits (room : nat) (first : bool) (v radix : Z) : option (list Z) :=
  if negb (v =? 0) || first then
    match room with
    | O => None
    | S room => ds ← emit_digits room false (v / radix) radix; Some (digit_char (v mod radix) :: ds)
    end
  else Some [].

Definition utoa (x : Z) (buffer : list Z) (radix : Z) : option (list Z * Z) :=
  ds ← emit_digits DIGITS_SIZE true x radix;
  buffer ← put buffer 0 (rev ds ++ [0]);
  Some (buffer, Z.of_nat (length ds)).

Definition itoa (x : Z) (buffer : list Z) (radix : Z) : option (list Z * Z) :=
  let sign := (radix =? 10) && (x <? 0) in
  let v := if sign then u64 (- x) else u64 x in
  ds ← emit_digits DIGITS_SIZE true v radix;
  let out := (if sign then [45] else []) ++ rev ds in
  buffer ← put buffer 0 (out ++ [0]);
  Some (buffer, Z.of_nat (length out)).

(** [for (size_t i = len; i > 0; --i) number_buffer[i - 1 + precision - len] = number_buffer[i - 1];] *)
Fixpoint shift_right (i : nat) (shift : Z) (buffer : list Z) : option (list Z) :=
  match i with
  | O => Some buffer
  | S i => buffer ← memcpy buffer (Z.of_nat i + shift) buffer (Z.of_nat i) 1; shift_right i shift buffer
  end.

Definition precision_fill (len precision : Z) (number_buffer : list Z) : option (list Z * Z) :=
  if len <? precision then
    buffer ← shift_right (Z.to_nat len) (precision - len) number_buffer;
    buffer ← put buffer 0 (replicate (Z.to_nat (precision - len)) 48);
    Some (buffer, precision)
  else Some (number_buffer, len).

(** [Log::puts]: up to the terminator, which must be there. *)
Fixpoint puts (s : list Z) : option (list Z) :=
  match s with
  | [] => None
  | c :: s => if c =? 0 then Some [] else out ← puts s; Some (c :: out)
  end.

Definition clamp_precision (precision : Z) : Z :=
  if precision <? 0 then 1 else if 32 <? precision then 32 else precision.

(** The number buffer, [precision + 1] characters with the last one zero (the
    others are whatever the stack held). *)
Definition number_buffer (junk : Z) (precision : Z) : list Z := replicate (Z.to_nat precision) junk ++ [0].

(** [for (size_t i = len; i > 0; --i)]: capitals for the digits a to f. *)
Definition capital (c : Z) : Z := if (97 <=? c) && (c <=? 102) then c - (97 - 65) else c.
Definition capitals (len : Z) (buffer : list Z) : list Z :=
  map capital (take (Z.to_nat len) buffer) ++ drop (Z.to_nat len) buffer.

Record conversion := {
  left_justify : bool; force_sign : bool; prepend_space : bool; alternative_conv : bool; leading_zeroes : bool
}.
Definition no_flags : conversion :=
  {| left_justify := false; force_sign := false; prepend_space := false; alternative_conv := false; leading_zeroes := false |}.

Section Print.
Context (junk : Z).

(** The cases 'd' and 'i'. *)
Definition print_signed (fl : conversion) (precision number : Z) : option (list Z) :=
  let precision := clamp_precision precision in
  '(buffer, len) ← itoa number (number_buffer junk precision) 10;
  '(buffer, _) ← precision_fill len precision buffer;
  digits ← puts buffer;
  Some ((if force_sign fl && (0 <=? number) then [43]
         else if prepend_space fl && (0 <=? number) then [32] else []) ++ digits).

(** The cases 'o', 'x', 'X' and 'u'. *)
Definition print_unsigned (radix : Z) (upper : bool) (prefix : list Z) (precision number : Z) : option (list Z) :=
  let precision := clamp_precision precision in
  '(buffer, len) ← utoa number (number_buffer junk precision) radix;
  let buffer := if upper then capitals len buffer else buffer in
  '(buffer, _) ← precision_fill len precision buffer;
  digits ← puts buffer;
  Some (prefix ++ digits).

(** ** Parsing a conversion *)

Definition is_digit (c : Z) : bool := (48 <=? c) && (c <=? 57).

(** The loop over the flags; the first other character is left in the format. *)
Fixpoint parse_flags (fl : conversion) (fmt : list Z) : option (conversion * list Z) :=
  match fmt with
  | [] => None
  | c :: rest =>
      if c =? 45 then
        parse_flags {| left_justify := true; force_sign := force_sign fl; prepend_space := prepend_space fl;
                       alternative_conv := alternative_conv fl; leading_zeroes := false |} rest
      else if c =? 43 then
        parse_flags {| left_justify := left_justify fl; force_sign := true; prepend_space := false;
                       alternative_conv := alternative_conv fl; leading_zeroes := leading_zeroes fl |} rest
      else if c =? 32 then
        parse_flags {| left_justify := left_justify fl; force_sign := force_sign fl; prepend_space := negb (force_sign fl);
                       alternative_conv := alternative_conv fl; leading_zeroes := leading_zeroes fl |} rest
      else if c =? 35 then
        parse_flags {| left_justify := left_justify fl; force_sign := force_sign fl; prepend_space := prepend_space fl;
                       alternative_conv := true; leading_zeroes := leading_zeroes fl |} rest
      else if c =? 48 then
        parse_flags {| left_justify := left_justify fl; force_sign := force_sign fl; prepend_space := prepend_space fl;
                       alternative_conv := alternative_conv fl; leading_zeroes := negb (left_justify fl) |} rest
      else Some (fl, fmt)
  end.

(** [while (c >= '0' && c <= '9')] on an [intmax_t], whose overflow is a fault;
    the first non-digit is left in the format. *)
Fixpoint parse_digits (acc : Z) (fmt : list Z) : option (Z * list Z) :=
  match fmt with
  | [] => None
  | c :: rest =>
      if is_digit c then
        let acc := acc * 10 + (c - 48) in
        if acc <? 2 ^ 63 then parse_digits acc rest else None
      else Some (acc, fmt)
  end.

Definition parse_width (fmt : list Z) (args : list arg) : option (Z * list Z * list arg) :=
  match fmt with
  | [] => None
  | c :: rest =>
      if c =? 42 then '(w, args) ← va_int args; Some (w, rest, args)
      else if (c =? 45) || is_digit c then
        let neg := c =? 45 in
        '(w, fmt) ← parse_digits 0 (if neg then rest else fmt);
        Some (if neg then - w else w, fmt, args)
      else Some (0, fmt, args)
  end.

(** When no digit follows the point, the character read there is not given
    back. *)
Definition parse_precision (fmt : list Z) (args : list arg) : option (Z * list Z * list arg) :=
  match fmt with
  | [] => None
  | c :: rest =>
      if negb (c =? 46) then Some (-1, fmt, args)
      else
        match rest with
        | [] => None
        | c :: rest' =>
            if c =? 42 then '(p, args) ← va_int args; Some (p, rest', args)
            else
              let neg := c =? 45 in
              let digits := if neg then rest' else rest in
              match digits with
              | [] => None
              | c :: after =>
                  if is_digit c then
                    '(p, fmt) ← parse_digits 0 digits; Some (if neg then - p else p, fmt, args)
                  else Some (-1, after, args)
              end
        end
  end.

(** After 'j', 'z', 't' and 'L' the code skips one more character. *)
Definition parse_length (fmt : list Z) : option (length_modifier * list Z) :=
  let skip lmodif rest := match rest with [] => None | _ :: rest => Some (lmodif, rest) end in
  match fmt with
  | [] => None
  | c :: rest =>
      if c =? 104 then
        match rest with
        | [] => None
        | c' :: rest' => if c' =? 104 then Some (hh, rest') else Some (h, rest)
        end
      else if c =? 108 then
        match rest with
        | [] => None
        | c' :: rest' => if c' =? 108 then Some (ll, rest') else Some (l, rest)
        end
      else if c =? 106 then skip j rest
      else if c =? 122 then skip z rest
      else if c =? 116 then skip t rest
      else if c =? 76 then skip L rest
      else Some (none, fmt)
  end.

(** ** Conversions *)

(** The characters a conversion emits and the arguments left. *)
Inductive emitted := Emits (out : list Z) (args : list arg) | Stuck | Forever.

Definition spaces (n : Z) : list Z := replicate (Z.to_nat n) 32.

Definition of_number (r : option (option (Z * list arg))) (args : list arg) (print : Z -> option (list Z)) : emitted :=
  match r with
  | None => Stuck
  | Some None => Emits [] args   (* the conversion is dropped *)
  | Some (Some (x, args)) => match print x with Some out => Emits out args | None => Stuck end
  end.

Definition convert_char (fl : conversion) (width : Z) (lmodif : length_modifier) (args : list arg) : emitted :=
  match lmodif with
  | none | l =>
      match va_int args with
      | None => Stuck
      | Some (x, args) =>
          let c := x mod 256 in
          Emits (if left_justify fl then c :: spaces (width - 1) else spaces (width - 1) ++ [c]) args
      end
  | _ => Emits [] args
  end.

(** For a string with the length [l] and right justification, the padding loop
    tests [minimum_field_size - length] instead of comparing with it. *)
Definition convert_string (fl : conversion) (width : Z) (lmodif : length_modifier) (args : list arg) : emitted :=
  match lmodif with
  | none | l =>
      match va_str args with
      | None => Stuck
      | Some (s, args) =>
          let pad := width - Z.of_nat (length s) in
          if left_justify fl then Emits (s ++ spaces pad) args
          else match lmodif with
               | l => if pad =? 0 then Emits s args else Forever
               | _ => Emits (spaces pad ++ s) args
               end
      end
  | _ => Emits [] args
  end.

Definition convert (fl : conversion) (width precision : Z) (lmodif : length_modifier) (c : Z) (args : list arg) : emitted :=
  if c =? 99 then convert_char fl width lmodif args
  else if c =? 115 then convert_string fl width lmodif args
  else if (c =? 100) || (c =? 105) then
    of_number (fetch_signed_number lmodif args) args (print_signed fl precision)
  else if c =? 111 then
    of_number (fetch_unsigned_number lmodif args) args
      (print_unsigned 8 false (if alternative_conv fl then [48] else []) precision)
  else if (c =? 120) || (c =? 88) then
    of_number (fetch_unsigned_number lmodif args) args
      (fun x => print_unsigned 16 (c =? 88) (if alternative_conv fl && negb (x =? 0) then [48; 120] else []) precision x)
  else if c =? 117 then
    of_number (fetch_unsigned_number lmodif args) args (print_unsigned 10 false [] precision)
  else Emits [] args.

(** Everything between a percent sign and the end of its conversion. *)
Definition parse_conversion (fmt : list Z) (args : list arg) : option (emitted * list Z) :=
  '(fl, fmt) ← parse_flags no_flags fmt;
  '(width, fmt, args) ← parse_width fmt args;
  '(precision, fmt, args) ← parse_precision fmt args;
  '(lmodif, fmt) ← parse_length fmt;
  match fmt with
  | [] => None
  | c :: fmt => Some (convert fl width precision lmodif c args, fmt)
  end.

Inductive printed := Printed (out : list Z) | Fault | Diverges.

Definition prepend (out : list Z) (p : printed) : printed :=
  match p with Printed out' => Printed (out ++ out') | p => p end.

(** The main loop, one character or one conversion per round: the length of the
    format is enough fuel.  [*format] is the head of the list. *)
Fixpoint vprintf_loop (fuel : nat) (fmt : list Z) (args : list arg) : printed :=
  match fuel, fmt with
  | O, _ | _, [] => Fault
  | S fuel, c :: rest =>
      if c =? 0 then Printed []
      else
        match rest with
        | [] => Fault
        | next :: _ =>
            if (c =? 37) && negb (next =? 37) then
              match parse_conversion rest args with
              | None => Fault
              | Some (Stuck, _) => Fault
              | Some (Forever, _) => Diverges
              | Some (Emits out args, rest) => prepend out (vprintf_loop fuel rest args)
              end
            else prepend [c] (vprintf_loop fuel rest args)
        end
  end.

Definition vprintf (fmt : list Z) (args : list arg) : printed := vprintf_loop (S (length fmt)) fmt args.
End Print.
