(* ===== verification/FormatProps.v ===== *)
(** * Theorems on formatted output *)
From S2P Require Import Prelude Format.

(** ** Digits *)

Definition digit_value (c : Z) : Z := if c <? 58 then c - 48 else c - 97 + 10.

(** The number a string of digits stands for, most significant first. *)
Definition value_of (radix : Z) (ds : list Z) : Z := fold_left (fun a c => a * radix + digit_value c) ds 0.

(** The digits [utoa] produces. *)
Definition numeral (radix v : Z) : list Z :=
  match emit_digits DIGITS_SIZE true v radix with Some ds => rev ds | None => [] end.

Lemma digit_value_char i : 0 <= i < 36 -> digit_value (digit_char i) = i.
Proof.
  intros Hi. unfold digit_value, digit_char.
  destruct (Z.ltb_spec i 10); [rewrite (proj2 (Z.ltb_lt _ 58)) by lia|rewrite (proj2 (Z.ltb_ge _ 58)) by lia]; lia.
Qed.

Lemma digit_char_range i : 0 <= i < 36 -> 48 <= digit_char i <= 122.
Proof. intros Hi. unfold digit_char. destruct (Z.ltb_spec i 10); lia. Qed.

Definition is_digit_char (c : Z) : Prop := 48 <= c <= 122.

Lemma value_of_snoc radix ds c : value_of radix (ds ++ [c]) = value_of radix ds * radix + digit_value c.
Proof. unfold value_of. by rewrite fold_left_app. Qed.

Lemma emit_digits_zero room radix : emit_digits room false 0 radix = Some [].
Proof. by destruct room. Qed.

Lemma emit_digits_spec radix : 2 <= radix <= 36 -> forall room first v,
  0 <= v < radix ^ Z.of_nat room -> (v = 0 -> first = true -> (0 < room)%nat) ->
  exists ds, emit_digits room first v radix = Some ds /\ Forall is_digit_char ds /\
    value_of radix (rev ds) = v /\ (length ds <= room)%nat /\
    (v <> 0 -> List.last ds 0 <> 48) /\ (v = 0 -> ds = if first then [48] else []).
Proof.
  intros Hr. induction room as [|room IH]; intros first v Hv Hz.
  - assert (v = 0) as -> by (change (radix ^ Z.of_nat 0) with 1 in Hv; lia).
    destruct first; [specialize (Hz eq_refl eq_refl); lia|]. exists []. by repeat split.
  - cbn [emit_digits]. destruct (Z.eqb_spec v 0) as [->|Hnz]; cbn [negb orb].
    + destruct first; [|exists []; split; [done|]; split; [done|]; split; [done|]; split; [cbn; lia|done]].
      rewrite Z.div_0_l, emit_digits_zero, Z.mod_0_l by lia. cbn. exists [48]. split; [done|].
      split; [constructor; [unfold is_digit_char; lia|done]|]. split; [done|]. split; [cbn; lia|done].
    + pose proof (Z.mod_pos_bound v radix ltac:(lia)) as Hmb. pose proof (Z.div_mod v radix ltac:(lia)) as Hdm.
      assert (Hdv : 0 <= v / radix < radix ^ Z.of_nat room).
      { rewrite Nat2Z.inj_succ, Z.pow_succ_r in Hv by lia. split; [apply Z.div_pos; lia|].
        apply Z.div_lt_upper_bound; lia. }
      destruct (IH false (v / radix) Hdv ltac:(done)) as (ds & E & Hd & Hval & Hlen & Hlast & Hz0).
      rewrite E. cbn [mbind option_bind]. exists (digit_char (v mod radix) :: ds).
      split; [done|]. split; [constructor; [by apply digit_char_range; lia|done]|].
      split; [|split; [cbn; lia|split; [|done]]].
      * cbn [rev]. rewrite value_of_snoc, Hval, digit_value_char by lia. lia.
      * intros _. destruct (decide (v / radix = 0)) as [E0|E0].
        -- rewrite (Hz0 E0). cbn. rewrite E0 in Hdm. intros Hc. apply Hnz.
           assert (v mod radix = 0); [|lia]. rewrite <- (digit_value_char (v mod radix)), Hc by lia. reflexivity.
        -- specialize (Hlast E0). destruct ds; [|exact Hlast]. exfalso. cbn in Hval. lia.
Qed.

(** The radixes of the conversions: 22 digits are enough. *)
Definition conversion_radix (radix : Z) : Prop := radix = 8 \/ radix = 10 \/ radix = 16.

Lemma numeral_spec radix v : conversion_radix radix -> 0 <= v < 2 ^ 64 ->
  emit_digits DIGITS_SIZE true v radix = Some (rev (numeral radix v)) /\ Forall is_digit_char (numeral radix v) /\
  value_of radix (numeral radix v) = v /\ (1 <= length (numeral radix v) <= 22)%nat /\
  (v <> 0 -> hd 0 (numeral radix v) <> 48) /\ (v = 0 -> numeral radix v = [48]).
Proof.
  intros Hr Hv. assert (Hb : 2 ^ 64 <= radix ^ Z.of_nat DIGITS_SIZE) by (destruct Hr as [->|[->| ->]]; vm_compute; discriminate).
  destruct (emit_digits_spec radix ltac:(destruct Hr as [->|[->| ->]]; lia) DIGITS_SIZE true v ltac:(lia)
    ltac:(intros; unfold DIGITS_SIZE; lia)) as (ds & E & Hd & Hval & Hlen & Hlast & Hz).
  unfold numeral. rewrite E. rewrite rev_involutive. split; [done|]. split; [by apply Forall_rev|]. split; [done|].
  rewrite length_rev. split; [|split].
  - split; [|unfold DIGITS_SIZE in Hlen; lia]. destruct ds; [|cbn; lia]. exfalso.
    destruct (decide (v = 0)) as [->|Hnz]; [by specialize (Hz eq_refl)|]. cbn in Hval. lia.
  - intros Hnz. specialize (Hlast Hnz). destruct ds as [|c ds _] using rev_ind; [done|].
    rewrite rev_app_distr. cbn. by rewrite last_last in Hlast.
  - intros Hz0. by rewrite (Hz Hz0).
Qed.

(** ** Filling the number buffer *)

Lemma shift_right_spec n : forall shift buf,
  0 < shift -> Z.of_nat n + shift <= Z.of_nat (length buf) ->
  exists buf', shift_right n shift buf = Some buf' /\ length buf' = length buf /\
    forall k, buf' !! k = if decide (shift <= Z.of_nat k < shift + Z.of_nat n) then buf !! (k - Z.to_nat shift)%nat else buf !! k.
Proof.
  induction n as [|n IH]; intros shift buf Hs Hl; cbn [shift_right].
  - exists buf. split; [done|]. split; [done|]. intros k. rewrite decide_False by lia. done.
  - unfold memcpy. rewrite load_some by lia. cbn [mbind option_bind].
    destruct (lookup_lt_is_Some_2 buf n) as [x Ex]; [lia|].
    assert (Et : take (Z.to_nat 1) (drop (Z.to_nat (Z.of_nat n)) buf) = [x]).
    { rewrite Nat2Z.id, (drop_S _ _ _ Ex). done. }
    rewrite Et, put_some by (cbn; lia). cbn [mbind option_bind].
    set (buf1 := splice buf (Z.of_nat n + shift) [x]).
    assert (Hl1 : length buf1 = length buf) by (apply length_splice; cbn; lia).
    destruct (IH shift buf1 Hs ltac:(lia)) as (buf' & -> & Hl' & Hk). exists buf'. split; [done|]. split; [lia|].
    intros k. rewrite Hk. unfold buf1. rewrite !lookup_splice by (cbn; lia). cbn [length].
    destruct (decide (shift <= Z.of_nat k < shift + Z.of_nat n)).
    + rewrite decide_False, decide_True by lia. done.
    + destruct (decide (Z.of_nat n + shift <= Z.of_nat k < Z.of_nat n + shift + Z.of_nat 1)).
      * rewrite decide_True by lia. replace (k - Z.to_nat (Z.of_nat n + shift))%nat with 0%nat by lia.
        replace (k - Z.to_nat shift)%nat with n by lia. by rewrite Ex.
      * by rewrite decide_False by lia.
Qed.

Lemma puts_spec s u : Forall (fun c => c <> 0) s -> puts (s ++ 0 :: u) = Some s.
Proof. induction 1 as [|c s Hc _ IH]; [done|]. cbn [app puts]. rewrite (proj2 (Z.eqb_neq c 0)) by done. by rewrite IH. Qed.

(** Text written at the front of a number buffer of [p + 1] characters that ends
    with zero, filled and printed. *)
Lemma fill_and_print text buf p :
  Forall (fun c => c <> 0) text -> length buf = S p -> buf !! p = Some 0 -> (length text <= p)%nat ->
  take (length text) buf = text -> buf !! length text = Some 0 ->
  exists buf' len', precision_fill (Z.of_nat (length text)) (Z.of_nat p) buf = Some (buf', len') /\
    puts buf' = Some (replicate (p - length text) 48 ++ text).
Proof.
  intros Ht Hl Hp Hle Htake Hz. unfold precision_fill.
  destruct (Z.ltb_spec (Z.of_nat (length text)) (Z.of_nat p)) as [Hlt|Hge].
  - rewrite Nat2Z.id.
    destruct (shift_right_spec (length text) (Z.of_nat p - Z.of_nat (length text)) buf ltac:(lia) ltac:(lia))
      as (b1 & -> & Hl1 & Hk). cbn [mbind option_bind].
    rewrite put_some by (rewrite ?length_replicate; lia). cbn [mbind option_bind].
    eexists _, _. split; [reflexivity|].
    assert (E : splice b1 0 (replicate (Z.to_nat (Z.of_nat p - Z.of_nat (length text))) 48) =
      (replicate (p - length text) 48 ++ text) ++ 0 :: []).
    { apply list_eq. intros k. rewrite lookup_splice by (rewrite ?length_replicate; lia). rewrite length_replicate, Hk.
      replace (Z.to_nat (Z.of_nat p - Z.of_nat (length text))) with (p - length text)%nat by lia.
      rewrite <- app_assoc. destruct (decide (k < p - length text)%nat).
      - rewrite decide_True by lia. rewrite lookup_app_l by (rewrite length_replicate; lia). by rewrite Nat.sub_0_r.
      - rewrite decide_False by lia. rewrite lookup_app_r by (rewrite length_replicate; lia). rewrite length_replicate.
        destruct (decide (k < p)%nat).
        + rewrite decide_True by lia. rewrite lookup_app_l by lia.
          pose proof (f_equal (fun l => l !! (k - (p - length text))%nat) Htake) as Hx. cbn beta in Hx.
          rewrite lookup_take_lt in Hx by lia. rewrite <- Hx. f_equal. all: lia.
        + rewrite decide_False by lia. rewrite lookup_app_r by lia.
          destruct (decide (k = p)) as [->|]; [replace (p - (p - length text) - length text)%nat with 0%nat by lia; done|].
          rewrite !lookup_ge_None_2; [done|cbn; lia|lia]. }
    rewrite E. apply puts_spec. apply Forall_app. split; [|done]. apply Forall_replicate. lia.
  - assert (length text = p) as Hlp by lia. eexists _, _. split; [reflexivity|].
    rewrite Hlp, Nat.sub_diag. cbn [replicate app].
    assert (E : buf = text ++ 0 :: []).
    { rewrite <- (take_drop (length text) buf), Htake. f_equal. rewrite Hlp.
      rewrite (drop_S _ _ _ Hp), drop_ge by lia. done. }
    rewrite E. by apply puts_spec.
Qed.

(** ** Printing a number *)

Lemma length_number_buffer junk p : length (number_buffer junk (Z.of_nat p)) = S p.
Proof. unfold number_buffer. rewrite length_app, length_replicate. cbn. lia. Qed.

Lemma number_buffer_last junk p : number_buffer junk (Z.of_nat p) !! p = Some 0.
Proof.
  unfold number_buffer. rewrite lookup_app_r, length_replicate, Nat2Z.id by (rewrite length_replicate; lia).
  by rewrite Nat.sub_diag.
Qed.

(** What is in the number buffer once the digits and their terminator are. *)
Lemma put_digits junk p text :
  (length text <= p)%nat ->
  exists buf, put (number_buffer junk (Z.of_nat p)) 0 (text ++ [0]) = Some buf /\ length buf = S p /\
    buf !! p = Some 0 /\ take (length text) buf = text /\ buf !! length text = Some 0.
Proof.
  intros Hle. pose proof (length_number_buffer junk p) as Hl.
  assert (Hb : 0 + Z.of_nat (length (text ++ [0])) <= Z.of_nat (length (number_buffer junk (Z.of_nat p)))).
  { rewrite length_app. cbn. lia. }
  rewrite put_some by lia. eexists. split; [reflexivity|]. split; [by rewrite length_splice|].
  assert (Hz : splice (number_buffer junk (Z.of_nat p)) 0 (text ++ [0]) !! length text = Some 0).
  { rewrite lookup_splice, decide_True by (rewrite ?length_app in *; cbn in *; lia).
    rewrite Nat.sub_0_r, lookup_app_r, Nat.sub_diag by lia. done. }
  split; [|split; [|done]].
  - destruct (decide (p = length text)) as [->|Hne]; [done|].
    rewrite lookup_splice, decide_False by (rewrite ?length_app in *; cbn in *; lia). apply number_buffer_last.
  - unfold splice. cbn [Z.to_nat take app]. change (take (Z.to_nat 0) (number_buffer junk (Z.of_nat p))) with (@nil Z).
    cbn [app]. rewrite <- app_assoc. apply take_app_length.
Qed.

Lemma put_overrun junk p text : (p < length text)%nat -> put (number_buffer junk (Z.of_nat p)) 0 (text ++ [0]) = None.
Proof.
  intros Hlt. unfold put. rewrite length_number_buffer, length_app. cbn.
  rewrite (proj2 (Z.leb_gt _ _)) by lia. done.
Qed.

(** Zeros up to the precision, then the text. *)
Definition padded (p : nat) (text : list Z) : list Z := replicate (p - length text) 48 ++ text.

Lemma digits_nonzero ds : Forall is_digit_char ds -> Forall (fun c => c <> 0) ds.
Proof. intros H. eapply Forall_impl; [exact H|]. intros c Hc. cbn in Hc. unfold is_digit_char in Hc. lia. Qed.

Lemma capital_nonzero ds : Forall (fun c => c <> 0) ds -> Forall (fun c => c <> 0) (map capital ds).
Proof.
  intros H. apply Forall_fmap. eapply Forall_impl; [exact H|]. intros c Hc. cbn. unfold capital.
  destruct (_ && _) eqn:E; [lia|done].
Qed.

Lemma capitals_front buf text :
  take (length text) buf = text -> capitals (Z.of_nat (length text)) buf = map capital text ++ drop (length text) buf.
Proof. intros H. unfold capitals. by rewrite Nat2Z.id, H. Qed.

Lemma print_unsigned_spec junk radix upper prefix precision v (p : nat) :
  conversion_radix radix -> 0 <= v < 2 ^ 64 -> clamp_precision precision = Z.of_nat p ->
  print_unsigned junk radix upper prefix precision v =
    if (length (numeral radix v) <=? p)%nat
    then Some (prefix ++ padded p (if upper then map capital (numeral radix v) else numeral radix v)) else None.
Proof.
  intros Hr Hv Hp. destruct (numeral_spec radix v Hr Hv) as (E & Hd & _ & _). unfold print_unsigned, utoa.
  rewrite Hp, E. cbn [mbind option_bind]. rewrite rev_involutive. set (ds := numeral radix v) in *. rewrite length_rev.
  destruct (Nat.leb_spec (length ds) p) as [Hle|Hgt].
  2:{ by rewrite put_overrun. }
  destruct (put_digits junk p ds Hle) as (buf & -> & Hl & Hlast & Htake & Hz). cbn [mbind option_bind].
  pose proof (digits_nonzero ds Hd) as Hnz. destruct upper.
  - rewrite capitals_front by done.
    destruct (fill_and_print (map capital ds) (map capital ds ++ drop (length ds) buf) p) as (b' & len' & Ef & Ep).
    + by apply capital_nonzero.
    + rewrite length_app, length_map, length_drop. lia.
    + rewrite lookup_app_r, length_map, lookup_drop by (rewrite length_map; lia). rewrite <- Hlast. f_equal. lia.
    + by rewrite length_map.
    + by rewrite take_app_length.
    + rewrite lookup_app_r, Nat.sub_diag, lookup_drop, Nat.add_0_r by lia. done.
    + rewrite length_map in Ef. rewrite Ef. cbn [mbind option_bind]. rewrite Ep. done.
  - destruct (fill_and_print ds buf p) as (b' & len' & Ef & Ep); try done. rewrite Ef. cbn [mbind option_bind]. by rewrite Ep.
Qed.

(** The characters [itoa] writes for a signed number. *)
Definition signed_numeral (x : Z) : list Z := if x <? 0 then 45 :: numeral 10 (- x) else numeral 10 x.

Lemma print_signed_spec junk fl precision x (p : nat) :
  - 2 ^ 63 <= x < 2 ^ 63 -> clamp_precision precision = Z.of_nat p ->
  print_signed junk fl precision x =
    if (length (signed_numeral x) <=? p)%nat
    then Some ((if force_sign fl && (0 <=? x) then [43] else if prepend_space fl && (0 <=? x) then [32] else []) ++
               padded p (signed_numeral x))
    else None.
Proof.
  intros Hx Hp. unfold print_signed, itoa. rewrite Hp. cbn [Z.eqb Pos.eqb andb].
  set (v := if x <? 0 then u64 (- x) else u64 x).
  assert (Hv : 0 <= v < 2 ^ 64) by (unfold v; destruct (x <? 0); apply Z.mod_pos_bound; lia).
  destruct (numeral_spec 10 v ltac:(by right; left) Hv) as (E & Hd & _ & _). rewrite E. cbn [mbind option_bind]. rewrite rev_involutive.
  assert (Es : (if x <? 0 then [45] else []) ++ numeral 10 v = signed_numeral x).
  { unfold signed_numeral, v. destruct (Z.ltb_spec x 0); rewrite wrap_small by lia; done. }
  rewrite Es. destruct (Nat.leb_spec (length (signed_numeral x)) p) as [Hle|Hgt].
  2:{ by rewrite put_overrun. }
  destruct (put_digits junk p (signed_numeral x) Hle) as (buf & -> & Hl & Hlast & Htake & Hz). cbn [mbind option_bind].
  assert (Hnz : Forall (fun c => c <> 0) (signed_numeral x)).
  { rewrite <- Es. apply Forall_app. split; [destruct (x <? 0); by repeat constructor|by apply digits_nonzero]. }
  destruct (fill_and_print (signed_numeral x) buf p) as (b' & len' & Ef & Ep); try done.
  rewrite Ef. cbn [mbind option_bind]. by rewrite Ep.
Qed.

(** ** Literal text *)

Lemma prepend_app a b p : prepend (a ++ b) p = prepend a (prepend b p).
Proof. destruct p; cbn; [by rewrite app_assoc|done|done]. Qed.

Lemma vprintf_literal junk lit : forall fuel fmt args,
  Forall (fun c => c <> 0 /\ c <> 37) lit -> fmt <> [] ->
  vprintf_loop junk (length lit + fuel) (lit ++ fmt) args = prepend lit (vprintf_loop junk fuel fmt args).
Proof.
  induction lit as [|c lit IH]; intros fuel fmt args Hl Hf; [cbn [length app Nat.add]; by destruct (vprintf_loop junk fuel fmt args)|].
  apply Forall_cons in Hl as [[H0 H37] Hl]. cbn [length Nat.add app vprintf_loop].
  rewrite (proj2 (Z.eqb_neq c 0)), (proj2 (Z.eqb_neq c 37)) by done. cbn [andb].
  destruct (lit ++ fmt) as [|n rest] eqn:E; [by apply app_eq_nil in E as [_ ?]|]. rewrite <- E, IH by done.
  change (c :: lit) with ([c] ++ lit). by rewrite prepend_app.
Qed.

(** ** Reading numbers back *)

Lemma emit_digits_decimal room : forall first v ds, 0 <= v -> emit_digits room first v 10 = Some ds -> Forall (fun c => is_digit c = true) ds.
Proof.
  induction room as [|room IH]; intros first v ds Hv; cbn [emit_digits]; destruct (negb (v =? 0) || first); try done.
  - intros [= <-]. done.
  - destruct (emit_digits room false (v / 10) 10) as [ds'|] eqn:E; [|done]. intros [= <-]. constructor.
    + pose proof (Z.mod_pos_bound v 10 ltac:(lia)). unfold is_digit, digit_char.
      rewrite (proj2 (Z.ltb_lt (v mod 10) 10)) by lia. lia.
    + apply (IH false (v / 10)); [apply Z.div_pos; lia|done].
  - intros [= <-]. done.
Qed.

Lemma numeral_decimal v : 0 <= v < 2 ^ 64 -> Forall (fun c => is_digit c = true) (numeral 10 v).
Proof.
  intros Hv. destruct (numeral_spec 10 v ltac:(by right; left) Hv) as (E & _).
  rewrite <- (rev_involutive (numeral 10 v)). apply Forall_rev. apply (emit_digits_decimal DIGITS_SIZE true v); [lia|exact E].
Qed.

Lemma digit_value_digit c : is_digit c = true -> digit_value c = c - 48 /\ 0 <= c - 48 <= 9.
Proof. unfold is_digit, digit_value. intros Hc. rewrite (proj2 (Z.ltb_lt c 58)) by lia. lia. Qed.

Lemma value_grows ds : forall acc, 0 <= acc -> Forall (fun c => is_digit c = true) ds ->
  acc <= fold_left (fun a c => a * 10 + digit_value c) ds acc.
Proof.
  induction ds as [|c ds IH]; intros acc Ha Hd; [cbn; lia|]. apply Forall_cons in Hd as [Hc Hd].
  destruct (digit_value_digit c Hc) as [E Hr]. cbn [fold_left]. rewrite E.
  specialize (IH (acc * 10 + (c - 48)) ltac:(lia) Hd). lia.
Qed.

Lemma parse_digits_value ds : forall acc c rest,
  0 <= acc -> Forall (fun c => is_digit c = true) ds -> is_digit c = false ->
  fold_left (fun a c => a * 10 + digit_value c) ds acc < 2 ^ 63 ->
  parse_digits acc (ds ++ c :: rest) = Some (fold_left (fun a c => a * 10 + digit_value c) ds acc, c :: rest).
Proof.
  induction ds as [|d ds IH]; intros acc c rest Ha Hd Hc Hb; cbn [app parse_digits].
  - by rewrite Hc.
  - apply Forall_cons in Hd as [Hd Hds]. rewrite Hd. cbv zeta. destruct (digit_value_digit d Hd) as [E Hr].
    cbn [fold_left] in Hb |- *. rewrite E in Hb |- *.
    pose proof (value_grows ds (acc * 10 + (d - 48)) ltac:(lia) Hds).
    rewrite (proj2 (Z.ltb_lt _ _)) by lia. by apply IH; first lia.
Qed.

Lemma parse_numeral v c rest :
  0 <= v < 2 ^ 63 -> is_digit c = false -> parse_digits 0 (numeral 10 v ++ c :: rest) = Some (v, c :: rest).
Proof.
  intros Hv Hc. destruct (numeral_spec 10 v ltac:(by right; left) ltac:(lia)) as (_ & _ & Hval & _).
  unfold value_of in Hval. rewrite parse_digits_value; [by rewrite Hval|lia|apply numeral_decimal; lia|done|rewrite Hval; lia].
Qed.

(** Printing and parsing are inverse: in a buffer large enough, [utoa]
    writes for every number below 2^63 a terminated string of exactly the
    length it returns, which the parser of widths and precisions reads back as
    the same number, stopping at the character that follows. *)
Theorem utoa_parse_digits (v c : Z) (buf rest : list Z) :
  0 <= v < 2 ^ 63 -> (23 <= length buf)%nat -> is_digit c = false ->
  exists buf' len ds, utoa v buf 10 = Some (buf', len) /\ puts buf' = Some ds /\ len = Z.of_nat (length ds) /\
    parse_digits 0 (ds ++ c :: rest) = Some (v, c :: rest).
Proof.
  intros Hv Hb Hc. destruct (numeral_spec 10 v ltac:(by right; left) ltac:(lia)) as (E & Hd & _ & Hl & _).
  unfold utoa. rewrite E. cbn [mbind option_bind]. rewrite rev_involutive, length_rev.
  rewrite put_some by (rewrite ?length_app; cbn; lia). cbn [mbind option_bind].
  eexists _, _, (numeral 10 v). split; [reflexivity|]. split; [|split; [done|by apply parse_numeral]].
  unfold splice. change (take (Z.to_nat 0) buf) with (@nil Z). cbn [app]. rewrite <- !app_assoc.
  apply puts_spec. by apply digits_nonzero.
Qed.
Lemma utoa_parse_digits_witness :
  exists buf' len ds, utoa 4207 (replicate 40 7) 10 = Some (buf', len) /\ puts buf' = Some ds /\ len = Z.of_nat (length ds) /\
    parse_digits 0 (ds ++ 46 :: []) = Some (4207, 46 :: []).
Proof. apply (utoa_parse_digits 4207 46 (replicate 40 7) []); [lia|cbn; lia|reflexivity]. Defined.

(** ** Whole conversions *)

(** The text of an optional precision and of an optional length modifier. *)
Definition precision_text (p : option Z) : list Z := match p with None => [] | Some p => 46 :: numeral 10 p end.
Definition length_text (long : bool) : list Z := if long then [108] else [].
Definition plain (c : Z) : Prop := c <> 0 /\ c <> 37.
Definition precision_ok (p : option Z) : Prop := match p with None => True | Some p => 0 <= p < 2 ^ 63 end.

Lemma parse_precision_text p long conv args :
  precision_ok p -> conv ∈ [100; 105; 111; 117; 120; 88] ->
  parse_precision (precision_text p ++ length_text long ++ [conv; 0]) args =
    Some (default (-1) p, length_text long ++ [conv; 0], args).
Proof.
  intros Hp Hc. assert (exists c rest, length_text long ++ [conv; 0] = c :: rest /\ is_digit c = false /\ c <> 46) as (c & rest & -> & Hd & H46).
  { destruct long; cbn; [by eexists _, _|]. eexists _, _. split; [done|].
    repeat (apply elem_of_cons in Hc as [->|Hc]; [done|]). by apply elem_of_nil in Hc. }
  destruct p as [p|]; cbn [precision_text app default].
  - cbn in Hp. pose proof (numeral_decimal p ltac:(lia)) as Hdig.
    destruct (numeral_spec 10 p ltac:(by right; left) ltac:(lia)) as (_ & _ & _ & Hl & _).
    pose proof (parse_numeral p c rest Hp Hd) as Hparse.
    destruct (numeral 10 p) as [|d ds] eqn:E; [cbn in Hl; lia|]. apply Forall_cons in Hdig as [Hd0 _].
    cbn [app] in Hparse |- *. unfold parse_precision. cbn [Z.eqb Pos.eqb negb].
    assert (d <> 42 /\ d <> 45) as [H42 H45] by (unfold is_digit in Hd0; lia).
    rewrite (proj2 (Z.eqb_neq d 42)), (proj2 (Z.eqb_neq d 45)) by done. cbv zeta. by rewrite Hd0, Hparse.
  - unfold parse_precision. by rewrite (proj2 (Z.eqb_neq c 46)).
Qed.

Lemma parse_conversion_text junk p long conv args :
  precision_ok p -> conv ∈ [100; 105; 111; 117; 120; 88] ->
  parse_conversion junk (precision_text p ++ length_text long ++ [conv; 0]) args =
    Some (convert junk no_flags 0 (default (-1) p) (if long then l else none) conv args, [0]).
Proof.
  intros Hp Hc. unfold parse_conversion.
  set (fmt := precision_text p ++ length_text long ++ [conv; 0]).
  assert (exists c rest, fmt = c :: rest /\ c ∈ [46; 108; 100; 105; 111; 117; 120; 88]) as (c & rest & Ef & Hin).
  { unfold fmt. destruct p; [by eexists _, _; split; [|left]|]. destruct long; cbn; eexists _, _; (split; [reflexivity|]); [by right; left|].
    do 2 right. exact Hc. }
  assert (parse_flags no_flags fmt = Some (no_flags, fmt) /\ parse_width fmt args = Some (0, fmt, args)) as [-> Hw].
  { rewrite Ef. repeat (apply elem_of_cons in Hin as [->|Hin]; [done|]). by apply elem_of_nil in Hin. }
  cbn [mbind option_bind]. rewrite Hw. cbn [mbind option_bind]. unfold fmt. rewrite parse_precision_text by done.
  cbn [mbind option_bind]. clear fmt Ef Hw.
  destruct long; cbn [length_text app]; repeat (apply elem_of_cons in Hc as [->|Hc]; [reflexivity|]); by apply elem_of_nil in Hc.
Qed.

(** One conversion after literal text, at the end of a format. *)
Lemma vprintf_conversion junk lit p long conv args :
  Forall plain lit -> precision_ok p -> conv ∈ [100; 105; 111; 117; 120; 88] ->
  vprintf junk (lit ++ 37 :: precision_text p ++ length_text long ++ [conv; 0]) args =
    match convert junk no_flags 0 (default (-1) p) (if long then l else none) conv args with
    | Emits out _ => Printed (lit ++ out) | Stuck => Fault | Forever => Diverges
    end.
Proof.
  intros Hl Hp Hc. unfold vprintf. rewrite length_app. set (fmt := precision_text p ++ length_text long ++ [conv; 0]).
  replace (S (length lit + length (37%Z :: fmt)))%nat with (length lit + S (S (length fmt)))%nat by (cbn; lia).
  rewrite vprintf_literal by done. cbn [vprintf_loop Z.eqb].
  assert (exists c rest, fmt = c :: rest /\ c <> 37) as (c & rest & Ef & H37).
  { unfold fmt. destruct p; [by eexists _, _; split; [|]|]. destruct long; cbn; eexists _, _; (split; [reflexivity|]); [done|].
    intros ->. repeat (apply elem_of_cons in Hc as [?|Hc]; [done|]). by apply elem_of_nil in Hc. }
  rewrite Ef, (proj2 (Z.eqb_neq c 37)), <- Ef by done. cbn [Pos.eqb andb negb].
  unfold fmt at 1. rewrite parse_conversion_text by done.
  destruct (convert _ _ _ _ _ _ _) as [out rest'| |]; [|done|done]. cbn [vprintf_loop Z.eqb prepend].
  by rewrite app_nil_r.
Qed.

(** The unsigned conversions: radix and capitals. *)
Definition unsigned_conversion (c : Z) : option (Z * bool) :=
  if c =? 111 then Some (8, false) else if c =? 117 then Some (10, false)
  else if c =? 120 then Some (16, false) else if c =? 88 then Some (16, true) else None.

Definition slot_value (long : bool) (slot : Z) : Z := if long then u64 slot else u32 slot.

(** A format made of literal text and one unsigned conversion (o, u, x or X,
    with an optional precision and an optional [l]) prints the text and the
    argument in that radix, its digits padded with zeros up to the precision;
    the value printed is the argument at its width and has no leading zero
    before padding.  When the digits are more than the precision allows (1 when
    none is given, 32 at most) the number buffer is overrun instead, so a bare
    [%u] prints one digit or faults. *)
Theorem vprintf_unsigned (junk : Z) (lit : list Z) (p : option Z) (long : bool) (conv radix slot : Z) (upper : bool) :
  Forall plain lit -> precision_ok p -> unsigned_conversion conv = Some (radix, upper) ->
  exists ds, value_of radix ds = slot_value long slot /\ (slot_value long slot <> 0 -> hd 0 ds <> 48) /\ (1 <= length ds <= 22)%nat /\
    vprintf junk (lit ++ 37 :: precision_text p ++ length_text long ++ [conv; 0]) [Num slot] =
      let room := Z.to_nat (clamp_precision (default (-1) p)) in
      if (length ds <=? room)%nat then Printed (lit ++ padded room (if upper then map capital ds else ds)) else Fault.
Proof.
  intros Hl Hp Hc.
  assert (conv ∈ [100; 105; 111; 117; 120; 88] /\ conversion_radix radix) as [Hin Hr].
  { unfold unsigned_conversion in Hc.
    destruct (Z.eqb_spec conv 111) as [->|]; [injection Hc as <- <-; split; [by do 2 right; left|by left]|].
    destruct (Z.eqb_spec conv 117) as [->|]; [injection Hc as <- <-; split; [by do 3 right; left|by right; left]|].
    destruct (Z.eqb_spec conv 120) as [->|]; [injection Hc as <- <-; split; [by do 4 right; left|by right; right]|].
    destruct (Z.eqb_spec conv 88) as [->|]; [injection Hc as <- <-; split; [by do 5 right; left|by right; right]|done]. }
  set (v := slot_value long slot).
  assert (Hv : 0 <= v < 2 ^ 64).
  { unfold v, slot_value. destruct long; [apply Z.mod_pos_bound; lia|]. pose proof (Z.mod_pos_bound slot (2 ^ 32) ltac:(lia)). unfold wrap. lia. }
  destruct (numeral_spec radix v Hr Hv) as (_ & _ & Hval & Hlen & Hlead & _).
  exists (numeral radix v). split; [done|]. split; [done|]. split; [done|].
  rewrite vprintf_conversion by done. cbv zeta.
  pose proof (print_unsigned_spec junk radix upper [] (default (-1) p) v (Z.to_nat (clamp_precision (default (-1) p))) Hr Hv) as Hprint.
  rewrite Z2Nat.id in Hprint by (unfold clamp_precision; destruct (Z.ltb_spec (default (-1) p) 0), (Z.ltb_spec 32 (default (-1) p)); lia).
  specialize (Hprint eq_refl).
  assert (Hconv : convert junk no_flags 0 (default (-1) p) (if long then l else none) conv [Num slot] =
    match print_unsigned junk radix upper [] (default (-1) p) v with Some out => Emits out [] | None => Stuck end).
  { unfold unsigned_conversion in Hc. unfold v, slot_value.
    destruct (Z.eqb_spec conv 111) as [->|]; [injection Hc as <- <-; by destruct long|].
    destruct (Z.eqb_spec conv 117) as [->|]; [injection Hc as <- <-; by destruct long|].
    destruct (Z.eqb_spec conv 120) as [->|]; [injection Hc as <- <-; by destruct long|].
    destruct (Z.eqb_spec conv 88) as [->|]; [injection Hc as <- <-; by destruct long|done]. }
  rewrite Hconv, Hprint. destruct (_ <=? _)%nat; done.
Qed.
Lemma vprintf_unsigned_witness :
  exists ds, value_of 16 ds = slot_value true 48879 /\ (slot_value true 48879 <> 0 -> hd 0 ds <> 48) /\ (1 <= length ds <= 22)%nat /\
    vprintf 7 ([97; 61] ++ 37 :: precision_text (Some 8) ++ length_text true ++ [88; 0]) [Num 48879] =
      let room := Z.to_nat (clamp_precision (default (-1) (Some 8))) in
      if (length ds <=? room)%nat then Printed ([97; 61] ++ padded room (if true then map capital ds else ds)) else Fault.
Proof.
  apply (vprintf_unsigned 7 [97; 61] (Some 8) true 88 16 48879 true); [|cbn; lia|reflexivity].
  constructor; [split; discriminate|]. constructor; [split; discriminate|constructor].
Defined.

Definition signed_slot_value (long : bool) (slot : Z) : Z := if long then signed 64 (u64 slot) else signed 32 (u32 slot).

(** A format made of literal text and one [%d] or [%i], with an optional
    precision and an optional [l], prints the text and the signed argument: a
    minus sign and the digits of its absolute value, the whole padded on the
    left with zeros up to the precision, so the padding of a negative number
    comes before its sign.  When sign and digits are more than the precision
    allows (1 when none is given), the number buffer is overrun instead: a bare
    [%d] faults on every negative number and on every number above 9. *)
Theorem vprintf_signed (junk : Z) (lit : list Z) (p : option Z) (long : bool) (conv slot : Z) :
  Forall plain lit -> precision_ok p -> conv = 100 \/ conv = 105 ->
  let x := signed_slot_value long slot in
  exists ds, value_of 10 ds = Z.abs x /\ (x <> 0 -> hd 0 ds <> 48) /\
    vprintf junk (lit ++ 37 :: precision_text p ++ length_text long ++ [conv; 0]) [Num slot] =
      let room := Z.to_nat (clamp_precision (default (-1) p)) in
      let text := (if x <? 0 then [45] else []) ++ ds in
      if (length text <=? room)%nat then Printed (lit ++ padded room text) else Fault.
Proof.
  intros Hl Hp Hc x.
  assert (Hx : - 2 ^ 63 <= x < 2 ^ 63).
  { unfold x, signed_slot_value.
    destruct long; [apply (signed_range 64); lia|]. pose proof (signed_range 32 (u32 slot) ltac:(lia)) as Hs.
    change (2 ^ (32 - 1)) with 2147483648 in Hs. lia. }
  destruct (numeral_spec 10 (Z.abs x) ltac:(by right; left) ltac:(lia)) as (_ & _ & Hval & _ & Hlead & _).
  exists (numeral 10 (Z.abs x)). split; [done|]. split; [intros Hn; apply Hlead; lia|].
  assert (Hin : conv ∈ [100; 105; 111; 117; 120; 88]) by (destruct Hc as [->| ->]; [by left|by right; left]).
  rewrite vprintf_conversion by done. cbv zeta.
  assert (Et : (if x <? 0 then [45] else []) ++ numeral 10 (Z.abs x) = signed_numeral x).
  { unfold signed_numeral. destruct (Z.ltb_spec x 0); [rewrite Z.abs_neq by lia|rewrite Z.abs_eq by lia]; done. }
  rewrite Et.
  pose proof (print_signed_spec junk no_flags (default (-1) p) x (Z.to_nat (clamp_precision (default (-1) p))) Hx) as Hprint.
  rewrite Z2Nat.id in Hprint by (unfold clamp_precision; destruct (Z.ltb_spec (default (-1) p) 0), (Z.ltb_spec 32 (default (-1) p)); lia).
  specialize (Hprint eq_refl). cbn [force_sign prepend_space no_flags andb app] in Hprint.
  assert (Hconv : convert junk no_flags 0 (default (-1) p) (if long then l else none) conv [Num slot] =
    match print_signed junk no_flags (default (-1) p) x with Some out => Emits out [] | None => Stuck end).
  { unfold x, signed_slot_value. destruct Hc as [->| ->]; by destruct long. }
  rewrite Hconv, Hprint. destruct (_ <=? _)%nat; done.
Qed.
Lemma vprintf_signed_witness :
  let x := signed_slot_value false (2 ^ 32 - 42) in
  exists ds, value_of 10 ds = Z.abs x /\ (x <> 0 -> hd 0 ds <> 48) /\
    vprintf 7 ([] ++ 37 :: precision_text (Some 5) ++ length_text false ++ [100; 0]) [Num (2 ^ 32 - 42)] =
      let room := Z.to_nat (clamp_precision (default (-1) (Some 5))) in
      let text := (if x <? 0 then [45] else []) ++ ds in
      if (length text <=? room)%nat then Printed ([] ++ padded room text) else Fault.
Proof. apply (vprintf_signed 7 [] (Some 5) false 100 (2 ^ 32 - 42)); [constructor|cbn; lia|left; reflexivity]. Defined.

(** Concrete formats: [%.5d] of -42 is [00-42]; [%d] of 10 overruns its buffer;
    [%%] prints a percent sign and the second one starts a conversion; and
    [%2ls] of a one-character string pads for ever. *)
Example format_negative : vprintf 7 [37; 46; 53; 100; 0] [Num (2 ^ 32 - 42)] = Printed [48; 48; 45; 52; 50].
Proof. reflexivity. Qed.
Example format_two_digits : vprintf 7 [37; 100; 0] [Num 10] = Fault.
Proof. reflexivity. Qed.
Example format_percent : vprintf 7 [37; 37; 99; 0] [Num 65] = Printed [37; 65].
Proof. reflexivity. Qed.
Example format_wide_string : vprintf 7 [37; 50; 108; 115; 0] [Str [65]] = Diverges.
Proof. reflexivity. Qed.
