(* ===== verification/Heap.v ===== *)
(** * Component: the kernel heap ([kernel/src/mm/Heap.cpp])

    The free blocks of the heap are the nodes of an AVL tree ordered by their
    addresses; each node lives in the block it describes.  A block, free or
    allocated, starts with its size, so an allocated block is the object of its
    address of which only [size] means anything.  The store maps the address of a
    block to that object; a null or foreign pointer has no object and
    dereferencing it is [None].  Operations thread the store; the loops take the
    number of objects as fuel, and running out is [None] too: the theorems of
    [HeapProps.v] show that neither happens. *)
From S2P Require Import Prelude.

Record Node := { size : Z; left : Z; right : Z; parent : Z; height : Z }.

Definition SIZEOF_NODE : Z := 40.
Definition SIZEOF_ALLOCATED : Z := 8.
Definition ARENA_ALIGNMENT : Z := 8.
Definition PAGE_SIZE : Z := 4096.

Definition set_size v n := {| size := v; left := left n; right := right n; parent := parent n; height := height n |}.
Definition set_left v n := {| size := size n; left := v; right := right n; parent := parent n; height := height n |}.
Definition set_right v n := {| size := size n; left := left n; right := v; parent := parent n; height := height n |}.
Definition set_parent v n := {| size := size n; left := left n; right := right n; parent := v; height := height n |}.
Definition set_height v n := {| size := size n; left := left n; right := right n; parent := parent n; height := v |}.

Abbreviation store := (gmap Z Node).

(** [p->field = ...]. *)
Definition assign (m : store) (p : Z) (f : Node -> Node) : option store := n ← m !! p; Some (<[p := f n]> m).

(** ** Heights and rotations *)

Definition GetHeight (m : store) (n : Z) : option Z := if n =? 0 then Some 0 else height <$> m !! n.

Definition UpdateHeight (m : store) (p : Z) : option store :=
  n ← m !! p;
  hl ← GetHeight m (left n);
  hr ← GetHeight m (right n);
  assign m p (set_height (u64 (Z.max hl hr + 1))).

Definition GetBalanceFactor (m : store) (p : Z) : option Z :=
  n ← m !! p;
  hl ← GetHeight m (left n);
  hr ← GetHeight m (right n);
  Some (signed 64 (hl - hr)).

(** The child pointer of [parent] that pointed to [root] now points to
    [newRoot]; the side is read off the addresses. *)
Definition relink (m : store) (parent root newRoot : Z) : option store :=
  if parent =? 0 then Some m
  else if root <? parent then assign m parent (set_left newRoot) else assign m parent (set_right newRoot).

Definition RotateLeft (m : store) (root : Z) : option (store * Z) :=
  if root =? 0 then Some (m, root)
  else
    r ← m !! root;
    let newRoot := right r in
    if newRoot =? 0 then Some (m, root)
    else
      nr ← m !! newRoot;
      m ← assign m root (set_right (left nr));
      m ← assign m newRoot (set_left root);
      m ← (if left nr =? 0 then Some m else assign m (left nr) (set_parent root));
      r ← m !! root;
      let up := parent r in
      m ← assign m root (set_parent newRoot);
      m ← assign m newRoot (set_parent up);
      m ← relink m up root newRoot;
      m ← UpdateHeight m root;
      m ← UpdateHeight m newRoot;
      Some (m, newRoot).

Definition RotateRight (m : store) (root : Z) : option (store * Z) :=
  if root =? 0 then Some (m, root)
  else
    r ← m !! root;
    let newRoot := left r in
    if newRoot =? 0 then Some (m, root)
    else
      nr ← m !! newRoot;
      m ← assign m root (set_left (right nr));
      m ← assign m newRoot (set_right root);
      m ← (if right nr =? 0 then Some m else assign m (right nr) (set_parent root));
      r ← m !! root;
      let up := parent r in
      m ← assign m root (set_parent newRoot);
      m ← assign m newRoot (set_parent up);
      m ← relink m up root newRoot;
      m ← UpdateHeight m root;
      m ← UpdateHeight m newRoot;
      Some (m, newRoot).

Definition RotateRightLeft (m : store) (root : Z) : option (store * Z) :=
  r ← m !! root;
  '(m, newSubRoot) ← RotateRight m (right r);
  m ← assign m root (set_right newSubRoot);
  RotateLeft m root.

Definition RotateLeftRight (m : store) (root : Z) : option (store * Z) :=
  r ← m !! root;
  '(m, newSubRoot) ← RotateLeft m (left r);
  m ← assign m root (set_left newSubRoot);
  RotateRight m root.

Definition Rebalance (m : store) (root ptr : Z) : option (store * Z) :=
  m ← UpdateHeight m root;
  balanceFactor ← GetBalanceFactor m root;
  if (balanceFactor <? -1) || (1 <? balanceFactor) then
    r ← m !! root;
    if (root <? ptr) && (right r <? ptr) then RotateLeft m root
    else if (ptr <? root) && (ptr <? left r) then RotateRight m root
    else if (root <? ptr) && (ptr <? right r) then RotateRightLeft m root
    else if (ptr <? root) && (left r <? ptr) then RotateLeftRight m root
    else Some (m, root)
  else Some (m, root).

(** ** Insertion *)

(** [while (curr != nullptr)]: the node under which [n] belongs, or [n] itself
    when it is already in the tree. *)
Fixpoint descend (fuel : nat) (m : store) (n prev curr : Z) : option Z :=
  if curr =? 0 then Some prev
  else
    match fuel with
    | O => None
    | S fuel =>
        c ← m !! curr;
        if n <? curr then descend fuel m n curr (left c)
        else if curr <? n then descend fuel m n curr (right c)
        else Some n
    end.

(** [for (; prev != nullptr; curr = prev, prev = prev->parent)]. *)
Fixpoint insert_up (fuel : nat) (m : store) (n curr prev : Z) : option (store * Z) :=
  if prev =? 0 then Some (m, curr)
  else
    match fuel with
    | O => None
    | S fuel =>
        '(m, prev) ← Rebalance m prev n;
        p ← m !! prev;
        insert_up fuel m n prev (parent p)
    end.

Definition Insert (m : store) (root n : Z) : option (store * Z) :=
  _n ← m !! n;
  let fresh up := {| size := size _n; left := 0; right := 0; parent := up; height := 1 |} in
  if root =? 0 then Some (<[n := fresh 0]> m, n)
  else
    prev ← descend (base.size m) m n root root;
    if prev =? n then Some (m, root)
    else
      let m := <[n := fresh prev]> m in
      m ← assign m prev (if n <? prev then set_left n else set_right n);
      insert_up (base.size m) m n 0 prev.

(** ** Deletion *)

(** [while (ptr != nullptr) { successor = ptr; ptr = ptr->left; }]. *)
Fixpoint leftmost (fuel : nat) (m : store) (successor ptr : Z) : option Z :=
  if ptr =? 0 then Some successor
  else
    match fuel with
    | O => None
    | S fuel => p ← m !! ptr; leftmost fuel m ptr (left p)
    end.

(** [for (; prev != nullptr; subroot = prev, prev = prev->parent)]. *)
Definition rebalance_step (m : store) (prev : Z) : option (store * Z) :=
  m ← UpdateHeight m prev;
  balanceFactor ← GetBalanceFactor m prev;
  p ← m !! prev;
  if 1 <? balanceFactor then
    b ← GetBalanceFactor m (left p);
    if 0 <=? b then RotateRight m prev else RotateLeftRight m prev
  else if balanceFactor <? -1 then
    b ← GetBalanceFactor m (right p);
    if 0 <? b then RotateRightLeft m prev else RotateLeft m prev
  else Some (m, prev).

Fixpoint delete_up (fuel : nat) (m : store) (subroot prev : Z) : option (store * Z) :=
  if prev =? 0 then Some (m, subroot)
  else
    match fuel with
    | O => None
    | S fuel =>
        '(m, prev) ← rebalance_step m prev;
        p ← m !! prev;
        delete_up fuel m prev (parent p)
    end.

(** The child pointer of [prev] on the side of [node] is set to [child]; without
    a parent, [child] is the root. *)
Definition replace_child (m : store) (root prev node child : Z) : option (store * Z) :=
  if prev =? 0 then Some (m, child)
  else
    m ← assign m prev (if prev <? node then set_right child else set_left child);
    Some (m, root).

(** The successor of [node] leaves its place in the right subtree [right_],
    which then hangs under it; the result is the node where the tree got lower. *)
Definition detach_successor (m : store) (node right_ successor : Z) : option (store * Z) :=
  s ← m !! successor;
  if negb (parent s =? node) then
    m ← assign m (parent s) (set_left (right s));
    m ← (if right s =? 0 then Some m else assign m (right s) (set_parent (parent s)));
    m ← assign m successor (set_right right_);
    m ← assign m right_ (set_parent successor);
    Some (m, parent s)
  else Some (m, successor).

(** The node with two children: its successor takes its place.  The result is
    the store, the root and the node at which rebalancing starts. *)
Definition replace_by_successor (m : store) (root node : Z) : option (store * Z * Z) :=
  d ← m !! node;
  let prev := parent d in
  successor ← leftmost (base.size m) m (right d) (right d);
  '(m, new_prev) ← detach_successor m node (right d) successor;
  m ← assign m successor (set_left (left d));
  m ← assign m (left d) (set_parent successor);
  m ← assign m successor (set_parent prev);
  m ← UpdateHeight m successor;
  '(m, root) ←
    (if prev =? 0 then Some (m, successor)
     else m ← assign m prev (if successor <? prev then set_left successor else set_right successor); Some (m, root));
  Some (m, root, new_prev).

(** [node] leaves the tree; one case per number of its children. *)
Definition unlink (m : store) (root node : Z) : option (store * Z * Z) :=
  d ← m !! node;
  if (left d =? 0) && (right d =? 0) then
    '(m, root) ← replace_child m root (parent d) node 0; Some (m, root, parent d)
  else if right d =? 0 then
    m ← assign m (left d) (set_parent (parent d));
    '(m, root) ← replace_child m root (parent d) node (left d); Some (m, root, parent d)
  else if left d =? 0 then
    m ← assign m (right d) (set_parent (parent d));
    '(m, root) ← replace_child m root (parent d) node (right d); Some (m, root, parent d)
  else replace_by_successor m root node.

Definition Delete (m : store) (root node : Z) : option (store * Z) :=
  if (root =? 0) || (node =? 0) then Some (m, root)
  else
    '(m, root, prev) ← unlink m root node;
    if prev =? 0 then
      if root =? 0 then Some (m, 0) else Rebalance m root node
    else delete_up (base.size m) m 0 prev.

(** ** Search *)

(** The loop that picks the best of the three candidates: the smallest size above
    zero, compared with the candidate chosen so far, which is first the root. *)
Definition pick (size : Z) (cands : list (Z * Z)) (best i : nat) : nat :=
  let s k := snd (nth k cands (0, 0)) in
  if (0 <? s i) && (s i <? s best) && (size <=? s i) then i else best.

Definition best_of (size : Z) (cands : list (Z * Z)) : Z :=
  fst (nth (pick size cands (pick size cands (pick size cands 0 0) 1) 2) cands (0, 0)).

(** [if (sizes[i] < size) { sizes[i] = 0; nodes[i] = nullptr; }]. *)
Definition too_small (size : Z) (c : Z * Z) : Z * Z := if snd c <? size then (0, 0) else c.

Definition size_of (m : store) (p : Z) : option Z := if p =? 0 then Some 0 else size <$> m !! p.

Fixpoint BestFind (fuel : nat) (m : store) (root sz : Z) : option Z :=
  if root =? 0 then Some 0
  else
    match fuel with
    | O => None
    | S fuel =>
        r ← m !! root;
        if size r =? sz then Some root
        else
          left ← BestFind fuel m (left r) sz;
          ls ← size_of m left;
          if negb (left =? 0) && (ls =? sz) then Some left
          else
            right ← BestFind fuel m (right r) sz;
            rs ← size_of m right;
            Some (best_of sz (map (too_small sz) [(root, size r); (left, ls); (right, rs)]))
    end.

(** ** The allocator *)

(** Where arenas come from: [VirtualMemory::AllocateKernelHeap] on the state of
    the memory manager, [None] being the null pointer. *)
Class PageSource (P : Type) := AllocateKernelHeap : P -> Z -> option Z * P.

Section Allocator.
Context {P : Type} `{PageSource P}.

Record heap := { mem : store; arenaRoot : Z; pages : P }.

Definition ExtendArena (p : P) (m : store) (sz : Z) : option Z * store * P :=
  let effective_size := u64 (2 * sz) in
  let allocated_pages := u64 (effective_size + PAGE_SIZE - 1) / PAGE_SIZE in
  let allocated_size := u64 (allocated_pages * PAGE_SIZE) in
  let '(ptr, p) := AllocateKernelHeap p allocated_pages in
  match ptr with
  | None => (None, m, p)
  | Some ptr => (Some ptr, <[ptr := {| size := allocated_size; left := 0; right := 0; parent := 0; height := 0 |}]> m, p)
  end.

(** [((AllocatedNode* )p)->size = v], whatever the memory held. *)
Definition write_header (m : store) (p v : Z) : store :=
  <[p := set_size v (default {| size := 0; left := 0; right := 0; parent := 0; height := 0 |} (m !! p))]> m.

Definition round_request (size : Z) : Z :=
  let size := u64 (size + SIZEOF_ALLOCATED) in
  let size := if size <? SIZEOF_NODE then SIZEOF_NODE else size in
  let misalignment := size mod ARENA_ALIGNMENT in
  if negb (misalignment =? 0) then u64 (size + (ARENA_ALIGNMENT - misalignment)) else size.

(** The result is the pointer returned, 0 for the null pointer. *)
Definition Allocate (h : heap) (request : Z) : option (Z * heap) :=
  let sz := round_request request in
  let m := mem h in
  node ← BestFind (base.size m) m (arenaRoot h) sz;
  if node =? 0 then
    match ExtendArena (pages h) m sz with
    | (None, m, p) => Some (0, {| mem := m; arenaRoot := arenaRoot h; pages := p |})
    | (Some node, m, p) =>
        n ← m !! node;
        let pointer := u64 (node + size n - sz) in
        m ← assign m node (set_size (u64 (size n - sz)));
        let m := write_header m pointer sz in
        '(m, root) ← Insert m (arenaRoot h) node;
        Some (u64 (pointer + SIZEOF_ALLOCATED), {| mem := m; arenaRoot := root; pages := p |})
    end
  else
    n ← m !! node;
    if (sz <? size n) && (SIZEOF_NODE <=? u64 (size n - sz)) then
      let pointer := u64 (node + size n - sz) in
      let m := write_header m pointer sz in
      m ← assign m node (set_size (u64 (size n - sz)));
      Some (u64 (pointer + SIZEOF_ALLOCATED), {| mem := m; arenaRoot := arenaRoot h; pages := pages h |})
    else
      '(m, root) ← Delete m (arenaRoot h) node;
      Some (u64 (node + SIZEOF_ALLOCATED), {| mem := m; arenaRoot := root; pages := pages h |}).

Definition Free (h : heap) (ptr : Z) : option heap :=
  let allocatedNode := u64 (ptr - SIZEOF_ALLOCATED) in
  '(m, root) ← Insert (mem h) (arenaRoot h) allocatedNode;
  Some {| mem := m; arenaRoot := root; pages := pages h |}.

(** [Heap::Create]: an arena of 16 pages, one free block. *)
Definition Create (p : P) : option heap :=
  let allocated_pages := 16 in
  match AllocateKernelHeap p allocated_pages with
  | (None, _) => None
  | (Some arena, p) =>
      Some {| mem := {[ arena := {| size := allocated_pages * PAGE_SIZE; left := 0; right := 0; parent := 0; height := 1 |} ]};
              arenaRoot := arena; pages := p |}
  end.
End Allocator.
