(* ===== verification/HeapTree.v ===== *)
(** * The trees of the kernel heap

    Functional AVL trees ordered by address, the contexts (paths to the root)
    the loops of the heap climb, and what rebalancing does to them.  Nothing
    here mentions the store: [HeapRep.v] relates the pointers to these trees. *)
From S2P Require Import Prelude.

Inductive tree := Leaf | Br (l : tree) (a s h : Z) (r : tree).

#[export] Instance tree_eq_dec : EqDecision tree.
Proof. solve_decision. Defined.

Definition ptr (t : tree) : Z := match t with Leaf => 0 | Br _ a _ _ _ => a end.
Definition ht (t : tree) : Z := match t with Leaf => 0 | Br _ _ _ h _ => h end.

(** The blocks of a tree, in the order of their addresses. *)
Fixpoint blocks (t : tree) : list (Z * Z) :=
  match t with Leaf => [] | Br l a s _ r => blocks l ++ (a, s) :: blocks r end.
Definition addrs (t : tree) : list Z := map fst (blocks t).

Definition mk (l : tree) (a s : Z) (r : tree) : tree := Br l a s (Z.max (ht l) (ht r) + 1) r.

(** Search order inside an open interval, stored heights, and balance. *)
Fixpoint bst (lo hi : Z) (t : tree) : Prop :=
  match t with Leaf => True | Br l a _ _ r => lo < a < hi /\ bst lo a l /\ bst a hi r end.
Fixpoint hok (t : tree) : Prop :=
  match t with Leaf => True | Br l _ _ h r => hok l /\ hok r /\ h = Z.max (ht l) (ht r) + 1 end.
Fixpoint avl (t : tree) : Prop :=
  match t with
  | Leaf => True
  | Br l _ _ h r => avl l /\ avl r /\ h = Z.max (ht l) (ht r) + 1 /\ -1 <= ht l - ht r <= 1
  end.

(** ** Paths *)

Inductive frame := FL (a s h : Z) (r : tree) | FR (l : tree) (a s h : Z).
Definition faddr (f : frame) : Z := match f with FL a _ _ _ | FR _ a _ _ => a end.
Definition fill (f : frame) (t : tree) : tree :=
  match f with FL a s h r => Br t a s h r | FR l a s h => Br l a s h t end.
Definition sibling (f : frame) : tree := match f with FL _ _ _ r => r | FR l _ _ _ => l end.
Fixpoint plug (c : list frame) (t : tree) : tree := match c with [] => t | f :: c => plug c (fill f t) end.
Definition top (c : list frame) : Z := match c with [] => 0 | f :: _ => faddr f end.

(** The interval a path leaves for its hole. *)
Fixpoint within (lo0 hi0 : Z) (c : list frame) (lo hi : Z) : Prop :=
  match c with
  | [] => lo = lo0 /\ hi = hi0
  | FL a _ _ r :: c => hi = a /\ exists hi', lo < a < hi' /\ bst a hi' r /\ within lo0 hi0 c lo hi'
  | FR l a _ _ :: c => lo = a /\ exists lo', lo' < a < hi /\ bst lo' a l /\ within lo0 hi0 c lo' hi
  end.

Lemma bst_mk lo hi l a s r : bst lo hi (mk l a s r) <-> lo < a < hi /\ bst lo a l /\ bst a hi r.
Proof. done. Qed.

Lemma blocks_mk l a s r : blocks (mk l a s r) = blocks l ++ (a, s) :: blocks r.
Proof. done. Qed.

Lemma addrs_Br l a s h r : addrs (Br l a s h r) = addrs l ++ a :: addrs r.
Proof. unfold addrs. cbn. by rewrite map_app. Qed.

Lemma elem_addrs_Br x l a s h r : x ∈ addrs (Br l a s h r) <-> x = a \/ x ∈ addrs l \/ x ∈ addrs r.
Proof. rewrite addrs_Br, elem_of_app, elem_of_cons. tauto. Qed.

Lemma bst_in lo hi t x : bst lo hi t -> x ∈ addrs t -> lo < x < hi.
Proof.
  revert lo hi. induction t as [|l IHl a s h r IHr]; intros lo hi Hb Hx; [by apply elem_of_nil in Hx|].
  destruct Hb as (Ha & Hl & Hr). apply elem_addrs_Br in Hx as [->|[Hx|Hx]]; [done| |].
  - specialize (IHl _ _ Hl Hx). lia.
  - specialize (IHr _ _ Hr Hx). lia.
Qed.

Lemma bst_ptr lo hi t : bst lo hi t -> t <> Leaf -> lo < ptr t < hi.
Proof. destruct t; [done|]. intros (Ha & _ & _) _. done. Qed.

Lemma bst_weaken lo hi lo' hi' t : bst lo hi t -> lo' <= lo -> hi <= hi' -> bst lo' hi' t.
Proof.
  revert lo hi lo' hi'. induction t as [|l IHl a s h r IHr]; intros lo hi lo' hi' Hb H1 H2; [done|].
  destruct Hb as (Ha & Hl & Hr). split; [lia|]. split; [apply (IHl lo a)|apply (IHr a hi)]; done || lia.
Qed.

Lemma bst_NoDup lo hi t : bst lo hi t -> NoDup (addrs t).
Proof.
  revert lo hi. induction t as [|l IHl a s h r IHr]; intros lo hi Hb; [constructor|].
  destruct Hb as (Ha & Hl & Hr). rewrite addrs_Br. apply NoDup_app. split; [eauto|]. split.
  - intros x Hx Hx'. pose proof (bst_in _ _ _ _ Hl Hx). apply elem_of_cons in Hx' as [->|Hx']; [lia|].
    pose proof (bst_in _ _ _ _ Hr Hx'). lia.
  - constructor; [|eauto]. intros Hx. pose proof (bst_in _ _ _ _ Hr Hx). lia.
Qed.

Lemma hok_nonneg t : hok t -> 0 <= ht t.
Proof. induction t as [|l IHl a s h r IHr]; cbn; [lia|]. intros (Hl & Hr & ->). specialize (IHl Hl). specialize (IHr Hr). lia. Qed.

(** The addresses bound the height: no 64-bit height wraps. *)
Lemma hok_bound lo hi t : hok t -> bst lo hi t -> lo < hi -> ht t < hi - lo.
Proof.
  revert lo hi. induction t as [|l IHl a s h r IHr]; intros lo hi Hk Hb Hlt; [cbn; lia|].
  destruct Hk as (Hl & Hr & ->), Hb as (Ha & Hbl & Hbr). cbn.
  specialize (IHl lo a Hl Hbl ltac:(lia)). specialize (IHr a hi Hr Hbr ltac:(lia)). lia.
Qed.

Lemma avl_hok t : avl t -> hok t.
Proof. induction t as [|l IHl a s h r IHr]; cbn; [done|]. intros (Hl & Hr & E & _). auto. Qed.

Lemma avl_nonneg t : avl t -> 0 <= ht t.
Proof. intros H. by apply hok_nonneg, avl_hok. Qed.

Lemma avl_mk l a s r : avl l -> avl r -> -1 <= ht l - ht r <= 1 -> avl (mk l a s r).
Proof. intros Hl Hr Hb. by split; [|split; [|split]]. Qed.

Lemma blocks_plug c : exists pre post, forall t, blocks (plug c t) = pre ++ blocks t ++ post.
Proof.
  induction c as [|f c (pre & post & E)]; [exists [], []; intros; by rewrite app_nil_r|].
  destruct f as [a s h r|l a s h]; cbn.
  - exists pre, ((a, s) :: blocks r ++ post). intros t. rewrite E. cbn. by rewrite <- !app_assoc.
  - exists (pre ++ blocks l ++ [(a, s)]), post. intros t. rewrite E. cbn. by rewrite <- !app_assoc.
Qed.

Lemma plug_app c c' t : plug (c ++ c') t = plug c' (plug c t).
Proof. revert t. induction c as [|f c IH]; intros t; [done|]. cbn. by rewrite IH. Qed.

Lemma within_bst lo0 hi0 c : forall lo hi t, within lo0 hi0 c lo hi -> bst lo hi t -> bst lo0 hi0 (plug c t).
Proof.
  induction c as [|[a s h r|l a s h] c IH]; intros lo hi t; cbn.
  - intros [-> ->]. done.
  - intros (-> & hi' & Ha & Hr & Hc) Ht. apply (IH lo hi'); [done|]. done.
  - intros (-> & lo' & Ha & Hl & Hc) Ht. apply (IH lo' hi); [done|]. done.
Qed.

Lemma within_range lo0 hi0 c : forall lo hi, within lo0 hi0 c lo hi -> lo0 <= lo /\ hi <= hi0.
Proof.
  induction c as [|[a s h r|l a s h] c IH]; intros lo hi; cbn.
  - lia.
  - intros (-> & hi' & Ha & Hr & Hc). apply IH in Hc. lia.
  - intros (-> & lo' & Ha & Hl & Hc). apply IH in Hc. lia.
Qed.

(** The nodes of a path, and everything that hangs from it, lie outside the
    interval of the hole. *)
Fixpoint path_addrs (c : list frame) : list Z :=
  match c with [] => [] | f :: c => faddr f :: addrs (sibling f) ++ path_addrs c end.

Lemma within_outside lo0 hi0 c : forall lo hi x, within lo0 hi0 c lo hi -> x ∈ path_addrs c -> (x <= lo \/ hi <= x) /\ lo0 < x < hi0.
Proof.
  induction c as [|[a s h r|l a s h] c IH]; intros lo hi x; cbn; [intros _ H; by apply elem_of_nil in H| |].
  - intros (-> & hi' & Ha & Hr & Hc) Hx. pose proof (within_range _ _ _ _ _ Hc).
    apply elem_of_cons in Hx as [->|Hx]; [lia|]. apply elem_of_app in Hx as [Hx|Hx].
    + pose proof (bst_in _ _ _ _ Hr Hx). lia.
    + specialize (IH _ _ _ Hc Hx). lia.
  - intros (-> & lo' & Ha & Hl & Hc) Hx. pose proof (within_range _ _ _ _ _ Hc).
    apply elem_of_cons in Hx as [->|Hx]; [lia|]. apply elem_of_app in Hx as [Hx|Hx].
    + pose proof (bst_in _ _ _ _ Hl Hx). lia.
    + specialize (IH _ _ _ Hc Hx). lia.
Qed.

Lemma within_top lo0 hi0 c lo hi : within lo0 hi0 c lo hi -> c <> [] -> top c = lo \/ top c = hi.
Proof. destruct c as [|[] c]; cbn; [done| |]; intros (-> & _) _; auto. Qed.

Lemma elem_addrs_plug c t x : x ∈ addrs (plug c t) <-> x ∈ addrs t \/ x ∈ path_addrs c.
Proof.
  revert t. induction c as [|[a s h r|l a s h] c IH]; intros t; cbn [plug path_addrs fill faddr sibling].
  - split; [auto|]. intros [H|H]; [done|by apply elem_of_nil in H].
  - rewrite IH, elem_addrs_Br, elem_of_cons, elem_of_app. tauto.
  - rewrite IH, elem_addrs_Br, elem_of_cons, elem_of_app. tauto.
Qed.

(** ** Rotations *)

Definition rotL (t : tree) : tree :=
  match t with Br l a s _ (Br rl b sb _ rr) => mk (mk l a s rl) b sb rr | t => t end.
Definition rotR (t : tree) : tree :=
  match t with Br (Br ll b sb _ lr) a s _ r => mk ll b sb (mk lr a s r) | t => t end.
Definition rotRL (t : tree) : tree := match t with Br l a s h r => rotL (Br l a s h (rotR r)) | Leaf => Leaf end.
Definition rotLR (t : tree) : tree := match t with Br l a s h r => rotR (Br (rotL l) a s h r) | Leaf => Leaf end.

(** What rebalancing keeps: the blocks in order and the search order; and
    [rotation] names the functions that do so. *)
Definition keeps (f : tree -> tree) : Prop :=
  forall t, blocks (f t) = blocks t /\ (forall lo hi, bst lo hi t -> bst lo hi (f t)) /\ (t <> Leaf -> f t <> Leaf).

Lemma rotL_keeps : keeps rotL.
Proof.
  intros [|l a s h [|rl b sb hb rr]]; try done. split; [cbn; by rewrite <- !app_assoc|]. split; [|done].
  intros lo hi (Ha & Hl & Hb & Hrl & Hrr). repeat split; try done; lia.
Qed.

Lemma rotR_keeps : keeps rotR.
Proof.
  intros [|[|ll b sb hb lr] a s h r]; try done. split; [cbn; by rewrite <- !app_assoc|]. split; [|done].
  intros lo hi (Ha & (Hb & Hll & Hlr) & Hr). repeat split; try done; lia.
Qed.

Lemma keeps_right f l a s h r lo hi :
  keeps f -> blocks (Br l a s h (f r)) = blocks (Br l a s h r) /\ (bst lo hi (Br l a s h r) -> bst lo hi (Br l a s h (f r))).
Proof. intros Hf. destruct (Hf r) as (E & Hb & _). cbn. rewrite E. split; [done|]. intros (Ha & Hl & Hr). auto. Qed.

Lemma keeps_left f l a s h r lo hi :
  keeps f -> blocks (Br (f l) a s h r) = blocks (Br l a s h r) /\ (bst lo hi (Br l a s h r) -> bst lo hi (Br (f l) a s h r)).
Proof. intros Hf. destruct (Hf l) as (E & Hb & _). cbn. rewrite E. split; [done|]. intros (Ha & Hl & Hr). auto. Qed.

Lemma rotRL_keeps : keeps rotRL.
Proof.
  intros [|l a s h r]; [done|]. unfold rotRL. destruct (rotL_keeps (Br l a s h (rotR r))) as (E & Hb & Hn).
  split; [rewrite E; by apply (keeps_right rotR _ _ _ _ _ 0 0 rotR_keeps)|]. split; [|by intros _; apply Hn].
  intros lo hi H. apply Hb. by apply (keeps_right rotR _ _ _ _ _ _ _ rotR_keeps).
Qed.

Lemma rotLR_keeps : keeps rotLR.
Proof.
  intros [|l a s h r]; [done|]. unfold rotLR. destruct (rotR_keeps (Br (rotL l) a s h r)) as (E & Hb & Hn).
  split; [rewrite E; by apply (keeps_left rotL _ _ _ _ _ 0 0 rotL_keeps)|]. split; [|by intros _; apply Hn].
  intros lo hi H. apply Hb. by apply (keeps_left rotL _ _ _ _ _ _ _ rotL_keeps).
Qed.

(** ** Rebalancing on the way up from an insertion *)

Definition reb (n : Z) (t : tree) : tree :=
  match t with
  | Leaf => Leaf
  | Br l a s _ r =>
      let t := mk l a s r in
      let b := ht l - ht r in
      if (b <? -1) || (1 <? b) then
        if (a <? n) && (ptr r <? n) then rotL t
        else if (n <? a) && (n <? ptr l) then rotR t
        else if (a <? n) && (n <? ptr r) then rotRL t
        else if (n <? a) && (ptr l <? n) then rotLR t
        else t
      else t
  end.

Fixpoint climb (n : Z) (c : list frame) (t : tree) : tree :=
  match c with [] => t | f :: c => climb n c (reb n (fill f t)) end.

(** ** Rebalancing on the way up from a deletion *)

Definition bal (t : tree) : Z := match t with Leaf => 0 | Br l _ _ _ r => ht l - ht r end.

Definition rebd (t : tree) : tree :=
  match t with
  | Leaf => Leaf
  | Br l a s _ r =>
      let t := mk l a s r in
      let b := ht l - ht r in
      if 1 <? b then if 0 <=? bal l then rotR t else rotLR t
      else if b <? -1 then if 0 <? bal r then rotRL t else rotL t
      else t
  end.

Fixpoint climbd (c : list frame) (t : tree) : tree :=
  match c with [] => t | f :: c => climbd c (rebd (fill f t)) end.

Lemma mk_keeps l a s h r : blocks (mk l a s r) = blocks (Br l a s h r) /\
  (forall lo hi, bst lo hi (Br l a s h r) -> bst lo hi (mk l a s r)) /\ mk l a s r <> Leaf.
Proof. done. Qed.

Lemma keeps_mk f l a s h r : keeps f -> blocks (f (mk l a s r)) = blocks (Br l a s h r) /\
  (forall lo hi, bst lo hi (Br l a s h r) -> bst lo hi (f (mk l a s r))) /\ (Br l a s h r <> Leaf -> f (mk l a s r) <> Leaf).
Proof. intros Hf. destruct (Hf (mk l a s r)) as (E & Hb & Hn). split; [by rewrite E|]. split; [|by intros _; apply Hn]. intros lo hi H. by apply Hb. Qed.

Create HintDb heap discriminated.
#[export] Hint Resolve rotL_keeps rotR_keeps rotRL_keeps rotLR_keeps keeps_mk : heap.

Lemma reb_keeps n : keeps (reb n).
Proof.
  intros [|l a s h r]; [done|]. cbn [reb]. cbv zeta.
  destruct ((ht l - ht r <? -1) || (1 <? ht l - ht r)); [|done].
  destruct ((a <? n) && (ptr r <? n)); [auto with heap|]. destruct ((n <? a) && (n <? ptr l)); [auto with heap|].
  destruct ((a <? n) && (n <? ptr r)); [auto with heap|]. destruct ((n <? a) && (ptr l <? n)); [auto with heap|done].
Qed.

Lemma rebd_keeps : keeps rebd.
Proof.
  intros [|l a s h r]; [done|]. cbn [rebd]. cbv zeta.
  destruct (1 <? ht l - ht r); [destruct (0 <=? bal l); auto with heap|].
  destruct (ht l - ht r <? -1); [destruct (0 <? bal r); auto with heap|done].
Qed.

(** Climbing keeps the blocks in order and the search order. *)
Lemma climb_blocks n c t : blocks (climb n c t) = blocks (plug c t).
Proof.
  revert t. induction c as [|f c IH]; intros t; [done|]. cbn. rewrite IH.
  destruct (blocks_plug c) as (pre & post & E). by rewrite !E, (proj1 (reb_keeps n _)).
Qed.

Lemma climbd_blocks c t : blocks (climbd c t) = blocks (plug c t).
Proof.
  revert t. induction c as [|f c IH]; intros t; [done|]. cbn. rewrite IH.
  destruct (blocks_plug c) as (pre & post & E). by rewrite !E, (proj1 (rebd_keeps _)).
Qed.

(** A path cut at its first frame. *)
Lemma within_cons lo0 hi0 f c lo hi : within lo0 hi0 (f :: c) lo hi ->
  exists lo' hi', within lo0 hi0 c lo' hi' /\ lo' < faddr f < hi' /\ (forall t, bst lo hi t -> bst lo' hi' (fill f t)) /\ lo' <= lo /\ hi <= hi'.
Proof.
  destruct f as [a s h r|l a s h]; cbn.
  - intros (-> & hi' & Ha & Hr & Hc). exists lo, hi'. repeat split; try done; lia.
  - intros (-> & lo' & Ha & Hl & Hc). exists lo', hi. repeat split; try done; lia.
Qed.

Lemma climb_bst n lo0 hi0 c : forall lo hi t, within lo0 hi0 c lo hi -> bst lo hi t -> bst lo0 hi0 (climb n c t).
Proof.
  induction c as [|f c IH]; intros lo hi t Hc Ht; [by destruct Hc as [-> ->]|].
  destruct (within_cons _ _ _ _ _ _ Hc) as (lo' & hi' & Hc' & _ & Hf & _). cbn [climb].
  apply (IH lo' hi'); [done|]. apply reb_keeps. auto.
Qed.

Lemma climbd_bst lo0 hi0 c : forall lo hi t, within lo0 hi0 c lo hi -> bst lo hi t -> bst lo0 hi0 (climbd c t).
Proof.
  induction c as [|f c IH]; intros lo hi t Hc Ht; [by destruct Hc as [-> ->]|].
  destruct (within_cons _ _ _ _ _ _ Hc) as (lo' & hi' & Hc' & _ & Hf & _). cbn [climbd].
  apply (IH lo' hi'); [done|]. apply rebd_keeps. auto.
Qed.

(** ** Balance *)

(** The path around a hole of height [k] is balanced; the heights stored in its
    frames do not matter, they are recomputed on the way up. *)
Fixpoint balanced_path (c : list frame) (k : Z) : Prop :=
  match c with
  | [] => True
  | f :: c => avl (sibling f) /\ -1 <= k - ht (sibling f) <= 1 /\ balanced_path c (Z.max k (ht (sibling f)) + 1)
  end.

Lemma avl_plug c c' t : avl (plug c t) -> balanced_path c' (ht (plug c t)) -> avl t /\ balanced_path (c ++ c') (ht t).
Proof.
  revert t. induction c as [|f c IH]; intros t H H'; [done|]. cbn in H, H'. destruct (IH _ H H') as [Hf Hp].
  destruct f as [a s h r|l a s h]; cbn in Hf, Hp |- *; destruct Hf as (Hl & Hr & E & Hb).
  - rewrite E in Hp. repeat split; try done; lia.
  - rewrite E in Hp. split; [done|]. split; [done|]. split; [lia|]. by rewrite Z.max_comm.
Qed.

(** The node [n] is the root of [t] or lies in its higher subtree. *)
Definition leans (n : Z) (t : tree) : Prop :=
  match t with
  | Leaf => False
  | Br l b _ _ r => (n = b /\ l = Leaf /\ r = Leaf) \/ (n < b /\ ht l = ht r + 1) \/ (b < n /\ ht r = ht l + 1)
  end.

Definition grown (n k : Z) (t : tree) : Prop := avl t /\ (ht t = k \/ ht t = k + 1 /\ leans n t).

Ltac decide_z :=
  repeat match goal with
  | |- context [?a <? ?b] => first [rewrite (proj2 (Z.ltb_lt a b)) by lia|rewrite (proj2 (Z.ltb_ge a b)) by lia]
  | |- context [?a <=? ?b] => first [rewrite (proj2 (Z.leb_le a b)) by lia|rewrite (proj2 (Z.leb_gt a b)) by lia]
  end; cbn [andb orb negb].

Ltac avl_close := repeat match goal with H : _ /\ _ |- _ => destruct H end; repeat split; try done; try (cbn; lia).

(** One step up on the left and on the right. *)
Lemma reb_grown_left n k a s h l r :
  grown n k l -> avl r -> -1 <= k - ht r <= 1 -> n < a -> n <> 0 -> grown n (Z.max k (ht r) + 1) (reb n (Br l a s h r)).
Proof.
  intros [Hl Hk] Hr Hb Hn Hn0. pose proof (avl_nonneg _ Hl). pose proof (avl_nonneg _ Hr). cbn [reb]. cbv zeta.
  destruct Hk as [E|[E Hlean]].
  { decide_z. split; [by apply avl_mk; try lia|]. left. cbn. lia. }
  destruct (decide (k - ht r = 1)) as [Eb|Eb].
  2:{ decide_z. split; [apply avl_mk; try done; lia|].
      destruct (decide (k - ht r = 0)); [right; split; [cbn; lia|right; left; lia]|left; cbn; lia]. }
  decide_z. destruct l as [|ll b sb hb lr]; [done|]. destruct Hl as (Hll & Hlr & Eh & Hbb).
  pose proof (avl_nonneg _ Hll). pose proof (avl_nonneg _ Hlr). cbn [ht] in E. cbn [ptr].
  destruct Hlean as [(-> & -> & ->)|[(Hnb & Ee)|(Hnb & Ee)]]; [cbn in *; lia| |].
  - decide_z. cbn [rotR mk]. split; [apply avl_mk; [done|apply avl_mk; [done|done|lia]|cbn; lia]|]. left. cbn. lia.
  - decide_z. destruct lr as [|x c sc hc y]; [cbn in Ee; lia|]. cbn [rotLR rotL rotR mk]. destruct Hlr as (Hx & Hy & Ec & Hbc).
    pose proof (avl_nonneg _ Hx). pose proof (avl_nonneg _ Hy). cbn [ht] in *. split.
    + apply avl_mk; [apply avl_mk; [done|done|cbn; lia]|apply avl_mk; [done|done|cbn; lia]|cbn; lia].
    + left. cbn. lia.
Qed.

Lemma reb_grown_right n k a s h l r :
  grown n k r -> avl l -> -1 <= k - ht l <= 1 -> a < n -> n <> 0 -> grown n (Z.max k (ht l) + 1) (reb n (Br l a s h r)).
Proof.
  intros [Hr Hk] Hl Hb Hn Hn0. pose proof (avl_nonneg _ Hl). pose proof (avl_nonneg _ Hr). cbn [reb]. cbv zeta.
  destruct Hk as [E|[E Hlean]].
  { decide_z. split; [by apply avl_mk; try lia|]. left. cbn. lia. }
  destruct (decide (k - ht l = 1)) as [Eb|Eb].
  2:{ decide_z. split; [apply avl_mk; try done; lia|].
      destruct (decide (k - ht l = 0)); [right; split; [cbn; lia|right; right; lia]|left; cbn; lia]. }
  decide_z. destruct r as [|rl b sb hb rr]; [done|]. destruct Hr as (Hrl & Hrr & Eh & Hbb).
  pose proof (avl_nonneg _ Hrl). pose proof (avl_nonneg _ Hrr). cbn [ht] in E. cbn [ptr].
  destruct Hlean as [(-> & -> & ->)|[(Hnb & Ee)|(Hnb & Ee)]]; [cbn in *; lia| |].
  - decide_z. destruct rl as [|x c sc hc y]; [cbn in Ee; lia|]. cbn [rotRL rotL rotR mk]. destruct Hrl as (Hx & Hy & Ec & Hbc).
    pose proof (avl_nonneg _ Hx). pose proof (avl_nonneg _ Hy). cbn [ht] in *. split.
    + apply avl_mk; [apply avl_mk; [done|done|cbn; lia]|apply avl_mk; [done|done|cbn; lia]|cbn; lia].
    + left. cbn. lia.
  - decide_z. cbn [rotL mk]. split; [apply avl_mk; [apply avl_mk; [done|done|lia]|done|cbn; lia]|]. left. cbn. lia.
Qed.

Lemma reb_grown n lo0 hi0 f c lo hi k t :
  within lo0 hi0 (f :: c) lo hi -> lo < n < hi -> n <> 0 -> balanced_path (f :: c) k -> grown n k t ->
  grown n (Z.max k (ht (sibling f)) + 1) (reb n (fill f t)).
Proof.
  intros Hc Hn Hn0 (Hs & Hb & Hp) Hg. destruct f as [a s h r|l a s h]; destruct Hc as (-> & _); cbn [fill sibling] in *.
  - apply reb_grown_left; try done; lia.
  - apply reb_grown_right; try done; lia.
Qed.

Lemma climb_avl n lo0 hi0 c : forall lo hi k t,
  within lo0 hi0 c lo hi -> lo < n < hi -> n <> 0 -> balanced_path c k -> grown n k t -> avl (climb n c t).
Proof.
  induction c as [|f c IH]; intros lo hi k t Hc Hn Hn0 Hp Hg; [apply Hg|].
  destruct (within_cons _ _ _ _ _ _ Hc) as (lo' & hi' & Hc' & _ & _ & H1 & H2). cbn [climb].
  apply (IH lo' hi' (Z.max k (ht (sibling f)) + 1)); [done|lia|done|apply Hp|by eapply reb_grown].
Qed.

Definition shrunk (k : Z) (t : tree) : Prop := avl t /\ (ht t = k \/ ht t = k - 1).

Lemma rebd_balance l a s h r :
  avl l -> avl r -> -2 <= ht l - ht r <= 2 ->
  avl (rebd (Br l a s h r)) /\
  (if decide (-1 <= ht l - ht r <= 1) then ht (rebd (Br l a s h r)) = Z.max (ht l) (ht r) + 1
   else Z.max (ht l) (ht r) <= ht (rebd (Br l a s h r)) <= Z.max (ht l) (ht r) + 1).
Proof.
  intros Hl Hr Hb. pose proof (avl_nonneg _ Hl). pose proof (avl_nonneg _ Hr). cbn [rebd]. cbv zeta.
  destruct (decide (-1 <= ht l - ht r <= 1)) as [Hin|Hout]; [decide_z; split; [by apply avl_mk|done]|].
  destruct (decide (ht l - ht r = 2)) as [E|E].
  - decide_z. destruct l as [|ll b sb hb lr]; [cbn in *; lia|]. destruct Hl as (Hll & Hlr & Eh & Hbb). cbn [bal ht] in *.
    pose proof (avl_nonneg _ Hll). pose proof (avl_nonneg _ Hlr).
    destruct (Z.leb_spec 0 (ht ll - ht lr)).
    + cbn [rotR mk]. split; [apply avl_mk; [done|apply avl_mk; [done|done|lia]|cbn; lia]|cbn; lia].
    + destruct lr as [|x c sc hc y]; [cbn in *; lia|]. cbn [rotLR rotL rotR mk]. destruct Hlr as (Hx & Hy & Ec & Hbc).
      pose proof (avl_nonneg _ Hx). pose proof (avl_nonneg _ Hy). cbn [ht] in *. split; [|cbn; lia].
      apply avl_mk; [apply avl_mk; [done|done|cbn; lia]|apply avl_mk; [done|done|cbn; lia]|cbn; lia].
  - decide_z. destruct r as [|rl b sb hb rr]; [cbn in *; lia|]. destruct Hr as (Hrl & Hrr & Eh & Hbb). cbn [bal ht] in *.
    pose proof (avl_nonneg _ Hrl). pose proof (avl_nonneg _ Hrr).
    destruct (Z.ltb_spec 0 (ht rl - ht rr)).
    + destruct rl as [|x c sc hc y]; [cbn in *; lia|]. cbn [rotRL rotL rotR mk]. destruct Hrl as (Hx & Hy & Ec & Hbc).
      pose proof (avl_nonneg _ Hx). pose proof (avl_nonneg _ Hy). cbn [ht] in *. split; [|cbn; lia].
      apply avl_mk; [apply avl_mk; [done|done|cbn; lia]|apply avl_mk; [done|done|cbn; lia]|cbn; lia].
    + cbn [rotL mk]. split; [apply avl_mk; [apply avl_mk; [done|done|lia]|done|cbn; lia]|cbn; lia].
Qed.

Lemma rebd_shrunk f c k t : balanced_path (f :: c) k -> shrunk k t -> shrunk (Z.max k (ht (sibling f)) + 1) (rebd (fill f t)).
Proof.
  intros (Hs & Hb & Hp) [Ht Hk]. destruct f as [a s h r|l a s h]; cbn [fill sibling] in *.
  - destruct (rebd_balance t a s h r Ht Hs ltac:(lia)) as [Ha Hh]. split; [done|].
    destruct (decide _) in Hh; lia.
  - destruct (rebd_balance l a s h t Hs Ht ltac:(lia)) as [Ha Hh]. split; [done|].
    destruct (decide _) in Hh; lia.
Qed.

Lemma climbd_avl c : forall k t, balanced_path c k -> shrunk k t -> avl (climbd c t).
Proof.
  induction c as [|f c IH]; intros k t Hp Hs; [apply Hs|]. cbn [climbd].
  apply (IH (Z.max k (ht (sibling f)) + 1)); [apply Hp|by eapply rebd_shrunk].
Qed.

(** Rebalancing a balanced tree changes nothing. *)
Lemma reb_avl n t : avl t -> reb n t = t.
Proof.
  destruct t as [|l a s h r]; [done|]. intros (Hl & Hr & -> & Hb). cbn [reb]. cbv zeta. decide_z. done.
Qed.

(** ** Locating nodes *)

Lemma within_app lo0 hi0 c lo hi c' lo' hi' : within lo0 hi0 c lo hi -> within lo hi c' lo' hi' -> within lo0 hi0 (c' ++ c) lo' hi'.
Proof.
  intros Hc. revert lo' hi'. induction c' as [|[a s h r|l a s h] c' IH]; intros lo' hi'; cbn.
  - by intros [-> ->].
  - intros (-> & y & Ha & Hr & H). eauto 10.
  - intros (-> & y & Ha & Hl & H). eauto 10.
Qed.

Lemma locate lo hi t n : bst lo hi t -> n ∈ addrs t ->
  exists c l s h r lo' hi', t = plug c (Br l n s h r) /\ within lo hi c lo' hi' /\ bst lo' hi' (Br l n s h r).
Proof.
  revert lo hi. induction t as [|l IHl a s h r IHr]; intros lo hi Hb Hn; [by apply elem_of_nil in Hn|].
  pose proof Hb as (Ha & Hl & Hr). apply elem_addrs_Br in Hn as [->|[Hn|Hn]].
  - by exists [], l, s, h, r, lo, hi.
  - destruct (IHl _ _ Hl Hn) as (c & l' & s' & h' & r' & lo' & hi' & -> & Hw & Hb').
    exists (c ++ [FL a s h r]), l', s', h', r', lo', hi'. split; [by rewrite plug_app|]. split; [|done].
    apply (within_app _ _ [FL a s h r] lo a); [|done]. split; [done|]. by exists hi.
  - destruct (IHr _ _ Hr Hn) as (c & l' & s' & h' & r' & lo' & hi' & -> & Hw & Hb').
    exists (c ++ [FR l a s h]), l', s', h', r', lo', hi'. split; [by rewrite plug_app|]. split; [|done].
    apply (within_app _ _ [FR l a s h] a hi); [|done]. split; [done|]. by exists lo.
Qed.

(** Paths that only go left: the way to the successor. *)
Definition leftward (c : list frame) : Prop := Forall (fun f => match f with FL _ _ _ _ => True | _ => False end) c.

Lemma leftward_within lo0 hi0 c : leftward c -> forall lo hi, within lo0 hi0 c lo hi ->
  lo = lo0 /\ forall b, b < hi -> within b hi0 c b hi.
Proof.
  induction 1 as [|f c Hf Hc IH]; intros lo hi; cbn; [intros [-> ->]; auto|].
  destruct f as [a s h r|]; [|done]. intros (-> & hi' & Ha & Hr & Hw). destruct (IH _ _ Hw) as [-> Hb].
  split; [done|]. intros b Hlt. split; [done|]. exists hi'. split; [lia|]. split; [done|]. apply Hb. lia.
Qed.

Lemma leftward_blocks c : leftward c -> exists post, forall t, blocks (plug c t) = blocks t ++ post.
Proof.
  induction 1 as [|f c Hf Hc (post & E)]; [exists []; intros; by rewrite app_nil_r|].
  destruct f as [a s h r|]; [|done]. exists ((a, s) :: blocks r ++ post). intros t. cbn. rewrite E. cbn. by rewrite <- app_assoc.
Qed.

Lemma leftmost_exists r : r <> Leaf -> exists c b s h t, r = plug c (Br Leaf b s h t) /\ leftward c.
Proof.
  induction r as [|l IHl a s h r _]; [done|]. intros _. destruct l as [|ll b sb hb lr] eqn:El.
  - exists [], a, s, h, r. split; [done|constructor].
  - destruct (IHl ltac:(done)) as (c & b' & s' & h' & t & -> & Hc).
    exists (c ++ [FL a s h r]), b', s', h', t. rewrite plug_app. split; [done|]. apply Forall_app. split; [done|]. by constructor.
Qed.

Lemma plug_ptr c t t' : c <> [] -> ptr (plug c t) = ptr (plug c t').
Proof.
  revert t t'. induction c as [|f c IH]; intros t t' Hc; [done|]. cbn. destruct c as [|f' c]; [by destruct f|]. by apply IH.
Qed.

Lemma plug_Leaf c t : plug c t = Leaf -> c = [] /\ t = Leaf.
Proof. revert t. induction c as [|f c IH]; intros t; [done|]. cbn. intros H. apply IH in H as [_ H]. by destruct f. Qed.

Lemma balanced_siblings c c' k : map sibling c = map sibling c' -> balanced_path c k -> balanced_path c' k.
Proof.
  revert c' k. induction c as [|f c IH]; intros [|f' c'] k E H; try done. cbn in *. injection E as E1 E2. rewrite <- E1.
  destruct H as (H1 & H2 & H3). auto.
Qed.

(** ** Sizes *)

Lemma length_plug c t : (length (addrs t) + length c <= length (addrs (plug c t)))%nat.
Proof.
  revert t. induction c as [|f c IH]; intros t; [cbn [plug length]; lia|]. cbn [plug length]. specialize (IH (fill f t)).
  assert (S (length (addrs t)) <= length (addrs (fill f t)))%nat; [|lia].
  destruct f as [a s h r|l a s h]; cbn [fill]; rewrite addrs_Br, length_app; cbn [length]; lia.
Qed.
