(* ===== verification/HeapRep.v ===== *)
(** * The pointers of the kernel heap implement its trees

    [rep m up t]: the store [m] holds the tree [t] with the parent pointer [up]
    at its root; [rep_path] the same for the path from a node to the root.  Every
    operation on pointers is shown to do what the functions of [HeapTree.v] do,
    and to leave every other object alone. *)
From S2P Require Import Prelude Heap HeapTree.

Fixpoint rep (m : store) (up : Z) (t : tree) : Prop :=
  match t with
  | Leaf => True
  | Br l a s h r =>
      m !! a = Some {| size := s; left := ptr l; right := ptr r; parent := up; height := h |} /\ rep m a l /\ rep m a r
  end.

(** The frame [f] of a node whose parent is [up] and whose child in the hole is
    [q]. *)
Definition rep_frame (m : store) (up : Z) (f : frame) (q : Z) : Prop :=
  match f with
  | FL a s h r => m !! a = Some {| size := s; left := q; right := ptr r; parent := up; height := h |} /\ rep m a r
  | FR l a s h => m !! a = Some {| size := s; left := ptr l; right := q; parent := up; height := h |} /\ rep m a l
  end.

Fixpoint rep_path (m : store) (c : list frame) (q : Z) : Prop :=
  match c with [] => True | f :: c => rep_frame m (top c) f q /\ rep_path m c (faddr f) end.

(** The address space: every node lies in it. *)
Definition LIMIT : Z := 2 ^ 64.

Lemma rep_agree m m' up t : rep m up t -> (forall x, x ∈ addrs t -> m' !! x = m !! x) -> rep m' up t.
Proof.
  revert up. induction t as [|l IHl a s h r IHr]; intros up Hr Hx; [done|]. destruct Hr as (Ha & Hl & Hr).
  split; [rewrite Hx; [done|apply elem_addrs_Br; auto]|].
  split; [apply IHl|apply IHr]; try done; intros x Hi; apply Hx, elem_addrs_Br; auto.
Qed.

Lemma rep_frame_agree m m' up f q :
  rep_frame m up f q -> m' !! faddr f = m !! faddr f -> (forall x, x ∈ addrs (sibling f) -> m' !! x = m !! x) -> rep_frame m' up f q.
Proof. destruct f as [a s h r|l a s h]; cbn; intros (Ha & Hr) E Hx; rewrite E; (split; [done|by eapply rep_agree]). Qed.

Lemma rep_path_agree m m' c q : rep_path m c q -> (forall x, x ∈ path_addrs c -> m' !! x = m !! x) -> rep_path m' c q.
Proof.
  revert q. induction c as [|f c IH]; intros q Hp Hx; [done|]. destruct Hp as [Hf Hp]. cbn in Hx. split.
  - apply (rep_frame_agree m); [done| |]; [apply Hx; left|]. intros x Hi. apply Hx. right. apply elem_of_app. auto.
  - apply IH; [done|]. intros x Hi. apply Hx. right. apply elem_of_app. auto.
Qed.

(** A whole tree is a subtree and a path. *)
Lemma rep_plug m c t : rep m 0 (plug c t) <-> rep_path m c (ptr t) /\ rep m (top c) t.
Proof.
  revert t. induction c as [|f c IH]; intros t; cbn [plug rep_path top]; [tauto|]. rewrite IH.
  destruct f as [a s h r|l a s h]; cbn; tauto.
Qed.

Lemma rep_in m up t x : rep m up t -> x ∈ addrs t -> is_Some (m !! x).
Proof.
  revert up. induction t as [|l IHl a s h r IHr]; intros up Hr Hx; [by apply elem_of_nil in Hx|].
  destruct Hr as (Ha & Hl & Hr). apply elem_addrs_Br in Hx as [->|[Hx|Hx]]; eauto.
Qed.

Lemma ptr_zero lo hi t : bst lo hi t -> 0 <= lo -> (ptr t =? 0) = match t with Leaf => true | _ => false end.
Proof. destruct t as [|l a s h r]; [done|]. intros (Ha & _) H0. cbn. lia. Qed.

Lemma GetHeight_rep m up lo hi t : rep m up t -> bst lo hi t -> 0 <= lo -> GetHeight m (ptr t) = Some (ht t).
Proof.
  intros Hr Hb H0. unfold GetHeight. rewrite (ptr_zero lo hi) by done. destruct t as [|l a s h r]; [done|].
  destruct Hr as (E & _). cbn [ptr ht]. by rewrite E.
Qed.

Lemma assign_some (m : store) p n f : m !! p = Some n -> assign m p f = Some (<[p := f n]> m).
Proof. intros E. unfold assign. by rewrite E. Qed.

Lemma assign_next (m : store) i v p n f : m !! p = Some n -> i <> p -> assign (<[i := v]> m) p f = Some (<[p := f n]> (<[i := v]> m)).
Proof. intros E Hi. apply assign_some. by rewrite lookup_insert_ne. Qed.

(** ** Heights *)

Section Node.
Context (m : store) (up lo hi a s h : Z) (l r : tree).
Context (Ha : m !! a = Some {| size := s; left := ptr l; right := ptr r; parent := up; height := h |}).
Context (Hl : rep m a l) (Hr : rep m a r) (Hb : bst lo hi (mk l a s r)) (H0 : 0 <= lo).

Lemma UpdateHeight_spec : hi <= LIMIT -> hok l -> hok r ->
  exists m', UpdateHeight m a = Some m' /\ rep m' up (mk l a s r) /\ (forall x, x <> a -> m' !! x = m !! x).
Proof.
  intros H1 Hkl Hkr. destruct Hb as (Hra & Hbl & Hbr). unfold UpdateHeight. rewrite Ha. cbn [mbind option_bind left right].
  rewrite (GetHeight_rep m a lo a l), (GetHeight_rep m a a hi r) by (done || lia). cbn [mbind option_bind].
  rewrite (assign_some _ _ _ _ Ha). eexists. split; [reflexivity|].
  pose proof (hok_nonneg _ Hkl). pose proof (hok_bound _ _ _ Hkl Hbl ltac:(lia)). pose proof (hok_bound _ _ _ Hkr Hbr ltac:(lia)).
  unfold set_height. cbn [size left right parent]. unfold LIMIT in H1. rewrite wrap_small by lia. split.
  - cbn. rewrite lookup_insert_eq. split; [done|].
    split; (eapply rep_agree; [done|]; intros x Hx; apply lookup_insert_ne).
    + pose proof (bst_in _ _ _ _ Hbl Hx). lia.
    + pose proof (bst_in _ _ _ _ Hbr Hx). lia.
  - intros x Hx. by apply lookup_insert_ne.
Qed.

Lemma GetBalanceFactor_spec : - 2 ^ 63 <= ht l - ht r < 2 ^ 63 -> GetBalanceFactor m a = Some (ht l - ht r).
Proof.
  intros Hd. destruct Hb as (Hra & Hbl & Hbr). unfold GetBalanceFactor. rewrite Ha. cbn [mbind option_bind left right].
  rewrite (GetHeight_rep m a lo a l), (GetHeight_rep m a a hi r) by (done || lia). cbn [mbind option_bind]. f_equal.
  unfold signed. cbv zeta. change (2 ^ (64 - 1)) with 9223372036854775808. unfold wrap. change (2 ^ 64) with 18446744073709551616.
  destruct (decide (0 <= ht l - ht r)).
  - rewrite Z.mod_small by lia. rewrite (proj2 (Z.ltb_lt _ _)) by lia. done.
  - assert (E : (ht l - ht r) mod 18446744073709551616 = ht l - ht r + 18446744073709551616).
    { rewrite <- (Z_mod_plus_full _ 1). apply Z.mod_small. lia. }
    rewrite E, (proj2 (Z.ltb_ge _ _)) by lia. lia.
Qed.
End Node.

(** ** Links *)

Lemma relink_spec m c lo hi q a b :
  rep_path m c q -> within 0 LIMIT c lo hi -> lo < a < hi ->
  exists m', relink m (top c) a b = Some m' /\ rep_path m' c b /\ (forall x, x <> top c -> m' !! x = m !! x).
Proof.
  intros Hp Hw Ha. destruct c as [|f c]; [by exists m|].
  destruct (within_cons _ _ _ _ _ _ Hw) as (lo' & hi' & Hc & Hf & _ & _). pose proof (within_range _ _ _ _ _ Hc).
  destruct Hp as [Hframe Hp]. unfold relink. cbn [top]. rewrite (proj2 (Z.eqb_neq (faddr f) 0)) by lia.
  assert (Hother : forall n x, x ∈ path_addrs c -> (<[faddr f := n]> m : store) !! x = m !! x).
  { intros n x Hx. apply lookup_insert_ne. pose proof (within_outside _ _ _ _ _ _ Hc Hx). lia. }
  destruct f as [p s h r|l p s h]; cbn [faddr] in *; destruct Hw as (-> & y & Hr & Hs & _); destruct Hframe as (E & Hsib).
  - rewrite (proj2 (Z.ltb_lt a p)) by lia. rewrite (assign_some _ _ _ _ E). eexists. split; [reflexivity|].
    split; [|intros x Hx; by apply lookup_insert_ne]. split; [|by eapply rep_path_agree; [|apply Hother]].
    cbn. rewrite lookup_insert_eq. split; [done|]. eapply rep_agree; [done|]. intros x Hx. apply lookup_insert_ne.
    pose proof (bst_in _ _ _ _ Hs Hx). lia.
  - rewrite (proj2 (Z.ltb_ge a p)) by lia. rewrite (assign_some _ _ _ _ E). eexists. split; [reflexivity|].
    split; [|intros x Hx; by apply lookup_insert_ne]. split; [|by eapply rep_path_agree; [|apply Hother]].
    cbn. rewrite lookup_insert_eq. split; [done|]. eapply rep_agree; [done|]. intros x Hx. apply lookup_insert_ne.
    pose proof (bst_in _ _ _ _ Hs Hx). lia.
Qed.

(** Changing the parent of a subtree that may be empty. *)
Definition reparent (m : store) (p up : Z) : option store := if p =? 0 then Some m else assign m p (set_parent up).

Lemma reparent_spec m up up' lo hi t :
  rep m up t -> bst lo hi t -> 0 <= lo ->
  exists m', reparent m (ptr t) up' = Some m' /\ rep m' up' t /\ (forall x, x ∉ addrs t -> m' !! x = m !! x).
Proof.
  intros Hr Hb H0. unfold reparent. rewrite (ptr_zero lo hi) by done. destruct t as [|l a s h r]; [by exists m|].
  destruct Hr as (E & Hl & Hr), Hb as (Ha & Hbl & Hbr). cbn [ptr]. rewrite (assign_some _ _ _ _ E).
  eexists. split; [reflexivity|]. split.
  - cbn. rewrite lookup_insert_eq. split; [done|].
    split; (eapply rep_agree; [done|]; intros x Hx; apply lookup_insert_ne).
    + pose proof (bst_in _ _ _ _ Hbl Hx). lia.
    + pose proof (bst_in _ _ _ _ Hbr Hx). lia.
  - intros x Hx. apply lookup_insert_ne. intros <-. apply Hx, elem_addrs_Br. auto.
Qed.

(** ** Rotations *)

(** The subtree [t] at the end of the path [c] is replaced by [t']: the new store
    holds [t'] there, and only its nodes and the last node of the path changed. *)
Record replaced (m m' : store) (c : list frame) (t t' : tree) : Prop := {
  replaced_tree : rep m' (top c) t';
  replaced_path : rep_path m' c (ptr t');
  replaced_frame : forall x, x ∉ addrs t -> x <> top c -> m' !! x = m !! x
}.

Lemma replaced_refl m c t : rep m (top c) t -> rep_path m c (ptr t) -> replaced m m c t t.
Proof. by split. Qed.

Lemma replaced_trans m m' m'' c t t' t'' :
  (forall x, x ∈ addrs t' <-> x ∈ addrs t) -> replaced m m' c t t' -> replaced m' m'' c t' t'' -> replaced m m'' c t t''.
Proof.
  intros E [Ht Hp Hf] [Ht' Hp' Hf']. split; [done|done|]. intros x Hx Hc. rewrite Hf' by (try done; by rewrite E). by apply Hf.
Qed.

Lemma addrs_blocks t t' : blocks t = blocks t' -> addrs t = addrs t'.
Proof. unfold addrs. by intros ->. Qed.

(** The two address facts a rotation needs of the three subtrees. *)
Ltac out_of Hb Hx := pose proof (bst_in _ _ _ _ Hb Hx).
Ltac agree Hb := eapply rep_agree; [eassumption|]; let x := fresh "x" in let Hx := fresh "Hx" in
  intros x Hx; out_of Hb Hx; rewrite ?lookup_insert_ne by lia; try reflexivity.

Section Rotations.
Context (m : store) (c : list frame) (lo hi : Z) (Hw : within 0 LIMIT c lo hi).

Lemma top_outside x : lo < x < hi -> x <> top c.
Proof.
  intros Hx. pose proof (within_range _ _ _ _ _ Hw). destruct c as [|f c']; [cbn; lia|].
  destruct (within_top _ _ _ _ _ Hw ltac:(done)) as [E|E]; rewrite E; lia.
Qed.

Lemma path_outside m' q : rep_path m c q -> (forall x, ~ lo < x < hi -> m' !! x = m !! x) -> rep_path m' c q.
Proof.
  intros Hp Hx. apply (rep_path_agree m); [done|]. intros x Hi. apply Hx.
  pose proof (within_outside _ _ _ _ _ _ Hw Hi). lia.
Qed.

Lemma RotateLeft_spec l a s h r :
  rep m (top c) (Br l a s h r) -> rep_path m c a -> bst lo hi (Br l a s h r) -> hok l -> hok r ->
  exists m', RotateLeft m a = Some (m', ptr (rotL (Br l a s h r))) /\ replaced m m' c (Br l a s h r) (rotL (Br l a s h r)).
Proof.
  intros Hrep Hp Hb Hkl Hkr. pose proof (within_range _ _ _ _ _ Hw) as Hlim. pose proof Hb as (Ha & Hbl & Hbr).
  pose proof Hrep as (Ea & Hl & Hr). unfold RotateLeft. rewrite (proj2 (Z.eqb_neq a 0)), Ea by lia. cbn [mbind option_bind right].
  rewrite (ptr_zero a hi) by (done || lia). destruct r as [|rl b sb hb rr]; [by exists m; split; [|apply replaced_refl]|].
  destruct Hbr as (Hb' & Hbrl & Hbrr), Hr as (Eb & Hrl & Hrr), Hkr as (Hkrl & Hkrr & _). cbn [ptr] in *.
  rewrite Eb. cbn [mbind option_bind left]. rewrite (assign_some _ _ _ _ Ea). cbn [mbind option_bind].
  rewrite (assign_next _ _ _ _ _ _ Eb) by lia. cbn [mbind option_bind].
  set (m1 := <[b := _]> (<[a := _]> m)).
  assert (Hout1 : forall x, x <> a -> x <> b -> m1 !! x = m !! x) by (intros; unfold m1; by rewrite !lookup_insert_ne).
  destruct (reparent_spec m1 b a a b rl) as (m2 & E2 & Hrl2 & Hout2); [unfold m1; agree Hbrl|done|lia|].
  unfold reparent in E2. rewrite E2. cbn [mbind option_bind]. clear E2.
  assert (Ea2 : m2 !! a = Some {| size := s; left := ptr l; right := ptr rl; parent := top c; height := h |}).
  { rewrite Hout2 by (intros Hx; out_of Hbrl Hx; lia). unfold m1. rewrite lookup_insert_ne, lookup_insert_eq by lia. done. }
  assert (Eb2 : m2 !! b = Some {| size := sb; left := a; right := ptr rr; parent := a; height := hb |}).
  { rewrite Hout2 by (intros Hx; out_of Hbrl Hx; lia). unfold m1. by rewrite lookup_insert_eq. }
  rewrite Ea2. cbn [mbind option_bind parent]. rewrite (assign_some _ _ _ _ Ea2). cbn [mbind option_bind].
  rewrite (assign_next _ _ _ _ _ _ Eb2) by lia. cbn [mbind option_bind].
  set (m3 := <[b := _]> (<[a := _]> m2)).
  assert (Hout3 : forall x, x <> a -> x <> b -> x ∉ addrs rl -> m3 !! x = m !! x).
  { intros x H1 H2 H3. unfold m3. rewrite !lookup_insert_ne by done. rewrite Hout2 by done. by apply Hout1. }
  destruct (relink_spec m3 c lo hi a a b) as (m4 & -> & Hp4 & Hout4); [|done|done|].
  { apply path_outside; [done|]. intros x Hx. apply Hout3; [lia|lia|]. intros Hi. out_of Hbrl Hi. lia. }
  cbn [mbind option_bind].
  assert (Hin4 : forall x, lo < x < hi -> m4 !! x = m3 !! x) by (intros; by apply Hout4, top_outside).
  destruct (UpdateHeight_spec m4 b lo b a s h l rl) as (m5 & -> & Ha5 & Hout5); try done; try lia.
  { rewrite Hin4 by lia. unfold m3. rewrite lookup_insert_ne, lookup_insert_eq by lia. done. }
  { eapply rep_agree; [exact Hl|]. intros x Hx. out_of Hbl Hx. rewrite Hin4, Hout3 by (try lia; intros Hi; out_of Hbrl Hi; lia). done. }
  { eapply rep_agree; [exact Hrl2|]. intros x Hx. out_of Hbrl Hx. rewrite Hin4 by lia. unfold m3. by rewrite !lookup_insert_ne by lia. }
  { repeat split; try done; lia. }
  cbn [mbind option_bind].
  destruct (UpdateHeight_spec m5 (top c) lo hi b sb hb (mk l a s rl) rr) as (m6 & -> & Hb6 & Hout6); try done; try lia.
  { rewrite Hout5, Hin4 by lia. unfold m3. by rewrite lookup_insert_eq. }
  { eapply rep_agree; [exact Hrr|]. intros x Hx. out_of Hbrr Hx. rewrite Hout5, Hin4, Hout3 by (try lia; intros Hi; out_of Hbrl Hi; lia). done. }
  { repeat split; try done; lia. }
  exists m6. split; [done|]. split; [done| |].
  - cbn [rotL mk ptr]. apply (rep_path_agree m4); [done|]. intros x Hx. pose proof (within_outside _ _ _ _ _ _ Hw Hx).
    rewrite Hout6, Hout5 by lia. done.
  - intros x Hx Hc. rewrite elem_addrs_Br, elem_addrs_Br in Hx. rewrite Hout6, Hout5, Hout4, Hout3 by tauto. done.
Qed.

Lemma RotateRight_spec l a s h r :
  rep m (top c) (Br l a s h r) -> rep_path m c a -> bst lo hi (Br l a s h r) -> hok l -> hok r ->
  exists m', RotateRight m a = Some (m', ptr (rotR (Br l a s h r))) /\ replaced m m' c (Br l a s h r) (rotR (Br l a s h r)).
Proof.
  intros Hrep Hp Hb Hkl Hkr. pose proof (within_range _ _ _ _ _ Hw) as Hlim. pose proof Hb as (Ha & Hbl & Hbr).
  pose proof Hrep as (Ea & Hl & Hr). unfold RotateRight. rewrite (proj2 (Z.eqb_neq a 0)), Ea by lia. cbn [mbind option_bind left].
  rewrite (ptr_zero lo a) by (done || lia). destruct l as [|ll b sb hb lr]; [by exists m; split; [|apply replaced_refl]|].
  destruct Hbl as (Hb' & Hbll & Hblr), Hl as (Eb & Hll & Hlr), Hkl as (Hkll & Hklr & _). cbn [ptr] in *.
  rewrite Eb. cbn [mbind option_bind right]. rewrite (assign_some _ _ _ _ Ea). cbn [mbind option_bind].
  rewrite (assign_next _ _ _ _ _ _ Eb) by lia. cbn [mbind option_bind].
  set (m1 := <[b := _]> (<[a := _]> m)).
  assert (Hout1 : forall x, x <> a -> x <> b -> m1 !! x = m !! x) by (intros; unfold m1; by rewrite !lookup_insert_ne).
  destruct (reparent_spec m1 b a b a lr) as (m2 & E2 & Hlr2 & Hout2); [unfold m1; agree Hblr|done|lia|].
  unfold reparent in E2. rewrite E2. cbn [mbind option_bind]. clear E2.
  assert (Ea2 : m2 !! a = Some {| size := s; left := ptr lr; right := ptr r; parent := top c; height := h |}).
  { rewrite Hout2 by (intros Hx; out_of Hblr Hx; lia). unfold m1. rewrite lookup_insert_ne, lookup_insert_eq by lia. done. }
  assert (Eb2 : m2 !! b = Some {| size := sb; left := ptr ll; right := a; parent := a; height := hb |}).
  { rewrite Hout2 by (intros Hx; out_of Hblr Hx; lia). unfold m1. by rewrite lookup_insert_eq. }
  rewrite Ea2. cbn [mbind option_bind parent]. rewrite (assign_some _ _ _ _ Ea2). cbn [mbind option_bind].
  rewrite (assign_next _ _ _ _ _ _ Eb2) by lia. cbn [mbind option_bind].
  set (m3 := <[b := _]> (<[a := _]> m2)).
  assert (Hout3 : forall x, x <> a -> x <> b -> x ∉ addrs lr -> m3 !! x = m !! x).
  { intros x H1 H2 H3. unfold m3. rewrite !lookup_insert_ne by done. rewrite Hout2 by done. by apply Hout1. }
  destruct (relink_spec m3 c lo hi a a b) as (m4 & -> & Hp4 & Hout4); [|done|done|].
  { apply path_outside; [done|]. intros x Hx. apply Hout3; [lia|lia|]. intros Hi. out_of Hblr Hi. lia. }
  cbn [mbind option_bind].
  assert (Hin4 : forall x, lo < x < hi -> m4 !! x = m3 !! x) by (intros; by apply Hout4, top_outside).
  destruct (UpdateHeight_spec m4 b b hi a s h lr r) as (m5 & -> & Ha5 & Hout5); try done; try lia.
  { rewrite Hin4 by lia. unfold m3. rewrite lookup_insert_ne, lookup_insert_eq by lia. done. }
  { eapply rep_agree; [exact Hlr2|]. intros x Hx. out_of Hblr Hx. rewrite Hin4 by lia. unfold m3. by rewrite !lookup_insert_ne by lia. }
  { eapply rep_agree; [exact Hr|]. intros x Hx. out_of Hbr Hx. rewrite Hin4, Hout3 by (try lia; intros Hi; out_of Hblr Hi; lia). done. }
  { repeat split; try done; lia. }
  cbn [mbind option_bind].
  destruct (UpdateHeight_spec m5 (top c) lo hi b sb hb ll (mk lr a s r)) as (m6 & -> & Hb6 & Hout6); try done; try lia.
  { rewrite Hout5, Hin4 by lia. unfold m3. by rewrite lookup_insert_eq. }
  { eapply rep_agree; [exact Hll|]. intros x Hx. out_of Hbll Hx. rewrite Hout5, Hin4, Hout3 by (try lia; intros Hi; out_of Hblr Hi; lia). done. }
  { repeat split; try done; lia. }
  exists m6. split; [done|]. split; [done| |].
  - cbn [rotR mk ptr]. apply (rep_path_agree m4); [done|]. intros x Hx. pose proof (within_outside _ _ _ _ _ _ Hw Hx).
    rewrite Hout6, Hout5 by lia. done.
  - intros x Hx Hc. rewrite elem_addrs_Br, elem_addrs_Br in Hx. rewrite Hout6, Hout5, Hout4, Hout3 by tauto. done.
Qed.
End Rotations.

Section Double.
Context (m : store) (c : list frame) (lo hi : Z) (Hw : within 0 LIMIT c lo hi).

Lemma hok_rotL t : hok t -> hok (rotL t).
Proof. destruct t as [|l a s h [|rl b sb hb rr]]; cbn; tauto. Qed.
Lemma hok_rotR t : hok t -> hok (rotR t).
Proof. destruct t as [|[|ll b sb hb lr] a s h r]; cbn; tauto. Qed.

Lemma addrs_keeps f t x : keeps f -> x ∈ addrs (f t) <-> x ∈ addrs t.
Proof. intros Hf. by rewrite (addrs_blocks _ _ (proj1 (Hf t))). Qed.

Lemma RotateRightLeft_spec l a s h r :
  rep m (top c) (Br l a s h r) -> rep_path m c a -> bst lo hi (Br l a s h r) -> hok l -> hok r ->
  exists m', RotateRightLeft m a = Some (m', ptr (rotRL (Br l a s h r))) /\ replaced m m' c (Br l a s h r) (rotRL (Br l a s h r)).
Proof.
  intros Hrep Hp Hb Hkl Hkr. pose proof (within_range _ _ _ _ _ Hw) as Hlim. pose proof Hb as (Ha & Hbl & Hbr).
  pose proof Hrep as (Ea & Hl & Hr). unfold RotateRightLeft. rewrite Ea. cbn [mbind option_bind right].
  destruct r as [|rl b sb hb rr] eqn:Er.
  { cbn [ptr]. unfold RotateRight. cbn [Z.eqb mbind option_bind]. rewrite (assign_some _ _ _ _ Ea). cbn [mbind option_bind].
    rewrite insert_id by exact Ea. exact (RotateLeft_spec m c lo hi Hw l a s h Leaf Hrep Hp Hb Hkl Hkr). }
  rewrite <- Er in *. replace (ptr r) with b by (by rewrite Er).
  destruct (RotateRight_spec m (FR l a s h :: c) a hi ltac:(split; [done|by exists lo]) rl b sb hb rr) as (m1 & E1 & [Ht1 Hp1 Hf1]).
  { rewrite Er in Hr. exact Hr. } { split; [|done]. split; [|done]. by rewrite Er in Ea. } { by rewrite Er in Hbr. }
  { rewrite Er in Hkr. by destruct Hkr. } { rewrite Er in Hkr. by destruct Hkr as (_ & ? & _). }
  rewrite E1. cbn [mbind option_bind]. rewrite <- Er in *. destruct Hp1 as [[Ea1 Hl1] Hp1]. cbn [faddr] in *.
  rewrite (assign_some _ _ _ _ Ea1). cbn [mbind option_bind].
  assert (Eid : <[a := set_right (ptr (rotR r)) {| size := s; left := ptr l; right := ptr (rotR r); parent := top c; height := h |}]> m1 = m1).
  { by apply insert_id. }
  rewrite Eid. destruct (keeps_right rotR l a s h r lo hi rotR_keeps) as [Eb Hbb].
  destruct (RotateLeft_spec m1 c lo hi Hw l a s h (rotR r)) as (m2 & E2 & H2); try done.
  { by apply Hbb. } { by apply hok_rotR. }
  exists m2. rewrite E2. split; [done|]. eapply replaced_trans; [|split|exact H2]; try done.
  - intros x. by rewrite (addrs_blocks _ _ Eb).
  - intros x Hx Hc. rewrite elem_addrs_Br in Hx. apply Hf1; [tauto|]. cbn. tauto.
Qed.

Lemma RotateLeftRight_spec l a s h r :
  rep m (top c) (Br l a s h r) -> rep_path m c a -> bst lo hi (Br l a s h r) -> hok l -> hok r ->
  exists m', RotateLeftRight m a = Some (m', ptr (rotLR (Br l a s h r))) /\ replaced m m' c (Br l a s h r) (rotLR (Br l a s h r)).
Proof.
  intros Hrep Hp Hb Hkl Hkr. pose proof (within_range _ _ _ _ _ Hw) as Hlim. pose proof Hb as (Ha & Hbl & Hbr).
  pose proof Hrep as (Ea & Hl & Hr). unfold RotateLeftRight. rewrite Ea. cbn [mbind option_bind left].
  destruct l as [|ll b sb hb lr] eqn:Er.
  { cbn [ptr]. unfold RotateLeft. cbn [Z.eqb mbind option_bind]. rewrite (assign_some _ _ _ _ Ea). cbn [mbind option_bind].
    rewrite insert_id by exact Ea. exact (RotateRight_spec m c lo hi Hw Leaf a s h r Hrep Hp Hb Hkl Hkr). }
  rewrite <- Er in *. replace (ptr l) with b by (by rewrite Er).
  destruct (RotateLeft_spec m (FL a s h r :: c) lo a ltac:(split; [done|by exists hi]) ll b sb hb lr) as (m1 & E1 & [Ht1 Hp1 Hf1]).
  { rewrite Er in Hl. exact Hl. } { split; [|done]. split; [|done]. by rewrite Er in Ea. } { by rewrite Er in Hbl. }
  { rewrite Er in Hkl. by destruct Hkl. } { rewrite Er in Hkl. by destruct Hkl as (_ & ? & _). }
  rewrite E1. cbn [mbind option_bind]. rewrite <- Er in *. destruct Hp1 as [[Ea1 Hr1] Hp1]. cbn [faddr] in *.
  rewrite (assign_some _ _ _ _ Ea1). cbn [mbind option_bind].
  assert (Eid : <[a := set_left (ptr (rotL l)) {| size := s; left := ptr (rotL l); right := ptr r; parent := top c; height := h |}]> m1 = m1).
  { by apply insert_id. }
  rewrite Eid. destruct (keeps_left rotL l a s h r lo hi rotL_keeps) as [Eb Hbb].
  destruct (RotateRight_spec m1 c lo hi Hw (rotL l) a s h r) as (m2 & E2 & H2); try done.
  { by apply Hbb. } { by apply hok_rotL. }
  exists m2. rewrite E2. split; [done|]. eapply replaced_trans; [|split|exact H2]; try done.
  - intros x. by rewrite (addrs_blocks _ _ Eb).
  - intros x Hx Hc. rewrite elem_addrs_Br in Hx. apply Hf1; [tauto|]. cbn. tauto.
Qed.
End Double.

(** ** Rebalancing *)

Section Step.
Context (m : store) (c : list frame) (lo hi : Z) (Hw : within 0 LIMIT c lo hi).
Context (l r : tree) (a s h : Z).
Context (Hrep : rep m (top c) (Br l a s h r)) (Hp : rep_path m c a) (Hb : bst lo hi (Br l a s h r)).
Context (Hkl : hok l) (Hkr : hok r) (Hd : -2 <= ht l - ht r <= 2).

(** Both kinds of rebalancing start by recomputing the height of the node. *)
Lemma refresh : exists m', UpdateHeight m a = Some m' /\ GetBalanceFactor m' a = Some (ht l - ht r) /\
  m' !! a = Some {| size := s; left := ptr l; right := ptr r; parent := top c; height := Z.max (ht l) (ht r) + 1 |} /\
  replaced m m' c (Br l a s h r) (mk l a s r).
Proof.
  pose proof (within_range _ _ _ _ _ Hw) as Hlim. pose proof Hrep as (Ea & Hl & Hr). pose proof Hb as (Ha & Hbl & Hbr).
  destruct (UpdateHeight_spec m (top c) lo hi a s h l r) as (m1 & E1 & H1 & Hout); try done; try lia.
  exists m1. split; [done|]. pose proof H1 as (Ea1 & Hl1 & Hr1). split; [|split; [exact Ea1|split; [exact H1| |]]].
  - apply (GetBalanceFactor_spec m1 (top c) lo hi a s _ l r Ea1); try done; lia.
  - apply (path_outside m c lo hi Hw); [exact Hp|]. intros x Hx. apply Hout. lia.
  - intros x Hx _. apply Hout. intros ->. apply Hx, elem_addrs_Br. auto.
Qed.

Lemma after_refresh m1 m2 t' :
  replaced m m1 c (Br l a s h r) (mk l a s r) -> replaced m1 m2 c (mk l a s r) t' -> replaced m m2 c (Br l a s h r) t'.
Proof. intros H1 H2. eapply replaced_trans; [|exact H1|exact H2]. intros x. unfold mk. by rewrite !elem_addrs_Br. Qed.

Lemma Rebalance_spec n :
  exists m', Rebalance m a n = Some (m', ptr (reb n (Br l a s h r))) /\ replaced m m' c (Br l a s h r) (reb n (Br l a s h r)).
Proof.
  pose proof (within_range _ _ _ _ _ Hw) as Hlim. destruct refresh as (m1 & E1 & Eb & Ea & H1). pose proof H1 as [Ht1 Hp1 _].
  pose proof (fun m2 t' => after_refresh m1 m2 t' H1) as Haf.
  unfold Rebalance. rewrite E1. cbn [mbind option_bind]. rewrite Eb. cbn [mbind option_bind reb]. cbv zeta.
  destruct ((ht l - ht r <? -1) || (1 <? ht l - ht r)); [|by exists m1]. rewrite Ea. cbn [mbind option_bind left right].
  destruct ((a <? n) && (ptr r <? n)).
  { destruct (RotateLeft_spec m1 c lo hi Hw l a s _ r Ht1 Hp1 Hb Hkl Hkr) as (m2 & -> & H2). exists m2. split; [reflexivity|apply Haf; eassumption]. }
  destruct ((n <? a) && (n <? ptr l)).
  { destruct (RotateRight_spec m1 c lo hi Hw l a s _ r Ht1 Hp1 Hb Hkl Hkr) as (m2 & -> & H2). exists m2. split; [reflexivity|apply Haf; eassumption]. }
  destruct ((a <? n) && (n <? ptr r)).
  { destruct (RotateRightLeft_spec m1 c lo hi Hw l a s _ r Ht1 Hp1 Hb Hkl Hkr) as (m2 & -> & H2). exists m2. split; [reflexivity|apply Haf; eassumption]. }
  destruct ((n <? a) && (ptr l <? n)); [|by exists m1].
  destruct (RotateLeftRight_spec m1 c lo hi Hw l a s _ r Ht1 Hp1 Hb Hkl Hkr) as (m2 & -> & H2). exists m2. split; [reflexivity|apply Haf; eassumption].
Qed.

Lemma rebalance_step_spec :
  avl l -> avl r ->
  exists m', rebalance_step m a = Some (m', ptr (rebd (Br l a s h r))) /\ replaced m m' c (Br l a s h r) (rebd (Br l a s h r)).
Proof.
  intros Hvl Hvr. pose proof (within_range _ _ _ _ _ Hw) as Hlim. destruct refresh as (m1 & E1 & Eb & Ea & H1). pose proof H1 as [Ht1 Hp1 _].
  pose proof (fun m2 t' => after_refresh m1 m2 t' H1) as Haf.
  unfold rebalance_step. rewrite E1. cbn [mbind option_bind]. rewrite Eb, Ea. cbn [mbind option_bind rebd left right]. cbv zeta.
  pose proof Ht1 as (_ & Hl1 & Hr1). pose proof Hb as (Ha & Hbl & Hbr).
  destruct (Z.ltb_spec 1 (ht l - ht r)) as [H2|H2].
  - destruct l as [|ll b sb hb lr] eqn:El; [pose proof (avl_nonneg _ Hvr); change (ht Leaf) with 0 in H2; lia|].
    pose proof Hkl as Hkl'. destruct Hvl as (Hvll & Hvlr & _ & Hbal), Hkl as (Hkll & Hklr & _), Hl1 as (Eb1 & Hll1 & Hlr1). cbn [ptr bal].
    rewrite (GetBalanceFactor_spec m1 a lo a b sb hb ll lr Eb1 Hll1 Hlr1 Hbl) by lia. cbn [mbind option_bind].
    destruct (0 <=? ht ll - ht lr).
    + destruct (RotateRight_spec m1 c lo hi Hw _ a s _ r Ht1 Hp1 Hb Hkl' Hkr) as (m2 & -> & H3). exists m2. split; [reflexivity|apply Haf; eassumption].
    + destruct (RotateLeftRight_spec m1 c lo hi Hw _ a s _ r Ht1 Hp1 Hb Hkl' Hkr) as (m2 & -> & H3). exists m2. split; [reflexivity|apply Haf; eassumption].
  - destruct (Z.ltb_spec (ht l - ht r) (-1)) as [H3|H3]; [|by exists m1].
    destruct r as [|rl b sb hb rr] eqn:Er; [pose proof (avl_nonneg _ Hvl); change (ht Leaf) with 0 in H3; lia|].
    pose proof Hkr as Hkr'. destruct Hvr as (Hvrl & Hvrr & _ & Hbal), Hkr as (Hkrl & Hkrr & _), Hr1 as (Eb1 & Hrl1 & Hrr1). cbn [ptr bal].
    rewrite (GetBalanceFactor_spec m1 a a hi b sb hb rl rr Eb1 Hrl1 Hrr1 Hbr) by lia. cbn [mbind option_bind].
    destruct (0 <? ht rl - ht rr).
    + destruct (RotateRightLeft_spec m1 c lo hi Hw l a s _ _ Ht1 Hp1 Hb Hkl Hkr') as (m2 & -> & H4). exists m2. split; [reflexivity|apply Haf; eassumption].
    + destruct (RotateLeft_spec m1 c lo hi Hw l a s _ _ Ht1 Hp1 Hb Hkl Hkr') as (m2 & -> & H4). exists m2. split; [reflexivity|apply Haf; eassumption].
Qed.
End Step.

(** ** Climbing to the root *)

Lemma fuel_enough (m : store) up lo hi t : rep m up t -> bst lo hi t -> (length (addrs t) <= base.size m)%nat.
Proof.
  intros Hr Hb. rewrite <- size_dom. rewrite <- (size_list_to_set (C := gset Z)) by (by eapply bst_NoDup).
  apply subseteq_size. intros x Hx. apply elem_of_list_to_set in Hx. apply elem_of_dom. by eapply rep_in.
Qed.

(** The parent read after a step is the next node of the path. *)
Lemma replaced_parent m m' c t t' : replaced m m' c t t' -> t' <> Leaf -> exists n, m' !! ptr t' = Some n /\ parent n = top c.
Proof. intros [Ht _ _] Hn. destruct t' as [|l a s h r]; [done|]. destruct Ht as (E & _). eauto. Qed.

Lemma fill_rep m f c t : rep m (faddr f) t -> rep_path m (f :: c) (ptr t) -> rep m (top c) (fill f t) /\ rep_path m c (faddr f).
Proof. intros Ht [Hf Hp]. split; [|done]. destruct f as [a s h r|l a s h]; cbn in *; tauto. Qed.

Lemma top_cons_pos f c lo hi : within 0 LIMIT (f :: c) lo hi -> (top (f :: c) =? 0) = false.
Proof.
  intros Hw. destruct (within_cons _ _ _ _ _ _ Hw) as (lo' & hi' & Hc & Hf & _). pose proof (within_range _ _ _ _ _ Hc). cbn. lia.
Qed.

(** What a loop to the root establishes. *)
Definition climbed (m m' : store) (c : list frame) (t t' : tree) : Prop :=
  rep m' 0 t' /\ forall x, x ∉ addrs (plug c t) -> x <> 0 -> m' !! x = m !! x.

Lemma climbed_step m m1 m2 f c t t1 t' :
  replaced m m1 c (fill f t) t1 -> addrs t1 = addrs (fill f t) -> climbed m1 m2 c t1 t' -> climbed m m2 (f :: c) t t'.
Proof.
  intros [_ _ Hf] Ea [Hr Hx]. split; [done|]. cbn [plug]. intros x Hi H0. rewrite elem_addrs_plug in Hi.
  rewrite Hx by (rewrite ?elem_addrs_plug, ?Ea; tauto). apply Hf; [tauto|]. intros ->.
  destruct c as [|g c]; [done|]. apply Hi. right. by left.
Qed.

Lemma insert_up_spec n c : forall fuel m lo hi k t curr,
  (length c <= fuel)%nat -> rep m (top c) t -> rep_path m c (ptr t) -> within 0 LIMIT c lo hi -> bst lo hi t -> lo < n < hi ->
  balanced_path c k -> grown n k t -> (c = [] -> curr = ptr t) ->
  exists m', insert_up fuel m n curr (top c) = Some (m', ptr (climb n c t)) /\ climbed m m' c t (climb n c t).
Proof.
  induction c as [|f c IH]; intros fuel m lo hi k t curr Hfuel Hr Hp Hw Hb Hn Hbp Hg Hcurr.
  { exists m. rewrite (Hcurr eq_refl). split; [by destruct fuel|done]. }
  destruct fuel as [|fuel]; [cbn in Hfuel; lia|]. cbn [insert_up]. rewrite (top_cons_pos f c lo hi Hw).
  destruct (within_cons _ _ _ _ _ _ Hw) as (lo' & hi' & Hw' & _ & Hfill & H1 & H2).
  destruct (fill_rep m f c t Hr Hp) as [Hrf Hpf]. pose proof (Hfill t Hb) as Hbf.
  pose proof (within_range _ _ _ _ _ Hw). pose proof (reb_grown n _ _ f c lo hi k t Hw Hn ltac:(lia) Hbp Hg) as Hg'.
  pose proof Hbp as (Hs & Hbal & Hbp'). pose proof Hg as [Hv Hk].
  assert (exists m1, Rebalance m (faddr f) n = Some (m1, ptr (reb n (fill f t))) /\ replaced m m1 c (fill f t) (reb n (fill f t))) as (m1 & E1 & H3).
  { destruct f as [a s h r|l a s h]; cbn [fill sibling] in *; apply Rebalance_spec with lo' hi'; auto using avl_hok; lia. }
  cbn [top]. rewrite E1. cbn [mbind option_bind]. destruct (reb_keeps n (fill f t)) as (Ebl & Hbst & Hne).
  assert (Hne' : reb n (fill f t) <> Leaf) by (apply Hne; by destruct f).
  destruct (replaced_parent _ _ _ _ _ H3 Hne') as (nd & End & Epar). rewrite End. cbn [mbind option_bind climb]. rewrite Epar.
  destruct (IH fuel m1 lo' hi' (Z.max k (ht (sibling f)) + 1) (reb n (fill f t)) (ptr (reb n (fill f t)))) as (m2 & E2 & H4);
    [cbn in Hfuel; lia|apply H3|apply H3|done|by apply Hbst|lia|done|done|done|].
  exists m2. split; [done|]. eapply climbed_step; [exact H3|by apply addrs_blocks|exact H4].
Qed.

Lemma delete_up_spec c : forall fuel m lo hi k t subroot,
  (length c <= fuel)%nat -> rep m (top c) t -> rep_path m c (ptr t) -> within 0 LIMIT c lo hi -> bst lo hi t ->
  balanced_path c k -> shrunk k t -> (c = [] -> subroot = ptr t) ->
  exists m', delete_up fuel m subroot (top c) = Some (m', ptr (climbd c t)) /\ climbed m m' c t (climbd c t).
Proof.
  induction c as [|f c IH]; intros fuel m lo hi k t subroot Hfuel Hr Hp Hw Hb Hbp Hg Hsub.
  { exists m. rewrite (Hsub eq_refl). split; [by destruct fuel|done]. }
  destruct fuel as [|fuel]; [cbn in Hfuel; lia|]. cbn [delete_up]. rewrite (top_cons_pos f c lo hi Hw).
  destruct (within_cons _ _ _ _ _ _ Hw) as (lo' & hi' & Hw' & _ & Hfill & H1 & H2).
  destruct (fill_rep m f c t Hr Hp) as [Hrf Hpf]. pose proof (Hfill t Hb) as Hbf.
  pose proof (rebd_shrunk f c k t Hbp Hg) as Hg'. pose proof Hbp as (Hs & Hbal & Hbp'). pose proof Hg as [Hv Hk].
  assert (exists m1, rebalance_step m (faddr f) = Some (m1, ptr (rebd (fill f t))) /\ replaced m m1 c (fill f t) (rebd (fill f t))) as (m1 & E1 & H3).
  { destruct f as [a s h r|l a s h]; cbn [fill sibling] in *; apply rebalance_step_spec with lo' hi'; auto using avl_hok; lia. }
  cbn [top]. rewrite E1. cbn [mbind option_bind]. destruct (rebd_keeps (fill f t)) as (Ebl & Hbst & Hne).
  assert (Hne' : rebd (fill f t) <> Leaf) by (apply Hne; by destruct f).
  destruct (replaced_parent _ _ _ _ _ H3 Hne') as (nd & End & Epar). rewrite End. cbn [mbind option_bind climbd]. rewrite Epar.
  destruct (IH fuel m1 lo' hi' (Z.max k (ht (sibling f)) + 1) (rebd (fill f t)) (ptr (rebd (fill f t)))) as (m2 & E2 & H4);
    [cbn in Hfuel; lia|apply H3|apply H3|done|by apply Hbst|done|done|done|].
  exists m2. split; [done|]. eapply climbed_step; [exact H3|by apply addrs_blocks|exact H4].
Qed.

(** ** Insertion *)

Lemma descend_spec m n t : forall up lo hi fuel prev,
  rep m up t -> bst lo hi t -> 0 <= lo -> lo < n < hi -> (length (addrs t) <= fuel)%nat ->
  if decide (n ∈ addrs t) then descend fuel m n prev (ptr t) = Some n
  else exists c lo' hi', t = plug c Leaf /\ within lo hi c lo' hi' /\ lo' < n < hi' /\
    descend fuel m n prev (ptr t) = Some (match c with [] => prev | f :: _ => faddr f end).
Proof.
  induction t as [|l IHl a s h r IHr]; intros up lo hi fuel prev Hr Hb H0 Hn Hfuel.
  { rewrite decide_False by apply not_elem_of_nil. exists [], lo, hi. split; [done|]. split; [done|]. split; [done|]. by destruct fuel. }
  destruct Hr as (E & Hl & Hr). pose proof Hb as (Ha & Hbl & Hbr). rewrite addrs_Br, length_app in Hfuel. cbn [length] in Hfuel.
  destruct fuel as [|fuel]; [lia|]. cbn [descend ptr]. rewrite (proj2 (Z.eqb_neq a 0)), E by lia. cbn [mbind option_bind left right].
  destruct (Z.ltb_spec n a) as [Hlt|Hge]; [|destruct (Z.ltb_spec a n) as [Hgt|Heq]].
  - specialize (IHl a lo a fuel a Hl Hbl H0 ltac:(lia) ltac:(lia)). destruct (decide (n ∈ addrs l)) as [Hi|Hi].
    + rewrite decide_True by (apply elem_addrs_Br; auto). done.
    + rewrite decide_False. 2:{ rewrite elem_addrs_Br. intros [->|[?|Hx]]; [lia|done|]. out_of Hbr Hx. lia. }
      destruct IHl as (c & lo' & hi' & -> & Hw & Hn' & ->). exists (c ++ [FL a s h r]), lo', hi'. rewrite plug_app.
      split; [done|]. split; [apply (within_app _ _ [FL a s h r] lo a); [|done]; split; [done|by exists hi]|].
      split; [done|]. by destruct c.
  - specialize (IHr a a hi fuel a Hr Hbr ltac:(lia) ltac:(lia) ltac:(lia)). destruct (decide (n ∈ addrs r)) as [Hi|Hi].
    + rewrite decide_True by (apply elem_addrs_Br; auto). done.
    + rewrite decide_False. 2:{ rewrite elem_addrs_Br. intros [->|[Hx|?]]; [lia| |done]. out_of Hbl Hx. lia. }
      destruct IHr as (c & lo' & hi' & -> & Hw & Hn' & ->). exists (c ++ [FR l a s h]), lo', hi'. rewrite plug_app.
      split; [done|]. split; [apply (within_app _ _ [FR l a s h] a hi); [|done]; split; [done|by exists lo]|].
      split; [done|]. by destruct c.
  - rewrite decide_True; [done|]. apply elem_addrs_Br. left. lia.
Qed.

(** A heap tree of the store: represented, ordered and balanced. *)
Record holds (m : store) (t : tree) : Prop := {
  holds_rep : rep m 0 t;
  holds_bst : bst 0 LIMIT t;
  holds_avl : avl t
}.

Definition untouched (m m' : store) (xs : list Z) : Prop := forall x, x ∉ xs -> x <> 0 -> m' !! x = m !! x.

Lemma insert_link m n prev lo hi c :
  rep_path m c 0 -> within 0 LIMIT c lo hi -> lo < n < hi -> c <> [] -> prev = top c ->
  exists m', assign m prev (if n <? prev then set_left n else set_right n) = Some m' /\ rep_path m' c n /\ (forall x, x <> prev -> m' !! x = m !! x).
Proof.
  intros Hp Hw Hn Hc ->. destruct (relink_spec m c lo hi 0 n n Hp Hw Hn) as (m' & E & H). exists m'. split; [|done].
  unfold relink in E. destruct c as [|f c]; [done|]. rewrite (top_cons_pos f c lo hi Hw) in E. by destruct (n <? top (f :: c)).
Qed.

Lemma Insert_spec m t n nd :
  holds m t -> 0 < n < LIMIT -> m !! n = Some nd ->
  exists m' t', Insert m (ptr t) n = Some (m', ptr t') /\ holds m' t' /\
    if decide (n ∈ addrs t) then m' = m /\ t' = t
    else blocks t' ≡ₚ (n, size nd) :: blocks t /\ untouched m m' (n :: addrs t).
Proof.
  intros [Hr Hb Hv] Hn E. unfold Insert. rewrite E. cbn [mbind option_bind].
  pose proof (ptr_zero _ _ _ Hb ltac:(lia)) as Hz. destruct (decide (t = Leaf)) as [->|Hne].
  { rewrite Hz. eexists _, (Br Leaf n (size nd) 1 Leaf). split; [reflexivity|].
    split; [split; [cbn; by rewrite lookup_insert_eq|done|done]|]. rewrite decide_False by apply not_elem_of_nil.
    split; [done|]. intros x Hx _. apply lookup_insert_ne. intros ->. apply Hx. by left. }
  replace (ptr t =? 0) with false by (by rewrite Hz; destruct t).
  pose proof (fuel_enough m 0 0 LIMIT t Hr Hb) as Hfuel.
  pose proof (descend_spec m n t 0 0 LIMIT (base.size m) (ptr t) Hr Hb ltac:(lia) Hn Hfuel) as Hd.
  destruct (decide (n ∈ addrs t)) as [Hi|Hi].
  { rewrite Hd. cbn [mbind option_bind]. rewrite Z.eqb_refl. by exists m, t. }
  destruct Hd as (c & lo & hi & -> & Hw & Hlo & ->). cbn [mbind option_bind].
  destruct c as [|f c]; [done|]. set (path := f :: c) in *. change (faddr f) with (top path).
  pose proof (within_range _ _ _ _ _ Hw) as Hlim. rewrite elem_addrs_plug in Hi.
  assert (Htop : top path <> n) by (intros <-; apply Hi; right; by left).
  rewrite (proj2 (Z.eqb_neq _ _) Htop). apply rep_plug in Hr as [Hp _].
  set (m1 := <[n := _]> m).
  destruct (insert_link m1 n (top path) lo hi path) as (m2 & E2 & Hp2 & Hout2); try done.
  { apply (rep_path_agree m); [done|]. intros x Hx. apply lookup_insert_ne. intros <-. tauto. }
  rewrite E2. cbn [mbind option_bind]. set (new := Br Leaf n (size nd) 1 Leaf).
  apply (avl_plug _ []) in Hv as [_ Hbp]; [|done]. rewrite app_nil_r in Hbp.
  assert (En2 : m2 !! n = Some {| size := size nd; left := 0; right := 0; parent := top path; height := 1 |}).
  { rewrite Hout2 by done. unfold m1. by rewrite lookup_insert_eq. }
  destruct (insert_up_spec n path (base.size m2) m2 lo hi 0 new 0) as (m3 & E3 & Hr3 & Hx3); try done.
  { pose proof (fuel_enough m2 0 0 LIMIT (plug path new)) as Hf. pose proof (length_plug path new).
    assert (length path <= base.size m2)%nat; [|done]. etransitivity; [|apply Hf]; [lia| |by apply (within_bst 0 LIMIT path lo hi)].
    apply rep_plug. by split. }
  { split; [by repeat split|]. right. split; [done|by left]. }
  exists m3, (climb n path new). split; [done|]. split; [split; [done| |]|split].
  - by apply (climb_bst n 0 LIMIT path lo hi new).
  - apply (climb_avl n 0 LIMIT path lo hi 0); try done; [lia|]. split; [by repeat split|]. right. split; [done|by left].
  - rewrite climb_blocks. destruct (blocks_plug path) as (pre & post & Eb). rewrite !Eb. cbn. by rewrite Permutation_middle.
  - intros x Hx H0. rewrite Hx3; [|intros Hi'; apply Hx|done].
    + rewrite Hout2; [unfold m1; apply lookup_insert_ne|]; intros ->; apply Hx; [by left|].
      right. apply elem_addrs_plug. right. by left.
    + apply elem_of_cons. apply elem_addrs_plug in Hi' as [Hi'|Hi']; [left|right; apply elem_addrs_plug; by right].
      unfold addrs in Hi'. cbn in Hi'. by apply list_elem_of_singleton in Hi'.
Qed.

(** ** Deletion *)

(** The removed node [a] with its subtree [Br l a s h r] at the end of [c]. *)
Section Removal.
Context (m : store) (c : list frame) (lo hi : Z) (Hw : within 0 LIMIT c lo hi).
Context (l r : tree) (a s h root : Z).
Context (Hrep : rep m (top c) (Br l a s h r)) (Hp : rep_path m c a) (Hb : bst lo hi (Br l a s h r)).
Context (Hv : avl (Br l a s h r)) (Hbp : balanced_path c h).

(** What the removal hands to rebalancing: the tree [t] at the end of [p]. *)
Record removed (m' : store) (root' : Z) (p : list frame) (t : tree) : Prop := {
  rm_rep : rep m' (top p) t;
  rm_path : rep_path m' p (ptr t);
  rm_root : p = [] -> root' = ptr t;
  rm_order : exists lo' hi', within 0 LIMIT p lo' hi' /\ bst lo' hi' t;
  rm_balance : exists k, balanced_path p k /\ shrunk k t;
  rm_blocks : (a, s) :: blocks (plug p t) ≡ₚ blocks (plug c (Br l a s h r));
  rm_frame : untouched m m' (addrs (plug c (Br l a s h r)))
}.

Lemma replace_child_spec m1 q child :
  rep_path m1 c q ->
  exists m2, replace_child m1 root (top c) a child = Some (m2, if decide (c = []) then child else root) /\
    rep_path m2 c child /\ (forall x, x <> top c -> m2 !! x = m1 !! x).
Proof.
  intros Hq. pose proof Hb as (Ha & _). unfold replace_child. destruct (relink_spec m1 c lo hi q a child Hq Hw Ha) as (m2 & E & H).
  exists m2. split; [|done]. unfold relink in E. destruct c as [|f c']; [by injection E as <-|].
  pose proof (top_cons_pos f c' lo hi Hw) as Ht. rewrite Ht in *. rewrite decide_False by done.
  assert (a <> top (f :: c')) by (by apply top_outside with (lo := lo) (hi := hi)).
  replace (top (f :: c') <? a) with (negb (a <? top (f :: c'))) by lia.
  destruct (a <? top (f :: c')); cbn [negb]; by rewrite E.
Qed.

Lemma addrs_hole x : x ∈ addrs (Br l a s h r) -> x ∈ addrs (plug c (Br l a s h r)).
Proof. intros. apply elem_addrs_plug. auto. Qed.

Lemma top_hole : c <> [] -> top c ∈ addrs (plug c (Br l a s h r)).
Proof. intros Hc. apply elem_addrs_plug. right. destruct c; [done|]. by left. Qed.

(** At most one child, [t]: it takes the place of the node. *)
Lemma remove_splice t :
  (l = Leaf /\ t = r) \/ (r = Leaf /\ t = l) ->
  exists m1 m2, reparent m (ptr t) (top c) = Some m1 /\
    replace_child m1 root (top c) a (ptr t) = Some (m2, if decide (c = []) then ptr t else root) /\
    removed m2 (if decide (c = []) then ptr t else root) c t.
Proof.
  intros Ht. pose proof Hb as (Ha & Hbl & Hbr). pose proof Hrep as (Ea & Hl & Hr). pose proof Hv as (Hvl & Hvr & Eh & Hbal).
  pose proof (within_range _ _ _ _ _ Hw).
  assert (rep m a t /\ bst lo hi t /\ avl t /\ ht t = h - 1 /\ blocks (Br l a s h r) ≡ₚ (a, s) :: blocks t /\ (forall x, x ∈ addrs t -> x ∈ addrs (Br l a s h r)))
    as (Hrt & Hbt & Hvt & Hht & Hperm & Hsub).
  { pose proof (avl_nonneg _ Hvl). pose proof (avl_nonneg _ Hvr). destruct Ht as [[-> ->]|[-> ->]]; cbn [ht] in *.
    - repeat split; try done; [apply (bst_weaken a hi); done || lia|change (ht Leaf) with 0 in *; lia|intros x ?; apply elem_addrs_Br; auto].
    - repeat split; try done; [apply (bst_weaken lo a); done || lia|change (ht Leaf) with 0 in *; lia|cbn; by rewrite Permutation_app_comm|intros x ?; apply elem_addrs_Br; auto]. }
  destruct (reparent_spec m a (top c) lo hi t Hrt Hbt ltac:(lia)) as (m1 & E1 & Hr1 & Hout1).
  destruct (replace_child_spec m1 a (ptr t)) as (m2 & E2 & Hp2 & Hout2).
  { apply (path_outside m c lo hi Hw); [done|]. intros x Hx. apply Hout1. intros Hi. out_of Hbt Hi. lia. }
  exists m1, m2. split; [done|]. split; [done|]. split; [|done| |by exists lo, hi|exists h; split; [done|split; [done|lia]]| |].
  - eapply rep_agree; [exact Hr1|]. intros x Hx. apply Hout2, (top_outside c lo hi Hw). by apply (bst_in lo hi t).
  - intros Hc. by rewrite decide_True.
  - destruct (blocks_plug c) as (pre & post & Eb). rewrite !Eb, Hperm. cbn. by rewrite Permutation_middle.
  - intros x Hx H0. rewrite Hout2, Hout1; [done| |].
    + intros Hi. by apply Hx, addrs_hole, Hsub.
    + intros ->. destruct (decide (c = [])) as [->|Hc]; [done|]. by apply Hx, top_hole.
Qed.

Lemma leftmost_spec m1 cs b sb hb sr : leftward cs -> forall up lo1 hi1 fuel succ,
  rep m1 up (plug cs (Br Leaf b sb hb sr)) -> bst lo1 hi1 (plug cs (Br Leaf b sb hb sr)) -> 0 <= lo1 -> (length cs < fuel)%nat ->
  leftmost fuel m1 succ (ptr (plug cs (Br Leaf b sb hb sr))) = Some b.
Proof.
  induction cs as [|f cs IH] using rev_ind; intros Hl up lo1 hi1 fuel succ Hr1 Hb1 H0 Hfuel.
  - destruct fuel as [|fuel]; [cbn in Hfuel; lia|]. destruct Hr1 as (E & _), Hb1 as (Hb1 & _). cbn [plug ptr leftmost].
    rewrite (proj2 (Z.eqb_neq b 0)), E by lia. cbn [mbind option_bind left ptr]. by destruct fuel.
  - rewrite length_app in Hfuel. cbn [length] in Hfuel. destruct fuel as [|fuel]; [lia|].
    apply Forall_app in Hl as [Hl Hf]. apply Forall_cons in Hf as [Hf _]. destruct f as [x sx hx rx|]; [|done].
    rewrite plug_app in *. cbn [plug fill ptr leftmost] in *. destruct Hr1 as (E & Hr1 & _), Hb1 as (Hx & Hb1 & _).
    rewrite (proj2 (Z.eqb_neq x 0)), E by lia. cbn [mbind option_bind left]. apply (IH Hl x lo1 x); try done. lia.
Qed.

(** The object of the successor, with the children and the height it gets. *)
Lemma UpdateHeight_some m1 p nd hl hr :
  m1 !! p = Some nd -> GetHeight m1 (left nd) = Some hl -> GetHeight m1 (right nd) = Some hr ->
  exists hh, UpdateHeight m1 p = Some (<[p := set_height hh nd]> m1).
Proof. intros E E1 E2. unfold UpdateHeight. rewrite E. cbn [mbind option_bind]. rewrite E1, E2. cbn [mbind option_bind]. rewrite (assign_some _ _ _ _ E). eauto. Qed.

Section Successor.
Context (cs : list frame) (b sb hb : Z) (sr : tree).
Context (Hcs : leftward cs) (Er : r = plug cs (Br Leaf b sb hb sr)).

Lemma successor_bounds : exists hi1, within a hi cs a hi1 /\ a < b < hi1 /\ hi1 <= hi /\ bst b hi1 sr /\ within b hi cs b hi1 /\ bst b hi (plug cs sr).
Proof.
  pose proof Hb as (Ha & _ & Hbr). rewrite Er in Hbr.
  assert (exists lo1 hi1, within a hi cs lo1 hi1 /\ bst lo1 hi1 (Br Leaf b sb hb sr)) as (lo1 & hi1 & Hw1 & Hb1).
  { revert Hbr. generalize (Br Leaf b sb hb sr). clear Er. revert Hcs. generalize hi. 
    induction cs as [|f cs' IH] using rev_ind; intros hi0 Hl t Ht; [by exists a, hi0|].
    apply Forall_app in Hl as [Hl Hf]. apply Forall_cons in Hf as [Hf _]. destruct f as [x sx hx rx|]; [|done].
    rewrite plug_app in Ht. cbn in Ht. destruct Ht as (Hx & Ht & Hrx). destruct (IH x Hl t Ht) as (lo1 & hi1 & Hw1 & Ht1).
    exists lo1, hi1. split; [|done]. apply (within_app _ _ [FL x sx hx rx] a x); [|done]. split; [done|]. by exists hi0. }
  destruct (leftward_within a hi cs Hcs lo1 hi1 Hw1) as [-> Hmove]. destruct Hb1 as (Hb1 & _ & Hsr).
  pose proof (within_range _ _ _ _ _ Hw1). pose proof (Hmove b ltac:(lia)) as Hw2.
  exists hi1. repeat split; try done; try lia. by apply (within_bst b hi cs b hi1).
Qed.

Lemma detach_spec :
  exists m1 sbr, detach_successor m a (ptr r) b = Some (m1, top (cs ++ [FR l b sb hb])) /\
    m1 !! b = Some {| size := sb; left := 0; right := ptr (plug cs sr); parent := sbr; height := hb |} /\
    rep m1 b (plug cs sr) /\ (forall x, x ∉ addrs r -> m1 !! x = m !! x).
Proof.
  destruct successor_bounds as (hi1 & Hw1 & Hb1 & Hhi1 & Hsr & Hw2 & Hbnew). pose proof (within_range _ _ _ _ _ Hw) as Hlim.
  pose proof Hrep as (Ea & Hl & Hr). pose proof Hb as (Ha & Hbl & Hbr).
  assert (Hfull : rep m 0 (plug (cs ++ FR l a s h :: c) (Br Leaf b sb hb sr))).
  { rewrite plug_app. cbn [plug fill]. rewrite <- Er. apply rep_plug. by split. }
  apply rep_plug in Hfull as [Hpath (Eb & _ & Hsr0)]. unfold detach_successor. rewrite Eb. cbn [mbind option_bind parent right].
  destruct cs as [|f cs'] eqn:Ecs.
  { cbn [top app faddr]. rewrite Z.eqb_refl. cbn [negb]. exists m, a. cbn [plug ptr]. done. }
  rewrite <- Ecs in *. assert (Hwf : within 0 LIMIT (cs ++ FR l a s h :: c) a hi1).
  { apply (within_app _ _ _ a hi); [|done]. split; [done|]. by exists lo. }
  set (p0 := top (cs ++ FR l a s h :: c)) in *. assert (Ep0 : top (cs ++ [FR l b sb hb]) = p0) by (unfold p0; by rewrite Ecs).
  assert (Hp0 : a < p0 /\ b < p0 /\ p0 ∈ addrs r).
  { unfold p0. rewrite Ecs in *. apply Forall_cons in Hcs as [Hf _]. destruct f as [x sx hx rx|]; [|done]. cbn in Hw1 |- *.
    destruct Hw1 as (-> & _). split; [lia|]. split; [lia|]. rewrite Er. apply elem_addrs_plug. right. by left. }
  rewrite (proj2 (Z.eqb_neq p0 a)) by lia. cbn [negb].
  destruct (relink_spec m (cs ++ FR l a s h :: c) a hi1 b b (ptr sr) Hpath Hwf ltac:(lia)) as (m1 & E1 & Hp1 & Hout1).
  fold p0 in E1, Hout1. unfold relink in E1. rewrite (proj2 (Z.eqb_neq p0 0)), (proj2 (Z.ltb_lt b p0)) in E1 by lia.
  rewrite E1. cbn [mbind option_bind].
  destruct (reparent_spec m1 b p0 b hi1 sr) as (m2 & E2 & Hr2 & Hout2); [|done|lia|].
  { eapply rep_agree; [exact Hsr0|]. intros x Hx. apply Hout1. intros ->. out_of Hsr Hx.
    pose proof (within_top _ _ _ _ _ Hwf ltac:(by rewrite Ecs)). fold p0 in H0. lia. }
  unfold reparent in E2. rewrite E2. cbn [mbind option_bind].
  assert (Eb2 : m2 !! b = Some {| size := sb; left := 0; right := ptr sr; parent := p0; height := hb |}).
  { rewrite Hout2 by (intros Hx; out_of Hsr Hx; lia). by rewrite Hout1 by lia. }
  rewrite (assign_some _ _ _ _ Eb2). cbn [mbind option_bind]. set (m3 := <[b := _]> m2).
  (* the right subtree without the successor *)
  assert (Hnew : rep m2 a (plug cs sr)).
  { assert (Hall : rep m2 0 (plug (cs ++ FR l a s h :: c) sr)).
    { apply rep_plug. split; [|done]. apply (rep_path_agree m1); [done|]. intros x Hx. apply Hout2. intros Hi. out_of Hsr Hi.
      pose proof (within_outside _ _ _ _ _ _ Hwf Hx). lia. }
    rewrite plug_app in Hall. apply rep_plug in Hall as [_ Hall]. apply Hall. }
  assert (Eptr : ptr r = ptr (plug cs sr)) by (rewrite Er; apply plug_ptr; by rewrite Ecs).
  destruct (reparent_spec m3 a b b hi (plug cs sr)) as (m4 & E4 & Hr4 & Hout4); [|done|lia|].
  { eapply rep_agree; [exact Hnew|]. intros x Hx. out_of Hbnew Hx. unfold m3. rewrite lookup_insert_ne by lia. done. }
  unfold reparent in E4. rewrite (ptr_zero b hi) in E4 by (done || lia).
  replace (match plug cs sr with Leaf => true | _ => false end) with false in E4 by (destruct (plug cs sr) eqn:Epl; [apply plug_Leaf in Epl as [Epl _]; by rewrite Ecs in Epl|done]).
  rewrite Eptr, E4. cbn [mbind option_bind]. rewrite Ep0. exists m4, p0. split; [done|]. split; [|split; [done|]].
  - rewrite Hout4 by (intros Hx; out_of Hbnew Hx; lia). unfold m3. by rewrite lookup_insert_eq, Eptr.
  - intros x Hx. rewrite Er, elem_addrs_plug, elem_addrs_Br in Hx.
    rewrite Hout4 by (rewrite elem_addrs_plug; tauto). unfold m3. rewrite lookup_insert_ne by (intros <-; tauto).
    rewrite Hout2 by tauto. apply Hout1. intros ->. destruct Hp0 as (_ & _ & Hp0). rewrite Er, elem_addrs_plug, elem_addrs_Br in Hp0. tauto.
Qed.

(** The object of the successor is found, linked to the left subtree and to the
    parent, and given a height that rebalancing will recompute. *)
Lemma adopt_spec m1 sbr :
  m1 !! b = Some {| size := sb; left := 0; right := ptr (plug cs sr); parent := sbr; height := hb |} ->
  rep m1 b (plug cs sr) -> (forall x, x ∉ addrs r -> m1 !! x = m !! x) -> l <> Leaf ->
  exists m2 hh root', (m ← assign m1 b (set_left (ptr l));
    m ← assign m (ptr l) (set_parent b);
    m ← assign m b (set_parent (top c));
    m ← UpdateHeight m b;
    (if top c =? 0 then Some (m, b)
     else m ← assign m (top c) (if b <? top c then set_left b else set_right b); Some (m, root))) = Some (m2, root') /\
    rep m2 (top c) (Br l b sb hh (plug cs sr)) /\ rep_path m2 c b /\ (c = [] -> root' = b) /\
    untouched m m2 (addrs (plug c (Br l a s h r))).
Proof.
  intros Eb Hnew Hout Hl0. destruct successor_bounds as (hi1 & Hw1 & Hb1 & Hhi1 & Hsr & Hw2 & Hbnew).
  pose proof (within_range _ _ _ _ _ Hw) as Hlim. pose proof Hrep as (Ea & Hl & Hr). pose proof Hb as (Ha & Hbl & Hbr).
  rewrite (assign_some _ _ _ _ Eb). cbn [mbind option_bind]. set (m2 := <[b := _]> m1).
  destruct (reparent_spec m2 a b lo a l) as (m3 & E3 & Hl3 & Hout3); [|done|lia|].
  { eapply rep_agree; [exact Hl|]. intros x Hx. out_of Hbl Hx. unfold m2. rewrite lookup_insert_ne by lia.
    apply Hout. intros Hi. out_of Hbr Hi. lia. }
  unfold reparent in E3. rewrite (ptr_zero lo a) in E3 by (done || lia). replace (match l with Leaf => true | _ => false end) with false in E3 by (by destruct l).
  rewrite E3. cbn [mbind option_bind].
  assert (Eb3 : m3 !! b = Some {| size := sb; left := ptr l; right := ptr (plug cs sr); parent := sbr; height := hb |}).
  { rewrite Hout3 by (intros Hi; out_of Hbl Hi; lia). unfold m2. by rewrite lookup_insert_eq. }
  rewrite (assign_some _ _ _ _ Eb3). cbn [mbind option_bind]. set (m4 := <[b := _]> m3).
  assert (Hl4 : rep m4 b l) by (eapply rep_agree; [exact Hl3|]; intros x Hx; out_of Hbl Hx; unfold m4; apply lookup_insert_ne; lia).
  assert (Hr4 : rep m4 b (plug cs sr)).
  { eapply rep_agree; [exact Hnew|]. intros x Hx. out_of Hbnew Hx. unfold m4. rewrite lookup_insert_ne by lia.
    rewrite Hout3 by (intros Hi; out_of Hbl Hi; lia). unfold m2. by rewrite lookup_insert_ne by lia. }
  destruct (UpdateHeight_some m4 b {| size := sb; left := ptr l; right := ptr (plug cs sr); parent := top c; height := hb |} (ht l) (ht (plug cs sr))) as (hh & E5).
  { unfold m4. by rewrite lookup_insert_eq. } { by apply (GetHeight_rep m4 b lo a); [| |lia]. } { by apply (GetHeight_rep m4 b b hi); [| |lia]. }
  rewrite E5. cbn [mbind option_bind]. set (m5 := <[b := _]> m4).
  assert (Hout5 : forall x, x <> b -> x ∉ addrs l -> m5 !! x = m1 !! x).
  { intros x H1 H2. unfold m5, m4. rewrite !lookup_insert_ne by done. rewrite Hout3 by done. unfold m2. by rewrite lookup_insert_ne. }
  destruct (relink_spec m5 c lo hi a b b) as (m6 & E6 & Hp6 & Hout6); [|done|lia|].
  { apply (path_outside m c lo hi Hw); [done|]. intros x Hx. rewrite Hout5 by (try lia; intros Hi; out_of Hbl Hi; lia).
    apply Hout. intros Hi. out_of Hbr Hi. lia. }
  assert (Hin : forall x, lo < x < hi -> m6 !! x = m5 !! x) by (intros x Hx; apply Hout6, (top_outside c lo hi Hw); done).
  exists m6, hh, (if top c =? 0 then b else root). split; [|split; [|split; [done|split]]].
  - unfold relink in E6. destruct (top c =? 0); [by injection E6 as ->|]. by destruct (b <? top c); rewrite E6.
  - split; [|split].
    + rewrite Hin by lia. unfold m5. by rewrite lookup_insert_eq.
    + eapply rep_agree; [exact Hl4|]. intros x Hx. out_of Hbl Hx. rewrite Hin by lia. unfold m5. by rewrite lookup_insert_ne by lia.
    + eapply rep_agree; [exact Hr4|]. intros x Hx. out_of Hbnew Hx. rewrite Hin by lia. unfold m5. by rewrite lookup_insert_ne by lia.
  - intros ->. done.
  - intros x Hx H0. rewrite elem_addrs_plug, elem_addrs_Br in Hx.
    assert (b ∈ addrs r) by (rewrite Er; apply elem_addrs_plug; left; apply elem_addrs_Br; auto).
    assert (x <> top c) by (intros ->; destruct c as [|f c']; [done|]; apply Hx; right; by left).
    assert (x <> b) by (intros ->; tauto). rewrite Hout6, Hout5, Hout by tauto. done.
Qed.

Lemma remove_by_successor : l <> Leaf ->
  exists m2 root' hh, replace_by_successor m root a = Some (m2, root', top (cs ++ FR l b sb hh :: c)) /\
    removed m2 root' (cs ++ FR l b sb hh :: c) sr.
Proof.
  intros Hl0. destruct successor_bounds as (hi1 & Hw1 & Hb1 & Hhi1 & Hsr & Hw2 & Hbnew).
  pose proof (within_range _ _ _ _ _ Hw) as Hlim. pose proof Hrep as (Ea & Hl & Hr). pose proof Hb as (Ha & Hbl & Hbr).
  pose proof Hv as (Hvl & Hvr & Eh & Hbal).
  unfold replace_by_successor. rewrite Ea. cbn [mbind option_bind right left parent].
  assert (Efind : leftmost (base.size m) m (ptr r) (ptr r) = Some b).
  { pose proof (fuel_enough m a a hi r Hr Hbr) as Hfuel. rewrite Er in Hr, Hbr, Hfuel |- *.
    apply (leftmost_spec m cs b sb hb sr Hcs a a hi); try done; [lia|].
    pose proof (length_plug cs (Br Leaf b sb hb sr)) as Hlen. rewrite addrs_Br in Hlen. cbn [length app] in Hlen.
    change (addrs Leaf) with (@nil Z) in Hlen. cbn [length app] in Hlen. lia. }
  rewrite Efind. cbn [mbind option_bind].
  destruct detach_spec as (m1 & sbr & E1 & Eb1 & Hnew & Hout1). rewrite E1. cbn [mbind option_bind].
  destruct (adopt_spec m1 sbr Eb1 Hnew Hout1 Hl0) as (m2 & hh & root' & E2 & Hr2 & Hp2 & Hroot & Hout2).
  exists m2, root', hh.
  assert (Etop : top (cs ++ [FR l b sb hb]) = top (cs ++ FR l b sb hh :: c)) by (by destruct cs).
  split.
  { rewrite <- Etop. revert E2. destruct (assign m1 b (set_left (ptr l))) as [x1|]; [|done]. cbn [mbind option_bind].
    destruct (assign x1 (ptr l) (set_parent b)) as [x2|]; [|done]. cbn [mbind option_bind].
    destruct (assign x2 b (set_parent (top c))) as [x3|]; [|done]. cbn [mbind option_bind].
    destruct (UpdateHeight x3 b) as [x4|]; [|done]. cbn [mbind option_bind]. intros ->. done. }
  assert (Hall : rep m2 0 (plug (cs ++ FR l b sb hh :: c) sr)) by (rewrite plug_app; cbn [plug fill]; apply rep_plug; by split).
  apply rep_plug in Hall as [Hpath Hrep2].
  destruct (leftward_blocks cs Hcs) as (post & Ebl).
  split; [done|done|by destruct cs| | | |done].
  - exists b, hi1. split; [|done]. apply (within_app _ _ _ b hi); [|done]. split; [done|]. exists lo. split; [lia|].
    split; [|done]. apply (bst_weaken lo a); done || lia.
  - destruct (avl_plug cs (FR l a s h :: c) (Br Leaf b sb hb sr)) as [Hvb Hbpb]; [by rewrite <- Er| |].
    { rewrite <- Er. split; [done|]. cbn [sibling]. split; [lia|]. by rewrite Z.max_comm, <- Eh. }
    exists (ht (Br Leaf b sb hb sr)). split; [eapply balanced_siblings; [|exact Hbpb]; by rewrite !map_app|].
    destruct Hvb as (_ & Hvs & Ehb & _). split; [done|]. pose proof (avl_nonneg _ Hvs). change (ht Leaf) with 0 in Ehb. change (ht (Br Leaf b sb hb sr)) with hb. lia.
  - destruct (blocks_plug c) as (pre & post' & Ec). rewrite plug_app. cbn [plug fill]. rewrite !Ec, Er. cbn. rewrite !Ebl. cbn.
    rewrite <- !app_assoc. cbn. by rewrite (Permutation_middle (pre ++ blocks l) _ (a, s)), <- !app_assoc || solve_Permutation.
Qed.
End Successor.

Lemma unlink_spec : exists m1 root1 p t1, unlink m root a = Some (m1, root1, top p) /\ removed m1 root1 p t1.
Proof.
  pose proof Hrep as (Ea & Hl & Hr). pose proof Hb as (Ha & Hbl & Hbr). pose proof (within_range _ _ _ _ _ Hw).
  unfold unlink. rewrite Ea. cbn [mbind option_bind left right parent].
  rewrite (ptr_zero lo a l), (ptr_zero a hi r) by (done || lia).
  destruct (decide (r = Leaf)) as [Hre|Hre]; [|destruct (decide (l = Leaf)) as [Hle|Hle]].
  - destruct (remove_splice l ltac:(by right)) as (m1 & m2 & E1 & E2 & H3).
    exists m2, (if decide (c = []) then ptr l else root), c, l. split; [|done]. unfold reparent in E1.
    rewrite (ptr_zero lo a l) in E1 by (done || lia). rewrite Hre. destruct l; cbn [andb].
    + injection E1 as <-. cbn [ptr] in E2. by rewrite E2.
    + rewrite E1. cbn [mbind option_bind]. by rewrite E2.
  - destruct (remove_splice r ltac:(by left)) as (m1 & m2 & E1 & E2 & H3).
    exists m2, (if decide (c = []) then ptr r else root), c, r. split; [|done]. unfold reparent in E1.
    rewrite (ptr_zero a hi r) in E1 by (done || lia). rewrite Hle. destruct r; [done|]. cbn [andb].
    rewrite E1. cbn [mbind option_bind]. by rewrite E2.
  - destruct (leftmost_exists r Hre) as (cs & b & sb & hb & sr & Er & Hcs).
    destruct (remove_by_successor cs b sb hb sr Hcs Er Hle) as (m2 & root' & hh & E & H3).
    exists m2, root', (cs ++ FR l b sb hh :: c), sr. split; [|done].
    destruct l; [done|]. destruct r; [done|]. exact E.
Qed.
End Removal.

Lemma Delete_spec m t a :
  holds m t -> a ∈ addrs t ->
  exists m' t' s, Delete m (ptr t) a = Some (m', ptr t') /\ holds m' t' /\
    blocks t ≡ₚ (a, s) :: blocks t' /\ untouched m m' (addrs t).
Proof.
  intros [Hr Hb Hv] Ha. destruct (locate _ _ _ _ Hb Ha) as (c & l & s & h & r & lo & hi & -> & Hw & Hbt).
  pose proof (bst_in _ _ _ _ Hb Ha) as Hpos.
  destruct (avl_plug c [] (Br l a s h r) Hv I) as [Hva Hbp]. rewrite app_nil_r in Hbp. change (ht (Br l a s h r)) with h in Hbp.
  pose proof Hr as Hr'. apply rep_plug in Hr' as [Hp Hrep]. unfold Delete.
  rewrite (ptr_zero 0 LIMIT) by (done || lia). rewrite (proj2 (Z.eqb_neq a 0)) by lia.
  replace (match plug c (Br l a s h r) with Leaf => true | _ => false end) with false
    by (destruct (plug c (Br l a s h r)) eqn:E; [by apply plug_Leaf in E as [_ ?]|done]).
  cbn [orb]. set (root := ptr (plug c (Br l a s h r))).
  destruct (unlink_spec m c lo hi Hw l r a s h root Hrep Hp Hbt Hva Hbp) as (m1 & root1 & p & t1 & -> & [R1 R2 R3 (lo1 & hi1 & R4 & R5) (k & R6 & R7) R8 R9]).
  cbn [mbind option_bind]. destruct p as [|f p].
  - cbn [top Z.eqb plug] in *. rewrite (R3 eq_refl). destruct R7 as [R7 _]. destruct R4 as [-> ->].
    destruct t1 as [|l1 a1 s1 h1 r1]; [by exists m1, Leaf, s|].
    pose proof R5 as (Ha1 & _). cbn [ptr]. rewrite (proj2 (Z.eqb_neq a1 0)) by lia. pose proof R7 as (Hvl1 & Hvr1 & _ & Hbal1).
    destruct (Rebalance_spec m1 [] 0 LIMIT ltac:(done) l1 r1 a1 s1 h1 R1 R2 R5 (avl_hok _ Hvl1) (avl_hok _ Hvr1) ltac:(lia) a) as (m2 & E2 & [H1 _ H3]).
    rewrite (reb_avl a _ R7) in E2, H1. exists m2, (Br l1 a1 s1 h1 r1), s. split; [exact E2|]. split; [done|]. split; [done|].
    intros x Hx H0. rewrite H3, R9; try done. intros Hi. apply Hx. unfold addrs in *. rewrite <- R8. by right.
  - rewrite (top_cons_pos f p lo1 hi1 R4).
    assert (Hfuel : (length (f :: p) <= base.size m1)%nat).
    { pose proof (length_plug (f :: p) t1). etransitivity; [|apply (fuel_enough m1 0 0 LIMIT (plug (f :: p) t1))]; [lia| |].
      - apply rep_plug. by split.
      - by apply (within_bst 0 LIMIT (f :: p) lo1 hi1). }
    destruct (delete_up_spec (f :: p) (base.size m1) m1 lo1 hi1 k t1 0 Hfuel R1 R2 R4 R5 R6 R7 ltac:(done)) as (m2 & E2 & H1 & H3).
    exists m2, (climbd (f :: p) t1), s. split; [done|]. split; [split; [done| |]|split].
    + by apply (climbd_bst 0 LIMIT (f :: p) lo1 hi1).
    + by apply (climbd_avl (f :: p) k).
    + by rewrite climbd_blocks, R8.
    + intros x Hx H0. rewrite H3, R9; try done. intros Hi. apply Hx. unfold addrs in *. rewrite <- R8. by right.
Qed.
