(* ===== verification/HeapProps.v ===== *)
(** * Theorems on the kernel heap *)
From S2P Require Import Prelude Heap HeapTree HeapRep.

(** ** Sizes survive every change of the tree *)

Definition same_sizes (m m' : store) : Prop := forall x, (size <$> m' !! x) = (size <$> m !! x).

Lemma same_sizes_refl m : same_sizes m m.
Proof. done. Qed.

Lemma same_sizes_trans m m' m'' : same_sizes m m' -> same_sizes m' m'' -> same_sizes m m''.
Proof. intros H H' x. by rewrite H'. Qed.

Lemma assign_sizes m p f m' : (forall n, size (f n) = size n) -> assign m p f = Some m' -> same_sizes m m'.
Proof.
  unfold assign. intros Hf. destruct (m !! p) as [n|] eqn:E; [|done]. intros [= <-] x. destruct (decide (x = p)) as [->|].
  - rewrite lookup_insert_eq, E. cbn. by rewrite Hf.
  - by rewrite lookup_insert_ne.
Qed.

(** An operation on the tree is a sequence of such steps: [sizes] takes the
    sequence apart and composes what its steps keep. *)
Ltac sizes_step :=
  match goal with
  | H : Some _ = Some _ |- _ => injection H as ? ?; subst
  | H : Some _ = Some _ |- _ => injection H as ?; subst
  | H : None = Some _ |- _ => discriminate H
  | H : mbind _ ?x = Some _ |- _ =>
      let E := fresh "E" in destruct x eqn:E; cbn [mbind option_bind] in H; [|discriminate H]
  | H : (if ?b then _ else _) = Some _ |- _ => destruct b
  | H : (let '(_, _) := ?x in _) = Some _ |- _ => destruct x
  end.

Lemma UpdateHeight_sizes m p m' : UpdateHeight m p = Some m' -> same_sizes m m'.
Proof. unfold UpdateHeight. intros H. repeat sizes_step. by eapply assign_sizes; [|exact H]. Qed.

Ltac sizes_done := by (intros; repeat case_match).
Ltac sizes_from :=
  match goal with
  | H : assign _ _ _ = Some ?m |- same_sizes _ ?m => eapply same_sizes_trans; [|eapply assign_sizes; [|exact H]; sizes_done]
  | H : UpdateHeight _ _ = Some ?m |- same_sizes _ ?m => eapply same_sizes_trans; [|exact (UpdateHeight_sizes _ _ _ H)]
  | H : same_sizes _ ?m |- same_sizes _ ?m => eapply same_sizes_trans; [|exact H]
  | |- same_sizes ?m ?m => apply same_sizes_refl
  end.
Ltac sizes := repeat sizes_step; repeat sizes_from.

Lemma RotateLeft_sizes m p m' q : RotateLeft m p = Some (m', q) -> same_sizes m m'.
Proof. unfold RotateLeft, relink. intros H. cbv zeta in H. sizes. Qed.
Lemma RotateRight_sizes m p m' q : RotateRight m p = Some (m', q) -> same_sizes m m'.
Proof. unfold RotateRight, relink. intros H. cbv zeta in H. sizes. Qed.

(** The same for operations that return a store and a pointer. *)
Ltac sizes_from_op lem :=
  match goal with H : _ = Some (?m, _) |- same_sizes _ ?m => eapply same_sizes_trans; [|exact (lem _ _ _ _ H)] end.

Lemma RotateRightLeft_sizes m p m' q : RotateRightLeft m p = Some (m', q) -> same_sizes m m'.
Proof. unfold RotateRightLeft. intros H. repeat sizes_step. sizes_from_op RotateLeft_sizes. sizes_from. sizes_from_op RotateRight_sizes. sizes. Qed.
Lemma RotateLeftRight_sizes m p m' q : RotateLeftRight m p = Some (m', q) -> same_sizes m m'.
Proof. unfold RotateLeftRight. intros H. repeat sizes_step. sizes_from_op RotateRight_sizes. sizes_from. sizes_from_op RotateLeft_sizes. sizes. Qed.

Ltac sizes_rotation :=
  first [sizes_from_op RotateLeft_sizes|sizes_from_op RotateRight_sizes|sizes_from_op RotateRightLeft_sizes|sizes_from_op RotateLeftRight_sizes].

Lemma Rebalance_sizes m p n m' q : Rebalance m p n = Some (m', q) -> same_sizes m m'.
Proof. unfold Rebalance. intros H. repeat sizes_step; try sizes_rotation; sizes. Qed.
Lemma rebalance_step_sizes m p m' q : rebalance_step m p = Some (m', q) -> same_sizes m m'.
Proof. unfold rebalance_step. intros H. repeat sizes_step; try sizes_rotation; sizes. Qed.

Lemma insert_up_sizes fuel : forall m n curr prev m' q, insert_up fuel m n curr prev = Some (m', q) -> same_sizes m m'.
Proof.
  induction fuel as [|fuel IH]; intros m n curr prev m' q; cbn [insert_up]; destruct (prev =? 0); try (intros [= -> _]; apply same_sizes_refl).
  intros H. repeat sizes_step. apply IH in H. sizes_from. by eapply Rebalance_sizes.
Qed.
Lemma delete_up_sizes fuel : forall m curr prev m' q, delete_up fuel m curr prev = Some (m', q) -> same_sizes m m'.
Proof.
  induction fuel as [|fuel IH]; intros m curr prev m' q; cbn [delete_up]; destruct (prev =? 0); try (intros [= -> _]; apply same_sizes_refl).
  intros H. repeat sizes_step. apply IH in H. sizes_from. by eapply rebalance_step_sizes.
Qed.

Lemma same_sizes_insert m n nd nd' : m !! n = Some nd -> size nd' = size nd -> same_sizes m (<[n := nd']> m).
Proof.
  intros E Es x. destruct (decide (x = n)) as [->|]; [rewrite lookup_insert_eq, E; cbn; by rewrite Es|by rewrite lookup_insert_ne].
Qed.

Lemma Insert_sizes m root n m' q : Insert m root n = Some (m', q) -> same_sizes m m'.
Proof.
  unfold Insert. destruct (m !! n) as [nd|] eqn:E; [|done]. cbn [mbind option_bind]. intros H.
  destruct (root =? 0); [injection H as <- _; by eapply same_sizes_insert|]. repeat sizes_step; [apply same_sizes_refl|].
  apply insert_up_sizes in H. repeat sizes_from. by eapply same_sizes_insert.
Qed.

Lemma replace_child_sizes m root prev node child m' q : replace_child m root prev node child = Some (m', q) -> same_sizes m m'.
Proof. unfold replace_child. intros H. sizes. Qed.

Lemma replace_by_successor_sizes m root node m' root' q : replace_by_successor m root node = Some (m', root', q) -> same_sizes m m'.
Proof. unfold replace_by_successor, detach_successor. intros H. cbv zeta in H. sizes. Qed.

Lemma unlink_sizes m root node m' root' q : unlink m root node = Some (m', root', q) -> same_sizes m m'.
Proof.
  unfold unlink. intros H. destruct (m !! node); [|done]. cbn [mbind option_bind] in H.
  repeat (match type of H with (if ?b then _ else _) = _ => destruct b end).
  4: by eapply replace_by_successor_sizes.
  all: repeat sizes_step.
  all: match goal with H : replace_child _ _ _ _ _ = _ |- _ => apply replace_child_sizes in H end; by repeat sizes_from.
Qed.

Lemma Delete_sizes m root node m' q : Delete m root node = Some (m', q) -> same_sizes m m'.
Proof.
  unfold Delete. intros H. destruct ((root =? 0) || (node =? 0)); [injection H as <- _; apply same_sizes_refl|].
  destruct (unlink m root node) as [[[m1 r1] p1]|] eqn:E; [|done]. cbn [mbind option_bind] in H. apply unlink_sizes in E.
  destruct (p1 =? 0); [destruct (r1 =? 0); [by injection H as <- _|apply Rebalance_sizes in H]|apply delete_up_sizes in H]; by repeat sizes_from.
Qed.

(** ** Search *)

Lemma block_in t a s : (a, s) ∈ blocks t -> a ∈ addrs t.
Proof. intros H. unfold addrs. apply (list_elem_of_fmap_2 fst) in H. exact H. Qed.

Lemma block_size m up t a s : rep m up t -> (a, s) ∈ blocks t -> size <$> m !! a = Some s.
Proof.
  revert up. induction t as [|l IHl b sb h r IHr]; intros up Hr Hi; [by apply elem_of_nil in Hi|].
  destruct Hr as (E & Hl & Hr). cbn in Hi. apply elem_of_app in Hi as [Hi|Hi]; [eauto|].
  apply elem_of_cons in Hi as [[= -> ->]|Hi]; [by rewrite E|eauto].
Qed.

(** A candidate: nothing, or a block that is large enough. *)
Definition fits (t : tree) (sz p : Z) : Prop := p = 0 \/ exists s, (p, s) ∈ blocks t /\ sz <= s.

Lemma size_of_fits m up t sz p : rep m up t -> fits t sz p -> 0 < sz ->
  exists s, size_of m p = Some s /\ (p = 0 /\ s = 0 \/ p <> 0 /\ (p, s) ∈ blocks t /\ sz <= s).
Proof.
  intros Hr [->|(s & Hi & Hs)] H0; [exists 0; auto|]. unfold size_of. destruct (Z.eqb_spec p 0) as [->|Hp]; [exists 0; auto|].
  exists s. rewrite (block_size m up t p s Hr Hi). auto 10.
Qed.

Definition cand_size (cands : list (Z * Z)) (i : nat) : Z := snd (nth i cands (0, 0)).

Lemma pick_cases sz cands best i :
  (pick sz cands best i = i /\ 0 < cand_size cands i < cand_size cands best /\ sz <= cand_size cands i) \/
  (pick sz cands best i = best /\ ~ (0 < cand_size cands i < cand_size cands best /\ sz <= cand_size cands i)).
Proof.
  unfold pick, cand_size. cbv zeta. destruct (Z.ltb_spec 0 (nth i cands (0, 0)).2), (Z.ltb_spec (nth i cands (0, 0)).2 (nth best cands (0, 0)).2),
    (Z.leb_spec sz (nth i cands (0, 0)).2); cbn [andb]; [by left|right; split; [done|lia]..].
Qed.

(** With a root that is large enough, the smallest of the large enough
    candidates is chosen. *)
Lemma best_of_cases sz a sa b sb c sc :
  0 < sz -> sz <= sa -> exists s, In (best_of sz (map (too_small sz) [(a, sa); (b, sb); (c, sc)]), s) [(a, sa); (b, sb); (c, sc)] /\
    sz <= s <= sa /\ (sz <= sb -> s <= sb) /\ (sz <= sc -> s <= sc).
Proof.
  intros H0 Ha. unfold best_of. set (cands := map (too_small sz) _).
  assert (E0 : cand_size cands 0 = sa) by (unfold cand_size, cands, too_small; cbn; rewrite (proj2 (Z.ltb_ge sa sz)) by lia; done).
  assert (E1 : cand_size cands 1 = if sb <? sz then 0 else sb) by (unfold cand_size, cands, too_small; cbn; by destruct (sb <? sz)).
  assert (E2 : cand_size cands 2 = if sc <? sz then 0 else sc) by (unfold cand_size, cands, too_small; cbn; by destruct (sc <? sz)).
  destruct (pick_cases sz cands 0 0) as [(-> & H)|(-> & _)]; [lia|].
  assert (N0 : nth 0 cands (0, 0) = (a, sa)) by (unfold cands, too_small; cbn; rewrite (proj2 (Z.ltb_ge sa sz)) by lia; done).
  assert (N1 : sz <= sb -> nth 1 cands (0, 0) = (b, sb)) by (intros; unfold cands, too_small; cbn; rewrite (proj2 (Z.ltb_ge sb sz)) by lia; done).
  assert (N2 : sz <= sc -> nth 2 cands (0, 0) = (c, sc)) by (intros; unfold cands, too_small; cbn; rewrite (proj2 (Z.ltb_ge sc sz)) by lia; done).
  destruct (Z.ltb_spec sb sz) as [Lb|Lb], (Z.ltb_spec sc sz) as [Lc|Lc];
    destruct (pick_cases sz cands 0 1) as [(-> & H1)|(-> & H1)];
    try (destruct (pick_cases sz cands 1 2) as [(-> & H2)|(-> & H2)]); try (destruct (pick_cases sz cands 0 2) as [(-> & H2)|(-> & H2)]);
    try lia;
    first [rewrite N0; exists sa; split; [by left|lia]|rewrite N1 by lia; exists sb; split; [by right; left|lia]|rewrite N2 by lia; exists sc; split; [by right; right; left|lia]].
Qed.

Lemma best_of_root_small sz a sa cands : sa < sz -> 0 < sz -> best_of sz (map (too_small sz) ((a, sa) :: cands)) = 0.
Proof.
  intros Ha H0. unfold best_of. cbn [map]. set (rest := map _ cands).
  assert (E : too_small sz (a, sa) = (0, 0)) by (unfold too_small; cbn; by rewrite (proj2 (Z.ltb_lt sa sz))). rewrite E.
  assert (Hpick : forall i, pick sz ((0, 0) :: rest) 0 i = 0%nat).
  { intros i. destruct (pick_cases sz ((0, 0) :: rest) 0 i) as [(_ & H & _)|(-> & _)]; [|done].
    change (cand_size ((0, 0) :: rest) 0) with 0 in H. lia. }
  by rewrite !Hpick.
Qed.

(** The search returns nothing or a block that is large enough; with a large
    enough root it finds one, no larger than the root. *)
Lemma BestFind_spec m sz t : 0 < sz -> forall up lo hi fuel,
  rep m up t -> bst lo hi t -> 0 <= lo -> (length (addrs t) <= fuel)%nat ->
  exists p, BestFind fuel m (ptr t) sz = Some p /\ fits t sz p /\
    match t with Br _ _ s _ _ => sz <= s -> exists s', (p, s') ∈ blocks t /\ sz <= s' <= s | Leaf => True end.
Proof.
  intros Hsz. induction t as [|l IHl a s h r IHr]; intros up lo hi fuel Hr Hb H0 Hfuel.
  { exists 0. split; [by destruct fuel|]. split; [by left|done]. }
  destruct Hr as (E & Hl & Hr). pose proof Hb as (Ha & Hbl & Hbr). rewrite addrs_Br, length_app in Hfuel. cbn [length] in Hfuel.
  destruct fuel as [|fuel]; [lia|]. cbn [BestFind ptr]. rewrite (proj2 (Z.eqb_neq a 0)), E by lia. cbn [mbind option_bind size left right].
  assert (Hself : (a, s) ∈ blocks (Br l a s h r)) by (cbn; apply elem_of_app; right; by left).
  destruct (Z.eqb_spec s sz) as [->|Hne].
  { exists a. split; [done|]. split; [right; by exists sz|]. intros _. by exists sz. }
  destruct (IHl a lo a fuel Hl Hbl H0 ltac:(lia)) as (pl & -> & Fl & _). cbn [mbind option_bind].
  destruct (size_of_fits m a l sz pl Hl Fl Hsz) as (ls & -> & Hls). cbn [mbind option_bind].
  assert (Hsubl : forall x, x ∈ blocks l -> x ∈ blocks (Br l a s h r)) by (intros; cbn; apply elem_of_app; by left).
  assert (Hsubr : forall x, x ∈ blocks r -> x ∈ blocks (Br l a s h r)) by (intros; cbn; apply elem_of_app; right; by right).
  destruct (negb (pl =? 0) && (ls =? sz)) eqn:Hexact.
  { exists pl. split; [done|]. assert (Hi : (pl, ls) ∈ blocks l) by (destruct Hls as [?|?]; [lia|tauto]).
    split; [right; exists ls; split; [auto|lia]|]. intros. exists ls. split; [auto|lia]. }
  destruct (IHr a a hi fuel Hr Hbr ltac:(lia) ltac:(lia)) as (pr & -> & Fr & _). cbn [mbind option_bind].
  destruct (size_of_fits m a r sz pr Hr Fr Hsz) as (rs & -> & Hrs). cbn [mbind option_bind]. eexists. split; [reflexivity|].
  destruct (Z.ltb_spec s sz) as [Hsmall|Hbig]; [rewrite best_of_root_small by lia; split; [by left|lia]|].
  destruct (best_of_cases sz a s pl ls pr rs Hsz Hbig) as (s' & Hin & Hs' & _).
  assert (Hi : (best_of sz (map (too_small sz) [(a, s); (pl, ls); (pr, rs)]), s') ∈ blocks (Br l a s h r)).
  { revert Hin. generalize (best_of sz (map (too_small sz) [(a, s); (pl, ls); (pr, rs)])). intros p.
    intros [[= <- <-]|[[= <- <-]|[[= <- <-]|[]]]]; [done|apply Hsubl|apply Hsubr].
    - destruct Hls as [?|?]; [lia|tauto].
    - destruct Hrs as [?|?]; [lia|tauto]. }
  split; [right; exists s'; split; [done|lia]|]. intros _. by exists s'.
Qed.
