(* ===== verification/HeapAlloc.v ===== *)
(** * Theorems on the allocator of the kernel heap

    The free blocks (the nodes of the tree) and the blocks handed out are kept
    apart: an invariant of every request, stated against an interface for the
    memory manager that supplies the arenas. *)
From S2P Require Import Prelude Heap HeapTree HeapRep HeapProps.

(** ** Blocks side by side *)

Definition apart (x y : Z * Z) : Prop := fst x + snd x <= fst y \/ fst y + snd y <= fst x.

Lemma apart_sym x y : apart x y -> apart y x.
Proof. unfold apart. tauto. Qed.

(** Every two blocks of the list are apart. *)
Definition separate (bs : list (Z * Z)) : Prop := ForallOrdPairs apart bs.

Lemma separate_cons x bs : separate (x :: bs) <-> Forall (apart x) bs /\ separate bs.
Proof. split; [intros H; by inversion_clear H|intros [? ?]; by constructor]. Qed.

#[export] Instance separate_perm : Proper (Permutation ==> iff) separate.
Proof.
  assert (forall l l', Permutation l l' -> separate l -> separate l') as Hp.
  { induction 1 as [|x l l' HP IH|x y l|l l' l'' _ IH1 _ IH2]; [done| | |auto].
    - rewrite !separate_cons. intros [Hx Hl]. split; [by rewrite <- HP|auto].
    - rewrite !separate_cons, !Forall_cons. intros ((Hyx & Hy) & Hx & Hl). auto using apart_sym. }
  intros l l' HP. split; apply Hp; [done|by symmetry].
Qed.

Lemma separate_apart x y bs : separate bs -> x ∈ bs -> y ∈ bs -> x <> y -> apart x y.
Proof.
  induction bs as [|z bs IH]; intros Hs Hx Hy Hn; [by apply elem_of_nil in Hx|]. apply separate_cons in Hs as [Hz Hs].
  rewrite Forall_forall in Hz. apply elem_of_cons in Hx as [->|Hx], Hy as [->|Hy]; [done|auto|apply apart_sym; auto|auto].
Qed.

(** Two blocks of a list apart from which [x] is cut in two. *)
Lemma separate_split a s k bs : 0 < k < s -> separate ((a, s) :: bs) -> separate ((a, s - k) :: (a + s - k, k) :: bs).
Proof.
  intros Hk. rewrite !separate_cons, !Forall_forall. intros (Ha & Hs). split; [|split; [|done]].
  - intros y Hy. apply elem_of_cons in Hy as [->|Hy]; [unfold apart; cbn; lia|]. specialize (Ha y Hy). unfold apart in *. cbn in *. lia.
  - intros y Hy. specialize (Ha y Hy). unfold apart in *. cbn in *. lia.
Qed.

(** ** Where arenas come from

    The promise of the memory manager: a request of [n] pages either fails or
    returns the address of [n] fresh pages of the address space, which overlap no
    pages handed out before. *)
Class PageSourceLaws (P : Type) `{PageSource P} := {
  owned : P -> list (Z * Z);
  owned_ok : P -> Prop;
  owned_range (p : P) : owned_ok p -> Forall (fun r => 0 < fst r /\ fst r + snd r <= LIMIT) (owned p);
  AllocateKernelHeap_ok (p : P) (n : Z) (r : option Z) (p' : P) :
    owned_ok p -> 0 < n -> AllocateKernelHeap p n = (r, p') ->
    owned_ok p' /\
    match r with
    | None => owned p' = owned p
    | Some a => 0 < a /\ a mod PAGE_SIZE = 0 /\ a + n * PAGE_SIZE <= LIMIT /\ owned p' = (a, n * PAGE_SIZE) :: owned p /\
        Forall (apart (a, n * PAGE_SIZE)) (owned p)
    end
}.

(** ** Changing the size of a free block *)

Fixpoint resize (t : tree) (a v : Z) : tree :=
  match t with
  | Leaf => Leaf
  | Br l b s h r => if a =? b then Br l b v h r else Br (resize l a v) b s h (resize r a v)
  end.

Lemma resize_shape t a v : ptr (resize t a v) = ptr t /\ ht (resize t a v) = ht t /\ addrs (resize t a v) = addrs t.
Proof.
  induction t as [|l IHl b s h r IHr]; [done|]. cbn [resize].
  destruct (a =? b); [split; [done|]; split; [done|]; by rewrite !addrs_Br|]. destruct IHl as (_ & _ & Hl), IHr as (_ & _ & Hr). split; [done|]. split; [done|]. rewrite !addrs_Br. by rewrite Hl, Hr.
Qed.

Lemma resize_bst t a v lo hi : bst lo hi t -> bst lo hi (resize t a v).
Proof.
  revert lo hi. induction t as [|l IHl b s h r IHr]; intros lo hi Hb; [done|]. destruct Hb as (Hb & Hl & Hr). cbn.
  destruct (a =? b); cbn; auto.
Qed.

Lemma resize_avl t a v : avl t -> avl (resize t a v).
Proof.
  induction t as [|l IHl b s h r IHr]; [done|]. intros (Hl & Hr & E & Hb). cbn. destruct (a =? b); [done|].
  destruct (resize_shape l a v) as (_ & El & _), (resize_shape r a v) as (_ & Er & _).
  split; [auto|]. split; [auto|]. by rewrite El, Er.
Qed.

Lemma resize_absent t a v : a ∉ addrs t -> resize t a v = t.
Proof.
  induction t as [|l IHl b s h r IHr]; intros Ha; [done|]. rewrite elem_addrs_Br in Ha. cbn.
  rewrite (proj2 (Z.eqb_neq a b)) by (intros ->; tauto). rewrite IHl, IHr by tauto. done.
Qed.

Lemma resize_rep m t a v up lo hi (nd : Node) :
  rep m up t -> bst lo hi t -> m !! a = Some nd -> a ∈ addrs t -> rep (<[a := set_size v nd]> m) up (resize t a v).
Proof.
  revert up lo hi. induction t as [|l IHl b s h r IHr]; intros up lo hi Hr Hb E Ha; [done|].
  pose proof Hb as (Hbb & Hbl & Hbr). destruct Hr as (Eb & Hl & Hr). cbn. destruct (Z.eqb_spec a b) as [->|Hne].
  - rewrite Eb in E. injection E as <-. cbn. rewrite lookup_insert_eq. split; [done|].
    split; (eapply rep_agree; [done|]; intros x Hx; apply lookup_insert_ne).
    + out_of Hbl Hx. lia.
    + out_of Hbr Hx. lia.
  - destruct (resize_shape l a v) as (El & _), (resize_shape r a v) as (Er & _). cbn [rep]. rewrite El, Er.
    split; [by rewrite lookup_insert_ne|]. apply elem_addrs_Br in Ha as [->|[Ha|Ha]]; [done| |].
    + split; [by apply (IHl b lo b)|]. rewrite resize_absent by (intros Hi; out_of Hbl Ha; out_of Hbr Hi; lia).
      eapply rep_agree; [done|]. intros x Hx. apply lookup_insert_ne. intros <-. out_of Hbl Ha. out_of Hbr Hx. lia.
    + split; [|by apply (IHr b b hi)]. rewrite resize_absent by (intros Hi; out_of Hbr Ha; out_of Hbl Hi; lia).
      eapply rep_agree; [done|]. intros x Hx. apply lookup_insert_ne. intros <-. out_of Hbr Ha. out_of Hbl Hx. lia.
Qed.

Lemma resize_blocks t a s v lo hi : bst lo hi t -> (a, s) ∈ blocks t ->
  exists rest, blocks t ≡ₚ (a, s) :: rest /\ blocks (resize t a v) ≡ₚ (a, v) :: rest.
Proof.
  revert lo hi. induction t as [|l IHl b sb h r IHr]; intros lo hi Hb Hi; [by apply elem_of_nil in Hi|].
  destruct Hb as (Hbb & Hl & Hr). cbn in Hi |- *. apply elem_of_app in Hi as [Hi|Hi]; [|apply elem_of_cons in Hi as [[= <- <-]|Hi]].
  - pose proof (bst_in _ _ _ _ Hl (block_in _ _ _ Hi)). rewrite (proj2 (Z.eqb_neq a b)) by lia.
    destruct (IHl _ _ Hl Hi) as (rest & E1 & E2). rewrite (resize_absent r) by (intros Hx; out_of Hr Hx; lia).
    exists (rest ++ (b, sb) :: blocks r). cbn. by rewrite E1, E2.
  - rewrite Z.eqb_refl. exists (blocks l ++ blocks r). cbn. by rewrite <- !Permutation_middle.
  - pose proof (bst_in _ _ _ _ Hr (block_in _ _ _ Hi)). rewrite (proj2 (Z.eqb_neq a b)) by lia.
    destruct (IHr _ _ Hr Hi) as (rest & E1 & E2). rewrite (resize_absent l) by (intros Hx; out_of Hl Hx; lia).
    exists (blocks l ++ (b, sb) :: rest). cbn. rewrite E1, E2. split; by rewrite (Permutation_swap _ (b, sb)), !Permutation_middle.
Qed.

Lemma holds_agree m m' t : holds m t -> (forall x, x ∈ addrs t -> m' !! x = m !! x) -> holds m' t.
Proof. intros [Hr Hb Hv] Hx. split; [by eapply rep_agree|done|done]. Qed.

(** ** The invariant *)

Section Client.
Context {P : Type} `{PageSourceLaws P}.

(** A block lies in one of the arenas, is aligned and can hold a node. *)
Definition block_ok (arenas : list (Z * Z)) (b : Z * Z) : Prop :=
  fst b mod ARENA_ALIGNMENT = 0 /\ snd b mod ARENA_ALIGNMENT = 0 /\ SIZEOF_NODE <= snd b /\
  exists r, r ∈ arenas /\ fst r <= fst b /\ fst b + snd b <= fst r + snd r.

(** [used] are the blocks handed out, with the addresses of their headers. *)
Record inv (h : heap) (t : tree) (used : list (Z * Z)) : Prop := {
  inv_tree : holds (mem h) t;
  inv_root : arenaRoot h = ptr t;
  inv_header : forall a s, (a, s) ∈ used -> size <$> mem h !! a = Some s;
  inv_blocks : Forall (block_ok (owned (pages h))) (blocks t ++ used);
  inv_separate : separate (blocks t ++ used);
  inv_pages : owned_ok (pages h)
}.

Lemma block_range p b : owned_ok p -> block_ok (owned p) b -> 0 < fst b /\ fst b + snd b <= LIMIT.
Proof.
  intros Hp (_ & _ & _ & r & Hr & H1 & H2). pose proof (owned_range p Hp) as Ho. rewrite Forall_forall in Ho.
  specialize (Ho r Hr). lia.
Qed.

(** Everything that is apart of the address of a block. *)
Lemma used_not_free h t used a s : inv h t used -> (a, s) ∈ used -> a ∉ addrs t.
Proof.
  intros [_ _ _ Hb Hs _] Hu Hi. unfold addrs in Hi. apply list_elem_of_fmap in Hi as ([a' s'] & E & Hi). cbn in E. subst a'.
  apply list_elem_of_In, in_split in Hi as (l1 & l2 & El).
  rewrite El, <- app_assoc in Hs. cbn in Hs. rewrite <- Permutation_middle in Hs. apply separate_cons in Hs as [Hs _].
  rewrite El, <- app_assoc in Hb. cbn in Hb. rewrite <- Permutation_middle in Hb. apply Forall_cons in Hb as [Hb1 Hb].
  rewrite Forall_forall in Hs, Hb. assert (Hin : (a, s) ∈ l1 ++ l2 ++ used) by (rewrite !elem_of_app; auto).
  specialize (Hs _ Hin). specialize (Hb _ Hin). destruct Hb1 as (_ & _ & Hb1 & _), Hb as (_ & _ & Hb & _).
  unfold apart, SIZEOF_NODE in *. cbn in *. lia.
Qed.

Lemma round_request_spec req : 0 <= req < 2 ^ 62 ->
  round_request req mod 8 = 0 /\ 40 <= round_request req /\ req + 8 <= round_request req <= req + 48.
Proof.
  intros Hr. unfold round_request, SIZEOF_ALLOCATED, SIZEOF_NODE, ARENA_ALIGNMENT. rewrite wrap_small by lia. cbv zeta.
  set (n := if req + 8 <? 40 then 40 else req + 8).
  assert (Hn : 40 <= n /\ req + 8 <= n <= req + 40) by (unfold n; destruct (Z.ltb_spec (req + 8) 40); lia).
  clearbody n. pose proof (Z.mod_pos_bound n 8 ltac:(lia)). destruct (Z.eqb_spec (n mod 8) 0) as [E|E]; cbn [negb]; [lia|].
  rewrite wrap_small by lia. split; [|lia]. rewrite Z.add_sub_assoc. zdiv.
Qed.

(** ** Freeing *)

Lemma heap_Free_spec h t used a s :
  inv h t ((a, s) :: used) -> exists h' t', Free h (a + SIZEOF_ALLOCATED) = Some h' /\ inv h' t' used /\
    blocks t' ≡ₚ (a, s) :: blocks t.
Proof.
  intros Hi. pose proof Hi as [Ht Hroot Hh Hb Hs Hp].
  assert (Hblock : block_ok (owned (pages h)) (a, s)) by (rewrite Forall_forall in Hb; apply Hb, elem_of_app; right; by left).
  pose proof (block_range _ _ Hp Hblock) as Hrange. destruct Hblock as (_ & _ & Hsize & _). unfold SIZEOF_NODE in Hsize. cbn in Hrange, Hsize.
  assert (Hfresh : a ∉ addrs t) by (eapply used_not_free; [done|by left]).
  unfold Free, SIZEOF_ALLOCATED. unfold LIMIT in Hrange. rewrite wrap_small by lia. replace (a + 8 - 8) with a by lia.
  pose proof (Hh a s ltac:(by left)) as Ea. destruct (mem h !! a) as [nd|] eqn:End; [|done]. cbn in Ea. injection Ea as <-.
  destruct (Insert_spec (mem h) t a nd Ht ltac:(unfold LIMIT; lia) End) as (m' & t' & E & Ht' & Hcase). rewrite Hroot, E. cbn [mbind option_bind].
  rewrite decide_False in Hcase by done. destruct Hcase as [Hperm Hunt].
  eexists _, t'. split; [reflexivity|]. split; [|done]. assert (Hall : blocks t' ++ used ≡ₚ blocks t ++ (a, size nd) :: used).
  { rewrite Hperm. cbn. by rewrite Permutation_middle. }
  split; cbn [mem arenaRoot pages]; try done.
  - intros b k Hin. rewrite (Insert_sizes _ _ _ _ _ E). apply Hh. by right.
  - by rewrite Hall.
  - by rewrite Hall.
Qed.

(** ** Allocating *)

Lemma Forall_block_ok ps ps' bs : (forall r, r ∈ ps -> r ∈ ps') -> Forall (block_ok ps) bs -> Forall (block_ok ps') bs.
Proof. intros Hsub Hf. eapply Forall_impl; [exact Hf|]. intros b (H1 & H2 & H3 & r & Hr & H4). repeat split; try done. exists r. auto. Qed.

(** A free block that is large enough is cut, or leaves the tree. *)
Lemma Allocate_found h t used sz p s :
  inv h t used -> (p, s) ∈ blocks t -> 40 <= sz <= s -> sz mod 8 = 0 ->
  exists h' a k t',
    (n ← mem h !! p;
     if (sz <? size n) && (SIZEOF_NODE <=? u64 (size n - sz)) then
       let pointer := u64 (p + size n - sz) in
       let m := write_header (mem h) pointer sz in
       m ← assign m p (set_size (u64 (size n - sz)));
       Some (u64 (pointer + SIZEOF_ALLOCATED), {| mem := m; arenaRoot := arenaRoot h; pages := pages h |})
     else
       '(m, root) ← Delete (mem h) (arenaRoot h) p;
       Some (u64 (p + SIZEOF_ALLOCATED), {| mem := m; arenaRoot := root; pages := pages h |})) = Some (a + SIZEOF_ALLOCATED, h') /\
    sz <= k /\ 0 < a /\ inv h' t' ((a, k) :: used).
Proof.
  intros Hi Hin Hsz Hmod. pose proof Hi as [Ht Hroot Hh Hb Hs Hp]. pose proof Ht as [Hr Hbst Hv].
  pose proof (block_size _ _ _ _ _ Hr Hin) as Ep. destruct (mem h !! p) as [nd|] eqn:End; [|done]. cbn in Ep. injection Ep as Es.
  assert (Hok : block_ok (owned (pages h)) (p, s)) by (rewrite Forall_forall in Hb; apply Hb, elem_of_app; by left).
  pose proof (block_range _ _ Hp Hok) as Hrange. cbn in Hrange. unfold LIMIT in Hrange. pose proof Hok as (Hm1 & Hm2 & _ & r & Hrin & Hr1 & Hr2).
  unfold SIZEOF_NODE, SIZEOF_ALLOCATED, ARENA_ALIGNMENT in *. cbn in Hm1, Hm2, Hr1, Hr2.
  cbn [mbind option_bind]. rewrite Es, wrap_small by lia. destruct ((sz <? s) && (40 <=? s - sz)) eqn:Hcut.
  - destruct (resize_blocks t p s (s - sz) 0 LIMIT Hbst Hin) as (rest & E1 & E2).
    rewrite E1 in Hs. cbn in Hs. pose proof (separate_split p s sz (rest ++ used) ltac:(lia) Hs) as Hs'.
    cbv zeta. rewrite (wrap_small 64 (p + s - sz)), (wrap_small 64 (p + s - sz + 8)) by lia. set (a := p + s - sz).
    assert (Hout : forall b k, (b, k) ∈ blocks t ++ used -> b <> a).
    { intros b k Hbk ->. rewrite E1 in Hbk. cbn in Hbk. apply elem_of_cons in Hbk as [[= Ha _]|Hbk]; [unfold a in Ha; lia|].
      apply separate_cons in Hs as [Hs _]. rewrite Forall_forall in Hs, Hb. specialize (Hs _ Hbk).
      assert (Hbk' : (a, k) ∈ blocks t ++ used) by (rewrite E1; by right).
      destruct (Hb _ Hbk') as (_ & _ & Hk & _). unfold apart in Hs. unfold SIZEOF_NODE in Hk. cbn in Hs, Hk. unfold a in *. lia. }
    assert (Ha : a ∉ addrs t).
    { intros Hx. unfold addrs in Hx. apply list_elem_of_fmap in Hx as ([b k] & Eb & Hbk). cbn in Eb. subst b.
      by apply (Hout a k); [apply elem_of_app; left|]. }
    unfold write_header. set (m1 := <[a := _]> (mem h)).
    assert (End1 : m1 !! p = Some nd) by (unfold m1; rewrite lookup_insert_ne by (unfold a; lia); done).
    rewrite (assign_some _ _ _ _ End1). cbn [mbind option_bind].
    assert (Ht1 : holds m1 t) by (apply (holds_agree (mem h)); [done|]; intros x Hx; apply lookup_insert_ne; by intros <-).
    eexists _, a, sz, (resize t p (s - sz)). split; [reflexivity|]. split; [lia|]. split; [unfold a; lia|].
    assert (Hall : blocks (resize t p (s - sz)) ++ (a, sz) :: used ≡ₚ (p, s - sz) :: (a, sz) :: rest ++ used).
    { rewrite E2. cbn. by rewrite <- (Permutation_middle rest). }
    split; cbn [mem arenaRoot pages].
    + destruct Ht1 as [Hr' _ _]. split; [eapply resize_rep; try done; by eapply block_in|by apply resize_bst|by apply resize_avl].
    + rewrite Hroot. symmetry. apply resize_shape.
    + intros b k Hbk. apply elem_of_cons in Hbk as [[= -> ->]|Hbk].
      * rewrite lookup_insert_ne by (unfold a; lia). unfold m1. by rewrite lookup_insert_eq.
      * assert (Hbk' : (b, k) ∈ blocks t ++ used) by (apply elem_of_app; by right).
        pose proof (Hout b k Hbk'). pose proof (used_not_free _ _ _ _ _ Hi Hbk) as Hnf.
        rewrite lookup_insert_ne by (intros <-; apply Hnf; by eapply block_in). unfold m1. rewrite lookup_insert_ne by done. by apply Hh.
    + rewrite Hall. rewrite E1 in Hb. cbn in Hb. apply Forall_cons in Hb as [_ Hb].
      assert (H8 : (s - sz) mod 8 = 0 /\ a mod 8 = 0) by (unfold a; zdiv).
      constructor; [|constructor; [|done]]; (split; [|split; [|split; [unfold SIZEOF_NODE; cbn; lia|]]]); cbn; unfold ARENA_ALIGNMENT; try tauto;
        exists r; (split; [done|cbn; unfold a; lia]).
    + by rewrite Hall.
    + done.
  - destruct (Delete_spec (mem h) t p Ht (block_in _ _ _ Hin)) as (m' & t' & s' & E & Ht' & Hperm & Hunt).
    rewrite Hroot, E. cbn [mbind option_bind]. rewrite wrap_small by lia.
    assert (s' = s) as ->.
    { assert (Hin' : (p, s') ∈ blocks t) by (rewrite Hperm; by left). pose proof (block_size _ _ _ _ _ Hr Hin') as E'.
      rewrite End in E'. cbn in E'. injection E' as <-. done. }
    eexists _, p, s, t'. split; [reflexivity|]. split; [lia|]. split; [lia|].
    assert (Hall : blocks t' ++ (p, s) :: used ≡ₚ blocks t ++ used) by (rewrite Hperm; cbn; by rewrite Permutation_middle).
    split; cbn [mem arenaRoot pages]; try done.
    + intros b k Hbk. rewrite (Delete_sizes _ _ _ _ _ E). apply elem_of_cons in Hbk as [[= -> ->]|Hbk]; [by rewrite End; cbn; rewrite Es|by apply Hh].
    + by rewrite Hall.
    + by rewrite Hall.
Qed.

(** The pages of a request: twice its size, rounded up. *)
Lemma extend_pages sz : 40 <= sz <= 2 ^ 62 + 48 ->
  let n := u64 (u64 (2 * sz) + PAGE_SIZE - 1) / PAGE_SIZE in 0 < n /\ 2 * sz <= n * PAGE_SIZE < 2 ^ 64.
Proof.
  intros Hsz n. unfold n, PAGE_SIZE. rewrite (wrap_small 64 (2 * sz)), wrap_small by lia. zdiv.
Qed.

(** A block in a fresh arena is apart from every block there was. *)
Lemma fresh_apart ps bs a k :
  Forall (block_ok ps) bs -> Forall (apart (a, k)) ps -> Forall (fun b => apart (a, k) b) bs.
Proof.
  intros Hb Hp. rewrite Forall_forall in *. intros b Hin. destruct (Hb b Hin) as (_ & _ & _ & r & Hr & H1 & H2).
  specialize (Hp r Hr). unfold apart in *. cbn in *. lia.
Qed.

Lemma Allocate_extend h t used sz node p' :
  inv h t used -> 40 <= sz <= 2 ^ 62 + 48 -> sz mod 8 = 0 ->
  let n := u64 (u64 (2 * sz) + PAGE_SIZE - 1) / PAGE_SIZE in
  AllocateKernelHeap (pages h) n = (Some node, p') ->
  exists h' a t',
    (let m := <[node := {| size := u64 (n * PAGE_SIZE); left := 0; right := 0; parent := 0; height := 0 |}]> (mem h) in
     n ← m !! node;
     let pointer := u64 (node + size n - sz) in
     m ← assign m node (set_size (u64 (size n - sz)));
     let m := write_header m pointer sz in
     '(m, root) ← Insert m (arenaRoot h) node;
     Some (u64 (pointer + SIZEOF_ALLOCATED), {| mem := m; arenaRoot := root; pages := p' |})) = Some (a + SIZEOF_ALLOCATED, h') /\
    0 < a /\ inv h' t' ((a, sz) :: used).
Proof.
  intros Hi Hsz Hmod n Hpages. pose proof Hi as [Ht Hroot Hh Hb Hs Hp]. pose proof (extend_pages sz Hsz) as [Hn HA]. fold n in Hn, HA.
  destruct (AllocateKernelHeap_ok _ _ _ _ Hp Hn Hpages) as (Hp' & Hpos & Hal & Hlim & Howned & Hfresh). unfold LIMIT in Hlim.
  set (A := n * PAGE_SIZE) in *. pose proof (fresh_apart _ _ _ _ Hb Hfresh) as Hap.
  cbv zeta. rewrite lookup_insert_eq. cbn [mbind option_bind size]. rewrite (wrap_small 64 A) by lia.
  rewrite (wrap_small 64 (node + A - sz)), (wrap_small 64 (A - sz)), (wrap_small 64 (node + A - sz + _)) by (unfold SIZEOF_ALLOCATED; lia).
  set (a := node + A - sz). unfold SIZEOF_ALLOCATED in *.
  erewrite assign_some by (apply lookup_insert_eq). cbn [mbind option_bind set_size left right parent height].
  unfold write_header. set (m1 := <[a := _]> _). set (nd := {| size := A - sz; left := 0; right := 0; parent := 0; height := 0 |}).
  assert (End : m1 !! node = Some nd) by (unfold m1; rewrite lookup_insert_ne by (unfold a; lia); rewrite lookup_insert_eq; done).
  assert (Hout : forall b k, (b, k) ∈ blocks t ++ used -> b <> a /\ b <> node).
  { intros b k Hin. rewrite Forall_forall in Hap, Hb. specialize (Hap _ Hin). destruct (Hb _ Hin) as (_ & _ & Hk & _).
    unfold apart in Hap. unfold SIZEOF_NODE in Hk. cbn in Hap, Hk. unfold a. lia. }
  assert (Hnot : forall x, x ∈ addrs t -> x <> a /\ x <> node).
  { intros x Hx. unfold addrs in Hx. apply list_elem_of_fmap in Hx as ([b k] & -> & Hbk). apply (Hout b k), elem_of_app. by left. }
  assert (Ht1 : holds m1 t).
  { apply (holds_agree (mem h)); [done|]. intros x Hx. destruct (Hnot x Hx). unfold m1. by rewrite !lookup_insert_ne by done. }
  destruct (Insert_spec m1 t node nd Ht1 ltac:(unfold LIMIT; lia) End) as (m' & t' & E & Ht' & Hcase).
  rewrite decide_False in Hcase by (intros Hx; by destruct (Hnot node Hx)). destruct Hcase as [Hperm _]. cbn [size nd] in Hperm.
  rewrite Hroot, E. cbn [mbind option_bind]. eexists _, a, t'. split; [reflexivity|]. split; [unfold a; lia|].
  assert (Hall : blocks t' ++ (a, sz) :: used ≡ₚ (node, A - sz) :: (a, sz) :: blocks t ++ used).
  { rewrite Hperm. cbn. by rewrite <- (Permutation_middle (blocks t)). }
  split; cbn [mem arenaRoot pages]; try done.
  - intros b k Hin. rewrite (Insert_sizes _ _ _ _ _ E). apply elem_of_cons in Hin as [[= -> ->]|Hin]; [unfold m1; by rewrite lookup_insert_eq|].
    destruct (Hout b k) as [H1 H2]; [apply elem_of_app; by right|]. unfold m1. rewrite !lookup_insert_ne by done. by apply Hh.
  - rewrite Hall, Howned. unfold PAGE_SIZE in Hal. assert (H8 : node mod 8 = 0 /\ a mod 8 = 0 /\ (A - sz) mod 8 = 0).
    { unfold a, A, PAGE_SIZE. clearbody n. zdiv. }
    constructor; [|constructor; [|eapply Forall_block_ok; [|exact Hb]; intros r Hr; by right]];
      (split; [|split; [|split; [unfold SIZEOF_NODE; cbn; lia|]]]); cbn; unfold ARENA_ALIGNMENT; try tauto;
      exists (node, A); (split; [by left|cbn; unfold a; lia]).
  - rewrite Hall. apply (separate_split node A sz); [lia|]. apply separate_cons. by split.
Qed.

Lemma heap_Allocate_spec h t used req :
  inv h t used -> 0 <= req < 2 ^ 62 ->
  (exists h', Allocate h req = Some (0, h') /\ inv h' t used /\ mem h' = mem h /\ exists n, fst (AllocateKernelHeap (pages h) n) = None) \/
  (exists h' a k t', Allocate h req = Some (a + SIZEOF_ALLOCATED, h') /\ req + SIZEOF_ALLOCATED <= k /\ 0 < a /\ inv h' t' ((a, k) :: used)).
Proof.
  intros Hi Hreq. pose proof Hi as [Ht Hroot Hh Hb Hs Hp]. pose proof Ht as [Hr Hbst Hv].
  destruct (round_request_spec req Hreq) as (Hmod & H40 & Hsz). unfold Allocate. set (sz := round_request req) in *. unfold SIZEOF_ALLOCATED in *.
  destruct (BestFind_spec (mem h) sz t ltac:(lia) 0 0 LIMIT (base.size (mem h)) Hr Hbst ltac:(lia) (fuel_enough _ _ _ _ _ Hr Hbst))
    as (p & E & Hfits & _).
  rewrite Hroot, E. cbn [mbind option_bind]. destruct (Z.eqb_spec p 0) as [->|Hp0].
  - unfold ExtendArena. set (n := u64 (u64 (2 * sz) + PAGE_SIZE - 1) / PAGE_SIZE).
    destruct (AllocateKernelHeap (pages h) n) as [[node|] p'] eqn:Epages.
    + right. destruct (Allocate_extend h t used sz node p' Hi ltac:(lia) Hmod Epages) as (h' & a & t' & E' & Ha & Hi').
      fold n in E'. rewrite Hroot in E'. exists h', a, sz, t'. split; [exact E'|]. split; [lia|]. by split.
    + left. eexists. split; [reflexivity|]. split; [|split; [done|]; exists n; by rewrite Epages].
      destruct (extend_pages sz ltac:(lia)) as [Hn _]. destruct (AllocateKernelHeap_ok _ _ _ _ Hp Hn Epages) as [Hp' Ho].
      split; cbn [mem arenaRoot pages]; try done; by rewrite Ho.
  - right. destruct Hfits as [?|(s & Hin & Hs')]; [done|].
    destruct (Allocate_found h t used sz p s Hi Hin ltac:(lia) Hmod) as (h' & a & k & t' & E' & Hk & Ha & Hi').
    rewrite Hroot in E'. exists h', a, k, t'. split; [exact E'|]. split; [lia|]. by split.
Qed.

(** ** Creation *)

Lemma Create_spec p h : owned_ok p -> Create p = Some h -> exists t, inv h t [].
Proof.
  intros Hp. unfold Create. destruct (AllocateKernelHeap p 16) as [[a|] p'] eqn:E; [|done]. intros [= <-].
  destruct (AllocateKernelHeap_ok p 16 (Some a) p' Hp ltac:(lia) E) as (Hp' & Hpos & Hal & Hlim & Howned & _). unfold LIMIT, PAGE_SIZE in *.
  exists (Br Leaf a 65536 1 Leaf). split; cbn [mem arenaRoot pages]; try done.
  - split; [cbn; by rewrite lookup_singleton_eq|split; [unfold LIMIT; lia|done]|by cbn; repeat split].
  - intros b k Hb. by apply elem_of_nil in Hb.
  - rewrite Howned. repeat constructor; cbn; unfold ARENA_ALIGNMENT, SIZEOF_NODE; try lia; [zdiv|].
    exists (a, 16 * 4096). split; [by left|cbn; lia].
  - cbn. repeat constructor.
Qed.

(** ** Clients *)

Inductive request := Alloc (size : Z) | Release (ptr : Z).

(** The heap and the blocks a client holds: pointer and requested size.  A client
    releases only what it holds. *)
Definition serve_alloc (h : heap (P := P)) (live : list (Z * Z)) (n : Z) : option (heap (P := P) * list (Z * Z)) :=
  '(p, h) ← Allocate h n; Some (h, if p =? 0 then live else (p, n) :: live).
Definition serve_release (h : heap (P := P)) (live : list (Z * Z)) (p : Z) : option (heap (P := P) * list (Z * Z)) :=
  if existsb (fun b => fst b =? p) live then
    h ← Free h p; Some (h, List.filter (fun b => negb (fst b =? p)) live)
  else Some (h, live).
Definition serve (s : heap (P := P) * list (Z * Z)) (r : request) : option (heap (P := P) * list (Z * Z)) :=
  match r with Alloc n => serve_alloc (fst s) (snd s) n | Release p => serve_release (fst s) (snd s) p end.

Fixpoint serve_all (s : heap (P := P) * list (Z * Z)) (rs : list request) : option (heap (P := P) * list (Z * Z)) :=
  match rs with [] => Some s | r :: rs => s ← serve s r; serve_all s rs end.

(** What the client sees of a block. *)
Definition seen (b u : Z * Z) : Prop := fst b = fst u + SIZEOF_ALLOCATED /\ 0 <= snd b /\ snd b + SIZEOF_ALLOCATED <= snd u.

Lemma seen_separate live used : Forall2 seen live used -> separate used -> separate live.
Proof.
  induction 1 as [|b u live used (H1 & H2 & H3) Hl IH]; [done|]. rewrite !separate_cons. intros [Hu Hs]. split; [|auto].
  clear IH Hs. unfold SIZEOF_ALLOCATED in *. induction Hl as [|b' u' live used (H1' & H2' & H3') Hl IH]; [done|].
  apply Forall_cons in Hu as [Hu Hs]. constructor; [|auto]. unfold apart, SIZEOF_ALLOCATED in *. lia.
Qed.

Lemma seen_release live used p :
  Forall2 seen live used -> separate used -> Forall (fun u => SIZEOF_NODE <= snd u) used -> existsb (fun b => fst b =? p) live = true ->
  exists k rest, used ≡ₚ (p - SIZEOF_ALLOCATED, k) :: rest /\ Forall2 seen (List.filter (fun b => negb (fst b =? p)) live) rest.
Proof.
  induction 1 as [|[b n] [a k] live used (H1 & H2 & H3) Hl IH]; [done|]. rewrite separate_cons. intros [Hu Hs] Hk Hex.
  apply Forall_cons in Hk as [Hk0 Hk]. cbn in *. destruct (Z.eqb_spec b p) as [->|Hne]; cbn [negb] in *.
  - exists k, used. split; [f_equiv; f_equal; lia|]. clear IH Hex Hs.
    assert (Hall : List.filter (fun b => negb (fst b =? p)) live = live); [|by rewrite Hall].
    induction Hl as [|[b' n'] [a' k'] live used (H1' & H2' & H3') Hl IH]; [done|].
    apply Forall_cons in Hu as [Hu Hs]. apply Forall_cons in Hk as [Hk1 Hk]. cbn in *.
    destruct (Z.eqb_spec b' p) as [->|]; cbn [negb]; [|by rewrite IH]. unfold apart, SIZEOF_NODE in *. cbn in *. lia.
  - destruct (IH Hs Hk Hex) as (k' & rest & E & Hf). exists k', ((a, k) :: rest). rewrite E. split; [constructor|].
    constructor; [by split|done].
Qed.

Lemma inv_perm h t used used' : inv h t used -> used ≡ₚ used' -> inv h t used'.
Proof. intros [H1 H2 H3 H4 H5 H6] E. split; try done; [intros a s Ha; apply H3; by rewrite E|by rewrite <- E|by rewrite <- E]. Qed.

Lemma inv_sizes h t used : inv h t used -> Forall (fun u => SIZEOF_NODE <= snd u) used.
Proof.
  intros [_ _ _ Hb _ _]. apply Forall_app in Hb as [_ Hb]. eapply Forall_impl; [exact Hb|]. intros u (_ & _ & Hu & _). exact Hu.
Qed.

Lemma separate_app_r l l' : separate (l ++ l') -> separate l'.
Proof. induction l as [|x l IH]; [done|]. cbn. rewrite separate_cons. tauto. Qed.

Definition fair (r : request) : Prop := match r with Alloc n => 0 <= n < 2 ^ 62 | Release _ => True end.

Lemma serve_inv h live t used r :
  inv h t used -> Forall2 seen live used -> fair r ->
  exists h' live' t' used', serve (h, live) r = Some (h', live') /\ inv h' t' used' /\ Forall2 seen live' used'.
Proof.
  intros Hi Hl Hr. destruct r as [n|p]; cbn [serve fst snd]; unfold serve_alloc, serve_release.
  - destruct (heap_Allocate_spec h t used n Hi Hr) as [(h' & -> & Hi' & _)|(h' & a & k & t' & -> & Hk & Ha & Hi')]; cbn [mbind option_bind].
    + rewrite Z.eqb_refl. by exists h', live, t, used.
    + rewrite (proj2 (Z.eqb_neq (a + SIZEOF_ALLOCATED) 0)) by (unfold SIZEOF_ALLOCATED; lia).
      exists h', ((a + SIZEOF_ALLOCATED, n) :: live), t', ((a, k) :: used). split; [done|]. split; [done|].
      constructor; [|done]. split; [done|]. cbn in *. lia.
  - destruct (existsb (fun b => fst b =? p) live) eqn:Hex; [|by exists h, live, t, used].
    destruct (seen_release live used p Hl (separate_app_r _ _ (inv_separate _ _ _ Hi)) (inv_sizes _ _ _ Hi) Hex) as (k & rest & E & Hf).
    destruct (heap_Free_spec h t rest (p - SIZEOF_ALLOCATED) k (inv_perm _ _ _ _ Hi E)) as (h' & t' & E' & Hi' & _).
    rewrite Z.sub_add in E'. rewrite E'. cbn [mbind option_bind]. eexists h', _, t', rest. done.
Qed.

Lemma serve_all_inv rs : forall h live t used,
  inv h t used -> Forall2 seen live used -> Forall fair rs ->
  exists h' live' t' used', serve_all (h, live) rs = Some (h', live') /\ inv h' t' used' /\ Forall2 seen live' used'.
Proof.
  induction rs as [|r rs IH]; intros h live t used Hi Hl Hr; [by exists h, live, t, used|]. apply Forall_cons in Hr as [Hr Hrs].
  destruct (serve_inv h live t used r Hi Hl Hr) as (h' & live' & t' & used' & E & Hi' & Hl'). cbn [serve_all]. rewrite E. cbn [mbind option_bind].
  by apply (IH h' live' t' used').
Qed.

Lemma seen_in live used b : Forall2 seen live used -> b ∈ live -> exists u, u ∈ used /\ seen b u.
Proof.
  induction 1 as [|b' u' live used Hs Hl IH]; intros Hb; [by apply elem_of_nil in Hb|].
  apply elem_of_cons in Hb as [->|Hb]; [exists u'; split; [by left|done]|]. destruct (IH Hb) as (u & Hu & Hs').
  exists u. split; [by right|done].
Qed.
End Client.

(** ** The theorems *)

(** C2: A client that allocates and frees in any order (requests below 2^62
    bytes, frees of pointers it holds) is always served without a fault, and at
    the end the blocks it holds are pairwise disjoint, 8-byte aligned, inside
    pages obtained from the memory manager, and apart from every free block of
    the heap, whose nodes form a balanced search tree in the store. *)
Theorem heap_client {P : Type} `{PageSourceLaws P} (p : P) (h : heap (P := P)) (rs : list request) :
  owned_ok p -> Create p = Some h -> Forall fair rs ->
  exists h' live t, serve_all (h, []) rs = Some (h', live) /\
    separate live /\
    Forall (fun b => fst b mod ARENA_ALIGNMENT = 0 /\
      exists r, r ∈ owned (pages h') /\ fst r <= fst b /\ fst b + snd b <= fst r + snd r) live /\
    arenaRoot h' = ptr t /\ holds (mem h') t /\ Forall (fun f => Forall (apart f) live) (blocks t).
Proof.
  intros Hp Hc Hrs. destruct (Create_spec p h Hp Hc) as (t0 & Hi0).
  destruct (serve_all_inv rs h [] t0 [] Hi0 ltac:(constructor) Hrs) as (h' & live & t & used & E & Hi & Hl).
  exists h', live, t. split; [done|]. pose proof Hi as [Ht Hroot _ Hb Hs _].
  split; [exact (seen_separate _ _ Hl (separate_app_r _ _ Hs))|]. rewrite !Forall_forall. split; [|split; [done|split; [done|]]].
  - intros b Hin. destruct (seen_in _ _ _ Hl Hin) as (u & Hu & E1 & E2 & E3). rewrite Forall_forall in Hb.
    destruct (Hb u) as (Hm & _ & _ & r & Hr & H1 & H2); [apply elem_of_app; by right|].
    unfold ARENA_ALIGNMENT, SIZEOF_ALLOCATED in *. split; [rewrite E1; zdiv|]. exists r. split; [done|lia].
  - intros f Hf. apply Forall_forall. intros b Hin. destruct (seen_in _ _ _ Hl Hin) as (u & Hu & E1 & E2 & E3).
    assert (apart f u) as Hfu; [|unfold apart, SIZEOF_ALLOCATED in *; lia].
    apply list_elem_of_In, in_split in Hf as (l1 & l2 & El). rewrite El, <- app_assoc in Hs. cbn in Hs.
    rewrite <- Permutation_middle in Hs. apply separate_cons in Hs as [Hs _]. rewrite Forall_forall in Hs.
    apply Hs. rewrite !elem_of_app. auto.
Qed.

(** A memory manager that hands out consecutive pages below 1 GiB. *)
Definition bump := list (Z * Z).
Definition bump_next (p : bump) : Z := match p with [] => PAGE_SIZE | (a, k) :: _ => a + k end.
#[export] Instance bump_source : PageSource bump := fun p n =>
  if bump_next p + n * PAGE_SIZE <=? 2 ^ 30 then (Some (bump_next p), (bump_next p, n * PAGE_SIZE) :: p) else (None, p).

#[export] Program Instance bump_laws : PageSourceLaws bump := {|
  owned p := p;
  owned_ok p := 0 < bump_next p <= 2 ^ 30 /\ bump_next p mod PAGE_SIZE = 0 /\ Forall (fun r => 0 < fst r /\ fst r + snd r <= bump_next p) p
|}.
Next Obligation.
  intros p (H1 & H2 & H3). eapply Forall_impl; [exact H3|]. intros r Hr. cbn in Hr. unfold LIMIT. lia.
Qed.
Next Obligation.
  intros p n r p' (H1 & H2 & H3) Hn. unfold AllocateKernelHeap, bump_source.
  destruct (Z.leb_spec (bump_next p + n * PAGE_SIZE) (2 ^ 30)) as [Hle|]; intros [= <- <-]; [|done].
  unfold PAGE_SIZE in *. split; [split; [cbn; lia|split]|].
  - cbn. rewrite Z.mod_add by lia. exact H2.
  - cbn. constructor; [cbn; lia|]. eapply Forall_impl; [exact H3|]. intros r Hr. cbn in *. lia.
  - split; [lia|]. split; [done|]. split; [unfold LIMIT; lia|]. split; [done|].
    eapply Forall_impl; [exact H3|]. intros r Hr. cbn in *. unfold apart. cbn. lia.
Qed.

Definition bump_heap : heap (P := bump) :=
  {| mem := {[ 4096 := {| size := 65536; left := 0; right := 0; parent := 0; height := 1 |} ]}; arenaRoot := 4096; pages := [(4096, 65536)] |}.
Definition bump_requests : list request :=
  [Alloc 100; Alloc 24; Alloc 100000; Release 69528; Alloc 16; Release 69400; Alloc 60].

Lemma heap_client_witness :
  exists h' live t, serve_all (bump_heap, []) bump_requests = Some (h', live) /\
    separate live /\
    Forall (fun b => fst b mod ARENA_ALIGNMENT = 0 /\
      exists r, r ∈ owned (pages h') /\ fst r <= fst b /\ fst b + snd b <= fst r + snd r) live /\
    arenaRoot h' = ptr t /\ holds (mem h') t /\ Forall (fun f => Forall (apart f) live) (blocks t).
Proof.
  apply (heap_client ([] : bump) bump_heap bump_requests).
  - split; [vm_compute; split; [reflexivity|discriminate]|]. split; [reflexivity|constructor].
  - vm_compute. reflexivity.
  - repeat constructor; cbn; lia.
Defined.

(** Inserting a block of the store into the tree of the heap and deleting one
    from it always succeed, keep the pointers, parents and stored heights in
    agreement with a search tree ordered by address in which the heights of the
    two subtrees of every node differ by at most one, and change the set of
    blocks by exactly that block; inserting a block twice changes nothing. *)
Theorem tree_maintained (m : store) (t : tree) (n : Z) (nd : Node) :
  holds m t -> 0 < n < LIMIT -> m !! n = Some nd ->
  (exists m' t', Insert m (ptr t) n = Some (m', ptr t') /\ holds m' t' /\
     if decide (n ∈ addrs t) then m' = m /\ t' = t else blocks t' ≡ₚ (n, size nd) :: blocks t) /\
  (n ∈ addrs t -> exists m' t', Delete m (ptr t) n = Some (m', ptr t') /\ holds m' t' /\ blocks t ≡ₚ (n, size nd) :: blocks t').
Proof.
  intros Ht Hn E. split.
  - destruct (Insert_spec m t n nd Ht Hn E) as (m' & t' & E' & Ht' & Hcase). exists m', t'. split; [done|]. split; [done|].
    destruct (decide (n ∈ addrs t)); [done|apply Hcase].
  - intros Hi. destruct (Delete_spec m t n Ht Hi) as (m' & t' & s & E' & Ht' & Hperm & _). exists m', t'. split; [done|]. split; [done|].
    assert (Hin : (n, s) ∈ blocks t) by (rewrite Hperm; by left). pose proof (block_size _ _ _ _ _ (holds_rep _ _ Ht) Hin) as Es.
    rewrite E in Es. cbn in Es. injection Es as <-. done.
Qed.

(** A tree of three free blocks and a block that is not free. *)
Definition node3 (s l r up h : Z) : Node := {| size := s; left := l; right := r; parent := up; height := h |}.
Definition store3 : store :=
  <[100 := node3 48 0 0 200 1]> (<[200 := node3 64 100 300 0 2]> (<[300 := node3 80 0 0 200 1]> {[400 := node3 96 7 7 7 7]})).
Definition tree3 : tree := Br (Br Leaf 100 48 1 Leaf) 200 64 2 (Br Leaf 300 80 1 Leaf).
Lemma tree3_holds : holds store3 tree3.
Proof. split; [vm_compute; repeat split|vm_compute; repeat split|cbn; repeat split; lia]. Qed.

Lemma tree_maintained_witness :
  ((exists m' t', Insert store3 (ptr tree3) 400 = Some (m', ptr t') /\ holds m' t' /\
      if decide (400 ∈ addrs tree3) then m' = store3 /\ t' = tree3 else blocks t' ≡ₚ (400, size (node3 96 7 7 7 7)) :: blocks tree3) /\
   (400 ∈ addrs tree3 -> exists m' t', Delete store3 (ptr tree3) 400 = Some (m', ptr t') /\ holds m' t' /\
      blocks tree3 ≡ₚ (400, size (node3 96 7 7 7 7)) :: blocks t')) /\
  (200 ∈ addrs tree3 -> exists m' t', Delete store3 (ptr tree3) 200 = Some (m', ptr t') /\ holds m' t' /\
      blocks tree3 ≡ₚ (200, size (node3 64 100 300 0 2)) :: blocks t').
Proof.
  split; [apply (tree_maintained store3 tree3 400)|apply (tree_maintained store3 tree3 200 (node3 64 100 300 0 2))];
    first [exact tree3_holds|vm_compute; split; reflexivity|vm_compute; reflexivity].
Defined.

(** The heights of two subtrees and of the tree above them. *)
Lemma square_step q a b : 0 < q -> 0 < a -> 0 < b -> 2 * q <= a * a -> q <= b * b -> 4 * q <= (a + b) * (a + b).
Proof.
  intros Hq Ha Hb H1 H2. assert (q <= a * b); [|nia]. destruct (Z.le_gt_cases q (a * b)) as [|Hlt]; [done|exfalso].
  assert (2 * q * q <= (a * a) * (b * b)) by (apply Z.mul_le_mono_nonneg; lia). nia.
Qed.

Lemma height_step x y a b :
  0 <= x -> 0 <= y -> -1 <= x - y <= 1 -> 0 < a -> 0 < b -> 2 ^ x <= a ^ 2 -> 2 ^ y <= b ^ 2 -> 2 ^ (Z.max x y + 1) <= (a + b) ^ 2.
Proof.
  intros Hx Hy Hxy Ha Hb H1 H2. rewrite !Z.pow_2_r in *. rewrite Z.pow_add_r by lia. change (2 ^ 1) with 2.
  destruct (Z.lt_trichotomy x y) as [Hlt|[->|Hlt]].
  - replace (Z.max x y) with y by lia. replace y with (x + 1) in * by lia. rewrite Z.pow_add_r in * by lia. change (2 ^ 1) with 2 in *.
    pose proof (square_step (2 ^ x) b a ltac:(apply Z.pow_pos_nonneg; lia) Hb Ha ltac:(lia) H1). nia.
  - rewrite Z.max_id. nia.
  - replace (Z.max x y) with x by lia. replace x with (y + 1) in * by lia. rewrite Z.pow_add_r in * by lia. change (2 ^ 1) with 2 in *.
    pose proof (square_step (2 ^ y) a b ltac:(apply Z.pow_pos_nonneg; lia) Ha Hb ltac:(lia) H2). nia.
Qed.

(** A tree of [n] blocks in the heap has height at most twice the logarithm
    of [n + 1], so a search visits that many nodes on a path; and looking for a
    free block either returns the null pointer or a block of the tree that is
    large enough, which it does whenever the block at the root is. *)
Theorem search_sound (m : store) (t : tree) (sz : Z) :
  holds m t -> 0 < sz ->
  2 ^ ht t <= (Z.of_nat (length (blocks t)) + 1) ^ 2 /\
  exists p, BestFind (base.size m) m (ptr t) sz = Some p /\
    (p = 0 \/ exists s, (p, s) ∈ blocks t /\ sz <= s) /\
    (forall l a s h r, t = Br l a s h r -> sz <= s -> exists s', (p, s') ∈ blocks t /\ sz <= s' <= s).
Proof.
  intros [Hr Hb Hv] Hsz. split.
  - clear Hr Hb. induction t as [|l IHl a s h r IHr]; [done|]. destruct Hv as (Hl & Hr & -> & Hbal). specialize (IHl Hl). specialize (IHr Hr).
    cbn [ht blocks]. rewrite length_app. cbn [length].
    pose proof (avl_nonneg _ Hl). pose proof (avl_nonneg _ Hr).
    set (x := ht l) in *. set (y := ht r) in *. clearbody x y.
    set (N1 := Z.of_nat (length (blocks l)) + 1) in *. set (N2 := Z.of_nat (length (blocks r)) + 1) in *.
    replace (Z.of_nat (length (blocks l) + S (length (blocks r))) + 1) with (N1 + N2) by lia.
    assert (0 < N1 /\ 0 < N2) as [HN1 HN2] by lia. clearbody N1 N2. by apply height_step.
  - destruct (BestFind_spec m sz t Hsz 0 0 LIMIT (base.size m) Hr Hb ltac:(lia) (fuel_enough _ _ _ _ _ Hr Hb)) as (p & E & Hf & Hroot).
    exists p. split; [done|]. split; [done|]. intros l a s h r ->. exact Hroot.
Qed.
Lemma search_sound_witness :
  2 ^ ht tree3 <= (Z.of_nat (length (blocks tree3)) + 1) ^ 2 /\
  exists p, BestFind (base.size store3) store3 (ptr tree3) 56 = Some p /\
    (p = 0 \/ exists s, (p, s) ∈ blocks tree3 /\ 56 <= s) /\
    (forall l a s h r, tree3 = Br l a s h r -> 56 <= s -> exists s', (p, s') ∈ blocks tree3 /\ 56 <= s' <= s).
Proof. apply (search_sound store3 tree3 56); [exact tree3_holds|lia]. Defined.

(** Blocks of 4096 bytes under a root of 40: a request for 100 bytes finds none
    of them, since the candidates are compared with the root, which is too small
    and counts as zero. *)
Example search_misses :
  BestFind 3 (<[100 := node3 4096 0 0 200 1]> (<[200 := node3 40 100 300 0 2]> {[300 := node3 4096 0 0 200 1]})) 200 104 = Some 0.
Proof. reflexivity. Qed.
