(* ===== verification/MemoryLayout.v ===== *)
(** * Component: the layout of the address space
    ([kernel/include/mm/VirtualMemoryLayout.hpp],
    [common/include/shared/memory/layout.hpp])

    The zones of virtual memory, each defined from the end of another, and
    that they are where they are meant to be. *)
From S2P Require Import Prelude Paging.

Record MemoryZone := mkZone { zone_start : Z; zone_limit : Z }.
Definition zone_end (z : MemoryZone) : Z := u64 (zone_start z + zone_limit z).

Definition DMAZone := mkZone 0 0x1000000.
Definition KernelImage := mkZone 0xFFFF800000000000 0x20000000.
Definition OsLoaderFont := mkZone (zone_end KernelImage) 0x80000.
Definition OsLoaderData := mkZone (zone_end OsLoaderFont) 0x1F80000.
Definition EfiRuntimeServices := mkZone (zone_end OsLoaderData) 0x4000000.
Definition EfiGopFramebuffer := mkZone (zone_end EfiRuntimeServices) 0x4000000.
Definition ScreenBackBuffer := mkZone (zone_end EfiGopFramebuffer) 0x4000000.
Definition AcpiNvs := mkZone (zone_end ScreenBackBuffer) 0x2000000.
Definition UnmappedMemoryStart : Z := zone_end AcpiNvs.
Definition RecursiveMemoryMapping := mkZone RecursiveMemoryMapping_start 0x8000000000.

Definition UserMemory := mkZone (zone_start DMAZone) (PML4E_COVERAGE - zone_limit DMAZone).
Definition UserStack := mkZone (zone_end UserMemory - 0x200000) 0x200000.
Definition PhysicalMemoryMap := mkZone UnmappedMemoryStart 0x100000000.
Definition GeneralMapping := mkZone (zone_end PhysicalMemoryMap)
  (PML4E_COVERAGE - (zone_end PhysicalMemoryMap - zone_start KernelImage)).
Definition KernelHeapManagement := mkZone (zone_end GeneralMapping) PML4E_COVERAGE.
Definition KernelHeap := mkZone (zone_end KernelHeapManagement) ((512 / 2 - 5) * PML4E_COVERAGE).
Definition SecondaryRecursiveMapping := mkZone SecondaryRecursiveMapping_start PML4E_COVERAGE.
Definition TaskMemory := mkZone (zone_end RecursiveMemoryMapping) PML4E_COVERAGE.
Definition KernelStackGuard := mkZone (zone_start TaskMemory) PAGE_SIZE.
Definition KernelStack := mkZone (zone_end KernelStackGuard) (0x100000 - 2 * PAGE_SIZE).
Definition KernelStackReserve := mkZone (zone_end KernelStack) PAGE_SIZE.
Definition UserVMemManagement := mkZone 0xFFFFFF8001100000 (PML4E_COVERAGE - 0xFFFFFF8001100000 mod PML4E_COVERAGE).

(** ** The zones *)

Definition zones : list MemoryZone :=
  [UserMemory; KernelImage; OsLoaderFont; OsLoaderData; EfiRuntimeServices; EfiGopFramebuffer;
   ScreenBackBuffer; AcpiNvs; PhysicalMemoryMap; GeneralMapping; KernelHeapManagement; KernelHeap;
   SecondaryRecursiveMapping; RecursiveMemoryMapping; KernelStackGuard; KernelStack; KernelStackReserve;
   UserVMemManagement].

Definition zone_apart (a b : MemoryZone) : bool :=
  (zone_start a + zone_limit a <=? zone_start b) || (zone_start b + zone_limit b <=? zone_start a).

Fixpoint pairwise_apart (l : list MemoryZone) : bool :=
  match l with
  | [] => true
  | z :: l => forallb (zone_apart z) l && pairwise_apart l
  end.

Definition in_zone (z : MemoryZone) (a : Z) : Prop := zone_start z <= a < zone_start z + zone_limit z.

Lemma zone_apart_spec y z a : zone_apart y z = true -> in_zone y a -> ~ in_zone z a.
Proof. unfold zone_apart, in_zone. rewrite orb_true_iff, !Z.leb_le. lia. Qed.

Lemma pairwise_apart_spec l i j y z :
  pairwise_apart l = true -> l !! i = Some y -> l !! j = Some z -> (i < j)%nat -> zone_apart y z = true.
Proof.
  revert i j. induction l as [|x l IH]; intros i j; [done|]. cbn [pairwise_apart].
  rewrite andb_true_iff, forallb_forall. intros [Hx Hl] Hi Hj Hij.
  destruct j as [|j]; [lia|]. cbn in Hj. destruct i as [|i].
  - injection Hi as <-. apply Hx. apply list_elem_of_In. by eapply list_elem_of_lookup_2.
  - apply (IH i j); [done|done|done|lia].
Qed.

(** no address belongs to two zones of the layout. *)
Theorem zones_disjoint (i j : nat) (y z : MemoryZone) (a : Z) :
  zones !! i = Some y -> zones !! j = Some z -> i <> j -> in_zone y a -> ~ in_zone z a.
Proof.
  intros Hi Hj Hij Hy Hz. assert (Hall : pairwise_apart zones = true) by (vm_compute; done).
  destruct (Nat.lt_ge_cases i j).
  - by apply (zone_apart_spec y z a); [eapply pairwise_apart_spec|..].
  - apply (zone_apart_spec z y a); [|done..]. eapply pairwise_apart_spec; [done..|lia].
Qed.

Lemma zones_disjoint_witness : ~ in_zone KernelHeap (zone_start KernelHeapManagement + 4096).
Proof. apply (zones_disjoint 10 11 KernelHeapManagement KernelHeap); [done|done|done|]. vm_compute. done. Defined.
