(* ===== verification/PageTables.v ===== *)
(** * Component: page tables in memory
    ([kernel/src/mm/VirtualMemory.cpp], [kernel/src/interrupts/core/PageFault.cpp],
    [kernel/src/mm/Paging.cpp])

    The machine the memory manager works on: physical memory as 64-bit words,
    the processor's four-level translation, and loads and stores at virtual
    addresses that go through it.  A load or a store at an address without a
    translation is a page fault in the kernel's own memory management, from
    which it does not come back: the operation has no result.  The physical
    allocator is the interface [FrameAllocator].  The translation caches are
    not modelled: the processor walks the tables at each access, as it does
    once [InvalidatePage] has been executed. *)
From S2P Require Import Prelude Paging.

(** ** The physical allocator, as the memory manager uses it

    [nullptr] is [None]; the boolean is [Success.IsSuccess()]. *)
Class FrameAllocator (A : Type) := {
  AllocateFrame : A -> option Z * A;
  FreeFrame : A -> Z -> bool * A;
  FreeFrame2MB : A -> Z -> bool * A;
  FreeFrame1GB : A -> Z -> bool * A;
  AllocateFramesDMA : A -> Z -> option Z * A;
  FreeFramesDMA : A -> Z -> Z -> bool * A;
  DMAFrameIsFree : A -> Z -> bool }.

(** ** The machine *)

Record machine (A : Type) := mkMachine { ram : Z -> Z; frames : A }.
Arguments mkMachine {A}.
Arguments ram {A}.
Arguments frames {A}.

Definition MM (A X : Type) : Type := machine A -> option (X * machine A).

#[global] Instance MM_ret A : MRet (MM A) := fun X x s => Some (x, s).
#[global] Instance MM_bind A : MBind (MM A) := fun X Y f m s =>
  match m s with
  | None => None
  | Some (x, s) => f x s
  end.

Definition PageFault {A X} : MM A X := fun _ => None.

(** ** The processor's translation *)

(** The table an entry points to. *)
Definition next (e : Z) : option Z :=
  if hasflag e PRESENT && negb (hasflag e PAGE_SIZE_BIT) then Some (Z.land e ADDRESS) else None.

(** The table reached from the table [t] through the entries [path]. *)
Fixpoint table (mem : Z -> Z) (t : Z) (path : list Z) : option Z :=
  match path with
  | [] => Some t
  | i :: path' =>
      match next (mem (t + ENTRY_SIZE * i)) with
      | Some t' => table mem t' path'
      | None => None
      end
  end.

(** A leaf [above] levels over the last: 4 KiB, 2 MiB or 1 GiB. *)
Definition leaf_address (above : nat) (e va : Z) : option Z :=
  match above with
  | O => Some (Z.lor (Z.land e ADDRESS) (Z.land va 0xFFF))
  | 1%nat => Some (Z.lor (Z.land e PDE_2MB_ADDRESS) (Z.land va (PDE_COVERAGE - 1)))
  | 2%nat => Some (Z.lor (Z.land e PDPTE_1GB_ADDRESS) (Z.land va (PDPTE_COVERAGE - 1)))
  | _ => None
  end.

Fixpoint walk (mem : Z -> Z) (t : Z) (path : list Z) (va : Z) : option Z :=
  match path with
  | [] => None
  | i :: path' =>
      let e := mem (t + ENTRY_SIZE * i) in
      if negb (hasflag e PRESENT) then None
      else
        match path' with
        | [] => leaf_address 0 e va
        | _ =>
            if hasflag e PAGE_SIZE_BIT then leaf_address (length path') e va
            else walk mem (Z.land e ADDRESS) path' va
        end
  end.

Definition va_path (v : VirtualAddress) : list Z :=
  [PML4_offset v; PDPT_offset v; PD_offset v; PT_offset v].

(** The physical address of [va] in the address space whose PML4 is at [root]. *)
Definition translate (mem : Z -> Z) (root va : Z) : option Z :=
  walk mem root (va_path (ParseVirtualAddress va)) va.

(** ** Loads and stores

    [CR3] is the PML4 the processor uses.  An access that is not aligned on
    eight bytes touches two words. *)
Section Access.
Context {A : Type} (CR3 : Z).

Definition load_word (va : Z) : MM A Z := fun s =>
  match translate (ram s) CR3 va with
  | Some p => Some (ram s p, s)
  | None => None
  end.

Definition store_word (va v : Z) : MM A () := fun s =>
  match translate (ram s) CR3 va with
  | Some p => Some (tt, mkMachine (<[p := v]> (ram s)) (frames s))
  | None => None
  end.

Definition vread (va : Z) : MM A Z :=
  let k := va mod 8 in
  if k =? 0 then load_word va
  else
    lo ← load_word (va - k);
    hi ← load_word (va - k + 8);
    mret (u64 (Z.lor (Z.shiftr lo (8 * k)) (Z.shiftl hi (64 - 8 * k)))).

Definition vwrite (va v : Z) : MM A () :=
  let k := va mod 8 in
  if k =? 0 then store_word va v
  else
    lo ← load_word (va - k);
    store_word (va - k) (Z.lor (wrap (8 * k) lo) (u64 (Z.shiftl v (8 * k)))) ;;
    hi ← load_word (va - k + 8);
    store_word (va - k + 8) (Z.lor (Z.shiftl (Z.shiftr hi (8 * k)) (8 * k)) (Z.shiftr v (64 - 8 * k))).

(** [Shared::Memory::ZeroPage] *)
Fixpoint zero_words (n : nat) (address qword : Z) : MM A () :=
  match n with
  | O => mret tt
  | S n => vwrite (u64 (address + 8 * qword)) 0 ;; zero_words n address (qword + 1)
  end.

Definition ZeroPage (address : Z) : MM A () := zero_words 512 address 0.
End Access.

(** ** The editor of page tables *)

Inductive AccessPrivilege := HIGH | MEDIUM | LOW.

#[global] Instance AccessPrivilege_eq_dec : EqDecision AccessPrivilege.
Proof. solve_decision. Defined.

Definition NP_READWRITE : Z := 0x2.
Definition NP_USERMODE : Z := 0x4.
Definition NP_PWT : Z := 0x8.
Definition NP_PCD : Z := 0x10.
Definition NP_PAT : Z := 0x20.
Definition NP_GLOBAL : Z := 0x40.
Definition NP_PK : Z := 0x780.
Definition NP_ON_DEMAND : Z := 0x800.

(** The bit set in intermediate entries, and in the last one. *)
Definition table_user (privilege : AccessPrivilege) : bool := negb (bool_decide (privilege = HIGH)).
Definition leaf_user (privilege : AccessPrivilege) : bool := bool_decide (privilege = LOW).

(** The designated initialisers [{ .present = 1, .readWrite = 1, .userMode =
    ..., .address = ... }]: every other field is zero. *)
Definition pml4e_to (user : bool) (address : Z) : PML4EInfo := {|
  pml4e_present := true; pml4e_readWrite := true; pml4e_userMode := user; pml4e_PWT := false;
  pml4e_PCD := false; pml4e_accessed := false; pml4e_executeDisable := false; pml4e_address := address |}.
Definition pde_to (user pageSize : bool) (address : Z) : PDEInfo := {|
  pde_present := true; pde_readWrite := true; pde_userMode := user; pde_PWT := false;
  pde_PCD := false; pde_accessed := false; pde_dirty := false; pde_pageSize := pageSize;
  pde_global := false; pde_PAT := false; pde_executeDisable := false; pde_address := address |}.
Definition pte_to (user : bool) (address : Z) : PTEInfo := {|
  pte_present := true; pte_readWrite := true; pte_userMode := user; pte_PWT := false;
  pte_PCD := false; pte_accessed := false; pte_dirty := false; pte_PAT := false;
  pte_global := false; pte_executeDisable := false; pte_address := address |}.

Section Editor.
Context {A : Type} `{FrameAllocator A} (CR3 MAXPHYADDR : Z).

(** [_filter_address] *)
Definition FilterAddress (address : Z) : Z :=
  Z.land (Z.land address (2 ^ MAXPHYADDR - 1)) (bnot 64 0xFFF).

Definition Allocate : MM A (option Z) := fun s =>
  let '(page, frames') := AllocateFrame (frames s) in Some (page, mkMachine (ram s) frames').
Definition FreePage (page : Z) : MM A bool := fun s =>
  let '(ok, frames') := FreeFrame (frames s) page in Some (ok, mkMachine (ram s) frames').
Definition Free2MB (page : Z) : MM A bool := fun s =>
  let '(ok, frames') := FreeFrame2MB (frames s) page in Some (ok, mkMachine (ram s) frames').
Definition Free1GB (page : Z) : MM A bool := fun s =>
  let '(ok, frames') := FreeFrame1GB (frames s) page in Some (ok, mkMachine (ram s) frames').

(** An intermediate table: allocated, linked and cleared when missing. *)
Definition EnsureTable (entry tbl : Z) (present : Z -> bool) (make : Z -> Z) : MM A bool :=
  e ← vread CR3 entry;
  if negb (present e) then
    page ← Allocate;
    match page with
    | None => mret false
    | Some page =>
        vwrite CR3 entry (make (FilterAddress page)) ;;
        ZeroPage CR3 tbl ;;
        mret true
    end
  else mret true.

Definition EnsurePDPT (usePrimary : bool) (mapping : VirtualAddress) (privilege : AccessPrivilege) : MM A bool :=
  EnsureTable (GetPML4EAddress mapping usePrimary) (GetPDPTAddress mapping usePrimary)
    (fun e => pml4e_present (GetPML4EInfo e))
    (fun page => SetPML4EInfo (pml4e_to (table_user privilege) page)).

Definition EnsurePD (usePrimary : bool) (mapping : VirtualAddress) (privilege : AccessPrivilege) : MM A bool :=
  EnsureTable (GetPDPTEAddress mapping usePrimary) (GetPDAddress mapping usePrimary)
    (fun e => pde_present (GetPDPTEInfo e))
    (fun page => SetPDPTEInfo (pde_to (table_user privilege) false page)).

Definition EnsurePT (usePrimary : bool) (mapping : VirtualAddress) (privilege : AccessPrivilege) : MM A bool :=
  EnsureTable (GetPDEAddress mapping usePrimary) (GetPTAddress mapping usePrimary)
    (fun e => pde_present (GetPDEInfo e))
    (fun page => SetPDEInfo (pde_to (table_user privilege) false page)).

Definition MapPage (usePrimary : bool) (_physicalAddress _virtualAddress : Z)
    (privilege : AccessPrivilege) (huge : bool) : MM A bool :=
  if negb (_physicalAddress mod FRAME_SIZE =? 0) || negb (_virtualAddress mod FRAME_SIZE =? 0) then mret false
  else
    let mapping := ParseVirtualAddress _virtualAddress in
    ok ← EnsurePDPT usePrimary mapping privilege;
    if negb ok then mret false else
    ok ← EnsurePD usePrimary mapping privilege;
    if negb ok then mret false else
    if huge then
      let pde := GetPDEAddress mapping usePrimary in
      vread CR3 pde ;;
      vwrite CR3 pde
        (Z.lor (Z.lor (Z.lor
          (orif (leaf_user privilege) (Z.land (FilterAddress _physicalAddress) ADDRESS) USERMODE)
          PAGE_SIZE_BIT) READWRITE) PRESENT) ;;
      vwrite CR3 pde (SetPDEInfo (pde_to (leaf_user privilege) true (FilterAddress _physicalAddress))) ;;
      mret true
    else
      ok ← EnsurePT usePrimary mapping privilege;
      if negb ok then mret false else
      let pte := GetPTEAddress mapping usePrimary in
      vwrite CR3 pte
        (Z.lor (Z.lor
          (orif (leaf_user privilege) (Z.land (FilterAddress _physicalAddress) ADDRESS) USERMODE)
          READWRITE) PRESENT) ;;
      vwrite CR3 pte (SetPTEInfo (pte_to (leaf_user privilege) (FilterAddress _physicalAddress))) ;;
      mret true.

(** The loop of [MapOnDemand], [n] pages from [address] on. *)
Fixpoint map_on_demand (usePrimary : bool) (n : nat) (address : Z) (privilege : AccessPrivilege) : MM A bool :=
  match n with
  | O => mret true
  | S n =>
      let mapping := ParseVirtualAddress address in
      ok ← EnsurePDPT usePrimary mapping privilege;
      if negb ok then mret false else
      ok ← EnsurePD usePrimary mapping privilege;
      if negb ok then mret false else
      ok ← EnsurePT usePrimary mapping privilege;
      if negb ok then mret false else
      vwrite CR3 (GetPTEAddress mapping usePrimary)
        (Z.lor (orif (leaf_user privilege) NP_ON_DEMAND NP_USERMODE) NP_READWRITE) ;;
      map_on_demand usePrimary n (u64 (address + FRAME_SIZE)) privilege
  end.

Definition MapOnDemand (usePrimary : bool) (address pages : Z) (privilege : AccessPrivilege) : MM A bool :=
  map_on_demand usePrimary (Z.to_nat pages) address privilege.

(** [Paging::UnmapPTE], [UnmapPDE] and [UnmapPML4E] *)
Definition Unmap (entry : Z) : MM A () := vwrite CR3 entry UnmapEntry.

(** ** The page fault handler

    [Panic::Panic] does not return. *)

Inductive fault_outcome :=
| Resume
| PanicViolation        (** "PAGE FAULT VIOLATION" *)
| PanicUnmapped         (** "UNMAPPED MEMORY ACCESS" *)
| PanicHugePage         (** "HUGE PAGE ERROR" *)
| PanicSwapping         (** "MEMORY SWAPPING UNSUPPORTED" *)
| PanicOutOfMemory.     (** "KERNEL OUT OF MEMORY" *)

Definition PF_PRESENT : Z := 0x1.

(** [false] when it panics. *)
Definition CheckUnmappedAccess (mapping : VirtualAddress) : MM A bool :=
  pml4e ← vread CR3 (GetPML4EAddress mapping true);
  if negb (pml4e_present (GetPML4EInfo pml4e)) then mret false else
  pdpte ← vread CR3 (GetPDPTEAddress mapping true);
  if negb (pde_present (GetPDPTEInfo pdpte)) then mret false else
  pde ← vread CR3 (GetPDEAddress mapping true);
  if negb (pde_present (GetPDEInfo pde)) then mret false else
  if negb (pde_pageSize (GetPDEInfo pde)) then
    pte ← vread CR3 (GetPTEAddress mapping true);
    mret (negb (pte =? 0))
  else mret true.

(** The entry built from the bits of a non-present one. *)
Definition demanded_entry (pte page : Z) : Z :=
  let READWRITE := Z.land pte NP_READWRITE in
  let USERMODE := Z.land pte NP_USERMODE in
  let PWT := Z.land pte NP_PWT in
  let PCD := Z.land pte NP_PCD in
  let PAT := Z.shiftl (Z.land pte NP_PAT) 2 in
  let GLOBAL := Z.shiftl (Z.land pte NP_GLOBAL) 2 in
  let PK := Z.shiftl (Z.land pte NP_PK) 34 in
  Z.lor (Z.lor (Z.lor (Z.lor (Z.lor (Z.lor (Z.lor (Z.lor PK
    (Z.land (FilterAddress page) ADDRESS)) GLOBAL) PAT) PCD) PWT) USERMODE) READWRITE) PRESENT.

Definition PageFaultHandler (errv CR2 : Z) : MM A fault_outcome :=
  if Z.land errv PF_PRESENT =? 1 then mret PanicViolation
  else
    let mapping := ParseVirtualAddress CR2 in
    ok ← CheckUnmappedAccess mapping;
    if negb ok then mret PanicUnmapped else
    pde ← vread CR3 (GetPDEAddress mapping true);
    if pde_pageSize (GetPDEInfo pde) then mret PanicHugePage
    else
      pte ← vread CR3 (GetPTEAddress mapping true);
      if Z.land pte NP_ON_DEMAND =? 0 then mret PanicSwapping
      else
        page ← Allocate;
        match page with
        | None => mret PanicOutOfMemory
        | Some page =>
            vwrite CR3 (GetPTEAddress mapping true) (demanded_entry pte page) ;;
            mret Resume
        end.
End Editor.
