(* ===== verification/PageTablesProps.v ===== *)
(** * Properties of the page-table editor: tables

    How the recursive mapping reaches a table, what a store to an entry
    changes, and the invariant of an address space: its tables are distinct
    frames, none of them free, and the recursive slot leads to its root. *)
From S2P Require Import Prelude Paging PageTables.

(** ** Tables and walks *)

Definition aligned (a : Z) : Prop := a mod FRAME_SIZE = 0.
Definition frame_of (a : Z) : Z := a - a mod FRAME_SIZE.

Lemma frame_of_cell t off : aligned t -> 0 <= off < FRAME_SIZE -> frame_of (t + off) = t.
Proof. unfold aligned, frame_of, FRAME_SIZE. intros. zdiv. Qed.

Lemma cell_inj t t' i j :
  aligned t -> aligned t' -> 0 <= i < 512 -> 0 <= j < 512 ->
  t + ENTRY_SIZE * i = t' + ENTRY_SIZE * j -> t = t' /\ i = j.
Proof. unfold aligned, FRAME_SIZE, ENTRY_SIZE. intros. zdiv. Qed.

Lemma land_ADDRESS_aligned e : aligned (Z.land e ADDRESS).
Proof.
  unfold aligned. change ADDRESS with (Z.shiftl (Z.ones 40) 12). rewrite land_mask by done.
  apply Z.mod_mul. done.
Qed.

Lemma table_app mem t q1 q2 :
  table mem t (q1 ++ q2) = (t' ← table mem t q1; table mem t' q2).
Proof.
  revert t. induction q1 as [|i q1 IH]; intros t; [done|].
  cbn [table app]. destruct (next _); [apply IH|done].
Qed.

Lemma table_snoc mem t q i :
  table mem t (q ++ [i]) = (t' ← table mem t q; next (mem (t' + ENTRY_SIZE * i))).
Proof.
  rewrite table_app. destruct (table mem t q) as [t'|]; [|done]. cbn.
  by destruct (next _).
Qed.

Lemma table_aligned mem t q t' : aligned t -> table mem t q = Some t' -> aligned t'.
Proof.
  revert t. induction q as [|i q IH]; intros t Ht; cbn [table]; [intros [= <-]; done|].
  destruct (next _) as [t1|] eqn:E; [|done]. apply IH.
  unfold next in E. case_match; [|done]. injection E as <-. apply land_ADDRESS_aligned.
Qed.

(** A walk reads one cell per level it reaches. *)
Lemma table_agree mem mem' q t :
  (forall q1 j q2 t', q = q1 ++ j :: q2 -> table mem t q1 = Some t' ->
     mem' (t' + ENTRY_SIZE * j) = mem (t' + ENTRY_SIZE * j)) ->
  table mem' t q = table mem t q.
Proof.
  revert t. induction q as [|i q IH]; intros t Hcells; [done|].
  cbn [table]. rewrite (Hcells [] i q t) by done.
  destruct (next (mem (t + ENTRY_SIZE * i))) as [t1|] eqn:E; [|done].
  apply IH. intros q1 j q2 t' -> Ht. apply (Hcells (i :: q1) j q2); [done|].
  cbn [table]. by rewrite E.
Qed.

Lemma walk_cons mem t i path va :
  path <> [] ->
  walk mem t (i :: path) va =
    let e := mem (t + ENTRY_SIZE * i) in
    if negb (hasflag e PRESENT) then None
    else if hasflag e PAGE_SIZE_BIT then leaf_address (length path) e va
    else walk mem (Z.land e ADDRESS) path va.
Proof. by destruct path. Qed.

Lemma walk_agree mem mem' q t va :
  (forall q1 j q2 t', q = q1 ++ j :: q2 -> table mem t q1 = Some t' ->
     mem' (t' + ENTRY_SIZE * j) = mem (t' + ENTRY_SIZE * j)) ->
  walk mem' t q va = walk mem t q va.
Proof.
  revert t. induction q as [|i q IH]; intros t Hcells; [done|].
  pose proof (Hcells [] i q t eq_refl eq_refl) as Hi.
  destruct (decide (q = [])) as [->|Hq]; [cbn; by rewrite Hi|].
  rewrite !walk_cons, Hi by done. cbv zeta.
  destruct (hasflag _ PRESENT) eqn:Hp; [|done]. cbn [negb].
  destruct (hasflag _ PAGE_SIZE_BIT) eqn:Hps; [done|].
  apply IH. intros q1 j q2 t' -> Ht. apply (Hcells (i :: q1) j q2); [done|].
  cbn [table]. unfold next. by rewrite Hp, Hps.
Qed.

Lemma lor_aligned t off : aligned t -> 0 <= off < FRAME_SIZE -> Z.lor t off = t + off.
Proof.
  unfold aligned, FRAME_SIZE. intros Ht Ho.
  replace t with (t / 4096 * 2 ^ 12) by zdiv. by apply (lor_mul_low _ _ 12).
Qed.

Lemma land_FFF va : Z.land va 0xFFF = va mod FRAME_SIZE.
Proof. change 0xFFF with (Z.ones 12). by rewrite Z.land_ones. Qed.

(** Read as the last level, an entry that points to a table gives its frame. *)
Lemma walk_table mem t q t' va :
  q <> [] -> table mem t q = Some t' -> walk mem t q va = Some (t' + va mod FRAME_SIZE).
Proof.
  revert t. induction q as [|i q IH]; intros t Hq; [done|]. intros Ht.
  cbn [table] in Ht. destruct (next _) as [t1|] eqn:E; [|done].
  unfold next in E. destruct (hasflag _ PRESENT) eqn:Hp; [|done].
  destruct (hasflag _ PAGE_SIZE_BIT) eqn:Hps; [done|]. injection E as E.
  destruct (decide (q = [])) as [->|Hq'].
  - injection Ht as ->. cbn [walk]. rewrite Hp. cbn [negb leaf_address]. rewrite E, land_FFF, lor_aligned; [done| |].
    + rewrite <- E. apply land_ADDRESS_aligned.
    + by apply Z.mod_pos_bound.
  - rewrite walk_cons by done. cbv zeta. rewrite Hp, Hps, E. by apply IH.
Qed.

(** ** Addresses of the recursive mapping *)

Definition index_ok (i : Z) : Prop := 0 <= i < 512.

(** The address of byte [off] of the table at [path] in the tree under [slot]. *)
Definition rec_addr (slot : Z) (path : list Z) (off : Z) : Z :=
  match path with
  | [] => va_sum 0xFFFF slot slot slot slot off
  | [a] => va_sum 0xFFFF slot slot slot a off
  | [a; b] => va_sum 0xFFFF slot slot a b off
  | a :: b :: c :: _ => va_sum 0xFFFF slot a b c off
  end.

Lemma rec_addr_path slot path off :
  index_ok slot -> Forall index_ok path -> (length path <= 3)%nat -> 0 <= off < FRAME_SIZE ->
  va_path (ParseVirtualAddress (rec_addr slot path off)) = replicate (3 - length path) slot ++ slot :: path
  /\ rec_addr slot path off mod FRAME_SIZE = off.
Proof.
  unfold index_ok, FRAME_SIZE. intros Hs Hp Hl Ho.
  destruct path as [|a [|b [|c [|]]]]; [..|cbn in Hl; lia];
    repeat (apply Forall_cons in Hp as [? Hp]); cbn [rec_addr];
    rewrite Parse_va_sum by lia; (split; [done|]); unfold va_sum; zdiv.
Qed.

Lemma rec_addr_range slot path off :
  index_ok slot -> Forall index_ok path -> (length path <= 3)%nat -> 0 <= off < FRAME_SIZE ->
  u64 (rec_addr slot path off) = rec_addr slot path off.
Proof.
  unfold index_ok, FRAME_SIZE. intros Hs Hp Hl Ho.
  destruct path as [|a [|b [|c [|]]]]; [..|cbn in Hl; lia];
    repeat (apply Forall_cons in Hp as [? Hp]); cbn [rec_addr]; apply va_sum_u64; lia.
Qed.

Lemma entry_addresses v p :
  va_ok v ->
  GetPML4EAddress v p = rec_addr (loop_slot p) [] (8 * PML4_offset v)
  /\ GetPDPTEAddress v p = rec_addr (loop_slot p) [PML4_offset v] (8 * PDPT_offset v)
  /\ GetPDEAddress v p = rec_addr (loop_slot p) [PML4_offset v; PDPT_offset v] (8 * PD_offset v)
  /\ GetPTEAddress v p
     = rec_addr (loop_slot p) [PML4_offset v; PDPT_offset v; PD_offset v] (8 * PT_offset v).
Proof.
  intros Hv. by rewrite GetPML4EAddress_sum, GetPDPTEAddress_sum, GetPDEAddress_sum, GetPTEAddress_sum.
Qed.

(** The tables themselves, word by word. *)
Lemma table_addresses v p q :
  va_ok v -> index_ok q ->
  u64 (GetPDPTAddress v p + 8 * q) = rec_addr (loop_slot p) [PML4_offset v] (8 * q)
  /\ u64 (GetPDAddress v p + 8 * q) = rec_addr (loop_slot p) [PML4_offset v; PDPT_offset v] (8 * q)
  /\ u64 (GetPTAddress v p + 8 * q)
     = rec_addr (loop_slot p) [PML4_offset v; PDPT_offset v; PD_offset v] (8 * q).
Proof.
  intros (H4 & H3 & H2 & H1 & Ho) Hq.
  set (w3 := {| PML4_offset := PML4_offset v; PDPT_offset := q; PD_offset := 0; PT_offset := 0; offset := 0 |}).
  set (w2 := {| PML4_offset := PML4_offset v; PDPT_offset := PDPT_offset v; PD_offset := q; PT_offset := 0; offset := 0 |}).
  set (w1 := {| PML4_offset := PML4_offset v; PDPT_offset := PDPT_offset v; PD_offset := PD_offset v; PT_offset := q; offset := 0 |}).
  change (u64 (GetPDPTAddress v p + 8 * q)) with (GetPDPTEAddress w3 p).
  change (u64 (GetPDAddress v p + 8 * q)) with (GetPDEAddress w2 p).
  change (u64 (GetPTAddress v p + 8 * q)) with (GetPTEAddress w1 p).
  unfold index_ok in Hq.
  split; [|split].
  - apply (entry_addresses w3 p). unfold va_ok; cbn; lia.
  - apply (entry_addresses w2 p). unfold va_ok; cbn; lia.
  - apply (entry_addresses w1 p). unfold va_ok; cbn; lia.
Qed.

(** ** What the physical allocator promises *)

Class FrameAllocatorLaws (A : Type) `{FrameAllocator A} (MAXPHYADDR : Z) := {
  frames_ok : A -> Prop;
  frame_free : A -> Z -> Prop;
  AllocateFrame_some a f a' :
    frames_ok a -> AllocateFrame a = (Some f, a') ->
    frames_ok a' /\ frame_free a f /\ aligned f /\ 0 < f < 2 ^ MAXPHYADDR
    /\ (forall g, frame_free a' g -> frame_free a g /\ g <> f);
  AllocateFrame_none a a' :
    frames_ok a -> AllocateFrame a = (None, a') ->
    frames_ok a' /\ (forall g, frame_free a' g -> frame_free a g);
  FreeFrame_spec a f ok a' :
    frames_ok a -> 0 <= f -> FreeFrame a f = (ok, a') ->
    frames_ok a' /\ (forall g, frame_free a' g -> frame_free a g \/ g = frame_of f) }.

(** ** The invariant of an address space *)

Section Space.
Context {A : Type} `{Laws : FrameAllocatorLaws A MAXPHYADDR}.
Context (CR3 root : Z) (primary : bool).
Abbreviation slot := (loop_slot primary).

(** A path that does not start in one of the two recursive slots. *)
Definition regular (path : list Z) : Prop :=
  Forall index_ok path /\ match path with i :: _ => i <> 510 /\ i <> 509 | [] => True end.

Definition is_table (s : machine A) (g : Z) : Prop :=
  exists q, regular q /\ (length q <= 3)%nat /\ table (ram s) root q = Some g.

Record space_ok (s : machine A) : Prop := {
  so_frames : frames_ok (frames s);
  so_root : aligned root;
  so_CR3 : aligned CR3;
  so_enter : next (ram s (CR3 + ENTRY_SIZE * slot)) = Some root;
  so_loop : next (ram s (root + ENTRY_SIZE * slot)) = Some root;
  so_distinct : forall q q' t, regular q -> regular q' -> (length q <= 3)%nat -> (length q' <= 3)%nat ->
    table (ram s) root q = Some t -> table (ram s) root q' = Some t -> q = q';
  so_busy : forall g, is_table s g -> ~ frame_free (frames s) g;
  so_CR3_busy : ~ frame_free (frames s) CR3;
  so_CR3_apart : forall q, regular q -> (length q <= 3)%nat -> table (ram s) root q = Some CR3 -> q = [] }.

(** The word at [cell] of the table at [q]. *)
Definition entry_at (s : machine A) (q : list Z) (i : Z) : option Z :=
  t ← table (ram s) root q; Some (ram s (t + ENTRY_SIZE * i)).

Definition regular_va (va : Z) : Prop := regular (va_path (ParseVirtualAddress va)).

(** What an edition of the pages in [P] leaves alone: the tables stay, new ones
    are empty, and the last-level entries and the translations of the other
    pages are as they were. *)
Record edited (P : list Z -> Prop) (s s' : machine A) : Prop := {
  gr_tables : forall q t, regular q -> (length q <= 3)%nat ->
    table (ram s) root q = Some t -> table (ram s') root q = Some t;
  gr_translate : forall va, regular_va va -> ~ P (va_path (ParseVirtualAddress va)) -> translate (ram s') root va = translate (ram s) root va;
  gr_leaf : forall q i, regular q -> length q = 3%nat -> index_ok i -> ~ P (q ++ [i]) ->
    entry_at s' q i = entry_at s q i \/ (entry_at s q i = None /\ entry_at s' q i = Some 0);
  gr_large : forall q i e, regular (q ++ [i]) -> (length q <= 2)%nat ->
    entry_at s' q i = Some e -> hasflag e PRESENT = true -> hasflag e PAGE_SIZE_BIT = true ->
    entry_at s q i = Some e;
  gr_data : forall a, ~ frame_free (frames s) (frame_of a) -> ~ is_table s (frame_of a) ->
    ram s' a = ram s a;
  gr_free : forall g, frame_free (frames s') g -> frame_free (frames s) g;
  gr_new : forall g, is_table s' g -> is_table s g \/ frame_free (frames s) g }.

Lemma edited_refl P s : edited P s s.
Proof. split; auto. Qed.

Lemma edited_weaken (P Q : list Z -> Prop) s s' : (forall p, P p -> Q p) -> edited P s s' -> edited Q s s'.
Proof. intros HPQ [A1 A2 A3 A4 A5 A6 A7]. split; eauto. Qed.

Lemma edited_trans P s1 s2 s3 : edited P s1 s2 -> edited P s2 s3 -> edited P s1 s3.
Proof.
  intros [A1 A2 A3 A4 A5 A6 A7] [B1 B2 B3 B4 B5 B6 B7]. split.
  - auto.
  - intros va Hva HP. by rewrite B2, A2.
  - intros q i Hq Hl Hi HP. destruct (B3 q i Hq Hl Hi HP) as [->|[E2 ->]]; [by apply A3|].
    destruct (A3 q i Hq Hl Hi HP) as [E1|[E1 E1']]; [|by rewrite E1' in E2]. rewrite <- E1. by right.
  - intros q i e Hq Hl He Hp Hps. by eauto.
  - intros a Hf Ht. rewrite B5, A5; auto. intros H1. apply A7 in H1. tauto.
  - auto.
  - intros g Hg. destruct (B7 g Hg) as [|Hf]; auto.
Qed.

Lemma slot_ok : index_ok slot.
Proof. apply loop_slot_range. Qed.

Lemma regular_prefix q1 q2 : regular (q1 ++ q2) -> regular q1.
Proof.
  intros [Hf Hh]. apply Forall_app in Hf as [Hf _]. split; [done|]. by destruct q1.
Qed.

Lemma regular_last q i : regular (q ++ [i]) -> index_ok i.
Proof. intros [Hf _]. apply Forall_app in Hf as [_ Hf]. by inversion Hf. Qed.

Lemma regular_snoc q i j : regular (q ++ [i]) -> q <> [] -> index_ok j -> regular (q ++ [j]).
Proof.
  intros [Hf Hh] Hq Hj. apply Forall_app in Hf as [Hf _].
  split; [apply Forall_app; split; [done|by apply Forall_singleton]|by destruct q].
Qed.

(** ** Reaching a table *)

Definition linked (mem : Z -> Z) : Prop :=
  next (mem (CR3 + ENTRY_SIZE * slot)) = Some root /\ next (mem (root + ENTRY_SIZE * slot)) = Some root.

Lemma space_linked s : space_ok s -> linked (ram s).
Proof. intros Hs. split; apply Hs. Qed.

Lemma table_slots mem n q :
  linked mem -> table mem CR3 (replicate n slot ++ slot :: q) = table mem root q.
Proof.
  intros [He Hl].
  assert (Hr : forall m, table mem root (replicate m slot ++ slot :: q) = table mem root q).
  { induction m as [|m IH]; cbn [replicate app table]; rewrite Hl; [done|apply IH]. }
  destruct n as [|n]; cbn [replicate app table]; rewrite He; [done|apply Hr].
Qed.

Lemma table_access mem q t off :
  linked mem -> aligned root -> regular q -> (length q <= 3)%nat -> table mem root q = Some t ->
  0 <= off < FRAME_SIZE ->
  translate mem CR3 (rec_addr slot q off) = Some (t + off).
Proof.
  intros Hs Hr [Hq _] Hl Ht Ho. unfold translate.
  destruct (rec_addr_path slot q off slot_ok Hq Hl Ho) as [-> Hmod].
  rewrite (walk_table _ _ _ t), Hmod; [done|by destruct (3 - length q)%nat|by rewrite table_slots].
Qed.

Lemma rec_addr_mod8 q i :
  regular q -> (length q <= 3)%nat -> index_ok i -> rec_addr slot q (8 * i) mod 8 = 0.
Proof.
  unfold index_ok. intros [Hq _] Hl Hi.
  destruct (rec_addr_path slot q (8 * i) slot_ok Hq Hl ltac:(unfold FRAME_SIZE; lia)) as [_ Hm].
  unfold FRAME_SIZE in Hm. zdiv.
Qed.

(** Loads and stores of an entry. *)
Lemma read_entry s q t i :
  space_ok s -> regular q -> (length q <= 3)%nat -> index_ok i -> table (ram s) root q = Some t ->
  vread CR3 (rec_addr slot q (8 * i)) s = Some (ram s (t + ENTRY_SIZE * i), s).
Proof.
  intros Hs Hq Hl Hi Ht. unfold vread. rewrite rec_addr_mod8 by done. cbn [Z.eqb].
  unfold load_word. unfold index_ok in Hi.
  by rewrite (table_access _ q t) by (eauto using space_linked, so_root || (unfold FRAME_SIZE; lia)).
Qed.

Lemma write_linked (s : machine A) q t i e :
  linked (ram s) -> aligned root -> regular q -> (length q <= 3)%nat -> index_ok i ->
  table (ram s) root q = Some t ->
  vwrite CR3 (rec_addr slot q (8 * i)) e s = Some (tt, mkMachine (<[t + ENTRY_SIZE * i := e]> (ram s)) (frames s)).
Proof.
  intros Hs Hr Hq Hl Hi Ht. unfold vwrite. rewrite rec_addr_mod8 by done. cbn [Z.eqb].
  unfold store_word. unfold index_ok in Hi.
  by rewrite (table_access _ q t) by (done || (unfold FRAME_SIZE; lia)).
Qed.

Lemma write_entry s q t i e :
  space_ok s -> regular q -> (length q <= 3)%nat -> index_ok i -> table (ram s) root q = Some t ->
  vwrite CR3 (rec_addr slot q (8 * i)) e s = Some (tt, mkMachine (<[t + ENTRY_SIZE * i := e]> (ram s)) (frames s)).
Proof. intros. apply write_linked; eauto using space_linked, so_root. Qed.

(** ** Stores to a table *)

(** A store to an entry touches no other entry of the tree. *)
Lemma store_cells s q t i e q' t' j :
  space_ok s -> regular (q ++ [i]) -> (length q <= 3)%nat -> table (ram s) root q = Some t ->
  regular (q' ++ [j]) -> (length q' <= 3)%nat -> table (ram s) root q' = Some t' ->
  q' ++ [j] <> q ++ [i] ->
  (<[t + ENTRY_SIZE * i := e]> (ram s)) (t' + ENTRY_SIZE * j) = ram s (t' + ENTRY_SIZE * j).
Proof.
  intros Hs Hq Hl Ht Hq' Hl' Ht' Hne. rewrite upd_lookup. destruct (decide _) as [Heq|]; [|done].
  destruct Hne.
  apply cell_inj in Heq as [-> ->];
    [|eauto using table_aligned, so_root..|exact (regular_last _ _ Hq)|exact (regular_last _ _ Hq')].
  by rewrite (so_distinct s Hs q q' t') by eauto using regular_prefix.
Qed.

(** Nor the recursive entries. *)
Lemma store_linked s q t i e :
  space_ok s -> regular (q ++ [i]) -> (length q <= 3)%nat -> table (ram s) root q = Some t ->
  linked (<[t + ENTRY_SIZE * i := e]> (ram s)).
Proof.
  intros Hs Hq Hl Ht. pose proof (regular_prefix _ _ Hq) as Hq1.
  assert (Hi : index_ok i /\ (q = [] -> i <> slot)).
  { split; [by eapply regular_last|]. destruct Hq as [_ Hh]. intros ->. cbn in Hh. destruct primary; cbn; lia. }
  destruct Hi as [Hi Hslot].
  assert (Hcell : forall b, aligned b -> (t = b -> q = []) ->
    (<[t + ENTRY_SIZE * i := e]> (ram s)) (b + ENTRY_SIZE * slot) = ram s (b + ENTRY_SIZE * slot)).
  { intros b Hb Hroot. rewrite upd_lookup. destruct (decide _) as [Heq|]; [|done].
    apply cell_inj in Heq as [-> ->]; [|eauto using table_aligned, so_root|done|done|apply slot_ok].
    by destruct Hslot; [apply Hroot|]. }
  split; rewrite Hcell; try apply Hs.
  - intros ->. by apply (so_CR3_apart s Hs).
  - intros ->. apply (so_distinct s Hs q [] root); auto. by split.
Qed.

(** ** Clearing a page *)

Lemma zero_words_spec n : forall tbl f q j (s : machine A),
  regular q -> (length q <= 3)%nat -> aligned f -> aligned root ->
  (forall k, index_ok k -> u64 (tbl + 8 * k) = rec_addr slot q (8 * k)) ->
  (forall mem, (forall a, frame_of a <> f -> mem a = ram s a) -> linked mem /\ table mem root q = Some f) ->
  0 <= j -> j + Z.of_nat n <= 512 ->
  exists s', zero_words CR3 n tbl j s = Some (tt, s') /\ frames s' = frames s
    /\ (forall a, frame_of a <> f -> ram s' a = ram s a)
    /\ (forall k, index_ok k -> ram s' (f + ENTRY_SIZE * k) =
        if decide (j <= k < j + Z.of_nat n) then 0 else ram s (f + ENTRY_SIZE * k)).
Proof.
  induction n as [|n IH]; intros tbl f q j s Hq Hl Hf Hr Htbl Hst Hj Hn.
  { exists s. repeat split; try done. intros k _. by rewrite decide_False by lia. }
  assert (Hjo : index_ok j) by (unfold index_ok; lia).
  destruct (Hst (ram s) ltac:(done)) as [Hlk Ht].
  cbn [zero_words]. unfold mbind, MM_bind. rewrite Htbl, (write_linked s q f) by done.
  set (s1 := mkMachine _ _).
  assert (Hs1 : forall a, frame_of a <> f -> ram s1 a = ram s a).
  { intros a Ha. cbn. rewrite upd_lookup, decide_False; [done|]. intros <-. apply Ha.
    unfold index_ok in Hjo. apply frame_of_cell; [done|unfold FRAME_SIZE, ENTRY_SIZE; lia]. }
  destruct (IH tbl f q (j + 1) s1) as (s' & Hz & Hfr & Hout & Hin); try done; try lia.
  { intros mem Hmem. apply Hst. intros a Ha. by rewrite Hmem, Hs1. }
  exists s'. rewrite Hz. split; [done|]. split; [done|]. split; [intros a Ha; by rewrite Hout, Hs1|].
  intros k Hk. rewrite Hin by done. cbn [s1 ram]. rewrite upd_lookup.
  unfold ENTRY_SIZE. repeat case_decide; lia || done.
Qed.

(** ** Linking a fresh table *)

(** The free frame [f] linked at entry [i] of the table at [q], ... *)
Record links (s s' : machine A) (q : list Z) (i t f : Z) : Prop := {
  ln_path : regular (q ++ [i]);
  ln_short : (length q <= 2)%nat;
  ln_table : table (ram s) root q = Some t;
  ln_absent : hasflag (ram s (t + ENTRY_SIZE * i)) PRESENT = false;
  ln_free : frame_free (frames s) f;
  ln_aligned : aligned f;
  ln_entry : next (ram s' (t + ENTRY_SIZE * i)) = Some f;
  ln_same : forall a, frame_of a <> f -> a <> t + ENTRY_SIZE * i -> ram s' a = ram s a }.

(** ... cleared and no longer free. *)
Record cleared (s s' : machine A) (f : Z) : Prop := {
  cl_zero : forall j, index_ok j -> ram s' (f + ENTRY_SIZE * j) = 0;
  cl_frames : frames_ok (frames s');
  cl_taken : forall g, frame_free (frames s') g -> frame_free (frames s) g /\ g <> f }.

Lemma next_absent e : hasflag e PRESENT = false -> next e = None.
Proof. intros He. unfold next. by rewrite He. Qed.

Lemma walk_absent mem t q t1 i r va :
  table mem t q = Some t1 -> hasflag (mem (t1 + ENTRY_SIZE * i)) PRESENT = false ->
  walk mem t (q ++ i :: r) va = None.
Proof.
  revert t. induction q as [|j q IH]; intros t; cbn [table app].
  - intros [= ->] Hp. cbn [walk]. by rewrite Hp.
  - destruct (next _) as [t2|] eqn:E; [|done]. intros Ht Hp.
    rewrite walk_cons by (by destruct q). cbv zeta. unfold next in E.
    destruct (hasflag (mem (t + ENTRY_SIZE * j)) PRESENT); [|done].
    destruct (hasflag (mem (t + ENTRY_SIZE * j)) PAGE_SIZE_BIT); [done|].
    injection E as <-. by apply IH.
Qed.

Section Link.
Context (s s' : machine A) (q : list Z) (i t f : Z).
Hypothesis Hs : space_ok s.
Hypothesis Hln : links s s' q i t f.

Lemma link_not_table g : is_table s g -> g <> f.
Proof. intros Hg ->. by apply (so_busy s Hs f Hg), Hln. Qed.

Lemma link_own q' t' : regular q' -> (length q' <= 3)%nat -> table (ram s) root q' = Some t' -> t' <> f /\ aligned t'.
Proof.
  intros Hq Hl Ht. split; [apply link_not_table; by exists q'|]. eauto using table_aligned, so_root.
Qed.

(** Entries elsewhere in the tree keep their value. *)
Lemma link_cell q' j t' :
  regular (q' ++ [j]) -> (length q' <= 3)%nat -> table (ram s) root q' = Some t' -> q' ++ [j] <> q ++ [i] ->
  ram s' (t' + ENTRY_SIZE * j) = ram s (t' + ENTRY_SIZE * j).
Proof.
  intros Hq' Hl' Ht' Hne. destruct (link_own q' t') as [Hf Ha]; [by eapply regular_prefix|done|done|].
  pose proof (regular_last _ _ Hq') as Hj. unfold index_ok in Hj.
  apply (ln_same _ _ _ _ _ _ Hln).
  - rewrite frame_of_cell; [done|done|unfold FRAME_SIZE, ENTRY_SIZE; lia].
  - intros Heq. pose proof (ln_short _ _ _ _ _ _ Hln) as Hl.
    pose proof (store_cells s q t i (ram s (t + ENTRY_SIZE * i) + 1) q' t' j Hs (ln_path _ _ _ _ _ _ Hln)
      ltac:(lia) (ln_table _ _ _ _ _ _ Hln) Hq' Hl' Ht' Hne) as Hc.
    rewrite upd_lookup, decide_True, Heq in Hc by done. lia.
Qed.

Lemma prefix_cells q' q1 j q2 :
  regular q' -> (length q' <= 4)%nat -> ~ (q ++ [i]) `prefix_of` q' -> q' = q1 ++ j :: q2 ->
  regular (q1 ++ [j]) /\ (length q1 <= 3)%nat /\ q1 ++ [j] <> q ++ [i].
Proof.
  intros Hq' Hl Hp ->. rewrite length_app in Hl. cbn in Hl.
  split; [apply (regular_prefix _ q2); by rewrite <- app_assoc|]. split; [lia|].
  intros He. apply Hp. rewrite <- He. exists q2. by rewrite <- app_assoc.
Qed.

Lemma link_elsewhere q' :
  regular q' -> (length q' <= 4)%nat -> ~ (q ++ [i]) `prefix_of` q' ->
  table (ram s') root q' = table (ram s) root q'.
Proof.
  intros Hq' Hl Hp. apply table_agree. intros q1 j q2 t' He Ht'.
  destruct (prefix_cells q' q1 j q2 Hq' Hl Hp He) as (? & ? & ?). by apply (link_cell q1).
Qed.

Lemma link_short_path : (length (q ++ [i]) <= 3)%nat.
Proof. rewrite length_app. pose proof (ln_short _ _ _ _ _ _ Hln). cbn. lia. Qed.

Lemma link_here : table (ram s') root (q ++ [i]) = Some f.
Proof.
  pose proof (ln_path _ _ _ _ _ _ Hln) as Hp. pose proof (ln_short _ _ _ _ _ _ Hln).
  rewrite table_snoc, link_elsewhere, (ln_table _ _ _ _ _ _ Hln).
  - cbn. apply (ln_entry _ _ _ _ _ _ Hln).
  - by eapply regular_prefix.
  - lia.
  - intros Hpre%prefix_length. rewrite length_app in Hpre. cbn in Hpre. lia.
Qed.

Lemma link_before r : table (ram s) root (q ++ i :: r) = None.
Proof.
  rewrite table_app, (ln_table _ _ _ _ _ _ Hln). cbn.
  by rewrite next_absent by apply (ln_absent _ _ _ _ _ _ Hln).
Qed.

Lemma link_linked : linked (ram s').
Proof.
  destruct (store_linked s q t i (ram s' (t + ENTRY_SIZE * i)) Hs) as [H1 H2]; try apply Hln.
  { pose proof (ln_short _ _ _ _ _ _ Hln). lia. }
  rewrite upd_lookup in H1, H2. pose proof slot_ok as Hsl. unfold index_ok in Hsl.
  assert (Hne : forall b, aligned b -> b <> f -> ram s' (b + ENTRY_SIZE * slot)
    = if decide (t + ENTRY_SIZE * i = b + ENTRY_SIZE * slot) then ram s' (t + ENTRY_SIZE * i)
      else ram s (b + ENTRY_SIZE * slot)).
  { intros b Hb Hbf. destruct (decide (t + ENTRY_SIZE * i = b + ENTRY_SIZE * slot)) as [Hd|Hd]; [by rewrite Hd|]. apply (ln_same _ _ _ _ _ _ Hln); [|congruence].
    rewrite frame_of_cell; [done|done|unfold FRAME_SIZE, ENTRY_SIZE; lia]. }
  split; rewrite Hne; try done; try apply Hs.
  - intros Heq. apply (so_CR3_busy s Hs). rewrite Heq. apply Hln.
  - apply (link_own []); [by split|cbn; lia|done].
Qed.

Hypothesis Hcl : cleared s s' f.

Lemma link_below j r : index_ok j -> table (ram s') root (q ++ i :: j :: r) = None.
Proof.
  intros Hj. change (q ++ i :: j :: r) with (q ++ [i] ++ j :: r). rewrite app_assoc, table_app, link_here.
  cbn. by rewrite (cl_zero _ _ _ Hcl).
Qed.

(** The tables after the link: the old ones and [f]. *)
Lemma link_tables q' g :
  regular q' -> (length q' <= 3)%nat -> table (ram s') root q' = Some g ->
  (table (ram s) root q' = Some g /\ ~ (q ++ [i]) `prefix_of` q') \/ (q' = q ++ [i] /\ g = f).
Proof.
  intros Hq' Hl. destruct (decide ((q ++ [i]) `prefix_of` q')) as [[r ->]|Hp].
  - destruct r as [|j r].
    + rewrite app_nil_r, link_here. intros [= <-]. by right.
    + rewrite <- app_assoc. cbn [app]. rewrite link_below; [done|].
      destruct Hq' as [Hf _]. apply Forall_app in Hf as [_ Hf]. by inversion Hf.
  - rewrite link_elsewhere by (done || lia). by left.
Qed.

Lemma link_space : space_ok s'.
Proof.
  pose proof link_linked as Hslots.
  split; try apply Hs; try apply Hslots.
  - apply Hcl.
  - intros q1 q2 g H1 H2 L1 L2 T1 T2.
    apply link_tables in T1 as [[T1 _]|[-> ->]], T2 as [[T2 _]|[-> E2]]; try done.
    + by apply (so_distinct s Hs q1 q2 g).
    + subst g. by destruct (link_own q1 f).
    + by destruct (link_own q2 f).
  - intros g (q1 & H1 & L1 & T1) Hg. apply (cl_taken _ _ _ Hcl) in Hg as [Hg Hgf].
    apply link_tables in T1 as [[T1 _]|[-> ->]]; try done.
    apply (so_busy s Hs g); [by exists q1|done].
  - intros Hg. apply (cl_taken _ _ _ Hcl) in Hg as [Hg _]. by apply (so_CR3_busy s Hs).
  - intros q1 H1 L1 T1. apply link_tables in T1 as [[T1 _]|[-> Hf]]; try done.
    + by apply (so_CR3_apart s Hs).
    + destruct (so_CR3_busy s Hs). rewrite Hf. apply Hln.
Qed.

Lemma link_translate va : regular_va va -> translate (ram s') root va = translate (ram s) root va.
Proof.
  intros Hva. unfold translate, regular_va in *. set (P := va_path _) in *.
  assert (HP : length P = 4%nat) by done. pose proof (ln_short _ _ _ _ _ _ Hln) as Hl.
  destruct (decide ((q ++ [i]) `prefix_of` P)) as [[r HPr]|Hp].
  - rewrite <- app_assoc in HPr. cbn [app] in HPr.
    assert (Hr : exists j r', r = j :: r').
    { destruct r as [|j r]; [|by exists j, r]. rewrite HPr, length_app in HP. cbn in HP. lia. }
    destruct Hr as (j & r' & ->). rewrite HPr.
    rewrite (walk_absent (ram s) root q t) by apply Hln.
    change (q ++ i :: j :: r') with (q ++ [i] ++ j :: r'). rewrite app_assoc.
    apply (walk_absent (ram s') root (q ++ [i]) f); [apply link_here|].
    rewrite (cl_zero _ _ _ Hcl); [done|].
    rewrite HPr in Hva. destruct Hva as [Hf _]. apply Forall_app in Hf as [_ Hf].
    by apply Forall_cons in Hf as [_ Hf]; apply Forall_cons in Hf as [Hf _].
  - apply walk_agree. intros q1 j q2 t' He Ht'.
    destruct (prefix_cells P q1 j q2 Hva ltac:(lia) Hp He) as (? & ? & ?). by apply (link_cell q1).
Qed.

Lemma link_entry q' j :
  regular (q' ++ [j]) -> (length q' <= 3)%nat ->
  (entry_at s' q' j = entry_at s q' j)
  \/ (q' = q /\ j = i /\ entry_at s' q' j = Some (ram s' (t + ENTRY_SIZE * i)))
  \/ (q' = q ++ [i] /\ entry_at s q' j = None /\ entry_at s' q' j = Some 0).
Proof.
  intros Hq Hl. pose proof (regular_last _ _ Hq) as Hj. unfold entry_at.
  destruct (table (ram s') root q') as [g|] eqn:Hg.
  - apply link_tables in Hg as [[Hg Hp]|[-> ->]]; [|..|by eapply regular_prefix|done].
    + rewrite Hg. cbn. destruct (decide (q' ++ [j] = q ++ [i])) as [He|Hne].
      * apply app_inj_tail in He as [-> ->]. rewrite (ln_table _ _ _ _ _ _ Hln) in Hg. injection Hg as ->.
        right; left. done.
      * left. by rewrite (link_cell q').
    + right; right. rewrite link_before. cbn. by rewrite (cl_zero _ _ _ Hcl).
  - left. destruct (table (ram s) root q') as [g|] eqn:Hg'; [|done].
    rewrite link_elsewhere in Hg; [congruence|by eapply regular_prefix|lia|].
    intros [r ->]. rewrite <- app_assoc in Hg'. cbn in Hg'. by rewrite link_before in Hg'.
Qed.

Lemma link_edited P : edited P s s'.
Proof.
  pose proof (ln_short _ _ _ _ _ _ Hln) as Hl. split.
  - intros q' g Hq' Hl' Ht. rewrite link_elsewhere; [done|done|lia|].
    intros [r ->]. rewrite <- app_assoc in Ht. cbn in Ht. by rewrite link_before in Ht.
  - intros va Hva _. by apply link_translate.
  - intros q' j Hq' Hl' Hj _.
    assert (Hqj : regular (q' ++ [j])).
    { destruct Hq' as [Hf Hh]. split; [apply Forall_app; split; [done|by constructor]|]. by destruct q'. }
    destruct (link_entry q' j) as [He|[(-> & _ & _)|(-> & He & He')]]; try done; [lia|by left|lia|by right].
  - intros q' j e Hq' Hl' He Hp Hps. destruct (link_entry q' j) as [He'|[(-> & -> & He')|(-> & _ & He')]]; [done|lia|..].
    + by rewrite <- He'.
    + rewrite He' in He. injection He as <-. pose proof (ln_entry _ _ _ _ _ _ Hln) as Hn.
      unfold next in Hn. by rewrite Hps, andb_false_r in Hn.
    + rewrite He' in He. by injection He as <-.
  - intros a Hf Ht. apply (ln_same _ _ _ _ _ _ Hln).
    + intros <-. by apply Hf, Hln.
    + intros ->. apply Ht. exists q. pose proof (ln_path _ _ _ _ _ _ Hln) as Hp.
      pose proof (regular_last _ _ Hp) as Hi. unfold index_ok in Hi.
      split; [by eapply regular_prefix|]. split; [lia|]. rewrite frame_of_cell.
      * apply Hln.
      * apply (link_own q); [by eapply regular_prefix|lia|apply Hln].
      * unfold FRAME_SIZE, ENTRY_SIZE. lia.
  - intros g Hg. by apply (cl_taken _ _ _ Hcl) in Hg as [Hg _].
  - intros g (q1 & H1 & L1 & T1). apply link_tables in T1 as [[T1 _]|[-> ->]]; try done.
    + left. by exists q1.
    + right. apply Hln.
Qed.
End Link.
End Space.
