(* ===== verification/PageMapProps.v ===== *)
(** * Properties of the page-table editor: mapping pages

    [MapPage] and [MapOnDemand] on an address space that satisfies
    [space_ok]: what they map, and that nothing else moves. *)
From S2P Require Import Prelude Paging PageTables PageTablesProps.

(** ** Encoded entries *)

Lemma FilterAddress_frame m f :
  0 <= m <= 52 -> aligned f -> 0 <= f < 2 ^ m -> FilterAddress m f = f.
Proof.
  intros Hm Hf Hr. unfold FilterAddress.
  replace (2 ^ m - 1) with (Z.ones m) by (rewrite Z.ones_equiv; lia).
  rewrite Z.land_ones, Z.mod_small by lia.
  assert (Hlt : f < 2 ^ 52) by (apply Z.lt_le_trans with (2 ^ m); [lia|]; apply Z.pow_le_mono_r; lia).
  change (bnot 64 0xFFF) with (Z.shiftl (Z.ones 52) 12). rewrite land_mask by done.
  unfold aligned, FRAME_SIZE in Hf. rewrite Z.mod_small; [zdiv|].
  split; [apply Z.div_pos; lia|]. apply Z.div_lt_upper_bound; [done|]. change (2 ^ 12) with 4096. lia.
Qed.

Lemma land_ADDRESS_frame f : aligned f -> 0 <= f < 2 ^ 52 -> Z.land f ADDRESS = f.
Proof.
  intros Hf Hr. change ADDRESS with (Z.shiftl (Z.ones 40) 12). rewrite land_mask by done.
  unfold aligned, FRAME_SIZE in Hf. rewrite Z.mod_small; [zdiv|]. zdiv.
Qed.

(** Flags below bit 12 with an address: what the processor reads. *)
Lemma entry_fields c f :
  0 <= c < 4096 -> aligned f -> 0 <= f < 2 ^ 52 ->
  Z.land (Z.lor c (Z.land f ADDRESS)) ADDRESS = f
  /\ hasflag (Z.lor c (Z.land f ADDRESS)) PRESENT = Z.testbit c 0
  /\ hasflag (Z.lor c (Z.land f ADDRESS)) PAGE_SIZE_BIT = Z.testbit c 7.
Proof.
  intros Hc Hf Hr. split; [|split].
  - rewrite Z.land_lor_distr_l, <- Z.land_assoc, Z.land_diag, (land_ADDRESS_frame f) by done.
    change ADDRESS with (Z.shiftl (Z.ones 40) 12). rewrite land_mask, Z.div_small by (done || lia). apply Z.lor_0_l.
  - change PRESENT with (2 ^ 0). rewrite hasflag_pow2, Z.lor_spec, Z.land_spec by done.
    change (Z.testbit ADDRESS 0) with false. btauto.
  - change PAGE_SIZE_BIT with (2 ^ 7). rewrite hasflag_pow2, Z.lor_spec, Z.land_spec by done.
    change (Z.testbit ADDRESS 7) with false. btauto.
Qed.

Lemma next_of c f :
  0 <= c < 4096 -> Z.testbit c 0 = true -> Z.testbit c 7 = false -> aligned f -> 0 <= f < 2 ^ 52 ->
  next (Z.lor c (Z.land f ADDRESS)) = Some f.
Proof.
  intros Hc H0 H7 Hf Hr. unfold next. destruct (entry_fields c f Hc Hf Hr) as (-> & -> & ->).
  by rewrite H0, H7.
Qed.

Lemma next_pml4e user f : aligned f -> 0 <= f < 2 ^ 52 -> next (SetPML4EInfo (pml4e_to user f)) = Some f.
Proof. intros. apply (next_of (if user then 7 else 3)); try done; by destruct user. Qed.

Lemma next_pdpte user f : aligned f -> 0 <= f < 2 ^ 52 -> next (SetPDPTEInfo (pde_to user false f)) = Some f.
Proof. intros. apply (next_of (if user then 7 else 3)); try done; by destruct user. Qed.

Lemma next_pde user f : aligned f -> 0 <= f < 2 ^ 52 -> next (SetPDEInfo (pde_to user false f)) = Some f.
Proof. intros. apply (next_of (if user then 7 else 3)); try done; by destruct user. Qed.

(** ** Building the tables of an address *)

Section Space.
Context {A : Type} `{Laws : FrameAllocatorLaws A MAXPHYADDR}.
Context (CR3 root : Z) (primary : bool).
Hypothesis Hphys : 0 <= MAXPHYADDR <= 52.
Abbreviation slot := (loop_slot primary).
Abbreviation space_ok := (space_ok CR3 root primary).
Abbreviation edited := (edited root).
Abbreviation entry_at := (entry_at root).

(** No entry at [i] of the table at [q] maps a large page. *)
Definition not_large (s : machine A) (q : list Z) (i : Z) : Prop :=
  forall e, entry_at s q i = Some e -> hasflag e PRESENT = true -> hasflag e PAGE_SIZE_BIT = false.

Lemma edited_not_large P s s' q i :
  edited P s s' -> regular (q ++ [i]) -> (length q <= 2)%nat -> not_large s q i -> not_large s' q i.
Proof.
  intros Hg Hq Hl Hn e He Hp. destruct (hasflag e PAGE_SIZE_BIT) eqn:Hps; [|done].
  rewrite <- Hps. apply Hn; [|done]. by apply (gr_large _ _ _ _ Hg).
Qed.

Lemma frame_range f : 0 <= f < 2 ^ MAXPHYADDR -> 0 <= f < 2 ^ 52.
Proof.
  intros Hf. assert (2 ^ MAXPHYADDR <= 2 ^ 52) by (apply Z.pow_le_mono_r; lia). lia.
Qed.

Lemma edited_frames P s a' :
  (forall g, frame_free a' g -> frame_free (frames s) g) -> edited P s (mkMachine (ram s) a').
Proof. intros Hf. split; try done; intros; by left. Qed.

Lemma space_frames s a' :
  space_ok s -> frames_ok a' -> (forall g, frame_free a' g -> frame_free (frames s) g) ->
  space_ok (mkMachine (ram s) a').
Proof.
  intros [S1 S2 S3 S4 S5 S6 S7 S8 S9] Ha Hf. split; try done.
  - intros g Hg Hg'. apply (S7 g); [done|by apply Hf].
  - intros Hg'. by apply S8, Hf.
Qed.

(** The outcome of building: the tables are there, unless memory ran out. *)
Definition built (P : list Z -> Prop) (q : list Z) (s : machine A) (r : option (bool * machine A)) : Prop :=
  exists b s', r = Some (b, s') /\ space_ok s' /\ edited P s s'
    /\ (b = true -> exists t, table (ram s') root q = Some t).

Lemma ensure_built P s q i t entry tbl present make :
  space_ok s -> regular (q ++ [i]) -> (length q <= 2)%nat -> table (ram s) root q = Some t ->
  entry = rec_addr slot q (8 * i) ->
  (forall k, index_ok k -> u64 (tbl + 8 * k) = rec_addr slot (q ++ [i]) (8 * k)) ->
  (forall e, present e = hasflag e PRESENT) ->
  (forall f, aligned f -> 0 <= f < 2 ^ 52 -> next (make f) = Some f) ->
  not_large s q i ->
  built P (q ++ [i]) s (EnsureTable CR3 MAXPHYADDR entry tbl present make s).
Proof.
  intros Hs Hq Hl Ht -> Htbl Hpres Hmake Hnl.
  pose proof (regular_last _ _ Hq) as Hi. pose proof (regular_prefix _ _ Hq) as Hq1.
  unfold EnsureTable, mbind, MM_bind. rewrite (read_entry _ _ _ s q t) by (done || lia). rewrite Hpres.
  destruct (hasflag _ PRESENT) eqn:Hp; cbn [negb].
  { exists true, s. split; [done|]. split; [done|]. split; [apply edited_refl|]. intros _.
    rewrite table_snoc, Ht. cbn. unfold next. rewrite Hp.
    rewrite (Hnl (ram s (t + ENTRY_SIZE * i))); [by eexists| |done]. unfold PageTablesProps.entry_at. by rewrite Ht. }
  unfold Allocate. destruct (AllocateFrame (frames s)) as [[f|] a'] eqn:Ea.
  2: { destruct (AllocateFrame_none _ _ (so_frames _ _ _ _ Hs) Ea) as [Ha Hfree].
    exists false, (mkMachine (ram s) a'). split; [done|].
    split; [by apply space_frames|]. split; [by apply edited_frames|done]. }
  destruct (AllocateFrame_some _ _ _ (so_frames _ _ _ _ Hs) Ea) as (Ha & Hf & Hal & Hr & Hfree).
  rewrite FilterAddress_frame by (done || lia).
  set (s0 := mkMachine (ram s) a'). set (e := make f).
  rewrite (write_linked CR3 root primary s0 q t); [|apply (space_linked _ _ _ _ Hs)|apply Hs|done|lia|done|done].
  set (s1 := mkMachine _ _).
  assert (Htf : frame_of (t + ENTRY_SIZE * i) <> f).
  { unfold index_ok in Hi. rewrite frame_of_cell; [|eauto using table_aligned, so_root|unfold FRAME_SIZE, ENTRY_SIZE; lia].
    intros ->. apply (so_busy _ _ _ s Hs f); [exists q; split_and!; [done|lia|done]|done]. }
  assert (Hln : forall s', (forall a, frame_of a <> f -> ram s' a = ram s1 a) -> links root s s' q i t f).
  { intros s' Hsame. split; try done.
    - rewrite Hsame by done. cbn [s1 ram]. rewrite upd_lookup, decide_True by done. apply Hmake; [done|apply frame_range; lia].
    - intros a Hne Hcell. rewrite Hsame by done. cbn. by rewrite upd_lookup, decide_False. }
  destruct (zero_words_spec CR3 root primary 512 tbl f (q ++ [i]) 0 s1) as (s' & Hz & Hfr & Hout & Hin); try done.
  { rewrite length_app. cbn. lia. }
  { apply Hs. }
  { intros mem Hmem. specialize (Hln (mkMachine mem a') Hmem).
    split; [by apply (link_linked CR3 root primary s (mkMachine mem a') q i t f)|].
    by apply (link_here CR3 root primary s (mkMachine mem a') q i t f). }
  assert (HC : cleared s s' f).
  { split; [|by rewrite Hfr|by rewrite Hfr].
    intros j Hj. rewrite Hin by done. by rewrite decide_True by (unfold index_ok in Hj; lia). }
  specialize (Hln s' Hout). unfold ZeroPage. rewrite Hz. exists true, s'. split; [done|].
  split; [by apply (link_space CR3 root primary s s' q i t f)|].
  split; [by apply (link_edited CR3 root primary s s' q i t f)|]. intros _. exists f.
  by apply (link_here CR3 root primary s s' q i t f).
Qed.

(** ** Storing a last-level entry *)

Section Leaf.
Context (s : machine A) (q : list Z) (i t e : Z).
Hypothesis Hs : space_ok s.
Hypothesis Hq : regular (q ++ [i]).
Hypothesis Hl : length q = 3%nat.
Hypothesis Ht : table (ram s) root q = Some t.
Let s' : machine A := mkMachine (<[t + ENTRY_SIZE * i := e]> (ram s)) (frames s).

Lemma leaf_cell q' j t' :
  regular (q' ++ [j]) -> (length q' <= 3)%nat -> table (ram s) root q' = Some t' -> q' ++ [j] <> q ++ [i] ->
  ram s' (t' + ENTRY_SIZE * j) = ram s (t' + ENTRY_SIZE * j).
Proof. intros. apply (store_cells CR3 root primary s q t i e q' t' j); done || lia. Qed.

Lemma leaf_tables q' : regular q' -> (length q' <= 3)%nat -> table (ram s') root q' = table (ram s) root q'.
Proof.
  intros Hq' Hl'. apply table_agree. intros q1 j q2 t' He Ht'. subst q'. rewrite length_app in Hl'. cbn in Hl'.
  apply (leaf_cell q1); [|lia|done|].
  - apply (regular_prefix _ q2). by rewrite <- app_assoc.
  - intros Heq. apply (f_equal length) in Heq. rewrite !length_app in Heq. cbn in Heq. lia.
Qed.

Lemma leaf_is_table g : is_table root s' g -> is_table root s g.
Proof. intros (q' & Hq' & Hl' & Hg). exists q'. split_and!; [done..|]. by rewrite <- leaf_tables. Qed.

Lemma leaf_space : space_ok s'.
Proof.
  destruct (store_linked CR3 root primary s q t i e Hs Hq ltac:(lia) Ht) as [L1 L2].
  pose proof Hs as [S1 S2 S3 S4 S5 S6 S7 S8 S9]. split; try done.
  - intros q1 q2 g H1 H2 E1 E2. rewrite !leaf_tables by done. eauto.
  - intros g Hg. by apply S7, leaf_is_table.
  - intros q1 H1 E1. rewrite leaf_tables by done. auto.
Qed.

Lemma leaf_entry q' j :
  regular (q' ++ [j]) -> (length q' <= 3)%nat -> q' ++ [j] <> q ++ [i] -> entry_at s' q' j = entry_at s q' j.
Proof.
  intros Hq' Hl' Hne. unfold PageTablesProps.entry_at. rewrite leaf_tables by (eauto using regular_prefix).
  destruct (table (ram s) root q') as [t'|] eqn:Ht'; [|done]. cbn [mbind option_bind].
  by rewrite (leaf_cell q').
Qed.

Lemma leaf_here : entry_at s' q i = Some e.
Proof.
  unfold PageTablesProps.entry_at. rewrite leaf_tables by (eauto using regular_prefix || lia).
  rewrite Ht. cbn. by rewrite upd_lookup, decide_True.
Qed.

Lemma leaf_edited : edited (eq (q ++ [i])) s s'.
Proof.
  split.
  - intros q' t' Hq' Hl' Ht'. by rewrite leaf_tables.
  - intros va Hva HP. unfold translate, regular_va in *. set (pa := va_path _) in *.
    assert (Hpa : length pa = 4%nat) by done.
    apply walk_agree. intros q1 j q2 t' He Ht'. rewrite He, length_app in Hpa. cbn in Hpa.
    apply (leaf_cell q1); [|lia|done|].
    + apply (regular_prefix _ q2). rewrite <- app_assoc. cbn [app]. by rewrite <- He.
    + intros Heq. apply HP. assert (length q2 = 0%nat) as E.
      { apply (f_equal length) in Heq. rewrite !length_app in Heq. cbn in Heq. lia. }
      apply nil_length_inv in E as ->. by rewrite <- Heq, He.
  - intros q' j Hq' Hl' Hj HP. left. apply leaf_entry; [|lia|congruence].
    destruct Hq' as [Hf Hh]. split; [apply Forall_app; split; [done|by constructor]|]. by destruct q'.
  - intros q' j e' Hq' Hl' He _ _. rewrite leaf_entry in He; [done|done|lia|].
    intros Heq. apply (f_equal length) in Heq. rewrite !length_app in Heq. cbn in Heq. lia.
  - intros a Hf Ha. cbn. rewrite upd_lookup, decide_False; [done|]. intros <-. apply Ha. exists q.
    pose proof (regular_last _ _ Hq) as Hi. unfold index_ok in Hi.
    split; [by eapply regular_prefix|]. split; [lia|]. rewrite frame_of_cell; [done| |unfold FRAME_SIZE, ENTRY_SIZE; lia].
    eauto using table_aligned, so_root.
  - done.
  - intros g Hg. left. by apply leaf_is_table.
Qed.
End Leaf.

(** ** The four levels of an address *)

Definition not_large_on (s : machine A) (v : VirtualAddress) : Prop :=
  not_large s [] (PML4_offset v) /\ not_large s [PML4_offset v] (PDPT_offset v)
  /\ not_large s [PML4_offset v; PDPT_offset v] (PD_offset v).

Lemma edited_not_large_on P s s' v :
  edited P s s' -> regular (va_path v) -> not_large_on s v -> not_large_on s' v.
Proof.
  intros He Hv (H1 & H2 & H3).
  assert (Hpre : forall q1 q2, va_path v = q1 ++ q2 -> regular q1) by (intros q1 q2 E; rewrite E in Hv; by eapply regular_prefix).
  split_and!; eapply edited_not_large; eauto.
Qed.

Lemma regular_levels v :
  regular (va_path v) ->
  regular ([] ++ [PML4_offset v]) /\ regular ([PML4_offset v] ++ [PDPT_offset v])
  /\ regular ([PML4_offset v; PDPT_offset v] ++ [PD_offset v])
  /\ regular ([PML4_offset v; PDPT_offset v; PD_offset v] ++ [PT_offset v]).
Proof.
  intros Hv. split_and!; [| | |done].
  - by apply (regular_prefix _ [PDPT_offset v; PD_offset v; PT_offset v]).
  - by apply (regular_prefix _ [PD_offset v; PT_offset v]).
  - by apply (regular_prefix _ [PT_offset v]).
Qed.

Lemma pde_present_flag e : pde_present (GetPDEInfo e) = hasflag e PRESENT.
Proof. done. Qed.

Lemma EnsurePDPT_built P s v privilege :
  space_ok s -> va_ok v -> regular (va_path v) -> not_large_on s v ->
  built P [PML4_offset v] s (EnsurePDPT CR3 MAXPHYADDR primary v privilege s).
Proof.
  intros Hs Hv Hr (Hn & _). destruct (regular_levels v Hr) as (R1 & _).
  apply (ensure_built P s [] (PML4_offset v) root); try done.
  - cbn; lia.
  - destruct (entry_addresses v primary Hv) as (E & _). exact E.
  - intros k Hk. destruct (table_addresses v primary k Hv Hk) as (E & _). exact E.
  - intros f. apply next_pml4e.
Qed.

Lemma EnsurePD_built P s v privilege t :
  space_ok s -> va_ok v -> regular (va_path v) -> not_large_on s v ->
  table (ram s) root [PML4_offset v] = Some t ->
  built P [PML4_offset v; PDPT_offset v] s (EnsurePD CR3 MAXPHYADDR primary v privilege s).
Proof.
  intros Hs Hv Hr (_ & Hn & _) Ht. destruct (regular_levels v Hr) as (_ & R2 & _).
  apply (ensure_built P s [PML4_offset v] (PDPT_offset v) t); try done.
  - cbn; lia.
  - destruct (entry_addresses v primary Hv) as (_ & E & _). exact E.
  - intros k Hk. destruct (table_addresses v primary k Hv Hk) as (_ & E & _). exact E.
  - intros f. apply next_pdpte.
Qed.

Lemma EnsurePT_built P s v privilege t :
  space_ok s -> va_ok v -> regular (va_path v) -> not_large_on s v ->
  table (ram s) root [PML4_offset v; PDPT_offset v] = Some t ->
  built P [PML4_offset v; PDPT_offset v; PD_offset v] s (EnsurePT CR3 MAXPHYADDR primary v privilege s).
Proof.
  intros Hs Hv Hr (_ & _ & Hn) Ht. destruct (regular_levels v Hr) as (_ & _ & R3 & _).
  apply (ensure_built P s [PML4_offset v; PDPT_offset v] (PD_offset v) t); try done.
  - destruct (entry_addresses v primary Hv) as (_ & _ & E & _). exact E.
  - intros k Hk. destruct (table_addresses v primary k Hv Hk) as (_ & _ & E). exact E.
  - intros f. apply next_pde.
Qed.

Lemma walk_last mem t q t1 i va :
  table mem t q = Some t1 ->
  walk mem t (q ++ [i]) va =
    let e := mem (t1 + ENTRY_SIZE * i) in if hasflag e PRESENT then leaf_address 0 e va else None.
Proof.
  revert t. induction q as [|j q IH]; intros t; cbn [table app].
  - intros [= ->]. cbn [walk]. cbv zeta. by destruct (hasflag _ PRESENT).
  - destruct (next _) as [t2|] eqn:E; [|done]. intros Ht.
    rewrite walk_cons by (by destruct q). cbv zeta. unfold next in E.
    destruct (hasflag (mem (t + ENTRY_SIZE * j)) PRESENT); [|done].
    destruct (hasflag (mem (t + ENTRY_SIZE * j)) PAGE_SIZE_BIT); [done|].
    injection E as <-. by apply IH.
Qed.

(** What the processor makes of the last-level entry of an address. *)
Lemma translate_leaf (s : machine A) q i e va :
  va_path (ParseVirtualAddress va) = q ++ [i] -> entry_at s q i = Some e ->
  translate (ram s) root va = if hasflag e PRESENT then Some (Z.lor (Z.land e ADDRESS) (va mod FRAME_SIZE)) else None.
Proof.
  intros Hp He. unfold translate, PageTablesProps.entry_at in *. rewrite Hp.
  destruct (table (ram s) root q) as [t|] eqn:Ht; [|done]. injection He as He.
  rewrite (walk_last _ _ _ t) by done. cbv zeta. rewrite He. cbn [leaf_address]. by rewrite land_FFF.
Qed.

Lemma translate_mapped (s : machine A) q i user pa va :
  va_path (ParseVirtualAddress va) = q ++ [i] -> aligned pa -> 0 <= pa < 2 ^ MAXPHYADDR ->
  entry_at s q i = Some (SetPTEInfo (pte_to user pa)) ->
  translate (ram s) root va = Some (pa + va mod FRAME_SIZE).
Proof.
  intros Hp Ha Hr He. rewrite (translate_leaf s q i _ va Hp He).
  apply frame_range in Hr.
  destruct (entry_fields (if user then 7 else 3) pa ltac:(by destruct user) Ha Hr) as (H1 & H2 & _).
  replace (SetPTEInfo (pte_to user pa)) with (Z.lor (if user then 7 else 3) (Z.land pa ADDRESS)) by (by destruct user).
  rewrite H1, H2. destruct user; cbn; rewrite lor_aligned; try done; by apply Z.mod_pos_bound.
Qed.

(** ** The three tables *)

Definition BuildTables (v : VirtualAddress) (privilege : AccessPrivilege) : MM A bool :=
  ok ← EnsurePDPT CR3 MAXPHYADDR primary v privilege;
  if negb ok then mret false else
  ok ← EnsurePD CR3 MAXPHYADDR primary v privilege;
  if negb ok then mret false else EnsurePT CR3 MAXPHYADDR primary v privilege.

Lemma BuildTables_built P s v privilege :
  space_ok s -> va_ok v -> regular (va_path v) -> not_large_on s v ->
  built P [PML4_offset v; PDPT_offset v; PD_offset v] s (BuildTables v privilege s).
Proof.
  intros Hs Hv Hr Hn. unfold BuildTables, mbind, MM_bind.
  destruct (EnsurePDPT_built P s v privilege Hs Hv Hr Hn) as (b1 & s1 & -> & Hs1 & He1 & Ht1).
  destruct b1; cbn [negb]; [|by exists false, s1].
  destruct (Ht1 eq_refl) as [t1 T1].
  pose proof (edited_not_large_on P s s1 v He1 Hr Hn) as Hn1.
  destruct (EnsurePD_built P s1 v privilege t1 Hs1 Hv Hr Hn1 T1) as (b2 & s2 & -> & Hs2 & He2 & Ht2).
  pose proof (edited_trans _ _ _ _ _ He1 He2) as He12.
  destruct b2; cbn [negb]; [|by exists false, s2].
  destruct (Ht2 eq_refl) as [t2 T2].
  pose proof (edited_not_large_on P s1 s2 v He2 Hr Hn1) as Hn2.
  destruct (EnsurePT_built P s2 v privilege t2 Hs2 Hv Hr Hn2 T2) as (b3 & s3 & -> & Hs3 & He3 & Ht3).
  exists b3, s3. split; [done|]. split; [done|]. split; [by eapply edited_trans|done].
Qed.

(** ** Mapping a page *)

Lemma MapPage_steps pa va privilege s :
  aligned pa -> aligned va ->
  MapPage CR3 MAXPHYADDR primary pa va privilege false s =
    let v := ParseVirtualAddress va in
    match BuildTables v privilege s with
    | None => None
    | Some (false, s1) => Some (false, s1)
    | Some (true, s1) =>
        (vwrite CR3 (GetPTEAddress v primary)
          (Z.lor (Z.lor (orif (leaf_user privilege) (Z.land (FilterAddress MAXPHYADDR pa) ADDRESS) USERMODE)
            READWRITE) PRESENT) ;;
        vwrite CR3 (GetPTEAddress v primary) (SetPTEInfo (pte_to (leaf_user privilege) (FilterAddress MAXPHYADDR pa))) ;;
        mret true) s1
    end.
Proof.
  unfold aligned. intros Hp Hv. unfold MapPage. rewrite Hp, Hv. cbn [Z.eqb negb orb].
  unfold BuildTables, mbind, MM_bind. cbv zeta.
  destruct (EnsurePDPT _ _ _ _ _ s) as [[[] s1]|]; cbn [negb]; [|done..].
  destruct (EnsurePD _ _ _ _ _ s1) as [[[] s2]|]; cbn [negb]; [|done..].
  destruct (EnsurePT _ _ _ _ _ s2) as [[[] s3]|]; done.
Qed.

(** Storing the last-level entry of an address whose tables are there. *)
Lemma store_leaf s v t e :
  space_ok s -> va_ok v -> regular (va_path v) ->
  table (ram s) root [PML4_offset v; PDPT_offset v; PD_offset v] = Some t ->
  exists s', vwrite CR3 (GetPTEAddress v primary) e s = Some (tt, s') /\ space_ok s' /\ edited (eq (va_path v)) s s'
    /\ entry_at s' [PML4_offset v; PDPT_offset v; PD_offset v] (PT_offset v) = Some e.
Proof.
  intros Hs Hv Hr Ht. destruct (regular_levels v Hr) as (_ & _ & _ & Hr').
  pose proof (regular_prefix _ _ Hr') as Hrt. pose proof (regular_last _ _ Hr') as Hi.
  destruct (entry_addresses v primary Hv) as (_ & _ & _ & ->).
  rewrite (write_entry CR3 root primary s _ t) by done.
  set (q := [PML4_offset v; PDPT_offset v; PD_offset v]) in *.
  eexists. split; [done|]. split; [by apply (leaf_space s q)|].
  split; [by apply (leaf_edited s q (PT_offset v))|]. by apply (leaf_here s q).
Qed.

Lemma edited_or P Q s1 s2 s3 :
  edited P s1 s2 -> edited Q s2 s3 -> edited (fun p => P p \/ Q p) s1 s3.
Proof.
  intros H1 H2. eapply edited_trans; (eapply edited_weaken; [|eassumption]); auto.
Qed.

(** The pages edited when an operation succeeds; none when it fails. *)
Definition on_success (b : bool) (P : list Z -> Prop) : list Z -> Prop := fun p => b = true /\ P p.

Lemma edited_success b (P : list Z -> Prop) Q s s' : edited P s s' -> (forall p, P p -> b = true /\ Q p) -> edited (on_success b Q) s s'.
Proof. intros He Hp. by eapply edited_weaken; [|exact He]. Qed.

Lemma MapPage_edits s pa va privilege :
  let v := ParseVirtualAddress va in
  space_ok s -> regular_va va -> not_large_on s v -> aligned pa -> aligned va -> 0 <= pa < 2 ^ MAXPHYADDR ->
  exists b s', MapPage CR3 MAXPHYADDR primary pa va privilege false s = Some (b, s')
    /\ space_ok s' /\ edited (on_success b (eq (va_path v))) s s'
    /\ (b = true -> entry_at s' [PML4_offset v; PDPT_offset v; PD_offset v] (PT_offset v)
         = Some (SetPTEInfo (pte_to (leaf_user privilege) pa))).
Proof.
  intros v Hs Hr Hn Hpa Hva Hrange. pose proof (ParseVirtualAddress_ok va) as Hv. fold v in Hv.
  rewrite MapPage_steps by done. cbv zeta. fold v. rewrite FilterAddress_frame by done.
  destruct (BuildTables_built (fun _ => False) s v privilege Hs Hv Hr Hn) as (b & s1 & -> & Hs1 & He1 & Ht1).
  destruct b; [|exists false, s1; split_and!; [done..| |done]; by eapply edited_success; [exact He1|]].
  destruct (Ht1 eq_refl) as [t T1]. unfold mbind, MM_bind.
  set (e0 := Z.lor _ _).
  destruct (store_leaf s1 v t e0 Hs1 Hv Hr T1) as (s2 & -> & Hs2 & He2 & _).
  destruct (regular_levels v Hr) as (_ & _ & _ & Hr').
  assert (T2 : table (ram s2) root [PML4_offset v; PDPT_offset v; PD_offset v] = Some t).
  { eapply gr_tables; [exact He2| |done|done]. by eapply regular_prefix. }
  destruct (store_leaf s2 v t (SetPTEInfo (pte_to (leaf_user privilege) pa)) Hs2 Hv Hr T2) as (s3 & -> & Hs3 & He3 & Hx).
  exists true, s3. split_and!; [done|done| |done].
  pose proof (edited_or _ _ _ _ _ He1 (edited_or _ _ _ _ _ He2 He3)) as He.
  eapply edited_success; [exact He|]. cbn. intros p Hp. split; [done|tauto].
Qed.

(** ** Mapping on demand *)

(** The entry of a page promised but not there yet. *)
Definition demand_entry (privilege : AccessPrivilege) : Z :=
  Z.lor (orif (leaf_user privilege) NP_ON_DEMAND NP_USERMODE) NP_READWRITE.

Lemma map_on_demand_steps n address privilege s :
  map_on_demand CR3 MAXPHYADDR primary (S n) address privilege s =
    match BuildTables (ParseVirtualAddress address) privilege s with
    | None => None
    | Some (false, s1) => Some (false, s1)
    | Some (true, s1) =>
        (vwrite CR3 (GetPTEAddress (ParseVirtualAddress address) primary) (demand_entry privilege) ;;
         map_on_demand CR3 MAXPHYADDR primary n (u64 (address + FRAME_SIZE)) privilege) s1
    end.
Proof.
  cbn [map_on_demand]. unfold BuildTables, mbind, MM_bind. cbv zeta.
  destruct (EnsurePDPT _ _ _ _ _ s) as [[[] s1]|]; cbn [negb]; [|done..].
  destruct (EnsurePD _ _ _ _ _ s1) as [[[] s2]|]; cbn [negb]; [|done..].
  destruct (EnsurePT _ _ _ _ _ s2) as [[[] s3]|]; done.
Qed.

(** The pages of a range. *)
Definition page_path (address k : Z) : list Z := va_path (ParseVirtualAddress (address + FRAME_SIZE * k)).
Definition in_range (address n : Z) (p : list Z) : Prop := exists k, 0 <= k < n /\ p = page_path address k.

Definition demanded (s : machine A) (va : Z) (privilege : AccessPrivilege) : Prop :=
  let v := ParseVirtualAddress va in
  entry_at s [PML4_offset v; PDPT_offset v; PD_offset v] (PT_offset v) = Some (demand_entry privilege).

Lemma edited_entry P s s' v :
  edited P s s' -> regular (va_path v) -> ~ P (va_path v) ->
  forall e, entry_at s [PML4_offset v; PDPT_offset v; PD_offset v] (PT_offset v) = Some e ->
  entry_at s' [PML4_offset v; PDPT_offset v; PD_offset v] (PT_offset v) = Some e.
Proof.
  intros He Hr HP e Hx. destruct (regular_levels v Hr) as (_ & _ & _ & Hr').
  destruct (gr_leaf _ _ _ _ He _ (PT_offset v) (regular_prefix _ _ Hr') eq_refl (regular_last _ _ Hr') HP)
    as [->|[Hnone _]]; [done|congruence].
Qed.

Lemma page_path_inj address j k :
  aligned address -> Z.abs (j - k) < 2 ^ 36 -> page_path address j = page_path address k -> j = k.
Proof.
  unfold page_path, va_path, aligned. intros Ha Hjk.
  pose proof (ParseVirtualAddress_pages (address + FRAME_SIZE * j)) as Hj.
  pose proof (ParseVirtualAddress_pages (address + FRAME_SIZE * k)) as Hk.
  cbv zeta in Hj, Hk. generalize dependent (ParseVirtualAddress (address + FRAME_SIZE * k)). intros v Hk.
  generalize dependent (ParseVirtualAddress (address + FRAME_SIZE * j)). intros u Hj [= H4 H3 H2 H1].
  rewrite H4, H3, H2, H1, Hk in Hj. clear H4 H3 H2 H1 Hk.
  unfold FRAME_SIZE, PAGE_SIZE in *. change (2 ^ 48) with (0x1000 * 2 ^ 36) in Hj. zdiv.
Qed.

Lemma page_path_shift address k : page_path (address + FRAME_SIZE) k = page_path address (k + 1).
Proof. unfold page_path. f_equal. f_equal. lia. Qed.

Lemma page_path_0 address : page_path address 0 = va_path (ParseVirtualAddress address).
Proof. unfold page_path. by rewrite Z.mul_0_r, Z.add_0_r. Qed.

Lemma Parse_u64 x : ParseVirtualAddress (u64 x) = ParseVirtualAddress x.
Proof.
  rewrite !ParseVirtualAddress_digits. unfold wrap.
  f_equal; zdiv.
Qed.

Lemma map_on_demand_u64 n address privilege s :
  map_on_demand CR3 MAXPHYADDR primary n (u64 address) privilege s = map_on_demand CR3 MAXPHYADDR primary n address privilege s.
Proof.
  destruct n as [|n]; [done|]. rewrite !map_on_demand_steps, Parse_u64.
  replace (u64 (u64 address + FRAME_SIZE)) with (u64 (address + FRAME_SIZE)); [done|].
  unfold wrap. by rewrite Zplus_mod_idemp_l.
Qed.

Lemma map_on_demand_edits n : forall address privilege s,
  space_ok s -> aligned address -> Z.of_nat n < 2 ^ 36 ->
  (forall k, 0 <= k < Z.of_nat n -> regular (page_path address k)
     /\ not_large_on s (ParseVirtualAddress (address + FRAME_SIZE * k))) ->
  exists b s', map_on_demand CR3 MAXPHYADDR primary n address privilege s = Some (b, s')
    /\ space_ok s' /\ edited (in_range address (Z.of_nat n)) s s'
    /\ (b = true -> forall k, 0 <= k < Z.of_nat n -> demanded s' (address + FRAME_SIZE * k) privilege).
Proof.
  induction n as [|n IH]; intros address privilege s Hs Ha Hn Hpages.
  { exists true, s. split_and!; [done|done|apply edited_refl|]. intros _ k Hk. lia. }
  set (v := ParseVirtualAddress address). pose proof (ParseVirtualAddress_ok address) as Hv. fold v in Hv.
  destruct (Hpages 0 ltac:(lia)) as [Hr Hnl].
  rewrite page_path_0 in Hr. rewrite Z.mul_0_r, Z.add_0_r in Hnl. fold v in Hr, Hnl.
  rewrite map_on_demand_steps. fold v.
  destruct (BuildTables_built (in_range address (Z.of_nat (S n))) s v privilege Hs Hv Hr Hnl) as (b & s1 & -> & Hs1 & He1 & Ht1).
  destruct b; [|by exists false, s1]. destruct (Ht1 eq_refl) as [t T1]. unfold mbind, MM_bind.
  destruct (store_leaf s1 v t (demand_entry privilege) Hs1 Hv Hr T1) as (s2 & -> & Hs2 & He2 & Hx).
  rewrite map_on_demand_u64.
  assert (He2' : edited (in_range address (Z.of_nat (S n))) s1 s2).
  { eapply edited_weaken; [|exact He2]. intros p <-. exists 0. split; [lia|]. by rewrite page_path_0. }
  pose proof (edited_trans _ _ _ _ _ He1 He2') as He12.
  destruct (IH (address + FRAME_SIZE) privilege s2) as (b & s3 & -> & Hs3 & He3 & Hd); try done.
  - unfold aligned, FRAME_SIZE in *. zdiv.
  - lia.
  - intros k Hk. destruct (Hpages (k + 1) ltac:(lia)) as [Hrk Hlk]. rewrite page_path_shift.
    split; [done|]. replace (address + FRAME_SIZE + FRAME_SIZE * k) with (address + FRAME_SIZE * (k + 1)) by lia.
    by eapply edited_not_large_on.
  - exists b, s3. split_and!; [done|done| |].
    + eapply edited_trans; [exact He12|]. eapply edited_weaken; [|exact He3].
      intros p (k & Hk & ->). exists (k + 1). split; [lia|apply page_path_shift].
    + intros Hb k Hk. destruct (decide (k = 0)) as [->|Hk0].
      * unfold demanded. rewrite Z.mul_0_r, Z.add_0_r. fold v. eapply edited_entry; [exact He3|done| |exact Hx].
        intros (j & Hj & Hp). rewrite page_path_shift in Hp. unfold v in Hp. rewrite <- page_path_0 in Hp. apply page_path_inj in Hp; [lia|done|lia].
      * replace (address + FRAME_SIZE * k) with (address + FRAME_SIZE + FRAME_SIZE * (k - 1)) by lia.
        apply Hd; [done|lia].
Qed.

Lemma demand_entry_absent privilege : hasflag (demand_entry privilege) PRESENT = false.
Proof. by destruct privilege. Qed.

Lemma demanded_untranslated s va privilege :
  demanded s va privilege -> translate (ram s) root va = None.
Proof.
  intros Hd. erewrite (translate_leaf s [_; _; _]); [|done|exact Hd]. by rewrite demand_entry_absent.
Qed.
End Space.

(** ** The page fault that provides the page *)

Section Fault.
Context {A : Type} `{Laws : FrameAllocatorLaws A MAXPHYADDR}.
Context (CR3 : Z).
Hypothesis Hphys : 0 <= MAXPHYADDR <= 52.
Abbreviation space_ok := (space_ok CR3 CR3 true).

Lemma demanded_entry_value privilege f :
  aligned f -> 0 < f < 2 ^ MAXPHYADDR ->
  demanded_entry MAXPHYADDR (demand_entry privilege) f = SetPTEInfo (pte_to (leaf_user privilege) f).
Proof.
  intros Hf Hr. unfold demanded_entry. rewrite FilterAddress_frame by (done || lia).
  replace (SetPTEInfo (pte_to (leaf_user privilege) f))
    with (Z.lor (if leaf_user privilege then 7 else 3) (Z.land f ADDRESS)) by (by destruct privilege).
  generalize (Z.land f ADDRESS). intros x.
  assert (Hor : forall u, Z.lor (Z.lor (Z.lor x u) 2) 1 = Z.lor (Z.lor u 3) x).
  { intros u. rewrite <- (Z.lor_assoc _ 2 1), <- (Z.lor_assoc x), Z.lor_comm. done. }
  destruct privilege; cbv zeta.
  - change (Z.lor (Z.lor (Z.lor (Z.lor (Z.lor (Z.lor (Z.lor (Z.lor 0 x) 0) 0) 0) 0) 0) 2) 1 = Z.lor 3 x).
    by rewrite !Z.lor_0_r, Z.lor_0_l, <- Z.lor_assoc, Z.lor_comm.
  - change (Z.lor (Z.lor (Z.lor (Z.lor (Z.lor (Z.lor (Z.lor (Z.lor 0 x) 0) 0) 0) 0) 0) 2) 1 = Z.lor 3 x).
    by rewrite !Z.lor_0_r, Z.lor_0_l, <- Z.lor_assoc, Z.lor_comm.
  - change (Z.lor (Z.lor (Z.lor (Z.lor (Z.lor (Z.lor (Z.lor (Z.lor 0 x) 0) 0) 0) 0) 4) 2) 1 = Z.lor 7 x).
    by rewrite !Z.lor_0_r, Z.lor_0_l, Hor.
Qed.

Lemma table_parent mem t q i t' :
  table mem t (q ++ [i]) = Some t' ->
  exists t1, table mem t q = Some t1 /\ next (mem (t1 + ENTRY_SIZE * i)) = Some t'.
Proof. rewrite table_snoc. destruct (table mem t q) as [t1|]; [|done]. cbn. eauto. Qed.

Lemma next_flags e t : next e = Some t -> hasflag e PRESENT = true /\ hasflag e PAGE_SIZE_BIT = false.
Proof. unfold next. destruct (hasflag e PRESENT), (hasflag e PAGE_SIZE_BIT); by cbn. Qed.

(** The entries on the way to the page table of an address. *)
Lemma read_levels s v t :
  space_ok s -> va_ok v -> regular (va_path v) ->
  table (ram s) CR3 [PML4_offset v; PDPT_offset v; PD_offset v] = Some t ->
  exists e4 e3 e2,
    vread CR3 (GetPML4EAddress v true) s = Some (e4, s) /\ next e4 <> None
    /\ vread CR3 (GetPDPTEAddress v true) s = Some (e3, s) /\ next e3 <> None
    /\ vread CR3 (GetPDEAddress v true) s = Some (e2, s) /\ next e2 <> None
    /\ vread CR3 (GetPTEAddress v true) s = Some (ram s (t + ENTRY_SIZE * PT_offset v), s).
Proof.
  intros Hs Hv Hr Ht. destruct (regular_levels v Hr) as (R1 & R2 & R3 & R4).
  destruct (entry_addresses v true Hv) as (-> & -> & -> & ->).
  destruct (table_parent _ _ [PML4_offset v; PDPT_offset v] _ _ Ht) as (t2 & T2 & N2).
  destruct (table_parent _ _ [PML4_offset v] _ _ T2) as (t3 & T3 & N3).
  destruct (table_parent _ _ [] _ _ T3) as (t4 & T4 & N4).
  rewrite (read_entry CR3 CR3 true s [] t4), (read_entry CR3 CR3 true s [_] t3),
    (read_entry CR3 CR3 true s [_; _] t2), (read_entry CR3 CR3 true s [_; _; _] t)
    by (eauto using regular_prefix, regular_last || (cbn; lia)).
  do 3 eexists. split_and!; try done; congruence.
Qed.

Lemma fault_steps s va errv privilege :
  let v := ParseVirtualAddress va in
  space_ok s -> regular_va va -> demanded CR3 s va privilege -> Z.land errv PF_PRESENT <> 1 ->
  PageFaultHandler CR3 MAXPHYADDR errv va s =
    match AllocateFrame (frames s) with
    | (None, a) => Some (PanicOutOfMemory, mkMachine (ram s) a)
    | (Some page, a) =>
        match vwrite CR3 (GetPTEAddress v true) (demanded_entry MAXPHYADDR (demand_entry privilege) page)
          (mkMachine (ram s) a) with
        | Some (_, s') => Some (Resume, s')
        | None => None
        end
    end.
Proof.
  intros v Hs Hr Hd He. pose proof (ParseVirtualAddress_ok va) as Hv. fold v in Hv.
  unfold demanded, PageTablesProps.entry_at in Hd. cbv zeta in Hd. fold v in Hd.
  destruct (table (ram s) CR3 _) as [t|] eqn:Ht; [|done]. apply (inj Some) in Hd. cbv beta in Hd.
  destruct (read_levels s v t Hs Hv Hr Ht) as (e4 & e3 & e2 & L4 & N4 & L3 & N3 & L2 & N2 & L1).
  assert (F : forall e, next e <> None -> hasflag e PRESENT = true /\ hasflag e PAGE_SIZE_BIT = false).
  { intros e N. destruct (next e) eqn:E; [|done]. by eapply next_flags. }
  apply F in N4 as [P4 _], N3 as [P3 _], N2 as [P2 S2].
  unfold PageFaultHandler, CheckUnmappedAccess. rewrite (proj2 (Z.eqb_neq _ _) He). cbv zeta. fold v.
  unfold mbind, MM_bind. rewrite L4. change (pml4e_present (GetPML4EInfo e4)) with (hasflag e4 PRESENT).
  rewrite P4. cbn [negb]. rewrite L3. change (pde_present (GetPDPTEInfo e3)) with (hasflag e3 PRESENT).
  rewrite P3. cbn [negb]. rewrite L2. change (pde_present (GetPDEInfo e2)) with (hasflag e2 PRESENT).
  change (pde_pageSize (GetPDEInfo e2)) with (hasflag e2 PAGE_SIZE_BIT). rewrite P2, S2. cbn [negb].
  rewrite L1, Hd. cbn [mret MM_ret].
  assert (E1 : negb (demand_entry privilege =? 0) = true) by (by destruct privilege).
  assert (E2 : (Z.land (demand_entry privilege) NP_ON_DEMAND =? 0) = false) by (by destruct privilege).
  unfold mret, MM_ret. rewrite E1. cbn [negb]. rewrite L2. change (pde_pageSize (GetPDEInfo e2)) with (hasflag e2 PAGE_SIZE_BIT).
  rewrite S2, L1, Hd, E2. unfold Allocate. destruct (AllocateFrame (frames s)) as [[page|] a]; [|done].
  done.
Qed.

Lemma fault_provides s va errv privilege f a :
  let v := ParseVirtualAddress va in
  space_ok s -> regular_va va -> demanded CR3 s va privilege -> Z.land errv PF_PRESENT <> 1 ->
  AllocateFrame (frames s) = (Some f, a) ->
  exists s', PageFaultHandler CR3 MAXPHYADDR errv va s = Some (Resume, s')
    /\ space_ok s' /\ edited CR3 (eq (va_path v)) s s'
    /\ frame_free (frames s) f /\ ~ frame_free (frames s') f
    /\ translate (ram s') CR3 va = Some (f + va mod FRAME_SIZE).
Proof.
  intros v Hs Hr Hd He Ha. rewrite (fault_steps s va errv privilege) by done. cbv zeta. fold v. rewrite Ha.
  destruct (AllocateFrame_some _ _ _ (so_frames _ _ _ _ Hs) Ha) as (Hok & Hf & Hal & Hrange & Htaken).
  rewrite demanded_entry_value by done.
  set (s0 := mkMachine (ram s) a).
  assert (Hs0 : space_ok s0) by (apply space_frames; [done|done|]; intros g Hg; by apply Htaken).
  assert (He0 : edited CR3 (eq (va_path v)) s s0) by (apply edited_frames; intros g Hg; by apply Htaken).
  pose proof (ParseVirtualAddress_ok va) as Hv. fold v in Hv.
  pose proof Hd as Hd'. unfold demanded, PageTablesProps.entry_at in Hd'. cbv zeta in Hd'. fold v in Hd'.
  destruct (table (ram s) CR3 _) as [t|] eqn:Ht; [|done].
  destruct (store_leaf CR3 CR3 true s0 v t (SetPTEInfo (pte_to (leaf_user privilege) f)) Hs0 Hv Hr Ht)
    as (s' & Hw & Hs' & He' & Hx).
  rewrite Hw. exists s'. split_and!; [done|done|by eapply edited_trans|done| |].
  - intros Hff. apply (gr_free _ _ _ _ He') in Hff. by apply Htaken in Hff as [_ ?].
  - eapply (translate_mapped CR3 Hphys s' [_; _; _]); [done|done|lia|exact Hx].
Qed.
End Fault.
