(* ===== verification/PhysicalFrames.v ===== *)
(** * The physical allocator keeps its promise to the page-table editor

    [PhysMem], the model of [PhysicalMemory.cpp], as a [FrameAllocator], and
    the laws the editor of page tables relies on, proved for it. *)
From S2P Require Import Prelude Paging PhysMem PhysMemProps PageTables PageTablesProps.

(** A null pointer is the absence of a frame. *)
Definition non_null (a : Z) : option Z := if a =? 0 then None else Some a.

#[export] Instance physical_frames : FrameAllocator pm := {
  AllocateFrame s := let '(s', a) := PhysMem.Allocate s in (non_null a, s');
  FreeFrame s a := let '(s', ok) := PhysMem.Free s a in (ok, s');
  FreeFrame2MB s a := let '(s', ok) := PhysMem.Free2MB s a in (ok, s');
  FreeFrame1GB s a := let '(s', ok) := PhysMem.Free1GB s a in (ok, s');
  AllocateFramesDMA s n := let '(s', a) := PhysMem.AllocateDMA s n in (non_null a, s');
  FreeFramesDMA s a n := let '(s', ok) := PhysMem.FreeDMA s a n in (ok, s');
  DMAFrameIsFree s a := match PhysMem.QueryDMAAddress s a with FREE => true | _ => false end
}.

(** Only memory the bitmap describes is ever free. *)
Definition managed (s : pm) : Prop :=
  forall p, getbit (bm4 s) p = false -> 0 <= p < BITMAP_ENTRIES_4KB.

Definition physical_ok (s : pm) : Prop := wordsOk (bm4 s) /\ cachedOk s /\ managed s.
Definition physical_free (s : pm) (f : Z) : Prop := aligned f /\ getbit (bm4 s) (f / FRAME_SIZE) = false.

Lemma managed_range p : 0 <= p < BITMAP_ENTRIES_4KB -> 0 <= p * FRAME_SIZE < 2 ^ 38.
Proof. change BITMAP_ENTRIES_4KB with (2 ^ 26). unfold FRAME_SIZE. lia. Qed.

Lemma physical_allocate s f s' :
  physical_ok s -> AllocateFrame s = (Some f, s') ->
  physical_ok s' /\ physical_free s f /\ aligned f /\ 0 < f < 2 ^ 38
  /\ (forall g, physical_free s' g -> physical_free s g /\ g <> f).
Proof.
  intros (Hw & Hc & Hm). cbn. pose proof (Allocate_spec s Hw Hc) as Ha.
  destruct (PhysMem.Allocate s) as [s1 a]. cbn [fst snd] in Ha. unfold non_null.
  destruct (Z.eqb_spec a 0) as [|Hne]; [done|]. intros [= <- <-].
  destruct Ha as [[? _]|(p & -> & [T1 T2 T3 T4 T5 T6] & _)]; [done|].
  assert (Hal : aligned (p * FRAME_SIZE)) by apply Z_mod_mult.
  split_and!.
  - split; [rewrite T2; by apply wordsOk_setw|]. split; [done|].
    intros q. rewrite T2, getbit_setw. intros [_ Hq]%orb_false_iff. by apply Hm.
  - split; [done|]. by rewrite page_div.
  - done.
  - pose proof (managed_range p (Hm p T1)). lia.
  - apply (managed_range p (Hm p T1)).
  - intros g [Hg Hb]. rewrite T2, getbit_setw in Hb. apply orb_false_iff in Hb as [Hb Hq].
    split; [done|]. intros ->. rewrite page_div in Hb. by rewrite Z.eqb_refl in Hb.
Qed.

Lemma physical_exhausted s s' :
  physical_ok s -> AllocateFrame s = (None, s') ->
  physical_ok s' /\ (forall g, physical_free s' g -> physical_free s g).
Proof.
  intros (Hw & Hc & Hm). cbn. pose proof (Allocate_spec s Hw Hc) as Ha.
  destruct (PhysMem.Allocate s) as [s1 a]. cbn [fst snd] in Ha. intros [= _ <-].
  destruct Ha as [(_ & Hb & _ & _ & Hc')|(p & -> & [T1 T2 T3 T4 T5 T6] & _)].
  - unfold physical_ok, physical_free, managed. rewrite Hb. auto.
  - split; [split; [rewrite T2; by apply wordsOk_setw|split; [done|]]|].
    + intros q. rewrite T2, getbit_setw. intros [_ Hq]%orb_false_iff. by apply Hm.
    + intros g [Hg Hb]. rewrite T2, getbit_setw in Hb. by apply orb_false_iff in Hb as [_ Hb].
Qed.

Lemma physical_release s f ok s' :
  physical_ok s -> 0 <= f -> FreeFrame s f = (ok, s') ->
  physical_ok s' /\ (forall g, physical_free s' g -> physical_free s g \/ g = frame_of f).
Proof.
  intros (Hw & Hc & Hm) Hf. cbn. destruct (PhysMem.Free s f) as [s1 b] eqn:E. intros [= <- <-].
  destruct (Z.le_gt_cases MAX_ADDRESSABLE_MEMORY f) as [Hbig|Hsmall].
  { unfold PhysMem.Free in E. assert (Hx : IsAddressable f = false) by (apply Z.ltb_ge; done).
    assert ((f =? 0) = false) as E0 by (apply Z.eqb_neq; unfold MAX_ADDRESSABLE_MEMORY in Hbig; lia).
    rewrite Hx, E0 in E. injection E as <- <-. by split; [|left]. }
  destruct (Free_spec _ _ _ _ E) as [[-> _]|[_ [R1 R2 _ _ _ R6]]]; [by split; [|left]|].
  assert (Hp : 0 <= f / FRAME_SIZE < BITMAP_ENTRIES_4KB).
  { change BITMAP_ENTRIES_4KB with (2 ^ 26). unfold MAX_ADDRESSABLE_MEMORY, FRAME_SIZE in *. zdiv. }
  split; [split; [by apply R2|split]|].
  - intros q Hq. rewrite R6 in Hq. injection Hq as <-. by rewrite R1, Z.eqb_refl.
  - intros q. rewrite R1. destruct (Z.eqb_spec q (f / FRAME_SIZE)) as [->|]; [done|]. apply Hm.
  - intros g [Hg Hb]. rewrite R1 in Hb. destruct (Z.eqb_spec (g / FRAME_SIZE) (f / FRAME_SIZE)) as [He|]; [right|by left].
    unfold aligned, frame_of, FRAME_SIZE in *. zdiv.
Qed.

(** Any processor with at least 38 bits of physical address. *)
Definition physical_laws (MAXPHYADDR : Z) (Hphys : 38 <= MAXPHYADDR) : FrameAllocatorLaws pm MAXPHYADDR.
Proof.
  refine {| frames_ok := physical_ok; frame_free := physical_free |}.
  - intros s f s' Hs E. destruct (physical_allocate s f s' Hs E) as (H1 & H2 & H3 & H4 & H5).
    split_and!; try done; [lia|].
    assert (2 ^ 38 <= 2 ^ MAXPHYADDR) by (apply Z.pow_le_mono_r; lia). lia.
  - apply physical_exhausted.
  - apply physical_release.
Defined.

Lemma one_region_ok : physical_ok one_region.
Proof.
  split; [apply one_region_booted|]. split; [done|]. intros p. rewrite one_region_bm4, negb_false_iff.
  change BITMAP_ENTRIES_4KB with (2 ^ 26). boolp. zdiv.
Qed.
