(* ===== verification/MappingProps.v ===== *)
(** * Theorems on mappings

    [MapPage], [MapOnDemand] with the page fault handler, and the software
    walk of [Paging] against the processor's. *)
From S2P Require Import Prelude Paging PhysMem PhysMemProps PageTables PageTablesProps PageMapProps PhysicalFrames.

(** ** A concrete address space: a PML4 with its recursive entries *)

Definition empty_ram (root : Z) : Z -> Z := fun a =>
  if decide (a = root + ENTRY_SIZE * 510 \/ a = root + ENTRY_SIZE * 509) then Z.lor 3 (Z.land root ADDRESS) else 0.

Section Empty.
Context {A : Type} `{Laws : FrameAllocatorLaws A MAXPHYADDR}.

Lemma empty_entry root i : ~ (i = 510 \/ i = 509) -> empty_ram root (root + ENTRY_SIZE * i) = 0.
Proof. intros Hi. unfold empty_ram. rewrite decide_False; [done|]. unfold ENTRY_SIZE. lia. Qed.

Lemma empty_tables root q g : regular q -> table (empty_ram root) root q = Some g -> q = [] /\ g = root.
Proof.
  intros [_ Hh]. destruct q as [|i q]; cbn [table]; [by intros [= <-]|].
  rewrite empty_entry by lia. done.
Qed.

Lemma empty_space root (a : A) :
  frames_ok a -> aligned root -> 0 < root < 2 ^ 52 -> ~ frame_free a root ->
  space_ok root root true (mkMachine (empty_ram root) a).
Proof.
  intros Ha Hr Hlt Hf.
  assert (Hnext : next (empty_ram root (root + ENTRY_SIZE * loop_slot true)) = Some root).
  { unfold empty_ram. rewrite decide_True by (by left). apply next_of; done || lia. }
  split; try done.
  - intros q q' t Hq Hq' _ _ T1 T2. apply empty_tables in T1 as [-> _], T2 as [-> _]; done.
  - intros g (q & Hq & _ & T). by apply empty_tables in T as [_ ->].
  - intros q Hq _ T. by apply empty_tables in T as [-> _].
Qed.

Lemma empty_not_large root (a : A) v :
  regular (va_path v) -> not_large_on root (mkMachine (empty_ram root) a) v.
Proof.
  intros [_ Hv]. cbn in Hv.
  assert (H4 : entry_at root (mkMachine (empty_ram root) a) [] (PML4_offset v) = Some 0).
  { unfold entry_at. cbn. f_equal. apply (empty_entry root). lia. }
  assert (H3 : next 0 = None) by done.
  unfold entry_at in H4. cbn in H4. injection H4 as H4.
  split_and!; intros e; unfold entry_at; cbn -[ENTRY_SIZE]; unfold ENTRY_SIZE in *; rewrite ?H4; try done.
  by intros [= <-].
Qed.
End Empty.

Definition demo_root : Z := 0x1000000.
Definition demo_machine : machine pm := mkMachine (empty_ram demo_root) one_region.

Lemma demo_space (Hphys : 38 <= 39) :
  @space_ok pm physical_frames 39 (physical_laws 39 Hphys) demo_root demo_root true demo_machine.
Proof.
  apply (@empty_space pm physical_frames 39 (physical_laws 39 Hphys)); [apply one_region_ok|done|done|].
  intros [_ H]. vm_compute in H. done.
Qed.

(** ** Addresses of a page *)

Lemma page_offset va off :
  aligned va -> 0 <= off < FRAME_SIZE ->
  va_path (ParseVirtualAddress (va + off)) = va_path (ParseVirtualAddress va) /\ (va + off) mod FRAME_SIZE = off.
Proof.
  unfold aligned, FRAME_SIZE, va_path. intros Ha Ho. rewrite !ParseVirtualAddress_digits.
  cbn [PML4_offset PDPT_offset PD_offset PT_offset]. split; [|zdiv].
  f_equal; [zdiv|]. f_equal; [zdiv|]. f_equal; [zdiv|]. f_equal. zdiv.
Qed.

Lemma regular_va_slot va :
  PML4_offset (ParseVirtualAddress va) <> 510 -> PML4_offset (ParseVirtualAddress va) <> 509 -> regular_va va.
Proof.
  intros H1 H2. split; [|done]. destruct (ParseVirtualAddress_ok va) as (H4 & H3 & Hd & Ht & _).
  repeat (apply Forall_cons_2; [done|]). by apply Forall_nil_2.
Qed.

Lemma demanded_same {A} root (s : machine A) va va' privilege :
  va_path (ParseVirtualAddress va) = va_path (ParseVirtualAddress va') ->
  demanded root s va' privilege -> demanded root s va privilege.
Proof.
  unfold demanded, va_path. generalize (ParseVirtualAddress va) as u. generalize (ParseVirtualAddress va') as v.
  cbv zeta. intros v u [= -> -> -> ->]. done.
Qed.

(** ** The software walk *)

Section SoftwareWalk.
Context {A : Type} `{Laws : FrameAllocatorLaws A MAXPHYADDR}.
Context (CR3 : Z) (s : machine A).
Hypothesis Hs : space_ok CR3 CR3 true s.

Definition seen (a : Z) : Z := match translate (ram s) CR3 a with Some p => ram s p | None => 0 end.

Lemma seen_entry q t i :
  regular (q ++ [i]) -> (length q <= 3)%nat -> table (ram s) CR3 q = Some t ->
  seen (rec_addr (loop_slot true) q (8 * i)) = ram s (t + ENTRY_SIZE * i).
Proof.
  intros Hq Hl Ht. pose proof (regular_last _ _ Hq) as Hi. unfold index_ok in Hi. unfold seen.
  rewrite (table_access CR3 CR3 true _ q t); [done|by apply (space_linked CR3 CR3 true)|apply Hs| |done|done|unfold FRAME_SIZE; lia].
  by eapply regular_prefix.
Qed.

Lemma next_table q t i :
  table (ram s) CR3 q = Some t -> hasflag (ram s (t + ENTRY_SIZE * i)) PRESENT = true ->
  hasflag (ram s (t + ENTRY_SIZE * i)) PAGE_SIZE_BIT = false ->
  table (ram s) CR3 (q ++ [i]) = Some (Z.land (ram s (t + ENTRY_SIZE * i)) ADDRESS).
Proof. intros Ht Hp Hps. rewrite table_snoc, Ht. cbn. unfold next. by rewrite Hp, Hps. Qed.

Lemma not_large_at q t i :
  not_large CR3 s q i -> table (ram s) CR3 q = Some t -> hasflag (ram s (t + ENTRY_SIZE * i)) PRESENT = true ->
  hasflag (ram s (t + ENTRY_SIZE * i)) PAGE_SIZE_BIT = false.
Proof. intros Hn Ht Hp. apply Hn; [|done]. unfold entry_at. by rewrite Ht. Qed.

(** The entry the software reads at each level, and the processor's branch. *)
Lemma software_walk v va :
  va_ok v -> regular (va_path v) ->
  not_large CR3 s [] (PML4_offset v) -> not_large CR3 s [PML4_offset v] (PDPT_offset v) ->
  walk (ram s) CR3 (va_path v) va =
    let e4 := seen (GetPML4EAddress v true) in let e3 := seen (GetPDPTEAddress v true) in
    let e2 := seen (GetPDEAddress v true) in let e1 := seen (GetPTEAddress v true) in
    if negb (hasflag e4 PRESENT) then None
    else if negb (hasflag e3 PRESENT) then None
    else if negb (hasflag e2 PRESENT) then None
    else if hasflag e2 PAGE_SIZE_BIT then leaf_address 1 e2 va
    else if negb (hasflag e1 PRESENT) then None else leaf_address 0 e1 va.
Proof.
  intros Hv Hr N4 N3. destruct (regular_levels v Hr) as (R1 & R2 & R3 & R4).
  destruct (entry_addresses v true Hv) as (-> & -> & -> & ->). unfold va_path in *.
  generalize dependent (PML4_offset v). intros i4 Hr N4 N3 R1 R2 R3 R4. generalize dependent (PDPT_offset v). intros i3 Hr N3 R2 R3 R4.
  generalize dependent (PD_offset v). intros i2 Hr R3 R4. generalize dependent (PT_offset v). intros i1 Hr R4. cbv zeta.
  rewrite (seen_entry [] CR3) by (done || cbn; lia). rewrite walk_cons by done. cbv zeta.
  destruct (hasflag (ram s (CR3 + ENTRY_SIZE * i4)) PRESENT) eqn:P4; [|done]. cbn [negb].
  rewrite (not_large_at [] CR3) by done.
  pose proof (next_table [] CR3 i4 eq_refl P4 (not_large_at [] CR3 i4 N4 eq_refl P4)) as T3. cbn [app] in T3.
  set (t3 := Z.land (ram s (CR3 + ENTRY_SIZE * i4)) ADDRESS) in *.
  rewrite (seen_entry [i4] t3) by (done || cbn; lia). rewrite walk_cons by done. cbv zeta.
  destruct (hasflag (ram s (t3 + ENTRY_SIZE * i3)) PRESENT) eqn:P3; [|done]. cbn [negb].
  rewrite (not_large_at [i4] t3) by done.
  pose proof (next_table [i4] t3 i3 T3 P3 (not_large_at [i4] t3 i3 N3 T3 P3)) as T2. cbn [app] in T2.
  set (t2 := Z.land (ram s (t3 + ENTRY_SIZE * i3)) ADDRESS) in *.
  rewrite (seen_entry [i4; i3] t2) by (done || cbn; lia). rewrite walk_cons by done. cbv zeta.
  destruct (hasflag (ram s (t2 + ENTRY_SIZE * i2)) PRESENT) eqn:P2; [|done]. cbn [negb].
  destruct (hasflag (ram s (t2 + ENTRY_SIZE * i2)) PAGE_SIZE_BIT) eqn:S2; [done|].
  pose proof (next_table [i4; i3] t2 i2 T2 P2 S2) as T1. cbn [app] in T1.
  set (t1 := Z.land (ram s (t2 + ENTRY_SIZE * i2)) ADDRESS) in *.
  rewrite (seen_entry [i4; i3; i2] t1) by (done || cbn; lia). cbn [walk]. done.
Qed.
End SoftwareWalk.

(** ** Properties *)

Section Theorems.
Context {A : Type} `{Laws : FrameAllocatorLaws A MAXPHYADDR}.
Hypothesis Hphys : 0 <= MAXPHYADDR <= 52.

(** The part of memory that no edition of page tables touches. *)
Definition data_kept (root : Z) (s s' : machine A) : Prop :=
  forall a, ~ frame_free (frames s) (frame_of a) -> ~ is_table root s (frame_of a) -> ram s' a = ram s a.

(** C28: mapping a page, in the current address space or, through the
    secondary recursive slot, in another one.  The call always returns; when
    it succeeds, every byte of the virtual page translates to the same byte of
    the frame; no other address outside the recursive slots changes its
    translation, and none does when the call fails for want of memory; memory
    in use that is not a page table keeps its contents; the address space
    remains well formed. *)
Theorem MapPage_maps (CR3 root : Z) (primary : bool) (s : machine A) (pa va : Z) (privilege : AccessPrivilege) :
  space_ok CR3 root primary s -> regular_va va -> not_large_on root s (ParseVirtualAddress va) ->
  aligned pa -> aligned va -> 0 <= pa < 2 ^ MAXPHYADDR ->
  exists ok s', MapPage CR3 MAXPHYADDR primary pa va privilege false s = Some (ok, s')
    /\ space_ok CR3 root primary s'
    /\ (ok = true -> forall off, 0 <= off < FRAME_SIZE -> translate (ram s') root (va + off) = Some (pa + off))
    /\ (forall va', regular_va va' ->
        ok = false \/ va_path (ParseVirtualAddress va') <> va_path (ParseVirtualAddress va) ->
        translate (ram s') root va' = translate (ram s) root va')
    /\ data_kept root s s'.
Proof.
  intros Hs Hr Hn Hpa Hva Hlt.
  destruct (MapPage_edits CR3 root primary Hphys s pa va privilege Hs Hr Hn Hpa Hva Hlt) as (ok & s' & E & Hs' & He & Hx).
  exists ok, s'. split; [done|]. split; [done|]. split; [|split; [|exact (gr_data _ _ _ _ He)]].
  - intros Hok off Ho. destruct (page_offset va off Hva Ho) as [Hp Hm]. rewrite <- Hm at 2.
    by eapply (translate_mapped root Hphys s' [_; _; _]); [exact Hp|done|done|exact (Hx Hok)].
  - intros va' Hr' Hcase. apply (gr_translate _ _ _ _ He); [done|]. intros [Hok Heq].
    destruct Hcase; congruence.
Qed.

(** C29: a range mapped on demand.  The call always returns; it touches no
    translation outside the range.  When it succeeds, no address of the range
    is mapped yet, and the first access to one, which faults, resumes with the
    page backed by a frame that was free, as long as the physical allocator
    has one, all other translations unchanged. *)
Theorem MapOnDemand_provides (CR3 : Z) (s : machine A) (address pages : Z) (privilege : AccessPrivilege) :
  space_ok CR3 CR3 true s -> aligned address -> 0 <= pages < 2 ^ 36 ->
  (forall k, 0 <= k < pages -> regular (page_path address k)
     /\ not_large_on CR3 s (ParseVirtualAddress (address + FRAME_SIZE * k))) ->
  exists ok s1, MapOnDemand CR3 MAXPHYADDR true address pages privilege s = Some (ok, s1)
    /\ space_ok CR3 CR3 true s1
    /\ (forall va, regular_va va -> ~ in_range address pages (va_path (ParseVirtualAddress va)) ->
        translate (ram s1) CR3 va = translate (ram s) CR3 va)
    /\ data_kept CR3 s s1
    /\ (ok = true -> forall va, address <= va < address + FRAME_SIZE * pages ->
        translate (ram s1) CR3 va = None
        /\ forall errv f a, Z.land errv PF_PRESENT <> 1 -> AllocateFrame (frames s1) = (Some f, a) ->
           exists s2, PageFaultHandler CR3 MAXPHYADDR errv va s1 = Some (Resume, s2)
             /\ space_ok CR3 CR3 true s2 /\ frame_free (frames s1) f
             /\ translate (ram s2) CR3 va = Some (f + va mod FRAME_SIZE)
             /\ forall va', regular_va va' -> va_path (ParseVirtualAddress va') <> va_path (ParseVirtualAddress va) ->
                translate (ram s2) CR3 va' = translate (ram s1) CR3 va').
Proof.
  intros Hs Ha Hpages Hreg.
  destruct (map_on_demand_edits CR3 CR3 true Hphys (Z.to_nat pages) address privilege s Hs Ha) as (ok & s1 & E & Hs1 & He & Hd);
    rewrite ?Z2Nat.id in * by lia; [lia|done|].
  exists ok, s1. split; [exact E|]. split; [done|]. split; [intros va Hr Hout; by apply (gr_translate _ _ _ _ He)|].
  split; [exact (gr_data _ _ _ _ He)|]. intros Hok va Hva.
  set (k := (va - address) / FRAME_SIZE).
  assert (Hk : 0 <= k < pages /\ 0 <= va - (address + FRAME_SIZE * k) < FRAME_SIZE)
    by (unfold k, FRAME_SIZE in *; zdiv).
  destruct Hk as [Hk Hoff]. clearbody k.
  assert (Hal : aligned (address + FRAME_SIZE * k)) by (unfold aligned, FRAME_SIZE in *; zdiv).
  destruct (page_offset _ _ Hal Hoff) as [Hp _].
  replace (address + FRAME_SIZE * k + (va - (address + FRAME_SIZE * k))) with va in Hp by lia.
  assert (Hd' : demanded CR3 s1 va privilege).
  { by apply (demanded_same CR3 s1 va (address + FRAME_SIZE * k)), Hd. }
  assert (Hrva : regular_va va) by (unfold regular_va; rewrite Hp; apply Hreg, Hk).
  split; [by eapply demanded_untranslated|]. intros errv f a Herr Hall.
  destruct (fault_provides CR3 Hphys s1 va errv privilege f a Hs1 Hrva Hd' Herr Hall) as (s2 & E2 & Hs2 & He2 & Hf & _ & Ht).
  exists s2. split_and!; try done. intros va' Hr' Hne. apply (gr_translate _ _ _ _ He2); [done|congruence].
Qed.

(** C30: what the kernel's own walk of the tables, through the recursive
    mapping, says of an address is what the processor does with it: mapped or
    not, and to which physical address, 4 KiB and 2 MiB pages alike. *)
Theorem GetPhysicalAddress_is_translation (CR3 : Z) (s : machine A) (va : Z) :
  let v := ParseVirtualAddress va in
  let vmem := seen CR3 s in
  space_ok CR3 CR3 true s -> regular_va va ->
  not_large CR3 s [] (PML4_offset v) -> not_large CR3 s [PML4_offset v] (PDPT_offset v) ->
  GetPhysicalAddress vmem va true = translate (ram s) CR3 va
  /\ IsMapped vmem va true = bool_decide (is_Some (translate (ram s) CR3 va)).
Proof.
  intros v vmem Hs Hr N4 N3. pose proof (ParseVirtualAddress_ok va) as Hv. fold v in Hv.
  unfold translate. fold v. rewrite (software_walk CR3 s Hs v va Hv Hr N4 N3). cbv zeta. fold vmem.
  unfold GetPhysicalAddress, IsMapped. fold v. cbv zeta.
  change (pml4e_present (GetPML4EInfo (vmem (GetPML4EAddress v true)))) with (hasflag (vmem (GetPML4EAddress v true)) PRESENT).
  change (pde_present (GetPDPTEInfo (vmem (GetPDPTEAddress v true)))) with (hasflag (vmem (GetPDPTEAddress v true)) PRESENT).
  change (pde_present (GetPDEInfo (vmem (GetPDEAddress v true)))) with (hasflag (vmem (GetPDEAddress v true)) PRESENT).
  change (pde_pageSize (GetPDEInfo (vmem (GetPDEAddress v true)))) with (hasflag (vmem (GetPDEAddress v true)) PAGE_SIZE_BIT).
  change (pte_present (GetPTEInfo (vmem (GetPTEAddress v true)))) with (hasflag (vmem (GetPTEAddress v true)) PRESENT).
  destruct (hasflag (vmem (GetPML4EAddress v true)) PRESENT); [|done].
  destruct (hasflag (vmem (GetPDPTEAddress v true)) PRESENT); [|done].
  destruct (hasflag (vmem (GetPDEAddress v true)) PRESENT); [|done]. cbn [negb].
  destruct (hasflag (vmem (GetPDEAddress v true)) PAGE_SIZE_BIT) eqn:E.
  - split; [|done]. cbn [leaf_address].
    change (pde_address (GetPDEInfo (vmem (GetPDEAddress v true)))) with
      (if hasflag (vmem (GetPDEAddress v true)) PAGE_SIZE_BIT
       then Z.land (vmem (GetPDEAddress v true)) PDE_2MB_ADDRESS else Z.land (vmem (GetPDEAddress v true)) ADDRESS).
    by rewrite E.
  - by destruct (hasflag (vmem (GetPTEAddress v true)) PRESENT).
Qed.
End Theorems.

Lemma MapPage_maps_witness :
  exists ok s', MapPage demo_root 39 true 0x2345000 0xFFFF810000003000 HIGH false demo_machine = Some (ok, s')
    /\ (ok = true -> translate (ram s') demo_root (0xFFFF810000003000 + 0xABC) = Some (0x2345000 + 0xABC)).
Proof.
  assert (H38 : 38 <= 39) by lia.
  assert (Ho : 0 <= 0xABC < FRAME_SIZE) by (unfold FRAME_SIZE; lia).
  assert (Hr : regular_va 0xFFFF810000003000) by (apply regular_va_slot; vm_compute; done).
  destruct (@MapPage_maps pm physical_frames 39 (physical_laws 39 H38) ltac:(lia) demo_root demo_root true demo_machine
    0x2345000 0xFFFF810000003000 HIGH (demo_space H38) Hr
    (@empty_not_large pm demo_root one_region (ParseVirtualAddress 0xFFFF810000003000) Hr) eq_refl eq_refl ltac:(lia))
    as (ok & s' & E & _ & Hm & _).
  exists ok, s'. split; [exact E|]. intros Hok. exact (Hm Hok 0xABC Ho).
Defined.

Lemma MapOnDemand_provides_witness :
  exists ok s1, MapOnDemand demo_root 39 true 0xFFFF810000003000 3 HIGH demo_machine = Some (ok, s1)
    /\ (ok = true -> translate (ram s1) demo_root (0xFFFF810000003000 + 0x1ABC) = None).
Proof.
  assert (H38 : 38 <= 39) by lia.
  assert (Hreg : forall k, 0 <= k < 3 -> regular (page_path 0xFFFF810000003000 k)
     /\ not_large_on demo_root demo_machine (ParseVirtualAddress (0xFFFF810000003000 + FRAME_SIZE * k))).
  { intros k Hk. assert (Hr : regular (page_path 0xFFFF810000003000 k)).
    { apply regular_va_slot; (assert (k = 0 \/ k = 1 \/ k = 2) as [-> | [-> | ->]] by lia); vm_compute; done. }
    split; [exact Hr|]. exact (@empty_not_large pm demo_root one_region _ Hr). }
  assert (Hin : 0xFFFF810000003000 <= 0xFFFF810000003000 + 0x1ABC < 0xFFFF810000003000 + FRAME_SIZE * 3)
    by (unfold FRAME_SIZE; lia).
  destruct (@MapOnDemand_provides pm physical_frames 39 (physical_laws 39 H38) ltac:(lia) demo_root demo_machine
    0xFFFF810000003000 3 HIGH (demo_space H38) eq_refl ltac:(lia) Hreg) as (ok & s1 & E & _ & _ & _ & Hm).
  exists ok, s1. split; [exact E|]. intros Hok. exact (proj1 (Hm Hok _ Hin)).
Defined.

Lemma GetPhysicalAddress_is_translation_witness :
  exists s, space_ok (Laws := physical_laws 39 (Z.lt_le_incl 38 39 eq_refl)) demo_root demo_root true s
    /\ GetPhysicalAddress (seen demo_root s) 0xFFFF810000003ABC true = translate (ram s) demo_root 0xFFFF810000003ABC.
Proof.
  set (H38 := Z.lt_le_incl 38 39 eq_refl).
  assert (Hr : regular_va 0xFFFF810000003ABC) by (apply regular_va_slot; vm_compute; done).
  pose proof (@empty_not_large pm demo_root one_region (ParseVirtualAddress 0xFFFF810000003000) Hr) as Hn.
  destruct (@MapPage_edits pm physical_frames 39 (physical_laws 39 H38) demo_root demo_root true ltac:(lia) demo_machine
    0x2345000 0xFFFF810000003000 HIGH (demo_space H38) Hr Hn eq_refl eq_refl ltac:(lia)) as (ok & s & _ & Hs & He & _).
  destruct (edited_not_large_on demo_root _ _ _ _ He Hr Hn) as (N4 & N3 & _).
  exists s. split; [exact Hs|].
  exact (proj1 (@GetPhysicalAddress_is_translation pm physical_frames 39 (physical_laws 39 H38) demo_root s
    0xFFFF810000003ABC Hs Hr N4 N3)).
Defined.
