(* ===== verification/VirtualMemory.v ===== *)
(** * Component: virtual memory
    ([kernel/src/mm/VirtualMemory.cpp])

    The map of free address ranges, kept as an array of blocks sorted by
    decreasing size in memory of its own, and the allocators of kernel and
    user ranges over it.  Everything works on the machine of [PageTables]: the
    blocks and the user context are read and written at their virtual
    addresses; the kernel context is the one static object. *)
From S2P Require Import Prelude Paging PageTables MemoryLayout.

(** ** State *)

Record VMemMapBlock := { virtualStart : Z; availablePages : Z }.
Definition SIZEOF_BLOCK : Z := 16.

Record MemoryContext := { availableMemory : Z; availableBlockMemory : Z; storedBlocks : Z }.
Definition SIZEOF_CONTEXT : Z := 24.

Definition kernelContext_init : MemoryContext :=
  {| availableMemory := zone_limit KernelHeap; availableBlockMemory := 0; storedBlocks := 0 |}.

Record vmstate (A : Type) := mkVM { kernelContext : MemoryContext; mach : machine A }.
Arguments mkVM {A}.
Arguments kernelContext {A}.
Arguments mach {A}.

Definition VM (A X : Type) : Type := vmstate A -> option (X * vmstate A).

#[global] Instance VM_ret A : MRet (VM A) := fun X x s => Some (x, s).
#[global] Instance VM_bind A : MBind (VM A) := fun X Y f m s =>
  match m s with
  | None => None
  | Some (x, s) => f x s
  end.

(** An operation on the machine. *)
Definition on_machine {A X} (m : MM A X) : VM A X := fun s =>
  match m (mach s) with
  | None => None
  | Some (x, mach') => Some (x, mkVM (kernelContext s) mach')
  end.

(** Both templates use two privileges only: [HIGH] is the kernel's own memory,
    anything else the user's. *)
Definition is_kernel (privilege : AccessPrivilege) : bool := bool_decide (privilege = HIGH).

Definition userContext : Z := zone_start UserVMemManagement.

Definition managementBase (privilege : AccessPrivilege) : Z :=
  if is_kernel privilege then zone_start KernelHeapManagement
  else zone_start UserVMemManagement + (SIZEOF_CONTEXT + SIZEOF_BLOCK - 1) / SIZEOF_BLOCK.

Section Operations.
Context {A : Type} `{FrameAllocator A} (CR3 MAXPHYADDR : Z).

(** *** The context and the blocks *)

Definition get_availableMemory (privilege : AccessPrivilege) : VM A Z := fun s =>
  if is_kernel privilege then Some (availableMemory (kernelContext s), s)
  else on_machine (vread CR3 userContext) s.
Definition get_availableBlockMemory (privilege : AccessPrivilege) : VM A Z := fun s =>
  if is_kernel privilege then Some (availableBlockMemory (kernelContext s), s)
  else on_machine (vread CR3 (userContext + 8)) s.
Definition get_storedBlocks (privilege : AccessPrivilege) : VM A Z := fun s =>
  if is_kernel privilege then Some (storedBlocks (kernelContext s), s)
  else on_machine (vread CR3 (userContext + 16)) s.

Definition set_availableMemory (privilege : AccessPrivilege) (v : Z) : VM A () := fun s =>
  if is_kernel privilege then
    Some (tt, mkVM {| availableMemory := u64 v; availableBlockMemory := availableBlockMemory (kernelContext s);
                      storedBlocks := storedBlocks (kernelContext s) |} (mach s))
  else on_machine (vwrite CR3 userContext (u64 v)) s.
Definition set_availableBlockMemory (privilege : AccessPrivilege) (v : Z) : VM A () := fun s =>
  if is_kernel privilege then
    Some (tt, mkVM {| availableMemory := availableMemory (kernelContext s); availableBlockMemory := u64 v;
                      storedBlocks := storedBlocks (kernelContext s) |} (mach s))
  else on_machine (vwrite CR3 (userContext + 8) (u64 v)) s.
Definition set_storedBlocks (privilege : AccessPrivilege) (v : Z) : VM A () := fun s =>
  if is_kernel privilege then
    Some (tt, mkVM {| availableMemory := availableMemory (kernelContext s);
                      availableBlockMemory := availableBlockMemory (kernelContext s); storedBlocks := u64 v |} (mach s))
  else on_machine (vwrite CR3 (userContext + 16) (u64 v)) s.

(** [block->virtualStart], [block->availablePages], and the whole block. *)
Definition get_start (block : Z) : VM A Z := on_machine (vread CR3 block).
Definition get_pages (block : Z) : VM A Z := on_machine (vread CR3 (u64 (block + 8))).
Definition set_start (block v : Z) : VM A () := on_machine (vwrite CR3 block (u64 v)).
Definition set_pages (block v : Z) : VM A () := on_machine (vwrite CR3 (u64 (block + 8)) (u64 v)).

Definition get_block (block : Z) : VM A VMemMapBlock :=
  start ← get_start block;
  pages ← get_pages block;
  mret {| virtualStart := start; availablePages := pages |}.
Definition set_block (block : Z) (b : VMemMapBlock) : VM A () :=
  set_start block (virtualStart b) ;; set_pages block (availablePages b).

Definition block_at (base index : Z) : Z := u64 (base + SIZEOF_BLOCK * index).

(** *** Sorting *)

(** The exchange of [*start] and [*(start + 1)]. *)
Definition swap_blocks (start : Z) : VM A () :=
  temp ← get_block start;
  next ← get_block (block_at start 1);
  set_block start next ;;
  set_block (block_at start 1) temp.

Fixpoint sort_right (iterations : nat) (start : Z) : VM A () :=
  match iterations with
  | O => mret tt
  | S iterations =>
      next ← get_pages (block_at start 1);
      here ← get_pages start;
      if here <? next then swap_blocks start ;; sort_right iterations (block_at start 1) else mret tt
  end.

Definition SortVirtualMemoryMap (start n : Z) : VM A () :=
  if 2 <? n then sort_right (Z.to_nat (n - 1)) start else mret tt.

Fixpoint sort_left (iterations : nat) (start : Z) : VM A () :=
  match iterations with
  | O => mret tt
  | S iterations =>
      previous ← get_pages (block_at start (-1));
      here ← get_pages start;
      if previous <? here then swap_blocks (block_at start (-1)) ;; sort_left iterations (block_at start (-1))
      else mret tt
  end.

Definition RSortVirtualMemoryMap (start n : Z) : VM A () :=
  if 2 <? n then sort_left (Z.to_nat (n - 1)) start else mret tt.

(** *** The map's own memory *)

Definition ExpandVirtualMemoryMap (start blocks : Z) : VM A bool :=
  page ← on_machine Allocate;
  match page with
  | None => mret false
  | Some page => on_machine (MapPage CR3 MAXPHYADDR true page (u64 (start + blocks * SIZEOF_BLOCK)) HIGH false)
  end.

(** The page given back when a whole page of the map is free. *)
Definition release_block_memory (privilege : AccessPrivilege) : VM A () :=
  blockMemory ← get_availableBlockMemory privilege;
  if (blockMemory mod FRAME_SIZE =? 0) && (FRAME_SIZE <? blockMemory) then
    set_availableBlockMemory privilege (blockMemory - FRAME_SIZE) ;;
    blockMemory ← get_availableBlockMemory privilege;
    let linearAddress := u64 (managementBase privilege + blockMemory) in
    let blockMemoryPTE := GetPTEAddress (ParseVirtualAddress linearAddress) true in
    pte ← on_machine (vread CR3 blockMemoryPTE);
    on_machine (FreePage (pte_address (GetPTEInfo pte))) ;;
    on_machine (Unmap CR3 blockMemoryPTE)
  else mret tt.

(** *** Allocation *)

Definition AllocateHintCore (privilege : AccessPrivilege) (block offset pages : Z) : VM A (option Z) :=
  pagesStart ← get_start block;
  ok ← on_machine (MapOnDemand CR3 MAXPHYADDR true pagesStart pages LOW);
  if negb ok then mret None else
  available ← get_pages block;
  set_pages block (available - pages) ;;
  start ← get_start block;
  set_start block (start + pages * FRAME_SIZE) ;;
  n ← get_storedBlocks privilege;
  SortVirtualMemoryMap block (u64 (n - offset)) ;;
  memory ← get_availableMemory privilege;
  set_availableMemory privilege (memory - pages * FRAME_SIZE) ;;
  mret (Some pagesStart).

(** The search of the smallest block that is large enough: the first index at
    which the blocks are too small, minus one. *)
Fixpoint search_block (fuel : nat) (base stored pages index : Z) : VM A Z :=
  match fuel with
  | O => mret (index - 1)
  | S fuel =>
      if stored <=? index then mret (index - 1)
      else
        available ← get_pages (block_at base index);
        if available <? pages then mret (index - 1) else search_block fuel base stored pages (index + 1)
  end.

(** Whether block [newBlock] can hold the pages at [hint]: at it, or, when it
    starts after [hint], up to its end. *)
Fixpoint hint_scan (todo : nat) (vmmb hint pages i indexOffset : Z) (fitFound : bool) : VM A (Z * bool) :=
  match todo with
  | O => mret (indexOffset, fitFound)
  | S todo =>
      newBlock ← get_block (block_at vmmb (- i));
      here ← get_start vmmb;
      let hint_end := u64 (hint + pages * FRAME_SIZE) in
      let block_end := u64 (virtualStart newBlock + availablePages newBlock * FRAME_SIZE) in
      if (virtualStart newBlock <=? hint) && (hint_end <=? block_end) then mret (i, true)
      else if (virtualStart newBlock <? here) && (hint <=? virtualStart newBlock) && (hint_end <=? block_end)
      then hint_scan todo vmmb hint pages (i + 1) i true
      else hint_scan todo vmmb hint pages (i + 1) indexOffset fitFound
  end.

(** Carving [pages] pages at [hint] out of the block: [None] when the block is
    larger in front. *)
Definition allocate_at (privilege : AccessPrivilege) (vmmb index hint pages : Z) : VM A (option Z) :=
  block ← get_block vmmb;
  if virtualStart block <=? hint then
    let hint_end := u64 (hint + pages * FRAME_SIZE) in
    let prevBlock := {| virtualStart := virtualStart block;
                        availablePages := u64 (hint - virtualStart block) / FRAME_SIZE |} in
    let nextBlock := {| virtualStart := hint_end;
                        availablePages := u64 (virtualStart block + availablePages block * FRAME_SIZE - hint_end) / FRAME_SIZE |} in
    if availablePages prevBlock =? 0 then AllocateHintCore privilege vmmb index pages
    else if availablePages nextBlock =? 0 then
      ok ← on_machine (MapOnDemand CR3 MAXPHYADDR true hint pages privilege);
      if negb ok then mret None else
      set_block vmmb prevBlock ;;
      n ← get_storedBlocks privilege;
      SortVirtualMemoryMap vmmb (u64 (n - index)) ;;
      memory ← get_availableMemory privilege;
      set_availableMemory privilege (memory - pages * FRAME_SIZE) ;;
      mret (Some hint)
    else
      blockMemory ← get_availableBlockMemory privilege;
      n ← get_storedBlocks privilege;
      expanded ← (if blockMemory =? 0 then ExpandVirtualMemoryMap (managementBase privilege) n else mret true);
      if negb expanded then mret None else
      (if blockMemory =? 0 then set_availableBlockMemory privilege (blockMemory + FRAME_SIZE) else mret tt) ;;
      ok ← on_machine (MapOnDemand CR3 MAXPHYADDR true hint pages privilege);
      if negb ok then mret None else
      n ← get_storedBlocks privilege;
      set_storedBlocks privilege (n + 1) ;;
      let splitResidue := block_at (managementBase privilege) n in
      (if availablePages nextBlock <? availablePages prevBlock
       then set_block vmmb prevBlock ;; set_block splitResidue nextBlock
       else set_block vmmb nextBlock ;; set_block splitResidue prevBlock) ;;
      n ← get_storedBlocks privilege;
      SortVirtualMemoryMap vmmb (u64 (n - index)) ;;
      RSortVirtualMemoryMap splitResidue n ;;
      memory ← get_availableMemory privilege;
      set_availableMemory privilege (memory - pages * FRAME_SIZE) ;;
      blockMemory ← get_availableBlockMemory privilege;
      set_availableBlockMemory privilege (blockMemory - SIZEOF_BLOCK) ;;
      mret (Some hint)
  else AllocateHintCore privilege vmmb index pages.

(** The end of the block [vmmb], of index [index], is taken. *)
Definition allocate_from (privilege : AccessPrivilege) (vmmb index pages : Z) : VM A (option Z) :=
  start ← get_start vmmb;
  available ← get_pages vmmb;
  set_pages vmmb (available - pages) ;;
  available ← get_pages vmmb;
  let pagesStart := u64 (start + available * FRAME_SIZE) in
  let remove := available =? 0 in
  ok ← on_machine (MapOnDemand CR3 MAXPHYADDR true pagesStart pages privilege);
  if negb ok then
    available ← get_pages vmmb;
    set_pages vmmb (available + pages) ;;
    mret None
  else
    n ← get_storedBlocks privilege;
    SortVirtualMemoryMap vmmb (u64 (n - index)) ;;
    (if remove then
      n ← get_storedBlocks privilege;
      set_storedBlocks privilege (n - 1) ;;
      blockMemory ← get_availableBlockMemory privilege;
      set_availableBlockMemory privilege (blockMemory + SIZEOF_BLOCK) ;;
      release_block_memory privilege
    else mret tt) ;;
    memory ← get_availableMemory privilege;
    set_availableMemory privilege (memory - pages * FRAME_SIZE) ;;
    mret (Some pagesStart).

(** The hint, when there is one and it can be honoured. *)
Definition try_hint (privilege : AccessPrivilege) (vmmb index hintPtr pages : Z) : VM A (option (option Z)) :=
  if negb (hintPtr =? 0) && (hintPtr mod FRAME_SIZE =? 0) then
    scan ← hint_scan (Z.to_nat (index + 1)) vmmb hintPtr pages 0 0 false;
    let '(indexOffset, fitFound) := scan in
    available ← get_pages vmmb;
    if fitFound && (pages <? available) then
      r ← allocate_at privilege (block_at vmmb (- indexOffset)) (index - indexOffset) hintPtr pages;
      mret (Some r)
    else mret None
  else mret None.

Definition AllocateCore (privilege : AccessPrivilege) (useHint : bool) (pages hintPtr : Z) : VM A (option Z) :=
  let base := managementBase privilege in
  memory ← get_availableMemory privilege;
  largest ← get_pages base;
  if (memory <? u64 (pages * FRAME_SIZE)) || (largest <? pages) then mret None
  else if pages =? 0 then mret None
  else
    n ← get_storedBlocks privilege;
    index ← (if pages =? 1 then mret (u64 (n - 1)) else search_block (Z.to_nat n) base n pages 1);
    let vmmb := block_at base index in
    hinted ← (if useHint then try_hint privilege vmmb index hintPtr pages else mret None);
    match hinted with
    | Some r => mret r
    | None => allocate_from privilege vmmb index pages
    end.

Definition AllocateKernelHeap (pages : Z) : VM A (option Z) := AllocateCore HIGH false pages 0.
Definition AllocateUserPages (pages : Z) : VM A (option Z) := AllocateCore LOW false pages 0.
Definition AllocateUserPagesAt (pages ptr : Z) : VM A (option Z) := AllocateCore LOW true pages ptr.

(** *** Release *)

(** The loop of [FreeCore] from page [i] at [address]; it skips to the end of a
    2 MiB page. *)
Fixpoint free_pages (fuel : nat) (privilege : AccessPrivilege) (pages i address : Z) : MM A bool :=
  match fuel with
  | O => mret true
  | S fuel =>
      if negb (i <? pages) then mret true
      else
        let mapping := ParseVirtualAddress address in
        let pde := GetPDEAddress mapping true in
        let pte := GetPTEAddress mapping true in
        pml4e_info ← vread CR3 (GetPML4EAddress mapping true);
        pdpte_info ← vread CR3 (GetPDPTEAddress mapping true);
        pde_word ← vread CR3 pde;
        pte_word ← vread CR3 pte;
        let pde_info := GetPDEInfo pde_word in
        if negb (is_kernel privilege) &&
           (negb (pml4e_present (GetPML4EInfo pml4e_info)) || negb (pde_present (GetPDPTEInfo pdpte_info))
            || negb (pde_present pde_info) || (pte_word =? 0)) then mret false
        else if pde_present pde_info then
          if pde_pageSize pde_info then
            let pagesPerHugePage := PDE_COVERAGE / FRAME_SIZE in
            ok ← Free2MB (pde_address pde_info);
            if negb ok then mret false else
            Unmap CR3 pde ;;
            free_pages fuel privilege pages (i + pagesPerHugePage) (u64 (address + PDE_COVERAGE))
          else if pte_present (GetPTEInfo pte_word) then
            ok ← FreePage (pte_address (GetPTEInfo pte_word));
            if negb ok then mret false else
            Unmap CR3 pte ;;
            free_pages fuel privilege pages (i + 1) (u64 (address + FRAME_SIZE))
          else free_pages fuel privilege pages (i + 1) (u64 (address + FRAME_SIZE))
        else free_pages fuel privilege pages (i + 1) (u64 (address + FRAME_SIZE))
  end.

Definition FreeCore (privilege : AccessPrivilege) (ptr pages : Z) : VM A bool :=
  if pages =? 0 then mret true
  else if negb (is_kernel privilege) &&
      ((zone_start UserMemory + zone_limit UserMemory <? ptr) || (ptr <? zone_start UserMemory)
       || (u64 (ptr + pages * FRAME_SIZE) <? ptr)) then mret false
  else
    ok ← on_machine (free_pages (Z.to_nat pages) privilege pages 0 ptr);
    if negb ok then mret false else
    blockMemory ← get_availableBlockMemory privilege;
    n ← get_storedBlocks privilege;
    expanded ← (if blockMemory =? 0 then ExpandVirtualMemoryMap (managementBase privilege) n else mret true);
    if negb expanded then mret false else
    (if blockMemory =? 0 then set_availableBlockMemory privilege (blockMemory + FRAME_SIZE) else mret tt) ;;
    n ← get_storedBlocks privilege;
    set_storedBlocks privilege (n + 1) ;;
    let blockPtr := block_at (managementBase privilege) n in
    set_block blockPtr {| virtualStart := ptr; availablePages := pages |} ;;
    blockMemory ← get_availableBlockMemory privilege;
    set_availableBlockMemory privilege (blockMemory - SIZEOF_BLOCK) ;;
    memory ← get_availableMemory privilege;
    set_availableMemory privilege (memory + pages * FRAME_SIZE) ;;
    n ← get_storedBlocks privilege;
    RSortVirtualMemoryMap blockPtr n ;;
    mret true.

Definition FreeKernelHeap (ptr pages : Z) : VM A bool := FreeCore HIGH ptr pages.
Definition FreeUserPages (ptr pages : Z) : VM A bool := FreeCore LOW ptr pages.
End Operations.
