(* ===== verification/AddressSpaces.v ===== *)
(** * Component: mappings and address spaces
    ([kernel/src/mm/VirtualMemory.cpp], [kernel/src/mm/Paging.cpp])

    The identity-mapped DMA zone, the general mappings, the set-up of the
    kernel's address space, and the creation and release of the address space
    of a task through the secondary recursive mapping. *)
From S2P Require Import Prelude Paging PageTables MemoryLayout VirtualMemory.

(** A [for] loop of [n] iterations whose body may return: [inl] goes on with
    the loop's variables, [inr] leaves.  The count is binary, so that a bound
    in the millions costs nothing when the body leaves early. *)
Section Loop.
Context {A S R : Type} (body : S -> MM A (S + R)).

Definition loop_bind (m : MM A (S + R)) (k : S -> MM A (S + R)) : MM A (S + R) :=
  r ← m;
  match r with
  | inl s => k s
  | inr r => mret (inr r)
  end.

Fixpoint loop_pos (n : positive) (s : S) : MM A (S + R) :=
  match n with
  | xH => body s
  | xO n => loop_bind (loop_pos n s) (loop_pos n)
  | xI n => loop_bind (body s) (fun s => loop_bind (loop_pos n s) (loop_pos n))
  end.

Definition loop (n : Z) (s : S) : MM A (S + R) :=
  match n with
  | Zpos n => loop_pos n s
  | _ => mret (inl s)
  end.

(** The same loop, counted in unary. *)
Fixpoint loop_nat (n : nat) (s : S) : MM A (S + R) :=
  match n with
  | O => mret (inl s)
  | Datatypes.S n => loop_bind (body s) (loop_nat n)
  end.
End Loop.

Section AddressSpaces.
Context {A : Type} `{FrameAllocator A} (CR3 MAXPHYADDR : Z).
Abbreviation MapPage := (MapPage CR3 MAXPHYADDR).
Abbreviation MapOnDemand := (MapOnDemand CR3 MAXPHYADDR).

(** ** The DMA zone *)

Fixpoint map_identity (n : nat) (address : Z) : MM A bool :=
  match n with
  | O => mret true
  | S n =>
      ok ← MapPage true address address MEDIUM false;
      if negb ok then mret false else map_identity n (u64 (address + FRAME_SIZE))
  end.

Definition AllocateDMA (pages : Z) : MM A (option Z) := fun s =>
  let '(allocated, frames') := AllocateFramesDMA (frames s) pages in
  let s := mkMachine (ram s) frames' in
  match allocated with
  | None => Some (None, s)
  | Some address =>
      (ok ← map_identity (Z.to_nat pages) address;
       mret (if ok : bool then Some address else None)) s
  end.

Fixpoint unmap_range (n : nat) (address : Z) : MM A () :=
  match n with
  | O => mret tt
  | S n =>
      Unmap CR3 (GetPTEAddress (ParseVirtualAddress address) true) ;;
      unmap_range n (u64 (address + FRAME_SIZE))
  end.

Definition FreeDMA (ptr pages : Z) : MM A bool := fun s =>
  let '(ok, frames') := FreeFramesDMA (frames s) ptr pages in
  let s := mkMachine (ram s) frames' in
  if negb ok then Some (false, s)
  else (unmap_range (Z.to_nat pages) ptr ;; mret true) s.

(** ** Flags and general mappings *)

(** The entries of an address are read before any is tested. *)
Definition read_levels (mapping : VirtualAddress) : MM A (Z * Z * Z) :=
  pml4e ← vread CR3 (GetPML4EAddress mapping true);
  pdpte ← vread CR3 (GetPDPTEAddress mapping true);
  pde ← vread CR3 (GetPDEAddress mapping true);
  mret (pml4e, pdpte, pde).

Definition levels_present (levels : Z * Z * Z) : bool :=
  let '(pml4e, pdpte, pde) := levels in
  pml4e_present (GetPML4EInfo pml4e) && pde_present (GetPDPTEInfo pdpte) && pde_present (GetPDEInfo pde).

Fixpoint change_flags (n : nat) (ptr flags : Z) : MM A bool :=
  match n with
  | O => mret true
  | S n =>
      let mapping := ParseVirtualAddress ptr in
      levels ← read_levels mapping;
      if negb (levels_present levels) then mret false
      else
        (if pde_pageSize (GetPDEInfo (snd levels)) then
          vwrite CR3 (GetPDEAddress mapping true)
            (Z.lor (Z.land (snd levels) ADDRESS) (Z.land flags (bnot 64 ADDRESS)))
        else
          pte ← vread CR3 (GetPTEAddress mapping true);
          vwrite CR3 (GetPTEAddress mapping true)
            (Z.lor (Z.land pte ADDRESS) (Z.land flags (bnot 64 ADDRESS)))) ;;
        change_flags n (u64 (ptr + PTE_COVERAGE)) flags
  end.

Definition ChangeMappingFlags (ptr flags pages : Z) : MM A bool := change_flags (Z.to_nat pages) ptr flags.

Definition GP_PAGES : Z := zone_limit GeneralMapping / PAGE_SIZE.

(** The tables of a general mapping: supervisor, cleared when new. *)
Definition EnsureGeneral (entry tbl : Z) (present : Z -> bool) : MM A bool :=
  EnsureTable CR3 MAXPHYADDR entry tbl present
    (fun page => Z.lor (Z.lor (Z.land page ADDRESS) READWRITE) PRESENT).

Fixpoint write_general (n : nat) (address physical_address flags : Z) : MM A () :=
  match n with
  | O => mret tt
  | S n =>
      vwrite CR3 (GetPTEAddress (ParseVirtualAddress address) true)
        (Z.lor (Z.lor (Z.land (FilterAddress MAXPHYADDR physical_address) ADDRESS) flags) PRESENT) ;;
      write_general n (u64 (address + PAGE_SIZE)) (u64 (physical_address + PAGE_SIZE)) flags
  end.

(** One page of the search: the current address, the length of the free run
    that ends before it and the start of that run. *)
Definition general_step (pageAddress pages flags : Z) (st : Z * Z * Z) : MM A ((Z * Z * Z) + option Z) :=
  let '(address, found, start) := st in
  let mapping := ParseVirtualAddress address in
  ok ← EnsureGeneral (GetPDPTEAddress mapping true) (GetPDAddress mapping true)
    (fun e => pde_present (GetPDPTEInfo e));
  if negb ok then mret (inr None) else
  ok ← EnsureGeneral (GetPDEAddress mapping true) (GetPTAddress mapping true)
    (fun e => pde_present (GetPDEInfo e));
  if negb ok then mret (inr None) else
  pte ← vread CR3 (GetPTEAddress mapping true);
  if negb (pte_present (GetPTEInfo pte)) then
    let start := if found =? 0 then address else start in
    if found + 1 =? pages then
      write_general (Z.to_nat pages) start pageAddress flags ;;
      mret (inr (Some (u64 (start + pageAddress mod PAGE_SIZE))))
    else mret (inl (u64 (address + PAGE_SIZE), found + 1, start))
  else mret (inl (u64 (address + PAGE_SIZE), 0, 0)).

Definition MapGeneralPages (pageAddress pages flags : Z) : MM A (option Z) :=
  if pages =? 0 then mret None
  else
    r ← loop (general_step pageAddress pages flags) GP_PAGES (zone_start GeneralMapping, 0, 0);
    mret (match r with inl _ => None | inr r => r end).

Fixpoint unmap_general (n : nat) (address : Z) : MM A bool :=
  match n with
  | O => mret true
  | S n =>
      let mapping := ParseVirtualAddress address in
      levels ← read_levels mapping;
      if negb (levels_present levels) then mret false
      else
        Unmap CR3 (GetPTEAddress mapping true) ;;
        unmap_general n (u64 (address + PAGE_SIZE))
  end.

Definition UnmapGeneralPages (vpage pages : Z) : MM A bool := unmap_general (Z.to_nat pages) vpage.

(** ** The secondary recursive mapping *)

Definition secondaryMapping : VirtualAddress := ParseVirtualAddress SecondaryRecursiveMapping_start.
Definition primaryMapping : VirtualAddress := ParseVirtualAddress RecursiveMemoryMapping_start.
Definition dma_mapping : VirtualAddress := ParseVirtualAddress (zone_start DMAZone).
Definition dma_end_mapping : VirtualAddress := ParseVirtualAddress (zone_start DMAZone + zone_limit DMAZone).

Definition with_PDPT (v : VirtualAddress) (i : Z) : VirtualAddress := {|
  PML4_offset := PML4_offset v; PDPT_offset := i; PD_offset := PD_offset v; PT_offset := PT_offset v; offset := offset v |}.
Definition with_PD (v : VirtualAddress) (i : Z) : VirtualAddress := {|
  PML4_offset := PML4_offset v; PDPT_offset := PDPT_offset v; PD_offset := i; PT_offset := PT_offset v; offset := offset v |}.
Definition with_PT (v : VirtualAddress) (i : Z) : VirtualAddress := {|
  PML4_offset := PML4_offset v; PDPT_offset := PDPT_offset v; PD_offset := PD_offset v; PT_offset := i; offset := offset v |}.

(** [GetPML4Address(false)[i] = GetPML4Address(true)[i]] *)
Definition copy_pml4e (i : Z) : MM A () :=
  e ← vread CR3 (u64 (GetPML4Address true + ENTRY_SIZE * i));
  vwrite CR3 (u64 (GetPML4Address false + ENTRY_SIZE * i)) e.

Definition copy_pdpte (i : Z) : MM A () :=
  let pdpte := with_PDPT dma_mapping (PDPT_offset dma_mapping + i) in
  e ← vread CR3 (GetPDPTEAddress pdpte true);
  vwrite CR3 (GetPDPTEAddress pdpte false) (SetPDPTEInfo (GetPDPTEInfo e)).

Definition for_all (l : list Z) (f : Z -> MM A ()) : MM A () :=
  foldl (fun m i => m ;; f i) (mret tt) l.

Definition dma_pds : Z := PD_offset dma_end_mapping - PD_offset dma_mapping.

Definition ShareKernelMemoryToSecondaryMapping : MM A bool :=
  for_all (seqZ 256 (PML4_offset secondaryMapping - 256)) copy_pml4e ;;
  phys_first_pml4e ← Allocate;
  match phys_first_pml4e with
  | None => mret false
  | Some phys_first_pml4e =>
      vwrite CR3 (GetPML4EAddress dma_mapping false)
        (SetPML4EInfo (pml4e_to false (FilterAddress MAXPHYADDR phys_first_pml4e))) ;;
      phys_first_pdpte ← Allocate;
      match phys_first_pdpte with
      | None => FreePage phys_first_pml4e ;; mret false
      | Some phys_first_pdpte =>
          vwrite CR3 (GetPDPTEAddress dma_mapping false)
            (SetPDPTEInfo (pde_to false false (FilterAddress MAXPHYADDR phys_first_pdpte))) ;;
          for_all (seqZ 0 dma_pds) copy_pdpte ;;
          mret true
      end
  end.

Definition UpdateSecondaryRecursiveMapping (root : Z) : MM A () :=
  vwrite CR3 (GetPML4EAddress secondaryMapping true)
    (SetPML4EInfo (pml4e_to false (FilterAddress MAXPHYADDR root))).

Definition CreateSecondaryRecursiveMapping (root : Z) : MM A bool :=
  vroot ← MapGeneralPages root 1 (Z.lor PRESENT READWRITE);
  match vroot with
  | None => mret false
  | Some vroot =>
      ZeroPage CR3 vroot ;;
      let self := Z.lor (Z.lor PRESENT READWRITE) (Z.land (FilterAddress MAXPHYADDR root) ADDRESS) in
      vwrite CR3 (u64 (vroot + ENTRY_SIZE * PML4_offset primaryMapping)) self ;;
      vwrite CR3 (u64 (vroot + ENTRY_SIZE * PML4_offset secondaryMapping)) self ;;
      ok ← UnmapGeneralPages vroot 1;
      if negb ok then mret false else
      UpdateSecondaryRecursiveMapping root ;;
      ShareKernelMemoryToSecondaryMapping
  end.

(** *** Releasing the tables of a task *)

(** Runs [f] on each index, stopping at the first failure. *)
Fixpoint all_ok (l : list Z) (f : Z -> MM A bool) : MM A bool :=
  match l with
  | [] => mret true
  | i :: l => ok ← f i; if negb ok then mret false else all_ok l f
  end.

Definition FreePDE (mapping : VirtualAddress) (pde : Z) : MM A bool :=
  ok ← all_ok (seqZ 0 512) (fun i =>
    pte ← vread CR3 (GetPTEAddress (with_PT mapping i) false);
    if pte_present (GetPTEInfo pte) then FreePage (pte_address (GetPTEInfo pte)) else mret true);
  if negb ok then mret false else
  e ← vread CR3 pde;
  FreePage (pde_address (GetPDEInfo e)) ;;
  mret true.

Definition FreePDPTE (mapping : VirtualAddress) (pdpte : Z) : MM A bool :=
  ok ← all_ok (seqZ 0 512) (fun i =>
    let map := with_PD mapping i in
    let pde := GetPDEAddress map false in
    e ← vread CR3 pde;
    if pde_present (GetPDEInfo e) then
      if pde_pageSize (GetPDEInfo e) then Free2MB (pde_address (GetPDEInfo e)) else FreePDE map pde
    else mret true);
  if negb ok then mret false else
  e ← vread CR3 pdpte;
  FreePage (pde_address (GetPDPTEInfo e)).

Definition FreePML4E (mapping : VirtualAddress) (pml4e : Z) : MM A bool :=
  ok ← all_ok (seqZ 0 512) (fun i =>
    let map := with_PDPT mapping i in
    let pdpte := GetPDPTEAddress map false in
    e ← vread CR3 pdpte;
    if pde_present (GetPDPTEInfo e) then
      if pde_pageSize (GetPDPTEInfo e) then Free1GB (pde_address (GetPDPTEInfo e)) else FreePDPTE map pdpte
    else mret true);
  if negb ok then mret false else
  e ← vread CR3 pml4e;
  FreePage (pml4e_address (GetPML4EInfo e)).

Definition FreeFirstPML4E : MM A bool :=
  e ← vread CR3 (GetPML4EAddress primaryMapping false);
  if negb (pml4e_present (GetPML4EInfo e)) then mret true else
  ok ← all_ok (seqZ (PD_offset dma_end_mapping) (512 - PD_offset dma_end_mapping)) (fun i =>
    let mapping := with_PD dma_end_mapping i in
    let pde := GetPDEAddress mapping false in
    e ← vread CR3 pde;
    if pde_present (GetPDEInfo e) then
      if pde_pageSize (GetPDEInfo e) then Free2MB (pde_address (GetPDEInfo e)) else FreePDE mapping pde
    else mret true);
  if negb ok then mret false else
  all_ok (seqZ (PDPT_offset dma_end_mapping + 1) (512 - (PDPT_offset dma_end_mapping + 1))) (fun i =>
    let mapping := with_PDPT dma_end_mapping i in
    let pdpte := GetPDPTAddress mapping false in
    e ← vread CR3 pdpte;
    if pde_present (GetPDPTEInfo e) then
      if pde_pageSize (GetPDPTEInfo e) then Free1GB (pde_address (GetPDPTEInfo e)) else FreePDPTE mapping pdpte
    else mret true).

Definition FreeSecondaryRecursiveMapping : MM A bool :=
  secondary ← vread CR3 (GetPML4EAddress secondaryMapping false);
  if negb (pml4e_present (GetPML4EInfo secondary)) then mret true else
  FreeFirstPML4E ;;
  for_all (seqZ 1 255) (fun i =>
    let mapping := {| PML4_offset := i; PDPT_offset := 0; PD_offset := 0; PT_offset := 0; offset := 0 |} in
    let pml4e := GetPML4EAddress mapping false in
    e ← vread CR3 pml4e;
    if pml4e_present (GetPML4EInfo e) then FreePML4E mapping pml4e ;; mret tt else mret tt) ;;
  let task_mapping := ParseVirtualAddress (zone_start TaskMemory) in
  let task_pml4e := GetPML4EAddress task_mapping false in
  e ← vread CR3 task_pml4e;
  (if pml4e_present (GetPML4EInfo e) then FreePML4E task_mapping task_pml4e ;; mret tt else mret tt) ;;
  FreePage (pml4e_address (GetPML4EInfo secondary)) ;;
  Unmap CR3 (GetPML4EAddress secondaryMapping false) ;;
  mret true.

(** ** A new address space *)

Definition or_release {X} (k : MM A (option X)) : MM A (option X) := FreeSecondaryRecursiveMapping ;; k.

Definition DeriveNewFreshCR3 : MM A (option Z) :=
  root ← Allocate;
  match root with
  | None => mret None
  | Some root =>
  ok ← CreateSecondaryRecursiveMapping root;
  if negb ok then FreePage root ;; mret None else
  ok ← MapOnDemand false (zone_start KernelStack) ((zone_limit KernelStack - PAGE_SIZE) / PAGE_SIZE) HIGH;
  if negb ok then or_release (mret None) else
  Unmap CR3 (GetPTEAddress (ParseVirtualAddress (zone_start KernelStackGuard)) false) ;;
  stack_top ← Allocate;
  match stack_top with
  | None => or_release (mret None)
  | Some stack_top =>
  stack_reserve ← Allocate;
  match stack_reserve with
  | None => FreePage stack_top ;; or_release (mret None)
  | Some stack_reserve =>
  ok ← MapPage false stack_top (u64 (zone_start KernelStackReserve - PAGE_SIZE)) HIGH false;
  if negb ok then FreePage stack_reserve ;; FreePage stack_top ;; or_release (mret None) else
  ok ← MapPage false stack_reserve (zone_start KernelStackReserve) HIGH false;
  if negb ok then FreePage stack_reserve ;; or_release (mret None) else
  base_page ← Allocate;
  match base_page with
  | None => or_release (mret None)
  | Some base_page =>
  ok ← MapPage false base_page userContext HIGH false;
  if negb ok then FreePage base_page ;; or_release (mret None) else
  vbase_page ← MapGeneralPages base_page 1 (Z.lor PRESENT READWRITE);
  match vbase_page with
  | None => or_release (mret None)
  | Some newUserContext =>
  vwrite CR3 newUserContext (zone_limit UserMemory - zone_limit UserStack) ;;
  vwrite CR3 (u64 (newUserContext + 8))
    (u64 (PAGE_SIZE - SIZEOF_BLOCK - (zone_start UserVMemManagement - newUserContext))) ;;
  vwrite CR3 (u64 (newUserContext + 16)) 1 ;;
  let userMemBlockPtr := u64 (newUserContext + SIZEOF_CONTEXT) in
  vwrite CR3 userMemBlockPtr (zone_start UserMemory) ;;
  memory ← vread CR3 newUserContext;
  vwrite CR3 (u64 (userMemBlockPtr + 8)) (memory / FRAME_SIZE) ;;
  UnmapGeneralPages newUserContext 1 ;;
  mret (Some root)
  end end end end end.

(** ** The kernel's address space *)

(** The tables of a page of the DMA zone that is not in use. *)
Definition setup_tables (address : Z) : MM A bool :=
  let mapping := ParseVirtualAddress address in
  ok ← EnsureTable CR3 MAXPHYADDR (GetPDPTEAddress mapping true) (GetPDAddress mapping true)
    (fun e => pde_present (GetPDPTEInfo e)) (fun page => SetPDPTEInfo (pde_to true false page));
  if negb ok then mret false else
  EnsureTable CR3 MAXPHYADDR (GetPDEAddress mapping true) (GetPTAddress mapping true)
    (fun e => pde_present (GetPDEInfo e)) (fun page => SetPDEInfo (pde_to true false page)).

Definition dma_free (address : Z) : MM A bool := fun s => Some (DMAFrameIsFree (frames s) address, s).

Definition setup_dma_page (address : Z) : MM A bool :=
  free ← dma_free address;
  if negb free then MapPage true address address MEDIUM false ;; mret true else setup_tables address.

(** The end of [Setup]: the page of the kernel's map and its first block. *)
Definition setup_heap : VM A bool :=
  basePage ← on_machine Allocate;
  match basePage with
  | None => mret false
  | Some basePage =>
      ok ← on_machine (MapPage true basePage (zone_start KernelHeapManagement) HIGH false);
      if negb ok then mret false else
      set_availableBlockMemory CR3 HIGH (FRAME_SIZE - SIZEOF_BLOCK) ;;
      set_storedBlocks CR3 HIGH 1 ;;
      set_start CR3 (zone_start KernelHeapManagement) (zone_start KernelHeap) ;;
      memory ← get_availableMemory CR3 HIGH;
      set_pages CR3 (zone_start KernelHeapManagement) (memory / FRAME_SIZE) ;;
      mret true
  end.

Definition Setup : VM A bool :=
  free ← on_machine (dma_free 0);
  started ← (if free : bool then
      first ← on_machine (AllocateDMA 1);
      mret (match first with None => false | Some _ => true end)
    else on_machine (MapPage true 0 0 MEDIUM false) ;; mret true);
  if negb started then mret false else
  on_machine (Unmap CR3 (GetPTEAddress (ParseVirtualAddress 0) true)) ;;
  ok ← on_machine (all_ok
    (map (fun k => k * FRAME_SIZE) (seqZ (zone_start DMAZone / FRAME_SIZE) (zone_limit DMAZone / FRAME_SIZE)))
    setup_dma_page);
  if negb ok then mret false else setup_heap.
End AddressSpaces.
