(* ===== verification/KernelHeapProps.v ===== *)
(** * The kernel's ranges: [AllocateKernelHeap]

    The kernel only ever takes ranges from its zone ([Heap] never gives one
    back), so its map holds one block that shrinks from its end.  The
    invariant below says so, down to the word of physical memory that holds
    the block, and makes [AllocateKernelHeap] an implementation of the
    [PageSource] the heap relies on. *)
From S2P Require Import Prelude Paging PageTables PageTablesProps PageMapProps MemoryLayout VirtualMemory AddressSpaces.
From S2P Require Import Heap HeapRep HeapAlloc PhysMem PhysMemProps PhysicalFrames MappingProps.

Abbreviation HEAP_START := (zone_start KernelHeap).
Abbreviation MAP_BASE := (zone_start KernelHeapManagement).
Definition HEAP_PAGES : Z := zone_limit KernelHeap / FRAME_SIZE.

Lemma heap_constants :
  HEAP_START = 0xFFFF810000000000 /\ MAP_BASE = 0xFFFF808000000000 /\ HEAP_PAGES = 251 * 2 ^ 27.
Proof. by vm_compute. Qed.

(** Addresses of the heap zone go through the slots 258 to 508. *)
Lemma heap_slot k off :
  0 <= k < HEAP_PAGES -> 0 <= off < FRAME_SIZE ->
  258 <= PML4_offset (ParseVirtualAddress (HEAP_START + FRAME_SIZE * k + off)) <= 508.
Proof.
  destruct heap_constants as (-> & _ & ->). intros Hk Ho. rewrite ParseVirtualAddress_digits.
  cbn [PML4_offset]. unfold FRAME_SIZE in *. zdiv.
Qed.

Lemma heap_regular k off : 0 <= k < HEAP_PAGES -> 0 <= off < FRAME_SIZE -> regular_va (HEAP_START + FRAME_SIZE * k + off).
Proof. intros Hk Ho. pose proof (heap_slot k off Hk Ho). apply regular_va_slot; lia. Qed.

Lemma map_slot off : 0 <= off < FRAME_SIZE -> PML4_offset (ParseVirtualAddress (MAP_BASE + off)) = 257.
Proof.
  destruct heap_constants as (_ & -> & _). intros Ho. rewrite ParseVirtualAddress_digits.
  cbn [PML4_offset]. unfold FRAME_SIZE in *. zdiv.
Qed.

Lemma map_not_in_heap off k n :
  0 <= off < FRAME_SIZE -> 0 <= k -> k + n <= HEAP_PAGES ->
  ~ in_range (HEAP_START + FRAME_SIZE * k) n (va_path (ParseVirtualAddress (MAP_BASE + off))).
Proof.
  intros Ho Hk Hn (j & Hj & Hp). pose proof (map_slot off Ho) as Hm.
  pose proof (heap_slot (k + j) 0 ltac:(lia) ltac:(by unfold FRAME_SIZE)) as Hh.
  replace (HEAP_START + FRAME_SIZE * (k + j) + 0) with (HEAP_START + FRAME_SIZE * k + FRAME_SIZE * j) in Hh by lia.
  unfold page_path in Hp. apply (f_equal (fun p => nth 0 p 0)) in Hp.
  change (PML4_offset (ParseVirtualAddress (MAP_BASE + off))
    = PML4_offset (ParseVirtualAddress (HEAP_START + FRAME_SIZE * k + FRAME_SIZE * j))) in Hp. lia.
Qed.

(** ** Stores outside the tables *)

Section Data.
Context {A : Type} `{Laws : FrameAllocatorLaws A MAXPHYADDR}.
Context (CR3 : Z) (s : machine A) (p v : Z).
Hypothesis Hs : space_ok CR3 CR3 true s.
Hypothesis Hp : ~ is_table CR3 s (frame_of p).
Let s' : machine A := mkMachine (<[p := v]> (ram s)) (frames s).

Lemma root_table : is_table CR3 s CR3.
Proof. exists []. split; [by split|]. split; [cbn; lia|done]. Qed.

Lemma data_cell t i : is_table CR3 s t -> index_ok i -> ram s' (t + ENTRY_SIZE * i) = ram s (t + ENTRY_SIZE * i).
Proof.
  intros Ht Hi. cbn. rewrite upd_lookup, decide_False; [done|]. intros ->. apply Hp.
  unfold index_ok in Hi. rewrite frame_of_cell; [done| |unfold FRAME_SIZE, ENTRY_SIZE; lia].
  destruct Ht as (q & Hq & _ & Ht). eapply table_aligned; [|exact Ht]. apply Hs.
Qed.

Lemma data_cells q q1 j q2 t :
  regular q -> (length q <= 4)%nat -> q = q1 ++ j :: q2 -> table (ram s) CR3 q1 = Some t ->
  ram s' (t + ENTRY_SIZE * j) = ram s (t + ENTRY_SIZE * j).
Proof.
  intros Hq Hl -> Ht. rewrite length_app in Hl. cbn in Hl. apply data_cell.
  - exists q1. split; [by eapply regular_prefix|]. split; [lia|done].
  - destruct Hq as [Hf _]. apply Forall_app in Hf as [_ Hf]. by apply Forall_cons in Hf as [Hf _].
Qed.

Lemma data_table q : regular q -> (length q <= 4)%nat -> table (ram s') CR3 q = table (ram s) CR3 q.
Proof. intros Hq Hl. apply table_agree. intros q1 j q2 t He Ht. by eapply data_cells. Qed.

Lemma data_is_table g : is_table CR3 s' g <-> is_table CR3 s g.
Proof.
  split; intros (q & Hq & Hl & Ht); exists q; (split; [done|]; split; [done|]).
  - by rewrite <- data_table by (done || lia).
  - by rewrite data_table by (done || lia).
Qed.

Lemma data_space : space_ok CR3 CR3 true s'.
Proof.
  pose proof Hs as [S1 S2 S3 S4 S5 S6 S7 S8 S9].
  assert (Hroot : ram s' (CR3 + ENTRY_SIZE * loop_slot true) = ram s (CR3 + ENTRY_SIZE * loop_slot true))
    by (apply data_cell; [apply root_table|apply loop_slot_range]).
  split; rewrite ?Hroot; try done.
  - intros q q' t Hq Hq' Hl Hl'. rewrite !data_table by (done || lia). eauto.
  - intros g Hg. by apply S7, data_is_table.
  - intros q Hq Hl. rewrite data_table by (done || lia). eauto.
Qed.

Lemma data_translate va : regular_va va -> translate (ram s') CR3 va = translate (ram s) CR3 va.
Proof.
  intros Hva. unfold translate. apply walk_agree. intros q1 j q2 t He Ht.
  eapply data_cells; [exact Hva|done|exact He|exact Ht].
Qed.

Lemma data_entry q i : regular (q ++ [i]) -> (length q <= 3)%nat -> entry_at CR3 s' q i = entry_at CR3 s q i.
Proof.
  intros Hq Hl. unfold entry_at. rewrite data_table by (eauto using regular_prefix; lia).
  destruct (table (ram s) CR3 q) as [t|] eqn:Ht; [|done]. cbn [mbind option_bind]. f_equal.
  eapply (data_cells (q ++ [i])); [done|rewrite length_app; cbn; lia|done|done].
Qed.

Lemma data_not_large w : regular (va_path w) -> not_large_on CR3 s w -> not_large_on CR3 s' w.
Proof.
  intros Hw (N1 & N2 & N3). destruct (regular_levels w Hw) as (R1 & R2 & R3 & _).
  split_and!; intros e He; (rewrite data_entry in He by (done || cbn; lia)); eauto.
Qed.
End Data.

(** ** The invariant *)

Section KernelHeap.
Context {A : Type} `{Laws : FrameAllocatorLaws A MAXPHYADDR}.
Context (CR3 : Z).
Hypothesis Hphys : 0 <= MAXPHYADDR <= 52.

(** The block of the map: [k] free pages, in the words at [f] and [f + 8]. *)
Record map_block (s : machine A) (f k : Z) : Prop := {
  mb_start : translate (ram s) CR3 MAP_BASE = Some f;
  mb_pages : translate (ram s) CR3 (MAP_BASE + 8) = Some (f + 8);
  mb_aligned : aligned f;
  mb_busy : ~ frame_free (frames s) f;
  mb_data : ~ is_table CR3 s f;
  mb_virtualStart : ram s f = HEAP_START;
  mb_availablePages : ram s (f + 8) = k }.

(** [k] pages are left; [log] are the ranges given out. *)
Record kernel_heap (s : vmstate A) (log : list (Z * Z)) (f k : Z) : Prop := {
  kh_space : space_ok CR3 CR3 true (mach s);
  kh_large : forall j, 0 <= j < HEAP_PAGES ->
    not_large_on CR3 (mach s) (ParseVirtualAddress (HEAP_START + FRAME_SIZE * j));
  kh_block : map_block (mach s) f k;
  kh_pages : 0 <= k <= HEAP_PAGES;
  kh_context : kernelContext s =
    {| availableMemory := FRAME_SIZE * k;
       availableBlockMemory := if k =? 0 then FRAME_SIZE else FRAME_SIZE - SIZEOF_BLOCK;
       storedBlocks := if k =? 0 then 0 else 1 |};
  kh_log : Forall (fun r => HEAP_START + FRAME_SIZE * k <= fst r
                            /\ fst r + snd r <= HEAP_START + FRAME_SIZE * HEAP_PAGES) log }.

Lemma frame_of_word f off : aligned f -> 0 <= off < FRAME_SIZE -> frame_of (f + off) = f.
Proof. apply frame_of_cell. Qed.

Lemma frame_of_self f : aligned f -> frame_of f = f.
Proof. intros Hf. pose proof (frame_of_word f 0 Hf ltac:(by unfold FRAME_SIZE)) as H0. by rewrite Z.add_0_r in H0. Qed.

Lemma read_word s va p : va mod 8 = 0 -> translate (ram s) CR3 va = Some p ->
  vread (A := A) CR3 va s = Some (ram s p, s).
Proof. intros Hv Ht. unfold vread. rewrite Hv. cbn [Z.eqb]. unfold load_word. by rewrite Ht. Qed.

Lemma write_word s va p v : va mod 8 = 0 -> translate (ram s) CR3 va = Some p ->
  vwrite (A := A) CR3 va v s = Some (tt, mkMachine (<[p := v]> (ram s)) (frames s)).
Proof. intros Hv Ht. unfold vwrite. rewrite Hv. cbn [Z.eqb]. unfold store_word. by rewrite Ht. Qed.

Lemma map_regular off : 0 <= off < FRAME_SIZE -> regular_va (MAP_BASE + off).
Proof. intros Ho. pose proof (map_slot off Ho). apply regular_va_slot; lia. Qed.

Lemma map_base_regular : regular_va MAP_BASE.
Proof. rewrite <- (Z.add_0_r MAP_BASE). apply map_regular. by unfold FRAME_SIZE. Qed.

(** The block under a store to its count, and under an edition of other pages. *)
Lemma map_block_store s f k k' :
  map_block s f k -> space_ok CR3 CR3 true s ->
  map_block (mkMachine (<[f + 8 := k']> (ram s)) (frames s)) f k'.
Proof.
  intros [B1 B2 B3 B4 B5 B6 B7] Hs.
  assert (Hd : ~ is_table CR3 s (frame_of (f + 8))) by (by rewrite frame_of_word by (done || unfold FRAME_SIZE; lia)).
  split; cbn [frames].
  - rewrite data_translate; [done..|apply map_base_regular].
  - rewrite data_translate; [done..|by apply map_regular].
  - done.
  - done.
  - by rewrite data_is_table.
  - cbn. rewrite upd_lookup, decide_False by lia. done.
  - cbn. by rewrite upd_lookup, decide_True.
Qed.

Lemma map_block_edit P s s' f k :
  map_block s f k -> edited CR3 P s s' ->
  (forall off, 0 <= off < FRAME_SIZE -> ~ P (va_path (ParseVirtualAddress (MAP_BASE + off)))) ->
  map_block s' f k.
Proof.
  intros [B1 B2 B3 B4 B5 B6 B7] He HP.
  assert (HP0 : ~ P (va_path (ParseVirtualAddress MAP_BASE))).
  { rewrite <- (Z.add_0_r MAP_BASE). apply HP. by unfold FRAME_SIZE. }
  split.
  - rewrite (gr_translate _ _ _ _ He); [done|apply map_base_regular|done].
  - rewrite (gr_translate _ _ _ _ He); [done|by apply map_regular|by apply HP].
  - done.
  - intros Hf. by apply (gr_free _ _ _ _ He) in Hf.
  - intros Ht. by apply (gr_new _ _ _ _ He) in Ht as [|].
  - rewrite (gr_data _ _ _ _ He); [done|by rewrite frame_of_self..].
  - assert (frame_of (f + 8) = f) as Hfr by (apply frame_of_word; [done|unfold FRAME_SIZE; lia]).
    rewrite (gr_data _ _ _ _ He); [done|by rewrite Hfr..].
Qed.

(** Reading and writing the block. *)
Lemma read_start s f k : map_block (mach s) f k -> get_start CR3 MAP_BASE s = Some (HEAP_START, s).
Proof.
  intros [B1 B2 B3 B4 B5 B6 B7]. unfold get_start, on_machine.
  rewrite (read_word _ _ f), B6 by (done || by vm_compute). by destruct s.
Qed.

Lemma read_pages s f k : map_block (mach s) f k -> get_pages CR3 MAP_BASE s = Some (k, s).
Proof.
  intros [B1 B2 B3 B4 B5 B6 B7]. unfold get_pages, on_machine.
  change (u64 (MAP_BASE + 8)) with (MAP_BASE + 8).
  rewrite (read_word _ _ (f + 8)), B7 by (done || by vm_compute). by destruct s.
Qed.

Lemma write_pages s f k v : map_block (mach s) f k ->
  set_pages CR3 MAP_BASE v s =
    Some (tt, mkVM (kernelContext s) (mkMachine (<[f + 8 := u64 v]> (ram (mach s))) (frames (mach s)))).
Proof.
  intros [B1 B2 B3 B4 B5 B6 B7]. unfold set_pages, on_machine.
  change (u64 (MAP_BASE + 8)) with (MAP_BASE + 8).
  by rewrite (write_word _ _ (f + 8)) by (done || by vm_compute).
Qed.

(** ** One allocation *)

(** The block shrinks, then its end is mapped on demand. *)
Definition shrunk (s : vmstate A) (f v : Z) : vmstate A :=
  mkVM (kernelContext s) (mkMachine (<[f + 8 := v]> (ram (mach s))) (frames (mach s))).

Lemma core_steps s f k n :
  map_block (mach s) f k -> 0 < n -> 0 <= k <= HEAP_PAGES ->
  availableMemory (kernelContext s) = FRAME_SIZE * k -> (k <> 0 -> storedBlocks (kernelContext s) = 1) ->
  VirtualMemory.AllocateKernelHeap CR3 MAXPHYADDR n s =
    if k <? n then Some (None, s) else allocate_from CR3 MAXPHYADDR HIGH MAP_BASE 0 n s.
Proof.
  intros Hb Hn Hk Hmem Hstored. destruct heap_constants as (_ & _ & HP). rewrite HP in Hk.
  unfold VirtualMemory.AllocateKernelHeap, AllocateCore, mbind, VM_bind. change (managementBase HIGH) with MAP_BASE.
  change (get_availableMemory CR3 HIGH s) with (Some (availableMemory (kernelContext s), s)). cbv beta iota.
  rewrite (read_pages s f k Hb), Hmem. destruct (Z.ltb_spec k n) as [|Hle]; [by rewrite orb_true_r|].
  assert (Hu : u64 (n * FRAME_SIZE) = n * FRAME_SIZE) by (apply wrap_small; unfold FRAME_SIZE; lia).
  rewrite Hu. assert ((FRAME_SIZE * k <? n * FRAME_SIZE) = false) as -> by (apply Z.ltb_ge; unfold FRAME_SIZE; lia).
  cbn [orb]. assert ((n =? 0) = false) as -> by (apply Z.eqb_neq; lia).
  change (get_storedBlocks CR3 HIGH s) with (Some (storedBlocks (kernelContext s), s)). cbv beta iota.
  rewrite Hstored by lia. destruct (n =? 1); done.
Qed.

(** The kernel's context is a record. *)
Lemma kernel_get_stored (s : vmstate A) : get_storedBlocks CR3 HIGH s = Some (storedBlocks (kernelContext s), s).
Proof. done. Qed.
Lemma kernel_get_block (s : vmstate A) :
  get_availableBlockMemory CR3 HIGH s = Some (availableBlockMemory (kernelContext s), s).
Proof. done. Qed.
Lemma kernel_get_memory (s : vmstate A) : get_availableMemory CR3 HIGH s = Some (availableMemory (kernelContext s), s).
Proof. done. Qed.
Lemma kernel_set_stored (s : vmstate A) v : set_storedBlocks CR3 HIGH v s =
  Some (tt, mkVM {| availableMemory := availableMemory (kernelContext s);
    availableBlockMemory := availableBlockMemory (kernelContext s); storedBlocks := u64 v |} (mach s)).
Proof. done. Qed.
Lemma kernel_set_block (s : vmstate A) v : set_availableBlockMemory CR3 HIGH v s =
  Some (tt, mkVM {| availableMemory := availableMemory (kernelContext s); availableBlockMemory := u64 v;
    storedBlocks := storedBlocks (kernelContext s) |} (mach s)).
Proof. done. Qed.
Lemma kernel_set_memory (s : vmstate A) v : set_availableMemory CR3 HIGH v s =
  Some (tt, mkVM {| availableMemory := u64 v; availableBlockMemory := availableBlockMemory (kernelContext s);
    storedBlocks := storedBlocks (kernelContext s) |} (mach s)).
Proof. done. Qed.
Lemma kernel_release (s : vmstate A) :
  availableBlockMemory (kernelContext s) = FRAME_SIZE -> release_block_memory CR3 HIGH s = Some (tt, s).
Proof. intros Hb. unfold release_block_memory, mbind, VM_bind. by rewrite kernel_get_block, Hb. Qed.

Lemma from_steps s f k n :
  map_block (mach s) f k -> 0 < n <= k -> k <= HEAP_PAGES ->
  storedBlocks (kernelContext s) = 1 -> availableBlockMemory (kernelContext s) = FRAME_SIZE - SIZEOF_BLOCK ->
  availableMemory (kernelContext s) = FRAME_SIZE * k -> space_ok CR3 CR3 true (mach s) ->
  let a := HEAP_START + FRAME_SIZE * (k - n) in
  let s0 := shrunk s f (k - n) in
  forall ok m, MapOnDemand CR3 MAXPHYADDR true a n HIGH (mach s0) = Some (ok, m) -> map_block m f (k - n) ->
  allocate_from CR3 MAXPHYADDR HIGH MAP_BASE 0 n s =
    if ok : bool then
      Some (Some a, mkVM {| availableMemory := FRAME_SIZE * (k - n);
        availableBlockMemory := if k - n =? 0 then FRAME_SIZE else FRAME_SIZE - SIZEOF_BLOCK;
        storedBlocks := if k - n =? 0 then 0 else 1 |} m)
    else Some (None, shrunk (mkVM (kernelContext s) m) f k).
Proof.
  intros Hb Hn Hk Hstored Hblock Hmem Hs a s0 ok m E Hm.
  destruct heap_constants as (HS & _ & HP). rewrite HP in Hk.
  unfold allocate_from, mbind, VM_bind. rewrite (read_start s f k Hb), (read_pages s f k Hb), (write_pages s f k _ Hb).
  rewrite (wrap_small 64 (k - n)) by lia. fold (shrunk s f (k - n)). fold s0.
  assert (Hb0 : map_block (mach s0) f (k - n)) by (by apply map_block_store with k).
  rewrite (read_pages s0 f (k - n) Hb0).
  assert (Ha : u64 (HEAP_START + (k - n) * FRAME_SIZE) = a).
  { unfold a. rewrite HS. unfold FRAME_SIZE. rewrite wrap_small; lia. }
  rewrite Ha. unfold on_machine at 1. rewrite E. cbv beta iota.
  destruct ok; cbn [negb].
  - change (get_storedBlocks CR3 HIGH (mkVM (kernelContext s0) m)) with (Some (storedBlocks (kernelContext s), mkVM (kernelContext s) m)).
    cbv beta iota. rewrite Hstored. change (SortVirtualMemoryMap CR3 MAP_BASE (u64 (1 - 0)) (mkVM (kernelContext s) m))
      with (Some (tt, mkVM (kernelContext s) m)). cbv beta iota.
    assert (Hfinal : u64 (FRAME_SIZE * k - n * FRAME_SIZE) = FRAME_SIZE * (k - n)).
    { rewrite wrap_small by (unfold FRAME_SIZE; lia). lia. }
    destruct (k - n =? 0).
    + rewrite kernel_get_stored. cbn [kernelContext mach]. rewrite Hstored, kernel_set_stored, kernel_get_block.
      cbn [kernelContext mach availableBlockMemory]. rewrite Hblock, kernel_set_block, kernel_release by done.
      rewrite kernel_get_memory. cbn [kernelContext mach availableMemory]. rewrite Hmem, kernel_set_memory.
      by rewrite Hfinal.
    + unfold mret at 1, VM_ret at 1. rewrite kernel_get_memory. cbn [kernelContext mach].
      rewrite Hmem, kernel_set_memory, Hfinal. cbn [kernelContext mach availableBlockMemory storedBlocks].
      by rewrite Hstored, Hblock.
  - set (s1 := mkVM (kernelContext s0) m).
    rewrite (read_pages s1 f (k - n) Hm), (write_pages s1 f (k - n) _ Hm).
    replace (k - n + n) with k by lia. rewrite wrap_small by lia. done.
Qed.

Lemma allocation_step s log f k n :
  kernel_heap s log f k -> 0 < n ->
  exists r s' k', VirtualMemory.AllocateKernelHeap CR3 MAXPHYADDR n s = Some (r, s') /\
    match r with
    | None => k' = k /\ kernel_heap s' log f k
    | Some a => k' = k - n /\ 0 <= k' /\ a = HEAP_START + FRAME_SIZE * k'
                /\ kernel_heap s' ((a, n * FRAME_SIZE) :: log) f k'
    end.
Proof.
  intros [Hs Hlarge Hb Hk Hctx Hlog] Hn. pose proof heap_constants as (HS & _ & HP).
  rewrite (core_steps s f k n Hb Hn Hk); [|by rewrite Hctx|by intros Hk0; rewrite Hctx; cbn; destruct (Z.eqb_spec k 0)].
  destruct (Z.ltb_spec k n) as [|Hle]; [exists None, s, k; split; [done|]; split; [done|by split]|].
  set (a := HEAP_START + FRAME_SIZE * (k - n)). set (s0 := shrunk s f (k - n)).
  assert (Hdata : ~ is_table CR3 (mach s) (frame_of (f + 8))).
  { rewrite frame_of_word; [apply Hb|apply Hb|unfold FRAME_SIZE; lia]. }
  assert (Hs0 : space_ok CR3 CR3 true (mach s0)) by (by apply data_space).
  assert (Hb0 : map_block (mach s0) f (k - n)) by (by apply map_block_store with k).
  assert (Hl0 : forall j, 0 <= j < HEAP_PAGES -> not_large_on CR3 (mach s0) (ParseVirtualAddress (HEAP_START + FRAME_SIZE * j))).
  { intros j Hj. apply data_not_large; [done|done| |by apply Hlarge].
    pose proof (heap_regular j 0 Hj ltac:(by unfold FRAME_SIZE)) as Hr. by rewrite Z.add_0_r in Hr. }
  assert (Hreg : forall j, 0 <= j < HEAP_PAGES -> regular_va (HEAP_START + FRAME_SIZE * j)).
  { intros j Hj. pose proof (heap_regular j 0 Hj ltac:(by unfold FRAME_SIZE)) as Hr. by rewrite Z.add_0_r in Hr. }
  assert (Hpages : forall j, 0 <= j < n -> regular (page_path a j) /\ not_large_on CR3 (mach s0) (ParseVirtualAddress (a + FRAME_SIZE * j))).
  { intros j Hj. replace (a + FRAME_SIZE * j) with (HEAP_START + FRAME_SIZE * (k - n + j)) by (unfold a; lia).
    split; [|apply Hl0; lia]. unfold page_path. replace (a + FRAME_SIZE * j) with (HEAP_START + FRAME_SIZE * (k - n + j)) by (unfold a; lia).
    apply Hreg. lia. }
  assert (Hal : aligned a) by (unfold a, aligned, FRAME_SIZE; rewrite HS; zdiv).
  destruct (map_on_demand_edits CR3 CR3 true Hphys (Z.to_nat n) a HIGH (mach s0) Hs0 Hal) as (ok & m & E & Hm & He & _);
    rewrite ?Z2Nat.id in * by lia; [lia|done|].
  assert (Hbm : map_block m f (k - n)).
  { eapply map_block_edit; [exact Hb0|exact He|]. intros off Ho. apply map_not_in_heap; lia. }
  assert (Hlm : forall j, 0 <= j < HEAP_PAGES -> not_large_on CR3 m (ParseVirtualAddress (HEAP_START + FRAME_SIZE * j))).
  { intros j Hj. eapply edited_not_large_on; [exact He|by apply Hreg|by apply Hl0]. }
  assert (Hk0 : (k =? 0) = false) by (apply Z.eqb_neq; lia).
  rewrite (from_steps s f k n Hb ltac:(lia) ltac:(lia) ltac:(by rewrite Hctx, Hk0) ltac:(by rewrite Hctx, Hk0)
    ltac:(by rewrite Hctx) Hs ok m E Hbm).
  destruct ok.
  - eexists (Some a), _, (k - n). split; [done|]. split; [done|]. split; [lia|]. split; [done|].
    split; cbn [mach kernelContext]; try done; [lia|]. constructor; cbn [fst snd]; [unfold a, FRAME_SIZE; lia|].
    eapply Forall_impl; [exact Hlog|]. cbn. intros r Hr. unfold FRAME_SIZE in *. lia.
  - eexists None, _, k. split; [done|]. split; [done|].
    assert (Hdm : ~ is_table CR3 m (frame_of (f + 8))).
    { rewrite frame_of_word; [apply Hbm|apply Hb|unfold FRAME_SIZE; lia]. }
    split.
    + exact (data_space CR3 m (f + 8) k Hm Hdm).
    + intros j Hj. exact (data_not_large CR3 m (f + 8) k Hm Hdm _ (Hreg j Hj) (Hlm j Hj)).
    + exact (map_block_store m f (k - n) k Hbm Hm).
    + done.
    + exact Hctx.
    + exact Hlog.
Qed.

(** ** Where it starts *)

Lemma setup_establishes s :
  space_ok CR3 CR3 true (mach s) -> kernelContext s = kernelContext_init ->
  (forall j, 0 <= j < HEAP_PAGES -> not_large_on CR3 (mach s) (ParseVirtualAddress (HEAP_START + FRAME_SIZE * j))) ->
  not_large_on CR3 (mach s) (ParseVirtualAddress MAP_BASE) ->
  exists ok s', setup_heap CR3 MAXPHYADDR s = Some (ok, s') /\
    (ok = true -> exists f, kernel_heap s' [] f HEAP_PAGES).
Proof.
  intros Hs Hctx Hlarge Hnl. unfold setup_heap, mbind, VM_bind, on_machine at 1. unfold PageTables.Allocate.
  destruct (AllocateFrame (frames (mach s))) as [[f|] a] eqn:Ea; cbv beta iota; [|eexists false, _; split; [reflexivity|done]].
  destruct (AllocateFrame_some _ _ _ (so_frames _ _ _ _ Hs) Ea) as (Ha & Hf & Hal & Hr & Hfree).
  set (m0 := mkMachine (ram (mach s)) a).
  assert (Hs0 : space_ok CR3 CR3 true m0) by (apply space_frames; [done|done|]; intros g Hg; by destruct (Hfree g Hg)).
  assert (Hnt : ~ is_table CR3 m0 f) by (intros Ht; by apply (so_busy _ _ _ _ Hs f)).
  assert (Hnf : ~ frame_free (frames m0) f) by (intros Hg; by apply Hfree in Hg as [_ ?]).
  destruct (MapPage_edits CR3 CR3 true Hphys m0 f MAP_BASE HIGH Hs0 map_base_regular Hnl Hal eq_refl ltac:(lia))
    as (ok & m & E & Hm & He & Hx).
  unfold on_machine at 1. cbn [mach kernelContext]. rewrite E. destruct ok; cbn [negb]; [|eexists false, _; split; [reflexivity|done]].
  specialize (Hx eq_refl).
  assert (Hmf : ~ frame_free (frames m) f) by (intros Hg; by apply Hnf, (gr_free _ _ _ _ He)).
  assert (Hmt : ~ is_table CR3 m f) by (intros Ht; apply (gr_new _ _ _ _ He) in Ht; tauto).
  assert (T0 : translate (ram m) CR3 MAP_BASE = Some f).
  { rewrite (translate_mapped CR3 Hphys m [_; _; _] _ false f MAP_BASE eq_refl Hal ltac:(lia) Hx). f_equal. apply Z.add_0_r. }
  assert (T8 : translate (ram m) CR3 (MAP_BASE + 8) = Some (f + 8)).
  { exact (translate_mapped CR3 Hphys m [_; _; _] _ false f (MAP_BASE + 8) eq_refl Hal ltac:(lia) Hx). }
  rewrite kernel_set_block, kernel_set_stored. cbn [mach kernelContext availableMemory availableBlockMemory].
  unfold set_start, on_machine at 1. cbn [mach kernelContext]. rewrite (write_word _ _ f) by (done || by vm_compute).
  rewrite kernel_get_memory. cbn [mach kernelContext availableMemory]. rewrite Hctx.
  unfold set_pages, on_machine at 1. cbn [mach kernelContext]. change (u64 (MAP_BASE + 8)) with (MAP_BASE + 8).
  assert (Hd0 : ~ is_table CR3 m (frame_of f)) by (by rewrite frame_of_self).
  set (m1 := mkMachine (<[f := u64 HEAP_START]> (ram m)) (frames m)).
  assert (Hm1 : space_ok CR3 CR3 true m1) by exact (data_space CR3 m f _ Hm Hd0).
  assert (T8' : translate (ram m1) CR3 (MAP_BASE + 8) = Some (f + 8)).
  { unfold m1. rewrite (data_translate CR3 m f _ Hm Hd0); [done|]. apply map_regular. unfold FRAME_SIZE; lia. }
  rewrite (write_word m1 _ (f + 8)) by (done || by vm_compute).
  eexists true, _. split; [reflexivity|]. intros _. exists f.
  assert (Hd8 : ~ is_table CR3 m1 (frame_of (f + 8))).
  { rewrite frame_of_word by (done || unfold FRAME_SIZE; lia). unfold m1. by rewrite (data_is_table CR3 m f _ Hm Hd0). }
  assert (Hreg : forall j, 0 <= j < HEAP_PAGES -> regular_va (HEAP_START + FRAME_SIZE * j)).
  { intros j Hj. pose proof (heap_regular j 0 Hj ltac:(by unfold FRAME_SIZE)) as Hrj. by rewrite Z.add_0_r in Hrj. }
  split.
  - exact (data_space CR3 m1 (f + 8) _ Hm1 Hd8).
  - intros j Hj. apply (data_not_large CR3 m1 (f + 8) _ Hm1 Hd8 _ (Hreg j Hj)).
    apply (data_not_large CR3 m f _ Hm Hd0 _ (Hreg j Hj)).
    eapply edited_not_large_on; [exact He|by apply Hreg|by apply Hlarge].
  - assert (Hb : map_block m1 f (ram m1 (f + 8))).
    { split; try done.
      - unfold m1. by rewrite (data_translate CR3 m f _ Hm Hd0) by apply map_base_regular.
      - unfold m1. by rewrite (data_is_table CR3 m f _ Hm Hd0).
      - cbn. by rewrite upd_lookup, decide_True. }
    exact (map_block_store m1 f _ _ Hb Hm1).
  - vm_compute; split; congruence.
  - by vm_compute.
  - constructor.
Qed.

(** ** A page source for the heap *)

(** The state with the ranges it has given out. *)
Record kernel_source := { ks_state : vmstate A; ks_log : list (Z * Z) }.

Definition kernel_allocate (p : kernel_source) (n : Z) : option Z * kernel_source :=
  match VirtualMemory.AllocateKernelHeap CR3 MAXPHYADDR n (ks_state p) with
  | Some (Some a, s') => (Some a, {| ks_state := s'; ks_log := (a, n * FRAME_SIZE) :: ks_log p |})
  | Some (None, s') => (None, {| ks_state := s'; ks_log := ks_log p |})
  | None => (None, p)
  end.

Definition source_ok (p : kernel_source) : Prop := exists f k, kernel_heap (ks_state p) (ks_log p) f k.

Lemma log_range p : source_ok p -> Forall (fun r => 0 < fst r /\ fst r + snd r <= LIMIT) (ks_log p).
Proof.
  intros (f & k & Hk). eapply Forall_impl; [apply Hk|]. intros r Hr. cbv beta in Hr. pose proof (kh_pages _ _ _ _ Hk).
  destruct heap_constants as (HS & _ & HP). rewrite HS, HP in Hr. unfold LIMIT, FRAME_SIZE in *. lia.
Qed.

Lemma source_step p n r p' :
  source_ok p -> 0 < n -> kernel_allocate p n = (r, p') ->
  source_ok p' /\
  match r with
  | None => ks_log p' = ks_log p
  | Some a => 0 < a /\ a mod FRAME_SIZE = 0 /\ a + n * FRAME_SIZE <= LIMIT /\ ks_log p' = (a, n * FRAME_SIZE) :: ks_log p /\
      Forall (apart (a, n * FRAME_SIZE)) (ks_log p)
  end.
Proof.
  intros (f & k & Hk) Hn E. unfold kernel_allocate in E.
  destruct (allocation_step _ _ f k n Hk Hn) as (r0 & s' & k' & Ea & Hr). rewrite Ea in E.
  pose proof (kh_pages _ _ _ _ Hk) as Hkr. destruct heap_constants as (HS & _ & HP).
  destruct r0 as [a|]; injection E as <- <-.
  - destruct Hr as (-> & Hk' & -> & Hh). split; [by exists f, (k - n)|]. cbn [ks_log].
    rewrite HS, HP in *. unfold LIMIT, FRAME_SIZE in *. split_and!; [lia|zdiv|lia|done|].
    eapply Forall_impl; [apply Hk|]. intros r Hr. cbv beta in Hr. rewrite HS, HP in Hr. unfold FRAME_SIZE in *.
    unfold apart. cbn [fst snd]. lia.
  - destruct Hr as (-> & Hh). split; [by exists f, k|done].
Qed.

(** The heap's interface and its laws, for the heap over this allocator. *)
Definition kernel_page_source : PageSource kernel_source := kernel_allocate.

Definition kernel_page_laws : PageSourceLaws (H := kernel_page_source) kernel_source :=
  {| owned := ks_log; owned_ok := source_ok; owned_range := log_range; AllocateKernelHeap_ok := source_step |}.

(** Requests served one after the other; the ranges of those that succeed. *)
Fixpoint serve_requests (ns : list Z) (s : vmstate A) (log : list (Z * Z)) : option (list (Z * Z) * vmstate A) :=
  match ns with
  | [] => Some (log, s)
  | n :: ns =>
      match VirtualMemory.AllocateKernelHeap CR3 MAXPHYADDR n s with
      | Some (Some a, s') => serve_requests ns s' ((a, n * FRAME_SIZE) :: log)
      | Some (None, s') => serve_requests ns s' log
      | None => None
      end
  end.

Definition in_heap_zone (r : Z * Z) : Prop :=
  aligned (fst r) /\ zone_start KernelHeap <= fst r /\ fst r + snd r <= zone_start KernelHeap + zone_limit KernelHeap.

Lemma serve_requests_ok ns : forall s log f k,
  kernel_heap s log f k -> separate log -> Forall in_heap_zone log -> Forall (Z.lt 0) ns ->
  exists log' s', serve_requests ns s log = Some (log', s') /\ separate log' /\ Forall in_heap_zone log'
    /\ space_ok CR3 CR3 true (mach s').
Proof.
  induction ns as [|n ns IH]; intros s log f k Hk Hsep Hzone Hns; [exists log, s; by destruct Hk|].
  apply Forall_cons in Hns as [Hn Hns]. cbn [serve_requests].
  destruct (allocation_step s log f k n Hk Hn) as (r & s' & k' & -> & Hr).
  destruct r as [a|]; [|destruct Hr as (-> & Hk'); by apply (IH s' log f k)].
  destruct Hr as (-> & Hk0 & Ha & Hk'). pose proof (kh_pages _ _ _ _ Hk) as Hpages.
  apply (IH s' _ f (k - n)); [done| |constructor; [|done]|done].
  - apply separate_cons. split; [|done]. eapply Forall_impl; [apply Hk|]. intros x Hx. cbv beta in Hx. rewrite Ha.
    unfold apart, FRAME_SIZE in *. cbn [fst snd]. lia.
  - assert (HP : zone_limit KernelHeap = FRAME_SIZE * HEAP_PAGES) by by vm_compute.
    unfold in_heap_zone. cbn [fst snd]. rewrite HP, Ha. unfold aligned.
    destruct heap_constants as (HS & _ & HP'). rewrite HS, HP' in *. unfold FRAME_SIZE in *. split; [zdiv|lia].
Qed.

(** C9: from the end of [Setup] on, the ranges of kernel memory given out by
    any sequence of [AllocateKernelHeap] requests are aligned, lie in the
    kernel heap's zone and never overlap, whether requests in between fail or
    not; no request faults, and the page tables stay well formed. *)
Theorem kernel_ranges_disjoint (s : vmstate A) :
  space_ok CR3 CR3 true (mach s) -> kernelContext s = kernelContext_init ->
  (forall j, 0 <= j < HEAP_PAGES -> not_large_on CR3 (mach s) (ParseVirtualAddress (zone_start KernelHeap + FRAME_SIZE * j))) ->
  not_large_on CR3 (mach s) (ParseVirtualAddress (zone_start KernelHeapManagement)) ->
  exists ok s1, setup_heap CR3 MAXPHYADDR s = Some (ok, s1) /\
    (ok = true -> forall ns, Forall (Z.lt 0) ns ->
      exists ranges s2, serve_requests ns s1 [] = Some (ranges, s2) /\ separate ranges /\ Forall in_heap_zone ranges
        /\ space_ok CR3 CR3 true (mach s2)).
Proof.
  intros Hs Hctx Hlarge Hnl. destruct (setup_establishes s Hs Hctx Hlarge Hnl) as (ok & s1 & E & Hok).
  exists ok, s1. split; [done|]. intros ->. destruct (Hok eq_refl) as [f Hk]. intros ns Hns.
  apply (serve_requests_ok ns s1 [] f HEAP_PAGES); [done|by constructor|by constructor|done].
Qed.
End KernelHeap.

Definition demo_vm : vmstate pm := mkVM kernelContext_init demo_machine.

Lemma kernel_ranges_disjoint_witness :
  exists ok s1, setup_heap demo_root 39 demo_vm = Some (ok, s1) /\
    (ok = true -> exists ranges s2,
      serve_requests (MAXPHYADDR := 39) demo_root [3; 1; 2 ^ 60; 4096] s1 [] = Some (ranges, s2) /\ separate ranges).
Proof.
  assert (H38 : 38 <= 39) by lia.
  assert (Hall : forall a, regular_va a -> not_large_on demo_root (mach demo_vm) (ParseVirtualAddress a)).
  { intros a Ha. exact (@empty_not_large pm demo_root one_region (ParseVirtualAddress a) Ha). }
  destruct (@kernel_ranges_disjoint pm physical_frames 39 (physical_laws 39 H38) demo_root ltac:(lia) demo_vm
    (demo_space H38) eq_refl) as (ok & s1 & E & Hok).
  - intros j Hj. apply Hall. pose proof (heap_regular j 0 Hj ltac:(by unfold FRAME_SIZE)) as Hr. by rewrite Z.add_0_r in Hr.
  - apply Hall, map_base_regular.
  - exists ok, s1. split; [exact E|]. intros Ht.
    destruct (Hok Ht [3; 1; 2 ^ 60; 4096]) as (ranges & s2 & Er & Hsep & _); [repeat constructor; lia|].
    exists ranges, s2. split; [exact Er|exact Hsep].
Defined.
