(* ===== verification/GeneralMappingProps.v ===== *)
(** * General mappings

    [MapGeneralPages] looks for a run of unmapped pages in the zone of general
    mappings, building the tables it meets, and [UnmapGeneralPages] undoes it. *)
From S2P Require Import Prelude Paging PageTables PageTablesProps PageMapProps MemoryLayout VirtualMemory.
From S2P Require Import AddressSpaces PhysMem PhysMemProps PhysicalFrames MappingProps KernelHeapProps.

(** ** The loop *)

Section LoopFacts.
Context {A S R : Type} (body : S -> MM A (S + R)).

Lemma loop_nat_add a : forall b s m,
  loop_nat body (a + b) s m = loop_bind (loop_nat body a s) (loop_nat body b) m.
Proof.
  induction a as [|a IH]; intros b s m; [done|]. cbn [Nat.add loop_nat]. unfold loop_bind, mbind, MM_bind.
  destruct (body s m) as [[[s'|r] m']|]; [|done..]. by rewrite IH.
Qed.

Lemma loop_pos_nat n : forall s m, loop_pos body n s m = loop_nat body (Pos.to_nat n) s m.
Proof.
  induction n as [n IH|n IH|]; intros s m.
  - rewrite Pos2Nat.inj_xI. cbn [loop_pos]. replace (Datatypes.S (2 * Pos.to_nat n)) with (1 + (Pos.to_nat n + Pos.to_nat n))%nat by lia.
    cbn [Nat.add loop_nat]. unfold loop_bind, mbind, MM_bind.
    destruct (body s m) as [[[s'|r] m']|]; [|done..]. rewrite loop_nat_add. unfold loop_bind, mbind, MM_bind.
    rewrite IH. destruct (loop_nat body _ s' m') as [[[s2|r] m2]|]; [apply IH|done..].
  - rewrite Pos2Nat.inj_xO. cbn [loop_pos]. replace (2 * Pos.to_nat n)%nat with (Pos.to_nat n + Pos.to_nat n)%nat by lia.
    rewrite loop_nat_add. unfold loop_bind, mbind, MM_bind.
    rewrite IH. destruct (loop_nat body _ s m) as [[[s2|r] m2]|]; [apply IH|done..].
  - change (Pos.to_nat 1) with 1%nat. cbn [loop_pos loop_nat]. unfold loop_bind, mbind, MM_bind.
    destruct (body s m) as [[[s'|r] m']|]; done.
Qed.

Lemma loop_counted n s m : 0 <= n -> loop body n s m = loop_nat body (Z.to_nat n) s m.
Proof. intros Hn. destruct n as [|n|n]; [done| |lia]. apply loop_pos_nat. Qed.

(** An invariant of the body holds until the loop leaves. *)
Lemma loop_rule (I : Z -> S -> machine A -> Prop) (Q : S + R -> machine A -> Prop) n : forall i s m,
  I i s m ->
  (forall k s m, i <= k < i + Z.of_nat n -> I k s m ->
     exists r m', body s m = Some (r, m') /\ match r with inl s' => I (k + 1) s' m' | inr _ => Q r m' end) ->
  (forall s m, I (i + Z.of_nat n) s m -> Q (inl s) m) ->
  exists r m', loop_nat body n s m = Some (r, m') /\ Q r m'.
Proof.
  induction n as [|n IH]; intros i s m Hi Hb Hend.
  { exists (inl s), m. split; [done|]. apply Hend. by rewrite Z.add_0_r. }
  cbn [loop_nat]. unfold loop_bind, mbind, MM_bind.
  destruct (Hb i s m ltac:(lia) Hi) as (r & m' & -> & Hr). destruct r as [s'|r]; [|by exists (inr r), m'].
  apply (IH (i + 1)); [done| |].
  - intros k s1 m1 Hk. apply Hb. lia.
  - intros s1 m1 H1. apply Hend. by replace (i + Z.of_nat (Datatypes.S n)) with (i + 1 + Z.of_nat n) by lia.
Qed.
End LoopFacts.

(** ** The zone *)

Abbreviation GM := (zone_start GeneralMapping).

Lemma general_constants : GM = 0xFFFF800130000000 /\ GP_PAGES = 0x7ED0000 /\ GM + FRAME_SIZE * GP_PAGES = zone_start GeneralMapping + zone_limit GeneralMapping.
Proof. by vm_compute. Qed.

Lemma general_slot j off :
  0 <= j < GP_PAGES -> 0 <= off < FRAME_SIZE -> PML4_offset (ParseVirtualAddress (GM + FRAME_SIZE * j + off)) = 256.
Proof.
  destruct general_constants as (-> & -> & _). intros Hj Ho. rewrite ParseVirtualAddress_digits.
  cbn [PML4_offset]. unfold FRAME_SIZE in *. zdiv.
Qed.

Lemma general_page j : 0 <= j < GP_PAGES -> regular (page_path GM j) /\ PML4_offset (ParseVirtualAddress (GM + FRAME_SIZE * j)) = 256.
Proof.
  intros Hj. pose proof (general_slot j 0 Hj ltac:(by unfold FRAME_SIZE)) as Hs. rewrite Z.add_0_r in Hs.
  split; [|done]. apply regular_va_slot; lia.
Qed.

#[local] Opaque GeneralMapping GP_PAGES ParseVirtualAddress.

(** ** One page of the search *)

Section General.
Context {A : Type} `{Laws : FrameAllocatorLaws A MAXPHYADDR}.
Context (CR3 : Z).
Hypothesis Hphys : 0 <= MAXPHYADDR <= 52.
Abbreviation space_ok := (space_ok CR3 CR3 true).
Abbreviation untouched := (edited CR3 (fun _ => False)).

Definition page (k : Z) : Z := GM + FRAME_SIZE * k.
Definition page_entry (s : machine A) (k : Z) : option Z :=
  let v := ParseVirtualAddress (page k) in
  entry_at CR3 s [PML4_offset v; PDPT_offset v; PD_offset v] (PT_offset v).

Record general_ok (s : machine A) : Prop := {
  ge_space : space_ok s;
  ge_slot : exists t, table (ram s) CR3 [256] = Some t;
  ge_large : forall j, 0 <= j < GP_PAGES -> not_large_on CR3 s (ParseVirtualAddress (page j)) }.

Lemma general_edit P s s' : general_ok s -> space_ok s' -> edited CR3 P s s' -> general_ok s'.
Proof.
  intros [G1 [t G2] G3] Hs' He. split; [done| |].
  - exists t. apply (gr_tables _ _ _ _ He); [|cbn; lia|done].
    split; [apply Forall_cons_2; [by unfold index_ok|by apply Forall_nil_2]|done].
  - intros j Hj. eapply edited_not_large_on; [exact He|by apply general_page|by apply G3].
Qed.

Definition general_build (v : VirtualAddress) : MM A bool :=
  ok ← EnsureGeneral CR3 MAXPHYADDR (GetPDPTEAddress v true) (GetPDAddress v true) (fun e => pde_present (GetPDPTEInfo e));
  if negb ok then mret false else
  EnsureGeneral CR3 MAXPHYADDR (GetPDEAddress v true) (GetPTAddress v true) (fun e => pde_present (GetPDEInfo e)).

Lemma general_next f : aligned f -> 0 <= f < 2 ^ 52 ->
  next (Z.lor (Z.lor (Z.land f ADDRESS) READWRITE) PRESENT) = Some f.
Proof.
  intros Hf Hr. rewrite <- Z.lor_assoc, Z.lor_comm. by apply (next_of 3).
Qed.

Lemma general_built P s k :
  general_ok s -> 0 <= k < GP_PAGES ->
  let v := ParseVirtualAddress (page k) in
  built CR3 CR3 true P [PML4_offset v; PDPT_offset v; PD_offset v] s (general_build v s).
Proof.
  intros Hg Hk v. pose proof (ge_space s Hg) as Hs. destruct (ge_slot s Hg) as [t Ht].
  pose proof (ParseVirtualAddress_ok (page k)) as Hv. fold v in Hv.
  destruct (general_page k Hk) as [Hr Hslot]. change (regular (va_path v)) in Hr. change (PML4_offset v = 256) in Hslot.
  destruct (ge_large s Hg k Hk) as (_ & N3 & N2). fold v in N3, N2. rewrite <- Hslot in Ht.
  destruct (regular_levels v Hr) as (_ & R2 & R3 & _).
  destruct (entry_addresses v true Hv) as (_ & E3 & E2 & _). clearbody v.
  unfold general_build, mbind, MM_bind.
  destruct (ensure_built CR3 CR3 true Hphys P s [PML4_offset v] (PDPT_offset v) t (GetPDPTEAddress v true) (GetPDAddress v true)
    (fun e => pde_present (GetPDPTEInfo e)) (fun f => Z.lor (Z.lor (Z.land f ADDRESS) READWRITE) PRESENT))
    as (b1 & s1 & H1 & Hs1 & He1 & Ht1); try done.
  { cbn; lia. }
  { intros q Hq. by destruct (table_addresses v true q Hv Hq) as (_ & E & _). }
  { apply general_next. }
  unfold EnsureGeneral. rewrite H1. destruct b1; cbn [negb]; [|exists false, s1; split_and!; [reflexivity|assumption|assumption|discriminate]].
  destruct (Ht1 eq_refl) as [t2 T2].
  destruct (ensure_built CR3 CR3 true Hphys P s1 [PML4_offset v; PDPT_offset v] (PD_offset v) t2 (GetPDEAddress v true) (GetPTAddress v true)
    (fun e => pde_present (GetPDEInfo e)) (fun f => Z.lor (Z.lor (Z.land f ADDRESS) READWRITE) PRESENT))
    as (b2 & s2 & H2 & Hs2 & He2 & Ht2); try done.
  { intros q Hq. by destruct (table_addresses v true q Hv Hq) as (_ & _ & E). }
  { apply general_next. }
  { by eapply edited_not_large. }
  exists b2, s2. split; [done|]. split; [done|]. split; [by eapply edited_trans|done].
Qed.

(** The entry written for the frame of [pa]. *)
Definition general_entry (pa flags : Z) : Z :=
  Z.lor (Z.lor (Z.land (FilterAddress MAXPHYADDR pa) ADDRESS) flags) PRESENT.

Lemma page_next k : 0 <= k <= GP_PAGES -> u64 (page k + PAGE_SIZE) = page (k + 1).
Proof.
  destruct general_constants as (HG & HP & _). unfold page. rewrite HG, HP. intros Hk.
  unfold PAGE_SIZE, FRAME_SIZE. rewrite wrap_small; lia.
Qed.

Lemma page_shift k j : page_path (page k) j = page_path GM (k + j).
Proof. unfold page_path, page. f_equal. f_equal. lia. Qed.

Lemma page_aligned k : aligned (page k).
Proof. destruct general_constants as (HG & _). unfold aligned, page, FRAME_SIZE. rewrite HG. zdiv. Qed.

Lemma page_entry_kept P s s' k e :
  edited CR3 P s s' -> 0 <= k < GP_PAGES -> ~ P (page_path GM k) -> page_entry s k = Some e -> page_entry s' k = Some e.
Proof.
  intros He Hk HP Hx. unfold page_entry in *. cbv zeta in *.
  apply (edited_entry CR3 P s s' (ParseVirtualAddress (page k)) He); [|done|done]. apply (general_page k Hk).
Qed.

Lemma store_page s k e e' :
  space_ok s -> 0 <= k < GP_PAGES -> page_entry s k = Some e ->
  exists s', vwrite CR3 (GetPTEAddress (ParseVirtualAddress (page k)) true) e' s = Some (tt, s')
    /\ space_ok s' /\ edited CR3 (eq (page_path GM k)) s s' /\ page_entry s' k = Some e'.
Proof.
  intros Hs Hk He. unfold page_entry, entry_at in He. cbv zeta in He.
  destruct (table (ram s) CR3 _) as [t|] eqn:Ht; [|done].
  apply (store_leaf CR3 CR3 true s (ParseVirtualAddress (page k)) t e' Hs); [apply ParseVirtualAddress_ok| |done].
  apply (general_page k Hk).
Qed.

Lemma write_general_edits n : forall k pa flags s,
  space_ok s -> 0 <= k -> k + Z.of_nat n <= GP_PAGES -> 0 <= pa -> pa + FRAME_SIZE * Z.of_nat n <= 2 ^ 63 ->
  (forall j, 0 <= j < Z.of_nat n -> exists e, page_entry s (k + j) = Some e) ->
  exists s', write_general CR3 MAXPHYADDR n (page k) pa flags s = Some (tt, s') /\ space_ok s'
    /\ edited CR3 (in_range (page k) (Z.of_nat n)) s s'
    /\ (forall j, 0 <= j < Z.of_nat n -> page_entry s' (k + j) = Some (general_entry (pa + FRAME_SIZE * j) flags)).
Proof.
  induction n as [|n IH]; intros k pa flags s Hs Hk Hn Hpa Hlt Hents.
  { exists s. split_and!; [done|done|apply edited_refl|]. intros j Hj. lia. }
  cbn [write_general]. fold (general_entry pa flags). unfold mbind, MM_bind. destruct (Hents 0 ltac:(lia)) as [e He]. rewrite Z.add_0_r in He.
  destruct (store_page s k e (general_entry pa flags) Hs ltac:(lia) He) as (s1 & -> & Hs1 & He1 & Hx).
  rewrite (page_next k) by lia. change PAGE_SIZE with FRAME_SIZE.
  rewrite (wrap_small 64) by (unfold FRAME_SIZE in *; lia).
  destruct (IH (k + 1) (pa + FRAME_SIZE) flags s1 Hs1) as (s2 & -> & Hs2 & He2 & Hy); try (unfold FRAME_SIZE in *; lia).
  { intros j Hj. destruct (Hents (1 + j) ltac:(lia)) as [ej Hej]. exists ej.
    replace (k + 1 + j) with (k + (1 + j)) by lia.
    apply (page_entry_kept _ _ _ _ _ He1); [lia| |done]. intros Hp.
    apply page_path_inj in Hp; [lia|apply (page_aligned 0)|destruct general_constants as (_ & HP & _); lia]. }
  exists s2. split; [done|]. split; [done|]. split.
  - eapply edited_trans.
    + eapply edited_weaken; [|exact He1]. intros p <-. exists 0. split; [lia|]. by rewrite page_shift, Z.add_0_r.
    + eapply edited_weaken; [|exact He2]. intros p (j & Hj & ->). exists (j + 1). split; [lia|].
      rewrite !page_shift. f_equal. lia.
  - intros j Hj. destruct (decide (j = 0)) as [->|Hj0].
    + rewrite Z.mul_0_r, !Z.add_0_r. apply (page_entry_kept _ _ _ _ _ He2); [lia| |done].
      intros (i & Hi & Hp). rewrite page_shift in Hp.
      apply page_path_inj in Hp; [lia|apply (page_aligned 0)|destruct general_constants as (_ & HP & _); lia].
    + replace (k + j) with (k + 1 + (j - 1)) by lia. rewrite Hy by lia. f_equal. f_equal. lia.
Qed.

(** ** The search *)

Definition page_free (s : machine A) (k : Z) : Prop :=
  exists e, page_entry s k = Some e /\ hasflag e PRESENT = false.

Lemma page_free_untouched s s' k :
  untouched s s' -> 0 <= k < GP_PAGES -> page_free s k -> page_free s' k.
Proof. intros He Hk (e & Hx & Hp). exists e. split; [|done]. apply (page_entry_kept _ _ _ _ _ He Hk); [intros []|exact Hx]. Qed.

Lemma page_free_unmapped s k va :
  page_free s k -> va_path (ParseVirtualAddress va) = page_path GM k -> translate (ram s) CR3 va = None.
Proof.
  intros (e & Hx & Hp) Hpath. change (page_path GM k) with (va_path (ParseVirtualAddress (page k))) in Hpath.
  unfold page_entry in Hx. cbv zeta in Hx. set (v := ParseVirtualAddress (page k)) in *.
  rewrite (translate_leaf CR3 s [PML4_offset v; PDPT_offset v; PD_offset v] (PT_offset v) e _ Hpath Hx). by rewrite Hp.
Qed.

Lemma general_step_steps pa n flags address found start s :
  general_step CR3 MAXPHYADDR pa n flags (address, found, start) s =
    let v := ParseVirtualAddress address in
    match general_build v s with
    | None => None
    | Some (false, s1) => Some (inr None, s1)
    | Some (true, s1) =>
        (pte ← vread CR3 (GetPTEAddress v true);
        if negb (pte_present (GetPTEInfo pte)) then
          let start := if found =? 0 then address else start in
          if found + 1 =? n then
            write_general CR3 MAXPHYADDR (Z.to_nat n) start pa flags ;;
            mret (inr (Some (u64 (start + pa mod PAGE_SIZE))))
          else mret (inl (u64 (address + PAGE_SIZE), found + 1, start))
        else mret (inl (u64 (address + PAGE_SIZE), 0, 0))) s1
    end.
Proof.
  unfold general_step, general_build, mbind, MM_bind. cbv zeta.
  destruct (EnsureGeneral _ _ _ _ _ s) as [[[] s1]|]; cbn [negb]; [|done..].
  destruct (EnsureGeneral _ _ _ _ _ s1) as [[[] s2]|]; done.
Qed.

Section Search.
Context (s0 : machine A) (pa n flags : Z).
Hypothesis Hn : 0 < n.
Hypothesis Hpa : 0 <= pa.
Hypothesis Hlt : pa + FRAME_SIZE * n <= 2 ^ 63.

(** Before page [i]: a run of [found] free pages ends there. *)
Record searching (i : Z) (st : Z * Z * Z) (s : machine A) : Prop := {
  se_index : 0 <= i;
  se_address : st.1.1 = page i;
  se_found : 0 <= st.1.2 < n /\ st.1.2 <= i;
  se_start : 0 < st.1.2 -> st.2 = page (i - st.1.2);
  se_general : general_ok s;
  se_untouched : untouched s0 s;
  se_free : forall j, i - st.1.2 <= j < i -> page_free s j }.

(** The outcome: the whole run mapped, or nothing. *)
Definition mapped_run (r : option Z) (s : machine A) : Prop :=
  space_ok s /\
  match r with
  | None => untouched s0 s
  | Some a =>
      exists k, 0 <= k /\ k + n <= GP_PAGES /\ a = page k + pa mod PAGE_SIZE
        /\ edited CR3 (in_range (page k) n) s0 s
        /\ (forall j va, k <= j < k + n -> va_path (ParseVirtualAddress va) = page_path GM j -> translate (ram s0) CR3 va = None)
        /\ (forall j, 0 <= j < n -> page_entry s (k + j) = Some (general_entry (pa + FRAME_SIZE * j) flags))
  end.

Lemma search_step i st s :
  searching i st s -> i < GP_PAGES ->
  exists r s', general_step CR3 MAXPHYADDR pa n flags st s = Some (r, s') /\
    match r with inl st' => searching (i + 1) st' s' | inr r => mapped_run r s' end.
Proof.
  intros [S1 S2 S3 S4 S5 S6 S7] Hi. destruct st as [[address found] start]. cbn [fst snd] in *. subst address.
  destruct general_constants as (HG & HP & _).
  rewrite general_step_steps. cbv zeta.
  destruct (general_built (fun _ => False) s i S5 ltac:(lia)) as (b & s1 & -> & Hs1 & He1 & Ht1).
  set (v := ParseVirtualAddress (page i)) in *.
  pose proof (edited_trans _ _ _ _ _ S6 He1) as He01. pose proof (general_edit _ _ _ S5 Hs1 He1) as Hg1.
  destruct b; [|exists (inr None), s1; split; [done|split; done]].
  destruct (Ht1 eq_refl) as [t T1]. fold v in T1. unfold mbind, MM_bind.
  pose proof (ParseVirtualAddress_ok (page i)) as Hv. fold v in Hv.
  destruct (general_page i ltac:(lia)) as [Hr _]. change (regular (va_path v)) in Hr.
  destruct (regular_levels v Hr) as (_ & _ & _ & R4). destruct (entry_addresses v true Hv) as (_ & _ & _ & E1).
  rewrite E1, (read_entry CR3 CR3 true s1 _ t) by (eauto using regular_prefix, regular_last; cbn; lia).
  set (e := ram s1 (t + ENTRY_SIZE * PT_offset v)).
  assert (Hx : page_entry s1 i = Some e) by (unfold page_entry, entry_at; cbv zeta; fold v; by rewrite T1).
  assert (Hfree1 : forall j, i - found <= j < i -> page_free s1 j).
  { intros j Hj. apply (page_free_untouched s s1 j He1); [lia|auto]. }
  change (pte_present (GetPTEInfo e)) with (hasflag e PRESENT).
  destruct (hasflag e PRESENT) eqn:Hp; cbn [negb].
  { eexists (inl _), s1. split; [reflexivity|]. split; cbn [fst snd]; try assumption; try lia.
    apply page_next. lia. }
  assert (Hfree : forall j, i - found <= j < i + 1 -> page_free s1 j).
  { intros j Hj. destruct (decide (j = i)) as [->|]; [exists e; split; assumption|apply Hfree1; lia]. }
  assert (Hstart : (if found =? 0 then page i else start) = page (i - found)).
  { destruct (Z.eqb_spec found 0) as [->|]; [by rewrite Z.sub_0_r|apply S4; lia]. }
  rewrite Hstart. destruct (Z.eqb_spec (found + 1) n) as [Hfull|Hmore].
  - destruct (write_general_edits (Z.to_nat n) (i - found) pa flags s1 Hs1) as (s2 & -> & Hs2 & He2 & Hy);
      rewrite ?Z2Nat.id in * by lia; try lia.
    { intros j Hj. destruct (Hfree (i - found + j) ltac:(lia)) as (e' & Hx' & _). by exists e'. }
    eexists (inr _), s2. split; [reflexivity|]. split; [done|]. exists (i - found).
    split; [lia|]. split; [lia|]. split; [|split; [|split; [|done]]].
    + unfold page. rewrite HG. pose proof (Z.mod_pos_bound pa PAGE_SIZE ltac:(by unfold PAGE_SIZE)) as Hm.
      apply wrap_small. unfold FRAME_SIZE, PAGE_SIZE in *. lia.
    + eapply edited_trans; [|exact He2]. eapply edited_weaken; [|exact He01]. intros p [].
    + intros j va Hj Hpath. rewrite <- (gr_translate _ _ _ _ He01); [| |intros []].
      * apply (page_free_unmapped s1 j); [apply Hfree; lia|done].
      * unfold regular_va. rewrite Hpath. apply (general_page j). lia.
  - eexists (inl _), s1. split; [reflexivity|]. split; cbn [fst snd]; try assumption; try lia.
    + apply page_next. lia.
    + intros _. f_equal. lia.
    + intros j Hj. apply Hfree. lia.
Qed.

Lemma MapGeneralPages_runs :
  general_ok s0 -> exists r s', MapGeneralPages CR3 MAXPHYADDR pa n flags s0 = Some (r, s') /\ mapped_run r s'.
Proof.
  intros Hg. destruct general_constants as (_ & HP & _). unfold MapGeneralPages.
  assert ((n =? 0) = false) as -> by (apply Z.eqb_neq; lia). unfold mbind, MM_bind.
  rewrite loop_counted by (rewrite HP; done).
  destruct (loop_rule (general_step CR3 MAXPHYADDR pa n flags) searching
    (fun r s => match r with inl _ => space_ok s /\ untouched s0 s | inr r => mapped_run r s end)
    (Z.to_nat GP_PAGES) 0 (GM, 0, 0) s0) as (r & s' & -> & Hr).
  - split; cbn [fst snd]; try assumption; try lia; [|apply edited_refl]. unfold page. lia.
  - intros k st s Hk Hse. rewrite Z2Nat.id in Hk by (rewrite HP; done). destruct (search_step k st s Hse ltac:(lia)) as (r & s1 & E & Hr). exists r, s1. split; [exact E|]. by destruct r.
  - intros st s Hse. split; [apply Hse|apply Hse].
  - exists (match r with inl _ => None | inr r => r end), s'. split; [done|]. by destruct r.
Qed.
End Search.

(** ** Unmapping *)

Lemma unmap_general_edits n : forall k off s,
  space_ok s -> 0 <= k -> k + Z.of_nat n <= GP_PAGES -> 0 <= off < FRAME_SIZE ->
  (forall j, 0 <= j < Z.of_nat n -> exists e, page_entry s (k + j) = Some e) ->
  exists s', unmap_general CR3 n (page k + off) s = Some (true, s') /\ space_ok s'
    /\ edited CR3 (in_range (page k) (Z.of_nat n)) s s'
    /\ (forall j, 0 <= j < Z.of_nat n -> page_entry s' (k + j) = Some 0).
Proof.
  induction n as [|n IH]; intros k off s Hs Hk Hn Ho Hents.
  { exists s. split_and!; [done|done|apply edited_refl|]. intros j Hj. lia. }
  destruct (Hents 0 ltac:(lia)) as [e He]. rewrite Z.add_0_r in He.
  pose proof He as He'. unfold page_entry, entry_at in He'. cbv zeta in He'.
  destruct (table (ram s) CR3 _) as [t|] eqn:Ht; [|done].
  destruct (general_page k ltac:(lia)) as [Hr _]. change (page_path GM k) with (va_path (ParseVirtualAddress (page k))) in Hr.
  destruct (page_offset (page k) off (page_aligned k) Ho) as [Hpath _].
  assert (Haddr : GetPML4EAddress (ParseVirtualAddress (page k + off)) true = GetPML4EAddress (ParseVirtualAddress (page k)) true
    /\ GetPDPTEAddress (ParseVirtualAddress (page k + off)) true = GetPDPTEAddress (ParseVirtualAddress (page k)) true
    /\ GetPDEAddress (ParseVirtualAddress (page k + off)) true = GetPDEAddress (ParseVirtualAddress (page k)) true
    /\ GetPTEAddress (ParseVirtualAddress (page k + off)) true = GetPTEAddress (ParseVirtualAddress (page k)) true).
  { destruct (entry_addresses (ParseVirtualAddress (page k + off)) true (ParseVirtualAddress_ok _)) as (-> & -> & -> & ->).
    destruct (entry_addresses (ParseVirtualAddress (page k)) true (ParseVirtualAddress_ok _)) as (-> & -> & -> & ->).
    revert Hpath. unfold va_path. generalize (ParseVirtualAddress (page k + off)) as u. generalize (ParseVirtualAddress (page k)) as w.
    by intros w u [= -> -> -> ->]. }
  destruct Haddr as (A4 & A3 & A2 & A1).
  destruct (PageMapProps.read_levels CR3 s _ t Hs (ParseVirtualAddress_ok (page k)) Hr Ht)
    as (e4 & e3 & e2 & L4 & N4 & L3 & N3 & L2 & N2 & _).
  assert (F : forall x, next x <> None -> hasflag x PRESENT = true).
  { intros x N. destruct (next x) as [z|] eqn:E; [by eapply next_flags|by exfalso; apply N]. }
  cbn [unmap_general]. unfold AddressSpaces.read_levels, mbind, MM_bind. rewrite A4, A3, A2, A1, L4, L3, L2.
  unfold mret, MM_ret. cbn [levels_present].
  change (pml4e_present (GetPML4EInfo e4)) with (hasflag e4 PRESENT).
  change (pde_present (GetPDPTEInfo e3)) with (hasflag e3 PRESENT).
  change (pde_present (GetPDEInfo e2)) with (hasflag e2 PRESENT).
  rewrite !F by done. cbn [andb negb]. unfold Unmap.
  destruct (store_page s k e 0 Hs ltac:(lia) He) as (s1 & Hw & Hs1 & He1 & Hx). unfold UnmapEntry. rewrite Hw.
  assert (Hnext : u64 (page k + off + PAGE_SIZE) = page (k + 1) + off).
  { destruct general_constants as (HG & HP & _). unfold page. rewrite HG. rewrite HP in Hn.
    unfold PAGE_SIZE, FRAME_SIZE in *. rewrite wrap_small; lia. }
  rewrite Hnext. destruct general_constants as (_ & HP & _).
  destruct (IH (k + 1) off s1 Hs1) as (s2 & -> & Hs2 & He2 & Hy); try lia.
  { intros j Hj. destruct (Hents (1 + j) ltac:(lia)) as [ej Hej]. exists ej.
    replace (k + 1 + j) with (k + (1 + j)) by lia. apply (page_entry_kept _ _ _ _ _ He1); [lia| |done].
    intros Hp. apply page_path_inj in Hp; [lia|apply (page_aligned 0)|lia]. }
  exists s2. split; [done|]. split; [done|]. split.
  - eapply edited_trans.
    + eapply edited_weaken; [|exact He1]. intros p <-. exists 0. split; [lia|]. by rewrite page_shift, Z.add_0_r.
    + eapply edited_weaken; [|exact He2]. intros p (j & Hj & ->). exists (j + 1). split; [lia|].
      rewrite !page_shift. f_equal. lia.
  - intros j Hj. destruct (decide (j = 0)) as [->|Hj0].
    + rewrite Z.add_0_r. apply (page_entry_kept _ _ _ _ _ He2); [lia| |done].
      intros (i & Hi & Hp). rewrite page_shift in Hp. apply page_path_inj in Hp; [lia|apply (page_aligned 0)|lia].
    + replace (k + j) with (k + 1 + (j - 1)) by lia. by rewrite Hy by lia.
Qed.

(** ** The theorem *)

Lemma FilterAddress_base pa : 0 <= pa < 2 ^ MAXPHYADDR -> FilterAddress MAXPHYADDR pa = pa - pa mod FRAME_SIZE.
Proof.
  intros Hr. unfold FilterAddress. replace (2 ^ MAXPHYADDR - 1) with (Z.ones MAXPHYADDR) by (rewrite Z.ones_equiv; lia).
  rewrite Z.land_ones, Z.mod_small by lia. pose proof (frame_range Hphys pa Hr) as Hr'.
  change (bnot 64 0xFFF) with (Z.shiftl (Z.ones 52) 12). rewrite land_mask by done.
  unfold FRAME_SIZE. rewrite Z.mod_small; [zdiv|]. split; [apply Z.div_pos; lia|].
  apply Z.div_lt_upper_bound; [done|]. change (2 ^ 12) with 4096. lia.
Qed.

Lemma general_entry_translates s k pa flags va :
  page_entry s k = Some (general_entry pa flags) -> va_path (ParseVirtualAddress va) = page_path GM k ->
  0 <= pa < 2 ^ MAXPHYADDR -> Z.land flags ADDRESS = 0 ->
  translate (ram s) CR3 va = Some (pa - pa mod FRAME_SIZE + va mod FRAME_SIZE).
Proof.
  intros Hx Hpath Hr Hflags. change (page_path GM k) with (va_path (ParseVirtualAddress (page k))) in Hpath.
  unfold page_entry in Hx. cbv zeta in Hx. set (v := ParseVirtualAddress (page k)) in *.
  rewrite (translate_leaf CR3 s [PML4_offset v; PDPT_offset v; PD_offset v] (PT_offset v) _ _ Hpath Hx).
  unfold general_entry. rewrite FilterAddress_base by done.
  set (f := pa - pa mod FRAME_SIZE). pose proof (frame_range Hphys pa Hr) as Hr'.
  assert (Hf : aligned f /\ 0 <= f < 2 ^ 52) by (unfold f, aligned, FRAME_SIZE in *; zdiv). destruct Hf as [Hfa Hf].
  rewrite land_ADDRESS_frame by done.
  assert (Hp : hasflag (Z.lor (Z.lor f flags) PRESENT) PRESENT = true).
  { change PRESENT with (2 ^ 0). rewrite hasflag_pow2, Z.lor_spec by done. by rewrite orb_true_r. }
  rewrite Hp, !Z.land_lor_distr_l, land_ADDRESS_frame, Hflags by done.
  change (Z.land PRESENT ADDRESS) with 0. rewrite !Z.lor_0_r, lor_aligned; [reflexivity|exact Hfa|apply Z.mod_pos_bound; reflexivity].
Qed.

Lemma range_page start k n a :
  start = page k -> start <= a < start + FRAME_SIZE * n ->
  exists j, k <= j < k + n /\ va_path (ParseVirtualAddress a) = page_path GM j /\ a = page j + a mod FRAME_SIZE.
Proof.
  intros -> Ha. set (off := a mod FRAME_SIZE). exists (k + (a - page k) / FRAME_SIZE).
  pose proof (page_aligned k) as Hal. unfold aligned in Hal.
  assert (Hj : 0 <= (a - page k) / FRAME_SIZE < n /\ a = page (k + (a - page k) / FRAME_SIZE) + off).
  { unfold page in *. set (g := GM + FRAME_SIZE * k) in *. replace (GM + FRAME_SIZE * (k + (a - g) / FRAME_SIZE)) with (g + FRAME_SIZE * ((a - g) / FRAME_SIZE)) by lia.
    unfold off, FRAME_SIZE in *. zdiv. }
  destruct Hj as [Hj Heq]. split; [lia|]. split; [|exact Heq].
  rewrite Heq at 1. assert (Ho : 0 <= off < FRAME_SIZE) by by apply Z.mod_pos_bound.
  by destruct (page_offset _ off (page_aligned (k + (a - page k) / FRAME_SIZE)) Ho) as [-> _].
Qed.

(** C31: a general mapping and its end.  [MapGeneralPages] always returns.  On
    success the bytes of the range asked for, counted from the start of its
    first frame, are mapped in order at consecutive addresses of the zone that
    had no mapping before, every other translation being unchanged, and
    [UnmapGeneralPages] of the pointer returned succeeds and restores every
    translation; on failure no translation has changed. *)
Theorem MapGeneralPages_roundtrip (s : machine A) (pageAddress pages flags : Z) :
  general_ok s -> 0 < pages -> 0 <= pageAddress -> pageAddress + FRAME_SIZE * pages <= 2 ^ MAXPHYADDR ->
  Z.land flags ADDRESS = 0 ->
  exists r s1, MapGeneralPages CR3 MAXPHYADDR pageAddress pages flags s = Some (r, s1) /\ space_ok s1 /\
    match r with
    | None => forall va, regular_va va -> translate (ram s1) CR3 va = translate (ram s) CR3 va
    | Some ptr =>
        let start := ptr - pageAddress mod FRAME_SIZE in
        zone_start GeneralMapping <= start /\ start + FRAME_SIZE * pages <= zone_start GeneralMapping + zone_limit GeneralMapping
        /\ (forall off, 0 <= off < FRAME_SIZE * pages ->
              translate (ram s) CR3 (start + off) = None
              /\ translate (ram s1) CR3 (start + off) = Some (pageAddress - pageAddress mod FRAME_SIZE + off))
        /\ (forall va, regular_va va -> ~ in_range start pages (va_path (ParseVirtualAddress va)) ->
              translate (ram s1) CR3 va = translate (ram s) CR3 va)
        /\ exists s2, UnmapGeneralPages CR3 ptr pages s1 = Some (true, s2) /\ space_ok s2
              /\ forall va, regular_va va -> translate (ram s2) CR3 va = translate (ram s) CR3 va
    end.
Proof.
  intros Hg Hn Hpa Hlt Hflags. assert (Hmax : 2 ^ MAXPHYADDR <= 2 ^ 52) by (apply Z.pow_le_mono_r; lia).
  destruct (MapGeneralPages_runs s pageAddress pages flags Hn Hpa ltac:(lia) Hg) as (r & s1 & E & Hs1 & Hr).
  exists r, s1. split; [done|]. split; [done|].
  destruct r as [ptr|]; [|intros va Hva; apply (gr_translate _ _ _ _ Hr); [done|intros []]].
  destruct Hr as (k & Hk & Hkn & -> & He & Hnone & Hents). change PAGE_SIZE with FRAME_SIZE. cbv zeta.
  rewrite Z.add_simpl_r. destruct general_constants as (HG & HP & Hend).
  split; [unfold page, FRAME_SIZE; lia|]. split; [rewrite <- Hend; unfold page, FRAME_SIZE; lia|]. split; [|split].
  - intros off Ho. destruct (range_page (page k) k pages (page k + off) eq_refl ltac:(lia)) as (j & Hj & Hpath & Heq).
    split; [by apply (Hnone j)|].
    pose proof (Hents (j - k) ltac:(lia)) as Hx. replace (k + (j - k)) with j in Hx by lia.
    rewrite (general_entry_translates s1 j _ flags _ Hx Hpath); [|unfold FRAME_SIZE in *; lia|done].
    f_equal. set (r := (page k + off) mod FRAME_SIZE) in *. clearbody r. unfold page in Heq.
    rewrite (Z.mul_comm FRAME_SIZE (j - k)), Z.mod_add by done. unfold FRAME_SIZE in *. lia.
  - intros va Hva Hout. by apply (gr_translate _ _ _ _ He).
  - pose proof (Z.mod_pos_bound pageAddress FRAME_SIZE ltac:(by unfold FRAME_SIZE)) as Hoff.
    destruct (unmap_general_edits (Z.to_nat pages) k (pageAddress mod FRAME_SIZE) s1 Hs1) as (s2 & E2 & Hs2 & He2 & Hz);
      rewrite ?Z2Nat.id in * by lia; try lia.
    { intros j Hj. eexists. by apply Hents. }
    exists s2. split; [exact E2|]. split; [done|]. intros va Hva.
    assert (Hdec : in_range (page k) pages (va_path (ParseVirtualAddress va)) \/ ~ in_range (page k) pages (va_path (ParseVirtualAddress va))).
    { destruct (decide (Exists (fun j => va_path (ParseVirtualAddress va) = page_path (page k) j) (seqZ 0 pages))) as [Hx|Hx].
      - left. apply Exists_exists in Hx as (j & Hj & Hp). apply elem_of_seqZ in Hj. exists j. split; [lia|done].
      - right. intros (j & Hj & Hp). apply Hx, Exists_exists. exists j. split; [apply elem_of_seqZ; lia|done]. }
    destruct Hdec as [(j & Hj & Hp)|Hout].
    + rewrite page_shift in Hp. rewrite (Hnone (k + j)) by (exact Hp || lia).
      apply (page_free_unmapped s2 (k + j)); [|done]. exists 0. split; [apply Hz; lia|done].
    + rewrite (gr_translate _ _ _ _ He2), (gr_translate _ _ _ _ He) by done. done.
Qed.
End General.

(** ** A space whose zone has its first table *)

Definition slot_table : Z := 0x1001000.
Definition slot_ram : Z -> Z := fun a =>
  if decide (a = demo_root + ENTRY_SIZE * 256) then Z.lor 3 slot_table else empty_ram demo_root a.
Definition slot_machine : machine pm := mkMachine slot_ram one_region.

Lemma slot_entries i :
  ~ (i = 510 \/ i = 509) -> slot_ram (demo_root + ENTRY_SIZE * i) = if decide (i = 256) then Z.lor 3 slot_table else 0.
Proof.
  intros Hi. unfold slot_ram. destruct (decide (i = 256)) as [->|Hn]; [by rewrite decide_True|].
  rewrite decide_False by (unfold ENTRY_SIZE; lia). by apply empty_entry.
Qed.

Lemma slot_empty i : index_ok i -> slot_ram (slot_table + ENTRY_SIZE * i) = 0.
Proof.
  intros [H0 H1]. unfold slot_ram, empty_ram, slot_table, demo_root, ENTRY_SIZE.
  rewrite !decide_False by lia. done.
Qed.

Lemma slot_tables q g : regular q -> table slot_ram demo_root q = Some g ->
  (q = [] /\ g = demo_root) \/ (q = [256] /\ g = slot_table).
Proof.
  intros [Hq Hh]. destruct q as [|i q]; cbn [table]; [intros [= <-]; by left|].
  rewrite slot_entries by lia. destruct (decide (i = 256)) as [->|]; [|done].
  change (next (Z.lor 3 slot_table)) with (Some slot_table). cbn [mbind option_bind].
  destruct q as [|j q]; cbn [table]; [intros [= <-]; by right|].
  apply Forall_cons in Hq as [_ Hq]. apply Forall_cons in Hq as [Hj _]. by rewrite slot_empty.
Qed.

Lemma slot_space (Hphys : 38 <= 39) :
  @space_ok pm physical_frames 39 (physical_laws 39 Hphys) demo_root demo_root true slot_machine.
Proof.
  split; try done.
  - apply one_region_ok.
  - intros q q' t Hq Hq' _ _ T1 T2. destruct (slot_tables _ _ Hq T1) as [[-> ->]|[-> ->]], (slot_tables _ _ Hq' T2) as [[-> Ht]|[-> Ht]]; done.
  - intros g (q & Hq & _ & T). destruct (slot_tables _ _ Hq T) as [[_ ->]|[_ ->]]; intros [_ H]; vm_compute in H; discriminate H.
  - intros [_ H]. vm_compute in H. done.
  - intros q Hq _ T. by destruct (slot_tables _ _ Hq T) as [[-> _]|[_ ?]].
Qed.

Lemma slot_general (Hphys : 38 <= 39) :
  @general_ok pm physical_frames 39 (physical_laws 39 Hphys) demo_root slot_machine.
Proof.
  split; [apply slot_space|by exists slot_table|]. intros j Hj. destruct (general_page j Hj) as [Hr Hslot].
  change (page j) with (GM + FRAME_SIZE * j). set (v := ParseVirtualAddress (GM + FRAME_SIZE * j)) in *.
  assert (Hi : index_ok (PDPT_offset v)) by apply (ParseVirtualAddress_ok (GM + FRAME_SIZE * j)).
  clearbody v. unfold not_large_on. rewrite Hslot.
  assert (T1 : table slot_ram demo_root [256] = Some slot_table) by done.
  split_and!; intros e; unfold entry_at; cbn [ram slot_machine].
  - cbn [table mbind option_bind]. rewrite slot_entries by lia. by intros [= <-].
  - rewrite T1. cbn [mbind option_bind]. rewrite slot_empty by done. by intros [= <-].
  - change [256; PDPT_offset v] with ([256] ++ [PDPT_offset v]).
    destruct (table slot_ram demo_root ([256] ++ [PDPT_offset v])) as [t|] eqn:E; [|done].
    assert (Hq : regular ([256] ++ [PDPT_offset v])).
    { split; [|done]. apply Forall_cons_2; [by unfold index_ok|]. apply Forall_cons_2; [exact Hi|apply Forall_nil_2]. }
    destruct (slot_tables _ _ Hq E) as [[Hx _]|[Hx _]]; discriminate Hx.
Qed.

Lemma MapGeneralPages_roundtrip_witness :
  exists r s1, MapGeneralPages demo_root 39 0xE0000123 2 0 slot_machine = Some (r, s1)
    /\ forall ptr, r = Some ptr -> translate slot_ram demo_root (ptr + 0x1000) = None
                                /\ translate (ram s1) demo_root (ptr + 0x1000) = Some 0xE0001123.
Proof.
  assert (H38 : 38 <= 39) by done.
  destruct (@MapGeneralPages_roundtrip pm physical_frames 39 (physical_laws 39 H38) demo_root ltac:(lia) slot_machine
    0xE0000123 2 0 (slot_general H38) eq_refl ltac:(lia) ltac:(done) eq_refl) as (r & s1 & E & _ & Hr).
  exists r, s1. split; [exact E|]. intros ptr ->. cbv zeta in Hr. destruct Hr as (_ & _ & Hm & _).
  destruct (Hm 0x1123 ltac:(unfold FRAME_SIZE; lia)) as [M1 M2].
  replace (ptr - 0xE0000123 mod FRAME_SIZE + 0x1123) with (ptr + 0x1000) in M1, M2 by (change (0xE0000123 mod FRAME_SIZE) with 0x123; lia).
  split; [exact M1|]. rewrite M2. reflexivity.
Defined.
