(* ===== verification/MappingFlaws.v ===== *)
(** * Where the memory manager falls short

    Runs of the model on small concrete machines, in which the tables of the
    addresses involved are already there, and the faults that checks made too
    late do not prevent. *)
From S2P Require Import Prelude Paging PageTables PageTablesProps PageMapProps MemoryLayout VirtualMemory.
From S2P Require Import AddressSpaces PhysMem PhysMemProps PhysicalFrames MappingProps KernelHeapProps.

(** Physical memory that is zero but for some words. *)
Definition words_at (l : list (Z * Z)) : Z -> Z := fun a => default 0 (snd <$> find (fun e => fst e =? a) l).

(** ** The kernel's map after releases

    The state after [Setup] and one allocation that failed: the tables of the
    last 2 MiB of the heap zone exist, nothing has been given out. *)
Definition heap_vm : vmstate pm :=
  mkVM {| availableMemory := zone_limit KernelHeap; availableBlockMemory := FRAME_SIZE - SIZEOF_BLOCK; storedBlocks := 1 |}
    (mkMachine (words_at [
      (0x1000000 + 8 * 510, 0x1000003);
      (0x1000000 + 8 * 257, 0x1001003); (0x1001000, 0x1002003); (0x1002000, 0x1003003); (0x1003000, 0x1004003);
      (0x1000000 + 8 * 508, 0x1005003); (0x1005000 + 8 * 511, 0x1006003); (0x1006000 + 8 * 511, 0x1007003);
      (0x1004000, zone_start KernelHeap); (0x1004008, HEAP_PAGES)]) one_region).

(** Three ranges [x], [z], [y] are taken, [x] and [y] are released, and two
    more are taken. *)
Definition release_story : VM pm (list (option Z) * list bool) :=
  x ← VirtualMemory.AllocateKernelHeap demo_root 39 3;
  z ← VirtualMemory.AllocateKernelHeap demo_root 39 1;
  y ← VirtualMemory.AllocateKernelHeap demo_root 39 2;
  ok1 ← FreeKernelHeap demo_root 39 (default 0 x) 3;
  ok2 ← FreeKernelHeap demo_root 39 (default 0 y) 2;
  x' ← VirtualMemory.AllocateKernelHeap demo_root 39 3;
  w ← VirtualMemory.AllocateKernelHeap demo_root 39 1;
  mret ([x; z; y; x'; w], [ok1; ok2]).

(** once ranges are released, the map gives a page out twice: the last
    request returns the page of [z], which was never released, because the map
    is not sorted while it holds two blocks and the wrong block is dropped
    when one of them is used up. *)
Theorem released_map_gives_page_twice :
  exists x z y s', release_story heap_vm = Some (([Some x; Some z; Some y; Some x; Some z], [true; true]), s')
    /\ x <> z /\ y <> z.
Proof.
  eexists _, _, _, _. split; [vm_compute; reflexivity|]. by split.
Qed.

(** ** User ranges

    The user context of a new process, as [DeriveNewFreshCR3] leaves it when
    its page was mapped at the start of the general mappings. *)
Definition user_vm : vmstate pm :=
  mkVM kernelContext_init (mkMachine (words_at [
      (0x1000000 + 8 * 510, 0x1000003);
      (0x1000000 + 8 * 511, 0x1001003); (0x1001000, 0x1002003); (0x1002000 + 8 * 8, 0x1003003); (0x1003000 + 8 * 256, 0x1004003);
      (0x1000000 + 8 * 496, 0x1005003); (0x1005000 + 8 * 32, 0x1006003); (0x1006000 + 8 * 155, 0x1007003);
      (0x1004000, zone_limit UserMemory - zone_limit UserStack);
      (0x1004008, u64 (PAGE_SIZE - SIZEOF_BLOCK - (zone_start UserVMemManagement - zone_start GeneralMapping)));
      (0x1004010, 1);
      (0x1004018, zone_start UserMemory);
      (0x1004020, (zone_limit UserMemory - zone_limit UserStack) / FRAME_SIZE)]) one_region).

(** the first page a process asks for is neither aligned nor in user
    memory: the map of user ranges is looked for two bytes after the start of
    the context instead of after its end, so that the fields of the context
    are read as a block. *)
Theorem user_allocation_misplaced :
  managementBase LOW = userContext + 2
  /\ exists a s', AllocateUserPages demo_root 39 1 user_vm = Some (Some a, s')
     /\ ~ aligned a /\ ~ in_zone UserMemory a.
Proof.
  split; [by vm_compute|]. eexists _, _. split; [vm_compute; reflexivity|].
  split; [by vm_compute|]. intros [H1 H2]. vm_compute in H2. done.
Qed.

(** The zone given to processes starts where the zone of DMA buffers does. *)
Theorem user_memory_contains_dma (a : Z) : in_zone DMAZone a -> in_zone UserMemory a.
Proof. unfold in_zone. cbn [zone_start zone_limit DMAZone UserMemory]. unfold PML4E_COVERAGE. lia. Qed.

(** ** Checks made too late *)

Section Late.
Context {A : Type} `{Laws : FrameAllocatorLaws A MAXPHYADDR}.
Context (CR3 : Z).

(** The entries under a PML4 entry that is not present cannot be read. *)
Lemma absent_pdpte_faults (s : machine A) v :
  space_ok CR3 CR3 true s -> va_ok v -> regular (va_path v) ->
  hasflag (ram s (CR3 + ENTRY_SIZE * PML4_offset v)) PRESENT = false ->
  vread CR3 (GetPDPTEAddress v true) s = None.
Proof.
  intros Hs Hv Hr Hp. destruct (regular_levels v Hr) as (R1 & R2 & _ & _).
  destruct (entry_addresses v true Hv) as (_ & -> & _ & _).
  pose proof (regular_last _ _ R2) as Hi3. pose proof (regular_prefix _ _ R2) as Hq.
  unfold vread. rewrite rec_addr_mod8 by (done || cbn; lia). cbn [Z.eqb]. unfold load_word, translate.
  destruct (rec_addr_path (loop_slot true) [PML4_offset v] (8 * PDPT_offset v)) as [-> _];
    [done|apply Hq|cbn; lia|unfold index_ok, FRAME_SIZE in *; lia|].
  change (replicate (3 - length [PML4_offset v]) (loop_slot true) ++ loop_slot true :: [PML4_offset v])
    with ([loop_slot true; loop_slot true; loop_slot true] ++ PML4_offset v :: []).
  rewrite (walk_absent (ram s) CR3 _ CR3); [done| |done].
  change ([loop_slot true; loop_slot true; loop_slot true]) with (replicate 2 (loop_slot true) ++ loop_slot true :: []).
  by rewrite (table_slots CR3 CR3 true (ram s) 2 []) by (by apply (space_linked CR3 CR3 true)).
Qed.

(** releasing, unmapping or changing the flags of pages at an address of
    which the top-level table entry is missing does not report a failure, as
    the tests of the three functions intend: the entries below are read
    before any test, and the kernel faults.  The address comes from the
    caller of [FreeUserPages]. *)
Theorem missing_tables_fault (s : vmstate A) (ptr pages flags : Z) :
  let v := ParseVirtualAddress ptr in
  space_ok CR3 CR3 true (mach s) -> regular_va ptr -> 0 < pages ->
  hasflag (ram (mach s) (CR3 + ENTRY_SIZE * PML4_offset v)) PRESENT = false ->
  UnmapGeneralPages CR3 ptr pages (mach s) = None
  /\ ChangeMappingFlags CR3 ptr flags pages (mach s) = None
  /\ (in_zone UserMemory ptr -> ptr + pages * FRAME_SIZE < 2 ^ 64 -> FreeUserPages CR3 MAXPHYADDR ptr pages s = None).
Proof.
  intros v Hs Hr Hn Hp. pose proof (ParseVirtualAddress_ok ptr) as Hv. fold v in Hv.
  assert (Hz : exists n, Z.to_nat pages = S n) by (exists (Z.to_nat (pages - 1)); lia). destruct Hz as [n Hz].
  pose proof (absent_pdpte_faults (mach s) v Hs Hv Hr Hp) as Hf.
  assert (H4 : vread CR3 (GetPML4EAddress v true) (mach s) = Some (ram (mach s) (CR3 + ENTRY_SIZE * PML4_offset v), mach s)).
  { destruct (entry_addresses v true Hv) as (-> & _). destruct (regular_levels v Hr) as (R1 & _).
    apply (read_entry CR3 CR3 true (mach s) [] CR3); [done|by split|cbn; lia|by eapply regular_last|done]. }
  unfold UnmapGeneralPages, ChangeMappingFlags, FreeUserPages, FreeCore. rewrite Hz.
  cbn [unmap_general change_flags free_pages]. fold v. unfold read_levels, mbind, MM_bind. rewrite H4, Hf.
  split; [done|]. split; [done|]. intros Hu Hlt.
  assert ((pages =? 0) = false) as -> by (apply Z.eqb_neq; lia).
  change (is_kernel LOW) with false. cbn [negb andb].
  unfold in_zone in Hu. rewrite (wrap_small 64) by (change (zone_start UserMemory) with 0 in Hu; unfold FRAME_SIZE in *; lia).
  assert ((zone_start UserMemory + zone_limit UserMemory <? ptr) || (ptr <? zone_start UserMemory)
    || (ptr + pages * FRAME_SIZE <? ptr) = false) as ->.
  { apply orb_false_iff; split; [apply orb_false_iff; split|]; apply Z.ltb_ge; unfold FRAME_SIZE; lia. }
  unfold VM_bind, on_machine at 1. assert ((0 <? pages) = true) as -> by (apply Z.ltb_lt; lia). cbn [negb].
  unfold mbind, MM_bind. by rewrite H4, Hf.
Qed.
End Late.

Lemma missing_tables_fault_witness :
  FreeUserPages demo_root 39 0x40000000 1 demo_vm = None.
Proof.
  assert (H38 : 38 <= 39) by lia.
  destruct (@missing_tables_fault pm physical_frames 39 (physical_laws 39 H38) demo_root demo_vm 0x40000000 1 0
    (demo_space H38)) as (_ & _ & Hf).
  - by apply regular_va_slot.
  - lia.
  - by vm_compute.
  - apply Hf; [vm_compute; split; [discriminate|reflexivity]|unfold FRAME_SIZE; lia].
Defined.
