(* ===== verification/Packed.v ===== *)
(** * Packed fields ([common/include/shared/Bitwise.hpp])

    Reading and writing a bit field of a 32-bit word, the way every hardware
    structure of the xHCI driver is accessed, with the two facts that make such
    fields independent variables. *)
From S2P Require Import Prelude.

(** [target = (target & ~mask) | ((value << shift) & mask)] at type uint32_t. *)
Definition ModifyPacked (target mask shift value : Z) : Z :=
  Z.lor (Z.land target (bnot 32 mask)) (Z.land (u32 (Z.shiftl (u32 value) shift)) mask).

Definition GetPacked (source mask shift : Z) : Z := Z.shiftr (Z.land source mask) shift.

(** The mask of the [width] bits from [shift] on. *)
Definition field_mask (shift width : Z) : Z := Z.shiftl (Z.ones width) shift.

Lemma field_mask_testbit s w i : 0 <= s -> 0 <= w -> 0 <= i -> Z.testbit (field_mask s w) i = (s <=? i) && (i <? s + w).
Proof.
  intros Hs Hw Hi. unfold field_mask. rewrite Z.shiftl_spec by lia. destruct (Z.leb_spec s i) as [Hle|Hlt]; cbn [andb].
  - rewrite Z.testbit_ones_nonneg by lia. lia.
  - by rewrite Z.testbit_neg_r by lia.
Qed.

(** A field of a word just written. *)
Lemma get_modify_same x s w v m : 0 <= s -> 0 <= w -> s + w <= 32 -> m = field_mask s w ->
  GetPacked (ModifyPacked x m s v) m s = v mod 2 ^ w.
Proof.
  intros Hs Hw Hsw ->. unfold GetPacked, ModifyPacked. apply Z.bits_inj'. intros i Hi.
  rewrite Z.shiftr_spec, Z.land_spec, Z.lor_spec, !Z.land_spec, field_mask_testbit by lia.
  destruct (Z.ltb_spec i w) as [Hlt|Hge].
  - rewrite bnot_testbit, field_mask_testbit by lia.
    replace ((s <=? i + s) && (i + s <? s + w)) with true by lia. cbn [negb]. rewrite !andb_false_r, !andb_true_r. cbn [orb].
    unfold wrap. rewrite Z.mod_pow2_bits_low, Z.shiftl_spec by lia. replace (i + s - s) with i by lia.
    by rewrite !Z.mod_pow2_bits_low by lia.
  - replace ((s <=? i + s) && (i + s <? s + w)) with false by lia. rewrite andb_false_r, Z.mod_pow2_bits_high by lia. done.
Qed.

(** A field of a word of which another field was written. *)
Lemma get_modify_other x m s v m' s' : 0 <= m < 2 ^ 32 -> 0 <= m' < 2 ^ 32 -> Z.land m m' = 0 ->
  GetPacked (ModifyPacked x m s v) m' s' = GetPacked x m' s'.
Proof.
  intros Hm Hm' Hd. unfold GetPacked, ModifyPacked. f_equal. apply Z.bits_inj'. intros i Hi.
  rewrite !Z.land_spec, Z.lor_spec, !Z.land_spec.
  assert (Hmi : Z.testbit m i && Z.testbit m' i = false) by (rewrite <- Z.land_spec, Hd; apply Z.testbit_0_l).
  destruct (Z.testbit m' i) eqn:E; [|by rewrite !andb_false_r]. rewrite andb_true_r in Hmi. rewrite !andb_true_r, Hmi, andb_false_r, orb_false_r.
  destruct (Z.ltb_spec i 32).
  - by rewrite bnot_testbit, Hmi, andb_true_r by lia.
  - exfalso. rewrite <- (Z.mod_small m' (2 ^ 32)), Z.mod_pow2_bits_high in E by lia. done.
Qed.

Lemma get_zero m s : GetPacked 0 m s = 0.
Proof. unfold GetPacked. by rewrite Z.land_0_l, Z.shiftr_0_l. Qed.

Lemma modify_range x m s v : 0 <= x < 2 ^ 32 -> 0 <= m < 2 ^ 32 -> 0 <= ModifyPacked x m s v < 2 ^ 32.
Proof.
  intros Hx Hm. unfold ModifyPacked.
  assert (Hnn : 0 <= Z.lor (Z.land x (bnot 32 m)) (Z.land (u32 (Z.shiftl (u32 v) s)) m)).
  { apply Z.lor_nonneg. split; apply Z.land_nonneg; lia. }
  split; [done|]. destruct (Z.eq_dec (Z.lor (Z.land x (bnot 32 m)) (Z.land (u32 (Z.shiftl (u32 v) s)) m)) 0) as [->|Hnz]; [lia|].
  apply Z.log2_lt_pow2; [lia|]. rewrite Z.log2_lor by (apply Z.land_nonneg; lia).
  assert (Hlog : forall y, 0 <= y < 2 ^ 32 -> Z.log2 y < 32).
  { intros y Hy. destruct (Z.eq_dec y 0) as [->|]; [done|]. apply Z.log2_lt_pow2; lia. }
  apply Z.max_lub_lt.
  - eapply Z.le_lt_trans; [apply Z.log2_land; unfold bnot; lia|]. specialize (Hlog x Hx). lia.
  - eapply Z.le_lt_trans; [apply Z.log2_land; [apply wrap_range|]; lia|]. specialize (Hlog m Hm). lia.
Qed.

(** Evaluates the reads of a word built by writes to its fields. *)
Ltac packed :=
  repeat first
    [ rewrite get_modify_other by (vm_compute; first [reflexivity|split; [discriminate|reflexivity]])
    | match goal with |- context [GetPacked (ModifyPacked ?x ?m ?s ?v) ?m ?s] =>
        let w := eval vm_compute in (Z.log2 (Z.shiftr m s) + 1) in
        rewrite (get_modify_same x s w v m) by (vm_compute; first [reflexivity|discriminate])
      end
    | rewrite get_zero ].
