(* ===== verification/Trb.v ===== *)
(** * Transfer request blocks ([kernel/include/devices/USB/xHCI/TRB.hpp],
    [kernel/src/devices/USB/xHCI/TRB.cpp])

    The sixteen-byte blocks exchanged with the xHCI controller. The classes of
    the source that only narrow the interface of [TRB] share its
    representation, so every setter and getter is a function on one record;
    each [Create] is the source's sequence of field writes. *)
From S2P Require Import Prelude Packed.

Record TRB := mkTRB { data0 : Z; data1 : Z; data2 : Z; data3 : Z }.

#[global] Instance TRB_eq_dec : EqDecision TRB.
Proof. solve_decision. Defined.

Definition zero_trb : TRB := mkTRB 0 0 0 0.

Definition on_data0 (f : Z -> Z) (t : TRB) : TRB := mkTRB (f (data0 t)) (data1 t) (data2 t) (data3 t).
Definition on_data1 (f : Z -> Z) (t : TRB) : TRB := mkTRB (data0 t) (f (data1 t)) (data2 t) (data3 t).
Definition on_data2 (f : Z -> Z) (t : TRB) : TRB := mkTRB (data0 t) (data1 t) (f (data2 t)) (data3 t).
Definition on_data3 (f : Z -> Z) (t : TRB) : TRB := mkTRB (data0 t) (data1 t) (data2 t) (f (data3 t)).

(** ** [TRB] *)

(** The enumerators of [TRB::CompletionCode]. *)
Inductive CompletionCode :=
| CC_Invalid | Success | DataBufferError | BabbleDetectedError | USBTransactionError | TRBError | StallError
| ResourceError | BandwidthError | NoSlotsAvailableError | InvalidStreamTypeError | SlotNotEnabledError
| EndpointNotEnabledError | ShortPacket | RingUnderrun | RingOverrun | VFEventRingFullError | ParameterError
| BandwidthOverrunError | ContextStateError | NoPingResponseError | EventRingFullError | IncompatibleDeviceError
| MissedServiceError | CommandRingStoppedError | CommandAbortedError | CC_Stopped | StoppedLengthInvalid
| StoppedShortPacket | MaxExitLatencyTooLargeError | IsochronousBufferOverrunError | EventLostError
| UndefinedError | InvalidStreamIDError | SecondaryBandwidthError | SplitTransactionError.

#[global] Instance CompletionCode_eq_dec : EqDecision CompletionCode.
Proof. solve_decision. Defined.

(** The enumerators in the order of their declaration. *)
Definition completion_codes : list CompletionCode :=
  [CC_Invalid; Success; DataBufferError; BabbleDetectedError; USBTransactionError; TRBError; StallError;
   ResourceError; BandwidthError; NoSlotsAvailableError; InvalidStreamTypeError; SlotNotEnabledError;
   EndpointNotEnabledError; ShortPacket; RingUnderrun; RingOverrun; VFEventRingFullError; ParameterError;
   BandwidthOverrunError; ContextStateError; NoPingResponseError; EventRingFullError; IncompatibleDeviceError;
   MissedServiceError; CommandRingStoppedError; CommandAbortedError; CC_Stopped; StoppedLengthInvalid;
   StoppedShortPacket; MaxExitLatencyTooLargeError; IsochronousBufferOverrunError; EventLostError;
   UndefinedError; InvalidStreamIDError; SecondaryBandwidthError; SplitTransactionError].

(** The value of an enumerator: one more than its predecessor's, unless the
    declaration gives it. *)
Definition completion_value (c : CompletionCode) : Z :=
  match c with
  | CC_Invalid => 0 | Success => 1 | DataBufferError => 2 | BabbleDetectedError => 3 | USBTransactionError => 4
  | TRBError => 5 | StallError => 6 | ResourceError => 7 | BandwidthError => 8 | NoSlotsAvailableError => 9
  | InvalidStreamTypeError => 10 | SlotNotEnabledError => 11 | EndpointNotEnabledError => 12 | ShortPacket => 13
  | RingUnderrun => 14 | RingOverrun => 15 | VFEventRingFullError => 16 | ParameterError => 17
  | BandwidthOverrunError => 18 | ContextStateError => 19 | NoPingResponseError => 20 | EventRingFullError => 21
  | IncompatibleDeviceError => 22 | MissedServiceError => 23 | CommandRingStoppedError => 24
  | CommandAbortedError => 25 | CC_Stopped => 26 | StoppedLengthInvalid => 27 | StoppedShortPacket => 28
  | MaxExitLatencyTooLargeError => 29 | IsochronousBufferOverrunError => 31 | EventLostError => 32
  | UndefinedError => 33 | InvalidStreamIDError => 34 | SecondaryBandwidthError => 35 | SplitTransactionError => 36
  end.

(** An object of the enumeration type holds any byte; the enumerator it is
    equal to, when it is one. *)
Definition completion_of (v : Z) : option CompletionCode :=
  list_find (fun c => completion_value c = v) completion_codes ≫= fun p => Some p.2.

Definition GetSlotType (t : TRB) : Z := Z.land (Z.shiftr (data3 t) 10) 0x3F.
Definition GetCycle (t : TRB) : bool := negb (Z.land (data3 t) 1 =? 0).
Definition SetCycle (cycle : bool) : TRB -> TRB := on_data3 (fun d => ModifyPacked d 1 0 (Z.b2z cycle)).
Definition SetTRBType (type : Z) : TRB -> TRB := on_data3 (fun d => ModifyPacked d 0xFC00 10 type).

(** ** [EventTRB] and its subclasses *)

(** The enumerators of [EventTRB::Type]. *)
Inductive EventType :=
| EV_Unknown | TransferEvent | CommandCompletionEvent | PortStatusChangeEvent | BandwidthRequestEvent
| DoorbellEvent | HostControllerEvent | DeviceNotificationEvent | MFINDEXWrapEvent.

Definition event_value (e : EventType) : Z :=
  match e with
  | EV_Unknown => 0 | TransferEvent => 32 | CommandCompletionEvent => 33 | PortStatusChangeEvent => 34
  | BandwidthRequestEvent => 35 | DoorbellEvent => 36 | HostControllerEvent => 37
  | DeviceNotificationEvent => 38 | MFINDEXWrapEvent => 39
  end.

Definition GetCompletionCode (t : TRB) : Z := GetPacked (data2 t) 0xFF000000 24.
Definition EventTRB_GetType (t : TRB) : Z := GetPacked (data3 t) 0xFC00 10.
Definition GetEventData (t : TRB) : Z := Z.lor (u64 (Z.shiftl (data1 t) 32)) (data0 t).
Definition EventTRB_GetPointer (t : TRB) : Z := GetEventData t.
Definition GetEventParameter (t : TRB) : Z := GetPacked (data2 t) 0xFFFFFF 0.
Definition GetVFID (t : TRB) : Z := u8 (GetPacked (data3 t) 0xFF0000 16).
Definition EventTRB_GetSlotID (t : TRB) : Z := u8 (GetPacked (data3 t) 0xFF000000 24).
Definition GetEventDataPresent (t : TRB) : bool := negb (GetPacked (data3 t) 4 2 =? 0).
Definition GetEndpointID (t : TRB) : Z := u8 (GetPacked (data3 t) 0x1F0000 16).
Definition GetPortID (t : TRB) : Z := u8 (GetPacked (data0 t) 0xFF000000 24).

(** ** [CommandTRB] and its subclasses *)

Definition SetSlotType (type : Z) : TRB -> TRB := on_data3 (fun d => ModifyPacked d 0x1F0000 16 type).
Definition SetSlotID (id : Z) : TRB -> TRB := on_data3 (fun d => ModifyPacked d 0xFF000000 24 id).

Definition NO_OP_TYPE : Z := 23.
Definition ENABLE_SLOT_TYPE : Z := 9.
Definition DISABLE_SLOT_TYPE : Z := 10.
Definition ADDRESS_DEVICE_TYPE : Z := 11.
Definition CONFIGURE_ENDPOINT_TYPE : Z := 12.
Definition LINK_TYPE : Z := 6.

Definition NoOpTRB_Create (cycle : bool) : TRB :=
  SetTRBType NO_OP_TYPE (SetCycle cycle zero_trb).

Definition EnableSlotTRB_Create (cycle : bool) (slot_type : Z) : TRB :=
  SetSlotType slot_type (SetTRBType ENABLE_SLOT_TYPE (SetCycle cycle zero_trb)).

Definition DisableSlotTRB_Create (cycle : bool) (slot_id : Z) : TRB :=
  SetSlotID slot_id (SetTRBType DISABLE_SLOT_TYPE (SetCycle cycle zero_trb)).

(** [CONTEXT_POINTER_MASK] and [NEXT_MASK] of the source. *)
Definition POINTER_MASK : Z := 0xFFFFFFFFFFFFFFF0.

Definition AddressDeviceTRB_Create (cycle bsr : bool) (slot_id context_pointer : Z) : TRB :=
  let raw_pointer := Z.land context_pointer POINTER_MASK in
  let trb := mkTRB (u32 raw_pointer) (u32 (Z.shiftr raw_pointer 32)) 0 (if bsr then 0x200 else 0) in
  SetSlotID slot_id (SetTRBType ADDRESS_DEVICE_TYPE (SetCycle cycle trb)).

Definition ConfigureEndpointTRB_Create (cycle dc : bool) (slot_id context_pointer : Z) : TRB :=
  let raw_pointer := Z.land context_pointer POINTER_MASK in
  let trb := mkTRB (u32 raw_pointer) (u32 (Z.shiftr raw_pointer 32)) 0 (if dc then 0x200 else 0) in
  SetSlotID slot_id (SetTRBType CONFIGURE_ENDPOINT_TYPE (SetCycle cycle trb)).

Definition LinkTRB_Create (cycle : bool) (next : Z) : TRB :=
  let raw_next := Z.land next POINTER_MASK in
  let trb := mkTRB (u32 raw_next) (u32 (Z.shiftr raw_next 32)) 0 0x2 in
  SetTRBType LINK_TYPE (SetCycle cycle trb).

(** ** [TransferTRB] *)

Definition SetRawImmediateData (data_value : Z) (t : TRB) : TRB :=
  mkTRB (u32 data_value) (u32 (Z.shiftr data_value 32)) (data2 t) (data3 t).
Definition SetDataBufferPointer (pointer : Z) : TRB -> TRB := SetRawImmediateData pointer.
Definition SetTRBTransferLength (length : Z) : TRB -> TRB := on_data2 (fun d => ModifyPacked d 0x1FFFF 0 length).
Definition SetTDSize (size : Z) : TRB -> TRB := on_data2 (fun d => ModifyPacked d 0x3E0000 17 size).
Definition SetInterrupterTarget (target : Z) : TRB -> TRB := on_data2 (fun d => ModifyPacked d 0xFFC00000 22 target).
Definition SetENT (ent : bool) : TRB -> TRB := on_data3 (fun d => ModifyPacked d 2 1 (Z.b2z ent)).
Definition SetISP (isp : bool) : TRB -> TRB := on_data3 (fun d => ModifyPacked d 4 2 (Z.b2z isp)).
Definition SetNoSnoop (no_snoop : bool) : TRB -> TRB := on_data3 (fun d => ModifyPacked d 8 3 (Z.b2z no_snoop)).
Definition SetChain (chain : bool) : TRB -> TRB := on_data3 (fun d => ModifyPacked d 0x10 4 (Z.b2z chain)).
Definition SetInterruptOnCompletion (ioc : bool) : TRB -> TRB := on_data3 (fun d => ModifyPacked d 0x20 5 (Z.b2z ioc)).
Definition SetImmediateData (idt : bool) : TRB -> TRB := on_data3 (fun d => ModifyPacked d 0x40 6 (Z.b2z idt)).
Definition SetBEI (bei : bool) : TRB -> TRB := on_data3 (fun d => ModifyPacked d 0x200 9 (Z.b2z bei)).
Definition SetDirection (direction : bool) : TRB -> TRB := on_data3 (fun d => ModifyPacked d 0x10000 16 (Z.b2z direction)).

Inductive TransferType := TT_Invalid | NoDataStage | DataOutStage | DataInStage.

Definition TransferType_FromType (type : Z) : TransferType :=
  match type with
  | 0 => NoDataStage
  | 2 => DataOutStage
  | 3 => DataInStage
  | _ => TT_Invalid
  end.

Definition TransferType_ToType (v : TransferType) : Z :=
  match v with
  | NoDataStage => 0
  | DataOutStage => 2
  | DataInStage => 3
  | TT_Invalid => 0
  end.

(** ** [NormalTRB] *)

Record NormalDescriptor := mkNormal {
  n_bufferPointer : Z; n_transferLength : Z; n_tdSize : Z; n_interrupterTarget : Z; n_cycle : bool;
  n_evaluateNextTRB : bool; n_interruptOnShortPacket : bool; n_noSnoop : bool; n_chain : bool;
  n_interruptOnCompletion : bool; n_immediateData : bool; n_blockEventInterrupt : bool }.

Definition NORMAL_TYPE : Z := 1.

Definition NormalTRB_Create (descriptor : NormalDescriptor) : TRB :=
  let trb := SetDataBufferPointer (n_bufferPointer descriptor) zero_trb in
  let trb := SetTRBTransferLength (n_transferLength descriptor) trb in
  let trb := SetTDSize (n_tdSize descriptor) trb in
  let trb := SetInterrupterTarget (n_interrupterTarget descriptor) trb in
  let trb := SetCycle (n_cycle descriptor) trb in
  let trb := SetENT (n_evaluateNextTRB descriptor) trb in
  let trb := SetISP (n_interruptOnShortPacket descriptor) trb in
  let trb := SetNoSnoop (n_noSnoop descriptor) trb in
  let trb := SetChain (n_chain descriptor) trb in
  let trb := SetInterruptOnCompletion (n_interruptOnCompletion descriptor) trb in
  let trb := SetImmediateData (n_immediateData descriptor) trb in
  let trb := SetTRBType NORMAL_TYPE trb in
  if n_blockEventInterrupt descriptor then on_data3 (fun d => Z.lor d 0x200) trb else trb.

(** ** [SetupTRB] *)

Definition SetRequestType (bmRequestType : Z) : TRB -> TRB := on_data0 (fun d => ModifyPacked d 0xFF 0 bmRequestType).
Definition SetRequest (bRequest : Z) : TRB -> TRB := on_data0 (fun d => ModifyPacked d 0xFF00 8 bRequest).
Definition SetValue (wValue : Z) : TRB -> TRB := on_data0 (fun d => ModifyPacked d 0xFFFF0000 16 wValue).
Definition SetIndex (wIndex : Z) : TRB -> TRB := on_data1 (fun d => ModifyPacked d 0xFFFF 0 wIndex).
Definition SetLength (wLength : Z) : TRB -> TRB := on_data1 (fun d => ModifyPacked d 0xFFFF0000 16 wLength).
Definition SetTransferType (type : TransferType) : TRB -> TRB :=
  on_data3 (fun d => ModifyPacked d 0x30000 16 (TransferType_ToType type)).

Record SetupDescriptor := mkSetup {
  s_bmRequestType : Z; s_bRequest : Z; s_wValue : Z; s_wIndex : Z; s_wLength : Z; s_tranferLength : Z;
  s_interrupterTarget : Z; s_cycle : bool; s_interruptOnCompletion : bool; s_transferType : TransferType }.

Definition SETUP_TYPE : Z := 2.

Definition SetupTRB_Create (descriptor : SetupDescriptor) : TRB :=
  let trb := SetRequestType (s_bmRequestType descriptor) zero_trb in
  let trb := SetRequest (s_bRequest descriptor) trb in
  let trb := SetValue (s_wValue descriptor) trb in
  let trb := SetIndex (s_wIndex descriptor) trb in
  let trb := SetLength (s_wLength descriptor) trb in
  let trb := SetTRBTransferLength (s_tranferLength descriptor) trb in
  let trb := SetInterrupterTarget (s_interrupterTarget descriptor) trb in
  let trb := SetCycle (s_cycle descriptor) trb in
  let trb := SetInterruptOnCompletion (s_interruptOnCompletion descriptor) trb in
  let trb := SetImmediateData true trb in
  let trb := SetTRBType SETUP_TYPE trb in
  SetTransferType (s_transferType descriptor) trb.

(** ** [DataTRB] *)

Record DataDescriptor := mkData {
  d_bufferPointer : Z; d_transferLength : Z; d_tdSize : Z; d_interrupterTarget : Z; d_cycle : bool;
  d_evaluateNextTRB : bool; d_interruptOnShortPacket : bool; d_noSnoop : bool; d_chain : bool;
  d_interruptOnCompletion : bool; d_immediateData : bool; d_direction : bool }.

Definition DATA_TYPE : Z := 3.

Definition DataTRB_Create (descriptor : DataDescriptor) : TRB :=
  let trb := SetDataBufferPointer (d_bufferPointer descriptor) zero_trb in
  let trb := SetTRBTransferLength (d_transferLength descriptor) trb in
  let trb := SetTDSize (d_tdSize descriptor) trb in
  let trb := SetInterrupterTarget (d_interrupterTarget descriptor) trb in
  let trb := SetCycle (d_cycle descriptor) trb in
  let trb := SetENT (d_evaluateNextTRB descriptor) trb in
  let trb := SetISP (d_interruptOnShortPacket descriptor) trb in
  let trb := SetNoSnoop (d_noSnoop descriptor) trb in
  let trb := SetChain (d_chain descriptor) trb in
  let trb := SetInterruptOnCompletion (d_interruptOnCompletion descriptor) trb in
  let trb := SetImmediateData (d_immediateData descriptor) trb in
  let trb := SetTRBType DATA_TYPE trb in
  SetDirection (d_direction descriptor) trb.

(** ** [StatusTRB] *)

Record StatusDescriptor := mkStatus {
  st_interrupterTarget : Z; st_cycle : bool; st_evaluateNextTRB : bool; st_chain : bool;
  st_interruptOnCompletion : bool; st_direction : bool }.

Definition STATUS_TYPE : Z := 4.

Definition StatusTRB_Create (descriptor : StatusDescriptor) : TRB :=
  let trb := SetInterrupterTarget (st_interrupterTarget descriptor) zero_trb in
  let trb := SetCycle (st_cycle descriptor) trb in
  let trb := SetENT (st_evaluateNextTRB descriptor) trb in
  let trb := SetChain (st_chain descriptor) trb in
  let trb := SetInterruptOnCompletion (st_interruptOnCompletion descriptor) trb in
  let trb := SetTRBType STATUS_TYPE trb in
  SetDirection (st_direction descriptor) trb.
