(* ===== verification/TrbProps.v ===== *)
(** * The bits of a transfer request block

    Every [Create] writes exactly the fields of its descriptor, cut to the
    widths of the xHCI specification, at the specification's bit positions,
    and leaves every other bit zero; events are read back at the same
    positions. *)
From S2P Require Import Prelude Packed Trb.

(** ** Writing a clear field adds its value *)

Lemma modify_zero_field x s w v m : 0 <= x < 2 ^ 32 -> 0 <= s -> 0 <= w -> s + w <= 32 -> m = field_mask s w ->
  Z.land x m = 0 -> ModifyPacked x m s v = x + (v mod 2 ^ w) * 2 ^ s.
Proof.
  intros Hx Hs Hw Hsw -> Hz. unfold ModifyPacked.
  assert (Hkeep : Z.land x (bnot 32 (field_mask s w)) = x).
  { apply Z.bits_inj'. intros i Hi. rewrite Z.land_spec. destruct (Z.ltb_spec i 32) as [Hlt|Hge].
    - rewrite bnot_testbit by lia. assert (Hb : Z.testbit x i && Z.testbit (field_mask s w) i = false) by (rewrite <- Z.land_spec, Hz; apply Z.testbit_0_l).
      destruct (Z.testbit x i); [|done]. cbn [andb] in *. by rewrite Hb.
    - rewrite <- (Z.mod_small x (2 ^ 32)), Z.mod_pow2_bits_high by lia. done. }
  assert (Hput : Z.land (u32 (Z.shiftl (u32 v) s)) (field_mask s w) = v mod 2 ^ w * 2 ^ s).
  { rewrite <- Z.shiftl_mul_pow2 by lia. apply Z.bits_inj'. intros i Hi.
    rewrite Z.land_spec, field_mask_testbit, Z.shiftl_spec by lia. unfold wrap.
    destruct (Z.ltb_spec i s) as [Hlt|Hge]; [rewrite (proj2 (Z.leb_gt s i)) by lia; rewrite andb_false_r, (Z.testbit_neg_r _ (i - s)) by lia; done|].
    rewrite (proj2 (Z.leb_le s i)) by lia. cbn [andb]. destruct (Z.ltb_spec i (s + w)) as [Hl2|Hg2].
    - rewrite andb_true_r, Z.mod_pow2_bits_low, Z.shiftl_spec, !Z.mod_pow2_bits_low by lia. done.
    - rewrite andb_false_r, Z.mod_pow2_bits_high by lia. done. }
  rewrite Hkeep, Hput.
  assert (Hdisj : Z.land x (v mod 2 ^ w * 2 ^ s) = 0) by (rewrite <- Hput, (Z.land_comm (u32 _)), Z.land_assoc, Hz; apply Z.land_0_l).
  rewrite <- Z.lxor_lor by done. by rewrite <- Z.add_nocarry_lxor.
Qed.

(** The bits a field occupies are clear in a sum of fields outside it; the
    summands are kept as numbers, so that one division decides it. *)
Lemma land_field x s w : 0 <= x -> 0 <= s -> 0 <= w -> Z.land x (field_mask s w) = (x / 2 ^ s) mod 2 ^ w * 2 ^ s.
Proof.
  intros Hx Hs Hw. rewrite <- Z.shiftl_mul_pow2 by lia. apply Z.bits_inj'. intros i Hi.
  rewrite Z.land_spec, field_mask_testbit, Z.shiftl_spec by lia.
  destruct (Z.ltb_spec i s) as [Hlt|Hge].
  - rewrite (proj2 (Z.leb_gt s i)) by lia. rewrite andb_false_r, (Z.testbit_neg_r _ (i - s)) by lia. done.
  - rewrite (proj2 (Z.leb_le s i)) by lia. cbn [andb]. destruct (Z.ltb_spec i (s + w)) as [Hl2|Hg2].
    + rewrite andb_true_r, Z.mod_pow2_bits_low, Z.div_pow2_bits by lia. by replace (i - s + s) with i by lia.
    + rewrite andb_false_r, Z.mod_pow2_bits_high by lia. done.
Qed.

Lemma get_field x s w m : 0 <= x -> 0 <= s -> 0 <= w -> m = field_mask s w -> GetPacked x m s = (x / 2 ^ s) mod 2 ^ w.
Proof.
  intros Hx Hs Hw ->. unfold GetPacked. rewrite land_field, Z.shiftr_div_pow2 by lia.
  rewrite Z.div_mul by (apply Z.pow_nonzero; lia). done.
Qed.

(** Fields written in increasing order of their position. *)
Lemma modify_above x s w v m : 0 <= x < 2 ^ s -> 0 <= s -> 0 <= w -> s + w <= 32 -> m = field_mask s w ->
  ModifyPacked x m s v = x + (v mod 2 ^ w) * 2 ^ s.
Proof.
  intros Hx Hs Hw Hsw ->. apply (modify_zero_field x s w); try done.
  - split; [lia|]. eapply Z.lt_le_trans; [apply Hx|]. apply Z.pow_le_mono_r; lia.
  - rewrite land_field by lia. by rewrite Z.div_small by lia.
Qed.

Lemma shiftr32 p : Z.shiftr p 32 = p / 2 ^ 32.
Proof. by rewrite Z.shiftr_div_pow2 by lia. Qed.

Lemma mask_pointer p : 0 <= p < 2 ^ 64 -> Z.land p POINTER_MASK = p - p mod 16.
Proof.
  intros Hp. change POINTER_MASK with (field_mask 4 60). rewrite land_field by lia.
  change (2 ^ 4) with 16. rewrite Z.mod_small. { pose proof (Z.div_mod p 16 ltac:(lia)). lia. }
  split; [apply Z.div_pos; lia|]. apply Z.div_lt_upper_bound; lia.
Qed.

Lemma b2z_range b : 0 <= Z.b2z b < 2.
Proof. destruct b; cbn; lia. Qed.

Lemma b2z_mod b : Z.b2z b mod 2 ^ 1 = Z.b2z b.
Proof. by destruct b. Qed.

(** *** Chains of field writes

    A field is its position, its width and the value written. *)
Definition write_field (x : Z) (f : Z * Z * Z) : Z := ModifyPacked x (field_mask f.1.1 f.1.2) f.1.1 f.2.
Definition write_fields (x : Z) (fs : list (Z * Z * Z)) : Z := fold_left write_field fs x.
Definition field_value (f : Z * Z * Z) : Z := f.2 mod 2 ^ f.1.2 * 2 ^ f.1.1.
Definition fields_value (fs : list (Z * Z * Z)) : Z := foldr (fun f acc => field_value f + acc) 0 fs.

Fixpoint ascending (lo : Z) (fs : list (Z * Z)) : bool :=
  match fs with
  | [] => true
  | (s, w) :: fs => (lo <=? s) && (0 <=? w) && (s + w <=? 32) && ascending (s + w) fs
  end.

Lemma write_fields_value fs : forall lo x, 0 <= lo -> ascending lo fs.*1 = true -> 0 <= x < 2 ^ lo ->
  write_fields x fs = x + fields_value fs.
Proof.
  induction fs as [|[[s w] v] fs IH]; intros lo x Hlo Hasc Hx; cbn in Hasc; [cbn; lia|].
  rewrite !andb_true_iff, !Z.leb_le in Hasc. destruct Hasc as [[[Hs Hw] Hsw] Hasc].
  assert (Hx' : 0 <= x < 2 ^ s) by (pose proof (Z.pow_le_mono_r 2 lo s); lia).
  unfold write_fields. cbn [fold_left]. unfold write_field at 2. cbn [fst snd]. rewrite (modify_above x s w v) by (lia || done).
  fold (write_fields (x + v mod 2 ^ w * 2 ^ s) fs). rewrite (IH (s + w)); [unfold fields_value; cbn; unfold field_value; cbn; lia|lia|done|].
  pose proof (Z.mod_pos_bound v (2 ^ w)) as Hv. rewrite Z.pow_add_r by lia. nia.
Qed.

(** ** The words of the transfer blocks *)

Definition transfer_status (length td_size target : Z) : Z :=
  length mod 2 ^ 17 + td_size mod 2 ^ 5 * 2 ^ 17 + target mod 2 ^ 10 * 2 ^ 22.

Definition normal_words (d : NormalDescriptor) : TRB :=
  mkTRB (n_bufferPointer d mod 2 ^ 32) (n_bufferPointer d / 2 ^ 32 mod 2 ^ 32)
    (transfer_status (n_transferLength d) (n_tdSize d) (n_interrupterTarget d))
    (Z.b2z (n_cycle d) + Z.b2z (n_evaluateNextTRB d) * 2 ^ 1 + Z.b2z (n_interruptOnShortPacket d) * 2 ^ 2
     + Z.b2z (n_noSnoop d) * 2 ^ 3 + Z.b2z (n_chain d) * 2 ^ 4 + Z.b2z (n_interruptOnCompletion d) * 2 ^ 5
     + Z.b2z (n_immediateData d) * 2 ^ 6 + Z.b2z (n_blockEventInterrupt d) * 2 ^ 9 + 1 * 2 ^ 10).

Definition setup_words (d : SetupDescriptor) : TRB :=
  mkTRB (s_bmRequestType d mod 2 ^ 8 + s_bRequest d mod 2 ^ 8 * 2 ^ 8 + s_wValue d mod 2 ^ 16 * 2 ^ 16)
    (s_wIndex d mod 2 ^ 16 + s_wLength d mod 2 ^ 16 * 2 ^ 16)
    (transfer_status (s_tranferLength d) 0 (s_interrupterTarget d))
    (Z.b2z (s_cycle d) + Z.b2z (s_interruptOnCompletion d) * 2 ^ 5 + 1 * 2 ^ 6 + 2 * 2 ^ 10
     + match s_transferType d with DataOutStage => 2 | DataInStage => 3 | _ => 0 end * 2 ^ 16).

Definition data_words (d : DataDescriptor) : TRB :=
  mkTRB (d_bufferPointer d mod 2 ^ 32) (d_bufferPointer d / 2 ^ 32 mod 2 ^ 32)
    (transfer_status (d_transferLength d) (d_tdSize d) (d_interrupterTarget d))
    (Z.b2z (d_cycle d) + Z.b2z (d_evaluateNextTRB d) * 2 ^ 1 + Z.b2z (d_interruptOnShortPacket d) * 2 ^ 2
     + Z.b2z (d_noSnoop d) * 2 ^ 3 + Z.b2z (d_chain d) * 2 ^ 4 + Z.b2z (d_interruptOnCompletion d) * 2 ^ 5
     + Z.b2z (d_immediateData d) * 2 ^ 6 + 3 * 2 ^ 10 + Z.b2z (d_direction d) * 2 ^ 16).

Definition status_words (d : StatusDescriptor) : TRB :=
  mkTRB 0 0 (transfer_status 0 0 (st_interrupterTarget d))
    (Z.b2z (st_cycle d) + Z.b2z (st_evaluateNextTRB d) * 2 ^ 1 + Z.b2z (st_chain d) * 2 ^ 4
     + Z.b2z (st_interruptOnCompletion d) * 2 ^ 5 + 4 * 2 ^ 10 + Z.b2z (st_direction d) * 2 ^ 16).

(** Closes [word = sum of fields] given the fields written, lowest first. *)
Ltac by_fields fs :=
  etransitivity; [exact (write_fields_value fs 0 0 ltac:(lia) eq_refl ltac:(lia))|];
  cbn -[Z.b2z Z.add Z.mul Z.pow Z.modulo]; unfold field_value, transfer_status; cbn [fst snd]; rewrite ?b2z_mod;
  repeat match goal with
  | |- context [Zpos ?a mod ?b] => let v := eval vm_compute in (Zpos a mod b) in change (Zpos a mod b) with v
  | |- context [0 mod ?b] => change (0 mod b) with 0
  end; ring.

(** The two words of a pointer. *)
Lemma pointer_high p : u32 (Z.shiftr p 32) = p / 2 ^ 32 mod 2 ^ 32.
Proof. by rewrite shiftr32. Qed.

Lemma transfer_status_fields l t i :
  ModifyPacked (ModifyPacked (ModifyPacked 0 0x1FFFF 0 l) 0x3E0000 17 t) 0xFFC00000 22 i = transfer_status l t i.
Proof. by_fields [(0, 17, l); (17, 5, t); (22, 10, i)]. Qed.

(** The control word of a normal or data block, before its last flag. *)
Definition control_word (cy en sp ns ch io im : bool) : Z :=
  Z.b2z cy + Z.b2z en * 2 ^ 1 + Z.b2z sp * 2 ^ 2 + Z.b2z ns * 2 ^ 3 + Z.b2z ch * 2 ^ 4 + Z.b2z io * 2 ^ 5 + Z.b2z im * 2 ^ 6.

Lemma control_word_range cy en sp ns ch io im : 0 <= control_word cy en sp ns ch io im < 2 ^ 7.
Proof. unfold control_word. destruct cy, en, sp, ns, ch, io, im; cbn; lia. Qed.

Lemma flag_above_type x : 0 <= x < 2 ^ 7 -> Z.lor (x + 2 ^ 10) 0x200 = x + 2 ^ 9 + 2 ^ 10.
Proof.
  intros Hx. change 0x200 with (field_mask 9 1). rewrite <- Z.lxor_lor, <- Z.add_nocarry_lxor; [change (field_mask 9 1) with (2 ^ 9); lia|..];
  rewrite land_field by lia; change (2 ^ 10) with (2 * 2 ^ 9); rewrite Z.div_add, Z.div_small by lia; done.
Qed.

Lemma trb_ext t u : data0 t = data0 u -> data1 t = data1 u -> data2 t = data2 u -> data3 t = data3 u -> t = u.
Proof. destruct t, u. cbn. by intros -> -> -> ->. Qed.

Lemma Normal_words d : NormalTRB_Create d = normal_words d.
Proof.
  destruct d as [p l t i cy en sp ns ch io im be].
  assert (H3 : data3 (NormalTRB_Create (mkNormal p l t i cy en sp ns ch io im false)) = control_word cy en sp ns ch io im + 2 ^ 10).
  { unfold control_word. by_fields [(0, 1, Z.b2z cy); (1, 1, Z.b2z en); (2, 1, Z.b2z sp); (3, 1, Z.b2z ns); (4, 1, Z.b2z ch);
      (5, 1, Z.b2z io); (6, 1, Z.b2z im); (10, 6, 1)]. }
  pose proof (control_word_range cy en sp ns ch io im) as Hr.
  destruct be; apply trb_ext; try exact (pointer_high p); try exact (transfer_status_fields l t i); try reflexivity.
  - trans (Z.lor (control_word cy en sp ns ch io im + 2 ^ 10) 0x200); [by rewrite <- H3|].
    rewrite flag_above_type by done. unfold control_word. cbn -[Z.b2z Z.add Z.mul Z.pow]. change (Z.b2z true) with 1; change (Z.b2z false) with 0; ring.
  - etransitivity; [exact H3|]. unfold control_word. cbn -[Z.b2z Z.add Z.mul Z.pow]. change (Z.b2z true) with 1; change (Z.b2z false) with 0; ring.
Qed.

Lemma Setup_words d : SetupTRB_Create d = setup_words d.
Proof.
  destruct d as [rt rq va ix le tl it cy io ty]. apply trb_ext.
  - by_fields [(0, 8, rt); (8, 8, rq); (16, 16, va)].
  - by_fields [(0, 16, ix); (16, 16, le)].
  - by_fields [(0, 17, tl); (22, 10, it)].
  - trans (Z.b2z cy + Z.b2z io * 2 ^ 5 + 1 * 2 ^ 6 + 2 * 2 ^ 10 + TransferType_ToType ty mod 2 ^ 2 * 2 ^ 16); [|by destruct ty].
    by_fields [(0, 1, Z.b2z cy); (5, 1, Z.b2z io); (6, 1, 1); (10, 6, 2); (16, 2, TransferType_ToType ty)].
Qed.

Lemma Data_words d : DataTRB_Create d = data_words d.
Proof.
  destruct d as [p l t i cy en sp ns ch io im di]. apply trb_ext; try exact (pointer_high p); try exact (transfer_status_fields l t i); try reflexivity.
  by_fields [(0, 1, Z.b2z cy); (1, 1, Z.b2z en); (2, 1, Z.b2z sp); (3, 1, Z.b2z ns); (4, 1, Z.b2z ch);
    (5, 1, Z.b2z io); (6, 1, Z.b2z im); (10, 6, 3); (16, 1, Z.b2z di)].
Qed.

Lemma Status_words d : StatusTRB_Create d = status_words d.
Proof.
  destruct d as [i cy en ch io di]. apply trb_ext; try reflexivity.
  - by_fields [(22, 10, i)].
  - by_fields [(0, 1, Z.b2z cy); (1, 1, Z.b2z en); (4, 1, Z.b2z ch); (5, 1, Z.b2z io); (10, 6, 4); (16, 1, Z.b2z di)].
Qed.

(** the transfer blocks the driver builds hold, in every word, exactly the
    fields of their descriptor at the positions the xHCI specification gives
    them, each cut to its width, the block's type, and zero everywhere else:
    no field overwrites another and nothing is left from a previous use. *)
Theorem transfer_trbs_encoded :
  (forall d, NormalTRB_Create d = normal_words d) /\ (forall d, SetupTRB_Create d = setup_words d) /\
  (forall d, DataTRB_Create d = data_words d) /\ (forall d, StatusTRB_Create d = status_words d).
Proof. split_and!; [exact Normal_words|exact Setup_words|exact Data_words|exact Status_words]. Qed.

(** ** The words of the command blocks *)

Definition command_word (cycle : bool) (type : Z) : Z := Z.b2z cycle + type * 2 ^ 10.

Definition context_words (cycle flag : bool) (type slot_id pointer : Z) : TRB :=
  mkTRB (pointer mod 2 ^ 32) (pointer / 2 ^ 32) 0 (Z.b2z flag * 2 ^ 9 + command_word cycle type + slot_id * 2 ^ 24).

Lemma NoOp_words cycle : NoOpTRB_Create cycle = mkTRB 0 0 0 (command_word cycle 23).
Proof. by destruct cycle. Qed.

Lemma EnableSlot_words cycle ty : 0 <= ty < 32 ->
  EnableSlotTRB_Create cycle ty = mkTRB 0 0 0 (command_word cycle 9 + ty * 2 ^ 16).
Proof.
  intros Hty. apply trb_ext; try reflexivity. cbn [data3]. rewrite <- (Z.mod_small ty (2 ^ 5)) at 2 by lia. unfold command_word.
  by_fields [(0, 1, Z.b2z cycle); (10, 6, 9); (16, 5, ty)].
Qed.

Lemma DisableSlot_words cycle id : 0 <= id < 256 ->
  DisableSlotTRB_Create cycle id = mkTRB 0 0 0 (command_word cycle 10 + id * 2 ^ 24).
Proof.
  intros Hid. apply trb_ext; try reflexivity. cbn [data3]. rewrite <- (Z.mod_small id (2 ^ 8)) at 2 by lia. unfold command_word.
  by_fields [(0, 1, Z.b2z cycle); (10, 6, 10); (24, 8, id)].
Qed.

(** The blocks that point somewhere set a flag above the cycle bit first. *)
Lemma pointer_words p : 0 <= p < 2 ^ 64 -> p mod 16 = 0 ->
  u32 (Z.land p POINTER_MASK) = p mod 2 ^ 32 /\ u32 (Z.shiftr (Z.land p POINTER_MASK) 32) = p / 2 ^ 32.
Proof.
  intros Hp Hal. rewrite mask_pointer, Hal, Z.sub_0_r, shiftr32 by done. split; [done|].
  unfold wrap. apply Z.mod_small. split; [apply Z.div_pos; lia|apply Z.div_lt_upper_bound; lia].
Qed.

Lemma flagged_command_word (cycle flag : bool) (type id : Z) : (type = 11 \/ type = 12) -> 0 <= id < 256 ->
  ModifyPacked (ModifyPacked (ModifyPacked (if flag then 0x200 else 0) 1 0 (Z.b2z cycle)) 0xFC00 10 type) 0xFF000000 24 id
  = Z.b2z flag * 2 ^ 9 + command_word cycle type + id * 2 ^ 24.
Proof.
  intros Hty Hid.
  assert (Hin : ModifyPacked (ModifyPacked (if flag then 0x200 else 0) 1 0 (Z.b2z cycle)) 0xFC00 10 type
    = Z.b2z flag * 2 ^ 9 + command_word cycle type) by (destruct Hty as [-> | ->], cycle, flag; reflexivity).
  rewrite Hin. rewrite (modify_above _ 24 8), Z.mod_small; [done|lia| |lia|lia|lia|reflexivity].
  unfold command_word. destruct cycle, flag; cbn; lia.
Qed.

Lemma AddressDevice_words cycle bsr id p : 0 <= id < 256 -> 0 <= p < 2 ^ 64 -> p mod 16 = 0 ->
  AddressDeviceTRB_Create cycle bsr id p = context_words cycle bsr 11 id p.
Proof.
  intros Hid Hp Hal. destruct (pointer_words p Hp Hal) as [Hlo Hhi].
  unfold AddressDeviceTRB_Create, context_words. cbv zeta. rewrite Hlo, Hhi, <- (flagged_command_word cycle bsr 11 id) by lia. done.
Qed.

Lemma ConfigureEndpoint_words cycle dc id p : 0 <= id < 256 -> 0 <= p < 2 ^ 64 -> p mod 16 = 0 ->
  ConfigureEndpointTRB_Create cycle dc id p = context_words cycle dc 12 id p.
Proof.
  intros Hid Hp Hal. destruct (pointer_words p Hp Hal) as [Hlo Hhi].
  unfold ConfigureEndpointTRB_Create, context_words. cbv zeta. rewrite Hlo, Hhi, <- (flagged_command_word cycle dc 12 id) by lia. done.
Qed.

Lemma Link_words cycle p : 0 <= p < 2 ^ 64 -> p mod 16 = 0 ->
  LinkTRB_Create cycle p = mkTRB (p mod 2 ^ 32) (p / 2 ^ 32) 0 (2 + command_word cycle 6).
Proof.
  intros Hp Hal. destruct (pointer_words p Hp Hal) as [Hlo Hhi].
  unfold LinkTRB_Create. cbv zeta. rewrite Hlo, Hhi. by destruct cycle.
Qed.

(** the command blocks hold the cycle bit, the type and the operands at
    the specification's positions and zero elsewhere; a pointer to a context
    or ring segment, 16-byte aligned, is stored whole. *)
Theorem command_trbs_encoded (cycle flag : bool) (slot_type slot_id pointer : Z) :
  0 <= slot_type < 32 -> 0 <= slot_id < 256 -> 0 <= pointer < 2 ^ 64 -> pointer mod 16 = 0 ->
  NoOpTRB_Create cycle = mkTRB 0 0 0 (command_word cycle 23) /\
  EnableSlotTRB_Create cycle slot_type = mkTRB 0 0 0 (command_word cycle 9 + slot_type * 2 ^ 16) /\
  DisableSlotTRB_Create cycle slot_id = mkTRB 0 0 0 (command_word cycle 10 + slot_id * 2 ^ 24) /\
  AddressDeviceTRB_Create cycle flag slot_id pointer = context_words cycle flag 11 slot_id pointer /\
  ConfigureEndpointTRB_Create cycle flag slot_id pointer = context_words cycle flag 12 slot_id pointer /\
  LinkTRB_Create cycle pointer = mkTRB (pointer mod 2 ^ 32) (pointer / 2 ^ 32) 0 (2 + command_word cycle 6).
Proof.
  intros. split_and!; [apply NoOp_words|by apply EnableSlot_words|by apply DisableSlot_words|by apply AddressDevice_words
    |by apply ConfigureEndpoint_words|by apply Link_words].
Qed.

Lemma command_trbs_encoded_witness :
  AddressDeviceTRB_Create true false 3 0x12345678ABC0 = mkTRB 0x5678ABC0 0x1234 0 0x3002C01.
Proof.
  destruct (command_trbs_encoded true false 1 3 0x12345678ABC0) as (_ & _ & _ & H & _);
    [lia|lia|lia|reflexivity|]. rewrite H. reflexivity.
Defined.

(** ** Reading events *)

(** The block a controller writes for a transfer or command completion:
    pointer, length or parameter, completion code, cycle, event-data flag,
    type, endpoint, slot. *)
Definition event_words (pointer param code : Z) (cycle ed : bool) (type endpoint slot : Z) : TRB :=
  mkTRB (pointer mod 2 ^ 32) (pointer / 2 ^ 32) (param + code * 2 ^ 24)
    (Z.b2z cycle + Z.b2z ed * 2 ^ 2 + type * 2 ^ 10 + endpoint * 2 ^ 16 + slot * 2 ^ 24).

Lemma join_pointer p : 0 <= p < 2 ^ 64 -> Z.lor (u64 (Z.shiftl (p / 2 ^ 32) 32)) (p mod 2 ^ 32) = p.
Proof.
  intros Hp. assert (Hh : 0 <= p / 2 ^ 32 < 2 ^ 32) by (split; [apply Z.div_pos; lia|apply Z.div_lt_upper_bound; lia]).
  rewrite Z.shiftl_mul_pow2 by lia. unfold wrap. rewrite Z.mod_small by lia.
  rewrite <- Z.lxor_lor, <- Z.add_nocarry_lxor; [pose proof (Z.div_mod p (2 ^ 32)); lia|..];
  rewrite <- Z.shiftl_mul_pow2 by lia; apply Z.bits_inj'; intros i Hi; rewrite Z.land_spec, Z.shiftl_spec, Z.bits_0 by lia;
  (destruct (Z.ltb_spec i 32); [by rewrite Z.testbit_neg_r by lia|by rewrite Z.mod_pow2_bits_high, andb_false_r by lia]).
Qed.

(** A field between the fields below and above it. *)
Lemma get_middle hi v lo s w m x : 0 <= s -> 0 <= w -> 0 <= lo < 2 ^ s -> 0 <= v < 2 ^ w -> 0 <= hi -> m = field_mask s w ->
  x = lo + v * 2 ^ s + hi * 2 ^ (s + w) -> GetPacked x m s = v.
Proof.
  intros Hs Hw Hlo Hv Hhi Hm ->. rewrite (get_field _ s w) by (nia || done). rewrite Z.pow_add_r by lia.
  replace (lo + v * 2 ^ s + hi * (2 ^ s * 2 ^ w)) with ((v + hi * 2 ^ w) * 2 ^ s + lo) by ring.
  rewrite Z.div_add_l, (Z.div_small lo), Z.add_0_r, Z.mod_add, Z.mod_small by lia. done.
Qed.

Lemma odd_flag x q b : x = Z.b2z b + q * 2 -> negb (Z.land x 1 =? 0) = b.
Proof.
  intros ->. change 1 with (Z.ones 1). rewrite Z.land_ones by lia. change (2 ^ 1) with 2. rewrite Z.mod_add by lia. by destruct b.
Qed.

(** reading back an event gives the pointer, completion code, parameter,
    type, endpoint, slot and flags the controller wrote, whatever the other
    fields hold. *)
Theorem event_decoded (pointer param code : Z) (cycle ed : bool) (type endpoint slot : Z) :
  0 <= pointer < 2 ^ 64 -> 0 <= param < 2 ^ 24 -> 0 <= code < 2 ^ 8 -> 0 <= type < 2 ^ 6 -> 0 <= endpoint < 2 ^ 5 ->
  0 <= slot < 2 ^ 8 ->
  let t := event_words pointer param code cycle ed type endpoint slot in
  EventTRB_GetPointer t = pointer /\ GetEventParameter t = param /\ GetCompletionCode t = code /\ GetCycle t = cycle /\
  GetEventDataPresent t = ed /\ EventTRB_GetType t = type /\ GetEndpointID t = endpoint /\ EventTRB_GetSlotID t = slot.
Proof.
  intros Hp Hpa Hc Hty He Hs. cbv zeta. unfold event_words, EventTRB_GetPointer, GetEventData, GetEventParameter, GetCompletionCode,
    GetCycle, GetEventDataPresent, EventTRB_GetType, GetEndpointID, EventTRB_GetSlotID. cbn [data0 data1 data2 data3].
  pose proof (b2z_range cycle). pose proof (b2z_range ed).
  split_and!.
  - by apply join_pointer.
  - apply (get_middle code param 0 0 24); lia || reflexivity.
  - apply (get_middle 0 code param 24 8); lia || reflexivity.
  - apply (odd_flag _ (Z.b2z ed * 2 + type * 2 ^ 9 + endpoint * 2 ^ 15 + slot * 2 ^ 23)). lia.
  - rewrite (get_middle (type * 2 ^ 7 + endpoint * 2 ^ 13 + slot * 2 ^ 21) (Z.b2z ed) (Z.b2z cycle) 2 1) by (lia || reflexivity). by destruct ed.
  - apply (get_middle (endpoint + slot * 2 ^ 8) type (Z.b2z cycle + Z.b2z ed * 2 ^ 2) 10 6); lia || reflexivity.
  - rewrite (get_middle (slot * 2 ^ 3) endpoint (Z.b2z cycle + Z.b2z ed * 2 ^ 2 + type * 2 ^ 10) 16 5) by (lia || reflexivity). apply wrap_small. lia.
  - rewrite (get_middle 0 slot (Z.b2z cycle + Z.b2z ed * 2 ^ 2 + type * 2 ^ 10 + endpoint * 2 ^ 16) 24 8) by (lia || reflexivity). apply wrap_small. lia.
Qed.

Lemma event_decoded_witness :
  let t := event_words 0xFFFF800000001230 5 13 true false 32 31 255 in
  GetCompletionCode t = 13 /\ completion_of (GetCompletionCode t) = Some ShortPacket /\ EventTRB_GetSlotID t = 255.
Proof.
  destruct (event_decoded 0xFFFF800000001230 5 13 true false 32 31 255) as (_ & _ & Hc & _ & _ & _ & _ & Hs);
    [lia..|]. cbv zeta. rewrite Hc. split_and!; [done|reflexivity|exact Hs].
Defined.

(** ** Enumerations *)

Lemma completion_of_value c : completion_of (completion_value c) = Some c.
Proof. by destruct c; vm_compute. Qed.

Lemma TransferType_round ty : ty <> TT_Invalid -> TransferType_FromType (TransferType_ToType ty) = ty.
Proof. by destruct ty. Qed.
