(* ===== verification/XhciContext.v ===== *)
(** * Device contexts of the xHCI controller
    ([kernel/include/devices/USB/xHCI/Specification.hpp],
    [kernel/src/devices/USB/xHCI/Specification.cpp])

    The contexts are structures in memory shared with the controller. A memory
    maps byte addresses of 32-bit words to their values, a context is the
    address of its first word ([this]), and an accessor reads or updates the
    memory; [ContextWrapperBasic] and [ContextWrapperEx] compute the addresses. *)
From S2P Require Import Prelude Packed.

Definition memory : Type := Z -> Z.

(** [data[i]] of the context at [this]. *)
Definition word (this i : Z) : Z := this + 4 * i.
Definition rd (m : memory) (this i : Z) : Z := m (word this i).
Definition wr (m : memory) (this i v : Z) : memory := <[word this i := v]> m.

(** ** Enumerations *)

Inductive PortSpeed :=
| InvalidSpeed | LowSpeed | FullSpeed | HighSpeed | SuperSpeedGen1x1 | SuperSpeedPlusGen1x2 | SuperSpeedPlusGen2x1
| SuperSpeedPlusGen2x2.

#[global] Instance PortSpeed_eq_dec : EqDecision PortSpeed.
Proof. solve_decision. Defined.

Definition FromSpeedID (id : Z) : PortSpeed :=
  match id with
  | 1 => FullSpeed
  | 2 => LowSpeed
  | 3 => HighSpeed
  | 4 => SuperSpeedGen1x1
  | 5 => SuperSpeedPlusGen2x1
  | 6 => SuperSpeedPlusGen1x2
  | 7 => SuperSpeedPlusGen2x2
  | _ => InvalidSpeed
  end.

Definition ToSpeedID (s : PortSpeed) : Z :=
  match s with
  | FullSpeed => 1
  | LowSpeed => 2
  | HighSpeed => 3
  | SuperSpeedGen1x1 => 4
  | SuperSpeedPlusGen2x1 => 5
  | SuperSpeedPlusGen1x2 => 6
  | SuperSpeedPlusGen2x2 => 7
  | InvalidSpeed => 0
  end.

(** [DeviceInformation] of [Device.hpp]: where a device is attached. *)
Record DeviceInformation := mkInformation {
  route_string : Z; parent_port : Z; root_hub_port : Z; slot_id : Z; port_speed : PortSpeed; depth : Z }.

Inductive SlotState := SS_Invalid | DisabledEnabled | SS_Default | Addressed | Configured.

#[global] Instance SlotState_eq_dec : EqDecision SlotState.
Proof. solve_decision. Defined.

Definition FromSlotState (state : Z) : SlotState :=
  match state with
  | 0 => DisabledEnabled
  | 1 => SS_Default
  | 2 => Addressed
  | 3 => Configured
  | _ => SS_Invalid
  end.

Inductive EndpointState := ES_Invalid | ES_Disabled | ES_Running | ES_Halted | ES_Stopped | ES_Error | ES_Reserved.

#[global] Instance EndpointState_eq_dec : EqDecision EndpointState.
Proof. solve_decision. Defined.

Definition FromEndpointState (state : Z) : EndpointState :=
  match state with
  | 0 => ES_Disabled
  | 1 => ES_Running
  | 2 => ES_Halted
  | 3 => ES_Stopped
  | 4 => ES_Error
  | 5 | 6 | 7 => ES_Reserved
  | _ => ES_Invalid
  end.

Inductive EndpointType :=
| ET_Invalid | IsochronousOut | BulkOut | InterruptOut | ControlBidirectional | IsochronousIn | BulkIn | InterruptIn.

#[global] Instance EndpointType_eq_dec : EqDecision EndpointType.
Proof. solve_decision. Defined.

Definition FromEndpointType (type : Z) : EndpointType :=
  match type with
  | 0 => ET_Invalid
  | 1 => IsochronousOut
  | 2 => BulkOut
  | 3 => InterruptOut
  | 4 => ControlBidirectional
  | 5 => IsochronousIn
  | 6 => BulkIn
  | 7 => InterruptIn
  | _ => ET_Invalid
  end.

Definition ToEndpointType (t : EndpointType) : Z :=
  match t with
  | ET_Invalid => 0
  | IsochronousOut => 1
  | BulkOut => 2
  | InterruptOut => 3
  | ControlBidirectional => 4
  | IsochronousIn => 5
  | BulkIn => 6
  | InterruptIn => 7
  end.

(** ** [Context] and [ContextEx] *)

Definition clear_words (this i : Z) (n : nat) (m : memory) : memory :=
  foldl (fun m k => wr m this (i + Z.of_nat k) 0) m (seq 0 n).

Definition Context_Reset (this : Z) (m : memory) : memory := clear_words this 0 8 m.

Definition ContextEx_Reset (this : Z) (m : memory) : memory := clear_words this 8 8 (Context_Reset this m).

(** ** [SlotContext] *)

Definition GetRouteString (this : Z) (m : memory) : Z := GetPacked (rd m this 0) 0x000FFFFF 0.
Definition SetRouteString (this route_string : Z) (m : memory) : memory :=
  wr m this 0 (ModifyPacked (rd m this 0) 0x000FFFFF 0 route_string).
Definition GetPortSpeed (this : Z) (m : memory) : PortSpeed := FromSpeedID (u8 (GetPacked (rd m this 0) 0x00F00000 20)).
Definition SetPortSpeed (this : Z) (speed : PortSpeed) (m : memory) : memory :=
  wr m this 0 (ModifyPacked (rd m this 0) 0x00F00000 20 (ToSpeedID speed)).
Definition GetContextEntries (this : Z) (m : memory) : Z := u8 (GetPacked (rd m this 0) 0xF8000000 27).
Definition SetContextEntries (this count : Z) (m : memory) : memory :=
  wr m this 0 (ModifyPacked (rd m this 0) 0xF8000000 27 count).
Definition GetRootHubPort (this : Z) (m : memory) : Z := u8 (GetPacked (rd m this 1) 0x00FF0000 16).
Definition SetRootHubPort (this port : Z) (m : memory) : memory :=
  wr m this 1 (ModifyPacked (rd m this 1) 0x00FF0000 16 port).
Definition GetSlotState (this : Z) (m : memory) : SlotState := FromSlotState (u8 (GetPacked (rd m this 3) 0xF8000000 27)).
Definition ResetSlotState (this : Z) (m : memory) : memory :=
  wr m this 3 (ModifyPacked (rd m this 3) 0xF8000000 27 0).

(** ** [EndpointContext] *)

Definition GetEndpointState (this : Z) (m : memory) : EndpointState :=
  match u8 (GetPacked (rd m this 0) 0x00000007 0) with
  | 0 => ES_Disabled
  | 1 => ES_Running
  | 2 => ES_Halted
  | 3 => ES_Stopped
  | 4 => ES_Error
  | 5 | 6 | 7 => ES_Reserved
  | _ => ES_Invalid
  end.
Definition GetMult (this : Z) (m : memory) : Z := u8 (GetPacked (rd m this 0) 0x00000300 8).
Definition SetMult (this mult : Z) (m : memory) : memory := wr m this 0 (ModifyPacked (rd m this 0) 0x00000300 8 mult).
Definition GetMaxPStreams (this : Z) (m : memory) : Z := u8 (GetPacked (rd m this 0) 0x00007C00 10).
Definition SetMaxPStreams (this streams : Z) (m : memory) : memory :=
  wr m this 0 (ModifyPacked (rd m this 0) 0x00007C00 10 streams).
Definition GetInterval (this : Z) (m : memory) : Z := u8 (GetPacked (rd m this 0) 0x00FF0000 16).
Definition SetInterval (this interval : Z) (m : memory) : memory :=
  wr m this 0 (ModifyPacked (rd m this 0) 0x00FF0000 16 interval).
Definition GetErrorCount (this : Z) (m : memory) : Z := u8 (GetPacked (rd m this 1) 0x00000006 1).
Definition SetErrorCount (this count : Z) (m : memory) : memory :=
  wr m this 1 (ModifyPacked (rd m this 1) 0x00000006 1 count).
Definition GetEndpointType (this : Z) (m : memory) : EndpointType :=
  FromEndpointType (u8 (GetPacked (rd m this 1) 0x00000038 3)).
Definition SetEndpointType (this : Z) (type : EndpointType) (m : memory) : memory :=
  wr m this 1 (ModifyPacked (rd m this 1) 0x00000038 3 (ToEndpointType type)).
Definition GetMaxBurstSize (this : Z) (m : memory) : Z := u8 (GetPacked (rd m this 1) 0x0000FF00 8).
Definition SetMaxBurstSize (this size : Z) (m : memory) : memory :=
  wr m this 1 (ModifyPacked (rd m this 1) 0x0000FF00 8 size).
Definition GetMaxPacketSize (this : Z) (m : memory) : Z := u16 (GetPacked (rd m this 1) 0xFFFF0000 16).
Definition SetMaxPacketSize (this size : Z) (m : memory) : memory :=
  wr m this 1 (ModifyPacked (rd m this 1) 0xFFFF0000 16 size).
Definition GetDCS (this : Z) (m : memory) : bool := negb (GetPacked (rd m this 2) 0x00000001 0 =? 0).
Definition SetDCS (this : Z) (dcs : bool) (m : memory) : memory :=
  wr m this 2 (ModifyPacked (rd m this 2) 0x00000001 0 (Z.b2z dcs)).
Definition TR_DEQUEUE_POINTER_LO_MASK : Z := 0xFFFFFFF0.
Definition GetTRDequeuePointer (this : Z) (m : memory) : Z :=
  let pointer_lo := Z.land (rd m this 2) TR_DEQUEUE_POINTER_LO_MASK in
  let pointer_hi := rd m this 3 in
  Z.lor (u64 (Z.shiftl pointer_hi 32)) pointer_lo.
Definition SetTRDequeuePointer (this address : Z) (m : memory) : memory :=
  let address_lo := Z.land (u32 address) TR_DEQUEUE_POINTER_LO_MASK in
  let address_hi := u32 (Z.shiftr address 32) in
  let m := wr m this 2 (ModifyPacked (rd m this 2) TR_DEQUEUE_POINTER_LO_MASK 0 address_lo) in
  wr m this 3 address_hi.
Definition GetAverageTRBLength (this : Z) (m : memory) : Z := u16 (GetPacked (rd m this 4) 0x0000FFFF 0).
Definition SetAverageTRBLength (this length : Z) (m : memory) : memory :=
  wr m this 4 (ModifyPacked (rd m this 4) 0x0000FFFF 0 length).

(** ** [InputControlContext] *)

Definition SetDropContext (this id : Z) (m : memory) : memory :=
  if (2 <=? id) && (id <? 32) then wr m this 0 (Z.lor (rd m this 0) (u32 (Z.shiftl 1 id))) else m.
Definition SetAddContext (this id : Z) (m : memory) : memory :=
  if id <? 31 then wr m this 1 (Z.lor (rd m this 1) (u32 (Z.shiftl 1 id))) else m.
Definition SetConfigurationValue (this config : Z) (m : memory) : memory :=
  wr m this 7 (Z.lor (Z.land (rd m this 7) (bnot 32 0xFF)) (Z.land config 0xFF)).
Definition SetInterfaceNumber (this id : Z) (m : memory) : memory :=
  wr m this 7 (ModifyPacked (rd m this 7) 0x0000FF00 8 id).
Definition SetAlternateSetting (this v : Z) (m : memory) : memory :=
  wr m this 7 (ModifyPacked (rd m this 7) 0x00FF0000 16 v).

(** ** [ContextWrapper]: the two structures of a device *)

Record ContextWrapper := mkWrapper { output : Z; input : Z }.

(** ** [ContextWrapperBasic]: contexts of 32 bytes *)

Definition Basic_SIZEOF_OUTPUT : Z := 1024.
Definition Basic_SIZEOF_INPUT : Z := 1056.

(** [input->input_control], [x->slot], [x->control_endpoint] and
    [x->endpoints[id]] for the two directions. *)
Definition Basic_GetInputControlContext (w : ContextWrapper) : Z := input w.
Definition Basic_GetSlotContext (w : ContextWrapper) (is_in : bool) : Z :=
  if is_in then input w + 32 else output w.
Definition Basic_GetControlEndpointContext (w : ContextWrapper) (is_in : bool) : Z :=
  if is_in then input w + 64 else output w + 32.
Definition Basic_GetInputEndpointContext (w : ContextWrapper) (id : Z) (is_in : bool) : option Z :=
  if id <? 15 then Some (if is_in then input w + 96 + 64 * id + 32 else input w + 96 + 64 * id) else None.
Definition Basic_GetOutputEndpointContext (w : ContextWrapper) (id : Z) (is_in : bool) : option Z :=
  if id <? 15 then Some (if is_in then output w + 64 + 64 * id + 32 else output w + 64 + 64 * id) else None.

Definition Basic_ResetInputControl (w : ContextWrapper) (m : memory) : memory := Context_Reset (input w) m.
Definition Basic_ResetSlot (w : ContextWrapper) (m : memory) : memory :=
  Context_Reset (input w + 32) (Context_Reset (output w) m).
Definition Basic_ResetControlEndpoint (w : ContextWrapper) (m : memory) : memory :=
  Context_Reset (input w + 64) (Context_Reset (output w + 32) m).
Definition Basic_ResetEndpoint (w : ContextWrapper) (id : Z) (is_in : bool) (m : memory) : memory :=
  if id <? 15 then
    if is_in then
      let m := Context_Reset (output w + 64 + 64 * id + 32) m in
      Context_Reset (input w + 96 + 64 * id + 32) m
    else
      let m := Context_Reset (output w + 64 + 64 * id) m in
      Context_Reset (input w + 96 + 64 * id) m
  else m.
Definition Basic_Reset (w : ContextWrapper) (m : memory) : memory :=
  let m := Basic_ResetInputControl w m in
  let m := Basic_ResetSlot w m in
  let m := Basic_ResetControlEndpoint w m in
  foldl (fun m i => Basic_ResetEndpoint w (Z.of_nat i) false (Basic_ResetEndpoint w (Z.of_nat i) true m)) m (seq 0 15).

(** ** [ContextWrapperEx]: contexts of 64 bytes *)

Definition Ex_SIZEOF_OUTPUT : Z := 2048.
Definition Ex_SIZEOF_INPUT : Z := 2112.

(** [input->input_control], [x->slot], [x->control_endpoint] and
    [x->endpoints[id]] for the two directions. *)
Definition Ex_GetInputControlContext (w : ContextWrapper) : Z := input w.
Definition Ex_GetSlotContext (w : ContextWrapper) (is_in : bool) : Z :=
  if is_in then input w + 64 else output w.
Definition Ex_GetControlEndpointContext (w : ContextWrapper) (is_in : bool) : Z :=
  if is_in then input w + 128 else output w + 64.
Definition Ex_GetInputEndpointContext (w : ContextWrapper) (id : Z) (is_in : bool) : option Z :=
  if id <? 15 then Some (if is_in then input w + 192 + 128 * id + 64 else input w + 192 + 128 * id) else None.
Definition Ex_GetOutputEndpointContext (w : ContextWrapper) (id : Z) (is_in : bool) : option Z :=
  if id <? 15 then Some (if is_in then output w + 128 + 128 * id + 64 else output w + 128 + 128 * id) else None.

Definition Ex_ResetInputControl (w : ContextWrapper) (m : memory) : memory := ContextEx_Reset (input w) m.
Definition Ex_ResetSlot (w : ContextWrapper) (m : memory) : memory :=
  ContextEx_Reset (input w + 64) (ContextEx_Reset (output w) m).
Definition Ex_ResetControlEndpoint (w : ContextWrapper) (m : memory) : memory :=
  ContextEx_Reset (input w + 128) (ContextEx_Reset (output w + 64) m).
Definition Ex_ResetEndpoint (w : ContextWrapper) (id : Z) (is_in : bool) (m : memory) : memory :=
  if id <? 15 then
    if is_in then
      let m := ContextEx_Reset (output w + 128 + 128 * id + 64) m in
      ContextEx_Reset (input w + 192 + 128 * id + 64) m
    else
      let m := ContextEx_Reset (output w + 128 + 128 * id) m in
      ContextEx_Reset (input w + 192 + 128 * id) m
  else m.
Definition Ex_Reset (w : ContextWrapper) (m : memory) : memory :=
  let m := Ex_ResetInputControl w m in
  let m := Ex_ResetSlot w m in
  let m := Ex_ResetControlEndpoint w m in
  foldl (fun m i => Ex_ResetEndpoint w (Z.of_nat i) false (Ex_ResetEndpoint w (Z.of_nat i) true m)) m (seq 0 15).

(** ** Allocation *)

(** What the wrappers and the rings ask of the kernel's memory: the heap's
    [Allocate] and [Free], the [AllocateDMA] and [FreeDMA] of the virtual
    memory manager, and access to the memory itself. *)
Class KernelMemory (S : Type) := {
  Heap_Allocate : Z -> S -> option Z * S;
  Heap_Free : Z -> S -> S;
  AllocateDMA : Z -> S -> option Z * S;
  FreeDMA : Z -> Z -> S -> S;
  read_memory : S -> memory;
  on_memory : (memory -> memory) -> S -> S }.

Class KernelMemoryLaws (S : Type) `{!KernelMemory S} := {
  read_on_memory : forall (f : memory -> memory) (s : S), read_memory (on_memory f s) = f (read_memory s) }.

(** [sizeof(ContextWrapperBasic)] and [sizeof(ContextWrapperEx)]: a virtual
    table pointer and two pointers. *)
Definition SIZEOF_WRAPPER : Z := 24.

Section Creation.
Context {S : Type} `{!KernelMemory S}.

Definition io (A : Type) : Type := S -> A * S.

(** [ContextWrapperBasic::Create]: the wrapper object, 1 shared page, the two structures
    placed one after the other and value-initialised. *)
Definition Basic_Create : io (option (Z * ContextWrapper)) := fun s =>
  match Heap_Allocate SIZEOF_WRAPPER s with
  | (None, s) => (None, s)
  | (Some wrapper, s) =>
      match AllocateDMA 1 s with
      | (None, s) => (None, Heap_Free wrapper s)
      | (Some shared_page, s) =>
          let out := shared_page in
          let inp := shared_page + Basic_SIZEOF_OUTPUT in
          let s := on_memory (clear_words out 0 256) s in
          let s := on_memory (clear_words inp 0 264) s in
          (Some (wrapper, mkWrapper out inp), s)
      end
  end.

Definition Basic_Release (this : Z) (w : ContextWrapper) (s : S) : S :=
  Heap_Free this (FreeDMA (output w) 1 s).

(** [ContextWrapperEx::Create]: the wrapper object, 2 shared pages, the two structures
    placed one after the other and value-initialised. *)
Definition Ex_Create : io (option (Z * ContextWrapper)) := fun s =>
  match Heap_Allocate SIZEOF_WRAPPER s with
  | (None, s) => (None, s)
  | (Some wrapper, s) =>
      match AllocateDMA 2 s with
      | (None, s) => (None, Heap_Free wrapper s)
      | (Some shared_page, s) =>
          let out := shared_page in
          let inp := shared_page + Ex_SIZEOF_OUTPUT in
          let s := on_memory (clear_words out 0 512) s in
          let s := on_memory (clear_words inp 0 528) s in
          (Some (wrapper, mkWrapper out inp), s)
      end
  end.

Definition Ex_Release (this : Z) (w : ContextWrapper) (s : S) : S :=
  Heap_Free this (FreeDMA (output w) 2 s).

Definition ContextWrapper_Create (extended : bool) : io (option (Z * ContextWrapper)) :=
  if extended then Ex_Create else Basic_Create.

End Creation.
