(* ===== verification/XhciContextProps.v ===== *)
(** * The fields and the layout of the device contexts

    The accessors of a context behave as independent variables of the widths
    the specification gives them; the contexts of one device lie apart from
    each other, inside the allocated pages, where the controller looks for
    them; [Reset] clears them all and nothing else. *)
From S2P Require Import Prelude Packed TrbProps XhciContext.

(** ** Memory *)

Lemma rd_wr_same m this i v : rd (wr m this i v) this i = v.
Proof. unfold rd, wr. apply fn_lookup_insert. Qed.

Lemma rd_wr_other m this i j v : i <> j -> rd (wr m this i v) this j = rd m this j.
Proof. intros Hij. unfold rd, wr. apply fn_lookup_insert_ne. unfold word. lia. Qed.

Lemma wr_elsewhere m this i v a : a <> word this i -> wr m this i v a = m a.
Proof. intros Ha. unfold wr. by apply fn_lookup_insert_ne. Qed.

(** ** The endpoint context *)

Inductive EndpointField :=
| FMult | FMaxPStreams | FInterval | FErrorCount | FEndpointType | FMaxBurstSize | FMaxPacketSize | FDCS | FTRDequeue
| FAverageTRBLength.

#[global] Instance EndpointField_eq_dec : EqDecision EndpointField.
Proof. solve_decision. Defined.

(** The source's getter and setter of a field, on numbers. *)
Definition ep_get (f : EndpointField) (this : Z) (m : memory) : Z :=
  match f with
  | FMult => GetMult this m
  | FMaxPStreams => GetMaxPStreams this m
  | FInterval => GetInterval this m
  | FErrorCount => GetErrorCount this m
  | FEndpointType => ToEndpointType (GetEndpointType this m)
  | FMaxBurstSize => GetMaxBurstSize this m
  | FMaxPacketSize => GetMaxPacketSize this m
  | FDCS => Z.b2z (GetDCS this m)
  | FTRDequeue => GetTRDequeuePointer this m
  | FAverageTRBLength => GetAverageTRBLength this m
  end.

Definition ep_set (f : EndpointField) (this v : Z) (m : memory) : memory :=
  match f with
  | FMult => SetMult this v m
  | FMaxPStreams => SetMaxPStreams this v m
  | FInterval => SetInterval this v m
  | FErrorCount => SetErrorCount this v m
  | FEndpointType => SetEndpointType this (FromEndpointType v) m
  | FMaxBurstSize => SetMaxBurstSize this v m
  | FMaxPacketSize => SetMaxPacketSize this v m
  | FDCS => SetDCS this (bool_decide (v <> 0)) m
  | FTRDequeue => SetTRDequeuePointer this v m
  | FAverageTRBLength => SetAverageTRBLength this v m
  end.

(** What a field keeps of a value. *)
Definition ep_cut (f : EndpointField) (v : Z) : Z :=
  match f with
  | FMult => v mod 2 ^ 2
  | FMaxPStreams => v mod 2 ^ 5
  | FInterval => v mod 2 ^ 8
  | FErrorCount => v mod 2 ^ 2
  | FEndpointType => ToEndpointType (FromEndpointType v)
  | FMaxBurstSize => v mod 2 ^ 8
  | FMaxPacketSize => v mod 2 ^ 16
  | FDCS => Z.b2z (bool_decide (v <> 0))
  | FTRDequeue => v - v mod 16
  | FAverageTRBLength => v mod 2 ^ 16
  end.

Lemma wrap_cut w k v : 0 <= k <= w -> wrap w (v mod 2 ^ k) = v mod 2 ^ k.
Proof.
  intros Hk. unfold wrap. apply Z.mod_small. pose proof (Z.mod_pos_bound v (2 ^ k) ltac:(lia)).
  pose proof (Z.pow_le_mono_r 2 k w). lia.
Qed.

Lemma ToEndpointType_range t : 0 <= ToEndpointType t < 2 ^ 3.
Proof. destruct t; cbn; lia. Qed.

Lemma EndpointType_round t : FromEndpointType (ToEndpointType t) = t.
Proof. by destruct t. Qed.

(** The pointer is spread over two words, the low one shared with the cycle
    state. *)
Lemma land_get x m : Z.land x m = GetPacked x m 0.
Proof. unfold GetPacked. by rewrite Z.shiftr_0_r. Qed.

Lemma cut_low p : 0 <= p -> u32 p / 2 ^ 4 mod 2 ^ 28 * 2 ^ 4 = (p - p mod 16) mod 2 ^ 32.
Proof.
  intros Hp. unfold wrap. change (2 ^ 4) with 16. change (2 ^ 28) with 268435456. change (2 ^ 32) with 4294967296.
  pose proof (Z.div_mod p 4294967296 ltac:(lia)) as Hd. pose proof (Z.mod_pos_bound p 4294967296 ltac:(lia)) as Hr.
  set (r := p mod 4294967296) in *. set (h := p / 4294967296) in *. clearbody r h.
  assert (Hm : p mod 16 = r mod 16).
  { replace p with (r + 268435456 * h * 16) by lia. rewrite Z.mod_add by lia. done. }
  pose proof (Z.div_mod r 16 ltac:(lia)). pose proof (Z.mod_pos_bound r 16 ltac:(lia)).
  rewrite Hm, (Z.mod_small (r / 16)) by (split; [apply Z.div_pos|apply Z.div_lt_upper_bound]; lia).
  replace (p - r mod 16) with (r - r mod 16 + h * 4294967296) by lia. rewrite Z.mod_add, Z.mod_small by lia. lia.
Qed.

Lemma dequeue_pointer_value p d : 0 <= p < 2 ^ 64 -> 0 <= d < 2 ^ 32 ->
  Z.lor (u64 (Z.shiftl (u32 (Z.shiftr p 32)) 32))
    (Z.land (ModifyPacked d TR_DEQUEUE_POINTER_LO_MASK 0 (Z.land (u32 p) TR_DEQUEUE_POINTER_LO_MASK)) TR_DEQUEUE_POINTER_LO_MASK)
  = p - p mod 16.
Proof.
  intros Hp Hd. assert (Hu : 0 <= u32 p < 2 ^ 32) by (apply wrap_range; lia).
  change TR_DEQUEUE_POINTER_LO_MASK with (field_mask 4 28).
  assert (Hlow : Z.land (ModifyPacked d (field_mask 4 28) 0 (Z.land (u32 p) (field_mask 4 28))) (field_mask 4 28) = (p - p mod 16) mod 2 ^ 32).
  { unfold ModifyPacked. rewrite Z.land_lor_distr_l, <- !Z.land_assoc, (Z.land_comm (bnot 32 _)).
    assert (Hn : Z.land (field_mask 4 28) (bnot 32 (field_mask 4 28)) = 0) by reflexivity. rewrite Hn, Z.land_0_r, Z.lor_0_l, Z.land_diag.
    rewrite Z.shiftl_0_r. assert (Hs : 0 <= Z.land (u32 p) (field_mask 4 28) < 2 ^ 32).
    { rewrite land_field by lia. pose proof (Z.mod_pos_bound (u32 p / 2 ^ 4) (2 ^ 28) ltac:(lia)). lia. }
    rewrite !(wrap_small 32 (Z.land _ _)) by (rewrite ?(wrap_small 32 (Z.land _ _)); lia).
    rewrite <- Z.land_assoc, Z.land_diag, land_field by lia.
    apply cut_low. lia. }
  rewrite Hlow, shiftr32. set (q := p - p mod 16). assert (Hq : 0 <= q < 2 ^ 64).
  { unfold q. pose proof (Z.mod_pos_bound p 16 ltac:(lia)). pose proof (Z.mod_le p 16 ltac:(lia) ltac:(lia)). lia. }
  assert (Hhi : u32 (p / 2 ^ 32) = q / 2 ^ 32).
  { assert (He : p / 2 ^ 32 = q / 2 ^ 32) by (unfold q; change (2 ^ 32) with (16 * 268435456); rewrite <- !Z.div_div by lia;
      replace (p - p mod 16) with (p / 16 * 16) by (pose proof (Z.div_mod p 16 ltac:(lia)); lia); by rewrite Z.div_mul by lia).
    rewrite He. apply wrap_small. split; [apply Z.div_pos; lia|apply Z.div_lt_upper_bound; lia]. }
  rewrite Hhi. by apply join_pointer.
Qed.

Definition words_in_range (m : memory) : Prop := forall a, 0 <= m a < 2 ^ 32.

Lemma wr_in_range m this i v : words_in_range m -> 0 <= v < 2 ^ 32 -> words_in_range (wr m this i v).
Proof.
  intros Hm Hv a. destruct (decide (a = word this i)) as [-> | Hne].
  - change (0 <= rd (wr m this i v) this i < 2 ^ 32). by rewrite rd_wr_same.
  - by rewrite wr_elsewhere.
Qed.

Lemma wr_modify_range m this i k s v : words_in_range m -> 0 <= k < 2 ^ 32 ->
  words_in_range (wr m this i (ModifyPacked (rd m this i) k s v)).
Proof. intros Hm Hk. apply wr_in_range; [done|]. apply modify_range; [apply Hm|done]. Qed.

Lemma ep_set_frame f this v m a : (forall i, 0 <= i < 8 -> a <> word this i) -> ep_set f this v m a = m a.
Proof.
  intros Ha. destruct f; cbn [ep_set]; unfold SetTRDequeuePointer; cbv zeta; rewrite ?wr_elsewhere by (apply Ha; lia); try done;
  apply wr_elsewhere, Ha; lia.
Qed.

Lemma ep_set_range f this v m : words_in_range m -> words_in_range (ep_set f this v m).
Proof.
  intros Hm. destruct f; cbn [ep_set];
    try (apply wr_modify_range; [done|vm_compute; split; [discriminate|reflexivity]]).
  unfold SetTRDequeuePointer. cbv zeta. apply wr_in_range; [|apply wrap_range; lia].
  apply wr_modify_range; [done|]. vm_compute. split; [discriminate|reflexivity].
Qed.

Lemma ep_get_set f g this v m : words_in_range m -> 0 <= v < 2 ^ 64 ->
  ep_get g this (ep_set f this v m) = (if decide (f = g) then ep_cut f v else ep_get g this m).
Proof.
  intros Hm Hv. destruct f, g; cbn [ep_get ep_set ep_cut];
  try (match goal with |- context [decide ?P] => rewrite (decide_False (P := P)) by done end);
  try (match goal with |- context [decide ?P] => rewrite (decide_True (P := P)) by done end);
  unfold GetMult, SetMult, GetMaxPStreams, SetMaxPStreams, GetInterval, SetInterval, GetErrorCount, SetErrorCount, GetEndpointType,
    SetEndpointType, GetMaxBurstSize, SetMaxBurstSize, GetMaxPacketSize, SetMaxPacketSize, GetDCS, SetDCS, GetTRDequeuePointer,
    SetTRDequeuePointer, GetAverageTRBLength, SetAverageTRBLength; cbv zeta;
  repeat first [rewrite rd_wr_same | rewrite rd_wr_other by done]; packed; rewrite ?wrap_cut by lia; try done.
  - rewrite Z.mod_small by apply ToEndpointType_range. by rewrite EndpointType_round.
  - by destruct (bool_decide _).
  - rewrite !land_get. by packed.
  - apply dequeue_pointer_value; [done|apply Hm].
Qed.

(** the fields of an endpoint context are independent variables: after a
    setter, the same field reads back as the value cut to the field's width (a
    transfer ring pointer to its 16-byte boundary) and every other field reads
    as before; no word outside the context changes. *)
Theorem endpoint_fields_independent (f g : EndpointField) (this v : Z) (m : memory) :
  words_in_range m -> 0 <= v < 2 ^ 64 ->
  ep_get g this (ep_set f this v m) = (if decide (f = g) then ep_cut f v else ep_get g this m) /\
  (forall a, (forall i, 0 <= i < 8 -> a <> word this i) -> ep_set f this v m a = m a) /\
  words_in_range (ep_set f this v m).
Proof. intros Hm Hv. split_and!; [by apply ep_get_set|intros a; apply ep_set_frame|by apply ep_set_range]. Qed.

Lemma endpoint_fields_independent_witness :
  let m := SetDCS 0x1000 true (fun _ => 0) in
  GetTRDequeuePointer 0x1000 (SetTRDequeuePointer 0x1000 0x123456789ABCDEF0 m) = 0x123456789ABCDEF0 /\
  GetDCS 0x1000 (SetTRDequeuePointer 0x1000 0x123456789ABCDEF0 m) = true.
Proof.
  cbv zeta. assert (Hm : words_in_range (SetDCS 0x1000 true (fun _ => 0))) by (apply wr_modify_range; [intros a; lia|lia]).
  destruct (endpoint_fields_independent FTRDequeue FTRDequeue 0x1000 0x123456789ABCDEF0 _ Hm) as (H1 & _); [lia|].
  split; [exact H1|]. vm_compute. reflexivity.
Defined.

(** ** The slot context *)

Lemma FromSpeedID_round s : FromSpeedID (ToSpeedID s) = s.
Proof. by destruct s. Qed.

Lemma ToSpeedID_range s : 0 <= ToSpeedID s < 2 ^ 4.
Proof. destruct s; cbn; lia. Qed.

(** Writing the four fields of a slot context, in any of the two words they
    share, gives back what was written. *)
Lemma slot_fields this route speed entries port m :
  let m' := SetContextEntries this entries (SetPortSpeed this speed (SetRouteString this route (SetRootHubPort this port m))) in
  GetRouteString this m' = route mod 2 ^ 20 /\ GetPortSpeed this m' = speed /\ GetContextEntries this m' = entries mod 2 ^ 5 /\
  GetRootHubPort this m' = port mod 2 ^ 8.
Proof.
  cbv zeta. unfold GetRouteString, SetRouteString, GetPortSpeed, SetPortSpeed, GetContextEntries, SetContextEntries, GetRootHubPort, SetRootHubPort.
  repeat first [rewrite rd_wr_same | rewrite rd_wr_other by done]. packed. rewrite ?wrap_cut by lia.
  rewrite (Z.mod_small (ToSpeedID speed)) by apply ToSpeedID_range. by rewrite FromSpeedID_round.
Qed.

(** ** Layout *)

(** A context of a device: the input control context, or a slot, control
    endpoint or endpoint context of the input ([true]) or output structure. *)
Inductive where_ := WInputControl | WSlot (inp : bool) | WControl (inp : bool) | WEndpoint (inp : bool) (id : Z) (is_in : bool).

#[global] Instance where_eq_dec : EqDecision where_.
Proof. solve_decision. Defined.

Definition valid_where (l : where_) : Prop := match l with WEndpoint _ id _ => 0 <= id < 15 | _ => True end.

(** The address the wrapper computes. *)
Definition basic_address (w : ContextWrapper) (l : where_) : option Z :=
  match l with
  | WInputControl => Some (Basic_GetInputControlContext w)
  | WSlot inp => Some (Basic_GetSlotContext w inp)
  | WControl inp => Some (Basic_GetControlEndpointContext w inp)
  | WEndpoint true id is_in => Basic_GetInputEndpointContext w id is_in
  | WEndpoint false id is_in => Basic_GetOutputEndpointContext w id is_in
  end.

Definition ex_address (w : ContextWrapper) (l : where_) : option Z :=
  match l with
  | WInputControl => Some (Ex_GetInputControlContext w)
  | WSlot inp => Some (Ex_GetSlotContext w inp)
  | WControl inp => Some (Ex_GetControlEndpointContext w inp)
  | WEndpoint true id is_in => Ex_GetInputEndpointContext w id is_in
  | WEndpoint false id is_in => Ex_GetOutputEndpointContext w id is_in
  end.

(** The device context index of the specification, and the address the
    controller computes from it: the input control context comes first in the
    input structure. *)
Definition DCI (l : where_) : Z :=
  match l with
  | WInputControl => -1
  | WSlot _ => 0
  | WControl _ => 1
  | WEndpoint _ id is_in => 2 * (id + 1) + Z.b2z is_in
  end.

Definition in_input (l : where_) : bool :=
  match l with WInputControl => true | WSlot inp | WControl inp | WEndpoint inp _ _ => inp end.

Definition controller_address (size : Z) (w : ContextWrapper) (l : where_) : Z :=
  if in_input l then input w + size * (DCI l + 1) else output w + size * DCI l.

Lemma basic_address_spec w l : valid_where l -> basic_address w l = Some (controller_address 32 w l).
Proof.
  unfold controller_address. destruct l as [|[]|[]|[] id []]; cbn -[Z.mul]; intros Hv; try (f_equal; unfold Basic_GetInputControlContext, Basic_GetSlotContext, Basic_GetControlEndpointContext, Ex_GetInputControlContext, Ex_GetSlotContext, Ex_GetControlEndpointContext; lia);
  unfold Basic_GetInputEndpointContext, Basic_GetOutputEndpointContext;
  match goal with |- context [?id <? 15] => rewrite (proj2 (Z.ltb_lt id 15)) by lia end; f_equal; lia.
Qed.

Lemma ex_address_spec w l : valid_where l -> ex_address w l = Some (controller_address 64 w l).
Proof.
  unfold controller_address. destruct l as [|[]|[]|[] id []]; cbn -[Z.mul]; intros Hv; try (f_equal; unfold Basic_GetInputControlContext, Basic_GetSlotContext, Basic_GetControlEndpointContext, Ex_GetInputControlContext, Ex_GetSlotContext, Ex_GetControlEndpointContext; lia);
  unfold Ex_GetInputEndpointContext, Ex_GetOutputEndpointContext;
  match goal with |- context [?id <? 15] => rewrite (proj2 (Z.ltb_lt id 15)) by lia end; f_equal; lia.
Qed.

(** Where the contexts of a device placed at [page] lie. *)
Lemma controller_address_slot size page l : 0 < size -> valid_where l ->
  let w := mkWrapper page (page + 32 * size) in
  exists k, controller_address size w l = page + size * k /\ 0 <= k < 65 /\ k = (if in_input l then 33 + DCI l else DCI l).
Proof.
  intros Hsize Hv. cbv zeta. exists (if in_input l then 33 + DCI l else DCI l). unfold controller_address. cbn [input output].
  destruct l as [|[]|[]|[] id []]; cbn in *; split_and!; lia.
Qed.

Lemma slot_injective l l' : valid_where l -> valid_where l' ->
  (if in_input l then 33 + DCI l else DCI l) = (if in_input l' then 33 + DCI l' else DCI l') -> l = l'.
Proof.
  destruct l as [|[]|[]|[] id []], l' as [|[]|[]|[] id' []]; cbn; intros Hv Hv' He; try (exfalso; lia); try done;
  (f_equal; lia).
Qed.

Lemma controller_address_separate size page l l' : 0 < size -> valid_where l -> valid_where l' -> l <> l' ->
  let w := mkWrapper page (page + 32 * size) in
  controller_address size w l + size <= controller_address size w l' \/ controller_address size w l' + size <= controller_address size w l.
Proof.
  intros Hs Hv Hv' Hne. cbv zeta.
  destruct (controller_address_slot size page l Hs Hv) as (k & -> & _ & Hk).
  destruct (controller_address_slot size page l' Hs Hv') as (k' & -> & _ & Hk').
  assert (k <> k') by (intros Heq; apply Hne, slot_injective; [done|done|congruence]). nia.
Qed.

(** in the pages [Create] allocates (one for 32-byte contexts, two for
    64-byte ones), every context the wrapper hands out lies inside the pages,
    exactly where the controller addresses the context of that index, and the
    contexts of distinct roles never overlap. *)
Theorem contexts_laid_out (page : Z) (l l' : where_) : valid_where l -> valid_where l' ->
  let w := mkWrapper page (page + Basic_SIZEOF_OUTPUT) in
  let w' := mkWrapper page (page + Ex_SIZEOF_OUTPUT) in
  (exists a, basic_address w l = Some a /\ a = controller_address 32 w l /\ page <= a /\ a + 32 <= page + 4096) /\
  (exists a, ex_address w' l = Some a /\ a = controller_address 64 w' l /\ page <= a /\ a + 64 <= page + 2 * 4096) /\
  (l <> l' -> forall a a', basic_address w l = Some a -> basic_address w l' = Some a' -> a + 32 <= a' \/ a' + 32 <= a) /\
  (l <> l' -> forall a a', ex_address w' l = Some a -> ex_address w' l' = Some a' -> a + 64 <= a' \/ a' + 64 <= a).
Proof.
  intros Hv Hv'. cbv zeta. change Basic_SIZEOF_OUTPUT with (32 * 32). change Ex_SIZEOF_OUTPUT with (32 * 64).
  rewrite !basic_address_spec, !ex_address_spec by done.
  destruct (controller_address_slot 32 page l ltac:(lia) Hv) as (k & Hk & Hr & _).
  destruct (controller_address_slot 64 page l ltac:(lia) Hv) as (k' & Hk' & Hr' & _).
  split_and!.
  - eexists. split_and!; [reflexivity|done|rewrite Hk; lia..].
  - eexists. split_and!; [reflexivity|done|rewrite Hk'; lia..].
  - intros Hne a a' [= <-] [= <-]. by apply controller_address_separate.
  - intros Hne a a' [= <-] [= <-]. by apply controller_address_separate.
Qed.

Lemma contexts_laid_out_witness :
  ex_address (mkWrapper 0x4000 0x4800) (WEndpoint true 14 true) = Some (0x4800 + 64 * 32) /\
  (0x4000 + 64 <= 0x4000 + 64 * 2 \/ 0x4000 + 64 * 2 + 64 <= 0x4000).
Proof.
  destruct (contexts_laid_out 0x4000 (WEndpoint true 14 true) (WSlot false)) as (_ & (a & Ha & Hb & _) & _ & _); [cbn; lia|exact I|].
  destruct (contexts_laid_out 0x4000 (WSlot false) (WEndpoint false 0 false)) as (_ & _ & _ & Hs); [exact I|cbn; lia|].
  split; [etransitivity; [exact Ha|rewrite Hb; reflexivity]|]. apply Hs; [done|reflexivity|reflexivity].
Defined.

(** ** Clearing *)

(** [f] zeroes the words [P] selects and keeps the others. *)
Definition clears (P : Z -> bool) (f : memory -> memory) : Prop := forall m a, f m a = if P a then 0 else m a.

Lemma clears_ext P Q f : (forall a, P a = Q a) -> clears P f -> clears Q f.
Proof. intros HPQ Hf m a. by rewrite <- HPQ. Qed.

Lemma clears_comp P Q f g : clears P f -> clears Q g -> clears (fun a => P a || Q a) (fun m => g (f m)).
Proof. intros Hf Hg m a. rewrite Hg, Hf. by destruct (P a), (Q a). Qed.

Lemma clears_loop {A} (P : A -> Z -> bool) (f : A -> memory -> memory) (l : list A) :
  (forall i, In i l -> clears (P i) (f i)) -> clears (fun a => existsb (fun i => P i a) l) (fun m => foldl (fun m i => f i m) m l).
Proof.
  induction l as [|i l IH]; intros Hf; [by intros m a|]. cbn [foldl existsb].
  apply (clears_comp (P i) (fun a => existsb (fun i => P i a) l) (f i) (fun m => foldl (fun m i => f i m) m l)).
  - apply Hf. by left.
  - apply IH. intros j Hj. apply Hf. by right.
Qed.

(** [n] words from the [i]-th word after [page]. *)
Definition span (page i n a : Z) : bool :=
  ((a - page) mod 4 =? 0) && (i <=? (a - page) / 4) && ((a - page) / 4 <? i + n).

Lemma clear_words_rebase page j i n m : clear_words (page + 4 * j) i n m = clear_words page (j + i) n m.
Proof.
  unfold clear_words. revert m. induction (seq 0 n) as [|k l IH]; intros m; [done|]. cbn [foldl]. rewrite IH. f_equal.
  unfold wr, word. by replace (page + 4 * j + 4 * (i + Z.of_nat k)) with (page + 4 * (j + i + Z.of_nat k)) by lia.
Qed.

Lemma wr_span page k a m : wr m page k 0 a = if span page k 1 a then 0 else m a.
Proof.
  destruct (decide (a = word page k)) as [-> | Hne].
  - unfold span, word. replace (page + 4 * k - page) with (k * 4) by lia. rewrite Z.mod_mul, Z.div_mul by lia.
    replace ((0 =? 0) && (k <=? k) && (k <? k + 1)) with true by lia. apply rd_wr_same.
  - rewrite wr_elsewhere by done. unfold span. unfold word in Hne. pose proof (Z.div_mod (a - page) 4 ltac:(lia)).
    replace (((a - page) mod 4 =? 0) && (k <=? (a - page) / 4) && ((a - page) / 4 <? k + 1)) with false by lia. done.
Qed.

Lemma clear_words_spec page i n : clears (span page i (Z.of_nat n)) (clear_words page i n).
Proof.
  intros m a. unfold clear_words. revert m. induction n as [|n IH]; intros m.
  - unfold span. change (Z.of_nat 0) with 0.
    rewrite <- andb_assoc. by replace ((i <=? (a - page) / 4) && ((a - page) / 4 <? i + 0)) with false by lia; rewrite andb_false_r.
  - rewrite seq_S, foldl_app. cbn [foldl]. rewrite wr_span, IH. unfold span.
    destruct ((a - page) mod 4 =? 0); cbn [andb]; [|done].
    destruct (Z.leb_spec i ((a - page) / 4)), (Z.ltb_spec ((a - page) / 4) (i + Z.of_nat n)),
      (Z.leb_spec (i + Z.of_nat (0 + n)) ((a - page) / 4)), (Z.ltb_spec ((a - page) / 4) (i + Z.of_nat (0 + n) + 1)),
      (Z.ltb_spec ((a - page) / 4) (i + Z.of_nat (S n))); cbn [andb]; lia || done.
Qed.

(** The context of slot [s] (counted in contexts of [c] words from [page]). *)
Definition context_span (page c s a : Z) : bool := ((a - page) mod 4 =? 0) && ((a - page) / 4 / c =? s).

Lemma span_context page c s a : 0 < c -> span page (c * s) c a = context_span page c s a.
Proof.
  intros Hc. unfold span, context_span. set (x := (a - page) / 4).
  pose proof (Z.div_mod x c ltac:(lia)). pose proof (Z.mod_pos_bound x c Hc).
  rewrite <- andb_assoc. f_equal. destruct (Z.eqb_spec (x / c) s) as [Hs|Hs].
  - assert (c * s <= x < c * s + c) by nia. lia.
  - assert (~ (c * s <= x < c * s + c)) by nia. lia.
Qed.

Lemma Context_Reset_spec page s : clears (context_span page 8 s) (Context_Reset (page + 32 * s)).
Proof.
  intros m a. rewrite <- span_context by lia. unfold Context_Reset. replace (page + 32 * s) with (page + 4 * (8 * s)) by lia.
  rewrite clear_words_rebase, Z.add_0_r. apply (clear_words_spec page (8 * s) 8).
Qed.

Lemma ContextEx_Reset_spec page s : clears (context_span page 16 s) (ContextEx_Reset (page + 64 * s)).
Proof.
  eapply clears_ext; cycle 1.
  - apply (clears_comp (span page (16 * s) 8) (span page (16 * s + 8) 8) (Context_Reset (page + 64 * s)) (clear_words (page + 64 * s) 8 8)).
    + intros m a. unfold Context_Reset. replace (page + 64 * s) with (page + 4 * (16 * s)) by lia.
      rewrite clear_words_rebase, Z.add_0_r. apply (clear_words_spec page (16 * s) 8).
    + intros m a. replace (page + 64 * s) with (page + 4 * (16 * s)) by lia. rewrite clear_words_rebase.
      apply (clear_words_spec page (16 * s + 8) 8).
  - intros a. rewrite <- span_context by lia. unfold span. destruct ((a - page) mod 4 =? 0); cbn [andb]; lia.
Qed.

(** The slots [Reset] visits, in its order. *)
Definition reset_slots (q : Z) : bool :=
  (q =? 32) || ((q =? 0) || (q =? 33) || ((q =? 1) || (q =? 34) ||
  existsb (fun i => (q =? 2 + 2 * Z.of_nat i + Z.b2z true) || (q =? 35 + 2 * Z.of_nat i + Z.b2z true)
                 || ((q =? 2 + 2 * Z.of_nat i + Z.b2z false) || (q =? 35 + 2 * Z.of_nat i + Z.b2z false))) (seq 0 15))).

Lemma reset_slots_all q : reset_slots q = (0 <=? q) && (q <? 65).
Proof.
  destruct (decide (0 <= q < 65)) as [Hq|Hq].
  - replace ((0 <=? q) && (q <? 65)) with true by lia. rewrite <- (Z2Nat.id q) by lia.
    assert (Hn : (Z.to_nat q < 65)%nat) by lia. revert Hn. generalize (Z.to_nat q). intros n Hn.
    do 65 (destruct n as [|n]; [reflexivity|]). lia.
  - replace ((0 <=? q) && (q <? 65)) with false by lia. unfold reset_slots. cbn [existsb seq].
    repeat match goal with |- context [q =? ?c] => rewrite (proj2 (Z.eqb_neq q c)) by (cbn; lia) end. done.
Qed.

Lemma reset_slots_spec (b : bool) q :
  (b && (q =? 32)) || ((b && (q =? 0)) || (b && (q =? 33)) || ((b && (q =? 1)) || (b && (q =? 34)) ||
  existsb (fun i => (b && (q =? 2 + 2 * Z.of_nat i + Z.b2z true)) || (b && (q =? 35 + 2 * Z.of_nat i + Z.b2z true))
                 || ((b && (q =? 2 + 2 * Z.of_nat i + Z.b2z false)) || (b && (q =? 35 + 2 * Z.of_nat i + Z.b2z false)))) (seq 0 15)))
  = b && reset_slots q.
Proof.
  destruct b; [done|]. unfold reset_slots. rewrite !andb_false_l. cbn [orb]. by induction (seq 0 15).
Qed.

Lemma Basic_ResetEndpoint_spec page i is_in : In i (seq 0 15) ->
  clears (fun a => context_span page 8 (2 + 2 * Z.of_nat i + Z.b2z is_in) a || context_span page 8 (35 + 2 * Z.of_nat i + Z.b2z is_in) a)
    (Basic_ResetEndpoint (mkWrapper page (page + Basic_SIZEOF_OUTPUT)) (Z.of_nat i) is_in).
Proof.
  intros Hi%in_seq m a. unfold Basic_ResetEndpoint, Basic_SIZEOF_OUTPUT. cbn [output input].
  rewrite (proj2 (Z.ltb_lt (Z.of_nat i) 15)) by lia. destruct is_in; cbn [Z.b2z].
  - replace (page + 64 + 64 * Z.of_nat i + 32) with (page + 32 * (2 + 2 * Z.of_nat i + 1)) by lia.
    replace (page + 1024 + 96 + 64 * Z.of_nat i + 32) with (page + 32 * (35 + 2 * Z.of_nat i + 1)) by lia.
    apply (clears_comp _ _ _ _ (Context_Reset_spec page _) (Context_Reset_spec page _)).
  - replace (page + 64 + 64 * Z.of_nat i) with (page + 32 * (2 + 2 * Z.of_nat i + 0)) by lia.
    replace (page + 1024 + 96 + 64 * Z.of_nat i) with (page + 32 * (35 + 2 * Z.of_nat i + 0)) by lia.
    apply (clears_comp _ _ _ _ (Context_Reset_spec page _) (Context_Reset_spec page _)).
Qed.

Lemma Basic_Reset_slots page : clears (fun a => ((a - page) mod 4 =? 0) && reset_slots ((a - page) / 4 / 8))
  (Basic_Reset (mkWrapper page (page + Basic_SIZEOF_OUTPUT))).
Proof.
  set (w := mkWrapper page (page + Basic_SIZEOF_OUTPUT)).
  assert (Hat : forall s, clears (context_span page 8 s) (Context_Reset (page + 32 * s))) by (intros s; apply Context_Reset_spec).
  assert (H0 : clears (context_span page 8 0) (Context_Reset page)) by (specialize (Hat 0); by rewrite Z.mul_0_r, Z.add_0_r in Hat).
  pose proof (clears_loop _ _ (seq 0 15) (fun i Hi => clears_comp _ _ _ _ (Basic_ResetEndpoint_spec page i true Hi) (Basic_ResetEndpoint_spec page i false Hi))) as Hl.
  pose proof (clears_comp _ _ _ _ (Hat 32) (clears_comp _ _ _ _ (clears_comp _ _ _ _ H0 (Hat 33))
    (clears_comp _ _ _ _ (clears_comp _ _ _ _ (Hat 1) (Hat 34)) Hl))) as Hall.
  intros m a. unfold Basic_Reset, Basic_ResetInputControl, Basic_ResetSlot, Basic_ResetControlEndpoint. cbv zeta. cbn [output input w].
  change Basic_SIZEOF_OUTPUT with (32 * 32). replace (page + 32 * 32 + 64) with (page + 32 * 34) by lia.
  replace (page + 32 * 32 + 32) with (page + 32 * 33) by lia. replace (page + 32) with (page + 32 * 1) by lia.
  etransitivity; [apply Hall|]. unfold context_span. by rewrite reset_slots_spec.
Qed.

Lemma Ex_ResetEndpoint_spec page i is_in : In i (seq 0 15) ->
  clears (fun a => context_span page 16 (2 + 2 * Z.of_nat i + Z.b2z is_in) a || context_span page 16 (35 + 2 * Z.of_nat i + Z.b2z is_in) a)
    (Ex_ResetEndpoint (mkWrapper page (page + Ex_SIZEOF_OUTPUT)) (Z.of_nat i) is_in).
Proof.
  intros Hi%in_seq m a. unfold Ex_ResetEndpoint, Ex_SIZEOF_OUTPUT. cbn [output input].
  rewrite (proj2 (Z.ltb_lt (Z.of_nat i) 15)) by lia. destruct is_in; cbn [Z.b2z].
  - replace (page + 128 + 128 * Z.of_nat i + 64) with (page + 64 * (2 + 2 * Z.of_nat i + 1)) by lia.
    replace (page + 2048 + 192 + 128 * Z.of_nat i + 64) with (page + 64 * (35 + 2 * Z.of_nat i + 1)) by lia.
    apply (clears_comp _ _ _ _ (ContextEx_Reset_spec page _) (ContextEx_Reset_spec page _)).
  - replace (page + 128 + 128 * Z.of_nat i) with (page + 64 * (2 + 2 * Z.of_nat i + 0)) by lia.
    replace (page + 2048 + 192 + 128 * Z.of_nat i) with (page + 64 * (35 + 2 * Z.of_nat i + 0)) by lia.
    apply (clears_comp _ _ _ _ (ContextEx_Reset_spec page _) (ContextEx_Reset_spec page _)).
Qed.

Lemma Ex_Reset_slots page : clears (fun a => ((a - page) mod 4 =? 0) && reset_slots ((a - page) / 4 / 16))
  (Ex_Reset (mkWrapper page (page + Ex_SIZEOF_OUTPUT))).
Proof.
  set (w := mkWrapper page (page + Ex_SIZEOF_OUTPUT)).
  assert (Hat : forall s, clears (context_span page 16 s) (ContextEx_Reset (page + 64 * s))) by (intros s; apply ContextEx_Reset_spec).
  assert (H0 : clears (context_span page 16 0) (ContextEx_Reset page)) by (specialize (Hat 0); by rewrite Z.mul_0_r, Z.add_0_r in Hat).
  pose proof (clears_loop _ _ (seq 0 15) (fun i Hi => clears_comp _ _ _ _ (Ex_ResetEndpoint_spec page i true Hi) (Ex_ResetEndpoint_spec page i false Hi))) as Hl.
  pose proof (clears_comp _ _ _ _ (Hat 32) (clears_comp _ _ _ _ (clears_comp _ _ _ _ H0 (Hat 33))
    (clears_comp _ _ _ _ (clears_comp _ _ _ _ (Hat 1) (Hat 34)) Hl))) as Hall.
  intros m a. unfold Ex_Reset, Ex_ResetInputControl, Ex_ResetSlot, Ex_ResetControlEndpoint. cbv zeta. cbn [output input w].
  change Ex_SIZEOF_OUTPUT with (64 * 32). replace (page + 64 * 32 + 128) with (page + 64 * 34) by lia.
  replace (page + 64 * 32 + 64) with (page + 64 * 33) by lia. replace (page + 64) with (page + 64 * 1) by lia.
  etransitivity; [apply Hall|]. unfold context_span. by rewrite reset_slots_spec.
Qed.

(** [Reset] sets every word of the input and output structures of the
    device to zero and leaves every other word of memory alone, for both
    context sizes. *)
Theorem Reset_clears_structures (page a : Z) (m : memory) :
  let inside size := (0 <=? a - page) && (a - page <? 65 * size) && ((a - page) mod 4 =? 0) in
  Basic_Reset (mkWrapper page (page + Basic_SIZEOF_OUTPUT)) m a = (if inside 32 then 0 else m a) /\
  Ex_Reset (mkWrapper page (page + Ex_SIZEOF_OUTPUT)) m a = (if inside 64 then 0 else m a).
Proof.
  cbv zeta. rewrite Basic_Reset_slots, Ex_Reset_slots, !reset_slots_all, !Z.div_div by lia. cbn [Z.mul Pos.mul].
  assert (Hin : forall n c, 0 < n -> (0 <=? (a - page) / n) && ((a - page) / n <? c) = (0 <=? a - page) && (a - page <? c * n)).
  { intros n c Hn. pose proof (Z.div_mod (a - page) n ltac:(lia)). pose proof (Z.mod_pos_bound (a - page) n Hn).
    apply eq_true_iff_eq. rewrite !andb_true_iff, !Z.leb_le, !Z.ltb_lt. split; intros [? ?]; split; nia. }
  rewrite !Hin by lia. by rewrite !(andb_comm ((a - page) mod 4 =? 0)).
Qed.

(** ** Add and drop flags *)

Lemma SetAddContext_ignores_31 this m : SetAddContext this 31 m = m.
Proof. done. Qed.

(** The flag of a context index other flags left clear. *)
Lemma flag_testbit d id i : 0 <= d < 2 ^ 32 -> 0 <= id < 32 -> 0 <= i ->
  Z.testbit (Z.lor d (u32 (Z.shiftl 1 id))) i = Z.testbit d i || (i =? id).
Proof.
  intros Hd Hid Hi. rewrite Z.lor_spec. f_equal. rewrite Z.shiftl_1_l, wrap_small by (pose proof (Z.pow_lt_mono_r 2 id 32); lia).
  rewrite Z.pow2_bits_eqb by lia. apply Z.eqb_sym.
Qed.

(** [SetAddContext] sets exactly the flag of the context, and
    [SetDropContext] too where it is allowed to; but the last context, index
    31 (endpoint 15 IN), can be dropped and never added. *)
Theorem context_flags (this id i : Z) (m : memory) : words_in_range m -> 0 <= id < 32 -> 0 <= i ->
  Z.testbit (rd (SetAddContext this id m) this 1) i = Z.testbit (rd m this 1) i || (i =? id) && negb (id =? 31) /\
  Z.testbit (rd (SetDropContext this id m) this 0) i = Z.testbit (rd m this 0) i || (i =? id) && (2 <=? id).
Proof.
  intros Hm Hid Hi. unfold SetAddContext, SetDropContext. split.
  - destruct (Z.ltb_spec id 31) as [Hlt|Hge].
    + rewrite rd_wr_same, flag_testbit by (try apply Hm; lia). replace (id =? 31) with false by lia. by rewrite andb_true_r.
    + replace (id =? 31) with true by lia. by rewrite andb_false_r, orb_false_r.
  - rewrite (proj2 (Z.ltb_lt id 32)), andb_true_r by lia. destruct (2 <=? id).
    + rewrite rd_wr_same, flag_testbit by (try apply Hm; lia). by rewrite andb_true_r.
    + by rewrite andb_false_r, orb_false_r.
Qed.

Lemma context_flags_witness :
  Z.testbit (rd (SetAddContext 0x1000 31 (fun _ => 0)) 0x1000 1) 31 = false /\
  Z.testbit (rd (SetDropContext 0x1000 31 (fun _ => 0)) 0x1000 0) 31 = true.
Proof.
  destruct (context_flags 0x1000 31 31 (fun _ => 0)) as [Ha Hd]; [intros a; lia|lia|lia|].
  split; [etransitivity; [exact Ha|reflexivity]|etransitivity; [exact Hd|reflexivity]].
Defined.
