(* ===== verification/TransferRing.v ===== *)
(** * Transfer rings ([TransferRing] of
    [kernel/src/devices/USB/xHCI/Specification.cpp])

    A ring of transfer blocks in shared memory: the driver writes blocks at its
    index and hands them over with the cycle bit; the last slot holds a link
    back to the base. The lock makes each [Enqueue] atomic. *)
From S2P Require Import Prelude Packed Trb XhciContext.

Record TransferRing := mkRing { base : Z; index : Z; capacity : Z; cycle : bool }.

Definition SIZEOF_TRB : Z := 16.

(** A block in memory. *)
Definition read_trb (m : memory) (a : Z) : TRB := mkTRB (rd m a 0) (rd m a 1) (rd m a 2) (rd m a 3).
Definition write_trb (a : Z) (t : TRB) (m : memory) : memory :=
  wr (wr (wr (wr m a 0 (data0 t)) a 1 (data1 t)) a 2 (data2 t)) a 3 (data3 t).

(** [&base[i]]. *)
Definition slot (r : TransferRing) (i : Z) : Z := base r + SIZEOF_TRB * i.

(** [EnqueueTRB]: [None] while the slot carries the cycle bit of the new block,
    that is for as long as nobody else rewrites the slot. *)
Definition EnqueueTRB (r : TransferRing) (trb : TRB) (m : memory) : option (Z * memory) :=
  if Bool.eqb (GetCycle (read_trb m (slot r (index r)))) (GetCycle trb) then None
  else Some (slot r (index r), write_trb (slot r (index r)) trb m).

Definition UpdatePointer (r : TransferRing) (m : memory) : option (TransferRing * memory) :=
  let r := mkRing (base r) (u64 (index r + 1)) (capacity r) (cycle r) in
  if u64 (capacity r - 1) <=? index r then
    '(_, m) ← EnqueueTRB r (LinkTRB_Create (cycle r) (base r)) m;
    Some (mkRing (base r) 0 (capacity r) (negb (cycle r)), m)
  else Some (r, m).

(** [Enqueue]: the address of the block, the ring and the memory after it. *)
Definition Enqueue (r : TransferRing) (trb : TRB) (m : memory) : option (Z * TransferRing * memory) :=
  '(ptr, m) ← EnqueueTRB r trb m;
  '(r, m) ← UpdatePointer r m;
  Some (ptr, r, m).

Definition GetBase (r : TransferRing) : Z := base r.

(** [sizeof(TransferRing)]: the lock (padded), the base, the index, the capacity
    and the cycle state. *)
Definition SIZEOF_RING : Z := 40.

Section Creation.
Context {S : Type} `{!KernelMemory S}.

Definition TransferRing_Create (pages : Z) : io (S := S) (option (Z * TransferRing)) := fun s =>
  match Heap_Allocate SIZEOF_RING s with
  | (None, s) => (None, s)
  | (Some object_memory, s) =>
      match AllocateDMA pages s with
      | (None, s) => (None, Heap_Free object_memory s)
      | (Some ring_memory, s) =>
          let allocated := u64 (pages * 4096) in
          let capacity := allocated / SIZEOF_TRB in
          let s := on_memory (clear_words ring_memory 0 (Z.to_nat (allocated / 4))) s in
          (Some (object_memory, mkRing ring_memory 0 capacity true), s)
      end
  end.

Definition TransferRing_Release (this : Z) (r : TransferRing) (s : S) : S :=
  let allocated_pages := u64 (capacity r * SIZEOF_TRB + 4096 - 1) / 4096 in
  Heap_Free this (FreeDMA (base r) allocated_pages s).

End Creation.
