(* ===== verification/TransferRingProps.v ===== *)
(** * Transfer rings deliver what is enqueued

    A controller that follows the cycle bits and links of a ring reads exactly
    the blocks the driver enqueued, in order, as long as the driver keeps at
    most [capacity - 2] blocks in flight; the driver itself never waits. *)
From S2P Require Import Prelude Packed Trb TrbProps XhciContext XhciContextProps TransferRing.

(** ** Blocks in memory *)

Lemma read_write_same a t m : read_trb (write_trb a t m) a = t.
Proof.
  unfold read_trb, write_trb. repeat first [rewrite rd_wr_same | rewrite rd_wr_other by lia]. by destruct t.
Qed.

Lemma rd_wr_apart m a b i j v : a + 16 <= b \/ b + 16 <= a -> 0 <= i < 4 -> 0 <= j < 4 -> rd (wr m a i v) b j = rd m b j.
Proof. intros Hab Hi Hj. unfold rd. apply wr_elsewhere. unfold word. lia. Qed.

Lemma read_write_other a b t m : a + 16 <= b \/ b + 16 <= a -> read_trb (write_trb a t m) b = read_trb m b.
Proof. intros Hab. unfold read_trb, write_trb. by rewrite !rd_wr_apart by lia. Qed.

Lemma read_slot_write r i j t m : i <> j -> read_trb (write_trb (slot r i) t m) (slot r j) = read_trb m (slot r j).
Proof. intros Hij. apply read_write_other. unfold slot, SIZEOF_TRB. lia. Qed.

(** ** The controller's side *)

(** The dequeue pointer and the consumer cycle state of the specification. *)
Record Consumer := mkConsumer { dequeue : Z; ccs : bool }.

(** The controller looks at the block under its dequeue pointer: it is its own
    when the cycle bit equals the cycle state; it follows a link, toggling the
    state when the link says so, and executes any other block. *)
Definition fetch (c : Consumer) (m : memory) : option TRB * Consumer :=
  let t := read_trb m (dequeue c) in
  if Bool.eqb (GetCycle t) (ccs c) then
    if EventTRB_GetType t =? LINK_TYPE
    then (None, mkConsumer (Z.land (GetEventData t) POINTER_MASK) (if Z.testbit (data3 t) 1 then negb (ccs c) else ccs c))
    else (Some t, mkConsumer (dequeue c + SIZEOF_TRB) (ccs c))
  else (None, c).

(** ** Links *)

Lemma Link_GetCycle cy b : 0 <= b < 2 ^ 64 -> b mod 16 = 0 -> GetCycle (LinkTRB_Create cy b) = cy.
Proof. intros Hb Hal. rewrite Link_words by done. by destruct cy. Qed.

Lemma Link_type cy b : 0 <= b < 2 ^ 64 -> b mod 16 = 0 -> EventTRB_GetType (LinkTRB_Create cy b) = LINK_TYPE.
Proof. intros Hb Hal. rewrite Link_words by done. by destruct cy. Qed.

Lemma Link_toggles cy b : 0 <= b < 2 ^ 64 -> b mod 16 = 0 -> Z.testbit (data3 (LinkTRB_Create cy b)) 1 = true.
Proof. intros Hb Hal. rewrite Link_words by done. by destruct cy. Qed.

Lemma Link_target cy b : 0 <= b < 2 ^ 64 -> b mod 16 = 0 -> Z.land (GetEventData (LinkTRB_Create cy b)) POINTER_MASK = b.
Proof.
  intros Hb Hal. rewrite Link_words by done. unfold GetEventData. cbn [data0 data1].
  rewrite join_pointer, mask_pointer, Hal by done. lia.
Qed.

(** ** What the driver has written *)

(** The ring after the driver enqueued the blocks [h]: the next slot and cycle
    state follow from their number, the last blocks are in place, slots never
    reached are zero, and the link slot carries the previous lap's cycle. *)
Record produced (r : TransferRing) (m : memory) (h : list TRB) : Prop := {
  pr_capacity : 3 <= capacity r < 2 ^ 32;
  pr_base : 0 <= base r < 2 ^ 64 /\ base r mod 16 = 0;
  pr_index : index r = Z.of_nat (length h) mod (capacity r - 1);
  pr_cycle : cycle r = Z.even (Z.of_nat (length h) / (capacity r - 1));
  pr_bits : forall (j : nat) t, h !! j = Some t ->
    GetCycle t = Z.even (Z.of_nat j / (capacity r - 1)) /\ EventTRB_GetType t <> LINK_TYPE;
  pr_slots : forall (j : nat) t, h !! j = Some t -> Z.of_nat (length h) <= Z.of_nat j + (capacity r - 1) ->
    read_trb m (slot r (Z.of_nat j mod (capacity r - 1))) = t;
  pr_zero : forall i, Z.of_nat (length h) <= i < capacity r - 1 -> read_trb m (slot r i) = zero_trb;
  pr_link : read_trb m (slot r (capacity r - 1)) =
    if Z.of_nat (length h) / (capacity r - 1) =? 0 then zero_trb
    else LinkTRB_Create (Z.even (Z.of_nat (length h) / (capacity r - 1) - 1)) (base r) }.

(** Counting one more block, within a lap or at its end. *)
Lemma lap_next p N : 0 <= p -> 0 < N -> p mod N + 1 < N -> (p + 1) mod N = p mod N + 1 /\ (p + 1) / N = p / N.
Proof.
  intros Hp HN Hlt. pose proof (Z.div_mod p N ltac:(lia)). pose proof (Z.mod_pos_bound p N HN).
  split; [symmetry; apply (Z.mod_unique_pos _ _ (p / N)); lia|symmetry; apply (Z.div_unique_pos _ _ _ (p mod N + 1)); lia].
Qed.

Lemma lap_end p N : 0 <= p -> 0 < N -> N <= p mod N + 1 -> (p + 1) mod N = 0 /\ (p + 1) / N = p / N + 1.
Proof.
  intros Hp HN Hge. pose proof (Z.div_mod p N ltac:(lia)). pose proof (Z.mod_pos_bound p N HN).
  split; [symmetry; apply (Z.mod_unique_pos _ _ (p / N + 1)); lia|symmetry; apply (Z.div_unique_pos _ _ _ 0); lia].
Qed.

Lemma even_pred k : Z.even (k - 1) = negb (Z.even k).
Proof. rewrite Z.even_sub. by destruct (Z.even k). Qed.

Lemma even_succ k : Z.even (k + 1) = negb (Z.even k).
Proof. rewrite Z.even_add. by destruct (Z.even k). Qed.

(** The slot about to be written never carries the ring's cycle state. *)
Lemma next_slot_free r m h : produced r m h -> GetCycle (read_trb m (slot r (index r))) = negb (cycle r).
Proof.
  intros Hp. pose proof (pr_capacity _ _ _ Hp) as Hc. rewrite (pr_index _ _ _ Hp), (pr_cycle _ _ _ Hp).
  set (N := capacity r - 1) in *. set (p := Z.of_nat (length h)) in *. assert (HN : 2 <= N) by lia.
  destruct (Z.ltb_spec p N) as [Hlt|Hge].
  - rewrite Z.mod_small, Z.div_small, (pr_zero _ _ _ Hp) by lia. done.
  - destruct (h !! Z.to_nat (p - N)) as [t|] eqn:Et; [|apply lookup_ge_None in Et; lia].
    pose proof (pr_slots _ _ _ Hp _ _ Et ltac:(fold N; lia)) as Hs. rewrite Z2Nat.id in Hs by lia.
    assert (Hmod : (p - N) mod N = p mod N) by (replace (p - N) with (p + (-1) * N) by lia; by rewrite Z.mod_add by lia).
    fold N in Hs. rewrite Hmod in Hs. rewrite Hs. destruct (pr_bits _ _ _ Hp _ _ Et) as [-> _]. rewrite Z2Nat.id by lia. fold N.
    replace ((p - N) / N) with (p / N - 1) by (replace (p - N) with (p + (-1) * N) by lia; rewrite Z.div_add by lia; lia).
    apply even_pred.
Qed.

Lemma link_slot_free r m h : produced r m h -> GetCycle (read_trb m (slot r (capacity r - 1))) = negb (cycle r).
Proof.
  intros Hp. rewrite (pr_link _ _ _ Hp), (pr_cycle _ _ _ Hp). destruct (Z.eqb_spec (Z.of_nat (length h) / (capacity r - 1)) 0) as [->|Hne]; [done|].
  rewrite Link_GetCycle by apply (pr_base _ _ _ Hp). apply even_pred.
Qed.

Lemma mod_distinct j p N : 0 < N -> 0 <= j -> j < p < j + N -> j mod N <> p mod N.
Proof.
  intros HN Hj Hp He. pose proof (Z.div_mod j N ltac:(lia)). pose proof (Z.div_mod p N ltac:(lia)).
  assert (Hk : p - j = N * (p / N - j / N)) by lia. destruct (Z.le_gt_cases (p / N - j / N) 0); nia.
Qed.

(** The history and memory after one more block, before the index moves. *)
Lemma written_slots r m h t (j : nat) t' : produced r m h -> (h ++ [t]) !! j = Some t' ->
  Z.of_nat (length h) + 1 <= Z.of_nat j + (capacity r - 1) ->
  read_trb (write_trb (slot r (index r)) t m) (slot r (Z.of_nat j mod (capacity r - 1))) = t'.
Proof.
  intros Hp Hj Hle. pose proof (pr_capacity _ _ _ Hp) as Hc. apply lookup_snoc_Some in Hj as [[Hlt Hj]|[-> <-]].
  - rewrite read_slot_write; [apply (pr_slots _ _ _ Hp); [done|lia]|].
    rewrite (pr_index _ _ _ Hp). intros He. symmetry in He. revert He. apply mod_distinct; lia.
  - rewrite <- (pr_index _ _ _ Hp). apply read_write_same.
Qed.

Lemma snoc_bits r m h t : produced r m h -> GetCycle t = cycle r -> EventTRB_GetType t <> LINK_TYPE ->
  forall (j : nat) t', (h ++ [t]) !! j = Some t' ->
  GetCycle t' = Z.even (Z.of_nat j / (capacity r - 1)) /\ EventTRB_GetType t' <> LINK_TYPE.
Proof.
  intros Hp Hcy Hty j t' Hj. apply lookup_snoc_Some in Hj as [[Hlt Hj]|[-> <-]]; [by apply (pr_bits _ _ _ Hp)|].
  by rewrite Hcy, (pr_cycle _ _ _ Hp).
Qed.

(** One [Enqueue]: it never waits, and the ring then holds one block more. *)
Lemma Enqueue_produced r m h t : produced r m h -> GetCycle t = cycle r -> EventTRB_GetType t <> LINK_TYPE ->
  exists r' m', Enqueue r t m = Some (slot r (index r), r', m') /\ produced r' m' (h ++ [t]) /\
    base r' = base r /\ capacity r' = capacity r.
Proof.
  intros Hp Hcy Hty. pose proof (pr_capacity _ _ _ Hp) as Hc. pose proof (pr_base _ _ _ Hp) as [Hb Hal].
  pose proof (pr_index _ _ _ Hp) as Hi. pose proof (link_slot_free _ _ _ Hp) as Hl.
  pose proof (written_slots r m h t) as Hw. pose proof (snoc_bits r m h t Hp Hcy Hty) as Hsb.
  set (N := capacity r - 1) in *. set (p := Z.of_nat (length h)) in *. assert (HN : 2 <= N) by lia.
  pose proof (Z.mod_pos_bound p N ltac:(lia)) as Hmod. assert (Hlen : Z.of_nat (length (h ++ [t])) = p + 1) by (rewrite length_app; cbn; lia).
  unfold Enqueue, EnqueueTRB. rewrite (next_slot_free _ _ _ Hp), Hcy, Bool.eqb_negb1. cbn [mbind option_bind].
  unfold UpdatePointer. cbn [base index capacity cycle]. rewrite (wrap_small 64 (index r + 1)), (wrap_small 64 (capacity r - 1)) by lia. fold N.
  destruct (Z.leb_spec N (index r + 1)) as [Hge|Hlt].
  - unfold EnqueueTRB. cbn [base index capacity cycle]. rewrite Link_GetCycle by done.
    replace (index r + 1) with N by lia.
    assert (Hslot : forall i, slot (mkRing (base r) N (capacity r) (cycle r)) i = slot r i) by done. rewrite !Hslot.
    rewrite read_slot_write, Hl, Bool.eqb_negb1 by lia. cbn [mbind option_bind].
    destruct (lap_end p N ltac:(lia) ltac:(lia) ltac:(lia)) as [Hm0 Hd1]. eexists _, _. split; [reflexivity|]. split; [|done].
    constructor; cbn [base index capacity cycle]; fold N; rewrite ?Hlen.
    + done.
    + done.
    + by rewrite Hm0.
    + by rewrite Hd1, even_succ, (pr_cycle _ _ _ Hp).
    + exact Hsb.
    + intros j t' Hj Hle. change (slot _ ?i) with (slot r i). rewrite read_slot_write by (pose proof (Z.mod_pos_bound (Z.of_nat j) N); lia).
      by apply Hw.
    + intros i Hr. exfalso. pose proof (Z.mod_le p N ltac:(lia) ltac:(lia)). lia.
    + change (slot _ ?i) with (slot r i). rewrite read_write_same, Hd1.
      replace (p / N + 1 =? 0) with false by (pose proof (Z.div_pos p N); lia).
      replace (p / N + 1 - 1) with (p / N) by lia. by rewrite (pr_cycle _ _ _ Hp).
  - destruct (lap_next p N ltac:(lia) ltac:(lia) ltac:(lia)) as [Hm1 Hd0]. eexists _, _. split; [reflexivity|]. split; [|done].
    constructor; cbn [base index capacity cycle]; fold N; rewrite ?Hlen.
    + done.
    + done.
    + by rewrite Hm1, Hi.
    + by rewrite Hd0, (pr_cycle _ _ _ Hp).
    + exact Hsb.
    + intros j t' Hj Hle. by apply Hw.
    + intros i Hr. change (slot _ ?i) with (slot r i). rewrite read_slot_write by (rewrite Hi, Z.mod_small; lia).
      apply (pr_zero _ _ _ Hp). fold N p. lia.
    + change (slot _ ?i) with (slot r i). rewrite read_slot_write by lia. rewrite Hd0. apply (pr_link _ _ _ Hp).
Qed.

(** ** Driver and controller together *)

(** The ring, the memory, the controller, and ghost lists of the blocks enqueued
    and executed so far. *)
Record System := mkSystem { ring : TransferRing; mem : memory; consumer : Consumer; sent : list TRB; got : list TRB }.

(** The driver enqueues a block built with the ring's cycle state while fewer
    than [capacity - 2] are in flight; the controller looks at its next block. *)
Inductive sys_step : System -> System -> Prop :=
| step_enqueue r m c h d t p r' m' :
    GetCycle t = cycle r -> EventTRB_GetType t <> LINK_TYPE -> Z.of_nat (length h) < Z.of_nat (length d) + (capacity r - 2) ->
    Enqueue r t m = Some (p, r', m') -> sys_step (mkSystem r m c h d) (mkSystem r' m' c (h ++ [t]) d)
| step_fetch r m c h d o c' :
    fetch c m = (o, c') -> sys_step (mkSystem r m c h d) (mkSystem r m c' h (d ++ option_list o)).

(** A ring as [Create] leaves it, given to the controller with its base and
    cycle state. *)
Definition fresh_ring (b cap : Z) : TransferRing := mkRing b 0 cap true.
Definition fresh_system (b cap : Z) (m : memory) : System :=
  mkSystem (fresh_ring b cap) m (mkConsumer (GetBase (fresh_ring b cap)) (cycle (fresh_ring b cap))) [] [].

Definition zeroed (b cap : Z) (m : memory) : Prop := forall i, 0 <= i < cap -> read_trb m (slot (fresh_ring b cap) i) = zero_trb.

Definition good_ring (b cap : Z) : Prop := 3 <= cap < 2 ^ 32 /\ 0 <= b < 2 ^ 64 /\ b mod 16 = 0.

Lemma produced_fresh b cap m : good_ring b cap -> zeroed b cap m -> produced (fresh_ring b cap) m [].
Proof.
  intros (Hc & Hb & Hal) Hz. constructor; cbn [base index capacity cycle fresh_ring length]; try done.
  - intros i Hi. apply Hz. lia.
  - rewrite Z.div_0_l by lia. cbn. apply Hz. lia.
Qed.

(** The controller after [n] blocks: at the next slot, or at the link. *)
Definition at_slot (r : TransferRing) (c : Consumer) (n : Z) : Prop :=
  dequeue c = slot r (n mod (capacity r - 1)) /\ ccs c = Z.even (n / (capacity r - 1)).
Definition at_link (r : TransferRing) (c : Consumer) (n : Z) : Prop :=
  0 < n /\ n mod (capacity r - 1) = 0 /\ dequeue c = slot r (capacity r - 1) /\ ccs c = Z.even (n / (capacity r - 1) - 1).
Definition consumer_at (r : TransferRing) (c : Consumer) (n : Z) : Prop := at_slot r c n \/ at_link r c n.

Section Fetch.
Context (r : TransferRing) (m : memory) (h : list TRB) (n : nat).
Hypothesis (Hp : produced r m h).
Hypothesis (Hr : Z.of_nat n <= Z.of_nat (length h) <= Z.of_nat n + (capacity r - 2)).

(** At a slot, the controller executes the next block if there is one. *)
Lemma fetch_at_slot c : at_slot r c (Z.of_nat n) ->
  match h !! n with
  | Some t => exists c', fetch c m = (Some t, c') /\ consumer_at r c' (Z.of_nat n + 1)
  | None => fetch c m = (None, c)
  end.
Proof using Hp Hr.
  intros [Hd Hs]. pose proof (pr_capacity _ _ _ Hp) as Hcap. set (N := capacity r - 1) in *.
  unfold fetch. rewrite Hd, Hs. destruct (h !! n) as [t|] eqn:Et.
  - pose proof (pr_slots _ _ _ Hp _ _ Et ltac:(lia)) as Hsl. destruct (pr_bits _ _ _ Hp _ _ Et) as [Hcy Hty].
    fold N in Hsl, Hcy. rewrite Hsl, Hcy, Bool.eqb_reflx, (proj2 (Z.eqb_neq _ _) Hty).
    eexists. split; [reflexivity|]. unfold consumer_at, at_slot, at_link. fold N. cbn [dequeue ccs].
    pose proof (Z.mod_pos_bound (Z.of_nat n) N ltac:(lia)). destruct (Z.ltb_spec (Z.of_nat n mod N + 1) N) as [Hlt|Hge].
    + left. destruct (lap_next (Z.of_nat n) N) as [-> ->]; [lia..|]. split; [unfold slot, SIZEOF_TRB; lia|done].
    + right. destruct (lap_end (Z.of_nat n) N) as [-> ->]; [lia..|]. split_and!; [lia|done|unfold slot, SIZEOF_TRB; lia|].
      by replace (Z.of_nat n / N + 1 - 1) with (Z.of_nat n / N) by lia.
  - apply lookup_ge_None in Et. assert (Hn : Z.of_nat n = Z.of_nat (length h)) by lia. pose proof (next_slot_free _ _ _ Hp) as Hf.
    rewrite (pr_index _ _ _ Hp), (pr_cycle _ _ _ Hp) in Hf. fold N in Hf. by rewrite Hn, Hf, Bool.eqb_negb1.
Qed.

(** At the link, it goes back to the base and toggles its cycle state. *)
Lemma fetch_at_link c : at_link r c (Z.of_nat n) -> exists c', fetch c m = (None, c') /\ at_slot r c' (Z.of_nat n).
Proof using Hp Hr.
  intros (Hpos & Hm & Hd & Hs). pose proof (pr_capacity _ _ _ Hp) as Hcap. pose proof (pr_base _ _ _ Hp) as [Hb Hal].
  set (N := capacity r - 1) in *. pose proof (Z.div_mod (Z.of_nat n) N ltac:(lia)) as Hdm.
  assert (Hlap : Z.of_nat (length h) / N = Z.of_nat n / N).
  { symmetry. apply (Z.div_unique_pos _ _ _ (Z.of_nat (length h) - Z.of_nat n)); lia. }
  pose proof (pr_link _ _ _ Hp) as Hl. fold N in Hl. rewrite Hlap, (proj2 (Z.eqb_neq (Z.of_nat n / N) 0)) in Hl by nia.
  unfold fetch. rewrite Hd, Hs, Hl, Link_GetCycle, Bool.eqb_reflx, Link_type, Link_target, Link_toggles, Z.eqb_refl by done.
  eexists. split; [reflexivity|]. unfold at_slot. fold N. cbn [dequeue ccs]. rewrite Hm.
  split; [unfold slot; lia|]. rewrite even_pred. by destruct (Z.even (Z.of_nat n / N)).
Qed.

Lemma fetch_spec c : consumer_at r c (Z.of_nat n) ->
  (exists t c', h !! n = Some t /\ fetch c m = (Some t, c') /\ consumer_at r c' (Z.of_nat n + 1)) \/
  (exists c', fetch c m = (None, c') /\ consumer_at r c' (Z.of_nat n)).
Proof using Hp Hr.
  intros [Hs|Hl].
  - pose proof (fetch_at_slot c Hs) as Hf. destruct (h !! n) as [t|].
    + destruct Hf as (c' & Hf & Hc'). left. by exists t, c'.
    + right. exists c. split; [done|by left].
  - destruct (fetch_at_link c Hl) as (c' & Hf & Hc'). right. exists c'. split; [done|by left].
Qed.

End Fetch.

(** What holds of every reachable system. *)
Record sys_ok (s : System) : Prop := {
  ok_produced : produced (ring s) (mem s) (sent s);
  ok_consumer : consumer_at (ring s) (consumer s) (Z.of_nat (length (got s)));
  ok_prefix : got s = take (length (got s)) (sent s);
  ok_flight : Z.of_nat (length (got s)) <= Z.of_nat (length (sent s)) <= Z.of_nat (length (got s)) + (capacity (ring s) - 2) }.

Lemma sys_ok_fresh b cap m : good_ring b cap -> zeroed b cap m -> sys_ok (fresh_system b cap m).
Proof.
  intros Hg Hz. constructor; cbn [ring mem consumer sent got fresh_system length].
  - by apply produced_fresh.
  - left. unfold at_slot. cbn [capacity fresh_ring]. destruct Hg as [Hc _]. rewrite Z.div_0_l, Z.mod_0_l by lia. split; [unfold slot; cbn; lia|done].
  - done.
  - cbn [capacity fresh_ring]. destruct Hg as [Hc _]. lia.
Qed.

Lemma sys_ok_step s s' : sys_ok s -> sys_step s s' -> sys_ok s'.
Proof.
  intros [Hp Hc Hpre Hf] Hstep. destruct Hstep as [r m c h d t p r' m' Hcy Hty Hroom He | r m c h d o c' He]; cbn [ring mem consumer sent got] in *.
  - destruct (Enqueue_produced r m h t Hp Hcy Hty) as (r2 & m2 & He2 & Hp2 & Hb2 & Hc2). rewrite He in He2. injection He2 as -> <- <-.
    constructor; cbn [ring mem consumer sent got]; [done| | |].
    + unfold consumer_at, at_slot, at_link, slot in *. by rewrite Hb2, Hc2.
    + rewrite take_app_le by lia. done.
    + rewrite length_app, Hc2. cbn [length]. lia.
  - destruct (fetch_spec r m h (length d) Hp Hf c Hc) as [(t & c2 & Ht & Hfe & Hc2)|(c2 & Hfe & Hc2)];
      rewrite He in Hfe; injection Hfe as -> ->; cbn [option_list]; rewrite ?app_nil_r.
    + constructor; cbn [ring mem consumer sent got]; rewrite ?length_app; cbn [length].
      * done.
      * by rewrite Nat2Z.inj_add.
      * rewrite Nat.add_1_r, (take_S_r _ _ t Ht). by rewrite <- Hpre.
      * apply lookup_lt_Some in Ht. change (length (option_list (Some t))) with 1%nat. lia.
    + constructor; done.
Qed.

Lemma sys_ok_reachable b cap m s : good_ring b cap -> zeroed b cap m -> rtc sys_step (fresh_system b cap m) s -> sys_ok s.
Proof.
  intros Hg Hz Hs. remember (fresh_system b cap m) as s0 eqn:E. assert (H0 : sys_ok s0) by (subst; by apply sys_ok_fresh). clear E.
  induction Hs as [|s0 s1 s2 Hstep _ IH]; [done|]. apply IH. by eapply sys_ok_step.
Qed.

(** ** The guarantees *)

(** Two looks of the controller. *)
Definition fetch2 (c : Consumer) (m : memory) : list TRB :=
  let '(o, c) := fetch c m in
  match o with Some t => [t] | None => option_list (fetch c m).1 end.

Lemma fetch2_spec r m h n c : produced r m h -> Z.of_nat n <= Z.of_nat (length h) <= Z.of_nat n + (capacity r - 2) ->
  consumer_at r c (Z.of_nat n) -> fetch2 c m = option_list (h !! n).
Proof.
  intros Hp Hr Hc. unfold fetch2.
  assert (Hslot : forall c, at_slot r c (Z.of_nat n) -> (fetch c m).1 = h !! n /\ (h !! n = None -> fetch c m = (None, c))).
  { intros c' Hs. pose proof (fetch_at_slot r m h n Hp Hr c' Hs) as Hf. destruct (h !! n) as [t|]; [destruct Hf as (c2 & -> & _)|rewrite Hf]; done. }
  destruct Hc as [Hs|Hl].
  - destruct (Hslot c Hs) as [H1 H2]. destruct (h !! n) as [t|] eqn:Et.
    + destruct (fetch c m) as [o c']. cbn in H1. by subst o.
    + rewrite (H2 eq_refl). by rewrite H1.
  - destruct (fetch_at_link r m h n Hp Hr c Hl) as (c' & -> & Hs). by rewrite (proj1 (Hslot c' Hs)).
Qed.

Lemma reachable_capacity b cap m s : good_ring b cap -> zeroed b cap m -> rtc sys_step (fresh_system b cap m) s -> capacity (ring s) = cap.
Proof.
  intros Hg Hz Hs. remember (fresh_system b cap m) as s0 eqn:E.
  assert (H0 : sys_ok s0 /\ capacity (ring s0) = cap) by (subst; split; [by apply sys_ok_fresh|done]).
  clear E. induction Hs as [|s0 s1 s2 Hstep _ IH]; [apply H0|]. apply IH. split; [eapply sys_ok_step; [apply H0|done]|].
  destruct H0 as [[Hp0 _ _ _] Hc0], Hstep; cbn [ring mem sent] in *; [|done].
  edestruct (Enqueue_produced r m0 h t) as (r2 & m2 & He2 & _ & _ & Hc2); [done..|]. congruence.
Qed.



(** Enqueueing a list of blocks one after the other. *)
Fixpoint Enqueue_all (r : TransferRing) (ts : list TRB) (m : memory) : option (TransferRing * memory) :=
  match ts with
  | [] => Some (r, m)
  | t :: ts => '(_, r, m) ← Enqueue r t m; Enqueue_all r ts m
  end.

(** The blocks a driver builds one by one, each with the ring's state of its
    turn. *)
Definition turn_cycles (cap : Z) (from : nat) (ts : list TRB) : Prop :=
  forall (j : nat) t, ts !! j = Some t -> GetCycle t = Z.even (Z.of_nat (from + j) / (cap - 1)) /\ EventTRB_GetType t <> LINK_TYPE.

Lemma Enqueue_all_produced ts : forall r m h, produced r m h -> turn_cycles (capacity r) (length h) ts ->
  exists r' m', Enqueue_all r ts m = Some (r', m') /\ produced r' m' (h ++ ts) /\ base r' = base r /\ capacity r' = capacity r.
Proof.
  induction ts as [|t ts IH]; intros r m h Hp Ht; [exists r, m; by rewrite app_nil_r|].
  destruct (Ht 0%nat t eq_refl) as [Hcy Hty]. rewrite Nat.add_0_r in Hcy. rewrite <- (pr_cycle _ _ _ Hp) in Hcy.
  destruct (Enqueue_produced r m h t Hp Hcy Hty) as (r1 & m1 & He & Hp1 & Hb1 & Hc1). cbn [Enqueue_all]. rewrite He. cbn [mbind option_bind].
  destruct (IH r1 m1 (h ++ [t]) Hp1) as (r2 & m2 & -> & Hp2 & Hb2 & Hc2).
  - intros j t' Hj. rewrite Hc1, length_app. cbn [length]. replace (length h + 1 + j)%nat with (length h + S j)%nat by lia. by apply (Ht (S j)).
  - exists r2, m2. rewrite <- app_assoc in Hp2. split_and!; [done|done|congruence..].
Qed.

(** nothing holds the driver back when the controller lags. [Enqueue] waits
    only for a cycle bit that no controller ever writes, so a driver can fill
    the ring and enqueue once more without waiting; the last write takes the
    first slot and the controller, which has executed nothing yet, stops there
    for good: every block of the first lap is lost. *)
Theorem overrun_loses_blocks (b cap : Z) (m : memory) (ts : list TRB) : good_ring b cap -> zeroed b cap m ->
  turn_cycles cap 0 ts -> Z.of_nat (length ts) = cap ->
  exists r' m', Enqueue_all (fresh_ring b cap) ts m = Some (r', m') /\
    fetch (consumer (fresh_system b cap m)) m' = (None, consumer (fresh_system b cap m)).
Proof.
  intros Hg Hz Ht Hlen. destruct (Enqueue_all_produced ts (fresh_ring b cap) m [] (produced_fresh _ _ _ Hg Hz) Ht) as (r & m' & He & Hp & Hb & Hc).
  exists r, m'. split; [done|]. cbn [app capacity base fresh_ring] in *. pose proof Hg as [Hcap _].
  destruct (ts !! Z.to_nat (cap - 1)) as [t|] eqn:Et; [|apply lookup_ge_None in Et; lia].
  pose proof (pr_slots _ _ _ Hp _ _ Et ltac:(lia)) as Hs. rewrite Hc, Z2Nat.id, Z.mod_same in Hs by lia.
  destruct (Ht _ _ Et) as [Hcy _]. cbn [plus] in Hcy. rewrite Z2Nat.id, Z.div_same in Hcy by lia. cbn in Hcy.
  unfold fetch, fresh_system. cbn [consumer dequeue ccs GetBase fresh_ring base cycle].
  assert (Hb0 : slot r 0 = b) by (unfold slot; lia). rewrite <- Hb0, Hs, Hcy. done.
Qed.

Lemma overrun_loses_blocks_witness :
  let t := fun cy => NormalTRB_Create (mkNormal 0x5000 64 0 0 cy false false false false true false false) in
  exists r m, Enqueue_all (fresh_ring 0x10000 4) [t true; t true; t true; t false] (fun _ => 0) = Some (r, m) /\
    fetch (mkConsumer 0x10000 true) m = (None, mkConsumer 0x10000 true).
Proof.
  cbv zeta. set (t := fun cy => NormalTRB_Create (mkNormal 0x5000 64 0 0 cy false false false false true false false)).
  apply (overrun_loses_blocks 0x10000 4 (fun _ => 0) [t true; t true; t true; t false]).
  - unfold good_ring. split_and!; done || lia.
  - by intros i Hi.
  - intros [|[|[|[|j]]]] t' Hj; cbn in Hj; simplify_eq; split; by vm_compute.
  - reflexivity.
Defined.

(** A block that does not carry the ring's state waits, whatever the
    controller does. *)
Lemma stale_cycle_waits r m h t : produced r m h -> GetCycle t = negb (cycle r) -> Enqueue r t m = None.
Proof. intros Hp Hcy. unfold Enqueue, EnqueueTRB. by rewrite (next_slot_free _ _ _ Hp), Hcy, Bool.eqb_reflx. Qed.

(** ** Creation and release *)

(** [Create] leaves the ring's object and pages allocated, the pages zero,
    and the driver's view ready for the first lap; [Release] gives back exactly
    the pages taken; when the pages cannot be had, the object is freed again. *)
Theorem ring_create_release {S : Type} `{!KernelMemory S, !KernelMemoryLaws S} (pages : Z) (s : S) : 1 <= pages < 2 ^ 32 ->
  match Heap_Allocate SIZEOF_RING s with
  | (None, s1) => TransferRing_Create pages s = (None, s1)
  | (Some this, s1) =>
      match AllocateDMA pages s1 with
      | (None, s2) => TransferRing_Create pages s = (None, Heap_Free this s2)
      | (Some b, s2) =>
          exists s3, TransferRing_Create pages s = (Some (this, fresh_ring b (pages * 256)), s3) /\
            zeroed b (pages * 256) (read_memory s3) /\
            forall r s4, base r = b -> capacity r = pages * 256 ->
              TransferRing_Release this r s4 = Heap_Free this (FreeDMA b pages s4)
      end
  end.
Proof.
  intros Hpages. unfold TransferRing_Create. destruct (Heap_Allocate SIZEOF_RING s) as [[this|] s1]; [|done].
  destruct (AllocateDMA pages s1) as [[b|] s2]; [|done].
  rewrite wrap_small by lia. replace (pages * 4096 / SIZEOF_TRB) with (pages * 256) by
    (unfold SIZEOF_TRB; replace (pages * 4096) with (pages * 256 * 16) by lia; by rewrite Z.div_mul by lia).
  replace (pages * 4096 / 4) with (pages * 1024) by (replace (pages * 4096) with (pages * 1024 * 4) by lia; by rewrite Z.div_mul by lia).
  eexists. split; [reflexivity|]. split.
  - intros i Hi. rewrite read_on_memory. unfold read_trb, zero_trb, rd.
    assert (Hw : forall j, 0 <= j < 4 -> clear_words b 0 (Z.to_nat (pages * 1024)) (read_memory s2) (word (slot (fresh_ring b (pages * 256)) i) j) = 0).
    { intros j Hj. rewrite clear_words_spec. unfold span, word, slot, SIZEOF_TRB. cbn [base fresh_ring].
      replace (b + 16 * i + 4 * j - b) with ((4 * i + j) * 4) by lia. rewrite Z.mod_mul, Z.div_mul, Z2Nat.id by lia.
      by replace ((0 =? 0) && (0 <=? 4 * i + j) && (4 * i + j <? 0 + pages * 1024)) with true by lia. }
    by rewrite !Hw by lia.
  - intros r s4 Hb Hc. unfold TransferRing_Release. rewrite Hb, Hc. unfold SIZEOF_TRB. rewrite wrap_small by lia. do 2 f_equal.
    symmetry. apply (Z.div_unique_pos _ _ _ 4095); lia.
Qed.

(** A memory whose allocators hand out increasing addresses and reuse none. *)
#[local] Instance bump_memory : KernelMemory (Z * memory) := {
  Heap_Allocate n s := (Some s.1, (s.1 + n, s.2));
  Heap_Free _ s := s;
  AllocateDMA n s := (Some s.1, (s.1 + n * 4096, s.2));
  FreeDMA _ _ s := s;
  read_memory s := s.2;
  on_memory f s := (s.1, f s.2) }.

#[local] Instance bump_memory_laws : KernelMemoryLaws (Z * memory).
Proof. by constructor. Defined.

Lemma ring_create_release_witness :
  exists s, TransferRing_Create 1 (0x1000, fun _ : Z => 7) = (Some (0x1000, fresh_ring 0x1028 256), s) /\
    zeroed 0x1028 256 (read_memory s).
Proof.
  pose proof (ring_create_release 1 (0x1000, fun _ : Z => 7) ltac:(lia)) as H. cbn [Heap_Allocate AllocateDMA bump_memory fst snd] in H.
  destruct H as (s & Hc & Hz & _). exists s. split; [exact Hc|exact Hz].
Defined.
