(* ===== verification/UsbDescriptors.v ===== *)
(** * USB descriptors ([kernel/src/devices/USB/xHCI/Device.cpp])

    The parser of configuration, interface, endpoint and class-specific
    descriptors, and the structures it builds on the heap. Descriptor memory
    is a function from byte offsets to bytes, so that a read past the end of
    the buffer yields whatever lies there; the heap is a counter of blocks and
    the list of live ones, with an oracle that decides which allocations
    succeed. What a run of the code can die of is a [fault] of the prelude. *)
From S2P Require Import Prelude XhciContext.

(** ** Heap blocks and the monad of the parser *)

Record blocks := mkBlocks { next_block : nat; live : list nat }.

Definition M (A : Type) : Type := blocks -> fault + (A * blocks).

#[global] Instance M_ret : MRet M := fun A x s => inr (x, s).
#[global] Instance M_bind : MBind M := fun A B f m s =>
  match m s with
  | inl e => inl e
  | inr (x, s) => f x s
  end.

Definition die {A} (e : fault) : M A := fun _ => inl e.

(** [Heap::Free]: nothing for a null pointer. *)
Definition Free (b : option nat) : M unit := fun s =>
  match b with
  | None => inr (tt, s)
  | Some b => if decide (b ∈ live s) then inr (tt, mkBlocks (next_block s) (remove eq_nat_dec b (live s))) else inl BadFree
  end.

(** ** The structures *)

Inductive InterruptUsage := Periodic | Notification.
Inductive IsochronousSynchronization := Sync_None | Asynchronous | Adaptive | Synchronous.
Inductive IsochronousUsage := Usage_Data | Feedback | ImplicitFeedback.

(** The union [ExtraConfig], zero when created. *)
Inductive ExtraConfig :=
| EC_zero
| EC_interrupt (u : InterruptUsage)
| EC_isoch (s : IsochronousSynchronization) (u : IsochronousUsage).

(** [SuperSpeedConfig]; its union of [maxStreams] and [maxPacketsPerInterval]
    is one number. *)
Record SuperSpeedConfig := mkSuperSpeed {
  ss_valid : bool; ss_maxBurst : Z; ss_mult : Z; ss_bytesPerInterval : Z; ss_maxStreams : Z }.

Definition ss_zero : SuperSpeedConfig := mkSuperSpeed false 0 0 0 0.

Record EndpointDescriptor := mkEndpoint {
  endpointAddress : Z; endpointType : EndpointType; extraConfig : ExtraConfig; maxPacketSize : Z; ep_interval : Z;
  superSpeedConfig : SuperSpeedConfig }.

Definition ep_default : EndpointDescriptor := mkEndpoint 0 ET_Invalid EC_zero 0 0 ss_zero.

(** [DeviceSpecificDescriptor], a heap block; its [next] pointer is the order
    of the list it is kept in. *)
Record DeviceSpecificDescriptor := mkExtra { ex_block : nat; ex_length : Z; ex_type : Z; ex_data : list Z }.

(** [InterfaceDescriptor] without its list pointers: [if_block] is the heap
    block it lives in, when it does, and [if_endpoints] the block and contents
    of the endpoint array. *)
Record InterfaceDescriptor := mkInterface {
  if_block : option nat; interfaceNumber : Z; alternateSetting : Z; endpointsNumber : Z; interfaceDescriptorIndex : Z;
  if_endpoints : option (nat * list EndpointDescriptor); if_extra : list DeviceSpecificDescriptor }.

Record InterfaceWrapper := mkInterfaceWrapper {
  interfaceClass : Z; interfaceSubClass : Z; interfaceProtocol : Z; iw_descriptor : InterfaceDescriptor }.

(** [FunctionDescriptor]: its interfaces in [next] order, each with its
    alternates in [nextAlternate] order. *)
Record FunctionDescriptor := mkFunction {
  fn_block : option nat; functionClass : Z; functionSubClass : Z; functionProtocol : Z; functionDescriptorIndex : Z;
  fn_interfacesNumber : Z; fn_interfaces : list (InterfaceDescriptor * list InterfaceDescriptor) }.

Record ConfigurationDescriptor := mkConfiguration {
  cfg_valid : bool; cfg_interfacesNumber : Z; configurationValue : Z; configurationDescriptorIndex : Z;
  selfPowered : bool; supportsRemoteWakeup : bool; maxPower : Z; functionsNumber : Z;
  functions : list FunctionDescriptor }.

(** ** Releasing *)

Definition EndpointDescriptor_Release (e : EndpointDescriptor) : EndpointDescriptor :=
  if decide (endpointType e = ET_Invalid) then e
  else mkEndpoint (endpointAddress e) ET_Invalid (extraConfig e) (maxPacketSize e) (ep_interval e) (superSpeedConfig e).

(** The part of [InterfaceDescriptor::Release] after the alternates: the
    endpoints, their array, the class-specific descriptors. *)
Definition Interface_ReleaseOwn (i : InterfaceDescriptor) : M unit :=
  match if_endpoints i with
  | None => if 0 <? endpointsNumber i then die NullAccess else mret tt
  | Some (b, eps) => Free (Some b)
  end ≫= fun _ => foldl (fun m e => m ≫= fun _ => Free (Some (ex_block e))) (mret tt) (if_extra i).

(** The alternates are released from the last, each freed by its
    predecessor. *)
Fixpoint Interface_ReleaseAlternates (alts : list InterfaceDescriptor) : M unit :=
  match alts with
  | [] => mret tt
  | a :: alts => Interface_ReleaseAlternates alts ≫= fun _ => Interface_ReleaseOwn a ≫= fun _ => Free (if_block a)
  end.

Fixpoint Interface_Release (i : InterfaceDescriptor) (alts : list InterfaceDescriptor)
    (next : list (InterfaceDescriptor * list InterfaceDescriptor)) : M unit :=
  Interface_ReleaseAlternates alts ≫= fun _ =>
  Interface_ReleaseOwn i ≫= fun _ =>
  match next with
  | [] => mret tt
  | (j, jalts) :: next => Interface_Release j jalts next ≫= fun _ => Free (if_block j)
  end.

Fixpoint Function_Release (f : FunctionDescriptor) (next : list FunctionDescriptor) : M unit :=
  match fn_interfaces f with
  | [] => mret tt
  | (i, alts) :: rest => Interface_Release i alts rest ≫= fun _ => Free (if_block i)
  end ≫= fun _ =>
  match next with
  | [] => mret tt
  | g :: next => Function_Release g next ≫= fun _ => Free (fn_block g)
  end.

(** [ConfigurationDescriptor::Release] walks [functions] as an array of
    [functionsNumber] objects; only the first is one. *)
Definition Configuration_Release (c : ConfigurationDescriptor) : M ConfigurationDescriptor :=
  if cfg_valid c then
    (if 0 <? functionsNumber c then
       match functions c with
       | [] => die NullAccess
       | f :: next => Function_Release f next
       end
     else mret tt) ≫= fun _ =>
    (if 1 <? functionsNumber c then die WildAccess else mret tt) ≫= fun _ =>
    Free (head (functions c) ≫= fn_block) ≫= fun _ =>
    mret (mkConfiguration false (cfg_interfacesNumber c) (configurationValue c) (configurationDescriptorIndex c)
            (selfPowered c) (supportsRemoteWakeup c) (maxPower c) (functionsNumber c) [])
  else mret c.

(** ** Lists of extras, alternates, interfaces and functions *)

Definition AddExtra (i : InterfaceDescriptor) (e : DeviceSpecificDescriptor) : InterfaceDescriptor :=
  mkInterface (if_block i) (interfaceNumber i) (alternateSetting i) (endpointsNumber i) (interfaceDescriptorIndex i)
    (if_endpoints i) (if_extra i ++ [e]).

Definition GetExtra (i : InterfaceDescriptor) (type : Z) : option DeviceSpecificDescriptor :=
  list_find (fun e => ex_type e = type) (if_extra i) ≫= fun p => Some p.2.

Definition with_block (b : nat) (i : InterfaceDescriptor) : InterfaceDescriptor :=
  mkInterface (Some b) (interfaceNumber i) (alternateSetting i) (endpointsNumber i) (interfaceDescriptorIndex i)
    (if_endpoints i) (if_extra i).

Definition with_interfaces (f : FunctionDescriptor) (n : Z) l : FunctionDescriptor :=
  mkFunction (fn_block f) (functionClass f) (functionSubClass f) (functionProtocol f) (functionDescriptorIndex f) n l.

(** [GetInterface]: the position of the interface of that number. *)
Definition GetInterface (f : FunctionDescriptor) (id : Z) : option nat :=
  list_find (fun p : InterfaceDescriptor * _ => interfaceNumber p.1 = id) (fn_interfaces f) ≫= fun p => Some p.1.

(** [GetFunction]: the position of the first function of that class. *)
Definition GetFunction (c : ConfigurationDescriptor) (fClass fSubClass fProtocol : Z) : option nat :=
  list_find (fun f => functionClass f = fClass /\ functionSubClass f = fSubClass /\ functionProtocol f = fProtocol) (functions c)
    ≫= fun p => Some p.1.

Definition with_functions (c : ConfigurationDescriptor) (l : list FunctionDescriptor) : ConfigurationDescriptor :=
  mkConfiguration (cfg_valid c) (cfg_interfacesNumber c) (configurationValue c) (configurationDescriptorIndex c)
    (selfPowered c) (supportsRemoteWakeup c) (maxPower c) (functionsNumber c) l.

Definition new_function (cls sub proto idx : Z) : FunctionDescriptor := mkFunction None cls sub proto idx 0 [].

(** [sizeof] of the structures above on x86-64. *)
Definition SIZEOF_EXTRA : Z := 16.
Definition SIZEOF_ENDPOINT : Z := 20.
Definition SIZEOF_INTERFACE : Z := 40.
Definition SIZEOF_FUNCTION : Z := 24.

Section Parser.

(** Which allocations succeed: the number of the allocation and its size. *)
Context (allocates : nat -> Z -> bool).

(** [Heap::Allocate] and [IOHeap::Allocate]. *)
Definition Allocate (size : Z) : M (option nat) := fun s =>
  let k := next_block s in
  if allocates k size then inr (Some k, mkBlocks (S k) (k :: live s)) else inr (None, mkBlocks (S k) (live s)).

Definition AddAlternate (f : FunctionDescriptor) (at_ : nat) (alternate : InterfaceDescriptor) : M (option FunctionDescriptor) :=
  Allocate SIZEOF_INTERFACE ≫= fun new_alternate =>
  match new_alternate with
  | None => mret None
  | Some b => mret (Some (with_interfaces f (fn_interfacesNumber f)
      (alter (fun p => (p.1, p.2 ++ [with_block b alternate])) at_ (fn_interfaces f))))
  end.

Definition AddInterface (f : FunctionDescriptor) (interface : InterfaceDescriptor) : M (option FunctionDescriptor) :=
  Allocate SIZEOF_INTERFACE ≫= fun new_interface =>
  match new_interface with
  | None => mret None
  | Some b => mret (Some (with_interfaces f (u8 (fn_interfacesNumber f + 1)) (fn_interfaces f ++ [(with_block b interface, [])])))
  end.

(** The new configuration and the position of the function in it. *)
Definition AddFunction (c : ConfigurationDescriptor) (f : FunctionDescriptor) : M (option (ConfigurationDescriptor * nat)) :=
  Allocate SIZEOF_FUNCTION ≫= fun new_function =>
  match new_function with
  | None => mret None
  | Some b =>
      let f := mkFunction (Some b) (functionClass f) (functionSubClass f) (functionProtocol f) (functionDescriptorIndex f)
                 (fn_interfacesNumber f) (fn_interfaces f) in
      mret (Some (with_functions c (functions c ++ [f]), length (functions c)))
  end.

(** The descriptor bytes. *)
Context (d : Z -> Z).

Definition u16_at (p : Z) : Z := d p + 256 * d (p + 1).
Definition u32_at (p : Z) : Z := d p + 256 * d (p + 1) + 65536 * d (p + 2) + 16777216 * d (p + 3).

Definition GetDescriptorSize (p : Z) : Z := d p.
Definition GetDescriptorType (p : Z) : Z := d (p + 1).

Definition CheckDescriptor (size type p : Z) : bool :=
  negb ((GetDescriptorSize p <? size) || negb (GetDescriptorType p =? type)).

(** ** Endpoints *)

(** The endpoint type of the direction bit and the attributes. *)
Definition endpoint_type_of (bEndpointAddress bmAttributes : Z) : EndpointType :=
  let ty := Z.land bmAttributes 0x0F in
  if Z.land bEndpointAddress 0x80 =? 0 then
    match ty with 0 => ControlBidirectional | 1 => IsochronousOut | 2 => BulkOut | 3 => InterruptOut | _ => ET_Invalid end
  else
    match ty with 0 => ControlBidirectional | 1 => IsochronousIn | 2 => BulkIn | 3 => InterruptIn | _ => ET_Invalid end.

Definition is_interrupt (t : EndpointType) : bool := match t with InterruptIn | InterruptOut => true | _ => false end.
Definition is_isochronous (t : EndpointType) : bool := match t with IsochronousIn | IsochronousOut => true | _ => false end.
Definition is_bulk (t : EndpointType) : bool := match t with BulkIn | BulkOut => true | _ => false end.

(** The usage bits of the attributes; [None] rejects the endpoint. *)
Definition extra_config_of (t : EndpointType) (bmAttributes : Z) : option ExtraConfig :=
  if is_interrupt t then
    match Z.shiftr (Z.land bmAttributes 0x30) 4 with
    | 0 => Some (EC_interrupt Periodic)
    | 1 => Some (EC_interrupt Notification)
    | _ => None
    end
  else if is_isochronous t then
    sync ← match Z.shiftr (Z.land bmAttributes 0x0C) 2 with
           | 0 => Some Sync_None
           | 1 => Some Asynchronous
           | 2 => Some Adaptive
           | 3 => Some Synchronous
           | _ => None
           end;
    usage ← match Z.shiftr (Z.land bmAttributes 0x30) 4 with
            | 0 => Some Usage_Data
            | 1 => Some Feedback
            | 2 => Some ImplicitFeedback
            | _ => None
            end;
    Some (EC_isoch sync usage)
  else Some EC_zero.

(** The companion descriptors after an endpoint: the configuration ([None]
    rejects the endpoint) and the new position. *)
Definition ParseCompanion (t : EndpointType) (mps data : Z) : M (option SuperSpeedConfig * Z) :=
  if GetDescriptorType data =? 0x30 then
    if GetDescriptorSize data <? 6 then mret (None, data + GetDescriptorSize data)
    else
      let maxBurst := u8 (d (data + 2) + 1) in
      let attributes := d (data + 3) in
      let bytesPerInterval := u16_at (data + 4) in
      let data := data + GetDescriptorSize data in
      if is_bulk t then
        let streams := Z.land attributes 0x1F in
        mret (Some (mkSuperSpeed true maxBurst 0 0 (if 0 <? streams then u32 (Z.shiftl 1 streams) else streams)), data)
      else if is_isochronous t then
        if Z.land attributes 0x80 =? 0 then
          mret (Some (mkSuperSpeed true maxBurst 0 bytesPerInterval ((Z.land attributes 3 + 1) * (maxBurst + 1))), data)
        else if negb (GetDescriptorType data =? 0x31) then mret (None, data)
        else if GetDescriptorSize data <? 8 then mret (None, data + GetDescriptorSize data)
        else
          let bytesPerInterval := u32_at (data + 4) in
          (if maxBurst =? 0 then mret 0
           else if maxBurst * mps =? 0 then die DivideByZero
           else mret (u8 (bytesPerInterval / (maxBurst * mps)))) ≫= fun mult =>
          mret (Some (mkSuperSpeed true maxBurst mult bytesPerInterval (u32 ((mult + 1) * (maxBurst + 1)))), data)
      else mret (Some (mkSuperSpeed true maxBurst 0 0 0), data)
  else mret (Some ss_zero, data).

Definition ParseEndpointDescriptor (data limit : Z) : M (option EndpointDescriptor * Z) :=
  if negb (CheckDescriptor 7 5 data) || (limit <? data + 7) then mret (None, data + GetDescriptorSize data)
  else
    let bEndpointAddress := d (data + 2) in
    let bmAttributes := d (data + 3) in
    let mps := u16_at (data + 4) in
    let interval := d (data + 6) in
    let data := data + GetDescriptorSize data in
    let endpoint_address := Z.land bEndpointAddress 0x0F in
    if endpoint_address =? 0 then mret (None, data)
    else
      let endpoint_type := endpoint_type_of bEndpointAddress bmAttributes in
      match extra_config_of endpoint_type bmAttributes with
      | None => mret (None, data)
      | Some extra_config =>
          ParseCompanion endpoint_type mps data ≫= fun '(ss, data) =>
          match ss with
          | None => mret (None, data)
          | Some ss => mret (Some (mkEndpoint endpoint_address endpoint_type extra_config mps interval ss), data)
          end
      end.

(** ** Class-specific descriptors *)

Definition bytes_from (p n : Z) : list Z := map (fun i => d (p + Z.of_nat i)) (seq 0 (Z.to_nat n)).

Definition ParseDeviceSpecificDescriptor (data limit : Z) : M (option DeviceSpecificDescriptor * Z) :=
  if limit <? data + GetDescriptorSize data then mret (None, data + GetDescriptorSize data)
  else
    let length := d data in
    let descriptorType := d (data + 1) in
    Allocate (u64 (length - 2 + SIZEOF_EXTRA)) ≫= fun descriptor =>
    match descriptor with
    | None => mret (None, data + length)
    | Some b =>
        if length <? 2 then die WildCopy
        else mret (Some (mkExtra b length descriptorType (bytes_from (data + 2) (length - 2))), data + length)
    end.

(** ** Interfaces *)

(** The descriptors before the next endpoint, kept with the interface. [None]
    when one has length zero. *)
Fixpoint skip_extras (fuel : nat) (i : InterfaceDescriptor) (data limit : Z) : M (option InterfaceDescriptor * InterfaceDescriptor * Z) :=
  match fuel with
  | O => die Hang
  | S fuel =>
      if negb (GetDescriptorType data =? 5) && (data <? limit) then
        if GetDescriptorSize data =? 0 then mret (None, i, data)
        else
          ParseDeviceSpecificDescriptor data limit ≫= fun '(extra, data) =>
          skip_extras fuel (match extra with Some e => AddExtra i e | None => i end) data limit
      else mret (Some i, i, data)
  end.

Definition with_endpoint (i : InterfaceDescriptor) (k : nat) (e : EndpointDescriptor) : InterfaceDescriptor :=
  mkInterface (if_block i) (interfaceNumber i) (alternateSetting i) (endpointsNumber i) (interfaceDescriptorIndex i)
    ((fun p : nat * list EndpointDescriptor => (p.1, <[k := e]> p.2)) <$> if_endpoints i) (if_extra i).

(** The endpoints from number [k] on, [n] of them still expected. *)
Fixpoint parse_endpoints (fuel n k : nat) (i : InterfaceDescriptor) (data limit : Z) : M (option InterfaceDescriptor * Z) :=
  match n with
  | O => mret (Some i, data)
  | S n =>
      if data <? limit then
        skip_extras fuel i data limit ≫= fun '(r, i, data) =>
        match r with
        | None => Interface_Release i [] [] ≫= fun _ => mret (None, data)
        | Some i =>
            ParseEndpointDescriptor data limit ≫= fun '(e, data) =>
            match e with
            | Some e => parse_endpoints fuel n (S k) (with_endpoint i k e) data limit
            | None => Interface_Release i [] [] ≫= fun _ => mret (None, data)
            end
        end
      else mret (Some i, data)
  end.

Definition ParseInterfaceDescriptor (fuel : nat) (data limit : Z) : M (option InterfaceWrapper * Z) :=
  if negb (CheckDescriptor 9 4 data) || (limit <? data + 9) then mret (None, data + GetDescriptorSize data)
  else
    let start := data in
    let data := data + GetDescriptorSize data in
    let n := d (start + 4) in
    let i := mkInterface None (d (start + 2)) (d (start + 3)) n (d (start + 8)) None [] in
    Allocate (SIZEOF_ENDPOINT * n) ≫= fun endpoints =>
    match endpoints with
    | None => Interface_Release i [] [] ≫= fun _ => mret (None, data)
    | Some b =>
        let i := mkInterface None (d (start + 2)) (d (start + 3)) n (d (start + 8)) (Some (b, replicate (Z.to_nat n) ep_default)) [] in
        parse_endpoints fuel (Z.to_nat n) 0 i data limit ≫= fun '(r, data) =>
        match r with
        | None => mret (None, data)
        | Some i => mret (Some (mkInterfaceWrapper (d (start + 5)) (d (start + 6)) (d (start + 7)) i), data)
        end
    end.

(** ** Configurations *)

(** Looks for the next interface descriptor; [None] at a descriptor of length
    zero. *)
Fixpoint seek_interface (fuel : nat) (data limit : Z) : M (option Z) :=
  match fuel with
  | O => die Hang
  | S fuel =>
      if (data <? limit) && negb (GetDescriptorType data =? 4) then
        if GetDescriptorSize data =? 0 then mret None else seek_interface fuel (data + GetDescriptorSize data) limit
      else mret (Some data)
  end.

(** Files the interface in its function: as an alternate of the interface of
    its number, or as a new interface. The flag says a new one was added. *)
Definition file_interface (c : ConfigurationDescriptor) (fi : nat) (interface : InterfaceDescriptor) : M (ConfigurationDescriptor * bool) :=
  match functions c !! fi with
  | None => mret (c, false)
  | Some f =>
      match GetInterface f (interfaceNumber interface) with
      | Some at_ => AddAlternate f at_ interface ≫= fun r =>
          match r with Some f => mret (with_functions c (<[fi := f]> (functions c)), false) | None => mret (c, false) end
      | None => AddInterface f interface ≫= fun r =>
          match r with Some f => mret (with_functions c (<[fi := f]> (functions c)), true) | None => mret (c, false) end
      end
  end.

(** The loop over the descriptors of the configuration; [None] when it gives
    up on a descriptor of length zero. *)
Fixpoint parse_descriptors (fuel : nat) (c : ConfigurationDescriptor) (found : bool) (ptr limit : Z)
    : M (ConfigurationDescriptor * option bool) :=
  match fuel with
  | O => die Hang
  | S fuel =>
      if ptr <? limit then
        if GetDescriptorType ptr =? 11 then
          let descriptor_size := GetDescriptorSize ptr in
          (if (8 <=? descriptor_size) && (ptr + descriptor_size <=? limit) then
             AddFunction c (new_function (d (ptr + 4)) (d (ptr + 5)) (d (ptr + 6)) (d (ptr + 7))) ≫= fun r =>
             mret (match r with Some (c, _) => c | None => c end)
           else mret c) ≫= fun c =>
          parse_descriptors fuel c found (ptr + descriptor_size) limit
        else if GetDescriptorSize ptr =? 0 then mret (c, None)
        else
          ParseInterfaceDescriptor fuel ptr limit ≫= fun '(w, ptr) =>
          match w with
          | None => parse_descriptors fuel c found ptr limit
          | Some w =>
              match GetFunction c (interfaceClass w) (interfaceSubClass w) (interfaceProtocol w) with
              | Some fi =>
                  file_interface c fi (iw_descriptor w) ≫= fun '(c, added) => parse_descriptors fuel c (found || added) ptr limit
              | None =>
                  AddFunction c (new_function (interfaceClass w) (interfaceSubClass w) (interfaceProtocol w) 0) ≫= fun r =>
                  match r with
                  | None =>
                      seek_interface fuel ptr limit ≫= fun r =>
                      match r with
                      | None => mret (c, None)
                      | Some ptr => parse_descriptors fuel c found ptr limit
                      end
                  | Some (c, fi) =>
                      file_interface c fi (iw_descriptor w) ≫= fun '(c, added) => parse_descriptors fuel c (found || added) ptr limit
                  end
              end
          end
      else mret (c, Some found)
  end.

(** [ParseConfigurationDescriptor] once the descriptor has been read into the
    buffer [data], a block of the I/O heap. *)
Definition ParseConfiguration (fuel : nat) (data : nat) : M (option ConfigurationDescriptor) :=
  let limit := u16_at 2 in
  let interfacesNumber := d 4 in
  if interfacesNumber =? 0 then mret None
  else
    let config_descriptor := mkConfiguration true interfacesNumber (d 5) (d 6) (hasbit (d 7) 6) (hasbit (d 7) 5) (d 8) 0 [] in
    parse_descriptors fuel config_descriptor false (GetDescriptorSize 0) limit ≫= fun '((c, r) : ConfigurationDescriptor * option bool) =>
    match r with
    | None => Configuration_Release c ≫= fun _ => Free (Some data) ≫= fun _ => mret None
    | Some found =>
        Free (Some data) ≫= fun _ =>
        if found then (mret (Some c) : M (option ConfigurationDescriptor)) else Configuration_Release c ≫= fun _ => mret None
    end.

End Parser.

(** [ParseConfigurationDescriptor]: the two requests and the buffer. [request]
    is the device's answer to the [n]-th request for [length] bytes of the
    configuration descriptor [index]: the bytes of the buffer afterwards, or
    nothing when the transfer failed. *)
Definition ParseConfigurationDescriptor (allocates : nat -> Z -> bool) (request : nat -> Z -> Z -> option (Z -> Z))
    (fuel : nat) (index : Z) : M (option ConfigurationDescriptor) :=
  match request 0%nat index 4 with
  | None => mret None
  | Some pre_data =>
      let descriptor_size := u16_at pre_data 2 in
      Allocate allocates descriptor_size ≫= fun data =>
      match data with
      | None => mret None
      | Some data =>
          match request 1%nat index descriptor_size with
          | None => Free (Some data) ≫= fun _ => mret None
          | Some bytes => ParseConfiguration allocates bytes fuel data
          end
      end
  end.
