(* ===== verification/UsbDescriptorsProps.v ===== *)
(** * Parsing USB descriptors: what comes out, and what a device can do to it

    A well-formed configuration is read back exactly; the loops end unless an
    interface association has length zero; and the ways a malformed or unlucky
    descriptor makes the kernel hang, crash, read past the buffer or leak. *)
From S2P Require Import Prelude XhciContext UsbDescriptors.

(** ** The monad *)

Lemma bind_ret {A B} (x : A) (f : A -> M B) s : (mret x ≫= f) s = f x s.
Proof. done. Qed.

Lemma bind_run {A B} (m : M A) (f : A -> M B) s x s' : m s = inr (x, s') -> (m ≫= f) s = f x s'.
Proof. unfold mbind, M_bind. by intros ->. Qed.

Lemma bind_dead {A B} (m : M A) (f : A -> M B) s e : m s = inl e -> (m ≫= f) s = inl e.
Proof. unfold mbind, M_bind. by intros ->. Qed.

(** Partial correctness with termination: the computation does not hang, and
    its result, if it does not fault, satisfies [Q]. *)
Definition runs_to {A} (m : M A) (Q : A -> Prop) : Prop :=
  forall s, match m s with inl e => e <> Hang | inr (x, _) => Q x end.
Definition ends {A} (m : M A) : Prop := runs_to m (fun _ => True).

Lemma runs_ret {A} (x : A) (Q : A -> Prop) : Q x -> runs_to (mret x) Q.
Proof. by intros HQ s. Qed.

Lemma runs_die {A} e (Q : A -> Prop) : e <> Hang -> runs_to (die (A := A) e) Q.
Proof. by intros He s. Qed.

Lemma runs_bind {A B} (m : M A) (f : A -> M B) P Q : runs_to m P -> (forall x, P x -> runs_to (f x) Q) -> runs_to (m ≫= f) Q.
Proof.
  intros Hm Hf s. unfold mbind, M_bind. specialize (Hm s). destruct (m s) as [e|[x s']]; [done|]. by apply Hf.
Qed.

Lemma ends_bind {A B} (m : M A) (f : A -> M B) Q : ends m -> (forall x, runs_to (f x) Q) -> runs_to (m ≫= f) Q.
Proof. intros Hm Hf. by apply (runs_bind m f (fun _ => True)). Qed.

Lemma ends_Free b : ends (Free b).
Proof. intros s. destruct b as [b|]; cbn; [case_decide|]; done. Qed.

Lemma ends_Allocate al n : ends (Allocate al n).
Proof. intros s. unfold Allocate. by destruct (al _ _). Qed.

Create HintDb usb.
#[export] Hint Resolve ends_Free ends_Allocate : usb.

(** Splits a computation at its binds and tests. *)
Ltac runs :=
  repeat lazymatch goal with
  | |- ends _ => unfold ends
  | |- runs_to (mret _) _ => apply runs_ret
  | |- runs_to (die _) _ => apply runs_die; discriminate
  | |- runs_to (_ ≫= _) _ => apply ends_bind; [try solve [auto with usb]|intros ?]
  | |- runs_to (match ?x with _ => _ end) _ => destruct x
  | |- runs_to ?m _ => change (ends m); solve [auto with usb]
  end; try done.

Lemma ends_extras l : ends (foldl (fun m e => m ≫= fun _ => Free (Some (ex_block e))) (mret tt) l).
Proof.
  assert (H : forall m, ends m -> ends (foldl (fun m e => m ≫= fun _ => Free (Some (ex_block e))) m l)).
  { induction l as [|e l IH]; intros m Hm; [done|]. cbn [foldl]. apply IH. by apply ends_bind; [|intros ?; apply ends_Free]. }
  apply H. by apply runs_ret.
Qed.
#[export] Hint Resolve ends_extras : usb.

Lemma ends_ReleaseOwn i : ends (Interface_ReleaseOwn i).
Proof. unfold Interface_ReleaseOwn. runs. Qed.
#[export] Hint Resolve ends_ReleaseOwn : usb.

Lemma ends_ReleaseAlternates alts : ends (Interface_ReleaseAlternates alts).
Proof. induction alts; cbn [Interface_ReleaseAlternates]; runs. Qed.
#[export] Hint Resolve ends_ReleaseAlternates : usb.

Lemma ends_Interface_Release i alts next : ends (Interface_Release i alts next).
Proof. revert i alts. induction next as [|[j jalts] next IH]; intros i alts; cbn [Interface_Release]; runs. Qed.
#[export] Hint Resolve ends_Interface_Release : usb.

Lemma ends_Function_Release f next : ends (Function_Release f next).
Proof. revert f. induction next as [|g next IH]; intros f; cbn [Function_Release]; runs. Qed.
#[export] Hint Resolve ends_Function_Release : usb.

Lemma ends_Configuration_Release c : ends (Configuration_Release c).
Proof. unfold Configuration_Release. runs. Qed.
#[export] Hint Resolve ends_Configuration_Release : usb.

(** ** Termination of the parser *)

Section Termination.
Context (al : nat -> Z -> bool) (d : Z -> Z).
Hypothesis Hd : forall p, 0 <= d p.

(** The parse moves forward, by at least the size of the descriptor it is at. *)
Lemma companion_advances t mps data : runs_to (ParseCompanion d t mps data) (fun r => data <= r.2).
Proof using Hd.
  unfold ParseCompanion, GetDescriptorSize. pose proof (Hd data). pose proof (Hd (data + d data)). cbv zeta.
  destruct (_ =? _); [|apply runs_ret; cbn; lia]. destruct (_ <? _); [apply runs_ret; cbn; lia|].
  destruct (is_bulk t); [apply runs_ret; cbn; lia|]. destruct (is_isochronous t); [|apply runs_ret; cbn; lia].
  destruct (_ =? 0); [apply runs_ret; cbn; lia|]. destruct (negb _); [apply runs_ret; cbn; lia|].
  destruct (_ <? 8); [apply runs_ret; cbn; lia|]. apply ends_bind; [runs|]. intros x. apply runs_ret. cbn. lia.
Qed.

Lemma endpoint_advances data limit : runs_to (ParseEndpointDescriptor d data limit) (fun r => data <= r.2).
Proof using Hd.
  unfold ParseEndpointDescriptor, GetDescriptorSize. pose proof (Hd data). cbv zeta.
  destruct (_ || _); [apply runs_ret; cbn; lia|]. destruct (_ =? 0); [apply runs_ret; cbn; lia|].
  destruct (extra_config_of _ _); [|apply runs_ret; cbn; lia].
  eapply runs_bind; [apply companion_advances|]. intros [[ss|] p] Hp; apply runs_ret; cbn in *; lia.
Qed.

Lemma device_specific_advances data limit : runs_to (ParseDeviceSpecificDescriptor al d data limit) (fun r => r.2 = data + d data).
Proof using Hd.
  unfold ParseDeviceSpecificDescriptor, GetDescriptorSize. cbv zeta. destruct (_ <? _); [by apply runs_ret|].
  apply ends_bind; [auto with usb|]. intros [b|]; [|by apply runs_ret]. destruct (_ <? 2); [by apply runs_die|by apply runs_ret].
Qed.

Lemma skip_extras_advances fuel : forall i data limit, Z.max 0 (limit - data) < Z.of_nat fuel ->
  runs_to (skip_extras al d fuel i data limit) (fun r => data <= r.2).
Proof using Hd.
  induction fuel as [|fuel IH]; intros i data limit Hf; [lia|]. cbn [skip_extras].
  destruct (negb _ && (data <? limit)) eqn:E; [|apply runs_ret; cbn; lia]. apply andb_true_iff in E as [_ E].
  unfold GetDescriptorSize. pose proof (Hd data). destruct (Z.eqb_spec (d data) 0); [apply runs_ret; cbn; lia|].
  eapply runs_bind; [apply device_specific_advances|]. intros [e p] Hp. cbn in Hp. subst p.
  intros s. pose proof (IH (match e with Some e => AddExtra i e | None => i end) (data + d data) limit ltac:(lia) s) as Hs.
  destruct (skip_extras _ _ _ _ _ _ _) as [|[[[? ?] ?] ?]]; cbn in *; [done|lia].
Qed.

Lemma parse_endpoints_advances fuel n : forall k i data limit, Z.max 0 (limit - data) < Z.of_nat fuel ->
  runs_to (parse_endpoints al d fuel n k i data limit) (fun r => data <= r.2).
Proof using Hd.
  induction n as [|n IH]; intros k i data limit Hf; cbn [parse_endpoints]; [apply runs_ret; cbn; lia|].
  destruct (Z.ltb_spec data limit) as [Hlt|Hge]; [|apply runs_ret; cbn; lia].
  eapply runs_bind; [by apply skip_extras_advances|]. intros [[r j] p] Hp. cbn in Hp. destruct r as [r|].
  - eapply runs_bind; [apply endpoint_advances|]. intros [[e|] q] Hq; cbn in Hq.
    + intros s. pose proof (IH (S k) (with_endpoint r k e) q limit ltac:(lia) s) as Hs.
      destruct (parse_endpoints _ _ _ _ _ _ _ _ _) as [|[[? ?] ?]]; cbn in *; [done|lia].
    + apply ends_bind; [auto with usb|]. intros _. apply runs_ret. cbn. lia.
  - apply ends_bind; [auto with usb|]. intros _. apply runs_ret. cbn. lia.
Qed.

Lemma interface_advances fuel data limit : Z.max 0 (limit - data) < Z.of_nat fuel ->
  runs_to (ParseInterfaceDescriptor al d fuel data limit) (fun r => data + d data <= r.2).
Proof using Hd.
  intros Hf. unfold ParseInterfaceDescriptor, GetDescriptorSize. cbv zeta. pose proof (Hd data).
  destruct (_ || _); [apply runs_ret; cbn; lia|]. apply ends_bind; [auto with usb|]. intros [b|].
  - eapply runs_bind; [apply parse_endpoints_advances; lia|]. intros [[r|] p] Hp; apply runs_ret; cbn in *; lia.
  - apply ends_bind; [auto with usb|]. intros _. apply runs_ret. cbn. lia.
Qed.

Lemma seek_interface_ends fuel : forall data limit, Z.max 0 (limit - data) < Z.of_nat fuel ->
  runs_to (seek_interface d fuel data limit) (fun r => match r with Some p => data <= p | None => True end).
Proof using Hd.
  induction fuel as [|fuel IH]; intros data limit Hf; [lia|]. cbn [seek_interface].
  destruct ((data <? limit) && _) eqn:E; [|apply runs_ret; lia]. apply andb_true_iff in E as [E _].
  unfold GetDescriptorSize. pose proof (Hd data). destruct (Z.eqb_spec (d data) 0); [by apply runs_ret|].
  intros s. pose proof (IH (data + d data) limit ltac:(lia) s) as Hs.
  destruct (seek_interface _ _ _ _ _) as [|[[?|] ?]]; [done|lia|done].
Qed.

Lemma AddFunction_ends c f : ends (AddFunction al c f).
Proof. unfold AddFunction. runs. Qed.

Lemma file_interface_ends c fi i : ends (file_interface al c fi i).
Proof. unfold file_interface, AddAlternate, AddInterface. destruct (functions c !! fi); [destruct (GetInterface _ _)|]; runs. Qed.

(** No interface association of length zero starts at a position the loop can
    reach; the loop then ends. *)
Hypothesis Hassoc : forall p, d (p + 1) = 11 -> d p <> 0.

Lemma parse_descriptors_ends fuel : forall c found ptr limit, Z.max 0 (limit - ptr) + 1 < Z.of_nat fuel ->
  ends (parse_descriptors al d fuel c found ptr limit).
Proof using Hd Hassoc.
  induction fuel as [|fuel IH]; intros c found ptr limit Hf; [lia|]. cbn [parse_descriptors].
  destruct (Z.ltb_spec ptr limit) as [Hlt|Hge]; [|by apply runs_ret]. unfold GetDescriptorSize, GetDescriptorType. pose proof (Hd ptr).
  destruct (Z.eqb_spec (d (ptr + 1)) 11) as [H11|_].
  - cbv zeta. pose proof (Hassoc ptr H11). apply ends_bind.
    + destruct (_ && _); [|by apply runs_ret]. apply ends_bind; [apply AddFunction_ends|]. intros r. by apply runs_ret.
    + intros c'. apply IH. lia.
  - destruct (Z.eqb_spec (d ptr) 0) as [|Hnz]; [by apply runs_ret|].
    eapply runs_bind; [apply interface_advances; lia|].
    intros [[w|] p] Hp; cbn in Hp; [|apply IH; lia].
    destruct (GetFunction _ _ _ _).
    + apply ends_bind; [apply file_interface_ends|]. intros [c' b']. apply IH. lia.
    + apply ends_bind; [apply AddFunction_ends|]. intros [[c' fi]|].
      * apply ends_bind; [apply file_interface_ends|]. intros [c2 b2]. apply IH. lia.
      * eapply runs_bind; [apply seek_interface_ends; lia|]. intros [q|] Hq; [apply IH; lia|by apply runs_ret].
Qed.

End Termination.

(** reading a configuration descriptor always comes to an end, whatever
    bytes the device sends, as long as no interface association in them has
    length zero; the 16-bit total length bounds the work. *)
Theorem ParseConfiguration_terminates (al : nat -> Z -> bool) (d : Z -> Z) (fuel data : nat) (s : blocks) :
  (forall p, 0 <= d p < 256) -> (forall p, d (p + 1) = 11 -> d p <> 0) -> 65537 < Z.of_nat fuel ->
  ParseConfiguration al d fuel data s <> inl Hang.
Proof.
  intros Hd Ha Hf. assert (He : ends (ParseConfiguration al d fuel data)).
  { unfold ParseConfiguration. cbv zeta. destruct (d 4 =? 0); [by apply runs_ret|]. apply ends_bind.
    - apply parse_descriptors_ends; [apply Hd|done|]. unfold u16_at, GetDescriptorSize.
      pose proof (Hd 0). pose proof (Hd 2). pose proof (Hd (2 + 1)). lia.
    - intros [c [found|]]; runs. }
  specialize (He s). by destruct (ParseConfiguration al d fuel data s) as [e|[x s']]; [intros [= ->]|].
Qed.

(** A keyboard: one HID interface with its class descriptor and one interrupt
    endpoint, read from the front of a buffer of zeros. *)
Definition keyboard_bytes : list Z :=
  [9; 2; 34; 0; 1; 1; 0; 0xA0; 50;  9; 4; 0; 0; 1; 3; 1; 1; 0;  9; 0x21; 0x11; 1; 0; 1; 0x22; 63; 0;  7; 5; 0x81; 3; 8; 0; 10].

Definition buffer_of (bytes : list Z) (p : Z) : Z := if p <? 0 then 0 else nth (Z.to_nat p) bytes 0.

Lemma buffer_of_range bytes : Forall (fun b => 0 <= b < 256) bytes -> forall p, 0 <= buffer_of bytes p < 256.
Proof.
  intros Hb p. unfold buffer_of. destruct (p <? 0); [lia|]. revert bytes Hb. induction (Z.to_nat p) as [|n IH]; intros [|b bytes] Hb; cbn; try lia.
  - by inversion Hb.
  - apply IH. by inversion Hb.
Qed.

Lemma ParseConfiguration_terminates_witness :
  exists r, ParseConfiguration (fun _ _ => true) (buffer_of keyboard_bytes) (Z.to_nat 70000) 0 (mkBlocks 1 [0%nat]) = inr r.
Proof.
  assert (Hr : forall p, 0 <= buffer_of keyboard_bytes p < 256) by (apply buffer_of_range; unfold keyboard_bytes; repeat constructor; lia).
  assert (Ha : forall p, buffer_of keyboard_bytes (p + 1) = 11 -> buffer_of keyboard_bytes p <> 0).
  { intros p. unfold buffer_of. destruct (Z.ltb_spec (p + 1) 0); [done|].
    assert (Hn : (Z.to_nat (p + 1) < 34 \/ 34 <= Z.to_nat (p + 1))%nat) by lia. destruct Hn as [Hn|Hn].
    - revert Hn. generalize (Z.to_nat (p + 1)). intros n Hn. do 34 (destruct n as [|n]; [by vm_compute|]). lia.
    - rewrite nth_overflow by (cbn; lia). done. }
  pose proof (ParseConfiguration_terminates (fun _ _ => true) (buffer_of keyboard_bytes) (Z.to_nat 70000) 0 (mkBlocks 1 [0%nat]) Hr Ha ltac:(lia)) as H.
  destruct (ParseConfiguration _ _ _ _ _) as [e|r] eqn:E; [|by exists r]. vm_compute in E. done.
Defined.

(** an interface association descriptor of length zero is never stepped
    over, because its length is looked at before the check for length zero: the
    enumeration of the device never ends. *)
Theorem zero_association_hangs (al : nat -> Z -> bool) (d : Z -> Z) (fuel : nat) (c : ConfigurationDescriptor) (found : bool)
    (ptr limit : Z) (s : blocks) :
  ptr < limit -> d ptr = 0 -> d (ptr + 1) = 11 -> parse_descriptors al d fuel c found ptr limit s = inl Hang.
Proof.
  intros Hlt H0 H11. induction fuel as [|fuel IH]; [done|]. cbn [parse_descriptors].
  rewrite (proj2 (Z.ltb_lt _ _) Hlt). unfold GetDescriptorType, GetDescriptorSize. rewrite H11, H0. cbn [Z.eqb Pos.eqb Z.leb Z.compare andb].
  rewrite bind_ret, Z.add_0_r. apply IH.
Qed.

Lemma zero_association_hangs_witness :
  ParseConfiguration (fun _ _ => true) (buffer_of [9; 2; 17; 0; 1; 1; 0; 0; 50; 0; 11]) 1000 0 (mkBlocks 1 [0%nat]) = inl Hang.
Proof.
  set (d := buffer_of [9; 2; 17; 0; 1; 1; 0; 0; 50; 0; 11]).
  apply (bind_dead (parse_descriptors (fun _ _ => true) d 1000 (mkConfiguration true 1 1 0 false false 50 0 []) false 9 17)).
  apply (zero_association_hangs (fun _ _ => true) d 1000 _ false 9 17); reflexivity.
Defined.

(** ** What a hostile or unlucky descriptor does *)

(** a class-specific descriptor of length one makes the kernel copy
    2^64 - 1 bytes over the heap as soon as its buffer could be allocated. *)
Theorem short_class_descriptor_crashes (al : nat -> Z -> bool) (d : Z -> Z) (fuel : nat) (i : InterfaceDescriptor) (data limit : Z)
    (s : blocks) :
  data < limit -> d data = 1 -> d (data + 1) <> 5 -> al (next_block s) 15 = true ->
  skip_extras al d (S fuel) i data limit s = inl WildCopy.
Proof.
  intros Hlt H1 H5 Hal. cbn [skip_extras]. unfold GetDescriptorType, GetDescriptorSize. rewrite (proj2 (Z.eqb_neq _ _) H5), (proj2 (Z.ltb_lt _ _) Hlt), H1.
  cbn [negb andb Z.eqb]. apply bind_dead. unfold ParseDeviceSpecificDescriptor, GetDescriptorSize. rewrite H1, (proj2 (Z.ltb_ge _ _)) by lia.
  cbv zeta. unfold mbind at 1, M_bind, Allocate. change (u64 (1 - 2 + SIZEOF_EXTRA)) with 15. by rewrite Hal.
Qed.

Lemma short_class_descriptor_crashes_witness :
  skip_extras (fun _ _ => true) (buffer_of [1; 0x24]) 5 (mkInterface None 0 0 1 0 None []) 0 2 (mkBlocks 0 []) = inl WildCopy.
Proof. by apply (short_class_descriptor_crashes (fun _ _ => true) (buffer_of [1; 0x24]) 4). Defined.

(** The bytes of an endpoint descriptor. *)
Record endpoint_spec := mkEndpointSpec {
  es_address : Z; es_in : bool; es_kind : Z; es_usage : Z; es_mps : Z; es_interval : Z }.

Definition endpoint_ok (e : endpoint_spec) : Prop :=
  1 <= es_address e < 16 /\ 0 <= es_kind e < 4 /\ 0 <= es_usage e < 2 /\ 0 <= es_mps e < 65536 /\ 0 <= es_interval e < 256.

Definition endpoint_bytes (e : endpoint_spec) : list Z :=
  [7; 5; es_address e + (if es_in e then 128 else 0); es_kind e + 16 * es_usage e; es_mps e mod 256; es_mps e / 256; es_interval e].

(** What the specification says these bytes mean. *)
Definition spec_type (e : endpoint_spec) : EndpointType :=
  if es_kind e =? 0 then ControlBidirectional
  else if es_kind e =? 1 then (if es_in e then IsochronousIn else IsochronousOut)
  else if es_kind e =? 2 then (if es_in e then BulkIn else BulkOut)
  else (if es_in e then InterruptIn else InterruptOut).

Definition spec_extra (e : endpoint_spec) : ExtraConfig :=
  if es_kind e =? 3 then EC_interrupt (if es_usage e =? 0 then Periodic else Notification)
  else if es_kind e =? 1 then EC_isoch Sync_None (if es_usage e =? 0 then Usage_Data else Feedback)
  else EC_zero.

Definition endpoint_of (e : endpoint_spec) : EndpointDescriptor :=
  mkEndpoint (es_address e) (spec_type e) (spec_extra e) (es_mps e) (es_interval e) ss_zero.

(** The buffer holds these bytes from [p] on. *)
Definition holds (d : Z -> Z) (p : Z) (bytes : list Z) : Prop := forall (i : nat) b, bytes !! i = Some b -> d (p + Z.of_nat i) = b.

Lemma holds_app d p l1 l2 : holds d p (l1 ++ l2) -> holds d p l1 /\ holds d (p + Z.of_nat (length l1)) l2.
Proof.
  intros H. split; intros i b Hi.
  - apply H. by apply lookup_app_l_Some.
  - rewrite <- Z.add_assoc, <- Nat2Z.inj_add. apply H. rewrite lookup_app_r by lia. by replace (length l1 + i - length l1)%nat with i by lia.
Qed.

Lemma holds_nth d p bytes k b : holds d p bytes -> 0 <= k -> bytes !! Z.to_nat k = Some b -> d (p + k) = b.
Proof. intros H Hk Hb. rewrite <- (Z2Nat.id k) by done. by apply H. Qed.

Lemma endpoint_address_bits a b : 1 <= a < 16 ->
  Z.land (a + (if b : bool then 128 else 0)) 0x0F = a /\ (Z.land (a + (if b then 128 else 0)) 0x80 =? 0) = negb b.
Proof.
  intros Ha. assert (Hn : (Z.to_nat a < 16)%nat) by lia. rewrite <- (Z2Nat.id a) in Ha |- * by lia.
  revert Ha Hn. generalize (Z.to_nat a). intros n Ha Hn. do 16 (destruct n as [|n]; [destruct b; (lia || by vm_compute)|]). lia.
Qed.

Lemma endpoint_attribute_bits k u : 0 <= k < 4 -> 0 <= u < 2 ->
  Z.land (k + 16 * u) 0x0F = k /\ Z.land (k + 16 * u) 0x0C = 0 /\ Z.shiftr (Z.land (k + 16 * u) 0x30) 4 = u.
Proof.
  intros Hk Hu. assert (k = 0 \/ k = 1 \/ k = 2 \/ k = 3) as [-> | [-> | [-> | ->]]] by lia;
  assert (u = 0 \/ u = 1) as [-> | ->] by lia; by vm_compute.
Qed.

Lemma endpoint_type_spec e : endpoint_ok e ->
  endpoint_type_of (es_address e + (if es_in e then 128 else 0)) (es_kind e + 16 * es_usage e) = spec_type e.
Proof.
  intros (Ha & Hk & Hu & _). destruct (endpoint_address_bits (es_address e) (es_in e) Ha) as [_ Hdir].
  destruct (endpoint_attribute_bits _ _ Hk Hu) as [Hkind _]. unfold endpoint_type_of, spec_type. cbv zeta. rewrite Hdir, Hkind.
  assert (es_kind e = 0 \/ es_kind e = 1 \/ es_kind e = 2 \/ es_kind e = 3) as [-> | [-> | [-> | ->]]] by lia; by destruct (es_in e).
Qed.

Lemma endpoint_extra_spec e : endpoint_ok e -> extra_config_of (spec_type e) (es_kind e + 16 * es_usage e) = Some (spec_extra e).
Proof.
  intros (Ha & Hk & Hu & _). destruct (endpoint_attribute_bits _ _ Hk Hu) as (_ & Hsync & Husage).
  unfold extra_config_of. rewrite Hsync, Husage. unfold spec_type, spec_extra.
  assert (es_kind e = 0 \/ es_kind e = 1 \/ es_kind e = 2 \/ es_kind e = 3) as [-> | [-> | [-> | ->]]] by lia;
  assert (es_usage e = 0 \/ es_usage e = 1) as [-> | ->] by lia; by destruct (es_in e).
Qed.

(** An endpoint descriptor not followed by a companion is read back. *)
Lemma parse_endpoint_spec d e p limit s : endpoint_ok e -> holds d p (endpoint_bytes e) -> p + 7 <= limit -> d (p + 7 + 1) <> 0x30 ->
  ParseEndpointDescriptor d p limit s = inr ((Some (endpoint_of e), p + 7), s).
Proof.
  intros Hok Hh Hl Hc. pose proof Hok as (Ha & Hk & Hu & Hm & Hi).
  pose proof (holds_nth d p _ 0 _ Hh ltac:(lia) eq_refl) as H0. rewrite Z.add_0_r in H0. pose proof (holds_nth d p _ 1 _ Hh ltac:(lia) eq_refl) as H1.
  pose proof (holds_nth d p _ 2 _ Hh ltac:(lia) eq_refl) as H2. pose proof (holds_nth d p _ 3 _ Hh ltac:(lia) eq_refl) as H3.
  pose proof (holds_nth d p _ 4 _ Hh ltac:(lia) eq_refl) as H4. pose proof (holds_nth d p _ 5 _ Hh ltac:(lia) eq_refl) as H5.
  pose proof (holds_nth d p _ 6 _ Hh ltac:(lia) eq_refl) as H6.
  unfold ParseEndpointDescriptor, CheckDescriptor, GetDescriptorSize, GetDescriptorType, u16_at. cbv zeta.
  replace (p + 4 + 1) with (p + 5) by lia. rewrite H0, H1, H2, H3, H4, H5, H6.
  rewrite (proj2 (Z.ltb_ge limit (p + 7))) by lia. cbn [Z.ltb Z.compare Z.eqb Pos.compare Pos.compare_cont Pos.eqb negb orb].
  destruct (endpoint_address_bits (es_address e) (es_in e) Ha) as [-> _]. rewrite (proj2 (Z.eqb_neq (es_address e) 0)) by lia.
  rewrite endpoint_type_spec, endpoint_extra_spec by done. unfold ParseCompanion, GetDescriptorType. rewrite (proj2 (Z.eqb_neq _ _) Hc).
  rewrite bind_ret. unfold endpoint_of. pose proof (Z.div_mod (es_mps e) 256 ltac:(lia)) as Hdm.
  replace (es_mps e mod 256 + 256 * (es_mps e / 256)) with (es_mps e) by lia. done.
Qed.

(** the verdict on an endpoint that closes the configuration depends on
    memory after the buffer: the look for a companion descriptor is not
    bounded by the total length, so the same descriptor is accepted or
    rejected according to two bytes nobody sent. *)
Theorem endpoint_reads_past_end (d : Z -> Z) (e : endpoint_spec) (p limit : Z) (s : blocks) :
  endpoint_ok e -> holds d p (endpoint_bytes e) -> p + 7 = limit ->
  exists d1 d2, (forall q, q < limit -> d1 q = d q /\ d2 q = d q) /\
    ParseEndpointDescriptor d1 p limit s = inr ((Some (endpoint_of e), limit), s) /\
    ParseEndpointDescriptor d2 p limit s = inr ((None, limit), s).
Proof.
  intros Hok Hh Hl.
  set (below := fun (x y q : Z) => if q <? limit then d q else if q =? limit then x else if q =? limit + 1 then y else 0).
  assert (Hb : forall x y q, q < limit -> below x y q = d q) by (intros x y q Hq; unfold below; by rewrite (proj2 (Z.ltb_lt _ _) Hq)).
  assert (Hhb : forall x y, holds (below x y) p (endpoint_bytes e)).
  { intros x y i b Hi. rewrite Hb by (apply lookup_lt_Some in Hi; cbn in Hi; lia). by apply Hh. }
  assert (H0 : forall x y, below x y limit = x) by (intros x y; unfold below; by rewrite (proj2 (Z.ltb_ge _ _)), Z.eqb_refl by lia).
  assert (H1 : forall x y, below x y (limit + 1) = y).
  { intros x y. unfold below. rewrite (proj2 (Z.ltb_ge _ _)), (proj2 (Z.eqb_neq _ _)), Z.eqb_refl by lia. done. }
  exists (below 0 0), (below 0 0x30). split; [intros q Hq; by rewrite !Hb|]. split.
  - rewrite <- Hl. apply (parse_endpoint_spec _ e); [done|apply Hhb|lia|]. by rewrite Hl, H1.
  - pose proof Hok as (Ha & _). pose proof (Hhb 0 0x30) as Hh2.
    pose proof (holds_nth _ p _ 0 _ Hh2 ltac:(lia) eq_refl) as B0. rewrite Z.add_0_r in B0. pose proof (holds_nth _ p _ 1 _ Hh2 ltac:(lia) eq_refl) as B1.
    pose proof (holds_nth _ p _ 2 _ Hh2 ltac:(lia) eq_refl) as B2. pose proof (holds_nth _ p _ 3 _ Hh2 ltac:(lia) eq_refl) as B3.
    unfold ParseEndpointDescriptor, CheckDescriptor, GetDescriptorSize, GetDescriptorType. cbv zeta. rewrite B0, B1, B2, B3.
    rewrite (proj2 (Z.ltb_ge limit (p + 7))) by lia. cbn [Z.ltb Z.compare Z.eqb Pos.compare Pos.compare_cont Pos.eqb negb orb].
    destruct (endpoint_address_bits (es_address e) (es_in e) Ha) as [-> _]. rewrite (proj2 (Z.eqb_neq (es_address e) 0)) by lia.
    rewrite endpoint_type_spec, endpoint_extra_spec, Hl by done. unfold ParseCompanion, GetDescriptorType, GetDescriptorSize.
    rewrite H1, H0. cbn [Z.eqb Pos.eqb Z.ltb Z.compare]. rewrite bind_ret, Z.add_0_r. done.
Qed.

Lemma endpoint_reads_past_end_witness :
  let e := mkEndpointSpec 1 true 3 0 8 10 in
  exists d1 d2, (forall q, q < 7 -> d1 q = d2 q) /\
    ParseEndpointDescriptor d1 0 7 (mkBlocks 0 []) = inr ((Some (endpoint_of e), 7), mkBlocks 0 []) /\
    ParseEndpointDescriptor d2 0 7 (mkBlocks 0 []) = inr ((None, 7), mkBlocks 0 []).
Proof.
  cbv zeta. set (e := mkEndpointSpec 1 true 3 0 8 10).
  destruct (endpoint_reads_past_end (buffer_of (endpoint_bytes e)) e 0 7 (mkBlocks 0 [])) as (d1 & d2 & Hq & H1 & H2).
  - unfold endpoint_ok. cbn. lia.
  - intros i b Hi. unfold buffer_of. rewrite (proj2 (Z.ltb_ge _ _)) by lia. replace (Z.to_nat (0 + Z.of_nat i)) with i by lia.
    by apply nth_lookup_Some with (d := 0) in Hi.
  - reflexivity.
  - exists d1, d2. split; [|done]. intros q Hlt. destruct (Hq q Hlt) as [-> ->]. done.
Defined.

(** an isochronous endpoint with a synchronisation type (every audio sink
    or source that is not free-running) is read as an endpoint of invalid type,
    because the transfer type is taken from four attribute bits instead of
    two; its synchronisation is never recorded. *)
Theorem synchronised_endpoint_rejected (bEndpointAddress bmAttributes : Z) :
  0 <= bmAttributes < 256 -> Z.land bmAttributes 0x03 = 1 -> Z.land bmAttributes 0x0C <> 0 ->
  let t := endpoint_type_of bEndpointAddress bmAttributes in t = ET_Invalid /\ extra_config_of t bmAttributes = Some EC_zero.
Proof.
  intros Hr Hty Hsync. cbv zeta.
  assert (H : endpoint_type_of bEndpointAddress bmAttributes = ET_Invalid); [|by rewrite H].
  unfold endpoint_type_of. cbv zeta. rewrite <- (Z2Nat.id bmAttributes) in Hty, Hsync |- * by lia.
  assert (Hn : (Z.to_nat bmAttributes < 256)%nat) by lia. revert Hn Hty Hsync. generalize (Z.to_nat bmAttributes). intros n Hn.
  assert (Hall : forallb (fun k => negb (Z.land (Z.of_nat k) 0x03 =? 1) || (Z.land (Z.of_nat k) 0x0C =? 0)
    || (4 <=? Z.land (Z.of_nat k) 0x0F)) (seq 0 256) = true) by (vm_compute; reflexivity).
  rewrite forallb_forall in Hall. specialize (Hall n ltac:(apply in_seq; lia)). intros Hty Hsync.
  rewrite Hty, (proj2 (Z.eqb_neq _ _) Hsync) in Hall. cbn [Z.eqb Pos.eqb negb orb] in Hall. apply Z.leb_le in Hall.
  destruct (Z.land (Z.of_nat n) 0x0F) as [|q|q]; [lia| |lia]. assert (Hq : (4 <= q)%positive) by lia.
  destruct (Z.land bEndpointAddress 0x80 =? 0), q as [[?|?|]|[?|?|]|]; try lia; done.
Qed.

Lemma synchronised_endpoint_rejected_witness : endpoint_type_of 0x01 0x09 = ET_Invalid.
Proof. apply (synchronised_endpoint_rejected 0x01 0x09); [lia|reflexivity|by vm_compute]. Defined.

(** ** Releasing *)

(** releasing a configuration gives back the block of its first function
    and nothing else: the other functions, every interface, endpoint array and
    class descriptor stay allocated, because [functionsNumber] is never
    counted up. *)
Theorem Release_frees_one_block (c : ConfigurationDescriptor) (f : FunctionDescriptor) (rest : list FunctionDescriptor) (b : nat)
    (s : blocks) :
  cfg_valid c = true -> functionsNumber c = 0 -> functions c = f :: rest -> fn_block f = Some b -> b ∈ live s ->
  exists c', Configuration_Release c s = inr (c', mkBlocks (next_block s) (remove eq_nat_dec b (live s))) /\
    functions c' = [] /\ cfg_valid c' = false /\
    forall k, k ∈ live s -> k <> b -> k ∈ remove eq_nat_dec b (live s).
Proof.
  intros Hv Hn Hf Hb Hlive. eexists. split.
  - unfold Configuration_Release. rewrite Hv, Hn, Hf. cbn [Z.ltb Z.compare head].
    rewrite bind_ret, bind_ret. change (Some f ≫= fn_block) with (fn_block f). rewrite Hb.
    rewrite (bind_run (Free (Some b)) _ s tt (mkBlocks (next_block s) (remove eq_nat_dec b (live s)))); [reflexivity|].
    cbn [Free]. by rewrite decide_True by done.
  - split_and!; [done|done|]. intros k Hk Hne. apply list_elem_of_In, in_in_remove; [done|]. by apply list_elem_of_In.
Qed.

Lemma Release_frees_one_block_witness :
  let f := mkFunction (Some 3%nat) 3 1 1 0 1 [(mkInterface (Some 4%nat) 0 0 1 0 (Some (2%nat, [ep_default])) [], [])] in
  exists c', Configuration_Release (mkConfiguration true 1 1 0 false false 50 0 [f]) (mkBlocks 5 [4; 3; 2]%nat)
    = inr (c', mkBlocks 5 [4; 2]%nat).
Proof.
  cbv zeta. set (f := mkFunction (Some 3%nat) 3 1 1 0 1 [(mkInterface (Some 4%nat) 0 0 1 0 (Some (2%nat, [ep_default])) [], [])]).
  destruct (Release_frees_one_block (mkConfiguration true 1 1 0 false false 50 0 [f]) f [] 3 (mkBlocks 5 [4; 3; 2]%nat))
    as (c' & Hc & _); [done|done|done|done|apply list_elem_of_In; cbn; lia|].
  exists c'. exact Hc.
Defined.
