(* ===== verification/UsbDescriptorsRound.v ===== *)
(** * Reading back a configuration descriptor

    A configuration is written as the USB specification lays it out, with
    class-specific descriptors between its interfaces and endpoints; the parser
    gives back its interfaces, alternates and functions. *)
From S2P Require Import Prelude XhciContext UsbDescriptors UsbDescriptorsProps.

(** ** The specification's bytes *)

Record extra_spec := mkExtraSpec { xs_type : Z; xs_data : list Z }.

(** Neither an endpoint nor a companion descriptor. *)
Definition extra_ok (x : extra_spec) : Prop := xs_type x <> 5 /\ xs_type x <> 0x30 /\ (length (xs_data x) <= 253)%nat.

Definition extra_bytes (x : extra_spec) : list Z := (2 + Z.of_nat (length (xs_data x))) :: xs_type x :: xs_data x.

(** An endpoint and the class-specific descriptors in front of it. *)
Record item_spec := mkItem { it_extras : list extra_spec; it_endpoint : endpoint_spec }.

Definition item_ok (x : item_spec) : Prop := Forall extra_ok (it_extras x) /\ endpoint_ok (it_endpoint x).
Definition item_bytes (x : item_spec) : list Z := concat (map extra_bytes (it_extras x)) ++ endpoint_bytes (it_endpoint x).

Record interface_spec := mkInterfaceSpec {
  is_number : Z; is_alternate : Z; is_class : Z; is_subclass : Z; is_protocol : Z; is_index : Z; is_items : list item_spec }.

Definition interface_ok (x : interface_spec) : Prop := Forall item_ok (is_items x) /\ (length (is_items x) <= 255)%nat.
Definition interface_bytes (x : interface_spec) : list Z :=
  [9; 4; is_number x; is_alternate x; Z.of_nat (length (is_items x)); is_class x; is_subclass x; is_protocol x; is_index x]
  ++ concat (map item_bytes (is_items x)).

(** ** What is compared: everything but the heap blocks *)

Record interface_view := mkView {
  v_number : Z; v_alternate : Z; v_endpoints_number : Z; v_index : Z; v_endpoints : list EndpointDescriptor;
  v_extras : list (Z * list Z) }.

Definition view_interface (i : InterfaceDescriptor) : interface_view :=
  mkView (interfaceNumber i) (alternateSetting i) (endpointsNumber i) (interfaceDescriptorIndex i)
    (match if_endpoints i with Some (_, l) => l | None => [] end) (map (fun e => (ex_type e, ex_data e)) (if_extra i)).

Definition spec_view (x : interface_spec) : interface_view :=
  mkView (is_number x) (is_alternate x) (Z.of_nat (length (is_items x))) (is_index x)
    (map (fun it => endpoint_of (it_endpoint it)) (is_items x))
    (concat (map (fun it => map (fun e => (xs_type e, xs_data e)) (it_extras it)) (is_items x))).

Definition total {A} (bytes : A -> list Z) (l : list A) : Z := Z.of_nat (length (concat (map bytes l))).

Lemma total_cons {A} (bytes : A -> list Z) x l : total bytes (x :: l) = Z.of_nat (length (bytes x)) + total bytes l.
Proof. unfold total. cbn [map concat]. rewrite length_app. lia. Qed.

Lemma total_nonneg {A} (bytes : A -> list Z) l : 0 <= total bytes l.
Proof. unfold total. lia. Qed.

Lemma length_extra_bytes x : Z.of_nat (length (extra_bytes x)) = 2 + Z.of_nat (length (xs_data x)).
Proof. cbn [extra_bytes length]. lia. Qed.

Lemma holds_cons d p b l : holds d p (b :: l) -> d p = b /\ holds d (p + 1) l.
Proof.
  intros H. destruct (holds_app d p [b] l H) as [H1 H2]. split; [|exact H2].
  rewrite <- (Z.add_0_r p). by apply (holds_nth d p [b] 0 b H1).
Qed.

(** No block is given back. *)
Definition grows (s s' : blocks) : Prop := forall b, b ∈ live s -> b ∈ live s'.

Lemma grows_refl s : grows s s.
Proof. by intros b. Qed.

Lemma grows_alloc n k s s' : grows (mkBlocks n (k :: live s)) s' -> grows s s'.
Proof. intros H b Hb. apply H. cbn. apply elem_of_cons. by right. Qed.

Lemma grows_trans s1 s2 s3 : grows s1 s2 -> grows s2 s3 -> grows s1 s3.
Proof. intros H1 H2 b Hb. by apply H2, H1. Qed.

Section Round.
Context (al : nat -> Z -> bool) (d : Z -> Z).
Hypothesis Hal : forall k n, al k n = true.

(** ** Class-specific descriptors *)

Lemma bytes_from_holds p l : holds d p l -> bytes_from d p (Z.of_nat (length l)) = l.
Proof using.
  intros H. unfold bytes_from. rewrite Nat2Z.id. apply list_eq. intros i. rewrite list_lookup_fmap.
  destruct (decide (i < length l)%nat) as [Hlt|Hge].
  - rewrite lookup_seq_lt by done. cbn. destruct (l !! i) as [b|] eqn:E; [|apply lookup_ge_None in E; lia].
    f_equal. by apply H.
  - rewrite lookup_seq_ge by lia. cbn. symmetry. apply lookup_ge_None. lia.
Qed.

Lemma device_specific_spec x p limit s : extra_ok x -> holds d p (extra_bytes x) -> p + Z.of_nat (length (extra_bytes x)) <= limit ->
  ParseDeviceSpecificDescriptor al d p limit s =
    inr ((Some (mkExtra (next_block s) (2 + Z.of_nat (length (xs_data x))) (xs_type x) (xs_data x)), p + Z.of_nat (length (extra_bytes x))),
         mkBlocks (S (next_block s)) (next_block s :: live s)).
Proof using Hal.
  intros (_ & _ & Hlen) Hh Hl. rewrite length_extra_bytes in *. destruct (holds_cons _ _ _ _ Hh) as [H0 Hh1]. destruct (holds_cons _ _ _ _ Hh1) as [H1 Hh2].
  unfold ParseDeviceSpecificDescriptor, GetDescriptorSize. cbv zeta. rewrite H0, H1, (proj2 (Z.ltb_ge _ _)) by lia.
  unfold mbind, M_bind, Allocate. rewrite Hal, (proj2 (Z.ltb_ge _ _)) by lia. unfold mret, M_ret.
  replace (2 + Z.of_nat (length (xs_data x)) - 2) with (Z.of_nat (length (xs_data x))) by lia.
  replace (p + 2) with (p + 1 + 1) by lia. by rewrite (bytes_from_holds _ _ Hh2).
Qed.

(** The class-specific descriptors in front of an endpoint are collected. *)
Lemma skip_extras_spec xs : forall fuel i p limit s, Forall extra_ok xs -> holds d p (concat (map extra_bytes xs)) ->
  p + total extra_bytes xs <= limit -> d (p + total extra_bytes xs + 1) = 5 -> limit - p < Z.of_nat fuel -> (0 < fuel)%nat ->
  exists es s', skip_extras al d fuel i p limit s =
      inr ((Some (foldl AddExtra i es), foldl AddExtra i es, p + total extra_bytes xs), s') /\
    map (fun e => (ex_type e, ex_data e)) es = map (fun e => (xs_type e, xs_data e)) xs /\ grows s s'.
Proof using Hal.
  induction xs as [|x xs IH]; intros fuel i p limit s Hok Hh Hl H5 Hf Hf0; (destruct fuel as [|fuel]; [lia|]); cbn [skip_extras].
  - unfold total in *. cbn [map concat length Z.of_nat] in *. rewrite Z.add_0_r in *.
    unfold GetDescriptorType. rewrite H5. cbn [Z.eqb Pos.eqb negb andb]. exists [], s. split_and!; [done|done|apply grows_refl].
  - inversion Hok as [|? ? Hx Hxs]; subst. rewrite total_cons in *. cbn [map concat] in Hh.
    destruct (holds_app _ _ _ _ Hh) as [Hhx Hhxs]. pose proof (length_extra_bytes x) as Hlx. pose proof (total_nonneg extra_bytes xs).
    destruct (holds_cons _ _ _ _ Hhx) as [H0 Hhx1]. destruct (holds_cons _ _ _ _ Hhx1) as [H1 _].
    unfold GetDescriptorType, GetDescriptorSize. rewrite H1, H0, (proj2 (Z.eqb_neq (xs_type x) 5)), (proj2 (Z.ltb_lt p limit)) by (apply Hx || lia).
    cbn [negb andb]. rewrite (proj2 (Z.eqb_neq (2 + _) 0)) by lia.
    rewrite (bind_run _ _ _ _ _ (device_specific_spec x p limit s Hx Hhx ltac:(lia))).
    edestruct (IH fuel (AddExtra i (mkExtra (next_block s) (2 + Z.of_nat (length (xs_data x))) (xs_type x) (xs_data x)))
      (p + Z.of_nat (length (extra_bytes x))) limit) as (es & s' & Hr & Hm & Hg); [done|done|lia| |lia|lia|].
    { rewrite <- H5. f_equal. lia. }
    exists (mkExtra (next_block s) (2 + Z.of_nat (length (xs_data x))) (xs_type x) (xs_data x) :: es), s'.
    rewrite Z.add_assoc. split; [exact Hr|]. cbn [map ex_type ex_data]. split; [by rewrite Hm|]. by eapply grows_alloc.
Qed.

(** ** Endpoints of an interface *)

Lemma foldl_AddExtra i es : foldl AddExtra i es =
  mkInterface (if_block i) (interfaceNumber i) (alternateSetting i) (endpointsNumber i) (interfaceDescriptorIndex i)
    (if_endpoints i) (if_extra i ++ es).
Proof using.
  revert i. induction es as [|e es IH]; intros i; cbn [foldl].
  - rewrite app_nil_r. by destruct i.
  - rewrite IH. cbn. by rewrite <- app_assoc.
Qed.

Lemma item_type x q : item_ok x -> holds d q (item_bytes x) -> d (q + 1) <> 0x30.
Proof using.
  intros [Hxs He] Hh. unfold item_bytes in Hh. destruct (it_extras x) as [|e es].
  - cbn [map concat app] in Hh. destruct (holds_cons _ _ _ _ Hh) as [_ Hh1]. by destruct (holds_cons _ _ _ _ Hh1) as [-> _].
  - inversion Hxs as [|? ? Hx]; subst. cbn [map concat extra_bytes app] in Hh. destruct (holds_cons _ _ _ _ Hh) as [_ Hh1].
    destruct (holds_cons _ _ _ _ Hh1) as [-> _]. apply Hx.
Qed.

Lemma length_item x : Z.of_nat (length (item_bytes x)) = total extra_bytes (it_extras x) + 7.
Proof using. unfold item_bytes, total. rewrite length_app. cbn [length endpoint_bytes]. lia. Qed.

Lemma parse_endpoints_spec items : forall fuel k i b eps p limit s, Forall item_ok items -> holds d p (concat (map item_bytes items)) ->
  p + total item_bytes items <= limit -> d (p + total item_bytes items + 1) <> 0x30 -> limit - p < Z.of_nat fuel ->
  if_endpoints i = Some (b, eps) -> length eps = (k + length items)%nat ->
  exists i' s', parse_endpoints al d fuel (length items) k i p limit s = inr ((Some i', p + total item_bytes items), s') /\
    view_interface i' = mkView (interfaceNumber i) (alternateSetting i) (endpointsNumber i) (interfaceDescriptorIndex i)
      (take k eps ++ map (fun it => endpoint_of (it_endpoint it)) items)
      (map (fun e => (ex_type e, ex_data e)) (if_extra i) ++
       concat (map (fun it => map (fun e => (xs_type e, xs_data e)) (it_extras it)) items)) /\ grows s s'.
Proof using Hal.
  induction items as [|x items IH]; intros fuel k i b eps p limit s Hok Hh Hl Hafter Hf Heps Hlen; cbn [parse_endpoints length].
  - unfold total. cbn [map concat length] in *. exists i, s. rewrite !Z.add_0_r. split; [done|]. split; [|apply grows_refl]. unfold view_interface. rewrite Heps.
    rewrite take_ge, !app_nil_r by lia. done.
  - inversion Hok as [|? ? Hx Hitems]; subst. rewrite total_cons, length_item in *. cbn [map concat] in Hh.
    pose proof (holds_app _ _ _ _ Hh) as [Hhx Hhr]. rewrite length_item in Hhr.
    pose proof (holds_app _ _ _ _ Hhx) as [Hhe Hhep]. change (Z.of_nat (length (concat (map extra_bytes (it_extras x))))) with (total extra_bytes (it_extras x)) in Hhep.
    pose proof (total_nonneg extra_bytes (it_extras x)). pose proof (total_nonneg item_bytes items). destruct Hx as [Hxs He].
    rewrite (proj2 (Z.ltb_lt p limit)) by lia.
    destruct (skip_extras_spec (it_extras x) fuel i p limit s Hxs Hhe ltac:(lia)) as (es & s1 & Hr & Hes & Hg1); [|lia|lia|].
    { destruct (holds_cons _ _ _ _ Hhep) as [_ Hh1]. by destruct (holds_cons _ _ _ _ Hh1) as [-> _]. }
    rewrite (bind_run _ _ _ _ _ Hr).
    assert (Hnext : d (p + total extra_bytes (it_extras x) + 7 + 1) <> 0x30).
    { replace (p + total extra_bytes (it_extras x) + 7 + 1) with (p + (total extra_bytes (it_extras x) + 7) + 1) by lia.
      destruct items as [|y items].
      - unfold total in Hafter at 2. cbn [map concat length] in Hafter. change (Z.of_nat 0) with 0 in Hafter. by rewrite Z.add_0_r in Hafter.
      - cbn [map concat] in Hhr. apply holds_app in Hhr as [Hhy _]. apply (item_type y); [by inversion Hitems|done]. }
    rewrite (bind_run _ _ _ _ _ (parse_endpoint_spec d (it_endpoint x) (p + total extra_bytes (it_extras x)) limit s1 He Hhep ltac:(lia) Hnext)).
    destruct (IH fuel (S k) (with_endpoint (foldl AddExtra i es) k (endpoint_of (it_endpoint x))) b (<[k := endpoint_of (it_endpoint x)]> eps)
        (p + total extra_bytes (it_extras x) + 7) limit s1 Hitems) as (i' & s' & Hrun & Hview & Hg2).
    + replace (p + total extra_bytes (it_extras x) + 7) with (p + (total extra_bytes (it_extras x) + 7)) by lia. done.
    + lia.
    + replace (p + total extra_bytes (it_extras x) + 7 + total item_bytes items) with
          (p + (total extra_bytes (it_extras x) + 7 + total item_bytes items)) by lia. done.
    + lia.
    + rewrite foldl_AddExtra. unfold with_endpoint. cbn [if_endpoints]. by rewrite Heps.
    + rewrite length_insert. cbn [length] in Hlen. lia.
    + exists i', s'. split.
        { rewrite Hrun. do 3 f_equal. lia. }
        split; [|by eapply grows_trans].
        rewrite Hview, foldl_AddExtra. unfold with_endpoint. cbn [interfaceNumber alternateSetting endpointsNumber interfaceDescriptorIndex if_extra].
        cbn [length] in Hlen. rewrite (take_S_r _ k (endpoint_of (it_endpoint x))), take_insert_ge by first [lia|apply list_lookup_insert_eq; lia].
        rewrite map_app, Hes. cbn [map concat]. by rewrite <- !app_assoc.
Qed.

(** ** One interface *)

Lemma length_interface x : Z.of_nat (length (interface_bytes x)) = 9 + total item_bytes (is_items x).
Proof using. unfold interface_bytes, total. cbn [app length]. lia. Qed.

Lemma parse_interface_spec x fuel p limit s : interface_ok x -> holds d p (interface_bytes x) ->
  p + Z.of_nat (length (interface_bytes x)) <= limit -> d (p + Z.of_nat (length (interface_bytes x)) + 1) <> 0x30 ->
  limit - p < Z.of_nat fuel ->
  exists i s', ParseInterfaceDescriptor al d fuel p limit s =
      inr ((Some (mkInterfaceWrapper (is_class x) (is_subclass x) (is_protocol x) i), p + Z.of_nat (length (interface_bytes x))), s') /\
    view_interface i = spec_view x /\ grows s s'.
Proof using Hal.
  intros [Hitems Hn] Hh Hl Hafter Hf. rewrite length_interface in *. unfold interface_bytes in Hh.
  pose proof (holds_app _ _ _ _ Hh) as [Hhh Hhr]. change (Z.of_nat (length _)) with 9 in Hhr.
  pose proof (fun k b => holds_nth d p _ k b Hhh) as Hat.
  pose proof (Hat 0 9 ltac:(lia) eq_refl) as H0. rewrite Z.add_0_r in H0. pose proof (Hat 1 4 ltac:(lia) eq_refl) as H1.
  pose proof (total_nonneg item_bytes (is_items x)).
  unfold ParseInterfaceDescriptor, CheckDescriptor, GetDescriptorSize, GetDescriptorType. rewrite H0, H1.
  rewrite (proj2 (Z.ltb_ge limit (p + 9))) by lia. cbn [Z.ltb Z.compare Z.eqb Pos.compare Pos.compare_cont Pos.eqb negb orb]. cbv zeta.
  rewrite (Hat 2 _ ltac:(lia) eq_refl), (Hat 3 _ ltac:(lia) eq_refl), (Hat 4 _ ltac:(lia) eq_refl), (Hat 5 _ ltac:(lia) eq_refl),
    (Hat 6 _ ltac:(lia) eq_refl), (Hat 7 _ ltac:(lia) eq_refl), (Hat 8 _ ltac:(lia) eq_refl), Nat2Z.id.
  set (n := length (is_items x)) in *.
  rewrite (bind_run (Allocate al _) _ s (Some (next_block s)) (mkBlocks (S (next_block s)) (next_block s :: live s))) by (unfold Allocate; by rewrite Hal).
  destruct (parse_endpoints_spec (is_items x) fuel 0
    (mkInterface None (is_number x) (is_alternate x) (Z.of_nat n) (is_index x) (Some (next_block s, replicate n ep_default)) [])
    (next_block s) (replicate n ep_default) (p + 9) limit (mkBlocks (S (next_block s)) (next_block s :: live s)) Hitems Hhr) as (i & s' & Hr & Hv & Hg);
    [lia|by replace (p + 9 + total item_bytes (is_items x)) with (p + (9 + total item_bytes (is_items x))) by lia|lia|done|by rewrite length_replicate|].
  fold n in Hr. rewrite (bind_run _ _ _ _ _ Hr). exists i, s'. split; [by rewrite Z.add_assoc|]. split; [|by eapply grows_alloc].
  rewrite Hv. cbn [interfaceNumber alternateSetting endpointsNumber interfaceDescriptorIndex if_extra take map app]. done.
Qed.

End Round.

(** ** Filing interfaces in functions *)

Record function_view := mkFView {
  fv_class : Z; fv_subclass : Z; fv_protocol : Z; fv_index : Z; fv_interfaces : list (interface_view * list interface_view) }.

Definition view_pair (p : InterfaceDescriptor * list InterfaceDescriptor) : interface_view * list interface_view :=
  (view_interface p.1, map view_interface p.2).
Definition view_function (f : FunctionDescriptor) : function_view :=
  mkFView (functionClass f) (functionSubClass f) (functionProtocol f) (functionDescriptorIndex f) (map view_pair (fn_interfaces f)).

(** An alternate joins the interface of its number, a new number comes last. *)
Fixpoint file_in_interfaces (l : list (interface_view * list interface_view)) (v : interface_view) :=
  match l with
  | [] => [(v, [])]
  | (w, alts) :: l => if v_number w =? v_number v then (w, alts ++ [v]) :: l else (w, alts) :: file_in_interfaces l v
  end.

(** The function of its class triple, or a new function at the end. *)
Fixpoint file_in_functions (l : list function_view) (cls sub proto : Z) (v : interface_view) : list function_view :=
  match l with
  | [] => [mkFView cls sub proto 0 [(v, [])]]
  | f :: l =>
      if (fv_class f =? cls) && (fv_subclass f =? sub) && (fv_protocol f =? proto)
      then mkFView (fv_class f) (fv_subclass f) (fv_protocol f) (fv_index f) (file_in_interfaces (fv_interfaces f) v) :: l
      else f :: file_in_functions l cls sub proto v
  end.

Definition file_spec (l : list function_view) (x : interface_spec) : list function_view :=
  file_in_functions l (is_class x) (is_subclass x) (is_protocol x) (spec_view x).

Lemma view_with_block b i : view_interface (with_block b i) = view_interface i.
Proof. done. Qed.

Lemma file_alternate l i k b : (list_find (fun p : InterfaceDescriptor * list InterfaceDescriptor => interfaceNumber p.1 = interfaceNumber i) l
    ≫= fun p => Some p.1) = Some k ->
  map view_pair (alter (fun p => (p.1, p.2 ++ [with_block b i])) k l) = file_in_interfaces (map view_pair l) (view_interface i).
Proof.
  revert k. induction l as [|[j alts] l IH]; intros k; cbn [list_find map file_in_interfaces view_pair fst snd]; [done|].
  cbn [view_interface v_number]. destruct (decide (interfaceNumber j = interfaceNumber i)) as [He|Hne].
  - cbn. intros [= <-]. rewrite (proj2 (Z.eqb_eq _ _) He). cbn. unfold view_pair. cbn [fst snd]. by rewrite map_app.
  - rewrite (proj2 (Z.eqb_neq _ _) Hne). destruct (list_find _ l) as [[k' p]|] eqn:E; [|done]. cbn. intros [= <-]. cbn.
    f_equal. by apply IH.
Qed.

Lemma file_new_interface l i b : (list_find (fun p : InterfaceDescriptor * list InterfaceDescriptor => interfaceNumber p.1 = interfaceNumber i) l
    ≫= fun p => Some p.1) = None ->
  map view_pair (l ++ [(with_block b i, [])]) = file_in_interfaces (map view_pair l) (view_interface i).
Proof.
  induction l as [|[j alts] l IH]; cbn [list_find map file_in_interfaces view_pair fst snd app]; [done|].
  cbn [view_interface v_number]. destruct (decide (interfaceNumber j = interfaceNumber i)) as [He|Hne]; [done|].
  rewrite (proj2 (Z.eqb_neq _ _) Hne). destruct (list_find _ l) as [[k' p]|] eqn:E; [done|]. intros _. f_equal. by apply IH.
Qed.

(** The function found by [GetFunction], and what filing in it makes of the
    list. *)
Lemma file_in_found l cls sub proto v k : (list_find (fun f => functionClass f = cls /\ functionSubClass f = sub /\ functionProtocol f = proto) l
    ≫= fun p => Some p.1) = Some k ->
  exists f, l !! k = Some f /\ forall g, functionClass g = functionClass f -> functionSubClass g = functionSubClass f ->
    functionProtocol g = functionProtocol f -> functionDescriptorIndex g = functionDescriptorIndex f ->
    map view_pair (fn_interfaces g) = file_in_interfaces (map view_pair (fn_interfaces f)) v ->
    map view_function (<[k := g]> l) = file_in_functions (map view_function l) cls sub proto v.
Proof.
  revert k. induction l as [|f l IH]; intros k; cbn [list_find]; [done|].
  destruct (decide _) as [(Hc & Hs & Hp)|Hne].
  - cbn. intros [= <-]. exists f. split; [done|]. intros g H1 H2 H3 H4 Hg. cbn. rewrite Hc, Hs, Hp, !Z.eqb_refl. cbn. f_equal.
    unfold view_function. by rewrite H1, H2, H3, H4, Hg, Hc, Hs, Hp.
  - destruct (list_find _ l) as [[k' p]|] eqn:E; [|done]. cbn. intros [= <-]. destruct (IH k' eq_refl) as (f' & Hf & Hg).
    exists f'. split; [done|]. intros g H1 H2 H3 H4 H5. cbn [map file_in_functions insert list_insert view_function fv_class fv_subclass fv_protocol].
    replace ((functionClass f =? cls) && (functionSubClass f =? sub) && (functionProtocol f =? proto)) with false by lia.
    f_equal. by apply Hg.
Qed.

Lemma file_in_absent l cls sub proto v : (list_find (fun f => functionClass f = cls /\ functionSubClass f = sub /\ functionProtocol f = proto) l
    ≫= fun p => Some p.1) = None ->
  file_in_functions (map view_function l) cls sub proto v = map view_function l ++ [mkFView cls sub proto 0 [(v, [])]].
Proof.
  induction l as [|f l IH]; cbn [list_find]; [done|]. cbn [map file_in_functions app view_function fv_class fv_subclass fv_protocol]. destruct (decide _) as [|Hne]; [done|].
  replace ((functionClass f =? cls) && (functionSubClass f =? sub) && (functionProtocol f =? proto)) with false by lia.
  destruct (list_find _ l) as [[k' p]|] eqn:E; [done|]. intros _. f_equal. by apply IH.
Qed.

(** ** The loop over the configuration *)

Section Loop.
Context (al : nat -> Z -> bool) (d : Z -> Z).
Hypothesis Hal : forall k n, al k n = true.

Lemma Allocate_succeeds n s : Allocate al n s = inr (Some (next_block s), mkBlocks (S (next_block s)) (next_block s :: live s)).
Proof using Hal. unfold Allocate. by rewrite Hal. Qed.

Lemma AddFunction_succeeds c f s : exists c1 fi s', AddFunction al c f s = inr (Some (c1, fi), s').
Proof using Hal. unfold AddFunction. rewrite (bind_run _ _ _ _ _ (Allocate_succeeds _ s)). by eexists _, _, _. Qed.

(** Filing an interface in the function at a known position. *)
Lemma file_interface_spec c fi f i s : functions c !! fi = Some f ->
  exists g s', file_interface al c fi i s = inr ((with_functions c (<[fi := g]> (functions c)), bool_decide (GetInterface f (interfaceNumber i) = None)), s') /\
    functionClass g = functionClass f /\ functionSubClass g = functionSubClass f /\ functionProtocol g = functionProtocol f /\
    functionDescriptorIndex g = functionDescriptorIndex f /\
    map view_pair (fn_interfaces g) = file_in_interfaces (map view_pair (fn_interfaces f)) (view_interface i) /\ grows s s'.
Proof using Hal.
  intros Hf. unfold file_interface. rewrite Hf. destruct (GetInterface f (interfaceNumber i)) as [k|] eqn:E.
  - eexists _, _. split; [|split_and!].
    + unfold AddAlternate. rewrite (bind_run _ _ s _ _ (bind_run _ _ s _ _ (Allocate_succeeds _ s))). rewrite bool_decide_eq_false_2 by done. reflexivity.
    + done.
    + done.
    + done.
    + done.
    + cbn [with_interfaces fn_interfaces]. by apply file_alternate.
    + apply (grows_alloc (S (next_block s)) (next_block s)), grows_refl.
  - eexists _, _. split; [|split_and!].
    + unfold AddInterface. rewrite (bind_run _ _ s _ _ (bind_run _ _ s _ _ (Allocate_succeeds _ s))). rewrite bool_decide_eq_true_2 by done. reflexivity.
    + done.
    + done.
    + done.
    + done.
    + cbn [with_interfaces fn_interfaces]. by apply file_new_interface.
    + apply (grows_alloc (S (next_block s)) (next_block s)), grows_refl.
Qed.

(** Finding or making the function, and filing. *)
Definition place (c : ConfigurationDescriptor) (w : InterfaceWrapper) : M (ConfigurationDescriptor * bool) :=
  match GetFunction c (interfaceClass w) (interfaceSubClass w) (interfaceProtocol w) with
  | Some fi => file_interface al c fi (iw_descriptor w)
  | None =>
      AddFunction al c (new_function (interfaceClass w) (interfaceSubClass w) (interfaceProtocol w) 0) ≫= fun r =>
      match r with Some (c, fi) => file_interface al c fi (iw_descriptor w) | None => mret (c, false) end
  end.

Lemma place_spec c w s : exists l added s', place c w s = inr ((with_functions c l, added), s') /\
  map view_function l = file_in_functions (map view_function (functions c)) (interfaceClass w) (interfaceSubClass w) (interfaceProtocol w)
    (view_interface (iw_descriptor w)) /\ (added = true \/ functions c <> []) /\ grows s s'.
Proof using Hal.
  unfold place. destruct (GetFunction c (interfaceClass w) (interfaceSubClass w) (interfaceProtocol w)) as [fi|] eqn:E.
  - destruct (file_in_found _ _ _ _ (view_interface (iw_descriptor w)) _ E) as (f & Hf & Hg).
    destruct (file_interface_spec c fi f (iw_descriptor w) s Hf) as (g & s' & Hr & H1 & H2 & H3 & H4 & H5 & H6).
    eexists _, _, s'. split; [exact Hr|]. split; [by apply Hg|]. split; [|done]. right. intros Hn. by rewrite Hn in Hf.
  - unfold AddFunction. rewrite (bind_run _ _ s _ _ (bind_run _ _ s _ _ (Allocate_succeeds _ s))).
    set (f0 := mkFunction _ _ _ _ _ _ _). set (s1 := mkBlocks _ _).
    assert (Hlook : functions (with_functions c (functions c ++ [f0])) !! length (functions c) = Some f0).
    { cbn [with_functions functions]. by rewrite lookup_app_r, Nat.sub_diag by done. }
    destruct (file_interface_spec _ _ _ (iw_descriptor w) s1 Hlook) as (g & s' & Hr & H1 & H2 & H3 & H4 & H5 & H6).
    eexists _, _, s'. split; [exact Hr|]. split; [|split; [by left|by eapply grows_alloc]].
    cbn [with_functions functions]. rewrite insert_app_r_alt, Nat.sub_diag, map_app, (file_in_absent _ _ _ _ _ E) by done.
    f_equal. cbn. unfold view_function. by rewrite H1, H2, H3, H4, H5.
Qed.

Lemma interface_head x p : holds d p (interface_bytes x) -> d p = 9 /\ d (p + 1) = 4.
Proof using.
  unfold interface_bytes. cbn [app]. intros Hh. destruct (holds_cons _ _ _ _ Hh) as [-> Hh1]. by destruct (holds_cons _ _ _ _ Hh1) as [-> _].
Qed.

Lemma parse_descriptors_spec xs : forall fuel c found p limit s, Forall interface_ok xs -> holds d p (concat (map interface_bytes xs)) ->
  p + total interface_bytes xs = limit -> d (limit + 1) <> 0x30 -> (functions c = [] \/ found = true) ->
  Z.max 0 (limit - p) + 1 < Z.of_nat fuel ->
  exists l s', parse_descriptors al d fuel c found p limit s =
      inr ((with_functions c l, Some (found || bool_decide (xs <> []))), s') /\
    map view_function l = fold_left file_spec xs (map view_function (functions c)) /\ grows s s'.
Proof using Hal.
  induction xs as [|x xs IH]; intros fuel c found p limit s Hok Hh Hl Hafter Hfound Hf; (destruct fuel as [|fuel]; [lia|]); cbn [parse_descriptors].
  - unfold total in Hl. cbn [map concat length] in Hl. rewrite (proj2 (Z.ltb_ge p limit)) by lia.
    exists (functions c), s. rewrite orb_false_r. split; [by destruct c|]. split; [done|apply grows_refl].
  - inversion Hok as [|? ? Hx Hxs]; subst. rewrite total_cons in *. cbn [map concat] in Hh. pose proof (holds_app _ _ _ _ Hh) as [Hhx Hhr].
    pose proof (length_interface x) as Hlen. pose proof (total_nonneg item_bytes (is_items x)). pose proof (total_nonneg interface_bytes xs).
    destruct (interface_head x p Hhx) as [Hsz Hty].
    rewrite (proj2 (Z.ltb_lt p _)) by lia. unfold GetDescriptorType, GetDescriptorSize. rewrite Hsz, Hty. cbn [Z.eqb Pos.eqb].
    assert (Hnext : d (p + Z.of_nat (length (interface_bytes x)) + 1) <> 0x30).
    { destruct xs as [|y ys].
      - unfold total in Hafter. cbn [map concat length] in Hafter. by replace (p + (Z.of_nat (length (interface_bytes x)) + Z.of_nat 0) + 1) with
          (p + Z.of_nat (length (interface_bytes x)) + 1) in Hafter by lia.
      - cbn [map concat] in Hhr. apply holds_app in Hhr as [Hhy _]. by destruct (interface_head y _ Hhy) as [_ ->]. }
    destruct (parse_interface_spec al d Hal x fuel p (p + (Z.of_nat (length (interface_bytes x)) + total interface_bytes xs)) s Hx Hhx ltac:(lia) Hnext ltac:(lia))
      as (i & s1 & Hr & Hv & Hg1).
    rewrite (bind_run _ _ _ _ _ Hr).
    destruct (place_spec c (mkInterfaceWrapper (is_class x) (is_subclass x) (is_protocol x) i) s1) as (l & added & s2 & Hp & Hview & Hadd & Hg2).
    cbn [interfaceClass interfaceSubClass interfaceProtocol iw_descriptor] in *.
    assert (Hft : found || added = true) by (destruct Hadd as [-> |Hne]; [by rewrite orb_true_r|by destruct Hfound as [?| ->]]).
    destruct (IH fuel (with_functions c l) (found || added) (p + Z.of_nat (length (interface_bytes x)))
      (p + (Z.of_nat (length (interface_bytes x)) + total interface_bytes xs)) s2 Hxs Hhr ltac:(lia) Hafter ltac:(by right) ltac:(lia)) as (l' & s' & Hrun & Hl' & Hg3).
    exists l', s'. cbn [with_functions functions] in Hl'. split; [|split; [cbn [fold_left]; unfold file_spec at 2; by rewrite Hl', Hview, Hv|by eapply grows_trans; [|eapply grows_trans]]].
    rewrite Hft in Hrun. cbn [orb] in Hrun. rewrite (bool_decide_eq_true_2 (x :: xs <> [])) by done. rewrite orb_true_r.
    unfold place in Hp. cbn [interfaceClass interfaceSubClass interfaceProtocol iw_descriptor] in *.
    destruct (GetFunction c (is_class x) (is_subclass x) (is_protocol x)) as [fi|].
    + rewrite (bind_run _ _ _ _ _ Hp), Hft. exact Hrun.
    + destruct (AddFunction_succeeds c (new_function (is_class x) (is_subclass x) (is_protocol x) 0) s1) as (c1 & fi & s3 & Ha).
      rewrite (bind_run _ _ _ _ _ Ha) in Hp. rewrite (bind_run _ _ _ _ _ Ha). rewrite (bind_run _ _ _ _ _ Hp), Hft. exact Hrun.
Qed.

End Loop.

(** ** The whole configuration *)

Record configuration_spec := mkConfigurationSpec {
  cs_interfaces_number : Z; cs_value : Z; cs_index : Z; cs_attributes : Z; cs_power : Z; cs_interfaces : list interface_spec }.

Definition configuration_size (x : configuration_spec) : Z := 9 + total interface_bytes (cs_interfaces x).

Definition configuration_bytes (x : configuration_spec) : list Z :=
  [9; 2; configuration_size x mod 256; configuration_size x / 256; cs_interfaces_number x; cs_value x; cs_index x; cs_attributes x; cs_power x]
  ++ concat (map interface_bytes (cs_interfaces x)).

Lemma holds_front d bytes k b : holds d 0 bytes -> 0 <= k -> bytes !! Z.to_nat k = Some b -> d k = b.
Proof. intros H Hk Hb. rewrite <- (Z.add_0_l k). by apply (holds_nth d 0 bytes). Qed.


(** The keyboard of the previous file, and a device with two alternates of one
    interface. *)
Definition keyboard_spec : configuration_spec :=
  mkConfigurationSpec 1 1 0 0xA0 50 [mkInterfaceSpec 0 0 3 1 1 0
    [mkItem [mkExtraSpec 0x21 [0x11; 1; 0; 1; 0x22; 63; 0]] (mkEndpointSpec 1 true 3 0 8 10)]].

Example keyboard_spec_bytes : configuration_bytes keyboard_spec = keyboard_bytes.
Proof. reflexivity. Qed.

Lemma buffer_of_holds bytes : holds (buffer_of bytes) 0 bytes.
Proof.
  intros i b Hi. unfold buffer_of. rewrite (proj2 (Z.ltb_ge _ _)) by lia. replace (Z.to_nat (0 + Z.of_nat i)) with i by lia.
  by apply nth_lookup_Some with (d := 0) in Hi.
Qed.

