(* ===== verification/HidKeyboard.v ===== *)
(** * Component: the USB keyboard
    ([kernel/src/devices/USB/HID/Keyboard.cpp],
    [kernel/include/devices/USB/HID/Keyboard.hpp])

    The reports a keyboard declares, built item by item while its report
    descriptor is parsed, and what it does with a report: the bitmaps of keys,
    the packets sent to the keyboard multiplexer, the repetition of held keys.
    Objects of the heap are the blocks of [UsbDescriptors]; a pointer to a
    collection is the block it lives in.  Reading the report outside of its
    buffer is the fault [WildAccess]. *)
From S2P Require Import Prelude UsbDescriptors Keypoints.

(** ** What the report parser hands to a device ([HID/Driver.hpp]) *)

Record GlobalState := mkGlobal {
  gl_usagePage : Z; gl_logicalMinimum : Z; gl_logicalMaximum : Z;
  gl_reportSize : Z; gl_reportID : Z; gl_reportCount : Z }.
Record LocalState := mkLocal { lc_usage : Z; lc_usageMinimum : Z; lc_usageMaximum : Z }.

Record IOConfiguration := mkIO {
  io_constant : bool; io_variable : bool; io_relative : bool; io_wrap : bool; io_nonLinear : bool;
  io_noPreferred : bool; io_nullState : bool; io_volatile : bool; io_bufferedBytes : bool }.

Inductive CollectionType := Physical | Application | Logical | CT_Report | NamedArray | UsageSwitch | UsageModifier.

#[global] Instance CollectionType_eq_dec : EqDecision CollectionType.
Proof. solve_decision. Defined.

(** ** State *)

(** Lists of items, reports and collections are newest first, as the pointers
    of the source link them. *)
Record Item := mkItem {
  it_block : option nat; isConstant : bool; usage_page : Z; usage_minimum : Z; usage_maximum : Z;
  logical_minimum : Z; logical_maximum : Z; offset : Z; size : Z; count : Z }.

Record Report := mkReport { rp_block : nat; id : Z; items : list Item }.

Record ReportCollection := mkCollection {
  rc_block : nat; parent : option nat; inputReports : list Report; outputReports : list Report }.

Definition BITMAP_SIZE : Z := 256.
Definition BITMAP_ENTRY_BITS : Z := 64.
Definition BITMAP_ENTRIES : Z := BITMAP_SIZE / BITMAP_ENTRY_BITS.
Definition KEY_REPEAT_DELAY_MS : Z := 500.
Definition KEY_REPEAT_RATE_MS : Z := 50.

Record Keyboard := mkKeyboard {
  collections : list ReportCollection;
  currentCollection : option nat;
  max_report_size : Z;
  current_keys_bitmap : Z -> Z;
  previous_keys_bitmap : Z -> Z;
  keys_press_timestamp : Z -> Z;
  keys_repeat_timestamp : Z -> Z }.

Definition new_Keyboard : Keyboard :=
  mkKeyboard [] None 0 (fun _ => 0) (fun _ => 0) (fun _ => 0) (fun _ => 0).

Definition with_collections (k : Keyboard) (l : list ReportCollection) : Keyboard :=
  mkKeyboard l (currentCollection k) (max_report_size k) (current_keys_bitmap k) (previous_keys_bitmap k)
    (keys_press_timestamp k) (keys_repeat_timestamp k).
Definition with_current (k : Keyboard) (c : option nat) : Keyboard :=
  mkKeyboard (collections k) c (max_report_size k) (current_keys_bitmap k) (previous_keys_bitmap k)
    (keys_press_timestamp k) (keys_repeat_timestamp k).
Definition with_max_size (k : Keyboard) (n : Z) : Keyboard :=
  mkKeyboard (collections k) (currentCollection k) n (current_keys_bitmap k) (previous_keys_bitmap k)
    (keys_press_timestamp k) (keys_repeat_timestamp k).
Definition with_bitmaps (k : Keyboard) (current previous : Z -> Z) : Keyboard :=
  mkKeyboard (collections k) (currentCollection k) (max_report_size k) current previous
    (keys_press_timestamp k) (keys_repeat_timestamp k).
Definition with_timestamps (k : Keyboard) (press repeat : Z -> Z) : Keyboard :=
  mkKeyboard (collections k) (currentCollection k) (max_report_size k) (current_keys_bitmap k)
    (previous_keys_bitmap k) press repeat.

(** [sizeof] of the objects, with their padding. *)
Definition SIZEOF_ITEM : Z := 48.
Definition SIZEOF_REPORT : Z := 24.
Definition SIZEOF_COLLECTION : Z := 32.

(** ** Reports *)

(** The end of the newest item, in 32-bit arithmetic. *)
Definition items_end (l : list Item) : Z :=
  match l with
  | [] => 0
  | it :: _ => u32 (offset it + size it * count it)
  end.

Definition GetReportSize (r : Report) : Z :=
  match items r with
  | [] => 0
  | _ => (items_end (items r) + 7) / 8
  end.

(** [Report::Release]: the items; the block of the report is freed by the caller. *)
Fixpoint free_items (l : list Item) : M unit :=
  match l with
  | [] => mret tt
  | it :: l => Free (it_block it) ≫= fun _ => free_items l
  end.

Definition Report_Release (r : Report) : M unit := free_items (items r).

Fixpoint free_reports (l : list Report) : M unit :=
  match l with
  | [] => mret tt
  | r :: l => Report_Release r ≫= fun _ => Free (Some (rp_block r)) ≫= fun _ => free_reports l
  end.

Definition Collection_Release (c : ReportCollection) : M unit :=
  free_reports (inputReports c) ≫= fun _ => free_reports (outputReports c).

Fixpoint free_collections (l : list ReportCollection) : M unit :=
  match l with
  | [] => mret tt
  | c :: l => Collection_Release c ≫= fun _ => Free (Some (rc_block c)) ≫= fun _ => free_collections l
  end.

Definition Keyboard_Release (k : Keyboard) : M Keyboard :=
  free_collections (collections k) ≫= fun _ => mret (with_collections k []).

Definition reports_of (c : ReportCollection) (input : bool) : list Report :=
  if input then inputReports c else outputReports c.

Definition GetReport (c : ReportCollection) (reportID : Z) (input : bool) : option Report :=
  find (fun r => id r =? reportID) (reports_of c input).

(** ** Queries *)

Definition GENERIC_DESKTOP_CONTROLS : Z := 0x01.
Definition GENERIC_KEYBOARD : Z := 0x06.
Definition KEYBOARD_KEYPAD : Z := 0x07.
Definition LEDS : Z := 0x08.

Definition Keyboard_IsUsageSupported (page usage : Z) : bool :=
  if page =? GENERIC_DESKTOP_CONTROLS then usage =? GENERIC_KEYBOARD
  else (page =? KEYBOARD_KEYPAD) || (page =? LEDS).

Definition IsReportSupported (k : Keyboard) (reportID : Z) (input : bool) : bool :=
  existsb (fun c => existsb (fun r => id r =? reportID) (reports_of c input)) (collections k).

Definition larger (n : Z) (r : Report) : Z := if n <? GetReportSize r then GetReportSize r else n.

Definition GetMaxReportSize (k : Keyboard) : Z * Keyboard :=
  if max_report_size k =? 0 then
    let n := foldl (fun n c => foldl larger (foldl larger n (inputReports c)) (outputReports c)) 0 (collections k) in
    (n, with_max_size k n)
  else (max_report_size k, k).

(** ** The table of keypoints *)

Definition VK_INVALID : Z := 0x00.

(** The entries from 0xE8 on have no initialiser. *)
Definition KEYPOINT_TABLE : list Z := [
  KEYPOINT 0 0; KEYPOINT 0 0; KEYPOINT 0 0; KEYPOINT 0 0;
  KEYPOINT 5 1; KEYPOINT 6 6; KEYPOINT 6 4; KEYPOINT 5 3;
  KEYPOINT 4 3; KEYPOINT 5 4; KEYPOINT 5 5; KEYPOINT 5 6;
  KEYPOINT 4 8; KEYPOINT 5 7; KEYPOINT 5 8; KEYPOINT 5 9;
  KEYPOINT 6 8; KEYPOINT 6 7; KEYPOINT 4 9; KEYPOINT 4 10;
  KEYPOINT 4 1; KEYPOINT 4 4; KEYPOINT 5 2; KEYPOINT 4 5;
  KEYPOINT 4 7; KEYPOINT 6 5; KEYPOINT 4 2; KEYPOINT 6 3;
  KEYPOINT 4 6; KEYPOINT 6 2; KEYPOINT 3 1; KEYPOINT 3 2;
  KEYPOINT 3 3; KEYPOINT 3 4; KEYPOINT 3 5; KEYPOINT 3 6;
  KEYPOINT 3 7; KEYPOINT 3 8; KEYPOINT 3 9; KEYPOINT 3 10;
  KEYPOINT 5 13; KEYPOINT 2 0; KEYPOINT 3 13; KEYPOINT 4 0;
  KEYPOINT 7 6; KEYPOINT 3 11; KEYPOINT 3 12; KEYPOINT 4 11;
  KEYPOINT 4 12; KEYPOINT 4 13; KEYPOINT 0 0; KEYPOINT 5 10;
  KEYPOINT 5 11; KEYPOINT 3 0; KEYPOINT 6 9; KEYPOINT 6 10;
  KEYPOINT 6 11; KEYPOINT 5 0; KEYPOINT 2 1; KEYPOINT 2 2;
  KEYPOINT 2 3; KEYPOINT 2 4; KEYPOINT 2 5; KEYPOINT 2 6;
  KEYPOINT 2 7; KEYPOINT 2 8; KEYPOINT 2 9; KEYPOINT 2 10;
  KEYPOINT 2 11; KEYPOINT 2 12; KEYPOINT 1 13; KEYPOINT 1 14;
  KEYPOINT 1 15; KEYPOINT 2 13; KEYPOINT 2 14; KEYPOINT 2 15;
  KEYPOINT 3 14; KEYPOINT 3 15; KEYPOINT 4 14; KEYPOINT 7 14;
  KEYPOINT 7 12; KEYPOINT 7 13; KEYPOINT 6 13; KEYPOINT 3 16;
  KEYPOINT 3 17; KEYPOINT 3 18; KEYPOINT 3 19; KEYPOINT 5 19;
  KEYPOINT 7 19; KEYPOINT 6 16; KEYPOINT 6 17; KEYPOINT 6 18;
  KEYPOINT 5 16; KEYPOINT 5 17; KEYPOINT 5 18; KEYPOINT 4 16;
  KEYPOINT 4 17; KEYPOINT 4 18; KEYPOINT 7 16; KEYPOINT 7 18;
  KEYPOINT 0 0; KEYPOINT 7 10; KEYPOINT 0 0; KEYPOINT 0 0;
  KEYPOINT 1 1; KEYPOINT 1 2; KEYPOINT 1 3; KEYPOINT 1 4;
  KEYPOINT 1 5; KEYPOINT 1 6; KEYPOINT 1 7; KEYPOINT 1 8;
  KEYPOINT 1 9; KEYPOINT 1 10; KEYPOINT 1 11; KEYPOINT 1 12;
  KEYPOINT 0 0; KEYPOINT 0 0; KEYPOINT 0 0; KEYPOINT 0 0;
  KEYPOINT 0 0; KEYPOINT 0 0; KEYPOINT 0 0; KEYPOINT 0 0;
  KEYPOINT 0 0; KEYPOINT 0 0; KEYPOINT 0 0; KEYPOINT 0 0;
  KEYPOINT 0 0; KEYPOINT 0 0; KEYPOINT 0 0; KEYPOINT 0 0;
  KEYPOINT 0 0; KEYPOINT 0 0; KEYPOINT 0 0; KEYPOINT 0 0;
  KEYPOINT 0 0; KEYPOINT 0 0; KEYPOINT 0 0; KEYPOINT 0 0;
  KEYPOINT 0 0; KEYPOINT 0 0; KEYPOINT 0 0; KEYPOINT 0 0;
  KEYPOINT 0 0; KEYPOINT 0 0; KEYPOINT 0 0; KEYPOINT 0 0;
  KEYPOINT 0 0; KEYPOINT 0 0; KEYPOINT 0 0; KEYPOINT 0 0;
  KEYPOINT 0 0; KEYPOINT 0 0; KEYPOINT 0 0; KEYPOINT 0 0;
  KEYPOINT 0 0; KEYPOINT 0 0; KEYPOINT 0 0; KEYPOINT 0 0;
  KEYPOINT 0 0; KEYPOINT 0 0; KEYPOINT 0 0; KEYPOINT 0 0;
  KEYPOINT 0 0; KEYPOINT 0 0; KEYPOINT 0 0; KEYPOINT 0 0;
  KEYPOINT 0 0; KEYPOINT 0 0; KEYPOINT 0 0; KEYPOINT 0 0;
  KEYPOINT 0 0; KEYPOINT 0 0; KEYPOINT 0 0; KEYPOINT 0 0;
  KEYPOINT 0 0; KEYPOINT 0 0; KEYPOINT 0 0; KEYPOINT 0 0;
  KEYPOINT 0 0; KEYPOINT 0 0; KEYPOINT 0 0; KEYPOINT 0 0;
  KEYPOINT 0 0; KEYPOINT 0 0; KEYPOINT 0 0; KEYPOINT 0 0;
  KEYPOINT 0 0; KEYPOINT 0 0; KEYPOINT 0 0; KEYPOINT 0 0;
  KEYPOINT 0 0; KEYPOINT 0 0; KEYPOINT 0 0; KEYPOINT 0 0;
  KEYPOINT 0 0; KEYPOINT 0 0; KEYPOINT 0 0; KEYPOINT 0 0;
  KEYPOINT 0 0; KEYPOINT 0 0; KEYPOINT 0 0; KEYPOINT 0 0;
  KEYPOINT 0 0; KEYPOINT 0 0; KEYPOINT 0 0; KEYPOINT 0 0;
  KEYPOINT 0 0; KEYPOINT 0 0; KEYPOINT 0 0; KEYPOINT 0 0;
  KEYPOINT 0 0; KEYPOINT 0 0; KEYPOINT 0 0; KEYPOINT 0 0;
  KEYPOINT 0 0; KEYPOINT 0 0; KEYPOINT 0 0; KEYPOINT 0 0;
  KEYPOINT 0 0; KEYPOINT 0 0; KEYPOINT 0 0; KEYPOINT 0 0;
  KEYPOINT 7 0; KEYPOINT 6 0; KEYPOINT 7 2; KEYPOINT 7 1;
  KEYPOINT 7 11; KEYPOINT 6 12; KEYPOINT 7 8; KEYPOINT 7 9
] ++ replicate 24 0.

Definition GetKeypoint (usage : Z) : Z :=
  if usage <? 0x100 then default 0 (KEYPOINT_TABLE !! Z.to_nat usage) else VK_INVALID.

Definition RepeatableUsage (usage : Z) : bool :=
  if (0x04 <=? usage) && (usage <=? 0x27) then true
  else if (0x2A <=? usage) && (usage <=? 0x38) then true
  else if (usage =? 0x28) || (usage =? 0x4B) || (usage =? 0x4E) || (usage =? 0x4C) then true
  else if (0x4F <=? usage) && (usage <=? 0x52) then true
  else if (0x58 <=? usage) && (usage <=? 0x64) then true
  else usage =? 0x67.

(** ** The bitmaps *)

Definition entry_mask (usage : Z) : Z := Z.shiftl 1 (usage mod BITMAP_ENTRY_BITS).

Definition KeyStateChanged (k : Keyboard) (usage : Z) : bool :=
  if BITMAP_SIZE <=? usage then false
  else negb (Z.land (current_keys_bitmap k (usage / BITMAP_ENTRY_BITS)) (entry_mask usage)
             =? Z.land (previous_keys_bitmap k (usage / BITMAP_ENTRY_BITS)) (entry_mask usage)).

Definition SetKeyPressed (usage : Z) (bitmap : Z -> Z) : Z -> Z :=
  if BITMAP_SIZE <=? usage then bitmap
  else <[usage / BITMAP_ENTRY_BITS := Z.lor (bitmap (usage / BITMAP_ENTRY_BITS)) (entry_mask usage)]> bitmap.

Definition HandleKeyUsage (usage : Z) (pressed : bool) (bitmap : Z -> Z) : Z -> Z :=
  if pressed then SetKeyPressed usage bitmap else bitmap.

Definition RollBitmapsOver (k : Keyboard) : Keyboard :=
  let '(current, previous) :=
    foldl (fun '(c, p) i => (<[i := 0]> c, <[i := c i]> p))
      (current_keys_bitmap k, previous_keys_bitmap k) (seqZ 0 BITMAP_ENTRIES) in
  with_bitmaps k current previous.

(** [USAGES] and [FLAGS] of [GetKeyFlags]; the flags of [Keypacket.hpp]. *)
Definition modifiers : list (Z * Z) :=
  [(0xE0, 0x01); (0xE1, 0x02); (0xE2, 0x04); (0xE3, 0x08); (0xE4, 0x10); (0xE5, 0x20); (0xE6, 0x40); (0xE7, 0x80)].
Definition FLAG_KEY_PRESSED : Z := 0x100.

Definition GetKeyFlags (k : Keyboard) : Z :=
  foldl (fun flags '(usage, flag) =>
    if negb (Z.land (current_keys_bitmap k (usage / BITMAP_ENTRY_BITS)) (entry_mask usage) =? 0)
    then Z.lor flags flag else flags) 0 modifiers.

(** ** Packets *)

Record BasicKeyPacket := mkPacket { scancode : Z; keypoint : Z; flags : Z }.

(** A handler of one key: the keyboard after it and what it wrote to the
    keyboard multiplexer. *)
Definition OnKeyPressed (usage kflags timestamp : Z) (k : Keyboard) : Keyboard * list BasicKeyPacket :=
  if negb (GetKeypoint usage =? VK_INVALID) then
    let k := if (usage <? BITMAP_SIZE) && RepeatableUsage usage
             then with_timestamps k (<[usage := timestamp]> (keys_press_timestamp k)) (keys_repeat_timestamp k) else k in
    (k, [mkPacket (u8 usage) (GetKeypoint usage) (Z.lor kflags FLAG_KEY_PRESSED)])
  else (k, []).

Definition OnKeyReleased (usage kflags : Z) (k : Keyboard) : Keyboard * list BasicKeyPacket :=
  if negb (GetKeypoint usage =? VK_INVALID) then
    let k := if usage <? BITMAP_SIZE
             then with_timestamps k (<[usage := 0]> (keys_press_timestamp k)) (<[usage := 0]> (keys_repeat_timestamp k)) else k in
    (k, [mkPacket (u8 usage) (GetKeypoint usage) (Z.land kflags (bnot 16 FLAG_KEY_PRESSED))])
  else (k, []).

Definition OnKeyHeld (usage kflags timestamp : Z) (k : Keyboard) : Keyboard * list BasicKeyPacket :=
  if usage <? BITMAP_SIZE then
    let press_time := keys_press_timestamp k usage in
    let repeat_time := keys_repeat_timestamp k usage in
    if negb (press_time =? 0) && (KEY_REPEAT_DELAY_MS <=? u64 (timestamp - press_time))
       && (KEY_REPEAT_RATE_MS <=? u64 (timestamp - repeat_time)) then
      let k := with_timestamps k (keys_press_timestamp k) (<[usage := timestamp]> (keys_repeat_timestamp k)) in
      (k, if negb (GetKeypoint usage =? VK_INVALID)
          then [mkPacket (u8 usage) (GetKeypoint usage) (Z.lor kflags FLAG_KEY_PRESSED)] else [])
    else (k, [])
  else (k, []).

(** ** A report *)

Definition byte_at (data : list Z) (i : Z) : fault + Z :=
  if i <? 0 then inl WildAccess else
  match data !! Z.to_nat i with Some b => inr b | None => inl WildAccess end.

(** The keys of an item of one-bit fields, from field [j] on. *)
Fixpoint scan_bits (n : nat) (j : Z) (it : Item) (data : list Z) (bitmap : Z -> Z) : fault + (Z -> Z) :=
  match n with
  | O => inr bitmap
  | S n =>
      let bit_index := offset it + j in
      match byte_at data (bit_index / 8) with
      | inl e => inl e
      | inr b =>
          let pressed := negb (Z.land b (Z.shiftl 1 (bit_index mod 8)) =? 0) in
          scan_bits n (j + 1) it data (HandleKeyUsage (u32 (usage_minimum it + j)) pressed bitmap)
      end
  end.

(** The keys of an item of one-byte fields. *)
Fixpoint scan_bytes (n : nat) (j : Z) (it : Item) (data : list Z) (bitmap : Z -> Z) : fault + (Z -> Z) :=
  match n with
  | O => inr bitmap
  | S n =>
      match byte_at data (offset it / 8 + j) with
      | inl e => inl e
      | inr value => scan_bytes n (j + 1) it data (HandleKeyUsage value (negb (value =? 0)) bitmap)
      end
  end.

Definition scan_item (it : Item) (data : list Z) (bitmap : Z -> Z) : fault + (Z -> Z) :=
  if negb (isConstant it) then
    if size it =? 1 then scan_bits (Z.to_nat (count it)) 0 it data bitmap
    else if size it =? 8 then scan_bytes (Z.to_nat (count it)) 0 it data bitmap
    else inr bitmap
  else inr bitmap.

Fixpoint scan_items (l : list Item) (data : list Z) (bitmap : Z -> Z) : fault + (Z -> Z) :=
  match l with
  | [] => inr bitmap
  | it :: l =>
      match scan_item it data bitmap with
      | inl e => inl e
      | inr bitmap => scan_items l data bitmap
      end
  end.

(** The bitmap after every collection, and whether none of them returned early. *)
Fixpoint scan_collections (l : list ReportCollection) (report_id : Z) (data : list Z) (length : Z) (bitmap : Z -> Z)
    : fault + ((Z -> Z) * bool) :=
  match l with
  | [] => inr (bitmap, true)
  | c :: l =>
      match GetReport c report_id true with
      | None => scan_collections l report_id data length bitmap
      | Some report =>
          if length <? GetReportSize report then inr (bitmap, false)
          else
            match scan_items (items report) data bitmap with
            | inl e => inl e
            | inr bitmap => scan_collections l report_id data length bitmap
            end
      end
  end.

(** One key of the final loop. *)
Definition update_key (kflags timestamp : Z) (k : Keyboard) (i : Z) : Keyboard * list BasicKeyPacket :=
  let pressed := negb (Z.land (current_keys_bitmap k (i / BITMAP_ENTRY_BITS)) (entry_mask i) =? 0) in
  if KeyStateChanged k i then
    if pressed then OnKeyPressed i kflags timestamp k else OnKeyReleased i kflags k
  else if pressed && RepeatableUsage i then OnKeyHeld i kflags timestamp k
  else (k, []).

Fixpoint update_keys (l : list Z) (kflags timestamp : Z) (k : Keyboard) : Keyboard * list BasicKeyPacket :=
  match l with
  | [] => (k, [])
  | i :: l =>
      let '(k, packets) := update_key kflags timestamp k i in
      let '(k, more) := update_keys l kflags timestamp k in
      (k, packets ++ more)
  end.

(** [timestamp] is the count of milliseconds read from the timer. *)
Definition UpdateKeys (report_id : Z) (data : list Z) (length timestamp : Z) (k : Keyboard)
    : fault + (Keyboard * list BasicKeyPacket) :=
  match scan_collections (collections k) report_id data length (current_keys_bitmap k) with
  | inl e => inl e
  | inr (bitmap, complete) =>
      let k := with_bitmaps k bitmap (previous_keys_bitmap k) in
      if complete then inr (update_keys (seqZ 0 BITMAP_SIZE) (GetKeyFlags k) timestamp k) else inr (k, [])
  end.

Definition Keyboard_HandleReport (report_id : Z) (data : list Z) (length timestamp : Z) (k : Keyboard)
    : fault + (Keyboard * list BasicKeyPacket) :=
  match UpdateKeys report_id data length timestamp k with
  | inl e => inl e
  | inr (k, packets) => inr (RollBitmapsOver k, packets)
  end.

(** ** Building the reports *)

Section Build.
Context (allocates : nat -> Z -> bool).

Definition AddItem (item : Item) (r : Report) : M (bool * Report) :=
  Allocate allocates SIZEOF_ITEM ≫= fun raw =>
  match raw with
  | None => mret (false, r)
  | Some b =>
      let newItem := mkItem (Some b) (isConstant item) (usage_page item) (usage_minimum item) (usage_maximum item)
        (logical_minimum item) (logical_maximum item) (items_end (items r)) (size item) (count item) in
      mret (true, mkReport (rp_block r) (id r) (newItem :: items r))
  end.

Definition with_reports (c : ReportCollection) (input : bool) (l : list Report) : ReportCollection :=
  if input then mkCollection (rc_block c) (parent c) l (outputReports c)
  else mkCollection (rc_block c) (parent c) (inputReports c) l.

Definition AddReport (reportID : Z) (input : bool) (c : ReportCollection) : M (option ReportCollection) :=
  Allocate allocates SIZEOF_REPORT ≫= fun raw =>
  match raw with
  | None => mret None
  | Some b => mret (Some (with_reports c input (mkReport b reportID [] :: reports_of c input)))
  end.

(** The report of that identifier, replaced. *)
Fixpoint set_report (reportID : Z) (r : Report) (l : list Report) : list Report :=
  match l with
  | [] => []
  | r0 :: l => if id r0 =? reportID then r :: l else r0 :: set_report reportID r l
  end.

(** The collection at [block], replaced. *)
Fixpoint set_collection (block : nat) (c : ReportCollection) (l : list ReportCollection) : list ReportCollection :=
  match l with
  | [] => []
  | c0 :: l => if Nat.eqb (rc_block c0) block then c :: l else c0 :: set_collection block c l
  end.

Definition AddReportItem (g : GlobalState) (l : LocalState) (config : IOConfiguration) (input : bool) (k : Keyboard)
    : M (bool * Keyboard) :=
  if io_variable config && negb (gl_reportSize g =? 1) then mret (false, k)
  else
    match currentCollection k with
    | None => mret (false, k)
    | Some current =>
        match find (fun c => Nat.eqb (rc_block c) current) (collections k) with
        | None => die WildAccess
        | Some c =>
            (match GetReport c (gl_reportID g) input with
             | Some report => mret (Some (c, report))
             | None =>
                 AddReport (gl_reportID g) input c ≫= fun added =>
                 match added with
                 | None => mret None
                 | Some c => mret ((fun r => (c, r)) <$> GetReport c (gl_reportID g) input)
                 end
             end) ≫= fun found =>
            match found with
            | None => mret (false, k)
            | Some (c, report) =>
                AddItem (mkItem None (io_constant config) (gl_usagePage g) (lc_usageMinimum l) (lc_usageMaximum l)
                  (gl_logicalMinimum g) (gl_logicalMaximum g) 0 (gl_reportSize g) (gl_reportCount g)) report ≫= fun '((ok, report) : bool * Report) =>
                let c := with_reports c input (set_report (gl_reportID g) report (reports_of c input)) in
                mret (ok, with_collections k (set_collection current c (collections k)))
            end
        end
    end.

Definition Keyboard_AddInput (g : GlobalState) (l : LocalState) (config : IOConfiguration) (k : Keyboard) : M (bool * Keyboard) :=
  AddReportItem g l config true k.
Definition Keyboard_AddOutput (g : GlobalState) (l : LocalState) (config : IOConfiguration) (k : Keyboard) : M (bool * Keyboard) :=
  AddReportItem g l config false k.

Definition Keyboard_StartCollection (type : CollectionType) (k : Keyboard) : M (bool * Keyboard) :=
  if negb (bool_decide (type = Application)) then mret (false, k)
  else
    Allocate allocates SIZEOF_COLLECTION ≫= fun raw =>
    match raw with
    | None => mret (false, k)
    | Some b =>
        let newCollection := mkCollection b (currentCollection k) [] [] in
        mret (true, with_current (with_collections k (newCollection :: collections k)) (Some b))
    end.

Definition Keyboard_EndCollection (k : Keyboard) : M (bool * Keyboard) :=
  match currentCollection k with
  | None => mret (false, k)
  | Some current =>
      match find (fun c => Nat.eqb (rc_block c) current) (collections k) with
      | None => die WildAccess
      | Some c => mret (true, with_current k (parent c))
      end
  end.
End Build.
