(* ===== verification/HidKeyboardProps.v ===== *)
(** * Theorems on the USB keyboard

    The bitmaps as sets of keys, the layout of the items of a report, and what
    a report makes the keyboard send. *)
From S2P Require Import Prelude UsbDescriptors Keypoints HidKeyboard.

(** ** Keys of a bitmap *)

Definition down (bitmap : Z -> Z) (u : Z) : bool := Z.testbit (bitmap (u / BITMAP_ENTRY_BITS)) (u mod BITMAP_ENTRY_BITS).

Lemma mask_down bitmap u : negb (Z.land (bitmap (u / BITMAP_ENTRY_BITS)) (entry_mask u) =? 0) = down bitmap u.
Proof. apply hasbit_testbit. by apply Z.mod_pos_bound. Qed.

Lemma land_entry_mask x u : Z.land x (entry_mask u) = if Z.testbit x (u mod BITMAP_ENTRY_BITS) then entry_mask u else 0.
Proof.
  unfold entry_mask. assert (H : 0 <= u mod BITMAP_ENTRY_BITS) by by apply Z.mod_pos_bound.
  apply Z.bits_inj'. intros i Hi. rewrite Z.land_spec, testbit_1_shiftl by done.
  destruct (Z.eqb_spec i (u mod BITMAP_ENTRY_BITS)) as [->|Hn].
  - rewrite andb_true_r. destruct (Z.testbit x _) eqn:E; [by rewrite testbit_1_shiftl, Z.eqb_refl|by rewrite Z.bits_0].
  - rewrite andb_false_r. destruct (Z.testbit x (u mod _)); [|by rewrite Z.bits_0].
    rewrite testbit_1_shiftl by done. symmetry. by apply Z.eqb_neq.
Qed.

Lemma entry_mask_nonzero u : entry_mask u <> 0.
Proof. unfold entry_mask. rewrite Z.shiftl_1_l. pose proof (pow2_pos (u mod BITMAP_ENTRY_BITS)). enough (0 <= u mod BITMAP_ENTRY_BITS) by lia. by apply Z.mod_pos_bound. Qed.

Lemma KeyStateChanged_down k u :
  u < BITMAP_SIZE -> KeyStateChanged k u = xorb (down (current_keys_bitmap k) u) (down (previous_keys_bitmap k) u).
Proof.
  intros Hu. unfold KeyStateChanged. assert ((BITMAP_SIZE <=? u) = false) as -> by by apply Z.leb_gt.
  rewrite !land_entry_mask. unfold down. pose proof (entry_mask_nonzero u) as Hm.
  destruct (Z.testbit (current_keys_bitmap k _) _), (Z.testbit (previous_keys_bitmap k _) _); cbn [xorb].
  - by rewrite Z.eqb_refl.
  - apply negb_true_iff. by apply Z.eqb_neq.
  - apply negb_true_iff. apply Z.eqb_neq. by apply not_eq_sym.
  - done.
Qed.

Lemma down_SetKeyPressed v bitmap u :
  0 <= u < BITMAP_SIZE -> down (SetKeyPressed v bitmap) u = down bitmap u || (u =? v).
Proof.
  intros Hu. unfold SetKeyPressed. destruct (Z.leb_spec BITMAP_SIZE v) as [Hv|Hv].
  { assert ((u =? v) = false) as -> by (apply Z.eqb_neq; lia). by rewrite orb_false_r. }
  unfold down. rewrite upd_lookup. unfold BITMAP_ENTRY_BITS in *.
  destruct (decide (v / 64 = u / 64)) as [E|E].
  - rewrite E, Z.lor_spec. f_equal. unfold entry_mask, BITMAP_ENTRY_BITS.
    rewrite testbit_1_shiftl by by apply Z.mod_pos_bound. apply Bool.eq_iff_eq_true. rewrite !Z.eqb_eq. split; intros; [|by subst].
    rewrite (Z.div_mod u 64), (Z.div_mod v 64) by done. lia.
  - assert ((u =? v) = false) as -> by (apply Z.eqb_neq; by intros ->). by rewrite orb_false_r.
Qed.

Lemma down_HandleKeyUsage v pressed bitmap u :
  0 <= u < BITMAP_SIZE -> down (HandleKeyUsage v pressed bitmap) u = down bitmap u || (pressed && (u =? v)).
Proof. intros Hu. unfold HandleKeyUsage. destruct pressed; [by apply down_SetKeyPressed|by rewrite orb_false_r]. Qed.

(** Nothing is down between two reports. *)
Definition all_up (bitmap : Z -> Z) : Prop := forall i, 0 <= i < BITMAP_ENTRIES -> bitmap i = 0.

Lemma all_up_down bitmap u : all_up bitmap -> 0 <= u < BITMAP_SIZE -> down bitmap u = false.
Proof.
  intros H Hu. unfold down. rewrite H; [apply Z.bits_0|]. unfold BITMAP_ENTRIES, BITMAP_SIZE, BITMAP_ENTRY_BITS in *. zdiv.
Qed.

(** ** Items in a report *)

(** The bit range an item takes; items are laid out when each starts where the
    one before it ends, and nothing exceeds 32 bits. *)
Definition item_bits (it : Item) : Z := size it * count it.
Definition total_bits (l : list Item) : Z := foldr (fun it n => n + item_bits it) 0 l.

Fixpoint laid_out (l : list Item) : Prop :=
  match l with
  | [] => True
  | it :: l => laid_out l /\ 0 <= size it /\ 0 <= count it /\ offset it = total_bits l
  end.

Definition report_ok (r : Report) : Prop := laid_out (items r) /\ total_bits (items r) < 2 ^ 32.

Lemma total_bits_nonneg l : laid_out l -> 0 <= total_bits l.
Proof. induction l as [|it l IH]; [done|]. intros (Hl & Hs & Hc & _). specialize (IH Hl).
  change (0 <= total_bits l + size it * count it). nia. Qed.

Lemma items_end_total l : laid_out l -> total_bits l < 2 ^ 32 -> items_end l = total_bits l.
Proof.
  destruct l as [|it l]; [done|]. intros H Hlt. pose proof (total_bits_nonneg _ H) as Hn. destruct H as (Hl & Hs & Hc & Ho).
  change (total_bits (it :: l)) with (total_bits l + size it * count it) in *. cbn [items_end]. rewrite Ho. by apply wrap_small.
Qed.

Lemma item_end l it : laid_out l -> it ∈ l -> 0 <= offset it /\ 0 <= size it /\ 0 <= count it /\ offset it + item_bits it <= total_bits l.
Proof.
  induction l as [|x l IH]; [by intros _ ?%elem_of_nil|]. intros (Hl & Hs & Hc & Ho). pose proof (total_bits_nonneg l Hl) as Hn.
  change (total_bits (x :: l)) with (total_bits l + item_bits x). assert (0 <= item_bits x) by (unfold item_bits; nia).
  intros [->|Hin]%elem_of_cons; [rewrite Ho; lia|]. specialize (IH Hl Hin). lia.
Qed.

Lemma report_size_bits r : report_ok r -> GetReportSize r = (total_bits (items r) + 7) / 8.
Proof.
  intros [Hl Ht]. unfold GetReportSize. destruct (items r) as [|it l] eqn:E; [done|]. rewrite <- E in *. by rewrite items_end_total.
Qed.

(** ** What a report says *)

Definition bit_set (data : list Z) (p : Z) : Prop := exists b, byte_at data (p / 8) = inr b /\ Z.testbit b (p mod 8) = true.

Definition item_reports (it : Item) (data : list Z) (u : Z) : Prop :=
  isConstant it = false /\ exists j, 0 <= j < count it /\
    ((size it = 1 /\ bit_set data (offset it + j) /\ u32 (usage_minimum it + j) = u)
     \/ (size it = 8 /\ byte_at data (offset it / 8 + j) = inr u /\ u <> 0)).

Definition items_report (l : list Item) (data : list Z) (u : Z) : Prop := exists it, it ∈ l /\ item_reports it data u.

Definition keyboard_reports (k : Keyboard) (report_id : Z) (data : list Z) (u : Z) : Prop :=
  exists c r, c ∈ collections k /\ GetReport c report_id true = Some r /\ items_report (items r) data u.

(** The outcome of a scan: the keys that were down, and those the report names. *)
Definition scanned (bitmap : Z -> Z) (named : Z -> Prop) (r : fault + (Z -> Z)) : Prop :=
  exists bitmap', r = inr bitmap' /\
    forall u, 0 <= u < BITMAP_SIZE -> down bitmap' u = true <-> down bitmap u = true \/ named u.

Lemma byte_in data i : 0 <= i < Z.of_nat (length data) -> exists b, byte_at data i = inr b.
Proof.
  intros Hi. unfold byte_at. assert ((i <? 0) = false) as -> by (apply Z.ltb_ge; lia).
  destruct (lookup_lt_is_Some_2 data (Z.to_nat i)) as [b ->]; [lia|]. by exists b.
Qed.

Lemma scan_bits_spec it data : forall n j bitmap,
  0 <= offset it -> 0 <= j -> offset it + j + Z.of_nat n <= 8 * Z.of_nat (length data) ->
  scanned bitmap (fun u => exists i, j <= i < j + Z.of_nat n /\ bit_set data (offset it + i) /\ u32 (usage_minimum it + i) = u)
    (scan_bits n j it data bitmap).
Proof.
  induction n as [|n IH]; intros j bitmap Ho Hj Hlen; cbn [scan_bits].
  { exists bitmap. split; [done|]. intros u Hu. split; [by left|]. intros [?|(i & Hi & _)]; [done|lia]. }
  destruct (byte_in data ((offset it + j) / 8)) as [b Hb]; [zdiv|]. rewrite Hb.
  change (negb (Z.land b (Z.shiftl 1 ((offset it + j) mod 8)) =? 0)) with (hasbit b ((offset it + j) mod 8)).
  rewrite hasbit_testbit by by apply Z.mod_pos_bound. set (pr := Z.testbit b _).
  destruct (IH (j + 1) (HandleKeyUsage (u32 (usage_minimum it + j)) pr bitmap) Ho ltac:(lia) ltac:(lia)) as (bm & -> & Hbm).
  exists bm. split; [done|]. intros u Hu. rewrite (Hbm u Hu), down_HandleKeyUsage, orb_true_iff, andb_true_iff, Z.eqb_eq by done.
  assert (Hset : pr = true <-> bit_set data (offset it + j)).
  { unfold bit_set. rewrite Hb. split; [intros; by exists b|]. by intros (b' & [= <-] & ?). }
  split.
  - intros [[?|[Hp ->]]|(i & Hi & Hx)]; [by left| |].
    + right. exists j. split; [lia|]. split; [by apply Hset|done].
    + right. exists i. split; [lia|done].
  - intros [?|(i & Hi & Hb' & Hu')]; [by left; left|]. destruct (Z.eq_dec i j) as [->|Hn].
    + left. right. split; [by apply Hset|done].
    + right. exists i. split; [lia|done].
Qed.

Lemma scan_bytes_spec it data : forall n j bitmap,
  0 <= offset it -> 0 <= j -> offset it / 8 + j + Z.of_nat n <= Z.of_nat (length data) ->
  scanned bitmap (fun u => exists i, j <= i < j + Z.of_nat n /\ byte_at data (offset it / 8 + i) = inr u /\ u <> 0)
    (scan_bytes n j it data bitmap).
Proof.
  induction n as [|n IH]; intros j bitmap Ho Hj Hlen; cbn [scan_bytes].
  { exists bitmap. split; [done|]. intros u Hu. split; [by left|]. intros [?|(i & Hi & _)]; [done|lia]. }
  destruct (byte_in data (offset it / 8 + j)) as [b Hb]; [zdiv|]. rewrite Hb.
  destruct (IH (j + 1) (HandleKeyUsage b (negb (b =? 0)) bitmap) Ho ltac:(lia) ltac:(lia)) as (bm & -> & Hbm).
  exists bm. split; [done|]. intros u Hu.
  rewrite (Hbm u Hu), down_HandleKeyUsage, orb_true_iff, andb_true_iff, negb_true_iff, Z.eqb_eq, Z.eqb_neq by done.
  split.
  - intros [[?|[Hp ->]]|(i & Hi & Hx)]; [by left| |].
    + right. exists j. split; [lia|]. done.
    + right. exists i. split; [lia|done].
  - intros [?|(i & Hi & Hb' & Hu')]; [by left; left|]. destruct (Z.eq_dec i j) as [->|Hn].
    + left. right. rewrite Hb in Hb'. injection Hb' as ->. done.
    + right. exists i. split; [lia|done].
Qed.

Lemma scanned_mono bitmap P Q r : (forall u, P u <-> Q u) -> scanned bitmap P r -> scanned bitmap Q r.
Proof. intros H (bm & -> & Hb). exists bm. split; [done|]. intros u Hu. by rewrite Hb, H. Qed.

Lemma scan_item_spec it data bitmap :
  0 <= offset it -> 0 <= size it -> 0 <= count it -> offset it + item_bits it <= 8 * Z.of_nat (length data) ->
  scanned bitmap (item_reports it data) (scan_item it data bitmap).
Proof.
  intros Ho Hs Hc Hlen. unfold scan_item, item_bits in *.
  assert (Hsame : (forall u, ~ item_reports it data u) -> scanned bitmap (item_reports it data) (inr bitmap)).
  { intros Hn. exists bitmap. split; [done|]. intros u _. split; [by left|]. by intros [?|?%Hn]. }
  destruct (isConstant it) eqn:Hk; cbn [negb].
  { apply Hsame. intros u (E & _). by rewrite Hk in E. }
  destruct (Z.eqb_spec (size it) 1) as [H1|H1]; [|destruct (Z.eqb_spec (size it) 8) as [H8|H8]].
  - eapply scanned_mono; [|apply scan_bits_spec; [done|lia|rewrite H1 in *; lia]].
    intros u. split.
    + intros (i & Hi & Hb & Hu). split; [done|]. exists i. split; [lia|]. by left.
    + intros (_ & j & Hj & [(_ & Hb & Hu)|(E & _)]); [|lia]. exists j. split; [lia|done].
  - eapply scanned_mono; [|apply scan_bytes_spec; [done|lia|rewrite H8 in *; zdiv]].
    intros u. split.
    + intros (i & Hi & Hb). split; [done|]. exists i. split; [lia|]. by right.
    + intros (_ & j & Hj & [(E & _)|(_ & Hb)]); [lia|]. exists j. split; [lia|done].
  - apply Hsame. intros u (_ & j & _ & [(E & _)|(E & _)]); done.
Qed.

Lemma scan_items_spec l data : forall bitmap,
  (forall it, it ∈ l -> 0 <= offset it /\ 0 <= size it /\ 0 <= count it /\ offset it + item_bits it <= 8 * Z.of_nat (length data)) ->
  scanned bitmap (items_report l data) (scan_items l data bitmap).
Proof.
  induction l as [|it l IH]; intros bitmap Hl; cbn [scan_items].
  { exists bitmap. split; [done|]. intros u _. split; [by left|]. intros [?|(it & Hin & _)]; [done|]. by apply elem_of_nil in Hin. }
  destruct (Hl it ltac:(by left)) as (H1 & H2 & H3 & H4).
  destruct (scan_item_spec it data bitmap H1 H2 H3 H4) as (bm & -> & Hbm).
  destruct (IH bm) as (bm' & -> & Hbm'); [intros x Hx; apply Hl; by right|].
  exists bm'. split; [done|]. intros u Hu. rewrite (Hbm' u Hu), (Hbm u Hu). unfold items_report. split.
  - intros [[?|?]|(x & Hx & ?)]; [by left|right; exists it; split; [by left|done]|right; exists x; split; [by right|done]].
  - intros [?|(x & [->|Hx]%elem_of_cons & ?)]; [by left; left|by left; right|right; by exists x].
Qed.

(** Every matching report is well formed and fits in the bytes given. *)
Definition collection_fits (report_id len : Z) (c : ReportCollection) : Prop :=
  forall r, GetReport c report_id true = Some r -> report_ok r /\ GetReportSize r <= len.

Definition collections_report (l : list ReportCollection) (report_id : Z) (data : list Z) (u : Z) : Prop :=
  exists c r, c ∈ l /\ GetReport c report_id true = Some r /\ items_report (items r) data u.

Lemma scan_collections_spec l report_id data len : forall bitmap,
  Forall (collection_fits report_id len) l -> len <= Z.of_nat (length data) ->
  exists bitmap', scan_collections l report_id data len bitmap = inr (bitmap', true) /\
    forall u, 0 <= u < BITMAP_SIZE -> down bitmap' u = true <-> down bitmap u = true \/ collections_report l report_id data u.
Proof.
  induction l as [|c l IH]; intros bitmap Hl Hlen; cbn [scan_collections].
  { exists bitmap. split; [done|]. intros u _. split; [by left|]. intros [?|(c & r & Hin & _)]; [done|]. by apply elem_of_nil in Hin. }
  apply Forall_cons in Hl as [Hc Hl].
  assert (Hskip : GetReport c report_id true = None -> forall u, collections_report (c :: l) report_id data u <-> collections_report l report_id data u).
  { intros E u. split.
    - intros (c' & r & [->|Hin]%elem_of_cons & Hg & Hr); [by rewrite E in Hg|by exists c', r].
    - intros (c' & r & Hin & Hr). exists c', r. split; [by right|done]. }
  destruct (GetReport c report_id true) as [r|] eqn:E.
  - destruct (Hc r E) as [Hok Hsz]. assert ((len <? GetReportSize r) = false) as -> by by apply Z.ltb_ge.
    rewrite report_size_bits in Hsz by done. destruct Hok as [Hlay Htot].
    destruct (scan_items_spec (items r) data bitmap) as (bm & -> & Hbm).
    { intros it Hit. destruct (item_end _ it Hlay Hit) as (? & ? & ? & ?). split_and!; [done..|].
      assert (8 * ((total_bits (items r) + 7) / 8) >= total_bits (items r)) by zdiv. lia. }
    destruct (IH bm Hl Hlen) as (bm' & -> & Hbm'). exists bm'. split; [done|]. intros u Hu.
    rewrite (Hbm' u Hu), (Hbm u Hu). split.
    + intros [[?|?]|(c' & r' & Hin & Hr)]; [by left| |]; right.
      * exists c, r. split; [by left|done].
      * exists c', r'. split; [by right|done].
    + intros [?|(c' & r' & [->|Hin]%elem_of_cons & Hg & Hr)]; [by left; left| |].
      * rewrite E in Hg. injection Hg as <-. by left; right.
      * right. by exists c', r'.
  - destruct (IH bitmap Hl Hlen) as (bm & -> & Hbm). exists bm. split; [done|]. intros u Hu. by rewrite (Hbm u Hu), Hskip.
Qed.

(** ** What is sent *)

(** The modifiers held, one bit each. *)
Definition modifier_flags (now : Z -> bool) : Z :=
  foldl (fun flags '(usage, flag) => if now usage then Z.lor flags flag else flags) 0 modifiers.

Lemma foldl_ext_flags (f g : Z -> Z * Z -> Z) l x : (forall x y, f x y = g x y) -> foldl f x l = foldl g x l.
Proof. intros H. revert x. induction l as [|y l IH]; intros x; [done|]. cbn [foldl]. by rewrite H. Qed.

Lemma GetKeyFlags_spec k : GetKeyFlags k = modifier_flags (down (current_keys_bitmap k)).
Proof. apply foldl_ext_flags. intros x [u f]. by rewrite mask_down. Qed.

Lemma modifier_flags_range now : 0 <= modifier_flags now < 256.
Proof.
  unfold modifier_flags. cbn [foldl modifiers].
  destruct (now 0xE0), (now 0xE1), (now 0xE2), (now 0xE3), (now 0xE4), (now 0xE5), (now 0xE6), (now 0xE7); vm_compute; done.
Qed.

Definition pressed_packet (kflags u : Z) : BasicKeyPacket := mkPacket u (GetKeypoint u) (kflags + FLAG_KEY_PRESSED).
Definition released_packet (kflags u : Z) : BasicKeyPacket := mkPacket u (GetKeypoint u) kflags.

(** A held key repeats 500 ms after it was pressed, then every 50 ms. *)
Definition repeat_due (k : Keyboard) (timestamp u : Z) : bool :=
  negb (keys_press_timestamp k u =? 0) && (KEY_REPEAT_DELAY_MS <=? u64 (timestamp - keys_press_timestamp k u))
  && (KEY_REPEAT_RATE_MS <=? u64 (timestamp - keys_repeat_timestamp k u)).

Definition key_packets (k : Keyboard) (now : Z -> bool) (timestamp u : Z) : list BasicKeyPacket :=
  if GetKeypoint u =? VK_INVALID then []
  else
    match down (previous_keys_bitmap k) u, now u with
    | false, true => [pressed_packet (modifier_flags now) u]
    | true, false => [released_packet (modifier_flags now) u]
    | true, true => if RepeatableUsage u && repeat_due k timestamp u then [pressed_packet (modifier_flags now) u] else []
    | false, false => []
    end.

Lemma flags_pressed f : 0 <= f < 256 -> Z.lor f FLAG_KEY_PRESSED = f + FLAG_KEY_PRESSED.
Proof. intros Hf. apply lor_add_disjoint. rewrite Z.land_comm. apply (land_shiftl_low 1 f 8); [done|exact Hf]. Qed.

Lemma flags_released f : 0 <= f < 256 -> Z.land f (bnot 16 FLAG_KEY_PRESSED) = f.
Proof.
  intros Hf. apply Z.bits_inj'. intros i Hi. rewrite Z.land_spec.
  destruct (Z.lt_ge_cases i 16) as [H|H].
  - rewrite bnot_testbit by lia. change FLAG_KEY_PRESSED with (2 ^ 8). rewrite Z.pow2_bits_eqb by done.
    destruct (Z.eqb_spec 8 i) as [<-|]; [|by rewrite andb_true_r]. by rewrite (testbit_high 8 f 8) by done.
  - by rewrite (testbit_high 8 f i) by (done || lia).
Qed.

Definition same_times (k k' : Keyboard) (u : Z) : Prop :=
  keys_press_timestamp k' u = keys_press_timestamp k u /\ keys_repeat_timestamp k' u = keys_repeat_timestamp k u.

(** One key: what is sent, and that only its own times change. *)
Lemma update_key_spec k kflags timestamp u :
  0 <= u < BITMAP_SIZE -> kflags = modifier_flags (down (current_keys_bitmap k)) ->
  exists k', update_key kflags timestamp k u = (k', key_packets k (down (current_keys_bitmap k)) timestamp u)
    /\ collections k' = collections k /\ current_keys_bitmap k' = current_keys_bitmap k
    /\ previous_keys_bitmap k' = previous_keys_bitmap k /\ (forall v, v <> u -> same_times k k' v).
Proof.
  intros Hu Hf. pose proof (modifier_flags_range (down (current_keys_bitmap k))) as Hr. rewrite <- Hf in Hr.
  unfold update_key. rewrite mask_down, KeyStateChanged_down by lia. unfold key_packets, pressed_packet, released_packet. rewrite <- Hf.
  assert (Hw : u8 u = u) by by apply wrap_small.
  assert (Hlt : (u <? BITMAP_SIZE) = true) by (apply Z.ltb_lt; lia).
  assert (Hupd : forall (f : Z -> Z) x v, v <> u -> (<[u := x]> f) v = f v) by (intros f x v Hv; by rewrite upd_lookup, decide_False by congruence).
  unfold OnKeyPressed, OnKeyReleased, OnKeyHeld, repeat_due. rewrite Hw, Hlt, flags_pressed, flags_released by done.
  destruct (down (current_keys_bitmap k) u), (down (previous_keys_bitmap k) u), (GetKeypoint u =? VK_INVALID), (RepeatableUsage u);
    cbn [xorb negb andb];
    try (destruct (negb (keys_press_timestamp k u =? 0) && _ && _)); eexists; (split; [reflexivity|]);
    (split; [reflexivity|]); (split; [reflexivity|]); (split; [reflexivity|]); intros v Hv; split; cbn; try reflexivity; by apply Hupd.
Qed.

Lemma key_packets_times k k' now timestamp u :
  previous_keys_bitmap k' = previous_keys_bitmap k -> same_times k k' u -> key_packets k' now timestamp u = key_packets k now timestamp u.
Proof. intros Hp [H1 H2]. unfold key_packets, repeat_due. by rewrite Hp, H1, H2. Qed.

Lemma update_keys_spec timestamp kflags : forall l k,
  NoDup l -> Forall (fun u => 0 <= u < BITMAP_SIZE) l -> kflags = modifier_flags (down (current_keys_bitmap k)) ->
  exists k', update_keys l kflags timestamp k = (k', l ≫= key_packets k (down (current_keys_bitmap k)) timestamp)
    /\ collections k' = collections k /\ current_keys_bitmap k' = current_keys_bitmap k
    /\ previous_keys_bitmap k' = previous_keys_bitmap k.
Proof.
  induction l as [|u l IH]; intros k Hnd Hl Hf; cbn [update_keys]; [by exists k|].
  apply NoDup_cons in Hnd as [Hu Hnd]. apply Forall_cons in Hl as [Hur Hl].
  destruct (update_key_spec k kflags timestamp u Hur Hf) as (k1 & -> & C1 & B1 & P1 & T1).
  destruct (IH k1 Hnd Hl ltac:(by rewrite B1)) as (k2 & -> & C2 & B2 & P2).
  exists k2. rewrite C2, B2, P2. split; [|done]. f_equal. cbn [mbind list_bind]. f_equal. rewrite B1.
  assert (Hin : forall v, v ∈ l -> v <> u) by (by intros v Hv ->). clear -Hin T1 P1.
  induction l as [|v l IHl]; [done|]. cbn [mbind list_bind]. f_equal.
  - apply key_packets_times; [done|]. apply T1, Hin. by left.
  - apply IHl. intros w Hw. apply Hin. by right.
Qed.

Lemma RollBitmapsOver_spec k :
  all_up (current_keys_bitmap (RollBitmapsOver k)) /\ collections (RollBitmapsOver k) = collections k
  /\ forall u, 0 <= u < BITMAP_SIZE -> down (previous_keys_bitmap (RollBitmapsOver k)) u = down (current_keys_bitmap k) u.
Proof.
  split; [|split; [done|]].
  - intros i Hi. change BITMAP_ENTRIES with 4 in Hi.
    assert (Hc : i = 0 \/ i = 1 \/ i = 2 \/ i = 3) by lia. destruct Hc as [->|[->|[-> | ->]]]; reflexivity.
  - intros u Hu. unfold down. assert (0 <= u / BITMAP_ENTRY_BITS < 4) by (unfold BITMAP_SIZE, BITMAP_ENTRY_BITS in *; zdiv).
    generalize dependent (u / BITMAP_ENTRY_BITS). intros i Hi.
    assert (Hc : i = 0 \/ i = 1 \/ i = 2 \/ i = 3) by lia. destruct Hc as [->|[->|[-> | ->]]]; reflexivity.
Qed.

(** ** A report *)

(** A keyboard that can take a report of that identifier in [len] bytes. *)
Definition takes_report (k : Keyboard) (report_id len : Z) : Prop := Forall (collection_fits report_id len) (collections k).

(** The keys a report leaves down. *)
Lemma HandleReport_runs k report_id data len timestamp :
  all_up (current_keys_bitmap k) -> takes_report k report_id len -> len <= Z.of_nat (length data) ->
  exists k' now, Keyboard_HandleReport report_id data len timestamp k
      = inr (k', seqZ 0 BITMAP_SIZE ≫= key_packets k now timestamp)
    /\ collections k' = collections k /\ all_up (current_keys_bitmap k')
    /\ (forall u, 0 <= u < BITMAP_SIZE -> down (previous_keys_bitmap k') u = now u /\ (now u = true <-> keyboard_reports k report_id data u)).
Proof.
  intros Hup Hfit Hlen. unfold Keyboard_HandleReport, UpdateKeys.
  destruct (scan_collections_spec (collections k) report_id data len (current_keys_bitmap k) Hfit Hlen) as (bm & -> & Hbm).
  set (k1 := with_bitmaps k bm (previous_keys_bitmap k)).
  destruct (update_keys_spec timestamp (GetKeyFlags k1) (seqZ 0 BITMAP_SIZE) k1) as (k2 & -> & C & B & P).
  { apply NoDup_seqZ. }
  { apply Forall_forall. intros u Hu%elem_of_seqZ. lia. }
  { apply GetKeyFlags_spec. }
  destruct (RollBitmapsOver_spec k2) as (Hcur & Hcol & Hprev).
  exists (RollBitmapsOver k2), (down bm). split; [reflexivity|]. rewrite Hcol, C. split; [done|]. split; [done|].
  intros u Hu. rewrite (Hprev u Hu), B. split; [done|]. rewrite (Hbm u Hu), (all_up_down _ u Hup Hu). split; [by intros [?|?]|by right].
Qed.

(** C16: a report makes the keyboard send, for each key in order, a packet with
    the pressed flag when the report names a key that was up, one without it
    when the report no longer names a key that was down, and a repetition for
    a repeatable key held for 500 ms, at most one every 50 ms; afterwards the
    keys down are those the report names.  No byte outside of the report is
    read. *)
Theorem HandleReport_tracks (k : Keyboard) (report_id : Z) (data : list Z) (len timestamp : Z) :
  all_up (current_keys_bitmap k) -> takes_report k report_id len -> len <= Z.of_nat (length data) ->
  exists k' now, Keyboard_HandleReport report_id data len timestamp k
      = inr (k', seqZ 0 BITMAP_SIZE ≫= key_packets k now timestamp)
    /\ all_up (current_keys_bitmap k')
    /\ (forall u, 0 <= u < BITMAP_SIZE ->
          (now u = true <-> keyboard_reports k report_id data u) /\ down (previous_keys_bitmap k') u = now u).
Proof.
  intros Hup Hfit Hlen. destruct (HandleReport_runs k report_id data len timestamp Hup Hfit Hlen) as (k' & now & E & _ & H1 & H2).
  exists k', now. split; [done|]. split; [done|]. intros u Hu. destruct (H2 u Hu). done.
Qed.

(** ** A sequence of reports *)

(** The reports of one identifier, each with its bytes and its time. *)
Fixpoint handle_all (l : list (list Z * Z)) (report_id len : Z) (k : Keyboard) : fault + (Keyboard * list BasicKeyPacket) :=
  match l with
  | [] => inr (k, [])
  | (data, timestamp) :: l =>
      match Keyboard_HandleReport report_id data len timestamp k with
      | inl e => inl e
      | inr (k, packets) =>
          match handle_all l report_id len k with
          | inl e => inl e
          | inr (k, more) => inr (k, packets ++ more)
          end
      end
  end.

(** What a reader of the packets knows of a key. *)
Definition last_said (packets : list BasicKeyPacket) (u : Z) (before : bool) : bool :=
  match last (filter (fun p => scancode p = u) packets) with
  | Some p => Z.testbit (flags p) 8
  | None => before
  end.

Lemma last_said_app l l' u b : last_said (l ++ l') u b = last_said l' u (last_said l u b).
Proof.
  unfold last_said. rewrite filter_app, last_app. by destruct (last (filter _ l')).
Qed.

Lemma key_packets_scancode k now ts u p : p ∈ key_packets k now ts u -> scancode p = u.
Proof.
  unfold key_packets. destruct (_ =? _); [by intros ?%elem_of_nil|].
  destruct (down _ u), (now u); try destruct (_ && _); first [intros ->%list_elem_of_singleton; done|by intros ?%elem_of_nil].
Qed.

Lemma last_said_none l u b : (forall p, p ∈ l -> scancode p <> u) -> last_said l u b = b.
Proof.
  intros H. unfold last_said. assert (filter (fun p => scancode p = u) l = []) as ->; [|done].
  induction l as [|p l IH]; [done|]. rewrite filter_cons_False by (apply H; by left). apply IH. intros q Hq. apply H. by right.
Qed.

Lemma last_said_key k now ts u b :
  0 <= u < BITMAP_SIZE -> GetKeypoint u <> VK_INVALID -> b = down (previous_keys_bitmap k) u ->
  last_said (key_packets k now ts u) u b = now u.
Proof.
  intros Hu Hkp ->. unfold key_packets. rewrite (proj2 (Z.eqb_neq _ _) Hkp).
  pose proof (modifier_flags_range now) as Hr. set (f := modifier_flags now) in *. clearbody f.
  assert (Hp : Z.testbit (f + FLAG_KEY_PRESSED) 8 = true).
  { rewrite <- flags_pressed, Z.lor_spec by done. by rewrite orb_true_r. }
  assert (Hq : Z.testbit f 8 = false) by by apply (testbit_high 8).
  unfold last_said, pressed_packet, released_packet.
  destruct (down _ u), (now u); try destruct (_ && _); rewrite ?filter_cons_True, ?filter_nil by done; cbn; rewrite ?Hp, ?Hq; done.
Qed.

Lemma last_said_keys k now ts u b : forall l,
  NoDup l -> u ∈ l -> 0 <= u < BITMAP_SIZE -> GetKeypoint u <> VK_INVALID -> b = down (previous_keys_bitmap k) u ->
  last_said (l ≫= key_packets k now ts) u b = now u.
Proof.
  intros l Hnd Hin Hu Hkp Hb. induction l as [|w l IH]; [by apply elem_of_nil in Hin|].
  cbn [mbind list_bind]. rewrite last_said_app. apply NoDup_cons in Hnd as [Hw Hnd].
  apply elem_of_cons in Hin as [->|Hin].
  - rewrite last_said_none; [by apply last_said_key|]. intros p Hp. apply list_elem_of_bind in Hp as (v & Hp & Hv).
    apply key_packets_scancode in Hp. by intros <-; rewrite Hp in Hw.
  - rewrite (last_said_none (key_packets _ _ _ w)); [by apply IH|]. intros p ->%key_packets_scancode. by intros ->.
Qed.

(** whatever the reports, they are all handled, and what the packets say
    last of a key of the table is its state: a reader that follows the packets
    knows which keys are down, from any point on. *)
Theorem packets_tell_key_state (l : list (list Z * Z)) (report_id len : Z) (k : Keyboard) :
  all_up (current_keys_bitmap k) -> takes_report k report_id len -> Forall (fun r => len <= Z.of_nat (length (fst r))) l ->
  exists k' packets, handle_all l report_id len k = inr (k', packets)
    /\ (forall u, 0 <= u < BITMAP_SIZE -> GetKeypoint u <> VK_INVALID ->
          last_said packets u (down (previous_keys_bitmap k) u) = down (previous_keys_bitmap k') u)
    /\ (forall data timestamp, last l = Some (data, timestamp) -> forall u, 0 <= u < BITMAP_SIZE ->
          down (previous_keys_bitmap k') u = true <-> keyboard_reports k report_id data u).
Proof.
  revert k. induction l as [|[data ts] l IH]; intros k Hup Hfit Hl; cbn [handle_all].
  { by exists k, []. }
  apply Forall_cons in Hl as [Hlen Hl]. cbn [fst] in Hlen.
  destruct (HandleReport_runs k report_id data len ts Hup Hfit Hlen) as (k1 & now & -> & Hc & Hup1 & Hd).
  destruct (IH k1 Hup1) as (k2 & more & E & Hlast & Hrep); [by unfold takes_report; rewrite Hc|done|]. rewrite E.
  eexists k2, _. split; [reflexivity|]. split.
  - intros u Hu Hkp. rewrite last_said_app.
    rewrite last_said_keys by (done || apply NoDup_seqZ || (apply elem_of_seqZ; lia)).
    destruct (Hd u Hu) as [<- _]. by apply Hlast.
  - intros data' ts' Hl' u Hu. destruct l as [|r l].
    + injection Hl' as <- <-. injection E as <- <-. destruct (Hd u Hu) as [-> Hp]. exact Hp.
    + rewrite (Hrep data' ts' Hl' u Hu). unfold keyboard_reports. by rewrite Hc.
Qed.

(** ** Building reports *)

Section Build.
Context (allocates : nat -> Z -> bool).

(** the items added to a report occupy its bits one after the other: an
    item starts where the one added before it ends, no two items share a bit,
    and the size of the report is the bits of its items rounded up to bytes,
    as long as they are fewer than 2^32. *)
Theorem AddItem_layout (item : Item) (r : Report) (s : blocks) :
  report_ok r -> 0 <= size item -> 0 <= count item -> total_bits (items r) + item_bits item < 2 ^ 32 ->
  exists ok r' s', AddItem allocates item r s = inr ((ok, r'), s') /\ report_ok r' /\
    if ok : bool then
      exists it, items r' = it :: items r /\ size it = size item /\ count it = count item /\ isConstant it = isConstant item
        /\ usage_minimum it = usage_minimum item
        /\ GetReportSize r' = (total_bits (items r) + item_bits item + 7) / 8
        /\ (forall old, old ∈ items r -> offset old + item_bits old <= offset it)
    else r' = r.
Proof.
  intros Hok Hs Hc Hlt. unfold AddItem, Allocate, mbind, M_bind, mret, M_ret. destruct (allocates (next_block s) SIZEOF_ITEM).
  2:{ exists false, r. eexists. split; [reflexivity|]. done. }
  destruct Hok as [Hlay Htot]. rewrite (items_end_total _ Hlay Htot). set (it := mkItem _ _ _ _ _ _ _ _ _ _).
  assert (Hok' : report_ok (mkReport (rp_block r) (id r) (it :: items r))) by (split; [done|exact Hlt]).
  eexists true, _, _. split; [reflexivity|]. split; [done|]. exists it. split_and!; try done.
  - by rewrite report_size_bits.
  - intros old Hold. by destruct (item_end _ old Hlay Hold) as (_ & _ & _ & ?).
Qed.
End Build.

(** ** Where the layout fails: sizes beyond 32 bits *)

Lemma scan_bytes_wild it data : forall n j bitmap,
  0 <= offset it -> 0 <= j -> offset it / 8 + j <= Z.of_nat (length data) < offset it / 8 + j + Z.of_nat n ->
  scan_bytes n j it data bitmap = inl WildAccess.
Proof.
  induction n as [|n IH]; intros j bitmap Ho Hj Hlen; cbn [scan_bytes]; [lia|].
  destruct (Z.eq_dec (offset it / 8 + j) (Z.of_nat (length data))) as [E|Hn].
  - rewrite E. unfold byte_at. assert ((Z.of_nat (length data) <? 0) = false) as -> by (apply Z.ltb_ge; lia).
    by rewrite Nat2Z.id, lookup_ge_None_2 by done.
  - destruct (byte_in data (offset it / 8 + j)) as [b ->]; [zdiv|]. apply IH; lia.
Qed.

(** The report of one item of [n] bytes. *)
Definition bytes_keyboard (n : Z) : Keyboard :=
  with_collections new_Keyboard [mkCollection 0 None [mkReport 1 0 [mkItem (Some 2%nat) false 7 0 255 0 255 0 8 n]] []].

(** a report descriptor whose item takes 2^32 bits or more is accepted as a
    report of no byte: the size is computed on 32 bits, so the check on the
    length of the report passes and the keys are read past the end of any
    buffer. *)
Theorem oversized_item_read_past_end (n len timestamp : Z) (data : list Z) :
  n = 2 ^ 29 -> 0 <= len -> Z.of_nat (length data) < n ->
  GetMaxReportSize (bytes_keyboard n) = (0, bytes_keyboard n)
  /\ Keyboard_HandleReport 0 data len timestamp (bytes_keyboard n) = inl WildAccess.
Proof.
  intros -> Hlen Hd. split; [vm_compute; reflexivity|].
  unfold Keyboard_HandleReport, UpdateKeys. cbn [collections bytes_keyboard with_collections scan_collections].
  change (GetReport _ 0 true) with (Some (mkReport 1 0 [mkItem (Some 2%nat) false 7 0 255 0 255 0 8 (2 ^ 29)])).
  cbv iota. change (GetReportSize _) with 0. assert ((len <? 0) = false) as -> by by apply Z.ltb_ge.
  cbn [items scan_items]. unfold scan_item. cbn [isConstant negb size].
  change (8 =? 1) with false. change (8 =? 8) with true. cbv iota.
  rewrite scan_bytes_wild; [done|done|done|]. cbn [offset count]. rewrite Z2Nat.id by done. change (0 / 8) with 0. lia.
Qed.

Lemma oversized_item_read_past_end_witness : Keyboard_HandleReport 0 [4; 5] 2 0 (bytes_keyboard (2 ^ 29)) = inl WildAccess.
Proof. destruct (oversized_item_read_past_end (2 ^ 29) 2 0 [4; 5]) as [_ H]; [done|done|done|]. exact H. Defined.

(** ** The boot keyboard

    The input report of the keyboard of the HID specification: eight modifier
    bits, a constant byte and six bytes of keys. *)
Definition boot_keyboard : Keyboard :=
  with_collections new_Keyboard [mkCollection 0 None
    [mkReport 1 0 [mkItem (Some 4%nat) false 7 0 0x65 0 0x65 16 8 6;
                   mkItem (Some 3%nat) true 7 0xE0 0xE7 0 1 8 8 1;
                   mkItem (Some 2%nat) false 7 0xE0 0xE7 0 1 0 1 8]] []].

Lemma boot_takes_report : takes_report boot_keyboard 0 8.
Proof.
  apply Forall_cons_2; [|apply Forall_nil_2]. intros r Hr. injection Hr as <-.
  split; [split; [by repeat split|done]|vm_compute; done].
Qed.

Lemma boot_all_up : all_up (current_keys_bitmap boot_keyboard).
Proof. done. Qed.

Lemma HandleReport_tracks_witness :
  exists k', Keyboard_HandleReport 0 [0x02; 0; 0x04; 0; 0; 0; 0; 0] 8 1000 boot_keyboard
      = inr (k', [mkPacket 0x04 13 0x102; mkPacket 0xE1 6 0x102])
    /\ down (previous_keys_bitmap k') 0x04 = true.
Proof.
  destruct (HandleReport_tracks boot_keyboard 0 [0x02; 0; 0x04; 0; 0; 0; 0; 0] 8 1000 boot_all_up boot_takes_report ltac:(done))
    as (k' & now & E & _ & Hd).
  revert E. generalize (seqZ 0 BITMAP_SIZE ≫= key_packets boot_keyboard now 1000). intros ps E.
  exists k'. split.
  - assert (Hk : (fun r => match r with inl e => inl e | inr (_, l) => inr l end)
      (Keyboard_HandleReport 0 [0x02; 0; 0x04; 0; 0; 0; 0; 0] 8 1000 boot_keyboard)
      = (inr [mkPacket 0x04 13 0x102; mkPacket 0xE1 6 0x102] : fault + list BasicKeyPacket)) by (vm_compute; reflexivity).
    rewrite E in Hk |- *. by injection Hk as ->.
  - clear E. destruct (Hd 0x04 ltac:(done)) as [[_ Hn] ->]. apply Hn.
    exists (mkCollection 0 None (inputReports (nth 0 (collections boot_keyboard) (mkCollection 0 None [] []))) []), (mkReport 1 0 (items (nth 0 (inputReports (nth 0 (collections boot_keyboard) (mkCollection 0 None [] []))) (mkReport 0 0 [])))).
    split; [by left|]. split; [done|]. eexists. split; [by left|]. split; [done|]. exists 0. split; [done|]. right. done.
Defined.

Lemma packets_tell_key_state_witness :
  exists k' packets, handle_all [([0; 0; 0x04; 0; 0; 0; 0; 0], 1000); ([0; 0; 0; 0; 0; 0; 0; 0], 1200)] 0 8 boot_keyboard = inr (k', packets)
    /\ last_said packets 0x04 true = false.
Proof.
  destruct (packets_tell_key_state [([0; 0; 0x04; 0; 0; 0; 0; 0], 1000); ([0; 0; 0; 0; 0; 0; 0; 0], 1200)] 0 8 boot_keyboard
    boot_all_up boot_takes_report) as (k' & packets & E & _ & _).
  { repeat (apply Forall_cons_2; [done|]). apply Forall_nil_2. }
  exists k', packets. split; [exact E|].
  assert (Hk : (fun r => match r with inl e => inl e | inr (_, l) => inr (last_said l 0x04 true) end)
      (handle_all [([0; 0; 0x04; 0; 0; 0; 0; 0], 1000); ([0; 0; 0; 0; 0; 0; 0; 0], 1200)] 0 8 boot_keyboard)
      = (inr false : fault + bool)) by (vm_compute; reflexivity).
  rewrite E in Hk. by injection Hk as ->.
Defined.

Lemma AddItem_layout_witness :
  exists ok r' s', AddItem (fun _ _ => true) (mkItem None false 7 0 0 0 1 0 8 6) (mkReport 0 0 []) (mkBlocks 1 [0%nat]) = inr ((ok, r'), s')
    /\ GetReportSize r' = 6.
Proof.
  destruct (AddItem_layout (fun _ _ => true) (mkItem None false 7 0 0 0 1 0 8 6) (mkReport 0 0 []) (mkBlocks 1 [0%nat]))
    as (ok & r' & s' & E & _ & Hr); [by split|done|done|done|].
  exists ok, r', s'. split; [exact E|]. cbn in E. injection E as <- <- <-. destruct Hr as (it & _ & _ & _ & _ & _ & -> & _). reflexivity.
Defined.
