(* ===== verification/HidDriver.v ===== *)
(** * Component: the HID driver
    ([kernel/src/devices/USB/HID/Driver.cpp],
    [kernel/include/devices/USB/HID/Driver.hpp])

    The parser of report descriptors: a state machine over the items of a
    descriptor, which creates devices and hands them their reports, and the
    driver that is built from it.  A device is the interface
    [InterfaceDevice]; the keyboard is its one implementation. *)
From S2P Require Import Prelude Trb XhciContext TransferRing UsbDescriptors HidKeyboard.

(** A step that can only fault, in the monad of the heap. *)
Definition lift_fault {A} (r : fault + A) : M A := fun s =>
  match r with inl e => inl e | inr x => inr (x, s) end.

(** ** Devices *)

Inductive DeviceClass := DC_INVALID | KEYBOARD.

#[global] Instance DeviceClass_eq_dec : EqDecision DeviceClass.
Proof. solve_decision. Defined.

(** The virtual functions of [InterfaceDevice], and the construction of a
    device on the heap block it was given. *)
Class InterfaceDevice (D : Type) := {
  GetDeviceClass : D -> DeviceClass;
  IsUsageSupported : D -> Z -> Z -> bool;
  device_GetMaxReportSize : D -> Z * D;
  AddInput : (nat -> Z -> bool) -> GlobalState -> LocalState -> IOConfiguration -> D -> M (bool * D);
  AddOutput : (nat -> Z -> bool) -> GlobalState -> LocalState -> IOConfiguration -> D -> M (bool * D);
  StartCollection : (nat -> Z -> bool) -> GlobalState -> LocalState -> CollectionType -> D -> M (bool * D);
  EndCollection : D -> M (bool * D);
  HandleReport : Z -> list Z -> Z -> Z -> D -> fault + (D * list BasicKeyPacket);
  device_Release : D -> M D;
  new_device : D }.

#[global] Instance keyboard_device : InterfaceDevice Keyboard := {
  GetDeviceClass _ := KEYBOARD;
  IsUsageSupported _ := Keyboard_IsUsageSupported;
  device_GetMaxReportSize := GetMaxReportSize;
  AddInput := Keyboard_AddInput;
  AddOutput := Keyboard_AddOutput;
  StartCollection allocates _ _ := Keyboard_StartCollection allocates;
  EndCollection := Keyboard_EndCollection;
  HandleReport := Keyboard_HandleReport;
  device_Release := Keyboard_Release;
  new_device := new_Keyboard }.

(** ** The hierarchy *)

(** [Node]: its own block, the block of the device and the device. *)
Record Node (D : Type) := mkNode { node_block : nat; device_block : nat; device : D }.
Arguments mkNode {D}.
Arguments node_block {D}.
Arguments device_block {D}.
Arguments device {D}.

Record HIDHierarchy (D : Type) := mkHierarchy { nodes : list (Node D); hasMultipleReports : bool; maxReportSize : Z }.
Arguments mkHierarchy {D}.
Arguments nodes {D}.
Arguments hasMultipleReports {D}.
Arguments maxReportSize {D}.

Definition SIZEOF_NODE : Z := 16.
Definition SIZEOF_KEYBOARD : Z := 4200.
Definition SIZEOF_DRIVER : Z := 72.

Section Hierarchy.
Context {D : Type} `{InterfaceDevice D}.

Definition empty_hierarchy : HIDHierarchy D := mkHierarchy [] false 0.

Definition with_nodes (h : HIDHierarchy D) (l : list (Node D)) : HIDHierarchy D :=
  mkHierarchy l (hasMultipleReports h) (maxReportSize h).

Definition AddDevice (allocates : nat -> Z -> bool) (block : nat) (d : D) (h : HIDHierarchy D) : M (bool * HIDHierarchy D) :=
  Allocate allocates SIZEOF_NODE ≫= fun raw =>
  match raw with
  | None => mret (false, h)
  | Some b => mret (true, with_nodes h (mkNode b block d :: nodes h))
  end.

(** [GetDevice]: the block of the device. *)
Definition GetDevice (deviceClass : DeviceClass) (h : HIDHierarchy D) : option nat :=
  device_block <$> find (fun n => bool_decide (GetDeviceClass (device n) = deviceClass)) (nodes h).

Definition SignalMultipleReports (h : HIDHierarchy D) : HIDHierarchy D := mkHierarchy (nodes h) true (maxReportSize h).

Fixpoint max_sizes (l : list (Node D)) (n : Z) : Z * list (Node D) :=
  match l with
  | [] => (n, [])
  | x :: l =>
      let '(size, d) := device_GetMaxReportSize (device x) in
      let '(n, l) := max_sizes l (if n <? size then size else n) in
      (n, mkNode (node_block x) (device_block x) d :: l)
  end.

Definition hierarchy_GetMaxReportSize (h : HIDHierarchy D) : Z * HIDHierarchy D :=
  if maxReportSize h =? 0 then
    let '(n, l) := max_sizes (nodes h) 0 in
    let n := if hasMultipleReports h then n + 1 else n in
    (n, mkHierarchy l (hasMultipleReports h) n)
  else (maxReportSize h, h).

Fixpoint send_report (l : list (Node D)) (report_id : Z) (data : list Z) (length timestamp : Z)
    : fault + (list (Node D) * list BasicKeyPacket) :=
  match l with
  | [] => inr ([], [])
  | x :: l =>
      match HandleReport report_id data length timestamp (device x) with
      | inl e => inl e
      | inr (d, packets) =>
          match send_report l report_id data length timestamp with
          | inl e => inl e
          | inr (l, more) => inr (mkNode (node_block x) (device_block x) d :: l, packets ++ more)
          end
      end
  end.

Definition SendReport (report_id : Z) (data : list Z) (length timestamp : Z) (h : HIDHierarchy D)
    : fault + (HIDHierarchy D * list BasicKeyPacket) :=
  match send_report (nodes h) report_id data length timestamp with
  | inl e => inl e
  | inr (l, packets) => inr (with_nodes h l, packets)
  end.

Fixpoint release_nodes (l : list (Node D)) : M unit :=
  match l with
  | [] => mret tt
  | x :: l => device_Release (device x) ≫= fun _ => Free (Some (node_block x)) ≫= fun _ => release_nodes l
  end.

Definition hierarchy_Release (h : HIDHierarchy D) : M (HIDHierarchy D) :=
  release_nodes (nodes h) ≫= fun _ => mret (with_nodes h []).

(** The device at a block, and its replacement. *)
Definition find_device (block : nat) (h : HIDHierarchy D) : option D :=
  device <$> find (fun n => Nat.eqb (device_block n) block) (nodes h).

Fixpoint set_device (block : nat) (d : D) (l : list (Node D)) : list (Node D) :=
  match l with
  | [] => []
  | x :: l =>
      if Nat.eqb (device_block x) block then mkNode (node_block x) (device_block x) d :: l else x :: set_device block d l
  end.
End Hierarchy.

(** ** Items *)

Inductive ItemType := IT_Main | IT_Global | IT_Local.
Record ReportItem := mkReportItem { item_type : ItemType; tag : Z; value : Z }.

#[global] Instance ItemType_eq_dec : EqDecision ItemType.
Proof. solve_decision. Defined.

Definition fault_bind {A B} (r : fault + A) (f : A -> fault + B) : fault + B :=
  match r with inl e => inl e | inr x => f x end.

(** The bytes of the value, the first one the most significant. *)
Fixpoint item_value (n : nat) (data : list Z) (position acc : Z) : fault + Z :=
  match n with
  | O => inr acc
  | S n => fault_bind (byte_at data position) (fun b => item_value n data (position + 1) (u32 (Z.lor (u32 (Z.shiftl acc 8)) b)))
  end.

(** How many bytes a value takes. *)
Definition value_bytes (size : Z) : Z := if size =? 3 then 4 else size.

(** The item at [position] and the position after it: no item at the end, when
    the item is cut, or when its type is the reserved one. *)
Definition GetNextItem (data : list Z) (length position : Z) : fault + (option ReportItem * Z) :=
  if length <=? position then inr (None, position)
  else
    fault_bind (byte_at data position) (fun prefix =>
      let position := position + 1 in
      let size := Z.land prefix 0x03 in
      let type := Z.land (Z.shiftr prefix 2) 0x03 in
      let tag := Z.land (Z.shiftr prefix 4) 0x0F in
      if length <? position + size then inr (None, position)
      else
        fault_bind (item_value (Z.to_nat (value_bytes size)) data position 0) (fun value =>
          let position := position + value_bytes size in
          match type with
          | 0 => inr (Some (mkReportItem IT_Main tag value), position)
          | 1 => inr (Some (mkReportItem IT_Global tag value), position)
          | 2 => inr (Some (mkReportItem IT_Local tag value), position)
          | _ => inr (None, position)
          end)).

(** ** The parser *)

Inductive GlobalEvent :=
| PAGE_CHANGED | LOGICAL_MINIMUM_CHANGED | LOGICAL_MAXIMUM_CHANGED | REPORT_SIZE_CHANGED | REPORT_ID_CHANGED | REPORT_COUNT_CHANGED.

Record ReportParser := mkParser { globalState : GlobalState; localState : LocalState; p_hasMultipleReports : bool }.

Definition new_parser : ReportParser := mkParser (mkGlobal 0 0 0 0 0 0) (mkLocal 0 0 0) false.

Definition set_global (p : ReportParser) (g : GlobalState) : ReportParser := mkParser g (localState p) (p_hasMultipleReports p).
Definition set_local (p : ReportParser) (l : LocalState) : ReportParser := mkParser (globalState p) l (p_hasMultipleReports p).

Definition SUPPORTED_PAGES : list Z := [GENERIC_DESKTOP_CONTROLS].
Definition SUPPORTED_GENERIC_DESKTOP_USAGES : list Z := [GENERIC_KEYBOARD].

Definition parser_IsUsageSupported (page usage : Z) : bool :=
  if page =? GENERIC_DESKTOP_CONTROLS then existsb (fun u => usage =? u) SUPPORTED_GENERIC_DESKTOP_USAGES else false.

Section Parser.
Context {D : Type} `{InterfaceDevice D}.

Definition with_page (g : GlobalState) (v : Z) : GlobalState :=
  mkGlobal v (gl_logicalMinimum g) (gl_logicalMaximum g) (gl_reportSize g) (gl_reportID g) (gl_reportCount g).

Definition HandleGlobalItem (item : ReportItem) (dev : option D) (p : ReportParser) : option GlobalEvent * ReportParser :=
  if negb (bool_decide (item_type item = IT_Global)) then (None, p)
  else
    let g := globalState p in
    let v := value item in
    match tag item with
    | 0x0 =>
        if existsb (fun page => v =? page) SUPPORTED_PAGES then (Some PAGE_CHANGED, set_global p (with_page g v))
        else
          match dev with
          | Some d => if IsUsageSupported d v 0 then (Some PAGE_CHANGED, set_global p (with_page g v)) else (None, p)
          | None => (None, p)
          end
    | 0x1 => (Some LOGICAL_MINIMUM_CHANGED,
        set_global p (mkGlobal (gl_usagePage g) v (gl_logicalMaximum g) (gl_reportSize g) (gl_reportID g) (gl_reportCount g)))
    | 0x2 => (Some LOGICAL_MAXIMUM_CHANGED,
        set_global p (mkGlobal (gl_usagePage g) (gl_logicalMinimum g) v (gl_reportSize g) (gl_reportID g) (gl_reportCount g)))
    | 0x7 => (Some REPORT_SIZE_CHANGED,
        set_global p (mkGlobal (gl_usagePage g) (gl_logicalMinimum g) (gl_logicalMaximum g) v (gl_reportID g) (gl_reportCount g)))
    | 0x8 => (Some REPORT_ID_CHANGED,
        mkParser (mkGlobal (gl_usagePage g) (gl_logicalMinimum g) (gl_logicalMaximum g) (gl_reportSize g) v (gl_reportCount g))
          (localState p) (if v =? 0 then p_hasMultipleReports p else true))
    | 0x9 => (Some REPORT_COUNT_CHANGED,
        set_global p (mkGlobal (gl_usagePage g) (gl_logicalMinimum g) (gl_logicalMaximum g) (gl_reportSize g) (gl_reportID g) v))
    | _ => (None, p)
    end.

Definition HandleLocalItem (item : ReportItem) (dev : option D) (p : ReportParser) : bool * ReportParser :=
  if negb (bool_decide (item_type item = IT_Local)) then (false, p)
  else
    let l := localState p in
    let v := value item in
    let page := gl_usagePage (globalState p) in
    match tag item with
    | 0x0 =>
        let supported := match dev with None => parser_IsUsageSupported page v | Some d => IsUsageSupported d page v end in
        if negb supported then (false, p)
        else (true, set_local p (mkLocal v (lc_usageMinimum l) (lc_usageMaximum l)))
    | 0x1 => (true, set_local p (mkLocal (lc_usage l) v (lc_usageMaximum l)))
    | 0x2 => (true, set_local p (mkLocal (lc_usage l) (lc_usageMinimum l) v))
    | _ => (false, p)
    end.

(** What [Parse] keeps between items; [current] is the block of the device. *)
Record parsing := mkParsing {
  parser : ReportParser; hierarchy : HIDHierarchy D; current : option nat; hasMultipleDevices : bool }.

Definition current_device (st : parsing) : option D := current st ≫= fun b => find_device b (hierarchy st).

(** [hierarchy.Release(); return Optional<HIDHierarchy>();] *)
Definition abandon {A} (h : HIDHierarchy D) : M (option A) := hierarchy_Release h ≫= fun _ => mret None.

Context (allocates : nat -> Z -> bool).

Definition global_step (item : ReportItem) (st : parsing) : M (option parsing) :=
  match HandleGlobalItem item (current_device st) (parser st) with
  | (None, _) => abandon (hierarchy st)
  | (Some _, p) => mret (Some (mkParsing p (hierarchy st) (current st) (hasMultipleDevices st)))
  end.

(** A keyboard usage: the device of the hierarchy, or a new one. *)
Definition keyboard_usage (st : parsing) : M (option parsing) :=
  match GetDevice KEYBOARD (hierarchy st) with
  | Some b => mret (Some (mkParsing (parser st) (hierarchy st) (Some b) (hasMultipleDevices st)))
  | None =>
      let multiple := match current st with Some _ => true | None => false end in
      Allocate allocates SIZEOF_KEYBOARD ≫= fun raw =>
      match raw with
      | None => abandon (hierarchy st)
      | Some b =>
          AddDevice allocates b new_device (hierarchy st) ≫= fun '((ok, h) : bool * HIDHierarchy D) =>
          if negb ok then device_Release (new_device : D) ≫= fun _ => abandon h
          else mret (Some (mkParsing (parser st) h (Some b) multiple))
      end
  end.

Definition local_step (item : ReportItem) (st : parsing) : M (option parsing) :=
  let previous_usage := lc_usage (localState (parser st)) in
  let '(ok, p) := HandleLocalItem item (current_device st) (parser st) in
  let st := mkParsing p (hierarchy st) (current st) (hasMultipleDevices st) in
  if negb ok then abandon (hierarchy st)
  else if negb (lc_usage (localState p) =? previous_usage) then
    if gl_usagePage (globalState p) =? GENERIC_DESKTOP_CONTROLS then
      if (lc_usage (localState p) =? GENERIC_KEYBOARD)
         && match current_device st with None => true | Some d => negb (bool_decide (GetDeviceClass d = KEYBOARD)) end
      then keyboard_usage st
      else abandon (hierarchy st)
    else abandon (hierarchy st)
  else mret (Some st).

Definition io_configuration (v : Z) : IOConfiguration :=
  mkIO (hasflag v 0x01) (hasflag v 0x02) (hasflag v 0x04) (hasflag v 0x08) (hasflag v 0x10) (hasflag v 0x20)
    (hasflag v 0x40) (hasflag v 0x80) (hasflag v 0x100).

Definition collection_type (v : Z) : option CollectionType :=
  match v with
  | 0x00 => Some Physical
  | 0x01 => Some Application
  | 0x02 => Some Logical
  | 0x03 => Some CT_Report
  | 0x04 => Some NamedArray
  | 0x05 => Some UsageSwitch
  | 0x06 => Some UsageModifier
  | _ => None
  end.

(** The call on the device a main item makes; [None] when there is none. *)
Definition main_call (item : ReportItem) (g : GlobalState) (l : LocalState) (d : D) : option (M (bool * D)) :=
  match tag item with
  | 0x8 => Some (AddInput allocates g l (io_configuration (value item)) d)
  | 0x9 => Some (AddOutput allocates g l (io_configuration (value item)) d)
  | 0xA =>
      match collection_type (value item) with
      | None => None
      | Some type => Some (StartCollection allocates g l type d)
      end
  | 0xC => Some (EndCollection d)
  | _ => None
  end.

Definition main_step (item : ReportItem) (st : parsing) : M (option parsing) :=
  match current st with
  | None => abandon (hierarchy st)
  | Some b =>
      match find_device b (hierarchy st) with
      | None => die WildAccess
      | Some d =>
          match main_call item (globalState (parser st)) (localState (parser st)) d with
          | None => abandon (hierarchy st)
          | Some call =>
              call ≫= fun '((ok, d) : bool * D) =>
              let h := with_nodes (hierarchy st) (set_device b d (nodes (hierarchy st))) in
              if negb ok then abandon h else mret (Some (mkParsing (parser st) h (current st) (hasMultipleDevices st)))
          end
      end
  end.

Definition parse_item (item : ReportItem) (st : parsing) : M (option parsing) :=
  match item_type item with
  | IT_Global => global_step item st
  | IT_Local => local_step item st
  | IT_Main => main_step item st
  end.

(** The loop over the items; [None] once it has given up. *)
Fixpoint parse_items (fuel : nat) (data : list Z) (length position : Z) (st : parsing) : M (option parsing) :=
  match fuel with
  | O => die Hang
  | S fuel =>
      lift_fault (GetNextItem data length position) ≫= fun '((item, position) : option ReportItem * Z) =>
      match item with
      | None => mret (Some st)
      | Some item =>
          parse_item item st ≫= fun st =>
          match st with
          | None => mret None
          | Some st => parse_items fuel data length position st
          end
      end
  end.

Definition Parse (fuel : nat) (data : list Z) (length : Z) : M (option (HIDHierarchy D)) :=
  parse_items fuel data length 0 (mkParsing new_parser empty_hierarchy None false) ≫= fun st =>
  match st with
  | None => mret None
  | Some st =>
      if hasMultipleDevices st && negb (p_hasMultipleReports (parser st)) then abandon (hierarchy st)
      else if hasMultipleDevices st then mret (Some (SignalMultipleReports (hierarchy st)))
      else mret (Some (hierarchy st))
  end.
End Parser.
Arguments parsing D : clear implicits.
Arguments mkParsing {D}.

(** ** HID descriptors *)

Record HIDDescriptor := mkHID {
  hidVersionMajor : Z; hidVersionMinor : Z; countryCode : Z; descriptorsNumber : Z; reportDescriptorLength : Z }.

Definition HID_DESCRIPTOR_SIZE : Z := 9.
Definition HID_DESCRIPTOR_TYPE : Z := 0x21.
Definition HID_REPORT_DESCRIPTOR_TYPE : Z := 0x22.

(** The first class descriptor of the report type, from the [i]-th on. *)
Fixpoint find_report_length (n : nat) (i : Z) (data : list Z) : fault + option Z :=
  match n with
  | O => inr None
  | S n =>
      let offset := 4 + i * 3 in
      fault_bind (byte_at data offset) (fun type =>
      fault_bind (byte_at data (offset + 1)) (fun lo =>
      fault_bind (byte_at data (offset + 2)) (fun hi =>
        if type =? HID_REPORT_DESCRIPTOR_TYPE then inr (Some (lo + 256 * hi)) else find_report_length n (i + 1) data)))
  end.

Definition ParseHIDDescriptor (data : list Z) (length : Z) : fault + option HIDDescriptor :=
  fault_bind (byte_at data 0) (fun major =>
  fault_bind (byte_at data 1) (fun minor =>
  fault_bind (byte_at data 2) (fun country =>
  fault_bind (byte_at data 3) (fun number =>
    if length <? 6 + number * 3 then inr None
    else
      fault_bind (find_report_length (Z.to_nat number) 0 data) (fun found =>
        inr ((fun len => mkHID major minor country number len) <$> found)))))).

Definition GetHIDDescriptor (interface : InterfaceDescriptor) : fault + option HIDDescriptor :=
  match GetExtra interface HID_DESCRIPTOR_TYPE with
  | None => inr None
  | Some extra =>
      if ex_length extra <? HID_DESCRIPTOR_SIZE then inr None else ParseHIDDescriptor (ex_data extra) (ex_length extra)
  end.

(** ** The driver *)

(** [endpoint_ring] is the ring itself; the report buffer is a block of the
    I/O heap with its bytes. *)
Record HidDriver (D : Type) := mkDriver {
  driver_block : nat; function : FunctionDescriptor; drv_hierarchy : HIDHierarchy D; interrupt_in_ep_address : Z;
  endpoint_ring : option TransferRing; reportBuffer : nat; last_sent_trb : option Z }.
Arguments mkDriver {D}.
Arguments driver_block {D}.
Arguments function {D}.
Arguments drv_hierarchy {D}.
Arguments interrupt_in_ep_address {D}.
Arguments endpoint_ring {D}.
Arguments reportBuffer {D}.
Arguments last_sent_trb {D}.

Section Driver.
Context {D : Type} `{InterfaceDevice D}.
Context (allocates : nat -> Z -> bool).

(** The answers of the device: the report descriptor it sends for a length, or
    nothing; whether it accepts the configuration; whether an endpoint can be
    configured. *)
Context (SendRequest : Z -> option (list Z)) (SetConfiguration : Z -> bool) (ConfigureEndpoint : EndpointDescriptor -> bool).

(** Every endpoint of every interface, in order, until one is refused. *)
Definition configure_endpoints (f : FunctionDescriptor) : bool :=
  forallb (fun p : InterfaceDescriptor * list InterfaceDescriptor =>
    match if_endpoints p.1 with
    | Some (_, eps) => forallb ConfigureEndpoint (take (Z.to_nat (endpointsNumber p.1)) eps)
    | None => true
    end) (fn_interfaces f).

Definition Create (fuel : nat) (configuration_value : Z) (f : FunctionDescriptor) : M (option (HidDriver D)) :=
  if negb (fn_interfacesNumber f =? 1) then mret None
  else
    match fn_interfaces f with
    | [] => die NullAccess
    | (interface, _) :: _ =>
        lift_fault (GetHIDDescriptor interface) ≫= fun hid_descriptor =>
        match hid_descriptor with
        | None => mret None
        | Some hid_descriptor =>
            let length := reportDescriptorLength hid_descriptor in
            Allocate allocates length ≫= fun buffer =>
            match buffer with
            | None => mret None
            | Some buffer =>
                match SendRequest length with
                | None => Free (Some buffer) ≫= fun _ => mret None
                | Some data =>
                    Parse allocates fuel data length ≫= fun parsed =>
                    Free (Some buffer) ≫= fun _ =>
                    match parsed with
                    | None => mret None
                    | Some wrapper =>
                        if negb (SetConfiguration configuration_value) then abandon wrapper
                        else if negb (configure_endpoints f) then abandon wrapper
                        else
                          let '(size, h) := hierarchy_GetMaxReportSize wrapper in
                          Allocate allocates size ≫= fun report_buffer =>
                          match report_buffer with
                          | None => abandon h
                          | Some report_buffer =>
                              Allocate allocates SIZEOF_DRIVER ≫= fun raw_device =>
                              match raw_device with
                              | None => abandon h
                              | Some b =>
                                  mret (Some (mkDriver b f (mkHierarchy (nodes h) (hasMultipleReports h) (maxReportSize wrapper))
                                    0 None report_buffer None))
                              end
                          end
                    end
                end
            end
        end
    end.

(** The first interrupt IN endpoint with a number that is not zero. *)
Definition find_interrupt_in (f : FunctionDescriptor) : Z :=
  foldl (fun address (p : InterfaceDescriptor * list InterfaceDescriptor) =>
    match if_endpoints p.1 with
    | Some (_, eps) =>
        foldl (fun address e =>
          if (address =? 0) && bool_decide (endpointType e = InterruptIn) then endpointAddress e else address)
          address (take (Z.to_nat (endpointsNumber p.1)) eps)
    | None => address
    end) 0 (fn_interfaces f).

(** [InitiateTransaction]: the driver, the memory and the doorbell rung;
    [phys] is the physical address of the report buffer, [None] inside when the
    ring is full. *)
Definition InitiateTransaction (phys : option Z) (drv : HidDriver D) (m : memory) : option (HidDriver D * memory * option Z) :=
  match phys, endpoint_ring drv with
  | None, _ => Some (drv, m, None)
  | Some _, None => None
  | Some phys, Some ring =>
      let '(size, h) := hierarchy_GetMaxReportSize (drv_hierarchy drv) in
      let init_trb := NormalTRB_Create (mkNormal phys (u32 size) 0 0 (cycle ring) false true false false true false false) in
      '(ptr, ring, m) ← Enqueue ring init_trb m;
      Some (mkDriver (driver_block drv) (function drv) h (interrupt_in_ep_address drv) (Some ring) (reportBuffer drv) (Some ptr),
            m, Some (u8 (interrupt_in_ep_address drv * 2 + 1)))
  end.

(** [PostInitialization]: [rings] gives the transfer ring of an endpoint. *)
Definition PostInitialization (rings : Z -> option TransferRing) (phys : option Z) (drv : HidDriver D) (m : memory)
    : option (bool * HidDriver D * memory * option Z) :=
  let address := if interrupt_in_ep_address drv =? 0 then find_interrupt_in (function drv) else interrupt_in_ep_address drv in
  let drv := mkDriver (driver_block drv) (function drv) (drv_hierarchy drv) address (endpoint_ring drv) (reportBuffer drv) (last_sent_trb drv) in
  if address =? 0 then Some (false, drv, m, None)
  else
    let ring := rings address in
    let drv := mkDriver (driver_block drv) (function drv) (drv_hierarchy drv) address ring (reportBuffer drv) (last_sent_trb drv) in
    match ring with
    | None => Some (false, drv, m, None)
    | Some _ =>
        '(drv, m, doorbell) ← InitiateTransaction phys drv m;
        Some (true, drv, m, doorbell)
    end.

(** [HandleTransactionComplete]: [buffer] holds the bytes of the report buffer. *)
Definition HandleTransactionComplete (buffer : list Z) (timestamp : Z) (drv : HidDriver D)
    : fault + (HidDriver D * list BasicKeyPacket) :=
  let '(size, h) := hierarchy_GetMaxReportSize (drv_hierarchy drv) in
  fault_bind
    (if hasMultipleReports h then
       fault_bind (byte_at buffer 0) (fun report_id => SendReport report_id (drop 1 buffer) (u64 (size - 1)) timestamp h)
     else SendReport 0 buffer size timestamp h)
    (fun '((h, packets) : HIDHierarchy D * list BasicKeyPacket) =>
       inr (mkDriver (driver_block drv) (function drv) h (interrupt_in_ep_address drv) (endpoint_ring drv) (reportBuffer drv)
              (last_sent_trb drv), packets)).

(** [SoftRelease], which is all [Release] does. *)
Definition SoftRelease (drv : HidDriver D) : M (HIDHierarchy D) :=
  hierarchy_Release (drv_hierarchy drv) ≫= fun h => Free (Some (reportBuffer drv)) ≫= fun _ => mret h.
End Driver.
