(* ===== verification/HidDriverProps.v ===== *)
(** * Theorems on the HID driver: the parser and the heap

    A small program logic for the monad of heap blocks, the laws of a device,
    that the keyboard obeys them, and what [Parse] does to the heap. *)
From S2P Require Import Prelude XhciContext UsbDescriptors UsbDescriptorsProps HidKeyboard HidKeyboardProps HidDriver.

(** ** Heap triples *)

Definition heap_is (s : blocks) (l : list nat) : Prop :=
  live s ≡ₚ l /\ NoDup l /\ Forall (fun b => (b < next_block s)%nat) l.

(** From a heap of the blocks [P], [m] ends in a fault allowed by [E] or with a
    result and a heap that satisfy [Q]. *)
Definition triple {A} (E : fault -> Prop) (P : list nat) (m : M A) (Q : A -> list nat -> Prop) : Prop :=
  forall s, heap_is s P -> match m s with inl e => E e | inr (x, s') => exists L, Q x L /\ heap_is s' L end.

Lemma heap_perm s l l' : l ≡ₚ l' -> heap_is s l -> heap_is s l'.
Proof. intros H (H1 & H2 & H3). split; [by rewrite H1|]. split; [by rewrite <- H|by rewrite <- H]. Qed.

Section Triples.
Context (E : fault -> Prop).

Lemma triple_perm {A} P P' (m : M A) Q : P ≡ₚ P' -> triple E P' m Q -> triple E P m Q.
Proof. intros H Hm s Hs. apply Hm. by eapply heap_perm. Qed.

Lemma triple_post {A} P (m : M A) (Q Q' : A -> list nat -> Prop) :
  triple E P m Q -> (forall x L, Q x L -> exists L', L ≡ₚ L' /\ Q' x L') -> triple E P m Q'.
Proof.
  intros Hm H s Hs. specialize (Hm s Hs). destruct (m s) as [e|[x s']]; [done|]. destruct Hm as (L & HQ & HL).
  destruct (H x L HQ) as (L' & Hp & HQ'). exists L'. split; [done|]. by eapply heap_perm.
Qed.

Lemma triple_ret {A} P (x : A) (Q : A -> list nat -> Prop) : Q x P -> triple E P (mret x) Q.
Proof. intros HQ s Hs. by exists P. Qed.

Lemma triple_die {A} P e (Q : A -> list nat -> Prop) : E e -> triple E P (die e) Q.
Proof. by intros He s Hs. Qed.

Lemma triple_bind {A B} P (m : M A) (f : A -> M B) R Q :
  triple E P m R -> (forall x L, R x L -> triple E L (f x) Q) -> triple E P (m ≫= f) Q.
Proof.
  intros Hm Hf s Hs. unfold mbind, M_bind. specialize (Hm s Hs). destruct (m s) as [e|[x s']]; [done|].
  destruct Hm as (L & HR & HL). by apply (Hf x L).
Qed.

Lemma triple_Allocate P al n :
  triple E P (Allocate al n) (fun r L => match r with None => L = P | Some b => L = b :: P end).
Proof.
  intros s (H1 & H2 & H3). unfold Allocate. destruct (al (next_block s) n).
  - eexists. split; [done|]. split_and!; cbn [live next_block].
    + by rewrite H1.
    + apply NoDup_cons_2; [|done]. intros Hin. rewrite Forall_forall in H3. specialize (H3 _ Hin). lia.
    + apply Forall_cons_2; [lia|]. eapply Forall_impl; [exact H3|]. cbv beta. lia.
  - eexists. split; [done|]. split_and!; [done|done|]. cbn [next_block]. eapply Forall_impl; [exact H3|]. cbv beta. lia.
Qed.

Lemma remove_perm (b : nat) l : NoDup (b :: l) -> forall l', l' ≡ₚ b :: l -> remove eq_nat_dec b l' ≡ₚ l.
Proof.
  intros Hnd l' Hp. assert (Hr : forall x, b ∉ x -> remove eq_nat_dec b x = x).
  { induction x as [|y x IH]; [done|]. intros Hx. cbn. destruct (eq_nat_dec b y) as [->|]; [by exfalso; apply Hx; left|].
    f_equal. apply IH. intros H. apply Hx. by right. }
  apply NoDup_cons in Hnd as [Hb Hnd]. assert (Hin : b ∈ l') by (rewrite Hp; by left).
  apply list_elem_of_split in Hin as (l1 & l2 & ->). rewrite <- Permutation_middle in Hp.
  apply (inj (cons b)) in Hp. assert (Hb' : b ∉ l1 ++ l2) by by rewrite Hp.
  rewrite remove_app. cbn [remove]. destruct (eq_nat_dec b b) as [_|]; [|done].
  rewrite !Hr; [by rewrite Hp|intros H; apply Hb', elem_of_app; by right|intros H; apply Hb', elem_of_app; by left].
Qed.

Lemma triple_Free P b : triple E (b :: P) (Free (Some b)) (fun _ L => L = P).
Proof.
  intros s (H1 & H2 & H3). cbn [Free]. rewrite decide_True by (rewrite H1; by left).
  exists P. split; [done|]. split_and!; cbn [live next_block].
  - by apply remove_perm.
  - by apply NoDup_cons in H2 as [_ ?].
  - by apply Forall_cons in H3 as [_ ?].
Qed.

(** Freeing what an optional pointer points to. *)
Lemma triple_Free_option P (b : option nat) : triple E (option_list b ++ P) (Free b) (fun _ L => L = P).
Proof. destruct b as [b|]; [apply triple_Free|]. by intros s Hs; exists P. Qed.

Lemma triple_lift {A} P (r : fault + A) (Q : A -> list nat -> Prop) :
  match r with inl e => E e | inr x => Q x P end -> triple E P (lift_fault r) Q.
Proof. intros H s Hs. unfold lift_fault. destruct r; [done|]. by exists P. Qed.
End Triples.

Lemma triple_weaken {A} (E E' : fault -> Prop) P (m : M A) Q : (forall e, E e -> E' e) -> triple E P m Q -> triple E' P m Q.
Proof. intros HE Hm s Hs. specialize (Hm s Hs). destruct (m s) as [e|[x s']]; [by apply HE|done]. Qed.

Definition no_fault (e : fault) : Prop := False.

(** ** The laws of a device *)

(** [device_blocks] are the blocks a device has allocated, apart from its own. *)
Class InterfaceDeviceLaws (D : Type) `{InterfaceDevice D} := {
  device_blocks : D -> list nat;
  device_ok : D -> Prop;
  new_device_ok : device_ok new_device /\ device_blocks new_device = [] /\ GetDeviceClass new_device = KEYBOARD;
  device_call al d P g l config type call :
    device_ok d ->
    In call [AddInput al g l config d; AddOutput al g l config d; StartCollection al g l type d; EndCollection d] ->
    triple no_fault (device_blocks d ++ P) call (fun r L =>
      L ≡ₚ device_blocks r.2 ++ P /\ device_ok r.2 /\ GetDeviceClass r.2 = GetDeviceClass d);
  device_size d :
    device_ok d -> device_blocks (device_GetMaxReportSize d).2 = device_blocks d /\ device_ok (device_GetMaxReportSize d).2
    /\ GetDeviceClass (device_GetMaxReportSize d).2 = GetDeviceClass d;
  device_release_ok d P : device_ok d -> triple no_fault (device_blocks d ++ P) (device_Release d) (fun _ L => L = P) }.

(** ** The keyboard is a device *)

Definition report_blocks (r : Report) : list nat := rp_block r :: omap it_block (items r).
Definition collection_blocks (c : ReportCollection) : list nat :=
  rc_block c :: (inputReports c ≫= report_blocks) ++ (outputReports c ≫= report_blocks).
Definition keyboard_blocks (k : Keyboard) : list nat := collections k ≫= collection_blocks.

(** The current collection and every parent are collections of the keyboard. *)
Definition keyboard_ok (k : Keyboard) : Prop :=
  (forall b, currentCollection k = Some b -> b ∈ rc_block <$> collections k)
  /\ (forall c b, c ∈ collections k -> parent c = Some b -> b ∈ rc_block <$> collections k).

Section KeyboardBlocks.
Context (E : fault -> Prop).

Lemma triple_free_items P l : triple E (omap it_block l ++ P) (free_items l) (fun _ L => L = P).
Proof.
  revert P. induction l as [|it l IH]; intros P; cbn [free_items]; [by apply triple_ret|].
  apply (triple_bind _ _ _ _ (fun _ L => L = omap it_block l ++ P)); [|by intros _ L ->].
  eapply triple_perm; [|apply (triple_Free_option E (omap it_block l ++ P) (it_block it))].
  cbn [omap list_omap]. by destruct (it_block it).
Qed.

Lemma triple_free_reports P l : triple E ((l ≫= report_blocks) ++ P) (free_reports l) (fun _ L => L = P).
Proof.
  revert P. induction l as [|r l IH]; intros P; cbn [free_reports mbind list_bind]; [by apply triple_ret|].
  apply (triple_bind _ _ _ _ (fun _ L => L = rp_block r :: (l ≫= report_blocks) ++ P)).
  { eapply triple_perm; [|apply triple_free_items]. unfold report_blocks at 1. cbn [app]. rewrite <- app_assoc. apply Permutation_middle. }
  intros _ L ->. apply (triple_bind _ _ _ _ (fun _ L => L = (l ≫= report_blocks) ++ P)); [apply triple_Free|by intros _ L ->].
Qed.

Lemma triple_Collection_Release P c :
  triple E ((inputReports c ≫= report_blocks) ++ (outputReports c ≫= report_blocks) ++ P) (Collection_Release c) (fun _ L => L = P).
Proof.
  apply (triple_bind _ _ _ _ (fun _ L => L = (outputReports c ≫= report_blocks) ++ P)); [apply triple_free_reports|].
  intros _ L ->. apply triple_free_reports.
Qed.

Lemma triple_free_collections P l : triple E ((l ≫= collection_blocks) ++ P) (free_collections l) (fun _ L => L = P).
Proof.
  revert P. induction l as [|c l IH]; intros P; cbn [free_collections mbind list_bind]; [by apply triple_ret|].
  apply (triple_bind _ _ _ _ (fun _ L => L = rc_block c :: (l ≫= collection_blocks) ++ P)).
  { eapply triple_perm; [|apply triple_Collection_Release]. unfold collection_blocks at 1. cbn [app].
    rewrite <- !app_assoc. rewrite <- !Permutation_middle. done. }
  intros _ L ->. apply (triple_bind _ _ _ _ (fun _ L => L = (l ≫= collection_blocks) ++ P)); [apply triple_Free|by intros _ L ->].
Qed.

Lemma triple_Keyboard_Release P k : triple E (keyboard_blocks k ++ P) (Keyboard_Release k) (fun _ L => L = P).
Proof.
  apply (triple_bind _ _ _ _ (fun _ L => L = P)); [apply triple_free_collections|]. intros _ L ->. by apply triple_ret.
Qed.
End KeyboardBlocks.

(** Replacing a report or a collection replaces its blocks. *)
Lemma set_report_blocks i r r' l :
  find (fun r => id r =? i) l = Some r ->
  (set_report i r' l ≫= report_blocks) ++ report_blocks r ≡ₚ report_blocks r' ++ (l ≫= report_blocks).
Proof.
  induction l as [|x l IH]; [done|]. cbn [find set_report]. destruct (id x =? i).
  - intros [= ->]. cbn [mbind list_bind]. rewrite <- app_assoc. f_equiv. apply Permutation_app_comm.
  - intros H. cbn [mbind list_bind]. rewrite <- app_assoc, (IH H), !app_assoc. f_equiv. apply Permutation_app_comm.
Qed.

Lemma set_collection_blocks b c c' l :
  find (fun c => Nat.eqb (rc_block c) b) l = Some c ->
  (set_collection b c' l ≫= collection_blocks) ++ collection_blocks c ≡ₚ collection_blocks c' ++ (l ≫= collection_blocks).
Proof.
  induction l as [|x l IH]; [done|]. cbn [find set_collection]. destruct (Nat.eqb (rc_block x) b).
  - intros [= ->]. cbn [mbind list_bind]. rewrite <- app_assoc. f_equiv. apply Permutation_app_comm.
  - intros H. cbn [mbind list_bind]. rewrite <- app_assoc, (IH H), !app_assoc. f_equiv. apply Permutation_app_comm.
Qed.

Lemma set_collection_linked b c c' l :
  find (fun c => Nat.eqb (rc_block c) b) l = Some c -> rc_block c' = rc_block c -> parent c' = parent c ->
  rc_block <$> set_collection b c' l = rc_block <$> l /\ parent <$> set_collection b c' l = parent <$> l.
Proof.
  intros H Hb Hp. induction l as [|x l IH]; [done|]. cbn [find set_collection] in *. destruct (Nat.eqb (rc_block x) b).
  - injection H as ->. cbn. by rewrite Hb, Hp.
  - destruct (IH H) as [E1 E2]. cbn. by rewrite E1, E2.
Qed.

Lemma find_current k b : keyboard_ok k -> currentCollection k = Some b ->
  exists c, find (fun c => Nat.eqb (rc_block c) b) (collections k) = Some c /\ c ∈ collections k.
Proof.
  intros [H _] Hb. specialize (H b Hb). apply list_elem_of_fmap in H as (c & -> & Hin).
  destruct (find _ (collections k)) as [c'|] eqn:E; [by exists c'; apply find_some in E as [?%list_elem_of_In _]|].
  apply list_elem_of_In in Hin. pose proof (find_none _ _ E c Hin) as Hn. cbn in Hn. by rewrite Nat.eqb_refl in Hn.
Qed.

Lemma with_reports_blocks c input l extra :
  (l ≫= report_blocks) ≡ₚ extra ++ (reports_of c input ≫= report_blocks) ->
  collection_blocks (with_reports c input l) ≡ₚ extra ++ collection_blocks c.
Proof.
  intros H. unfold collection_blocks. destruct input; cbn [with_reports rc_block inputReports outputReports reports_of] in *; rewrite H.
  - rewrite <- Permutation_middle. by rewrite !app_assoc.
  - rewrite <- Permutation_middle. f_equiv. rewrite !app_assoc. f_equiv. apply Permutation_app_comm.
Qed.

Lemma with_reports_link c input l : rc_block (with_reports c input l) = rc_block c /\ parent (with_reports c input l) = parent c.
Proof. by destruct input. Qed.

Lemma set_report_extra i r r' l extra :
  find (fun r => id r =? i) l = Some r -> report_blocks r' ≡ₚ extra ++ report_blocks r ->
  (set_report i r' l ≫= report_blocks) ≡ₚ extra ++ (l ≫= report_blocks).
Proof.
  intros Hf Hr. pose proof (set_report_blocks i r r' l Hf) as H. rewrite Hr in H.
  apply (Permutation_app_inv_r (report_blocks r)). rewrite H, <- !app_assoc. f_equiv. apply Permutation_app_comm.
Qed.

Lemma set_collection_extra b c c' l extra :
  find (fun c => Nat.eqb (rc_block c) b) l = Some c -> collection_blocks c' ≡ₚ extra ++ collection_blocks c ->
  (set_collection b c' l ≫= collection_blocks) ≡ₚ extra ++ (l ≫= collection_blocks).
Proof.
  intros Hf Hr. pose proof (set_collection_blocks b c c' l Hf) as H. rewrite Hr in H.
  apply (Permutation_app_inv_r (collection_blocks c)). rewrite H, <- !app_assoc. f_equiv. apply Permutation_app_comm.
Qed.

(** A keyboard in which one collection has been replaced. *)
Lemma replace_collection_ok k b c c' :
  keyboard_ok k -> find (fun c => Nat.eqb (rc_block c) b) (collections k) = Some c ->
  rc_block c' = rc_block c -> parent c' = parent c ->
  keyboard_ok (with_collections k (set_collection b c' (collections k))).
Proof.
  intros [H1 H2] Hf Hb Hp. destruct (set_collection_linked b c c' (collections k) Hf Hb Hp) as [E1 E2].
  split; cbn [collections with_collections currentCollection].
  - intros x Hx. rewrite E1. by apply H1.
  - intros x y Hin Hy. rewrite E1. assert (Hpar : Some y ∈ parent <$> collections k).
    { rewrite <- E2. apply list_elem_of_fmap. by exists x. }
    apply list_elem_of_fmap in Hpar as (z & Hz & Hzin). by apply (H2 z y).
Qed.

Definition after_call (k : Keyboard) (P : list nat) (r : bool * Keyboard) (L : list nat) : Prop :=
  L ≡ₚ keyboard_blocks r.2 ++ P /\ keyboard_ok r.2.

Lemma triple_AddItem al P item r :
  triple no_fault P (AddItem al item r) (fun x L => exists extra, L = extra ++ P
    /\ report_blocks x.2 ≡ₚ extra ++ report_blocks r /\ id x.2 = id r).
Proof.
  apply (triple_bind _ _ _ _ _ _ (triple_Allocate no_fault P al SIZEOF_ITEM)). intros [b|] L ->; apply triple_ret; cbn [snd].
  - exists [b]. split; [done|]. split; [|done]. unfold report_blocks. cbn [rp_block items omap list_omap it_block]. constructor.
  - by exists [].
Qed.

Lemma triple_AddReportItem al P g l config input k :
  keyboard_ok k -> triple no_fault (keyboard_blocks k ++ P) (AddReportItem al g l config input k) (after_call k P).
Proof.
  intros Hk. unfold AddReportItem. destruct (_ && _); [by apply triple_ret|].
  destruct (currentCollection k) as [b|] eqn:Hb; [|by apply triple_ret].
  destruct (find_current k b Hk Hb) as (c & Hf & Hin). rewrite Hf. set (i := gl_reportID g).
  (* the report, found or new *)
  apply (triple_bind _ _ _ _ (fun found L =>
    match found with
    | None => L = keyboard_blocks k ++ P
    | Some (c1, r) => exists extra, L = extra ++ keyboard_blocks k ++ P /\ collection_blocks c1 ≡ₚ extra ++ collection_blocks c
        /\ GetReport c1 i input = Some r /\ rc_block c1 = rc_block c /\ parent c1 = parent c
    end)).
  { destruct (GetReport c i input) as [r|] eqn:Hr; [apply triple_ret; by exists []|].
    apply (triple_bind _ _ _ _ (fun added L =>
      match added with
      | None => L = keyboard_blocks k ++ P
      | Some c1 => exists b, L = [b] ++ keyboard_blocks k ++ P /\ c1 = with_reports c input (mkReport b i [] :: reports_of c input)
      end)).
    - apply (triple_bind _ _ _ _ _ _ (triple_Allocate no_fault _ al SIZEOF_REPORT)).
      intros [x|] L ->; apply triple_ret; [by exists x|done].
    - intros [c1|] L; [|intros ->; by apply triple_ret]. intros (x & -> & ->). apply triple_ret.
      assert (Hg : GetReport (with_reports c input (mkReport x i [] :: reports_of c input)) i input = Some (mkReport x i [])).
      { unfold GetReport. destruct input; cbn [reports_of with_reports inputReports outputReports find id]; by rewrite Z.eqb_refl. }
      rewrite Hg. cbn. destruct (with_reports_link c input (mkReport x i [] :: reports_of c input)) as [-> ->].
      exists [x]. split; [done|]. split; [|done]. by apply (with_reports_blocks c input _ [x]). }
  intros [[c1 r]|] L; [|intros ->; by apply triple_ret]. intros (extra & -> & Hc1 & Hr & Hl1 & Hl2).
  apply (triple_bind _ _ _ _ _ _ (triple_AddItem al _ _ r)). intros [ok r'] L (extra' & -> & Hr' & Hid). cbn [snd] in *.
  apply triple_ret. set (c2 := with_reports c1 input _).
  assert (Hc2 : collection_blocks c2 ≡ₚ extra' ++ extra ++ collection_blocks c).
  { rewrite <- Hc1. apply with_reports_blocks. by eapply set_report_extra. }
  destruct (with_reports_link c1 input (set_report i r' (reports_of c1 input))) as [L1 L2]. fold c2 in L1, L2.
  split; cbn [snd].
  - unfold keyboard_blocks. cbn [collections with_collections]. rewrite app_assoc in Hc2.
    rewrite (set_collection_extra b c c2 (collections k) _ Hf Hc2). by rewrite !app_assoc.
  - apply (replace_collection_ok k b c c2); [done|done|congruence|congruence].
Qed.

Lemma triple_StartCollection al P type k :
  keyboard_ok k -> triple no_fault (keyboard_blocks k ++ P) (Keyboard_StartCollection al type k) (after_call k P).
Proof.
  intros Hk. unfold Keyboard_StartCollection. destruct (negb _); [by apply triple_ret|].
  apply (triple_bind _ _ _ _ _ _ (triple_Allocate no_fault _ al SIZEOF_COLLECTION)).
  intros [b|] L ->; apply triple_ret; [|done]. destruct Hk as [H1 H2]. split; [done|]. split; cbn.
  - intros x [= <-]. by left.
  - intros c x [->|Hin]%elem_of_cons Hx; [right; by apply H1|]. right. by apply (H2 c).
Qed.

Lemma triple_EndCollection P k :
  keyboard_ok k -> triple no_fault (keyboard_blocks k ++ P) (Keyboard_EndCollection k) (after_call k P).
Proof.
  intros Hk. unfold Keyboard_EndCollection. destruct (currentCollection k) as [b|] eqn:Hb; [|by apply triple_ret].
  destruct (find_current k b Hk Hb) as (c & -> & Hin). apply triple_ret. destruct Hk as [H1 H2]. split; [done|]. split; cbn.
  - intros x Hx. by apply (H2 c).
  - exact H2.
Qed.

#[global] Program Instance keyboard_laws : InterfaceDeviceLaws Keyboard := {
  device_blocks := keyboard_blocks;
  device_ok := keyboard_ok }.
Next Obligation. split; [|done]. split; [done|]. intros c b Hc. by apply elem_of_nil in Hc. Qed.
Next Obligation.
  intros al d P g l config type call Hd Hin.
  assert (Hpost : triple no_fault (keyboard_blocks d ++ P) call (after_call d P)).
  { destruct Hin as [<-|[<-|[<-|[<-|[]]]]];
      [by apply triple_AddReportItem|by apply triple_AddReportItem|by apply triple_StartCollection|by apply triple_EndCollection]. }
  eapply triple_post; [exact Hpost|]. intros r L [H1 H2]. by exists L.
Qed.
Next Obligation. intros d Hd. cbn. unfold GetMaxReportSize. by destruct (max_report_size d =? 0). Qed.
Next Obligation. intros d P _. apply triple_Keyboard_Release. Qed.

(** ** Items *)

(** A four-byte item that lacks its last byte ends the descriptor. *)
Definition cut_long_item (data : list Z) : Prop :=
  exists p b, byte_at data p = inr b /\ Z.land b 3 = 3 /\ p + 4 = Z.of_nat (length data).

Definition overread (data : list Z) (e : fault) : Prop := e = WildAccess /\ cut_long_item data.

Lemma item_value_in data : forall n position acc,
  0 <= position -> position + Z.of_nat n <= Z.of_nat (length data) -> exists v, item_value n data position acc = inr v.
Proof.
  induction n as [|n IH]; intros position acc Hp Hlen; cbn [item_value]; [by exists acc|].
  destruct (byte_in data position) as [b ->]; [lia|]. apply IH; lia.
Qed.

Lemma item_value_fault data : forall n position acc e, item_value n data position acc = inl e -> e = WildAccess.
Proof.
  induction n as [|n IH]; intros position acc e; cbn [item_value]; [done|].
  destruct (byte_at data position) as [e'|b] eqn:E; cbn [fault_bind]; [|apply IH].
  intros [= <-]. revert E. unfold byte_at. destruct (position <? 0); [by intros [= <-]|]. destruct (data !! _); [done|by intros [= <-]].
Qed.

Lemma GetNextItem_spec data position :
  0 <= position ->
  match GetNextItem data (Z.of_nat (length data)) position with
  | inl e => overread data e
  | inr (None, _) => True
  | inr (Some _, position') => position < position' /\ position < Z.of_nat (length data)
  end.
Proof.
  intros Hp. unfold GetNextItem. destruct (Z.leb_spec (Z.of_nat (length data)) position) as [|Hlt]; [done|].
  destruct (byte_in data position) as [b Hb]; [lia|]. rewrite Hb. cbn [fault_bind].
  assert (Hsz : 0 <= Z.land b 3 < 2 ^ 2) by (rewrite Z.land_comm; by apply land_range). set (sz := Z.land b 3) in *.
  destruct (Z.ltb_spec (Z.of_nat (length data)) (position + 1 + sz)) as [|Hfit]; [done|].
  assert (Hvb : value_bytes sz = if sz =? 3 then 4 else sz) by done.
  destruct (item_value (Z.to_nat (value_bytes sz)) data (position + 1) 0) as [e|v] eqn:Ev; cbn [fault_bind].
  - split; [by eapply item_value_fault|]. destruct (Z.eqb_spec sz 3) as [E3|E3].
    + destruct (Z.eq_dec (position + 4) (Z.of_nat (length data))) as [Ee|Ee]; [by exists position, b|].
      destruct (item_value_in data (Z.to_nat (value_bytes sz)) (position + 1) 0) as [v Hv]; [lia|rewrite Hvb; lia|].
      by rewrite Hv in Ev.
    + destruct (item_value_in data (Z.to_nat (value_bytes sz)) (position + 1) 0) as [v Hv]; [lia|rewrite Hvb; lia|].
      by rewrite Hv in Ev.
  - assert (0 <= value_bytes sz) by (rewrite Hvb; destruct (sz =? 3); lia).
    destruct (Z.land (Z.shiftr b 2) 3) as [|t|t]; [split; lia| |done]. destruct t as [t|t|]; [done|destruct t; try done; split; lia|split; lia].
Qed.

(** ** The hierarchy *)

Section Hierarchy.
Context {D : Type} `{InterfaceDeviceLaws D}.

(** The blocks a node answers for, those it frees first. *)
Definition node_blocks (n : Node D) : list nat := node_block n :: device_blocks (device n).
Definition nodes_blocks (l : list (Node D)) : list nat := l ≫= node_blocks.

(** At most one device, a keyboard. *)
Definition hierarchy_ok (h : HIDHierarchy D) : Prop :=
  hasMultipleReports h = false /\
  match nodes h with
  | [] => True
  | [n] => device_ok (device n) /\ GetDeviceClass (device n) = KEYBOARD
  | _ => False
  end.

(** The blocks of a hierarchy, with the blocks the device objects are in. *)
Definition hierarchy_blocks (h : HIDHierarchy D) : list nat := nodes_blocks (nodes h) ++ (device_block <$> nodes h).

Lemma triple_release_nodes P (h : HIDHierarchy D) :
  hierarchy_ok h -> triple no_fault (nodes_blocks (nodes h) ++ P) (release_nodes (nodes h)) (fun _ L => L = P).
Proof.
  intros [_ Hok]. destruct (nodes h) as [|n [|]]; [by apply triple_ret| |done]. destruct Hok as [Hd _].
  cbn [release_nodes]. apply (triple_bind _ _ _ _ (fun _ L => L = node_block n :: P)).
  - eapply triple_perm; [|by apply device_release_ok]. unfold nodes_blocks, node_blocks. cbn. rewrite app_nil_r. apply Permutation_middle.
  - intros _ L ->. apply (triple_bind _ _ _ _ (fun _ L => L = P)); [apply triple_Free|]. intros _ L ->. by apply triple_ret.
Qed.

(** Giving up frees everything but the device objects. *)
Lemma triple_abandon {A} P (h : HIDHierarchy D) :
  hierarchy_ok h -> triple no_fault (hierarchy_blocks h ++ P) (abandon h) (fun (r : option A) L => r = None /\ L = (device_block <$> nodes h) ++ P).
Proof.
  intros Hok. apply (triple_bind _ _ _ _ (fun _ L => L = (device_block <$> nodes h) ++ P)).
  - apply (triple_bind _ _ _ _ (fun _ L => L = (device_block <$> nodes h) ++ P)).
    + unfold hierarchy_blocks. rewrite <- app_assoc. by apply triple_release_nodes.
    + intros _ L ->. by apply triple_ret.
  - intros _ L ->. by apply triple_ret.
Qed.

(** ** One item *)

Definition parsing_ok (st : parsing D) : Prop :=
  hierarchy_ok (hierarchy st) /\ hasMultipleDevices st = false
  /\ current st = head (device_block <$> nodes (hierarchy st)).

(** After an item: the state goes on, or the parser gave up and at most one
    device object stays allocated. *)
Definition item_post {S} (blocks_of : S -> list nat) (ok : S -> Prop) (P : list nat) (r : option S) (L : list nat) : Prop :=
  match r with
  | Some st => ok st /\ L ≡ₚ blocks_of st ++ P
  | None => exists leaked, (length leaked <= 1)%nat /\ L ≡ₚ leaked ++ P
  end.

Abbreviation parsing_post := (item_post (fun st : parsing D => hierarchy_blocks (hierarchy st)) parsing_ok).

Lemma parsing_abandon P (h : HIDHierarchy D) {S} (blocks_of : S -> list nat) ok :
  hierarchy_ok h -> triple no_fault (hierarchy_blocks h ++ P) (abandon h) (item_post blocks_of ok P).
Proof.
  intros Hok. eapply triple_post; [by apply triple_abandon|]. intros r L [-> ->]. eexists. split; [done|].
  exists (device_block <$> nodes h). split; [|done]. rewrite length_fmap. destruct Hok as [_ Hn].
  destruct (nodes h) as [|? [|]]; cbn; [lia|lia|done].
Qed.

Lemma triple_global_step P item st :
  parsing_ok st -> triple no_fault (hierarchy_blocks (hierarchy st) ++ P) (global_step item st) (parsing_post P).
Proof.
  intros Hok. unfold global_step. destruct (HandleGlobalItem item (current_device st) (parser st)) as [[e|] p].
  - by apply triple_ret.
  - apply parsing_abandon, Hok.
Qed.

Lemma triple_keyboard_usage al P st :
  parsing_ok st -> triple no_fault (hierarchy_blocks (hierarchy st) ++ P) (keyboard_usage al st) (parsing_post P).
Proof.
  intros (Hh & Hm & Hc). unfold keyboard_usage, GetDevice. pose proof Hh as [Hr Hn].
  destruct (nodes (hierarchy st)) as [|n [|]] eqn:En; [| |done].
  - cbn [find fmap option_fmap option_map]. rewrite Hc. cbn [head fmap list_fmap].
    apply (triple_bind _ _ _ _ _ _ (triple_Allocate no_fault _ al SIZEOF_KEYBOARD)).
    intros [b|] L ->; [|by apply parsing_abandon].
    apply (triple_bind _ _ _ _ (fun r L => if r.1 : bool then exists x, L = [x; b] ++ P /\ r.2 = with_nodes (hierarchy st) [mkNode x b new_device]
      else L = b :: P /\ r.2 = hierarchy st)).
    { apply (triple_bind _ _ _ _ _ _ (triple_Allocate no_fault _ al SIZEOF_NODE)).
      assert (Hnil : hierarchy_blocks (hierarchy st) = []) by (unfold hierarchy_blocks; by rewrite En).
      rewrite Hnil. intros [x|] L ->; apply triple_ret; [|done]. exists x. split; [done|]. cbn [snd]. by rewrite En. }
    destruct new_device_ok as (N1 & N2 & N3).
    intros [[|] h] L; cbn [fst snd].
    + intros (x & -> & ->). apply triple_ret. split.
      * split; [|by split]. split; [exact Hr|]. by split.
      * unfold hierarchy_blocks, nodes_blocks, node_blocks. cbn. by rewrite N2.
    + intros [-> ->]. apply (triple_bind _ _ _ _ (fun _ L => L = b :: P)).
      { change (b :: P) with ([] ++ b :: P) at 1. rewrite <- N2. by apply device_release_ok. }
      intros _ L ->. apply (triple_perm _ _ (hierarchy_blocks (hierarchy st) ++ b :: P)).
      { unfold hierarchy_blocks. by rewrite En. }
      eapply triple_post; [apply (triple_abandon (b :: P) (hierarchy st) Hh)|]. rewrite En.
      intros r L [-> ->]. eexists. split; [done|]. by exists [b].
  - destruct Hn as [Hd Hk]. cbn [find fmap option_fmap option_map]. rewrite bool_decide_eq_true_2 by done.
    apply triple_ret. split; [|done]. split; [exact Hh|]. split; [done|]. cbn. by rewrite En.
Qed.

Lemma triple_local_step al P item st :
  parsing_ok st -> triple no_fault (hierarchy_blocks (hierarchy st) ++ P) (local_step al item st) (parsing_post P).
Proof.
  intros Hok. unfold local_step. destruct (HandleLocalItem item (current_device st) (parser st)) as [ok p].
  set (st' := mkParsing p _ _ _). assert (Hok' : parsing_ok st') by exact Hok.
  change (hierarchy st) with (hierarchy st'). pose proof (proj1 Hok') as Hh.
  destruct (negb ok); [by apply parsing_abandon|].
  destruct (negb _); [|by apply triple_ret].
  destruct (_ =? _); [|by apply parsing_abandon].
  destruct (_ && _); [by apply triple_keyboard_usage|by apply parsing_abandon].
Qed.

Lemma triple_main_step al P item st :
  parsing_ok st -> triple no_fault (hierarchy_blocks (hierarchy st) ++ P) (main_step al item st) (parsing_post P).
Proof.
  intros (Hh & Hm & Hc). unfold main_step. destruct (current st) as [b|] eqn:Hb; [|by apply parsing_abandon].
  pose proof Hh as [Hr Hn]. destruct (hierarchy st) as [l mult msz] eqn:Eh. cbn [nodes hasMultipleReports] in *.
  destruct l as [|n [|]]; [done| |done]. injection Hc as ->. destruct Hn as [Hd Hk].
  unfold find_device. cbn [nodes find fmap option_fmap option_map]. rewrite Nat.eqb_refl. cbn [fmap option_fmap option_map].
  destruct (main_call al item (globalState (parser st)) (localState (parser st)) (device n)) as [call|] eqn:Ecall; [|by apply parsing_abandon].
  assert (Hin : exists config type, In call [AddInput al (globalState (parser st)) (localState (parser st)) config (device n);
      AddOutput al (globalState (parser st)) (localState (parser st)) config (device n);
      StartCollection al (globalState (parser st)) (localState (parser st)) type (device n); EndCollection (device n)]).
  { exists (io_configuration (value item)), (default Application (collection_type (value item))).
    revert Ecall. unfold main_call. destruct (tag item) as [|t|t]; [done| |done].
    do 4 (destruct t as [t|t|]; try done); try (intros [= <-]; cbn; by auto);
    destruct (collection_type (value item)); [intros [= <-]; cbn; by auto|done]. }
  destruct Hin as (config & type & Hin).
  pose proof (device_call al (device n) (node_block n :: device_block n :: P) _ _ config type call Hd Hin) as Hcall.
  apply (triple_bind _ _ _ _ (fun r L => L ≡ₚ device_blocks r.2 ++ node_block n :: device_block n :: P
    /\ device_ok r.2 /\ GetDeviceClass r.2 = GetDeviceClass (device n))).
  { eapply triple_perm; [|exact Hcall]. unfold hierarchy_blocks, nodes_blocks, node_blocks. cbn.
    rewrite app_nil_r, <- app_assoc. cbn. by rewrite Permutation_middle. }
  intros [ok d] L; cbn [snd]. intros (HL & Hd' & Hcl). cbn [set_device nodes]. rewrite Nat.eqb_refl.
  set (h := with_nodes _ _).
  assert (Hh' : hierarchy_ok h) by (split; [exact Hr|]; cbn; split; [done|by rewrite Hcl]).
  assert (HL' : L ≡ₚ hierarchy_blocks h ++ P).
  { rewrite HL. unfold hierarchy_blocks, nodes_blocks, node_blocks. cbn. rewrite app_nil_r, <- app_assoc. cbn. by rewrite <- Permutation_middle. }
  eapply triple_perm; [exact HL'|]. destruct (negb ok); [by apply parsing_abandon|]. apply triple_ret. by split.
Qed.

Lemma triple_parse_item al P item st :
  parsing_ok st -> triple no_fault (hierarchy_blocks (hierarchy st) ++ P) (parse_item al item st) (parsing_post P).
Proof.
  intros Hok. unfold parse_item. destruct (item_type item);
    [by apply triple_main_step|by apply triple_global_step|by apply triple_local_step].
Qed.

(** ** The loop *)

Lemma triple_parse_items al data P : forall fuel position st,
  parsing_ok st -> 0 <= position -> Z.max 0 (Z.of_nat (length data) - position) < Z.of_nat fuel ->
  triple (overread data) (hierarchy_blocks (hierarchy st) ++ P)
    (parse_items al fuel data (Z.of_nat (length data)) position st) (parsing_post P).
Proof.
  induction fuel as [|fuel IH]; intros position st Hok Hp Hf; cbn [parse_items].
  { lia. }
  pose proof (GetNextItem_spec data position Hp) as Hg.
  apply (triple_bind _ _ _ _ (fun r L => L = hierarchy_blocks (hierarchy st) ++ P
    /\ match r with (Some _, position') => position < position' /\ position < Z.of_nat (length data) | _ => True end)).
  { apply triple_lift. destruct (GetNextItem _ _ _) as [e|[[it|] q]]; done. }
  intros [[item|] q] L [-> Hq]; [|by apply triple_ret].
  apply (triple_bind _ _ _ _ (parsing_post P)).
  - eapply triple_weaken; [|by apply triple_parse_item]. done.
  - intros [st'|] L; [intros [Hok' HL]|intros HL; by apply triple_ret].
    eapply triple_perm; [exact HL|]. apply IH; [done|lia|lia].
Qed.

(** C33: parsing a report descriptor always ends, within one step per byte. It
    faults only when the descriptor ends in a four-byte item that lacks its
    last byte, which is then read past the end of the buffer. A descriptor
    that is accepted gives a hierarchy of at most one device, which is never
    marked as having numbered reports, and the heap holds its blocks and
    nothing else besides what was there; one that is rejected leaves at most
    one block behind, the object of the device. No block is freed twice. *)
Theorem Parse_outcome (al : nat -> Z -> bool) (data : list Z) (s : blocks) (P : list nat) :
  heap_is s P ->
  match Parse al (S (length data)) data (Z.of_nat (length data)) s with
  | inl e => overread data e
  | inr (Some h, s') => hierarchy_ok h /\ heap_is s' (hierarchy_blocks h ++ P)
  | inr (None, s') => exists leaked, (length leaked <= 1)%nat /\ heap_is s' (leaked ++ P)
  end.
Proof.
  intros Hs.
  assert (Hparse : triple (overread data) P (Parse al (S (length data)) data (Z.of_nat (length data)))
    (item_post hierarchy_blocks hierarchy_ok P)).
  { apply (triple_bind _ _ _ _ (parsing_post P)).
    - apply (triple_parse_items al data P (S (length data)) 0 (mkParsing new_parser empty_hierarchy None false));
        [by split; [split|]|lia|lia].
    - intros [st|] L; [|intros HL; by apply triple_ret]. intros [(Hh & Hm & Hc) HL]. rewrite Hm. by apply triple_ret. }
  specialize (Hparse s Hs). destruct (Parse _ _ _ _ s) as [e|[[h|] s']]; [done| |].
  - destruct Hparse as (L & [Hh HL] & HL'). split; [done|]. by eapply heap_perm.
  - destruct Hparse as (L & (leaked & Hn & HL) & HL'). exists leaked. split; [done|]. by eapply heap_perm.
Qed.
End Hierarchy.

(** ** Reading items *)

Definition type_code (t : ItemType) : Z := match t with IT_Main => 0 | IT_Global => 1 | IT_Local => 2 end.
Definition size_code (n : nat) : Z := match n with 4%nat => 3 | _ => Z.of_nat n end.

(** An item as it is stored: tag, type and size in one byte, then its bytes. *)
Definition stored_item (t : ItemType) (tag : Z) (bytes : list Z) : list Z :=
  (16 * tag + 4 * type_code t + size_code (length bytes)) :: bytes.

(** The number the bytes make, the first one the most significant. *)
Definition big_endian (bytes : list Z) (acc : Z) : Z := foldl (fun acc b => 256 * acc + b) acc bytes.

Lemma byte_at_app l1 l2 i : 0 <= i -> byte_at (l1 ++ l2) (Z.of_nat (length l1) + i) = byte_at l2 i.
Proof.
  intros Hi. unfold byte_at. assert ((i <? 0) = false) as -> by (apply Z.ltb_ge; lia).
  assert ((Z.of_nat (length l1) + i <? 0) = false) as -> by (apply Z.ltb_ge; lia).
  rewrite lookup_app_r by lia. by replace (Z.to_nat (Z.of_nat (length l1) + i) - length l1)%nat with (Z.to_nat i) by lia.
Qed.

Lemma item_value_bytes bytes : forall pre post acc,
  Forall (fun b => 0 <= b < 256) bytes -> 0 <= acc -> (acc + 1) * 256 ^ Z.of_nat (length bytes) <= 2 ^ 32 ->
  item_value (length bytes) (pre ++ bytes ++ post) (Z.of_nat (length pre)) acc = inr (big_endian bytes acc).
Proof.
  induction bytes as [|b bytes IH]; intros pre post acc Hb Ha Hlt; cbn [item_value length]; [done|].
  apply Forall_cons in Hb as [Hb Hbs].
  assert (Hbyte : byte_at (pre ++ (b :: bytes) ++ post) (Z.of_nat (length pre)) = inr b).
  { replace (Z.of_nat (length pre)) with (Z.of_nat (length pre) + 0) by lia. by rewrite byte_at_app. }
  rewrite Hbyte. cbn [fault_bind].
  assert (Hpow : 256 ^ Z.of_nat (length (b :: bytes)) = 256 * 256 ^ Z.of_nat (length bytes)).
  { cbn [length]. rewrite Nat2Z.inj_succ, Z.pow_succ_r by lia. done. }
  rewrite Hpow in Hlt. pose proof (Z.pow_pos_nonneg 256 (Z.of_nat (length bytes)) ltac:(lia) ltac:(lia)) as Hp.
  assert (Hacc : u32 (Z.lor (u32 (Z.shiftl acc 8)) b) = 256 * acc + b).
  { rewrite (wrap_small 32 (Z.shiftl acc 8)) by (rewrite Z.shiftl_mul_pow2 by done; nia).
    rewrite (lor_shiftl_low acc b 8) by (done || lia). rewrite wrap_small; nia. }
  rewrite Hacc. replace (Z.of_nat (length pre) + 1) with (Z.of_nat (length (pre ++ [b]))) by (rewrite length_app; cbn; lia).
  replace (pre ++ (b :: bytes) ++ post) with ((pre ++ [b]) ++ bytes ++ post) by (rewrite <- app_assoc; done).
  rewrite IH; [done|done|lia|nia].
Qed.

Lemma item_prefix_fields t tag n :
  0 <= tag < 16 -> In n [0%nat; 1%nat; 2%nat; 4%nat] ->
  let prefix := 16 * tag + 4 * type_code t + size_code n in
  Z.land prefix 3 = size_code n /\ Z.land (Z.shiftr prefix 2) 3 = type_code t /\ Z.land (Z.shiftr prefix 4) 15 = tag.
Proof.
  intros Ht Hn. assert (Hs : 0 <= size_code n < 4) by (destruct Hn as [<-|[<-|[<-|[<-|[]]]]]; done).
  assert (Hc : 0 <= type_code t < 3) by by destruct t.
  assert (Hall : forallb (fun tag => forallb (fun c => forallb (fun z =>
      let p := 16 * tag + 4 * c + z in
      (Z.land p 3 =? z) && (Z.land (Z.shiftr p 2) 3 =? c) && (Z.land (Z.shiftr p 4) 15 =? tag)) (seqZ 0 4)) (seqZ 0 3)) (seqZ 0 16) = true)
    by (vm_compute; reflexivity).
  pose proof (forallb_seqZ _ _ _ (forallb_seqZ _ _ _ (forallb_seqZ _ _ _ Hall tag Ht) (type_code t) Hc) (size_code n) Hs) as H.
  cbv beta zeta in H |- *. apply andb_true_iff in H as [H H3]. apply andb_true_iff in H as [H1 H2].
  by rewrite !Z.eqb_eq in *.
Qed.

(** an item stored at the position of the parser, with 0, 1, 2 or 4 bytes
    of value, is read back with its type and tag, wherever it is and whatever
    follows, and the position moves just past it; its value is read with the
    most significant byte first. *)
Theorem GetNextItem_reads (t : ItemType) (tag : Z) (bytes pre post : list Z) :
  0 <= tag < 16 -> In (length bytes) [0%nat; 1%nat; 2%nat; 4%nat] -> Forall (fun b => 0 <= b < 256) bytes ->
  let data := pre ++ stored_item t tag bytes ++ post in
  GetNextItem data (Z.of_nat (length data)) (Z.of_nat (length pre))
    = inr (Some (mkReportItem t tag (big_endian bytes 0)), Z.of_nat (length (pre ++ stored_item t tag bytes))).
Proof.
  intros Ht Hn Hb data. destruct (item_prefix_fields t tag (length bytes) Ht Hn) as (F1 & F2 & F3).
  set (prefix := 16 * tag + 4 * type_code t + size_code (length bytes)) in *.
  assert (Hlen : Z.of_nat (length data) = Z.of_nat (length pre) + 1 + Z.of_nat (length bytes) + Z.of_nat (length post)).
  { unfold data, stored_item. rewrite !length_app. cbn [length]. lia. }
  unfold GetNextItem. assert ((Z.of_nat (length data) <=? Z.of_nat (length pre)) = false) as -> by (apply Z.leb_gt; lia).
  assert (Hbyte : byte_at data (Z.of_nat (length pre)) = inr prefix).
  { replace (Z.of_nat (length pre)) with (Z.of_nat (length pre) + 0) by lia. unfold data. by rewrite byte_at_app. }
  rewrite Hbyte. cbn [fault_bind]. rewrite F1, F2, F3.
  assert (Hsz : size_code (length bytes) <= Z.of_nat (length bytes) /\ value_bytes (size_code (length bytes)) = Z.of_nat (length bytes)).
  { destruct Hn as [<-|[<-|[<-|[<-|[]]]]]; done. }
  destruct Hsz as [Hsz ->].
  assert ((Z.of_nat (length data) <? Z.of_nat (length pre) + 1 + size_code (length bytes)) = false) as -> by (apply Z.ltb_ge; lia).
  assert (Hv : item_value (Z.to_nat (Z.of_nat (length bytes))) data (Z.of_nat (length pre) + 1) 0 = inr (big_endian bytes 0)).
  { rewrite Nat2Z.id. replace (Z.of_nat (length pre) + 1) with (Z.of_nat (length (pre ++ [prefix]))) by (rewrite length_app; cbn; lia).
    replace data with ((pre ++ [prefix]) ++ bytes ++ post) by (unfold data, stored_item; fold prefix; by rewrite <- app_assoc).
    apply item_value_bytes; [done|lia|]. destruct Hn as [<-|[<-|[<-|[<-|[]]]]]; done. }
  rewrite Hv. cbn [fault_bind].
  replace (Z.of_nat (length (pre ++ stored_item t tag bytes))) with (Z.of_nat (length pre) + 1 + Z.of_nat (length bytes))
    by (unfold stored_item; rewrite length_app; cbn [length]; lia).
  by destruct t.
Qed.

(** A logical maximum of 255 on two bytes is read as 65280. *)
Lemma GetNextItem_reads_witness :
  GetNextItem ([0x15; 0] ++ [0x26; 0xFF; 0x00] ++ []) 5 2 = inr (Some (mkReportItem IT_Global 2 0xFF00), 5).
Proof. exact (GetNextItem_reads IT_Global 2 [0xFF; 0x00] [0x15; 0] [] ltac:(done) ltac:(cbn; auto) ltac:(by repeat constructor)). Defined.

(** ** Descriptors *)

(** The report descriptor of the boot keyboard in the HID specification. *)
Definition boot_descriptor : list Z :=
  [0x05; 0x01; 0x09; 0x06; 0xA1; 0x01; 0x05; 0x07; 0x19; 0xE0; 0x29; 0xE7; 0x15; 0x00; 0x25; 0x01; 0x75; 0x01; 0x95; 0x08;
   0x81; 0x02; 0x95; 0x01; 0x75; 0x08; 0x81; 0x01; 0x95; 0x05; 0x75; 0x01; 0x05; 0x08; 0x19; 0x01; 0x29; 0x05; 0x91; 0x02;
   0x95; 0x01; 0x75; 0x03; 0x91; 0x01; 0x95; 0x06; 0x75; 0x08; 0x15; 0x00; 0x25; 0x65; 0x05; 0x07; 0x19; 0x00; 0x29; 0x65;
   0x81; 0x00; 0xC0].

(** The same with its reports numbered 1, as keyboards that also have media
    keys do. *)
Definition numbered_descriptor : list Z := take 6 boot_descriptor ++ [0x85; 0x01] ++ drop 6 boot_descriptor.

Definition always (n : nat) (size : Z) : bool := true.
Definition empty_heap : blocks := mkBlocks 0 [].

Lemma empty_heap_is : heap_is empty_heap [].
Proof. by split; [|split; [apply NoDup_nil_2|apply Forall_nil_2]]. Qed.

(** What the driver of a descriptor sends for a buffer of its report. *)
Definition sends (descriptor buffer : list Z) : option (list BasicKeyPacket) :=
  match Parse (D := Keyboard) always (S (length descriptor)) descriptor (Z.of_nat (length descriptor)) empty_heap with
  | inr (Some h, _) =>
      match HandleTransactionComplete buffer 1000 (mkDriver 0 (new_function 3 1 1 0) h 1 None 0 None) with
      | inr (_, packets) => Some packets
      | inl _ => None
      end
  | _ => None
  end.

(** reports with a number are not understood: of the keyboard whose
    reports are numbered the driver makes a device without numbered reports,
    takes the number for the first byte of a report of number 0, of which the
    keyboard knows none, and sends nothing, where the same keys of the boot
    keyboard send a packet. *)
Theorem numbered_reports_ignored :
  sends boot_descriptor [0; 0; 0x04; 0; 0; 0; 0; 0] = Some [mkPacket 0x04 (GetKeypoint 0x04) 0x100]
  /\ sends numbered_descriptor [1; 0; 0; 0x04; 0; 0; 0; 0; 0] = Some [].
Proof. split; vm_compute; reflexivity. Qed.

(** The size of the first input report of a hierarchy. *)
Definition first_report_size (h : HIDHierarchy Keyboard) : option Z :=
  n ← head (nodes h); c ← head (collections (device n)); r ← head (inputReports c); Some (GetReportSize r).

Lemma Parse_outcome_witness :
  exists h s', Parse (D := Keyboard) always 64 boot_descriptor 63 empty_heap = inr (Some h, s')
    /\ heap_is s' (hierarchy_blocks h ++ []) /\ first_report_size h = Some 8.
Proof.
  pose proof (Parse_outcome (D := Keyboard) always boot_descriptor empty_heap [] empty_heap_is) as H.
  change (length boot_descriptor) with 63%nat in H. change (Z.of_nat 63) with 63 in H.
  assert (E : match Parse (D := Keyboard) always 64 boot_descriptor 63 empty_heap with
              | inr (Some h, _) => bool_decide (first_report_size h = Some 8) | _ => false end = true) by (vm_compute; reflexivity).
  destruct (Parse always 64 boot_descriptor 63 empty_heap) as [e|[[h|] s']]; [discriminate E| |discriminate E].
  destruct H as [_ H]. exists h, s'. split; [reflexivity|]. split; [exact H|]. by apply bool_decide_eq_true_1 in E.
Defined.
