(* ===== verification/Storage.v ===== *)
(** * The interfaces of the storage stack
    ([kernel/include/devices/Block/Interface.hpp],
    [kernel/include/devices/Storage/Controller.hpp])

    A block device reads and writes ranges of blocks; a storage controller
    carries commands to a logical unit.  A buffer handed to a callee is a list
    of bytes, returned with what was written to it; an access outside of it is
    a [WildAccess]. *)
From S2P Require Import Prelude.

(** ** Block::Interface *)

Class Interface (D : Type) := {
  GetBlocksCount : D -> Z;
  GetBlockSize : D -> Z;
  ReadBlocks : Z -> Z -> list Z -> io D (bool * list Z);
  WriteBlocks : Z -> Z -> list Z -> io D bool }.

(** What a device that works promises: a fixed geometry, an array of bytes,
    and transfers of any range of its blocks. *)
Class DiskLaws (D : Type) `{Interface D} := {
  disk_ok : D -> Prop;
  contents : D -> list Z;
  disk_geometry : forall d, disk_ok d ->
    0 < GetBlockSize d < 2 ^ 64 /\ 0 <= GetBlocksCount d < 2 ^ 64 /\
    Z.of_nat (length (contents d)) = GetBlocksCount d * GetBlockSize d /\ Z.of_nat (length (contents d)) < 2 ^ 64;
  disk_bytes : forall d, disk_ok d -> Forall (fun b => 0 <= b < 256) (contents d);
  disk_read : forall d s n buf, disk_ok d -> 0 <= s -> 0 <= n -> s + n <= GetBlocksCount d ->
    n * GetBlockSize d <= Z.of_nat (length buf) ->
    exists d', ReadBlocks s n buf d =
        inr ((true, splice buf 0 (take (Z.to_nat (n * GetBlockSize d)) (drop (Z.to_nat (s * GetBlockSize d)) (contents d)))), d') /\
      disk_ok d' /\ contents d' = contents d /\ GetBlockSize d' = GetBlockSize d /\ GetBlocksCount d' = GetBlocksCount d;
  disk_write : forall d s n buf, disk_ok d -> 0 <= s -> 0 <= n -> s + n <= GetBlocksCount d ->
    n * GetBlockSize d <= Z.of_nat (length buf) -> Forall (fun b => 0 <= b < 256) buf ->
    exists d', WriteBlocks s n buf d = inr (true, d') /\ disk_ok d' /\
      contents d' = splice (contents d) (s * GetBlockSize d) (take (Z.to_nat (n * GetBlockSize d)) buf) /\
      GetBlockSize d' = GetBlockSize d /\ GetBlocksCount d' = GetBlocksCount d }.

(** ** Storage::Controller *)

(** [CommandPayload]; a null buffer is [None].  The data of an input transfer
    is returned by [SendCommand]. *)
Record CommandPayload := mkPayload {
  commandBuffer : option (list Z); commandLength : Z; dataBuffer : option (list Z); dataLength : Z;
  isInputTransfer : bool; payload_lun : Z }.

Class Controller (C : Type) := {
  GetMaxCommandLength : Z;
  GetMaxDataTransferLength : Z;
  SendCommand : CommandPayload -> io C (bool * option (list Z)) }.

(** ** What a controller carries, and what answers

    [execute lun command data n]: a logical unit runs a command block with the
    data sent to it and returns its status and at most [n] bytes. *)
Class CommandUnit (T : Type) := {
  execute : Z -> list Z -> list Z -> Z -> T -> bool * list Z * T }.

(** A controller that works hands the command to its unit and brings back the
    status and the data, for data of at most [carry_limit] bytes: a controller
    may announce longer transfers than it carries. *)
Class ControllerLaws (C T : Type) `{Controller C} `{CommandUnit T} := {
  controller_ok : C -> Prop;
  unit_of : C -> T;
  carry_limit : Z;
  send_executes : forall c p cmd buf, controller_ok c ->
    commandBuffer p = Some cmd -> Z.of_nat (length cmd) = commandLength p ->
    0 < commandLength p <= GetMaxCommandLength (C := C) ->
    dataBuffer p = Some buf -> 0 <= dataLength p <= Z.of_nat (length buf) ->
    dataLength p <= GetMaxDataTransferLength (C := C) -> dataLength p <= carry_limit ->
    Forall (fun b => 0 <= b < 256) cmd -> (isInputTransfer p = false -> Forall (fun b => 0 <= b < 256) buf) ->
    0 <= payload_lun p < 256 ->
    forall ok din t', execute (payload_lun p) cmd (if isInputTransfer p then [] else take (Z.to_nat (dataLength p)) buf)
        (if isInputTransfer p then dataLength p else 0) (unit_of c) = (ok, din, t') ->
      (isInputTransfer p = true -> Z.of_nat (length din) = dataLength p /\ Forall (fun b => 0 <= b < 256) din) ->
      exists c', SendCommand p c = inr ((ok, Some (if isInputTransfer p then splice buf 0 din else buf)), c') /\
        controller_ok c' /\ unit_of c' = t' }.

(** Big-endian numbers. *)
Definition be_bytes (n : nat) (x : Z) : list Z := rev (le_bytes n x).
Definition be (l : list Z) : Z := le (rev l).

(** The command blocks of the SCSI block commands. *)
Definition cdb10 (op lba n : Z) : list Z := [op; 0] ++ be_bytes 4 lba ++ [0] ++ be_bytes 2 n ++ [0].
Definition cdb16 (op lba n : Z) : list Z := [op; 0] ++ be_bytes 8 lba ++ be_bytes 4 n ++ [0; 0].

(** A SCSI disk: the commands the driver uses, on blocks that exist. *)
Class ScsiUnitLaws (T : Type) `{CommandUnit T} := {
  unit_ok : T -> Prop;
  media : T -> list Z;
  media_block : T -> Z;
  media_blocks : T -> Z;
  media_geometry : forall t, unit_ok t ->
    0 < media_block t < 2 ^ 32 /\ 0 < media_blocks t < 2 ^ 64 /\
    Z.of_nat (length (media t)) = media_blocks t * media_block t /\ Z.of_nat (length (media t)) < 2 ^ 64 /\
    Forall (fun b => 0 <= b < 256) (media t);
  unit_capacity10 : forall l t, unit_ok t ->
    execute l (0x25 :: replicate 9 0) [] 8 t =
      (true, be_bytes 4 (Z.min (media_blocks t - 1) 0xFFFFFFFF) ++ be_bytes 4 (media_block t), t);
  unit_capacity16 : forall l t, unit_ok t ->
    execute l (0x9E :: 0x10 :: replicate 11 0 ++ [12; 0; 0]) [] 12 t =
      (true, be_bytes 8 (media_blocks t - 1) ++ be_bytes 4 (media_block t), t);
  unit_read : forall l t op lba n, unit_ok t -> 0 <= lba -> 0 <= n -> lba + n <= media_blocks t ->
    op = cdb10 0x28 lba n /\ lba < 2 ^ 32 /\ n < 2 ^ 16 \/ op = cdb16 0x88 lba n /\ n < 2 ^ 32 ->
    execute l op [] (n * media_block t) t =
      (true, take (Z.to_nat (n * media_block t)) (drop (Z.to_nat (lba * media_block t)) (media t)), t);
  unit_write : forall l t op lba n data, unit_ok t -> 0 <= lba -> 0 <= n -> lba + n <= media_blocks t ->
    op = cdb10 0x2A lba n /\ lba < 2 ^ 32 /\ n < 2 ^ 16 \/ op = cdb16 0x8A lba n /\ n < 2 ^ 32 ->
    Z.of_nat (length data) = n * media_block t -> Forall (fun b => 0 <= b < 256) data ->
    exists t', execute l op data 0 t = (true, [], t') /\ unit_ok t' /\
      media t' = splice (media t) (lba * media_block t) data /\ media_block t' = media_block t /\ media_blocks t' = media_blocks t }.
