(* ===== verification/BlockDevice.v ===== *)
(** * Component: block devices and partitions
    ([kernel/src/devices/Block/Device.cpp],
    [kernel/include/devices/Block/Device.hpp])

    The boot sector and the GUID partition table, the reader of partition
    entries with its cache, the devices and partitions put in the device
    directory, their names, reads, writes and queries.  The block interface is
    the class [Interface], the device directory the class [DeviceDirectory];
    the answers of the heap are a list of booleans.  A read of a buffer past
    its end is a [WildAccess], a use of a null pointer a [NullAccess]. *)
From S2P Require Import Prelude Crc DataNode Storage.

(** ** Names *)

(** [kern::log] on unsigned integers; 64 divisions are enough for a base of two
    or more. *)
Fixpoint log_loop (fuel : nat) (value base result : Z) : Z :=
  match fuel with
  | O => result
  | S fuel => if base <=? value then log_loop fuel (value / base) base (result + 1) else result
  end.

Definition log (value base : Z) : Z := if base <=? 1 then 2 ^ 64 - 1 else log_loop 64 value base 0.

(** The loop that fills the last [n] characters from the end; [tail] is what
    follows them. *)
Fixpoint put_digits (n : nat) (id : Z) (tail : list Z) : list Z :=
  match n with
  | O => tail
  | S n => put_digits n (id / 10) (u8 (48 + id mod 10) :: tail)
  end.

Definition bdev : list Z := [98; 100; 101; 118].
Definition dash : Z := 45.

Definition id_length (id : Z) : Z := log id 10 + 1.
Definition id_name (id : Z) : list Z := put_digits (Z.to_nat (id_length id)) id [].

Definition Device_GetNameLength (deviceId : Z) : Z := 4 + id_length deviceId.
Definition Device_GetName (deviceId : Z) : list Z := bdev ++ id_name deviceId.
Definition Partition_GetNameLength (deviceId partitionId : Z) : Z := 4 + id_length deviceId + 1 + id_length partitionId.
Definition Partition_GetName (deviceId partitionId : Z) : list Z :=
  bdev ++ id_name deviceId ++ dash :: id_name partitionId.

(** ** Partitions and devices *)

Record Partition := mkPartition {
  partition_device : Z; partitionId : Z; firstBlock : Z; blocksCount : Z;
  typeGUID : list Z; uniqueGUID : list Z; valid : bool }.

Definition sizeof_GUID : Z := 16.
Definition zero_GUID : list Z := replicate 16 0.
Definition invalid_partition : Partition := mkPartition 0 0 0 0 zero_GUID zero_GUID false.

(** [partitions]: no array, or one whose elements are raw memory until a
    partition is constructed there.  [diskGUID] is raw memory until set. *)
Record Device := mkDevice {
  deviceId : Z; partitions : option (list (option Partition)); partitionsCount : Z;
  diskGUID : option (list Z); hasShortGUID : bool }.

Definition new_Device (id : Z) : Device := mkDevice id None 0 None false.
Definition SetGUID (g : list Z) (isShortGUID : bool) (d : Device) : Device :=
  mkDevice (deviceId d) (partitions d) (partitionsCount d) (Some g) isShortGUID.
Definition set_partitions (l : option (list (option Partition))) (n : Z) (d : Device) : Device :=
  mkDevice (deviceId d) l n (diskGUID d) (hasShortGUID d).

(** ** Reads, writes *)

Section Access.
Context {D : Type} `{Interface D}.

(** [limit]: the blocks of the partition or of the device; [first]: the block
    of the device where it starts. *)
Definition transfer_range (blockSize limit offset count : Z) : Status + (Z * Z) :=
  let startBlock := offset / blockSize in
  let endBlock := u64 (offset + count + blockSize - 1) / blockSize in
  let blocks := u64 (endBlock - startBlock) in
  if blocks =? 0 then inr (startBlock, 0)
  else if negb (offset mod blockSize =? 0) || negb (count mod blockSize =? 0) then inl INVALID_PARAMETER
  else if limit <? endBlock then inl OUT_OF_BOUNDS
  else inr (startBlock, blocks).

Definition read_range (limit first offset count : Z) (buffer : list Z) : io D ((Status + Z) * list Z) := fun d =>
  let blockSize := GetBlockSize d in
  if blockSize =? 0 then inl DivideByZero
  else
    match transfer_range blockSize limit offset count with
    | inl e => inr ((inl e, buffer), d)
    | inr (startBlock, blocksToRead) =>
        if blocksToRead =? 0 then inr ((inr 0, buffer), d)
        else
          match ReadBlocks (u64 (first + startBlock)) blocksToRead buffer d with
          | inl e => inl e
          | inr ((false, buffer), d) => inr ((inl DEVICE_ERROR, buffer), d)
          | inr ((true, buffer), d) => inr ((inr (u64 (blocksToRead * blockSize)), buffer), d)
          end
    end.

Definition write_range (limit first offset count : Z) (buffer : list Z) : io D (Status + Z) := fun d =>
  let blockSize := GetBlockSize d in
  if blockSize =? 0 then inl DivideByZero
  else
    match transfer_range blockSize limit offset count with
    | inl e => inr (inl e, d)
    | inr (startBlock, blocksToWrite) =>
        if blocksToWrite =? 0 then inr (inr 0, d)
        else
          match WriteBlocks (u64 (first + startBlock)) blocksToWrite buffer d with
          | inl e => inl e
          | inr (false, d) => inr (inl DEVICE_ERROR, d)
          | inr (true, d) => inr (inr (u64 (blocksToWrite * blockSize)), d)
          end
    end.

Definition Partition_Read (p : Partition) : Z -> Z -> list Z -> io D ((Status + Z) * list Z) :=
  read_range (blocksCount p) (firstBlock p).
Definition Partition_Write (p : Partition) : Z -> Z -> list Z -> io D (Status + Z) :=
  write_range (blocksCount p) (firstBlock p).
Definition Device_Read (offset count : Z) (buffer : list Z) : io D ((Status + Z) * list Z) := fun d =>
  read_range (GetBlocksCount d) 0 offset count buffer d.
Definition Device_Write (offset count : Z) (buffer : list Z) : io D (Status + Z) := fun d =>
  write_range (GetBlocksCount d) 0 offset count buffer d.

End Access.

(** ** Queries *)

Inductive PartitionQuery := PQ_INVALID | GET_PARTITION_TYPE_GUID | GET_PARTITION_UNIQUE_GUID.
Inductive DeviceQuery := DQ_INVALID | GET_DISK_GUID | GET_DISK_PARTITION_COUNT.

Definition partition_query (v : Z) : PartitionQuery :=
  if v =? 1 then GET_PARTITION_TYPE_GUID else if v =? 2 then GET_PARTITION_UNIQUE_GUID else PQ_INVALID.
Definition device_query (v : Z) : DeviceQuery :=
  if v =? 1 then GET_DISK_GUID else if v =? 2 then GET_DISK_PARTITION_COUNT else DQ_INVALID.

(** The memory a query may answer in: [queryResult] and [queryResultSize]; the
    answer is what is written at its start. *)
Definition answer (result : option Z) (data : list Z) : Status * list Z :=
  match result with
  | Some size => if size <? Z.of_nat (length data) then (INVALID_PARAMETER, []) else (SUCCESS, data)
  | None => (INVALID_PARAMETER, [])
  end.

Definition Partition_Query (p : Partition) (queryId : Z) (result : option Z) : Status * list Z :=
  match partition_query queryId with
  | PQ_INVALID => (INVALID_PARAMETER, [])
  | GET_PARTITION_TYPE_GUID => answer result (typeGUID p)
  | GET_PARTITION_UNIQUE_GUID => answer result (uniqueGUID p)
  end.

(** [raw]: what the memory of [diskGUID] holds when it was never set. *)
Definition Device_Query (raw : list Z) (d : Device) (queryId : Z) (result : option Z) : Status * list Z :=
  match device_query queryId with
  | DQ_INVALID => (INVALID_PARAMETER, [])
  | GET_DISK_GUID => answer result (default raw (diskGUID d))
  | GET_DISK_PARTITION_COUNT => answer result (le_bytes 8 (partitionsCount d))
  end.

(** ** The machine of [AddDevice] *)

(** What is put in the device directory: the device, or a partition by its
    index in the array of the device. *)
Inductive BlockNode := DeviceNode (device : Z) | PartitionNode (device index : Z).

#[global] Instance BlockNode_eq_dec : EqDecision BlockNode.
Proof. solve_decision. Defined.

(** [FS::IFNode::AddNode] of the device directory. *)
Class DeviceDirectory (N : Type) := {
  directory_AddNode : list Z -> BlockNode -> N -> Status * N }.

Record System (D N : Type) := mkSystem { disk : D; allocs : list bool; nextDeviceId : Z; directory : N }.
Arguments mkSystem {D N}.
Arguments disk {D N}.
Arguments allocs {D N}.
Arguments nextDeviceId {D N}.
Arguments directory {D N}.

Section System.
Context {D N : Type} `{Interface D} `{DeviceDirectory N}.
#[local] Abbreviation Sys := (io (System D N)).

(** What fresh heap memory holds. *)
Context (stale : Z -> Z).

Definition on_disk {A} : io D A -> Sys A :=
  zoom disk (fun d w => mkSystem d (allocs w) (nextDeviceId w) (directory w)).

(** The answer of [Heap::Allocate]; no more memory when the list is used up. *)
Definition heap_allocate : Sys bool := fun w =>
  match allocs w with
  | [] => inr (false, w)
  | b :: l => inr (b, mkSystem (disk w) l (nextDeviceId w) (directory w))
  end.

(** [kern::make_unique<uint8_t[]>(n)] *)
Definition make_buffer (n : Z) : Sys (option (list Z)) :=
  heap_allocate ≫= fun ok => mret (if ok : bool then Some (map stale (seqZ 0 n)) else None).

Definition AddNode (name : list Z) (n : BlockNode) : Sys Status := fun w =>
  let '(status, dir) := directory_AddNode name n (directory w) in
  inr (status, mkSystem (disk w) (allocs w) (nextDeviceId w) dir).

Definition next_device_id : Sys Z := fun w =>
  inr (nextDeviceId w, mkSystem (disk w) (allocs w) (u64 (nextDeviceId w + 1)) (directory w)).

Definition block_size : Sys Z := fun w => inr (GetBlockSize (disk w), w).
Definition blocks_count : Sys Z := fun w => inr (GetBlocksCount (disk w), w).

(** ** The boot sector *)

Record PartitionEntry := mkEntry {
  boot_indicator : Z; start_chs : list Z; partition_type : Z; end_chs : list Z; start_lba : Z; lba_count : Z }.
Record MBR := mkMBR { boot_code : list Z; disk_signature : Z; mbr_partitions : list PartitionEntry; mbr_signature : Z }.

Definition BOOT_CODE_LENGTH : Z := 440.
Definition DISK_SIGNATURE_OFFSET : Z := BOOT_CODE_LENGTH.
Definition PARTITION_ENTRIES_OFFSET : Z := DISK_SIGNATURE_OFFSET + 4 + 2.
Definition PARTITION_ENTRY_SIZE : Z := 16.
Definition SIGNATURE_OFFSET : Z := 510.

Definition all_zero (l : list Z) : bool := forallb (fun b => b =? 0) l.

Definition IsZero (e : PartitionEntry) : bool :=
  (boot_indicator e =? 0) && all_zero (start_chs e) && (partition_type e =? 0) && all_zero (end_chs e) &&
  (start_lba e =? 0) && (lba_count e =? 0).

Definition parse_entry (data : list Z) (i : Z) : option PartitionEntry :=
  let offset := PARTITION_ENTRIES_OFFSET + i * PARTITION_ENTRY_SIZE in
  boot ← load_le data offset 1;
  chs ← load data (offset + 1) 3;
  type ← load_le data (offset + 4) 1;
  chs' ← load data (offset + 5) 3;
  lba ← load_le data (offset + 8) 4;
  count ← load_le data (offset + 12) 4;
  Some (mkEntry boot chs type chs' lba count).

Definition parse_mbr (data : list Z) : option MBR :=
  code ← load data 0 BOOT_CODE_LENGTH;
  signature ← load_le data DISK_SIGNATURE_OFFSET 4;
  entries ← mapM (parse_entry data) (seqZ 0 4);
  sig ← load_le data SIGNATURE_OFFSET 2;
  Some (mkMBR code signature entries sig).

Definition FromBytes (data : list Z) : Sys (option MBR) :=
  heap_allocate ≫= fun ok =>
  if negb ok then mret None
  else
    or_stop WildAccess (parse_mbr data) ≫= fun mbr =>
    mret (if negb (mbr_signature mbr =? 0xAA55) then None else Some mbr).

(** The loop over the four entries: [None] when it returns false. *)
Fixpoint find_non_empty (l : list PartitionEntry) (i found : Z) : option Z :=
  match l with
  | [] => Some found
  | e :: l =>
      if IsZero e then find_non_empty l (i + 1) found
      else if negb (found =? -1) then None
      else find_non_empty l (i + 1) i
  end.

Definition PROTECTIVE_MBR_CHS_HEAD : Z := 2.
Definition PROTECTIVE_MBR_PARTITION_TYPE : Z := 0xEE.
Definition PROTECTIVE_MBR_FIRST_LBA : Z := 1.

Definition IsProtective (m : MBR) : bool :=
  match find_non_empty (mbr_partitions m) 0 (-1) with
  | None => false
  | Some i =>
      match (if i =? -1 then None else mbr_partitions m !! Z.to_nat i) with
      | None => false
      | Some p =>
          bool_decide (start_chs p = [0; PROTECTIVE_MBR_CHS_HEAD; 0]) &&
          (partition_type p =? PROTECTIVE_MBR_PARTITION_TYPE) && (start_lba p =? PROTECTIVE_MBR_FIRST_LBA)
      end
  end.

(** ** The GUID partition table *)

(** The header is the sector itself; these are its fields. *)
Definition sector_field (sector : list Z) (offset n : Z) : Z := default 0 (load_le sector offset n).

Definition gpt_signature (g : list Z) : Z := sector_field g 0 8.
Definition header_size (g : list Z) : Z := sector_field g 12 4.
Definition header_crc32 (g : list Z) : Z := sector_field g 16 4.
Definition my_lba (g : list Z) : Z := sector_field g 24 8.
Definition first_usable_lba (g : list Z) : Z := sector_field g 40 8.
Definition last_usable_lba (g : list Z) : Z := sector_field g 48 8.
Definition disk_guid (g : list Z) : list Z := default [] (load g 56 16).
Definition partition_entries_lba (g : list Z) : Z := sector_field g 72 8.
Definition partition_entry_count (g : list Z) : Z := sector_field g 80 4.
Definition partition_entry_size (g : list Z) : Z := sector_field g 84 4.
Definition partition_entries_crc32 (g : list Z) : Z := sector_field g 88 4.

Definition BATCH_SIZE : Z := 32.
Definition GPT_SIGNATURE : Z := 0x5452415020494645.

Definition batch_array_size (g : list Z) : Z := u64 (BATCH_SIZE * partition_entry_size g).
Definition blocks_for (bytes block_size : Z) : Z := u64 (bytes + block_size - 1) / block_size.

(** The number of bytes a batch checksums. *)
Definition batch_bytes (g : list Z) (batch_id : Z) : Z :=
  let batch_offset := u64 (batch_id * batch_array_size g) in
  let remaining_entries := u64 (partition_entry_count g - batch_offset / partition_entry_size g) in
  let batch_entries := if BATCH_SIZE <? remaining_entries then BATCH_SIZE else remaining_entries in
  u64 (batch_entries * partition_entry_size g).

Definition batch_lba (g : list Z) (block_size batch_id : Z) : Z :=
  u64 (partition_entries_lba g + u64 (batch_id * blocks_for (batch_array_size g) block_size)).

Fixpoint checksum_batches (g : list Z) (block_size : Z) (batches : list Z) (buffer : list Z) (crc : CRC32Engine)
    : Sys (option CRC32Engine) :=
  match batches with
  | [] => mret (Some crc)
  | batch_id :: batches =>
      let batch_size := batch_bytes g batch_id in
      let batch_blocks := blocks_for batch_size block_size in
      on_disk (ReadBlocks (batch_lba g block_size batch_id) batch_blocks buffer) ≫= fun '(ok, buffer) =>
      if negb ok then mret None
      else
        or_stop WildAccess (load buffer 0 batch_size) ≫= fun bytes =>
        checksum_batches g block_size batches buffer (CRC32Engine_Update crc bytes)
  end.

Definition IsPartitionArrayValid (g : list Z) (block_size : Z) : Sys bool :=
  blocks_count ≫= fun blocks =>
  if (partition_entry_size g <? 128) || (block_size <? partition_entry_size g) then mret false
  else if partition_entry_count g =? 0 then mret false
  else if (partition_entries_lba g <? 2) || (blocks <=? partition_entries_lba g) then mret false
  else
    let batch_array_blocks := blocks_for (batch_array_size g) block_size in
    let batch_count := u64 (partition_entry_count g + BATCH_SIZE - 1) / BATCH_SIZE in
    make_buffer (u64 (batch_array_blocks * block_size)) ≫= fun buffer =>
    match buffer with
    | None => mret false
    | Some buffer =>
        checksum_batches g block_size (seqZ 0 batch_count) buffer CRC32Engine_new ≫= fun crc =>
        match crc with
        | None => mret false
        | Some crc => mret (partition_entries_crc32 g =? CRC32Engine_Finalize crc)
        end
    end.

Definition GPT_IsValid (g : list Z) (lba block_size : Z) : Sys bool :=
  if negb (gpt_signature g =? GPT_SIGNATURE) then mret false
  else if (header_size g <? 92) || (block_size <? header_size g) then mret false
  else if negb (my_lba g =? lba) then mret false
  else
    or_stop WildAccess (load (splice g 16 [0; 0; 0; 0]) 0 (header_size g)) ≫= fun header =>
    if negb (CRC32 header =? header_crc32 g) then mret false
    else IsPartitionArrayValid g block_size.

(** ** Reading the partition entries *)

Record GPTPartitionEntry := mkGPTEntry {
  partition_type_guid : list Z; unique_partition_guid : list Z; starting_lba : Z; ending_lba : Z;
  attributes : Z; partition_name : list Z }.

Definition sizeof_GPTPartitionEntry : Z := 128.

Definition gpt_entry_of (b : list Z) : GPTPartitionEntry :=
  mkGPTEntry (take 16 b) (take 16 (drop 16 b)) (le (take 8 (drop 32 b))) (le (take 8 (drop 40 b)))
    (le (take 8 (drop 48 b))) (take 72 (drop 56 b)).

Record GPTPartitionFetcher := mkFetcher {
  currentPartition : Z; cachedPartitionIndex : Z; cachedPartitions : Z; cachedBlocks : Z; cached : option (list Z) }.

Definition new_fetcher (cachedPartitions : Z) : GPTPartitionFetcher := mkFetcher 0 0 cachedPartitions 0 None.

Section Fetcher.
Context (g : list Z) (blockSize : Z).

(** The cache is the buffer of the fetcher; a failed read may have changed it. *)
Definition read_cache (lba : Z) (f : GPTPartitionFetcher) (cache : list Z) : Sys (bool * GPTPartitionFetcher) :=
  on_disk (ReadBlocks lba (cachedBlocks f) cache) ≫= fun '(ok, cache) =>
  mret (ok, mkFetcher (currentPartition f) (cachedPartitionIndex f) (cachedPartitions f) (cachedBlocks f) (Some cache)).

Definition UpdateCache (partitionIndex : Z) (f : GPTPartitionFetcher) : Sys (bool * GPTPartitionFetcher) :=
  if partition_entry_count g <=? partitionIndex then mret (false, f)
  else
    let cache_lba := u64 (partition_entries_lba g + u64 (partitionIndex * partition_entry_size g) / blockSize) in
    or_stop NullAccess (cached f) ≫= fun cache =>
    read_cache cache_lba f cache ≫= fun '(ok, f) =>
    if negb ok then mret (false, f)
    else
      mret (true, mkFetcher (currentPartition f)
        (u64 (u64 (cache_lba - partition_entries_lba g) * blockSize) / partition_entry_size g)
        (cachedPartitions f) (cachedBlocks f) (cached f)).

Definition IsPartitionFullyWithinCache (partitionIndex : Z) (f : GPTPartitionFetcher) : bool :=
  let partition_end := u64 (partitionIndex * partition_entry_size g) in
  let cache_end := u64 (cachedPartitionIndex f * partition_entry_size g + cachedBlocks f * blockSize) in
  partition_end <=? cache_end.

Definition Fetcher_Initialize (f : GPTPartitionFetcher) : Sys (bool * GPTPartitionFetcher) :=
  let cache_size := u64 (cachedPartitions f * partition_entry_size g) in
  let cache_size := if cache_size =? 0 then blockSize else cache_size in
  let blocks := blocks_for cache_size blockSize in
  let partitions := u64 (blocks * blockSize) / partition_entry_size g in
  make_buffer (u64 (blocks * blockSize)) ≫= fun buffer =>
  let f := mkFetcher (currentPartition f) (cachedPartitionIndex f) partitions blocks buffer in
  match buffer with
  | None => mret (false, f)
  | Some cache => read_cache (partition_entries_lba g) f cache
  end.

Definition Fetcher_Reset (f : GPTPartitionFetcher) : Sys (bool * GPTPartitionFetcher) :=
  Fetcher_Initialize (mkFetcher 0 0 (cachedPartitions f) (cachedBlocks f) (cached f)).

Definition HasNext (f : GPTPartitionFetcher) : bool := currentPartition f <? partition_entry_count g.

Definition Next (f : GPTPartitionFetcher) : Sys (option GPTPartitionEntry * GPTPartitionFetcher) :=
  if negb (HasNext f) then mret (None, f)
  else
    (if (u64 (cachedPartitionIndex f + cachedPartitions f) <=? currentPartition f) ||
        negb (IsPartitionFullyWithinCache (currentPartition f) f)
     then UpdateCache (currentPartition f) f else mret (true, f)) ≫= fun '(ok, f) =>
    if negb ok then mret (None, f)
    else
      let partition_offset := u64 (currentPartition f - cachedPartitionIndex f) in
      or_stop NullAccess (cached f) ≫= fun cache =>
      or_stop WildAccess (load cache (u64 (partition_offset * partition_entry_size g)) sizeof_GPTPartitionEntry) ≫= fun bytes =>
      mret (Some (gpt_entry_of bytes),
        mkFetcher (u64 (currentPartition f + 1)) (cachedPartitionIndex f) (cachedPartitions f) (cachedBlocks f) (cached f)).

(** ** Adding a device *)

(** The test both loops of [AddDevice] skip an entry by. *)
Definition entry_skipped (e : GPTPartitionEntry) : bool :=
  ((starting_lba e =? 0) && (ending_lba e =? 0)) ||
  (starting_lba e <? first_usable_lba g) || (last_usable_lba g <? ending_lba e) || (ending_lba e <? starting_lba e).

(** [while (partition_fetcher.HasNext())], counting; [None]: an entry could not
    be fetched. *)
Fixpoint count_partitions (fuel : nat) (f : GPTPartitionFetcher) (count : Z) : Sys (option Z * GPTPartitionFetcher) :=
  if negb (HasNext f) then mret (Some count, f)
  else
    match fuel with
    | O => stop Hang
    | S fuel =>
        Next f ≫= fun '(e, f) =>
        match e with
        | None => mret (None, f)
        | Some e => count_partitions fuel f (if entry_skipped e then count else u64 (count + 1))
        end
    end.

(** [new (partition) Partition(...)] at element [i] of the array. *)
Definition construct_at (d : Device) (i : Z) (p : Partition) : Sys Device :=
  or_stop NullAccess (partitions d) ≫= fun l =>
  if Z.of_nat (length l) <=? i then stop WildAccess
  else mret (set_partitions (Some (<[Z.to_nat i := Some p]> l)) (partitionsCount d) d).

Definition partition_of (id index : Z) (e : GPTPartitionEntry) : Partition :=
  mkPartition id index (starting_lba e) (u64 (ending_lba e - starting_lba e + 1))
    (partition_type_guid e) (unique_partition_guid e) true.

Definition add_partition (d : Device) (index : Z) (e : GPTPartitionEntry) : Sys Device :=
  construct_at d index (partition_of (deviceId d) index e) ≫= fun d =>
  heap_allocate ≫= fun ok =>
  if negb ok then construct_at d index invalid_partition
  else
    AddNode (Partition_GetName (deviceId d) index) (PartitionNode (deviceId d) index) ≫= fun status =>
    if bool_decide (status = SUCCESS) then mret d else construct_at d index invalid_partition.

Fixpoint create_partitions (fuel : nat) (f : GPTPartitionFetcher) (current_partition : Z) (d : Device) : Sys Device :=
  if negb (HasNext f) then mret d
  else
    match fuel with
    | O => stop Hang
    | S fuel =>
        Next f ≫= fun '(e, f) =>
        match e with
        | None => mret d
        | Some e =>
            if entry_skipped e then create_partitions fuel f current_partition d
            else
              add_partition d current_partition e ≫= fun d =>
              create_partitions fuel f (u64 (current_partition + 1)) d
        end
    end.

Definition load_partitions (d : Device) : Sys Device :=
  let fuel := Z.to_nat (partition_entry_count g) in
  Fetcher_Initialize (new_fetcher 32) ≫= fun '(ok, f) =>
  if negb ok then mret d
  else
    count_partitions fuel f 0 ≫= fun '(count, f) =>
    match count with
    | None => mret d
    | Some partition_count =>
        Fetcher_Reset f ≫= fun '(ok, f) =>
        if negb ok then mret d
        else
          heap_allocate ≫= fun ok =>
          let array := if ok : bool then Some (replicate (Z.to_nat partition_count) None) else None in
          create_partitions fuel f 0 (set_partitions array partition_count d)
    end.

End Fetcher.

Definition PRIMARY_GPT_LBA : Z := 1.

(** [sizeof(Partition)] is not needed: the heap answers for the array. *)
Definition load_table (d : Device) : Sys Device :=
  block_size ≫= fun blockSize =>
  make_buffer blockSize ≫= fun buffer =>
  match buffer with
  | None => mret d
  | Some gpt_sector =>
      on_disk (ReadBlocks PRIMARY_GPT_LBA 1 gpt_sector) ≫= fun '(ok, gpt) =>
      if negb ok then mret d
      else
        GPT_IsValid gpt PRIMARY_GPT_LBA blockSize ≫= fun ok =>
        if negb ok then mret d
        else load_partitions gpt blockSize (SetGUID (disk_guid gpt) false d)
  end.

(** [present]: the interface is not null. *)
Definition AddDevice (present : bool) : Sys (option Device) :=
  if negb present then mret None
  else
    block_size ≫= fun blockSize =>
    make_buffer blockSize ≫= fun buffer =>
    match buffer with
    | None => mret None
    | Some boot_sector =>
        on_disk (ReadBlocks 0 1 boot_sector) ≫= fun '(ok, boot_sector) =>
        if negb ok then mret None
        else
          FromBytes boot_sector ≫= fun mbr =>
          next_device_id ≫= fun id =>
          heap_allocate ≫= fun ok =>
          if negb ok then mret None
          else
            heap_allocate ≫= fun ok =>
            if negb ok then mret None
            else
              AddNode (Device_GetName id) (DeviceNode id) ≫= fun status =>
              if negb (bool_decide (status = SUCCESS)) then mret None
              else
                or_stop NullAccess mbr ≫= fun mbr =>
                if IsProtective mbr then load_table (new_Device id) ≫= fun d => mret (Some d)
                else mret (Some (new_Device id))
    end.

End System.
