(* ===== verification/BlockDeviceProps.v ===== *)
(** * Block devices: properties

    Names tell devices and partitions apart, a partition is an isolated part of
    its disk, what the validation of a partition table accepts, and the
    partitions [AddDevice] finds on a disk. *)
From S2P Require Import Prelude Crc DataNode Storage BlockDevice.

(** ** Names *)

Definition digit (c : Z) : Prop := 48 <= c < 58.
Definition number_of (v : Z) (l : list Z) : Z := foldl (fun v c => 10 * v + (c - 48)) v l.

(** The name of what is in the device directory. *)
Definition node_name (n : BlockNode) : list Z :=
  match n with
  | DeviceNode id => Device_GetName id
  | PartitionNode id index => Partition_GetName id index
  end.

(** The size of the buffer allocated for it. *)
Definition node_name_length (n : BlockNode) : Z :=
  match n with
  | DeviceNode id => Device_GetNameLength id
  | PartitionNode id index => Partition_GetNameLength id index
  end.

Definition node_ids_ok (n : BlockNode) : Prop :=
  match n with
  | DeviceNode id => 0 <= id < 2 ^ 64
  | PartitionNode id index => 0 <= id < 2 ^ 64 /\ 0 <= index < 2 ^ 64
  end.

Lemma log_loop_spec fuel v r :
  0 <= v < 10 ^ (Z.of_nat fuel + 1) ->
  exists k, log_loop fuel v 10 r = r + k /\ 0 <= k /\ v < 10 ^ (k + 1).
Proof.
  revert v r. induction fuel as [|fuel IH]; intros v r Hv; simpl.
  - exists 0. split_and!; [lia..|]. exact (proj2 Hv).
  - destruct (Z.leb_spec 10 v) as [Hge|Hlt].
    + destruct (IH (v / 10) (r + 1)) as (k & E & Hk & Hb).
      { split; [apply Z.div_pos; lia|]. apply Z.div_lt_upper_bound; [lia|].
        replace (Z.of_nat (S fuel) + 1) with (Z.succ (Z.of_nat fuel + 1)) in Hv by lia.
        rewrite Z.pow_succ_r in Hv by lia. lia. }
      exists (k + 1). split_and!; [lia..|].
      replace (k + 1 + 1) with (Z.succ (k + 1)) by lia. rewrite Z.pow_succ_r by lia.
      pose proof (Z.mul_succ_div_gt v 10 ltac:(lia)). lia.
    + exists 0. split_and!; [lia..|]. exact Hlt.
Qed.

Lemma id_length_spec id : 0 <= id < 2 ^ 64 -> 1 <= id_length id /\ id < 10 ^ id_length id.
Proof.
  intros Hid. unfold id_length, log. cbn [Z.leb Z.compare Pos.compare Pos.compare_cont].
  destruct (log_loop_spec 64 id 0) as (k & E & Hk & Hb).
  { split; [lia|]. apply Z.lt_trans with (2 ^ 64); [lia|reflexivity]. }
  rewrite E. split; [lia|]. by replace (0 + k + 1) with (k + 1) by lia.
Qed.

Lemma put_digits_spec n id tail :
  put_digits n id tail = put_digits n id [] ++ tail /\
  length (put_digits n id tail) = (n + length tail)%nat /\
  (Forall digit tail -> Forall digit (put_digits n id tail)) /\
  number_of 0 (put_digits n id tail) = number_of (id mod 10 ^ Z.of_nat n) tail.
Proof.
  revert id tail. induction n as [|n IH]; intros id tail; simpl.
  - rewrite Z.mod_1_r. auto.
  - pose proof (Z.mod_pos_bound id 10 ltac:(lia)) as Hm.
    assert (Hc : u8 (48 + id mod 10) = 48 + id mod 10) by (apply wrap_small; lia).
    destruct (IH (id / 10) (u8 (48 + id mod 10) :: tail)) as (E & Hl & Hd & Hv).
    destruct (IH (id / 10) [u8 (48 + id mod 10)]) as (E' & _ & _ & _).
    split_and!.
    + rewrite E, E', <- app_assoc. reflexivity.
    + rewrite Hl. simpl. lia.
    + intros Ht. apply Hd. constructor; [|exact Ht]. unfold digit. lia.
    + rewrite Hv, Hc. cbn [number_of foldl].
      replace (Z.of_nat (S n)) with (Z.succ (Z.of_nat n)) by lia. rewrite Z.pow_succ_r by lia.
      rewrite Z.rem_mul_r by (try lia; apply Z.pow_nonzero; lia).
      unfold number_of. f_equal. lia.
Qed.

Lemma id_name_spec id : 0 <= id < 2 ^ 64 ->
  Z.of_nat (length (id_name id)) = id_length id /\ Forall digit (id_name id) /\ number_of 0 (id_name id) = id.
Proof.
  intros Hid. destruct (id_length_spec id Hid) as [Hl Hb].
  destruct (put_digits_spec (Z.to_nat (id_length id)) id []) as (_ & Hn & Hd & Hv).
  unfold id_name. split_and!.
  - rewrite Hn. simpl. lia.
  - by apply Hd.
  - rewrite Hv, Z2Nat.id by lia. apply Z.mod_small. lia.
Qed.

Lemma id_name_inj a b : 0 <= a < 2 ^ 64 -> 0 <= b < 2 ^ 64 -> id_name a = id_name b -> a = b.
Proof.
  intros Ha Hb E. destruct (id_name_spec a Ha) as (_ & _ & Ea). destruct (id_name_spec b Hb) as (_ & _ & Eb). congruence.
Qed.

Lemma digits_dash l1 l2 r1 r2 :
  Forall digit l1 -> Forall digit l2 -> l1 ++ dash :: r1 = l2 ++ dash :: r2 -> l1 = l2 /\ r1 = r2.
Proof.
  revert l2. induction l1 as [|a l1 IH]; intros [|b l2] H1 H2 E; simplify_eq/=.
  - auto.
  - inversion H2 as [|? ? Hd]. subst. unfold digit, dash in Hd. lia.
  - inversion H1 as [|? ? Hd]. subst. unfold digit, dash in Hd. lia.
  - inversion H1. inversion H2. subst. destruct (IH l2) as [-> ->]; auto.
Qed.

Lemma digits_no_dash l r : Forall digit l -> Forall digit (l ++ dash :: r) -> False.
Proof. rewrite Forall_app, Forall_cons. unfold digit, dash. lia. Qed.

(** The name of a device or partition fits the buffer allocated for it,
    and two devices or partitions never share a name. *)
Theorem names_fit_and_differ (m n : BlockNode) :
  node_ids_ok m -> node_ids_ok n ->
  Z.of_nat (length (node_name m)) = node_name_length m /\ (node_name m = node_name n -> m = n).
Proof.
  intros Hm Hn. split.
  - destruct m as [id|id index]; simpl in *; unfold Device_GetNameLength, Partition_GetNameLength, Partition_GetName.
    + destruct (id_name_spec id Hm) as (<- & _). lia.
    + destruct Hm as [Hi Hx]. destruct (id_name_spec id Hi) as (<- & _). destruct (id_name_spec index Hx) as (<- & _).
      rewrite !length_app. simpl. rewrite ?length_app. simpl. lia.
  - destruct m as [a|a i], n as [b|b j]; simpl in *; unfold Device_GetName, Partition_GetName; intros E; apply app_inv_head in E.
    + f_equal. by apply id_name_inj.
    + destruct Hn as [Hb Hj]. destruct (id_name_spec b Hb) as (_ & Hd & _). destruct (id_name_spec a Hm) as (_ & Hd' & _).
      rewrite E in Hd'. destruct (digits_no_dash _ _ Hd Hd').
    + destruct Hm as [Ha Hi]. destruct (id_name_spec b Hn) as (_ & Hd & _). destruct (id_name_spec a Ha) as (_ & Hd' & _).
      rewrite <- E in Hd. destruct (digits_no_dash _ _ Hd' Hd).
    + destruct Hm as [Ha Hi], Hn as [Hb Hj].
      destruct (id_name_spec a Ha) as (_ & Hda & _). destruct (id_name_spec b Hb) as (_ & Hdb & _).
      destruct (digits_dash _ _ _ _ Hda Hdb E) as [E1 E2]. f_equal; by apply id_name_inj.
Qed.

Lemma names_fit_and_differ_witness :
  Z.of_nat (length (Partition_GetName 12 0)) = 8 /\ Partition_GetName 12 0 <> Partition_GetName 1 20.
Proof.
  assert (Ha : node_ids_ok (PartitionNode 12 0)) by (split; lia).
  assert (Hb : node_ids_ok (PartitionNode 1 20)) by (split; lia).
  destruct (names_fit_and_differ (PartitionNode 12 0) (PartitionNode 1 20) Ha Hb) as [Hl Hd].
  split; [exact Hl|]. intros E. discriminate (Hd E).
Defined.

(** ** Partitions as isolated parts of a disk *)

Section Access.
Context {D : Type} `{DiskLaws D}.

Definition lies_on (p : Partition) (d : D) : Prop :=
  0 <= firstBlock p /\ 0 <= blocksCount p /\ firstBlock p + blocksCount p <= GetBlocksCount d.
Definition apart (p q : Partition) : Prop :=
  firstBlock p + blocksCount p <= firstBlock q \/ firstBlock q + blocksCount q <= firstBlock p.

(** The bytes of a partition, from its offset 0 on. *)
Definition partition_bytes (p : Partition) (d : D) : list Z :=
  take (Z.to_nat (blocksCount p * GetBlockSize d)) (drop (Z.to_nat (firstBlock p * GetBlockSize d)) (contents d)).

Lemma transfer_range_spec bs limit off cnt :
  0 < bs -> 0 <= off -> 0 <= cnt -> off + cnt + bs <= 2 ^ 64 ->
  match transfer_range bs limit off cnt with
  | inr (s, n) => off = s * bs /\ cnt = n * bs /\ 0 <= s /\ 0 <= n /\ (0 < n -> s + n <= limit)
  | inl _ => cnt <> 0 \/ off mod bs <> 0
  end /\
  (0 <= limit -> (exists s n, transfer_range bs limit off cnt = inr (s, n)) <->
    off mod bs = 0 /\ cnt mod bs = 0 /\ (cnt = 0 \/ off + cnt <= limit * bs)).
Proof.
  intros Hbs Ho Hc Hw. unfold transfer_range. cbv zeta.
  assert (He : u64 (off + cnt + bs - 1) = off + cnt + bs - 1) by (apply wrap_small; lia). rewrite He.
  assert (0 <= off / bs <= (off + cnt + bs - 1) / bs) by (split; [apply Z.div_pos; lia | apply Z.div_le_mono; lia]).
  assert ((off + cnt + bs - 1) / bs <= off + cnt + bs - 1) by (apply Z.div_le_upper_bound; nia).
  assert (Hb : u64 ((off + cnt + bs - 1) / bs - off / bs) = (off + cnt + bs - 1) / bs - off / bs) by (apply wrap_small; lia).
  rewrite Hb. set (e := (off + cnt + bs - 1) / bs) in *.
  assert (Hoff : off = bs * (off / bs) + off mod bs) by (apply Z.div_mod; lia).
  assert (Hcnt : cnt = bs * (cnt / bs) + cnt mod bs) by (apply Z.div_mod; lia).
  pose proof (Z.mod_pos_bound off bs Hbs). pose proof (Z.mod_pos_bound cnt bs Hbs).
  assert (0 <= cnt / bs) by (apply Z.div_pos; lia).
  assert (Hal : off mod bs = 0 -> cnt mod bs = 0 -> e = off / bs + cnt / bs).
  { intros E1 E2. symmetry. apply Z.div_unique with (bs - 1); lia. }
  assert (Hz : e - off / bs = 0 -> cnt = 0 /\ off mod bs = 0).
  { intros E. assert (off + cnt + bs - 1 < bs * (e + 1)) by (replace (e + 1) with (Z.succ e) by lia; apply Z.mul_succ_div_gt; lia). nia. }
  destruct (Z.eqb_spec (e - off / bs) 0) as [E0|E0].
  { destruct (Hz E0) as [Ec Eo]. split; [split_and!; lia|]. intros _. split.
    - intros _. split_and!; [exact Eo | rewrite Ec; apply Z.mod_0_l; lia | by left].
    - intros _. eauto. }
  destruct (Z.eqb_spec (off mod bs) 0) as [Eo|Eo], (Z.eqb_spec (cnt mod bs) 0) as [Ec|Ec]; cbn [negb orb].
  2-4: split; [lia|]; intros _; split; [intros (? & ? & ?); discriminate | intros (? & ? & ?); lia].
  specialize (Hal Eo Ec). rewrite Hal in *.
  destruct (Z.ltb_spec limit (off / bs + cnt / bs)) as [Hl|Hl].
  - split; [lia|]. intros Hlim. split; [intros (? & ? & ?); discriminate|]. intros (_ & _ & [|Hr]); nia.
  - split; [split_and!; lia|]. intros Hlim. split; [|eauto]. intros _. split_and!; [done..|right]. nia.
Qed.

Lemma take_drop_splice_same (c : list Z) (i n off : nat) data :
  (i + n <= length c)%nat -> (off + length data <= n)%nat ->
  take n (drop i (splice c (Z.of_nat (i + off)) data)) = splice (take n (drop i c)) (Z.of_nat off) data.
Proof.
  intros Hc Hd. apply list_eq. intros k.
  rewrite lookup_splice by (rewrite ?length_take, ?length_drop; lia).
  destruct (decide (k < n)%nat) as [Hk|Hk].
  - rewrite !lookup_take_lt by done. rewrite !lookup_drop, lookup_splice by lia.
    repeat case_decide; try lia; [f_equal; lia | done].
  - rewrite lookup_take_ge by lia. rewrite decide_False by lia. by rewrite lookup_take_ge by lia.
Qed.

Lemma take_drop_splice_apart (c : list Z) (i n j : nat) data :
  (j + length data <= length c)%nat -> (i + n <= j \/ j + length data <= i)%nat ->
  take n (drop i (splice c (Z.of_nat j) data)) = take n (drop i c).
Proof.
  intros Hc Hd. apply list_eq. intros k.
  destruct (decide (k < n)%nat) as [Hk|Hk].
  - rewrite !lookup_take_lt by done. rewrite !lookup_drop, lookup_splice by lia. rewrite decide_False by lia. done.
  - by rewrite !lookup_take_ge by lia.
Qed.

Lemma splice_whole (buf data : list Z) : length buf = length data -> splice buf 0 data = data.
Proof. intros E. unfold splice. simpl. by rewrite drop_ge, app_nil_r by lia. Qed.

Lemma take_drop_splice (c : list Z) (i : nat) data :
  (i + length data <= length c)%nat -> take (length data) (drop i (splice c (Z.of_nat i) data)) = data.
Proof.
  intros Hc. unfold splice. rewrite Nat2Z.id.
  rewrite drop_app_le by (rewrite length_take; lia). rewrite drop_ge, app_nil_l by (rewrite length_take; lia).
  by rewrite take_app_le, firstn_all by lia.
Qed.

(** The bytes of [n] blocks from block [s] of a partition lie inside it. *)
Lemma partition_span (p : Partition) (d : D) s n :
  disk_ok d -> lies_on p d -> 0 <= s -> 0 <= n -> s + n <= blocksCount p ->
  0 < GetBlockSize d /\ firstBlock p + s + n <= GetBlocksCount d /\ firstBlock p + s + n < 2 ^ 64 /\
  (s + n) * GetBlockSize d <= blocksCount p * GetBlockSize d /\
  (firstBlock p + blocksCount p) * GetBlockSize d <= Z.of_nat (length (contents d)).
Proof.
  intros Hd (Hf & Hb & Hp) Hs Hn Hr. destruct (disk_geometry d Hd) as (Hbs & HN & Hl & _).
  rewrite Hl. split_and!; nia.
Qed.

Lemma write_accepted (p : Partition) (d : D) s n data :
  disk_ok d -> lies_on p d -> 0 <= s -> 0 <= n -> s + n <= blocksCount p ->
  Z.of_nat (length data) = n * GetBlockSize d -> Forall (fun b => 0 <= b < 256) data ->
  exists d', WriteBlocks (u64 (firstBlock p + s)) n data d = inr (true, d') /\ disk_ok d' /\
    contents d' = splice (contents d) (Z.of_nat (Z.to_nat (firstBlock p * GetBlockSize d) + Z.to_nat (s * GetBlockSize d))) data /\
    GetBlockSize d' = GetBlockSize d /\ GetBlocksCount d' = GetBlocksCount d.
Proof.
  intros Hd Hp Hs Hn Hr Hl Hby. destruct (partition_span p d s n Hd Hp Hs Hn Hr) as (Hbs & HN & Hw & _).
  assert (u64 (firstBlock p + s) = firstBlock p + s) as -> by (apply wrap_small; destruct Hp; lia).
  destruct Hp as (Hf & _).
  destruct (disk_write d (firstBlock p + s) n data Hd) as (d' & E & Hd' & Hc & Hg); [nia..|done|].
  exists d'. split_and!; [done|done| |apply Hg..].
  rewrite Hc. rewrite <- Hl, Nat2Z.id, firstn_all. f_equal. nia.
Qed.

Lemma read_accepted (p : Partition) (d : D) s n buf :
  disk_ok d -> lies_on p d -> 0 <= s -> 0 <= n -> s + n <= blocksCount p ->
  Z.of_nat (length buf) = n * GetBlockSize d ->
  exists d', ReadBlocks (u64 (firstBlock p + s)) n buf d =
      inr ((true, take (length buf) (drop (Z.to_nat (s * GetBlockSize d)) (partition_bytes p d))), d') /\
    disk_ok d' /\ contents d' = contents d.
Proof.
  intros Hd Hp Hs Hn Hr Hl. destruct (partition_span p d s n Hd Hp Hs Hn Hr) as (Hbs & HN & Hw & Hi & Hj).
  assert (u64 (firstBlock p + s) = firstBlock p + s) as -> by (apply wrap_small; destruct Hp; lia).
  destruct Hp as (Hf & Hb & Hp).
  destruct (disk_read d (firstBlock p + s) n buf Hd) as (d' & E & Hd' & Hc & _); [nia..|].
  exists d'. split_and!; [|done..]. rewrite E. do 3 f_equal.
  assert (Hlen : length (take (Z.to_nat (n * GetBlockSize d)) (drop (Z.to_nat ((firstBlock p + s) * GetBlockSize d)) (contents d))) = length buf).
  { rewrite length_take, length_drop. nia. }
  rewrite splice_whole by done. rewrite <- Hl, Nat2Z.id. unfold partition_bytes.
  rewrite skipn_firstn_comm, take_take, drop_drop. f_equal; [nia|]. f_equal. nia.
Qed.

(** C4: A write through a partition either changes nothing and says why, or
    stores exactly the given bytes at the given offset of that partition,
    which a read gives back; the bytes of every other partition stay. *)
Theorem partition_write_isolated (p q : Partition) (off : Z) (data : list Z) (d : D) :
  disk_ok d -> lies_on p d -> lies_on q d -> apart p q ->
  0 <= off -> off + Z.of_nat (length data) + GetBlockSize d <= 2 ^ 64 -> Forall (fun b => 0 <= b < 256) data ->
  exists r d', Partition_Write p off (Z.of_nat (length data)) data d = inr (r, d') /\ disk_ok d' /\
    partition_bytes q d' = partition_bytes q d /\
    ((exists n, r = inr n) <-> off mod GetBlockSize d = 0 /\ Z.of_nat (length data) mod GetBlockSize d = 0 /\
       (data = [] \/ off + Z.of_nat (length data) <= blocksCount p * GetBlockSize d)) /\
    match r with
    | inl _ => contents d' = contents d
    | inr n =>
        n = Z.of_nat (length data) /\
        (data <> [] -> partition_bytes p d' = splice (partition_bytes p d) off data /\
           forall buf, length buf = length data ->
             exists d'', Partition_Read p off n buf d' = inr ((inr n, data), d'') /\ contents d'' = contents d')
    end.
Proof.
  intros Hd Hp Hq Ha Ho Hw Hby. pose proof (disk_geometry d Hd) as (Hbs & HN & Hlen & _).
  destruct (transfer_range_spec (GetBlockSize d) (blocksCount p) off (Z.of_nat (length data))) as [Hr Hiff]; [lia..|].
  specialize (Hiff (proj1 (proj2 Hp))).
  assert (Hnil : Z.of_nat (length data) = 0 <-> data = []) by (split; [destruct data; [done|simpl; lia] | by intros ->]).
  rewrite Hnil in Hiff. unfold Partition_Write, write_range. rewrite (proj2 (Z.eqb_neq (GetBlockSize d) 0)) by lia.
  destruct (transfer_range _ _ _ _) as [e|[s n]] eqn:E.
  { exists (inl e), d. rewrite <- Hiff. split_and!; [done..| |done]. split; intros (? & H1); [discriminate | by destruct H1]. }
  destruct Hr as (Eo & El & Hs & Hn & Hlim). destruct (Z.eqb_spec n 0) as [->|Hn0].
  { exists (inr 0), d. rewrite <- Hiff. assert (data = []) as -> by (apply Hnil; lia). split_and!; [done..| |done|done]. split; eauto. }
  assert (Hpos : 0 < n) by lia. specialize (Hlim Hpos).
  assert (Hu : u64 (n * GetBlockSize d) = Z.of_nat (length data)) by (rewrite <- El; apply wrap_small; lia).
  destruct (write_accepted p d s n data Hd Hp Hs Hn Hlim El Hby) as (d' & EW & Hd' & Hc & HgB & HgN). rewrite EW.
  destruct (partition_span p d s n Hd Hp Hs Hn Hlim) as (_ & _ & _ & Hin & Hend).
  exists (inr (u64 (n * GetBlockSize d))), d'. rewrite Hu, <- Hiff.
  split_and!; [done|done| | split; eauto |done|].
  - unfold partition_bytes. rewrite HgB, Hc. destruct Hp as (? & ? & _), Hq as (? & ? & ?).
    clear E EW Hiff Hby. apply take_drop_splice_apart; [nia|]. destruct Ha as [Ha|Ha]; [right|left];
      apply (Z.mul_le_mono_nonneg_r _ _ (GetBlockSize d)) in Ha; nia.
  - intros _. assert (Hsame : partition_bytes p d' = splice (partition_bytes p d) off data).
    { unfold partition_bytes. rewrite HgB, Hc. destruct Hp as (? & ? & _).
      rewrite take_drop_splice_same by nia. f_equal. lia. }
    split; [exact Hsame|]. intros buf Hbuf. unfold Partition_Read, read_range. rewrite HgB, E, (proj2 (Z.eqb_neq (GetBlockSize d) 0)), (proj2 (Z.eqb_neq n 0)) by lia.
    assert (Hp' : lies_on p d') by (unfold lies_on; by rewrite HgN).
    destruct (read_accepted p d' s n buf Hd' Hp' Hs Hn Hlim) as (d'' & ER & _ & Hc''); [rewrite HgB; lia|].
    rewrite ER. exists d''. split; [|exact Hc'']. rewrite Hu. do 3 f_equal.
    rewrite Hsame, HgB, Hbuf. replace off with (Z.of_nat (Z.to_nat (s * GetBlockSize d))) by lia.
    apply take_drop_splice. unfold partition_bytes. rewrite length_take, length_drop. destruct Hp as (? & ? & _). nia.
Qed.
End Access.

(** A request whose end passes 2^64 defeats the bounds check: [Read] of a
    partition asks the device for [2^64 - j] blocks. *)
Theorem partition_request_wraps {D : Type} `{Interface D} (p : Partition) (k j b : Z) (buf : list Z) (d : D) :
  0 <= b < 64 -> GetBlockSize d = 2 ^ b -> 0 < j -> j <= k -> (k + 1) * 2 ^ b <= 2 ^ 64 -> k - j <= blocksCount p ->
  Partition_Read p (k * 2 ^ b) (2 ^ 64 - j * 2 ^ b) buf d =
    match ReadBlocks (u64 (firstBlock p + k)) (2 ^ 64 - j) buf d with
    | inl e => inl e
    | inr ((ok, buf), d') => inr ((if ok then inr (2 ^ 64 - j * 2 ^ b) else inl DEVICE_ERROR, buf), d')
    end.
Proof.
  intros Hb Hbs Hj Hk Hw Hlim. unfold Partition_Read, read_range. rewrite Hbs.
  assert (Hp : 0 < 2 ^ b) by (apply pow2_pos; lia).
  assert (Hd : 2 ^ 64 = 2 ^ (64 - b) * 2 ^ b) by (rewrite <- Z.pow_add_r by lia; f_equal; lia).
  set (B := 2 ^ b) in *. set (T := 2 ^ 64) in *. set (U := 2 ^ (64 - b)) in *. clearbody U.
  assert (HT : B <= T) by nia.
  rewrite (proj2 (Z.eqb_neq B 0)) by lia. unfold transfer_range. cbv zeta.
  assert (E1 : u64 (k * B + (T - j * B) + B - 1) = (k - j) * B + (B - 1)).
  { unfold wrap. fold T. replace (k * B + (T - j * B) + B - 1) with ((k - j) * B + (B - 1) + 1 * T) by lia.
    rewrite Z.mod_add by lia. apply Z.mod_small. nia. }
  rewrite E1, Z.div_mul, Z.div_add_l, (Z.div_small (B - 1) B), Z.add_0_r by lia.
  assert (E2 : u64 (k - j - k) = T - j).
  { unfold wrap. fold T. replace (k - j - k) with (T - j + (-1) * T) by lia. rewrite Z.mod_add by lia. apply Z.mod_small. nia. }
  rewrite E2. rewrite (proj2 (Z.eqb_neq (T - j) 0)) by nia. rewrite Z.mod_mul by lia.
  assert (E3 : (T - j * B) mod B = 0) by (rewrite Hd; replace (U * B - j * B) with ((U - j) * B) by lia; apply Z.mod_mul; lia).
  rewrite E3. cbn [Z.eqb negb orb]. rewrite (proj2 (Z.ltb_ge (blocksCount p) (k - j))) by lia.
  rewrite (proj2 (Z.eqb_neq (T - j) 0)) by nia.
  assert (E4 : u64 ((T - j) * B) = T - j * B).
  { unfold wrap. fold T. replace ((T - j) * B) with (T - j * B + (B - 1) * T) by lia. rewrite Z.mod_add by lia. apply Z.mod_small. nia. }
  rewrite E4. destruct (ReadBlocks _ _ _ _) as [e|[[[] buf'] d']]; reflexivity.
Qed.

(** ** A disk in memory *)

Record RamDisk := mkRam { ram_block : Z; ram_bytes : list Z }.

#[global] Instance ram_interface : Interface RamDisk := {
  GetBlocksCount d := Z.of_nat (length (ram_bytes d)) / ram_block d;
  GetBlockSize := ram_block;
  ReadBlocks s n buf d :=
    match load (ram_bytes d) (s * ram_block d) (n * ram_block d) with
    | None => inr ((false, buf), d)
    | Some data => match put buf 0 data with None => inl WildAccess | Some buf => inr ((true, buf), d) end
    end;
  WriteBlocks s n buf d :=
    match load buf 0 (n * ram_block d) with
    | None => inl WildAccess
    | Some data =>
        match put (ram_bytes d) (s * ram_block d) data with
        | None => inr (false, d)
        | Some l => inr (true, mkRam (ram_block d) l)
        end
    end }.

Definition ram_ok (d : RamDisk) : Prop :=
  0 < ram_block d < 2 ^ 64 /\ Z.of_nat (length (ram_bytes d)) < 2 ^ 64 /\
  Z.of_nat (length (ram_bytes d)) mod ram_block d = 0 /\ Forall (fun b => 0 <= b < 256) (ram_bytes d).

Lemma ram_geometry (d : RamDisk) : ram_ok d ->
  Z.of_nat (length (ram_bytes d)) = GetBlocksCount d * GetBlockSize d /\ 0 <= GetBlocksCount d < 2 ^ 64.
Proof.
  intros (Hb & Hl & Hm & _). simpl. pose proof (Z.div_mod (Z.of_nat (length (ram_bytes d))) (ram_block d) ltac:(lia)).
  assert (0 <= Z.of_nat (length (ram_bytes d)) / ram_block d) by (apply Z.div_pos; lia). nia.
Qed.

Lemma Forall_splice (P : Z -> Prop) buf i bytes : Forall P buf -> Forall P bytes -> Forall P (splice buf i bytes).
Proof. intros. unfold splice. rewrite !Forall_app. split_and!; [by apply Forall_take|done|by apply Forall_drop]. Qed.

#[global] Program Instance ram_laws : DiskLaws RamDisk := {| disk_ok := ram_ok; contents := ram_bytes |}.
Next Obligation. intros d Hd. destruct (ram_geometry d Hd) as [E HN]. destruct Hd as (Hb & Hl & _). exact (conj Hb (conj HN (conj E Hl))). Qed.
Next Obligation. by intros d (_ & _ & _ & ?). Qed.
Next Obligation.
  intros d s n buf Hd Hs Hn Hr Hl. destruct (ram_geometry d Hd) as [E _]. destruct Hd as (Hb & Hd). exists d. simpl in *.
  rewrite load_some by nia. rewrite put_some by (rewrite ?length_take, ?length_drop; nia). split_and!; done.
Qed.
Next Obligation.
  intros d s n buf Hd Hs Hn Hr Hl Hby. destruct (ram_geometry d Hd) as [E _]. destruct Hd as (Hb & H1 & H2 & H3). simpl in *.
  rewrite load_some, put_some by (rewrite ?length_take, ?length_drop; nia).
  eexists. split_and!; [reflexivity| |done..|].
  - unfold ram_ok. simpl. rewrite length_splice by (rewrite ?length_take, ?length_drop; nia).
    refine (conj Hb (conj H1 (conj H2 _))). apply Forall_splice; [done|]. by apply Forall_take, Forall_drop.
  - simpl. rewrite length_splice by (rewrite ?length_take, ?length_drop; nia). done.
Qed.

Definition small_disk : RamDisk := mkRam 4 (replicate 32 7).
Definition part_a : Partition := mkPartition 0 0 1 3 zero_GUID zero_GUID true.
Definition part_b : Partition := mkPartition 0 1 4 2 zero_GUID zero_GUID true.

Lemma partition_write_isolated_witness :
  exists r d', Partition_Write part_a 4 8 [1; 2; 3; 4; 5; 6; 7; 8] small_disk = inr (r, d') /\
    partition_bytes part_b d' = replicate 8 7 /\ r = inr 8.
Proof.
  assert (Hd : disk_ok small_disk).
  { unfold disk_ok. simpl. unfold ram_ok. simpl. split_and!; try lia; [reflexivity|]. repeat constructor; lia. }
  assert (Ha : lies_on part_a small_disk) by (vm_compute; intuition discriminate).
  assert (Hb : lies_on part_b small_disk) by (vm_compute; intuition discriminate).
  assert (Hn : apart part_a part_b) by (left; simpl; lia).
  assert (Hby : Forall (fun b => 0 <= b < 256) [1; 2; 3; 4; 5; 6; 7; 8]) by (repeat constructor; lia).
  destruct (partition_write_isolated part_a part_b 4 [1; 2; 3; 4; 5; 6; 7; 8] small_disk Hd Ha Hb Hn ltac:(lia) ltac:(vm_compute; discriminate) Hby)
    as (r & d' & E & _ & Hq & Hok & Hr).
  exists r, d'. split; [exact E|]. split; [exact Hq|].
  destruct (proj2 Hok) as [n ->]; [vm_compute; split; [reflexivity|]; split; [reflexivity|]; right; discriminate|].
  destruct Hr as [-> _]. reflexivity.
Defined.

Lemma partition_request_wraps_witness :
  Partition_Read part_a (1 * 2 ^ 2) (2 ^ 64 - 1 * 2 ^ 2) [] small_disk = inr ((inl DEVICE_ERROR, []), small_disk).
Proof.
  assert (Hs : GetBlockSize small_disk = 2 ^ 2) by reflexivity.
  rewrite (partition_request_wraps part_a 1 1 2 [] small_disk ltac:(lia) Hs ltac:(lia) ltac:(lia) ltac:(lia) ltac:(simpl; lia)).
  reflexivity.
Defined.
