(* ===== verification/GptProps.v ===== *)
(** * Partition tables: properties

    What the validation of a GUID partition table accepts, the order in which
    the cached reader returns its entries, and the partitions [AddDevice] puts
    in the device directory, on a disk that works. *)
From S2P Require Import Prelude Crc DataNode Storage BlockDevice BlockDeviceProps.

(** ** Bytes *)

Lemma le_range l : Forall (fun b => 0 <= b < 256) l -> 0 <= le l < 256 ^ Z.of_nat (length l).
Proof.
  induction 1 as [|b l Hb _ IH]; cbn [le length]; [lia|].
  replace (Z.of_nat (S (length l))) with (Z.succ (Z.of_nat (length l))) by lia. rewrite Z.pow_succ_r by lia. lia.
Qed.

Lemma load_Forall (P : Z -> Prop) buf i n l : Forall P buf -> load buf i n = Some l -> Forall P l /\ Z.of_nat (length l) = n.
Proof.
  intros Hb E. unfold load in E. destruct (_ && _) eqn:Ec; [|done]. injection E as <-.
  apply andb_prop in Ec as [Ec H3]. apply andb_prop in Ec as [H1 H2]. apply Z.leb_le in H1, H2, H3.
  split; [by apply Forall_take, Forall_drop|]. rewrite length_take, length_drop. lia.
Qed.

Lemma sector_field_range g off n : Forall (fun b => 0 <= b < 256) g -> 0 <= n -> 0 <= sector_field g off n < 256 ^ n.
Proof.
  intros Hg Hn. unfold sector_field, load_le. destruct (load g off n) as [l|] eqn:E; cbn.
  - destruct (load_Forall _ _ _ _ _ Hg E) as [Hl <-]. by apply le_range.
  - split; [done|]. by apply Z.pow_pos_nonneg.
Qed.

Lemma take_take_drop_add (c : list Z) (i n m k : nat) :
  (k + m <= n)%nat -> take m (drop k (take n (drop i c))) = take m (drop (i + k) c).
Proof.
  intros Hk. rewrite skipn_firstn_comm, take_take, drop_drop. f_equal. lia.
Qed.

(** ** Computations on a disk that works *)

Section Gpt.
Context {D N : Type} `{DiskLaws D} `{DeviceDirectory N} (stale : Z -> Z).

(** The bytes of the disk, the size and the number of its blocks. *)
Context (c : list Z) (bs blocks : Z).

Definition held (d : D) : Prop :=
  disk_ok d /\ contents d = c /\ GetBlockSize d = bs /\ GetBlocksCount d = blocks.

Lemma held_geometry d : held d ->
  (0 < bs < 2 ^ 64 /\ 0 <= blocks < 2 ^ 64 /\ Z.of_nat (length c) = blocks * bs /\ Z.of_nat (length c) < 2 ^ 64) /\
  Forall (fun b => 0 <= b < 256) c.
Proof. intros (Hd & <- & <- & <-). split; [by apply disk_geometry | by apply disk_bytes]. Qed.

Definition blocks_at (s n : Z) : list Z := take (Z.to_nat (n * bs)) (drop (Z.to_nat (s * bs)) c).

(** What a computation consumes besides the disk: the answers of the heap, the
    next device number, the directory. *)
Definition rest : Type := list bool * Z * N.

Definition system_of (d : D) (r : rest) : System D N := mkSystem d r.1.1 r.1.2 r.2.

(** From [r], [m] returns [x] and leaves [r']. *)
Definition act {A} (m : io (System D N) A) (r : rest) (x : A) (r' : rest) : Prop :=
  forall d, held d -> exists d', m (system_of d r) = inr (x, system_of d' r') /\ held d'.

Lemma act_ret {A} (x : A) r : act (mret x) r x r.
Proof. intros d Hd. by exists d. Qed.

Lemma act_bind {A B} (m : io (System D N) A) (f : A -> io (System D N) B) r x r1 y r2 :
  act m r x r1 -> act (f x) r1 y r2 -> act (m ≫= f) r y r2.
Proof.
  intros Hm Hf d Hd. destruct (Hm d Hd) as (d1 & E1 & Hd1). destruct (Hf d1 Hd1) as (d2 & E2 & Hd2).
  exists d2. split; [|done]. unfold mbind, io_bind. by rewrite E1.
Qed.

Lemma act_or_stop {A} e (o : option A) x r : o = Some x -> act (or_stop e o) r x r.
Proof. intros ->. apply act_ret. Qed.

Lemma act_allocate b a i dir : act heap_allocate (b :: a, i, dir) b (a, i, dir).
Proof. intros d Hd. by exists d. Qed.

Lemma act_buffer n a i dir : act (make_buffer stale n) (true :: a, i, dir) (Some (map stale (seqZ 0 n))) (a, i, dir).
Proof. apply act_bind with true (a, i, dir); [apply act_allocate | apply act_ret]. Qed.

Lemma act_block_size r : act block_size r bs r.
Proof. intros d Hd. exists d. split; [|done]. destruct Hd as (_ & _ & <- & _). done. Qed.

Lemma act_blocks_count r : act blocks_count r blocks r.
Proof. intros d Hd. exists d. split; [|done]. destruct Hd as (_ & _ & _ & <-). done. Qed.

Lemma act_device_id a i dir : act next_device_id (a, i, dir) i (a, u64 (i + 1), dir).
Proof. intros d Hd. by exists d. Qed.

Lemma act_AddNode name n a i dir dir' :
  directory_AddNode name n dir = (SUCCESS, dir') -> act (AddNode name n) (a, i, dir) SUCCESS (a, i, dir').
Proof. intros E d Hd. exists d. split; [|done]. unfold AddNode. cbn. by rewrite E. Qed.

Lemma act_read s n buf r :
  0 <= s -> 0 <= n -> s + n <= blocks -> n * bs <= Z.of_nat (length buf) ->
  act (on_disk (ReadBlocks s n buf)) r (true, splice buf 0 (blocks_at s n)) r.
Proof.
  intros Hs Hn Hr Hl d (Hd & Hc & Hb & HN). destruct (disk_read d s n buf Hd) as (d' & E & Hd' & Hc' & Hb' & HN'); [congruence || lia..|].
  exists d'. split; [|repeat split; congruence]. unfold on_disk, zoom. cbn. rewrite E. unfold blocks_at. by rewrite Hb, Hc.
Qed.

Lemma length_buffer n : 0 <= n -> Z.of_nat (length (map stale (seqZ 0 n))) = n.
Proof. intros. rewrite length_map, length_seqZ. lia. Qed.

(** Reading inside the blocks just read. *)
Lemma load_blocks buf s n off m :
  0 <= s -> 0 <= n -> 0 < bs -> (s + n) * bs <= Z.of_nat (length c) -> n * bs <= Z.of_nat (length buf) ->
  0 <= off -> 0 <= m -> off + m <= n * bs ->
  load (splice buf 0 (blocks_at s n)) off m = Some (take (Z.to_nat m) (drop (Z.to_nat (s * bs + off)) c)).
Proof.
  intros Hs Hn Hb Hc Hl Ho Hm Hi. assert (0 <= n * bs) by nia. assert (0 <= s * bs) by nia.
  assert (Hlen : length (blocks_at s n) = Z.to_nat (n * bs)) by (unfold blocks_at; rewrite length_take, length_drop; nia).
  rewrite load_some by (try lia; rewrite length_splice; lia). f_equal.
  unfold splice. change (take (Z.to_nat 0) buf) with (@nil Z). rewrite app_nil_l, drop_app_le by lia. rewrite take_app_le by (rewrite length_drop; lia).
  unfold blocks_at. rewrite take_take_drop_add by lia. f_equal. f_equal. nia.
Qed.

(** ** The table of a disk *)

Section Table.
Context (g : list Z).
#[local] Abbreviation es := (partition_entry_size g).
#[local] Abbreviation count := (partition_entry_count g).
#[local] Abbreviation lba := (partition_entries_lba g).

(** Thirty-two entries fill whole blocks, and the disk holds the table up to
    the end of its last group of thirty-two. *)
Definition groups : Z := (count + 31) / 32.
Definition group_blocks : Z := 32 * es / bs.
Definition table_fits : Prop :=
  (32 * es) mod bs = 0 /\ lba + groups * group_blocks <= blocks.

Definition table_bytes : list Z := take (Z.to_nat (count * es)) (drop (Z.to_nat (lba * bs)) c).

Definition table_valid : bool :=
  (128 <=? es) && (es <=? bs) && negb (count =? 0) && (2 <=? lba) && (lba <? blocks) &&
  (crc32_spec table_bytes =? partition_entries_crc32 g).

(** The header as it is checksummed. *)
Definition header_bytes : list Z := take (Z.to_nat (header_size g)) (splice g 16 [0; 0; 0; 0]).

Definition header_valid (at_lba : Z) : bool :=
  (gpt_signature g =? GPT_SIGNATURE) && (92 <=? header_size g) && (header_size g <=? bs) && (my_lba g =? at_lba) &&
  (crc32_spec header_bytes =? header_crc32 g).

Definition entry_at (i : Z) : GPTPartitionEntry := gpt_entry_of (take 128 (drop (Z.to_nat (lba * bs + i * es)) c)).
Definition table_entries : list GPTPartitionEntry := map entry_at (seqZ 0 count).
Definition accepted : list GPTPartitionEntry := filter (fun e => entry_skipped g e = false) table_entries.

Hypothesis geometry : 0 < bs < 2 ^ 64 /\ 0 <= blocks < 2 ^ 64 /\ Z.of_nat (length c) = blocks * bs /\ Z.of_nat (length c) < 2 ^ 64.
Hypothesis bytes_c : Forall (fun b => 0 <= b < 256) c.
Hypothesis bytes_g : Forall (fun b => 0 <= b < 256) g.

Lemma count_range : 0 <= count < 2 ^ 32.
Proof. apply (sector_field_range g 80 4 bytes_g). lia. Qed.

Hypothesis fits : table_fits.
Hypothesis entry_sizes : 128 <= es <= bs.
Hypothesis entry_count : 0 < count.
Hypothesis entries_lba : 2 <= lba.

Lemma group_bytes : group_blocks * bs = 32 * es.
Proof. destruct fits as [Hm _]. unfold group_blocks. pose proof (Z.div_mod (32 * es) bs ltac:(lia)). lia. Qed.

Lemma groups_count : 32 * groups <= count + 31 /\ count <= 32 * groups /\ 0 < groups.
Proof. unfold groups. pose proof (Z.div_mod (count + 31) 32 ltac:(lia)). pose proof (Z.mod_pos_bound (count + 31) 32 ltac:(lia)). lia. Qed.

(** The blocks of group [k] and the bytes before it. *)
Lemma group_spec k :
  0 <= k < groups ->
  0 < group_blocks /\ 0 <= lba + k * group_blocks /\ lba + k * group_blocks + group_blocks <= blocks /\
  (lba + k * group_blocks) * bs = lba * bs + k * 32 * es /\
  lba * bs + k * 32 * es + 32 * es <= Z.of_nat (length c) /\ 32 * es < 2 ^ 64 /\ k * group_blocks < 2 ^ 64.
Proof.
  intros Hk. destruct fits as [_ Hf]. pose proof group_bytes as Hg. destruct geometry as (Hb & HN & Hl & Hl').
  assert (0 < group_blocks) by nia.
  assert (Hle : k * group_blocks + group_blocks <= groups * group_blocks) by nia.
  assert ((lba + k * group_blocks) * bs = lba * bs + k * 32 * es) by nia.
  assert (lba * bs + k * 32 * es + 32 * es <= Z.of_nat (length c)) by nia.
  split_and!; nia.
Qed.

Lemma table_start k : 0 <= k < groups -> 2 * bs + 32 * es <= Z.of_nat (length c).
Proof. intros Hk. destruct (group_spec k Hk) as (Hg & Hl & _ & _ & Hc & _). destruct geometry as (Hb & _). nia. Qed.

Lemma blocks_for_spec x k : 0 <= k < groups -> 0 <= x <= 32 * es ->
  0 <= blocks_for x bs <= group_blocks /\ x <= blocks_for x bs * bs.
Proof.
  intros Hk Hx. pose proof (table_start k Hk) as Ht. pose proof group_bytes as Hg. destruct geometry as (Hb & _ & _ & Hc).
  unfold blocks_for. assert (u64 (x + bs - 1) = x + bs - 1) as -> by (apply wrap_small; lia).
  pose proof (Z.div_mod (x + bs - 1) bs ltac:(lia)) as Hd. pose proof (Z.mod_pos_bound (x + bs - 1) bs ltac:(lia)) as Hm.
  set (q := (x + bs - 1) / bs) in *. clearbody q. nia.
Qed.

Lemma blocks_for_group k : 0 <= k < groups -> blocks_for (32 * es) bs = group_blocks.
Proof.
  intros Hk. destruct (blocks_for_spec (32 * es) k Hk) as [Hr Hx]; [lia|]. pose proof group_bytes as Hg.
  destruct geometry as (Hb & _). nia.
Qed.

Lemma batch_array k : 0 <= k < groups -> batch_array_size g = 32 * es.
Proof. intros Hk. destruct (group_spec k Hk) as (_ & _ & _ & _ & _ & Hs & _). apply wrap_small. lia. Qed.

Lemma batch_bytes_spec k : 0 <= k < groups ->
  batch_bytes g k = Z.min 32 (count - 32 * k) * es /\ batch_lba g bs k = lba + k * group_blocks /\ 0 < count - 32 * k.
Proof.
  intros Hk. destruct (group_spec k Hk) as (Hg & Hl & Hlb & Hm & Hc & Hs & Hkg).
  pose proof groups_count as Hgc. pose proof count_range as Hcr. destruct geometry as (Hb & HN & _ & HC).
  unfold batch_bytes, batch_lba. cbv zeta. rewrite (batch_array k Hk), (blocks_for_group k Hk).
  assert (u64 (k * (32 * es)) = (32 * k) * es) as -> by (rewrite wrap_small; [lia|nia]).
  rewrite Z.div_mul by lia.
  assert (u64 (count - 32 * k) = count - 32 * k) as -> by (apply wrap_small; lia).
  assert (u64 (k * group_blocks) = k * group_blocks) as -> by (apply wrap_small; nia).
  assert (u64 (lba + k * group_blocks) = lba + k * group_blocks) as -> by (apply wrap_small; lia).
  unfold BATCH_SIZE. split_and!; [|done|lia].
  assert (Hle : forall m, 0 <= m <= 32 -> u64 (m * es) = m * es).
  { intros m Hr. apply wrap_small. clear -Hr Hs entry_sizes. split; [nia|]. apply Z.le_lt_trans with (32 * es); [|exact Hs]. nia. }
  destruct (Z.ltb_spec 32 (count - 32 * k)); [rewrite Z.min_l by lia | rewrite Z.min_r by lia]; apply Hle; lia.
Qed.

(** The bytes of the table from group [k] on. *)
Definition table_from (k : Z) : list Z :=
  take (Z.to_nat (count * es - k * 32 * es)) (drop (Z.to_nat (lba * bs + k * 32 * es)) c).

Lemma table_from_step k : 0 <= k < groups ->
  table_from k = take (Z.to_nat (batch_bytes g k)) (drop (Z.to_nat (lba * bs + k * 32 * es)) c) ++ table_from (k + 1).
Proof.
  intros Hk. destruct (batch_bytes_spec k Hk) as (-> & _ & Hp). destruct geometry as (Hb & _). unfold table_from.
  destruct (Z.le_gt_cases 32 (count - 32 * k)) as [Hf|Hl].
  - rewrite Z.min_l by lia.
    replace (Z.to_nat (lba * bs + (k + 1) * 32 * es)) with (Z.to_nat (lba * bs + k * 32 * es) + Z.to_nat (32 * es))%nat by nia.
    rewrite <- drop_drop, take_take_drop. f_equal. nia.
  - rewrite Z.min_r by lia. replace (Z.to_nat (count * es - (k + 1) * 32 * es)) with 0%nat by nia.
    rewrite take_0, app_nil_r. f_equal. nia.
Qed.

Lemma checksum_spec (n : nat) k buf crc r :
  0 <= k -> k + Z.of_nat n = groups -> Z.of_nat (length buf) = 32 * es ->
  act (checksum_batches g bs (seqZ k (Z.of_nat n)) buf crc) r (Some (CRC32Engine_Update crc (table_from k))) r.
Proof.
  revert k buf crc. induction n as [|n IH]; intros k buf crc Hk Hn Hl.
  - assert (table_from k = []) as ->; [|destruct crc; apply act_ret].
    unfold table_from. pose proof groups_count. replace (Z.to_nat (count * es - k * 32 * es)) with 0%nat by nia. apply take_0.
  - assert (Hk' : 0 <= k < groups) by lia. rewrite seqZ_cons by lia. cbn [checksum_batches].
    replace (Z.pred (Z.of_nat (S n))) with (Z.of_nat n) by lia.
    destruct (batch_bytes_spec k Hk') as (Hbb & Hlb & Hp). destruct (group_spec k Hk') as (Hg & Hg0 & Hgn & Hgb & Hgc & _).
    destruct geometry as (Hb & HN & HC & _).
    destruct (blocks_for_spec (batch_bytes g k) k Hk') as [Hbf Hbx]; [rewrite Hbb; nia|].
    rewrite Hlb. pose proof group_bytes as Hgs.
    eapply act_bind; [apply act_read; [lia|lia|lia|nia]|]. cbn [negb].
    eapply act_bind; [apply act_or_stop, load_blocks; [lia|lia|lia|rewrite HC; nia|nia|lia|rewrite Hbb; nia|lia]|].
    rewrite table_from_step by done. rewrite Hgb, Z.add_0_r.
    unfold CRC32Engine_Update at 2. rewrite foldl_app. apply (IH (Z.succ k)); [lia|lia|].
    rewrite length_splice; [done|lia|]. rewrite Hl. unfold blocks_at. rewrite length_take.
    assert (0 <= blocks_for (batch_bytes g k) bs * bs <= 32 * es) by (clear -Hbf Hgs Hb; nia). lia.
Qed.

Lemma CRC32_spec l : Forall (fun b => 0 <= b < 256) l -> CRC32 l = crc32_spec l.
Proof. intros Hl. unfold CRC32, crc32_spec. by rewrite crc_fold_spec. Qed.

Lemma table_checksum :
  CRC32Engine_Finalize (CRC32Engine_Update CRC32Engine_new (table_from 0)) = crc32_spec table_bytes.
Proof.
  assert (table_from 0 = table_bytes) as ->.
  { unfold table_from, table_bytes. rewrite !Z.mul_0_l, Z.sub_0_r, Z.add_0_r. done. }
  rewrite <- CRC32_spec; [done|]. by apply Forall_take, Forall_drop.
Qed.

Lemma array_checked a i dir :
  lba < blocks ->
  act (IsPartitionArrayValid stale g bs) (true :: a, i, dir) (partition_entries_crc32 g =? crc32_spec table_bytes) (a, i, dir).
Proof.
  intros Hlba. pose proof groups_count as Hgc. assert (Hk : 0 <= 0 < groups) by lia.
  pose proof group_bytes as Hg. destruct (group_spec 0 Hk) as (_ & _ & _ & _ & _ & Hs & _).
  pose proof count_range as Hcr.
  unfold IsPartitionArrayValid. eapply act_bind; [apply act_blocks_count|].
  rewrite (proj2 (Z.ltb_ge es 128)), (proj2 (Z.ltb_ge bs es)), (proj2 (Z.eqb_neq count 0)), (proj2 (Z.ltb_ge lba 2)),
    (proj2 (Z.leb_gt blocks lba)) by lia. cbn [orb]. cbv zeta.
  rewrite (batch_array 0 Hk), (blocks_for_group 0 Hk), Hg.
  assert (u64 (32 * es) = 32 * es) as -> by (apply wrap_small; lia).
  eapply act_bind; [apply act_buffer|]. cbv iota beta.
  assert (u64 (count + BATCH_SIZE - 1) / BATCH_SIZE = groups) as ->.
  { unfold BATCH_SIZE, groups. rewrite wrap_small by lia. f_equal. lia. }
  replace groups with (Z.of_nat (Z.to_nat groups)) at 1 by lia.
  eapply act_bind; [apply checksum_spec; [lia|lia|rewrite length_buffer; lia]|]. cbv iota beta.
  rewrite table_checksum. apply act_ret.
Qed.
(** *** The cached reader *)

(** The fetcher stands at entry [k] with group [j] in its cache. *)
Definition cached_group (f : GPTPartitionFetcher) (k j : Z) : Prop :=
  exists b, f = mkFetcher k (32 * j) 32 group_blocks (Some (splice b 0 (blocks_at (lba + j * group_blocks) group_blocks))) /\
    Z.of_nat (length b) = 32 * es /\ 0 <= j < groups.

Definition fetches (f : GPTPartitionFetcher) (k : Z) : Prop := exists j, cached_group f k j /\ 32 * j <= k <= 32 * j + 32.

Lemma group_end j : 0 <= j < groups -> 0 <= j * 32 * es /\ j * 32 * es + 32 * es < 2 ^ 64 /\ 32 * j + 32 < 2 ^ 64.
Proof.
  intros Hj. destruct (group_spec j Hj) as (_ & _ & _ & _ & Hc & Hs & _). destruct geometry as (Hb & _ & _ & HC).
  pose proof groups_count. pose proof count_range. split_and!; nia.
Qed.

Lemma length_cache j b : 0 <= j < groups -> Z.of_nat (length b) = 32 * es ->
  Z.of_nat (length (splice b 0 (blocks_at (lba + j * group_blocks) group_blocks))) = 32 * es.
Proof.
  intros Hj Hl. pose proof group_bytes as Hg. rewrite length_splice; [done|lia|].
  unfold blocks_at. rewrite Hg, Hl, length_take. lia.
Qed.

Lemma act_Initialize cb old a i dir :
  exists f, act (Fetcher_Initialize stale g bs (mkFetcher 0 0 32 cb old)) (true :: a, i, dir) (true, f) (a, i, dir) /\ fetches f 0.
Proof.
  pose proof groups_count as Hgc. assert (Hk : 0 <= 0 < groups) by lia. pose proof group_bytes as Hg.
  destruct (group_spec 0 Hk) as (Hgp & Hl0 & Hln & _ & _ & Hs & _). rewrite Z.mul_0_l, Z.add_0_r in Hl0, Hln.
  exists (mkFetcher 0 0 32 group_blocks (Some (splice (map stale (seqZ 0 (32 * es))) 0 (blocks_at lba group_blocks)))). split.
  - unfold Fetcher_Initialize. cbn [currentPartition cachedPartitionIndex cachedPartitions cachedBlocks]. cbv zeta.
    assert (u64 (32 * es) = 32 * es) as -> by (apply wrap_small; lia).
    rewrite (proj2 (Z.eqb_neq (32 * es) 0)), (blocks_for_group 0 Hk), Hg by lia.
    assert (u64 (32 * es) = 32 * es) as -> by (apply wrap_small; lia). rewrite Z.div_mul by lia.
    eapply act_bind; [apply act_buffer|]. cbv iota beta. unfold read_cache. cbn [cachedBlocks].
    eapply act_bind; [apply act_read; [lia..|rewrite length_buffer; lia]|]. apply act_ret.
  - exists 0. split; [|lia]. exists (map stale (seqZ 0 (32 * es))).
    rewrite length_buffer, Z.mul_0_l, Z.add_0_r by lia. done.
Qed.

Lemma act_UpdateCache f k j r :
  cached_group f k j -> k = 32 * j + 32 -> k < count ->
  exists f', act (UpdateCache g bs k f) r (true, f') r /\ cached_group f' k (j + 1).
Proof.
  intros (b & -> & Hl & Hj) Ek Hk. pose proof groups_count as Hgc. assert (Hj' : 0 <= j + 1 < groups) by lia.
  pose proof group_bytes as Hg. destruct (group_spec (j + 1) Hj') as (Hgp & Hl0 & Hln & _ & _ & _ & Hkg).
  destruct geometry as (Hb & HN & _ & _). destruct (group_end j Hj) as (_ & He & _).
  set (cache := splice b 0 _). assert (Hlc : Z.of_nat (length cache) = 32 * es) by by apply length_cache.
  exists (mkFetcher k (32 * (j + 1)) 32 group_blocks
    (Some (splice cache 0 (blocks_at (lba + (j + 1) * group_blocks) group_blocks)))).
  split; [|by exists cache].
  unfold UpdateCache. rewrite (proj2 (Z.leb_gt count k)) by lia. cbv zeta.
  assert (u64 (k * es) / bs = (j + 1) * group_blocks) as ->.
  { rewrite wrap_small by nia. replace (k * es) with ((j + 1) * group_blocks * bs) by nia. apply Z.div_mul. lia. }
  assert (u64 (lba + (j + 1) * group_blocks) = lba + (j + 1) * group_blocks) as -> by (apply wrap_small; lia).
  eapply act_bind; [by apply act_or_stop|]. unfold read_cache. cbn [cachedBlocks].
  eapply act_bind; [eapply act_bind; [apply act_read; [lia..|rewrite Hlc; lia]|apply act_ret]|].
  cbn [negb currentPartition cachedPartitions cachedBlocks cached].
  assert (u64 (lba + (j + 1) * group_blocks - lba) = (j + 1) * group_blocks) as ->.
  { rewrite Z.add_simpl_l. apply wrap_small. nia. }
  assert (u64 ((j + 1) * group_blocks * bs) / es = 32 * (j + 1)) as ->.
  { replace ((j + 1) * group_blocks * bs) with (32 * (j + 1) * es) by nia. rewrite wrap_small; [apply Z.div_mul; lia|].
    destruct (group_end (j + 1) Hj'). nia. }
  apply act_ret.
Qed.

Lemma act_entry f k j :
  cached_group f k j -> 32 * j <= k < 32 * j + 32 ->
  (u64 (cachedPartitionIndex f + cachedPartitions f) <=? currentPartition f) ||
    negb (IsPartitionFullyWithinCache g bs (currentPartition f) f) = false /\
  exists cache, cached f = Some cache /\
    load cache (u64 (u64 (currentPartition f - cachedPartitionIndex f) * es)) sizeof_GPTPartitionEntry =
    Some (take 128 (drop (Z.to_nat (lba * bs + k * es)) c)).
Proof.
  intros (b & -> & Hl & Hj) Hk. destruct (group_end j Hj) as (He0 & He & He2). pose proof group_bytes as Hg.
  destruct (group_spec j Hj) as (Hgp & Hl0 & Hln & Hm & Hc & _). destruct geometry as (Hb & HN & HC & _).
  cbn [currentPartition cachedPartitionIndex cachedPartitions cached]. split.
  - unfold IsPartitionFullyWithinCache. cbn [cachedPartitionIndex cachedBlocks].
    rewrite Hg. assert (0 <= k * es <= 32 * j * es + 32 * es) by nia.
    assert (u64 (k * es) = k * es) as -> by (apply wrap_small; lia).
    assert (u64 (32 * j * es + 32 * es) = 32 * j * es + 32 * es) as -> by (apply wrap_small; lia).
    assert (u64 (32 * j + 32) = 32 * j + 32) as -> by (apply wrap_small; lia).
    by rewrite (proj2 (Z.leb_gt _ k)), (proj2 (Z.leb_le (k * es) _)) by lia.
  - eexists. split; [done|]. assert (0 <= (k - 32 * j) * es /\ (k - 32 * j) * es + 128 <= 32 * es) by nia.
    assert (u64 (k - 32 * j) = k - 32 * j) as -> by (apply wrap_small; lia).
    assert (u64 ((k - 32 * j) * es) = (k - 32 * j) * es) as -> by (apply wrap_small; lia). unfold sizeof_GPTPartitionEntry.
    rewrite load_blocks by (rewrite ?HC; nia). do 3 f_equal. nia.
Qed.

Lemma act_Next f k r :
  fetches f k -> k < count ->
  exists f', act (Next g bs f) r (Some (entry_at k), f') r /\ fetches f' (k + 1).
Proof.
  intros (j & Hc & Hj) Hk.
  assert (Hup : exists f1 j1, cached_group f1 k j1 /\ 32 * j1 <= k < 32 * j1 + 32 /\
    act (if (u64 (cachedPartitionIndex f + cachedPartitions f) <=? currentPartition f) ||
            negb (IsPartitionFullyWithinCache g bs (currentPartition f) f)
         then UpdateCache g bs (currentPartition f) f else mret (true, f)) r (true, f1) r).
  { destruct (decide (k = 32 * j + 32)) as [Ek|Ek].
    - destruct (act_UpdateCache f k j r Hc Ek Hk) as (f1 & Ha & Hf1). exists f1, (j + 1). split; [done|]. split; [lia|].
      destruct Hc as (b & -> & _ & Hjr). cbn [cachedPartitionIndex cachedPartitions currentPartition].
      destruct (group_end j Hjr) as (_ & _ & He). rewrite wrap_small by lia. by rewrite (proj2 (Z.leb_le _ k)) by lia.
    - exists f, j. split; [done|]. split; [lia|]. destruct (act_entry f k j Hc) as [-> _]; [lia|]. apply act_ret. }
  destruct Hup as (f1 & j1 & Hc1 & Hj1 & Ha). destruct (act_entry f1 k j1 Hc1 Hj1) as (_ & cache & Ecache & Eload).
  assert (Ek : currentPartition f = k /\ currentPartition f1 = k).
  { destruct Hc as (? & -> & _). destruct Hc1 as (? & -> & _). done. }
  exists (mkFetcher (k + 1) (cachedPartitionIndex f1) (cachedPartitions f1) (cachedBlocks f1) (cached f1)). split.
  - unfold Next, HasNext. destruct Ek as [Ek Ek1]. rewrite Ek at 1. rewrite (proj2 (Z.ltb_lt k count)) by done. cbn [negb].
    eapply act_bind; [exact Ha|]. cbv beta iota.
    eapply act_bind; [apply act_or_stop, Ecache|]. eapply act_bind; [apply act_or_stop, Eload|].
    pose proof count_range. assert (0 <= k) by (destruct Hc1 as (? & _ & _ & ?); lia). rewrite Ek1, (wrap_small 64 (k + 1)) by lia. apply act_ret.
  - exists j1. split; [|lia]. destruct Hc1 as (b & -> & Hl & Hjr). by exists b.
Qed.
(** *** The two loops over the entries *)

Definition entries_from (k : Z) (n : nat) : list GPTPartitionEntry :=
  filter (fun e => entry_skipped g e = false) (map entry_at (seqZ k (Z.of_nat n))).

Lemma entries_from_step k n :
  entries_from k (S n) =
    (if entry_skipped g (entry_at k) then [] else [entry_at k]) ++ entries_from (k + 1) n.
Proof.
  unfold entries_from. rewrite seqZ_cons by lia. replace (Z.pred (Z.of_nat (S n))) with (Z.of_nat n) by lia.
  cbn [map]. rewrite filter_cons. replace (Z.succ k) with (k + 1) by lia.
  destruct (entry_skipped g (entry_at k)); done.
Qed.

Lemma length_entries k n : (length (entries_from k n) <= n)%nat.
Proof.
  unfold entries_from. etransitivity; [apply length_filter|]. rewrite length_map, length_seqZ. lia.
Qed.

Lemma fetches_position f k : fetches f k -> currentPartition f = k /\ cachedPartitions f = 32 /\ 0 <= k.
Proof. intros (j & (b & -> & _ & Hj) & Hk). cbn. split_and!; lia. Qed.

Lemma act_count n fuel f k m r :
  fetches f k -> k + Z.of_nat n = count -> (n <= fuel)%nat -> 0 <= m <= k ->
  exists f', act (count_partitions g bs fuel f m) r (Some (m + Z.of_nat (length (entries_from k n))), f') r /\
    cachedPartitions f' = 32.
Proof.
  revert fuel f k m. induction n as [|n IH]; intros fuel f k m Hf Hk Hn Hm;
    destruct (fetches_position f k Hf) as (Ef & Ec & Hk0).
  - exists f. split; [|done]. unfold entries_from. simpl.
    destruct fuel; simpl; unfold HasNext; rewrite (proj2 (Z.ltb_ge _ count)) by lia; rewrite Z.add_0_r; apply act_ret.
  - destruct fuel as [|fuel]; [lia|]. destruct (act_Next f k r Hf) as (f1 & Ha & Hf1); [lia|].
    pose proof count_range. rewrite entries_from_step, length_app.
    destruct (IH fuel f1 (k + 1) (if entry_skipped g (entry_at k) then m else m + 1)) as (f' & Hi & Ec'); [done|lia|lia| |].
    { destruct (entry_skipped _ _); lia. }
    exists f'. split; [|done]. simpl. unfold HasNext. rewrite (proj2 (Z.ltb_lt _ count)) by lia. cbn [negb].
    eapply act_bind; [exact Ha|]. cbv beta iota. destruct (entry_skipped _ _); simpl.
    + exact Hi.
    + rewrite (wrap_small 64 (m + 1)) by lia.
      replace (m + Z.of_nat (S (length (entries_from (k + 1) n)))) with (m + 1 + Z.of_nat (length (entries_from (k + 1) n))) by lia.
      exact Hi.
Qed.

(** The partitions made of entries, numbered from [i]. *)
Definition partitions_of (id i : Z) (l : list GPTPartitionEntry) : list Partition :=
  zip_with (partition_of id) (seqZ i (Z.of_nat (length l))) l.

Definition partition_nodes (id i n : Z) : list (list Z * BlockNode) :=
  map (fun j => (Partition_GetName id j, PartitionNode id j)) (seqZ i n).

(** Nodes that the directory takes one after the other. *)
Fixpoint register (l : list (list Z * BlockNode)) (dir : N) : option N :=
  match l with
  | [] => Some dir
  | (name, n) :: l =>
      match directory_AddNode name n dir with
      | (SUCCESS, dir) => register l dir
      | _ => None
      end
  end.

Lemma register_cons name n l dir dir' :
  register ((name, n) :: l) dir = Some dir' ->
  exists dir1, directory_AddNode name n dir = (SUCCESS, dir1) /\ register l dir1 = Some dir'.
Proof. simpl. destruct (directory_AddNode name n dir) as [[] dir1]; try discriminate. eauto. Qed.

Lemma insert_next {T} (done : list T) (x : T) rem :
  <[length done := Some x]> (map Some done ++ replicate (S rem) None) = map Some (done ++ [x]) ++ replicate rem None.
Proof.
  rewrite <- (Nat.add_0_r (length done)). rewrite <- (length_map Some done) at 1. rewrite insert_app_r.
  cbn [replicate list_insert]. rewrite map_app, <- app_assoc. done.
Qed.

Lemma act_add_partition d (placed : list Partition) rem e a i dir dir1 :
  partitions d = Some (map Some placed ++ replicate (S rem) None) ->
  directory_AddNode (Partition_GetName (deviceId d) (Z.of_nat (length placed))) (PartitionNode (deviceId d) (Z.of_nat (length placed))) dir = (SUCCESS, dir1) ->
  act (add_partition d (Z.of_nat (length placed)) e) (true :: a, i, dir)
    (set_partitions (Some (map Some (placed ++ [partition_of (deviceId d) (Z.of_nat (length placed)) e]) ++ replicate rem None))
       (partitionsCount d) d) (a, i, dir1).
Proof.
  intros Ep Ed. unfold add_partition, construct_at. rewrite Ep.
  eapply act_bind.
  { eapply act_bind; [by apply act_or_stop|]. cbv beta.
    rewrite (proj2 (Z.leb_gt _ _)) by (rewrite length_app, length_map, length_replicate; lia).
    rewrite Nat2Z.id, insert_next. apply act_ret. }
  cbv beta. eapply act_bind; [apply act_allocate|]. cbn [negb].
  eapply act_bind; [apply act_AddNode, Ed|]. cbv beta. rewrite bool_decide_eq_true_2 by done. apply act_ret.
Qed.

Lemma act_create n fuel f k d (placed : list Partition) a i dir dir' :
  fetches f k -> k + Z.of_nat n = count -> (n <= fuel)%nat -> Z.of_nat (length placed) <= k ->
  partitions d = Some (map Some placed ++ replicate (length (entries_from k n)) None) ->
  register (partition_nodes (deviceId d) (Z.of_nat (length placed)) (Z.of_nat (length (entries_from k n)))) dir = Some dir' ->
  act (create_partitions g bs fuel f (Z.of_nat (length placed)) d)
    (replicate (length (entries_from k n)) true ++ a, i, dir)
    (set_partitions (Some (map Some (placed ++ partitions_of (deviceId d) (Z.of_nat (length placed)) (entries_from k n))))
       (partitionsCount d) d) (a, i, dir').
Proof.
  revert fuel f k d placed dir. induction n as [|n IH]; intros fuel f k d placed dir Hf Hk Hn Hp Ed Er;
    destruct (fetches_position f k Hf) as (Ef & _ & Hk0).
  - cbn in Er. injection Er as <-. cbn in Ed. rewrite app_nil_r in Ed.
    assert (Hd : set_partitions (Some (map Some (placed ++ []))) (partitionsCount d) d = d).
    { rewrite app_nil_r, <- Ed. by destruct d. }
    change (entries_from k 0) with (@nil GPTPartitionEntry). change (partitions_of _ _ []) with (@nil Partition).
    rewrite Hd.
    destruct fuel; simpl; unfold HasNext; rewrite (proj2 (Z.ltb_ge _ count)) by lia; apply act_ret.
  - destruct fuel as [|fuel]; [lia|]. destruct (act_Next f k (replicate (length (entries_from k (S n))) true ++ a, i, dir) Hf) as (f1 & Ha & Hf1); [lia|].
    pose proof count_range. simpl. unfold HasNext. rewrite (proj2 (Z.ltb_lt _ count)) by lia. cbn [negb].
    eapply act_bind; [exact Ha|]. cbv beta iota. rewrite entries_from_step in *.
    destruct (entry_skipped g (entry_at k)); simpl in Ed, Er |- *.
    + apply IH; (done || lia).
    + unfold partition_nodes in Er. rewrite seqZ_cons in Er by lia. cbn [map] in Er.
      apply register_cons in Er as (dir1 & E1 & Er).
      eapply act_bind; [apply act_add_partition; [exact Ed|exact E1]|]. cbv beta.
      rewrite (wrap_small 64 (Z.of_nat (length placed) + 1)) by lia.
      set (p := partition_of _ _ _). set (d1 := set_partitions _ _ _).
      replace (Z.of_nat (length placed) + 1) with (Z.of_nat (length (placed ++ [p]))) by (rewrite length_app; simpl; lia).
      assert (E : set_partitions (Some (map Some (placed ++ partitions_of (deviceId d) (Z.of_nat (length placed))
          (entry_at k :: entries_from (k + 1) n)))) (partitionsCount d) d =
        set_partitions (Some (map Some ((placed ++ [p]) ++ partitions_of (deviceId d1) (Z.of_nat (length (placed ++ [p])))
          (entries_from (k + 1) n)))) (partitionsCount d1) d1).
      { unfold set_partitions. cbn. do 3 f_equal. rewrite <- app_assoc. f_equal. unfold partitions_of. cbn [length app].
        rewrite (seqZ_cons (Z.of_nat (length placed))) by lia. cbn [zip_with]. f_equal.
        f_equal. f_equal; rewrite ?length_app; simpl; lia. }
      rewrite E. apply IH; [done|lia|lia|rewrite length_app; simpl; lia|done|].
      unfold partition_nodes. cbn [deviceId d1 set_partitions].
      match goal with H : register _ dir1 = _ |- _ => rewrite <- H end. f_equal. f_equal. f_equal; rewrite ?length_app; simpl; lia.
Qed.
End Table.

(** ** Validation *)

Section Validation.
Hypothesis geometry : 0 < bs < 2 ^ 64 /\ 0 <= blocks < 2 ^ 64 /\ Z.of_nat (length c) = blocks * bs /\ Z.of_nat (length c) < 2 ^ 64.
Hypothesis bytes_c : Forall (fun b => 0 <= b < 256) c.

Lemma header_checked g at_lba r :
  Forall (fun b => 0 <= b < 256) g -> Z.of_nat (length g) = bs ->
  (header_valid g at_lba = false -> act (GPT_IsValid stale g at_lba bs) r false r) /\
  (header_valid g at_lba = true -> forall b r', act (IsPartitionArrayValid stale g bs) r b r' ->
     act (GPT_IsValid stale g at_lba bs) r b r').
Proof.
  intros Hg Hl. unfold header_valid, GPT_IsValid.
  destruct (gpt_signature g =? GPT_SIGNATURE); cbn [negb andb]; [|split; [intros _; apply act_ret|done]].
  rewrite (Z.ltb_antisym 92), (Z.ltb_antisym (header_size g)).
  destruct (Z.leb_spec 92 (header_size g)) as [Hs|Hs], (Z.leb_spec (header_size g) bs) as [Hs2|Hs2]; cbn [negb orb andb];
    try (split; [intros _; apply act_ret|done]).
  destruct (my_lba g =? at_lba); cbn [negb andb]; [|split; [intros _; apply act_ret|done]].
  assert (Hload : load (splice g 16 [0; 0; 0; 0]) 0 (header_size g) = Some (header_bytes g)).
  { rewrite load_some by (rewrite ?length_splice by (simpl; lia); lia). done. }
  assert (Hcrc : CRC32 (header_bytes g) = crc32_spec (header_bytes g)).
  { apply CRC32_spec, Forall_take, Forall_splice; [done|]. repeat constructor; lia. }
  rewrite <- Hcrc. split.
  - intros E. eapply act_bind; [apply act_or_stop, Hload|]. cbv beta. rewrite E. apply act_ret.
  - intros E b r' Ha. eapply act_bind; [apply act_or_stop, Hload|]. cbv beta. rewrite E. apply Ha.
Qed.

Lemma array_validated g a i dir :
  Forall (fun b => 0 <= b < 256) g -> table_fits g ->
  exists a', act (IsPartitionArrayValid stale g bs) (true :: a, i, dir) (table_valid g) (a', i, dir) /\
    (table_valid g = true -> a' = a).
Proof.
  intros Hg Hf. unfold table_valid.
  destruct (decide (128 <= partition_entry_size g <= bs /\ partition_entry_count g <> 0 /\ 2 <= partition_entries_lba g < blocks))
    as [(He & Hn & Hlo & Hhi)|Hno].
  - pose proof (count_range g Hg) as Hr. exists a.
    rewrite (proj2 (Z.leb_le 128 _)), (proj2 (Z.leb_le _ bs)), (proj2 (Z.eqb_neq _ 0)), (proj2 (Z.leb_le 2 _)), (proj2 (Z.ltb_lt _ blocks)) by lia.
    cbn [negb andb]. rewrite Z.eqb_sym. split; [|done]. apply array_checked; (done || lia).
  - exists (true :: a).
    assert (E : table_valid g = false).
    { apply not_true_iff_false. intros E. apply Hno. unfold table_valid in E. rewrite !andb_true_iff, negb_true_iff, !Z.leb_le, Z.eqb_neq, Z.ltb_lt in E. lia. }
    fold (table_valid g). rewrite E. split; [|done]. unfold IsPartitionArrayValid.
    eapply act_bind; [apply act_blocks_count|].
    destruct (_ || _) eqn:E1; [apply act_ret|]. destruct (_ =? 0) eqn:E2; [apply act_ret|].
    destruct (_ || (blocks <=? _)) eqn:E3; [apply act_ret|].
    apply orb_false_iff in E1 as [E1 E1'], E3 as [E3 E3']. rewrite Z.ltb_ge in E1, E1', E3. apply Z.eqb_neq in E2. apply Z.leb_gt in E3'.
    destruct Hno. lia.
Qed.
End Validation.

(** C37: On a disk whose table is laid out in whole groups, the validation of
    the header at block 1 accepts exactly a header and a table that satisfy
    the size constraints and whose CRC-32s are those recorded. *)
Theorem gpt_validation_exact (g : list Z) (a : list bool) (i : Z) (dir : N) (d : D) :
  held d -> Forall (fun b => 0 <= b < 256) g -> Z.of_nat (length g) = bs -> table_fits g ->
  exists d' a', GPT_IsValid stale g PRIMARY_GPT_LBA bs (mkSystem d (true :: a) i dir) =
      inr (header_valid g PRIMARY_GPT_LBA && table_valid g, mkSystem d' a' i dir) /\ held d'.
Proof.
  intros Hd Hg Hl Hf. destruct (held_geometry d Hd) as [Hgeo Hby].
  destruct (header_checked g PRIMARY_GPT_LBA (true :: a, i, dir) Hg Hl) as [H_no H_yes].
  destruct (array_validated Hgeo Hby g a i dir Hg Hf) as (a' & Ha & _).
  destruct (header_valid g PRIMARY_GPT_LBA); cbn [andb].
  - destruct (H_yes eq_refl _ _ Ha d Hd) as (d' & E & Hd'). by exists d', a'.
  - destruct (H_no eq_refl d Hd) as (d' & E & Hd'). by exists d', (true :: a).
Qed.

(** ** Adding a device *)

Lemma skipped_range g e :
  entry_skipped g e = false ->
  first_usable_lba g <= starting_lba e /\ starting_lba e <= ending_lba e <= last_usable_lba g.
Proof. unfold entry_skipped. rewrite !orb_false_iff, !Z.ltb_ge. tauto. Qed.

Lemma partition_of_range g id j e :
  entry_skipped g e = false ->
  let p := partition_of id j e in
  valid p = true /\ first_usable_lba g <= firstBlock p /\ firstBlock p + blocksCount p <= last_usable_lba g + 1.
Proof.
  intros He. destruct (skipped_range g e He) as [Hs He']. cbn. split_and!; [done|done|].
  assert (u64 (ending_lba e - starting_lba e + 1) <= ending_lba e - starting_lba e + 1) by (apply Z.mod_le; lia). lia.
Qed.

Lemma partitions_of_range g id i l :
  Forall (fun e => entry_skipped g e = false) l ->
  Forall (fun p => valid p = true /\ first_usable_lba g <= firstBlock p /\ firstBlock p + blocksCount p <= last_usable_lba g + 1)
    (partitions_of id i l).
Proof.
  intros Hl. revert i. unfold partitions_of. induction Hl as [|e l He _ IH]; intros i; [constructor|].
  cbn [length]. rewrite seqZ_cons by lia. cbn [zip_with].
  replace (Z.pred (Z.of_nat (S (length l)))) with (Z.of_nat (length l)) by lia.
  constructor; [by apply partition_of_range|apply IH].
Qed.

Lemma table_valid_sizes g : table_valid g = true ->
  128 <= partition_entry_size g <= bs /\ partition_entry_count g <> 0 /\ 2 <= partition_entries_lba g < blocks.
Proof.
  unfold table_valid. rewrite !andb_true_iff, negb_true_iff, !Z.leb_le, Z.eqb_neq, Z.ltb_lt. tauto.
Qed.

Section Load.
Hypothesis geometry : 0 < bs < 2 ^ 64 /\ 0 <= blocks < 2 ^ 64 /\ Z.of_nat (length c) = blocks * bs /\ Z.of_nat (length c) < 2 ^ 64.
Context (g : list Z).
Hypothesis bytes_g : Forall (fun b => 0 <= b < 256) g.
Hypothesis fits : table_fits g.
Hypothesis valid_g : table_valid g = true.

(** The device with the accepted entries of the table as its partitions. *)
Definition loaded (d : Device) : Device :=
  set_partitions (Some (map Some (partitions_of (deviceId d) 0 (accepted g)))) (Z.of_nat (length (accepted g))) d.

Lemma act_load_partitions d a i dir dir' :
  register (partition_nodes (deviceId d) 0 (Z.of_nat (length (accepted g)))) dir = Some dir' ->
  act (load_partitions stale g bs d) (true :: true :: true :: replicate (length (accepted g)) true ++ a, i, dir)
    (loaded d) (a, i, dir').
Proof.
  intros Er. destruct (table_valid_sizes g valid_g) as (Hes & Hc0 & Hlba). pose proof (count_range g bytes_g) as Hcr.
  assert (Hc : 0 < partition_entry_count g) by lia. assert (Hl2 : 2 <= partition_entries_lba g) by lia.
  assert (Eacc : accepted g = entries_from g 0 (Z.to_nat (partition_entry_count g))).
  { unfold accepted, table_entries, entries_from. by rewrite Z2Nat.id by lia. }
  rewrite Eacc in *. set (l := entries_from g 0 _) in *.
  unfold load_partitions. cbv zeta.
  destruct (act_Initialize g geometry fits Hes Hc Hl2 0 None (true :: true :: replicate (length l) true ++ a) i dir) as (f & Ha & Hf).
  eapply act_bind; [exact Ha|]. cbn [negb].
  destruct (act_count g geometry bytes_g fits Hes Hc Hl2 (Z.to_nat (partition_entry_count g)) (Z.to_nat (partition_entry_count g)) f 0 0
    (true :: true :: replicate (length l) true ++ a, i, dir) Hf) as (f1 & Ha1 & Ef1); [lia..|].
  eapply act_bind; [exact Ha1|]. cbv beta iota. unfold Fetcher_Reset. rewrite Ef1.
  destruct (act_Initialize g geometry fits Hes Hc Hl2 (cachedBlocks f1) (cached f1) (true :: replicate (length l) true ++ a) i dir) as (f2 & Ha2 & Hf2).
  eapply act_bind; [exact Ha2|]. cbn [negb]. eapply act_bind; [apply act_allocate|]. cbv beta iota zeta.
  rewrite Z.add_0_l, Nat2Z.id.
  unfold loaded. rewrite Eacc.
  exact (act_create g geometry bytes_g fits Hes Hc Hl2 (Z.to_nat (partition_entry_count g)) (Z.to_nat (partition_entry_count g)) f2 0
    (set_partitions (Some (replicate (length l) None)) (Z.of_nat (length l)) d) [] a i dir dir' Hf2 ltac:(lia) ltac:(lia) ltac:(simpl; lia) eq_refl Er).
Qed.
End Load.

Lemma act_read_all s n buf r :
  0 < bs -> Z.of_nat (length c) = blocks * bs -> 0 <= s -> 0 <= n -> s + n <= blocks -> Z.of_nat (length buf) = n * bs ->
  act (on_disk (ReadBlocks s n buf)) r (true, blocks_at s n) r.
Proof.
  intros Hb Hc Hs Hn Hr Hl. replace (blocks_at s n) with (splice buf 0 (blocks_at s n)); [apply act_read; lia|].
  apply splice_whole. unfold blocks_at. rewrite length_take, length_drop. nia.
Qed.

Lemma act_load_table d a i dir dir' :
  let g := blocks_at PRIMARY_GPT_LBA 1 in
  (0 < bs < 2 ^ 64 /\ 0 <= blocks < 2 ^ 64 /\ Z.of_nat (length c) = blocks * bs /\ Z.of_nat (length c) < 2 ^ 64) ->
  Forall (fun b => 0 <= b < 256) c ->
  header_valid g PRIMARY_GPT_LBA = true -> table_valid g = true -> table_fits g ->
  register (partition_nodes (deviceId d) 0 (Z.of_nat (length (accepted g)))) dir = Some dir' ->
  act (load_table stale d) (replicate 5 true ++ replicate (length (accepted g)) true ++ a, i, dir)
    (loaded g (SetGUID (disk_guid g) false d)) (a, i, dir').
Proof.
  intros g Hgeo Hby Hh Ht Hf Er. destruct (table_valid_sizes g Ht) as (_ & _ & Hlba).
  destruct Hgeo as (Hb & HN & HC & HC') eqn:E. clear E.
  assert (Hg : Forall (fun b => 0 <= b < 256) g) by by apply Forall_take, Forall_drop.
  assert (Hl : Z.of_nat (length g) = bs).
  { unfold g, blocks_at, PRIMARY_GPT_LBA. rewrite length_take, length_drop. nia. }
  unfold load_table. eapply act_bind; [apply act_block_size|]. cbv beta.
  eapply act_bind; [apply act_buffer|]. cbv beta iota.
  eapply act_bind; [apply act_read_all; unfold PRIMARY_GPT_LBA; try lia; rewrite length_buffer; lia|]. cbn [negb]. fold g.
  destruct (array_validated (conj Hb (conj HN (conj HC HC'))) Hby g
    (true :: true :: true :: replicate (length (accepted g)) true ++ a) i dir Hg Hf) as (a' & Ha & Ea).
  rewrite (Ea Ht), Ht in Ha. eapply act_bind; [apply header_checked; [done..|exact Ha]|]. cbn [negb].
  apply act_load_partitions; (done || apply Er).
Qed.

(** C7: On a working disk with a protective boot sector and a valid table,
    [AddDevice] puts in the device directory the disk and one partition per
    accepted entry of the table, in table order, each inside the usable
    blocks. *)
Theorem AddDevice_partitions (m : MBR) (a : list bool) (id : Z) (dir dir' : N) (d : D) :
  let g := blocks_at PRIMARY_GPT_LBA 1 in
  let parts := partitions_of id 0 (accepted g) in
  held d -> parse_mbr (blocks_at 0 1) = Some m -> mbr_signature m = 0xAA55 -> IsProtective m = true ->
  header_valid g PRIMARY_GPT_LBA = true -> table_valid g = true -> table_fits g ->
  register ((Device_GetName id, DeviceNode id) :: partition_nodes id 0 (Z.of_nat (length parts))) dir = Some dir' ->
  exists d',
    AddDevice stale true (mkSystem d (replicate (9 + length parts) true ++ a) id dir) =
      inr (Some (mkDevice id (Some (map Some parts)) (Z.of_nat (length parts)) (Some (disk_guid g)) false),
           mkSystem d' a (u64 (id + 1)) dir') /\
    held d' /\
    Forall (fun p => valid p = true /\ first_usable_lba g <= firstBlock p /\ firstBlock p + blocksCount p <= last_usable_lba g + 1) parts.
Proof.
  intros g parts Hd Hm Hsig Hp Hh Ht Hf Hr. destruct (held_geometry d Hd) as [Hgeo Hby].
  pose proof Hgeo as (Hb & HN & HC & HC'). destruct (table_valid_sizes g Ht) as (_ & _ & Hlba).
  assert (Hlen : length parts = length (accepted g)).
  { unfold parts, partitions_of. rewrite length_zip_with, length_seqZ. lia. }
  apply register_cons in Hr as (dir1 & E1 & Er). rewrite Hlen in Er |- *.
  assert (Ha : act (AddDevice stale true) (replicate (9 + length (accepted g)) true ++ a, id, dir)
    (Some (loaded g (SetGUID (disk_guid g) false (new_Device id)))) (a, u64 (id + 1), dir')).
  { unfold AddDevice. cbn [negb]. eapply act_bind; [apply act_block_size|]. cbv beta.
    eapply act_bind; [apply act_buffer|]. cbv beta iota.
    eapply act_bind; [apply act_read_all; [lia..|rewrite length_buffer; lia]|]. cbn [negb].
    eapply act_bind.
    { unfold FromBytes. eapply act_bind; [apply act_allocate|]. cbn [negb].
      eapply act_bind; [apply act_or_stop, Hm|]. cbv beta. rewrite Hsig. apply act_ret. }
    cbv beta. eapply act_bind; [apply act_device_id|]. cbv beta.
    eapply act_bind; [apply act_allocate|]. cbn [negb]. eapply act_bind; [apply act_allocate|]. cbn [negb].
    eapply act_bind; [apply act_AddNode, E1|]. cbv beta. rewrite bool_decide_eq_true_2 by done. cbn [negb].
    eapply act_bind; [by apply act_or_stop|]. cbv beta. rewrite Hp.
    eapply act_bind; [apply (act_load_table (new_Device id) a (u64 (id + 1)) dir1 dir' Hgeo Hby Hh Ht Hf Er)|]. apply act_ret. }
  destruct (Ha d Hd) as (d' & E & Hd'). exists d'. split; [exact E|]. split; [exact Hd'|].
  apply partitions_of_range, Forall_forall. intros e He. by apply list_elem_of_filter in He as [? _].
Qed.

(** From [r], [m] dies of [e]. *)
Definition dies {A} (m : io (System D N) A) (r : rest) (e : fault) : Prop :=
  forall d, held d -> m (system_of d r) = inl e.

Lemma dies_bind {A B} (m : io (System D N) A) (f : A -> io (System D N) B) r x r1 e :
  act m r x r1 -> dies (f x) r1 e -> dies (m ≫= f) r e.
Proof.
  intros Hm Hf d Hd. destruct (Hm d Hd) as (d1 & E1 & Hd1). unfold mbind, io_bind. rewrite E1. by apply Hf.
Qed.

(** A disk whose boot sector lacks the signature 0xAA55 is put in the
    device directory, after which [AddDevice] follows a null pointer. *)
Theorem AddDevice_unsigned_disk (m : MBR) (a : list bool) (id : Z) (dir dir' : N) (d : D) :
  held d -> 1 <= blocks -> parse_mbr (blocks_at 0 1) = Some m -> mbr_signature m <> 0xAA55 ->
  directory_AddNode (Device_GetName id) (DeviceNode id) dir = (SUCCESS, dir') ->
  AddDevice stale true (mkSystem d (replicate 4 true ++ a) id dir) = inl NullAccess.
Proof.
  intros Hd Hn Hm Hsig Ed. destruct (held_geometry d Hd) as [(Hb & HN & HC & _) _].
  assert (Ha : dies (AddDevice stale true) (replicate 4 true ++ a, id, dir) NullAccess); [|exact (Ha d Hd)].
  unfold AddDevice. cbn [negb]. eapply dies_bind; [apply act_block_size|]. cbv beta.
  eapply dies_bind; [apply act_buffer|]. cbv beta iota.
  eapply dies_bind; [apply act_read_all; [lia..|rewrite length_buffer; lia]|]. cbn [negb].
  eapply dies_bind.
  { unfold FromBytes. eapply act_bind; [apply act_allocate|]. cbn [negb].
    eapply act_bind; [apply act_or_stop, Hm|]. cbv beta. rewrite (proj2 (Z.eqb_neq _ _) Hsig). apply act_ret. }
  cbv beta. eapply dies_bind; [apply act_device_id|]. cbv beta.
  eapply dies_bind; [apply act_allocate|]. cbn [negb]. eapply dies_bind; [apply act_allocate|]. cbn [negb].
  eapply dies_bind; [apply act_AddNode, Ed|]. cbv beta. rewrite bool_decide_eq_true_2 by done. cbn [negb].
  intros d1 _. reflexivity.
Qed.
End Gpt.

(** ** A disk with a table of four entries *)

(** A directory as the list of its entries. *)
#[global] Instance list_directory : DeviceDirectory (list (list Z * BlockNode)) := {
  directory_AddNode name n dir :=
    if existsb (fun e => bool_decide (fst e = name)) dir then (ALREADY_EXISTS, dir) else (SUCCESS, dir ++ [(name, n)]) }.

Definition protective_sector : list Z :=
  replicate 446 0 ++ [0; 0; 2; 0; 0xEE; 0xFF; 0xFF; 0xFF] ++ le_bytes 4 1 ++ le_bytes 4 11 ++ replicate 48 0 ++ [0x55; 0xAA].

Definition entry_bytes (first last : Z) : list Z :=
  replicate 16 1 ++ replicate 16 2 ++ le_bytes 8 first ++ le_bytes 8 last ++ replicate 80 0.

(** One partition, an unused entry, an entry past the usable blocks, and a
    second partition. *)
Definition sample_table : list Z :=
  entry_bytes 10 10 ++ replicate 128 0 ++ entry_bytes 10 40 ++ entry_bytes 11 11.

Definition sample_header (crc : Z) : list Z :=
  le_bytes 8 GPT_SIGNATURE ++ le_bytes 4 0x10000 ++ le_bytes 4 92 ++ le_bytes 4 crc ++ le_bytes 4 0 ++
  le_bytes 8 1 ++ le_bytes 8 11 ++ le_bytes 8 10 ++ le_bytes 8 11 ++ replicate 16 7 ++
  le_bytes 8 2 ++ le_bytes 4 4 ++ le_bytes 4 128 ++ le_bytes 4 (CRC32 sample_table).

Definition sample_disk : RamDisk :=
  mkRam 512 (protective_sector ++ sample_header (CRC32 (sample_header 0)) ++ replicate 420 0 ++ sample_table ++ replicate 4608 0).

Definition sample_mbr : MBR := Eval vm_compute in default (mkMBR [] 0 [] 0) (parse_mbr (blocks_at (ram_bytes sample_disk) 512 0 1)).

Definition sample_gpt : list Z := blocks_at (ram_bytes sample_disk) 512 PRIMARY_GPT_LBA 1.

Definition sample_checks (c g : list Z) : bool :=
  header_valid 512 g PRIMARY_GPT_LBA && table_valid c 512 12 g &&
  ((32 * partition_entry_size g) mod 512 =? 0) && (partition_entries_lba g + groups g * group_blocks 512 g <=? 12) &&
  (Z.of_nat (length c) =? 6144) && forallb (fun b => (0 <=? b) && (b <? 256)) c &&
  (length (accepted c 512 g) =? 2)%nat.

Lemma sample_held :
  let c := ram_bytes sample_disk in
  Z.of_nat (length c) = 6144 -> forallb (fun b => (0 <=? b) && (b <? 256)) c = true -> held c 512 12 sample_disk.
Proof.
  intros c Hsz Hby. change sample_disk with (mkRam 512 c). clearbody c. unfold held, disk_ok. cbn. unfold ram_ok. cbn.
  rewrite Hsz. split_and!; try reflexivity; try lia.
  apply Forall_forall. intros b Hb. rewrite forallb_forall in Hby. apply list_elem_of_In in Hb. specialize (Hby b Hb).
  apply andb_prop in Hby as [Hlo Hhi]. apply Z.leb_le in Hlo. apply Z.ltb_lt in Hhi. lia.
Qed.

Lemma sample_facts_of c g :
  sample_checks c g = true ->
  (Z.of_nat (length c) = 6144 /\ forallb (fun b => (0 <=? b) && (b <? 256)) c = true) /\
  header_valid 512 g PRIMARY_GPT_LBA = true /\ table_valid c 512 12 g = true /\ table_fits 512 12 g /\
  length (accepted c 512 g) = 2%nat.
Proof.
  unfold sample_checks, table_fits. rewrite !andb_true_iff, !Z.eqb_eq, Z.leb_le, Nat.eqb_eq. tauto.
Qed.

Lemma sample_valid : sample_checks (ram_bytes sample_disk) sample_gpt = true.
Proof. vm_compute. reflexivity. Qed.

Lemma sample_boot : parse_mbr (blocks_at (ram_bytes sample_disk) 512 0 1) = Some sample_mbr.
Proof. vm_compute. reflexivity. Qed.

Lemma sample_facts :
  held (ram_bytes sample_disk) 512 12 sample_disk /\
  header_valid 512 sample_gpt PRIMARY_GPT_LBA = true /\ table_valid (ram_bytes sample_disk) 512 12 sample_gpt = true /\
  table_fits 512 12 sample_gpt /\ length (accepted (ram_bytes sample_disk) 512 sample_gpt) = 2%nat.
Proof.
  destruct (sample_facts_of _ _ sample_valid) as ((Hsz & Hby) & Hrest). split; [by apply sample_held|exact Hrest].
Qed.

Lemma gpt_validation_exact_witness :
  exists d' a', GPT_IsValid (fun _ => 0) (blocks_at (ram_bytes sample_disk) 512 PRIMARY_GPT_LBA 1) PRIMARY_GPT_LBA 512
    (mkSystem sample_disk [true] 0 ([] : list (list Z * BlockNode))) = inr (true, mkSystem d' a' 0 []).
Proof.
  destruct sample_facts as (Hd & Hh & Ht & Hf & _). change (blocks_at _ 512 PRIMARY_GPT_LBA 1) with sample_gpt.
  destruct (held_geometry _ _ _ _ Hd) as [_ Hby].
  destruct (gpt_validation_exact (fun _ => 0) _ _ _ sample_gpt [] 0
    ([] : list (list Z * BlockNode)) sample_disk Hd) as (d' & a' & E & _); [|vm_compute; reflexivity|exact Hf|].
  - by apply Forall_take, Forall_drop.
  - exists d', a'. rewrite E, Hh, Ht. reflexivity.
Defined.

Lemma AddDevice_partitions_witness :
  exists dev d' dir', AddDevice (fun _ => 0) true (mkSystem sample_disk (replicate 11 true) 3 ([] : list (list Z * BlockNode))) =
    inr (Some dev, mkSystem d' [] 4 dir') /\ partitionsCount dev = 2 /\ length dir' = 3%nat.
Proof.
  destruct sample_facts as (Hd & Hh & Ht & Hf & Hl).
  assert (Hparts : length (partitions_of 3 0 (accepted (ram_bytes sample_disk) 512 sample_gpt)) = 2%nat).
  { unfold partitions_of. rewrite length_zip_with, length_seqZ, Hl. reflexivity. }
  assert (Hr : exists dir', register ((Device_GetName 3, DeviceNode 3) :: partition_nodes 3 0 (Z.of_nat 2)) ([] : list (list Z * BlockNode)) = Some dir' /\ length dir' = 3%nat).
  { eexists. split; [vm_compute; reflexivity|reflexivity]. }
  destruct Hr as (dir' & Hr & Hlen). rewrite <- Hparts in Hr.
  destruct (AddDevice_partitions (fun _ => 0) _ _ _ sample_mbr [] 3 [] dir' sample_disk Hd sample_boot eq_refl eq_refl Hh Ht Hf Hr)
    as (d' & E & _ & _). change (blocks_at _ 512 PRIMARY_GPT_LBA 1) with sample_gpt in E. rewrite Hparts in E.
  eexists _, d', dir'. split; [exact E|]. split; [reflexivity|exact Hlen].
Defined.

(** A blank disk: no signature. *)
Definition blank_disk : RamDisk := mkRam 512 (replicate 512 0).

Lemma AddDevice_unsigned_disk_witness :
  AddDevice (fun _ => 0) true (mkSystem blank_disk (replicate 4 true) 0 ([] : list (list Z * BlockNode))) = inl NullAccess.
Proof.
  assert (Hd : held (ram_bytes blank_disk) 512 1 blank_disk).
  { unfold held, disk_ok. cbn. unfold ram_ok. cbn. split_and!; try lia; try reflexivity. repeat constructor; lia. }
  set (m := mkMBR (replicate 440 0) 0 (replicate 4 (mkEntry 0 [0; 0; 0] 0 [0; 0; 0] 0 0)) 0).
  assert (Hm : parse_mbr (blocks_at (ram_bytes blank_disk) 512 0 1) = Some m) by (vm_compute; reflexivity).
  apply (AddDevice_unsigned_disk (fun _ => 0) (ram_bytes blank_disk) 512 1 m [] 0 [] [(Device_GetName 0, DeviceNode 0)] blank_disk Hd ltac:(lia) Hm).
  - vm_compute. discriminate.
  - reflexivity.
Defined.
