(* ===== verification/BlockLifetime.v ===== *)
(** * Component: the release of block devices and partitions
    ([kernel/src/devices/Block/Device.cpp], [kernel/src/fs/IFNode.cpp])

    A device and the array of its partitions are nodes of the device
    directory.  The driver destroys the device, users open, close and remove
    the nodes; the release of resources calls back into the directory, which
    calls back into the release.  Memory is freed by the second release of the
    device; a use of a freed node is a [WildAccess]. *)
From S2P Require Import Prelude DataNode BlockDevice.

(** ** The nodes *)

(** [IFNode] with the [destroyed] flag of [Partition] and [Device]; [listed]:
    the directory holds its entry. *)
Record NodeLife := mkNode { openReferences : Z; removed : bool; listed : bool; destroyed : bool }.

Record Life := mkLife {
  device_node : NodeLife; partition_nodes : list (bool * NodeLife);   (** with [IsValid] *)
  partitions_removed : bool; device_alive : bool; array_alive : bool; allocations : nat; driver_done : bool }.

Inductive who := TheDevice | ThePartition (i : nat).

Definition with_refs (n : Z) (x : NodeLife) : NodeLife := mkNode n (removed x) (listed x) (destroyed x).
Definition delisted (x : NodeLife) : NodeLife := mkNode (openReferences x) true false (destroyed x).
Definition destroyed_node (x : NodeLife) : NodeLife := mkNode (openReferences x) (removed x) (listed x) true.

Definition set_device (x : NodeLife) (s : Life) : Life :=
  mkLife x (partition_nodes s) (partitions_removed s) (device_alive s) (array_alive s) (allocations s) (driver_done s).
Definition set_partition (i : nat) (x : NodeLife) (s : Life) : Life :=
  mkLife (device_node s) (alter (fun p => (p.1, x)) i (partition_nodes s)) (partitions_removed s) (device_alive s)
    (array_alive s) (allocations s) (driver_done s).

(** The node in memory that has not been freed. *)
Definition node (w : who) (s : Life) : option NodeLife :=
  match w with
  | TheDevice => if device_alive s then Some (device_node s) else None
  | ThePartition i => if array_alive s then snd <$> partition_nodes s !! i else None
  end.

Definition get (w : who) : io Life NodeLife := fun s =>
  match node w s with Some x => inr (x, s) | None => inl WildAccess end.
Definition put_node (w : who) (x : NodeLife) : io Life unit := fun s =>
  inr (tt, match w with TheDevice => set_device x s | ThePartition i => set_partition i x s end).

Section Release.
(** The answers of the heap to the allocation of names. *)
Context (names : nat -> bool).

Definition name_allocated : io Life bool := fun s =>
  inr (names (allocations s),
    mkLife (device_node s) (partition_nodes s) (partitions_removed s) (device_alive s) (array_alive s)
      (S (allocations s)) (driver_done s)).

(** [IFNode::Open] and [IFNode::Close]; [release] is [ReleaseResources(false)],
    which [Destroy(true)] calls. *)
Definition Open (w : who) : io Life Status :=
  get w ≫= fun x =>
  if removed x then mret UNAVAILABLE
  else put_node w (with_refs (u64 (openReferences x + 1)) x) ≫= fun _ => mret SUCCESS.

Definition Close (release : who -> io Life unit) (w : who) : io Life unit :=
  get w ≫= fun x =>
  let n := u64 (openReferences x - 1) in
  put_node w (with_refs n x) ≫= fun _ =>
  if (n =? 0) && removed x then release w else mret tt.

(** [Directory::Remove] of the name of a node. *)
Definition Remove (release : who -> io Life unit) (w : who) : io Life unit := fun s =>
  let entry := match w with TheDevice => listed (device_node s)
               | ThePartition i => match partition_nodes s !! i with Some p => listed p.2 | None => false end end in
  if negb entry then inr (tt, s)
  else
    (Open w ≫= fun status =>
     if negb (bool_decide (status = SUCCESS)) then mret tt
     else get w ≫= fun x => put_node w (delisted x) ≫= fun _ => Close release w) s.

(** [Partition::ReleaseResources] *)
Definition release_partition (release : who -> io Life unit) (i : nat) : io Life unit :=
  get (ThePartition i) ≫= fun x =>
  if destroyed x then mret tt
  else
    put_node (ThePartition i) (destroyed_node x) ≫= fun _ =>
    name_allocated ≫= fun ok =>
    if ok : bool then Remove release (ThePartition i) else mret tt.

(** The loop over the partitions of the array. *)
Fixpoint destroy_partitions (release : who -> io Life unit) (l : list nat) : io Life unit :=
  match l with
  | [] => mret tt
  | i :: l =>
      (fun s => if array_alive s then inr (default false (fst <$> partition_nodes s !! i), s) else inl WildAccess) ≫= fun is_valid =>
      (if is_valid : bool then release_partition release i else mret tt) ≫= fun _ =>
      destroy_partitions release l
  end.

Definition all_partitions (s : Life) : list nat := seq 0 (length (partition_nodes s)).

(** [partitions.~unique_ptr(); Heap::Free(this)] *)
Definition free_device : io Life unit := fun s =>
  if device_alive s && array_alive s then
    inr (tt, mkLife (device_node s) (partition_nodes s) (partitions_removed s) false false (allocations s) (driver_done s))
  else inl BadFree.

Definition mark_partitions_removed : io Life unit := fun s =>
  inr (tt, mkLife (device_node s) (partition_nodes s) true (device_alive s) (array_alive s) (allocations s) (driver_done s)).

(** [Device::ReleaseResources] *)
Definition release_device (release : who -> io Life unit) (remove_partitions : bool) : io Life unit := fun s =>
  (get TheDevice ≫= fun x =>
   if destroyed x then
     (if negb (partitions_removed s) then destroy_partitions release (all_partitions s) else mret tt) ≫= fun _ =>
     free_device
   else
     put_node TheDevice (destroyed_node x) ≫= fun _ =>
     (if remove_partitions then
        destroy_partitions release (all_partitions s) ≫= fun _ => mark_partitions_removed
      else mret tt) ≫= fun _ =>
     name_allocated ≫= fun ok =>
     if ok : bool then Remove release TheDevice else mret tt) s.

(** [ReleaseResources(false)] of a node, re-entered through the directory; the
    [destroyed] flag stops the recursion. *)
Fixpoint release (fuel : nat) (w : who) : io Life unit :=
  match fuel with
  | O => stop Hang
  | S fuel =>
      match w with
      | TheDevice => release_device (release fuel) false
      | ThePartition i => release_partition (release fuel) i
      end
  end.

Definition fuel : nat := 2.

(** [Device::DestroyDevice], called by the driver. *)
Definition DestroyDevice : io Life unit := release_device (release fuel) true.

(** ** What happens to a device *)

Inductive event := OpenNode (w : who) | CloseNode (w : who) | RemoveNode (w : who) | DriverDestroys.

Definition driver_gone : io Life unit := fun s =>
  inr (tt, mkLife (device_node s) (partition_nodes s) (partitions_removed s) (device_alive s) (array_alive s)
             (allocations s) true).

Definition exec (e : event) : io Life unit :=
  match e with
  | OpenNode w => Open w ≫= fun _ => mret tt
  | CloseNode w => Close (release fuel) w
  | RemoveNode w => Remove (release fuel) w
  | DriverDestroys => DestroyDevice ≫= fun _ => driver_gone
  end.

(** A node is opened and removed by its entry, closed by who opened it; the
    driver destroys the device once. *)
Definition enabled (e : event) (s : Life) : bool :=
  let at_node f w := match w with TheDevice => f (device_node s)
                     | ThePartition i => match partition_nodes s !! i with Some p => f p.2 | None => false end end in
  match e with
  | OpenNode w => at_node (fun x => listed x && (openReferences x <? 2 ^ 64 - 2)) w
  | RemoveNode w => at_node (fun x => listed x && (openReferences x <? 2 ^ 64 - 2)) w
  | CloseNode w => at_node (fun x => 0 <? openReferences x) w
  | DriverDestroys => negb (driver_done s)
  end.

Definition fresh_node : NodeLife := mkNode 0 false true false.
Definition fresh (n : nat) : Life := mkLife fresh_node (replicate n (true, fresh_node)) false true true 0 false.
End Release.

(** ** The lifetime of a device

    Under the discipline that the driver only destroys a device none of whose
    partitions is open, and with memory for the names. *)

Section Lifetime.
Context (names : nat -> bool) (names_ok : forall n, names n = true).

Definition unlisted_node : NodeLife := mkNode 0 false false false.

(** A valid partition is listed until removed, and destroyed when removed and
    closed; one that could not be registered is left alone. *)
Definition partition_ok (p : bool * NodeLife) : Prop :=
  if p.1 then
    removed p.2 = negb (listed p.2) /\ (destroyed p.2 = true -> removed p.2 = true) /\
    (removed p.2 = true -> openReferences p.2 = 0 -> destroyed p.2 = true) /\ 0 <= openReferences p.2 < 2 ^ 64 - 1
  else p.2 = unlisted_node.

Definition partition_gone (p : bool * NodeLife) : Prop := openReferences p.2 = 0 /\ listed p.2 = false.

Definition life_ok (s : Life) : Prop :=
  Forall partition_ok (partition_nodes s) /\ array_alive s = device_alive s /\
  exists r, 0 <= r < 2 ^ 64 - 1 /\
  if device_alive s then
    if driver_done s then
      device_node s = mkNode r true false true /\ 0 < r /\ partitions_removed s = true /\ Forall partition_gone (partition_nodes s)
    else
      partitions_removed s = false /\
      (device_node s = mkNode r false true false \/
       device_node s = mkNode r true false false /\ 0 < r \/
       device_node s = mkNode r true false true /\ r = 0)
  else driver_done s = true /\ device_node s = mkNode 0 true false true /\ Forall partition_gone (partition_nodes s).

Definition with_partitions (l : list (bool * NodeLife)) (n : nat) (s : Life) : Life :=
  mkLife (device_node s) l (partitions_removed s) (device_alive s) (array_alive s) n (driver_done s).

Definition finished (x : NodeLife) : NodeLife := mkNode (openReferences x) true false true.

Lemma partition_ok_finished x : partition_ok (true, x) -> partition_ok (true, finished x).
Proof. unfold partition_ok. cbn. tauto. Qed.

Lemma u64_inc n : 0 <= n < 2 ^ 64 - 1 -> u64 (u64 (n + 1) - 1) = n.
Proof. intros Hn. rewrite (wrap_small 64 (n + 1)) by lia. replace (n + 1 - 1) with n by lia. apply wrap_small. lia. Qed.

Lemma bind_io {A B} (m : io Life A) (k : A -> io Life B) w x w' : m w = inr (x, w') -> (m ≫= k) w = k x w'.
Proof. intros E. unfold mbind, io_bind. by rewrite E. Qed.

Section Partition.
Context (s : Life) (i : nat) (Ha : array_alive s = true) (Hi : (i < length (partition_nodes s))%nat).

(** The state where partition [i] is [x] and [n] names were asked for. *)
Definition at_partition (x : NodeLife) (n : nat) : Life :=
  with_partitions (<[i := (true, x)]> (partition_nodes s)) n s.

Lemma lookup_at x n : partition_nodes (at_partition x n) !! i = Some (true, x).
Proof. cbn. by apply list_lookup_insert_eq. Qed.

Lemma get_at x n : get (ThePartition i) (at_partition x n) = inr (x, at_partition x n).
Proof. unfold get, node. cbn [array_alive at_partition with_partitions]. by rewrite Ha, lookup_at. Qed.

Lemma put_at x y n : put_node (ThePartition i) y (at_partition x n) = inr (tt, at_partition y n).
Proof.
  unfold put_node, set_partition, at_partition, with_partitions. cbn. do 3 f_equal.
  apply list_eq. intros j. destruct (decide (i = j)) as [<-|Hne].
  - by rewrite list_lookup_alter_eq, !list_lookup_insert_eq.
  - by rewrite list_lookup_alter_ne, !list_lookup_insert_ne.
Qed.

Lemma name_at x n : name_allocated names (at_partition x n) = inr (true, at_partition x (S n)).
Proof. unfold name_allocated. cbn. by rewrite names_ok. Qed.

Ltac step_at :=
  lazymatch goal with
  | |- context [get (ThePartition i) ≫= _] => erewrite bind_io by apply get_at
  | |- context [put_node (ThePartition i) _ ≫= _] => erewrite bind_io by apply put_at
  | |- context [name_allocated _ ≫= _] => erewrite bind_io by apply name_at
  end; cbv beta.

Lemma Open_at x n : removed x = false ->
  Open (ThePartition i) (at_partition x n) = inr (SUCCESS, at_partition (with_refs (u64 (openReferences x + 1)) x) n).
Proof. intros Hr. unfold Open. step_at. rewrite Hr. by step_at. Qed.

Lemma Remove_at_unlisted rel x n : listed x = false -> Remove rel (ThePartition i) (at_partition x n) = inr (tt, at_partition x n).
Proof. intros Hl. unfold Remove. rewrite lookup_at. cbn [snd]. by rewrite Hl. Qed.

(** A listed partition is removed and, unless it is open, destroyed. *)
Lemma Remove_at_listed f x n :
  listed x = true -> removed x = false -> 0 <= openReferences x < 2 ^ 64 - 1 ->
  exists n', Remove (release names (S (S f))) (ThePartition i) (at_partition x n) =
    inr (tt, at_partition (mkNode (openReferences x) true false ((openReferences x =? 0) || destroyed x)) n').
Proof.
  intros Hl Hr Hb. unfold Remove. rewrite lookup_at. cbn [snd]. rewrite Hl. cbn [negb].
  erewrite bind_io by (by apply Open_at). cbv beta. rewrite bool_decide_eq_true_2 by done. cbn [negb].
  step_at. step_at. unfold Close. step_at. step_at. unfold delisted, with_refs. cbn [openReferences removed listed destroyed].
  rewrite u64_inc by done. destruct (Z.eqb_spec (openReferences x) 0) as [E|E]; cbn [andb orb].
  - cbn [release]. unfold release_partition. step_at. cbn [destroyed]. destruct (destroyed x).
    + eexists. reflexivity.
    + step_at. step_at. unfold destroyed_node. cbn [openReferences removed listed]. eexists. by rewrite Remove_at_unlisted.
  - eexists. reflexivity.
Qed.

Lemma release_at f x n : partition_ok (true, x) ->
  exists n', release_partition names (release names (S (S f))) i (at_partition x n) = inr (tt, at_partition (finished x) n').
Proof.
  intros (Hr & Hd & Hc & Hb). cbn [fst snd] in Hr, Hd, Hc, Hb. unfold release_partition. step_at. destruct (destroyed x) eqn:Ed.
  - exists n. specialize (Hd eq_refl). rewrite Hd in Hr. unfold finished. destruct x as [r [] [] []]; simplify_eq/=; done.
  - step_at. step_at. destruct (listed x) eqn:El; cbn [negb] in Hr.
    + destruct (Remove_at_listed f (destroyed_node x) (S n)) as (n' & E); [done|done|done|].
      exists n'. rewrite E. cbn [destroyed destroyed_node openReferences]. by rewrite orb_true_r.
    + exists (S n). rewrite Remove_at_unlisted by done. do 3 f_equal. unfold destroyed_node, finished. by rewrite Hr, El.
Qed.
End Partition.

Lemma Close_at s i x n :
  array_alive s = true -> (i < length (partition_nodes s))%nat -> partition_ok (true, x) -> 0 < openReferences x ->
  exists y n', Close (release names fuel) (ThePartition i) (at_partition s i x n) = inr (tt, at_partition s i y n') /\
    partition_ok (true, y).
Proof.
  intros Ha Hi Hok Hpos. destruct Hok as (Hr & Hd & Hc & Hb). cbn [fst snd] in *.
  unfold Close. erewrite bind_io by (by apply get_at). cbv beta. erewrite bind_io by (by apply put_at). cbv beta.
  assert (Hu : u64 (openReferences x - 1) = openReferences x - 1) by (apply wrap_small; lia). rewrite Hu.
  destruct (Z.eqb_spec (openReferences x - 1) 0) as [E|E]; cbn [andb].
  - destruct (removed x) eqn:Er.
    + unfold fuel. change (release names 2 (ThePartition i)) with (release_partition names (release names 1) i).
      unfold release_partition. erewrite bind_io by (by apply get_at). cbv beta. cbn [destroyed with_refs].
      destruct (destroyed x) eqn:Ed.
      * eexists _, _. split; [reflexivity|]. unfold partition_ok, with_refs. cbn. rewrite Er, Ed. split_and!; (done || lia).
      * erewrite bind_io by (by apply put_at). cbv beta. erewrite bind_io by (by apply name_at). cbv beta iota.
        rewrite Remove_at_unlisted by (cbn; by destruct (listed x)).
        eexists _, _. split; [reflexivity|]. unfold partition_ok, with_refs, destroyed_node. cbn. rewrite Er. split_and!; (done || lia).
    + eexists _, _. split; [reflexivity|]. unfold partition_ok, with_refs. cbn. rewrite Er. split_and!; (done || lia).
  - eexists _, _. split; [reflexivity|]. unfold partition_ok, with_refs. cbn. split_and!; (done || lia).
Qed.

(** *** The loop over the partitions *)

Definition finish (p : bool * NodeLife) : bool * NodeLife := (p.1, if p.1 then finished p.2 else p.2).

Lemma at_partition_self s l1 x l2 n :
  partition_nodes s = l1 ++ (true, x) :: l2 -> at_partition s (length l1) x n = with_partitions (l1 ++ (true, x) :: l2) n s.
Proof. intros E. unfold at_partition. rewrite E, list_insert_id; [done|]. by rewrite lookup_app_r, Nat.sub_diag by lia. Qed.

Lemma destroy_partitions_spec s todo l1 n :
  array_alive s = true -> Forall partition_ok todo ->
  exists n', destroy_partitions names (release names fuel) (seq (length l1) (length todo)) (with_partitions (l1 ++ todo) n s) =
    inr (tt, with_partitions (l1 ++ map finish todo) n' s).
Proof.
  intros Ha. revert l1 n. induction todo as [|[b x] todo IH]; intros l1 n Hok; [by eexists|].
  inversion Hok as [|? ? Hx Htodo]; subst. cbn [length seq destroy_partitions].
  set (s0 := with_partitions (l1 ++ (b, x) :: todo) n s).
  erewrite bind_io; [|unfold s0; cbn; by rewrite Ha, lookup_app_r, Nat.sub_diag by lia]. cbn [default fst fmap option_fmap option_map].
  specialize (IH (l1 ++ [finish (b, x)])). rewrite length_app in IH. cbn [length] in IH. rewrite Nat.add_1_r in IH.
  destruct b; cbn [finish fst snd] in *.
  - destruct (release_at s0 (length l1) Ha ltac:(cbn; rewrite length_app; cbn; lia) 0 x n Hx) as (n1 & E).
    rewrite (at_partition_self s0 l1 x todo n eq_refl) in E. change (with_partitions _ n s0) with s0 in E.
    erewrite bind_io by exact E. destruct (IH n1 Htodo) as (n2 & E2). exists n2.
    rewrite <- !app_assoc in E2. cbn [app] in E2. cbn [map]. rewrite <- E2. f_equal. unfold at_partition, with_partitions. cbn.
    f_equal. rewrite insert_app_r_alt, Nat.sub_diag by lia. done.
  - erewrite bind_io by reflexivity. destruct (IH n Htodo) as (n2 & E2). exists n2.
    rewrite <- !app_assoc in E2. cbn [app] in E2. cbn [map]. rewrite <- E2. reflexivity.
Qed.

Lemma destroy_all s n :
  array_alive s = true -> Forall partition_ok (partition_nodes s) ->
  exists n', destroy_partitions names (release names fuel) (all_partitions s) (with_partitions (partition_nodes s) n s) =
    inr (tt, with_partitions (map finish (partition_nodes s)) n' s).
Proof. intros Ha Hok. exact (destroy_partitions_spec s (partition_nodes s) [] n Ha Hok). Qed.

Lemma finish_ok l : Forall partition_ok l -> Forall partition_ok (map finish l).
Proof.
  intros Hl. apply Forall_map. eapply Forall_impl; [exact Hl|]. intros [[] x] Hx; [by apply partition_ok_finished|exact Hx].
Qed.

Lemma finish_gone l : Forall partition_ok l -> Forall (fun p => openReferences p.2 = 0) l -> Forall partition_gone (map finish l).
Proof.
  intros Hl Hr. apply Forall_map. induction Hl as [|[b x] l Hx _ IH]; inversion Hr; subst; constructor; [|by apply IH].
  destruct b; unfold partition_gone; cbn in *; [done|]. by rewrite Hx.
Qed.

(** *** The device *)

(** The state of the device, its partitions and the driver. *)
Definition dev (x : NodeLife) (l : list (bool * NodeLife)) (pr : bool) (n : nat) (done : bool) : Life :=
  mkLife x l pr true true n done.
Definition dead (x : NodeLife) (l : list (bool * NodeLife)) (pr : bool) (n : nat) (done : bool) : Life :=
  mkLife x l pr false false n done.

Lemma get_dev x l pr n dn : get TheDevice (dev x l pr n dn) = inr (x, dev x l pr n dn).
Proof. done. Qed.
Lemma put_dev x y l pr n dn : put_node TheDevice y (dev x l pr n dn) = inr (tt, dev y l pr n dn).
Proof. done. Qed.
Lemma name_dev x l pr n dn : name_allocated names (dev x l pr n dn) = inr (true, dev x l pr (S n) dn).
Proof. unfold name_allocated. cbn. by rewrite names_ok. Qed.
Lemma destroy_dev x l pr n dn : Forall partition_ok l ->
  exists n', destroy_partitions names (release names fuel) (all_partitions (dev x l pr n dn)) (dev x l pr n dn) =
    inr (tt, dev x (map finish l) pr n' dn).
Proof. intros Hok. exact (destroy_all (dev x l pr n dn) n eq_refl Hok). Qed.

Ltac step_dev :=
  lazymatch goal with
  | |- context [get TheDevice ≫= _] => erewrite bind_io by apply get_dev
  | |- context [put_node TheDevice _ ≫= _] => erewrite bind_io by apply put_dev
  | |- context [name_allocated _ ≫= _] => erewrite bind_io by apply name_dev
  end; cbv beta iota; cbn [openReferences removed listed destroyed with_refs delisted destroyed_node negb andb].

Lemma Remove_dev_unlisted rel r rm d l pr n dn :
  Remove rel TheDevice (dev (mkNode r rm false d) l pr n dn) = inr (tt, dev (mkNode r rm false d) l pr n dn).
Proof. done. Qed.

(** The second release frees the memory. *)
Lemma release_again f r l n dn :
  release names (S f) TheDevice (dev (mkNode r true false true) l true n dn) = inr (tt, dead (mkNode r true false true) l true n dn).
Proof. done. Qed.

(** The first, from the directory. *)
Lemma release_first f l n :
  release names (S f) TheDevice (dev (mkNode 0 true false false) l false n false) = inr (tt, dev (mkNode 0 true false true) l false (S n) false).
Proof.
  cbn [release]. unfold release_device. step_dev. step_dev. erewrite bind_io by reflexivity. cbv beta. by step_dev.
Qed.

Lemma Remove_dev_listed r d l pr n dn :
  0 <= r < 2 ^ 64 - 1 ->
  Remove (release names fuel) TheDevice (dev (mkNode r false true d) l pr n dn) =
    if r =? 0 then release names fuel TheDevice (dev (mkNode 0 true false d) l pr n dn)
    else inr (tt, dev (mkNode r true false d) l pr n dn).
Proof.
  intros Hr. unfold Remove. cbn [listed device_node dev negb]. unfold Open.
  erewrite bind_io by (step_dev; by step_dev). cbv beta. rewrite bool_decide_eq_true_2 by done. cbn [negb].
  step_dev. step_dev. unfold Close. step_dev. step_dev. rewrite u64_inc by done.
  destruct (Z.eqb_spec r 0) as [->|]; reflexivity.
Qed.

(** [DestroyDevice] on a device that was not released yet. *)
Lemma DestroyDevice_first r rm ls l n :
  Forall partition_ok l ->
  exists n', DestroyDevice names (dev (mkNode r rm ls false) l false n false) =
    Remove (release names fuel) TheDevice (dev (mkNode r rm ls true) (map finish l) true n' false).
Proof.
  intros Hok. destruct (destroy_dev (mkNode r rm ls true) l false n false Hok) as (n' & E).
  exists (S n'). unfold DestroyDevice, release_device. step_dev. step_dev.
  erewrite bind_io; [|erewrite bind_io by exact E; reflexivity]. cbv beta.
  change (mkLife _ _ true _ _ _ _) with (dev (mkNode r rm ls true) (map finish l) true n' false). by step_dev.
Qed.

Lemma DestroyDevice_second l n :
  Forall partition_ok l ->
  exists n', DestroyDevice names (dev (mkNode 0 true false true) l false n false) =
    inr (tt, dead (mkNode 0 true false true) (map finish l) false n' false).
Proof.
  intros Hok. destruct (destroy_dev (mkNode 0 true false true) l false n false Hok) as (n' & E).
  exists n'. unfold DestroyDevice, release_device. step_dev. cbn [partitions_removed dev negb].
  by erewrite bind_io by exact E.
Qed.

(** *** Every event keeps the invariant *)

Definition partition_open (s : Life) : Prop := Exists (fun p => openReferences p.2 <> 0) (partition_nodes s).
Definition allowed (e : event) (s : Life) : Prop :=
  enabled e s = true /\ (e = DriverDestroys -> ~ partition_open s).

Lemma not_open l : ~ Exists (fun p : bool * NodeLife => openReferences p.2 <> 0) l -> Forall (fun p => openReferences p.2 = 0) l.
Proof.
  intros H. apply Forall_forall. intros p Hp. destruct (decide (openReferences p.2 = 0)) as [|Hn]; [done|].
  destruct H. apply Exists_exists. eauto.
Qed.

(** A partition with an entry or a user belongs to a device the driver still
    has. *)
Lemma partition_live s i p :
  life_ok s -> partition_nodes s !! i = Some p -> listed p.2 = true \/ 0 < openReferences p.2 ->
  driver_done s = false /\ device_alive s = true /\ array_alive s = true /\ exists x, p = (true, x) /\ partition_ok (true, x).
Proof.
  intros (Hp & Ha & r & Hr & Hd) Hi Hl. pose proof (Forall_lookup_1 _ _ _ _ Hp Hi) as Hok.
  assert (Hng : ~ Forall partition_gone (partition_nodes s)).
  { intros Hg. destruct (Forall_lookup_1 _ _ _ _ Hg Hi) as [Hz Hf]. destruct Hl as [Hl|Hl]; [congruence|lia]. }
  rewrite Ha. destruct (device_alive s); [|tauto]. destruct (driver_done s); [tauto|]. split_and!; [done..|].
  destruct p as [[] x]; [by exists x|]. unfold partition_ok in Hok. cbn in Hok, Hl. subst. cbn in Hl. destruct Hl; [done|lia].
Qed.

Lemma life_ok_at s i x n :
  life_ok s -> driver_done s = false -> device_alive s = true -> partition_ok (true, x) -> life_ok (at_partition s i x n).
Proof.
  intros (Hp & Ha & r & Hr & Hd) Hdd Hal Hx. rewrite Hal, Hdd in Hd. unfold life_ok. cbn. rewrite Hal, Hdd in *.
  split_and!; [by apply Forall_insert|done|by exists r].
Qed.

Lemma at_partition_id s i x : partition_nodes s !! i = Some (true, x) -> at_partition s i x (allocations s) = s.
Proof. intros E. unfold at_partition, with_partitions. rewrite list_insert_id by done. by destruct s. Qed.

Lemma partition_event s i e :
  life_ok s -> e = OpenNode (ThePartition i) \/ e = CloseNode (ThePartition i) \/ e = RemoveNode (ThePartition i) ->
  enabled e s = true -> exists s', exec names e s = inr (tt, s') /\ life_ok s'.
Proof.
  intros Hok He En.
  assert (Hi : exists p, partition_nodes s !! i = Some p).
  { destruct He as [->|[->| ->]]; cbn in En; destruct (partition_nodes s !! i); (done || eauto). }
  destruct Hi as [p Hi].
  destruct (partition_live s i p Hok Hi) as (Hdd & Hal & Haa & x & -> & Hx).
  { destruct He as [->|[->| ->]]; cbn in En; rewrite Hi in En; cbn in En;
      [apply andb_prop in En as [En _]; by left | right; by apply Z.ltb_lt | apply andb_prop in En as [En _]; by left]. }
  assert (Hlt : (i < length (partition_nodes s))%nat) by (apply lookup_lt_is_Some; eauto).
  pose proof (at_partition_id s i x Hi) as Hid. pose proof Hx as (Hr & Hd & Hc & Hb). cbn [fst snd] in Hr, Hd, Hc, Hb.
  destruct He as [->|[->| ->]]; cbn in En; rewrite Hi in En; cbn [snd] in En.
  - apply andb_prop in En as [Hl Hlim]. apply Z.ltb_lt in Hlim. rewrite Hl in Hr. cbn in Hr.
    rewrite <- Hid. cbn [exec]. erewrite bind_io by (apply Open_at; done). eexists. split; [reflexivity|].
    apply life_ok_at; [done..|]. unfold partition_ok, with_refs. cbn. rewrite (wrap_small 64) by lia. rewrite Hr, Hl in *.
    split_and!; (done || lia).
  - apply Z.ltb_lt in En. destruct (Close_at s i x (allocations s) Haa Hlt Hx En) as (y & n' & E & Hy).
    rewrite Hid in E. eexists. split; [exact E|]. by apply life_ok_at.
  - apply andb_prop in En as [Hl Hlim]. apply Z.ltb_lt in Hlim. rewrite Hl in Hr. cbn in Hr.
    destruct (Remove_at_listed s i Haa Hlt 0 x (allocations s) Hl Hr Hb) as (n' & E).
    rewrite Hid in E. eexists. split; [exact E|]. apply life_ok_at; [done..|]. unfold partition_ok. cbn.
    split_and!; try (done || lia); intros _ ->; done.
Qed.

(** What a device can be before the driver is done with it. *)
Inductive phase : NodeLife -> Prop :=
| phase_listed r : 0 <= r < 2 ^ 64 - 1 -> phase (mkNode r false true false)
| phase_removed r : 0 < r < 2 ^ 64 - 1 -> phase (mkNode r true false false)
| phase_closed : phase (mkNode 0 true false true).

Lemma life_cases s :
  life_ok s ->
  (exists x l n, s = dev x l false n false /\ Forall partition_ok l /\ phase x) \/
  (exists r l n, s = dev (mkNode r true false true) l true n true /\ 0 < r < 2 ^ 64 - 1 /\ Forall partition_ok l /\ Forall partition_gone l) \/
  (exists l pr n, s = dead (mkNode 0 true false true) l pr n true /\ Forall partition_ok l /\ Forall partition_gone l).
Proof.
  intros (Hp & Ha & r & Hr & Hd). destruct s as [x l pr al aa n dd]. cbn in *. subst aa. destruct al; [destruct dd|].
  - right. left. destruct Hd as (-> & Hpos & -> & Hg). exists r, l, n. split_and!; (done || lia).
  - left. destruct Hd as (-> & Hx). exists x, l, n. split_and!; [done..|].
    destruct Hx as [->|[[-> ?]|[-> ->]]]; constructor; lia.
  - right. right. destruct Hd as (-> & -> & Hg). by exists l, pr, n.
Qed.

Lemma life_ok_dev x l n : Forall partition_ok l -> phase x -> life_ok (dev x l false n false).
Proof.
  intros Hl Hx. split_and!; [done|done|]. destruct Hx as [r Hr|r Hr|]; [exists r|exists r|exists 0]; cbn.
  - split; [lia|]. split; [done|]. by left.
  - split; [lia|]. split; [done|]. right. left. split; [done|lia].
  - split; [lia|]. split; [done|]. right. by right.
Qed.

Lemma life_ok_late r l n :
  0 < r < 2 ^ 64 - 1 -> Forall partition_ok l -> Forall partition_gone l -> life_ok (dev (mkNode r true false true) l true n true).
Proof. intros Hr Hl Hg. split_and!; [done|done|]. exists r. cbn. split_and!; (done || lia). Qed.

Lemma life_ok_dead l pr n : Forall partition_ok l -> Forall partition_gone l -> life_ok (dead (mkNode 0 true false true) l pr n true).
Proof. intros Hl Hg. split_and!; [done|done|]. exists 0. cbn. split_and!; (done || lia). Qed.

Lemma Close_dev r rm ls d l pr n dn :
  0 < r < 2 ^ 64 ->
  Close (release names fuel) TheDevice (dev (mkNode r rm ls d) l pr n dn) =
    if (r =? 1) && rm then release names fuel TheDevice (dev (mkNode 0 rm ls d) l pr n dn)
    else inr (tt, dev (mkNode (r - 1) rm ls d) l pr n dn).
Proof.
  intros Hr. unfold Close. step_dev. step_dev. rewrite (wrap_small 64 (r - 1)) by lia.
  destruct (Z.eqb_spec (r - 1) 0), (Z.eqb_spec r 1); try lia; [|done]. subst r. destruct rm; done.
Qed.

Lemma driver_event s : life_ok s -> driver_done s = false -> ~ partition_open s ->
  exists s', exec names DriverDestroys s = inr (tt, s') /\ life_ok s'.
Proof.
  intros Hok Hdd Ho. destruct (life_cases s Hok) as [(x & l & n & -> & Hl & Hx)|[(? & ? & ? & -> & _)|(? & ? & ? & -> & _)]]; [|done..].
  pose proof (finish_gone l Hl (not_open l Ho)) as Hg. pose proof (finish_ok l Hl) as Hl'. cbn [exec].
  destruct Hx as [r Hr|r Hr|].
  - destruct (DestroyDevice_first r false true l n Hl) as (n' & E). rewrite Remove_dev_listed in E by done.
    destruct (Z.eqb_spec r 0) as [->|Hr0].
    + rewrite (release_again 1) in E. eexists. split; [by erewrite bind_io by exact E|]. by apply life_ok_dead.
    + eexists. split; [by erewrite bind_io by exact E|]. apply life_ok_late; (done || lia).
  - destruct (DestroyDevice_first r true false l n Hl) as (n' & E). rewrite Remove_dev_unlisted in E.
    eexists. split; [by erewrite bind_io by exact E|]. by apply life_ok_late.
  - destruct (DestroyDevice_second l n Hl) as (n' & E). eexists. split; [by erewrite bind_io by exact E|]. by apply life_ok_dead.
Qed.

Lemma device_event s e :
  life_ok s -> e = OpenNode TheDevice \/ e = CloseNode TheDevice \/ e = RemoveNode TheDevice ->
  enabled e s = true -> exists s', exec names e s = inr (tt, s') /\ life_ok s'.
Proof.
  intros Hok He En. destruct (life_cases s Hok) as [(x & l & n & -> & Hl & Hx)|[(r & l & n & -> & Hr & Hl & Hg)|(l & pr & n & -> & Hl & Hg)]].
  - destruct He as [->|[->| ->]]; cbn [exec].
    + destruct Hx as [r Hr|r Hr|]; [|done..]. cbn in En. apply Z.ltb_lt in En.
      erewrite bind_io; [|unfold Open; step_dev; by step_dev]. eexists. split; [reflexivity|].
      rewrite (wrap_small 64) by lia. apply life_ok_dev; [done|]. constructor. lia.
    + destruct Hx as [r Hr|r Hr|]; cbn in En; [apply Z.ltb_lt in En; rewrite Close_dev by lia..|done].
      * rewrite andb_false_r. eexists. split; [reflexivity|]. apply life_ok_dev; [done|]. constructor. lia.
      * rewrite andb_true_r. destruct (Z.eqb_spec r 1) as [->|Hr1].
        -- unfold fuel. rewrite release_first. eexists. split; [reflexivity|]. by apply life_ok_dev; [|constructor].
        -- eexists. split; [reflexivity|]. apply life_ok_dev; [done|]. constructor. lia.
    + destruct Hx as [r Hr|r Hr|]; [|done..]. rewrite Remove_dev_listed by done. destruct (Z.eqb_spec r 0) as [->|Hr0].
      * unfold fuel. rewrite release_first. eexists. split; [reflexivity|]. by apply life_ok_dev; [|constructor].
      * eexists. split; [reflexivity|]. apply life_ok_dev; [done|]. constructor. lia.
  - destruct He as [->|[->| ->]]; [done| |done]. cbn [exec]. rewrite Close_dev by lia. rewrite andb_true_r.
    destruct (Z.eqb_spec r 1) as [->|Hr1].
    + unfold fuel. rewrite release_again. eexists. split; [reflexivity|]. by apply life_ok_dead.
    + eexists. split; [reflexivity|]. apply life_ok_late; (done || lia).
  - by destruct He as [->|[->| ->]].
Qed.

Lemma event_ok s e : life_ok s -> allowed e s -> exists s', exec names e s = inr (tt, s') /\ life_ok s'.
Proof.
  intros Hok [En Hd]. destruct e as [[|i]|[|i]|[|i]|]; [|eapply (partition_event s i)|
    |eapply (partition_event s i)| |eapply (partition_event s i)|apply driver_event]; auto.
  1-3: apply device_event; auto.
  cbn in En. by apply negb_true_iff in En.
Qed.

(** The states a device goes through. *)
Inductive lives (s0 : Life) : Life -> Prop :=
| lives_start : lives s0 s0
| lives_event s e s' : lives s0 s -> allowed e s -> exec names e s = inr (tt, s') -> lives s0 s'.

(** A device as [AddDevice] leaves it: the partitions that could not be
    registered are invalid and have no entry. *)
Definition added (valid : list bool) : Life :=
  mkLife fresh_node (map (fun b : bool => (b, if b then fresh_node else unlisted_node)) valid) false true true 0 false.

Lemma lives_ok l s : lives (added l) s -> life_ok s.
Proof.
  induction 1 as [|s e s' _ IH Ha E].
  - split_and!; [|done|].
    + apply Forall_map, Forall_forall. intros [] _; cbn; unfold partition_ok; cbn; [|done]. split_and!; (done || lia).
    + exists 0. cbn. split; [lia|]. split; [done|]. by left.
  - destruct (event_ok s e IH Ha) as (s1 & E1 & H1). congruence.
Qed.

End Lifetime.

Definition always (n : nat) : bool := true.


(** A partition that is open when the driver destroys its device: closing it
    uses the freed array. *)
Example open_partition_outlives_device :
  (exec always (OpenNode (ThePartition 1)) ≫= fun _ => exec always DriverDestroys ≫= fun _ =>
   exec always (CloseNode (ThePartition 1))) (fresh 2) = inl WildAccess.
Proof. vm_compute. reflexivity. Qed.
