(* ===== verification/Scsi.v ===== *)
(** * Component: the SCSI disk driver
    ([kernel/src/devices/Storage/SCSI/Driver.cpp])

    A block interface on top of a storage controller: the capacity of the unit,
    reads and writes cut into transfers the controller can carry, and the
    creation and destruction of the driver.  The controller is the class
    [Controller]. *)
From S2P Require Import Prelude DataNode Storage BlockDevice BlockLifetime.

Record ScsiDriver := mkScsiDriver { lun : Z; capacity_blocksCount : Z; capacity_blockSize : Z; use_extended_methods : bool }.

(** The driver with its controller. *)
Record ScsiDisk (C : Type) := mkScsi { scsi_driver : ScsiDriver; scsi_controller : C }.
Arguments mkScsi {C}.
Arguments scsi_driver {C}.
Arguments scsi_controller {C}.

(** [Create]: [None] when the heap has no room. *)
Definition Scsi_Create (allocated : bool) (lun : Z) : option ScsiDriver :=
  if allocated then Some (mkScsiDriver lun 0 0 false) else None.

(** [Destroy]: [device->DestroyDevice()], whether or not there is a device. *)
Definition Scsi_Destroy (names : nat -> bool) (device : option Life) : fault + Life :=
  match device with
  | None => inl NullAccess
  | Some d => match DestroyDevice names d with inl e => inl e | inr (_, d) => inr d end
  end.

Section Scsi.
Context {C : Type} `{Controller C} (stale : Z -> Z).
#[local] Abbreviation St := (io (ScsiDisk C)).
#[local] Abbreviation max_transfer := (GetMaxDataTransferLength (C := C)).

Definition on_controller {A} : io C A -> St A :=
  zoom scsi_controller (fun c s => mkScsi (scsi_driver s) c).
Definition the_driver : St ScsiDriver := fun s => inr (scsi_driver s, s).
Definition set_driver (d : ScsiDriver) : St unit := fun s => inr (tt, mkScsi d (scsi_controller s)).

(** A payload of a command for the unit of the driver. *)
Definition payload_of (d : ScsiDriver) (command : list Z) (data : list Z) (n : Z) (isInput : bool) : CommandPayload :=
  mkPayload (Some command) (Z.of_nat (length command)) (Some data) n isInput (lun d).

(** ** Capacity *)

Definition ReadCapacity10 : St (option (Z * Z)) :=
  the_driver ≫= fun d =>
  on_controller (SendCommand (payload_of d [0x25; 0; 0; 0; 0; 0; 0; 0; 0; 0] (map stale (seqZ 0 8)) 8 true)) ≫= fun '(ok, data) =>
  if negb ok then mret None
  else
    or_stop WildAccess (data ≫= fun data => load data 0 8) ≫= fun r =>
    mret (Some (be (take 4 r), be (drop 4 r))).

Definition ReadCapacity16 : St (option (Z * Z)) :=
  the_driver ≫= fun d =>
  on_controller (SendCommand (payload_of d [0x9E; 0x10; 0; 0; 0; 0; 0; 0; 0; 0; 0; 0; 0; 12; 0; 0] (replicate 12 0) 12 true)) ≫= fun '(ok, data) =>
  if negb ok then mret None
  else
    or_stop WildAccess (data ≫= fun data => load data 0 12) ≫= fun r =>
    mret (Some (be (take 8 r), be (drop 8 r))).

Definition CAPACITY_10_OVERFLOW : Z := 0xFFFFFFFF.

Definition use_extended : St unit :=
  the_driver ≫= fun d => set_driver (mkScsiDriver (lun d) (capacity_blocksCount d) (capacity_blockSize d) true).

Definition ReadCapacity : St (option (Z * Z)) :=
  ReadCapacity10 ≫= fun capacity10 =>
  match capacity10 with
  | None => mret None
  | Some (blocksCount, blockSize) =>
      if (blocksCount =? CAPACITY_10_OVERFLOW) && (16 <=? max_transfer)
      then use_extended ≫= fun _ => ReadCapacity16
      else mret (Some (blocksCount, blockSize))
  end.

(** ** Transfers *)

Definition read_command10 (op startBlock blocksCount : Z) : list Z :=
  [op; 0; u8 (Z.shiftr startBlock 24); u8 (Z.shiftr startBlock 16); u8 (Z.shiftr startBlock 8); u8 startBlock; 0;
   u8 (Z.shiftr blocksCount 8); u8 blocksCount; 0].

Definition read_command16 (op startBlock blocksCount : Z) : list Z :=
  [op; 0; u8 (Z.shiftr startBlock 56); u8 (Z.shiftr startBlock 48); u8 (Z.shiftr startBlock 40); u8 (Z.shiftr startBlock 32);
   u8 (Z.shiftr startBlock 24); u8 (Z.shiftr startBlock 16); u8 (Z.shiftr startBlock 8); u8 startBlock;
   u8 (Z.shiftr blocksCount 24); u8 (Z.shiftr blocksCount 16); u8 (Z.shiftr blocksCount 8); u8 blocksCount; 0; 0].

(** What [SendReadCommand] and [SendWriteCommand] share: the checks and the
    command block, with the two operation codes. *)
Definition transfer_command (d : ScsiDriver) (op10 op16 startBlock blocksCount : Z) : option (list Z) :=
  if max_transfer <? u64 (blocksCount * capacity_blockSize d) then None
  else if negb (use_extended_methods d) then
    if 0xFFFF <? blocksCount then None else Some (read_command10 op10 startBlock blocksCount)
  else
    if 0xFFFFFFFF <? blocksCount then None else Some (read_command16 op16 startBlock blocksCount).

(** The buffer from [at] on. *)
Definition SendReadCommand (startBlock blocksCount : Z) (buffer : list Z) (at_ : Z) : St (bool * list Z) :=
  the_driver ≫= fun d =>
  match transfer_command d 0x28 0x88 startBlock blocksCount with
  | None => mret (false, buffer)
  | Some command =>
      on_controller (SendCommand (payload_of d command (drop (Z.to_nat at_) buffer)
        (u64 (blocksCount * capacity_blockSize d)) true)) ≫= fun '(ok, data) =>
      mret (ok, take (Z.to_nat at_) buffer ++ default [] data)
  end.

Definition SendWriteCommand (startBlock blocksCount : Z) (buffer : list Z) (at_ : Z) : St bool :=
  the_driver ≫= fun d =>
  match transfer_command d 0x2A 0x8A startBlock blocksCount with
  | None => mret false
  | Some command =>
      on_controller (SendCommand (payload_of d command (drop (Z.to_nat at_) buffer)
        (u64 (blocksCount * capacity_blockSize d)) false)) ≫= fun '(ok, _) => mret ok
  end.

(** [while (transferSize > maxAtomicTransferSize)] and the transfer of the
    rest. *)
Fixpoint read_loop (fuel : nat) (startBlock transferSize : Z) (buffer : list Z) (at_ : Z) : St (bool * list Z) :=
  the_driver ≫= fun d =>
  let blockSize := capacity_blockSize d in
  if max_transfer <? transferSize then
    match fuel with
    | O => stop Hang
    | S fuel =>
        let blocksToTransfer := max_transfer / blockSize in
        SendReadCommand startBlock blocksToTransfer buffer at_ ≫= fun '(ok, buffer) =>
        if negb ok then mret (false, buffer)
        else
          read_loop fuel (u64 (startBlock + blocksToTransfer)) (u64 (transferSize - u64 (blocksToTransfer * blockSize)))
            buffer (at_ + u64 (blocksToTransfer * blockSize))
    end
  else if 0 <? transferSize then
    SendReadCommand startBlock (u64 (transferSize + blockSize - 1) / blockSize) buffer at_
  else mret (true, buffer).

Fixpoint write_loop (fuel : nat) (startBlock transferSize : Z) (buffer : list Z) (at_ : Z) : St bool :=
  the_driver ≫= fun d =>
  let blockSize := capacity_blockSize d in
  if max_transfer <? transferSize then
    match fuel with
    | O => stop Hang
    | S fuel =>
        let blocksToTransfer := max_transfer / blockSize in
        SendWriteCommand startBlock blocksToTransfer buffer at_ ≫= fun ok =>
        if negb ok then mret false
        else
          write_loop fuel (u64 (startBlock + blocksToTransfer)) (u64 (transferSize - u64 (blocksToTransfer * blockSize)))
            buffer (at_ + u64 (blocksToTransfer * blockSize))
    end
  else if 0 <? transferSize then
    SendWriteCommand startBlock (u64 (transferSize + blockSize - 1) / blockSize) buffer at_
  else mret true.

Section Blocks.
Context (fuel : nat).

Definition Scsi_ReadBlocks (startBlock blocksCount : Z) (buffer : list Z) : St (bool * list Z) :=
  the_driver ≫= fun d => read_loop fuel startBlock (u64 (blocksCount * capacity_blockSize d)) buffer 0.
Definition Scsi_WriteBlocks (startBlock blocksCount : Z) (buffer : list Z) : St bool :=
  the_driver ≫= fun d => write_loop fuel startBlock (u64 (blocksCount * capacity_blockSize d)) buffer 0.

(** The driver is the block interface of its unit. *)
Definition scsi_interface : Interface (ScsiDisk C) :=
  {| GetBlocksCount s := capacity_blocksCount (scsi_driver s);
     GetBlockSize s := capacity_blockSize (scsi_driver s);
     ReadBlocks := Scsi_ReadBlocks;
     WriteBlocks := Scsi_WriteBlocks |}.
#[local] Existing Instance scsi_interface.

Definition set_capacity (blocksCount blockSize : Z) : St unit :=
  the_driver ≫= fun d => set_driver (mkScsiDriver (lun d) blocksCount blockSize (use_extended_methods d)).

(** [PostInitialization]: its success and the device added. *)
Definition Scsi_PostInitialization {N} `{DeviceDirectory N} : io (System (ScsiDisk C) N) (bool * option Device) :=
  on_disk ReadCapacity ≫= fun capacity =>
  match capacity with
  | None => mret (false, None)
  | Some (blocksCount, blockSize) =>
      on_disk (set_capacity blocksCount blockSize) ≫= fun _ =>
      if (blocksCount =? 0) || (blockSize =? 0) then mret (false, None)
      else
        AddDevice stale true ≫= fun device =>
        match device with
        | None => mret (false, None)
        | Some d => mret (true, Some d)
        end
  end.
End Blocks.
End Scsi.
