(* ===== verification/ScsiProps.v ===== *)
(** * The SCSI disk driver: properties

    Reads and writes of any length, cut into transfers, reach exactly the
    blocks of the unit, so that a SCSI disk is a block device that works; what
    the driver takes for the size of a disk, and two ways it goes wrong. *)
From S2P Require Import Prelude DataNode Storage BlockDevice BlockDeviceProps Scsi.

(** ** Bytes of commands *)

Lemma shifted_byte x k : 0 <= k -> u8 (Z.shiftr x (8 * k)) = (x / 256 ^ k) mod 256.
Proof. intros Hk. rewrite Z.shiftr_div_pow2, Z.pow_mul_r by lia. done. Qed.

Lemma read_command10_cdb op s n : read_command10 op s n = cdb10 op s n.
Proof.
  unfold read_command10, cdb10, be_bytes. cbn [le_bytes rev app].
  change 24 with (8 * 3). change 16 with (8 * 2). change (Z.shiftr s 8) with (Z.shiftr s (8 * 1)). change (Z.shiftr n 8) with (Z.shiftr n (8 * 1)).
  rewrite !shifted_byte, !Z.div_div by lia. done.
Qed.

Lemma read_command16_cdb op s n : read_command16 op s n = cdb16 op s n.
Proof.
  unfold read_command16, cdb16, be_bytes. cbn [le_bytes rev app].
  change 56 with (8 * 7). change 48 with (8 * 6). change 40 with (8 * 5). change 32 with (8 * 4).
  change 24 with (8 * 3). change 16 with (8 * 2). change (Z.shiftr s 8) with (Z.shiftr s (8 * 1)). change (Z.shiftr n 8) with (Z.shiftr n (8 * 1)).
  rewrite !shifted_byte, !Z.div_div by lia. done.
Qed.

Lemma le_bytes_range n x : Forall (fun b => 0 <= b < 256) (le_bytes n x).
Proof. revert x. induction n as [|n IH]; intros x; constructor; [apply Z.mod_pos_bound; lia|apply IH]. Qed.

Lemma be_bytes_range n x : Forall (fun b => 0 <= b < 256) (be_bytes n x).
Proof. apply Forall_rev, le_bytes_range. Qed.

Lemma be_be_bytes n x : 0 <= x < 256 ^ Z.of_nat n -> be (be_bytes n x) = x.
Proof. intros Hx. unfold be, be_bytes. rewrite rev_involutive. by apply le_le_bytes. Qed.

Lemma length_be_bytes n x : length (be_bytes n x) = n.
Proof. unfold be_bytes. rewrite length_rev. revert x. induction n; intros x; simpl; auto. Qed.

Lemma cdb_bytes op s n : 0 <= op < 256 ->
  Forall (fun b => 0 <= b < 256) (cdb10 op s n) /\ Forall (fun b => 0 <= b < 256) (cdb16 op s n).
Proof.
  intros Ho. unfold cdb10, cdb16. rewrite !Forall_app. split; split_and!; try apply be_bytes_range; repeat constructor; lia.
Qed.

Lemma length_cdb op s n : length (cdb10 op s n) = 10%nat /\ length (cdb16 op s n) = 16%nat.
Proof. unfold cdb10, cdb16. rewrite !length_app, !length_be_bytes. done. Qed.

(** ** Buffers *)

Lemma splice_at (buf data : list Z) (a : nat) :
  (a + length data <= length buf)%nat -> take a buf ++ splice (drop a buf) 0 data = splice buf (Z.of_nat a) data.
Proof. intros Hl. unfold splice. rewrite Nat2Z.id. cbn [Z.to_nat take app]. rewrite drop_drop. done. Qed.

Lemma splice_app (buf d1 d2 : list Z) (a : nat) :
  (a + length d1 + length d2 <= length buf)%nat ->
  splice (splice buf (Z.of_nat a) d1) (Z.of_nat (a + length d1)) d2 = splice buf (Z.of_nat a) (d1 ++ d2).
Proof.
  intros Hl. apply list_eq. intros k. rewrite !lookup_splice by (rewrite ?length_splice, ?length_app by lia; lia).
  rewrite length_app. repeat case_decide; try lia; try done.
  - rewrite lookup_app_r by lia. f_equal. lia.
  - rewrite lookup_app_l by lia. done.
Qed.

Lemma splice_nil (buf : list Z) (a : nat) : splice buf (Z.of_nat a) [] = buf.
Proof. unfold splice. cbn [length app]. rewrite Nat2Z.id, Nat.add_0_r. apply take_drop. Qed.

Lemma take_drop_app (l : list Z) (i j k : nat) : take i (drop k l) ++ take j (drop (k + i) l) = take (i + j) (drop k l).
Proof.
  rewrite <- drop_drop. generalize (drop k l). clear l. intros l. symmetry.
  rewrite <- (take_drop i (take (i + j) l)), take_take, skipn_firstn_comm. do 2 f_equal; lia.
Qed.

(** ** A driver whose controller and unit work *)

Section Works.
Context {C T : Type} {HC : Controller C} {HU : CommandUnit T} {HL : ControllerLaws C T} {HS : ScsiUnitLaws T}.
Context (fuel : nat).
#[local] Abbreviation max_transfer := (GetMaxDataTransferLength (C := C)).
#[local] Abbreviation unit s := (unit_of (scsi_controller s)).
#[local] Abbreviation carried := (carry_limit (C := C) (T := T)).

(** The capacity the driver recorded lies on the unit; blocks fit a transfer
    and transfers fit the command in use. *)
Record scsi_ok (s : ScsiDisk C) : Prop := {
  ok_controller : controller_ok (scsi_controller s);
  ok_unit : unit_ok (unit s);
  ok_size : capacity_blockSize (scsi_driver s) = media_block (unit s);
  ok_count : 0 <= capacity_blocksCount (scsi_driver s) <= media_blocks (unit s);
  ok_lun : 0 <= lun (scsi_driver s) < 256;
  ok_command : 16 <= GetMaxCommandLength (C := C);
  ok_block : media_block (unit s) <= max_transfer < 2 ^ 63;
  ok_fit : if use_extended_methods (scsi_driver s) then max_transfer / media_block (unit s) < 2 ^ 32
           else max_transfer / media_block (unit s) < 2 ^ 16 /\ capacity_blocksCount (scsi_driver s) <= 2 ^ 32;
  ok_fuel : capacity_blocksCount (scsi_driver s) <= Z.of_nat fuel }.

Lemma media_span (s : ScsiDisk C) lba n :
  scsi_ok s -> 0 <= lba -> 0 <= n -> lba + n <= capacity_blocksCount (scsi_driver s) ->
  let b := media_block (unit s) in
  0 < b /\ 0 <= lba * b /\ 0 <= n * b /\ lba * b + n * b <= Z.of_nat (length (media (unit s))) /\
  Z.of_nat (length (media (unit s))) < 2 ^ 64 /\ lba + n < 2 ^ 64.
Proof.
  intros Hs Hl Hn Hr b. destruct (media_geometry _ (ok_unit s Hs)) as (Hb & Hm & Hlen & Hmax & _). fold b in Hb, Hlen.
  pose proof (ok_count s Hs). split_and!; nia.
Qed.

Lemma transfer_command_fits (s : ScsiDisk C) op10 op16 lba n :
  scsi_ok s -> 0 <= op10 < 256 -> 0 <= op16 < 256 -> 0 <= lba -> 1 <= n -> lba + n <= capacity_blocksCount (scsi_driver s) ->
  n * media_block (unit s) <= max_transfer ->
  exists cmd, transfer_command (C := C) (scsi_driver s) op10 op16 lba n = Some cmd /\
    (cmd = cdb10 op10 lba n /\ lba < 2 ^ 32 /\ n < 2 ^ 16 \/ cmd = cdb16 op16 lba n /\ n < 2 ^ 32) /\
    0 < Z.of_nat (length cmd) <= GetMaxCommandLength (C := C) /\ Forall (fun b => 0 <= b < 256) cmd.
Proof.
  intros Hs H10 H16 Hl Hn Hr Hm. destruct (media_span s lba n Hs Hl ltac:(lia) Hr) as (Hb & _ & Hn0 & Hsp & Hmx & _).
  pose proof (ok_command s Hs). pose proof (ok_block s Hs) as Hbl. pose proof (ok_fit s Hs) as Hfit.
  assert (Hq : n <= max_transfer / media_block (unit s)) by (apply Z.div_le_lower_bound; lia).
  unfold transfer_command. rewrite (ok_size s Hs), (wrap_small 64) by lia.
  rewrite (proj2 (Z.ltb_ge max_transfer (n * media_block (unit s)))) by lia.
  destruct (cdb_bytes op10 lba n H10) as [B10 _]. destruct (cdb_bytes op16 lba n H16) as [_ B16].
  destruct (use_extended_methods (scsi_driver s)); cbn [negb].
  - rewrite (proj2 (Z.ltb_ge 0xFFFFFFFF n)), read_command16_cdb by lia. eexists. split; [reflexivity|].
    rewrite (proj2 (length_cdb op16 lba n)). split_and!; try done; try lia. right. split; [done|lia].
  - rewrite (proj2 (Z.ltb_ge 0xFFFF n)), read_command10_cdb by lia. eexists. split; [reflexivity|].
    rewrite (proj1 (length_cdb op10 lba n)). split_and!; try done; try lia. left. split_and!; [done|lia|lia].
Qed.

(** The bytes of [n] blocks of the unit. *)
Definition unit_bytes (t : T) (lba n : Z) : list Z :=
  take (Z.to_nat (n * media_block t)) (drop (Z.to_nat (lba * media_block t)) (media t)).

Lemma length_unit_bytes s lba n :
  scsi_ok s -> 0 <= lba -> 0 <= n -> lba + n <= capacity_blocksCount (scsi_driver s) ->
  length (unit_bytes (unit s) lba n) = Z.to_nat (n * media_block (unit s)).
Proof.
  intros Hs Hl Hn Hr. destruct (media_span s lba n Hs Hl Hn Hr) as (_ & H1 & H2 & H3 & _).
  unfold unit_bytes. rewrite length_take, length_drop. lia.
Qed.

Definition kept (s s' : ScsiDisk C) : Prop := scsi_ok s' /\ scsi_driver s' = scsi_driver s.

Lemma scsi_ok_same s c' :
  scsi_ok s -> controller_ok c' -> unit_ok (unit_of c') -> media_block (unit_of c') = media_block (unit s) ->
  media_blocks (unit_of c') = media_blocks (unit s) -> scsi_ok (mkScsi (scsi_driver s) c').
Proof. intros [] Hc Hu Hb Hn. constructor; cbn; rewrite ?Hb, ?Hn; assumption. Qed.

Lemma send_read s lba n buf (a : nat) :
  scsi_ok s -> 0 <= lba -> 1 <= n -> lba + n <= capacity_blocksCount (scsi_driver s) ->
  n * media_block (unit s) <= max_transfer -> n * media_block (unit s) <= carried -> Z.of_nat a + n * media_block (unit s) <= Z.of_nat (length buf) ->
  exists s', SendReadCommand lba n buf (Z.of_nat a) s = inr ((true, splice buf (Z.of_nat a) (unit_bytes (unit s) lba n)), s') /\
    kept s s' /\ unit s' = unit s.
Proof.
  intros Hs Hl Hn Hr Hm Hca Hbuf. destruct (media_span s lba n Hs Hl ltac:(lia) Hr) as (Hb & _ & Hn0 & Hsp & Hmx & _).
  destruct (transfer_command_fits s 0x28 0x88 lba n Hs ltac:(lia) ltac:(lia) Hl Hn Hr Hm) as (cmd & Ec & Hcmd & Hlen & Hby).
  pose proof (length_unit_bytes s lba n Hs Hl ltac:(lia) Hr) as Hlu.
  assert (Hout : Forall (fun b => 0 <= b < 256) (unit_bytes (unit s) lba n)).
  { apply Forall_take, Forall_drop. by destruct (media_geometry _ (ok_unit s Hs)) as (_ & _ & _ & _ & ?). }
  destruct (send_executes (scsi_controller s) (payload_of (scsi_driver s) cmd (drop a buf) (n * media_block (unit s)) true) cmd (drop a buf))
    with (ok := true) (din := unit_bytes (unit s) lba n) (t' := unit s) as (c' & E & Hc' & Hu'); cbn; try done.
  - apply (ok_controller s Hs).
  - rewrite length_drop. lia.
  - apply (ok_lun s Hs).
  - apply (unit_read (lun (scsi_driver s)) (unit s) cmd lba n); [apply (ok_unit s Hs)|done|lia| |exact Hcmd]. pose proof (ok_count s Hs). lia.
  - intros _. split; [lia|exact Hout].
  - exists (mkScsi (scsi_driver s) c'). split.
    + unfold SendReadCommand, the_driver, mbind, io_bind. rewrite Ec. unfold on_controller, zoom.
      rewrite (ok_size s Hs), (wrap_small 64 (n * _)), Nat2Z.id by lia. rewrite E. cbn [default isInputTransfer payload_of].
      unfold mret, io_ret. do 3 f_equal. apply splice_at. lia.
    + split; [|exact Hu']. split; [|done]. apply scsi_ok_same; rewrite ?Hu'; try done. apply (ok_unit s Hs).
Qed.

Lemma send_write s lba n buf (a : nat) :
  scsi_ok s -> 0 <= lba -> 1 <= n -> lba + n <= capacity_blocksCount (scsi_driver s) ->
  n * media_block (unit s) <= max_transfer -> n * media_block (unit s) <= carried -> Z.of_nat a + n * media_block (unit s) <= Z.of_nat (length buf) ->
  Forall (fun b => 0 <= b < 256) buf ->
  exists s', SendWriteCommand lba n buf (Z.of_nat a) s = inr (true, s') /\ kept s s' /\
    media (unit s') = splice (media (unit s)) (lba * media_block (unit s)) (take (Z.to_nat (n * media_block (unit s))) (drop a buf)) /\
    media_block (unit s') = media_block (unit s) /\ media_blocks (unit s') = media_blocks (unit s).
Proof.
  intros Hs Hl Hn Hr Hm Hca Hbuf Hbb. destruct (media_span s lba n Hs Hl ltac:(lia) Hr) as (Hb & _ & Hn0 & Hsp & Hmx & _).
  destruct (transfer_command_fits s 0x2A 0x8A lba n Hs ltac:(lia) ltac:(lia) Hl Hn Hr Hm) as (cmd & Ec & Hcmd & Hlen & Hby).
  set (data := take (Z.to_nat (n * media_block (unit s))) (drop a buf)).
  assert (Hd : Forall (fun b => 0 <= b < 256) data) by by apply Forall_take, Forall_drop.
  destruct (unit_write (lun (scsi_driver s)) (unit s) cmd lba n data (ok_unit s Hs)) as (t' & Ew & Ht' & Hmed & Hblk & Hcnt).
  { done. } { lia. } { pose proof (ok_count s Hs). lia. } { exact Hcmd. }
  { unfold data. rewrite length_take, length_drop. lia. } { done. }
  destruct (send_executes (scsi_controller s) (payload_of (scsi_driver s) cmd (drop a buf) (n * media_block (unit s)) false) cmd (drop a buf))
    with (ok := true) (din := @nil Z) (t' := t') as (c' & E & Hc' & Hu'); cbn; try done.
  - apply (ok_controller s Hs).
  - rewrite length_drop. lia.
  - intros _. by apply Forall_drop.
  - apply (ok_lun s Hs).
  - exists (mkScsi (scsi_driver s) c'). split.
    + unfold SendWriteCommand, the_driver, mbind, io_bind. rewrite Ec. unfold on_controller, zoom.
      rewrite (ok_size s Hs), (wrap_small 64 (n * _)), Nat2Z.id by lia. by rewrite E.
    + cbn. rewrite Hu'. split_and!; [|done..]. split; [|done]. by apply scsi_ok_same; rewrite ?Hu'.
Qed.

(** A whole transfer of the driver: how far a loop has come, and what the last
    command carries. *)
Lemma loop_arith (s : ScsiDisk C) n :
  scsi_ok s -> 0 <= n -> let b := media_block (unit s) in let m := max_transfer / b in
  1 <= m /\ m * b <= max_transfer /\ (max_transfer < n * b -> m < n) /\ (n * b + b - 1) / b = n.
Proof.
  intros Hs Hn b m. destruct (media_geometry _ (ok_unit s Hs)) as (Hb & _). fold b in Hb.
  pose proof (ok_block s Hs) as Hbl. fold b in Hbl.
  assert (Hm : m * b <= max_transfer) by (unfold m; pose proof (Z.mul_div_le max_transfer b ltac:(lia)); lia).
  split; [apply Z.div_le_lower_bound; lia|]. split; [done|]. split.
  - intros Hlt. apply (Z.mul_lt_mono_pos_r b); lia.
  - symmetry. apply (Z.div_unique _ _ _ (b - 1)); lia.
Qed.

Lemma unit_bytes_app (t : T) lba n1 n2 :
  0 <= media_block t -> 0 <= lba -> 0 <= n1 -> 0 <= n2 ->
  unit_bytes t lba n1 ++ unit_bytes t (lba + n1) n2 = unit_bytes t lba (n1 + n2).
Proof.
  intros Hb Hl H1 H2. unfold unit_bytes. set (b := media_block t) in *.
  replace (Z.to_nat ((lba + n1) * b)) with (Z.to_nat (lba * b) + Z.to_nat (n1 * b))%nat by lia.
  replace (Z.to_nat ((n1 + n2) * b)) with (Z.to_nat (n1 * b) + Z.to_nat (n2 * b))%nat by lia.
  apply take_drop_app.
Qed.

Lemma read_loop_reads k s lba n buf (a : nat) :
  scsi_ok s -> 0 <= lba -> 0 <= n -> n <= Z.of_nat k -> Z.min (n * media_block (unit s)) max_transfer <= carried -> lba + n <= capacity_blocksCount (scsi_driver s) ->
  Z.of_nat a + n * media_block (unit s) <= Z.of_nat (length buf) ->
  exists s', read_loop k lba (n * media_block (unit s)) buf (Z.of_nat a) s =
      inr ((true, splice buf (Z.of_nat a) (unit_bytes (unit s) lba n)), s') /\ kept s s' /\ unit s' = unit s.
Proof.
  revert s lba n buf a. induction k as [|k IH]; intros s lba n buf a Hs Hl Hn Hk Hca Hr Hbuf;
    destruct (loop_arith s n Hs Hn) as (Hm1 & Hmb & Hmn & Hdiv);
    destruct (media_span s lba n Hs Hl Hn Hr) as (Hb & _ & Hn0 & Hsp & Hmx & Hln);
    set (b := media_block (unit s)) in *.
  - assert (n = 0) as -> by lia. exists s. cbn [read_loop]. unfold mbind, io_bind, the_driver. rewrite (ok_size s Hs). fold b.
    pose proof (ok_block s Hs) as Hbl. fold b in Hbl. rewrite (proj2 (Z.ltb_ge max_transfer (0 * b))) by lia. cbn.
    unfold mret, io_ret, unit_bytes. fold b. rewrite take_0, splice_nil. split; [done|]. split; [split; done|done].
  - cbn [read_loop]. unfold mbind at 1, io_bind at 1, the_driver at 1. rewrite (ok_size s Hs). fold b.
    set (m := max_transfer / b) in *.
    destruct (Z.ltb_spec max_transfer (n * b)) as [Hlt|Hge].
    + specialize (Hmn Hlt).
      destruct (send_read s lba m buf a Hs Hl Hm1 ltac:(lia) Hmb ltac:(fold b; lia) ltac:(fold b; nia)) as (s1 & E1 & [Hk1 Hd1] & Hu1).
      unfold mbind, io_bind. rewrite E1. cbn [negb].
      assert (Hnm : 0 <= m * b) by (clear - Hm1 Hb; nia).
      assert (Hnm2 : (n - m) * b = n * b - m * b) by ring.
      assert (Hlm : length (unit_bytes (unit s) lba m) = Z.to_nat (m * b)) by (apply length_unit_bytes; [done|lia|lia|lia]).
      assert (u64 (lba + m) = lba + m) as -> by (apply wrap_small; lia).
      assert (u64 (m * b) = m * b) as -> by (apply wrap_small; lia).
      assert (u64 (n * b - m * b) = (n - m) * b) as -> by (rewrite wrap_small; lia).
      destruct (IH s1 (lba + m) (n - m) (splice buf (Z.of_nat a) (unit_bytes (unit s) lba m)) (a + Z.to_nat (m * b))%nat)
        as (s2 & E2 & [Hk2 Hd2] & Hu2); [done|lia|lia|lia|rewrite ?Hu1, ?Hb1; fold b; lia|rewrite Hd1; lia| |].
      { rewrite Hu1, length_splice by (rewrite ?Hlm; lia). fold b. lia. }
      rewrite Hu1 in E2. fold b in E2. replace (Z.of_nat a + m * b) with (Z.of_nat (a + Z.to_nat (m * b))) by lia.
      rewrite E2. exists s2. split; [|split; [split; [done|by rewrite Hd2]|by rewrite Hu2]].
      do 2 f_equal. f_equal. rewrite <- Hlm, splice_app, unit_bytes_app, Zplus_minus; try done; try lia.
      rewrite Hlm, length_unit_bytes by (done || lia). fold b. lia.
    + destruct (Z.ltb_spec 0 (n * b)) as [Hp|Hz].
      * rewrite (wrap_small 64 (n * b + b - 1)), Hdiv by (pose proof (ok_block s Hs) as Hbl; fold b in Hbl; lia).
        assert (H1 : 1 <= n) by (clear - Hp Hb; nia). exact (send_read s lba n buf a Hs Hl H1 Hr Hge ltac:(fold b; lia) Hbuf).
      * assert (n = 0) as -> by nia. exists s. unfold mret, io_ret, unit_bytes. fold b. rewrite take_0, splice_nil.
        split; [done|]. split; [split; done|done].
Qed.

Lemma write_loop_writes k s lba n buf (a : nat) :
  scsi_ok s -> 0 <= lba -> 0 <= n -> n <= Z.of_nat k -> Z.min (n * media_block (unit s)) max_transfer <= carried -> lba + n <= capacity_blocksCount (scsi_driver s) ->
  Z.of_nat a + n * media_block (unit s) <= Z.of_nat (length buf) -> Forall (fun b => 0 <= b < 256) buf ->
  exists s', write_loop k lba (n * media_block (unit s)) buf (Z.of_nat a) s = inr (true, s') /\ kept s s' /\
    media (unit s') = splice (media (unit s)) (lba * media_block (unit s)) (take (Z.to_nat (n * media_block (unit s))) (drop a buf)) /\
    media_block (unit s') = media_block (unit s).
Proof.
  intros Hs Hl Hn Hk Hca Hr Hbuf Hby. revert s lba n a Hs Hl Hn Hk Hca Hr Hbuf. induction k as [|k IH]; intros s lba n a Hs Hl Hn Hk Hca Hr Hbuf;
    destruct (loop_arith s n Hs Hn) as (Hm1 & Hmb & Hmn & Hdiv);
    destruct (media_span s lba n Hs Hl Hn Hr) as (Hb & Hl0 & Hn0 & Hsp & Hmx & Hln);
    set (b := media_block (unit s)) in *.
  - assert (n = 0) as -> by lia. exists s. cbn [write_loop]. unfold mbind, io_bind, the_driver. rewrite (ok_size s Hs). fold b.
    pose proof (ok_block s Hs) as Hbl. fold b in Hbl. rewrite (proj2 (Z.ltb_ge max_transfer (0 * b))) by lia. cbn.
    rewrite take_0, <- (Z2Nat.id (lba * b)), splice_nil by lia. split; [done|]. split; [split; done|done].
  - cbn [write_loop]. unfold mbind at 1, io_bind at 1, the_driver at 1. rewrite (ok_size s Hs). fold b.
    set (m := max_transfer / b) in *.
    destruct (Z.ltb_spec max_transfer (n * b)) as [Hlt|Hge].
    + specialize (Hmn Hlt).
      destruct (send_write s lba m buf a Hs Hl Hm1 ltac:(lia) Hmb ltac:(fold b; lia) ltac:(fold b; nia) Hby) as (s1 & E1 & [Hk1 Hd1] & Hu1 & Hb1 & _).
      fold b in Hu1, Hb1. unfold mbind, io_bind. rewrite E1. cbn [negb].
      assert (Hnm : 0 <= m * b) by (clear - Hm1 Hb; nia).
      assert (Hnm2 : (n - m) * b = n * b - m * b) by ring.
      assert (Hlm : length (take (Z.to_nat (m * b)) (drop a buf)) = Z.to_nat (m * b)) by (rewrite length_take, length_drop; lia).
      assert (u64 (lba + m) = lba + m) as -> by (apply wrap_small; lia).
      assert (u64 (m * b) = m * b) as -> by (apply wrap_small; lia).
      assert (u64 (n * b - m * b) = (n - m) * b) as -> by (rewrite wrap_small; lia).
      destruct (IH s1 (lba + m) (n - m) (a + Z.to_nat (m * b))%nat)
        as (s2 & E2 & [Hk2 Hd2] & Hu2 & Hb2); [done|lia|lia|lia|rewrite ?Hu1, ?Hb1; fold b; lia|rewrite Hd1; lia|rewrite Hb1; lia|].
      rewrite Hb1 in E2, Hu2, Hb2. replace (Z.of_nat a + m * b) with (Z.of_nat (a + Z.to_nat (m * b))) by lia.
      rewrite E2. exists s2. split; [done|]. split; [split; [done|by rewrite Hd2]|]. split; [|done]. rewrite Hu2, Hu1.
      assert (Hlb : (lba + m) * b = lba * b + m * b) by ring.
      rewrite <- (Z2Nat.id (lba * b)), <- (Z2Nat.id ((lba + m) * b)) by lia.
      replace (Z.to_nat ((lba + m) * b)) with (Z.to_nat (lba * b) + length (take (Z.to_nat (m * b)) (drop a buf)))%nat by lia.
      rewrite splice_app by (rewrite ?Hlm, ?length_take, ?length_drop; lia). f_equal.
      rewrite take_drop_app. f_equal. lia.
    + destruct (Z.ltb_spec 0 (n * b)) as [Hp|Hz].
      * rewrite (wrap_small 64 (n * b + b - 1)), Hdiv by (pose proof (ok_block s Hs) as Hbl; fold b in Hbl; lia).
        assert (H1 : 1 <= n) by (clear - Hp Hb; nia).
        destruct (send_write s lba n buf a Hs Hl H1 Hr Hge ltac:(fold b; lia) Hbuf Hby) as (s1 & E1 & Hk1 & Hm & Hbk & _).
        exists s1. split; [exact E1|]. split; [exact Hk1|]. split; [exact Hm|exact Hbk].
      * assert (n = 0) as -> by (clear - Hz Hb Hn; nia). exists s. cbn. rewrite take_0, <- (Z2Nat.id (lba * b)), splice_nil by lia.
        split; [done|]. split; [split; done|done].
Qed.

(** ** The disk *)

Lemma u64_bytes s n : scsi_ok s -> 0 <= n <= capacity_blocksCount (scsi_driver s) ->
  u64 (n * capacity_blockSize (scsi_driver s)) = n * media_block (unit s).
Proof.
  intros Hs Hn. destruct (media_span s 0 n Hs ltac:(lia) ltac:(lia) ltac:(lia)) as (_ & _ & ? & ? & ? & _).
  rewrite (ok_size s Hs). apply wrap_small. lia.
Qed.

Lemma reads_blocks s lba n buf :
  scsi_ok s -> 0 <= lba -> 0 <= n -> lba + n <= capacity_blocksCount (scsi_driver s) ->
  Z.min (n * media_block (unit s)) max_transfer <= carried -> n * media_block (unit s) <= Z.of_nat (length buf) ->
  exists s', Scsi_ReadBlocks fuel lba n buf s = inr ((true, splice buf 0 (unit_bytes (unit s) lba n)), s') /\
    kept s s' /\ unit s' = unit s.
Proof.
  intros Hs Hl Hn Hr Hca Hbuf. unfold Scsi_ReadBlocks, mbind, io_bind, the_driver. rewrite u64_bytes by (done || lia).
  apply (read_loop_reads fuel s lba n buf 0); try done. pose proof (ok_fuel s Hs). lia.
Qed.

Lemma writes_blocks s lba n buf :
  scsi_ok s -> 0 <= lba -> 0 <= n -> lba + n <= capacity_blocksCount (scsi_driver s) ->
  Z.min (n * media_block (unit s)) max_transfer <= carried -> n * media_block (unit s) <= Z.of_nat (length buf) -> Forall (fun b => 0 <= b < 256) buf ->
  exists s', Scsi_WriteBlocks fuel lba n buf s = inr (true, s') /\ kept s s' /\
    media (unit s') = splice (media (unit s)) (lba * media_block (unit s)) (take (Z.to_nat (n * media_block (unit s))) buf) /\
    media_block (unit s') = media_block (unit s).
Proof.
  intros Hs Hl Hn Hr Hca Hbuf Hby. unfold Scsi_WriteBlocks, mbind, io_bind, the_driver. rewrite u64_bytes by (done || lia).
  apply (write_loop_writes fuel s lba n buf 0); try done. pose proof (ok_fuel s Hs). lia.
Qed.

(** A SCSI disk that works keeps the promises of a block device. *)
Lemma scsi_span_max s : scsi_ok s ->
  let bytes := capacity_blocksCount (scsi_driver s) * media_block (unit s) in
  0 <= bytes <= Z.of_nat (length (media (unit s))) /\ Z.of_nat (length (media (unit s))) < 2 ^ 64.
Proof.
  intros Hs bytes. pose proof (ok_count s Hs).
  destruct (media_span s 0 (capacity_blocksCount (scsi_driver s)) Hs ltac:(lia) ltac:(lia) ltac:(lia)) as (_ & _ & ? & ? & ? & _).
  subst bytes. lia.
Qed.

Definition scsi_contents (s : ScsiDisk C) : list Z :=
  take (Z.to_nat (capacity_blocksCount (scsi_driver s) * media_block (unit s))) (media (unit s)).

#[local] Existing Instance scsi_interface.

(** C5: Through a SCSI disk that works, any range of its blocks is written and
    read in whole, whatever the number of commands it takes: a write stores
    exactly the given bytes on the unit, and a read of any range afterwards
    returns the unit's bytes there. *)
Theorem scsi_transfers_whole s lba n data :
  scsi_ok s -> 0 <= lba -> 0 <= n -> lba + n <= GetBlocksCount (Interface := scsi_interface fuel) s ->
  Z.of_nat (length data) = n * media_block (unit s) -> Z.min (n * media_block (unit s)) max_transfer <= carried ->
  Forall (fun b => 0 <= b < 256) data ->
  exists s', Scsi_WriteBlocks fuel lba n data s = inr (true, s') /\ scsi_ok s' /\
    media (unit s') = splice (media (unit s)) (lba * media_block (unit s)) data /\
    forall lba2 n2 buf, 0 <= lba2 -> 0 <= n2 -> lba2 + n2 <= GetBlocksCount (Interface := scsi_interface fuel) s ->
      Z.of_nat (length buf) = n2 * media_block (unit s) -> Z.min (n2 * media_block (unit s)) max_transfer <= carried ->
      exists s'', Scsi_ReadBlocks fuel lba2 n2 buf s' = inr ((true, unit_bytes (unit s') lba2 n2), s'') /\ unit s'' = unit s'.
Proof.
  intros Hs Hl Hn Hr Hlen Hca Hby. simpl in Hr.
  destruct (writes_blocks s lba n data Hs Hl Hn Hr Hca ltac:(lia) Hby) as (s' & E & [Hk Hd] & Hm & Hb). exists s'.
  rewrite <- Hlen, Nat2Z.id, firstn_all in Hm. split_and!; [done..|]. intros lba2 n2 buf Hl2 Hn2 Hr2 Hbuf Hca2. simpl in Hr2.
  rewrite <- Hd in Hr2. rewrite <- Hb in Hbuf, Hca2.
  destruct (reads_blocks s' lba2 n2 buf Hk Hl2 Hn2 Hr2 Hca2 ltac:(lia)) as (s'' & E2 & _ & Hu).
  exists s''. split; [|done]. rewrite E2. do 3 f_equal. apply splice_whole. rewrite length_unit_bytes by done. lia.
Qed.
(** The controller carries every transfer it announces. *)
Context (Hcarry : max_transfer <= carried).

#[local] Program Instance scsi_laws : @DiskLaws (ScsiDisk C) (scsi_interface fuel) :=
  {| disk_ok := scsi_ok; contents := scsi_contents |}.
Next Obligation.
  intros s Hs. simpl. destruct (scsi_span_max s Hs) as [? ?]. destruct (media_geometry _ (ok_unit s Hs)) as (Hb & Hm & _).
  pose proof (ok_count s Hs). rewrite (ok_size s Hs). unfold scsi_contents. rewrite length_take. split_and!; lia.
Qed.
Next Obligation. intros s Hs. apply Forall_take. by destruct (media_geometry _ (ok_unit s Hs)) as (_ & _ & _ & _ & ?). Qed.
Next Obligation.
  intros s lba n buf Hs Hl Hn Hr Hbuf. simpl in *. rewrite (ok_size s Hs) in *.
  destruct (reads_blocks s lba n buf Hs Hl Hn Hr ltac:(lia) Hbuf) as (s' & E & [Hk Hd] & Hu). exists s'.
  destruct (media_span s lba n Hs Hl Hn Hr) as (Hb & H1 & H2 & H3 & _). destruct (scsi_span_max s Hs) as [H4 _].
  assert (Hle : (lba + n) * media_block (unit s) <= capacity_blocksCount (scsi_driver s) * media_block (unit s))
    by (apply Z.mul_le_mono_nonneg_r; lia).
  split_and!; [|done|by unfold scsi_contents; rewrite Hd, Hu|by rewrite Hd, (ok_size s Hs)|by rewrite Hd].
  rewrite E. do 4 f_equal. unfold unit_bytes, scsi_contents. rewrite skipn_firstn_comm, take_take. f_equal. lia.
Qed.
Next Obligation.
  intros s lba n buf Hs Hl Hn Hr Hbuf Hby. simpl in *. rewrite (ok_size s Hs) in *.
  destruct (writes_blocks s lba n buf Hs Hl Hn Hr ltac:(lia) Hbuf Hby) as (s' & E & [Hk Hd] & Hm & Hb'). exists s'.
  destruct (media_span s lba n Hs Hl Hn Hr) as (Hb & H1 & H2 & H3 & _). destruct (scsi_span_max s Hs) as [H4 _].
  assert (Hle : (lba + n) * media_block (unit s) <= capacity_blocksCount (scsi_driver s) * media_block (unit s))
    by (apply Z.mul_le_mono_nonneg_r; lia).
  split_and!; [done|done| |by rewrite Hd, (ok_size s Hs)|by rewrite Hd].
  unfold scsi_contents. rewrite Hd, Hb', Hm.
  set (w := take (Z.to_nat (n * media_block (unit s))) buf).
  assert (Hw : length w = Z.to_nat (n * media_block (unit s))) by (unfold w; rewrite length_take; lia).
  pose proof (take_drop_splice_same (media (unit s)) 0 (Z.to_nat (capacity_blocksCount (scsi_driver s) * media_block (unit s)))
    (Z.to_nat (lba * media_block (unit s))) w) as Hsame.
  cbn [Nat.add drop] in Hsame. rewrite Z2Nat.id in Hsame by lia. apply Hsame; rewrite ?Hw; lia.
Qed.
End Works.

(** ** What the driver takes for the capacity of the unit *)

Section Capacity.
Context {C T : Type} {HC : Controller C} {HU : CommandUnit T} {HL : ControllerLaws C T} {HS : ScsiUnitLaws T}.
Context (stale : Z -> Z) (fuel : nat).
#[local] Abbreviation max_transfer := (GetMaxDataTransferLength (C := C)).
#[local] Abbreviation unit s := (unit_of (scsi_controller s)).
#[local] Abbreviation carried := (carry_limit (C := C) (T := T)).

(** A command that reads [n] bytes into a local buffer. *)
Lemma command_in (d : ScsiDriver) (c : C) cmd buf n din t' :
  controller_ok c -> 0 <= lun d < 256 -> Forall (fun b => 0 <= b < 256) cmd -> 0 < Z.of_nat (length cmd) <= GetMaxCommandLength (C := C) ->
  length buf = Z.to_nat n -> 0 <= n <= max_transfer -> n <= carry_limit (C := C) (T := T) -> execute (lun d) cmd [] n (unit_of c) = (true, din, t') ->
  length din = Z.to_nat n -> Forall (fun b => 0 <= b < 256) din ->
  exists c', SendCommand (payload_of d cmd buf n true) c = inr ((true, Some din), c') /\ controller_ok c' /\ unit_of c' = t'.
Proof.
  intros Hc Hl Hcmd Hlen Hbuf Hn Hca Hex Hd Hby.
  destruct (send_executes c (payload_of d cmd buf n true) cmd buf) with (ok := true) (din := din) (t' := t')
    as (c' & E & Hc' & Hu); cbn; try done; try lia.
  { intros _. split; [lia|done]. }
  exists c'. split; [|done]. rewrite E. cbn. by rewrite splice_whole by lia.
Qed.

Record fresh (s : ScsiDisk C) : Prop := {
  fresh_controller : controller_ok (scsi_controller s);
  fresh_unit : unit_ok (unit s);
  fresh_lun : 0 <= lun (scsi_driver s) < 256;
  fresh_command : 16 <= GetMaxCommandLength (C := C);
  fresh_transfer : 16 <= max_transfer;
  fresh_carried : 16 <= carry_limit (C := C) (T := T) }.

Lemma read_load (l : list Z) n : n = Z.of_nat (length l) -> load l 0 n = Some l.
Proof. intros ->. rewrite load_some by lia. cbn. by rewrite Nat2Z.id, firstn_all. Qed.

Lemma capacity10 s : fresh s ->
  exists c', ReadCapacity10 stale s = inr (Some (Z.min (media_blocks (unit s) - 1) 0xFFFFFFFF, media_block (unit s)), mkScsi (scsi_driver s) c') /\
    controller_ok c' /\ unit_of c' = unit s.
Proof.
  intros Hs. destruct (media_geometry _ (fresh_unit s Hs)) as (Hb & Hm & _). pose proof (fresh_transfer s Hs). pose proof (fresh_carried s Hs). pose proof (fresh_command s Hs).
  set (din := be_bytes 4 (Z.min (media_blocks (unit s) - 1) 0xFFFFFFFF) ++ be_bytes 4 (media_block (unit s))).
  assert (Hl : length din = 8%nat) by (unfold din; by rewrite length_app, !length_be_bytes).
  destruct (command_in (scsi_driver s) (scsi_controller s) [0x25; 0; 0; 0; 0; 0; 0; 0; 0; 0] (map stale (seqZ 0 8)) 8 din (unit s))
    as (c' & E & Hc' & Hu); try done; try apply Hs.
  - repeat constructor; lia.
  - cbn. lia.
  - lia.
  - lia.
  - apply (unit_capacity10 (lun (scsi_driver s)) (unit s)), Hs.
  - unfold din. rewrite Forall_app. split; apply be_bytes_range.
  - exists c'. split; [|done]. unfold ReadCapacity10, mbind, io_bind, the_driver, on_controller, zoom. rewrite E. cbn [negb option_bind].
    rewrite read_load by (rewrite Hl; done). cbn [or_stop]. unfold mret, io_ret. do 4 f_equal.
    + unfold din. rewrite take_app_length' by (by rewrite length_be_bytes). apply be_be_bytes. cbn. lia.
    + unfold din. rewrite drop_app_length' by (by rewrite length_be_bytes). apply be_be_bytes. cbn. lia.
Qed.

Lemma capacity16 s : fresh s ->
  exists c', ReadCapacity16 s = inr (Some (media_blocks (unit s) - 1, media_block (unit s)), mkScsi (scsi_driver s) c') /\
    controller_ok c' /\ unit_of c' = unit s.
Proof.
  intros Hs. destruct (media_geometry _ (fresh_unit s Hs)) as (Hb & Hm & _). pose proof (fresh_transfer s Hs). pose proof (fresh_carried s Hs). pose proof (fresh_command s Hs).
  set (din := be_bytes 8 (media_blocks (unit s) - 1) ++ be_bytes 4 (media_block (unit s))).
  assert (Hl : length din = 12%nat) by (unfold din; by rewrite length_app, !length_be_bytes).
  destruct (command_in (scsi_driver s) (scsi_controller s) [0x9E; 0x10; 0; 0; 0; 0; 0; 0; 0; 0; 0; 0; 0; 12; 0; 0] (replicate 12 0) 12 din (unit s))
    as (c' & E & Hc' & Hu); try done; try apply Hs.
  - repeat constructor; lia.
  - cbn. lia.
  - lia.
  - apply (unit_capacity16 (lun (scsi_driver s)) (unit s)), Hs.
  - unfold din. rewrite Forall_app. split; apply be_bytes_range.
  - exists c'. split; [|done]. unfold ReadCapacity16, mbind, io_bind, the_driver, on_controller, zoom. rewrite E. cbn [negb option_bind].
    rewrite read_load by (rewrite Hl; done). cbn [or_stop]. unfold mret, io_ret. do 4 f_equal.
    + unfold din. rewrite take_app_length' by (by rewrite length_be_bytes). apply be_be_bytes. cbn. lia.
    + unfold din. rewrite drop_app_length' by (by rewrite length_be_bytes). apply be_be_bytes. cbn. lia.
Qed.

(** The driver takes the address of the last block for the number of blocks. *)
Lemma capacity_read s : fresh s -> use_extended_methods (scsi_driver s) = false ->
  exists c' ext, ReadCapacity stale s =
      inr (Some (media_blocks (unit s) - 1, media_block (unit s)),
           mkScsi (mkScsiDriver (lun (scsi_driver s)) (capacity_blocksCount (scsi_driver s)) (capacity_blockSize (scsi_driver s)) ext) c') /\
    (ext = true <-> 0xFFFFFFFF <= media_blocks (unit s) - 1) /\ controller_ok c' /\ unit_of c' = unit s.
Proof.
  intros Hs Hx. destruct (capacity10 s Hs) as (c1 & E1 & Hc1 & Hu1). unfold ReadCapacity. unfold mbind at 1, io_bind at 1. rewrite E1.
  destruct (media_geometry _ (fresh_unit s Hs)) as (Hb & Hm & _). unfold CAPACITY_10_OVERFLOW.
  rewrite (proj2 (Z.leb_le 16 max_transfer)), andb_true_r by apply Hs.
  destruct (Z.eqb_spec (Z.min (media_blocks (unit s) - 1) 0xFFFFFFFF) 0xFFFFFFFF) as [Heq|Hne].
  - unfold mbind, io_bind, use_extended, the_driver, set_driver. cbn [scsi_driver scsi_controller].
    set (s1 := mkScsi (mkScsiDriver (lun (scsi_driver s)) (capacity_blocksCount (scsi_driver s)) (capacity_blockSize (scsi_driver s)) true) c1).
    destruct (capacity16 s1) as (c2 & E2 & Hc2 & Hu2).
    { constructor; cbn; rewrite ?Hu1; try apply Hs; try done. }
    exists c2, true. change (unit s1) with (unit_of c1) in E2, Hu2. rewrite Hu1 in E2, Hu2.
    split; [etransitivity; [|exact E2]; reflexivity|]. split; [split; [lia|done]|done].
  - exists c1, false. split; [|split; [split; [done|lia]|done]]. unfold mret, io_ret.
    destruct s as [[? ? ? ?] ?]. cbn in *. subst. by rewrite Z.min_l by lia.
Qed.

(** The capacity of a unit with [N] blocks is read as [N - 1], with 10-byte
    or 16-byte commands, and the driver is then a working disk whose bytes are
    all of the unit's but its last block. *)
Theorem capacity_misses_last_block s :
  fresh s -> use_extended_methods (scsi_driver s) = false -> media_block (unit s) <= max_transfer < 2 ^ 63 ->
  max_transfer / media_block (unit s) < 2 ^ 16 -> media_blocks (unit s) <= Z.of_nat fuel ->
  exists s1 s2, ReadCapacity stale s = inr (Some (media_blocks (unit s) - 1, media_block (unit s)), s1) /\
    set_capacity (media_blocks (unit s) - 1) (media_block (unit s)) s1 = inr (tt, s2) /\
    scsi_ok fuel s2 /\ unit s2 = unit s /\
    GetBlocksCount (Interface := scsi_interface fuel) s2 = media_blocks (unit s) - 1 /\
    scsi_contents s2 = take (length (media (unit s)) - Z.to_nat (media_block (unit s))) (media (unit s)).
Proof.
  intros Hs Hx Hb Hf Hfuel. destruct (capacity_read s Hs Hx) as (c' & ext & E & Hext & Hc & Hu).
  destruct (media_geometry _ (fresh_unit s Hs)) as (Hb1 & Hm & Hlen & _).
  eexists _, _. split; [exact E|]. split; [reflexivity|]. cbn. rewrite Hu. split; [|split; [done|split; [done|]]].
  - constructor; cbn; rewrite ?Hu; try apply Hs; try done; try lia. destruct ext; [lia|]. split; [done|].
    destruct (Z.le_gt_cases 0xFFFFFFFF (media_blocks (unit s) - 1)) as [Hle|]; [by apply Hext in Hle|lia].
  - unfold scsi_contents. cbn. rewrite Hu. f_equal. lia.
Qed.
End Capacity.

(** A command for no blocks at all succeeds. *)
Lemma send_nothing {C T : Type} `{HL : ControllerLaws C T} `{!ScsiUnitLaws T} (s : ScsiDisk C) lba buf :
  fresh s -> capacity_blockSize (scsi_driver s) = media_block (unit_of (scsi_controller s)) ->
  0 <= lba < 2 ^ 32 -> lba <= media_blocks (unit_of (scsi_controller s)) ->
  exists s', SendReadCommand lba 0 buf 0 s = inr ((true, buf), s') /\ scsi_driver s' = scsi_driver s /\
    unit_of (scsi_controller s') = unit_of (scsi_controller s) /\ fresh s'.
Proof.
  intros Hs Hb Hl Hl2. pose proof (fresh_transfer s Hs) as H16. pose proof (fresh_carried s Hs). pose proof (fresh_command s Hs).
  assert (Hc : exists cmd, transfer_command (C := C) (scsi_driver s) 0x28 0x88 lba 0 = Some cmd /\
    (cmd = cdb10 0x28 lba 0 \/ cmd = cdb16 0x88 lba 0)).
  { unfold transfer_command. change (u64 (0 * capacity_blockSize (scsi_driver s))) with 0.
    rewrite (proj2 (Z.ltb_ge (GetMaxDataTransferLength (C := C)) 0)) by lia.
    destruct (use_extended_methods (scsi_driver s)); cbn [negb]; rewrite (proj2 (Z.ltb_ge _ 0)) by lia;
      rewrite ?read_command10_cdb, ?read_command16_cdb; eauto. }
  destruct Hc as (cmd & Ec & Hcmd).
  assert (Hlen : 10 <= Z.of_nat (length cmd) <= 16) by (destruct Hcmd as [-> | ->]; rewrite ?(proj1 (length_cdb _ _ _)), ?(proj2 (length_cdb _ _ _)); lia).
  destruct (send_executes (scsi_controller s) (payload_of (scsi_driver s) cmd buf 0 true) cmd buf)
    with (ok := true) (din := @nil Z) (t' := unit_of (scsi_controller s)) as (c' & E & Hc' & Hu'); cbn; try done; try apply Hs; try lia.
  - destruct Hcmd as [-> | ->]; [exact (proj1 (cdb_bytes 0x28 lba 0 ltac:(lia)))|exact (proj2 (cdb_bytes 0x88 lba 0 ltac:(lia)))].
  - apply (unit_read (lun (scsi_driver s)) (unit_of (scsi_controller s)) cmd lba 0); [apply Hs|lia|lia|lia|].
    destruct Hcmd as [-> | ->]; [left; split_and!; [done|lia|done]|right; done].
  - exists (mkScsi (scsi_driver s) c'). split.
    + unfold SendReadCommand, the_driver, mbind, io_bind. rewrite Ec. unfold on_controller, zoom.
      change (u64 (0 * capacity_blockSize (scsi_driver s))) with 0. change (drop (Z.to_nat 0) buf) with buf. rewrite E. cbn.
      apply (f_equal (fun l => inr ((true, l), mkScsi (scsi_driver s) c')) (splice_nil buf 0)).
    + split; [done|]. split; [done|]. constructor; cbn; rewrite ?Hu'; try apply Hs; done.
Qed.

(** A unit whose blocks are larger than what the controller carries: a read of
    one block never ends. *)
Theorem oversized_block_hangs {C T : Type} `{HL : ControllerLaws C T} `{!ScsiUnitLaws T} (s : ScsiDisk C) (fuel : nat) lba n buf :
  fresh s -> capacity_blockSize (scsi_driver s) = media_block (unit_of (scsi_controller s)) ->
  GetMaxDataTransferLength (C := C) < media_block (unit_of (scsi_controller s)) ->
  0 <= lba < 2 ^ 32 -> lba < media_blocks (unit_of (scsi_controller s)) -> 0 < n -> n * media_block (unit_of (scsi_controller s)) < 2 ^ 64 ->
  Scsi_ReadBlocks fuel lba n buf s = inl Hang.
Proof.
  intros Hs Hb Hm Hl Hl2 Hn Hw. pose proof (fresh_transfer s Hs) as H16. destruct (media_geometry _ (fresh_unit s Hs)) as (Hb1 & _).
  set (b := media_block (unit_of (scsi_controller s))) in *.
  assert (Hnb : b <= n * b) by (clear - Hn Hb1; nia).
  unfold Scsi_ReadBlocks, mbind at 1, io_bind at 1, the_driver at 1. rewrite Hb.
  assert (u64 (n * b) = n * b) as -> by (apply wrap_small; lia).
  induction fuel as [|k IH] in s, Hs, Hb, Hm, Hl2, b, Hb1, Hn, Hw, Hnb |- *; cbn [read_loop]; unfold mbind at 1, io_bind at 1, the_driver at 1; rewrite Hb; fold b;
    rewrite (proj2 (Z.ltb_lt (GetMaxDataTransferLength (C := C)) (n * b))) by lia; [done|].
  rewrite (Z.div_small (GetMaxDataTransferLength (C := C)) b) by lia.
  destruct (send_nothing s lba buf Hs) as (s' & E & Hd & Hu & Hs'); [by rewrite Hb|done|lia|].
  unfold mbind, io_bind. rewrite E. cbn [negb].
  assert (u64 (lba + 0) = lba) as -> by (rewrite Z.add_0_r; apply wrap_small; lia).
  change (u64 (0 * b)) with 0. rewrite Z.add_0_r, Z.sub_0_r.
  assert (u64 (n * b) = n * b) as -> by (apply wrap_small; lia).
  specialize (IH s'). rewrite Hu in IH. apply IH; try done. by rewrite Hd.
Qed.

(** ** A unit in memory, and a controller wired to it *)

Record RamUnit := mkRamUnit { ram_media : list Z; ram_block_size : Z }.

Definition ram_unit_blocks (t : RamUnit) : Z := Z.of_nat (length (ram_media t)) / ram_block_size t.

(** The command block as the unit reads it: address and count. *)
Definition cdb_range (cmd : list Z) : Z * Z :=
  if (length cmd =? 10)%nat then (be (take 4 (drop 2 cmd)), be (take 2 (drop 7 cmd)))
  else (be (take 8 (drop 2 cmd)), be (take 4 (drop 10 cmd))).

#[global] Instance ram_unit : CommandUnit RamUnit := {|
  execute l cmd data n t :=
    let '(lba, count) := cdb_range cmd in
    let size := count * ram_block_size t in
    match cmd with
    | op :: _ =>
        if op =? 0x25 then (true, be_bytes 4 (Z.min (ram_unit_blocks t - 1) 0xFFFFFFFF) ++ be_bytes 4 (ram_block_size t), t)
        else if op =? 0x9E then (true, be_bytes 8 (ram_unit_blocks t - 1) ++ be_bytes 4 (ram_block_size t), t)
        else if (op =? 0x28) || (op =? 0x88) then
          match load (ram_media t) (lba * ram_block_size t) size with None => (false, [], t) | Some bytes => (true, bytes, t) end
        else if (op =? 0x2A) || (op =? 0x8A) then
          match put (ram_media t) (lba * ram_block_size t) (take (Z.to_nat size) data) with
          | None => (false, [], t)
          | Some media => (true, [], mkRamUnit media (ram_block_size t))
          end
        else (false, [], t)
    | [] => (false, [], t)
    end |}.

Definition ram_unit_ok (t : RamUnit) : Prop :=
  0 < ram_block_size t < 2 ^ 32 /\ 0 < Z.of_nat (length (ram_media t)) < 2 ^ 64 /\
  Z.of_nat (length (ram_media t)) mod ram_block_size t = 0 /\ Forall (fun b => 0 <= b < 256) (ram_media t).

Lemma ram_unit_geometry t : ram_unit_ok t ->
  0 < ram_unit_blocks t < 2 ^ 64 /\ Z.of_nat (length (ram_media t)) = ram_unit_blocks t * ram_block_size t.
Proof.
  intros (Hb & Hl & Hm & _). unfold ram_unit_blocks.
  pose proof (Z.div_mod (Z.of_nat (length (ram_media t))) (ram_block_size t) ltac:(lia)).
  rewrite Hm in *. set (q := _ / _) in *. clearbody q. nia.
Qed.

Lemma cdb_range_cdb10 op lba n : 0 <= lba < 2 ^ 32 -> 0 <= n < 2 ^ 16 -> cdb_range (cdb10 op lba n) = (lba, n).
Proof.
  intros Hl Hn. unfold cdb_range. rewrite (proj1 (length_cdb op lba n)). cbn [Nat.eqb].
  f_equal; [exact (be_be_bytes 4 lba Hl)|exact (be_be_bytes 2 n Hn)].
Qed.

Lemma cdb_range_cdb16 op lba n : 0 <= lba < 2 ^ 64 -> 0 <= n < 2 ^ 32 -> cdb_range (cdb16 op lba n) = (lba, n).
Proof.
  intros Hl Hn. unfold cdb_range. rewrite (proj2 (length_cdb op lba n)). cbn [Nat.eqb].
  f_equal; [exact (be_be_bytes 8 lba Hl)|exact (be_be_bytes 4 n Hn)].
Qed.

Lemma cdb_command op10 op16 op lba n N : 0 <= lba -> 0 <= n -> lba + n <= N -> N < 2 ^ 64 ->
  op = cdb10 op10 lba n /\ lba < 2 ^ 32 /\ n < 2 ^ 16 \/ op = cdb16 op16 lba n /\ n < 2 ^ 32 ->
  cdb_range op = (lba, n) /\ exists cmd, op = (if (length op =? 10)%nat then op10 else op16) :: cmd.
Proof.
  intros Hl Hn Hr HN [(-> & ? & ?)|(-> & ?)].
  - rewrite cdb_range_cdb10 by lia. split; [done|]. rewrite (proj1 (length_cdb _ _ _)). by eexists.
  - rewrite cdb_range_cdb16 by lia. split; [done|]. rewrite (proj2 (length_cdb _ _ _)). by eexists.
Qed.

#[global] Program Instance ram_unit_laws : ScsiUnitLaws RamUnit := {|
  unit_ok := ram_unit_ok; media := ram_media; media_block := ram_block_size; media_blocks := ram_unit_blocks |}.
Next Obligation.
  intros t Ht. destruct (ram_unit_geometry t Ht) as [? ?]. destruct Ht as (? & ? & ? & ?). split_and!; try done; lia.
Qed.
Next Obligation. done. Qed.
Next Obligation. done. Qed.
Next Obligation.
  intros l t op lba n Ht Hl Hn Hr Hop. destruct (ram_unit_geometry t Ht) as [HN Hlen]. destruct Ht as (Hb & _).
  destruct (cdb_command 0x28 0x88 op lba n (ram_unit_blocks t) Hl Hn Hr ltac:(lia) Hop) as (Er & cmd & Eop).
  simpl. rewrite Er. rewrite load_some by nia. rewrite Eop. by destruct (_ =? 10)%nat.
Qed.
Next Obligation.
  intros l t op lba n data Ht Hl Hn Hr Hop Hd Hby. destruct (ram_unit_geometry t Ht) as [HN Hlen]. pose proof Ht as (Hb & H1 & H2 & H3).
  destruct (cdb_command 0x2A 0x8A op lba n (ram_unit_blocks t) Hl Hn Hr ltac:(lia) Hop) as (Er & cmd & Eop).
  assert (Hls : length (splice (ram_media t) (lba * ram_block_size t) data) = length (ram_media t)) by (rewrite length_splice; nia).
  eexists. split.
  { simpl. rewrite Er, <- Hd, Nat2Z.id, firstn_all, put_some by nia. rewrite Eop. by destruct (_ =? 10)%nat. }
  simpl. unfold ram_unit_ok, ram_unit_blocks. simpl. rewrite Hls. split_and!; try done; try lia. by apply Forall_splice.
Qed.

(** A controller that hands commands of up to 16 bytes and transfers of up to
    16 bytes to its unit. *)
Record Wire := mkWire { wired : RamUnit }.

#[global] Instance wire : Controller Wire := {|
  GetMaxCommandLength := 16;
  GetMaxDataTransferLength := 16;
  SendCommand p c :=
    match commandBuffer p, dataBuffer p with
    | Some cmd, Some buf =>
        let '(ok, din, t) := execute (payload_lun p) cmd (if isInputTransfer p then [] else take (Z.to_nat (dataLength p)) buf)
                               (if isInputTransfer p then dataLength p else 0) (wired c) in
        inr ((ok, Some (if isInputTransfer p then splice buf 0 din else buf)), mkWire t)
    | _, _ => inr ((false, None), c)
    end |}.

#[global] Program Instance wire_laws : ControllerLaws Wire RamUnit := {| controller_ok _ := True; unit_of := wired; carry_limit := 16 |}.
Next Obligation.
  intros c p cmd buf _ Hc _ _ Hb _ _ _ _ _ _ ok din t' E _. exists (mkWire t').
  unfold SendCommand, wire. rewrite Hc, Hb, E. done.
Qed.

(** Five blocks of four bytes, of which the driver takes the first four. *)
Definition small_unit : RamUnit := mkRamUnit (replicate 20 7) 4.
Definition new_driver : ScsiDisk Wire := mkScsi (mkScsiDriver 0 0 0 false) (mkWire small_unit).
Definition small_scsi : ScsiDisk Wire := mkScsi (mkScsiDriver 0 4 4 false) (mkWire small_unit).

Lemma small_unit_ok : ram_unit_ok small_unit.
Proof. unfold ram_unit_ok. simpl. split_and!; try lia; [reflexivity|]. repeat constructor; lia. Qed.

Lemma small_scsi_ok : scsi_ok 4 small_scsi.
Proof. constructor; try exact small_unit_ok; vm_compute; intuition discriminate. Qed.

Lemma new_driver_fresh : fresh new_driver.
Proof. constructor; try exact small_unit_ok; vm_compute; intuition discriminate. Qed.

Lemma scsi_transfers_whole_witness :
  exists s', Scsi_WriteBlocks 4 0 4 [0; 1; 2; 3; 4; 5; 6; 7; 8; 9; 10; 11; 12; 13; 14; 15] small_scsi = inr (true, s') /\
    exists s'', Scsi_ReadBlocks 4 1 2 (replicate 8 0) s' = inr ((true, [4; 5; 6; 7; 8; 9; 10; 11]), s'').
Proof.
  destruct (scsi_transfers_whole 4 small_scsi 0 4 [0; 1; 2; 3; 4; 5; 6; 7; 8; 9; 10; 11; 12; 13; 14; 15] small_scsi_ok)
    as (s' & E & _ & Hm & Hr); [lia|lia|vm_compute; discriminate|reflexivity|vm_compute; discriminate|repeat constructor; lia|].
  exists s'. split; [exact E|].
  destruct (Hr 1 2 (replicate 8 0)) as (s'' & E2 & _); [lia|lia|vm_compute; discriminate|reflexivity|vm_compute; discriminate|].
  exists s''. rewrite E2. unfold unit_bytes. rewrite Hm.
  assert (Hs' : s' = mkScsi (scsi_driver small_scsi) (mkWire (mkRamUnit ([0; 1; 2; 3; 4; 5; 6; 7; 8; 9; 10; 11; 12; 13; 14; 15] ++ replicate 4 7) 4))).
  { vm_compute in E. injection E as <-. reflexivity. }
  rewrite Hs'. reflexivity.
Defined.

Lemma capacity_misses_last_block_witness :
  exists s1 s2, ReadCapacity (fun _ => 0) new_driver = inr (Some (4, 4), s1) /\ scsi_ok 5 s2 /\ scsi_contents s2 = replicate 16 7.
Proof.
  destruct (capacity_misses_last_block (fun _ => 0) 5 new_driver new_driver_fresh eq_refl)
    as (s1 & s2 & E & _ & Hok & _ & _ & Hc); [vm_compute; intuition discriminate|reflexivity|vm_compute; discriminate|].
  exists s1, s2. split; [exact E|]. split; [exact Hok|exact Hc].
Defined.

(** The blocks of this unit have 32 bytes. *)
Definition coarse_scsi : ScsiDisk Wire := mkScsi (mkScsiDriver 0 1 32 false) (mkWire (mkRamUnit (replicate 64 7) 32)).

Lemma coarse_fresh : fresh coarse_scsi.
Proof.
  constructor; try (vm_compute; intuition discriminate).
  unfold unit_ok. simpl. unfold ram_unit_ok. simpl. split_and!; try lia; [reflexivity|]. repeat constructor; lia.
Qed.

Lemma oversized_block_hangs_witness : Scsi_ReadBlocks 1000 0 1 (replicate 32 0) coarse_scsi = inl Hang.
Proof. apply (oversized_block_hangs coarse_scsi 1000 0 1 _ coarse_fresh); try reflexivity; simpl; lia. Defined.

(** The same bytes through a partition of the disk. *)
Example partition_on_scsi :
  Partition_Write (H := scsi_interface 4) (mkPartition 0 0 1 2 zero_GUID zero_GUID true) 4 4 [1; 2; 3; 4] small_scsi =
    inr (inr 4, mkScsi (scsi_driver small_scsi) (mkWire (mkRamUnit (replicate 8 7 ++ [1; 2; 3; 4] ++ replicate 8 7) 4))).
Proof. reflexivity. Qed.
