(* ===== verification/BulkOnly.v ===== *)
(** * The USB mass storage driver: bulk-only transport
    ([kernel/src/devices/USB/MassStorage/BBB/Driver.cpp],
    [kernel/src/devices/USB/MassStorage/Driver.cpp])

    A storage controller whose commands travel in wrappers over two bulk
    endpoints, through one buffer shared with the device.  The USB device
    behind it (its access count, its transfer rings, its doorbells, and what
    happens while the driver waits) is the class [Bulk]. *)
From S2P Require Import Prelude Packed Trb Storage.

(** What the driver uses of [USB::Driver] and the device.  [serve] is a second
    of waiting: the device works on the shared buffer, and the transfer events
    for the block at the given address are delivered. *)
Class Bulk (X : Type) := {
  SetBusy : X -> bool * X;
  ReleaseBusy : X -> X;
  GetEndpointTransferRing : Z -> bool -> X -> option Z;
  ring_cycle : Z -> X -> bool;
  ring_enqueue : Z -> TRB -> io X Z;
  RingDoorbell : Z -> X -> X;
  serve : Z -> list Z -> X -> list Z * list TRB * X }.

(** The fields of the driver that commands use; a pointer is its address. *)
Record Transport (X : Type) := mkTransport {
  current_tag : Z; bulkIn : Z; bulkOut : Z; phys_io_buffer : Z; io_buffer : list Z;
  last_sent_trb : option Z; last_transfer_result : TRB; transfer_complete : bool; usb_device : X }.
Arguments mkTransport {X}.
Arguments current_tag {X}.
Arguments bulkIn {X}.
Arguments bulkOut {X}.
Arguments phys_io_buffer {X}.
Arguments io_buffer {X}.
Arguments last_sent_trb {X}.
Arguments last_transfer_result {X}.
Arguments transfer_complete {X}.
Arguments usb_device {X}.

(** ** Wrappers *)

Record CBW := mkCBW {
  cbw_signature : Z; cbw_tag : Z; dataTransferLength : Z; cbw_flags : Z; cbw_lun : Z; cbw_commandLength : Z; commandBlock : list Z }.

Definition CBW_SIGNATURE : Z := 0x43425355.
Definition MAX_COMMAND_LENGTH : Z := 16.
Definition CBW_SIZE : Z := 31.
Definition CSW_SIGNATURE : Z := 0x53425355.
Definition CSW_SIZE : Z := 13.
Definition MAX_DATA_TRANSFER_LENGTH : Z := 2 * 1024 * 1024.

Section Transport.
Context {X : Type} `{Bulk X} (stale : Z -> Z).
#[local] Abbreviation St := (io (Transport X)).

(** [CBW::Create]; the bytes of the command block past the command are what
    the stack held. *)
Definition CBW_Create (payload : CommandPayload) (command : list Z) (tag : Z) : option CBW :=
  bytes ← load command 0 (Z.min (commandLength payload) MAX_COMMAND_LENGTH);
  Some (mkCBW CBW_SIGNATURE tag (u32 (dataLength payload))
          (if isInputTransfer payload && (0 <? dataLength payload) then 0x80 else 0)
          (payload_lun payload) (u8 (commandLength payload))
          (bytes ++ map stale (seqZ (Z.of_nat (length bytes)) (MAX_COMMAND_LENGTH - Z.of_nat (length bytes))))).

(** The 31 bytes of a wrapper in memory. *)
Definition cbw_bytes (c : CBW) : list Z :=
  le_bytes 4 (cbw_signature c) ++ le_bytes 4 (cbw_tag c) ++ le_bytes 4 (dataTransferLength c) ++
  [cbw_flags c; cbw_lun c; cbw_commandLength c] ++ commandBlock c.

Record CSW := mkCSW { csw_signature : Z; csw_tag : Z; dataResidue : Z; csw_status : Z }.

Definition csw_of (bytes : list Z) : CSW :=
  mkCSW (le (take 4 bytes)) (le (take 4 (drop 4 bytes))) (le (take 4 (drop 8 bytes))) (default 0 (bytes !! 12%nat)).

(** ** Transfers *)

Definition with_buffer (buf : list Z) (d : Transport X) : Transport X :=
  mkTransport (current_tag d) (bulkIn d) (bulkOut d) (phys_io_buffer d) buf (last_sent_trb d) (last_transfer_result d) (transfer_complete d) (usb_device d).
Definition with_device (x : X) (d : Transport X) : Transport X :=
  mkTransport (current_tag d) (bulkIn d) (bulkOut d) (phys_io_buffer d) (io_buffer d) (last_sent_trb d) (last_transfer_result d) (transfer_complete d) x.
Definition with_last_sent (a : option Z) (d : Transport X) : Transport X :=
  mkTransport (current_tag d) (bulkIn d) (bulkOut d) (phys_io_buffer d) (io_buffer d) a (last_transfer_result d) (transfer_complete d) (usb_device d).
Definition with_complete (b : bool) (d : Transport X) : Transport X :=
  mkTransport (current_tag d) (bulkIn d) (bulkOut d) (phys_io_buffer d) (io_buffer d) (last_sent_trb d) (last_transfer_result d) b (usb_device d).
Definition with_tag (t : Z) (d : Transport X) : Transport X :=
  mkTransport t (bulkIn d) (bulkOut d) (phys_io_buffer d) (io_buffer d) (last_sent_trb d) (last_transfer_result d) (transfer_complete d) (usb_device d).

Definition GetAwaitingTRB (d : Transport X) : option Z := last_sent_trb d.

Definition HandleEvent (d : Transport X) (trb : TRB) : Transport X :=
  mkTransport (current_tag d) (bulkIn d) (bulkOut d) (phys_io_buffer d) (io_buffer d) (last_sent_trb d) trb true (usb_device d).

(** The block [SendNormalBuffer] sends. *)
Definition buffer_trb (d : Transport X) (length : Z) (ring : Z) : TRB :=
  NormalTRB_Create (mkNormal (phys_io_buffer d) length 0 0 (ring_cycle ring (usb_device d)) false true false false true false false).

(** The wait: the device serves, its events are handled, and the wait ends
    with what [transfer_complete] says. *)
Definition wait_transfer : St bool := fun d =>
  let '(buf, events, x) := serve (default 0 (last_sent_trb d)) (io_buffer d) (usb_device d) in
  let d := fold_left HandleEvent events (with_buffer buf (with_device x d)) in
  inr (transfer_complete d, d).

Definition SendNormalBuffer (length endpoint : Z) (is_input : bool) : St bool := fun d =>
  match GetEndpointTransferRing endpoint is_input (usb_device d) with
  | None => inr (false, d)
  | Some endpoint_ring =>
      match ring_enqueue endpoint_ring (buffer_trb d length endpoint_ring) (usb_device d) with
      | inl e => inl e
      | inr (trb, x) =>
          let d := with_last_sent (Some trb) (with_device x d) in
          let d := with_device (RingDoorbell (u8 (endpoint * 2 + Z.b2z is_input)) (usb_device d)) d in
          match wait_transfer d with
          | inl e => inl e
          | inr (result, d) => inr (result, with_complete false (with_last_sent None d))
          end
      end
  end.

(** ** Commands *)

Definition the {A} (f : Transport X -> A) : St A := fun d => inr (f d, d).
Definition edit (f : Transport X -> Transport X) : St unit := fun d => inr (tt, f d).

(** Copies into the shared buffer and out of it. *)
Definition to_buffer (bytes : list Z) : St unit :=
  the io_buffer ≫= fun buf => or_stop WildAccess (put buf 0 bytes) ≫= fun buf => edit (with_buffer buf).
Definition from_buffer (n : Z) : St (list Z) :=
  the io_buffer ≫= fun buf => or_stop WildAccess (load buf 0 n).

(** The command wrapper is built and sent. *)
Definition send_wrapper (payload : CommandPayload) (command : list Z) : St (bool * CBW) :=
  the current_tag ≫= fun tag =>
  edit (with_tag (u32 (tag + 1))) ≫= fun _ =>
  or_stop WildAccess (CBW_Create payload command tag) ≫= fun cbw =>
  to_buffer (cbw_bytes cbw) ≫= fun _ =>
  the bulkOut ≫= fun endpoint =>
  SendNormalBuffer CBW_SIZE endpoint false ≫= fun sent => mret (sent, cbw).

(** The data, in either direction. *)
Definition data_stage (payload : CommandPayload) : St (bool * option (list Z)) :=
  if 0 <? dataLength payload then
    if isInputTransfer payload then
      the bulkIn ≫= fun endpoint =>
      SendNormalBuffer (u32 (dataLength payload)) endpoint true ≫= fun ok =>
      if negb ok then mret (false, dataBuffer payload)
      else
        from_buffer (dataLength payload) ≫= fun bytes =>
        or_stop WildAccess (buf ← dataBuffer payload; put buf 0 bytes) ≫= fun buf => mret (true, Some buf)
    else
      or_stop WildAccess (buf ← dataBuffer payload; load buf 0 (dataLength payload)) ≫= fun bytes =>
      to_buffer bytes ≫= fun _ =>
      the bulkOut ≫= fun endpoint =>
      SendNormalBuffer (u32 (dataLength payload)) endpoint false ≫= fun ok => mret (ok, dataBuffer payload)
  else mret (true, dataBuffer payload).

(** The status wrapper. *)
Definition status_stage (cbw : CBW) : St bool :=
  the bulkIn ≫= fun endpoint =>
  SendNormalBuffer CSW_SIZE endpoint true ≫= fun ok =>
  if negb ok then mret false
  else
    from_buffer CSW_SIZE ≫= fun bytes =>
    let csw := csw_of bytes in
    if negb (csw_signature csw =? CSW_SIGNATURE) then mret false
    else if negb (csw_tag csw =? cbw_tag cbw) then mret false
    else if negb (csw_status csw =? 0) then mret false
    else mret true.

(** With [driver_lock] held: the command, its data and its status; a command
    that cannot be sent ends in [while (1)]. *)
Definition locked_command (payload : CommandPayload) (command : list Z) : St (bool * option (list Z)) :=
  send_wrapper payload command ≫= fun '(sent, cbw) =>
  if negb sent then stop Hang
  else
    data_stage payload ≫= fun '(ok, data) =>
    if negb ok then mret (false, data)
    else status_stage cbw ≫= fun ok => mret (ok, data).

(** [ContextBusy]: the access count of the device around a command. *)
Definition context_busy {A} (refused : A) (body : St A) : St A := fun d =>
  let '(valid, x) := SetBusy (usb_device d) in
  let d := with_device x d in
  if negb valid then inr (refused, d)
  else
    match body d with
    | inl e => inl e
    | inr (r, d) => inr (r, with_device (ReleaseBusy (usb_device d)) d)
    end.

Definition Bulk_SendCommand (payload : CommandPayload) : St (bool * option (list Z)) :=
  context_busy (false, dataBuffer payload)
    (if (MAX_COMMAND_LENGTH <? commandLength payload) || (bool_decide (dataBuffer payload = None) && (0 <? dataLength payload))
        || (MAX_DATA_TRANSFER_LENGTH <? dataLength payload)
     then mret (false, dataBuffer payload)
     else if commandLength payload =? 0 then mret (true, dataBuffer payload)
     else
       match commandBuffer payload with
       | None => mret (false, dataBuffer payload)
       | Some command => locked_command payload command
       end).

Definition bulk_controller : Controller (Transport X) :=
  {| GetMaxCommandLength := MAX_COMMAND_LENGTH;
     GetMaxDataTransferLength := MAX_DATA_TRANSFER_LENGTH;
     SendCommand := Bulk_SendCommand |}.
End Transport.
