(* ===== verification/BulkOnlyProps.v ===== *)
(** * Bulk-only transport: properties

    Over a device that follows the bulk-only protocol, a command of the driver
    reaches the unit and its data and status come back, for transfers one
    transfer block can carry; what happens to longer ones, to short data and
    to a device that does not answer. *)
From S2P Require Import Prelude Packed Trb TrbProps Storage BlockDeviceProps Scsi ScsiProps BulkOnly.

(** ** The block of a transfer *)

Definition trb_length (t : TRB) : Z := GetPacked (data2 t) 0x1FFFF 0.
Definition trb_pointer (t : TRB) : Z := data0 t + 2 ^ 32 * data1 t.

Lemma buffer_trb_length {X : Type} `{Bulk X} (d : Transport X) n ring : trb_length (buffer_trb d n ring) = n mod 2 ^ 17.
Proof.
  unfold trb_length, buffer_trb. rewrite Normal_words. unfold normal_words. cbn [data2 n_transferLength n_tdSize n_interrupterTarget].
  unfold transfer_status, GetPacked. rewrite Z.shiftr_0_r. change 0x1FFFF with (Z.ones 17). rewrite Z.land_ones by lia.
  change (0 mod 2 ^ 5) with 0. change (0 mod 2 ^ 10) with 0. rewrite !Z.mul_0_l, !Z.add_0_r. by rewrite Z.mod_mod by lia.
Qed.

Lemma buffer_trb_pointer {X : Type} `{Bulk X} (d : Transport X) n ring :
  0 <= phys_io_buffer d < 2 ^ 64 -> trb_pointer (buffer_trb d n ring) = phys_io_buffer d.
Proof.
  intros Hp. unfold trb_pointer, buffer_trb. rewrite Normal_words. unfold normal_words. cbn [data0 data1 n_bufferPointer].
  rewrite (Z.mod_small (_ / _)); [pose proof (Z.div_mod (phys_io_buffer d) (2 ^ 32) ltac:(lia)); lia|].
  split; [apply Z.div_pos; lia|apply Z.div_lt_upper_bound; lia].
Qed.

(** ** The device: the bulk-only protocol *)

(** Where the device stands between transfers: ready for a command, with data
    to receive, with data to send, or with a status to send. *)
Inductive Phase :=
| Ready
| Receives (tag lun n : Z) (cmd data : list Z)
| Sends (data : list Z) (tag residue status : Z)
| Reports (tag residue status : Z).

Definition status_of (ok : bool) : Z := if ok then 0 else 1.

Definition csw_bytes (tag residue status : Z) : list Z :=
  le_bytes 4 CSW_SIGNATURE ++ le_bytes 4 tag ++ le_bytes 4 residue ++ [status].

(** A transfer of [length data] bytes out, or of at most [n] bytes in, as the
    protocol answers it: the bytes in, the phase and the unit after it. *)
Definition bulk_step {T : Type} `{CommandUnit T} (is_input : bool) (n : Z) (data : list Z) (ph : Phase) (t : T) : option (list Z * Phase * T) :=
  match ph, is_input with
  | Ready, false =>
      if (n =? CBW_SIZE) && (le (take 4 data) =? CBW_SIGNATURE) then
        let tag := le (take 4 (drop 4 data)) in
        let size := le (take 4 (drop 8 data)) in
        let flags := default 0 (data !! 12%nat) in
        let lun := default 0 (data !! 13%nat) in
        let cmd := take (Z.to_nat (default 0 (data !! 14%nat))) (drop 15 data) in
        if (0 <? size) && (flags =? 0) then Some ([], Receives tag lun size cmd [], t)
        else
          let '(ok, din, t) := execute lun cmd [] size t in
          Some ([], (if 0 <? size then Sends din tag (size - Z.of_nat (length din)) (status_of ok)
                     else Reports tag 0 (status_of ok)), t)
      else None
  | Receives tag lun size cmd got, false =>
      let got := got ++ data in
      if Z.of_nat (length got) <? size then Some ([], Receives tag lun size cmd got, t)
      else
        let '(ok, _, t) := execute lun cmd got 0 t in
        Some ([], Reports tag 0 (status_of ok), t)
  | Sends din tag residue status, true =>
      Some (take (Z.to_nat n) din,
            if n <? Z.of_nat (length din) then Sends (drop (Z.to_nat n) din) tag residue status else Reports tag residue status, t)
  | Reports tag residue status, true =>
      if CSW_SIZE <=? n then Some (csw_bytes tag residue status, Ready, t) else None
  | _, _ => None
  end.

(** A device that works follows the protocol for every block of at most
    64 KiB, and an event reports the transfer within the wait. *)
Class BulkLaws (X T : Type) `{Bulk X} `{CommandUnit T} := {
  bulk_ok : X -> Prop;
  bulk_unit : X -> T;
  bulk_phase : X -> Phase;
  bulk_endpoint : bool -> X -> Z;
  bulk_memory : X -> Z;
  bulk_set_busy : forall x, bulk_ok x -> exists x', SetBusy x = (true, x') /\ bulk_ok x' /\ bulk_unit x' = bulk_unit x /\
    bulk_phase x' = bulk_phase x /\ (forall b, bulk_endpoint b x' = bulk_endpoint b x) /\ bulk_memory x' = bulk_memory x;
  bulk_release_busy : forall x, bulk_ok x -> bulk_ok (ReleaseBusy x) /\ bulk_unit (ReleaseBusy x) = bulk_unit x /\
    bulk_phase (ReleaseBusy x) = bulk_phase x /\ (forall b, bulk_endpoint b (ReleaseBusy x) = bulk_endpoint b x) /\
    bulk_memory (ReleaseBusy x) = bulk_memory x;
  bulk_transfer : forall x is_input, bulk_ok x -> exists ring,
    GetEndpointTransferRing (bulk_endpoint is_input x) is_input x = Some ring /\
    forall trb, trb_pointer trb = bulk_memory x -> 0 < trb_length trb <= 2 ^ 16 ->
      exists addr x1, ring_enqueue ring trb x = inr (addr, x1) /\
      forall buf din ph t, trb_length trb <= Z.of_nat (length buf) ->
        bulk_step is_input (trb_length trb) (if is_input then [] else take (Z.to_nat (trb_length trb)) buf) (bulk_phase x) (bulk_unit x) = Some (din, ph, t) ->
        exists ev events x', serve addr buf (RingDoorbell (u8 (bulk_endpoint is_input x * 2 + Z.b2z is_input)) x1) =
            (splice buf 0 din, ev :: events, x') /\
          bulk_ok x' /\ bulk_unit x' = t /\ bulk_phase x' = ph /\ (forall b, bulk_endpoint b x' = bulk_endpoint b x) /\ bulk_memory x' = bulk_memory x }.

(** ** One transfer *)

Section Transfers.
Context {X T : Type} {HB : Bulk X} {HU : CommandUnit T} {HL : BulkLaws X T}.
#[local] Abbreviation dev := (usb_device (X := X)).

(** The driver and its device agree, the device being in phase [ph] with its
    unit at [t]. *)
Record link (d : Transport X) (ph : Phase) (t : T) : Prop := {
  link_ok : bulk_ok (dev d);
  link_in : bulkIn d = bulk_endpoint true (dev d);
  link_out : bulkOut d = bulk_endpoint false (dev d);
  link_phys : phys_io_buffer d = bulk_memory (dev d);
  link_range : 0 <= phys_io_buffer d < 2 ^ 64;
  link_buffer : Z.of_nat (length (io_buffer d)) = MAX_DATA_TRANSFER_LENGTH;
  link_tag : 0 <= current_tag d < 2 ^ 32;
  link_phase : bulk_phase (dev d) = ph;
  link_unit : bulk_unit (dev d) = t }.

Lemma bulk_step_size is_input n data ph (t : T) din ph' t' :
  0 <= n -> bulk_step is_input n data ph t = Some (din, ph', t') -> Z.of_nat (length din) <= n.
Proof.
  intros Hn. unfold bulk_step. destruct ph, is_input; try discriminate; repeat case_match; intros E; simplify_eq; simpl; try lia.
  - rewrite length_take. lia.
  - rewrite length_take. lia.
  - change (13 <= n). by apply Z.leb_le.
Qed.

Lemma send_buffer d (is_input : bool) n e ph t din ph' t' :
  link d ph t -> e = (if is_input then bulkIn d else bulkOut d) -> 0 < n mod 2 ^ 17 <= 2 ^ 16 ->
  bulk_step is_input (n mod 2 ^ 17) (if is_input then [] else take (Z.to_nat (n mod 2 ^ 17)) (io_buffer d)) ph t = Some (din, ph', t') ->
  exists d', SendNormalBuffer n e is_input d = inr (true, d') /\ link d' ph' t' /\
    io_buffer d' = splice (io_buffer d) 0 din /\ current_tag d' = current_tag d.
Proof.
  intros Hd He Hm Hstep. pose proof (link_buffer _ _ _ Hd) as Hbuf. unfold MAX_DATA_TRANSFER_LENGTH in Hbuf.
  assert (He' : e = bulk_endpoint is_input (dev d)) by (subst e; destruct is_input; apply Hd).
  destruct (bulk_transfer (dev d) is_input (link_ok _ _ _ Hd)) as (ring & Ering & Hring).
  specialize (Hring (buffer_trb d n ring)). rewrite buffer_trb_length, buffer_trb_pointer in Hring by apply Hd.
  destruct (Hring (link_phys _ _ _ Hd) Hm) as (addr & x1 & Eenq & Hserve).
  specialize (Hserve (io_buffer d) din ph' t' ltac:(lia)). rewrite (link_phase _ _ _ Hd), (link_unit _ _ _ Hd) in Hserve.
  destruct (Hserve Hstep) as (ev & events & x' & Es & Hok & Hu & Hp & Hend & Hmem).
  unfold SendNormalBuffer. rewrite He', Ering, Eenq. unfold wait_transfer.
  cbn [last_sent_trb io_buffer usb_device with_device with_last_sent default from_option id]. rewrite Es.
  assert (Hfold : forall evs (d0 : Transport X), transfer_complete d0 = true -> exists last, fold_left HandleEvent evs d0 =
    mkTransport (current_tag d0) (bulkIn d0) (bulkOut d0) (phys_io_buffer d0) (io_buffer d0) (last_sent_trb d0) last true (usb_device d0)).
  { clear. intros evs. induction evs as [|v evs IH]; intros d0 H0; [destruct d0; cbn in *; subst; by eexists|].
    destruct (IH (HandleEvent d0 v) eq_refl) as [last E]. exists last. exact E. }
  cbn [fold_left]. edestruct (Hfold events) as [last ->]; [reflexivity|]. cbn.
  eexists. split; [reflexivity|]. cbn. split; [|split; reflexivity].
  pose proof (bulk_step_size _ _ _ _ _ _ _ _ (Z.lt_le_incl _ _ (proj1 Hm)) Hstep) as Hsz.
  constructor; cbn; rewrite ?Hmem, ?Hend; try apply Hd; try done. rewrite length_splice; [exact Hbuf|done|]. clear - Hm Hbuf Hsz. lia.
Qed.

(** ** Wrappers *)

Lemma le_four x : 0 <= x < 2 ^ 32 -> le (le_bytes 4 x) = x.
Proof. intros Hx. by apply le_le_bytes. Qed.

(** The wrapper of a command as the device reads it. *)
Definition wrapper (stale : Z -> Z) (p : CommandPayload) (command : list Z) (tag : Z) : CBW :=
  mkCBW CBW_SIGNATURE tag (dataLength p) (if isInputTransfer p && (0 <? dataLength p) then 0x80 else 0) (payload_lun p) (commandLength p)
    (command ++ map stale (seqZ (Z.of_nat (length command)) (MAX_COMMAND_LENGTH - Z.of_nat (length command)))).

Record well_formed (p : CommandPayload) (command : list Z) : Prop := {
  wf_command : commandBuffer p = Some command;
  wf_length : Z.of_nat (length command) = commandLength p;
  wf_short : 0 < commandLength p <= MAX_COMMAND_LENGTH;
  wf_data : 0 <= dataLength p <= MAX_DATA_TRANSFER_LENGTH;
  wf_lun : 0 <= payload_lun p < 256 }.

Lemma CBW_Create_wrapper stale p command tag : well_formed p command ->
  CBW_Create stale p command tag = Some (wrapper stale p command tag).
Proof.
  intros [Hc Hl Hs Hd _]. unfold CBW_Create, MAX_COMMAND_LENGTH, MAX_DATA_TRANSFER_LENGTH in *. rewrite Z.min_l, <- Hl, load_all by lia.
  cbn [mbind option_bind]. unfold wrapper. rewrite (wrap_small 32), (wrap_small 8) by lia. by rewrite Hl.
Qed.

Lemma length_wrapper stale p command tag : well_formed p command -> length (cbw_bytes (wrapper stale p command tag)) = 31%nat.
Proof.
  intros [_ Hl Hs _ _]. unfold MAX_COMMAND_LENGTH in *. unfold cbw_bytes, wrapper. cbn [commandBlock cbw_signature cbw_tag dataTransferLength].
  rewrite !length_app, length_map, length_seqZ. unfold MAX_COMMAND_LENGTH. cbn [length le_bytes]. lia.
Qed.

Lemma wrapper_received stale p command tag (t : T) : well_formed p command -> 0 <= tag < 2 ^ 32 ->
  bulk_step false CBW_SIZE (cbw_bytes (wrapper stale p command tag)) Ready t =
    if (0 <? dataLength p) && negb (isInputTransfer p) then Some ([], Receives tag (payload_lun p) (dataLength p) command [], t)
    else
      let '(ok, din, t) := execute (payload_lun p) command [] (dataLength p) t in
      Some ([], (if 0 <? dataLength p then Sends din tag (dataLength p - Z.of_nat (length din)) (status_of ok) else Reports tag 0 (status_of ok)), t).
Proof.
  intros [_ Hl Hs Hd _] Ht. unfold MAX_DATA_TRANSFER_LENGTH in Hd. set (c := wrapper stale p command tag).
  assert (E1 : le (take 4 (cbw_bytes c)) = CBW_SIGNATURE) by reflexivity.
  assert (E2 : le (take 4 (drop 4 (cbw_bytes c))) = tag) by (change (le (le_bytes 4 tag) = tag); by apply le_four).
  assert (E3 : le (take 4 (drop 8 (cbw_bytes c))) = dataLength p)
    by (change (le (le_bytes 4 (dataLength p)) = dataLength p); apply le_four; lia).
  assert (E4 : take (Z.to_nat (default 0 (cbw_bytes c !! 14%nat))) (drop 15 (cbw_bytes c)) = command).
  { change (take (Z.to_nat (commandLength p)) (commandBlock c) = command). unfold c, wrapper. cbn [commandBlock].
    rewrite <- Hl, Nat2Z.id. apply take_app_length. }
  unfold bulk_step. cbv zeta. rewrite E1, E2, E3, E4, !Z.eqb_refl. cbn [andb].
  change (cbw_bytes c !! 12%nat) with (Some (if isInputTransfer p && (0 <? dataLength p) then 0x80 else 0)).
  change (cbw_bytes c !! 13%nat) with (Some (payload_lun p)). cbn [default from_option id].
  by destruct (0 <? dataLength p), (isInputTransfer p).
Qed.

Lemma csw_read tag residue ok : 0 <= tag < 2 ^ 32 ->
  let c := csw_of (csw_bytes tag residue (status_of ok)) in
  csw_signature c = CSW_SIGNATURE /\ csw_tag c = tag /\ csw_status c = status_of ok.
Proof.
  intros Ht. cbv zeta. split; [reflexivity|]. split; [|reflexivity].
  change (le (le_bytes 4 tag) = tag). by apply le_four.
Qed.

(** ** The parts of a command *)

Lemma next_tag d ph t : link d ph t -> link (with_tag (u32 (current_tag d + 1)) d) ph t.
Proof. intros []. constructor; cbn; try done. apply wrap_range. lia. Qed.

Lemma to_buffer_link d ph t bytes : link d ph t -> Z.of_nat (length bytes) <= MAX_DATA_TRANSFER_LENGTH ->
  to_buffer bytes d = inr (tt, with_buffer (splice (io_buffer d) 0 bytes) d) /\ link (with_buffer (splice (io_buffer d) 0 bytes) d) ph t.
Proof.
  intros Hd Hl. pose proof (link_buffer _ _ _ Hd) as Hb.
  unfold to_buffer, the, mbind, io_bind. rewrite put_some by lia. split; [done|].
  constructor; cbn; try apply Hd. rewrite length_splice by lia. exact Hb.
Qed.

Lemma from_buffer_link d ph t n : link d ph t -> 0 <= n <= MAX_DATA_TRANSFER_LENGTH ->
  from_buffer n d = inr (take (Z.to_nat n) (io_buffer d), d).
Proof.
  intros Hd Hn. pose proof (link_buffer _ _ _ Hd) as Hb. unfold from_buffer, the, mbind, io_bind. by rewrite load_some by lia.
Qed.

Lemma take_splice (buf bytes : list Z) : take (length bytes) (splice buf 0 bytes) = bytes.
Proof. change (splice buf 0 bytes) with (bytes ++ drop (length bytes) buf). apply take_app_length. Qed.

Lemma u32_small n : 0 <= n < 2 ^ 32 -> u32 n = n.
Proof. apply wrap_small. Qed.

Lemma wrapper_sent stale d p command t ph t' :
  link d Ready t -> well_formed p command ->
  bulk_step false CBW_SIZE (cbw_bytes (wrapper stale p command (current_tag d))) Ready t = Some ([], ph, t') ->
  exists d', send_wrapper stale p command d = inr ((true, wrapper stale p command (current_tag d)), d') /\
    link d' ph t' /\ io_buffer d' = splice (io_buffer d) 0 (cbw_bytes (wrapper stale p command (current_tag d))).
Proof.
  intros Hd Hwf Hstep. set (c := wrapper stale p command (current_tag d)) in *.
  assert (Hc : length (cbw_bytes c) = 31%nat) by by apply length_wrapper.
  destruct (to_buffer_link _ _ _ (cbw_bytes c) (next_tag d Ready t Hd)) as [E1 Hd1]; [rewrite Hc; discriminate|].
  set (d1 := with_buffer _ _) in *.
  destruct (send_buffer d1 false CBW_SIZE (bulkOut d1) Ready t [] ph t' Hd1 eq_refl) as (d2 & E2 & Hd2 & Hb & _).
  { vm_compute. intuition discriminate. }
  { change (CBW_SIZE mod 2 ^ 17) with CBW_SIZE. change (Z.to_nat CBW_SIZE) with 31%nat. rewrite <- Hc. cbn [d1 io_buffer with_buffer].
    by rewrite take_splice. }
  exists d2. split; [|split; [exact Hd2|]].
  - unfold send_wrapper, the, edit, mbind, io_bind. rewrite CBW_Create_wrapper by done. fold c. cbn [or_stop mret io_ret].
    unfold mret, io_ret. rewrite E1. change (bulkOut (with_buffer _ _)) with (bulkOut d1). by rewrite E2.
  - rewrite Hb. cbn. apply (splice_nil _ 0).
Qed.

Lemma data_in d p buf ph t din ph' t' :
  link d ph t -> isInputTransfer p = true -> 0 < dataLength p <= MAX_DATA_TRANSFER_LENGTH -> dataBuffer p = Some buf ->
  dataLength p <= Z.of_nat (length buf) -> 0 < dataLength p mod 2 ^ 17 <= 2 ^ 16 ->
  bulk_step true (dataLength p mod 2 ^ 17) [] ph t = Some (din, ph', t') ->
  exists d', data_stage p d = inr ((true, Some (splice buf 0 (take (Z.to_nat (dataLength p)) (splice (io_buffer d) 0 din)))), d') /\
    link d' ph' t'.
Proof.
  intros Hd Hin Hn Hb Hl Hm Hstep. unfold MAX_DATA_TRANSFER_LENGTH in Hn.
  destruct (send_buffer d true (dataLength p) (bulkIn d) ph t din ph' t' Hd eq_refl Hm Hstep) as (d' & E & Hd' & Hbuf & _).
  exists d'. split; [|exact Hd']. unfold data_stage, the, mbind, io_bind.
  rewrite (proj2 (Z.ltb_lt 0 (dataLength p))), Hin, u32_small, E, Hb by lia. cbn [negb option_bind].
  rewrite (from_buffer_link d' _ _ (dataLength p) Hd'), Hbuf by (unfold MAX_DATA_TRANSFER_LENGTH; lia).
  rewrite put_some; [done|done|]. rewrite length_take. lia.
Qed.

Lemma data_out d p buf ph t ph' t' :
  link d ph t -> isInputTransfer p = false -> 0 < dataLength p <= MAX_DATA_TRANSFER_LENGTH -> dataBuffer p = Some buf ->
  dataLength p <= Z.of_nat (length buf) -> 0 < dataLength p mod 2 ^ 17 <= 2 ^ 16 -> dataLength p mod 2 ^ 17 <= dataLength p ->
  bulk_step false (dataLength p mod 2 ^ 17) (take (Z.to_nat (dataLength p mod 2 ^ 17)) buf) ph t = Some ([], ph', t') ->
  exists d', data_stage p d = inr ((true, dataBuffer p), d') /\ link d' ph' t'.
Proof.
  intros Hd Hin Hn Hb Hl Hm Hle Hstep. pose proof Hn as Hn'. unfold MAX_DATA_TRANSFER_LENGTH in Hn'.
  set (bytes := take (Z.to_nat (dataLength p)) buf).
  assert (Hbl : length bytes = Z.to_nat (dataLength p)) by (unfold bytes; rewrite length_take; lia).
  destruct (to_buffer_link d ph t bytes Hd) as [E1 Hd1]; [rewrite Hbl; lia|]. set (d1 := with_buffer _ _) in *.
  destruct (send_buffer d1 false (dataLength p) (bulkOut d1) ph t [] ph' t' Hd1 eq_refl Hm) as (d' & E & Hd' & _).
  { cbn [d1 io_buffer with_buffer]. rewrite <- Hstep. f_equal.
    change (splice (io_buffer d) 0 bytes) with (bytes ++ drop (length bytes) (io_buffer d)).
    rewrite take_app_le by (rewrite Hbl; lia). unfold bytes. rewrite take_take. f_equal. lia. }
  exists d'. split; [|exact Hd']. unfold data_stage, the, mbind, io_bind.
  rewrite (proj2 (Z.ltb_lt 0 (dataLength p))), Hin, u32_small, Hb by lia. cbn [option_bind]. rewrite load_some by lia.
  cbn [or_stop]. unfold mret, io_ret. change (take (Z.to_nat (dataLength p)) (drop (Z.to_nat 0) buf)) with bytes.
  rewrite E1. fold d1. by rewrite E.
Qed.

(** What the driver makes of the bytes of a status. *)
Definition accepts (cbw : CBW) (bytes : list Z) : bool :=
  (csw_signature (csw_of bytes) =? CSW_SIGNATURE) && (csw_tag (csw_of bytes) =? cbw_tag cbw) && (csw_status (csw_of bytes) =? 0).

Lemma status_in cbw d ph t bytes ph' t' :
  link d ph t -> bulk_step true CSW_SIZE [] ph t = Some (bytes, ph', t') -> length bytes = 13%nat ->
  exists d', status_stage cbw d = inr (accepts cbw bytes, d') /\ link d' ph' t'.
Proof.
  intros Hd Hstep Hl.
  destruct (send_buffer d true CSW_SIZE (bulkIn d) ph t bytes ph' t' Hd eq_refl) as (d' & E & Hd' & Hbuf & _);
    [vm_compute; intuition discriminate|exact Hstep|].
  exists d'. split; [|exact Hd']. unfold status_stage, the, mbind, io_bind. rewrite E. cbn [negb].
  rewrite (from_buffer_link d' _ _ CSW_SIZE Hd') by (vm_compute; intuition discriminate).
  change (Z.to_nat CSW_SIZE) with 13%nat. rewrite Hbuf, <- Hl, take_splice. unfold accepts.
  destruct (csw_signature _ =? _), (csw_tag _ =? _), (csw_status _ =? _); reflexivity.
Qed.

Lemma status_ok cbw d residue ok t :
  link d (Reports (cbw_tag cbw) residue (status_of ok)) t -> 0 <= cbw_tag cbw < 2 ^ 32 ->
  exists d', status_stage cbw d = inr (ok, d') /\ link d' Ready t.
Proof.
  intros Hd Ht. destruct (status_in cbw d _ t (csw_bytes (cbw_tag cbw) residue (status_of ok)) Ready t Hd eq_refl eq_refl) as (d' & E & Hd').
  exists d'. split; [|exact Hd']. rewrite E. unfold accepts. destruct (csw_read (cbw_tag cbw) residue ok Ht) as (-> & -> & ->).
  rewrite !Z.eqb_refl. by destruct ok.
Qed.

(** ** Whole commands *)

Lemma wrapper_tag stale p command tag : cbw_tag (wrapper stale p command tag) = tag.
Proof. done. Qed.

(** What the buffer of a read holds when the unit sent [din]: the rest is the
    command wrapper, then what the shared buffer held. *)
Definition received stale (d : Transport X) (p : CommandPayload) (command din : list Z) : list Z :=
  take (Z.to_nat (dataLength p)) (splice (splice (io_buffer d) 0 (cbw_bytes (wrapper stale p command (current_tag d)))) 0 din).

Lemma command_runs stale d p command buf t ok din t' :
  link d Ready t -> well_formed p command -> dataBuffer p = Some buf -> dataLength p <= Z.of_nat (length buf) -> dataLength p <= 2 ^ 16 ->
  execute (payload_lun p) command (if isInputTransfer p then [] else take (Z.to_nat (dataLength p)) buf)
    (if isInputTransfer p then dataLength p else 0) t = (ok, din, t') ->
  (isInputTransfer p = true -> Z.of_nat (length din) <= dataLength p) ->
  exists d', locked_command stale p command d =
      inr ((ok, Some (if isInputTransfer p && (0 <? dataLength p) then splice buf 0 (received stale d p command din) else buf)), d') /\
    link d' Ready t'.
Proof.
  intros Hd Hwf Hb Hl H16 Hex Hdin. pose proof (wf_data _ _ Hwf) as Hn. pose proof (link_tag _ _ _ Hd) as Htag.
  pose proof (wrapper_received stale p command (current_tag d) t Hwf Htag) as Hrec.
  assert (Hmod : dataLength p mod 2 ^ 17 = dataLength p) by (apply Z.mod_small; lia).
  unfold locked_command, mbind, io_bind.
  destruct (Z.ltb_spec 0 (dataLength p)) as [Hp|Hz]; cbn [andb] in Hrec.
  - destruct (isInputTransfer p) eqn:Ein; cbn [negb andb] in *.
    + rewrite Hex in Hrec. destruct (wrapper_sent stale d p command t _ _ Hd Hwf Hrec) as (d1 & E1 & Hd1 & Hio). rewrite E1. cbn [negb].
      specialize (Hdin eq_refl).
      destruct (data_in d1 p buf _ t' din (Reports (current_tag d) (dataLength p - Z.of_nat (length din)) (status_of ok)) t' Hd1 Ein) as (d2 & E2 & Hd2);
        [lia|done|done|lia| |].
      { rewrite Hmod. cbn [bulk_step]. rewrite (proj2 (Z.ltb_ge _ _)) by lia. by rewrite take_ge by lia. }
      rewrite E2. cbn [negb]. rewrite Hio. fold (received stale d p command din).
      destruct (status_ok (wrapper stale p command (current_tag d)) d2 _ ok t' Hd2 Htag) as (d3 & E3 & Hd3). rewrite E3. by exists d3.
    + destruct (wrapper_sent stale d p command t _ _ Hd Hwf Hrec) as (d1 & E1 & Hd1 & _). rewrite E1. cbn [negb].
      destruct (data_out d1 p buf _ t (Reports (current_tag d) 0 (status_of ok)) t' Hd1 Ein) as (d2 & E2 & Hd2); [lia|done|done|lia|lia| |].
      { rewrite Hmod. cbn [bulk_step app]. rewrite length_take, (proj2 (Z.ltb_ge _ _)) by lia. by rewrite Hex. }
      rewrite E2. cbn [negb].
      destruct (status_ok (wrapper stale p command (current_tag d)) d2 _ ok t' Hd2 Htag) as (d3 & E3 & Hd3). rewrite E3, Hb. by exists d3.
  - assert (H0 : dataLength p = 0) by lia. rewrite H0 in *. rewrite andb_false_r.
    assert (Hex' : execute (payload_lun p) command [] 0 t = (ok, din, t')) by (rewrite <- Hex; by destruct (isInputTransfer p)).
    rewrite Hex' in Hrec. destruct (wrapper_sent stale d p command t _ _ Hd Hwf Hrec) as (d1 & E1 & Hd1 & _). rewrite E1. cbn [negb].
    unfold data_stage. rewrite H0. cbn [Z.ltb Z.compare]. unfold mret, io_ret. cbn [negb].
    destruct (status_ok (wrapper stale p command (current_tag d)) d1 _ ok t' Hd1 Htag) as (d3 & E3 & Hd3). rewrite E3, Hb. by exists d3.
Qed.

(** The access count of the device. *)
Lemma set_busy_link d ph t : link d ph t -> exists x', SetBusy (dev d) = (true, x') /\ link (with_device x' d) ph t.
Proof.
  intros Hd. destruct (bulk_set_busy (dev d) (link_ok _ _ _ Hd)) as (x' & E & Hok & Hu & Hp & He & Hm).
  exists x'. split; [exact E|]. constructor; cbn; rewrite ?He, ?Hm, ?Hu, ?Hp; try apply Hd. exact Hok.
Qed.

Lemma release_busy_link d ph t : link d ph t -> link (with_device (ReleaseBusy (dev d)) d) ph t.
Proof.
  intros Hd. destruct (bulk_release_busy (dev d) (link_ok _ _ _ Hd)) as (Hok & Hu & Hp & He & Hm).
  constructor; cbn; rewrite ?He, ?Hm, ?Hu, ?Hp; try apply Hd. exact Hok.
Qed.

(** A well-formed command gets past the checks of [SendCommand]. *)
Lemma send_command_locked stale d p command buf ph t :
  link d ph t -> well_formed p command -> dataBuffer p = Some buf ->
  exists d1, link d1 ph t /\ io_buffer d1 = io_buffer d /\ current_tag d1 = current_tag d /\
    Bulk_SendCommand stale p d =
      match locked_command stale p command d1 with inl e => inl e | inr (r, d2) => inr (r, with_device (ReleaseBusy (dev d2)) d2) end.
Proof.
  intros Hd Hwf Hb. destruct (set_busy_link d ph t Hd) as (x' & E & Hd1). exists (with_device x' d). split; [exact Hd1|].
  split; [done|]. split; [done|]. destruct Hwf as [Hc _ Hs Hn _].
  unfold Bulk_SendCommand, context_busy. rewrite E, Hc, Hb. cbn [negb].
  rewrite (proj2 (Z.ltb_ge MAX_COMMAND_LENGTH _)), (proj2 (Z.ltb_ge MAX_DATA_TRANSFER_LENGTH _)), (proj2 (Z.eqb_neq _ 0)) by lia.
  done.
Qed.

(** ** The driver is a storage controller that works *)

Definition bulk_ready (d : Transport X) : Prop := link d Ready (bulk_unit (dev d)).

Context (stale : Z -> Z).

#[local] Program Instance bulk_laws : @ControllerLaws (Transport X) T (bulk_controller stale) HU :=
  {| controller_ok := bulk_ready; unit_of d := bulk_unit (dev d); carry_limit := 2 ^ 16 |}.
Next Obligation.
  intros d p cmd buf Hd Hc Hlen Hsh Hb Hl Hmx H16 _ _ Hlun ok din t' Hex Hdin. simpl in *.
  assert (Hwf : well_formed p cmd) by (constructor; try done; lia).
  destruct (send_command_locked stale d p cmd buf _ _ Hd Hwf Hb) as (d1 & Hd1 & _ & _ & E).
  destruct (command_runs stale d1 p cmd buf _ ok din t' Hd1 Hwf Hb) as (d2 & E2 & Hd2); [lia|lia|done|intros H1; apply Hdin in H1; lia|].
  exists (with_device (ReleaseBusy (dev d2)) d2). rewrite E, E2. pose proof (release_busy_link d2 Ready t' Hd2) as Hd3.
  split; [|split; [|apply Hd3]].
  - do 4 f_equal. destruct (isInputTransfer p); [|done]. destruct (Hdin eq_refl) as [Hdl _]. cbn [andb].
    unfold received. destruct (Z.ltb_spec 0 (dataLength p)) as [|Hz].
    + by rewrite <- Hdl, Nat2Z.id, take_splice.
    + destruct din; [|simpl in Hdl; lia]. symmetry. apply (splice_nil buf 0).
  - unfold bulk_ready. by rewrite (link_unit _ _ _ Hd3).
Qed.

(** A command with at most 64 KiB of data reaches the unit, and its status
    and data come back.  When the unit sends less than it was asked for, the
    rest of the buffer is filled with the command wrapper and what the shared
    buffer held, and nothing says so. *)
Theorem bulk_command_carried d p cmd buf ok din t' :
  bulk_ready d -> well_formed p cmd -> dataBuffer p = Some buf -> dataLength p <= Z.of_nat (length buf) -> dataLength p <= 2 ^ 16 ->
  execute (payload_lun p) cmd (if isInputTransfer p then [] else take (Z.to_nat (dataLength p)) buf)
    (if isInputTransfer p then dataLength p else 0) (bulk_unit (dev d)) = (ok, din, t') ->
  (isInputTransfer p = true -> Z.of_nat (length din) <= dataLength p) ->
  exists d' data, Bulk_SendCommand stale p d = inr ((ok, Some data), d') /\ bulk_ready d' /\ bulk_unit (dev d') = t' /\
    length data = length buf /\
    (isInputTransfer p = true -> take (Z.to_nat (dataLength p)) data = din ++ drop (length din) (received stale d p cmd [])) /\
    (isInputTransfer p = false -> data = buf).
Proof.
  intros Hd Hwf Hb Hl H16 Hex Hdin. pose proof (wf_data _ _ Hwf) as Hn.
  destruct (send_command_locked stale d p cmd buf _ _ Hd Hwf Hb) as (d1 & Hd1 & Hio & Htag & E).
  destruct (command_runs stale d1 p cmd buf _ ok din t' Hd1 Hwf Hb Hl H16 Hex Hdin) as (d2 & E2 & Hd2).
  pose proof (release_busy_link d2 Ready t' Hd2) as Hd3.
  eexists _, _. rewrite E, E2. split; [reflexivity|]. split; [unfold bulk_ready; by rewrite (link_unit _ _ _ Hd3)|]. split; [apply Hd3|].
  assert (Hr : received stale d1 p cmd din = received stale d p cmd din) by (unfold received; by rewrite Hio, Htag). rewrite Hr.
  assert (Hmx : MAX_DATA_TRANSFER_LENGTH <= Z.of_nat (length (io_buffer d))) by (rewrite (link_buffer _ _ _ Hd); done).
  set (io' := splice (io_buffer d) 0 (cbw_bytes (wrapper stale p cmd (current_tag d)))).
  assert (Hlw : length io' = length (io_buffer d)).
  { unfold io'. rewrite length_splice; rewrite ?(length_wrapper _ _ _ _ Hwf); [done|done|]. unfold MAX_DATA_TRANSFER_LENGTH in Hmx. lia. }
  assert (Hrec : received stale d p cmd [] = take (Z.to_nat (dataLength p)) io') by (unfold received; fold io'; by rewrite (splice_nil io' 0 : splice io' 0 [] = io')).
  rewrite Hrec. destruct (isInputTransfer p) eqn:Ein; cbn [andb]; [|by split_and!].
  specialize (Hdin eq_refl).
  assert (Hrd : received stale d p cmd din = din ++ drop (length din) (take (Z.to_nat (dataLength p)) io')).
  { unfold received. fold io'. change (splice io' 0 din) with (din ++ drop (length din) io').
    rewrite take_app_ge by lia. by rewrite skipn_firstn_comm. }
  assert (Hlr : length (received stale d p cmd din) = Z.to_nat (dataLength p)).
  { rewrite Hrd, length_app, length_drop, length_take. lia. }
  split; [|split; [intros _|done]].
  - destruct (0 <? _); [|done]. rewrite length_splice by lia. done.
  - rewrite <- Hrd. destruct (Z.ltb_spec 0 (dataLength p)); [by rewrite <- Hlr, take_splice|].
    rewrite <- Hlr. destruct (received stale d p cmd din); [done|simpl in Hlr; lia].
Qed.

(** A read of 128 KiB or more, which the driver announces up to 2 MiB,
    asks the device for [n mod 128 KiB] bytes only: the status is then looked
    for in the data, and the device is left with data to send. *)
Theorem large_read_cut d p cmd buf ok din t' :
  let m := dataLength p mod 2 ^ 17 in
  bulk_ready d -> well_formed p cmd -> isInputTransfer p = true -> dataBuffer p = Some buf -> dataLength p <= Z.of_nat (length buf) ->
  2 ^ 17 <= dataLength p -> 0 < m <= 2 ^ 16 ->
  execute (payload_lun p) cmd [] (dataLength p) (bulk_unit (dev d)) = (ok, din, t') -> Z.of_nat (length din) = dataLength p ->
  exists d', Bulk_SendCommand stale p d =
      inr ((accepts (wrapper stale p cmd (current_tag d)) (take 13 (drop (Z.to_nat m) din)),
            Some (splice buf 0 (received stale d p cmd (take (Z.to_nat m) din)))), d') /\
    bulk_phase (dev d') = Sends (drop 13 (drop (Z.to_nat m) din)) (current_tag d) 0 (status_of ok).
Proof.
  intros m Hd Hwf Ein Hb Hl Hbig Hm Hex Hlen. pose proof (wf_data _ _ Hwf) as Hn. unfold MAX_DATA_TRANSFER_LENGTH in Hn.
  assert (Hrest : 2 ^ 17 <= dataLength p - m).
  { unfold m. pose proof (Z.div_mod (dataLength p) (2 ^ 17) ltac:(lia)). assert (1 <= dataLength p / 2 ^ 17) by (apply Z.div_le_lower_bound; lia). lia. }
  destruct (send_command_locked stale d p cmd buf _ _ Hd Hwf Hb) as (d1 & Hd1 & Hio & Htag & E). rewrite E, <- Htag. clear E Hd.
  pose proof (link_tag _ _ _ Hd1) as Ht.
  pose proof (wrapper_received stale p cmd (current_tag d1) (bulk_unit (dev d)) Hwf Ht) as Hrec. rewrite Hex, Ein, (proj2 (Z.ltb_lt 0 (dataLength p))) in Hrec by lia.
  cbn [andb negb] in Hrec. rewrite Hlen, Z.sub_diag in Hrec.
  destruct (wrapper_sent stale d1 p cmd _ _ _ Hd1 Hwf Hrec) as (d2 & E2 & Hd2 & Hio2).
  assert (Hld : Z.of_nat (length (drop (Z.to_nat m) din)) = dataLength p - m) by (rewrite length_drop; lia).
  destruct (data_in d2 p buf _ t' (take (Z.to_nat m) din) (Sends (drop (Z.to_nat m) din) (current_tag d1) 0 (status_of ok)) t' Hd2 Ein)
    as (d3 & E3 & Hd3); [unfold MAX_DATA_TRANSFER_LENGTH; lia|done|done|exact Hm| |].
  { fold m. cbn [bulk_step]. by rewrite (proj2 (Z.ltb_lt m _)) by lia. }
  destruct (status_in (wrapper stale p cmd (current_tag d1)) d3 _ t' (take 13 (drop (Z.to_nat m) din))
    (Sends (drop 13 (drop (Z.to_nat m) din)) (current_tag d1) 0 (status_of ok)) t' Hd3) as (d4 & E4 & Hd4).
  { cbn [bulk_step]. rewrite (proj2 (Z.ltb_lt CSW_SIZE _)) by (unfold CSW_SIZE; lia). done. }
  { rewrite length_take. lia. }
  exists (with_device (ReleaseBusy (dev d4)) d4). split; [|apply (release_busy_link _ _ _ Hd4)].
  unfold locked_command, mbind, io_bind. rewrite E2. cbn [negb]. rewrite E3. cbn [negb]. rewrite E4. unfold mret, io_ret.
  do 4 f_equal. unfold received. by rewrite Hio2, Hio, <- Htag.
Qed.

End Transfers.

(** A device that does not answer a command within the wait stops the
    driver for ever. *)
Theorem unanswered_command_hangs {X : Type} `{Bulk X} (stale : Z -> Z) (d : Transport X) p cmd buf ring addr x x1 x2 buf' :
  well_formed p cmd -> dataBuffer p = Some buf -> MAX_DATA_TRANSFER_LENGTH <= Z.of_nat (length (io_buffer d)) -> transfer_complete d = false ->
  SetBusy (usb_device d) = (true, x) -> GetEndpointTransferRing (bulkOut d) false x = Some ring ->
  (forall trb, ring_enqueue ring trb x = inr (addr, x1)) ->
  (forall b, serve addr b (RingDoorbell (u8 (bulkOut d * 2 + 0)) x1) = (buf' b, [], x2)) ->
  Bulk_SendCommand stale p d = inl Hang.
Proof.
  intros Hwf Hb Hio Hcomp Hbusy Hring Henq Hserve. pose proof Hwf as [Hc _ Hs Hn _].
  unfold Bulk_SendCommand, context_busy. rewrite Hbusy, Hc, Hb. cbn [negb].
  rewrite (proj2 (Z.ltb_ge MAX_COMMAND_LENGTH _)), (proj2 (Z.ltb_ge MAX_DATA_TRANSFER_LENGTH _)), (proj2 (Z.eqb_neq _ 0)) by lia.
  rewrite bool_decide_eq_false_2 by done. cbn [andb].
  unfold locked_command, send_wrapper, the, edit, to_buffer, mbind, io_bind. cbn [orb]. rewrite CBW_Create_wrapper by done.
  cbn [or_stop]. unfold mret, io_ret, the. cbn [io_buffer with_tag with_device current_tag].
  rewrite put_some by (rewrite ?(length_wrapper _ _ _ _ Hwf); unfold MAX_DATA_TRANSFER_LENGTH in Hio; lia).
  cbn [or_stop]. unfold mret, io_ret, edit, SendNormalBuffer. cbn [bulkOut usb_device with_tag with_device with_buffer Z.b2z]. rewrite Hring, Henq.
  unfold wait_transfer. cbn [last_sent_trb io_buffer usb_device with_device with_last_sent default from_option id]. rewrite Hserve.
  cbn [fold_left transfer_complete with_device with_last_sent with_buffer with_tag]. rewrite Hcomp. reflexivity.
Qed.

(** ** A device in memory *)

(** A device with its unit, and the block last sent with the direction of the
    ring it was put on. *)
Record Pipe := mkPipe { pipe_phase : Phase; pipe_unit : RamUnit; pipe_sent : option (bool * TRB) }.

(** Bulk in is endpoint 1, on ring 1; bulk out is endpoint 2, on ring 2. *)
#[global] Instance pipe_bulk : Bulk Pipe := {|
  SetBusy x := (true, x);
  ReleaseBusy x := x;
  GetEndpointTransferRing e is_input x := if e =? (if is_input then 1 else 2) then Some e else None;
  ring_cycle ring x := true;
  ring_enqueue ring trb x := inr (0x1000 * ring, mkPipe (pipe_phase x) (pipe_unit x) (Some (ring =? 1, trb)));
  RingDoorbell id x := x;
  serve addr buf x :=
    match pipe_sent x with
    | Some (is_input, trb) =>
        let n := trb_length trb in
        match bulk_step is_input n (if is_input then [] else take (Z.to_nat n) buf) (pipe_phase x) (pipe_unit x) with
        | Some (din, ph, t) => (splice buf 0 din, [mkTRB 0 0 0x01000000 0], mkPipe ph t None)
        | None => (buf, [], x)
        end
    | None => (buf, [], x)
    end |}.

#[global] Program Instance pipe_laws : BulkLaws Pipe RamUnit := {|
  bulk_ok _ := True; bulk_unit := pipe_unit; bulk_phase := pipe_phase; bulk_endpoint b _ := if b then 1 else 2; bulk_memory _ := 0x200000 |}.
Next Obligation. intros x _. exists x. by split_and!. Qed.
Next Obligation. intros x _. by split_and!. Qed.
Next Obligation.
  intros x is_input _. exists (if is_input then 1 else 2). split; [by destruct is_input|].
  intros trb _ _. eexists _, _. split; [reflexivity|]. intros buf din ph t _ Hstep.
  exists (mkTRB 0 0 0x01000000 0), [], (mkPipe ph t None). split; [|by split_and!].
  simpl. replace ((if is_input then 1 else 2) =? 1) with is_input by (by destruct is_input). by rewrite Hstep.
Qed.

Definition pipe_of (t : RamUnit) : Transport Pipe :=
  mkTransport 9 1 2 0x200000 (replicate (Z.to_nat MAX_DATA_TRANSFER_LENGTH) 0) None zero_trb false (mkPipe Ready t None).

Lemma pipe_buffer t : Z.of_nat (length (io_buffer (pipe_of t))) = MAX_DATA_TRANSFER_LENGTH.
Proof. unfold pipe_of. cbn [io_buffer]. rewrite length_replicate. apply Z2Nat.id. discriminate. Qed.

Lemma pipe_ready t : bulk_ready (pipe_of t).
Proof.
  apply Build_link; [exact I|reflexivity|reflexivity|reflexivity|cbn [pipe_of phys_io_buffer]; lia| |cbn [pipe_of current_tag]; lia|reflexivity|reflexivity].
  apply pipe_buffer.
Qed.

Definition read_payload (lba n : Z) (size : Z) : CommandPayload :=
  mkPayload (Some (cdb10 0x28 lba n)) 10 (Some (replicate (Z.to_nat size) 0)) size true 0.

Lemma read_payload_formed lba n size : 0 <= size <= MAX_DATA_TRANSFER_LENGTH -> well_formed (read_payload lba n size) (cdb10 0x28 lba n).
Proof. intros Hs. constructor; try done; simpl; lia. Qed.

(** One block of 4 bytes asked for with a buffer of 8: four bytes come from
    the unit, the others are part of the tag and the length of the wrapper. *)
Lemma bulk_command_carried_witness :
  exists d' data, Bulk_SendCommand (fun _ => 0) (read_payload 0 1 8) (pipe_of small_unit) = inr ((true, Some data), d') /\
    take 8 data = [7; 7; 7; 7; 9; 0; 0; 0].
Proof.
  destruct (bulk_command_carried (fun _ => 0) (pipe_of small_unit) (read_payload 0 1 8) (cdb10 0x28 0 1) (replicate 8 0) true [7; 7; 7; 7] small_unit)
    as (d' & data & E & _ & _ & _ & Hin & _).
  - apply pipe_ready.
  - apply read_payload_formed. vm_compute. intuition discriminate.
  - reflexivity.
  - reflexivity.
  - vm_compute. discriminate.
  - reflexivity.
  - intros _. vm_compute. discriminate.
  - exists d', data. split; [exact E|]. etransitivity; [exact (Hin eq_refl)|]. reflexivity.
Defined.

(** A unit of 512 blocks of 512 bytes. *)
Definition large_unit : RamUnit := mkRamUnit (replicate (Z.to_nat (512 * 512)) 7) 512.

Lemma large_length : Z.of_nat (length (ram_media large_unit)) = 512 * 512.
Proof. unfold large_unit. cbn [ram_media]. rewrite length_replicate. apply Z2Nat.id. discriminate. Qed.

Lemma large_ok : ram_unit_ok large_unit.
Proof.
  unfold ram_unit_ok. rewrite large_length. split; [simpl; lia|]. split; [lia|]. split; [reflexivity|].
  apply Forall_replicate. lia.
Qed.

(** 257 blocks: the device is asked for one. *)
Lemma large_read : execute 0 (cdb10 0x28 0 257) [] 131584 large_unit = (true, replicate (Z.to_nat 131584) 7, large_unit).
Proof.
  change 131584 with (257 * media_block large_unit) at 1.
  assert (Hb : media_blocks large_unit = 512) by (unfold media_blocks; cbn; unfold ram_unit_blocks; rewrite large_length; reflexivity).
  assert (Hu : unit_ok large_unit) by exact large_ok.
  rewrite (unit_read 0 large_unit (cdb10 0x28 0 257) 0 257 Hu) by (rewrite ?Hb; first [lia | left; split; [done|lia]]).
  change (media large_unit) with (replicate (Z.to_nat (512 * 512)) 7). change (media_block large_unit) with 512.
  rewrite drop_replicate, take_replicate.
  assert (Hk : (Z.to_nat (257 * 512) `min` (Z.to_nat (512 * 512) - Z.to_nat (0 * 512)))%nat = Z.to_nat 131584) by lia.
  rewrite Hk. exact eq_refl.
Qed.

Lemma large_read_cut_witness :
  exists d' data, Bulk_SendCommand (fun _ => 0) (read_payload 0 257 131584) (pipe_of large_unit) = inr ((false, Some data), d') /\
    bulk_phase (usb_device d') <> Ready.
Proof.
  destruct (large_read_cut (fun _ => 0) (pipe_of large_unit) (read_payload 0 257 131584) (cdb10 0x28 0 257) (replicate (Z.to_nat 131584) 0) true
    (replicate (Z.to_nat 131584) 7) large_unit) as (d' & E & Hph).
  - apply pipe_ready.
  - apply read_payload_formed. split; discriminate.
  - reflexivity.
  - reflexivity.
  - rewrite length_replicate. cbn [dataLength read_payload]. lia.
  - discriminate.
  - split; [reflexivity|discriminate].
  - exact large_read.
  - rewrite length_replicate. cbn [dataLength read_payload]. lia.
  - assert (Ha : take 13 (drop (Z.to_nat (dataLength (read_payload 0 257 131584) mod 2 ^ 17)) (replicate (Z.to_nat 131584) 7)) = replicate 13 7).
    { change (Z.to_nat (dataLength (read_payload 0 257 131584) mod 2 ^ 17)) with 512%nat. rewrite drop_replicate, take_replicate.
      replace (13 `min` (Z.to_nat 131584 - 512))%nat with 13%nat by lia. exact eq_refl. }
    rewrite Ha in E. exists d'. eexists. split; [exact E|rewrite Hph; discriminate].
Defined.

(** That unit behind both drivers. *)
Definition usb_disk : ScsiDisk (Transport Pipe) := mkScsi (mkScsiDriver 0 511 512 false) (pipe_of large_unit).

Lemma usb_disk_ok : scsi_ok (HL := bulk_laws (fun _ => 0)) 511 usb_disk.
Proof.
  apply Build_scsi_ok.
  - apply pipe_ready.
  - exact large_ok.
  - reflexivity.
  - cbn [usb_disk scsi_driver capacity_blocksCount]. split; [lia|]. unfold media_blocks. cbn. unfold ram_unit_blocks.
    rewrite large_length. discriminate.
  - cbn [usb_disk scsi_driver lun]. lia.
  - discriminate.
  - split; [discriminate|reflexivity].
  - split; [reflexivity|discriminate].
  - discriminate.
Qed.


(** A device that swallows every block. *)
Record Mute := mkMute { mute_doorbells : list Z }.

#[global] Instance mute_bulk : Bulk Mute := {|
  SetBusy x := (true, x);
  ReleaseBusy x := x;
  GetEndpointTransferRing e is_input x := Some e;
  ring_cycle ring x := true;
  ring_enqueue ring trb x := inr (0x1000 * ring, x);
  RingDoorbell id x := mkMute (id :: mute_doorbells x);
  serve addr buf x := (buf, [], x) |}.

Definition mute_disk : Transport Mute :=
  mkTransport 9 1 2 0x200000 (replicate (Z.to_nat MAX_DATA_TRANSFER_LENGTH) 0) None zero_trb false (mkMute []).

Lemma unanswered_command_hangs_witness : Bulk_SendCommand (fun _ => 0) (read_payload 0 1 8) mute_disk = inl Hang.
Proof.
  refine (unanswered_command_hangs (fun _ => 0) mute_disk (read_payload 0 1 8) (cdb10 0x28 0 1) (replicate 8 0) 2 0x2000 (mkMute []) (mkMute []) (mkMute [4])
    (fun b => b) _ eq_refl _ eq_refl eq_refl eq_refl (fun _ => eq_refl) (fun _ => eq_refl)).
  - apply read_payload_formed. split; discriminate.
  - unfold mute_disk. cbn [io_buffer]. rewrite length_replicate, Z2Nat.id by discriminate. discriminate.
Defined.
