(* ===== verification/BulkDriver.v ===== *)
(** * The USB mass storage driver: creation and release
    ([Create], [PostInitialization] and [Release] of
    [kernel/src/devices/USB/MassStorage/BBB/Driver.cpp], and
    [kernel/src/devices/USB/MassStorage/Driver.cpp])

    What the driver acquires when a device is configured and gives back when it
    goes: the frame and the mapping of its buffer, its array of storage
    drivers, one driver per logical unit.  The rest of the kernel is the class
    [UsbHost]; the storage drivers are those of the SCSI component, of which
    the block device is the parameter. *)
From S2P Require Import XhciContext UsbDescriptors Trb Prelude.

Class UsbHost (X : Type) := {
  SendRequest : Z -> Z -> Z -> Z -> Z -> X -> (bool * list Z * CompletionCode) * X;
  SetConfiguration : Z -> X -> bool * X;
  ConfigureEndpoint : EndpointDescriptor -> X -> bool * X;
  Allocate2MB : X -> option Z * X;
  Free2MB : Z -> X -> X;
  MapGeneralPages : Z -> Z -> Z -> X -> option Z * X;
  UnmapGeneralPages : Z -> Z -> X -> X;
  GetPhysicalAddress : Z -> X -> option Z;
  Allocate : Z -> X -> option Z * X;
  Free : Z -> X -> X }.

(** A storage driver in the heap, with its block device when it has one. *)
Record StorageDriver (D : Type) := mkStorage { storage_object : Z; storage_lun : Z; device : option D }.
Arguments mkStorage {D}.
Arguments storage_object {D}.
Arguments storage_lun {D}.
Arguments device {D}.

Record StorageInfo (D : Type) := mkStorageInfo { max_lun : Z; drivers_array : option Z; drivers : list (option (StorageDriver D)) }.
Arguments mkStorageInfo {D}.
Arguments max_lun {D}.
Arguments drivers_array {D}.
Arguments drivers {D}.

Record EndpointsInfo := mkEndpoints { bulkIn : Z; bulkOut : Z }.

Record IOBufferInfo := mkIOBuffer { pointer : Z; physical_pointer : Z }.

Record Driver (D : Type) := mkDriver {
  object : Z; storage_info : StorageInfo D; endpoints_info : EndpointsInfo; io_buffer : IOBufferInfo }.
Arguments mkDriver {D}.
Arguments object {D}.
Arguments storage_info {D}.
Arguments endpoints_info {D}.
Arguments io_buffer {D}.

Definition TRANSPARENT_SCSI_USB_SUBCLASS : Z := 0x06.
Definition BBB_PROTOCOL : Z := 0x50.
Definition sizeof_pointer : Z := 8.

(** [PDE_PAGE_SIZE | PDE_UNCACHEABLE | PDE_READWRITE | PDE_PRESENT] *)
Definition buffer_flags : Z := Z.lor 0x80 (Z.lor (Z.lor 0x10 0x8) (Z.lor 0x2 0x1)).

Section Driver.
Context {X D : Type} `{UsbHost X}.
(** The sizes of the objects, and what a storage driver does with its device:
    its own initialisation, and the destruction of the device. *)
Context (sizeof_Driver sizeof_Storage : Z) (post_initialization : StorageDriver D -> io X (bool * option D)) (destroy_device : D -> io X unit).
#[local] Abbreviation St := (io X).

Definition host {A} (f : X -> A * X) : St A := fun x => inr (f x).
Definition host_ (f : X -> X) : St unit := fun x => inr (tt, f x).

(** ** Release *)

(** [Destroy] of a storage driver: its device is destroyed, whether or not it
    has one, and its memory freed. *)
Definition Storage_Destroy (s : StorageDriver D) : St unit :=
  match device s with
  | None => stop NullAccess
  | Some dev => destroy_device dev ≫= fun _ => host_ (Free (storage_object s))
  end.

Fixpoint destroy_drivers (l : list (option (StorageDriver D))) : St unit :=
  match l with
  | [] => mret tt
  | None :: l => destroy_drivers l
  | Some s :: l => Storage_Destroy s ≫= fun _ => destroy_drivers l
  end.

Definition Release (d : Driver D) : St (Driver D) :=
  (match drivers_array (storage_info d) with
   | None => mret d
   | Some array =>
       destroy_drivers (drivers (storage_info d)) ≫= fun _ =>
       host_ (Free array) ≫= fun _ =>
       mret (mkDriver (object d) (mkStorageInfo (max_lun (storage_info d)) None (drivers (storage_info d))) (endpoints_info d) (io_buffer d))
   end) ≫= fun d =>
  if pointer (io_buffer d) =? 0 then mret d
  else
    host (fun x => (GetPhysicalAddress (pointer (io_buffer d)) x, x)) ≫= fun phys_io_buffer =>
    host_ (UnmapGeneralPages (pointer (io_buffer d)) 1) ≫= fun _ =>
    match phys_io_buffer with
    | None => mret d
    | Some p => host_ (Free2MB p) ≫= fun _ => mret d
    end.

(** ** Creation *)

(** The first bulk endpoint of each direction. *)
Definition note_endpoint (e : EndpointDescriptor) (found : EndpointsInfo) : EndpointsInfo :=
  if decide (endpointType e = BulkIn) then
    if bulkIn found =? 0 then mkEndpoints (endpointAddress e) (bulkOut found) else found
  else if decide (endpointType e = BulkOut) then
    if bulkOut found =? 0 then mkEndpoints (bulkIn found) (endpointAddress e) else found
  else found.

Fixpoint configure_endpoints (l : list EndpointDescriptor) (found : EndpointsInfo) : St (option EndpointsInfo) :=
  match l with
  | [] => mret (Some found)
  | e :: l =>
      host (ConfigureEndpoint e) ≫= fun ok =>
      if negb ok then mret None else configure_endpoints l (note_endpoint e found)
  end.

(** The endpoints of an interface, read from its array. *)
Definition interface_endpoints (i : InterfaceDescriptor) : option (list EndpointDescriptor) :=
  if endpointsNumber i <=? 0 then Some []
  else
    '(_, l) ← if_endpoints i;
    if endpointsNumber i <=? Z.of_nat (length l) then Some (take (Z.to_nat (endpointsNumber i)) l) else None.

Fixpoint configure_interfaces (l : list InterfaceDescriptor) (found : EndpointsInfo) : St (option EndpointsInfo) :=
  match l with
  | [] => mret (Some found)
  | i :: l =>
      or_stop WildAccess (interface_endpoints i) ≫= fun endpoints =>
      configure_endpoints endpoints found ≫= fun found =>
      match found with
      | None => mret None
      | Some found => configure_interfaces l found
      end
  end.

(** The storage driver of each logical unit. *)
Fixpoint create_drivers (functionSubClass : Z) (luns : list Z) : St (list (option (StorageDriver D))) :=
  match luns with
  | [] => mret []
  | lun :: luns =>
      (if functionSubClass =? TRANSPARENT_SCSI_USB_SUBCLASS then
         host (Allocate sizeof_Storage) ≫= fun memory =>
         mret ((fun object => mkStorage object lun None) <$> memory)
       else mret None) ≫= fun driver =>
      create_drivers functionSubClass luns ≫= fun rest => mret (driver :: rest)
  end.

Definition has_driver (l : list (option (StorageDriver D))) : bool := existsb (fun s => bool_decide (is_Some s)) l.

(** Reset and number of logical units: [None] when the device refuses. *)
Definition get_max_lun (interfaceNumber : Z) : St (option Z) :=
  host (SendRequest 0x21 0xFF 0 interfaceNumber 0) ≫= fun '(ok, _, _) =>
  if negb ok then mret None
  else
    host (SendRequest 0xA1 0xFE 0 interfaceNumber 1) ≫= fun '(ok, data, completion_code) =>
    if negb ok then
      if decide (completion_code = StallError) then mret (Some 0) else mret None
    else mret (Some (default 0 (data !! 0%nat))).

(** The endpoints of the function, once it is configured. *)
Definition get_endpoints (configurationValue : Z) (function : FunctionDescriptor) : St (option EndpointsInfo) :=
  host (SetConfiguration configurationValue) ≫= fun ok =>
  if negb ok then mret None
  else
    configure_interfaces (fst <$> fn_interfaces function) (mkEndpoints 0 0) ≫= fun endpoints =>
    match endpoints with
    | None => mret None
    | Some e => if (bulkIn e =? 0) || (bulkOut e =? 0) then mret None else mret (Some e)
    end.

(** The I/O buffer: a frame and its mapping. *)
Definition get_buffer : St (option IOBufferInfo) :=
  host Allocate2MB ≫= fun phys_io_buffer =>
  match phys_io_buffer with
  | None => mret None
  | Some phys =>
      host (MapGeneralPages phys 1 buffer_flags) ≫= fun io_buffer =>
      match io_buffer with
      | None => host_ (Free2MB phys) ≫= fun _ => mret None
      | Some io => mret (Some (mkIOBuffer io phys))
      end
  end.

Definition drop_buffer (b : IOBufferInfo) : St unit :=
  host_ (UnmapGeneralPages (pointer b) 1) ≫= fun _ => host_ (Free2MB (physical_pointer b)).

Definition Create (configurationValue : Z) (function : FunctionDescriptor) : St (option (Driver D)) :=
  match fn_interfaces function with
  | [] => stop NullAccess
  | (first, _) :: _ =>
      get_max_lun (interfaceNumber first) ≫= fun max_lun =>
      match max_lun with
      | None => mret None
      | Some max_lun =>
          get_endpoints configurationValue function ≫= fun endpoints =>
          match endpoints with
          | None => mret None
          | Some endpoints =>
              get_buffer ≫= fun buffer =>
              match buffer with
              | None => mret None
              | Some buffer =>
                  host (Allocate (sizeof_pointer * (max_lun + 1))) ≫= fun array =>
                  match array with
                  | None => drop_buffer buffer ≫= fun _ => mret None
                  | Some array =>
                      host (Allocate sizeof_Driver) ≫= fun object =>
                      match object with
                      | None =>
                          drop_buffer buffer ≫= fun _ =>
                          host_ (Free array) ≫= fun _ => mret None
                      | Some object =>
                          create_drivers (functionSubClass function) (seqZ 0 (max_lun + 1)) ≫= fun drivers =>
                          let driver := mkDriver object (mkStorageInfo max_lun (Some array) drivers) endpoints buffer in
                          if has_driver drivers then mret (Some driver)
                          else
                            Release driver ≫= fun _ =>
                            host_ (Free object) ≫= fun _ => mret None
                      end
                  end
              end
          end
      end
  end.

(** [MassStorage::Driver::Create] *)
Definition MassStorage_Create (configurationValue : Z) (function : FunctionDescriptor) : St (option (Driver D)) :=
  if functionProtocol function =? BBB_PROTOCOL then Create configurationValue function else mret None.

(** ** Initialisation *)

Fixpoint init_drivers (l : list (option (StorageDriver D))) : St (bool * list (option (StorageDriver D))) :=
  match l with
  | [] => mret (true, [])
  | None :: l => init_drivers l ≫= fun '(ok, l) => mret (ok, None :: l)
  | Some s :: l =>
      post_initialization s ≫= fun '(ok, dev) =>
      let s := mkStorage (storage_object s) (storage_lun s) dev in
      if negb ok then mret (false, Some s :: l)
      else init_drivers l ≫= fun '(ok, l) => mret (ok, Some s :: l)
  end.

Definition PostInitialization (d : Driver D) : St (bool * Driver D) :=
  init_drivers (drivers (storage_info d)) ≫= fun '(ok, l) =>
  mret (ok, mkDriver (object d) (mkStorageInfo (max_lun (storage_info d)) (drivers_array (storage_info d)) l) (endpoints_info d) (io_buffer d)).
End Driver.
