(* ===== verification/BulkDriverProps.v ===== *)
(** * The USB mass storage driver: what it acquires and gives back

    A ledger of frames, mappings and heap blocks: creation takes exactly what
    the driver keeps, and nothing when it fails; release gives all of it back,
    unless a logical unit never got its block device. *)
From stdpp Require Import gmap.
From S2P Require Import XhciContext UsbDescriptors Trb Prelude BulkDriver.

Inductive resource := Frame (phys : Z) | Mapping (io phys : Z) | Block (address : Z).

Class HostLaws (X : Type) `{UsbHost X} := {
  held : X -> list resource;
  request_held : forall a b c d e x, held (SendRequest a b c d e x).2 = held x;
  configuration_held : forall v x, held (SetConfiguration v x).2 = held x;
  endpoint_held : forall e x, held (ConfigureEndpoint e x).2 = held x;
  frame_held : forall x, match Allocate2MB x with
    | (None, x') => held x' ≡ₚ held x
    | (Some p, x') => held x' ≡ₚ Frame p :: held x
    end;
  frame_freed : forall p x L, held x ≡ₚ Frame p :: L -> held (Free2MB p x) ≡ₚ L;
  mapping_held : forall p f x, match MapGeneralPages p 1 f x with
    | (None, x') => held x' ≡ₚ held x
    | (Some io, x') => io <> 0 /\ held x' ≡ₚ Mapping io p :: held x
    end;
  mapping_translates : forall io p x, Mapping io p ∈ held x -> GetPhysicalAddress io x = Some p;
  mapping_dropped : forall io p x L, held x ≡ₚ Mapping io p :: L -> held (UnmapGeneralPages io 1 x) ≡ₚ L;
  block_held : forall n x, match Allocate n x with
    | (None, x') => held x' ≡ₚ held x
    | (Some a, x') => held x' ≡ₚ Block a :: held x
    end;
  block_freed : forall a x L, held x ≡ₚ Block a :: L -> held (Free a x) ≡ₚ L }.

(** ** Triples on the ledger *)

Section Triples.
Context {X : Type} `{HostLaws X}.

(** From a state that holds [L], the computation ends, and its result and what
    is held then are as [Q] says. *)
Definition accounts {A} (L : list resource) (m : io X A) (Q : A -> list resource -> Prop) : Prop :=
  forall x, held x ≡ₚ L -> exists a x' L', m x = inr (a, x') /\ held x' ≡ₚ L' /\ Q a L'.

Lemma accounts_ret {A} L (a : A) (Q : A -> list resource -> Prop) : Q a L -> accounts L (mret a) Q.
Proof. intros Hq x Hx. by exists a, x, L. Qed.

Lemma accounts_bind {A B} L (m : io X A) (f : A -> io X B) R Q :
  accounts L m R -> (forall a L', R a L' -> accounts L' (f a) Q) -> accounts L (m ≫= f) Q.
Proof.
  intros Hm Hf x Hx. destruct (Hm x Hx) as (a & x1 & L1 & E & H1 & Hr). destruct (Hf a L1 Hr x1 H1) as (b & x2 & L2 & E2 & H2 & Hq).
  exists b, x2, L2. split; [|done]. unfold mbind, io_bind. by rewrite E.
Qed.

Lemma accounts_post {A} L (m : io X A) (Q R : A -> list resource -> Prop) :
  accounts L m R -> (forall a L', R a L' -> exists L'', L' ≡ₚ L'' /\ Q a L'') -> accounts L m Q.
Proof.
  intros Hm Hq x Hx. destruct (Hm x Hx) as (a & x1 & L1 & E & H1 & Hr). destruct (Hq a L1 Hr) as (L2 & Hp & Hq2).
  exists a, x1, L2. split; [done|]. split; [by rewrite H1|done].
Qed.

Lemma accounts_perm {A} L L' (m : io X A) Q : L ≡ₚ L' -> accounts L' m Q -> accounts L m Q.
Proof. intros Hp Hm x Hx. apply Hm. by rewrite Hx. Qed.

(** An operation of the host. *)
Lemma accounts_host {A} L (f : X -> A * X) (Q : A -> list resource -> Prop) :
  (forall x, held x ≡ₚ L -> exists L', held (f x).2 ≡ₚ L' /\ Q (f x).1 L') -> accounts L (host f) Q.
Proof.
  intros Hf x Hx. destruct (Hf x Hx) as (L' & H1 & Hq). destruct (f x) as [a x'] eqn:E. exists a, x', L'.
  split; [unfold host; by rewrite E|done].
Qed.

Lemma accounts_same {A} L (f : X -> A * X) (Q : A -> list resource -> Prop) :
  (forall x, held (f x).2 = held x) -> (forall a, Q a L) -> accounts L (host f) Q.
Proof. intros Hf Hq. apply accounts_host. intros x Hx. exists L. by rewrite Hf. Qed.

Lemma accounts_host_ L (f : X -> X) (Q : unit -> list resource -> Prop) L' :
  (forall x, held x ≡ₚ L -> held (f x) ≡ₚ L') -> Q tt L' -> accounts L (host_ f) Q.
Proof. intros Hf Hq x Hx. exists tt, (f x), L'. split; [done|]. split; [by apply Hf|done]. Qed.

Lemma accounts_free a L (Q : unit -> list resource -> Prop) : Q tt L -> accounts (Block a :: L) (host_ (Free a)) Q.
Proof. intros Hq. apply (accounts_host_ _ _ _ L); [|done]. intros x Hx. by apply block_freed. Qed.

Lemma accounts_allocate n L (Q : option Z -> list resource -> Prop) :
  Q None L -> (forall a, Q (Some a) (Block a :: L)) -> accounts L (host (Allocate n)) Q.
Proof.
  intros Hnone Hsome. apply accounts_host. intros x Hx. pose proof (block_held n x) as Hb. destruct (Allocate n x) as [[a|] x']; cbn in *;
    (eexists; split; [rewrite Hb, Hx; reflexivity|first [exact Hnone|apply Hsome]]).
Qed.

(** ** The I/O buffer *)

Definition buffer_resources (b : IOBufferInfo) : list resource := [Mapping (pointer b) (physical_pointer b); Frame (physical_pointer b)].

Lemma drop_buffer_accounts b L (Q : unit -> list resource -> Prop) : Q tt L -> accounts (buffer_resources b ++ L) (drop_buffer b) Q.
Proof.
  intros Hq. unfold drop_buffer. eapply accounts_bind.
  - apply (accounts_host_ _ _ (fun _ L' => L' = Frame (physical_pointer b) :: L) (Frame (physical_pointer b) :: L)); [|done]. intros x Hx. by apply (mapping_dropped _ (physical_pointer b)).
  - intros [] ? ->. apply (accounts_host_ _ _ _ L); [|done]. intros x Hx. by apply frame_freed.
Qed.

Lemma get_buffer_accounts L :
  accounts L get_buffer (fun r L' => match r with None => L' = L | Some b => pointer b <> 0 /\ L' = buffer_resources b ++ L end).
Proof.
  unfold get_buffer. eapply accounts_bind.
  - apply (accounts_host _ _ (fun r L' => match r with None => L' = L | Some p => L' = Frame p :: L end)). intros x Hx.
    pose proof (frame_held x) as Hf. destruct (Allocate2MB x) as [[p|] x']; cbn in *; eexists; (split; [rewrite Hf, Hx; reflexivity|reflexivity]).
  - intros [p|] ? ->; [|by apply accounts_ret]. eapply accounts_bind.
    + apply (accounts_host _ _ (fun r L' => match r with None => L' = Frame p :: L | Some io => io <> 0 /\ L' = Mapping io p :: Frame p :: L end)).
      intros x Hx. pose proof (mapping_held p buffer_flags x) as Hm. destruct (MapGeneralPages p 1 buffer_flags x) as [[io|] x']; cbn in *.
      * destruct Hm as [Hio Hm]. eexists. split; [rewrite Hm, Hx; reflexivity|done].
      * eexists. split; [rewrite Hm, Hx; reflexivity|done].
    + intros [io|] L'; [intros [Hio ->]; by apply accounts_ret|intros ->]. eapply accounts_bind.
      * apply (accounts_host_ _ _ (fun _ L' => L' = L) L); [|done]. intros x Hx. by apply frame_freed.
      * intros [] ? ->. by apply accounts_ret.
Qed.

(** ** Requests and endpoints *)

Lemma get_max_lun_accounts n L : accounts L (get_max_lun n) (fun _ L' => L' = L).
Proof.
  unfold get_max_lun. eapply accounts_bind; [apply (accounts_same _ _ (fun _ L' => L' = L)); [apply request_held|done]|].
  intros [[[] data] code] ? ->; cbn; [|by apply accounts_ret].
  eapply accounts_bind; [apply (accounts_same _ _ (fun _ L' => L' = L)); [apply request_held|done]|].
  intros [[[] data'] code'] ? ->; cbn; [by apply accounts_ret|]. case_decide; by apply accounts_ret.
Qed.

(** What the endpoints found so far are. *)
Definition found_in (l : list EndpointDescriptor) (f : EndpointsInfo) : Prop :=
  (bulkIn f = 0 \/ exists e, e ∈ l /\ endpointType e = BulkIn /\ endpointAddress e = bulkIn f) /\
  (bulkOut f = 0 \/ exists e, e ∈ l /\ endpointType e = BulkOut /\ endpointAddress e = bulkOut f).

Lemma note_endpoint_found l e f : found_in l f -> found_in (l ++ [e]) (note_endpoint e f).
Proof.
  intros [Hi Ho].
  assert (Hi' : bulkIn f = 0 \/ exists e0, e0 ∈ l ++ [e] /\ endpointType e0 = BulkIn /\ endpointAddress e0 = bulkIn f)
    by (destruct Hi as [|(e0 & ? & ?)]; [by left|right; exists e0; rewrite elem_of_app; eauto]).
  assert (Ho' : bulkOut f = 0 \/ exists e0, e0 ∈ l ++ [e] /\ endpointType e0 = BulkOut /\ endpointAddress e0 = bulkOut f)
    by (destruct Ho as [|(e0 & ? & ?)]; [by left|right; exists e0; rewrite elem_of_app; eauto]).
  assert (He : e ∈ l ++ [e]) by (rewrite elem_of_app; right; by apply list_elem_of_singleton).
  unfold note_endpoint. repeat case_decide; repeat case_match; try done; split; cbn; eauto.
Qed.

Lemma configure_endpoints_accounts l : forall prev f L, found_in prev f ->
  accounts L (configure_endpoints l f) (fun r L' => L' = L /\ match r with None => True | Some f => found_in (prev ++ l) f end).
Proof.
  induction l as [|e l IH]; intros prev f L Hf; cbn [configure_endpoints].
  - apply accounts_ret. by rewrite app_nil_r.
  - eapply accounts_bind; [apply (accounts_same _ _ (fun _ L' => L' = L)); [apply endpoint_held|done]|].
    intros [] ? ->; cbn; [|by apply accounts_ret].
    replace (prev ++ e :: l) with ((prev ++ [e]) ++ l) by by rewrite <- app_assoc. by apply IH, note_endpoint_found.
Qed.

(** The endpoints of all interfaces. *)
Definition all_endpoints (l : list InterfaceDescriptor) : list EndpointDescriptor :=
  concat ((fun i => default [] (interface_endpoints i)) <$> l).

Lemma configure_interfaces_accounts l : forall prev f L, Forall (fun i => is_Some (interface_endpoints i)) l -> found_in prev f ->
  accounts L (configure_interfaces l f) (fun r L' => L' = L /\ match r with None => True | Some f => found_in (prev ++ all_endpoints l) f end).
Proof.
  induction l as [|i l IH]; intros prev f L Hl Hf; cbn [configure_interfaces].
  - apply accounts_ret. unfold all_endpoints. cbn. by rewrite app_nil_r.
  - inversion Hl as [|? ? [es Ees] Hl']; subst. rewrite Ees. cbn [or_stop].
    eapply accounts_bind; [by apply (accounts_ret _ es (fun a L' => a = es /\ L' = L))|]. intros ? ? [-> ->].
    eapply accounts_bind; [by apply configure_endpoints_accounts|]. intros [f'|] ? [-> Hf']; [|by apply accounts_ret].
    unfold all_endpoints. cbn [fmap list_fmap concat]. rewrite Ees. cbn [default from_option id]. rewrite app_assoc. by apply IH.
Qed.

(** Every interface of a function has the endpoints it counts. *)
Definition function_ok (f : FunctionDescriptor) : Prop :=
  fn_interfaces f <> [] /\ Forall (fun i => is_Some (interface_endpoints i)) (fst <$> fn_interfaces f).

Definition endpoints_ok (f : FunctionDescriptor) (e : EndpointsInfo) : Prop :=
  bulkIn e <> 0 /\ bulkOut e <> 0 /\ found_in (all_endpoints (fst <$> fn_interfaces f)) e.

Lemma get_endpoints_accounts v f L : function_ok f ->
  accounts L (get_endpoints v f) (fun r L' => L' = L /\ match r with None => True | Some e => endpoints_ok f e end).
Proof.
  intros [_ Hf]. unfold get_endpoints. eapply accounts_bind; [apply (accounts_same _ _ (fun _ L' => L' = L)); [apply configuration_held|done]|].
  intros [] ? ->; cbn; [|by apply accounts_ret].
  eapply accounts_bind; [apply (configure_interfaces_accounts _ [] _ L Hf); split; by left|].
  intros [e|] ? [-> He]; [|by apply accounts_ret]. destruct (Z.eqb_spec (bulkIn e) 0), (Z.eqb_spec (bulkOut e) 0); apply accounts_ret; done.
Qed.
End Triples.

(** ** Drivers *)

Section Drivers.
Context {X D : Type} `{HostLaws X}.
Context (sizeof_Driver sizeof_Storage : Z) (post_initialization : StorageDriver D -> io X (bool * option D)) (destroy_device : D -> io X unit).
Context (device_resources : D -> list resource).
Context (destroy_accounts : forall d L (Q : unit -> list resource -> Prop), Q tt L -> accounts (device_resources d ++ L) (destroy_device d) Q).

Definition storage_resources (s : StorageDriver D) : list resource :=
  Block (storage_object s) :: match device s with None => [] | Some d => device_resources d end.
Definition drivers_resources (l : list (option (StorageDriver D))) : list resource :=
  concat ((fun s => match s with None => [] | Some s => storage_resources s end) <$> l).

(** What the driver of a device holds, but its own block. *)
Definition inner_resources (d : Driver D) : list resource :=
  drivers_resources (drivers (storage_info d)) ++ (Block <$> option_list (drivers_array (storage_info d))) ++ buffer_resources (io_buffer d).

Lemma create_drivers_accounts sub luns L :
  accounts L (create_drivers sizeof_Storage sub luns) (fun l L' => L' ≡ₚ drivers_resources l ++ L /\ length l = length luns /\
    Forall (fun s => forall d, s = Some d -> device d = None) l /\ (sub <> TRANSPARENT_SCSI_USB_SUBCLASS -> has_driver l = false)).
Proof.
  induction luns as [|lun luns IH] in L |- *; cbn [create_drivers].
  - apply accounts_ret. by split_and!.
  - eapply accounts_bind with (R := fun s L' => L' = (match s with None => [] | Some s => storage_resources s end) ++ L /\
      (forall d, s = Some d -> device d = None) /\ (sub <> TRANSPARENT_SCSI_USB_SUBCLASS -> s = None)).
    { destruct (Z.eqb_spec sub TRANSPARENT_SCSI_USB_SUBCLASS) as [->|].
      - eapply accounts_bind; [apply (accounts_allocate _ _ (fun r L' => L' = (Block <$> option_list r) ++ L)); done|].
        intros [a|] ? ->; apply accounts_ret; cbn; split_and!; try done; by intros d [= <-].
      - by apply accounts_ret. }
    intros s ? (-> & Hs & Hsub). eapply accounts_bind; [apply IH|]. intros l L' (HL & Hlen & Hl & Hnone).
    apply accounts_ret. split_and!.
    + rewrite HL. unfold drivers_resources. cbn [fmap list_fmap concat]. rewrite app_assoc. apply Permutation_app_tail. apply Permutation_app_comm.
    + cbn. by rewrite Hlen.
    + by constructor.
    + intros Hne. rewrite (Hsub Hne). cbn. by apply Hnone.
Qed.

Lemma destroy_drivers_accounts l L (Q : unit -> list resource -> Prop) :
  Forall (fun s => forall d, s = Some d -> is_Some (device d)) l -> Q tt L ->
  accounts (drivers_resources l ++ L) (destroy_drivers destroy_device l) Q.
Proof.
  intros Hl Hq. induction l as [|[s|] l IH]; cbn [destroy_drivers].
  - by apply accounts_ret.
  - inversion Hl as [|? ? Hs Hl']; subst. destruct (Hs s eq_refl) as [dev Edev]. unfold Storage_Destroy. rewrite Edev.
    apply (accounts_perm _ (device_resources dev ++ Block (storage_object s) :: drivers_resources l ++ L)).
    { unfold drivers_resources. cbn [fmap list_fmap concat]. unfold storage_resources at 1. rewrite Edev. cbn. solve_Permutation. }
    eapply accounts_bind with (R := fun _ L' => L' = drivers_resources l ++ L); [|intros [] ? ->; by apply IH].
    eapply accounts_bind; [by apply (destroy_accounts dev _ (fun _ L' => L' = Block (storage_object s) :: drivers_resources l ++ L))|].
    intros [] ? ->. by apply accounts_free.
  - inversion Hl; subst. by apply IH.
Qed.

Lemma Release_accounts d array L (Q : Driver D -> list resource -> Prop) :
  drivers_array (storage_info d) = Some array -> pointer (io_buffer d) <> 0 ->
  Forall (fun s => forall d, s = Some d -> is_Some (device d)) (drivers (storage_info d)) ->
  (forall d', object d' = object d -> Q d' L) -> accounts (inner_resources d ++ L) (Release destroy_device d) Q.
Proof.
  intros Ha Hp Hl Hq. unfold Release, inner_resources. rewrite Ha. cbn [option_list fmap list_fmap]. rewrite <- !app_assoc. cbn [app].
  set (d1 := mkDriver _ _ _ _).
  eapply accounts_bind with (R := fun d' L' => d' = d1 /\ L' = buffer_resources (io_buffer d) ++ L).
  - eapply accounts_bind with (R := fun _ L' => L' = Block array :: buffer_resources (io_buffer d) ++ L); [by apply destroy_drivers_accounts|].
    intros [] ? ->. eapply accounts_bind with (R := fun _ L' => L' = buffer_resources (io_buffer d) ++ L); [by apply accounts_free|].
    intros [] ? ->. by apply accounts_ret.
  - intros ? ? [-> ->]. change (io_buffer d1) with (io_buffer d). rewrite (proj2 (Z.eqb_neq _ 0) Hp). set (b := io_buffer d) in *.
    eapply accounts_bind with (R := fun r L' => r = Some (physical_pointer b) /\ L' = buffer_resources b ++ L).
    { apply accounts_host. intros x Hx. eexists. split; [exact Hx|]. split; [|reflexivity]. apply mapping_translates.
      cbn [snd]. rewrite Hx. left. }
    intros ? ? [-> ->]. eapply accounts_bind with (R := fun _ L' => L' = Frame (physical_pointer b) :: L).
    { apply (accounts_host_ _ _ (fun _ L' => L' = Frame (physical_pointer b) :: L) (Frame (physical_pointer b) :: L)); [|done].
      intros x Hx. by apply (mapping_dropped _ (physical_pointer b)). }
    intros [] ? ->. eapply accounts_bind with (R := fun _ L' => L' = L).
    { apply (accounts_host_ _ _ (fun _ L' => L' = L) L); [|done]. intros x Hx. by apply frame_freed. }
    intros [] ? ->. apply accounts_ret. by apply Hq.
Qed.

(** A driver fresh from [Create] for a function. *)
Definition created (f : FunctionDescriptor) (d : Driver D) : Prop :=
  endpoints_ok f (endpoints_info d) /\ pointer (io_buffer d) <> 0 /\ is_Some (drivers_array (storage_info d)) /\
  Z.of_nat (length (drivers (storage_info d))) = Z.max 0 (max_lun (storage_info d) + 1) /\
  has_driver (drivers (storage_info d)) = true /\ functionSubClass f = TRANSPARENT_SCSI_USB_SUBCLASS /\
  Forall (fun s => forall d, s = Some d -> device d = None) (drivers (storage_info d)).

(** A driver none of whose units has a storage driver. *)
Lemma no_drivers l : has_driver l = false -> drivers_resources l = [] /\ Forall (fun s => forall d : StorageDriver D, s = Some d -> is_Some (device d)) l.
Proof.
  induction l as [|[s|] l IH]; intros Hl; cbn in Hl; [done|done|]. destruct (IH Hl) as [E Hf]. split; [exact E|]. by constructor.
Qed.

Lemma Create_accounts v f L : function_ok f ->
  accounts L (Create sizeof_Driver sizeof_Storage destroy_device v f) (fun r L' =>
    match r with
    | None => L' ≡ₚ L
    | Some d => L' ≡ₚ Block (object d) :: inner_resources d ++ L /\ created f d
    end).
Proof.
  intros Hf. unfold Create. destruct (fn_interfaces f) as [|[first alternates] rest] eqn:Ef; [by destruct (proj1 Hf)|].
  eapply accounts_bind; [apply get_max_lun_accounts|]. intros [ml|] ? ->; [|by apply accounts_ret].
  eapply accounts_bind; [by apply get_endpoints_accounts|]. intros [e|] ? [-> He]; [|by apply accounts_ret].
  eapply accounts_bind; [apply get_buffer_accounts|]. intros [b|] L1; [intros [Hb ->]|intros ->; by apply accounts_ret].
  eapply accounts_bind; [apply (accounts_allocate _ _ (fun r L' => L' = (Block <$> option_list r) ++ buffer_resources b ++ L)); done|].
  intros [array|] ? ->; cbn [option_list fmap list_fmap].
  2:{ eapply accounts_bind with (R := fun _ L' => L' = L); [by apply drop_buffer_accounts|]. intros [] ? ->. by apply accounts_ret. }
  eapply accounts_bind; [apply (accounts_allocate _ _ (fun r L' => L' = (Block <$> option_list r) ++ [Block array] ++ buffer_resources b ++ L)); done|].
  intros [obj|] ? ->; cbn [option_list fmap list_fmap].
  2:{ apply (accounts_perm _ (buffer_resources b ++ Block array :: L)); [cbn; solve_Permutation|].
      eapply accounts_bind with (R := fun _ L' => L' = Block array :: L); [by apply drop_buffer_accounts|]. intros [] ? ->.
      eapply accounts_bind with (R := fun _ L' => L' = L); [by apply accounts_free|]. intros [] ? ->. by apply accounts_ret. }
  eapply accounts_bind; [apply create_drivers_accounts|]. intros l L' (HL & Hlen & Hl & Hsub). cbv zeta.
  set (d := mkDriver obj (mkStorageInfo ml (Some array) l) e b).
  assert (Hinner : L' ≡ₚ inner_resources d ++ Block obj :: L).
  { rewrite HL. unfold inner_resources. cbn. solve_Permutation. }
  destruct (has_driver l) eqn:Ehas.
  - apply accounts_ret. split; [rewrite Hinner; cbn; solve_Permutation|]. unfold created. split_and!; try done.
    + cbn. rewrite Hlen, length_seqZ. lia.
    + destruct (decide (functionSubClass f = TRANSPARENT_SCSI_USB_SUBCLASS)) as [|Hne]; [done|]. by specialize (Hsub Hne).
  - destruct (no_drivers l Ehas) as [_ Hdev]. apply (accounts_perm _ _ _ _ Hinner).
    eapply accounts_bind; [apply (Release_accounts d array (Block obj :: L) (fun _ L' => L' = Block obj :: L)); done|].
    intros ? ? ->. eapply accounts_bind with (R := fun _ L' => L' = L); [by apply accounts_free|]. intros [] ? ->. by apply accounts_ret.
Qed.


(** Releasing a driver whose storage drivers all have their device gives
    back all it holds but its own block; one whose initialisation failed for
    its first unit follows a null pointer instead. *)
Theorem Release_gives_back (d : Driver D) array L x :
  drivers_array (storage_info d) = Some array -> pointer (io_buffer d) <> 0 -> held x ≡ₚ inner_resources d ++ L ->
  (Forall (fun s => forall d, s = Some d -> is_Some (device d)) (drivers (storage_info d)) ->
   exists d' x', Release destroy_device d x = inr (d', x') /\ held x' ≡ₚ L) /\
  (forall s l x1, drivers (storage_info d) = Some s :: l -> post_initialization s x = inr ((false, None), x1) ->
   exists d1, PostInitialization post_initialization d x = inr ((false, d1), x1) /\ forall x2, Release destroy_device d1 x2 = inl NullAccess).
Proof.
  intros Ha Hp Hx. split.
  - intros Hl. destruct (Release_accounts d array L (fun _ L' => L' = L) Ha Hp Hl (fun _ _ => eq_refl) x Hx) as (d' & x' & ? & E & Hx' & ->).
    by exists d', x'.
  - intros s l x1 El Epost. unfold PostInitialization. rewrite El. cbn [init_drivers]. unfold mbind, io_bind. rewrite Epost. cbn [negb].
    eexists. split; [reflexivity|]. intros x2. unfold Release. cbn [storage_info drivers_array drivers]. rewrite Ha. cbn [destroy_drivers]. reflexivity.
Qed.
End Drivers.

(** ** A host with a ledger *)

Record Kernel := mkKernel { next : Z; frames : list Z; maps : gmap Z Z; blocks_held : list Z }.

Fixpoint remove_first (a : Z) (l : list Z) : list Z :=
  match l with [] => [] | b :: l => if a =? b then l else b :: remove_first a l end.

Lemma remove_first_perm a l : a ∈ l -> l ≡ₚ a :: remove_first a l.
Proof.
  induction l as [|b l IH]; [by intros ?%not_elem_of_nil|]. cbn. destruct (Z.eqb_spec a b) as [->|Hne]; [done|].
  intros [->|Hl]%elem_of_cons; [done|]. rewrite (IH Hl) at 1. apply Permutation_swap.
Qed.

(** Memory is handed out by a counter; a frame is mapped 2^32 above itself. *)
#[global] Instance kernel_host : UsbHost Kernel := {|
  SendRequest type request value index length x := ((true, [1], Success), x);
  SetConfiguration v x := (true, x);
  ConfigureEndpoint e x := (true, x);
  Allocate2MB x := (Some (next x), mkKernel (next x + 1) (next x :: frames x) (maps x) (blocks_held x));
  Free2MB p x := mkKernel (next x) (remove_first p (frames x)) (maps x) (blocks_held x);
  MapGeneralPages p n f x :=
    let io := p + 2 ^ 32 in
    match maps x !! io with
    | Some _ => (None, x)
    | None => if io =? 0 then (None, x) else (Some io, mkKernel (next x) (frames x) (<[io := p]> (maps x)) (blocks_held x))
    end;
  UnmapGeneralPages io n x := mkKernel (next x) (frames x) (delete io (maps x)) (blocks_held x);
  GetPhysicalAddress io x := maps x !! io;
  Allocate n x := (Some (next x), mkKernel (next x + 1) (frames x) (maps x) (next x :: blocks_held x));
  Free a x := mkKernel (next x) (frames x) (maps x) (remove_first a (blocks_held x)) |}.

Definition ledger (x : Kernel) : list resource :=
  (Block <$> blocks_held x) ++ (Frame <$> frames x) ++ ((fun p => Mapping p.1 p.2) <$> map_to_list (maps x)).

Lemma in_ledger x : (forall a, Block a ∈ ledger x <-> a ∈ blocks_held x) /\ (forall p, Frame p ∈ ledger x <-> p ∈ frames x) /\
  (forall io p, Mapping io p ∈ ledger x <-> maps x !! io = Some p).
Proof.
  unfold ledger. setoid_rewrite elem_of_app. setoid_rewrite elem_of_app. setoid_rewrite list_elem_of_fmap. split_and!.
  - intros a. split; [|naive_solver]. intros [(b & [= ->] & ?)|[(b & [=] & _)|(b & [=] & _)]]. done.
  - intros p. split; [|naive_solver]. intros [(b & [=] & _)|[(b & [= ->] & ?)|(b & [=] & _)]]. done.
  - intros io p. split.
    + intros [(b & [=] & _)|[(b & [=] & _)|([i q] & [= -> ->] & Hin)]]. by apply elem_of_map_to_list in Hin.
    + intros Hio. right. right. exists (io, p). split; [done|]. by apply elem_of_map_to_list.
Qed.

(** Dropping the first resource of a permutation. *)
Lemma drop_resource r (l l' L : list resource) : l ≡ₚ r :: l' -> l ≡ₚ r :: L -> l' ≡ₚ L.
Proof. intros H1 H2. apply (Permutation_cons_inv (a := r)). by rewrite <- H1. Qed.

#[global] Program Instance kernel_laws : HostLaws Kernel := {| held := ledger |}.
Next Obligation. done. Qed.
Next Obligation. done. Qed.
Next Obligation. done. Qed.
Next Obligation. intros x. unfold ledger. cbn. solve_Permutation. Qed.
Next Obligation.
  intros p x L Hx. apply (drop_resource (Frame p) (ledger x)); [|done].
  assert (Hin : p ∈ frames x) by (apply (in_ledger x); rewrite Hx; left).
  unfold ledger. cbn. rewrite (remove_first_perm _ _ Hin) at 1. cbn. solve_Permutation.
Qed.
Next Obligation.
  intros p f x. cbn. destruct (maps x !! (p + 2 ^ 32)) eqn:E; [done|]. destruct (Z.eqb_spec (p + 2 ^ 32) 0); [done|]. split; [done|].
  unfold ledger. cbn. rewrite map_to_list_insert by done. cbn. solve_Permutation.
Qed.
Next Obligation. intros io p x Hin. by apply (in_ledger x). Qed.
Next Obligation.
  intros io p x L Hx. apply (drop_resource (Mapping io p) (ledger x)); [|done].
  assert (Hin : maps x !! io = Some p) by (apply (in_ledger x); rewrite Hx; left).
  unfold ledger. cbn. rewrite <- (map_to_list_delete (maps x) io p Hin). cbn. solve_Permutation.
Qed.
Next Obligation. intros n x. unfold ledger. cbn. solve_Permutation. Qed.
Next Obligation.
  intros a x L Hx. apply (drop_resource (Block a) (ledger x)); [|done].
  assert (Hin : a ∈ blocks_held x) by (apply (in_ledger x); rewrite Hx; left).
  unfold ledger. cbn. rewrite (remove_first_perm _ _ Hin) at 1. cbn. solve_Permutation.
Qed.

(** A function with one interface and two logical units. *)
Definition bulk_endpoints : list EndpointDescriptor :=
  [mkEndpoint 1 BulkIn EC_zero 512 0 ss_zero; mkEndpoint 2 BulkOut EC_zero 512 0 ss_zero].
Definition disk_function : FunctionDescriptor :=
  mkFunction None 8 TRANSPARENT_SCSI_USB_SUBCLASS BBB_PROTOCOL 0 1 [(mkInterface None 0 0 2 0 (Some (0%nat, bulk_endpoints)) [], [])].
Definition boot_kernel : Kernel := mkKernel 1 [] ∅ [].

Definition drop_device (d : unit) : io Kernel unit := mret tt.
Definition no_resources (d : unit) : list resource := [].

Lemma drop_device_accounts d L (Q : unit -> list resource -> Prop) : Q tt L -> accounts (no_resources d ++ L) (drop_device d) Q.
Proof. apply accounts_ret. Qed.


(** A driver with one unit, which has a device or not. *)
Definition one_unit (device : option unit) : Driver unit :=
  mkDriver 4 (mkStorageInfo 0 (Some 3) [Some (mkStorage 5 0 device)]) (mkEndpoints 1 2) (mkIOBuffer (1 + 2 ^ 32) 1).
Definition unit_kernel : Kernel := mkKernel 6 [1] {[1 + 2 ^ 32 := 1]} [5; 4; 3].

Lemma Release_gives_back_witness :
  (exists d' x', Release drop_device (one_unit (Some tt)) unit_kernel = inr (d', x') /\ held x' = [Block 4]) /\
  (forall x2, Release drop_device (one_unit None) x2 = inl NullAccess).
Proof.
  set (fails := fun (s : StorageDriver unit) (x : Kernel) => inr ((false, @None unit), x) : fault + (bool * option unit * Kernel)).
  assert (H1 : held unit_kernel ≡ₚ inner_resources no_resources (one_unit (Some tt)) ++ [Block 4]) by (cbn; vm_compute; solve_Permutation).
  split.
  - destruct (Release_gives_back fails drop_device no_resources drop_device_accounts (one_unit (Some tt)) 3 [Block 4] unit_kernel) as [Hr _];
      [reflexivity|discriminate|exact H1|].
    destruct Hr as (d' & x' & E & Hx').
    { constructor; [|constructor]. intros d [= <-]. by eexists. }
    exists d', x'. split; [exact E|]. apply Permutation_singleton_r. exact Hx'.
  - assert (H2 : held (mkKernel 6 [1] {[1 + 2 ^ 32 := 1]} [5; 4; 3]) ≡ₚ inner_resources no_resources (one_unit None) ++ [Block 4]) by (vm_compute; solve_Permutation).
    destruct (Release_gives_back fails drop_device no_resources drop_device_accounts (one_unit None) 3 [Block 4] unit_kernel) as [_ Hr];
      [reflexivity|discriminate|exact H2|].
    destruct (Hr _ [] unit_kernel eq_refl eq_refl) as (d1 & E & Hn). vm_compute in E. injection E as <-. exact Hn.
Defined.
