(* ===== verification/XhciController.v ===== *)
(** * The xHCI controller
    ([kernel/src/devices/USB/xHCI/Controller.cpp],
    [kernel/include/devices/USB/xHCI/Controller.hpp])

    The controller object: its registers, reached through their addresses, its
    command and event rings in shared memory, its table of devices, its ports.
    What the controller asks of the rest of the kernel, and the hardware behind
    the registers, are the class [ControllerHost]; what it asks of a device is
    the class [SlotDevice]. A task that waits is interrupted: the wait runs the
    interrupt handler after each step of the hardware. *)
From S2P Require Import Packed Trb XhciContext TransferRing Prelude.

(** ** Interfaces *)

Class ControllerHost (X : Type) := {
  (** registers *)
  read8 : Z -> X -> Z * X;
  read32 : Z -> X -> Z * X;
  write32 : Z -> Z -> X -> X;
  write64 : Z -> Z -> X -> X;
  (** the PCI function: a mapping is an address, null when it failed *)
  DisableMMIO : X -> X;
  EnableMMIO : X -> X;
  MapMemoryXBAR : Z -> Z -> X -> Z * X;
  UnmapMemoryXBAR : Z -> Z -> X -> X;
  EnableBusMaster : X -> X;
  DisableBusMaster : X -> X;
  GetMSI : X -> option Z * X;
  ConfigureMSI : Z -> Z -> Z -> Z -> X -> X;
  MSI_Enable : Z -> X -> X;
  (** interrupts *)
  ReserveInterrupt : X -> Z * X;
  ReleaseInterrupt : Z -> X -> X;
  RegisterIRQ : Z -> X -> X;
  SendEOI : X -> X;
  GetLAPICLogicalID : X -> Z * X;
  (** memory *)
  PhysicalMemory_Allocate : X -> Z * X;
  PhysicalMemory_Free : Z -> X -> X;
  MapGeneralPages : Z -> Z -> Z -> X -> Z * X;
  UnmapGeneralPages : Z -> Z -> X -> X;
  ChangeMappingFlags : Z -> Z -> Z -> X -> X;
  (** tasks and time *)
  GetCountMillis : X -> Z * X;
  SpinWaitMillis : Z -> X -> X;
  CreateUpdaterTask : X -> option Z * X;
  AddTask : Z -> X -> Z * X;
  BlockTask : Z -> X -> X;
  UnblockTask : Z -> X -> X;
  (** the hardware: how many interrupts a wait takes before its last look, and
      what it does before each *)
  interrupts_within : Z -> X -> nat * X;
  hardware : X -> X }.

(** An element of the array of devices: the array is not initialised. *)
Inductive device_pointer (D : Type) :=
| Garbage
| Null
| Pointer (object : Z) (d : D).
Arguments Garbage {D}.
Arguments Null {D}.
Arguments Pointer {D}.

(** [Port] *)
Record Port := mkPort { major : Z; port_slot : Z; slot_type : Z; dirty : bool }.

Definition set_dirty (b : bool) (p : Port) : Port := mkPort (major p) (port_slot p) (slot_type p) b.
Definition set_slot (s : Z) (p : Port) : Port := mkPort (major p) s (slot_type p) (dirty p).

(** The controller's fields, in groups. A null pointer is 0, or [None] where the
    model keeps the contents of the array with the pointer. *)
Record Registers := mkRegisters { MMIO_base : Z; capability : Z; opregs : Z; primary_rtregs : Z; doorbell_regs : Z }.
Record Slots (D : Type) := mkSlots { max_slots_enabled : Z; dcbaa : Z; devices : option (Z * list (device_pointer D)) }.
Arguments mkSlots {D}.
Arguments max_slots_enabled {D}.
Arguments dcbaa {D}.
Arguments devices {D}.
Record Commands := mkCommands {
  command_ring : Z; command_completion : TRB; command_index : Z; command_cycle : bool; command_capacity : Z }.
Record Events := mkEvents {
  event_ring : Z; event_ring_segment_table : Z; event_index : Z; event_cycle : bool; event_capacity : Z }.
Record Scratchpad := mkScratchpad { scratchpad_buffer_array : Z; max_scratchpad_buffers : Z }.
Record Ports := mkPorts { ports : option (Z * list Port); port_update : bool; port_updater_task_id : Z }.

Record Controller (D : Type) := mkController {
  registers : Registers; slots : Slots D; commands : Commands; events : Events; scratchpad : Scratchpad;
  port_table : Ports; interrupt_vector : Z; context_size : Z }.
Arguments mkController {D}.
Arguments registers {D}.
Arguments slots {D}.
Arguments commands {D}.
Arguments events {D}.
Arguments scratchpad {D}.
Arguments port_table {D}.
Arguments interrupt_vector {D}.
Arguments context_size {D}.

(** The constructor: the initialisers of the fields. *)
Definition new_Controller {D} : Controller D :=
  mkController (mkRegisters 0 0 0 0 0) (mkSlots 0 0 None) (mkCommands 0 zero_trb 0 true 0) (mkEvents 0 0 0 true 0)
    (mkScratchpad 0 0) (mkPorts None false 0) (-1) 0.

Definition set_registers {D} (r : Registers) (c : Controller D) : Controller D :=
  mkController r (slots c) (commands c) (events c) (scratchpad c) (port_table c) (interrupt_vector c) (context_size c).
Definition set_slots {D} (s : Slots D) (c : Controller D) : Controller D :=
  mkController (registers c) s (commands c) (events c) (scratchpad c) (port_table c) (interrupt_vector c) (context_size c).
Definition set_commands {D} (k : Commands) (c : Controller D) : Controller D :=
  mkController (registers c) (slots c) k (events c) (scratchpad c) (port_table c) (interrupt_vector c) (context_size c).
Definition set_events {D} (e : Events) (c : Controller D) : Controller D :=
  mkController (registers c) (slots c) (commands c) e (scratchpad c) (port_table c) (interrupt_vector c) (context_size c).
Definition set_scratchpad {D} (s : Scratchpad) (c : Controller D) : Controller D :=
  mkController (registers c) (slots c) (commands c) (events c) s (port_table c) (interrupt_vector c) (context_size c).
Definition set_ports {D} (p : Ports) (c : Controller D) : Controller D :=
  mkController (registers c) (slots c) (commands c) (events c) (scratchpad c) p (interrupt_vector c) (context_size c).
Definition set_vector {D} (v : Z) (c : Controller D) : Controller D :=
  mkController (registers c) (slots c) (commands c) (events c) (scratchpad c) (port_table c) v (context_size c).
Definition set_context_size {D} (n : Z) (c : Controller D) : Controller D :=
  mkController (registers c) (slots c) (commands c) (events c) (scratchpad c) (port_table c) (interrupt_vector c) n.

(** What the controller calls on a device. [Device_Initialize] and
    [Device_PostInitialization] run on the device of a slot, in place. *)
Class SlotDevice (D X : Type) := {
  sizeof_Device : Z;
  new_Device : DeviceInformation -> D;
  SignalTransferComplete : TRB -> D -> Prelude.io X D;
  Device_Initialize : Z -> Prelude.io (Controller D * X) bool;
  Device_PostInitialization : Z -> Prelude.io (Controller D * X) bool;
  Device_Destroy : D -> Prelude.io (Controller D * X) D }.

(** ** Constants *)

Definition PAGE_SIZE : Z := 4096.
Definition RING_SIZE : Z := PAGE_SIZE.
Definition RTSOFF_MASK : Z := 0xFFFFFFE0.
Definition DBOFF_MASK : Z := 0xFFFFFFFC.
Definition USBCMD_RS_FLAG : Z := 0x1.
Definition USBCMD_HCRST_FLAG : Z := 0x2.
Definition USBCMD_INTE_FLAG : Z := 0x4.
Definition USBSTS_CNR_MASK : Z := 0x800.
Definition IMAN_IP_FLAG : Z := 0x1.
Definition IMAN_IE_FLAG : Z := 0x2.
Definition ERDP_EHB_FLAG : Z := 0x8.
(** [PTE_PRESENT | PTE_READWRITE | PTE_UNCACHEABLE] *)
Definition uncached_flags : Z := Z.lor 0x1 (Z.lor 0x2 (Z.lor 0x8 0x10)).

(** The offsets of the registers in [CapabilityRegisters],
    [OperationalRegisters] and the first [IRS] of [RuntimeRegisters]. *)
Definition CAPLENGTH : Z := 0x00.
Definition HCSPARAMS1 : Z := 0x04.
Definition HCSPARAMS2 : Z := 0x08.
Definition HCCPARAMS1 : Z := 0x10.
Definition DBOFF : Z := 0x14.
Definition RTSOFF : Z := 0x18.
Definition USBCMD : Z := 0x00.
Definition USBSTS : Z := 0x04.
Definition PAGESIZE : Z := 0x08.
Definition CRCR_LO : Z := 0x18.
Definition CRCR_HI : Z := 0x1C.
Definition DCBAAP_LO : Z := 0x30.
Definition DCBAAP_HI : Z := 0x34.
Definition CONFIG : Z := 0x38.
Definition IRS0 : Z := 0x20.
Definition IMAN : Z := 0x00.
Definition ERSTSZ : Z := 0x08.
Definition ERSTBA : Z := 0x10.
Definition ERDP : Z := 0x18.

(** The bits of a port's [PORTSC]. *)
Definition PORTSC_CCS : Z := 0x1.
Definition PORTSC_PED : Z := 0x2.
Definition PORTSC_PR : Z := 0x10.
Definition PORTSC_PP : Z := 0x200.
Definition PORTSC_CSC : Z := 0x20000.
Definition PORTSC_PRC : Z := 0x200000.

Section Controller.
Context {D X : Type} `{!KernelMemory X} `{!ControllerHost X} `{!SlotDevice D X}.
#[local] Abbreviation CM := (Prelude.io (Controller D * X)).

Definition get : CM (Controller D) := fun w => inr (fst w, w).
Definition modify (f : Controller D -> Controller D) : CM unit := fun w => inr (tt, (f (fst w), snd w)).
Definition host {A} (f : X -> A * X) : CM A := fun w => let '(a, x) := f (snd w) in inr (a, (fst w, x)).
Definition host_ (f : X -> X) : CM unit := fun w => inr (tt, (fst w, f (snd w))).
(** A computation of the rest of the kernel. *)
Definition kernel {A} (m : Prelude.io X A) : CM A := zoom snd (fun x w => (fst w, x)) m.
Definition memory_of : CM memory := host (fun x => (read_memory x, x)).
Definition store (f : memory -> memory) : CM unit := host_ (on_memory f).

(** [x |= v] and [x &= v] on a register. *)
Definition or_register (a v : Z) : CM unit := host (read32 a) ≫= fun r => host_ (write32 a (Z.lor r v)).
Definition and_register (a v : Z) : CM unit := host (read32 a) ≫= fun r => host_ (write32 a (Z.land r v)).

(** A 64-bit word of shared memory. *)
Definition store64 (a v : Z) : CM unit := store (fun m => wr (wr m a 0 (u32 v)) a 1 (u32 (Z.shiftr v 32))).
(** [memset] of whole pages to 0. *)
Definition zero_pages (a pages : Z) : CM unit := store (clear_words a 0 (Z.to_nat (pages * (PAGE_SIZE / 4)))).

(** ** Capabilities in the register space *)

Definition ExtendedCapability_GetDWord (this i : Z) : CM Z := host (read32 (this + 4 * i)).
Definition ExtendedCapability_GetByte (this i : Z) : CM Z :=
  ExtendedCapability_GetDWord this (i / 4) ≫= fun w => mret (Z.land (Z.shiftr w (8 * (i mod 4))) 0xFF).
Definition ExtendedCapability_GetID (this : Z) : CM Z := ExtendedCapability_GetByte this 0.
Definition GetNextPointer (this : Z) : CM Z := ExtendedCapability_GetByte this 1.
Definition GetMinorRevision (this : Z) : CM Z := ExtendedCapability_GetByte this 2.
Definition GetMajorRevision (this : Z) : CM Z := ExtendedCapability_GetByte this 3.
Definition GetNameString (this : Z) : CM Z := ExtendedCapability_GetDWord this 1.
Definition GetCompatiblePortOffset (this : Z) : CM Z := ExtendedCapability_GetByte this 8.
Definition GetCompatiblePortCount (this : Z) : CM Z := ExtendedCapability_GetByte this 9.
Definition GetProtocolDefined (this : Z) : CM Z :=
  ExtendedCapability_GetDWord this 2 ≫= fun w => mret (Z.land (Z.shiftr w 16) 0xFFF).
Definition GetSpeedIDCount (this : Z) : CM Z :=
  ExtendedCapability_GetByte this 0xB ≫= fun b => mret (Z.land (Z.shiftr b 4) 0xF).
Definition GetProtocolSlotType (this : Z) : CM Z := ExtendedCapability_GetByte this 0xC.

(** The walk along the next pointers. *)
Fixpoint find_capability (fuel : nat) (id current_offset : Z) : CM (option Z) :=
  match fuel with
  | O => stop Hang
  | S fuel =>
      get ≫= fun c =>
      let excap := MMIO_base (registers c) + current_offset in
      ExtendedCapability_GetID excap ≫= fun this_id =>
      if this_id =? id then mret (Some excap)
      else
        GetNextPointer excap ≫= fun next =>
        if next =? 0 then mret None
        else
          GetNextPointer excap ≫= fun next => find_capability fuel id (u32 (current_offset + next * 4))
  end.

Definition FindExtendedCapability (fuel : nat) (id : Z) : CM (option Z) :=
  get ≫= fun c =>
  host (read32 (capability (registers c) + HCCPARAMS1)) ≫= fun hccparams1 =>
  let xECP := Z.shiftr (Z.land hccparams1 0xFFFF0000) 16 in
  if xECP =? 0 then mret None else find_capability fuel id (xECP * 4).

Fixpoint find_next (fuel : nat) (id ptr current_offset : Z) : CM (option Z) :=
  match fuel with
  | O => stop Hang
  | S fuel =>
      GetNextPointer ptr ≫= fun next =>
      if next =? 0 then mret None
      else
        GetNextPointer ptr ≫= fun next =>
        get ≫= fun c =>
        let current_offset := u32 (current_offset + next * 4) in
        let ptr := MMIO_base (registers c) + current_offset in
        ExtendedCapability_GetID ptr ≫= fun this_id =>
        if this_id =? id then mret (Some ptr) else find_next fuel id ptr current_offset
  end.

Definition FindNextExtendedCapability (fuel : nat) (id : Z) (ptr : option Z) : CM (option Z) :=
  match ptr with
  | None => FindExtendedCapability fuel id
  | Some ptr => get ≫= fun c => find_next fuel id ptr (u32 (ptr - MMIO_base (registers c)))
  end.

Definition FindSupportedProtocolCapability (fuel : nat) : CM (option Z) := FindExtendedCapability fuel 2.

(** ** Host, interrupter and doorbells *)

Definition EnableHost : CM unit := get ≫= fun c => or_register (opregs (registers c) + USBCMD) USBCMD_RS_FLAG.
(** The mask is the flag itself. *)
Definition DisableHost : CM unit := get ≫= fun c => and_register (opregs (registers c) + USBCMD) USBCMD_RS_FLAG.
Definition EnableHostInterrupts : CM unit := get ≫= fun c => or_register (opregs (registers c) + USBCMD) USBCMD_INTE_FLAG.
Definition DisableHostInterrupts : CM unit :=
  get ≫= fun c => and_register (opregs (registers c) + USBCMD) (bnot 32 USBCMD_INTE_FLAG).

(** The wait of [ResetHost]: a deadline of the millisecond counter. *)
Fixpoint wait_ready (fuel : nat) (target : Z) : CM bool :=
  match fuel with
  | O => stop Hang
  | S fuel =>
      get ≫= fun c =>
      host (read32 (opregs (registers c) + USBSTS)) ≫= fun status =>
      if Z.land status USBSTS_CNR_MASK =? 0 then mret true
      else host GetCountMillis ≫= fun now => if target <? now then mret false else wait_ready fuel target
  end.

Definition max_timeout_ms : Z := 1000.

Definition ResetHost (fuel : nat) : CM bool :=
  get ≫= fun c =>
  or_register (opregs (registers c) + USBCMD) USBCMD_HCRST_FLAG ≫= fun _ =>
  host GetCountMillis ≫= fun now => wait_ready fuel (u64 (now + max_timeout_ms)).

Definition GetPrimaryInterrupter (r : Registers) : Z := primary_rtregs r + IRS0.

Definition EnablePrimaryInterrupter : CM unit :=
  get ≫= fun c => or_register (GetPrimaryInterrupter (registers c) + IMAN) (Z.lor IMAN_IP_FLAG IMAN_IE_FLAG).
Definition DisablePrimaryInterrupter : CM unit :=
  get ≫= fun c => and_register (GetPrimaryInterrupter (registers c) + IMAN) (bnot 32 (Z.lor IMAN_IP_FLAG IMAN_IE_FLAG)).

Definition GetContextSize : CM Z :=
  get ≫= fun c =>
  if context_size c =? 0 then
    host (read32 (capability (registers c) + HCCPARAMS1)) ≫= fun hccparams1 =>
    let n := if Z.land hccparams1 0x4 =? 0 then 32 else 64 in
    modify (set_context_size n) ≫= fun _ => mret n
  else mret (context_size c).
Definition HasExtendedContext : CM bool := GetContextSize ≫= fun n => mret (n =? 64).

Definition RingDoorbell (slot_id reason : Z) : CM bool :=
  if (reason =? 0) || negb (Z.land reason 0xFFFF00FF =? reason) then mret false
  else get ≫= fun c => host_ (write32 (doorbell_regs (registers c) + 4 * slot_id) reason) ≫= fun _ => mret true.

Definition SignalCommand : CM unit := get ≫= fun c => host_ (write32 (doorbell_regs (registers c)) 0).

(** ** The register space *)

Definition ConfigureMMIO : CM bool :=
  host_ DisableMMIO ≫= fun _ =>
  host (MapMemoryXBAR 0 uncached_flags) ≫= fun base =>
  get ≫= fun c =>
  let r := registers c in
  modify (set_registers (mkRegisters base (capability r) (opregs r) (primary_rtregs r) (doorbell_regs r))) ≫= fun _ =>
  if base =? 0 then mret false
  else
    host_ EnableMMIO ≫= fun _ =>
    host (read8 (base + CAPLENGTH)) ≫= fun caplength =>
    host (read32 (base + RTSOFF)) ≫= fun rtsoff =>
    host (read32 (base + DBOFF)) ≫= fun dboff =>
    modify (set_registers (mkRegisters base base (base + caplength) (base + Z.land rtsoff RTSOFF_MASK)
                             (base + Z.land dboff DBOFF_MASK))) ≫= fun _ => mret true.

Definition ReleaseMMIO : CM unit :=
  get ≫= fun c =>
  let r := registers c in
  if MMIO_base r =? 0 then mret tt
  else
    host_ (UnmapMemoryXBAR 0 (MMIO_base r)) ≫= fun _ =>
    modify (set_registers (mkRegisters 0 (capability r) (opregs r) (primary_rtregs r) (doorbell_regs r))).

(** ** Slots and the array of device contexts *)

Definition ConfigureMaxSlotsEnabled : CM unit :=
  get ≫= fun c =>
  let r := registers c in let s := slots c in
  host (read32 (capability r + HCSPARAMS1)) ≫= fun hcsparams1 =>
  let max_slots_available := Z.land hcsparams1 0xFF in
  host (read32 (opregs r + CONFIG)) ≫= fun config =>
  let enabled := Z.land config 0xFF in
  if enabled =? max_slots_available then modify (set_slots (mkSlots enabled (dcbaa s) (devices s)))
  else
    modify (set_slots (mkSlots max_slots_available (dcbaa s) (devices s))) ≫= fun _ =>
    or_register (opregs r + CONFIG) (Z.land max_slots_available 0xFF).

Definition DCBAA_ENTRY_SIZE : Z := 8.
Definition GetDCBAAPPages (s : Slots D) : Z := ((max_slots_enabled s + 1) * DCBAA_ENTRY_SIZE + PAGE_SIZE - 1) / PAGE_SIZE.

(** The array of devices stays dangling when the second allocation fails. *)
Definition ConfigureDCBAAP : CM bool :=
  get ≫= fun c =>
  let s := slots c in
  let dcbaa_pages := GetDCBAAPPages s in
  host (Heap_Allocate (max_slots_enabled s * 8)) ≫= fun array =>
  match array with
  | None => modify (set_slots (mkSlots (max_slots_enabled s) (dcbaa s) None)) ≫= fun _ => mret false
  | Some array =>
      let devices := Some (array, replicate (Z.to_nat (max_slots_enabled s)) Garbage) in
      host (AllocateDMA dcbaa_pages) ≫= fun pages =>
      match pages with
      | None =>
          modify (set_slots (mkSlots (max_slots_enabled s) 0 devices)) ≫= fun _ =>
          host_ (Heap_Free array) ≫= fun _ => mret false
      | Some pages =>
          modify (set_slots (mkSlots (max_slots_enabled s) pages devices)) ≫= fun _ =>
          host_ (ChangeMappingFlags pages uncached_flags dcbaa_pages) ≫= fun _ =>
          zero_pages pages dcbaa_pages ≫= fun _ =>
          host_ (write32 (opregs (registers c) + DCBAAP_LO) (u32 pages)) ≫= fun _ =>
          host_ (write32 (opregs (registers c) + DCBAAP_HI) (u32 (Z.shiftr pages 32))) ≫= fun _ => mret true
      end
  end.

Definition ReleaseDCBAAP : CM unit :=
  get ≫= fun c =>
  let s := slots c in
  if dcbaa s =? 0 then mret tt
  else
    host_ (FreeDMA (dcbaa s) (GetDCBAAPPages s)) ≫= fun _ =>
    match devices s with
    | None => mret tt
    | Some (array, _) => host_ (Heap_Free array)
    end ≫= fun _ => modify (set_slots (mkSlots (max_slots_enabled s) 0 None)).

Definition WriteDCBAAEntry (slot ptr : Z) : CM unit :=
  get ≫= fun c =>
  if (slot <=? max_slots_enabled (slots c)) && negb (dcbaa (slots c) =? 0)
  then store64 (dcbaa (slots c) + DCBAA_ENTRY_SIZE * slot) (Z.land ptr (bnot 64 0x3F))
  else mret tt.

(** The device passed is its slot and the address of its output context. *)
Definition LoadDeviceSlot (slot_id output_context : Z) : CM unit := WriteDCBAAEntry slot_id output_context.

(** [devices[slot - 1]], read and written. *)
Definition device_at (slot : Z) : CM (device_pointer D) :=
  get ≫= fun c =>
  match devices (slots c) with
  | None => stop NullAccess
  | Some (_, l) => if 1 <=? slot then or_stop WildAccess (l !! Z.to_nat (slot - 1)) else stop WildAccess
  end.

Definition set_device (slot : Z) (p : device_pointer D) : CM unit :=
  get ≫= fun c =>
  match devices (slots c) with
  | None => stop NullAccess
  | Some (array, l) =>
      if (1 <=? slot) && (slot <=? Z.of_nat (length l))
      then modify (set_slots (mkSlots (max_slots_enabled (slots c)) (dcbaa (slots c)) (Some (array, <[Z.to_nat (slot - 1) := p]> l))))
      else stop WildAccess
  end.

(** ** The command ring *)

Definition GetCommandRingPages : Z := (RING_SIZE + PAGE_SIZE - 1) / PAGE_SIZE.

Definition ConfigureCommandRing : CM bool :=
  get ≫= fun c =>
  let k := commands c in
  host (AllocateDMA GetCommandRingPages) ≫= fun ring =>
  match ring with
  | None => modify (set_commands (mkCommands 0 (command_completion k) (command_index k) (command_cycle k) (command_capacity k))) ≫= fun _ => mret false
  | Some ring =>
      host_ (ChangeMappingFlags ring uncached_flags GetCommandRingPages) ≫= fun _ =>
      zero_pages ring (RING_SIZE / PAGE_SIZE) ≫= fun _ =>
      modify (set_commands (mkCommands ring (command_completion k) (command_index k) (command_cycle k) (RING_SIZE / SIZEOF_TRB))) ≫= fun _ =>
      host (read32 (opregs (registers c) + CRCR_LO)) ≫= fun crcr_lo =>
      let crcr_lo := Z.lor (Z.land crcr_lo (bnot 32 0xFFFFFFC0)) (u32 (Z.land ring 0xFFFFFFC0)) in
      host_ (write32 (opregs (registers c) + CRCR_LO) (Z.lor crcr_lo 0x1)) ≫= fun _ =>
      host_ (write32 (opregs (registers c) + CRCR_HI) (u32 (Z.shiftr ring 32))) ≫= fun _ => mret true
  end.

Definition ReleaseCommandRing : CM unit :=
  get ≫= fun c =>
  let k := commands c in
  if command_ring k =? 0 then mret tt
  else
    host_ (FreeDMA (command_ring k) GetCommandRingPages) ≫= fun _ =>
    modify (set_commands (mkCommands 0 (command_completion k) (command_index k) (command_cycle k) (command_capacity k))).

Definition EnqueueCommand (trb : TRB) : CM unit :=
  get ≫= fun c => store (write_trb (command_ring (commands c) + SIZEOF_TRB * command_index (commands c)) trb).

Definition GetCommandCycle : CM bool := get ≫= fun c => mret (command_cycle (commands c)).

Definition UpdateCommandPointer : CM unit :=
  get ≫= fun c =>
  let k := commands c in
  let k := mkCommands (command_ring k) (command_completion k) (u64 (command_index k + 1)) (command_cycle k) (command_capacity k) in
  modify (set_commands k) ≫= fun _ =>
  if u64 (command_capacity k - 1) <=? command_index k then
    EnqueueCommand (LinkTRB_Create (command_cycle k) (command_ring k)) ≫= fun _ =>
    modify (set_commands (mkCommands (command_ring k) (command_completion k) 0 (negb (command_cycle k)) (command_capacity k)))
  else mret tt.

Definition set_completion (t : TRB) (c : Controller D) : Controller D :=
  let k := commands c in
  set_commands (mkCommands (command_ring k) t (command_index k) (command_cycle k) (command_capacity k)) c.

(** ** The event ring *)

Definition SIZEOF_ERST_ENTRY : Z := 16.
Definition GetEventRingPages : Z := (RING_SIZE + SIZEOF_ERST_ENTRY + PAGE_SIZE - 1) / PAGE_SIZE.
Definition GetEventRingSegments : Z := 1.
Definition GetEventRingSegmentTableOffset : Z := GetEventRingPages * PAGE_SIZE - 0x40.
Definition EVENT_TRB_COUNT : Z := u16 (GetEventRingSegmentTableOffset / SIZEOF_TRB).

(** [ERSTEntry::Create]: the four words of the entry. *)
Definition ERSTEntry_Create (ptr size : Z) : TRB := mkTRB (u32 (Z.land ptr 0xFFFFFFC0)) (u32 (Z.shiftr ptr 32)) size 0.

Definition ConfigureEventRing : CM bool :=
  get ≫= fun c =>
  let e := events c in
  host (AllocateDMA GetEventRingPages) ≫= fun ring =>
  match ring with
  | None => modify (set_events (mkEvents 0 (event_ring_segment_table e) (event_index e) (event_cycle e) (event_capacity e))) ≫= fun _ => mret false
  | Some ring =>
      host_ (ChangeMappingFlags ring uncached_flags GetEventRingPages) ≫= fun _ =>
      zero_pages ring GetEventRingPages ≫= fun _ =>
      let erst := ring + GetEventRingSegmentTableOffset in
      store (write_trb erst (ERSTEntry_Create ring EVENT_TRB_COUNT)) ≫= fun _ =>
      modify (set_events (mkEvents ring erst (event_index e) (event_cycle e) EVENT_TRB_COUNT)) ≫= fun _ => mret true
  end.

Definition ReleaseEventRing : CM unit :=
  get ≫= fun c =>
  let e := events c in
  if event_ring e =? 0 then mret tt
  else
    host_ (FreeDMA (event_ring e) GetEventRingPages) ≫= fun _ =>
    modify (set_events (mkEvents 0 (event_ring_segment_table e) (event_index e) (event_cycle e) (event_capacity e))).

Definition ConfigurePrimaryInterrupter : CM unit :=
  get ≫= fun c =>
  let irs := GetPrimaryInterrupter (registers c) in let e := events c in
  host (read32 (irs + ERSTSZ)) ≫= fun size =>
  host_ (write32 (irs + ERSTSZ) (Z.lor (Z.land size 0xFFFF0000) GetEventRingSegments)) ≫= fun _ =>
  host_ (write64 (irs + ERDP) (Z.lor (event_ring e) ERDP_EHB_FLAG)) ≫= fun _ =>
  host_ (write64 (irs + ERSTBA) (u64 (event_ring e + GetEventRingSegmentTableOffset))).

(** [GetCurrentEvent]: the address of the block under the index. *)
Definition GetCurrentEvent (e : Events) : Z := event_ring e + SIZEOF_TRB * event_index e.

Definition next_event (e : Events) : Events :=
  let index := u64 (event_index e + 1) in
  if event_capacity e <=? index
  then mkEvents (event_ring e) (event_ring_segment_table e) 0 (negb (event_cycle e)) (event_capacity e)
  else mkEvents (event_ring e) (event_ring_segment_table e) index (event_cycle e) (event_capacity e).

Definition UpdateEventPointer : CM unit := get ≫= fun c => modify (set_events (next_event (events c))).

(** ** The interrupt handler *)

Definition handle_transfer (event : TRB) : CM unit :=
  let slot := EventTRB_GetSlotID event in
  device_at slot ≫= fun device =>
  match device with
  | Garbage => stop WildAccess
  | Null => mret tt
  | Pointer object d => kernel (SignalTransferComplete event d) ≫= fun d => set_device slot (Pointer object d)
  end.

(** [ports[id]] is marked and the task that scans the ports is woken. *)
Definition mark_port (id : Z) (p : Ports) : option Ports :=
  '(array, l) ← ports p;
  if 0 <=? id then
    port ← l !! Z.to_nat id;
    Some (mkPorts (Some (array, <[Z.to_nat id := set_dirty true port]> l)) true (port_updater_task_id p))
  else None.

Definition handle_port_change (event : TRB) : CM unit :=
  get ≫= fun c =>
  or_stop WildAccess (mark_port (GetPortID event - 1) (port_table c)) ≫= fun p =>
  modify (set_ports p) ≫= fun _ => host_ (UnblockTask (port_updater_task_id p)).

Definition handle_event (event : TRB) : CM unit :=
  let type := EventTRB_GetType event in
  if type =? event_value TransferEvent then handle_transfer event
  else if type =? event_value CommandCompletionEvent then modify (set_completion event)
  else if type =? event_value PortStatusChangeEvent then handle_port_change event
  else mret tt.

Fixpoint handle_events (fuel : nat) : CM unit :=
  match fuel with
  | O => stop Hang
  | S fuel =>
      get ≫= fun c =>
      memory_of ≫= fun m =>
      let event := read_trb m (GetCurrentEvent (events c)) in
      if Bool.eqb (GetCycle event) (event_cycle (events c))
      then handle_event event ≫= fun _ => UpdateEventPointer ≫= fun _ => handle_events fuel
      else mret tt
  end.

(** One lap of the ring, and the block that ends it. *)
Definition event_fuel (e : Events) : nat := S (Z.to_nat (event_capacity e)).

Definition HandleIRQ : CM unit :=
  get ≫= fun c =>
  host_ (write32 (opregs (registers c) + USBSTS) 0x8) ≫= fun _ =>
  host_ SendEOI ≫= fun _ =>
  handle_events (event_fuel (events c)) ≫= fun _ =>
  get ≫= fun c =>
  host_ (write64 (GetPrimaryInterrupter (registers c) + ERDP) (Z.lor (GetCurrentEvent (events c)) ERDP_EHB_FLAG)).

(** ** Commands *)

(** [SpinWaitMillsFor] on a predicate of the controller: the interrupts that
    come before the time is out. *)
Fixpoint spin (n : nat) (predicate : Controller D -> bool) : CM bool :=
  get ≫= fun c =>
  if predicate c then mret true
  else
    match n with
    | O => mret false
    | S n => host_ hardware ≫= fun _ => HandleIRQ ≫= fun _ => spin n predicate
    end.

Definition SpinWaitMillsFor (timeout : Z) (predicate : Controller D -> bool) : CM bool :=
  host (interrupts_within timeout) ≫= fun n => spin n predicate.

Definition command_completed (c : Controller D) : bool := negb (data2 (command_completion (commands c)) =? 0).

Definition SendCommand (trb : TRB) : CM (option TRB) :=
  EnqueueCommand trb ≫= fun _ =>
  UpdateCommandPointer ≫= fun _ =>
  modify (set_completion zero_trb) ≫= fun _ =>
  SignalCommand ≫= fun _ =>
  SpinWaitMillsFor 200 command_completed ≫= fun completed =>
  if (completed : bool) then get ≫= fun c => mret (Some (command_completion (commands c))) else mret None.

(** The slot, or -1. *)
Definition EnableSlot (slot_type : Z) : CM Z :=
  GetCommandCycle ≫= fun cycle =>
  SendCommand (EnableSlotTRB_Create cycle slot_type) ≫= fun result =>
  match result with
  | None => mret (-1)
  | Some r => let slot_id := EventTRB_GetSlotID r in if slot_id =? 0 then mret (-1) else mret slot_id
  end.

Definition DisableSlot (id : Z) : CM unit :=
  GetCommandCycle ≫= fun cycle => SendCommand (DisableSlotTRB_Create cycle id) ≫= fun _ => mret tt.

End Controller.
