(* ===== verification/XhciPorts.v ===== *)
(** * The xHCI controller: ports and life
    ([kernel/src/devices/USB/xHCI/Controller.cpp])

    The scratchpad buffers, the ports and the task that scans them, the
    creation and the release of the controller. *)
From S2P Require Import Packed Trb XhciContext TransferRing Prelude XhciController.

Section Ports.
Context {D X : Type} `{!KernelMemory X} `{!ControllerHost X} `{!SlotDevice D X}.
#[local] Abbreviation CM := (Prelude.io (Controller D * X)).

(** ** The scratchpad *)

Definition GetScratchpadPages (s : Scratchpad) : Z := (max_scratchpad_buffers s * 8 + PAGE_SIZE - 1) / PAGE_SIZE.

(** The number of buffers of [HCSPARAMS2]. *)
Definition scratchpad_count (hcsparams2 : Z) : Z :=
  u16 (Z.lor (Z.shiftl (Z.land (Z.shiftr hcsparams2 21) 0x1F) 5) (Z.land (Z.shiftr hcsparams2 27) 0x1F)).

Definition load64 (m : memory) (a : Z) : Z := Z.lor (Z.shiftl (rd m a 1) 32) (rd m a 0).

(** The frames of the elements [0 .. n-1] of the array. *)
Fixpoint free_buffers (array : Z) (l : list Z) : CM unit :=
  match l with
  | [] => mret tt
  | j :: l =>
      memory_of ≫= fun m =>
      host_ (PhysicalMemory_Free (load64 m (array + 8 * j))) ≫= fun _ => free_buffers array l
  end.

Definition abandon_scratchpad (array pages n : Z) : CM bool :=
  free_buffers array (seqZ 0 n) ≫= fun _ =>
  host_ (FreeDMA array pages) ≫= fun _ =>
  get ≫= fun c =>
  modify (set_scratchpad (mkScratchpad 0 (max_scratchpad_buffers (scratchpad c)))) ≫= fun _ => mret false.

Fixpoint allocate_buffers (array pages : Z) (l : list Z) : CM bool :=
  match l with
  | [] => mret true
  | i :: l =>
      host PhysicalMemory_Allocate ≫= fun buffer =>
      if buffer =? 0 then abandon_scratchpad array pages i
      else
        host (MapGeneralPages buffer 1 uncached_flags) ≫= fun vbuffer =>
        if vbuffer =? 0 then abandon_scratchpad array pages (i + 1)
        else
          zero_pages vbuffer 1 ≫= fun _ =>
          host_ (UnmapGeneralPages vbuffer 1) ≫= fun _ =>
          store64 (array + 8 * i) buffer ≫= fun _ => allocate_buffers array pages l
  end.

Definition ConfigureScratchpad : CM bool :=
  get ≫= fun c =>
  host (read32 (capability (registers c) + HCSPARAMS2)) ≫= fun hcsparams2 =>
  let n := scratchpad_count hcsparams2 in
  modify (set_scratchpad (mkScratchpad (scratchpad_buffer_array (scratchpad c)) n)) ≫= fun _ =>
  if n =? 0 then mret true
  else
    host (read32 (opregs (registers c) + PAGESIZE)) ≫= fun pagesize =>
    if negb (Z.land pagesize 0xFFFF =? 1) then mret false
    else
      let array_pages := GetScratchpadPages (mkScratchpad 0 n) in
      host (AllocateDMA array_pages) ≫= fun array =>
      match array with
      | None => modify (set_scratchpad (mkScratchpad 0 n)) ≫= fun _ => mret false
      | Some array =>
          modify (set_scratchpad (mkScratchpad array n)) ≫= fun _ =>
          host_ (ChangeMappingFlags array uncached_flags array_pages) ≫= fun _ =>
          zero_pages array array_pages ≫= fun _ =>
          allocate_buffers array array_pages (seqZ 0 n) ≫= fun ok =>
          if negb ok then mret false else WriteDCBAAEntry 0 array ≫= fun _ => mret true
      end.

Fixpoint release_buffers (array : Z) (l : list Z) : CM unit :=
  match l with
  | [] => mret tt
  | i :: l =>
      memory_of ≫= fun m =>
      let buffer := load64 m (array + 8 * i) in
      (if buffer =? 0 then mret tt else host_ (PhysicalMemory_Free buffer)) ≫= fun _ => release_buffers array l
  end.

Definition ReleaseScratchpad : CM unit :=
  get ≫= fun c =>
  let s := scratchpad c in
  if scratchpad_buffer_array s =? 0 then mret tt
  else
    release_buffers (scratchpad_buffer_array s) (seqZ 0 (max_scratchpad_buffers s)) ≫= fun _ =>
    host_ (FreeDMA (scratchpad_buffer_array s) (GetScratchpadPages s)) ≫= fun _ =>
    modify (set_scratchpad (mkScratchpad 0 (max_scratchpad_buffers s))).

(** ** Ports *)

Definition GetMaxPorts : CM Z :=
  get ≫= fun c =>
  host (read32 (capability (registers c) + HCSPARAMS1)) ≫= fun r => mret (Z.land (Z.shiftr r 24) 0xFF).

(** The address of the registers of a port. *)
Definition AccessOperationalPort (portid : Z) : CM (option Z) :=
  GetMaxPorts ≫= fun n =>
  get ≫= fun c =>
  mret (if portid <? n then Some (opregs (registers c) + 0x400 + portid * 16) else None).

Definition GetSpeedID (port : Z) : CM Z := host (read32 port) ≫= fun portsc => mret (Z.land (Z.shiftr portsc 10) 0xF).

(** [ports[i]], read and updated. *)
Definition port_at (i : Z) : CM Port :=
  get ≫= fun c =>
  match ports (port_table c) with
  | None => stop NullAccess
  | Some (_, l) => if 0 <=? i then or_stop WildAccess (l !! Z.to_nat i) else stop WildAccess
  end.

Definition update_port (i : Z) (f : Port -> Port) : CM unit :=
  port_at i ≫= fun p =>
  get ≫= fun c =>
  let t := port_table c in
  modify (set_ports (mkPorts ((fun '(array, l) => (array, <[Z.to_nat i := f p]> l)) <$> ports t) (port_update t) (port_updater_task_id t))).

Definition set_port_array (a : option (Z * list Port)) (c : Controller D) : Controller D :=
  set_ports (mkPorts a (port_update (port_table c)) (port_updater_task_id (port_table c))) c.

Definition ReleasePorts : CM unit :=
  get ≫= fun c =>
  match ports (port_table c) with
  | None => mret tt
  | Some (array, _) => host_ (Heap_Free array) ≫= fun _ => modify (set_port_array None)
  end.

Definition SIZEOF_PORT : Z := 4.

(** The ports of one protocol; the bound is a byte. *)
Fixpoint describe_ports (protocol major : Z) (l : list Z) : CM unit :=
  match l with
  | [] => mret tt
  | p :: l =>
      GetProtocolSlotType protocol ≫= fun type =>
      update_port (p - 1) (fun port => mkPort major (port_slot port) type true) ≫= fun _ => describe_ports protocol major l
  end.

Fixpoint describe_protocols (fuel walk : nat) (protocol : option Z) : CM unit :=
  match fuel with
  | O => stop Hang
  | S fuel =>
      match protocol with
      | None => mret tt
      | Some protocol =>
          GetCompatiblePortOffset protocol ≫= fun offset =>
          GetCompatiblePortCount protocol ≫= fun count =>
          let limit := u8 (offset + count) in
          GetMajorRevision protocol ≫= fun major =>
          describe_ports protocol major (seqZ offset (limit - offset)) ≫= fun _ =>
          ExtendedCapability_GetID protocol ≫= fun id =>
          FindNextExtendedCapability walk id (Some protocol) ≫= fun next => describe_protocols fuel walk next
      end
  end.

Definition ConfigurePortVersions (fuel : nat) : CM bool :=
  GetMaxPorts ≫= fun n =>
  host (Heap_Allocate (n * SIZEOF_PORT)) ≫= fun array =>
  match array with
  | None => modify (set_port_array None) ≫= fun _ => mret false
  | Some array =>
      modify (set_port_array (Some (array, replicate (Z.to_nat n) (mkPort 0 0 0 false)))) ≫= fun _ =>
      FindSupportedProtocolCapability fuel ≫= fun protocol =>
      match protocol with
      | None => ReleasePorts ≫= fun _ => mret false
      | Some protocol => describe_protocols fuel fuel (Some protocol) ≫= fun _ => mret true
      end
  end.

Definition GetPortProtocol (port_id : Z) : CM (option Z) :=
  GetMaxPorts ≫= fun n =>
  if (port_id =? 0) || (n <? port_id) then mret None
  else port_at (port_id - 1) ≫= fun p => mret (Some (major p)).

Definition flag (port mask : Z) : CM bool := host (read32 port) ≫= fun portsc => mret (negb (Z.land portsc mask =? 0)).

(** A port without a device: its device is destroyed and its slot given up. *)
Definition disconnect (i : Z) : CM unit :=
  port_at i ≫= fun p =>
  let slot := port_slot p in
  if slot =? 0 then mret tt
  else
    device_at slot ≫= fun device =>
    match device with
    | Garbage => stop WildAccess
    | Null => mret tt
    | Pointer _ d => set_device slot Null ≫= fun _ => Device_Destroy d ≫= fun _ => mret tt
    end ≫= fun _ => DisableSlot slot ≫= fun _ => update_port i (set_slot 0).

Definition drop_slot (i : Z) : CM unit :=
  port_at i ≫= fun p => DisableSlot (port_slot p) ≫= fun _ => update_port i (set_slot 0).

(** [Heap::Free(pdevice); pdevice = nullptr] *)
Definition drop_device (i slot object : Z) : CM unit :=
  host_ (Heap_Free object) ≫= fun _ => set_device slot Null ≫= fun _ => drop_slot i.

(** [pdevice->Destroy()] *)
Definition destroy_in_place (slot : Z) : CM unit :=
  device_at slot ≫= fun device =>
  match device with
  | Garbage => stop WildAccess
  | Null => stop NullAccess
  | Pointer object d => Device_Destroy d ≫= fun d => set_device slot (Pointer object d)
  end.

Definition attach (i speed_id : Z) : CM unit :=
  port_at i ≫= fun p =>
  EnableSlot (slot_type p) ≫= fun slot_id =>
  if slot_id <? 0 then mret tt
  else
    update_port i (set_slot (u8 slot_id)) ≫= fun _ =>
    host (Heap_Allocate sizeof_Device) ≫= fun raw_device =>
    match raw_device with
    | None => drop_slot i
    | Some object =>
        let d := new_Device (mkInformation 0 (u8 (i + 1)) (u8 (i + 1)) (u8 slot_id) (FromSpeedID speed_id) 0) in
        set_device slot_id (Pointer object d) ≫= fun _ =>
        Device_Initialize slot_id ≫= fun initialized =>
        if negb initialized then drop_device i slot_id object
        else
          Device_PostInitialization slot_id ≫= fun ready =>
          if negb ready then destroy_in_place slot_id ≫= fun _ => drop_device i slot_id object else mret tt
    end.

(** Whether a connected port is ready for its device; a USB 2 port is first
    reset. *)
Definition port_ready (port revision : Z) (port_enabled finished_reset conn_changed : bool) : CM bool :=
  if revision =? 2 then
    if port_enabled && finished_reset then mret true
    else if conn_changed then host_ (write32 port (Z.lor PORTSC_PR PORTSC_PP)) ≫= fun _ => mret false
    else mret false
  else if revision =? 3 then mret (negb (negb conn_changed || negb port_enabled))
  else mret false.

(** The body of the scan of [UpdatePorts]. *)
Definition update_one (i : Z) : CM unit :=
  port_at i ≫= fun p =>
  if negb (dirty p) then mret tt
  else
    update_port i (set_dirty false) ≫= fun _ =>
    let revision := major p in
    AccessOperationalPort i ≫= fun port =>
    match port with
    | None => stop NullAccess
    | Some port =>
        flag port PORTSC_PP ≫= fun powered =>
        if negb powered then mret tt
        else
          flag port PORTSC_PRC ≫= fun finished_reset =>
          flag port PORTSC_CSC ≫= fun conn_changed =>
          flag port PORTSC_PED ≫= fun port_enabled =>
          flag port PORTSC_CCS ≫= fun is_connected =>
          host_ (write32 port (Z.lor (Z.lor PORTSC_CSC PORTSC_PRC) PORTSC_PP)) ≫= fun _ =>
          if negb is_connected then disconnect i
          else
            port_ready port revision port_enabled finished_reset conn_changed ≫= fun ready =>
            if (ready : bool) then GetSpeedID port ≫= fun speed_id => attach i speed_id else mret tt
    end.

Fixpoint scan_ports (l : list Z) : CM unit :=
  match l with
  | [] => mret tt
  | i :: l => update_one i ≫= fun _ => scan_ports l
  end.

(** The section without interrupts at the end of a round: the task gives up the
    processor unless a port changed since the last time it was here. *)
Definition sleep_unless_updated : CM unit :=
  get ≫= fun c =>
  let t := port_table c in
  (if port_update t then mret tt else host_ (BlockTask (port_updater_task_id t))) ≫= fun _ =>
  get ≫= fun c =>
  modify (set_ports (mkPorts (ports (port_table c)) false (port_updater_task_id (port_table c)))).

(** One round of [UpdatePorts]. *)
Definition UpdatePorts_round : CM unit :=
  GetMaxPorts ≫= fun n => scan_ports (seqZ 0 n) ≫= fun _ => sleep_unless_updated.

(** ** Life of the controller *)

Definition ReleaseResources : CM unit :=
  get ≫= fun c =>
  host_ (ReleaseInterrupt (interrupt_vector c)) ≫= fun _ =>
  (if MMIO_base (registers c) =? 0 then mret tt
   else
     DisablePrimaryInterrupter ≫= fun _ =>
     DisableHostInterrupts ≫= fun _ =>
     DisableHost ≫= fun _ => host_ DisableBusMaster) ≫= fun _ =>
  ReleaseMMIO ≫= fun _ =>
  ReleaseDCBAAP ≫= fun _ =>
  ReleaseCommandRing ≫= fun _ =>
  ReleaseEventRing ≫= fun _ =>
  ReleasePorts ≫= fun _ => ReleaseScratchpad.

Definition Destroy : CM unit := ReleaseResources.

(** A step of the initialisation: the controller is released when it fails. *)
Definition or_release (object : Z) (step : CM bool) (rest : CM bool) : CM bool :=
  step ≫= fun ok =>
  if (ok : bool) then rest else Destroy ≫= fun _ => host_ (Heap_Free object) ≫= fun _ => mret false.

(** The message-signalled interrupt: the current processor, lowest priority. *)
Definition message_address (LID : Z) : Z := Z.lor (Z.lor (Z.lor (u32 (Z.shiftl 0x0FEE 20)) (Z.shiftl LID 12)) 0x8) 0x4.
Definition message_data (vector : Z) : Z := u16 (Z.lor 0x100 (u16 vector)).

Definition ConfigureInterrupts : CM bool :=
  ConfigurePrimaryInterrupter ≫= fun _ =>
  EnableHostInterrupts ≫= fun _ =>
  EnablePrimaryInterrupter ≫= fun _ =>
  host GetLAPICLogicalID ≫= fun LID =>
  host GetMSI ≫= fun msi_cap =>
  match msi_cap with
  | None => mret false
  | Some msi =>
      get ≫= fun c =>
      host_ (ConfigureMSI msi (message_address LID) (message_data (interrupt_vector c)) 1) ≫= fun _ =>
      host_ (MSI_Enable msi) ≫= fun _ =>
      host_ (RegisterIRQ (interrupt_vector c)) ≫= fun _ => mret true
  end.

Definition StartHost : CM unit := EnableHost ≫= fun _ => host_ EnableBusMaster.

(** The task that scans the ports. *)
Definition StartUpdater : CM bool :=
  host_ (SpinWaitMillis 200) ≫= fun _ =>
  host CreateUpdaterTask ≫= fun updaterTask =>
  match updaterTask with
  | None => mret false
  | Some task =>
      host (AddTask task) ≫= fun id =>
      get ≫= fun c =>
      modify (set_ports (mkPorts (ports (port_table c)) (port_update (port_table c)) id)) ≫= fun _ => mret (negb (id =? 0))
  end.

(** [Initialize] on the new controller at [object]. *)
Definition Initialize_steps (fuel : nat) (object : Z) : CM bool :=
  or_release object ConfigureMMIO (
  or_release object (ResetHost fuel) (
  ConfigureMaxSlotsEnabled ≫= fun _ =>
  or_release object ConfigureDCBAAP (
  or_release object ConfigureCommandRing (
  or_release object ConfigureEventRing (
  or_release object ConfigureScratchpad (
  or_release object ConfigureInterrupts (
  StartHost ≫= fun _ =>
  or_release object (ConfigurePortVersions fuel) (
  or_release object StartUpdater (
  mret true))))))))).

Definition Initialize (fuel : nat) (sizeof_Controller : Z) : Prelude.io X (option (Z * Controller D)) := fun x =>
  let '(vector, x) := ReserveInterrupt x in
  if vector <? 0 then inr (None, x)
  else
    match Heap_Allocate sizeof_Controller x with
    | (None, x) => inr (None, x)
    | (Some object, x) =>
        match Initialize_steps fuel object (set_vector vector new_Controller, x) with
        | inl e => inl e
        | inr (ok, (c, x)) => inr (if ok then Some (object, c) else None, x)
        end
    end.

Definition Release (object : Z) (c : Controller D) : Prelude.io X unit := fun x =>
  match Destroy (c, x) with
  | inl e => inl e
  | inr (_, (_, x)) => inr (tt, Heap_Free object x)
  end.

End Ports.
