(* ===== verification/XhciControllerProps.v ===== *)
(** * The xHCI controller: its rings and its interrupt handler

    The hardware executes the commands in the order they are sent; a command
    built with the wrong cycle state stops the ring. The interrupt handler
    handles every event the hardware posted once, in order, and ends. *)
From S2P Require Import Packed Trb TrbProps XhciContext XhciContextProps TransferRing TransferRingProps Prelude XhciController.

(** What the host's operations leave alone. *)
Class ControllerHostLaws (X : Type) `{!KernelMemory X} `{!ControllerHost X} := {
  unblock_memory : forall id x, read_memory (UnblockTask id x) = read_memory x;
  eoi_memory : forall x, read_memory (SendEOI x) = read_memory x;
  write32_memory : forall a v x, read_memory (write32 a v x) = read_memory x;
  write64_memory : forall a v x, read_memory (write64 a v x) = read_memory x;
  flags_memory : forall a f n x, read_memory (ChangeMappingFlags a f n x) = read_memory x }.

Section Rings.
Context {D X : Type} `{!KernelMemory X} `{!KernelMemoryLaws X} `{!ControllerHost X} `{!ControllerHostLaws X} `{!SlotDevice D X}.
#[local] Abbreviation CM := (Prelude.io (Controller D * X)).
Implicit Types (c : Controller D) (x : X).

Lemma step_run {A B} (m : CM A) (f : A -> CM B) w a w' : m w = inr (a, w') -> (m ≫= f) w = f a w'.
Proof. intros E. unfold mbind, io_bind. by rewrite E. Qed.

Lemma step_inv {A B} (m : CM A) (f : A -> CM B) w b w' : (m ≫= f) w = inr (b, w') ->
  exists a w1, m w = inr (a, w1) /\ f a w1 = inr (b, w').
Proof. unfold mbind, io_bind. destruct (m w) as [|[a w1]] eqn:E; [done|]. intros H. by exists a, w1. Qed.

(** ** Commands *)

(** A command is placed, then the pointer moves. *)
Definition command_step (t : TRB) : CM unit := EnqueueCommand t ≫= fun _ => UpdateCommandPointer.

(** The command ring as a transfer ring. *)
Definition ring_of (k : Commands) : TransferRing :=
  mkRing (command_ring k) (command_index k) (command_capacity k) (command_cycle k).

(** One step as one of the ring: [Enqueue] without looking at the slot. *)
Definition pushed (r : TransferRing) (t : TRB) (m : memory) : TransferRing * memory :=
  let m := write_trb (slot r (index r)) t m in
  if capacity r - 1 <=? index r + 1
  then (mkRing (base r) 0 (capacity r) (negb (cycle r)), write_trb (slot r (index r + 1)) (LinkTRB_Create (cycle r) (base r)) m)
  else (mkRing (base r) (index r + 1) (capacity r) (cycle r), m).

Definition ring_fits (r : TransferRing) : Prop := 3 <= capacity r < 2 ^ 32 /\ 0 <= index r < capacity r - 1.

Lemma command_step_run t c x : ring_fits (ring_of (commands c)) ->
  exists c' x', command_step t (c, x) = inr (tt, (c', x')) /\
    (ring_of (commands c'), read_memory x') = pushed (ring_of (commands c)) t (read_memory x) /\
    command_completion (commands c') = command_completion (commands c) /\ registers c' = registers c.
Proof.
  unfold ring_fits, ring_of. cbn [base index capacity cycle]. intros [Hc Hi].
  unfold command_step, EnqueueCommand, UpdateCommandPointer, pushed, store, host_, get, modify, mbind, io_bind.
  cbn [fst snd ring_of base index capacity cycle command_ring command_index command_capacity command_cycle].
  rewrite !wrap_small by lia. destruct (_ <=? _) eqn:E; cbn; eexists _, _; (split; [reflexivity|]); cbn; by rewrite ?read_on_memory.
Qed.

(** Under the discipline of a transfer ring the look at the slot would have
    found it free. *)
Lemma pushed_produced r t m h : produced r m h -> GetCycle t = cycle r -> EventTRB_GetType t <> LINK_TYPE ->
  produced (pushed r t m).1 (pushed r t m).2 (h ++ [t]) /\ base (pushed r t m).1 = base r /\ capacity (pushed r t m).1 = capacity r.
Proof.
  intros Hp Hcy Hty. destruct (Enqueue_produced r m h t Hp Hcy Hty) as (r' & m' & He & Hp' & Hb & Hc).
  enough (Heq : pushed r t m = (r', m')) by (rewrite Heq; done). revert He.
  pose proof (pr_capacity _ _ _ Hp) as Hcap. pose proof (pr_index _ _ _ Hp) as Hidx.
  pose proof (Z.mod_pos_bound (Z.of_nat (length h)) (capacity r - 1) ltac:(lia)) as Hb1.
  unfold Enqueue, EnqueueTRB. destruct (Bool.eqb _ _); [done|]. cbn [mbind option_bind].
  unfold UpdatePointer. cbn [base index capacity cycle]. rewrite (wrap_small 64 (index r + 1)), (wrap_small 64 (capacity r - 1)) by lia.
  unfold pushed. destruct (_ <=? _) eqn:E; cbn [mbind option_bind].
  - unfold EnqueueTRB. cbn [base index capacity cycle]. destruct (Bool.eqb _ _); [done|]. cbn [mbind option_bind]. intros [= <- <-].
    unfold slot. cbn [base]. done.
  - by intros [= <- <-].
Qed.

(** The hardware, having executed every command before, takes the new one. *)
Definition executes (q : Consumer) (m : memory) : list TRB := fetch2 q m.

(** A command built with the ring's cycle state is the next one the hardware
    executes, and the ring is ready for another. *)
Theorem command_executed t c x h q :
  let r := ring_of (commands c) in
  produced r (read_memory x) h -> consumer_at r q (Z.of_nat (length h)) ->
  GetCycle t = command_cycle (commands c) -> EventTRB_GetType t <> LINK_TYPE ->
  exists c' x', command_step t (c, x) = inr (tt, (c', x')) /\
    executes q (read_memory x') = [t] /\
    produced (ring_of (commands c')) (read_memory x') (h ++ [t]).
Proof.
  intros r Hp Hq Hcy Hty. pose proof (pr_capacity _ _ _ Hp) as Hcap. pose proof (pr_index _ _ _ Hp) as Hidx.
  pose proof (Z.mod_pos_bound (Z.of_nat (length h)) (capacity r - 1) ltac:(lia)) as Hb.
  destruct (command_step_run t c x ltac:(unfold ring_fits; fold r; lia)) as (c' & x' & E & Hpush & _). exists c', x'.
  destruct (pushed_produced r t (read_memory x) h Hp Hcy Hty) as (Hp' & Hbase & Hcap'). fold r in Hpush. rewrite <- Hpush in Hp', Hbase, Hcap'.
  cbn [fst snd] in *. split_and!; [done| |done]. unfold executes.
  rewrite (fetch2_spec _ _ _ (length h) q Hp'); [by rewrite list_lookup_middle|rewrite length_app; cbn [length]; lia|].
  unfold consumer_at, at_slot, at_link, slot in *. by rewrite Hbase, Hcap'.
Qed.

Fixpoint command_steps (l : list TRB) : CM unit :=
  match l with
  | [] => mret tt
  | t :: l => command_step t ≫= fun _ => command_steps l
  end.

Lemma pushed_shape r t m : ring_fits r ->
  ring_fits (pushed r t m).1 /\ base (pushed r t m).1 = base r /\ capacity (pushed r t m).1 = capacity r /\
  index (pushed r t m).1 = (index r + 1) mod (capacity r - 1) /\
  (forall i, 0 <= i < capacity r - 1 -> i <> index r -> read_trb (pushed r t m).2 (slot r i) = read_trb m (slot r i)) /\
  read_trb (pushed r t m).2 (slot r (index r)) = t.
Proof.
  intros [Hc Hi]. unfold pushed, ring_fits. destruct (Z.leb_spec (capacity r - 1) (index r + 1)) as [Hle|Hgt]; cbn [fst snd base index capacity cycle].
  - replace (index r + 1) with (capacity r - 1) by lia. rewrite Z.mod_same by lia. split_and!; try lia.
    + intros i Hr Hne. rewrite !read_slot_write by lia. done.
    + rewrite read_slot_write by lia. apply read_write_same.
  - rewrite Z.mod_small by lia. split_and!; try lia.
    + intros i Hr Hne. rewrite read_slot_write by lia. done.
    + apply read_write_same.
Qed.

(** Fewer commands than it takes to come back to a slot leave it alone. *)
Lemma command_steps_spare l : forall c x i,
  let r := ring_of (commands c) in ring_fits r -> 0 <= i < capacity r - 1 -> Z.of_nat (length l) <= (i - index r) mod (capacity r - 1) ->
  exists c' x', command_steps l (c, x) = inr (tt, (c', x')) /\ read_trb (read_memory x') (slot r i) = read_trb (read_memory x) (slot r i).
Proof.
  induction l as [|t l IH]; intros c x i r Hf Hi Hl; [by exists c, x|]. cbn [length] in Hl. pose proof Hf as [Hc Hidx].
  destruct (command_step_run t c x Hf) as (c1 & x1 & E1 & Hpush & _). fold r in Hpush.
  destruct (pushed_shape r t (read_memory x) Hf) as (Hf1 & Hb1 & Hc1 & Hi1 & Hsp & _). rewrite <- Hpush in Hf1, Hb1, Hc1, Hi1, Hsp. cbn [fst snd] in *.
  set (N := capacity r - 1) in *. assert (Hne : i <> index r) by (intros ->; rewrite Z.sub_diag, Z.mod_0_l in Hl by lia; lia).
  assert (Hd : (i - (index r + 1) mod N) mod N = (i - index r) mod N - 1).
  { rewrite Zminus_mod_idemp_r. pose proof (Z.mod_pos_bound (i - index r) N ltac:(lia)). pose proof (Z.div_mod (i - index r) N ltac:(lia)).
    symmetry. apply (Z.mod_unique_pos _ _ ((i - index r) / N)); lia. }
  destruct (IH c1 x1 i Hf1) as (c2 & x2 & E2 & Hr2); [rewrite Hc1; fold N; lia|rewrite Hc1, Hi1; fold N; rewrite Hd; lia|].
  exists c2, x2. split; [cbn [command_steps]; by rewrite (step_run _ _ _ _ _ E1)|].
  assert (Hslot : slot (ring_of (commands c1)) i = slot r i) by (unfold slot; by rewrite Hb1). rewrite <- Hslot, Hr2, Hslot. by apply Hsp.
Qed.

(** A command whose cycle bit is not the ring's stops the hardware where it is:
    neither it nor any of the next 254 commands is executed. *)
Theorem stale_command_blocks t l c x q :
  let r := ring_of (commands c) in
  ring_fits r -> dequeue q = slot r (index r) -> ccs q = command_cycle (commands c) ->
  GetCycle t = negb (command_cycle (commands c)) -> Z.of_nat (length l) <= command_capacity (commands c) - 2 ->
  exists c' x', command_steps (t :: l) (c, x) = inr (tt, (c', x')) /\ fetch q (read_memory x') = (None, q).
Proof.
  intros r Hf Hd Hq Hcy Hl. pose proof Hf as [Hc Hidx]. change (command_capacity (commands c)) with (capacity r) in Hl.
  destruct (command_step_run t c x Hf) as (c1 & x1 & E1 & Hpush & _). fold r in Hpush.
  destruct (pushed_shape r t (read_memory x) Hf) as (Hf1 & Hb1 & Hc1 & Hi1 & _ & Hsame). rewrite <- Hpush in Hf1, Hb1, Hc1, Hi1, Hsame. cbn [fst snd] in *.
  set (N := capacity r - 1) in *.
  assert (Hm : (index r - (index r + 1) mod N) mod N = N - 1).
  { rewrite Zminus_mod_idemp_r. symmetry. apply (Z.mod_unique_pos _ _ (-1)); lia. }
  destruct (command_steps_spare l c1 x1 (index r) Hf1) as (c2 & x2 & E2 & Hr2); [rewrite Hc1; fold N; lia|rewrite Hc1, Hi1; fold N; rewrite Hm; lia|].
  exists c2, x2. split; [cbn [command_steps]; by rewrite (step_run _ _ _ _ _ E1)|].
  assert (Hslot : slot (ring_of (commands c1)) (index r) = slot r (index r)) by (unfold slot; by rewrite Hb1).
  rewrite Hslot, Hsame in Hr2. unfold fetch. by rewrite Hd, Hq, Hr2, Hcy, Bool.eqb_negb1.
Qed.

(** *** Two commands built together *)

(** What the hardware executes in [n] looks. *)
Fixpoint looks (n : nat) (q : Consumer) (m : memory) : list TRB :=
  match n with
  | O => []
  | S n => let '(o, q) := fetch q m in option_list o ++ looks n q m
  end.

Lemma pushed_within r t m : ring_fits r -> index r + 1 < capacity r - 1 ->
  (pushed r t m).1 = mkRing (base r) (index r + 1) (capacity r) (cycle r) /\
  read_trb (pushed r t m).2 (slot r (capacity r - 1)) = read_trb m (slot r (capacity r - 1)).
Proof using.
  intros [Hc Hi] Hlt. unfold pushed. replace (capacity r - 1 <=? index r + 1) with false by lia. split; [done|].
  cbn [snd]. by rewrite read_slot_write by lia.
Qed.

Lemma pushed_last r t m : ring_fits r -> index r + 1 = capacity r - 1 ->
  (pushed r t m).1 = mkRing (base r) 0 (capacity r) (negb (cycle r)) /\
  read_trb (pushed r t m).2 (slot r (capacity r - 1)) = LinkTRB_Create (cycle r) (base r).
Proof using.
  intros [Hc Hi] He. unfold pushed. replace (capacity r - 1 <=? index r + 1) with true by lia. split; [done|].
  cbn [snd]. rewrite He. apply read_write_same.
Qed.

(** Before the end of the lap the link is left alone. *)
Lemma command_steps_link l : forall c x c' x',
  let r := ring_of (commands c) in ring_fits r -> index r + Z.of_nat (length l) < capacity r - 1 ->
  command_steps l (c, x) = inr (tt, (c', x')) ->
  read_trb (read_memory x') (slot r (capacity r - 1)) = read_trb (read_memory x) (slot r (capacity r - 1)).
Proof using All.
  induction l as [|t l IH]; intros c x c' x' r Hf Hl Hrun; [by injection Hrun as <- <-|]. cbn [length] in Hl. pose proof Hf as [Hc Hidx].
  destruct (command_step_run t c x Hf) as (c1 & x1 & E1 & Hpush & _). fold r in Hpush.
  destruct (pushed_within r t (read_memory x) Hf ltac:(lia)) as [Hr1 Hm1]. rewrite <- Hpush in Hr1, Hm1. cbn [fst snd] in Hr1, Hm1.
  cbn [command_steps] in Hrun. rewrite (step_run _ _ _ _ _ E1) in Hrun. specialize (IH c1 x1 c' x'). rewrite Hr1 in IH. unfold ring_fits in IH.
  cbn [index capacity] in IH. specialize (IH ltac:(lia) ltac:(lia) Hrun). change (slot (mkRing _ _ _ _) ?k) with (slot r k) in IH. by rewrite IH.
Qed.

(** C40: The two commands that address a device are built together, with the cycle
    state of the first. When the first is the last of a lap the hardware
    executes it and then nothing: neither the second nor any of the commands
    that follow it up to the end of the lap. *)
Theorem commands_built_together t1 t2 l c x q :
  let k := commands c in let r := ring_of k in
  ring_fits r -> 0 <= base r < 2 ^ 64 /\ base r mod 16 = 0 -> command_index k = command_capacity k - 2 ->
  dequeue q = slot r (index r) -> ccs q = command_cycle k ->
  GetCycle t1 = command_cycle k -> EventTRB_GetType t1 <> LINK_TYPE -> GetCycle t2 = command_cycle k ->
  Z.of_nat (length l) <= command_capacity k - 3 ->
  exists c' x', command_steps (t1 :: t2 :: l) (c, x) = inr (tt, (c', x')) /\
    forall n, looks n q (read_memory x') = take n [t1].
Proof using All.
  intros k r Hf [Hb Hal] Hlast Hd Hq Ht1 Hty Ht2 Hl. pose proof Hf as [Hc Hidx].
  assert (Hlast' : index r + 1 = capacity r - 1) by (unfold r, ring_of; cbn [index capacity]; fold k; lia).
  change (command_capacity k) with (capacity r) in Hl. set (N := capacity r - 1) in *.
  destruct (command_step_run t1 c x Hf) as (c1 & x1 & E1 & Hp1 & _). fold k r in Hp1.
  destruct (pushed_last r t1 (read_memory x) Hf Hlast') as [Hr1 Hm1]. destruct (pushed_shape r t1 (read_memory x) Hf) as (_ & _ & _ & _ & _ & Hs1).
  rewrite <- Hp1 in Hr1, Hm1, Hs1. cbn [fst snd] in Hr1, Hm1, Hs1. assert (Hf1 : ring_fits (ring_of (commands c1))) by (rewrite Hr1; unfold ring_fits; cbn [index capacity]; lia).
  destruct (command_step_run t2 c1 x1 Hf1) as (c2 & x2 & E2 & Hp2 & _).
  destruct (pushed_shape (ring_of (commands c1)) t2 (read_memory x1) Hf1) as (Hf2 & Hb2 & Hc2 & Hi2 & _ & Hs2).
  rewrite <- Hp2 in Hf2, Hb2, Hc2, Hi2, Hs2. cbn [fst snd] in Hf2, Hb2, Hc2, Hi2, Hs2. rewrite Hr1 in Hb2, Hc2, Hi2, Hs2. cbn [base index capacity] in Hb2, Hc2, Hi2, Hs2.
  fold N in Hi2. rewrite Z.mod_small in Hi2 by lia.
  assert (Hslot2 : forall i, slot (ring_of (commands c2)) i = slot r i) by (intros i; unfold slot; by rewrite Hb2).
  destruct (command_steps_spare l c2 x2 0 Hf2) as (c3 & x3 & E3 & Hz); [lia| |].
  { rewrite Hc2, Hi2. fold N. replace (0 - (0 + 1)) with (-1) by lia. rewrite <- (Z.mod_unique_pos (-1) N (-1) (N - 1)) by lia. lia. }
  assert (Hall : command_steps (t2 :: l) (c1, x1) = inr (tt, (c3, x3))) by (cbn [command_steps]; by rewrite (step_run _ _ _ _ _ E2)).
  exists c3, x3. split; [cbn [command_steps] in *; by rewrite (step_run _ _ _ _ _ E1)|].
  (* the three slots the hardware meets *)
  assert (Hfirst : read_trb (read_memory x3) (slot r (index r)) = t1).
  { destruct (command_steps_spare (t2 :: l) c1 x1 (index r) Hf1) as (c4 & x4 & E4 & H4).
    - rewrite Hr1. cbn [capacity]. lia.
    - rewrite Hr1. cbn [capacity index length]. fold N. rewrite Z.mod_small by lia. lia.
    - rewrite Hall in E4. injection E4 as <- <-. rewrite Hr1 in H4. change (slot (mkRing _ _ _ _) ?i) with (slot r i) in H4. by rewrite H4. }
  assert (Hlink : read_trb (read_memory x3) (slot r N) = LinkTRB_Create (cycle r) (base r)).
  { pose proof (command_steps_link (t2 :: l) c1 x1 c3 x3 Hf1) as H4. rewrite Hr1 in H4. cbn [capacity index length] in H4.
    specialize (H4 ltac:(lia) Hall). change (slot (mkRing _ _ _ _) ?i) with (slot r i) in H4. fold N in H4. by rewrite H4. }
  assert (Hzero : read_trb (read_memory x3) (slot r 0) = t2).
  { rewrite Hslot2 in Hz. rewrite Hz. exact Hs2. }
  change (command_cycle k) with (cycle r) in *.
  assert (Hstuck : fetch (mkConsumer (base r) (negb (cycle r))) (read_memory x3) = (None, mkConsumer (base r) (negb (cycle r)))).
  { unfold fetch. cbn [dequeue ccs]. replace (base r) with (slot r 0) at 1 by (unfold slot; lia). rewrite Hzero, Ht2, Bool.eqb_negb2. done. }
  assert (Hrest : forall n, looks n (mkConsumer (base r) (negb (cycle r))) (read_memory x3) = []).
  { induction n as [|n IH]; [done|]. cbn [looks]. rewrite Hstuck. exact IH. }
  assert (Hl1 : forall n, looks n (mkConsumer (slot r N) (cycle r)) (read_memory x3) = []).
  { intros [|n]; [done|]. cbn [looks]. unfold fetch. cbn [dequeue ccs]. rewrite Hlink, Link_GetCycle, Bool.eqb_reflx, Link_type, Link_target, Link_toggles by done. apply Hrest. }
  intros [|n]; [done|]. cbn [looks]. unfold fetch at 1. rewrite Hd, Hq, Hfirst, Ht1, Bool.eqb_reflx, (proj2 (Z.eqb_neq _ _) Hty).
  replace (slot r (index r) + SIZEOF_TRB) with (slot r N) by (unfold slot, SIZEOF_TRB; lia). rewrite Hl1. by destruct n.
Qed.

(** ** Events *)

(** The block under the index [i] of the event ring. *)
Definition event_slot (e : Events) (i : Z) : Z := event_ring e + SIZEOF_TRB * i.

(** The ring after the hardware posted the events [h], of which the first [k]
    were handled: the last lap is in place, each event with the cycle bit of its
    own, and slots never reached have the bit clear. *)
Record queue (e : Events) (m : memory) (h : list TRB) (k : nat) : Prop := {
  q_capacity : 1 <= event_capacity e < 2 ^ 32;
  q_index : event_index e = Z.of_nat k mod event_capacity e;
  q_cycle : event_cycle e = Z.even (Z.of_nat k / event_capacity e);
  q_range : Z.of_nat k <= Z.of_nat (length h) <= Z.of_nat k + event_capacity e;
  q_bits : forall (j : nat) t, h !! j = Some t -> GetCycle t = Z.even (Z.of_nat j / event_capacity e);
  q_slots : forall (j : nat) t, h !! j = Some t -> Z.of_nat (length h) <= Z.of_nat j + event_capacity e ->
    read_trb m (event_slot e (Z.of_nat j mod event_capacity e)) = t;
  q_clear : forall i, Z.of_nat (length h) <= i < event_capacity e -> GetCycle (read_trb m (event_slot e i)) = false }.

Lemma lap_shift p N : 0 < N -> (p + N) mod N = p mod N /\ (p + N) / N = p / N + 1.
Proof. intros HN. split; [by rewrite <- (Z_mod_plus_full p 1 N), Z.mul_1_l|]. by rewrite <- (Z.mul_1_l N) at 1; rewrite Z_div_plus_full by lia. Qed.

(** The slot after the events has the other cycle bit. *)
Lemma queue_end e m h k : queue e m h k ->
  GetCycle (read_trb m (event_slot e (Z.of_nat (length h) mod event_capacity e))) = negb (Z.even (Z.of_nat (length h) / event_capacity e)).
Proof.
  intros [Hc Hi Hy Hr Hb Hs Hz]. set (N := event_capacity e) in *. set (p := Z.of_nat (length h)) in *.
  destruct (Z.ltb_spec p N) as [Hlt|Hge].
  - rewrite Z.mod_small, Z.div_small, Hz by lia. done.
  - destruct (lookup_lt_is_Some_2 h (Z.to_nat (p - N)) ltac:(lia)) as [t Ht].
    destruct (lap_shift (p - N) N ltac:(lia)) as [Hm Hd]. rewrite Z.sub_add in Hm, Hd.
    pose proof (Hs _ _ Ht ltac:(lia)) as Hsl. rewrite Z2Nat.id, <- Hm in Hsl by lia. rewrite Hsl, (Hb _ _ Ht), Z2Nat.id by lia.
    by rewrite Hd, even_succ, negb_involutive.
Qed.

(** The block under the index is the next event, when there is one. *)
Lemma queue_current e m h k : queue e m h k ->
  let t := read_trb m (GetCurrentEvent e) in
  Bool.eqb (GetCycle t) (event_cycle e) = bool_decide (k < length h)%nat /\ (forall t', h !! k = Some t' -> t = t').
Proof.
  intros Hq. pose proof (queue_end _ _ _ _ Hq) as He. destruct Hq as [Hc Hi Hy Hr Hb Hs Hz].
  cbn zeta. change (GetCurrentEvent e) with (event_slot e (event_index e)). rewrite Hi, Hy.
  destruct (h !! k) as [t|] eqn:Et.
  - rewrite (Hs k t Et), (Hb k t Et), Bool.eqb_reflx by lia. split; [|congruence].
    symmetry. apply bool_decide_eq_true_2. by apply lookup_lt_Some in Et.
  - apply lookup_ge_None in Et. assert (Hk : k = length h) by lia. split; [|done].
    rewrite Hk, He, Bool.eqb_negb1. symmetry. apply bool_decide_eq_false_2. lia.
Qed.

Lemma queue_next e m h k : queue e m h k -> (k < length h)%nat -> queue (next_event e) m h (S k).
Proof.
  intros [Hc Hi Hy Hr Hb Hs Hz] Hlt. set (N := event_capacity e) in *.
  pose proof (Z.mod_pos_bound (Z.of_nat k) N ltac:(lia)) as Hbd.
  assert (Hn : exists i b, next_event e = mkEvents (event_ring e) (event_ring_segment_table e) i b N /\
    i = (Z.of_nat k + 1) mod N /\ b = Z.even ((Z.of_nat k + 1) / N)).
  { unfold next_event. fold N. rewrite wrap_small, Hi by lia. destruct (Z.leb_spec N (Z.of_nat k mod N + 1)) as [Hle|Hgt].
    - destruct (lap_end (Z.of_nat k) N) as [-> ->]; [lia..|]. eexists _, _. split; [reflexivity|]. by rewrite Hy, even_succ.
    - destruct (lap_next (Z.of_nat k) N) as [-> ->]; [lia..|]. eexists _, _. split; [reflexivity|]. done. }
  destruct Hn as (i & b & -> & -> & ->). constructor; cbn [event_capacity event_index event_cycle]; rewrite ?Nat2Z.inj_succ; unfold Z.succ; done || lia.
Qed.

(** The memory of the ring. *)
Definition same_ring (e : Events) (m m' : memory) : Prop :=
  forall i, 0 <= i < event_capacity e -> read_trb m' (event_slot e i) = read_trb m (event_slot e i).

Lemma queue_memory e m m' h k : queue e m h k -> same_ring e m m' -> queue e m' h k.
Proof.
  intros [Hc Hi Hy Hr Hb Hs Hz] Hm. constructor; try done.
  - intros j t Hj Hk. rewrite Hm by (apply Z.mod_pos_bound; lia). by apply Hs.
  - intros i Hl. rewrite Hm by lia. by apply Hz.
Qed.

(** The hardware posts an event, with the cycle bit of its lap. *)
Definition post (e : Events) (n : nat) (t : TRB) (m : memory) : memory :=
  write_trb (event_slot e (Z.of_nat n mod event_capacity e)) t m.

Lemma queue_post e m h k t : queue e m h k -> Z.of_nat (length h) < Z.of_nat k + event_capacity e ->
  GetCycle t = Z.even (Z.of_nat (length h) / event_capacity e) -> queue e (post e (length h) t m) (h ++ [t]) k.
Proof.
  intros [Hc Hi Hy Hr Hb Hs Hz] Hl Hcy. unfold post. set (N := event_capacity e) in *. set (p := Z.of_nat (length h)) in *.
  assert (Hlen : Z.of_nat (length (h ++ [t])) = p + 1) by (rewrite length_app; cbn [length]; lia).
  assert (Hother : forall i, i <> p mod N -> read_trb (write_trb (event_slot e (p mod N)) t m) (event_slot e i) = read_trb m (event_slot e i)).
  { intros i Hne. apply read_write_other. unfold event_slot, SIZEOF_TRB. lia. }
  constructor; rewrite ?Hlen; try done; fold N; try lia.
  - intros j u Hj. apply lookup_snoc_Some in Hj as [[Hlt Hj]|[-> <-]]; [by apply Hb|done].
  - intros j u Hj Hk. apply lookup_snoc_Some in Hj as [[Hlt Hj]|[-> <-]].
    + rewrite Hother by (apply mod_distinct; lia). apply Hs; [done|lia].
    + apply read_write_same.
  - intros i Hr'. rewrite Hother by (rewrite Z.mod_small; lia). apply Hz. lia.
Qed.

(** A device that is told of a transfer writes to its own rings, not to the
    event ring. *)
Definition spares (e : Events) : Prop := forall t (d : D) x d' x',
  SignalTransferComplete t d x = inr (d', x') -> same_ring e (read_memory x) (read_memory x').

Lemma same_ring_refl e m : same_ring e m m.
Proof. done. Qed.

Lemma get_run c x : (get : CM _) (c, x) = inr (c, (c, x)).
Proof. done. Qed.

Lemma device_at_same slot c x p w : device_at slot (c, x) = inr (p, w) -> w = (c, x).
Proof.
  unfold device_at, mbind, io_bind, get. cbn [fst snd]. destruct (devices (slots c)) as [[a l]|]; [|done].
  destruct (1 <=? slot); [|done]. unfold or_stop. destruct (l !! _); [by intros [= _ <-]|done].
Qed.

Lemma set_device_frame slot p c x c' x' : (set_device slot p : CM unit) (c, x) = inr (tt, (c', x')) ->
  x' = x /\ events c' = events c /\ commands c' = commands c /\ registers c' = registers c /\ port_table c' = port_table c.
Proof.
  unfold set_device, mbind, io_bind, get. cbn [fst snd]. destruct (devices (slots c)) as [[a l]|]; [|done].
  destruct (_ && _); [|done]. by intros [= <- <-].
Qed.

Lemma handle_event_frame t c x c' x' : spares (events c) -> handle_event t (c, x) = inr (tt, (c', x')) ->
  events c' = events c /\ registers c' = registers c /\ same_ring (events c) (read_memory x) (read_memory x').
Proof.
  intros Hsp. unfold handle_event. destruct (_ =? _); [|destruct (_ =? _); [|destruct (_ =? _)]].
  - unfold handle_transfer. intros (p & w & Hd & H)%step_inv. apply device_at_same in Hd as ->.
    destruct p as [| |object d]; [done|by injection H as <- <-|]. apply step_inv in H as (d' & [c1 x1] & Hk & H).
    unfold kernel, zoom in Hk. cbn [fst snd] in Hk. destruct (SignalTransferComplete t d x) as [|[d2 x2]] eqn:Es; [done|]. injection Hk as <- <- <-.
    apply set_device_frame in H as (-> & -> & _ & -> & _). split_and!; [done..|]. by eapply Hsp.
  - unfold modify. by intros [= <- <-].
  - unfold handle_port_change. intros (c1 & w1 & Hg & H)%step_inv. injection Hg as <- <-.
    apply step_inv in H as (p & w2 & Hp & H). cbn [fst] in Hp. unfold or_stop in Hp. destruct (mark_port _ _); [|done]. injection Hp as <- <-.
    unfold modify, host_, mbind, io_bind in H. injection H as <- <-. split_and!; [done..|]. cbn [snd]. by rewrite unblock_memory.
  - by intros [= <- <-].
Qed.

(** The events one by one. *)
Fixpoint handle_all (l : list TRB) : CM unit :=
  match l with
  | [] => mret tt
  | t :: l => handle_event t ≫= fun _ => UpdateEventPointer ≫= fun _ => handle_all l
  end.

Lemma handle_events_all fuel : forall c x h k, queue (events c) (read_memory x) h k -> spares (events c) ->
  (length h - k < fuel)%nat ->
  handle_events fuel (c, x) = handle_all (drop k h) (c, x) /\
  (forall c' x', handle_all (drop k h) (c, x) = inr (tt, (c', x')) ->
     registers c' = registers c /\ event_ring (events c') = event_ring (events c) /\ event_capacity (events c') = event_capacity (events c) /\
     queue (events c') (read_memory x') h (length h)).
Proof.
  induction fuel as [|fuel IH]; intros c x h k Hq Hsp Hf; [lia|].
  destruct (queue_current _ _ _ _ Hq) as [Hcur Hval]. cbn [handle_events].
  rewrite (step_run get _ _ _ _ (get_run c x)), (step_run memory_of _ (c, x) (read_memory x) (c, x) eq_refl). cbn [fst snd]. rewrite Hcur.
  destruct (h !! k) as [t|] eqn:Et.
  - pose proof (lookup_lt_Some _ _ _ Et) as Hlt. rewrite bool_decide_eq_true_2 by done. rewrite (Hval t eq_refl), (drop_S _ _ _ Et).
    cbn [handle_all]. destruct (handle_event t (c, x)) as [e|[[] [c1 x1]]] eqn:Eh; [unfold mbind, io_bind; rewrite Eh; done|].
    rewrite !(step_run _ _ _ _ _ Eh). destruct (handle_event_frame _ _ _ _ _ Hsp Eh) as (He1 & Hr1 & Hm1).
    pose proof (queue_next _ _ _ _ (queue_memory _ _ _ _ _ Hq Hm1) Hlt) as Hq1. rewrite <- He1 in Hq1.
    set (c2 := set_events (next_event (events c1)) c1).
    assert (Hu : (UpdateEventPointer : CM unit) (c1, x1) = inr (tt, (c2, x1))) by done. rewrite !(step_run _ _ _ _ _ Hu).
    assert (Hsame : event_ring (events c2) = event_ring (events c) /\ event_capacity (events c2) = event_capacity (events c)).
    { unfold c2. cbn [events set_events]. rewrite He1. unfold next_event. by destruct (_ <=? _). }
    destruct Hsame as [Hring Hcap]. destruct (IH c2 x1 h (S k) Hq1) as [-> Hend]; [|lia|].
    { unfold spares, same_ring, event_slot in *. rewrite Hring, Hcap. done. }
    split; [done|]. intros c' x' H. destruct (Hend c' x' H) as (H1 & H2 & H3 & H4). rewrite H1, H2, H3. done.
  - apply lookup_ge_None in Et. rewrite bool_decide_eq_false_2 by lia. rewrite drop_ge by done. cbn [handle_all]. split; [done|].
    intros c' x' [= <- <-]. split_and!; [done..|]. assert (Hk : k = length h) by (pose proof (q_range _ _ _ _ Hq); lia). by rewrite <- Hk.
Qed.

(** ** The hardware and the handler together *)

(** What the hardware posted, and how many of those events were handled. *)
Record EventSystem := mkEventSystem { world : Controller D * X; posted : list TRB; handled : nat }.

Inductive event_step : EventSystem -> EventSystem -> Prop :=
| step_post c x h k t :
    Z.of_nat (length h) < Z.of_nat k + event_capacity (events c) ->
    GetCycle t = Z.even (Z.of_nat (length h) / event_capacity (events c)) ->
    event_step (mkEventSystem (c, x) h k) (mkEventSystem (c, on_memory (post (events c) (length h) t) x) (h ++ [t]) k)
| step_irq c x h k c' x' :
    HandleIRQ (c, x) = inr (tt, (c', x')) -> event_step (mkEventSystem (c, x) h k) (mkEventSystem (c', x') h (length h)).

Definition event_system_ok (e : Events) (s : EventSystem) : Prop :=
  queue (events (world s).1) (read_memory (world s).2) (posted s) (handled s) /\
  event_ring (events (world s).1) = event_ring e /\ event_capacity (events (world s).1) = event_capacity e.

(** The registers the handler writes and the end of interrupt are not memory. *)
Lemma HandleIRQ_run c x : HandleIRQ (c, x) =
  (handle_events (event_fuel (events c)) ≫= fun _ => get ≫= fun c =>
   host_ (write64 (GetPrimaryInterrupter (registers c) + ERDP) (Z.lor (GetCurrentEvent (events c)) ERDP_EHB_FLAG)))
  (c, SendEOI (write32 (opregs (registers c) + USBSTS) 0x8 x)).
Proof. done. Qed.

Lemma event_system_step e s s' : spares e -> event_system_ok e s -> event_step s s' -> event_system_ok e s'.
Proof.
  intros Hsp [Hq [Hr Hc]] Hst. destruct Hst as [c x h k t Hl Hcy|c x h k c' x' Hi]; unfold event_system_ok in *; cbn [world posted handled fst snd] in *.
  - split; [|done]. rewrite read_on_memory. by apply queue_post.
  - set (x0 := SendEOI (write32 (opregs (registers c) + USBSTS) 0x8 x)) in *.
    assert (Hm : read_memory x0 = read_memory x) by (unfold x0; by rewrite eoi_memory, write32_memory).
    assert (Hspc : spares (events c)) by (unfold spares, same_ring, event_slot in *; by rewrite Hr, Hc).
    rewrite <- Hm in Hq. pose proof (q_range _ _ _ _ Hq) as Hrange. pose proof (q_capacity _ _ _ _ Hq) as Hcap.
    destruct (handle_events_all (event_fuel (events c)) c x0 h k Hq Hspc ltac:(unfold event_fuel; lia)) as [Hrun Hend].
    rewrite HandleIRQ_run in Hi. fold x0 in Hi. apply step_inv in Hi as ([] & [c1 x1] & H1 & H2). rewrite Hrun in H1.
    destruct (Hend c1 x1 H1) as (_ & Hr1 & Hc1 & Hq1). unfold host_, get, mbind, io_bind in H2. injection H2 as <- <-. cbn [fst snd] in *.
    rewrite write64_memory, Hr1, Hc1. done.
Qed.

Lemma event_system_reachable e s s' : spares e -> event_system_ok e s -> rtc event_step s s' -> event_system_ok e s'.
Proof. intros Hsp H0 Hs. induction Hs as [|s0 s1 s2 Hst _ IH]; [done|]. apply IH. by eapply event_system_step. Qed.

(** The ring as it is configured: all its blocks clear, its segment table after
    them and inside the pages. *)
Lemma ConfigureEventRing_fresh c x c' x' : event_index (events c) = 0 -> event_cycle (events c) = true ->
  (ConfigureEventRing : CM bool) (c, x) = inr (true, (c', x')) ->
  queue (events c') (read_memory x') [] 0 /\ event_capacity (events c') = 508.
Proof.
  intros Hi Hy. unfold ConfigureEventRing. intros (c0 & w0 & Hg & H)%step_inv. injection Hg as <- <-.
  apply step_inv in H as (ring & [c1 x1] & Ha & H). unfold host in Ha. cbn [fst snd] in Ha. destruct (AllocateDMA _ x) as [o x2]. injection Ha as <- <- <-.
  destruct o as [ring|]; [|unfold modify, mbind, io_bind in H; done]. unfold host_, zero_pages, store, modify, mbind, io_bind in H. cbn [fst snd] in H.
  injection H as <- <-. cbn [events set_events event_capacity]. split; [|done].
  constructor; cbn [event_capacity event_index event_cycle length]; change EVENT_TRB_COUNT with 508 in *; try done; try lia.
  intros i Hr. unfold event_slot. cbn [event_ring]. rewrite !read_on_memory, flags_memory.
  assert (Hw : forall j, 0 <= j < 4 -> clear_words ring 0 (Z.to_nat (GetEventRingPages * (PAGE_SIZE / 4))) (read_memory x2) (word (ring + SIZEOF_TRB * i) j) = 0).
  { intros j Hj. rewrite clear_words_spec. unfold span, word, SIZEOF_TRB. replace (ring + 16 * i + 4 * j - ring) with ((4 * i + j) * 4) by lia.
    rewrite Z.mod_mul, Z.div_mul by lia. change (Z.of_nat _) with 2048. replace (0 <=? 4 * i + j) with true by lia. replace (4 * i + j <? 0 + 2048) with true by lia. done. }
  rewrite read_write_other by (unfold SIZEOF_TRB; change GetEventRingSegmentTableOffset with 8128; lia).
  unfold GetCycle, read_trb, rd. cbn [data3]. by rewrite (Hw 3).
Qed.

(** C19: From the configuration of the ring on, whatever the hardware posts and
    whenever it interrupts: an interrupt handles exactly the events posted since
    the last one, each once and in order, and ends. *)
Theorem events_handled_once c x c0 x0 c1 x1 h k :
  event_index (events c) = 0 -> event_cycle (events c) = true ->
  (ConfigureEventRing : CM bool) (c, x) = inr (true, (c0, x0)) -> spares (events c0) ->
  rtc event_step (mkEventSystem (c0, x0) [] 0) (mkEventSystem (c1, x1) h k) ->
  (k <= length h <= k + 508)%nat /\
  handle_events (event_fuel (events c1)) (c1, x1) = handle_all (drop k h) (c1, x1).
Proof.
  intros Hi Hy Hconf Hsp Hs. destruct (ConfigureEventRing_fresh c x c0 x0 Hi Hy Hconf) as [Hq0 Hc0].
  assert (H0 : event_system_ok (events c0) (mkEventSystem (c0, x0) [] 0)) by (split; [exact Hq0|by split]).
  destruct (event_system_reachable (events c0) _ _ Hsp H0 Hs) as [Hq [Hr Hc]]. cbn [world posted handled fst snd] in *.
  pose proof (q_range _ _ _ _ Hq) as Hrange. rewrite Hc, Hc0 in Hrange. split; [lia|].
  apply (handle_events_all _ c1 x1 h k Hq); [|unfold event_fuel; rewrite Hc, Hc0; lia].
  unfold spares, same_ring, event_slot in *. by rewrite Hr, Hc.
Qed.

End Rings.

(** ** A board *)

(** Registers that keep what is written to them, memory, and allocators that
    reuse nothing. *)
Record Board := mkBoard { board_memory : memory; board_registers : Z -> Z; next_page : Z; board_log : list (Z * Z) }.

#[global] Instance board_kernel : KernelMemory Board := {
  Heap_Allocate n b := (Some (next_page b), mkBoard (board_memory b) (board_registers b) (next_page b + 4096) (board_log b));
  Heap_Free _ b := b;
  AllocateDMA n b := (Some (next_page b), mkBoard (board_memory b) (board_registers b) (next_page b + n * 4096) (board_log b));
  FreeDMA _ _ b := b;
  read_memory b := board_memory b;
  on_memory f b := mkBoard (f (board_memory b)) (board_registers b) (next_page b) (board_log b) }.

#[global] Instance board_kernel_laws : KernelMemoryLaws Board.
Proof. by constructor. Qed.

Definition set_register (a v : Z) (b : Board) : Board :=
  mkBoard (board_memory b) (<[a := v]> (board_registers b)) (next_page b) (board_log b).
Definition log_call (p : Z * Z) (b : Board) : Board :=
  mkBoard (board_memory b) (board_registers b) (next_page b) (p :: board_log b).

#[global] Instance board_host : ControllerHost Board := {
  read8 a b := (u8 (board_registers b a), b);
  read32 a b := (board_registers b a, b);
  write32 := set_register;
  write64 := set_register;
  DisableMMIO b := b;
  EnableMMIO b := b;
  MapMemoryXBAR _ _ b := (0x100000, b);
  UnmapMemoryXBAR _ _ b := b;
  EnableBusMaster b := b;
  DisableBusMaster b := b;
  GetMSI b := (Some 0, b);
  ConfigureMSI _ _ _ _ b := b;
  MSI_Enable _ b := b;
  ReserveInterrupt b := (0x40, b);
  ReleaseInterrupt _ b := b;
  RegisterIRQ _ b := b;
  SendEOI b := b;
  GetLAPICLogicalID b := (0, b);
  PhysicalMemory_Allocate b := (next_page b, mkBoard (board_memory b) (board_registers b) (next_page b + 4096) (board_log b));
  PhysicalMemory_Free a b := log_call (1, a) b;
  MapGeneralPages _ _ _ b := (0, b);
  UnmapGeneralPages _ _ b := b;
  ChangeMappingFlags _ _ _ b := b;
  GetCountMillis b := (0, b);
  SpinWaitMillis _ b := b;
  CreateUpdaterTask b := (Some 0, b);
  AddTask _ b := (1, b);
  BlockTask id b := log_call (2, id) b;
  UnblockTask id b := log_call (3, id) b;
  interrupts_within _ b := (0%nat, b);
  hardware b := b }.

#[global] Instance board_host_laws : ControllerHostLaws Board.
Proof. by constructor. Qed.

(** A device that keeps the events it is told of. *)
#[global] Instance recorder : SlotDevice (list TRB) Board := {
  sizeof_Device := 64;
  new_Device _ := [];
  SignalTransferComplete t d b := inr (d ++ [t], b);
  Device_Initialize _ w := inr (true, w);
  Device_PostInitialization _ w := inr (true, w);
  Device_Destroy d w := inr (d, w) }.

Definition clear_board : Board := mkBoard (fun _ => 0) (fun _ => 0) 0x10000 [].

(** The first command of a new ring. *)
Definition command_controller : Controller (list TRB) := set_commands (mkCommands 0x10000 zero_trb 0 true 256) new_Controller.

Lemma command_executed_witness : exists c' x',
  command_step (NoOpTRB_Create true) (command_controller, clear_board) = inr (tt, (c', x')) /\
  executes (mkConsumer 0x10000 true) (read_memory x') = [NoOpTRB_Create true].
Proof.
  destruct (command_executed (NoOpTRB_Create true) command_controller clear_board [] (mkConsumer 0x10000 true)) as (c' & x' & E & H & _).
  - apply (produced_fresh 0x10000 256); [done|]. by intros i Hi.
  - by left.
  - done.
  - done.
  - by exists c', x'.
Defined.

Definition end_of_lap : Controller (list TRB) := set_commands (mkCommands 0x10000 zero_trb 254 true 256) new_Controller.

Lemma commands_built_together_witness : exists c' x',
  command_steps [AddressDeviceTRB_Create true true 1 0x8000; AddressDeviceTRB_Create true false 1 0x8000] (end_of_lap, clear_board) = inr (tt, (c', x')) /\
  looks 100 (mkConsumer 0x10FE0 true) (read_memory x') = [AddressDeviceTRB_Create true true 1 0x8000].
Proof.
  destruct (commands_built_together (AddressDeviceTRB_Create true true 1 0x8000) (AddressDeviceTRB_Create true false 1 0x8000) []
    end_of_lap clear_board (mkConsumer 0x10FE0 true)) as (c' & x' & E & H); try done.
  exists c', x'. split; [exact E|]. apply (H 100%nat).
Defined.

Lemma stale_command_blocks_witness : exists c' x',
  command_steps [NoOpTRB_Create false; NoOpTRB_Create true] (command_controller, clear_board) = inr (tt, (c', x')) /\
  fetch (mkConsumer 0x10000 true) (read_memory x') = (None, mkConsumer 0x10000 true).
Proof. apply (stale_command_blocks (NoOpTRB_Create false) [NoOpTRB_Create true] command_controller clear_board (mkConsumer 0x10000 true)); done. Defined.

Definition port_event : TRB := mkTRB 0x01000000 0 0x01000000 (34 * 1024 + 1).

(** The state after a computation. *)
Definition after {W A} (m : Prelude.io W A) (w : W) : W :=
  match m w with
  | inr (_, w) => w
  | inl _ => w
  end.

Definition configured : Controller (list TRB) * Board := after ConfigureEventRing (new_Controller, clear_board).

Lemma events_handled_once_witness :
  let '(c0, x0) := configured in
  let x1 := on_memory (post (events c0) 0 port_event) x0 in
  handle_events (event_fuel (events c0)) (c0, x1) = handle_all [port_event] (c0, x1).
Proof.
  apply (events_handled_once new_Controller clear_board (fst configured) (snd configured) _ _ [port_event] 0); [done|done|reflexivity| |].
  - intros t d x d' x' [= <- <-]. done.
  - apply rtc_once. by apply (step_post _ _ []).
Defined.
