(* ===== verification/XhciPortsProps.v ===== *)
(** * The xHCI controller: no port is missed, and what a failure leaves

    The task that scans the ports never goes to sleep on a port that changed.
    When a scratchpad buffer cannot be mapped a frame is lost and frame 0 given
    away; a controller that is released goes on running. *)
From S2P Require Import Packed Trb XhciContext XhciContextProps TransferRing Prelude XhciController XhciPorts XhciControllerProps.

(** ** What a computation does to the table of ports *)

Section Keeps.
Context {D X : Type} `{!KernelMemory X} `{!ControllerHost X} `{!SlotDevice D X}.
#[local] Abbreviation CM := (Prelude.io (Controller D * X)).

(** A property of the table that an interrupt does not break. *)
Definition stable (I : Ports -> Prop) : Prop := forall id p p', I p -> mark_port id p = Some p' -> I p'.

(** From tables with [I], the computation leads to results and tables with [J]. *)
Definition leads {A} (I : Ports -> Prop) (m : CM A) (J : A -> Ports -> Prop) : Prop :=
  forall c x a c' x', I (port_table c) -> m (c, x) = inr (a, (c', x')) -> J a (port_table c').

Definition keeps {A} (I : Ports -> Prop) (m : CM A) : Prop := leads I m (fun _ => I).

Lemma leads_bind {A B} I J K (m : CM A) (f : A -> CM B) : leads I m J -> (forall a, leads (J a) (f a) K) -> leads I (m ≫= f) K.
Proof.
  intros Hm Hf c x b c' x' Hi Hrun. apply step_inv in Hrun as (a & [c1 x1] & H1 & H2). eapply Hf; [|exact H2]. by eapply Hm.
Qed.

Lemma keeps_bind {A B} I (m : CM A) (f : A -> CM B) : keeps I m -> (forall a, keeps I (f a)) -> keeps I (m ≫= f).
Proof. intros Hm Hf. by eapply leads_bind. Qed.

Lemma keeps_ret {A} I (a : A) : keeps I (mret a : CM A).
Proof. by intros c x b c' x' Hi [= _ <- _]. Qed.

Lemma keeps_stop {A} I e : keeps I (stop e : CM A).
Proof. by intros c x b c' x' Hi [=]. Qed.

Lemma keeps_or_stop {A} I e (o : option A) : keeps I (or_stop e o : CM A).
Proof. destruct o; [apply keeps_ret|apply keeps_stop]. Qed.

Lemma keeps_get I : keeps I (get : CM _).
Proof. by intros c x b c' x' Hi [= _ <- _]. Qed.

Lemma keeps_host {A} I (f : X -> A * X) : keeps I (host f : CM A).
Proof. intros c x b c' x' Hi. unfold host. cbn [fst snd]. destruct (f x). by intros [= _ <- _]. Qed.

Lemma keeps_host_ I (f : X -> X) : keeps I (host_ f : CM unit).
Proof. by intros c x b c' x' Hi [= _ <- _]. Qed.

Lemma keeps_kernel {A} I (m : Prelude.io X A) : keeps I (kernel m : CM A).
Proof. intros c x b c' x' Hi. unfold kernel, zoom. cbn [fst snd]. destruct (m x) as [|[a y]]; [done|]. by intros [= _ <- _]. Qed.

Lemma keeps_modify I (f : Controller D -> Controller D) : (forall c, port_table (f c) = port_table c) -> keeps I (modify f : CM unit).
Proof. intros Hf c x b c' x' Hi [= _ <- _]. cbn [fst]. by rewrite Hf. Qed.

End Keeps.

Create HintDb keeps.
#[export] Hint Resolve keeps_ret keeps_stop keeps_or_stop keeps_get keeps_host keeps_host_ keeps_kernel : keeps.

(** One step of a computation at a time, through its case analyses. *)
Ltac keeps_step :=
  match goal with
  | |- forall _, _ => intro
  | |- keeps _ (modify _) => apply keeps_modify; intros; reflexivity
  | |- keeps _ (match ?x with _ => _ end) => destruct x
  | |- keeps _ (mbind _ _) => apply keeps_bind
  | |- keeps _ _ => solve [eauto with keeps]
  end.
Ltac keeps_all := repeat keeps_step.

Section Scan.
Context {D X : Type} `{!KernelMemory X} `{!ControllerHost X} `{!SlotDevice D X}.
#[local] Abbreviation CM := (Prelude.io (Controller D * X)).

(** What is asked of a device: it reaches the ports through interrupts only. *)
Class SlotDeviceLaws := {
  initialize_keeps : forall I s, stable I -> keeps I (Device_Initialize s : CM bool);
  post_initialization_keeps : forall I s, stable I -> keeps I (Device_PostInitialization s : CM bool);
  destroy_keeps : forall I d, stable I -> keeps I (Device_Destroy d : CM D) }.
Context {HL : SlotDeviceLaws}.

Context (I : Ports -> Prop) (HI : stable I).

Lemma keeps_device_at s : keeps I (device_at s : CM _).
Proof using. unfold device_at. keeps_all. Qed.

Lemma keeps_set_device s p : keeps I (set_device s p : CM unit).
Proof using.
  unfold set_device. apply keeps_bind; [apply keeps_get|]. intros c. keeps_all.
Qed.
#[local] Hint Resolve keeps_device_at keeps_set_device : keeps.

Lemma keeps_port_change t : keeps I (handle_port_change t : CM unit).
Proof using HI.
  intros c x b c' x' Hi. unfold handle_port_change, mbind, io_bind, get, or_stop. cbn [fst snd].
  destruct (mark_port (GetPortID t - 1) (port_table c)) as [p|] eqn:E; [|done].
  unfold modify, host_. cbn. intros [= _ <- _]. cbn. by eapply HI.
Qed.
#[local] Hint Resolve keeps_port_change : keeps.

Lemma keeps_event t : keeps I (handle_event t : CM unit).
Proof using HI. unfold handle_event, handle_transfer. keeps_all. Qed.
#[local] Hint Resolve keeps_event : keeps.

Lemma keeps_events fuel : keeps I (handle_events fuel : CM unit).
Proof using HI. induction fuel as [|fuel IH]; cbn [handle_events]; unfold memory_of, UpdateEventPointer; keeps_all. Qed.
#[local] Hint Resolve keeps_events : keeps.

Lemma keeps_irq : keeps I (HandleIRQ : CM unit).
Proof using HI. unfold HandleIRQ. keeps_all. Qed.
#[local] Hint Resolve keeps_irq : keeps.

Lemma keeps_spin n f : keeps I (spin n f : CM bool).
Proof using HI. induction n as [|n IH]; cbn [spin]; keeps_all. Qed.
#[local] Hint Resolve keeps_spin : keeps.

Lemma keeps_send t : keeps I (SendCommand t : CM _).
Proof using HI.
  unfold SendCommand, EnqueueCommand, UpdateCommandPointer, EnqueueCommand, SignalCommand, SpinWaitMillsFor, store. keeps_all.
Qed.
#[local] Hint Resolve keeps_send : keeps.

Lemma keeps_enable t : keeps I (EnableSlot t : CM Z).
Proof using HI. unfold EnableSlot, GetCommandCycle. keeps_all. Qed.

Lemma keeps_disable s : keeps I (DisableSlot s : CM unit).
Proof using HI. unfold DisableSlot, GetCommandCycle. keeps_all. Qed.

Lemma keeps_port_at i : keeps I (port_at i : CM Port).
Proof using. unfold port_at. keeps_all. Qed.
#[local] Hint Resolve keeps_enable keeps_disable keeps_port_at : keeps.

(** An update of a port, on the table. *)
Definition table_update (i : Z) (f : Port -> Port) (t : Ports) : Ports :=
  mkPorts ((fun '(array, l) => (array, alter f (Z.to_nat i) l)) <$> ports t) (port_update t) (port_updater_task_id t).

Lemma port_at_run i (c : Controller D) (x : X) p w : port_at i (c, x) = inr (p, w) ->
  w = (c, x) /\ 0 <= i /\ exists array l, ports (port_table c) = Some (array, l) /\ l !! Z.to_nat i = Some p.
Proof using.
  unfold port_at, mbind, io_bind, get. cbn [fst snd]. destruct (ports (port_table c)) as [[array l]|]; [|done].
  destruct (Z.leb_spec 0 i); [|done]. unfold or_stop. destruct (l !! Z.to_nat i) as [q|] eqn:E; [|done]. intros [= <- <-].
  split_and!; [done..|]. by exists array, l.
Qed.

Lemma update_port_run i f (c : Controller D) (x : X) a c' x' : (update_port i f : CM unit) (c, x) = inr (a, (c', x')) ->
  x' = x /\ port_table c' = table_update i f (port_table c).
Proof using.
  unfold update_port. intros (p & w & Hp & Hrun)%step_inv. apply port_at_run in Hp as (-> & Hi & array & l & Ht & Hl).
  unfold get, modify, mbind, io_bind in Hrun. cbn [fst snd] in Hrun. injection Hrun as _ <- <-. split; [done|].
  unfold table_update. cbn [port_table set_ports]. rewrite Ht. cbn. do 3 f_equal.
  apply list_eq. intros j. destruct (decide (j = Z.to_nat i)) as [->|Hne].
  - rewrite list_lookup_alter_eq, Hl. apply list_lookup_insert_eq. by eapply lookup_lt_Some.
  - by rewrite list_lookup_insert_ne, list_lookup_alter_ne by done.
Qed.
Lemma keeps_update_port i f : (forall t, I t -> I (table_update i f t)) -> keeps I (update_port i f : CM unit).
Proof using. intros Hf c x a c' x' Hi Hrun. apply update_port_run in Hrun as [_ ->]. by apply Hf. Qed.

(** Slots are given to ports and taken back without a trace in the flags. *)
Definition blind : Prop := forall i s t, I t -> I (table_update i (set_slot s) t).

Lemma keeps_set_slot i s : blind -> keeps I (update_port i (set_slot s) : CM unit).
Proof using. intros Hb. apply keeps_update_port. intros t. apply Hb. Qed.
#[local] Hint Resolve keeps_set_slot : keeps.

Lemma keeps_drop_slot i : blind -> keeps I (drop_slot i : CM unit).
Proof using HI. intros Hb. unfold drop_slot. keeps_all. Qed.

Lemma keeps_initialize s : keeps I (Device_Initialize s : CM bool).
Proof using HI HL. by apply initialize_keeps. Qed.
Lemma keeps_post_initialization s : keeps I (Device_PostInitialization s : CM bool).
Proof using HI HL. by apply post_initialization_keeps. Qed.
Lemma keeps_destroy d : keeps I (Device_Destroy d : CM D).
Proof using HI HL. by apply destroy_keeps. Qed.
#[local] Hint Resolve keeps_initialize keeps_post_initialization keeps_destroy keeps_drop_slot : keeps.

Lemma keeps_disconnect i : blind -> keeps I (disconnect i : CM unit).
Proof using HI HL. intros Hb. unfold disconnect. keeps_all. Qed.

Lemma keeps_drop_device i s o : blind -> keeps I (drop_device i s o : CM unit).
Proof using HI. intros Hb. unfold drop_device. keeps_all. Qed.
#[local] Hint Resolve keeps_disconnect keeps_drop_device : keeps.

Lemma keeps_attach i speed : blind -> keeps I (attach i speed : CM unit).
Proof using HI HL. intros Hb. unfold attach, destroy_in_place. keeps_all. Qed.

Lemma keeps_access i : keeps I (AccessOperationalPort i : CM _).
Proof using. unfold AccessOperationalPort, GetMaxPorts. keeps_all. Qed.
#[local] Hint Resolve keeps_attach keeps_access : keeps.

(** All of a scan of a port after its flag is cleared. *)
Lemma keeps_rest i p : blind -> keeps I (
    let revision := major p in
    AccessOperationalPort i ≫= fun port =>
    match port with
    | None => stop NullAccess
    | Some port =>
        flag port PORTSC_PP ≫= fun powered =>
        if negb powered then mret tt
        else
          flag port PORTSC_PRC ≫= fun finished_reset =>
          flag port PORTSC_CSC ≫= fun conn_changed =>
          flag port PORTSC_PED ≫= fun port_enabled =>
          flag port PORTSC_CCS ≫= fun is_connected =>
          host_ (write32 port (Z.lor (Z.lor PORTSC_CSC PORTSC_PRC) PORTSC_PP)) ≫= fun _ =>
          if negb is_connected then disconnect i
          else
            port_ready port revision port_enabled finished_reset conn_changed ≫= fun ready =>
            if (ready : bool) then GetSpeedID port ≫= fun speed_id => attach i speed_id else mret tt
    end : CM unit).
Proof using HI HL. intros Hb. unfold flag, port_ready, GetSpeedID. cbn zeta. keeps_all. Qed.
End Scan.

(** ** The scan *)

Section Rounds.
Context {D X : Type} `{!KernelMemory X} `{!ControllerHost X} `{!SlotDevice D X} {HL : SlotDeviceLaws (D := D) (X := X)}.
#[local] Abbreviation CM := (Prelude.io (Controller D * X)).

(** [n] ports; unless one changed since, those before [i] are clean. *)
Definition watched (n i : Z) (t : Ports) : Prop :=
  match ports t with
  | None => True
  | Some (_, l) => Z.of_nat (length l) = n /\
      (port_update t = true \/ forall (j : nat) p, l !! j = Some p -> dirty p = true -> i <= Z.of_nat j)
  end.

Lemma watched_stable n i : stable (watched n i).
Proof.
  intros id p p' Hi. unfold mark_port. destruct (ports p) as [[array l]|] eqn:E; [|done]. cbn [mbind option_bind].
  destruct (0 <=? id); [|done]. destruct (l !! Z.to_nat id) as [port|]; [|done]. cbn [mbind option_bind]. intros [= <-].
  unfold watched in *. rewrite E in Hi. cbn. rewrite length_insert. destruct Hi as [Hl _]. split; [done|by left].
Qed.

Lemma watched_blind n i : blind (watched n i).
Proof.
  intros k s t. unfold watched, table_update. cbn. destruct (ports t) as [[array l]|]; [|done]. cbn. rewrite length_alter.
  intros [Hl [Hu|Hd]]; (split; [done|]); [by left|]. right. intros j p Hj Hp. destruct (decide (j = Z.to_nat k)) as [->|Hne].
  - rewrite list_lookup_alter_eq in Hj. destruct (l !! Z.to_nat k) as [q|] eqn:Eq; [|done]. injection Hj as <-. by eapply Hd.
  - rewrite list_lookup_alter_ne in Hj by done. by eapply Hd.
Qed.

Lemma update_one_leads n i : leads (watched n i) (update_one i : CM unit) (fun _ => watched n (i + 1)).
Proof using All.
  intros c x [] c' x' Hi Hrun. unfold update_one in Hrun. apply step_inv in Hrun as (p & w & Hp & Hrun).
  apply port_at_run in Hp as (-> & Hpos & array & l & Ht & Hl). destruct (dirty p) eqn:Ed; cbn [negb] in Hrun.
  - apply step_inv in Hrun as ([] & [c1 x1] & Hup & Hrun). eapply (keeps_rest _ (watched_stable n (i + 1)) i p (watched_blind n (i + 1))); [|exact Hrun].
    apply update_port_run in Hup as [_ ->]. unfold watched, table_update in *. rewrite Ht in *. cbn. rewrite length_alter.
    destruct Hi as [Hlen [Hu|Hd]]; (split; [done|]); [by left|]. right. intros j q Hj Hq. destruct (decide (j = Z.to_nat i)) as [->|Hne].
    + rewrite list_lookup_alter_eq, Hl in Hj. injection Hj as <-. done.
    + rewrite list_lookup_alter_ne in Hj by done. pose proof (Hd j q Hj Hq). lia.
  - injection Hrun as <- <-. unfold watched in *. rewrite Ht in *. destruct Hi as [Hlen [Hu|Hd]]; (split; [done|]); [by left|].
    right. intros j q Hj Hq. pose proof (Hd j q Hj Hq). destruct (decide (j = Z.to_nat i)) as [->|Hne]; [congruence|lia].
Qed.

Lemma scan_ports_leads n k : forall i, leads (watched n i) (scan_ports (seqZ i (Z.of_nat k)) : CM unit) (fun _ => watched n (i + Z.of_nat k)).
Proof using All.
  induction k as [|k IH]; intros i.
  - change (seqZ i (Z.of_nat 0)) with (@nil Z). rewrite Z.add_0_r. apply (keeps_ret (watched n i)).
  - rewrite seqZ_cons by lia. replace (Z.pred (Z.of_nat (S k))) with (Z.of_nat k) by lia. cbn [scan_ports].
    eapply leads_bind; [apply update_one_leads|]. intros []. replace (i + Z.of_nat (S k)) with (i + 1 + Z.of_nat k) by lia.
    replace (Z.succ i) with (i + 1) by lia. apply IH.
Qed.

Definition clean (t : Ports) : Prop :=
  match ports t with
  | None => True
  | Some (_, l) => forall p, p ∈ l -> dirty p = false
  end.

End Rounds.

(** ** Failures *)

(** What the frames and the mappings leave alone, and registers that can be
    read without an effect. *)
Class FrameLaws (X : Type) `{!KernelMemory X} `{!ControllerHost X} := {
  reg : X -> Z -> Z;
  read32_reg : forall a x, read32 a x = (reg x a, x);
  allocate_memory : forall x, read_memory (PhysicalMemory_Allocate x).2 = read_memory x;
  mapping_memory : forall b n f x, read_memory (MapGeneralPages b n f x).2 = read_memory x;
  scratch_flags_memory : forall a f n x, read_memory (ChangeMappingFlags a f n x) = read_memory x }.

Section Failures.
Context {D X : Type} `{!KernelMemory X} `{!KernelMemoryLaws X} `{!ControllerHost X} `{!FrameLaws X} `{!SlotDevice D X}.
#[local] Abbreviation CM := (Prelude.io (Controller D * X)).

Lemma GetScratchpadPages_pos n : 0 < n < 2 ^ 16 -> 1 <= GetScratchpadPages (mkScratchpad 0 n).
Proof.
  intros Hn. unfold GetScratchpadPages, PAGE_SIZE. cbn [max_scratchpad_buffers]. apply Z.div_le_lower_bound; lia.
Qed.

Lemma scratchpad_count_range r : 0 <= scratchpad_count r < 2 ^ 16.
Proof. apply wrap_range. lia. Qed.

(** The first element of the array, once the pages are cleared. *)
Lemma cleared_entry a n m : 1 <= n -> load64 (clear_words a 0 (Z.to_nat (n * (PAGE_SIZE / 4))) m) a = 0.
Proof.
  intros Hn. assert (Hw : forall j, 0 <= j < 2 -> clear_words a 0 (Z.to_nat (n * (PAGE_SIZE / 4))) m (word a j) = 0).
  { intros j Hj. rewrite clear_words_spec. unfold span, word. change (PAGE_SIZE / 4) with 1024. replace (a + 4 * j - a) with (j * 4) by lia.
    rewrite Z.mod_mul, Z.div_mul, Z2Nat.id by lia. by replace ((0 =? 0) && (0 <=? j) && (j <? 0 + n * 1024)) with true by lia. }
  unfold load64, rd. rewrite !Hw by lia. done.
Qed.

(** When the first buffer cannot be mapped, its frame is kept by nobody and
    frame 0, which was never allocated, is freed. *)
Theorem scratchpad_mapping_failure c x array x1 buffer x2 x3 :
  let n := scratchpad_count (reg x (capability (registers c) + HCSPARAMS2)) in
  let pages := GetScratchpadPages (mkScratchpad 0 n) in
  n <> 0 -> Z.land (reg x (opregs (registers c) + PAGESIZE)) 0xFFFF = 1 ->
  AllocateDMA pages x = (Some array, x1) ->
  PhysicalMemory_Allocate (on_memory (clear_words array 0 (Z.to_nat (pages * (PAGE_SIZE / 4)))) (ChangeMappingFlags array uncached_flags pages x1)) = (buffer, x2) ->
  buffer <> 0 -> MapGeneralPages buffer 1 uncached_flags x2 = (0, x3) ->
  (ConfigureScratchpad : CM bool) (c, x) =
    inr (false, (set_scratchpad (mkScratchpad 0 n) c, FreeDMA array pages (PhysicalMemory_Free 0 x3))).
Proof.
  intros n pages Hn Hps Hdma Hbuf Hb Hmap. unfold ConfigureScratchpad, get, host, host_, modify, mbind, io_bind. cbn [fst snd].
  rewrite read32_reg. cbn [fst snd]. fold n. rewrite (proj2 (Z.eqb_neq n 0) Hn), read32_reg. cbn [fst snd]. rewrite Hps. cbn [Z.eqb Pos.eqb negb fst snd].
  cbn [fst snd]. fold pages. rewrite Hdma. cbn [fst snd]. unfold zero_pages, store, host_. cbn [fst snd].
  pose proof (scratchpad_count_range (reg x (capability (registers c) + HCSPARAMS2))) as Hr. fold n in Hr.
  rewrite (seqZ_cons 0 n) by lia. cbn [allocate_buffers]. unfold mbind, io_bind, host. cbn [fst snd]. rewrite Hbuf. cbn [fst snd].
  rewrite (proj2 (Z.eqb_neq buffer 0) Hb). cbn [fst snd]. rewrite Hmap. cbn [Z.eqb fst snd]. unfold abandon_scratchpad. change (seqZ 0 (0 + 1)) with [0].
  cbn [free_buffers]. unfold mbind, io_bind, memory_of, host, host_, get, modify. cbn [fst snd].
  pose proof (mapping_memory buffer 1 uncached_flags x2) as Hm3. rewrite Hmap in Hm3. cbn [snd] in Hm3.
  pose proof (allocate_memory (on_memory (clear_words array 0 (Z.to_nat (pages * (PAGE_SIZE / 4)))) (ChangeMappingFlags array uncached_flags pages x1))) as Hm2.
  rewrite Hbuf in Hm2. cbn [snd] in Hm2. rewrite Hm3, Hm2, read_on_memory, Z.add_0_r, cleared_entry; [done|].
  unfold pages. apply GetScratchpadPages_pos. lia.
Qed.

(** ** Release *)

(** What giving memory back does to the registers: nothing. *)
Class ReleaseLaws := {
  free_reg : forall p x a, reg (Heap_Free p x) a = reg x a;
  dma_reg : forall p n x a, reg (FreeDMA p n x) a = reg x a;
  frame_reg : forall p x a, reg (PhysicalMemory_Free p x) a = reg x a;
  unmap_reg : forall b p x a, reg (UnmapMemoryXBAR b p x) a = reg x a;
  vector_reg : forall v x a, reg (ReleaseInterrupt v x) a = reg x a;
  master_reg : forall x a, reg (DisableBusMaster x) a = reg x a;
  other_reg : forall a b v x, a <> b -> reg (write32 a v x) b = reg x b }.
Context {HR : ReleaseLaws}.

(** The computation leaves the register at [a] alone. *)
Definition calm {A} (a : Z) (m : CM A) : Prop := forall w r w', m w = inr (r, w') -> reg (snd w') a = reg (snd w) a.

Lemma calm_bind {A B} a (m : CM A) (f : A -> CM B) : calm a m -> (forall r, calm a (f r)) -> calm a (m ≫= f).
Proof using. intros Hm Hf w r w' Hrun. apply step_inv in Hrun as (r1 & w1 & H1 & H2). by rewrite (Hf _ _ _ _ H2), (Hm _ _ _ H1). Qed.

Lemma calm_ret {A} a (r : A) : calm a (mret r : CM A).
Proof using. by intros w r' w' [= _ <-]. Qed.
Lemma calm_get a : calm a (get : CM _).
Proof using. by intros w r w' [= _ <-]. Qed.
Lemma calm_modify a f : calm a (modify f : CM unit).
Proof using. by intros w r w' [= _ <-]. Qed.
Lemma calm_memory a : calm a (memory_of : CM _).
Proof using. by intros w r w' [= _ <-]. Qed.
Lemma calm_host_ a f : (forall x, reg (f x) a = reg x a) -> calm a (host_ f : CM unit).
Proof using. intros Hf w r w' [= _ <-]. apply Hf. Qed.

Ltac calm_all := repeat match goal with
  | |- forall _, _ => intro
  | |- calm _ (mbind _ _) => apply calm_bind
  | |- calm _ (mret _) => apply calm_ret
  | |- calm _ get => apply calm_get
  | |- calm _ memory_of => apply calm_memory
  | |- calm _ (modify _) => apply calm_modify
  | |- calm _ (host_ _) => apply calm_host_
  | |- calm _ (match ?x with _ => _ end) => destruct x
  | |- reg _ _ = _ => by rewrite ?free_reg, ?dma_reg, ?frame_reg, ?unmap_reg, ?vector_reg, ?master_reg
  end.

Lemma calm_release_buffers a array l : calm a (release_buffers array l : CM unit).
Proof using HR. induction l as [|i l IH]; cbn [release_buffers]; calm_all. apply IH. Qed.

(** What is given back after the host is told to stop. *)
Lemma calm_tail a : calm a ((host_ DisableBusMaster ≫= fun _ =>
  ReleaseMMIO ≫= fun _ => ReleaseDCBAAP ≫= fun _ => ReleaseCommandRing ≫= fun _ => ReleaseEventRing ≫= fun _ =>
  ReleasePorts ≫= fun _ => ReleaseScratchpad) : CM unit).
Proof using HR.
  unfold ReleaseMMIO, ReleaseDCBAAP, ReleaseCommandRing, ReleaseEventRing, ReleasePorts, ReleaseScratchpad. calm_all.
  apply calm_release_buffers.
Qed.

Lemma step_assoc {A B C} (m : CM A) (f : A -> CM B) (g : B -> CM C) w : ((m ≫= f) ≫= g) w = (m ≫= fun a => f a ≫= g) w.
Proof using. unfold mbind, io_bind. by destruct (m w) as [|[a w1]]. Qed.

Lemma land_stop r : Z.land (Z.land r (bnot 32 USBCMD_INTE_FLAG)) USBCMD_RS_FLAG = Z.land r USBCMD_RS_FLAG.
Proof using. by rewrite <- Z.land_assoc. Qed.

(** The release of a controller leaves the run bit of the host as it was: the
    hardware goes on with rings that are no longer its own. *)
Theorem released_host_runs c x c' x' :
  let usbcmd := opregs (registers c) + USBCMD in
  MMIO_base (registers c) <> 0 -> GetPrimaryInterrupter (registers c) + IMAN <> usbcmd ->
  (forall v y, reg (write32 usbcmd v y) usbcmd = v) ->
  (Destroy : CM unit) (c, x) = inr (tt, (c', x')) ->
  reg x' usbcmd = Z.land (reg x usbcmd) USBCMD_RS_FLAG.
Proof using HR.
  intros usbcmd Hm Hne Hkeep Hrun. unfold Destroy, ReleaseResources in Hrun. apply step_inv in Hrun as (c0 & w0 & Hg & Hrun). injection Hg as <- <-.
  cbn [fst] in Hrun. apply step_inv in Hrun as ([] & w1 & Hv & Hrun). injection Hv as <-. cbn [fst snd] in Hrun.
  rewrite (proj2 (Z.eqb_neq _ 0) Hm), step_assoc in Hrun. apply step_inv in Hrun as ([] & w2 & Hi & Hrun).
  rewrite step_assoc in Hrun. apply step_inv in Hrun as ([] & w3 & Hh & Hrun). rewrite step_assoc in Hrun. apply step_inv in Hrun as ([] & w4 & Hs & Hrun).
  apply (calm_tail usbcmd) in Hrun. cbn [snd] in Hrun. rewrite Hrun.
  unfold DisablePrimaryInterrupter, DisableHostInterrupts, DisableHost, and_register, get, host, host_, mbind, io_bind in Hi, Hh, Hs.
  cbn [fst snd] in Hi. rewrite read32_reg in Hi. injection Hi as <-. cbn [fst snd] in Hh. rewrite read32_reg in Hh. injection Hh as <-.
  cbn [fst snd] in Hs. rewrite read32_reg in Hs. injection Hs as <-. cbn [fst snd]. fold usbcmd.
  rewrite !Hkeep, land_stop, other_reg, vector_reg by done. done.
Qed.

(** ** The ports of a protocol *)

Definition describe (major type : Z) (p : Port) : Port := mkPort major (port_slot p) type true.

(** The ports numbered from [a] to [b - 1], described. *)
Definition described (a b major type : Z) (l : list Port) : list Port :=
  imap (fun j p => if (a <=? Z.of_nat j + 1) && (Z.of_nat j + 1 <? b) then describe major type p else p) l.

Lemma slot_type_run protocol c x : (GetProtocolSlotType protocol : CM Z) (c, x) = inr (Z.land (reg x (protocol + 12)) 0xFF, (c, x)).
Proof using. unfold GetProtocolSlotType, ExtendedCapability_GetByte, ExtendedCapability_GetDWord, host, mbind, io_bind. cbn [fst snd]. by rewrite read32_reg. Qed.

Lemma update_port_hit i f c x array l : ports (port_table c) = Some (array, l) -> 0 <= i < Z.of_nat (length l) ->
  exists c', (update_port i f : CM unit) (c, x) = inr (tt, (c', x)) /\ ports (port_table c') = Some (array, alter f (Z.to_nat i) l).
Proof using.
  intros Ht Hi. destruct (lookup_lt_is_Some_2 l (Z.to_nat i) ltac:(lia)) as [p Hp].
  assert (Hat : (port_at i : CM Port) (c, x) = inr (p, (c, x))).
  { unfold port_at, mbind, io_bind, get. cbn [fst snd]. rewrite Ht. replace (0 <=? i) with true by lia. unfold or_stop. by rewrite Hp. }
  assert (Hrun : exists c', (update_port i f : CM unit) (c, x) = inr (tt, (c', x))).
  { unfold update_port. rewrite (step_run _ _ _ _ _ Hat). by eexists. }
  destruct Hrun as [c' Hrun]. exists c'. split; [done|]. apply update_port_run in Hrun as [_ ->]. unfold table_update. cbn. by rewrite Ht.
Qed.

Lemma described_step a n major type l : 1 <= a -> 0 <= n ->
  described (a + 1) (a + 1 + n) major type (alter (describe major type) (Z.to_nat (a - 1)) l) = described a (a + 1 + n) major type l.
Proof using.
  intros Ha Hn. apply list_eq. intros j. unfold described. rewrite !list_lookup_imap. destruct (decide (j = Z.to_nat (a - 1))) as [->|Hne].
  - rewrite list_lookup_alter_eq. destruct (l !! Z.to_nat (a - 1)) as [p|]; [|done]. cbn. rewrite Z2Nat.id by lia.
    replace (a + 1 <=? a - 1 + 1) with false by lia. by replace ((a <=? a - 1 + 1) && (a - 1 + 1 <? a + 1 + n)) with true by lia.
  - rewrite list_lookup_alter_ne by done. destruct (l !! j) as [p|]; [|done]. cbn.
    by replace (a + 1 <=? Z.of_nat j + 1) with (a <=? Z.of_nat j + 1) by lia.
Qed.

Lemma describe_ports_run protocol major n : forall a c x array l,
  ports (port_table c) = Some (array, l) -> 1 <= a -> a - 1 + Z.of_nat n <= Z.of_nat (length l) ->
  exists c', (describe_ports protocol major (seqZ a (Z.of_nat n)) : CM unit) (c, x) = inr (tt, (c', x)) /\
    ports (port_table c') = Some (array, described a (a + Z.of_nat n) major (Z.land (reg x (protocol + 12)) 0xFF) l).
Proof using.
  induction n as [|n IH]; intros a c x array l Ht Ha Hl.
  - exists c. split; [done|]. rewrite Ht, Z.add_0_r. do 2 f_equal. symmetry. apply list_eq. intros j. unfold described. rewrite list_lookup_imap.
    destruct (l !! j) as [p|]; [|done]. cbn. by replace ((a <=? Z.of_nat j + 1) && (Z.of_nat j + 1 <? a)) with false by lia.
  - rewrite seqZ_cons by lia. replace (Z.pred (Z.of_nat (S n))) with (Z.of_nat n) by lia. cbn [describe_ports].
    rewrite (step_run _ _ _ _ _ (slot_type_run protocol c x)). set (type := Z.land _ 0xFF).
    destruct (update_port_hit (a - 1) (describe major type) c x array l Ht ltac:(lia)) as (c1 & E1 & H1). fold (describe major type).
    destruct (IH (Z.succ a) c1 x array _ H1) as (c2 & E2 & H2); [lia|rewrite length_alter; lia|]. exists c2.
    split; [by rewrite (step_run _ _ _ _ _ E1)|]. rewrite H2. fold type. do 2 f_equal.
    replace (Z.succ a) with (a + 1) by lia. replace (a + Z.of_nat (S n)) with (a + 1 + Z.of_nat n) by lia. apply described_step; lia.
Qed.

(** The ports of a protocol get its revision and slot type and are marked for
    the first scan, unless they go up to port 255: then none of them does. *)
Theorem protocol_describes_ports protocol major offset count c x array l :
  ports (port_table c) = Some (array, l) -> 1 <= offset -> 0 <= count -> offset + count <= Z.of_nat (length l) + 1 <= 256 ->
  exists c', (describe_ports protocol major (seqZ offset (u8 (offset + count) - offset)) : CM unit) (c, x) = inr (tt, (c', x)) /\
    ports (port_table c') = Some (array,
      if offset + count =? 256 then l else described offset (offset + count) major (Z.land (reg x (protocol + 12)) 0xFF) l).
Proof using.
  intros Ht Ho Hc Hl. destruct (Z.eqb_spec (offset + count) 256) as [He|Hne].
  - rewrite He. change (u8 256) with 0. exists c. split; [|done]. unfold seqZ. by replace (Z.to_nat (0 - offset)) with 0%nat by lia.
  - rewrite wrap_small by lia. replace (offset + count - offset) with (Z.of_nat (Z.to_nat count)) by lia.
    replace (offset + count) with (offset + Z.of_nat (Z.to_nat count)) by lia. apply describe_ports_run; [done|lia..].
Qed.
End Failures.

(** ** On the board *)

#[global] Instance board_frames : FrameLaws Board.
Proof. by refine {| reg := board_registers |}. Defined.

#[global] Instance board_release : ReleaseLaws (X := Board).
Proof. constructor; try done. intros a b v x Hne. by apply fn_lookup_insert_ne. Qed.

#[global] Instance recorder_laws : SlotDeviceLaws (D := list TRB) (X := Board).
Proof. constructor; by intros I s HI c x a c' x' Hi [= _ <- _]. Qed.

(** One scratchpad buffer, one port (of USB 2, with nothing attached), the host
    running with its interrupts on. *)
Definition small_host : Board :=
  mkBoard (fun _ => 0) (<[0x008 := 2 ^ 27]> (<[0x1008 := 1]> (<[0x004 := 2 ^ 24]> (<[0x1000 := 5]> (<[0x1400 := 0x200]> (fun _ => 0)))))) 0x10000 [].
Definition small_controller : Controller (list TRB) :=
  set_ports (mkPorts (Some (0x9000, [mkPort 2 0 0 true])) false 7)
    (set_registers (mkRegisters 0x100000 0 0x1000 0x2000 0x3000) new_Controller).

Definition small : Controller (list TRB) * Board := (small_controller, small_host).


Lemma scratchpad_mapping_failure_witness : board_log (snd (after ConfigureScratchpad small)) = [(1, 0)].
Proof.
  assert (Hb : 0x11000 <> 0) by done. assert (Hn : scratchpad_count (reg small_host 0x008) <> 0) by (by vm_compute). unfold after, small.
  rewrite (scratchpad_mapping_failure small_controller small_host 0x10000 _ 0x11000 _ _ Hn eq_refl eq_refl eq_refl Hb eq_refl).
  reflexivity.
Defined.

Lemma released_host_runs_witness : reg (snd (after Destroy small)) 0x1000 = 1.
Proof.
  pose proof (released_host_runs small_controller small_host (fst (after Destroy small)) (snd (after Destroy small))) as H.
  apply H; [done|done| |reflexivity]. intros v y. apply fn_lookup_insert.
Defined.

Lemma protocol_describes_ports_witness : exists c',
  (describe_ports 0x8000 3 (seqZ 1 (u8 (1 + 1) - 1)) : Prelude.io (Controller (list TRB) * Board) unit) (small_controller, small_host)
    = inr (tt, (c', small_host)) /\ ports (port_table c') = Some (0x9000, [mkPort 3 0 0 true]).
Proof.
  destruct (protocol_describes_ports 0x8000 3 1 1 small_controller small_host 0x9000 [mkPort 2 0 0 true]) as (c' & E & H); [reflexivity|cbn; lia..|].
  by exists c'.
Defined.
