(* ===== verification/XhciDevice.v ===== *)
(** * USB devices of the xHCI controller
    ([kernel/src/devices/USB/xHCI/Device.cpp],
    [kernel/include/devices/USB/xHCI/Device.hpp])

    A device and what is done to it: counted accesses and their end, transfers
    and their completion by interrupts, control requests, descriptors,
    endpoints, drivers, creation and release. The controller and the kernel are
    the class [DeviceHost]; a driver is the class [UsbDriver]. The parser of
    configurations is that of [UsbDescriptors]. *)
From S2P Require Import Packed Trb XhciContext TransferRing UsbDescriptors Prelude.

Class DeviceHost (X : Type) := {
  (** the controller *)
  HasExtendedContext : X -> bool * X;
  GetCommandCycle : X -> bool;
  SendCommand : TRB -> X -> option TRB * X;
  LoadDeviceSlot : Z -> Z -> X -> X;
  controller_RingDoorbell : Z -> Z -> X -> X;
  (** the transfer events that interrupt a wait of some milliseconds, the last
      of them before the wait looks for the last time *)
  transfer_events : Z -> X -> list TRB * X;
  (** memory *)
  GetPhysicalAddress : Z -> X -> option Z;
  IOHeap_Allocate : Z -> X -> option Z * X;
  IOHeap_Free : Z -> X -> X;
  read_byte : X -> Z -> Z;
  (** the blocks of the descriptors *)
  descriptor_blocks : X -> blocks;
  set_blocks : blocks -> X -> X;
  allocates : nat -> Z -> bool;
  block_address : nat -> Z }.

Record DeviceDescriptor := mkDevice {
  protocolVersionMajor : Z; protocolVersionMinor : Z; deviceClass : Z; deviceSubClass : Z; deviceProtocol : Z;
  maxControlPacketSize : Z; vendorID : Z; productID : Z; deviceVersionMajor : Z; deviceVersionMinor : Z;
  manufacturerDescriptorIndex : Z; productDescriptorIndex : Z; serialNumberDescriptorIndex : Z; configurationsNumber : Z }.

(** [DriversNode]: its block and its [MAX_DRIVERS] places; the next node is the
    next of the list. *)
Definition MAX_DRIVERS : nat := 7.
Record DriversNode (D : Type) := mkNode { node_object : Z; node_drivers : list (option D) }.
Arguments mkNode {D}.
Arguments node_object {D}.
Arguments node_drivers {D}.

Definition MAX_ENDPOINT_TRANSFER_RINGS : Z := 15 * 2.

(** The context wrapper: its block, its class and its two structures. *)
Record Wrapper := mkWrapped { wrapper_object : Z; extended : bool; contexts : ContextWrapper }.

(** The virtual functions of the wrapper. *)
Definition GetInputControlContext (w : Wrapper) : Z :=
  (if extended w then Ex_GetInputControlContext else Basic_GetInputControlContext) (contexts w).
Definition GetSlotContext (w : Wrapper) (is_in : bool) : Z :=
  (if extended w then Ex_GetSlotContext else Basic_GetSlotContext) (contexts w) is_in.
Definition GetControlEndpointContext (w : Wrapper) (is_in : bool) : Z :=
  (if extended w then Ex_GetControlEndpointContext else Basic_GetControlEndpointContext) (contexts w) is_in.
Definition GetInputEndpointContext (w : Wrapper) (id : Z) (is_in : bool) : option Z :=
  (if extended w then Ex_GetInputEndpointContext else Basic_GetInputEndpointContext) (contexts w) id is_in.
Definition Wrapper_Reset (w : Wrapper) : memory -> memory := (if extended w then Ex_Reset else Basic_Reset) (contexts w).
Definition Context_Reset_of (w : Wrapper) : Z -> memory -> memory := if extended w then ContextEx_Reset else Context_Reset.
Definition Wrapper_Release {S} `{!KernelMemory S} (w : Wrapper) : S -> S :=
  (if extended w then Ex_Release else Basic_Release) (wrapper_object w) (contexts w).

(** The fields of a device, in groups: what it is made of, its transfer under
    way, its accesses, what it was found to be. An object on the heap comes
    with its address. *)
Record Parts := mkParts {
  context_wrapper : option Wrapper; control_transfer_ring : option (Z * TransferRing);
  endpoint_transfer_rings : list (option (Z * TransferRing)) }.
Record Transfer := mkTransfer { transfer_complete : bool; awaiting_transfer : Z; transfer_result : TRB }.
Record Accesses := mkAccesses { unavailable : bool; current_accesses : Z }.
Record Device (D : Type) := mkDev {
  information : DeviceInformation; parts : Parts; transfer : Transfer; accesses : Accesses;
  descriptor : DeviceDescriptor; configurations : option (nat * list ConfigurationDescriptor); current_configuration : Z;
  drivers : list (DriversNode D) }.
Arguments mkDev {D}.
Arguments information {D}.
Arguments parts {D}.
Arguments transfer {D}.
Arguments accesses {D}.
Arguments descriptor {D}.
Arguments configurations {D}.
Arguments current_configuration {D}.
Arguments drivers {D}.

(** The constructor. *)
Definition new_Device {D} (info : DeviceInformation) : Device D :=
  mkDev info (mkParts None None (replicate (Z.to_nat MAX_ENDPOINT_TRANSFER_RINGS) None)) (mkTransfer false 0 zero_trb)
    (mkAccesses false 0) (mkDevice 0 0 0 0 0 0 0 0 0 0 0 0 0 0) None (-1) [].

Definition set_parts {D} (p : Parts) (d : Device D) : Device D :=
  mkDev (information d) p (transfer d) (accesses d) (descriptor d) (configurations d) (current_configuration d) (drivers d).
Definition set_transfer {D} (t : Transfer) (d : Device D) : Device D :=
  mkDev (information d) (parts d) t (accesses d) (descriptor d) (configurations d) (current_configuration d) (drivers d).
Definition set_accesses {D} (a : Accesses) (d : Device D) : Device D :=
  mkDev (information d) (parts d) (transfer d) a (descriptor d) (configurations d) (current_configuration d) (drivers d).
Definition set_descriptor {D} (v : DeviceDescriptor) (d : Device D) : Device D :=
  mkDev (information d) (parts d) (transfer d) (accesses d) v (configurations d) (current_configuration d) (drivers d).
Definition set_configurations {D} (l : option (nat * list ConfigurationDescriptor)) (d : Device D) : Device D :=
  mkDev (information d) (parts d) (transfer d) (accesses d) (descriptor d) l (current_configuration d) (drivers d).
Definition set_configuration {D} (v : Z) (d : Device D) : Device D :=
  mkDev (information d) (parts d) (transfer d) (accesses d) (descriptor d) (configurations d) v (drivers d).
Definition set_drivers {D} (l : list (DriversNode D)) (d : Device D) : Device D :=
  mkDev (information d) (parts d) (transfer d) (accesses d) (descriptor d) (configurations d) (current_configuration d) l.

(** What a device asks of a driver, and the classes of functions it creates one
    for. *)
Class UsbDriver (D X : Type) := {
  GetAwaitingTRB : D -> Z;
  HandleEvent : TRB -> D -> Prelude.io X D;
  driver_PostInitialization : D -> Prelude.io X (bool * D);
  driver_Release : D -> Prelude.io X unit;
  HID_Create : Z -> FunctionDescriptor -> Prelude.io (Device D * X) (option D);
  MassStorage_Create : Z -> FunctionDescriptor -> Prelude.io (Device D * X) (option D) }.

Definition HID_CLASS : Z := 0x03.
Definition MASS_STORAGE_CLASS : Z := 0x08.

Section Device.
Context {D X : Type} `{!KernelMemory X} `{!DeviceHost X} `{!UsbDriver D X}.
(** The address of the buffers on the stack, where descriptors are read first. *)
Context (stack : Z).
#[local] Abbreviation DM := (Prelude.io (Device D * X)).

Definition this : DM (Device D) := fun w => inr (fst w, w).
Definition modify (f : Device D -> Device D) : DM unit := fun w => inr (tt, (f (fst w), snd w)).
Definition host {A} (f : X -> A * X) : DM A := fun w => let '(a, x) := f (snd w) in inr (a, (fst w, x)).
Definition host_ (f : X -> X) : DM unit := fun w => inr (tt, (fst w, f (snd w))).
Definition ask {A} (f : X -> A) : DM A := fun w => inr (f (snd w), w).
(** A computation of the rest of the kernel. *)
Definition kernel {A} (m : Prelude.io X A) : DM A := zoom snd (fun x w => (fst w, x)) m.
(** A computation on the blocks of the descriptors. *)
Definition on_blocks {A} (m : M A) : DM A := zoom (fun w => descriptor_blocks (snd w)) (fun b w => (fst w, set_blocks b (snd w))) m.

(** ** Accesses *)

Definition SetBusy : DM bool :=
  this ≫= fun d =>
  if unavailable (accesses d) then mret false
  else modify (set_accesses (mkAccesses (unavailable (accesses d)) (u64 (current_accesses (accesses d) + 1)))) ≫= fun _ => mret true.

Definition ReleaseBusy : DM unit :=
  this ≫= fun d =>
  let a := accesses d in
  if 0 <? current_accesses a then modify (set_accesses (mkAccesses (unavailable a) (current_accesses a - 1))) else mret tt.

Definition IsBusy (d : Device D) : bool := 0 <? current_accesses (accesses d).
Definition IsUnavailable (d : Device D) : bool := unavailable (accesses d).

(** The wait of [SetUnvailable] ends when the others are done: [others] is what
    they do to the count each time this task gives up the processor. *)
Fixpoint wait_idle (fuel : nat) (others : Z -> Z) : DM unit :=
  match fuel with
  | O => stop Hang
  | S fuel =>
      this ≫= fun d =>
      if IsBusy d then
        modify (set_accesses (mkAccesses (unavailable (accesses d)) (others (current_accesses (accesses d))))) ≫= fun _ => wait_idle fuel others
      else mret tt
  end.

Definition SetUnvailable (fuel : nat) (others : Z -> Z) : DM unit :=
  modify (fun d => set_accesses (mkAccesses true (current_accesses (accesses d))) d) ≫= fun _ => wait_idle fuel others.

(** ** Drivers *)

Definition SIZEOF_NODE : Z := 64.

(** The first empty place of a node. *)
Definition put_driver (driver : D) (n : DriversNode D) : option (DriversNode D) :=
  (fun p => mkNode (node_object n) (<[fst p := Some driver]> (node_drivers n))) <$> list_find (fun o => o = None) (node_drivers n).

Fixpoint add_driver (driver : D) (l : list (DriversNode D)) : option (list (DriversNode D)) :=
  match l with
  | [] => None
  | n :: l =>
      match put_driver driver n with
      | Some n => Some (n :: l)
      | None => cons n <$> add_driver driver l
      end
  end.

Definition AddDriver (driver : D) : DM bool :=
  this ≫= fun d =>
  match add_driver driver (drivers d) with
  | Some l => modify (set_drivers l) ≫= fun _ => mret true
  | None =>
      host (Heap_Allocate SIZEOF_NODE) ≫= fun node =>
      match node with
      | None => mret false
      | Some object =>
          let n := mkNode object (Some driver :: replicate (MAX_DRIVERS - 1) None) in
          modify (set_drivers (drivers d ++ [n])) ≫= fun _ => mret true
      end
  end.

(** The block at [p] is the one at the physical address [pointer]. *)
Definition translates (p pointer : Z) (x : X) : bool :=
  match GetPhysicalAddress p x with
  | None => false
  | Some address => address =? pointer
  end.

Definition driver_waits (x : X) (pointer : Z) (o : option D) : bool :=
  match o with
  | None => false
  | Some driver => translates (GetAwaitingTRB driver) pointer x
  end.

(** Node and place of the driver that awaits the block. *)
Fixpoint find_place (x : X) (pointer : Z) (k : nat) (l : list (DriversNode D)) : option (nat * nat) :=
  match l with
  | [] => None
  | n :: l =>
      match list_find (fun o => driver_waits x pointer o = true) (node_drivers n) with
      | Some (i, _) => Some (k, i)
      | None => find_place x pointer (S k) l
      end
  end.

Definition FindDriverEvent (trb : TRB) (d : Device D) (x : X) : option (nat * nat) :=
  find_place x (EventTRB_GetPointer trb) 0 (drivers d).

(** The driver at a place, and its new state. *)
Definition driver_at (p : nat * nat) (l : list (DriversNode D)) : option D :=
  n ← l !! fst p; o ← node_drivers n !! snd p; o.
Definition set_driver (p : nat * nat) (driver : D) (l : list (DriversNode D)) : list (DriversNode D) :=
  alter (fun n => mkNode (node_object n) (<[snd p := Some driver]> (node_drivers n))) (fst p) l.

Fixpoint release_places (l : list (option D)) : DM unit :=
  match l with
  | [] => mret tt
  | None :: l => release_places l
  | Some driver :: l => kernel (driver_Release driver) ≫= fun _ => release_places l
  end.

Fixpoint release_nodes (l : list (DriversNode D)) : DM unit :=
  match l with
  | [] => mret tt
  | n :: l => release_places (node_drivers n) ≫= fun _ => host_ (Heap_Free (node_object n)) ≫= fun _ => release_nodes l
  end.

Definition ReleaseDrivers : DM unit := this ≫= fun d => release_nodes (drivers d) ≫= fun _ => modify (set_drivers []).

(** ** Transfers *)

Definition SignalTransferComplete (trb : TRB) : DM unit :=
  SetBusy ≫= fun ok =>
  if negb ok then mret tt
  else
    this ≫= fun d =>
    ask (translates (awaiting_transfer (transfer d)) (EventTRB_GetPointer trb)) ≫= fun awaited =>
    (if (awaited : bool) then
       modify (set_transfer (mkTransfer true (awaiting_transfer (transfer d)) trb))
     else
       ask (FindDriverEvent trb d) ≫= fun place =>
       match place with
       | None => mret tt
       | Some p =>
           or_stop WildAccess (driver_at p (drivers d)) ≫= fun driver =>
           kernel (HandleEvent trb driver) ≫= fun driver => modify (set_drivers (set_driver p driver (drivers d)))
       end) ≫= fun _ => ReleaseBusy.

Fixpoint signal_all (l : list TRB) : DM unit :=
  match l with
  | [] => mret tt
  | t :: l => SignalTransferComplete t ≫= fun _ => signal_all l
  end.

Definition COMPLETION_TIMEOUT_MS : Z := 1000.

Definition RingDoorbell (doorbellID : Z) : DM unit :=
  this ≫= fun d => host_ (controller_RingDoorbell (slot_id (information d)) doorbellID).

Definition InitiateTransfer (trb reason : Z) : DM bool :=
  modify (fun d => set_transfer (mkTransfer false trb zero_trb) d) ≫= fun _ =>
  RingDoorbell reason ≫= fun _ =>
  host (transfer_events COMPLETION_TIMEOUT_MS) ≫= fun events =>
  signal_all events ≫= fun _ =>
  this ≫= fun d =>
  let result := transfer_complete (transfer d) in
  modify (set_transfer (mkTransfer false (awaiting_transfer (transfer d)) (transfer_result (transfer d)))) ≫= fun _ => mret result.

(** A block on the control ring: its address. The ring waits for a free slot. *)
Definition control_ring : DM (Z * TransferRing) := this ≫= fun d => or_stop NullAccess (control_transfer_ring (parts d)).

Definition enqueue_control (trb : bool -> TRB) : DM Z :=
  control_ring ≫= fun '(object, r) =>
  ask read_memory ≫= fun m =>
  or_stop Hang (Enqueue r (trb (cycle r)) m) ≫= fun '(p, r, m) =>
  modify (fun d => set_parts (mkParts (context_wrapper (parts d)) (Some (object, r)) (endpoint_transfer_rings (parts d))) d) ≫= fun _ =>
  host_ (on_memory (fun _ => m)) ≫= fun _ => mret p.

Definition setup_trb (bmRequestType bRequest wValue wIndex wLength : Z) (cycle : bool) : TRB :=
  SetupTRB_Create (mkSetup bmRequestType bRequest wValue wIndex wLength 8 0 cycle false DataInStage).
Definition data_trb (pointer wLength : Z) (cycle : bool) : TRB :=
  DataTRB_Create (mkData pointer wLength 0 0 cycle false false false false false false true).
Definition status_trb (cycle : bool) : TRB := StatusTRB_Create (mkStatus 0 cycle false false true false).

(** [SendRequest]: success and the value written to [*status_code], when one is. *)
Definition SendRequest (bmRequestType bRequest wValue wIndex wLength : Z) (buffer : option Z) : DM (bool * option Z) :=
  enqueue_control (setup_trb bmRequestType bRequest wValue wIndex wLength) ≫= fun _ =>
  match buffer with
  | None => mret true
  | Some buffer =>
      ask (GetPhysicalAddress buffer) ≫= fun pointer =>
      match pointer with
      | None => mret false
      | Some pointer => enqueue_control (data_trb pointer wLength) ≫= fun _ => mret true
      end
  end ≫= fun ok =>
  if negb ok then mret (false, None)
  else
    enqueue_control status_trb ≫= fun ptr =>
    InitiateTransfer ptr 1 ≫= fun ok =>
    if negb ok then mret (false, Some (completion_value CC_Invalid))
    else
      this ≫= fun d =>
      let completion_code := GetCompletionCode (transfer_result (transfer d)) in
      mret (completion_code =? completion_value Success, Some completion_code).

(** ** Descriptors *)

Definition DEVICE_DESCRIPTOR_SIZE : Z := 18.
Definition DEVICE_DESCRIPTOR_TYPE : Z := 1.
Definition CONFIGURATION_DESCRIPTOR_TYPE : Z := 2.
Definition STRING_DESCRIPTOR_TYPE : Z := 3.
Definition MIN_STRING_DESCRIPTOR_SIZE : Z := 2.

Definition byte_at (a : Z) : DM Z := ask (fun x => read_byte x a).
Definition word_at (a : Z) : DM Z := ask (fun x => read_byte x a + 256 * read_byte x (a + 1)).

(** The overload of [GetDescriptor] that fills a buffer. *)
Definition GetDescriptor_into (type index length buffer languageID : Z) : DM bool :=
  SendRequest 0x80 6 (Z.lor (u16 (Z.shiftl type 8)) index) languageID length (Some buffer) ≫= fun '(ok, _) => mret ok.

(** The one that allocates it: the header, then all of it. *)
Definition GetDescriptor (type index languageID : Z) : DM (option Z) :=
  GetDescriptor_into type index 2 stack languageID ≫= fun ok =>
  if negb ok then mret None
  else
    byte_at stack ≫= fun descriptor_size =>
    host (IOHeap_Allocate descriptor_size) ≫= fun data =>
    match data with
    | None => mret None
    | Some data =>
        GetDescriptor_into type index descriptor_size data languageID ≫= fun ok =>
        if negb ok then host_ (IOHeap_Free data) ≫= fun _ => mret None else mret (Some data)
    end.

(** The characters of the string and the block they are in; the language is cut
    to a byte on its way. *)
Definition GetString (index languageID : Z) : DM (option (Z * list Z)) :=
  if languageID =? 0 then mret None
  else
    GetDescriptor STRING_DESCRIPTOR_TYPE index (u8 languageID) ≫= fun data =>
    match data with
    | None => mret None
    | Some data =>
        byte_at data ≫= fun descriptor_size =>
        byte_at (data + 1) ≫= fun descriptor_type =>
        if (descriptor_size <? MIN_STRING_DESCRIPTOR_SIZE) || negb (descriptor_type =? STRING_DESCRIPTOR_TYPE)
        then host_ (IOHeap_Free data) ≫= fun _ => mret None
        else
          let string_length := (descriptor_size - 2) / 2 in
          host (Heap_Allocate (string_length + 1)) ≫= fun result_string =>
          match result_string with
          | None => host_ (IOHeap_Free data) ≫= fun _ => mret None
          | Some object =>
              ask (fun x => map (fun i => u8 (read_byte x (data + 2 * (i + 1)))) (seqZ 0 string_length)) ≫= fun chars =>
              host_ (IOHeap_Free data) ≫= fun _ => mret (Some (object, chars ++ [0]))
          end
    end.

Definition control_packet_size (protocolVersionMajor bMaxPacketSize0 : Z) : option Z :=
  match protocolVersionMajor with
  | 1 | 2 => Some bMaxPacketSize0
  | 3 => Some (u16 (u32 (Z.shiftl 1 (Z.land bMaxPacketSize0 31))))
  | _ => None
  end.

Definition FetchDeviceDescriptor : DM bool :=
  GetDescriptor_into DEVICE_DESCRIPTOR_TYPE 0 DEVICE_DESCRIPTOR_SIZE stack 0 ≫= fun ok =>
  if negb ok then mret false
  else
    ask (fun x i => read_byte x (stack + i)) ≫= fun d =>
    if negb (CheckDescriptor d DEVICE_DESCRIPTOR_SIZE DEVICE_DESCRIPTOR_TYPE 0) then mret false
    else
      match control_packet_size (d 3) (d 7) with
      | None => mret false
      | Some maxControlPacketSize =>
          modify (set_descriptor (mkDevice (d 3) (d 2) (d 4) (d 5) (d 6) maxControlPacketSize (u16_at d 8) (u16_at d 10)
                                    (d 13) (d 12) (d 14) (d 15) (d 16) (d 17))) ≫= fun _ => mret true
      end.

(** [ParseConfigurationDescriptor] on the device itself: two requests, and the
    parser on the answer to the second. *)
Definition Device_ParseConfigurationDescriptor (fuel : nat) (index : Z) : DM (option ConfigurationDescriptor) :=
  GetDescriptor_into CONFIGURATION_DESCRIPTOR_TYPE index 4 stack 0 ≫= fun ok =>
  if negb ok then mret None
  else
    word_at (stack + 2) ≫= fun descriptor_size =>
    on_blocks (Allocate allocates descriptor_size) ≫= fun data =>
    match data with
    | None => mret None
    | Some data =>
        GetDescriptor_into CONFIGURATION_DESCRIPTOR_TYPE index descriptor_size (block_address data) 0 ≫= fun ok =>
        if negb ok then on_blocks (Free (Some data)) ≫= fun _ => mret None
        else
          ask (fun x i => read_byte x (block_address data + i)) ≫= fun d => on_blocks (ParseConfiguration allocates d fuel data)
    end.

Definition SIZEOF_CONFIGURATION : Z := 24.

Definition invalid_configuration : ConfigurationDescriptor := mkConfiguration false 0 0 0 false false 0 0 [].

(** The configurations one by one; one that cannot be read stays invalid. *)
Fixpoint fetch_configurations (fuel : nat) (l : list Z) : DM (list ConfigurationDescriptor) :=
  match l with
  | [] => mret []
  | i :: l =>
      Device_ParseConfigurationDescriptor fuel i ≫= fun c =>
      fetch_configurations fuel l ≫= fun rest => mret (default invalid_configuration c :: rest)
  end.

Definition FetchConfigurations (fuel : nat) : DM bool :=
  this ≫= fun d =>
  let n := configurationsNumber (descriptor d) in
  on_blocks (Allocate allocates (SIZEOF_CONFIGURATION * n)) ≫= fun block =>
  match block with
  | None => modify (set_configurations None) ≫= fun _ => mret false
  | Some block =>
      modify (set_configurations (Some (block, replicate (Z.to_nat n) invalid_configuration))) ≫= fun _ =>
      fetch_configurations fuel (seqZ 0 n) ≫= fun l =>
      modify (set_configurations (Some (block, l))) ≫= fun _ => mret true
  end.

(** ** Configuration and endpoints *)

Definition SetConfiguration (configuration_value : Z) : DM bool :=
  this ≫= fun d =>
  if configuration_value =? current_configuration d then mret true
  else
    SendRequest 0x00 9 configuration_value 0 0 None ≫= fun '(ok, _) =>
    if negb ok then mret false else modify (set_configuration configuration_value) ≫= fun _ => mret true.

(** [log2] of 16 bits: halvings until 1. *)
Fixpoint halvings (fuel : nat) (value : Z) : Z :=
  match fuel with
  | O => 0
  | S fuel => if 1 <? value then halvings fuel (Z.shiftr value 1) + 1 else 0
  end.
Definition log2 (value : Z) : Z := halvings 16 value.

Definition clamp (lo hi v : Z) : Z := if v <? lo then lo else if hi <? v then hi else v.

Definition ConvertEndpointInterval (speed : PortSpeed) (type : EndpointType) (interval : Z) : option Z :=
  match type with
  | InterruptIn | InterruptOut =>
      match speed with
      | LowSpeed | FullSpeed => Some (clamp 3 10 (log2 (u16 ((if interval =? 0 then 1 else interval) * 8))))
      | _ => Some (clamp 1 16 interval - 1)
      end
  | IsochronousIn | IsochronousOut =>
      match speed with
      | LowSpeed => None
      | FullSpeed => Some (clamp 1 16 interval - 1 + 3)
      | _ => Some (clamp 1 16 interval - 1)
      end
  | BulkIn | BulkOut | ControlBidirectional =>
      match speed with
      | HighSpeed => if interval =? 0 then Some 0 else Some (log2 interval)
      | _ => Some 0
      end
  | ET_Invalid => None
  end.

Definition GetEndpointTransferRing (endpointAddress : Z) (input : bool) (d : Device D) : option (Z * TransferRing) :=
  let ep_index := u8 (endpointAddress * 2 + Z.b2z input - 2) in
  if ep_index <? MAX_ENDPOINT_TRANSFER_RINGS then mjoin (endpoint_transfer_rings (parts d) !! Z.to_nat ep_index) else None.

Definition is_in (t : EndpointType) : bool := match t with IsochronousIn | BulkIn | InterruptIn => true | _ => false end.

Definition context_index (e : EndpointDescriptor) : Z := u8 (endpointAddress e * 2 + Z.b2z (is_in (endpointType e))).

Definition set_ring (i : Z) (r : option (Z * TransferRing)) (d : Device D) : Device D :=
  set_parts (mkParts (context_wrapper (parts d)) (control_transfer_ring (parts d)) (<[Z.to_nat i := r]> (endpoint_transfer_rings (parts d)))) d.

(** The input context of a command that adds an endpoint. *)
Definition input_for_endpoint (w : Wrapper) (info : DeviceInformation) (index : Z) (m : memory) : memory :=
  let control := GetInputControlContext w in
  let m := SetAddContext control 0 (SetAddContext control index (Context_Reset_of w control m)) in
  let slot := GetSlotContext w true in
  let context_entries := GetContextEntries (GetSlotContext w false) m in
  let m := SetRouteString slot (route_string info) (SetRootHubPort slot (root_hub_port info) (Context_Reset_of w slot m)) in
  SetContextEntries slot (if context_entries <=? index then index else context_entries) m.

Definition endpoint_context (w : Wrapper) (e : EndpointDescriptor) (interval : Z) (r : TransferRing) (ep : Z) (m : memory) : memory :=
  let ss := superSpeedConfig e in
  let m := Context_Reset_of w ep m in
  let m := SetMult ep (if ss_valid ss then ss_mult ss else 0) m in
  let m := SetMaxPStreams ep 0 m in
  let m := SetInterval ep interval m in
  let m := SetErrorCount ep 3 m in
  let m := SetEndpointType ep (endpointType e) m in
  let m := SetMaxBurstSize ep (if ss_valid ss then ss_maxBurst ss else 0) m in
  let m := SetMaxPacketSize ep (maxPacketSize e) m in
  let m := SetDCS ep (cycle r) m in
  let m := SetTRDequeuePointer ep (GetBase r) m in
  SetAverageTRBLength ep (if decide (endpointType e = ControlBidirectional) then 8 else maxPacketSize e) m.

Definition store (f : memory -> memory) : DM unit := host_ (on_memory f).

(** The ring of the endpoint, created when there is none. *)
Definition endpoint_ring (i : Z) : DM (option (Z * TransferRing)) :=
  this ≫= fun d =>
  or_stop WildAccess (if 0 <=? i then endpoint_transfer_rings (parts d) !! Z.to_nat i else None) ≫= fun r =>
  match r with
  | Some r => mret (Some r)
  | None =>
      host (TransferRing_Create 1) ≫= fun r =>
      match r with
      | None => mret None
      | Some r => modify (set_ring i (Some r)) ≫= fun _ => mret (Some r)
      end
  end.

Definition ConfigureEndpoint (e : EndpointDescriptor) : DM bool :=
  this ≫= fun d =>
  match ConvertEndpointInterval (port_speed (information d)) (endpointType e) (ep_interval e) with
  | None => mret false
  | Some interval =>
      or_stop NullAccess (context_wrapper (parts d)) ≫= fun w =>
      store (input_for_endpoint w (information d) (context_index e)) ≫= fun _ =>
      let i := context_index e - 2 in
      endpoint_ring i ≫= fun r =>
      match r with
      | None => mret false
      | Some (object, r) =>
          or_stop NullAccess (GetInputEndpointContext w (u8 (endpointAddress e - 1)) (is_in (endpointType e))) ≫= fun ep =>
          store (endpoint_context w e interval r ep) ≫= fun _ =>
          ask GetCommandCycle ≫= fun command_cycle =>
          host (SendCommand (ConfigureEndpointTRB_Create command_cycle false (slot_id (information d)) (input (contexts w)))) ≫= fun result =>
          if bool_decide ((GetCompletionCode <$> result) = Some (completion_value Success)) then mret true
          else
            host_ (TransferRing_Release object r) ≫= fun _ =>
            host_ (Heap_Free object) ≫= fun _ =>
            modify (set_ring i None) ≫= fun _ => mret false
      end
  end.

(** ** Life of a device *)

Fixpoint release_configurations (l : list ConfigurationDescriptor) : DM unit :=
  match l with
  | [] => mret tt
  | c :: l => on_blocks (Configuration_Release c) ≫= fun _ => release_configurations l
  end.

(** The rings of the endpoints: each releases itself, then is freed. *)
Fixpoint release_rings (l : list (option (Z * TransferRing))) : DM unit :=
  match l with
  | [] => mret tt
  | None :: l => release_rings l
  | Some (object, r) :: l =>
      host_ (TransferRing_Release object r) ≫= fun _ => host_ (Heap_Free object) ≫= fun _ => release_rings l
  end.

Definition Release : DM unit :=
  this ≫= fun d =>
  match context_wrapper (parts d) with
  | None => mret tt
  | Some w => host_ (Wrapper_Release w)
  end ≫= fun _ =>
  match control_transfer_ring (parts d) with
  | None => mret tt
  | Some (object, r) => host_ (TransferRing_Release object r)
  end ≫= fun _ =>
  match configurations d with
  | None => mret tt
  | Some (block, l) => release_configurations l ≫= fun _ => on_blocks (Free (Some block))
  end ≫= fun _ =>
  release_rings (endpoint_transfer_rings (parts d)) ≫= fun _ =>
  modify (fun d => set_configurations None (set_parts (mkParts None None ((fun _ => None) <$> endpoint_transfer_rings (parts d))) d)) ≫= fun _ =>
  ReleaseDrivers ≫= fun _ => modify (set_accesses (mkAccesses true 0)).

Definition Destroy (fuel : nat) (others : Z -> Z) : DM unit := SetUnvailable fuel others ≫= fun _ => Release.

Definition GetDefaultMaxPacketSize (speed : PortSpeed) : option Z :=
  match speed with
  | LowSpeed => Some 8
  | FullSpeed | HighSpeed => Some 64
  | SuperSpeedGen1x1 | SuperSpeedPlusGen1x2 | SuperSpeedPlusGen2x1 | SuperSpeedPlusGen2x2 => Some 512
  | InvalidSpeed => None
  end.

Definition succeeded (result : option TRB) : bool := bool_decide ((GetCompletionCode <$> result) = Some (completion_value Success)).

(** Both commands are built before the first is sent. *)
Definition AddressDevice : DM bool :=
  this ≫= fun d =>
  or_stop NullAccess (context_wrapper (parts d)) ≫= fun w =>
  host_ (LoadDeviceSlot (slot_id (information d)) (output (contexts w))) ≫= fun _ =>
  ask GetCommandCycle ≫= fun cycle_legacy =>
  let command_legacy := AddressDeviceTRB_Create cycle_legacy true (slot_id (information d)) (input (contexts w)) in
  ask GetCommandCycle ≫= fun cycle =>
  let command := AddressDeviceTRB_Create cycle false (slot_id (information d)) (input (contexts w)) in
  host (SendCommand command_legacy) ≫= fun _ =>
  host (SendCommand command) ≫= fun result =>
  if succeeded result then mret true else Release ≫= fun _ => mret false.

Definition initial_contexts (w : Wrapper) (info : DeviceInformation) (m : memory) : memory :=
  let m := Wrapper_Reset w m in
  let control := GetInputControlContext w in
  let m := SetAddContext control 1 (SetAddContext control 0 m) in
  let slot := GetSlotContext w true in
  SetContextEntries slot 1 (SetRouteString slot (route_string info) (SetRootHubPort slot (root_hub_port info) m)).

Definition control_context (w : Wrapper) (r : TransferRing) (max_packet_size : Z) (m : memory) : memory :=
  let ep := GetControlEndpointContext w true in
  let m := SetEndpointType ep ControlBidirectional m in
  let m := SetMaxPacketSize ep max_packet_size m in
  let m := SetMaxBurstSize ep 0 m in
  let m := SetTRDequeuePointer ep (GetBase r) m in
  let m := SetDCS ep (cycle r) m in
  let m := SetInterval ep 0 m in
  let m := SetMaxPStreams ep 0 m in
  let m := SetMult ep 0 m in
  SetErrorCount ep 3 m.

(** A string is read for the log, and freed. *)
Definition log_string (index : Z) : DM unit :=
  if index =? 0 then mret tt
  else
    GetString index 0x0409 ≫= fun s =>
    match s with
    | None => mret tt
    | Some (object, _) => host_ (Heap_Free object)
    end.

(** The driver of a function of a configuration: whether one was created. *)
Definition start_driver (configurationValue : Z) (f : FunctionDescriptor) : DM bool :=
  (if functionClass f =? HID_CLASS then HID_Create configurationValue f
   else if functionClass f =? MASS_STORAGE_CLASS then MassStorage_Create configurationValue f
   else mret None) ≫= fun drv =>
  match drv with
  | None => mret false
  | Some driver =>
      AddDriver driver ≫= fun added =>
      (if negb added then kernel (driver_Release driver) else mret tt) ≫= fun _ => mret true
  end.

Fixpoint start_functions (configurationValue : Z) (l : list FunctionDescriptor) (initialized : bool) : DM bool :=
  match l with
  | [] => mret initialized
  | f :: l => start_driver configurationValue f ≫= fun ok => start_functions configurationValue l (initialized || ok)
  end.

(** The first configuration with a function that gets a driver. *)
Fixpoint start_drivers (l : list ConfigurationDescriptor) : DM unit :=
  match l with
  | [] => mret tt
  | c :: l =>
      if cfg_valid c then
        start_functions (configurationValue c) (functions c) false ≫= fun initialized =>
        if (initialized : bool) then mret tt else start_drivers l
      else start_drivers l
  end.

(** [Initialize] once the contexts and the control ring are in place. *)
Definition enumerate (fuel : nat) : DM bool :=
  AddressDevice ≫= fun ok =>
  if negb ok then Release ≫= fun _ => mret false
  else
    FetchDeviceDescriptor ≫= fun ok =>
    if negb ok then Release ≫= fun _ => mret false
    else
      FetchConfigurations fuel ≫= fun ok =>
      if negb ok then Release ≫= fun _ => mret false
      else
        this ≫= fun d =>
        log_string (manufacturerDescriptorIndex (descriptor d)) ≫= fun _ =>
        log_string (productDescriptorIndex (descriptor d)) ≫= fun _ =>
        log_string (serialNumberDescriptorIndex (descriptor d)) ≫= fun _ =>
        start_drivers (match configurations d with None => [] | Some (_, l) => l end) ≫= fun _ =>
        ReleaseBusy ≫= fun _ => mret true.

Definition set_wrapper (w : Wrapper) (d : Device D) : Device D :=
  set_parts (mkParts (Some w) (control_transfer_ring (parts d)) (endpoint_transfer_rings (parts d))) d.
Definition set_control_ring (r : Z * TransferRing) (d : Device D) : Device D :=
  set_parts (mkParts (context_wrapper (parts d)) (Some r) (endpoint_transfer_rings (parts d))) d.

Definition Initialize (fuel : nat) : DM bool :=
  SetBusy ≫= fun ok =>
  if negb ok then mret false
  else
    host HasExtendedContext ≫= fun ex =>
    host (ContextWrapper_Create ex) ≫= fun wrapper =>
    match wrapper with
    | None => mret false
    | Some (object, contexts) =>
        let w := mkWrapped object ex contexts in
        modify (set_wrapper w) ≫= fun _ =>
        this ≫= fun d =>
        store (initial_contexts w (information d)) ≫= fun _ =>
        host (TransferRing_Create 1) ≫= fun ring =>
        match ring with
        | None => Release ≫= fun _ => mret false
        | Some (object, r) =>
            modify (set_control_ring (object, r)) ≫= fun _ =>
            match GetDefaultMaxPacketSize (port_speed (information d)) with
            | None => Release ≫= fun _ => mret false
            | Some max_packet_size => store (control_context w r max_packet_size) ≫= fun _ => enumerate fuel
            end
        end
    end.

(** The drivers at their places, until one fails. *)
Fixpoint init_places (l : list (option D)) : DM (bool * list (option D)) :=
  match l with
  | [] => mret (true, [])
  | None :: l => init_places l ≫= fun '(ok, l) => mret (ok, None :: l)
  | Some driver :: l =>
      kernel (driver_PostInitialization driver) ≫= fun '(ok, driver) =>
      if negb ok then mret (false, Some driver :: l)
      else init_places l ≫= fun '(ok, l) => mret (ok, Some driver :: l)
  end.

Fixpoint init_nodes (l : list (DriversNode D)) : DM (bool * list (DriversNode D)) :=
  match l with
  | [] => mret (true, [])
  | n :: l =>
      init_places (node_drivers n) ≫= fun '(ok, places) =>
      let n := mkNode (node_object n) places in
      if negb ok then mret (false, n :: l)
      else init_nodes l ≫= fun '(ok, l) => mret (ok, n :: l)
  end.

Definition PostInitialization : DM bool :=
  SetBusy ≫= fun ok =>
  if negb ok then mret false
  else
    this ≫= fun d =>
    init_nodes (drivers d) ≫= fun '((ok, l) : bool * list (DriversNode D)) =>
    modify (set_drivers l) ≫= fun _ =>
    ReleaseBusy ≫= fun _ => mret ok.
End Device.
