(* ===== verification/XhciDeviceProps.v ===== *)
(** * USB devices: requests, endpoints, drivers, accesses

    A control request places its blocks on the ring, and its answer is that of
    the event that points to the last; an endpoint that is configured is found
    again; the interval is the one asked for; a device is released when nobody
    uses it, and its drivers are each released once. *)
From S2P Require Import Packed Trb TrbProps XhciContext XhciContextProps TransferRing TransferRingProps UsbDescriptors Prelude XhciDevice.

(** ** Intervals *)

Lemma halvings_spec fuel v : 0 < v < 2 ^ Z.of_nat fuel -> 0 <= halvings fuel v /\ 2 ^ halvings fuel v <= v < 2 ^ (halvings fuel v + 1).
Proof.
  revert v. induction fuel as [|fuel IH]; intros v Hv; [change (2 ^ Z.of_nat 0) with 1 in Hv; lia|]. cbn [halvings].
  destruct (Z.ltb_spec 1 v) as [Hgt|Hle]; [|assert (v = 1) as -> by lia; done].
  rewrite Nat2Z.inj_succ, Z.pow_succ_r in Hv by lia. rewrite Z.shiftr_div_pow2 by lia. change (2 ^ 1) with 2.
  pose proof (Z.div_mod v 2 ltac:(lia)). pose proof (Z.mod_pos_bound v 2 ltac:(lia)).
  destruct (IH (v / 2) ltac:(lia)) as (H1 & H2 & H3). rewrite !Z.pow_add_r in * by lia. change (2 ^ 1) with 2 in *. lia.
Qed.

Lemma log2_spec v : 0 < v < 2 ^ 16 -> 0 <= log2 v < 16 /\ 2 ^ log2 v <= v < 2 ^ (log2 v + 1).
Proof.
  intros Hv. destruct (halvings_spec 16 v Hv) as (H1 & H2 & H3). unfold log2. split; [|done]. split; [done|].
  apply (Z.pow_lt_mono_r_iff 2); [lia|lia|]. change (2 ^ 16) with 65536 in *. lia.
Qed.



(** Translation and the doorbells leave memory alone, and memory is not where
    translations come from. *)
Class DeviceHostLaws (X : Type) `{!KernelMemory X} `{!DeviceHost X} := {
  translate_memory : forall a f x, GetPhysicalAddress a (on_memory f x) = GetPhysicalAddress a x;
  doorbell_memory : forall s r x, read_memory (controller_RingDoorbell s r x) = read_memory x }.

Section Device.
Context {D X : Type} `{!KernelMemory X} `{!KernelMemoryLaws X} `{!DeviceHost X} `{!UsbDriver D X}.
#[local] Abbreviation DM := (Prelude.io (Device D * X)).
Implicit Types (d : Device D) (x : X).

Lemma dbind_run {A B} (m : DM A) (f : A -> DM B) w a w' : m w = inr (a, w') -> (m ≫= f) w = f a w'.
Proof using. intros E. unfold mbind, io_bind. by rewrite E. Qed.

Lemma dbind_inv {A B} (m : DM A) (f : A -> DM B) w b w' : (m ≫= f) w = inr (b, w') ->
  exists a w1, m w = inr (a, w1) /\ f a w1 = inr (b, w').
Proof using. unfold mbind, io_bind. destruct (m w) as [|[a w1]] eqn:E; [done|]. intros H. by exists a, w1. Qed.

(** ** Endpoints *)

(** The place of an endpoint among the rings. *)
Definition ring_index (a : Z) (b : bool) : Z := 2 * a + Z.b2z b - 2.

Lemma GetEndpointTransferRing_index a b d : 1 <= a <= 15 ->
  GetEndpointTransferRing a b d = mjoin (endpoint_transfer_rings (parts d) !! Z.to_nat (ring_index a b)).
Proof using.
  intros Ha. unfold GetEndpointTransferRing, ring_index, MAX_ENDPOINT_TRANSFER_RINGS. assert (0 <= Z.b2z b <= 1) by (destruct b; cbn; lia).
  rewrite wrap_small by lia. replace (a * 2 + Z.b2z b - 2) with (2 * a + Z.b2z b - 2) by lia. by replace (_ <? 15 * 2) with true by lia.
Qed.

(** The ring of one endpoint is replaced, the others stay. *)
Definition ring_replaced (a : Z) (b : bool) (r : option (Z * TransferRing)) d d' : Prop :=
  GetEndpointTransferRing a b d' = r /\
  forall a' b', 1 <= a' <= 15 -> (a', b') <> (a, b) -> GetEndpointTransferRing a' b' d' = GetEndpointTransferRing a' b' d.

Lemma set_ring_replaced a b r d : 1 <= a <= 15 -> length (endpoint_transfer_rings (parts d)) = 30%nat ->
  ring_replaced a b r d (set_ring (ring_index a b) r d).
Proof using.
  intros Ha Hl. assert (0 <= Z.b2z b <= 1) by (destruct b; cbn; lia). split.
  - rewrite GetEndpointTransferRing_index by done. unfold set_ring. cbn [parts set_parts endpoint_transfer_rings].
    rewrite list_lookup_insert_eq; [done|]. unfold ring_index. lia.
  - intros a' b' Ha' Hne. rewrite !GetEndpointTransferRing_index by done. unfold set_ring. cbn [parts set_parts endpoint_transfer_rings].
    rewrite list_lookup_insert_ne; [done|]. assert (0 <= Z.b2z b' <= 1) by (destruct b'; cbn; lia).
    unfold ring_index. intros He. apply Hne. destruct (decide (a' = a)) as [->|]; [|lia]. f_equal. destruct b, b'; cbn in *; done || lia.
Qed.

Lemma endpoint_ring_run a b d x : 1 <= a <= 15 -> length (endpoint_transfer_rings (parts d)) = 30%nat ->
  exists r d' x', (endpoint_ring (ring_index a b) : DM _) (d, x) = inr (r, (d', x')) /\
    length (endpoint_transfer_rings (parts d')) = 30%nat /\ context_wrapper (parts d') = context_wrapper (parts d) /\ information d' = information d /\
    match r with
    | None => d' = d
    | Some r => ring_replaced a b (Some r) d d'
    end.
Proof using.
  intros Ha Hl. assert (0 <= Z.b2z b <= 1) by (destruct b; cbn; lia). unfold endpoint_ring.
  rewrite (dbind_run this _ _ _ _ eq_refl). cbn [fst]. assert (Hi : 0 <= ring_index a b < 30) by (unfold ring_index; lia).
  replace (0 <=? ring_index a b) with true by lia.
  destruct (lookup_lt_is_Some_2 (endpoint_transfer_rings (parts d)) (Z.to_nat (ring_index a b)) ltac:(lia)) as [o Ho]. rewrite Ho.
  cbn [or_stop]. rewrite (dbind_run (mret o) _ _ _ _ eq_refl). destruct o as [r|].
  - exists (Some r), d, x. split; [done|]. split_and!; try done. split; [|done]. rewrite GetEndpointTransferRing_index by done. by rewrite Ho.
  - unfold mbind, io_bind, host. cbn [snd fst]. destruct (TransferRing_Create 1 x) as [[r|] x1].
    + exists (Some r), (set_ring (ring_index a b) (Some r) d), x1. split; [done|]. split; [unfold set_ring; cbn; by rewrite length_insert|].
      split; [done|]. split; [done|]. by apply set_ring_replaced.
    + by exists None, d, x1.
Qed.

Lemma context_index_ring e : 1 <= endpointAddress e <= 15 ->
  context_index e - 2 = ring_index (endpointAddress e) (is_in (endpointType e)).
Proof using.
  intros Ha. unfold context_index, ring_index. assert (0 <= Z.b2z (is_in (endpointType e)) <= 1) by (destruct (is_in _); cbn; lia).
  rewrite wrap_small by lia. lia.
Qed.

Lemma input_context_some w a b : 1 <= a <= 15 -> is_Some (GetInputEndpointContext w (u8 (a - 1)) b).
Proof using.
  intros Ha. rewrite wrap_small by lia. unfold GetInputEndpointContext, Ex_GetInputEndpointContext, Basic_GetInputEndpointContext.
  by destruct (extended w); cbn beta; replace (a - 1 <? 15) with true by lia.
Qed.


(** ** Control requests *)

Context `{!DeviceHostLaws X}.

Lemma control_cycles a b v i n p cy :
  (GetCycle (setup_trb a b v i n cy) = cy /\ EventTRB_GetType (setup_trb a b v i n cy) <> LINK_TYPE) /\
  (GetCycle (data_trb p n cy) = cy /\ EventTRB_GetType (data_trb p n cy) <> LINK_TYPE) /\
  (GetCycle (status_trb cy) = cy /\ EventTRB_GetType (status_trb cy) <> LINK_TYPE).
Proof using. by destruct cy. Qed.

(** The device after a block was placed on its control ring. *)
Lemma enqueue_control_run (trb : bool -> TRB) d x object r h :
  control_transfer_ring (parts d) = Some (object, r) -> produced r (read_memory x) h ->
  GetCycle (trb (cycle r)) = cycle r -> EventTRB_GetType (trb (cycle r)) <> LINK_TYPE ->
  exists r' f, (enqueue_control trb : DM Z) (d, x) = inr (slot r (index r), (set_control_ring (object, r') d, on_memory f x)) /\
    produced r' (read_memory (on_memory f x)) (h ++ [trb (cycle r)]).
Proof using KernelMemoryLaws0.
  intros Hr Hp Hcy Hty. destruct (Enqueue_produced r (read_memory x) h (trb (cycle r)) Hp Hcy Hty) as (r' & m' & E & Hp' & _ & _).
  exists r', (fun _ => m'). split; [|by rewrite read_on_memory].
  unfold enqueue_control, control_ring. unfold mbind, io_bind, this. cbn [fst snd]. rewrite Hr. cbn [or_stop mret io_ret fst snd ask].
  unfold mret, io_ret, ask. cbn [fst snd]. rewrite E. done.
Qed.

(** What a device without drivers makes of an event: the event of the block it
    waits for is its result. *)
Definition matches (p : Z) x (e : TRB) : bool := translates p (EventTRB_GetPointer e) x.

Definition idle (d : Device D) : Prop := unavailable (accesses d) = false /\ 0 <= current_accesses (accesses d) < 2 ^ 64 - 1.

Lemma signal_run t d x : idle d -> drivers d = [] ->
  (SignalTransferComplete t : DM unit) (d, x) =
    inr (tt, (if matches (awaiting_transfer (transfer d)) x t then set_transfer (mkTransfer true (awaiting_transfer (transfer d)) t) d else d, x)).
Proof using.
  intros [Hu Hn] Hd. destruct d as [info ps [tc aw tr] [un n] de co cu dr]. cbn [accesses unavailable current_accesses drivers transfer awaiting_transfer] in *. subst un dr.
  unfold SignalTransferComplete, SetBusy, mbind, io_bind, this, modify, ask, matches. cbn [fst snd accesses unavailable current_accesses negb].
  unfold mret, io_ret. cbn [fst snd transfer awaiting_transfer set_accesses]. rewrite wrap_small by lia.
  cbn [negb fst snd transfer awaiting_transfer set_accesses]. destruct (translates _ _ x); unfold ReleaseBusy, this, modify, mbind, io_bind; cbn; replace (0 <? n + 1) with true by lia;
    rewrite Z.add_simpl_r; reflexivity.
Qed.

(** The last of the events that is the answer to the block at [p]. *)
Fixpoint answer (p : Z) x (l : list TRB) : option TRB :=
  match l with
  | [] => None
  | e :: l => match answer p x l with
              | Some e => Some e
              | None => if matches p x e then Some e else None
              end
  end.

Lemma signal_all_run l : forall d x, idle d -> drivers d = [] ->
  (signal_all l : DM unit) (d, x) =
    inr (tt, (match answer (awaiting_transfer (transfer d)) x l with
              | Some e => set_transfer (mkTransfer true (awaiting_transfer (transfer d)) e) d
              | None => d
              end, x)).
Proof using.
  induction l as [|e l IH]; intros d x Hi Hd; [done|]. cbn [signal_all answer].
  rewrite (dbind_run _ _ _ _ _ (signal_run e d x Hi Hd)). destruct (matches _ x e) eqn:E.
  - rewrite IH by done. cbn [set_transfer transfer awaiting_transfer]. by destruct (answer _ x l).
  - rewrite IH by done. by destruct (answer _ x l).
Qed.

(** The device that waits for the block at [p], and after its answer. *)
Definition awaiting (p : Z) (result : TRB) d : Device D := set_transfer (mkTransfer false p result) d.

Lemma InitiateTransfer_run p reason d x events x1 : idle d -> drivers d = [] ->
  transfer_events COMPLETION_TIMEOUT_MS (controller_RingDoorbell (slot_id (information d)) reason x) = (events, x1) ->
  (InitiateTransfer p reason : DM bool) (d, x) =
    inr (match answer p x1 events with Some _ => true | None => false end,
         (awaiting p (default zero_trb (answer p x1 events)) d, x1)).
Proof using.
  intros Hi Hd He. unfold InitiateTransfer, RingDoorbell, mbind, io_bind, modify, this, host_, host. cbn [fst snd information set_transfer]. rewrite He.
  pose proof (signal_all_run events (awaiting p zero_trb d) x1 Hi Hd) as Hs. unfold awaiting in *. cbn [set_transfer transfer awaiting_transfer] in Hs.
  cbn [fst snd]. unfold set_transfer at 1 in Hs. unfold set_transfer at 1. rewrite Hs. by destruct (answer p x1 events).
Qed.

(** The three blocks of a request with data, and the blocks before them. *)
Definition request_blocks (a b v i n phys : Z) (r0 r1 r2 : TransferRing) : list TRB :=
  [setup_trb a b v i n (cycle r0); data_trb phys n (cycle r1); status_trb (cycle r2)].


(** A request whose buffer has no physical address fails without ringing, and
    leaves its first block on the ring for the next request to start. *)
Lemma untranslated_request a b v i n buffer d x object r h :
  control_transfer_ring (parts d) = Some (object, r) -> produced r (read_memory x) h -> GetPhysicalAddress buffer x = None ->
  exists r' f, (SendRequest a b v i n (Some buffer) : DM _) (d, x) = inr ((false, None), (set_control_ring (object, r') d, on_memory f x)) /\
    produced r' (read_memory (on_memory f x)) (h ++ [setup_trb a b v i n (cycle r)]).
Proof using All.
  intros Hr Hp Hb. destruct (control_cycles a b v i n 0 (cycle r)) as ([Hs1 Hs2] & _ & _).
  destruct (enqueue_control_run (setup_trb a b v i n) d x object r h Hr Hp Hs1 Hs2) as (r1 & f1 & E1 & Hp1). exists r1, f1. split; [|done].
  unfold SendRequest. rewrite (dbind_run _ _ _ _ _ E1). unfold mbind, io_bind, ask. cbn [fst snd]. by rewrite translate_memory, Hb.
Qed.

(** ** Accesses *)

(** A device, and how many tasks and handlers are inside one of its operations. *)
Inductive access_step : Device D * Z -> Device D * Z -> Prop :=
| access_enter d x d' x' n : n < 2 ^ 64 - 1 -> (SetBusy : DM bool) (d, x) = inr (true, (d', x')) -> access_step (d, n) (d', n + 1)
| access_refused d x d' x' n : (SetBusy : DM bool) (d, x) = inr (false, (d', x')) -> access_step (d, n) (d', n)
| access_leave d x d' x' n : 0 < n -> (ReleaseBusy : DM unit) (d, x) = inr (tt, (d', x')) -> access_step (d, n) (d', n - 1)
| access_close d n : access_step (d, n) (set_accesses (mkAccesses true (current_accesses (accesses d))) d, n).

Definition counted (s : Device D * Z) : Prop := current_accesses (accesses s.1) = s.2 /\ 0 <= s.2 < 2 ^ 64.

Lemma access_step_counted s s' : access_step s s' -> counted s -> counted s' /\
  (unavailable (accesses s.1) = true -> unavailable (accesses s'.1) = true /\ s'.2 <= s.2).
Proof using.
  intros [d x d' x' n Hn Hb|d x d' x' n Hb|d x d' x' n Hn Hb|d n]; unfold counted; cbn [fst snd]; intros [Hc Hr].
  - unfold SetBusy, mbind, io_bind, this, modify in Hb. cbn [fst snd] in Hb. destruct (unavailable (accesses d)); [done|]. injection Hb as <- _.
    cbn. rewrite Hc, wrap_small by lia. split; [lia|done].
  - unfold SetBusy, mbind, io_bind, this, modify in Hb. cbn [fst snd] in Hb. destruct (unavailable (accesses d)) eqn:E; [|done]. injection Hb as <- _.
    rewrite E. split; [lia|split; [done|lia]].
  - unfold ReleaseBusy, mbind, io_bind, this, modify in Hb. cbn [fst snd] in Hb. rewrite Hc in Hb. replace (0 <? n) with true in Hb by lia.
    injection Hb as <- _. cbn. split; [lia|]. split; [done|lia].
  - cbn. rewrite Hc. split; [lia|]. split; [done|lia].
Qed.

Lemma accesses_closed s s' : rtc access_step s s' -> counted s -> unavailable (accesses s.1) = true -> s.2 = 0 -> s'.2 = 0.
Proof using.
  induction 1 as [|s s1 s2 Hst _ IH]; [done|]. intros Hc Hu H0. destruct (access_step_counted _ _ Hst Hc) as [Hc1 H1].
  destruct (H1 Hu) as [Hu1 Hle]. apply IH; [done|done|]. destruct Hc1. lia.
Qed.


(** The wait of the destruction ends on a closed, idle device. *)
Lemma SetUnvailable_quiet fuel others d x d' x' : (SetUnvailable fuel others : DM unit) (d, x) = inr (tt, (d', x')) ->
  IsUnavailable d' = true /\ IsBusy d' = false.
Proof using.
  unfold SetUnvailable. rewrite (dbind_run (modify _) _ _ _ _ eq_refl). cbn [fst snd].
  assert (Hu : unavailable (accesses (set_accesses (mkAccesses true (current_accesses (accesses d))) d)) = true) by done.
  revert Hu. generalize (set_accesses (mkAccesses true (current_accesses (accesses d))) d). induction fuel as [|fuel IH]; intros d0 Hu; [done|].
  cbn [wait_idle]. rewrite (dbind_run this _ _ _ _ eq_refl). cbn [fst]. destruct (IsBusy d0) eqn:E.
  - rewrite (dbind_run (modify _) _ _ _ _ eq_refl). cbn [fst snd]. by apply IH.
  - by intros [= <- _].
Qed.

(** ** Drivers *)

(** What the occupied places hold. *)
Definition filled {A} (l : list (option A)) : list A := omap (fun o => o) l.

Definition all_drivers (l : list (DriversNode D)) : list D := l ≫= fun n => filled (node_drivers n).

Definition nodes_ok (l : list (DriversNode D)) : Prop := Forall (fun n => length (node_drivers n) = MAX_DRIVERS) l.

Lemma filled_cons {A} (o : option A) l : filled (o :: l) = option_list o ++ filled l.
Proof using. by destruct o. Qed.

Lemma filled_insert (l : list (option D)) i driver : l !! i = Some None -> filled (<[i := Some driver]> l) ≡ₚ driver :: filled l.
Proof using.
  revert i. induction l as [|o l IH]; intros i Hi; [done|]. destruct i as [|i].
  - injection Hi as ->. done.
  - change (<[S i:=Some driver]> (o :: l)) with (o :: <[i:=Some driver]> l). rewrite !filled_cons, IH by done. apply Permutation_sym, Permutation_middle.
Qed.

Lemma put_driver_spec driver (n n' : DriversNode D) : put_driver driver n = Some n' -> length (node_drivers n) = MAX_DRIVERS ->
  filled (node_drivers n') ≡ₚ driver :: filled (node_drivers n) /\ length (node_drivers n') = MAX_DRIVERS.
Proof using.
  unfold put_driver. destruct (list_find _ _) as [[i o]|] eqn:E; [|done]. intros [= <-] Hl. apply list_find_Some in E as (Hi & -> & _). cbn.
  split; [by apply filled_insert|by rewrite length_insert].
Qed.

Lemma add_driver_spec driver (l : list (DriversNode D)) : nodes_ok l ->
  match add_driver driver l with
  | Some l' => all_drivers l' ≡ₚ driver :: all_drivers l /\ nodes_ok l'
  | None => Forall (fun n : DriversNode D => Forall is_Some (node_drivers n)) l
  end.
Proof using.
  induction 1 as [|n l Hn Hl IH]; cbn [add_driver]; [by constructor|]. destruct (put_driver driver n) as [n'|] eqn:E.
  - destruct (put_driver_spec _ _ _ E Hn) as [H1 H2]. split; [|by constructor]. unfold all_drivers. cbn. by rewrite H1.
  - destruct (add_driver driver l) as [l'|]; cbn.
    + destruct IH as [H1 H2]. split; [|by constructor]. unfold all_drivers in *. cbn. rewrite H1. by rewrite Permutation_middle.
    + constructor; [|done]. unfold put_driver in E. destruct (list_find _ _) as [|] eqn:Ef; [done|]. apply list_find_None in Ef.
      eapply Forall_impl; [exact Ef|]. intros [a|] Ho; [by exists a|done].
Qed.

(** A driver is added to those of the device, at an empty place or in a new
    node; only without memory for one, and with every place taken, is it not. *)
Theorem AddDriver_adds driver d x : nodes_ok (drivers d) ->
  exists ok d' x', (AddDriver driver : DM bool) (d, x) = inr (ok, (d', x')) /\ nodes_ok (drivers d') /\
    if ok then all_drivers (drivers d') ≡ₚ driver :: all_drivers (drivers d)
    else d' = d /\ fst (Heap_Allocate SIZEOF_NODE x) = None /\ Forall (fun n : DriversNode D => Forall is_Some (node_drivers n)) (drivers d).
Proof using.
  intros Hok. pose proof (add_driver_spec driver (drivers d) Hok) as Hs. unfold AddDriver. rewrite (dbind_run this _ _ _ _ eq_refl). cbn [fst].
  destruct (add_driver driver (drivers d)) as [l|].
  - destruct Hs as [H1 H2]. by exists true, (set_drivers l d), x.
  - unfold mbind, io_bind, host. cbn [fst snd]. destruct (Heap_Allocate SIZEOF_NODE x) as [[object|] x1] eqn:E.
    + eexists true, _, x1. split; [reflexivity|]. cbn [drivers set_drivers fst snd]. split.
      * apply Forall_app. split; [done|]. by repeat constructor.
      * unfold all_drivers. rewrite bind_app. cbn. by rewrite Permutation_app_comm.
    + by exists false, d, x1.
Qed.

(** ** Release *)

(** A log of the blocks that are freed. *)
Class FreeLog := {
  frees : X -> list Z;
  free_logged : forall p x, frees (Heap_Free p x) = p :: frees x;
  dma_logged : forall p n x, frees (FreeDMA p n x) = frees x }.
Context {HF : FreeLog}.

Lemma release_rings_run l d x : exists x', (release_rings l : DM unit) (d, x) = inr (tt, (d, x')) /\
  frees x' = rev (filled l ≫= fun r => [fst r; fst r]) ++ frees x.
Proof using HF.
  revert x. induction l as [|[[object r]|] l IH]; intros x; [by exists x| |exact (IH x)].
  cbn [release_rings]. rewrite !(dbind_run (host_ _) _ _ _ _ eq_refl). cbn [fst snd].
  destruct (IH (Heap_Free object (TransferRing_Release object r x))) as (x' & -> & Hf). exists x'. split; [done|].
  rewrite Hf. unfold TransferRing_Release. rewrite !free_logged, dma_logged. cbn. by rewrite <- !app_assoc.
Qed.

(** The release of a device frees the ring of each of its endpoints twice. *)
Theorem rings_freed_twice d x d' x' object r :
  context_wrapper (parts d) = None -> control_transfer_ring (parts d) = None -> configurations d = None -> drivers d = [] ->
  Some (object, r) ∈ endpoint_transfer_rings (parts d) -> (Release : DM unit) (d, x) = inr (tt, (d', x')) ->
  exists l1 l2, frees x' = l1 ++ [object; object] ++ l2 ++ frees x.
Proof using HF.
  intros Hw Hc Hf Hd Hin. unfold Release. rewrite (dbind_run this _ _ _ _ eq_refl). cbn [fst]. rewrite Hw, Hc, Hf, !(dbind_run (mret tt) _ _ _ _ eq_refl).
  destruct (release_rings_run (endpoint_transfer_rings (parts d)) d x) as (x1 & E & Hlog). rewrite (dbind_run _ _ _ _ _ E).
  unfold ReleaseDrivers, mbind, io_bind, modify, this. cbn [fst snd set_configurations set_parts drivers]. rewrite Hd. cbn.
  intros [= _ <-]. apply list_elem_of_split in Hin as (l1 & l2 & Hl). rewrite Hl in Hlog. rewrite Hlog.
  set (g := fun r : Z * TransferRing => [r.1; r.1]). assert (Hf2 : filled (l1 ++ Some (object, r) :: l2) = filled l1 ++ (object, r) :: filled l2)
    by (unfold filled; by rewrite omap_app).
  rewrite Hf2, bind_app. exists (rev (filled l2 ≫= g)), (rev (filled l1 ≫= g)). rewrite rev_app_distr.
  change (((object, r) :: filled l2) ≫= g) with ([object; object] ++ (filled l2 ≫= g)). rewrite rev_app_distr. cbn [rev app].
  by rewrite <- !app_assoc.
Qed.
End Device.

(** ** A bench *)

(** A host whose controller accepts every command and delivers the events it is
    given, with addresses that are their own translation. *)
Record Bench := mkBench { bench_memory : memory; bench_next : Z; bench_events : list TRB; bench_frees : list Z; bench_blocks : blocks }.

#[global] Instance bench_kernel : KernelMemory Bench := {
  Heap_Allocate n b := (Some (bench_next b), mkBench (bench_memory b) (bench_next b + 4096) (bench_events b) (bench_frees b) (bench_blocks b));
  Heap_Free p b := mkBench (bench_memory b) (bench_next b) (bench_events b) (p :: bench_frees b) (bench_blocks b);
  AllocateDMA n b := (Some (bench_next b), mkBench (bench_memory b) (bench_next b + n * 4096) (bench_events b) (bench_frees b) (bench_blocks b));
  FreeDMA _ _ b := b;
  read_memory b := bench_memory b;
  on_memory f b := mkBench (f (bench_memory b)) (bench_next b) (bench_events b) (bench_frees b) (bench_blocks b) }.

#[global] Instance bench_kernel_laws : KernelMemoryLaws Bench.
Proof. by constructor. Qed.

#[global] Instance bench_host : DeviceHost Bench := {
  HasExtendedContext b := (false, b);
  GetCommandCycle _ := true;
  SendCommand _ b := (Some (mkTRB 0 0 (2 ^ 24) 0), b);
  LoadDeviceSlot _ _ b := b;
  controller_RingDoorbell _ _ b := b;
  transfer_events _ b := (bench_events b, b);
  GetPhysicalAddress a _ := Some a;
  IOHeap_Allocate _ b := (Some (bench_next b), b);
  IOHeap_Free _ b := b;
  read_byte _ _ := 0;
  descriptor_blocks := bench_blocks;
  set_blocks k b := mkBench (bench_memory b) (bench_next b) (bench_events b) (bench_frees b) k;
  allocates _ _ := true;
  block_address n := Z.of_nat n }.

#[global] Instance bench_host_laws : DeviceHostLaws Bench.
Proof. by constructor. Qed.

#[global] Instance bench_log : FreeLog (X := Bench).
Proof. by refine {| frees := bench_frees |}. Defined.

(** A driver is the address it waits at. *)
#[global] Instance bench_driver : UsbDriver Z Bench := {
  GetAwaitingTRB d := d;
  HandleEvent _ d b := inr (d, b);
  driver_PostInitialization d b := inr ((true, d), b);
  driver_Release _ b := inr (tt, b);
  HID_Create _ _ w := inr (None, w);
  MassStorage_Create _ _ w := inr (None, w) }.

Definition keyboard_info : DeviceInformation := mkInformation 0 1 1 3 FullSpeed 0.
Definition bare_device : Device Z := new_Device keyboard_info.
Definition wired_device : Device Z :=
  set_wrapper (mkWrapped 0x8000 false (mkWrapper 0x9000 0x9400)) (set_control_ring (0x7000, fresh_ring 0x10000 256) bare_device).
Definition status_event : TRB := mkTRB 0x10020 0 (2 ^ 24) 0.
Definition bench : Bench := mkBench (fun _ => 0) 0x20000 [status_event] [] (mkBlocks 0 []).

Definition interrupt_endpoint : EndpointDescriptor := mkEndpoint 1 InterruptIn EC_zero 8 10 ss_zero.



(** The request is answered: the event points to its third block. *)
Example descriptor_answered :
  match (SendRequest 0x80 6 0x100 0 18 (Some 0x5000) : Prelude.io (Device Z * Bench) _) (wired_device, bench) with
  | inr (out, _) => out = (true, Some 1)
  | inl _ => False
  end.
Proof. by vm_compute. Qed.

Definition closed_device : Device Z := set_accesses (mkAccesses true 0) bare_device.


Lemma AddDriver_adds_witness : exists ok d' b',
  (AddDriver 0x6000 : Prelude.io (Device Z * Bench) bool) (bare_device, bench) = inr (ok, (d', b')) /\ nodes_ok (drivers d').
Proof.
  destruct (AddDriver_adds (X := Bench) 0x6000 bare_device bench) as (ok & d' & b' & E & H & _); [by constructor|]. by exists ok, d', b'.
Defined.

Definition plugged_device : Device Z := set_ring 1 (Some (0x7000, fresh_ring 0x10000 256)) bare_device.

Lemma rings_freed_twice_witness : exists l1 l2,
  match (Release : Prelude.io (Device Z * Bench) unit) (plugged_device, bench) with
  | inr (_, (_, b)) => frees b = l1 ++ [0x7000; 0x7000] ++ l2
  | inl _ => False
  end.
Proof.
  destruct (rings_freed_twice plugged_device bench (set_accesses (mkAccesses true 0) bare_device)
    (mkBench (bench_memory bench) 0x20000 [status_event] [0x7000; 0x7000] (mkBlocks 0 [])) 0x7000 (fresh_ring 0x10000 256))
    as (l1 & l2 & H); [done|done|done|done| |reflexivity|].
  - apply list_elem_of_lookup. by exists 1%nat.
  - exists l1, (l2 ++ []). exact H.
Defined.
