(* ===== verification/IOHeap.v ===== *)
(** * The I/O heap and the memory primitives
    ([kernel/src/mm/IOHeap.cpp], [kernel/src/mm/Utils.cpp])

    An allocator over one uncached region of 32 MiB: free blocks are chained
    by address, the best fit is cut to size, and a freed block goes back to its
    place in the chain.  Memory is a function from addresses to bytes, because
    the allocator may copy a header over another. *)
From S2P Require Import Prelude.

(** ** Bytes *)

Definition memory : Type := Z -> Z.

Definition load_bytes (m : memory) (a : Z) (n : nat) : list Z := (fun i => m (a + Z.of_nat i)) <$> seq 0 n.
Definition store_bytes (m : memory) (a : Z) (bytes : list Z) : memory := fun b =>
  if decide (a <= b < a + Z.of_nat (length bytes)) then default 0 (bytes !! Z.to_nat (b - a)) else m b.

Definition load_int (m : memory) (a : Z) (n : nat) : Z := le (load_bytes m a n).
Definition store_int (m : memory) (a : Z) (n : nat) (v : Z) : memory := store_bytes m a (le_bytes n v).

(** ** Memory primitives *)

(** [memcmp]: the bytes of [rhs] are compared with those of [lhs]. *)
Fixpoint memcmp_loop (m : memory) (lhs rhs : Z) (count : nat) : Z :=
  match count with
  | O => 0
  | S count =>
      let x := m rhs in
      let y := m lhs in
      if negb (x =? y) then (if x <? y then -1 else 1) else memcmp_loop m (lhs + 1) (rhs + 1) count
  end.
Definition memcmp (m : memory) (lhs rhs : Z) (count : nat) : Z :=
  if lhs =? rhs then 0 else memcmp_loop m lhs rhs count.

(** Byte after byte, ascending. *)
Fixpoint copy_up (m : memory) (dest src : Z) (count : nat) : memory :=
  match count with
  | O => m
  | S count => copy_up (<[dest := m src]> m) (dest + 1) (src + 1) count
  end.

(** [memcpy]: the memory and the returned pointer, which [rep movsb] moves. *)
Definition Utils_memcpy (m : memory) (dest src : Z) (count : nat) : memory * Z :=
  if dest =? src then (m, dest)
  else (copy_up m dest src count, if (64 <=? count)%nat then dest + Z.of_nat count else dest).

Fixpoint set_up (m : memory) (dest ch : Z) (count : nat) : memory :=
  match count with
  | O => m
  | S count => set_up (<[dest := u8 ch]> m) (dest + 1) ch count
  end.

Definition MIN_STOSQ_COUNT : nat := 64.

(** [memset]: below 64 bytes, a loop; from there on, bytes up to an aligned
    address, quadwords from [dest], and the rest after these. *)
Definition Utils_memset (m : memory) (dest ch : Z) (count : nat) : memory * Z :=
  if (MIN_STOSQ_COUNT <=? count)%nat then
    let head := Z.to_nat ((- dest) mod 8) in
    let m := set_up m dest ch head in
    let count := (count - head)%nat in
    let count64 := (count / 8)%nat in
    let m := set_up m dest ch (8 * count64) in
    let dest := dest + Z.of_nat (8 * count64) in
    (set_up m dest ch (count mod 8), dest)
  else (set_up m dest ch count, dest).

(** ** Blocks *)

Definition PAGE_SIZE : Z := 0x1000.
Definition DEFAULT_ARENA_SIZE : Z := 32 * 1024 * 1024.
Definition SIZEOF_METADATA : Z := 16.

(** The fields of [Metadata] at an address. *)
Definition get_padding (m : memory) (a : Z) : Z := load_int m a 4.
Definition get_size (m : memory) (a : Z) : Z := load_int m (a + 4) 4.
Definition get_next (m : memory) (a : Z) : Z := load_int m (a + 8) 8.
Definition set_padding (a v : Z) (m : memory) : memory := store_int m a 4 (u32 v).
Definition set_size (a v : Z) (m : memory) : memory := store_int m (a + 4) 4 (u32 v).
Definition set_next (a v : Z) (m : memory) : memory := store_int m (a + 8) 8 v.

(** [*dst = *src] *)
Definition copy_metadata (dst src : Z) (m : memory) : memory := store_bytes m dst (load_bytes m src 16).

(** [head] and the memory; a null pointer is 0. *)
Record IOHeap := mkHeap { head : Z; bytes : memory }.

(** [Create], over the region the memory managers give: the physical region
    and its mapping, or none. *)
Definition IOHeap_Create (region : option Z) (mapping : Z -> option Z) (h : IOHeap) : bool * IOHeap :=
  if head h =? 0 then
    match region with
    | None => (false, h)
    | Some physical_region =>
        match mapping physical_region with
        | None => (false, h)
        | Some a => (true, mkHeap a (set_next a 0 (set_size a (DEFAULT_ARENA_SIZE - SIZEOF_METADATA) (set_padding a 0 (bytes h)))))
        end
    end
  else (true, h).

(** The padding that aligns the bytes of a block. *)
Definition padding_of (a alignment : Z) : Z :=
  let address := a + SIZEOF_METADATA in
  if address mod alignment =? 0 then 0 else alignment - address mod alignment.

(** The best fit so far, with its predecessor. *)
Fixpoint find_best (fuel : nat) (size alignment prev current : Z) (best : option (Z * Z)) (m : memory) : fault + (option (Z * Z) * memory) :=
  if current =? 0 then inr (best, m)
  else
    match fuel with
    | O => inl Hang
    | S fuel =>
        let padding := padding_of current alignment in
        let '(best, m) :=
          if u64 (padding + size) <=? get_size m current then
            if match best with None => true | Some (_, b) => get_size m current <? get_size m b end
            then (Some (prev, current), set_padding current padding m)
            else (best, m)
          else (best, m) in
        find_best fuel size alignment current (get_next m current) best m
    end.

(** The best fit is cut when there is room for another block behind it: the
    difference of a 32-bit size and the size of a header is 64 bits wide. *)
Definition split (best_fit size : Z) (m : memory) : memory :=
  let allocated_size := u64 (size + get_padding m best_fit) in
  if allocated_size <? u64 (get_size m best_fit - SIZEOF_METADATA) then
    let new_metadata := best_fit + SIZEOF_METADATA + allocated_size in
    let m := set_size new_metadata (get_size m best_fit - allocated_size - SIZEOF_METADATA) m in
    let m := set_padding new_metadata 0 m in
    let m := set_next new_metadata (get_next m best_fit) m in
    let m := set_size best_fit allocated_size m in
    set_next best_fit new_metadata m
  else m.

Definition IOHeap_Allocate (fuel : nat) (size alignment : Z) : io IOHeap Z := fun h =>
  if (PAGE_SIZE <? alignment) || negb (alignment mod 8 =? 0) then inr (0, h)
  else if (alignment =? 0) && negb (head h =? 0) then inl DivideByZero
  else
    match find_best fuel size alignment 0 (head h) None (bytes h) with
    | inl e => inl e
    | inr (None, m) => inr (0, mkHeap (head h) m)
    | inr (Some (best_fit_prev, best_fit), m) =>
        let m := split best_fit size m in
        let '(head, m) :=
          if best_fit_prev =? 0 then (get_next m best_fit, m) else (head h, set_next best_fit_prev (get_next m best_fit) m) in
        let m := set_next best_fit 0 m in
        let user_metadata := best_fit + get_padding m best_fit in
        let m := copy_metadata user_metadata best_fit m in
        inr (user_metadata + SIZEOF_METADATA, mkHeap head m)
    end.

Definition Coalesce (current : Z) (m : memory) : memory :=
  let next := get_next m current in
  if next =? 0 then m
  else if current + SIZEOF_METADATA + get_size m current =? next then
    let m := set_size current (get_size m current + SIZEOF_METADATA + get_size m next) m in
    set_next current (get_next m next) m
  else m.

(** The loop of [Free] over the chain. *)
Fixpoint insert_block (fuel : nat) (metadata : Z) (inserted : bool) (current : Z) (m : memory) : fault + memory :=
  if current =? 0 then inr m
  else
    match fuel with
    | O => inl Hang
    | S fuel =>
        let current_end := current + SIZEOF_METADATA + get_size m current in
        let next := get_next m current in
        let '(inserted, m) :=
          if inserted then (inserted, m)
          else if next =? 0 then (true, set_next current metadata m)
          else if (current_end <=? metadata) && (metadata <? next) then (true, set_next current metadata (set_next metadata next m))
          else (false, m) in
        let m := Coalesce current m in
        insert_block fuel metadata inserted (get_next m current) m
    end.

Definition IOHeap_Free (fuel : nat) (ptr : Z) : io IOHeap unit := fun h =>
  if ptr =? 0 then inr (tt, h)
  else
    let user_metadata := ptr - SIZEOF_METADATA in
    let metadata := user_metadata - get_padding (bytes h) user_metadata in
    if head h =? 0 then inr (tt, mkHeap metadata (set_next metadata 0 (bytes h)))
    else
      let '(inserted, head, m) :=
        if metadata <? head h then (true, metadata, set_next metadata (head h) (bytes h)) else (false, head h, bytes h) in
      match insert_block fuel metadata inserted head m with
      | inl e => inl e
      | inr m => inr (tt, mkHeap head m)
      end.
