(* ===== verification/IOHeapProps.v ===== *)
(** * The I/O heap: properties

    For clients that ask for multiples of 16 bytes the heap is an allocator:
    blocks never overlap, nothing is lost, and what a client wrote stays.  For
    other sizes a header may be written over a live block or past the arena. *)
From S2P Require Import Prelude IOHeap.

#[local] Arguments load_int : simpl never.
#[local] Arguments store_int : simpl never.
#[local] Arguments get_size : simpl never.
#[local] Arguments get_next : simpl never.
#[local] Arguments get_padding : simpl never.
#[local] Arguments Z.add : simpl never.

(** ** Reading after writing *)

Lemma length_load_bytes m a n : length (load_bytes m a n) = n.
Proof. unfold load_bytes. by rewrite length_fmap, length_seq. Qed.

Lemma lookup_load_bytes m a n i : load_bytes m a n !! i = if decide (i < n)%nat then Some (m (a + Z.of_nat i)) else None.
Proof.
  unfold load_bytes. rewrite list_lookup_fmap. case_decide; [by rewrite lookup_seq_lt by done|by rewrite lookup_seq_ge by lia].
Qed.

Lemma load_bytes_ext m m' a n : (forall b, a <= b < a + Z.of_nat n -> m' b = m b) -> load_bytes m' a n = load_bytes m a n.
Proof.
  intros He. unfold load_bytes. apply list_fmap_ext. intros i x Hx. apply lookup_seq in Hx as [-> Hi]. apply He. lia.
Qed.

Lemma store_bytes_out m a l b : b < a \/ a + Z.of_nat (length l) <= b -> store_bytes m a l b = m b.
Proof. intros Hb. unfold store_bytes. by rewrite decide_False by lia. Qed.

Lemma load_store_same m a l : load_bytes (store_bytes m a l) a (length l) = l.
Proof.
  apply list_eq. intros i. rewrite lookup_load_bytes. case_decide as Hi.
  - unfold store_bytes. rewrite decide_True by lia. replace (Z.to_nat (a + Z.of_nat i - a)) with i by lia.
    destruct (lookup_lt_is_Some_2 l i Hi) as [x Ex]. by rewrite !Ex.
  - symmetry. apply lookup_ge_None. lia.
Qed.

Lemma load_int_same m a n v : 0 <= v < 256 ^ Z.of_nat n -> load_int (store_int m a n v) a n = v.
Proof.
  intros Hv. unfold load_int, store_int. rewrite <- (length_le_bytes n v) at 2. rewrite load_store_same. by apply le_le_bytes.
Qed.

Lemma load_int_other m a n b k v : a + Z.of_nat n <= b \/ b + Z.of_nat k <= a -> load_int (store_int m b k v) a n = load_int m a n.
Proof.
  intros Hd. unfold load_int, store_int. f_equal. apply load_bytes_ext. intros c Hc. apply store_bytes_out. rewrite length_le_bytes. lia.
Qed.

Lemma store_int_out m a n v b : b < a \/ a + Z.of_nat n <= b -> store_int m a n v b = m b.
Proof. intros Hb. apply store_bytes_out. by rewrite length_le_bytes. Qed.

Lemma load_int_ext m m' a n : (forall b, a <= b < a + Z.of_nat n -> m' b = m b) -> load_int m' a n = load_int m a n.
Proof. intros He. unfold load_int. f_equal. by apply load_bytes_ext. Qed.

(** A header copied elsewhere. *)
Lemma copy_metadata_field m d s off n : (off + n <= 16)%nat ->
  load_int (copy_metadata d s m) (d + Z.of_nat off) n = load_int m (s + Z.of_nat off) n.
Proof.
  intros Hn. unfold load_int, copy_metadata. f_equal. apply list_eq. intros i. rewrite !lookup_load_bytes. case_decide; [|done].
  unfold store_bytes. rewrite length_load_bytes, decide_True by lia.
  replace (Z.to_nat (d + Z.of_nat off + Z.of_nat i - d)) with (off + i)%nat by lia.
  rewrite lookup_load_bytes, decide_True by lia. cbn. do 2 f_equal. lia.
Qed.

Lemma copy_metadata_out m d s b : b < d \/ d + 16 <= b -> copy_metadata d s m b = m b.
Proof. intros Hb. apply store_bytes_out. by rewrite length_load_bytes. Qed.

Lemma copy_metadata_self m a b : copy_metadata a a m b = m b.
Proof.
  unfold copy_metadata, store_bytes. rewrite length_load_bytes. case_decide as Hd; [|done].
  rewrite lookup_load_bytes, decide_True by lia. cbn. f_equal. lia.
Qed.

(** Computes fields through writes, the ranges being settled by [lia]. *)
Ltac fields :=
  unfold get_padding, get_size, get_next, set_padding, set_size, set_next in *;
  repeat first [rewrite load_int_same by (try apply wrap_range; lia) | rewrite load_int_other by lia].

(** ** Blocks and chains *)

(** A block: the address of its header and its size. *)
Definition span (b : Z * Z) : Z := b.1 + SIZEOF_METADATA + b.2.

(** Headers linked from [p] to [q]. *)
Fixpoint chain (m : memory) (p : Z) (F : list (Z * Z)) (q : Z) : Prop :=
  match F with
  | [] => p = q
  | b :: F => p = b.1 /\ get_size m b.1 = b.2 /\ chain m (get_next m b.1) F q
  end.

(** Two blocks that do not overlap. *)
Definition apart (b d : Z * Z) : Prop := span b <= d.1 \/ span d <= b.1.

Fixpoint scattered (F : list (Z * Z)) : Prop :=
  match F with [] => True | b :: F => Forall (apart b) F /\ scattered F end.

(** A block between two addresses, in units of 16 bytes. *)
Definition sound (lo hi : Z) (b : Z * Z) : Prop := lo <= b.1 /\ span b <= hi /\ b.1 mod 16 = 0 /\ b.2 mod 16 = 0 /\ 16 <= b.2.

(** Sound blocks that do not overlap, in any order. *)
Definition blocks (lo : Z) (F : list (Z * Z)) (hi : Z) : Prop := Forall (sound lo hi) F /\ scattered F.

Lemma io_apart_sym b d : apart b d -> apart d b.
Proof. unfold apart. tauto. Qed.

Lemma scattered_app F G : scattered (F ++ G) <-> scattered F /\ scattered G /\ forall b d, b ∈ F -> d ∈ G -> apart b d.
Proof.
  induction F as [|b F IH]; cbn.
  - split; [intros; split_and!; [done|done|by intros b d ?%not_elem_of_nil]|tauto].
  - rewrite IH, Forall_app, !Forall_forall. split.
    + intros ((Hb & HbG) & HF & HG & Hap). split_and!; try done. intros c d [->|Hc]%elem_of_cons Hd; auto.
    + intros ((Hb & HF) & HG & Hap). split_and!; try done; intros; apply Hap; try done; [by left|by right].
Qed.

Lemma blocks_app lo F G hi : blocks lo (F ++ G) hi <-> blocks lo F hi /\ blocks lo G hi /\ forall b d, b ∈ F -> d ∈ G -> apart b d.
Proof. unfold blocks. rewrite Forall_app, scattered_app. tauto. Qed.

Lemma blocks_cons lo b F hi : blocks lo (b :: F) hi <-> sound lo hi b /\ Forall (apart b) F /\ blocks lo F hi.
Proof. unfold blocks. cbn. rewrite Forall_cons. tauto. Qed.

Lemma blocks_in lo F hi b : blocks lo F hi -> b ∈ F -> lo <= b.1 /\ span b <= hi /\ b.1 mod 16 = 0 /\ b.2 mod 16 = 0 /\ 16 <= b.2.
Proof. intros [HF _] Hb. rewrite Forall_forall in HF. by apply HF. Qed.

Lemma chain_app m p F G q : chain m p (F ++ G) q <-> exists r, chain m p F r /\ chain m r G q.
Proof.
  revert p. induction F as [|b F IH]; intros p; cbn; [split; [by exists p|by intros (? & -> & ?)]|].
  rewrite IH. split; [intros (? & ? & r & ? & ?); exists r; by split_and!|intros (r & (? & ? & ?) & ?); split_and!; try done; by exists r].
Qed.

Lemma chain_ext m m' p F q :
  (forall b, b ∈ F -> forall c, b.1 + 4 <= c < b.1 + 16 -> m' c = m c) -> chain m p F q -> chain m' p F q.
Proof.
  revert p. induction F as [|b F IH]; intros p He; cbn; [done|]. intros (-> & Hs & Hc).
  assert (Hb : forall c, b.1 + 4 <= c < b.1 + 16 -> m' c = m c) by (apply He; left).
  unfold get_size, get_next in *. rewrite !(load_int_ext m m') by (intros; apply Hb; lia). split_and!; try done.
  apply IH; [|done]. intros d Hd. apply He. by right.
Qed.

(** The address of the last block, or null. *)
Definition last_address (F : list (Z * Z)) : Z := match last F with None => 0 | Some b => b.1 end.

Lemma chain_relink m p F b q x lo hi : blocks lo (F ++ [b]) hi -> 0 <= x < 2 ^ 64 ->
  chain m p (F ++ [b]) q -> chain (set_next b.1 x m) p (F ++ [b]) x.
Proof.
  intros Ha Hx Hc. apply chain_app in Hc as (r & HF & Hb). cbn in Hb. destruct Hb as (-> & Hs & _).
  apply blocks_app in Ha as (HaF & Hab & Hap). assert (Hin : b ∈ [b]) by left. pose proof (blocks_in _ _ _ _ Hab Hin) as Hb.
  apply chain_app. exists b.1. split.
  - revert HF. apply chain_ext. intros d Hd c Hc. unfold set_next. apply store_int_out.
    pose proof (blocks_in _ _ _ _ HaF Hd). specialize (Hap d b Hd Hin). unfold apart, span, SIZEOF_METADATA in *. lia.
  - cbn. fields. done.
Qed.

Lemma chain_first m p F q : chain m p F q -> p = match F with [] => q | b :: _ => b.1 end.
Proof. destruct F; cbn; [done|by intros (-> & _)]. Qed.

Lemma chain_sizes m p F q b : chain m p F q -> b ∈ F -> get_size m b.1 = b.2.
Proof. revert p. induction F as [|d F IH]; intros p; cbn; [by intros _ ?%not_elem_of_nil|]. intros (_ & Hs & Hc) [->|Hb]%elem_of_cons; eauto. Qed.

(** Two blocks of a chain are apart. *)
Lemma blocks_apart lo F hi b d : blocks lo F hi -> b ∈ F -> d ∈ F -> b = d \/ apart b d.
Proof.
  intros [_ HF] Hb Hd. apply list_elem_of_split in Hb as (F1 & F2 & ->). apply scattered_app in HF as (_ & (H2 & _) & Hap).
  rewrite Forall_forall in H2. apply elem_of_app in Hd as [Hd|[->|Hd]%elem_of_cons]; [right|by left|right; auto].
  apply io_apart_sym, Hap; [done|left].
Qed.

Lemma padding_range a al : 0 < al -> 0 <= padding_of a al < al /\ (a + SIZEOF_METADATA + padding_of a al) mod al = 0.
Proof.
  intros Hal. unfold padding_of. cbv zeta. pose proof (Z.mod_pos_bound (a + SIZEOF_METADATA) al Hal).
  destruct (Z.eqb_spec ((a + SIZEOF_METADATA) mod al) 0) as [E|E]; [rewrite Z.add_0_r; split; [lia|done]|].
  split; [lia|]. replace (a + SIZEOF_METADATA + (al - (a + SIZEOF_METADATA) mod al)) with (((a + SIZEOF_METADATA) / al + 1) * al).
  - by rewrite Z.mod_mul by lia.
  - pose proof (Z.div_mod (a + SIZEOF_METADATA) al ltac:(lia)). lia.
Qed.

Section Search.
Context (size alignment hi : Z) (Hsize : 0 <= size < 2 ^ 32) (Hal : 0 < alignment <= PAGE_SIZE).

Definition fits (b : Z * Z) : Prop := padding_of b.1 alignment + size <= b.2.

(** The best fit among the blocks seen. *)
Definition best_ok (F : list (Z * Z)) (m : memory) (best : option (Z * Z)) : Prop :=
  match best with
  | None => Forall (fun b => ~ fits b) F
  | Some (pr, a) => exists G1 s G2, F = G1 ++ (a, s) :: G2 /\ pr = last_address G1 /\ fits (a, s) /\
      get_padding m a = padding_of a alignment /\ Forall (fun b => fits b -> s <= b.2) F
  end.

Lemma find_best_spec fuel F2 : forall F1 m lo p best,
  0 < lo -> chain m p (F1 ++ F2) 0 -> blocks lo (F1 ++ F2) hi -> best_ok F1 m best -> (length F2 <= fuel)%nat ->
  exists best' m', find_best fuel size alignment (last_address F1) (match F2 with [] => 0 | b :: _ => b.1 end) best m = inr (best', m') /\
    best_ok (F1 ++ F2) m' best' /\ (forall c, (forall b, b ∈ F1 ++ F2 -> c < b.1 \/ b.1 + 4 <= c) -> m' c = m c) /\
    (best' = None -> best = None /\ m' = m).
Proof.
  induction fuel as [|fuel IH] in F2 |- *; intros F1 m lo p best Hlo Hc Ha Hb Hf; (destruct F2 as [|[a s] F2];
    [exists best, m; rewrite app_nil_r; by split_and!|]); [cbn in Hf; lia|]. cbn [find_best fst].
  assert (Hin : (a, s) ∈ F1 ++ (a, s) :: F2) by (rewrite elem_of_app; right; left).
  pose proof (blocks_in _ _ _ _ Ha Hin) as (Hlo' & _ & _ & _ & Hs16). cbn in Hlo', Hs16.
  rewrite (proj2 (Z.eqb_neq a 0)) by lia.
  pose proof (chain_sizes _ _ _ _ _ Hc Hin) as Hsz. cbn in Hsz. rewrite Hsz.
  pose proof (padding_range a alignment ltac:(lia)) as [Hpad _]. unfold PAGE_SIZE in Hal.
  assert (u64 (padding_of a alignment + size) = padding_of a alignment + size) as -> by (apply wrap_small; lia).
  set (step := if _ <=? s then _ else _). destruct step as [best1 m1] eqn:Estep.
  assert (Hstep : best_ok (F1 ++ [(a, s)]) m1 best1 /\ (m1 = m \/ m1 = set_padding a (padding_of a alignment) m /\ best1 <> None) /\ (best1 = None -> best = None)).
  { subst step. destruct (Z.leb_spec (padding_of a alignment + size) s) as [Hfit|Hno].
    - destruct best as [[pr b]|].
      + destruct Hb as (G1 & t & G2 & -> & -> & Hft & Hpd & Hmin).
        assert (Hgb : get_size m b = t).
        { apply (chain_sizes _ _ _ _ (b, t) Hc). rewrite <- !app_assoc. rewrite elem_of_app. right. left. }
        rewrite Hgb in Estep. destruct (Z.ltb_spec s t) as [Hlt|Hge]; injection Estep as <- <-.
        * split; [|split; [right; by split|done]]. exists (G1 ++ (b, t) :: G2), s, []. split_and!; try done.
          -- fields. apply wrap_small. lia.
          -- rewrite Forall_app. split; [|by constructor]. eapply Forall_impl; [exact Hmin|]. intros d Hd Hfd. specialize (Hd Hfd). lia.
        * split; [|split; [by left|done]]. exists G1, t, (G2 ++ [(a, s)]). split_and!; try done.
          -- by rewrite <- !app_assoc.
          -- rewrite Forall_app. split; [done|]. constructor; [by intros _|done].
      + injection Estep as <- <-. split; [|split; [right; by split|done]]. exists F1, s, []. split_and!; try done.
        * fields. apply wrap_small. lia.
        * rewrite Forall_app. split; [|by constructor]. eapply Forall_impl; [exact Hb|]. by intros d Hd Hfd.
    - injection Estep as <- <-. split; [|split; [by left|done]]. assert (Hnf : ~ fits (a, s)) by (unfold fits; cbn; lia).
      destruct best as [[pr b]|].
      + destruct Hb as (G1 & t & G2 & -> & -> & Hft & Hpd & Hmin). exists G1, t, (G2 ++ [(a, s)]). split_and!; try done.
        * by rewrite <- !app_assoc.
        * rewrite Forall_app. split; [done|]. constructor; [done|done].
      + cbn. rewrite Forall_app. split; [done|by constructor]. }
  destruct Hstep as (Hb1 & Hm1 & Hnone).
  assert (Hout : forall c, (forall b, b ∈ F1 ++ (a, s) :: F2 -> c < b.1 \/ b.1 + 4 <= c) -> m1 c = m c).
  { intros c Hcc. destruct Hm1 as [->|[-> _]]; [done|]. apply store_int_out. by apply (Hcc (a, s)). }
  assert (Hc1 : chain m1 p ((F1 ++ [(a, s)]) ++ F2) 0).
  { rewrite <- app_assoc. revert Hc. apply chain_ext. intros b Hbin c Hcc. apply Hout. intros d Hd.
    destruct (blocks_apart _ _ _ _ _ Ha Hbin Hd) as [<-|[?|?]]; unfold apart, span, SIZEOF_METADATA in *;
      [lia|pose proof (blocks_in _ _ _ _ Ha Hbin); lia|pose proof (blocks_in _ _ _ _ Ha Hd); lia]. }
  assert (Hnext : get_next m1 a = match F2 with [] => 0 | b :: _ => b.1 end).
  { rewrite <- app_assoc in Hc1. apply chain_app in Hc1 as (r & _ & Hc1). cbn in Hc1. destruct Hc1 as (_ & _ & Hc1). exact (chain_first _ _ _ _ Hc1). }
  rewrite Hnext. assert (Hla : last_address (F1 ++ [(a, s)]) = a) by (unfold last_address; by rewrite last_snoc).
  destruct (IH F2 (F1 ++ [(a, s)]) m1 lo p best1 Hlo Hc1) as (best' & m' & E & Hb' & Hm' & Hnone'); [by rewrite <- app_assoc|done|cbn in Hf; lia|].
  rewrite <- app_assoc in Hb', Hm'. rewrite Hla in E. exists best', m'. split; [exact E|]. split; [exact Hb'|]. split.
  - intros c Hcc. rewrite (Hm' c Hcc). by apply Hout.
  - intros Hn. destruct (Hnone' Hn) as [Hn1 ->]. split; [by apply Hnone|]. by destruct Hm1 as [|[_ ?]].
Qed.
End Search.

(** ** Cutting a block out of the chain *)

(** What [Allocate] does to the memory once it has found its block. *)
Definition carve (h : Z) (prev b size : Z) (m : memory) : Z * memory * Z :=
  let m := split b size m in
  let '(h, m) := if prev =? 0 then (get_next m b, m) else (h, set_next prev (get_next m b) m) in
  let m := set_next b 0 m in
  (h, copy_metadata (b + get_padding m b) b m, b + get_padding m b).

Lemma split_spec b s size pad q m :
  0 < b -> b mod 16 = 0 -> b + 16 + s < 2 ^ 64 -> 16 <= s < 2 ^ 32 -> s mod 16 = 0 -> size mod 16 = 0 -> pad mod 16 = 0 -> 0 <= pad -> 16 <= size -> pad + size <= s ->
  get_size m b = s -> get_padding m b = pad -> get_next m b = q -> 0 <= q < 2 ^ 64 ->
  exists s' rest, 
    (s' = s /\ rest = [] \/ s' = pad + size /\ rest = [(b + 16 + s', s - s' - 16)] /\ 16 <= s - s' - 16) /\ pad + size <= s' /\ s' mod 16 = 0 /\
    Forall (fun r => b + 16 + s' <= r.1 /\ span r = b + 16 + s /\ r.1 mod 16 = 0 /\ r.2 mod 16 = 0 /\ 16 <= r.2) rest /\
    (forall c, c < b \/ b + 16 + s <= c -> split b size m c = m c) /\
    get_padding (split b size m) b = pad /\ get_size (split b size m) b = s' /\
    get_next (split b size m) b = match rest with [] => q | r :: _ => r.1 end /\ chain (split b size m) (get_next (split b size m) b) rest q.
Proof.
  intros Hb Hbm Hend Hs Hsm Hzm Hpm Hp Hz Hfit Es Ep Eq Hq. unfold split. rewrite Ep, Es. unfold SIZEOF_METADATA.
  assert (u64 (size + pad) = pad + size) as -> by (rewrite wrap_small; lia). assert (u64 (s - 16) = s - 16) as -> by (apply wrap_small; lia).
  destruct (Z.ltb_spec (pad + size) (s - 16)) as [Hlt|Hge].
  - assert (Hgap : 16 <= s - (pad + size) - 16) by zdiv.
    exists (pad + size), [(b + 16 + (pad + size), s - (pad + size) - 16)].
    assert (u32 (s - (pad + size) - 16) = s - (pad + size) - 16) as Hw by (apply wrap_small; lia).
    assert (u32 (pad + size) = pad + size) as Hw2 by (apply wrap_small; lia).
    split; [right; by split_and!|]. split; [lia|]. split; [zdiv|]. split.
    { constructor; [|constructor]. unfold span, SIZEOF_METADATA. cbn. split; [lia|]. split; [lia|].
      split; [clear - Hbm Hpm Hzm; zdiv|]. split; [clear - Hsm Hpm Hzm; zdiv|lia]. }
    set (n := b + 16 + (pad + size)) in *. split.
    { intros c Hc. unfold set_next, set_size, set_padding. rewrite !store_int_out by lia. done. }
    cbn [chain fst snd]. split_and!; fields; try done.
    rewrite !(load_int_other _ (b + 8)) by lia. rewrite Eq. by fields.
  - exists s, []. split; [by left|]. split; [lia|]. split; [done|]. split; [by constructor|]. split; [done|]. by split_and!.
Qed.

Lemma last_in (G : list (Z * Z)) : G <> [] -> exists G' s, G = G' ++ [(last_address G, s)].
Proof.
  destruct G as [|g G _] using rev_ind; [done|]. intros _. exists G, g.2. unfold last_address. rewrite last_snoc. by destruct g.
Qed.

Lemma carve_spec h G1 b s G2 lo hi size pad m :
  0 < lo -> hi <= 2 ^ 63 -> s < 2 ^ 32 -> chain m h (G1 ++ (b, s) :: G2) 0 -> blocks lo (G1 ++ (b, s) :: G2) hi ->
  get_padding m b = pad -> size mod 16 = 0 -> pad mod 16 = 0 -> 0 <= pad -> 16 <= size -> pad + size <= s ->
  exists h' m' s' rest, carve h (last_address G1) b size m = (h', m', b + pad) /\
    (s' = s /\ rest = [] \/ s' = pad + size /\ rest = [(b + 16 + s', s - s' - 16)] /\ 16 <= s - s' - 16) /\ pad + size <= s' /\ s' mod 16 = 0 /\
    chain m' h' (G1 ++ rest ++ G2) 0 /\ blocks lo (G1 ++ rest ++ G2) hi /\
    get_padding m' (b + pad) = pad /\ get_size m' b = s' /\ get_next m' b = 0 /\
    (forall c, c < b \/ b + 16 + s <= c -> (forall g, g ∈ G1 -> c < g.1 \/ g.1 + 16 <= c) -> m' c = m c).
Proof.
  intros Hlo Hhi Hs32 Hc Ha Hpad Hzm Hpm Hp Hz Hfit.
  apply chain_app in Hc as (r & HcG & Hcb). cbn in Hcb. destruct Hcb as (-> & Hsz & Hc2).
  apply blocks_app in Ha as (HaG & Hab & Hap). pose proof Hab as Hab'. apply blocks_cons in Hab as (Hbs & Hb2 & Ha2).
  destruct Hbs as (Hmid & Hle & Hbm & Hsm & Hs16). unfold span, SIZEOF_METADATA in Hle. cbn in Hmid, Hle, Hbm, Hsm, Hs16.
  assert (Hbin : (b, s) ∈ (b, s) :: G2) by left.
  set (q := get_next m b) in *.
  assert (Hq : 0 <= q < 2 ^ 64).
  { rewrite (chain_first _ _ _ _ Hc2). destruct G2 as [|g G2]; [lia|]. destruct (blocks_in _ _ _ g Ha2) as (? & Hg & _ & _ & ?); [left|]. unfold span, SIZEOF_METADATA in Hg. lia. }
  destruct (split_spec b s size pad q m) as (s' & rest & Hcase & Hfit' & Hs'm & Hasc & Hout & Ep & Es & En & Hrest); try done; try lia.
  set (m1 := split b size m) in *. set (x := get_next m1 b) in *.
  assert (Hs's : s' <= s) by (destruct Hcase as [[-> _]|(-> & _ & ?)]; lia).
  assert (HG1 : forall g, g ∈ G1 -> lo <= g.1 /\ (g.1 + 16 + g.2 <= b \/ b + 16 + s <= g.1) /\ 16 <= g.2).
  { intros g Hg. specialize (Hap g (b, s) Hg Hbin). apply (blocks_in _ _ _ _ HaG) in Hg. unfold apart, span, SIZEOF_METADATA in *. cbn in *. lia. }
  assert (HG2 : forall g, g ∈ G2 -> lo <= g.1 /\ (g.1 + 16 + g.2 <= b \/ b + 16 + s <= g.1) /\ 16 <= g.2).
  { intros g Hg. rewrite Forall_forall in Hb2. specialize (Hb2 g Hg). apply (blocks_in _ _ _ _ Ha2) in Hg. unfold apart, span, SIZEOF_METADATA in *. cbn in *. lia. }
  assert (Hx : 0 <= x < 2 ^ 64) by (rewrite En; destruct Hcase as [[_ ->]|(_ & -> & _)]; cbn; lia).
  assert (HcG1 : chain m1 h G1 b) by (revert HcG; apply chain_ext; intros g Hg c Hcg; apply Hout; apply HG1 in Hg; lia).
  assert (HcG2 : chain m1 q G2 0) by (revert Hc2; apply chain_ext; intros g Hg c Hcg; apply Hout; apply HG2 in Hg; lia).
  (* the predecessor *)
  assert (Hprev : exists h' m2, (if last_address G1 =? 0 then (x, m1) else (h, set_next (last_address G1) x m1)) = (h', m2) /\ chain m2 h' G1 x /\
    (forall c, (forall g, g ∈ G1 -> c < g.1 \/ g.1 + 16 <= c) -> m2 c = m1 c)).
  { destruct (decide (G1 = [])) as [->|Hne].
    - exists x, m1. by split_and!.
    - destruct (last_in G1 Hne) as (G' & t & EG). set (pr := last_address G1) in *.
      assert (Hpr : (pr, t) ∈ G1) by (rewrite EG, elem_of_app; right; left).
      destruct (HG1 _ Hpr) as (Hpr1 & _). cbn in Hpr1. rewrite (proj2 (Z.eqb_neq pr 0)) by lia.
      exists h, (set_next pr x m1). split; [done|]. split.
      + rewrite EG in HcG1, HaG |- *. exact (chain_relink m1 h G' (pr, t) b x lo hi HaG Hx HcG1).
      + intros c Hcg. apply store_int_out. specialize (Hcg _ Hpr). cbn in Hcg. lia. }
  destruct Hprev as (h' & m2 & E2 & Hc21 & Hout2).
  set (m3 := set_next b 0 m2).
  assert (Hin2 : forall c, b <= c < b + 16 + s -> m2 c = m1 c).
  { intros c Hcb. apply Hout2. intros g Hg. apply HG1 in Hg. lia. }
  assert (Ep3 : get_padding m3 b = pad) by (unfold m3; fields; rewrite (load_int_ext m1) by (intros; apply Hin2; lia); exact Ep).
  set (m4 := copy_metadata (b + pad) b m3).
  assert (Hout4 : forall c, c < b \/ b + 16 + s' <= c -> m4 c = m2 c).
  { intros c Hcb. unfold m4. rewrite copy_metadata_out by lia. unfold m3, set_next. rewrite store_int_out by lia. done. }
  exists h', m4, s', rest. split.
  { unfold carve. fold m1. fold x. rewrite E2. fold m3. by rewrite Ep3. }
  split; [exact Hcase|]. split; [exact Hfit'|]. split; [exact Hs'm|]. split; [|split; [|split_and!]].
  - apply chain_app. exists x. split.
    + revert Hc21. apply chain_ext. intros g Hg c Hcg. apply Hout4. apply HG1 in Hg. lia.
    + apply chain_app. exists q. split.
      * revert Hrest. apply chain_ext. intros g Hg c Hcg.
        destruct Hcase as [[_ ->]|(-> & -> & Hgap)]; [by apply not_elem_of_nil in Hg|]. apply list_elem_of_singleton in Hg as ->. cbn in Hcg.
        rewrite Hout4, Hin2 by lia. done.
      * revert HcG2. apply chain_ext. intros g Hg c Hcg. pose proof (HG2 g Hg) as Hgb. rewrite Hout4 by lia. apply Hout2. intros d Hd.
        assert (Hg' : g ∈ (b, s) :: G2) by by right. specialize (Hap d g Hd Hg'). apply HG1 in Hd. unfold apart, span, SIZEOF_METADATA in Hap. lia.
  - assert (Hrin : forall r, r ∈ rest -> b + 16 + s' <= r.1 /\ span r = b + 16 + s /\ r.1 mod 16 = 0 /\ r.2 mod 16 = 0 /\ 16 <= r.2)
      by (rewrite <- Forall_forall; exact Hasc).
    assert (Hrb : blocks lo rest hi).
    { split; [|by destruct Hcase as [[_ ->]|(_ & -> & _)]; repeat constructor]. apply Forall_forall. intros r Hr. destruct (Hrin r Hr) as (? & ? & ?).
      split; [lia|]. split; [lia|done]. }
    apply blocks_app. split; [exact HaG|]. split.
    + apply blocks_app. split; [exact Hrb|]. split; [exact Ha2|]. intros r g Hr Hg. apply Hrin in Hr. apply HG2 in Hg. unfold apart, span, SIZEOF_METADATA in *. lia.
    + intros g d Hg [Hd|Hd]%elem_of_app; [|apply Hap; [done|by right]]. apply Hrin in Hd. apply HG1 in Hg. unfold apart, span, SIZEOF_METADATA in *. lia.
  - pose proof (copy_metadata_field m3 (b + pad) b 0 4 ltac:(lia)) as Hf. change (Z.of_nat 0) with 0 in Hf. rewrite !Z.add_0_r in Hf.
    unfold m4, get_padding. rewrite Hf. exact Ep3.
  - assert (Es3 : get_size m3 b = s') by (unfold m3; fields; rewrite (load_int_ext m1) by (intros; apply Hin2; lia); exact Es).
    unfold m4. destruct (decide (pad = 0)) as [->|].
    + rewrite Z.add_0_r, <- Es3. apply load_int_ext. intros c Hcb. apply copy_metadata_self.
    + rewrite <- Es3. apply load_int_ext. intros c Hcb. apply copy_metadata_out. zdiv.
  - assert (En3 : get_next m3 b = 0) by (unfold m3; by fields).
    unfold m4. destruct (decide (pad = 0)) as [->|].
    + rewrite Z.add_0_r, <- En3. apply load_int_ext. intros c Hcb. apply copy_metadata_self.
    + rewrite <- En3. apply load_int_ext. intros c Hcb. apply copy_metadata_out. zdiv.
  - intros c Hcb Hcg. rewrite Hout4 by lia. rewrite (Hout2 c Hcg). apply Hout. lia.
Qed.

(** ** The heap and its clients *)

(** A block in use: its header, its size, and the padding before the bytes of
    the client. *)
Record Live := mkLive { l_address : Z; l_size : Z; l_padding : Z }.

Definition l_end (u : Live) : Z := l_address u + SIZEOF_METADATA + l_size u.
Definition pointer (u : Live) : Z := l_address u + l_padding u + SIZEOF_METADATA.
(** The bytes of the client. *)
Definition owns (u : Live) (c : Z) : Prop := pointer u <= c < l_end u.

Definition live_ok (m : memory) (u : Live) : Prop :=
  get_padding m (l_address u + l_padding u) = l_padding u /\ get_size m (l_address u) = l_size u /\ get_next m (l_address u) = 0 /\
  l_address u mod 16 = 0 /\ l_size u mod 16 = 0 /\ l_padding u mod 16 = 0 /\ 0 <= l_padding u /\ l_padding u + 16 <= l_size u.

Definition beside (u v : Live) : Prop := l_end u <= l_address v \/ l_end v <= l_address u.

Fixpoint separate (U : list Live) : Prop :=
  match U with [] => True | u :: U => Forall (beside u) U /\ separate U end.

Record heap_ok (base : Z) (h : IOHeap) (F : list (Z * Z)) (U : list Live) : Prop := {
  ok_base : 0 < base /\ base mod 16 = 0 /\ base + DEFAULT_ARENA_SIZE <= 2 ^ 63;
  ok_chain : chain (bytes h) (head h) F 0;
  ok_blocks : blocks base F (base + DEFAULT_ARENA_SIZE);
  ok_live : forall u, u ∈ U -> live_ok (bytes h) u /\ base <= l_address u /\ l_end u <= base + DEFAULT_ARENA_SIZE /\
    forall b, b ∈ F -> span b <= l_address u \/ l_end u <= b.1;
  ok_separate : separate U }.

Definition covered (F : list (Z * Z)) (c : Z) : Prop := exists b, b ∈ F /\ b.1 <= c < span b.

(** What the heap's clients ask for. *)
Definition asked (size alignment : Z) : Prop :=
  size mod 16 = 0 /\ 16 <= size < 2 ^ 32 /\ (alignment = 8 \/ alignment mod 16 = 0 /\ 0 < alignment <= PAGE_SIZE).

Lemma live_frame m m' u : (forall c, l_address u <= c < l_end u -> m' c = m c) -> live_ok m u -> live_ok m' u.
Proof.
  intros He (Hp & Hs & Hn & Ha & Hsm & Hpm & Hp0 & Hps). unfold live_ok, get_padding, get_size, get_next in *.
  unfold l_end, SIZEOF_METADATA in He. rewrite !(load_int_ext m m') by (intros; apply He; lia). by split_and!.
Qed.

Lemma padding_mod16 a al : a mod 16 = 0 -> al = 8 \/ al mod 16 = 0 /\ 0 < al -> padding_of a al mod 16 = 0.
Proof.
  intros Ha Hal. unfold padding_of, SIZEOF_METADATA. cbv zeta. destruct Hal as [->|[Hal H0]].
  - assert ((a + 16) mod 8 = 0) as -> by zdiv. done.
  - destruct (_ =? 0); [done|]. apply Z.mod_divide in Ha, Hal; [|lia..]. apply Z.mod_divide; [lia|].
    apply Z.divide_sub_r; [done|]. rewrite Z.mod_eq by lia. apply Z.divide_sub_r.
    + apply Z.divide_add_r; [done|by exists 1].
    + by apply Z.divide_mul_l.
Qed.

Lemma io_Allocate_spec base h F U size alignment fuel :
  heap_ok base h F U -> asked size alignment -> (length F <= fuel)%nat ->
  exists p h', IOHeap_Allocate fuel size alignment h = inr (p, h') /\
    (p = 0 /\ h' = h /\ Forall (fun b => ~ fits size alignment b) F \/
     exists u F', p = pointer u /\ p mod alignment = 0 /\ p + size <= l_end u /\ heap_ok base h' F' (u :: U) /\
       (forall v c, v ∈ U -> owns v c -> bytes h' c = bytes h c) /\
       (forall c, covered F c -> covered F' c \/ l_address u <= c < l_end u) /\ (forall c, covered F' c -> covered F c)).
Proof.
  intros Hok (Hzm & Hz & Hal) Hfuel. destruct (ok_base _ _ _ _ Hok) as (Hb0 & Hbm & Hbhi).
  assert (Hal0 : 0 < alignment <= PAGE_SIZE) by (unfold PAGE_SIZE in *; lia).
  assert (Hal8 : alignment mod 8 = 0) by (destruct Hal as [->|[? _]]; [done|zdiv]).
  unfold IOHeap_Allocate. rewrite (proj2 (Z.ltb_ge _ _)), Hal8 by lia. cbn [negb orb Z.eqb]. rewrite (proj2 (Z.eqb_neq alignment 0)) by lia. cbn [andb].
  destruct (find_best_spec size alignment (base + DEFAULT_ARENA_SIZE) ltac:(lia) ltac:(lia) fuel F [] (bytes h) base (head h) None)
    as (best & m & E & Hbest & Hm & Hnone); [lia|apply Hok|apply Hok|by constructor|done|].
  cbn [app last_address last] in E. assert (Hhead : head h = match F with [] => 0 | b :: _ => b.1 end) by exact (chain_first _ _ _ _ (ok_chain _ _ _ _ Hok)).
  rewrite <- Hhead in E. change (last_address []) with 0 in E. rewrite E. cbn [app] in Hbest, Hm.
  destruct best as [[pr b]|].
  2:{ destruct (Hnone eq_refl) as [_ ->]. exists 0, (mkHeap (head h) (bytes h)). split; [done|]. left. split; [done|]. split; [by destruct h|done]. }
  destruct Hbest as (G1 & s & G2 & HF & -> & Hfit & Hpad & _).
  assert (Hbin : (b, s) ∈ F) by (rewrite HF, elem_of_app; right; left).
  pose proof (blocks_in _ _ _ _ (ok_blocks _ _ _ _ Hok) Hbin) as (Hblo & Hbend & Hb16 & Hs16 & Hs). unfold span, SIZEOF_METADATA in Hbend. cbn in Hblo, Hbend, Hb16, Hs16, Hs.
  set (pad := padding_of b alignment) in *. unfold fits in Hfit. cbn in Hfit. fold pad in Hfit.
  destruct (padding_range b alignment ltac:(lia)) as [Hpr Hpmod]. fold pad in Hpr, Hpmod.
  assert (Hpm : pad mod 16 = 0) by (apply padding_mod16; [done|]; destruct Hal as [?|[? ?]]; [by left|right; split; [done|lia]]).
  assert (HcF : chain m (head h) F 0).
  { pose proof (ok_chain _ _ _ _ Hok) as Hc. revert Hc. apply chain_ext. intros d Hd c Hcc. apply Hm. intros e He.
    pose proof (blocks_in _ _ _ _ (ok_blocks _ _ _ _ Hok) Hd). pose proof (blocks_in _ _ _ _ (ok_blocks _ _ _ _ Hok) He).
    destruct (blocks_apart _ _ _ _ _ (ok_blocks _ _ _ _ Hok) Hd He) as [<-|[?|?]]; unfold span, SIZEOF_METADATA in *; lia. }
  unfold DEFAULT_ARENA_SIZE in *.
  destruct (carve_spec (head h) G1 b s G2 base (base + 32 * 1024 * 1024) size pad m) as (h' & m' & s' & rest & Ecarve & Hcase & Hfit' & Hs'm & Hc' & Ha' & Ep & Es & En & Hout);
    [lia|lia|lia|by rewrite <- HF|rewrite <- HF; apply Hok|done|done|done|lia|lia|lia|].
  unfold carve in Ecarve. destruct (if last_address G1 =? 0 then _ else _) as [h2 m2] eqn:E2. injection Ecarve as Eh Em Euser. subst h2.
  set (u := mkLive b s' pad).
  exists (pointer u), (mkHeap h' m'). split.
  { unfold pointer. cbn. rewrite <- Euser, <- Em, Euser. done. }
  right. exists u, (G1 ++ rest ++ G2). split; [done|]. split; [unfold pointer; cbn; rewrite <- Hpmod; f_equal; lia|].
  split; [unfold pointer, l_end; cbn; lia|].
  assert (Hs's : s' <= s) by (destruct Hcase as [[-> _]|(-> & _ & ?)]; lia).
  assert (Hsub : forall d, d ∈ G1 ++ rest ++ G2 -> d ∈ G1 \/ d ∈ G2 \/ (b + 16 + s' <= d.1 /\ span d = b + 16 + s)).
  { intros d. rewrite !elem_of_app. intros [?|[Hd|?]]; [by left| |by right; left]. right. right.
    destruct Hcase as [[_ ->]|(_ & -> & _)]; [by apply not_elem_of_nil in Hd|]. apply list_elem_of_singleton in Hd as ->.
    unfold span, SIZEOF_METADATA. cbn. lia. }
  assert (HG1 : forall d, d ∈ G1 -> d ∈ F) by (intros d Hd; rewrite HF, elem_of_app; by left).
  assert (HG2 : forall d, d ∈ G2 -> d ∈ F) by (intros d Hd; rewrite HF, elem_of_app; right; by right).
  assert (Haway : forall d, d ∈ G1 \/ d ∈ G2 -> apart d (b, s)).
  { pose proof (ok_blocks _ _ _ _ Hok) as HaF. rewrite HF in HaF. apply blocks_app in HaF as (_ & HaG2 & Hap).
    apply blocks_cons in HaG2 as (_ & Hb2 & _). rewrite Forall_forall in Hb2. intros d [Hd|Hd]; [apply Hap; [done|left]|by apply io_apart_sym, Hb2]. }
  assert (Hframe : forall v, v ∈ U -> forall c, l_address v <= c < l_end v -> m' c = bytes h c).
  { intros v Hv c Hcv. destruct (ok_live _ _ _ _ Hok v Hv) as (_ & _ & _ & Hap). rewrite Hout.
    - apply Hm. intros d Hd. pose proof (blocks_in _ _ _ _ (ok_blocks _ _ _ _ Hok) Hd). destruct (Hap d Hd); unfold span, SIZEOF_METADATA in *; lia.
    - destruct (Hap _ Hbin); unfold span, SIZEOF_METADATA in *; cbn in *; lia.
    - intros g Hg. pose proof (blocks_in _ _ _ _ (ok_blocks _ _ _ _ Hok) (HG1 g Hg)). destruct (Hap g (HG1 g Hg)); unfold span, SIZEOF_METADATA in *; lia. }
  split; [|split; [|split]].
  - constructor; cbn [bytes head].
    + by split_and!.
    + exact Hc'.
    + exact Ha'.
    + intros v [->|Hv]%elem_of_cons.
      * split; [unfold live_ok; cbn; split_and!; try done; lia|]. unfold l_end, SIZEOF_METADATA, DEFAULT_ARENA_SIZE. cbn. split; [done|]. split; [lia|].
        intros d [Hd|[Hd|Hd]]%Hsub; [pose proof (Haway d (or_introl Hd)) as Hdb|pose proof (Haway d (or_intror Hd)) as Hdb|lia];
          unfold apart, span, SIZEOF_METADATA in *; cbn in *; lia.
      * destruct (ok_live _ _ _ _ Hok v Hv) as (Hlv & Hlo & Hhi & Hap). split; [by apply (live_frame (bytes h)); [apply Hframe|]|].
        split; [done|]. split; [exact Hhi|]. intros d [Hd|[Hd|[Hd1 Hd2]]]%Hsub; [by apply Hap, HG1|by apply Hap, HG2|].
        destruct (Hap _ Hbin); unfold span, SIZEOF_METADATA in *; cbn in *; lia.
    + split; [|apply Hok]. apply Forall_forall. intros v Hv. destruct (ok_live _ _ _ _ Hok v Hv) as (_ & _ & _ & Hap).
      pose proof (Hap _ Hbin) as Hvb. unfold beside, l_end, span, SIZEOF_METADATA, u in *. cbn [l_address l_size fst snd] in *. lia.
  - intros v c Hv Hcv. apply (Hframe v Hv). destruct (ok_live _ _ _ _ Hok v Hv) as ((_ & _ & _ & _ & _ & _ & ? & _) & _).
    unfold owns, pointer, SIZEOF_METADATA in Hcv. lia.
  - intros c (d & Hd & Hcd). rewrite HF in Hd. apply elem_of_app in Hd as [Hd|[->|Hd]%elem_of_cons].
    + left. exists d. rewrite !elem_of_app. by split; [left|].
    + unfold span, SIZEOF_METADATA in Hcd. cbn in Hcd. destruct Hcase as [[-> _]|(_ & -> & _)].
      * right. unfold l_end, SIZEOF_METADATA. cbn. lia.
      * destruct (Z.lt_ge_cases c (b + 16 + s')); [right; unfold l_end, SIZEOF_METADATA; cbn; lia|]. left. eexists. split; [rewrite !elem_of_app; right; left; left|].
        unfold span, SIZEOF_METADATA. cbn. lia.
    + left. exists d. rewrite !elem_of_app. by split; [right; right|].
  - intros c (d & Hd & Hcd). destruct (Hsub d Hd) as [?|[?|[Hd1 Hd2]]]; [exists d; auto|exists d; auto|].
    exists (b, s). split; [done|]. unfold span, SIZEOF_METADATA in *. cbn. lia.
Qed.

(** ** Freeing *)

Lemma covered_cons b F c : covered (b :: F) c <-> b.1 <= c < span b \/ covered F c.
Proof.
  unfold covered. split.
  - intros (d & [->|Hd]%elem_of_cons & Hc); [by left|right; eauto].
  - intros [Hc|(d & Hd & Hc)]; [exists b; split; [left|done]|exists d; split; [by right|done]].
Qed.

Lemma covered_nil c : ~ covered [] c.
Proof. by intros (d & ?%not_elem_of_nil & _). Qed.

(** Blocks that share no byte are apart. *)
Lemma apart_covered lo hi b d : sound lo hi b -> sound lo hi d -> (forall c, b.1 <= c < span b -> ~ d.1 <= c < span d) -> apart b d.
Proof.
  intros (_ & _ & _ & _ & Hb) (_ & _ & _ & _ & Hd) Hc. unfold apart, span, SIZEOF_METADATA in *.
  pose proof (Hc b.1). pose proof (Hc d.1). lia.
Qed.

Lemma apart_not_covered b F c : Forall (apart b) F -> b.1 <= c < span b -> ~ covered F c.
Proof. rewrite Forall_forall. intros HF Hc (d & Hd & Hcd). specialize (HF d Hd). unfold apart in HF. lia. Qed.

Section Chain.
Context (lo hi : Z) (Hlo : 0 < lo) (Hhi : hi <= 2 ^ 63) (Hspan : hi - lo < 2 ^ 32).

Lemma in_covered F b c : blocks lo F hi -> b ∈ F -> b.1 <= c < b.1 + 16 -> covered F c.
Proof. intros HF Hb Hc. exists b. split; [done|]. apply (blocks_in _ _ _ _ HF) in Hb. unfold span, SIZEOF_METADATA in *. lia. Qed.

(** A block in front of a rebuilt chain. *)
Lemma push_block m m' b F F' p : chain m b.1 (b :: F) 0 -> blocks lo (b :: F) hi ->
  p = get_next m b.1 -> chain m' p F' 0 -> blocks lo F' hi -> (forall c, b.1 <= c < span b -> ~ covered F' c) ->
  (forall c, b.1 <= c < b.1 + 16 -> m' c = m c) -> chain m' b.1 (b :: F') 0 /\ blocks lo (b :: F') hi.
Proof.
  intros Hc HF -> Hc' HF' Hdis He. cbn in Hc. destruct Hc as (_ & Hs & _). apply blocks_cons in HF as (Hb & _ & _). split.
  - cbn. unfold get_size, get_next in *. rewrite !(load_int_ext m m') by (intros; apply He; lia). by split_and!.
  - apply blocks_cons. split; [done|]. split; [|done]. apply Forall_forall. intros d Hd.
    apply (apart_covered lo hi); [done|by apply (blocks_in _ _ _ _ HF')|]. intros c Hcb Hcd. apply (Hdis c Hcb). by exists d.
Qed.

Lemma coalesce_spec m b F : chain m b.1 (b :: F) 0 -> blocks lo (b :: F) hi ->
  exists b' F', chain (Coalesce b.1 m) b.1 (b' :: F') 0 /\ b'.1 = b.1 /\ blocks lo (b' :: F') hi /\
    (forall c, covered (b' :: F') c <-> covered (b :: F) c) /\ (forall c, c < b.1 \/ b.1 + 16 <= c -> Coalesce b.1 m c = m c) /\
    (length F' <= length F)%nat /\ (forall d, d ∈ F' -> d ∈ F).
Proof.
  intros Hc HF. pose proof Hc as Hc0. cbn in Hc. destruct Hc as (_ & Hs & Hc). unfold Coalesce. rewrite Hs.
  set (q := get_next m b.1) in *. pose proof (chain_first _ _ _ _ Hc) as Hq.
  pose proof HF as HF0. apply blocks_cons in HF as (Hb & Hap & HF). destruct Hb as (Hb1 & Hb2 & Hb3 & Hb4 & Hb5).
  assert (Hsame : exists b' F', chain m b.1 (b' :: F') 0 /\ b'.1 = b.1 /\ blocks lo (b' :: F') hi /\
    (forall c, covered (b' :: F') c <-> covered (b :: F) c) /\ (forall c, c < b.1 \/ b.1 + 16 <= c -> m c = m c) /\
    (length F' <= length F)%nat /\ (forall d, d ∈ F' -> d ∈ F)).
  { exists b, F. by split_and!. }
  destruct (Z.eqb_spec q 0) as [|Hq0]; [exact Hsame|]. destruct F as [|d F]; [done|]. cbn in Hq.
  destruct (Z.eqb_spec (b.1 + SIZEOF_METADATA + b.2) q) as [Hend|]; [|exact Hsame].
  cbn in Hc. destruct Hc as (Eq & Hds & Hc). apply blocks_cons in HF as (Hd & Hapd & HF). destruct Hd as (Hd1 & Hd2 & Hd3 & Hd4 & Hd5).
  unfold span, SIZEOF_METADATA in *. rewrite Eq, Hds.
  assert (Hw : u32 (b.2 + 16 + d.2) = b.2 + 16 + d.2) by (apply wrap_small; lia).
  assert (Hnx : 0 <= get_next m d.1 < 2 ^ 64).
  { rewrite (chain_first _ _ _ _ Hc). destruct F as [|e F]; [lia|]. apply blocks_in with (b := e) in HF; [|left]. unfold span, SIZEOF_METADATA in HF. lia. }
  set (m1 := set_size b.1 (b.2 + 16 + d.2) m).
  assert (Hn1 : get_next m1 d.1 = get_next m d.1) by (unfold m1; fields; done). rewrite Hn1.
  exists (b.1, b.2 + 16 + d.2), F.
  assert (Hout : forall c, c < b.1 \/ b.1 + 16 <= c -> set_next b.1 (get_next m d.1) m1 c = m c).
  { intros c Hcb. unfold m1, set_next, set_size. rewrite !store_int_out by lia. done. }
  rewrite Forall_cons in Hap. destruct Hap as [Hbd Hap]. split_and!.
  - cbn. split; [done|]. split; [unfold m1; fields; exact Hw|].
    replace (get_next (set_next b.1 (get_next m d.1) m1) b.1) with (get_next m d.1) by (by fields).
    revert Hc. apply chain_ext. intros e He c Hce. apply Hout.
    rewrite Forall_forall in Hap. specialize (Hap e He). apply (blocks_in _ _ _ _ HF) in He. unfold apart, span, SIZEOF_METADATA in *. lia.
  - done.
  - apply blocks_cons. split; [unfold sound, span, SIZEOF_METADATA; cbn; split_and!; try done; try lia; clear - Hb4 Hd4; zdiv|]. split; [|done].
    rewrite Forall_forall in Hap, Hapd |- *. intros e He. specialize (Hap e He). specialize (Hapd e He).
    apply (blocks_in _ _ _ _ HF) in He. unfold apart, span, SIZEOF_METADATA in *. cbn. lia.
  - intros c. rewrite !covered_cons. unfold span, SIZEOF_METADATA. cbn. intuition lia.
  - exact Hout.
  - cbn. lia.
  - intros e He. by right.
Qed.

(** The rest of the loop, once the block is in its place. *)
Lemma insert_done fuel a : forall F m cur, chain m cur F 0 -> blocks lo F hi -> (length F <= fuel)%nat ->
  exists m' F', insert_block fuel a true cur m = inr m' /\ chain m' cur F' 0 /\ blocks lo F' hi /\
    (forall c, covered F' c <-> covered F c) /\ (forall c, ~ covered F c -> m' c = m c).
Proof.
  induction fuel as [|fuel IH]; intros F m cur Hc HF Hlen; pose proof (chain_first _ _ _ _ Hc) as Hcur.
  - destruct F; [|cbn in Hlen; lia]. exists m, []. cbn in *. rewrite Hcur. by split_and!.
  - destruct F as [|b F]; [exists m, []; cbn in *; rewrite Hcur; by split_and!|]. subst cur. cbn [insert_block].
    pose proof HF as HF0. apply blocks_cons in HF as ((Hb1 & _) & _ & _). rewrite (proj2 (Z.eqb_neq b.1 0)) by lia.
    destruct (coalesce_spec m b F Hc HF0) as (b' & F' & Hc' & Eb & HF' & Hcov & Hout & Hl & _). rewrite <- Eb in *.
    set (m1 := Coalesce b'.1 m) in *. pose proof Hc' as Hc1. cbn in Hc1. destruct Hc1 as (_ & Hs1 & Hc1).
    pose proof HF' as HF1. apply blocks_cons in HF1 as (Hb' & Hap & HF1).
    destruct (IH F' m1 _ Hc1 HF1) as (m' & F'' & E & Hc2 & HF2 & Hcov2 & Hout2); [cbn in Hlen; lia|].
    destruct (push_block m1 m' b' F' F'' (get_next m1 b'.1) Hc' HF' eq_refl Hc2 HF2) as [Hc3 HF3].
    { intros c Hcb. rewrite Hcov2. by apply apart_not_covered with b'. }
    { intros c Hcb. apply Hout2. apply apart_not_covered with b'; [done|]. destruct Hb' as (_ & _ & _ & _ & ?). unfold span, SIZEOF_METADATA. lia. }
    exists m', (b' :: F''). split; [exact E|]. split; [exact Hc3|]. split; [exact HF3|]. split.
    + intros c. rewrite <- Hcov, !covered_cons, Hcov2. done.
    + intros c Hnc. rewrite Hout2, Hout; [done| |].
      * destruct (decide (b'.1 <= c < b'.1 + 16)) as [Hin|]; [|lia]. exfalso. apply Hnc, Hcov. apply (in_covered _ b'); [done|left|done].
      * intros Hcc. apply Hnc, Hcov. rewrite covered_cons. by right.
Qed.

(** The search for the place of a block, which coalesces on its way: it may
    end without having found one. *)
Lemma io_insert_spec fuel (x : Z * Z) : forall F m cur, chain m cur F 0 -> blocks lo F hi -> (length F < fuel)%nat ->
  sound lo hi x -> Forall (apart x) F -> get_size m x.1 = x.2 -> get_next m x.1 = 0 ->
  exists m' F', insert_block fuel x.1 false cur m = inr m' /\ chain m' cur F' 0 /\ blocks lo F' hi /\
    (forall c, covered F' c -> covered F c \/ x.1 <= c < span x) /\ (forall c, covered F c -> covered F' c) /\
    (forall c, ~ covered F c -> ~ x.1 <= c < span x -> m' c = m c).
Proof.
  induction fuel as [|fuel IH]; intros F m cur Hc HF Hlen Hx Hxap Hxs Hxn; [lia|].
  pose proof (chain_first _ _ _ _ Hc) as Hcur.
  destruct F as [|b F].
  { exists m, []. cbn in Hcur |- *. rewrite Hcur. split; [done|]. split; [done|]. split; [done|]. split_and!; try done. intros c Hcv. by left. }
  subst cur. pose proof HF as HF0. apply blocks_cons in HF0 as (Hb & Hap & HF1). pose proof Hb as (Hb1 & Hb2 & _ & _ & Hb5).
  pose proof Hx as (Hx1 & Hx2 & _ & _ & Hx5). rewrite Forall_cons in Hxap. destruct Hxap as [Hxb Hxap]. rewrite Forall_forall in Hxap.
  pose proof Hc as Hc0. cbn in Hc0. destruct Hc0 as (_ & Hs & Hc1). set (q := get_next m b.1) in *. pose proof (chain_first _ _ _ _ Hc1) as Hq.
  assert (Hb0 : (b.1 =? 0) = false) by (apply Z.eqb_neq; lia).
  assert (Hxr : 0 <= x.1 < 2 ^ 64) by (unfold span, SIZEOF_METADATA in Hx2; lia).
  assert (Hinr : forall c, b.1 <= c < b.1 + 16 -> covered (b :: F) c) by (intros c Hcb; apply (in_covered _ b); [done|left|done]).
  (* the block is put in its place: the rest of the loop *)
  assert (Hdone : forall m1 L, chain m1 b.1 L 0 -> blocks lo L hi -> (length L <= S fuel)%nat ->
    (forall c, covered L c <-> covered (b :: F) c \/ x.1 <= c < span x) -> (forall c, ~ covered (b :: F) c -> ~ x.1 <= c < span x -> m1 c = m c) ->
    exists m' F', insert_block fuel x.1 true (get_next (Coalesce b.1 m1) b.1) (Coalesce b.1 m1) = inr m' /\ chain m' b.1 F' 0 /\ blocks lo F' hi /\
      (forall c, covered F' c -> covered (b :: F) c \/ x.1 <= c < span x) /\ (forall c, covered (b :: F) c -> covered F' c) /\
      (forall c, ~ covered (b :: F) c -> ~ x.1 <= c < span x -> m' c = m c)).
  { intros m1 L HcL HL HlL Hcov Hout. destruct (insert_done (S fuel) x.1 L m1 b.1 HcL HL HlL) as (m' & F' & E & Hc' & HF' & Hcov' & Hout').
    cbn [insert_block] in E. rewrite Hb0 in E. exists m', F'. split; [exact E|]. split; [exact Hc'|]. split; [exact HF'|]. split_and!.
    - intros c Hcc. by apply Hcov, Hcov'.
    - intros c Hcc. apply Hcov', Hcov. by left.
    - intros c H1 H2. rewrite Hout', Hout; try done. rewrite Hcov. tauto. }
  cbn [insert_block]. rewrite Hb0. fold q. destruct (Z.eqb_spec q 0) as [Hq0|Hq0].
  - destruct F as [|d F]; [|exfalso; apply blocks_in with (b := d) in HF1; [cbn in Hq; lia|left]].
    apply (Hdone _ [b; x]); [| |cbn in Hlen |- *; lia| |].
    + cbn. split; [done|]. unfold apart, span, SIZEOF_METADATA in Hxb. split; [fields; exact Hs|]. split; [by fields|]. split; [fields; exact Hxs|fields; exact Hxn].
    + apply blocks_cons. split; [done|]. split; [constructor; [by apply io_apart_sym|done]|]. apply blocks_cons. by split_and!.
    + intros c. rewrite !covered_cons. pose proof (covered_nil c). tauto.
    + intros c Hnc _. unfold set_next. apply store_int_out. destruct (decide (b.1 <= c < b.1 + 16)) as [Hin|]; [by apply Hinr in Hin|]. lia.
  - destruct ((b.1 + SIZEOF_METADATA + get_size m b.1 <=? x.1) && (x.1 <? q)) eqn:Eplace.
    + assert (Hqr : 0 <= q < 2 ^ 64).
      { destruct F as [|d F]; cbn in Hq; [lia|]. apply blocks_in with (b := d) in HF1; [|left]. unfold span, SIZEOF_METADATA in HF1. lia. }
      apply (Hdone _ (b :: x :: F)); [| |cbn in Hlen |- *; lia| |].
      * unfold apart, span, SIZEOF_METADATA in Hxb. cbn. split; [done|]. split; [fields; exact Hs|]. split; [by fields|]. split; [fields; exact Hxs|].
        replace (get_next (set_next b.1 x.1 (set_next x.1 q m)) x.1) with q by (by fields).
        revert Hc1. apply chain_ext. intros d Hd c Hcd. unfold set_next. rewrite Forall_forall in Hap. specialize (Hap d Hd). specialize (Hxap d Hd).
        apply (blocks_in _ _ _ _ HF1) in Hd. unfold apart, span, SIZEOF_METADATA in *. rewrite !store_int_out by lia. done.
      * apply blocks_cons. split; [done|]. split; [constructor; [by apply io_apart_sym|done]|]. apply blocks_cons. split; [done|]. split; [by apply Forall_forall|done].
      * intros c. rewrite !covered_cons. tauto.
      * intros c Hnc Hcx. unfold set_next. unfold span, SIZEOF_METADATA in Hcx.
        destruct (decide (b.1 <= c < b.1 + 16)) as [Hin|]; [by apply Hinr in Hin|]. rewrite !store_int_out by lia. done.
    + destruct (coalesce_spec m b F Hc HF) as (b' & F' & Hc' & Eb & HF' & Hcov & Hout & Hl & Hsub). rewrite <- Eb in *.
      set (m1 := Coalesce b'.1 m) in *. pose proof Hc' as Hc2. cbn in Hc2. destruct Hc2 as (_ & Hs1 & Hc2).
      pose proof HF' as HF2. apply blocks_cons in HF2 as (Hb' & Hap' & HF2).
      assert (Hxm : forall c, x.1 <= c < x.1 + 16 -> m1 c = m c).
      { intros c Hcx. apply Hout. unfold apart, span, SIZEOF_METADATA in Hxb. lia. }
      destruct (IH F' m1 _ Hc2 HF2) as (m' & F'' & E & Hc3 & HF3 & Hin3 & Hcov3 & Hout3); [cbn in Hlen; lia|done| | | |].
      { apply Forall_forall. intros d Hd. by apply Hxap, Hsub. }
      { unfold get_size. rewrite (load_int_ext m) by (intros; apply Hxm; lia). exact Hxs. }
      { unfold get_next. rewrite (load_int_ext m) by (intros; apply Hxm; lia). exact Hxn. }
      assert (Hbx : forall c, b'.1 <= c < span b' -> ~ x.1 <= c < span x).
      { intros c Hcb Hcx. assert (Hcc : covered (b :: F) c) by (apply Hcov; rewrite covered_cons; by left).
        revert Hcc. apply apart_not_covered with x; [|done]. constructor; [done|by apply Forall_forall]. }
      destruct (push_block m1 m' b' F' F'' (get_next m1 b'.1) Hc' HF' eq_refl Hc3 HF3) as [Hc4 HF4].
      { intros c Hcb Hcc. apply Hin3 in Hcc as [Hcc|Hcc]; [|by apply (Hbx c)]. revert Hcc. by apply apart_not_covered with b'. }
      { intros c Hcb. assert (Hcb' : b'.1 <= c < span b') by (destruct Hb' as (_ & _ & _ & _ & ?); unfold span, SIZEOF_METADATA; lia).
        apply Hout3; [by apply apart_not_covered with b'|by apply Hbx]. }
      exists m', (b' :: F''). split; [exact E|]. split; [exact Hc4|]. split; [exact HF4|]. split_and!.
      * intros c [Hcc|Hcc]%covered_cons; [left; apply Hcov; rewrite covered_cons; by left|].
        apply Hin3 in Hcc as [Hcc|Hcc]; [left; apply Hcov; rewrite covered_cons; by right|by right].
      * intros c Hcc. apply Hcov in Hcc. rewrite covered_cons in Hcc |- *. destruct Hcc as [Hcc|Hcc]; [by left|right; by apply Hcov3].
      * intros c Hnc Hcx. rewrite Hout3; [|intros Hcc; apply Hnc, Hcov; rewrite covered_cons; by right|done]. apply Hout.
        destruct (decide (b'.1 <= c < b'.1 + 16)) as [Hin|]; [|lia]. by apply Hinr in Hin.
Qed.
End Chain.

Lemma beside_sym u v : beside u v -> beside v u.
Proof. unfold beside. tauto. Qed.

Lemma separate_perm U U' : U ≡ₚ U' -> separate U -> separate U'.
Proof.
  induction 1 as [|u U U' HU IH|u v U|U1 U2 U3 _ IH1 _ IH2]; cbn; [done| | |tauto].
  - intros [Hu HUs]. split; [by rewrite <- HU|by apply IH].
  - rewrite !Forall_cons. intros ((Huv & Hu) & Hv & HUs). pose proof (beside_sym _ _ Huv). by split_and!.
Qed.

Definition block_of (u : Live) : Z * Z := (l_address u, l_size u).

Lemma owns_block u c : 0 <= l_padding u -> owns u c -> (block_of u).1 <= c < span (block_of u).
Proof. unfold owns, pointer, l_end, span, block_of, SIZEOF_METADATA. cbn. lia. Qed.

Lemma io_Free_spec base h F U u U' fuel :
  heap_ok base h F U -> U ≡ₚ u :: U' -> (length F + 2 <= fuel)%nat ->
  exists h' F', IOHeap_Free fuel (pointer u) h = inr (tt, h') /\ heap_ok base h' F' U' /\
    (forall v c, v ∈ U' -> owns v c -> bytes h' c = bytes h c) /\
    (forall c, covered F c -> covered F' c) /\ (forall c, covered F' c -> covered F c \/ l_address u <= c < l_end u).
Proof.
  intros Hok HU Hfuel. destruct (ok_base _ _ _ _ Hok) as (Hb0 & Hbm & Hbhi).
  assert (Hu : u ∈ U) by (rewrite HU; left).
  destruct (ok_live _ _ _ _ Hok u Hu) as ((Hp & Hs & Hn & Ham & Hsm & Hpm & Hp0 & Hps) & Hlo & Hend & Hap).
  set (hi := base + DEFAULT_ARENA_SIZE) in *. unfold DEFAULT_ARENA_SIZE in *. set (x := block_of u).
  assert (Hx : sound base hi x) by (unfold sound, x, block_of, span; cbn; unfold l_end in Hend; split_and!; try done; lia).
  assert (Hxend : span x = l_end u) by done.
  assert (Hxap : Forall (apart x) F) by (apply Forall_forall; intros b Hb; unfold apart; rewrite Hxend; destruct (Hap b Hb); [by right|by left]).
  assert (Hsep : Forall (beside u) U' /\ separate U') by (pose proof (separate_perm _ _ HU (ok_separate _ _ _ _ Hok)) as Hsep; exact Hsep).
  destruct Hsep as [Hbeside Hsep]. rewrite Forall_forall in Hbeside.
  pose proof (ok_chain _ _ _ _ Hok) as Hc. pose proof (ok_blocks _ _ _ _ Hok) as HF.
  assert (Hspan : hi - base < 2 ^ 32) by (unfold hi; lia).
  (* from a rebuilt chain to the heap *)
  assert (Hdone : forall h2 m' F', chain m' h2 F' 0 -> blocks base F' hi -> (forall c, covered F' c -> covered F c \/ x.1 <= c < span x) ->
    (forall c, covered F c -> covered F' c) -> (forall c, ~ covered F c -> ~ x.1 <= c < span x -> m' c = bytes h c) ->
    heap_ok base (mkHeap h2 m') F' U' /\ (forall v c, v ∈ U' -> owns v c -> m' c = bytes h c) /\
      (forall c, covered F c -> covered F' c) /\ (forall c, covered F' c -> covered F c \/ l_address u <= c < l_end u)).
  { intros h2 m' F' Hc' HF' Hcov Hcov2 Hout.
    assert (Hframe : forall v, v ∈ U' -> forall c, l_address v <= c < l_end v -> ~ covered F c /\ ~ x.1 <= c < span x).
    { intros v Hv c Hcv. assert (Hv' : v ∈ U) by (rewrite HU; by right). destruct (ok_live _ _ _ _ Hok v Hv') as (_ & _ & _ & Hapv). split.
      - intros (b & Hb & Hcb). destruct (Hapv b Hb); lia.
      - rewrite Hxend. change (x.1) with (l_address u). destruct (Hbeside v Hv); lia. }
    split; [|split_and!].
    - constructor; cbn [bytes head]; [by split_and!|exact Hc'|exact HF'| |exact Hsep]. intros v Hv. assert (Hv' : v ∈ U) by (rewrite HU; by right).
      destruct (ok_live _ _ _ _ Hok v Hv') as (Hlv & Hlov & Hhiv & _). split.
      { apply (live_frame (bytes h)); [|done]. intros c Hcv. destruct (Hframe v Hv c Hcv). by apply Hout. }
      split; [done|]. split; [done|]. intros b Hb.
      assert (Hab : apart b (l_address v, l_size v)).
      { destruct Hlv as (_ & _ & _ & ? & ? & _ & ? & ?). apply (apart_covered base hi); [by apply (blocks_in _ _ _ _ HF')| |].
        - unfold sound, span. cbn. unfold l_end in Hhiv. split_and!; try done; lia.
        - intros c Hcb Hcv. destruct (Hframe v Hv c Hcv) as [Hn1 Hn2]. destruct (Hcov c) as [?|?]; [by exists b|done|done]. }
      unfold apart in Hab. exact Hab.
    - intros v c Hv Hcv. assert (Hv' : v ∈ U) by (rewrite HU; by right). destruct (ok_live _ _ _ _ Hok v Hv') as ((_ & _ & _ & _ & _ & _ & Hp0v & _) & _).
      destruct (Hframe v Hv c) as [? ?]; [|by apply Hout]. exact (owns_block v c Hp0v Hcv).
    - exact Hcov2.
    - exact Hcov. }
  unfold IOHeap_Free. assert (Hptr : pointer u - SIZEOF_METADATA = l_address u + l_padding u) by (unfold pointer; lia).
  rewrite (proj2 (Z.eqb_neq (pointer u) 0)) by (unfold pointer, SIZEOF_METADATA; lia). cbv zeta. rewrite Hptr, Hp.
  replace (l_address u + l_padding u - l_padding u) with (l_address u) by lia.
  assert (Hxr : 0 <= l_address u < 2 ^ 64) by (unfold l_end, SIZEOF_METADATA, hi in Hend; lia).
  destruct (Z.eqb_spec (head h) 0) as [Hh0|Hh0].
  - assert (F = []) as ->. { destruct F as [|b F]; [done|]. pose proof (chain_first _ _ _ _ Hc). cbn in *. apply blocks_in with (b := b) in HF; [lia|left]. }
    eexists _, [x]. split; [reflexivity|]. apply Hdone.
    + cbn. split; [done|]. split; [fields; exact Hs|by fields].
    + apply blocks_cons. split; [done|]. split; [by constructor|]. split; [by constructor|done].
    + intros c. rewrite covered_cons. pose proof (covered_nil c). tauto.
    + intros c Hcc. by apply covered_nil in Hcc.
    + intros c _ Hcx. apply store_int_out. change (x.1) with (l_address u) in Hcx. unfold span, SIZEOF_METADATA, x, block_of in Hcx. cbn in Hcx. lia.
  - assert (Hhead : 0 <= head h < 2 ^ 64).
    { rewrite (chain_first _ _ _ _ Hc). destruct F as [|b F]; [lia|]. apply blocks_in with (b := b) in HF; [|left]. cbn. unfold span, SIZEOF_METADATA, DEFAULT_ARENA_SIZE in HF. lia. }
    destruct (Z.ltb_spec (l_address u) (head h)) as [Hlt|Hge].
    + set (m1 := set_next (l_address u) (head h) (bytes h)).
      destruct (insert_done base hi Hb0 Hbhi Hspan fuel (l_address u) (x :: F) m1 (l_address u)) as (m' & F' & E & Hc' & HF' & Hcov & Hout).
      { cbn. unfold m1. split; [done|]. split; [fields; exact Hs|]. replace (get_next (set_next (l_address u) (head h) (bytes h)) (l_address u)) with (head h) by (by fields).
        revert Hc. apply chain_ext. intros b Hb c Hcb. unfold set_next. apply store_int_out. destruct (Hap b Hb); apply (blocks_in _ _ _ _ HF) in Hb;
          unfold l_end, span, SIZEOF_METADATA in *; lia. }
      { apply blocks_cons. by split_and!. }
      { cbn. lia. }
      rewrite E. eexists _, F'. split; [reflexivity|]. apply Hdone; [exact Hc'|exact HF'| | |].
      * intros c Hcc. apply Hcov, covered_cons in Hcc. tauto.
      * intros c Hcc. apply Hcov, covered_cons. by right.
      * intros c Hn1 Hn2. rewrite Hout by (rewrite covered_cons; tauto). unfold m1, set_next. apply store_int_out.
        change (x.1) with (l_address u) in Hn2. unfold span, SIZEOF_METADATA, x, block_of in Hn2. cbn in Hn2. lia.
    + destruct (io_insert_spec base hi Hb0 Hbhi Hspan fuel x F (bytes h) (head h) Hc HF ltac:(lia) Hx Hxap Hs Hn) as (m' & F' & E & Hc' & HF' & Hcov & Hcov2 & Hout).
      change (l_address u) with x.1. rewrite E. eexists _, F'. split; [reflexivity|]. by apply Hdone.
Qed.

(** ** How many blocks there are *)

Lemma scattered_filter (P : Z * Z -> Prop) `{!forall b, Decision (P b)} F : scattered F -> scattered (filter P F).
Proof.
  induction F as [|b F IH]; [done|]. intros [Hb HF]. rewrite filter_cons. case_decide; [|by apply IH]. split; [|by apply IH].
  rewrite Forall_forall in Hb |- *. intros d Hd. apply list_elem_of_filter in Hd as [_ Hd]. by apply Hb.
Qed.

Lemma length_filters (P Q : Z * Z -> Prop) `{!forall b, Decision (P b)} `{!forall b, Decision (Q b)} F :
  (forall b, b ∈ F -> P b \/ Q b) -> (length F <= length (filter P F) + length (filter Q F))%nat.
Proof.
  induction F as [|b F IH]; intros HF; [done|]. rewrite !filter_cons. specialize (IH ltac:(intros d Hd; apply HF; by right)).
  assert (Hb : b ∈ b :: F) by left. destruct (HF b Hb); repeat case_decide; cbn; try lia; done.
Qed.

Lemma blocks_filter lo hi lo' hi' (P : Z * Z -> Prop) `{!forall b, Decision (P b)} F : blocks lo F hi ->
  (forall b, b ∈ F -> P b -> lo' <= b.1 /\ span b <= hi') -> blocks lo' (filter P F) hi'.
Proof.
  intros HF HP. split; [|apply scattered_filter, HF]. apply Forall_forall. intros b [Hb Hin]%list_elem_of_filter.
  destruct (blocks_in _ _ _ _ HF Hin) as (_ & _ & ? & ? & ?). destruct (HP b Hin Hb). by split_and!.
Qed.

Lemma io_blocks_length F lo hi : lo <= hi -> blocks lo F hi -> Z.of_nat (length F) * 32 <= hi - lo.
Proof.
  remember (length F) as n eqn:Hn. assert (Hle : (length F <= n)%nat) by lia. rewrite Hn. clear Hn. revert F lo hi Hle.
  induction n as [|n IH]; intros F lo hi Hlen Hlh HF; (destruct F as [|b F]; [cbn; lia|]); [cbn in Hlen; lia|]. cbn in Hlen.
  apply blocks_cons in HF as ((Hb1 & Hb2 & _ & _ & Hb5) & Hap & HF). rewrite Forall_forall in Hap. unfold span, SIZEOF_METADATA in Hb2.
  pose proof (length_filters (fun d => span d <= b.1) (fun d => span b <= d.1) F) as Hl.
  assert (HL : Z.of_nat (length (filter (fun d => span d <= b.1) F)) * 32 <= b.1 - lo).
  { apply IH; [etransitivity; [apply length_filter|lia]|lia|]. apply (blocks_filter lo hi); [done|]. intros d Hd ?. apply (blocks_in _ _ _ _ HF) in Hd. lia. }
  assert (HR : Z.of_nat (length (filter (fun d => span b <= d.1) F)) * 32 <= hi - (b.1 + 16 + b.2)).
  { apply IH; [etransitivity; [apply length_filter|lia]|lia|]. apply (blocks_filter lo hi); [done|]. intros d Hd Hds. apply (blocks_in _ _ _ _ HF) in Hd.
    unfold span, SIZEOF_METADATA in *. lia. }
  specialize (Hl ltac:(intros d Hd; destruct (Hap d Hd); tauto)). cbn. lia.
Qed.

Lemma separate_in U u v : separate U -> u ∈ U -> v ∈ U -> u = v \/ beside u v.
Proof.
  induction U as [|w U IH]; cbn; [by intros _ ?%not_elem_of_nil|]. rewrite Forall_forall.
  intros [Hw HU] [->|Hu]%elem_of_cons [->|Hv]%elem_of_cons; [by left|right; auto|right; by apply beside_sym, Hw|auto].
Qed.

(** ** What clients can rely on *)

(** The heap at [base] with its blocks in use. *)
Definition io_heap (base : Z) (h : IOHeap) (U : list Live) : Prop := exists F, heap_ok base h F U.

(** More steps than there can be free blocks, and two. *)
Definition enough_fuel (fuel : nat) : Prop := DEFAULT_ARENA_SIZE / 32 + 2 <= Z.of_nat fuel.

Lemma few_blocks base h F U fuel : heap_ok base h F U -> enough_fuel fuel -> (length F + 2 <= fuel)%nat.
Proof.
  intros Hok Hf. pose proof (io_blocks_length F base (base + DEFAULT_ARENA_SIZE) ltac:(unfold DEFAULT_ARENA_SIZE; lia) (ok_blocks _ _ _ _ Hok)) as Hl.
  unfold enough_fuel in Hf. change (DEFAULT_ARENA_SIZE / 32) with 1048576 in Hf. unfold DEFAULT_ARENA_SIZE in Hl. lia.
Qed.

Lemma io_heap_created base m region mapping :
  0 < base -> base mod 16 = 0 -> base + DEFAULT_ARENA_SIZE <= 2 ^ 63 -> mapping region = Some base ->
  exists h, IOHeap_Create (Some region) mapping (mkHeap 0 m) = (true, h) /\ io_heap base h [].
Proof.
  intros Hb Hbm Hbh Hmap. unfold IOHeap_Create. cbn [head]. rewrite Z.eqb_refl, Hmap. eexists. split; [reflexivity|].
  exists [(base, DEFAULT_ARENA_SIZE - SIZEOF_METADATA)]. constructor; cbn [head bytes].
  - by split_and!.
  - cbn. split; [done|]. split; [fields; apply wrap_small; vm_compute; by split|by fields].
  - apply blocks_cons. split; [|split; [by constructor|by repeat constructor]]. unfold sound, span, SIZEOF_METADATA, DEFAULT_ARENA_SIZE. cbn. split_and!; try done; lia.
  - by intros u ?%not_elem_of_nil.
  - done.
Qed.

(** C3: For clients that ask for multiples of 16 bytes, in whatever order they
    allocate, free and write: an allocation ends, and gives either nothing,
    leaving the heap as it was, or bytes that are aligned as asked, inside the
    arena and of no other client; freeing ends, and takes the block from its
    client alone; and neither changes what any other client wrote. *)
Theorem io_heap_isolates base h U fuel : io_heap base h U -> enough_fuel fuel ->
  (forall size alignment, asked size alignment ->
    exists p h', IOHeap_Allocate fuel size alignment h = inr (p, h') /\
      (p = 0 /\ h' = h \/
       exists u, p = pointer u /\ p mod alignment = 0 /\ base <= l_address u /\ p + size <= l_end u <= base + DEFAULT_ARENA_SIZE /\
         Forall (beside u) U /\ io_heap base h' (u :: U) /\ forall v c, v ∈ U -> owns v c -> bytes h' c = bytes h c)) /\
  (forall u U', U ≡ₚ u :: U' ->
    exists h', IOHeap_Free fuel (pointer u) h = inr (tt, h') /\ io_heap base h' U' /\ forall v c, v ∈ U' -> owns v c -> bytes h' c = bytes h c) /\
  (forall u m', u ∈ U -> (forall c, ~ owns u c -> m' c = bytes h c) -> io_heap base (mkHeap (head h) m') U).
Proof.
  intros [F Hok] Hfuel. pose proof (few_blocks _ _ _ _ _ Hok Hfuel) as Hlen. split_and!.
  - intros size alignment Ha. destruct (io_Allocate_spec base h F U size alignment fuel Hok Ha) as (p & h' & E & Hres); [lia|].
    exists p, h'. split; [exact E|]. destruct Hres as [(-> & -> & _)|(u & F' & -> & Hmod & Hsz & Hok' & Hkeep & _)]; [by left|]. right. exists u.
    assert (Hin : u ∈ u :: U) by left. destruct (ok_live _ _ _ _ Hok' u Hin) as (_ & Hlo & Hhi & _).
    destruct (ok_separate _ _ _ _ Hok') as [Hb _]. split_and!; try done. by exists F'.
  - intros u U' HU. destruct (io_Free_spec base h F U u U' fuel Hok HU Hlen) as (h' & F' & E & Hok' & Hkeep & _).
    exists h'. split; [exact E|]. split; [by exists F'|exact Hkeep].
  - intros u m' Hu Hm. exists F. destruct (ok_live _ _ _ _ Hok u Hu) as ((_ & _ & _ & _ & _ & _ & Hp0 & Hp1) & Hlo & Hhi & Hap).
    constructor; cbn [head bytes]; [apply Hok| |apply Hok| |apply Hok].
    + pose proof (ok_chain _ _ _ _ Hok) as Hc. revert Hc. apply chain_ext. intros b Hb c Hc. apply Hm. unfold owns, pointer. intros Hcu.
      pose proof (blocks_in _ _ _ _ (ok_blocks _ _ _ _ Hok) Hb). destruct (Hap b Hb); unfold span, l_end, SIZEOF_METADATA in *; lia.
    + intros v Hv. destruct (ok_live _ _ _ _ Hok v Hv) as (Hlv & ? & ? & ?). split; [|by split_and!].
      destruct Hlv as (Ep & Es & En & Hr). destruct Hr as (Hr1 & Hr2 & Hr3 & Hr4 & Hr5).
      assert (Hfar : forall c, l_address v <= c < pointer v -> m' c = bytes h c).
      { intros c Hc. apply Hm. unfold owns. destruct (separate_in U u v (ok_separate _ _ _ _ Hok) Hu Hv) as [<-|[?|?]];
          unfold pointer, l_end, SIZEOF_METADATA in *; lia. }
      unfold pointer, SIZEOF_METADATA in Hfar. unfold live_ok, get_padding, get_size, get_next in *.
      rewrite !(load_int_ext (bytes h) m') by (intros; apply Hfar; lia). by split_and!.
Qed.

(** A heap in an empty memory. *)
Definition new_heap : IOHeap := snd (IOHeap_Create (Some 0) (fun _ => Some 0x200000) (mkHeap 0 (fun _ => 0))).

Lemma new_heap_ok : io_heap 0x200000 new_heap [].
Proof.
  destruct (io_heap_created 0x200000 (fun _ => 0) 0 (fun _ => Some 0x200000)) as (h & E & Hh); [lia|done|vm_compute; discriminate|done|].
  unfold new_heap. rewrite E. exact Hh.
Qed.

Lemma first_pointer : match IOHeap_Allocate (Z.to_nat 1048578) 128 64 new_heap with inr (p, _) => p | inl _ => 0 end = 0x200040.
Proof. vm_compute. reflexivity. Qed.

Lemma io_heap_isolates_witness :
  exists h' u, IOHeap_Allocate (Z.to_nat 1048578) 128 64 new_heap = inr (0x200040, h') /\ pointer u = 0x200040 /\ io_heap 0x200000 h' [u].
Proof.
  assert (Hf : enough_fuel (Z.to_nat 1048578)) by (unfold enough_fuel; rewrite Z2Nat.id by discriminate; vm_compute; discriminate).
  destruct (io_heap_isolates 0x200000 new_heap [] (Z.to_nat 1048578) new_heap_ok Hf) as (Ha & _ & _).
  destruct (Ha 128 64) as (p & h' & E & Hres); [unfold asked, PAGE_SIZE; split; [done|]; split; [lia|]; right; split; [done|lia]|].
  pose proof first_pointer as Hp. rewrite E in Hp. subst p.
  destruct Hres as [[? _]|(u & Hu & _ & _ & _ & _ & Hh & _)]; [done|]. exists h', u. split; [exact E|]. split; [by symmetry|exact Hh].
Defined.

(** ** What goes wrong *)

Definition alloc (size alignment : Z) (h : IOHeap) : Z * IOHeap := match IOHeap_Allocate 10 size alignment h with inr r => r | inl _ => (0, h) end.
Definition free (p : Z) (h : IOHeap) : IOHeap := match IOHeap_Free 10 p h with inr (_, h) => h | inl _ => h end.

(** An allocation that leaves a free block of 8 bytes prepares the next one
    to write a header over what follows that block: here past the arena, with
    a size of 2^32 - 16. *)
Theorem small_remainder_overruns :
  let '(p1, h1) := alloc (DEFAULT_ARENA_SIZE - 40) 8 new_heap in
  let '(p2, h2) := alloc 8 8 h1 in
  p1 = 0x200010 /\ p2 = 0x200000 + DEFAULT_ARENA_SIZE - 8 /\ head h2 = 0x200000 + DEFAULT_ARENA_SIZE /\
  get_size (bytes h2) (0x200000 + DEFAULT_ARENA_SIZE) = 2 ^ 32 - 16.
Proof. vm_compute. by split_and!. Qed.

(** A block freed right after two free blocks that touch and were not yet
    coalesced is lost: the loop steps over its place while it coalesces them.
    Here the arena is full, blocks 0, 2, 1 and 3 of 16 bytes are freed, and
    what is left in the chain is blocks 0 to 2. *)
Theorem freed_block_lost :
  let '(p0, h) := alloc 16 8 new_heap in
  let '(p1, h) := alloc 16 8 h in
  let '(p2, h) := alloc 16 8 h in
  let '(p3, h) := alloc 16 8 h in
  let '(p4, h) := alloc (DEFAULT_ARENA_SIZE - 16 - 4 * 32) 8 h in
  let h := free p3 (free p1 (free p2 (free p0 h))) in
  p3 = 0x200070 /\ p4 <> 0 /\ head h = 0x200000 /\ get_size (bytes h) (head h) = 80 /\ get_next (bytes h) (head h) = 0.
Proof. vm_compute. by split_and!. Qed.

(** ** Memory primitives *)

Lemma byte_written (m : memory) a b v : (<[a := v]> m) b = if decide (a = b) then v else m b.
Proof. done. Qed.

Lemma set_up_spec m dest ch n b : set_up m dest ch n b = if decide (dest <= b < dest + Z.of_nat n) then u8 ch else m b.
Proof.
  revert m dest. induction n as [|n IH]; intros m dest; cbn [set_up]; [by rewrite decide_False by lia|].
  rewrite IH, byte_written. repeat case_decide; try lia; done.
Qed.

(** [memset] of 64 bytes or more leaves the last bytes as they were when
    its destination is not a multiple of 8: as many as were set one by one to
    reach one. *)
Theorem memset_stops_short m dest ch count b : (MIN_STOSQ_COUNT <= count)%nat ->
  fst (Utils_memset m dest ch count) b = if decide (dest <= b < dest + Z.of_nat count - (- dest) mod 8) then u8 ch else m b.
Proof.
  intros Hc. unfold Utils_memset. unfold MIN_STOSQ_COUNT in *. rewrite (proj2 (Nat.leb_le 64 count) Hc). cbn [fst].
  pose proof (Z.mod_pos_bound (- dest) 8 ltac:(lia)) as Hk. set (k := (- dest) mod 8) in *. clearbody k.
  set (n := (count - Z.to_nat k)%nat). pose proof (Nat.div_mod n 8 ltac:(lia)) as Hn. pose proof (Nat.mod_upper_bound n 8 ltac:(lia)) as Hr.
  set (q := (n / 8)%nat) in *. set (r := (n mod 8)%nat) in *. clearbody q r.
  rewrite !set_up_spec. repeat case_decide; try lia; done.
Qed.

Lemma memset_stops_short_witness : fst (Utils_memset (fun _ => 0) 0x1001 0xFF 64) 0x1040 = 0.
Proof. rewrite memset_stops_short by (unfold MIN_STOSQ_COUNT; lia). reflexivity. Defined.

Lemma memset_small m dest ch count b : (count < MIN_STOSQ_COUNT)%nat ->
  fst (Utils_memset m dest ch count) b = if decide (dest <= b < dest + Z.of_nat count) then u8 ch else m b.
Proof.
  intros Hc. unfold Utils_memset. unfold MIN_STOSQ_COUNT in *. rewrite (proj2 (Nat.leb_gt 64 count) Hc). apply set_up_spec.
Qed.

(** A copy to where no byte still to be read lies. *)
Lemma copy_up_spec m dest src n b : dest <= src \/ src + Z.of_nat n <= dest ->
  copy_up m dest src n b = if decide (dest <= b < dest + Z.of_nat n) then m (src + (b - dest)) else m b.
Proof.
  revert m dest src. induction n as [|n IH]; intros m dest src Hd; cbn [copy_up]; [by rewrite decide_False by lia|].
  rewrite IH by lia. rewrite !byte_written. repeat case_decide; subst; try lia; try done; f_equal; lia.
Qed.

Lemma memcpy_copies m dest src count b : dest <= src \/ src + Z.of_nat count <= dest ->
  fst (Utils_memcpy m dest src count) b = (if decide (dest <= b < dest + Z.of_nat count) then m (src + (b - dest)) else m b) /\
  snd (Utils_memcpy m dest src count) = if (dest =? src) || (count <? 64)%nat then dest else dest + Z.of_nat count.
Proof.
  intros Hd. unfold Utils_memcpy. destruct (Z.eqb_spec dest src) as [->|Hne]; cbn [fst snd orb].
  - split; [|done]. case_decide; [f_equal; lia|done].
  - split; [by apply copy_up_spec|]. destruct (Nat.leb_spec 64 count), (Nat.ltb_spec count 64); try lia; done.
Qed.

(** The sign is that of the second operand against the first. *)
Lemma memcmp_sign m lhs rhs n : lhs <> rhs ->
  match memcmp m lhs rhs n with
  | 0 => forall i, 0 <= i < Z.of_nat n -> m (lhs + i) = m (rhs + i)
  | r => exists i, 0 <= i < Z.of_nat n /\ (forall j, 0 <= j < i -> m (lhs + j) = m (rhs + j)) /\
           (r = 1 /\ m (lhs + i) < m (rhs + i) \/ r = -1 /\ m (rhs + i) < m (lhs + i))
  end.
Proof.
  intros Hne. unfold memcmp. rewrite (proj2 (Z.eqb_neq lhs rhs) Hne). clear Hne. revert lhs rhs.
  induction n as [|n IH]; intros lhs rhs; cbn [memcmp_loop]; [lia|].
  destruct (Z.eqb_spec (m rhs) (m lhs)) as [Heq|Hneq]; cbn [negb].
  - specialize (IH (lhs + 1) (rhs + 1)).
    assert (Hstep : forall i, 0 <= i -> (forall j, 0 <= j < i -> m (lhs + 1 + j) = m (rhs + 1 + j)) -> forall j, 0 <= j < i + 1 -> m (lhs + j) = m (rhs + j)).
    { intros i Hi Hj j Hjr. destruct (decide (j = 0)) as [->|]; [by rewrite !Z.add_0_r|].
      specialize (Hj (j - 1) ltac:(lia)). replace (lhs + j) with (lhs + 1 + (j - 1)) by lia. by replace (rhs + j) with (rhs + 1 + (j - 1)) by lia. }
    destruct (memcmp_loop m (lhs + 1) (rhs + 1) n) as [|r|r].
    + intros i Hi. apply (Hstep (Z.of_nat n)); [lia|intros j Hj; apply IH; lia|lia].
    + destruct IH as (i & Hi & Hj & Hr). exists (i + 1). split; [lia|]. split; [apply Hstep; [lia|done]|].
      by replace (lhs + (i + 1)) with (lhs + 1 + i) by lia; replace (rhs + (i + 1)) with (rhs + 1 + i) by lia.
    + destruct IH as (i & Hi & Hj & Hr). exists (i + 1). split; [lia|]. split; [apply Hstep; [lia|done]|].
      by replace (lhs + (i + 1)) with (lhs + 1 + i) by lia; replace (rhs + (i + 1)) with (rhs + 1 + i) by lia.
  - destruct (Z.ltb_spec (m rhs) (m lhs)); exists 0; rewrite !Z.add_0_r; (split; [lia|]; split; [intros j Hj; lia|lia]).
Qed.
