(* ===== verification/KeyboardQueue.v ===== *)
(** * Component: the keyboard multiplexer and the key code map
    ([kernel/src/devices/KeyboardDispatcher/])

    The queue every keyboard writes its packets to and the shell reads them
    from: a ring of packets in a buffer of bytes. A reader and a writer hold
    different locks, so besides the two operations run alone the queue is given
    as a transition system whose steps are the accesses of [Read] and [Write]
    to the shared members. *)
From S2P Require Import DataNode Keypoints Prelude.

(** [sizeof(BasicKeyPacket)] and the bytes of a packet. *)
Definition PACKET_SIZE : Z := 4.
Definition packet_bytes (p : BasicKeyPacket) : list Z :=
  [scancode p; keypoint p; flags p mod 256; flags p / 256].

Record Buffer := mkBuffer { buffer : list Z; location : Z; available_packets_count : Z }.

Definition set_buffer (b : list Z) (q : Buffer) : Buffer := mkBuffer b (location q) (available_packets_count q).
Definition set_location (l : Z) (q : Buffer) : Buffer := mkBuffer (buffer q) l (available_packets_count q).
Definition set_count (n : Z) (q : Buffer) : Buffer := mkBuffer (buffer q) (location q) n.

(** [FS::Response<size_t>] *)
Inductive response := Bytes (n : Z) | Failed (e : Status).

Section Queue.
Context (BUFFER_SIZE : Z).

Definition CAPACITY : Z := BUFFER_SIZE / PACKET_SIZE.

Definition new_Buffer (b : list Z) : Buffer := mkBuffer b 0 0.

(** ** Reading: the decision, a packet, the end *)

Definition Read_enter (count : Z) (q : Buffer) : response + Z :=
  let available_packets := available_packets_count q in
  if available_packets =? 0 then inl (Bytes 0)
  else if negb (count mod PACKET_SIZE =? 0) then inl (Failed INVALID_PARAMETER)
  else
    let packets := count / PACKET_SIZE in
    inr (if available_packets <? packets then available_packets else packets).

Definition Read_packet : io Buffer (list Z) := fun q =>
  match load (buffer q) (location q * PACKET_SIZE) PACKET_SIZE with
  | None => inl WildAccess
  | Some bytes => inr (bytes, set_location ((location q + 1) mod CAPACITY) q)
  end.

Definition Read_leave (read_packets : Z) : io Buffer unit := fun q =>
  inr (tt, set_count (u64 (available_packets_count q - read_packets)) q).

Fixpoint Read_loop (n : nat) : io Buffer (list Z) :=
  match n with
  | O => mret []
  | S n => Read_packet ≫= fun bytes => Read_loop n ≫= fun rest => mret (bytes ++ rest)
  end.

(** The response, and what is in the buffer of the caller. *)
Definition Read (count : Z) : io Buffer (response * list Z) := fun q =>
  match Read_enter count q with
  | inl r => inr ((r, []), q)
  | inr n =>
      (Read_loop (Z.to_nat n) ≫= fun bytes => Read_leave n ≫= fun _ => mret (Bytes (n * PACKET_SIZE), bytes)) q
  end.

(** ** Writing: the decision, the reservation, a packet *)

Definition Write_enter (count : Z) (q : Buffer) : response + Z * Z :=
  if negb (count mod PACKET_SIZE =? 0) then inl (Failed INVALID_PARAMETER)
  else
    let available_packets := available_packets_count q in
    let remaining_space := CAPACITY - available_packets in
    if remaining_space =? 0 then inl (Bytes 0)
    else
      let packets := count / PACKET_SIZE in
      inr (available_packets, if remaining_space <? packets then remaining_space else packets).

Definition Write_reserve (written_packets : Z) : io Buffer unit := fun q =>
  inr (tt, set_count (u64 (available_packets_count q + written_packets)) q).

Definition Write_packet (available_packets i : Z) (src : list Z) : io Buffer unit := fun q =>
  match memcpy (buffer q) (u64 (location q + available_packets + i) mod CAPACITY * PACKET_SIZE) src (i * PACKET_SIZE) PACKET_SIZE with
  | None => inl WildAccess
  | Some b => inr (tt, set_buffer b q)
  end.

Fixpoint Write_loop (n : nat) (available_packets i : Z) (src : list Z) : io Buffer unit :=
  match n with
  | O => mret tt
  | S n => Write_packet available_packets i src ≫= fun _ => Write_loop n available_packets (i + 1) src
  end.

Definition Write (count : Z) (src : list Z) : io Buffer response := fun q =>
  match Write_enter count q with
  | inl r => inr (r, q)
  | inr (available_packets, n) =>
      (Write_reserve n ≫= fun _ => Write_loop (Z.to_nat n) available_packets 0 src ≫= fun _ => mret (Bytes (n * PACKET_SIZE))) q
  end.

(** ** One reader and one writer at once

    Each of the two locks admits one of them; between them every access to
    [location] and [available_packets_count] is a step. *)

Inductive reader := Outside | Copying (left total : Z) (out : list Z).
Inductive writer :=
| Away
| Loaded (available written : Z) (src : list Z)
| Filling (available i written : Z) (src : list Z).

Record system := mkSystem { queue : Buffer; reading : reader; writing : writer }.

Inductive step : system -> system -> Prop :=
| Step_read_enter q w count n :
    0 <= count -> Read_enter count q = inr n -> step (mkSystem q Outside w) (mkSystem q (Copying n n []) w)
| Step_read_packet q q' w left total out bytes :
    0 < left -> Read_packet q = inr (bytes, q') ->
    step (mkSystem q (Copying left total out) w) (mkSystem q' (Copying (left - 1) total (out ++ bytes)) w)
| Step_read_leave q q' w total out :
    Read_leave total q = inr (tt, q') -> step (mkSystem q (Copying 0 total out) w) (mkSystem q' Outside w)
| Step_write_enter q r count src a n :
    Z.of_nat (length src) = count -> Write_enter count q = inr (a, n) ->
    step (mkSystem q r Away) (mkSystem q r (Loaded a n src))
| Step_write_reserve q q' r a n src :
    Write_reserve n q = inr (tt, q') -> step (mkSystem q r (Loaded a n src)) (mkSystem q' r (Filling a 0 n src))
| Step_write_packet q q' r a i n src :
    i < n -> Write_packet a i src q = inr (tt, q') ->
    step (mkSystem q r (Filling a i n src)) (mkSystem q' r (Filling a (i + 1) n src))
| Step_write_leave q r a n src : step (mkSystem q r (Filling a n n src)) (mkSystem q r Away).

(** A read of [n] packets that an interrupt suspends after the first [j], to
    write to the same queue: the response of the write, and what was read. *)
Definition interrupted_Read (n j : nat) (count : Z) (src : list Z) : io Buffer (response * list Z) :=
  Read_loop j ≫= fun first =>
  Write count src ≫= fun r =>
  Read_loop (n - j) ≫= fun rest =>
  Read_leave (Z.of_nat n) ≫= fun _ => mret (r, first ++ rest).
End Queue.

(** ** The rest of the node *)

Definition Query : Status := UNSUPPORTED.

(** Whether the buffer is released. *)
Definition Destroy (deleted : bool) : bool := deleted.

Definition bufferSize : Z := 0x800 * PACKET_SIZE.

(** What [Heap::Allocate] gives for the buffer and for the object, and what
    [AddNode] answers; no multiplexer is a panic. *)
Definition Initialize (storage : option (list Z)) (mem : option Z) (status : Status) : option Buffer :=
  b ← storage; _ ← mem; if decide (status = SUCCESS) then Some (new_Buffer b) else None.

(** ** Key codes *)

Record VirtualKeyPacket := mkVirtual { v_keypoint : Z; keycode : Z; v_flags : Z }.

Definition KeyboardDispatcher_KeycodeMap : list Z := [
  0x00; 0x00; 0x1B; 0xC0; 0x09; 0x14; 0xA0; 0xA2;
  0x00; 0x7C; 0x70; 0x31; 0x51; 0x41; 0xE2; 0x5B;
  0x00; 0x7D; 0x71; 0x32; 0x57; 0x53; 0x5A; 0xA4;
  0x00; 0x7E; 0x72; 0x33; 0x45; 0x44; 0x58; 0x00;
  0x00; 0x7F; 0x73; 0x34; 0x52; 0x46; 0x43; 0x00;
  0x00; 0x80; 0x74; 0x35; 0x54; 0x47; 0x56; 0x00;
  0x00; 0x81; 0x75; 0x36; 0x59; 0x48; 0x42; 0x20;
  0x00; 0x82; 0x76; 0x37; 0x55; 0x4A; 0x4E; 0x00;
  0x00; 0x83; 0x77; 0x38; 0x49; 0x4B; 0x4D; 0xA5;
  0x00; 0x84; 0x78; 0x39; 0x4F; 0x4C; 0xBC; 0x5C;
  0xAC; 0x85; 0x79; 0x30; 0x50; 0xBA; 0xBE; 0x5D;
  0xAA; 0x86; 0x7A; 0xBD; 0xDB; 0xDE; 0xBF; 0xA3;
  0xAB; 0x87; 0x7B; 0xBB; 0xDD; 0x00; 0xA1; 0x25;
  0xA8; 0x2C; 0x2D; 0x08; 0xDC; 0x0D; 0x26; 0x28;
  0xA9; 0x91; 0x24; 0x2E; 0x22; 0x00; 0x00; 0x27;
  0xA7; 0x13; 0x21; 0x23; 0x00; 0x00; 0x00; 0x00;
  0xA6; 0xAD; 0xB2; 0x90; 0x67; 0x64; 0x61; 0x60;
  0xB6; 0xAE; 0xB1; 0x6F; 0x68; 0x65; 0x62; 0x00;
  0xB4; 0xAF; 0xB3; 0x6A; 0x69; 0x66; 0x63; 0x6E;
  0xB5; 0xB7; 0xB0; 0x6D; 0x00; 0x6B; 0x6C; 0x0D].

(** [None] is a read outside of the map. *)
Definition GetVirtualKeyPacket (p : BasicKeyPacket) : option VirtualKeyPacket :=
  code ← rd KeyboardDispatcher_KeycodeMap (keypoint p); Some (mkVirtual (keypoint p) code (flags p)).
