(* ===== verification/KeyboardQueueProps.v ===== *)
(** * The keyboard multiplexer is a bounded queue

    Alone, [Read] and [Write] are the two ends of a bounded first-in first-out
    queue. Run at once by a reader and a writer they never leave the buffer nor
    miscount, but an interrupt that writes in the middle of a read leaves its
    packets further than the reader will look. *)
From S2P Require Import DataNode Keypoints KeyboardQueue Prelude.

Section Queue.
Context (BUFFER_SIZE : Z) (size_multiple : BUFFER_SIZE mod PACKET_SIZE = 0) (size_range : 0 < BUFFER_SIZE < 2 ^ 62).
Local Abbreviation CAP := (CAPACITY BUFFER_SIZE).

Lemma CAP_size : BUFFER_SIZE = 4 * CAP /\ 0 < CAP < 2 ^ 60.
Proof using size_multiple size_range.
  unfold CAPACITY, PACKET_SIZE in *. pose proof (Z.div_mod BUFFER_SIZE 4 ltac:(lia)). lia.
Qed.

Record queue_ok (q : Buffer) : Prop := {
  buffer_size : Z.of_nat (length (buffer q)) = BUFFER_SIZE;
  location_in : 0 <= location q < CAP;
  count_in : 0 <= available_packets_count q <= CAP }.

(** The packet [k] places after the next one to read. *)
Definition slot (q : Buffer) (k : Z) : list Z := take 4 (drop (Z.to_nat ((location q + k) mod CAP * 4)) (buffer q)).
(** What the queue holds. *)
Definition contents (q : Buffer) : list (list Z) := slot q <$> seqZ 0 (available_packets_count q).
(** The packets of a buffer that is written. *)
Definition packet_at (src : list Z) (i : Z) : list Z := take 4 (drop (Z.to_nat (i * 4)) src).
Definition packets_of (src : list Z) (n : Z) : list (list Z) := packet_at src <$> seqZ 0 n.

Lemma slot_range k : 0 <= (k mod CAP) * 4 /\ (k mod CAP) * 4 + 4 <= BUFFER_SIZE.
Proof using size_multiple size_range. pose proof CAP_size. pose proof (Z.mod_pos_bound k CAP ltac:(lia)). lia. Qed.

Lemma mod_apart l a b : 0 <= a < CAP -> 0 <= b < CAP -> a <> b -> (l + a) mod CAP <> (l + b) mod CAP.
Proof using size_multiple size_range.
  intros Ha Hb Hn E. pose proof CAP_size as [_ HC].
  pose proof (Z.div_mod (l + a) CAP ltac:(lia)) as H1. pose proof (Z.div_mod (l + b) CAP ltac:(lia)) as H2.
  rewrite E in H1. assert (Hd : a - b = CAP * ((l + a) / CAP - (l + b) / CAP)) by lia.
  destruct (Z.eq_dec ((l + a) / CAP) ((l + b) / CAP)) as [E2|]; [rewrite E2 in Hd; lia|nia].
Qed.

(** ** One packet *)

Lemma Read_packet_run q : queue_ok q ->
  Read_packet BUFFER_SIZE q = inr (slot q 0, set_location ((location q + 1) mod CAP) q).
Proof using size_multiple size_range.
  intros [Hb Hl Hc]. pose proof CAP_size. unfold Read_packet, slot, PACKET_SIZE.
  rewrite load_some by lia. rewrite Z.add_0_r, (Z.mod_small (location q)) by lia. done.
Qed.

Lemma slot_advanced q n k : slot (set_location ((location q + n) mod CAP) q) k = slot q (n + k).
Proof using size_multiple size_range.
  pose proof CAP_size. unfold slot; cbn [set_location location buffer]. by rewrite Zplus_mod_idemp_l, Z.add_assoc.
Qed.

Lemma advanced_ok q n : queue_ok q -> queue_ok (set_location ((location q + n) mod CAP) q).
Proof using size_multiple size_range. intros [Hb Hl Hc]. pose proof CAP_size. split; cbn; auto. apply Z.mod_pos_bound; lia. Qed.

Lemma Write_packet_run q a i src : queue_ok q -> 0 <= a -> 0 <= i -> a + i < CAP -> i * 4 + 4 <= Z.of_nat (length src) ->
  exists q', Write_packet BUFFER_SIZE a i src q = inr (tt, q') /\ queue_ok q' /\ location q' = location q /\
    available_packets_count q' = available_packets_count q /\
    forall k, 0 <= k < CAP -> slot q' k = if decide (k = a + i) then packet_at src i else slot q k.
Proof using size_multiple size_range.
  intros [Hb Hl Hc] Ha Hi Hr Hs. pose proof CAP_size as [HB HC]. pose proof (slot_range (location q + a + i)) as Hp.
  unfold Write_packet, memcpy, PACKET_SIZE. rewrite wrap_small by lia. rewrite load_some by lia. cbn [mbind option_bind].
  assert (Hlen : length (take (Z.to_nat 4) (drop (Z.to_nat (i * 4)) src)) = 4%nat) by (rewrite length_take, length_drop; lia).
  rewrite put_some by lia. eexists; split; [reflexivity|]. set (b := splice _ _ _).
  assert (Hlb : length b = length (buffer q)) by (unfold b; apply length_splice; lia).
  split; [split; cbn; auto; rewrite ?Hlb; lia|]. split; [done|]. split; [done|]. intros k Hk.
  pose proof (slot_range (location q + k)) as Hq. unfold slot at 1. cbn [set_buffer location buffer].
  apply list_eq. intros x. destruct (decide (x < 4)%nat) as [Hx|Hx].
  2: { rewrite lookup_take_ge by lia. symmetry. apply lookup_ge_None. case_decide; unfold packet_at, slot; rewrite length_take; lia. }
  rewrite lookup_take_lt, lookup_drop by lia. unfold b. rewrite lookup_splice by lia.
  destruct (decide (k = a + i)) as [->|Hne].
  - replace (location q + (a + i)) with (location q + a + i) by lia. rewrite decide_True by lia.
    unfold packet_at. rewrite !lookup_take_lt, !lookup_drop by lia. f_equal. lia.
  - assert ((location q + k) mod CAP <> (location q + a + i) mod CAP).
    { rewrite <- Z.add_assoc. apply mod_apart; lia. }
    rewrite decide_False by lia. unfold slot. by rewrite lookup_take_lt, lookup_drop by lia.
Qed.

(** ** Runs of packets *)

Lemma qbind_run {A C} (m : io Buffer A) (f : A -> io Buffer C) q x q' : m q = inr (x, q') -> (m ≫= f) q = f x q'.
Proof. intros E. unfold mbind, io_bind. by rewrite E. Qed.

Lemma Read_loop_run n q : queue_ok q ->
  Read_loop BUFFER_SIZE n q =
    inr (concat (slot q <$> seqZ 0 (Z.of_nat n)), set_location ((location q + Z.of_nat n) mod CAP) q).
Proof using size_multiple size_range.
  revert q. induction n as [|n IH]; intros q Hq; cbn [Read_loop].
  { destruct q as [b l c], Hq as [_ Hl _]. cbn in *. rewrite Z.add_0_r, Z.mod_small by lia. done. }
  erewrite qbind_run by (by apply Read_packet_run). pose proof (advanced_ok q 1 Hq) as Hq1.
  erewrite qbind_run by (by apply IH). unfold mret, io_ret. do 2 f_equal.
  - rewrite Nat2Z.inj_succ, (seqZ_cons _ (Z.succ (Z.of_nat n))), Z.pred_succ by lia. cbn [fmap list_fmap concat]. do 2 f_equal.
    change (Z.succ 0) with (1 + 0). rewrite <- (fmap_add_seqZ 1 0 (Z.of_nat n)), <- list_fmap_compose. apply list_fmap_ext. intros _ k _. apply slot_advanced.
  - unfold set_location. cbn. rewrite Zplus_mod_idemp_l. do 2 f_equal. lia.
Qed.

Lemma Write_loop_run n q a i src : queue_ok q -> 0 <= a -> 0 <= i -> a + i + Z.of_nat n <= CAP ->
  (i + Z.of_nat n) * 4 <= Z.of_nat (length src) ->
  exists q', Write_loop BUFFER_SIZE n a i src q = inr (tt, q') /\ queue_ok q' /\ location q' = location q /\
    available_packets_count q' = available_packets_count q /\
    forall k, 0 <= k < CAP -> slot q' k = if decide (a + i <= k < a + i + Z.of_nat n) then packet_at src (k - a) else slot q k.
Proof using size_multiple size_range.
  revert q i. induction n as [|n IH]; intros q i Hq Ha Hi Hr Hs; cbn [Write_loop].
  { exists q. do 4 (split; [done|]). intros k Hk. by rewrite decide_False by lia. }
  destruct (Write_packet_run q a i src Hq Ha Hi ltac:(lia) ltac:(lia)) as (q1 & E1 & Hq1 & Hl1 & Hc1 & Hs1).
  erewrite qbind_run by exact E1.
  destruct (IH q1 (i + 1) Hq1 Ha ltac:(lia) ltac:(lia) ltac:(lia)) as (q2 & E2 & Hq2 & Hl2 & Hc2 & Hs2).
  exists q2. split; [done|]. split; [done|]. split; [congruence|]. split; [congruence|]. intros k Hk.
  rewrite Hs2, Hs1 by done. repeat case_decide; try lia; try done; f_equal; lia.
Qed.

(** A write of [written] packets after [a] that are counted. *)
Lemma written_run q count src : queue_ok q -> count mod 4 = 0 -> 0 <= count <= Z.of_nat (length src) ->
  let a := available_packets_count q in
  let n := Z.min (count / 4) (CAP - a) in
  exists q', Write BUFFER_SIZE count src q = inr (Bytes (n * 4), q') /\ queue_ok q' /\ location q' = location q /\
    available_packets_count q' = a + n /\
    forall k, 0 <= k < CAP -> slot q' k = if decide (a <= k < a + n) then packet_at src (k - a) else slot q k.
Proof using size_multiple size_range.
  intros Hq Hm Hs. cbv zeta. pose proof (count_in _ Hq) as Hc. pose proof CAP_size as [_ HC].
  pose proof (Z.div_mod count 4 ltac:(lia)) as Hd. unfold Write, Write_enter, PACKET_SIZE.
  rewrite Hm. cbn [Z.eqb negb]. destruct (Z.eqb_spec (CAP - available_packets_count q) 0) as [Hz|Hz].
  { exists q. rewrite Z.min_r by lia. rewrite Hz. do 3 (split; [done|]). split; [lia|]. intros. by rewrite decide_False by lia. }
  set (n := if CAP - available_packets_count q <? count / 4 then CAP - available_packets_count q else count / 4).
  assert (Hn : n = Z.min (count / 4) (CAP - available_packets_count q)) by (unfold n; destruct (Z.ltb_spec (CAP - available_packets_count q) (count / 4)); lia).
  rewrite Hn in *. clear Hn. set (w := Z.min _ _) in *. assert (0 <= w) by lia.
  erewrite qbind_run by reflexivity. cbn beta. rewrite wrap_small by lia.
  set (q1 := set_count (available_packets_count q + w) q).
  assert (Hq1 : queue_ok q1). { destruct Hq. split; cbn; auto. lia. }
  destruct (Write_loop_run (Z.to_nat w) q1 (available_packets_count q) 0 src Hq1 ltac:(lia) ltac:(lia) ltac:(lia) ltac:(lia))
    as (q2 & E2 & Hq2 & Hl2 & Hc2 & Hs2).
  erewrite qbind_run by exact E2. exists q2. unfold mret, io_ret. split; [done|]. split; [done|]. split; [done|]. split; [done|].
  intros k Hk. rewrite Hs2 by done. rewrite Z.add_0_r, Z2Nat.id by lia. case_decide; done.
Qed.

Lemma contents_count q q' : (forall k, 0 <= k < available_packets_count q -> slot q' k = slot q k) ->
  available_packets_count q' = available_packets_count q -> contents q' = contents q.
Proof.
  intros Hs Hc. unfold contents. rewrite Hc. apply list_fmap_ext. intros i k Hk. apply lookup_seqZ in Hk. apply Hs. lia.
Qed.

Lemma map_shift {A} (f g : Z -> A) n m : 0 <= n -> (forall k, 0 <= k < n -> f (m + k) = g k) -> f <$> seqZ m n = g <$> seqZ 0 n.
Proof.
  intros Hn He. replace m with (m + 0) at 1 by lia. rewrite <- fmap_add_seqZ, <- list_fmap_compose. apply list_fmap_ext.
  intros i k Hk. apply lookup_seqZ in Hk. apply He. lia.
Qed.
Lemma packet_at_concat ps i : Forall (fun p : list Z => length p = 4%nat) ps -> (i < length ps)%nat ->
  ps !! i = Some (packet_at (concat ps) (Z.of_nat i)).
Proof.
  intros Hp. revert i. induction Hp as [|p ps Hl Hps IH]; intros i Hi; cbn in Hi; [lia|]. destruct i as [|i]; cbn [lookup list_lookup concat].
  - unfold packet_at. rewrite drop_0, take_app_le, take_ge by lia. done.
  - rewrite IH by lia. f_equal. unfold packet_at. rewrite drop_app_ge by lia. do 2 f_equal. lia.
Qed.

Lemma packets_of_concat ps : Forall (fun p : list Z => length p = 4%nat) ps -> packets_of (concat ps) (Z.of_nat (length ps)) = ps.
Proof.
  intros Hp. unfold packets_of. apply list_eq. intros i. destruct (decide (i < length ps)%nat) as [Hi|Hi].
  - rewrite list_lookup_fmap, lookup_seqZ_lt by lia. cbn. by rewrite (packet_at_concat ps i Hp Hi).
  - rewrite !lookup_ge_None_2; rewrite ?length_fmap, ?length_seqZ; try lia. done.
Qed.

Lemma length_concat_packets ps : Forall (fun p : list Z => length p = 4%nat) ps -> Z.of_nat (length (concat ps)) = Z.of_nat (length ps) * 4.
Proof. induction 1 as [|p ps Hp Hps IH]; cbn [concat length]; rewrite ?length_app; lia. Qed.

Lemma length_contents q : queue_ok q -> Z.of_nat (length (contents q)) = available_packets_count q.
Proof using size_multiple size_range. intros [Hb Hl Hc]. unfold contents. rewrite length_fmap, length_seqZ. lia. Qed.

Lemma split_seqZ {A} (f : Z -> A) n m : 0 <= n <= m -> f <$> seqZ 0 m = (f <$> seqZ 0 n) ++ (f <$> seqZ n (m - n)).
Proof. intros Hn. rewrite <- fmap_app. f_equal. replace m with (n + (m - n)) at 1 by lia. by rewrite seqZ_app by lia. Qed.

Lemma take_seqZ {A} (f : Z -> A) n m : 0 <= n <= m -> take (Z.to_nat n) (f <$> seqZ 0 m) = f <$> seqZ 0 n.
Proof. intros Hn. rewrite (split_seqZ f n m Hn). apply take_app_length'. by rewrite length_fmap, length_seqZ. Qed.

Lemma drop_seqZ {A} (f : Z -> A) n m : 0 <= n <= m -> drop (Z.to_nat n) (f <$> seqZ 0 m) = f <$> seqZ n (m - n).
Proof. intros Hn. rewrite (split_seqZ f n m Hn). apply drop_app_length'. by rewrite length_fmap, length_seqZ. Qed.

(** A queue whose counted places are those of [q] and then [w] packets. *)
Lemma contents_written q q' src w : queue_ok q -> 0 <= w -> available_packets_count q' = available_packets_count q + w ->
  (forall k, 0 <= k < available_packets_count q + w ->
    slot q' k = if decide (available_packets_count q <= k) then packet_at src (k - available_packets_count q) else slot q k) ->
  contents q' = contents q ++ packets_of src w.
Proof using size_multiple size_range.
  intros [Hb Hl Hc] Hw Hn Hs. unfold contents, packets_of. rewrite Hn.
  rewrite (split_seqZ _ (available_packets_count q)) by lia. f_equal.
  - apply list_fmap_ext. intros i k Hk. apply lookup_seqZ in Hk. rewrite Hs, decide_False by lia. done.
  - replace (_ + w - _) with w by lia. apply map_shift; [lia|]. intros k Hk. rewrite Hs, decide_True by lia. f_equal. lia.
Qed.

(** What a run of [n] reads from the queue, and what it leaves. *)
Lemma Read_leave_run q n : queue_ok q -> 0 <= n <= available_packets_count q ->
  exists q', Read_leave n (set_location ((location q + n) mod CAP) q) = inr (tt, q') /\ queue_ok q' /\ contents q' = drop (Z.to_nat n) (contents q).
Proof using size_multiple size_range.
  intros Hq Hn. pose proof CAP_size as [_ HC]. pose proof (count_in _ Hq). eexists; split; [reflexivity|].
  cbn [available_packets_count set_location]. rewrite wrap_small by lia. split.
  { destruct (advanced_ok q n Hq). split; cbn in *; auto. lia. }
  unfold contents. cbn [available_packets_count set_count]. rewrite drop_seqZ by lia. symmetry. apply map_shift; [lia|].
  intros k Hk. rewrite <- (slot_advanced q n k). done.
Qed.
Local Abbreviation len l := (Z.of_nat (length l)).

Lemma packets_of_take ps w : Forall (fun p : list Z => length p = 4%nat) ps -> 0 <= w ->
  packets_of (concat ps) (Z.min (len ps) w) = take (Z.to_nat w) ps.
Proof.
  intros Hp Hw. rewrite <- (packets_of_concat ps Hp) at 3. unfold packets_of. destruct (Z.le_ge_cases w (len ps)).
  - rewrite take_seqZ by lia. do 2 f_equal. lia.
  - rewrite take_ge by (rewrite length_fmap, length_seqZ; lia). do 2 f_equal. lia.
Qed.

(** A read alone, of [n] packets that are there. *)
Lemma Read_run q n : queue_ok q -> 0 <= n <= available_packets_count q -> exists q',
  (Read_loop BUFFER_SIZE (Z.to_nat n) ≫= fun bytes => Read_leave n ≫= fun _ => mret (Bytes (n * PACKET_SIZE), bytes)) q =
    inr ((Bytes (n * 4), concat (take (Z.to_nat n) (contents q))), q') /\ queue_ok q' /\ contents q' = drop (Z.to_nat n) (contents q).
Proof using size_multiple size_range.
  intros Hq Hn. destruct (Read_leave_run q n Hq Hn) as (q' & E & Hq' & Hc). exists q'. split; [|done].
  erewrite qbind_run by (by apply Read_loop_run). rewrite Z2Nat.id by lia. erewrite qbind_run by exact E.
  unfold mret, io_ret, contents. by rewrite take_seqZ by lia.
Qed.

(** ** The queue alone *)

(** C17: A queue that one caller uses at a time is first in first out: a write
    appends the packets for which there is room and answers how many bytes that
    is, a read returns the oldest packets, as many as asked for or as there
    are, and removes them. *)
Theorem keyboard_queue_fifo q : queue_ok q ->
  (forall ps, Forall (fun p : list Z => length p = 4%nat) ps ->
     let room := CAP - len (contents q) in
     exists q', Write BUFFER_SIZE (len ps * 4) (concat ps) q = inr (Bytes (Z.min (len ps) room * 4), q') /\ queue_ok q' /\
       contents q' = contents q ++ take (Z.to_nat room) ps) /\
  (forall n : nat,
     exists q', Read BUFFER_SIZE (Z.of_nat n * 4) q =
         inr ((Bytes (Z.min (Z.of_nat n) (len (contents q)) * 4), concat (take n (contents q))), q') /\ queue_ok q' /\
       contents q' = drop n (contents q)).
Proof using size_multiple size_range.
  intros Hq. rewrite length_contents by done. pose proof (count_in _ Hq) as Hc. split.
  - intros ps Hp. pose proof (length_concat_packets ps Hp).
    destruct (written_run q (len ps * 4) (concat ps) Hq ltac:(apply Z.mod_mul; lia) ltac:(lia)) as (q' & E & Hq' & Hl & Hn & Hs).
    rewrite Z.div_mul in * by lia. exists q'. split; [done|]. split; [done|].
    rewrite <- packets_of_take by (done || lia). apply contents_written; auto; [lia|].
    intros k Hk. rewrite Hs by lia. repeat case_decide; try lia; done.
  - intros n. unfold Read, Read_enter, PACKET_SIZE. pose proof (length_contents q Hq) as Hlen.
    destruct (Z.eqb_spec (available_packets_count q) 0) as [H0|H0].
    { exists q. destruct (contents q); [|cbn in Hlen; lia]. rewrite take_nil, drop_nil, Z.min_r, H0 by lia. done. }
    rewrite Z.mod_mul, Z.div_mul by lia. cbn [Z.eqb negb]. destruct (Z.ltb_spec (available_packets_count q) (Z.of_nat n)).
    + destruct (Read_run q (available_packets_count q) Hq ltac:(lia)) as (q' & E & Hq' & Hn). exists q'.
      rewrite Z.min_r, (take_ge _ n), (drop_ge _ n) by lia. rewrite take_ge in E by lia. rewrite drop_ge in Hn by lia. done.
    + destruct (Read_run q (Z.of_nat n) Hq ltac:(lia)) as (q' & E & Hq' & Hn). exists q'. rewrite Z.min_l by lia. rewrite Nat2Z.id in *. done.
Qed.

(** ** A write in the middle of a read *)

(** What lies behind the last packet of the queue. *)
Definition stale (q : Buffer) (j : nat) : list (list Z) := slot q <$> seqZ (available_packets_count q) (Z.of_nat j).

Lemma take_stale q j ps w : Forall (fun p : list Z => length p = 4%nat) ps -> 0 <= w <= len ps ->
  take (Z.to_nat w) (stale q j ++ ps) =
    (fun k => if decide (k < Z.of_nat j) then slot q (available_packets_count q + k) else packet_at (concat ps) (k - Z.of_nat j)) <$> seqZ 0 w.
Proof using size_multiple size_range.
  intros Hp Hw. set (g := fun k => _).
  assert (Hs : stale q j = g <$> seqZ 0 (Z.of_nat j)).
  { unfold stale. apply map_shift; [lia|]. intros k Hk. unfold g. by rewrite decide_True by lia. }
  rewrite Hs. destruct (Z.le_ge_cases w (Z.of_nat j)).
  { rewrite take_app_le by (rewrite length_fmap, length_seqZ; lia). by rewrite take_seqZ by lia. }
  rewrite (split_seqZ g (Z.of_nat j) w) by lia. rewrite take_app_ge by (rewrite length_fmap, length_seqZ; lia). f_equal.
  rewrite length_fmap, length_seqZ. replace (Z.to_nat w - Z.to_nat (Z.of_nat j))%nat with (Z.to_nat (w - Z.of_nat j)) by lia.
  rewrite <- packets_of_take by (done || lia). rewrite Z.min_r by lia. symmetry. apply map_shift; [lia|].
  intros k Hk. unfold g. rewrite decide_False by lia. f_equal. lia.
Qed.

(** When an interrupt writes to the queue while a read has copied [j] of its
    [n] packets, the read returns what it should, but [location] has moved and
    the count has not: the packets written are [j] places too far, behind [j]
    old ones, which will be read in their stead, and as many of the new ones
    are lost. *)
Theorem write_inside_read q (n j : nat) ps : queue_ok q -> (j <= n)%nat -> Z.of_nat n <= len (contents q) ->
  Forall (fun p : list Z => length p = 4%nat) ps ->
  let w := Z.min (len ps) (CAP - len (contents q)) in
  exists q', interrupted_Read BUFFER_SIZE n j (len ps * 4) (concat ps) q =
      inr ((Bytes (w * 4), concat (take n (contents q))), q') /\ queue_ok q' /\
    contents q' = drop n (contents q) ++ take (Z.to_nat w) (stale q j ++ ps).
Proof using size_multiple size_range.
  intros Hq Hj. rewrite length_contents by done. intros Hn Hp w. pose proof (length_concat_packets ps Hp). pose proof CAP_size as [_ HC].
  pose proof (count_in _ Hq) as Hc. unfold interrupted_Read. erewrite qbind_run by (by apply Read_loop_run).
  set (q1 := set_location _ q). assert (Hq1 : queue_ok q1) by (by apply advanced_ok).
  destruct (written_run q1 (len ps * 4) (concat ps) Hq1 ltac:(apply Z.mod_mul; lia) ltac:(lia)) as (q2 & E & Hq2 & Hl2 & Hn2 & Hs2).
  rewrite Z.div_mul in * by lia. change (available_packets_count q1) with (available_packets_count q) in *. fold w in E, Hn2, Hs2.
  erewrite qbind_run by exact E. erewrite qbind_run by (by apply Read_loop_run).
  assert (Hl : (location q2 + Z.of_nat (n - j)) mod CAP = (location q + Z.of_nat n) mod CAP).
  { rewrite Hl2. cbn [q1 set_location location]. rewrite Zplus_mod_idemp_l. f_equal. lia. }
  assert (Hsl : forall k, 0 <= k < CAP -> slot q2 k = if decide (available_packets_count q <= k < available_packets_count q + w)
      then packet_at (concat ps) (k - available_packets_count q) else slot q (Z.of_nat j + k)).
  { intros k Hk. rewrite Hs2 by done. case_decide; [done|]. apply slot_advanced. }
  set (q3 := set_location _ q2). assert (Hq3 : queue_ok q3) by (by apply advanced_ok).
  eexists. split; [erewrite qbind_run by reflexivity; unfold mret, io_ret; do 3 f_equal; rewrite <- concat_app; f_equal|split].
  - unfold contents. rewrite <- (Nat2Z.id n), take_seqZ, Nat2Z.id by lia. rewrite (split_seqZ (slot q) (Z.of_nat j) (Z.of_nat n)) by lia.
    f_equal. replace (Z.of_nat (n - j)) with (Z.of_nat n - Z.of_nat j) by lia. symmetry. apply map_shift; [lia|].
    intros k Hk. rewrite Hsl, decide_False by lia. done.
  - destruct Hq3. split; cbn in *; auto. rewrite wrap_small by lia. lia.
  - rewrite take_stale by (done || lia). pose proof (slot_advanced q2 (Z.of_nat (n - j))) as Ha. fold q3 in Ha.
    unfold contents. rewrite <- (Nat2Z.id n), drop_seqZ, Nat2Z.id by lia. cbn [set_count available_packets_count q3 set_location]. rewrite Hn2, wrap_small by lia.
    rewrite (split_seqZ _ (available_packets_count q - Z.of_nat n)) by lia. f_equal; [symmetry; apply map_shift; [lia|]|].
    + intros k Hk. change (slot (set_count _ q3) k) with (slot q3 k). rewrite Ha, Hsl, decide_False by lia. f_equal. lia.
    + replace (_ + w - _ - _) with w by lia. apply map_shift; [lia|]. intros k Hk. change (slot (set_count _ q3)) with (slot q3).
      rewrite Ha, Hsl by lia. repeat case_decide; try lia; f_equal; lia.
Qed.

(** ** A reader and a writer at once *)

(** What each of the two may rely on. *)
Definition reader_ok (q : Buffer) (r : reader) : Prop :=
  match r with Outside => True | Copying rest total _ => 0 <= rest <= total /\ total <= available_packets_count q end.
Definition writer_ok (q : Buffer) (w : writer) : Prop :=
  match w with
  | Away => True
  | Loaded a n src => available_packets_count q <= a /\ 0 <= n <= CAP - a /\ n * 4 <= len src
  | Filling a i n src => 0 <= a /\ 0 <= i <= n /\ a + n <= CAP /\ n * 4 <= len src
  end.
Definition system_ok (s : system) : Prop := queue_ok (queue s) /\ reader_ok (queue s) (reading s) /\ writer_ok (queue s) (writing s).

Lemma counted_ok q n : queue_ok q -> 0 <= n <= CAP -> queue_ok (set_count n q).
Proof. intros [Hb Hl Hc] Hn. by split. Qed.

Lemma step_ok s s' : step BUFFER_SIZE s s' -> system_ok s -> system_ok s'.
Proof using size_multiple size_range.
  pose proof CAP_size as [_ HC]. intros H (Hq & Hr & Hw).
  destruct H as [q w count n Hz E|q q' w rest total out bytes Hl E|q q' w total out E|q r count src a n Hlen E|q q' r a n src E|q q' r a i n src Hi E|];
    cbn [queue reading writing] in *; pose proof (count_in _ Hq) as Hc.
  - split; [done|]. split; [|done]. unfold Read_enter, PACKET_SIZE in E.
    destruct (Z.eqb_spec (available_packets_count q) 0); [done|]. destruct (negb _); [done|]. injection E as <-. cbn.
    pose proof (Z.div_pos count 4 ltac:(lia) ltac:(lia)).
    destruct (Z.ltb_spec (available_packets_count q) (count / 4)); lia.
  - rewrite Read_packet_run in E by done. injection E as <- <-. split; [by apply advanced_ok|]. cbn in *. split; [lia|done].
  - injection E as <-. cbn in Hr. rewrite wrap_small by lia. split; [apply counted_ok; [done|lia]|]. split; [done|].
    destruct w; cbn in *; auto. lia.
  - split; [done|]. split; [done|]. unfold Write_enter, PACKET_SIZE in E. cbn.
    destruct (negb _); [done|]. destruct (Z.eqb_spec (CAP - available_packets_count q) 0); [done|]. injection E as <- <-.
    pose proof (Z.div_mod count 4 ltac:(lia)). pose proof (Z.mod_pos_bound count 4 ltac:(lia)).
    destruct (Z.ltb_spec (CAP - available_packets_count q) (count / 4)); lia.
  - injection E as <-. cbn in Hw. rewrite wrap_small by lia. split; [apply counted_ok; [done|lia]|]. cbn. split; [|lia].
    destruct r; cbn in *; auto. lia.
  - cbn in Hw. destruct (Write_packet_run q a i src Hq ltac:(lia) ltac:(lia) ltac:(lia) ltac:(lia)) as (q1 & E1 & Hq1 & _ & Hn1 & _).
    rewrite E1 in E. injection E as <-. split; [done|]. split; [destruct r; cbn in *; auto; lia|cbn; lia].
  - done.
Qed.

Lemma system_reachable s s' : rtc (step BUFFER_SIZE) s s' -> system_ok s -> system_ok s'.
Proof using size_multiple size_range. induction 1; eauto using step_ok. Qed.

(** Whatever the order in which a reader and a writer, each under its own
    lock, go through the accesses of [Read] and [Write], the count stays between
    nothing and the capacity, a reader has never taken more than is counted, and
    every packet is copied within the buffer. *)
Theorem interleaved_accesses_stay_inside b s :
  len b = BUFFER_SIZE -> rtc (step BUFFER_SIZE) (mkSystem (new_Buffer b) Outside Away) s ->
  let q := queue s in
  0 <= available_packets_count q <= CAP /\ 0 <= location q < CAP /\
  match reading s with
  | Outside => True
  | Copying rest total _ => total <= available_packets_count q /\ exists bytes q', Read_packet BUFFER_SIZE q = inr (bytes, q')
  end /\
  match writing s with
  | Filling a i n src => i < n -> exists q', Write_packet BUFFER_SIZE a i src q = inr (tt, q')
  | _ => True
  end.
Proof using size_multiple size_range.
  intros Hb Hs. pose proof CAP_size as [_ HC]. apply system_reachable in Hs.
  2: { split; [split; cbn; lia|done]. }
  destruct Hs as (Hq & Hr & Hw). cbv zeta. pose proof (count_in _ Hq). pose proof (location_in _ Hq). split; [done|]. split; [done|]. split.
  - destruct (reading s); cbn in Hr; [done|]. split; [lia|]. rewrite Read_packet_run by done. eauto.
  - destruct (writing s) as [| |a i n src]; cbn in Hw; [done..|]. intros Hi.
    destruct (Write_packet_run (queue s) a i src Hq ltac:(lia) ltac:(lia) ltac:(lia) ltac:(lia)) as (q1 & E1 & _). eauto.
Qed.
End Queue.

(** ** Instances: a queue of four packets *)

Definition small_queue : Buffer := mkBuffer ([1;1;1;1] ++ [2;2;2;2] ++ [3;3;3;3] ++ [4;4;4;4]) 1 2.

Lemma small_queue_ok : queue_ok 16 small_queue.
Proof. split; cbn; change (CAPACITY 16) with 4; lia. Qed.

Lemma keyboard_queue_fifo_witness :
  exists q', Write 16 12 [5;5;5;5;6;6;6;6;7;7;7;7] small_queue = inr (Bytes 8, q') /\ queue_ok 16 q' /\
    contents 16 q' = [[2;2;2;2]; [3;3;3;3]; [5;5;5;5]; [6;6;6;6]].
Proof.
  destruct (keyboard_queue_fifo 16 eq_refl ltac:(lia) small_queue small_queue_ok) as [Hw _].
  exact (Hw [[5;5;5;5]; [6;6;6;6]; [7;7;7;7]] ltac:(repeat constructor)).
Defined.

(** The packet written is lost, and one read long ago comes back. *)
Lemma write_inside_read_witness :
  exists q', interrupted_Read 16 1 1 4 [5;5;5;5] small_queue = inr ((Bytes 4, [2;2;2;2]), q') /\ queue_ok 16 q' /\
    contents 16 q' = [[3;3;3;3]; [4;4;4;4]].
Proof.
  apply (write_inside_read 16 eq_refl ltac:(lia) small_queue 1 1 [[5;5;5;5]] small_queue_ok); [lia|vm_compute; discriminate|repeat constructor].
Defined.

(** A reader enters, then a writer, and each copies a packet. *)
Lemma interleaved_accesses_stay_inside_witness :
  let b := replicate 16 0 in
  exists s, rtc (step 16) (mkSystem (new_Buffer b) Outside Away) s /\ writing s = Filling 0 0 1 [5;5;5;5] /\
    0 <= available_packets_count (queue s) <= 4 /\ exists q', Write_packet 16 0 0 [5;5;5;5] (queue s) = inr (tt, q').
Proof.
  cbv zeta. eexists (mkSystem _ Outside (Filling 0 0 1 [5;5;5;5])).
  assert (H : rtc (step 16) (mkSystem (new_Buffer (replicate 16 0)) Outside Away)
    (mkSystem (mkBuffer (replicate 16 0) 0 1) Outside (Filling 0 0 1 [5;5;5;5]))).
  { eapply rtc_l; [by apply (Step_write_enter 16 _ _ 4 [5;5;5;5] 0 1)|]. apply rtc_once. by constructor. }
  split; [exact H|]. split; [done|].
  destruct (interleaved_accesses_stay_inside 16 eq_refl ltac:(lia) (replicate 16 0) _ eq_refl H) as (Hc & _ & _ & Hw).
  split; [exact Hc|]. apply Hw. reflexivity.
Defined.

(** ** Key codes *)

(** Every key point of the tables of the scan codes has its place in the map. *)
Definition has_code (kp : Z) : bool := (0 <=? kp) && (kp <? Z.of_nat (length KeyboardDispatcher_KeycodeMap)).

Lemma tables_have_codes : forallb has_code
  (scan_code_set_1_keypoints ++ ext_1_scan_code_set_1_keypoints ++ scan_code_set_2_keypoints ++
   ext_1_scan_code_set_2_keypoints ++ scan_code_set_3_keypoints ++
   [ext_2_scan_code_set_1_keypoint; ext_3_scan_code_set_1_keypoint; ext_2_scan_code_set_2_keypoint; ext_3_scan_code_set_2_keypoint]) = true.
Proof. vm_compute. reflexivity. Qed.
