(* ===== verification/Interrupts.v ===== *)
(** * Component: the interrupt table and its vectors
    ([kernel/src/interrupts/IDT.cpp], [InterruptProvider.cpp])

    The gates of the processor's table, the providers the dispatcher calls, and
    the bitmap of the vectors in use. The bitmap is indexed with [1 << (i % 64)],
    a shift of a 32-bit [int]: what it gives for a count of 32 or more is not
    defined by the language, so it is the parameter [undefined_shift]. *)
From S2P Require Import Prelude.

Record IDTDescriptor := mkGate {
  offset0_15 : Z; segmentSelector : Z; gate_flags : Z; offset16_31 : Z; offset32_63 : Z; reserved : Z }.

Inductive INTDPL := DPL0 | DPL1 | DPL2 | DPL3.
Inductive INTTYPE := EXCEPTION | TRAP.

Definition FLAGS_PRESENT : Z := 0x8000.
Definition FLAGS_DPL0 : Z := 0x0000.
Definition FLAGS_DPL1 : Z := 0x2000.
Definition FLAGS_DPL2 : Z := 0x4000.
Definition FLAGS_DPL3 : Z := 0x6000.
Definition FLAGS_EXCEPTION : Z := 0x0E00.
Definition FLAGS_TRAP : Z := 0x0F00.
Definition SS_CODE_KERNEL_GDT : Z := 0x0008.
Definition SOFTWARE_YIELD_IRQ : Z := 0x21.

Record Idt := mkIdt { IDT : Z -> IDTDescriptor; providers : Z -> option Z; int_usage_map : Z -> Z }.

Definition static_Idt : Idt := mkIdt (fun _ => mkGate 0 0 0 0 0 0) (fun _ => None) (fun _ => 0).

Definition set_gate (n : Z) (g : IDTDescriptor) (s : Idt) : Idt := mkIdt (<[n := g]> (IDT s)) (providers s) (int_usage_map s).
Definition set_provider (n : Z) (p : option Z) (s : Idt) : Idt := mkIdt (IDT s) (<[n := p]> (providers s)) (int_usage_map s).
Definition set_usage (n w : Z) (s : Idt) : Idt := mkIdt (IDT s) (providers s) (<[n := w]> (int_usage_map s)).

Definition modify (f : Idt -> Idt) : io Idt unit := fun s => inr (tt, f s).
(** [int_usage_map[i / 64]], of four words. *)
Definition usage_word (i : Z) : io Idt Z := fun s =>
  let w := Z.quot i 64 in if (0 <=? w) && (w <? 4) then inr (int_usage_map s w, s) else inl WildAccess.

(** Who takes the interrupt; nobody is a panic. *)
Definition IDT_INTERRUPT_DISPATCHER (vector_number : Z) (s : Idt) : option Z := providers s vector_number.

(** [InterruptTrampoline::HandleIRQ]: the function called, if there is one. *)
Definition Trampoline_HandleIRQ (handler : option Z) : option Z := handler.

Definition dpl_flags (dpl : INTDPL) : Z :=
  match dpl with DPL0 => FLAGS_DPL0 | DPL1 => FLAGS_DPL1 | DPL2 => FLAGS_DPL2 | DPL3 => FLAGS_DPL3 end.
Definition type_flags (type : INTTYPE) : Z := match type with EXCEPTION => FLAGS_EXCEPTION | TRAP => FLAGS_TRAP end.

Definition gate (handler : Z) (dpl : INTDPL) (type : INTTYPE) : IDTDescriptor :=
  mkGate (u16 handler) SS_CODE_KERNEL_GDT (Z.lor (Z.lor FLAGS_PRESENT (dpl_flags dpl)) (type_flags type))
    (u16 (Z.shiftr handler 16)) (u32 (Z.shiftr handler 32)) 0.

(** The array has 256 gates, and no test guards it. *)
Definition registerCoreInterrupt (intn handler : Z) (dpl : INTDPL) (type : INTTYPE) : io Idt unit :=
  if (0 <=? intn) && (intn <? 256) then modify (set_gate intn (gate handler dpl type)) else stop WildAccess.

Definition registerProvider (intn : Z) (provider : option Z) : io Idt unit :=
  if intn <? 0x100 then modify (set_provider intn provider) else mret tt.

Section Vectors.
Context (undefined_shift : Z -> Z) (IDT_STUB_TABLE : Z -> Z).

(** [1 << n], extended to the 64 bits it is combined with. *)
Definition one_shl (n : Z) : Z := u64 (signed 32 (if (0 <=? n) && (n <? 32) then Z.shiftl 1 n else undefined_shift n)).

Definition ReserveKnownInterrupt (i : Z) : io Idt unit :=
  if i <? 0x100 then usage_word i ≫= fun w => modify (set_usage (Z.quot i 64) (Z.lor w (one_shl (Z.rem i 64)))) else mret tt.

Fixpoint find_vector (l : list Z) : io Idt Z :=
  match l with
  | [] => mret (-1)
  | i :: l =>
      usage_word i ≫= fun w =>
      if Z.land w (one_shl (Z.rem i 64)) =? 0 then ReserveKnownInterrupt i ≫= fun _ => mret i else find_vector l
  end.
Definition ReserveInterrupt : io Idt Z := find_vector (seqZ 0 0x100).

Definition ReleaseInterrupt (i : Z) : io Idt unit :=
  if i <? 0x100 then
    usage_word i ≫= fun w =>
    modify (set_usage (Z.quot i 64) (Z.land w (bnot 64 (one_shl (Z.rem i 64))))) ≫= fun _ =>
    if 0 <=? i then modify (set_provider i None) else stop WildAccess
  else mret tt.

Fixpoint each (l : list Z) (f : Z -> io Idt unit) : io Idt unit :=
  match l with [] => mret tt | i :: l => f i ≫= fun _ => each l f end.

Definition kernel_idt_setup (page_fault_trampoline : Z) : io Idt unit :=
  registerProvider 14 (Some page_fault_trampoline) ≫= fun _ =>
  each (seqZ 0 0x100) (fun i => registerCoreInterrupt i (IDT_STUB_TABLE i) DPL0 EXCEPTION) ≫= fun _ =>
  each (seqZ 0 0x20) ReserveKnownInterrupt ≫= fun _ =>
  ReserveKnownInterrupt SOFTWARE_YIELD_IRQ.

Definition ForceIRQHandler (interruptVector handler : Z) : io Idt unit := registerCoreInterrupt interruptVector handler DPL0 EXCEPTION.

Definition ReleaseIRQ (interruptVector : Z) : io Idt unit :=
  if interruptVector <? 0x100 then registerCoreInterrupt interruptVector (IDT_STUB_TABLE interruptVector) DPL0 EXCEPTION else mret tt.

(** [interruptVector] is an [unsigned int], which becomes an [int]. *)
Definition RegisterIRQ (interruptVector provider : Z) : io Idt unit :=
  ReserveKnownInterrupt (signed 32 interruptVector) ≫= fun _ => registerProvider interruptVector (Some provider).
End Vectors.

(** What an x86 processor computes: the count of a 32-bit shift is its low five
    bits. *)
Definition x86_shift (n : Z) : Z := Z.shiftl 1 (n mod 32).
