(* ===== verification/InterruptsProps.v ===== *)
(** * Gates, and who holds which vector *)
From S2P Require Import Interrupts Prelude.

(** ** Gates *)

(** The address the processor takes from a gate. *)
Definition gate_handler (g : IDTDescriptor) : Z :=
  Z.lor (offset0_15 g) (Z.lor (Z.shiftl (offset16_31 g) 16) (Z.shiftl (offset32_63 g) 32)).

Lemma gate_handler_gate handler dpl type : 0 <= handler < 2 ^ 64 -> gate_handler (gate handler dpl type) = handler.
Proof.
  intros Hh. unfold gate_handler, gate. cbn [offset0_15 offset16_31 offset32_63]. apply Z.bits_inj'. intros i Hi.
  rewrite !Z.lor_spec, !Z.shiftl_spec, !wrap_testbit by lia.
  destruct (Z.lt_ge_cases i 16) as [|H16].
  { rewrite !(Z.testbit_neg_r _ (i - _)), (proj2 (Z.ltb_lt i 16)) by lia. by rewrite !andb_false_r, !orb_false_r. }
  rewrite (proj2 (Z.ltb_ge i 16)) by lia. destruct (Z.lt_ge_cases i 32) as [|H32].
  { rewrite (Z.testbit_neg_r _ (i - 32)), Z.shiftr_spec, (proj2 (Z.ltb_lt (i - 16) 16)) by lia.
    rewrite andb_false_r, orb_false_r. cbn. f_equal. lia. }
  rewrite !Z.shiftr_spec, (proj2 (Z.ltb_ge (i - 16) 16)) by lia.
  destruct (Z.ltb_spec (i - 32) 32); cbn; [f_equal; lia|]. symmetry. apply (testbit_high 64); lia.
Qed.

Lemma io_bind_run {W A B} (m : io W A) (f : A -> io W B) w x w' : m w = inr (x, w') -> (m ≫= f) w = f x w'.
Proof. intros E. unfold mbind, io_bind. by rewrite E. Qed.

(** Forcing a handler makes the gate of its vector a present interrupt gate
    of the kernel that leads to the handler, and releasing it makes the gate
    lead back to its stub; no other gate, no provider and no vector changes. *)
Theorem forced_gate stubs v handler s :
  0 <= v < 256 -> 0 <= handler < 2 ^ 64 -> 0 <= stubs v < 2 ^ 64 ->
  exists s1 s2, ForceIRQHandler v handler s = inr (tt, s1) /\ ReleaseIRQ stubs v s1 = inr (tt, s2) /\
    gate_handler (IDT s1 v) = handler /\ gate_flags (IDT s1 v) = 0x8E00 /\ segmentSelector (IDT s1 v) = 8 /\
    gate_handler (IDT s2 v) = stubs v /\
    (forall u, u <> v -> IDT s1 u = IDT s u /\ IDT s2 u = IDT s u) /\
    providers s2 = providers s /\ int_usage_map s2 = int_usage_map s.
Proof.
  intros Hv Hh Hs. unfold ForceIRQHandler, ReleaseIRQ, registerCoreInterrupt.
  rewrite (proj2 (Z.leb_le 0 v)), (proj2 (Z.ltb_lt v 256)) by lia. cbn [andb]. do 2 eexists.
  do 2 (split; [reflexivity|]). cbn [set_gate IDT providers int_usage_map]. rewrite !fn_lookup_insert.
  rewrite !gate_handler_gate by lia. do 4 (split; [done|]). split; [|done].
  intros u Hu. by rewrite !fn_lookup_insert_ne by done.
Qed.

(** ** Vectors in use *)

Section Vectors.
Context (stubs : Z -> Z).
Local Abbreviation mask := (one_shl x86_shift).

Lemma mask_testbit n i : 0 <= n < 64 -> 0 <= i ->
  Z.testbit (mask n) i = if n mod 32 =? 31 then (31 <=? i) && (i <? 64) else i =? n mod 32.
Proof.
  intros Hn Hi. assert (Hm : mask n = if n mod 32 =? 31 then Z.shiftl (Z.ones 33) 31 else Z.shiftl 1 (n mod 32)).
  { pose proof (forallb_seqZ (fun n => mask n =? if n mod 32 =? 31 then Z.shiftl (Z.ones 33) 31 else Z.shiftl 1 (n mod 32)) 0 64 ltac:(by vm_compute) n ltac:(lia)) as Hf.
    by apply Z.eqb_eq. }
  rewrite Hm. destruct (n mod 32 =? 31).
  - rewrite Z.shiftl_spec by lia. destruct (Z.leb_spec 31 i).
    + rewrite Z.testbit_ones by lia. bool_cases; try lia; done.
    + by rewrite Z.testbit_neg_r by lia.
  - apply testbit_1_shiftl. apply Z.mod_pos_bound. lia.
Qed.

(** A word of the map: its bits from 31 up are one. *)
Definition word_ok (w : Z) : Prop := 0 <= w < 2 ^ 64 /\ forall i, 31 <= i < 64 -> Z.testbit w i = Z.testbit w 31.
(** The bit that stands for a vector, which it shares with the one 32 away. *)
Definition used (s : Idt) (v : Z) : bool := Z.testbit (int_usage_map s (v / 64)) (v mod 32).
Definition map_ok (s : Idt) : Prop := forall w, 0 <= w < 4 -> word_ok (int_usage_map s w).

Lemma mod_32_64 v : (v mod 64) mod 32 = v mod 32.
Proof. zdiv. Qed.

Lemma hit_word w n : word_ok w -> 0 <= n < 64 -> (Z.land w (mask n) =? 0) = negb (Z.testbit w (n mod 32)).
Proof.
  intros [Hr Hw] Hn. pose proof (Z.mod_pos_bound n 32 ltac:(lia)) as Hm. apply Bool.eq_true_iff_eq. rewrite Z.eqb_eq, negb_true_iff. split.
  - intros H. apply (f_equal (fun z => Z.testbit z (n mod 32))) in H. rewrite Z.land_spec, mask_testbit, Z.bits_0 in H by lia.
    destruct (Z.eqb_spec (n mod 32) 31) as [E|E]; [rewrite E in *; by rewrite andb_true_r in H|by rewrite Z.eqb_refl, andb_true_r in H].
  - intros H. apply Z.bits_inj'. intros i Hi. rewrite Z.land_spec, mask_testbit, Z.bits_0 by lia.
    destruct (Z.eqb_spec (n mod 32) 31) as [E|E].
    + destruct (Z.leb_spec 31 i), (Z.ltb_spec i 64); cbn; rewrite ?andb_false_r; try done. rewrite Hw by lia. rewrite E in H. by rewrite H.
    + destruct (Z.eqb_spec i (n mod 32)) as [->|]; [by rewrite H|by rewrite andb_false_r].
Qed.

Lemma mask_range n : 0 <= mask n < 2 ^ 64.
Proof. apply wrap_range. lia. Qed.

Lemma lor_word w n : word_ok w -> 0 <= n < 64 -> word_ok (Z.lor w (mask n)) /\
  forall i, 0 <= i < 32 -> Z.testbit (Z.lor w (mask n)) i = Z.testbit w i || (i =? n mod 32).
Proof.
  intros [Hr Hw] Hn. pose proof (Z.mod_pos_bound n 32 ltac:(lia)). split; [split|].
  - apply lor_range; [lia|done|apply mask_range].
  - intros i Hi. rewrite !Z.lor_spec, !mask_testbit, Hw by lia. f_equal. bool_cases; lia || done.
  - intros i Hi. rewrite Z.lor_spec, mask_testbit by lia. f_equal. bool_cases; lia || done.
Qed.

Lemma clear_word w n : word_ok w -> 0 <= n < 64 -> word_ok (Z.land w (bnot 64 (mask n))) /\
  forall i, 0 <= i < 32 -> Z.testbit (Z.land w (bnot 64 (mask n))) i = Z.testbit w i && negb (i =? n mod 32).
Proof.
  intros [Hr Hw] Hn. pose proof (Z.mod_pos_bound n 32 ltac:(lia)). split; [split|].
  - apply land_range; [lia|done].
  - intros i Hi. rewrite !Z.land_spec, !bnot_testbit, !mask_testbit, Hw by lia. f_equal. bool_cases; lia || done.
  - intros i Hi. rewrite Z.land_spec, bnot_testbit, mask_testbit by lia. f_equal. bool_cases; lia || done.
Qed.

Definition same_bit (v i : Z) : bool := (v / 64 =? i / 64) && (v mod 32 =? i mod 32).

Lemma quarter v : 0 <= v < 256 -> 0 <= v / 64 < 4.
Proof. intros. split; [apply Z.div_pos; lia|apply Z.div_lt_upper_bound; lia]. Qed.

Lemma usage_word_run i s : 0 <= i < 256 -> usage_word i s = inr (int_usage_map s (i / 64), s).
Proof.
  intros Hi. pose proof (quarter i Hi). unfold usage_word. rewrite Z.quot_div_nonneg by lia.
  rewrite (proj2 (Z.leb_le 0 (i / 64))), (proj2 (Z.ltb_lt (i / 64) 4)) by lia. done.
Qed.

Lemma used_set_usage w n f s v : map_ok s -> 0 <= n < 256 -> w = n / 64 -> word_ok (f (int_usage_map s w)) ->
  map_ok (set_usage w (f (int_usage_map s w)) s) /\
  used (set_usage w (f (int_usage_map s w)) s) v = if v / 64 =? w then Z.testbit (f (int_usage_map s w)) (v mod 32) else used s v.
Proof.
  intros Hs Hn -> Hf. split.
  - intros u Hu. cbn. destruct (decide (n / 64 = u)) as [<-|]; [by rewrite fn_lookup_insert|by rewrite fn_lookup_insert_ne; auto].
  - unfold used. cbn. destruct (Z.eqb_spec (v / 64) (n / 64)) as [->|]; [by rewrite fn_lookup_insert|by rewrite fn_lookup_insert_ne].
Qed.

Lemma known_run i s : map_ok s -> 0 <= i < 256 -> exists s', ReserveKnownInterrupt x86_shift i s = inr (tt, s') /\ map_ok s' /\
  IDT s' = IDT s /\ providers s' = providers s /\ forall v, used s' v = used s v || same_bit v i.
Proof.
  intros Hs Hi. unfold ReserveKnownInterrupt. rewrite (proj2 (Z.ltb_lt i _)) by lia.
  erewrite io_bind_run by (by apply usage_word_run). rewrite Z.quot_div_nonneg, Z.rem_mod_nonneg by lia. pose proof (quarter i Hi).
  pose proof (Z.mod_pos_bound i 64 ltac:(lia)).
  destruct (lor_word (int_usage_map s (i / 64)) (i mod 64) (Hs (i / 64) ltac:(lia)) ltac:(lia)) as [Hw Hb].
  destruct (used_set_usage (i / 64) i (fun w => Z.lor w (mask (i mod 64))) s 0 Hs Hi eq_refl Hw) as [Hs' _].
  eexists. split; [reflexivity|]. split; [done|]. do 2 (split; [done|]). intros v.
  rewrite (proj2 (used_set_usage (i / 64) i (fun w => Z.lor w (mask (i mod 64))) s v Hs Hi eq_refl Hw)).
  unfold same_bit. destruct (Z.eqb_spec (v / 64) (i / 64)) as [E|]; [|by rewrite orb_false_r].
  rewrite Hb, mod_32_64 by (apply Z.mod_pos_bound; lia). unfold used. by rewrite E.
Qed.

Lemma release_run i s : map_ok s -> 0 <= i < 256 -> exists s', ReleaseInterrupt x86_shift i s = inr (tt, s') /\ map_ok s' /\
  IDT s' = IDT s /\ providers s' = <[i := None]> (providers s) /\ forall v, used s' v = used s v && negb (same_bit v i).
Proof.
  intros Hs Hi. unfold ReleaseInterrupt. rewrite (proj2 (Z.ltb_lt i _)) by lia.
  erewrite io_bind_run by (by apply usage_word_run). rewrite Z.quot_div_nonneg, Z.rem_mod_nonneg by lia. pose proof (quarter i Hi).
  pose proof (Z.mod_pos_bound i 64 ltac:(lia)).
  destruct (clear_word (int_usage_map s (i / 64)) (i mod 64) (Hs (i / 64) ltac:(lia)) ltac:(lia)) as [Hw Hb].
  set (f := fun w => Z.land w (bnot 64 (mask (i mod 64)))) in *.
  destruct (used_set_usage (i / 64) i f s 0 Hs Hi eq_refl Hw) as [Hs' _].
  erewrite io_bind_run by reflexivity. rewrite (proj2 (Z.leb_le 0 i)) by lia. eexists. split; [reflexivity|].
  split; [exact Hs'|]. do 2 (split; [done|]). intros v.
  transitivity (used (set_usage (i / 64) (f (int_usage_map s (i / 64))) s) v); [done|].
  rewrite (proj2 (used_set_usage (i / 64) i f s v Hs Hi eq_refl Hw)).
  unfold same_bit. destruct (Z.eqb_spec (v / 64) (i / 64)) as [E|]; [|by rewrite andb_true_r].
  unfold f in *. rewrite Hb, mod_32_64 by (apply Z.mod_pos_bound; lia). unfold used. by rewrite E.
Qed.

Lemma find_vector_run l s : map_ok s -> Forall (fun i => 0 <= i < 256) l ->
  (Forall (fun i => used s i = true) l /\ find_vector x86_shift l s = inr (-1, s)) \/
  exists before i after s', l = before ++ i :: after /\ Forall (fun i => used s i = true) before /\ used s i = false /\
    find_vector x86_shift l s = inr (i, s') /\ ReserveKnownInterrupt x86_shift i s = inr (tt, s').
Proof.
  intros Hs. induction 1 as [|i l Hi Hl IH]; [by left|]. cbn [find_vector]. erewrite io_bind_run by (by apply usage_word_run).
  pose proof (quarter i Hi). pose proof (Z.mod_pos_bound i 64 ltac:(lia)). rewrite Z.rem_mod_nonneg, hit_word, mod_32_64 by (auto; lia).
  change (Z.testbit _ (i mod 32)) with (used s i). destruct (used s i) eqn:Hu; cbn [negb].
  - destruct IH as [[H1 H2]|(b & j & a & s' & -> & H2 & H3 & H4 & H5)]; [left; auto|right].
    exists (i :: b), j, a, s'. auto.
  - right. destruct (known_run i s Hs Hi) as (s' & E & _). exists [], i, l, s'. erewrite io_bind_run by exact E. auto.
Qed.

(** The lowest free vector. *)
Lemma ReserveInterrupt_run s : map_ok s ->
  exists r s', ReserveInterrupt x86_shift s = inr (r, s') /\
  ((r = -1 /\ s' = s) \/
   (0 <= r < 256 /\ used s r = false /\ (forall i, 0 <= i < r -> used s i = true) /\ ReserveKnownInterrupt x86_shift r s = inr (tt, s'))).
Proof.
  intros Hs. unfold ReserveInterrupt.
  assert (Hf : Forall (fun i => 0 <= i < 256) (seqZ 0 256)) by (apply Forall_seqZ; lia).
  destruct (find_vector_run _ s Hs Hf) as [[_ E]|(b & i & a & s' & El & Hb & Hu & E & Ek)]; [eauto 6|].
  exists i, s'. split; [done|]. right.
  assert (Hi : seqZ 0 256 !! length b = Some i) by (rewrite El; apply list_lookup_middle; done). apply lookup_seqZ in Hi.
  split; [lia|]. split; [done|]. split; [|done]. intros j Hj. rewrite Forall_lookup in Hb. apply (Hb (Z.to_nat j)).
  assert (Hj2 : seqZ 0 256 !! Z.to_nat j = Some j) by (apply lookup_seqZ; lia).
  rewrite El, lookup_app_l in Hj2 by lia. done.
Qed.

(** ** The vectors a driver may be given *)

Definition usable (v : Z) : Prop := 64 <= v < 256 /\ v mod 64 < 32.

(** What the kernel does with vectors from its start, and those it holds. *)
Inductive holding : Idt -> list Z -> Prop :=
| holds_none trampoline s : kernel_idt_setup x86_shift stubs trampoline static_Idt = inr (tt, s) -> holding s []
| holds_reserved s l r s' : holding s l -> ReserveInterrupt x86_shift s = inr (r, s') -> holding s' (if r <? 0 then l else r :: l)
| holds_registered s l v p s' : holding s l -> 0 <= v < 256 -> RegisterIRQ x86_shift v p s = inr (tt, s') -> holding s' l
| holds_released s l1 v l2 s' : holding s (l1 ++ v :: l2) -> ReleaseInterrupt x86_shift v s = inr (tt, s') -> holding s' (l1 ++ l2).

Lemma each_cons i l f s x s' : f i s = inr (x, s') -> each (i :: l) f s = each l f s'.
Proof. intros E. cbn [each]. by erewrite io_bind_run by exact E. Qed.

Lemma gates_run f l s : Forall (fun i => 0 <= i < 256) l ->
  exists s', each l (fun i => registerCoreInterrupt i (f i) DPL0 EXCEPTION) s = inr (tt, s') /\ int_usage_map s' = int_usage_map s.
Proof.
  intros Hl. revert s. induction Hl as [|i l Hi Hl IH]; intros s; [by exists s|].
  erewrite each_cons by (unfold registerCoreInterrupt; rewrite (proj2 (Z.leb_le 0 i)), (proj2 (Z.ltb_lt i 256)) by lia; reflexivity).
  destruct (IH (set_gate i (gate (f i) DPL0 EXCEPTION) s)) as (s' & E & Hu). by exists s'.
Qed.

Lemma knowns_run l s : map_ok s -> Forall (fun i => 0 <= i < 256) l ->
  exists s', each l (ReserveKnownInterrupt x86_shift) s = inr (tt, s') /\ map_ok s' /\
    forall v, used s' v = used s v || existsb (same_bit v) l.
Proof.
  intros Hs Hl. revert s Hs. induction Hl as [|i l Hi Hl IH]; intros s Hs; [exists s; split; [done|split; [done|]]; intros v; cbn; by rewrite orb_false_r|].
  destruct (known_run i s Hs Hi) as (s1 & E1 & Hs1 & _ & _ & Hu1). erewrite each_cons by exact E1.
  destruct (IH s1 Hs1) as (s2 & E2 & Hs2 & Hu2). exists s2. split; [done|]. split; [done|]. intros v.
  cbn [existsb]. by rewrite Hu2, Hu1, orb_assoc.
Qed.

Lemma setup_run t : exists s, kernel_idt_setup x86_shift stubs t static_Idt = inr (tt, s) /\ map_ok s /\
  forall v, 0 <= v < 64 -> used s v = true.
Proof.
  unfold kernel_idt_setup. erewrite io_bind_run by reflexivity.
  destruct (gates_run stubs (seqZ 0 256) (set_provider 14 (Some t) static_Idt)) as (s1 & E1 & Hu1); [apply Forall_seqZ; lia|].
  erewrite io_bind_run by exact E1.
  assert (Hs1 : map_ok s1). { intros w Hw. rewrite Hu1. cbn. split; [lia|]. intros i Hi. by rewrite !Z.bits_0. }
  destruct (knowns_run (seqZ 0 32) s1 Hs1) as (s2 & E2 & Hs2 & Hu2); [apply Forall_seqZ; lia|].
  erewrite io_bind_run by exact E2. destruct (known_run SOFTWARE_YIELD_IRQ s2 Hs2 ltac:(unfold SOFTWARE_YIELD_IRQ; lia)) as (s3 & E3 & Hs3 & _ & _ & Hu3).
  exists s3. split; [done|]. split; [done|]. intros v Hv. rewrite Hu3, Hu2.
  rewrite (proj2 (existsb_seqZ (same_bit v) 0 32)); [by rewrite orb_true_r|]. exists (v mod 32).
  pose proof (Z.mod_pos_bound v 32 ltac:(lia)). split; [lia|]. unfold same_bit.
  rewrite (Z.mod_small (v mod 32)), Z.eqb_refl, (Z.div_small v), (Z.div_small (v mod 32)) by lia. done.
Qed.

Lemma usable_bits u v : usable u -> usable v -> same_bit u v = true -> u = v.
Proof.
  unfold usable, same_bit. intros [Hu Hu2] [Hv Hv2] [H1%Z.eqb_eq H2%Z.eqb_eq]%andb_prop.
  assert (forall x, x mod 64 < 32 -> x mod 32 = x mod 64) as Hm by (intros; zdiv). rewrite !Hm in H2 by done.
  rewrite (Z.div_mod u 64), (Z.div_mod v 64) by lia. lia.
Qed.

(** The lowest vector that is free is one that may be given. *)
Lemma reserved_usable s r : (forall v, 0 <= v < 64 -> used s v = true) -> 0 <= r < 256 -> used s r = false ->
  (forall i, 0 <= i < r -> used s i = true) -> usable r.
Proof.
  intros Hlow Hr Hu Hb. split; [destruct (Z.lt_ge_cases r 64); [rewrite Hlow in Hu by lia; done|lia]|].
  destruct (Z.lt_ge_cases (r mod 64) 32) as [|Hge]; [done|exfalso].
  assert (H64 : (r - 32) / 64 = r / 64 /\ (r - 32) mod 32 = r mod 32).
  { split; [symmetry; apply (Z.div_unique _ _ _ (r mod 64 - 32)); pose proof (Z.div_mod r 64 ltac:(lia)); pose proof (Z.mod_pos_bound r 64 ltac:(lia)); lia|].
    rewrite <- (Z.mod_add (r - 32) 1 32) by lia. f_equal. lia. }
  specialize (Hb (r - 32)). unfold used in *. destruct H64 as [E1 E2]. rewrite E1, E2, Hu in Hb.
  pose proof (Z.mod_le r 64). assert (64 <= r) by (destruct (Z.lt_ge_cases r 64); [rewrite Hlow in Hu by lia; done|lia]). discriminate Hb. lia.
Qed.

Record holding_ok (s : Idt) (l : list Z) : Prop := {
  held_map : map_ok s;
  held_low : forall v, 0 <= v < 64 -> used s v = true;
  held_once : NoDup l;
  held_usable : Forall usable l;
  held_used : Forall (fun v => used s v = true) l }.

Lemma holding_inv s l : holding s l -> holding_ok s l.
Proof.
  induction 1 as [t s E|s l r s' H IH E|s l v p s' H IH Hv E|s l1 v l2 s' H IH E].
  - destruct (setup_run t) as (s1 & E1 & Hs & Hl). rewrite E1 in E. injection E as <-. split; auto using NoDup_nil_2.
  - destruct IH as [Hs Hl Hn Hu Hd]. destruct (ReserveInterrupt_run s Hs) as (r1 & s1 & E1 & Hr). rewrite E1 in E. injection E as -> ->.
    destruct Hr as [[-> ->]|(Hr & Hf & Hb & Ek)]; [by split|]. rewrite (proj2 (Z.ltb_ge r 0)) by lia.
    destruct (known_run r s Hs Hr) as (s2 & E2 & Hs2 & _ & _ & Hu2). rewrite E2 in Ek. injection Ek as ->.
    split; auto.
    + intros v Hv. by rewrite Hu2, Hl.
    + constructor; [|done]. intros Hin. rewrite Forall_forall in Hd. specialize (Hd r Hin). congruence.
    + constructor; [|done]. by apply (reserved_usable s).
    + constructor; [rewrite Hu2; unfold same_bit; by rewrite !Z.eqb_refl, orb_true_r|]. eapply Forall_impl; [exact Hd|]. cbn. intros v Hv. by rewrite Hu2, Hv.
  - destruct IH as [Hs Hl Hn Hu Hd]. unfold RegisterIRQ in E.
    assert (Hsg : signed 32 v = v). { unfold signed. cbv zeta. rewrite wrap_small by lia. by rewrite (proj2 (Z.ltb_lt v (2 ^ (32 - 1)))) by lia. }
    rewrite Hsg in E. destruct (known_run v s Hs Hv) as (s2 & E2 & Hs2 & _ & _ & Hu2). erewrite io_bind_run in E by exact E2.
    unfold registerProvider in E. rewrite (proj2 (Z.ltb_lt v _)) in E by lia. injection E as <-.
    assert (Hu3 : forall u, used s u = true -> used (set_provider v (Some p) s2) u = true). { intros u Hh. change (used s2 u = true). by rewrite Hu2, Hh. }
    split; auto. by eapply Forall_impl; [exact Hd|].
  - destruct IH as [Hs Hl Hn Hu Hd]. apply NoDup_app in Hn as (Hn1 & Hn12 & [Hv2 Hn2]%NoDup_cons).
    rewrite Forall_app, Forall_cons in Hu, Hd. destruct Hu as (Hu1 & Huv & Hu2), Hd as (Hd1 & Hdv & Hd2).
    destruct (release_run v s Hs ltac:(unfold usable in Huv; lia)) as (s2 & E2 & Hs2 & _ & _ & Hr). rewrite E2 in E. injection E as <-.
    assert (Hk : forall u, used s u = true -> same_bit u v = false -> used s2 u = true). { intros u Hh Hne. by rewrite Hr, Hh, Hne. }
    assert (Hk2 : forall u, usable u -> u <> v -> same_bit u v = false).
    { intros u Hh Hne. apply not_true_iff_false. intros Hsb. by apply Hne, usable_bits. }
    split; auto.
    + intros u Hlow. apply Hk; [by apply Hl|]. unfold same_bit. rewrite (Z.div_small u 64) by lia. unfold usable in Huv.
      assert (1 <= v / 64) by (apply Z.div_le_lower_bound; lia). by rewrite (proj2 (Z.eqb_neq 0 (v / 64))) by lia.
    + apply NoDup_app. split; [done|]. split; [|done]. intros x Hx Hx2. apply (Hn12 x Hx). by right.
    + by apply Forall_app.
    + rewrite Forall_forall in Hu1, Hu2, Hd1, Hd2. apply Forall_app. rewrite !Forall_forall. split; intros u Hin; apply Hk; auto; apply Hk2; auto.
      * intros ->. apply (Hn12 v Hin). by left.
      * by intros ->.
Qed.

(** C24: Whatever the order in which vectors are reserved, registered and
    released after the table is set up, no vector is held twice, none is that of
    an exception, and no more than 96 of the 256 are ever held: on the processor
    the bit of a vector is also that of the one 32 away. *)
Theorem vectors_held_once s l : holding s l ->
  NoDup l /\ Forall (fun v => 64 <= v < 256 /\ v mod 64 < 32) l /\ (length l <= 96)%nat.
Proof.
  intros H. apply holding_inv in H as [Hs Hl Hn Hu Hd]. split; [done|]. split; [done|].
  change 96%nat with (length (filter (fun v => bool_decide (64 <= v /\ v mod 64 < 32)) (seqZ 0 256))).
  apply submseteq_length. apply NoDup_submseteq; [done|]. intros v Hv. rewrite Forall_forall in Hu. destruct (Hu v Hv) as [Hr Hm].
  apply list_elem_of_filter. split; [|apply elem_of_seqZ; lia]. apply bool_decide_pack. lia.
Qed.
End Vectors.

(** ** From the start of the kernel *)

Definition stub (i : Z) : Z := 0x1000 + i.

Fixpoint reserve_many (n : nat) : io Idt (list Z) :=
  match n with O => mret [] | S n => ReserveInterrupt x86_shift ≫= fun v => reserve_many n ≫= fun l => mret (v :: l) end.

(** What a run answers and the state it leaves. *)
Definition answer {A} (m : io Idt A) (s : Idt) : option A := match m s with inl _ => None | inr (x, _) => Some x end.
Definition after {A} (m : io Idt A) (s : Idt) : Idt := match m s with inl _ => s | inr (_, s') => s' end.

Lemma run_after {A} (m : io Idt A) s x : answer m s = Some x -> m s = inr (x, after m s).
Proof. unfold answer, after. destruct (m s) as [|[y s']]; [done|]. by intros [= ->]. Qed.

(** Reserved one after the other, the vectors of the lower half of each
    group of 64 but the first are given, 96 in all, then none: the other half,
    and the 32 vectors after the exceptions, can never be. *)
Theorem half_the_vectors_lost :
  answer (kernel_idt_setup x86_shift stub 0 ≫= fun _ => reserve_many 97) static_Idt =
    Some (seqZ 64 32 ++ seqZ 128 32 ++ seqZ 192 32 ++ [-1]).
Proof. vm_compute. reflexivity. Qed.

Definition booted : Idt := after (kernel_idt_setup x86_shift stub 0) static_Idt.

Definition one_held : Idt := after (ReserveInterrupt x86_shift) booted.
Definition two_held : Idt := after (ReserveInterrupt x86_shift) one_held.
Definition one_released : Idt := after (ReleaseInterrupt x86_shift 64) two_held.

Lemma booted_run : kernel_idt_setup x86_shift stub 0 static_Idt = inr (tt, booted).
Proof. exact (run_after (kernel_idt_setup x86_shift stub 0) static_Idt tt ltac:(vm_compute; reflexivity)). Qed.
Lemma one_held_run : ReserveInterrupt x86_shift booted = inr (64, one_held).
Proof. exact (run_after (ReserveInterrupt x86_shift) booted 64 ltac:(vm_compute; reflexivity)). Qed.
Lemma two_held_run : ReserveInterrupt x86_shift one_held = inr (65, two_held).
Proof. exact (run_after (ReserveInterrupt x86_shift) one_held 65 ltac:(vm_compute; reflexivity)). Qed.
Lemma one_released_run : ReleaseInterrupt x86_shift 64 two_held = inr (tt, one_released).
Proof. exact (run_after (ReleaseInterrupt x86_shift 64) two_held tt ltac:(vm_compute; reflexivity)). Qed.

Lemma vectors_held_once_witness :
  holding stub one_released [65] /\ NoDup [65] /\ used one_released 64 = false /\ used one_released 65 = true.
Proof.
  assert (H : holding stub one_released [65]).
  { apply (holds_released stub two_held [65] 64 [] _); [|exact one_released_run].
    apply (holds_reserved stub one_held [64] 65); [|exact two_held_run].
    apply (holds_reserved stub booted [] 64); [|exact one_held_run].
    apply (holds_none stub 0), booted_run. }
  split; [exact H|]. split; [apply (vectors_held_once stub one_released [65] H)|]. split; vm_compute; reflexivity.
Defined.

Lemma forced_gate_witness :
  exists s1, ForceIRQHandler 64 0xFFFF80001234ABCD static_Idt = inr (tt, s1) /\ gate_handler (IDT s1 64) = 0xFFFF80001234ABCD.
Proof.
  destruct (forced_gate stub 64 0xFFFF80001234ABCD static_Idt ltac:(lia) ltac:(lia) ltac:(unfold stub; lia)) as (s1 & s2 & E & _ & Hg & _).
  by exists s1.
Defined.
