(* ===== verification/Apic.v ===== *)
(** * Component: the interrupt controllers
    ([kernel/src/interrupts/APIC.cpp], [kernel/include/interrupts/APIC.hpp],
    [kernel/include/acpi/madt.hpp])

    The registers of the local and of the I/O interrupt controllers, the entries
    of the redirection tables, the table of the firmware that describes them
    (MADT), and the routing of the interrupts of devices. The registers and the
    rest of the kernel are the class [ApicHost]; a panic, which does not return,
    is an outcome of its own. The hash maps of the source are finite maps. *)
From S2P Require Import Prelude.

(** ** What a device asks of the controllers *)

Inductive IRQDeliveryMode := FIXED | LOWEST_PRIORITY | SMI | NMI | INIT | EXT_INIT.
Inductive IRQDestinationMode := Physical | Logical.
Inductive IRQPolarity := ACTIVE_HIGH | ACTIVE_LOW | POLARITY_RESERVED.
Inductive IRQTrigger := EDGE | LEVEL | TRIGGER_RESERVED.

Record IRQDescriptor := mkIRQ {
  InterruptVector : Z; Delivery : IRQDeliveryMode; DestinationMode : IRQDestinationMode;
  Polarity : IRQPolarity; Trigger : IRQTrigger; Masked : bool; Destination : Z }.

Inductive Timer_Mode := ONE_SHOT | PERIODIC | TSC_DEADLINE.
Inductive DivideConfiguration := BY_1 | BY_2 | BY_4 | BY_8 | BY_16 | BY_32 | BY_64 | BY_128.

Inductive LAPIC_Status := ONLINE | CAPABLE | DISABLED.
Record LAPIC := mkLAPIC { lapic_status : LAPIC_Status; lapic_flags : Z; lapic_id : Z; lapic_uid : Z }.
Record IOAPIC := mkIOAPIC { VirtualAddress : Z; PhysicalAddress : Z; ioapic_id : Z; GlobalSystemInterruptBase : Z }.

Inductive Override_Polarity := OP_CONFORM | OP_HIGH | OP_RESERVED | OP_LOW.
Inductive Override_Trigger := OT_CONFORM | OT_EDGE | OT_RESERVED | OT_LEVEL.
Record IntOverride := mkOverride { ov_polarity : Override_Polarity; ov_trigger : Override_Trigger; GlobalSystemInterrupt : Z }.

(** ** The machine and the kernel around *)

Class ApicHost (P : Type) := {
  lapic_read : Z -> P -> Z * P;               (* a register of the local controller *)
  lapic_write : Z -> Z -> P -> P;
  io_read : Z -> Z -> P -> Z * P;             (* address of an I/O controller, offset *)
  io_write : Z -> Z -> Z -> P -> P;
  FindTable : P -> option Z * P;
  MapTable : Z -> P -> option (Z * list Z) * P;   (* its address and what can be read there *)
  UnmapTable : Z -> P -> bool * P;
  MapGeneralPages : Z -> P -> option Z * P;
  has_memory : P -> bool * P;                 (* whether a map can grow *)
  AllocateProcessors : Z -> P -> bool * P;
  AddProcessor : Z -> Z -> bool -> bool -> P -> P;
  InitializePIC : P -> P;
  Apic_RegisterIRQ : Z -> P -> P;
  cpuid_edx : P -> Z * P;
  rdmsr : Z -> P -> Z * P }.

(** ** Runs that may panic *)

Inductive death := Panic | Fault (e : fault).

Record Apic (P : Type) := mkApic {
  PhysicalLocalAPIC : Z; LocalAPIC : option Z; LAPICs : gmap Z LAPIC; IOAPICs : gmap Z IOAPIC;
  InterruptOverrides : Z -> IntOverride; logicalID : Z; host : P }.
Arguments mkApic {P}. Arguments PhysicalLocalAPIC {P}. Arguments LocalAPIC {P}. Arguments LAPICs {P}.
Arguments IOAPICs {P}. Arguments InterruptOverrides {P}. Arguments logicalID {P}. Arguments host {P}.

Section Apic.
Context {P : Type} `{!ApicHost P}.

Definition AM (A : Type) : Type := Apic P -> death + A * Apic P.
#[global] Instance AM_ret : MRet AM := fun A x s => inr (x, s).
#[global] Instance AM_bind : MBind AM := fun A B f m s => match m s with inl e => inl e | inr (x, s) => f x s end.

Definition panic {A} : AM A := fun _ => inl Panic.
Definition die {A} (e : fault) : AM A := fun _ => inl (Fault e).
Definition or_die {A} (e : fault) (o : option A) : AM A := match o with Some x => mret x | None => die e end.
Definition get : AM (Apic P) := fun s => inr (s, s).
Definition modify (f : Apic P -> Apic P) : AM unit := fun s => inr (tt, f s).
Definition set_host (p : P) (s : Apic P) : Apic P :=
  mkApic (PhysicalLocalAPIC s) (LocalAPIC s) (LAPICs s) (IOAPICs s) (InterruptOverrides s) (logicalID s) p.
Definition call {A} (f : P -> A * P) : AM A := fun s => let '(x, p) := f (host s) in inr (x, set_host p s).
Definition call_ (f : P -> P) : AM unit := fun s => inr (tt, set_host (f (host s)) s).
Definition or_panic (b : bool) : AM unit := if b then mret tt else panic.
Definition check (m : AM bool) : AM unit := m ≫= or_panic.

(** ** The local controller: offsets of its registers, and its operations *)

Definition ID_REG : Z := 0x20.
Definition VER_REG : Z := 0x30.
Definition EOI_REG : Z := 0xB0.
Definition LDR : Z := 0xD0.
Definition SVR : Z := 0xF0.
Definition ESR : Z := 0x280.
Definition LVT_TIMER : Z := 0x320.
Definition TIMER_INITIAL_COUNT : Z := 0x380.
Definition TIMER_CURRENT_COUNT : Z := 0x390.
Definition TIMER_DIVIDE_CONFIGURATION : Z := 0x3E0.

(** An access through [LocalAPIC], which is null until it is mapped. *)
Definition local {A} (m : AM A) : AM A := get ≫= fun s => match LocalAPIC s with None => die NullAccess | Some _ => m end.
Definition lread (r : Z) : AM Z := local (call (lapic_read r)).
Definition lwrite (r v : Z) : AM unit := local (call_ (lapic_write r v)).

Definition GetLAPICID : AM Z := lread ID_REG ≫= fun v => mret (Z.land (Z.shiftr v 24) 0xFF).
Definition GetVersion : AM Z := lread VER_REG ≫= fun v => mret (Z.land v 0xFF).
Definition SendEOI : AM unit := lwrite EOI_REG 0.
Definition SetLogicalID (id : Z) : AM unit := lwrite LDR (u32 (Z.shiftl id 24)).
Definition GetLAPICLogicalID : AM Z := lread LDR ≫= fun v => mret (Z.land (Z.shiftr v 24) 0xFF).
Definition SetSVR (svr : Z) : AM unit := lwrite SVR svr.
Definition ResetESR : AM unit := lwrite ESR 0.

Definition timer_mode (mode : Timer_Mode) : Z := match mode with ONE_SHOT => 0 | PERIODIC => 1 | TSC_DEADLINE => 2 end.
Definition SetTimerLVT (vector : Z) (mode : Timer_Mode) : AM unit :=
  lwrite LVT_TIMER (Z.lor (Z.lor (Z.shiftl (timer_mode mode) 17) 0x00010000) vector).
Definition divide_value (config : DivideConfiguration) : Z :=
  match config with
  | BY_1 => 11 | BY_2 => 0 | BY_4 => 1 | BY_8 => 2 | BY_16 => 3 | BY_32 => 8 | BY_64 => 9 | BY_128 => 10
  end.
Definition SetTimerDivideConfiguration (config : DivideConfiguration) : AM unit := lwrite TIMER_DIVIDE_CONFIGURATION (divide_value config).
Definition SetTimerInitialCount (count : Z) : AM unit := lwrite TIMER_INITIAL_COUNT count.
Definition GetTimerCurrentCount : AM Z := lread TIMER_CURRENT_COUNT.
Definition UnmaskTimerLVT : AM unit := lread LVT_TIMER ≫= fun v => lwrite LVT_TIMER (Z.land v (bnot 32 0x00010000)).
Definition MaskTimerLVT : AM unit := lread LVT_TIMER ≫= fun v => lwrite LVT_TIMER (Z.lor v 0x00010000).

(** ** An I/O controller: an index register and a window *)

Definition IOAPICID : Z := 0.
Definition IOAPICVER : Z := 1.
Definition IOAPICARB : Z := 2.
Definition IOREDTBL : Z := 0x10.
Definition RTE_MASK : Z := 0x10000.
Definition IOREGSEL : Z := 0.
Definition IOWIN : Z := 0x10.

Section IoApic.
Context (io : Z).

Definition ioread (r : Z) : AM Z := call_ (io_write io IOREGSEL r) ≫= fun _ => call (io_read io IOWIN).
Definition iowrite (r v : Z) : AM unit := call_ (io_write io IOREGSEL r) ≫= fun _ => call_ (io_write io IOWIN v).
(** [IOWIN op= x] once the register is selected. *)
Definition ioupdate (r : Z) (f : Z -> Z) : AM unit :=
  call_ (io_write io IOREGSEL r) ≫= fun _ => call (io_read io IOWIN) ≫= fun v => call_ (io_write io IOWIN (f v)).

Definition SetID (ID : Z) : AM unit := iowrite IOAPICID (u32 (Z.shiftl (Z.land ID 0xF) 24)).
Definition GetID : AM Z := ioread IOAPICID ≫= fun v => mret (Z.land (Z.shiftr v 24) 0xF).
Definition IoApic_GetVersion : AM Z := ioread IOAPICVER ≫= fun v => mret (Z.land v 0xFF).
Definition GetRedirectionsCount : AM Z := ioread IOAPICVER ≫= fun v => mret (u16 (Z.land (Z.shiftr v 16) 0xFF + 1)).
Definition GetArbitrationID : AM Z := ioread IOAPICARB ≫= fun v => mret (Z.land (Z.shiftr v 24) 0xF).

Definition GetRedirectionEntry (index : Z) : AM Z :=
  GetRedirectionsCount ≫= fun count =>
  if count <=? index then mret 0
  else
    ioread (IOREDTBL + index * 2) ≫= fun low =>
    ioread (IOREDTBL + index * 2 + 1) ≫= fun high => mret (Z.lor low (Z.shiftl high 32)).

Definition SetRedirectionEntry (index value : Z) : AM unit :=
  GetRedirectionsCount ≫= fun count =>
  if index <? count then
    iowrite (IOREDTBL + index * 2) (Z.land value 0xFFFFFFFF) ≫= fun _ =>
    iowrite (IOREDTBL + index * 2 + 1) (Z.land (Z.shiftr value 32) 0xFFFFFFFF)
  else mret tt.

Definition MaskRedirectionEntry (index : Z) : AM unit :=
  GetRedirectionsCount ≫= fun count =>
  if index <? count then ioupdate (IOREDTBL + index * 2) (fun v => Z.lor v RTE_MASK) else mret tt.

Definition UnmaskRedirectionEntry (index : Z) : AM unit :=
  GetRedirectionsCount ≫= fun count =>
  if index <? count then ioupdate (IOREDTBL + index * 2) (fun v => Z.land v (bnot 32 RTE_MASK)) else mret tt.

(** The mode's bits, and the descriptor it adjusts. *)
Definition ConvertDeliveryMode (d : IRQDescriptor) : Z * IRQDescriptor :=
  let edge v := mkIRQ v (Delivery d) (DestinationMode d) (Polarity d) EDGE (Masked d) (Destination d) in
  match Delivery d with
  | FIXED => (0x000, d)
  | LOWEST_PRIORITY => (0x100, d)
  | SMI => (0x200, edge 0)
  | NMI => (0x400, edge (InterruptVector d))
  | INIT => (0x500, edge (InterruptVector d))
  | EXT_INIT => (0x700, edge (InterruptVector d))
  end.

Definition ConvertDestinationMode (mode : IRQDestinationMode) : Z := match mode with Physical => 0x000 | Logical => 0x800 end.

Definition ConvertPolarity (polarity : IRQPolarity) (index : Z) : AM Z :=
  match polarity with
  | ACTIVE_HIGH => mret 0x0000
  | ACTIVE_LOW => mret 0x2000
  | POLARITY_RESERVED => GetRedirectionEntry index ≫= fun e => mret (Z.land e 0x2000)
  end.

Definition ConvertTrigger (trigger : IRQTrigger) (index : Z) : AM Z :=
  match trigger with
  | EDGE => mret 0x0000
  | LEVEL => mret 0x8000
  | TRIGGER_RESERVED => GetRedirectionEntry index ≫= fun e => mret (Z.land e 0x8000)
  end.

Definition ConvertDestination (destination : Z) (mode : IRQDestinationMode) : Z :=
  Z.shiftl (match mode with Physical => Z.land destination 0x0F | Logical => destination end) 56.

Definition SetupRedirectionEntry (index : Z) (d : IRQDescriptor) : AM unit :=
  GetRedirectionsCount ≫= fun count =>
  if index <? count then
    let '(mode, d) := ConvertDeliveryMode d in
    let rte := Z.lor (Z.lor mode (InterruptVector d)) (ConvertDestinationMode (DestinationMode d)) in
    ConvertPolarity (Polarity d) index ≫= fun polarity =>
    ConvertTrigger (Trigger d) index ≫= fun trigger =>
    let rte := Z.lor (Z.lor rte polarity) trigger in
    let rte := Z.lor (Z.lor rte (if Masked d then RTE_MASK else 0)) (ConvertDestination (Destination d) (DestinationMode d)) in
    SetRedirectionEntry index rte
  else mret tt.
End IoApic.

(** ** Routing *)

Fixpoint each_ioapic (l : list IOAPIC) (irq : Z) (f : Z -> Z -> AM unit) : AM unit :=
  match l with
  | [] => mret tt
  | a :: l =>
      let base := GlobalSystemInterruptBase a in
      GetRedirectionsCount (VirtualAddress a) ≫= fun rteCount =>
      (if (base <=? irq) && (irq <? u32 (base + rteCount)) then f (VirtualAddress a) (u8 (irq - base)) else mret tt) ≫= fun _ =>
      each_ioapic l irq f
  end.
Definition for_ioapics (irq : Z) (f : Z -> Z -> AM unit) : AM unit :=
  get ≫= fun s => each_ioapic ((map_to_list (IOAPICs s)).*2) irq f.

Definition global_interrupt (irq : Z) : AM Z :=
  get ≫= fun s => mret (if irq <? 0x100 then GlobalSystemInterrupt (InterruptOverrides s irq) else irq).

Definition MaskIRQ (irq : Z) : AM unit := global_interrupt irq ≫= fun irq => for_ioapics irq MaskRedirectionEntry.
Definition UnmaskIRQ (irq : Z) : AM unit := global_interrupt irq ≫= fun irq => for_ioapics irq UnmaskRedirectionEntry.

(** The polarity and the trigger of an override take the place of those asked
    for. *)
Definition overridden (o : IntOverride) (d : IRQDescriptor) : IRQDescriptor :=
  mkIRQ (InterruptVector d) (Delivery d) (DestinationMode d)
    (match ov_polarity o with OP_CONFORM => Polarity d | OP_HIGH => ACTIVE_HIGH | OP_LOW => ACTIVE_LOW | OP_RESERVED => POLARITY_RESERVED end)
    (match ov_trigger o with OT_CONFORM => Trigger d | OT_EDGE => EDGE | OT_LEVEL => LEVEL | OT_RESERVED => TRIGGER_RESERVED end)
    (Masked d) (Destination d).

Definition SetupIRQ (irq : Z) (descriptor : IRQDescriptor) : AM unit :=
  get ≫= fun s =>
  let descriptor := if irq <? 0x100 then overridden (InterruptOverrides s irq) descriptor else descriptor in
  global_interrupt irq ≫= fun irq => for_ioapics irq (fun a pin => SetupRedirectionEntry a pin descriptor).

(** ** The table of the firmware

    [table] is what can be read from the address of the table on. *)

Definition MADT_Length : Z := 4.       (* hdr.Length *)
Definition MADT_LocalInterruptControlAddress : Z := 36.
Definition MADT_Flags : Z := 40.
Definition SIZEOF_MADT : Z := 44.
Definition LocalAPIC_Type : Z := 0x00.
Definition IOAPIC_Type : Z := 0x01.
Definition InterruptSourceOverride_Type : Z := 0x02.
Definition APICOverride_Type : Z := 0x05.
Definition PCAT_COMPAT : Z := 1.
Definition APIC_ONLINE : Z := 1.
Definition APIC_CAPABLE : Z := 2.

Section Madt.
Context (madt : Z) (table : list Z).

Definition field (i n : Z) : AM Z := or_die WildAccess (load_le table i n).

(** The first pass: how many local controllers there are. *)
Fixpoint count_lapics (fuel : nat) (length i lapic_count : Z) : AM Z :=
  if length <=? i then mret lapic_count
  else
    match fuel with
    | O => die Hang
    | S fuel =>
        field i 1 ≫= fun type =>
        field (i + 1) 1 ≫= fun len =>
        count_lapics fuel length (i + len) (if type =? LocalAPIC_Type then lapic_count + 1 else lapic_count)
    end.

Definition set_lapics (m : gmap Z LAPIC) (s : Apic P) : Apic P :=
  mkApic (PhysicalLocalAPIC s) (LocalAPIC s) m (IOAPICs s) (InterruptOverrides s) (logicalID s) (host s).
Definition set_ioapics (m : gmap Z IOAPIC) (s : Apic P) : Apic P :=
  mkApic (PhysicalLocalAPIC s) (LocalAPIC s) (LAPICs s) m (InterruptOverrides s) (logicalID s) (host s).
Definition set_overrides (o : Z -> IntOverride) (s : Apic P) : Apic P :=
  mkApic (PhysicalLocalAPIC s) (LocalAPIC s) (LAPICs s) (IOAPICs s) o (logicalID s) (host s).
Definition set_physical (a : Z) (s : Apic P) : Apic P :=
  mkApic a (LocalAPIC s) (LAPICs s) (IOAPICs s) (InterruptOverrides s) (logicalID s) (host s).
Definition set_local (a : option Z) (s : Apic P) : Apic P :=
  mkApic (PhysicalLocalAPIC s) a (LAPICs s) (IOAPICs s) (InterruptOverrides s) (logicalID s) (host s).
Definition set_logical (v : Z) (s : Apic P) : Apic P :=
  mkApic (PhysicalLocalAPIC s) (LocalAPIC s) (LAPICs s) (IOAPICs s) (InterruptOverrides s) v (host s).

Definition add_lapic (i : Z) : AM unit :=
  field (i + 2) 1 ≫= fun uid =>
  field (i + 3) 1 ≫= fun id =>
  field (i + 4) 4 ≫= fun flags =>
  let isOnline := hasflag flags APIC_ONLINE in
  let isOnlineCapable := hasflag flags APIC_CAPABLE in
  let lapic := mkLAPIC (if isOnline then ONLINE else if isOnlineCapable then CAPABLE else DISABLED) flags id uid in
  check (call has_memory) ≫= fun _ =>
  modify (fun s => set_lapics (<[id := lapic]> (LAPICs s)) s) ≫= fun _ =>
  call_ (AddProcessor id uid isOnline isOnlineCapable).

Definition add_ioapic (i : Z) : AM unit :=
  field (i + 2) 1 ≫= fun id =>
  field (i + 4) 4 ≫= fun address =>
  field (i + 8) 4 ≫= fun base =>
  call (MapGeneralPages address) ≫= fun vaddr =>
  match vaddr with
  | None => panic
  | Some vaddr =>
      SetID vaddr id ≫= fun _ =>
      check (call has_memory) ≫= fun _ =>
      modify (fun s => set_ioapics (<[id := mkIOAPIC vaddr address id base]> (IOAPICs s)) s)
  end.

Definition override_polarity (flags : Z) : Override_Polarity :=
  let f := Z.land flags 3 in if f =? 0 then OP_CONFORM else if f =? 1 then OP_HIGH else if f =? 2 then OP_RESERVED else OP_LOW.
Definition override_trigger (flags : Z) : Override_Trigger :=
  let f := Z.land flags 12 in if f =? 0 then OT_CONFORM else if f =? 4 then OT_EDGE else if f =? 8 then OT_RESERVED else OT_LEVEL.

(** [Flags] is declared with 32 bits, two bytes more than the entry has. *)
Definition add_override (i : Z) : AM unit :=
  field (i + 3) 1 ≫= fun source =>
  field (i + 4) 4 ≫= fun gsi =>
  field (i + 8) 4 ≫= fun flags =>
  modify (fun s => set_overrides (<[source := mkOverride (override_polarity flags) (override_trigger flags) gsi]> (InterruptOverrides s)) s).

Definition parse_entry (type i : Z) : AM unit :=
  if type =? LocalAPIC_Type then add_lapic i
  else if type =? IOAPIC_Type then add_ioapic i
  else if type =? InterruptSourceOverride_Type then add_override i
  else if type =? APICOverride_Type then modify (set_physical (madt + i))
  else mret tt.

(** The second pass. *)
Fixpoint parse_entries (fuel : nat) (length i : Z) : AM unit :=
  if length <=? i then mret tt
  else
    match fuel with
    | O => die Hang
    | S fuel =>
        field i 1 ≫= fun type =>
        parse_entry type i ≫= fun _ =>
        field (i + 1) 1 ≫= fun len => parse_entries fuel length (i + len)
    end.
End Madt.

Fixpoint remap_pic (n : nat) (i : Z) : AM unit :=
  match n with
  | O => mret tt
  | S n => call_ (Apic_RegisterIRQ (0x20 + i)) ≫= fun _ => call_ (Apic_RegisterIRQ (0x28 + i)) ≫= fun _ => remap_pic n (i + 1)
  end.

Definition Apic_Initialize (fuel : nat) : AM unit :=
  modify (set_overrides (fun i => mkOverride OP_CONFORM OT_CONFORM i)) ≫= fun _ =>
  call FindTable ≫= fun physical_madt =>
  match physical_madt with
  | None => panic
  | Some physical_madt =>
      call (MapTable physical_madt) ≫= fun mapped =>
      match mapped with
      | None => panic
      | Some (madt, table) =>
          field table MADT_LocalInterruptControlAddress 4 ≫= fun address =>
          modify (set_physical address) ≫= fun _ =>
          field table MADT_Flags 4 ≫= fun flags =>
          (if hasflag flags PCAT_COMPAT then remap_pic 8 0 ≫= fun _ => call_ InitializePIC else mret tt) ≫= fun _ =>
          field table MADT_Length 4 ≫= fun length =>
          count_lapics table fuel length SIZEOF_MADT 0 ≫= fun lapic_count =>
          check (call (AllocateProcessors lapic_count)) ≫= fun _ =>
          parse_entries madt table fuel length SIZEOF_MADT ≫= fun _ =>
          check (call (UnmapTable madt)) ≫= fun _ =>
          get ≫= fun s =>
          call (MapGeneralPages (PhysicalLocalAPIC s)) ≫= fun vaddr =>
          modify (set_local vaddr) ≫= fun _ =>
          match vaddr with None => panic | Some _ => mret tt end
      end
  end.

(** ** The controller of the processor *)

Definition ReserveLogicalID : AM Z :=
  get ≫= fun s => modify (set_logical (u8 (Z.shiftl (logicalID s) 1))) ≫= fun _ => mret (logicalID s).

Definition APIC_FLAG : Z := 0x00000200.
Definition xAPIC_GLOBAL_ENABLE : Z := 0x00000800.
Definition SVR_CONFIG : Z := 0x000001FF.
Definition SPURIOUS_IRQ_VECTOR : Z := 0xFF.

Definition SetupLocalAPIC : AM unit :=
  call cpuid_edx ≫= fun edx =>
  or_panic (hasflag edx APIC_FLAG) ≫= fun _ =>
  call (rdmsr 0x01B) ≫= fun apic_base =>
  or_panic (hasflag apic_base xAPIC_GLOBAL_ENABLE) ≫= fun _ =>
  GetLAPICID ≫= fun _ =>                                         (* for the log *)
  call_ (Apic_RegisterIRQ SPURIOUS_IRQ_VECTOR) ≫= fun _ =>
  SetSVR SVR_CONFIG ≫= fun _ => ResetESR ≫= fun _ => SendEOI ≫= fun _ =>
  ReserveLogicalID ≫= fun id => SetLogicalID id ≫= fun _ =>
  GetLAPICLogicalID ≫= fun logicalID =>
  (if logicalID =? 0 then mret tt else GetLAPICID ≫= fun _ => GetLAPICLogicalID ≫= fun _ => mret tt) ≫= fun _ =>
  GetLAPICID ≫= fun _ => mret tt.
End Apic.

Definition static_Apic {P} (p : P) : Apic P := mkApic 0 None ∅ ∅ (fun _ => mkOverride OP_CONFORM OT_CONFORM 0) 1 p.
