(* ===== verification/ApicProps.v ===== *)
(** * The table of the firmware, and the redirection entries *)
From S2P Require Import Apic Prelude.

Lemma abind_run {P} {A B} (m : AM A) (f : A -> AM B) (s s' : Apic P) x : m s = inr (x, s') -> (m ≫= f) s = f x s'.
Proof. intros E. unfold mbind, AM_bind. by rewrite E. Qed.

(** ** Fields of the table *)

Lemma load_le_skip pre l k n : 0 <= k -> load_le (pre ++ l) (Z.of_nat (length pre) + k) n = load_le l k n.
Proof.
  intros Hk. unfold load_le, load. rewrite length_app.
  replace (0 <=? Z.of_nat (length pre) + k) with (0 <=? k) by (bool_cases; lia || done).
  replace (Z.of_nat (length pre) + k + n <=? Z.of_nat (length pre + length l)) with (k + n <=? Z.of_nat (length l)) by (bool_cases; lia || done).
  destruct (_ && _); [|done]. do 3 f_equal. rewrite drop_app_ge by lia. f_equal. lia.
Qed.

Lemma load_le_head n v l : 0 <= v < 256 ^ Z.of_nat n -> load_le (le_bytes n v ++ l) 0 (Z.of_nat n) = Some v.
Proof.
  intros Hv. unfold load_le. rewrite load_some by (rewrite ?length_app, ?length_le_bytes; lia). cbn [fmap option_fmap option_map].
  rewrite drop_0, Nat2Z.id, take_app_length' by (by rewrite length_le_bytes). by rewrite le_le_bytes.
Qed.

Lemma load_le_byte l (i : nat) b : l !! i = Some b -> load_le l (Z.of_nat i) 1 = Some b.
Proof.
  intros Hl. pose proof (lookup_lt_Some _ _ _ Hl). unfold load_le. rewrite load_some, Nat2Z.id by lia. cbn [fmap option_fmap option_map].
  rewrite (drop_S _ _ _ Hl). change (Z.to_nat 1) with 1%nat. cbn. by rewrite Z.add_0_r.
Qed.

(** ** Entries as the firmware writes them *)

Inductive entry :=
| ELocal (uid id flags : Z)
| EIo (id address base : Z)
| EOverride (bus source gsi flags : Z)
| ERelocation (address : Z)
| EOther (type : Z) (body : list Z).

Definition encode (e : entry) : list Z :=
  match e with
  | ELocal uid id flags => [0; 8; uid; id] ++ le_bytes 4 flags
  | EIo id address base => [1; 12; id; 0] ++ le_bytes 4 address ++ le_bytes 4 base
  | EOverride bus source gsi flags => [2; 10; bus; source] ++ le_bytes 4 gsi ++ le_bytes 2 flags
  | ERelocation address => [5; 12; 0; 0] ++ le_bytes 8 address
  | EOther type body => type :: Z.of_nat (length body) + 2 :: body
  end.

Definition entry_ok (e : entry) : Prop :=
  match e with
  | ELocal _ _ flags => 0 <= flags < 2 ^ 32
  | EIo _ address base => 0 <= address < 2 ^ 32 /\ 0 <= base < 2 ^ 32
  | EOverride _ _ gsi flags => 0 <= gsi < 2 ^ 32 /\ 0 <= flags < 2 ^ 16
  | ERelocation address => 0 <= address < 2 ^ 64
  | EOther type body => (5 < type \/ type = 3 \/ type = 4) /\ Z.of_nat (length body) < 254
  end.

Definition is_local (e : entry) : bool := match e with ELocal _ _ _ => true | _ => false end.

Lemma encode_head e : exists rest, encode e = match e with ELocal _ _ _ => 0 | EIo _ _ _ => 1 | EOverride _ _ _ _ => 2 | ERelocation _ => 5 | EOther t _ => t end
    :: Z.of_nat (length (encode e)) :: rest.
Proof. destruct e; cbn -[le_bytes Z.of_nat Z.add]; eexists; rewrite ?length_app, ?length_le_bytes; repeat f_equal; cbn; lia. Qed.

Section Walk.
Context {P : Type} `{!ApicHost P} (madt : Z).

(** What an entry means. *)
Definition processor (uid id flags : Z) : AM unit :=
  let online := Z.testbit flags 0 in
  let lapic := mkLAPIC (if online then ONLINE else if Z.testbit flags 1 then CAPABLE else DISABLED) flags id uid in
  check (call has_memory) ≫= fun _ =>
  modify (fun s => set_lapics (<[id := lapic]> (LAPICs s)) s) ≫= fun _ => call_ (AddProcessor id uid online (Z.testbit flags 1)).

Definition controller (id address base : Z) : AM unit :=
  call (MapGeneralPages address) ≫= fun vaddr =>
  match vaddr with
  | None => panic
  | Some vaddr =>
      SetID vaddr id ≫= fun _ => check (call has_memory) ≫= fun _ =>
      modify (fun s => set_ioapics (<[id := mkIOAPIC vaddr address id base]> (IOAPICs s)) s)
  end.

Definition meaning (at_ : Z) (e : entry) : AM unit :=
  match e with
  | ELocal uid id flags => processor uid id flags
  | EIo id address base => controller id address base
  | EOverride _ source gsi flags =>
      modify (fun s => set_overrides (<[source := mkOverride (override_polarity flags) (override_trigger flags) gsi]> (InterruptOverrides s)) s)
  | ERelocation _ => modify (set_physical at_)
  | EOther _ _ => mret tt
  end.

(** The entries in order, each with its address. *)
Fixpoint meanings (at_ : Z) (l : list entry) : AM unit :=
  match l with
  | [] => mret tt
  | e :: l => meaning at_ e ≫= fun _ => meanings (at_ + Z.of_nat (length (encode e))) l
  end.

Lemma hasflag_bit x k : 0 <= k -> hasflag x (2 ^ k) = Z.testbit x k.
Proof. apply hasflag_pow2. Qed.

Lemma land_low x k m : 0 <= m < 16 -> Z.land (x + 65536 * k) m = Z.land x m.
Proof.
  intros Hm. assert (forall y, Z.land y m = Z.land (y mod 16) m) as H.
  { intros y. rewrite <- (Z.mod_small m (2 ^ 4)) at 1 by lia. rewrite <- (Z.land_ones m), (Z.land_comm m), Z.land_assoc by lia.
    by rewrite Z.land_ones by lia. }
  rewrite (H (x + _)), (H x). f_equal. replace (x + 65536 * k) with (x + (4096 * k) * 16) by lia. by rewrite Z.mod_add by lia.
Qed.

Lemma overlong_flags flags l : 0 <= flags < 2 ^ 16 -> (2 <= length l)%nat ->
  exists k, load_le (le_bytes 2 flags ++ l) 0 4 = Some (flags + 65536 * k).
Proof.
  intros Hf Hl. destruct l as [|x [|y l]]; cbn in Hl; try lia. exists (x + 256 * y).
  unfold load_le. rewrite load_some by (rewrite ?length_app, ?length_le_bytes; cbn; lia). cbn [fmap option_fmap option_map].
  rewrite drop_0. cbn [le_bytes app take]. change (take (Z.to_nat 4) (?a :: ?b :: x :: y :: l)) with [a; b; x; y]. f_equal.
  cbn [take firstn]. change (Z.to_nat 4) with 4%nat. cbn [firstn le].
  pose proof (Z.div_mod flags 256 ltac:(lia)). pose proof (Z.mod_small (flags / 256) 256). assert (0 <= flags / 256 < 256) by (split; [apply Z.div_pos|apply Z.div_lt_upper_bound]; lia). lia.
Qed.

Lemma load_byte l k b : 0 <= k -> l !! Z.to_nat k = Some b -> load_le l k 1 = Some b.
Proof. intros Hk Hl. rewrite <- (Z2Nat.id k) by done. by apply load_le_byte. Qed.

Lemma load_after pre l k (n : nat) z v : k = Z.of_nat (length pre) -> z = Z.of_nat n -> 0 <= v < 256 ^ z ->
  load_le (pre ++ le_bytes n v ++ l) k z = Some v.
Proof. intros -> -> Hv. rewrite <- (Z.add_0_r (Z.of_nat (length pre))), load_le_skip by lia. by apply load_le_head. Qed.

Lemma field_skip pre l k n : 0 <= k -> field (P:=P) (pre ++ l) (Z.of_nat (length pre) + k) n = field l k n.
Proof. intros Hk. unfold field. by rewrite load_le_skip. Qed.

Lemma field_some l k n v s : load_le l k n = Some v -> field (P:=P) l k n s = inr (v, s).
Proof. intros E. unfold field, or_die. by rewrite E. Qed.

(** The four kinds of entry the kernel knows. *)
Lemma local_meaning pre post uid id flags s : 0 <= flags < 2 ^ 32 ->
  add_lapic (pre ++ encode (ELocal uid id flags) ++ post) (Z.of_nat (length pre)) s = processor uid id flags s.
Proof.
  intros Hf. unfold add_lapic. rewrite !field_skip by lia. cbn [encode]. rewrite <- app_assoc.
  erewrite abind_run by (by apply field_some, load_byte). erewrite abind_run by (by apply field_some, load_byte).
  erewrite abind_run by (apply field_some, load_after; [done..|lia]). unfold processor.
  change APIC_ONLINE with (2 ^ 0). change APIC_CAPABLE with (2 ^ 1). by rewrite !hasflag_bit by lia.
Qed.

Lemma io_meaning pre post id address base s : 0 <= address < 2 ^ 32 -> 0 <= base < 2 ^ 32 ->
  add_ioapic (pre ++ encode (EIo id address base) ++ post) (Z.of_nat (length pre)) s = controller id address base s.
Proof.
  intros Ha Hb. unfold add_ioapic. rewrite !field_skip by lia. cbn [encode]. rewrite <- !app_assoc.
  erewrite abind_run by (by apply field_some, load_byte).
  erewrite abind_run by (apply field_some, load_after; [done..|lia]). rewrite app_assoc.
  by erewrite abind_run by (apply field_some, load_after; [done..|lia]).
Qed.

Lemma override_meaning pre post bus source gsi flags s : 0 <= gsi < 2 ^ 32 -> 0 <= flags < 2 ^ 16 -> (2 <= length post)%nat ->
  add_override (pre ++ encode (EOverride bus source gsi flags) ++ post) (Z.of_nat (length pre)) s =
    meaning 0 (EOverride bus source gsi flags) s.
Proof.
  intros Hg Hf Hp. unfold add_override. rewrite !field_skip by lia. cbn [encode]. rewrite <- !app_assoc.
  erewrite abind_run by (by apply field_some, load_byte).
  erewrite abind_run by (apply field_some, load_after; [done..|lia]). rewrite app_assoc.
  destruct (overlong_flags flags post Hf Hp) as [k E].
  erewrite abind_run. 2: { apply field_some. change 8 with (Z.of_nat (length ([2; 10; bus; source] ++ le_bytes 4 gsi)) + 0). rewrite load_le_skip by lia. exact E. }
  unfold meaning, override_polarity, override_trigger. by rewrite !land_low by lia.
Qed.

Lemma entry_meaning pre post e s : entry_ok e -> (2 <= length post)%nat ->
  (field (pre ++ encode e ++ post) (Z.of_nat (length pre)) 1 ≫= fun type =>
   parse_entry madt (pre ++ encode e ++ post) type (Z.of_nat (length pre))) s = meaning (madt + Z.of_nat (length pre)) e s.
Proof.
  intros He Hp. destruct (encode_head e) as [rest Hh].
  erewrite abind_run. 2: { apply field_some. rewrite <- (Z.add_0_r (Z.of_nat _)), load_le_skip by lia. rewrite Hh. by apply load_byte. }
  unfold parse_entry, LocalAPIC_Type, IOAPIC_Type, InterruptSourceOverride_Type, APICOverride_Type.
  destruct e as [uid id flags|id address base|bus source gsi flags|address|type body]; cbn [Z.eqb Pos.eqb].
  - by apply local_meaning.
  - destruct He. by apply io_meaning.
  - destruct He. by apply override_meaning.
  - done.
  - cbn in He. rewrite !(proj2 (Z.eqb_neq type _)) by lia. done.
Qed.

Lemma length_field pre post e s :
  field (P:=P) (pre ++ encode e ++ post) (Z.of_nat (length pre) + 1) 1 s = inr (Z.of_nat (length (encode e)), s).
Proof.
  rewrite field_skip by lia. destruct (encode_head e) as [rest E].
  assert (H : forall l t n, l = t :: n :: rest -> (l ++ post) !! Z.to_nat 1 = Some n) by (by intros l t n ->).
  apply field_some, load_byte; [lia|]. by apply (H _ _ _ E).
Qed.

Lemma type_field pre post e s : exists t, field (P:=P) (pre ++ encode e ++ post) (Z.of_nat (length pre)) 1 s = inr (t, s) /\
  (entry_ok e -> (t =? LocalAPIC_Type) = is_local e).
Proof.
  destruct (encode_head e) as [rest E]. eexists. split.
  - rewrite <- (Z.add_0_r (Z.of_nat _)), field_skip by lia. apply field_some. rewrite E. by apply load_byte.
  - destruct e as [| | | |type body]; cbn; try done. intros. apply Z.eqb_neq. unfold LocalAPIC_Type. lia.
Qed.

(** The bytes of the entries, and their size. *)
Definition entries_bytes (l : list entry) : list Z := concat (encode <$> l).

Lemma entries_split pre e l post : pre ++ entries_bytes (e :: l) ++ post = (pre ++ encode e) ++ entries_bytes l ++ post.
Proof. unfold entries_bytes. cbn. by rewrite <- !app_assoc. Qed.

Lemma encode_length e : 2 <= Z.of_nat (length (encode e)).
Proof. destruct (encode_head e) as [rest ->]. cbn. lia. Qed.

Lemma parse_entries_run l : forall pre post s fuel, Forall entry_ok l -> (2 <= length post)%nat -> (length l <= fuel)%nat ->
  parse_entries madt (pre ++ entries_bytes l ++ post) fuel (Z.of_nat (length (pre ++ entries_bytes l))) (Z.of_nat (length pre)) s =
    meanings (madt + Z.of_nat (length pre)) l s.
Proof.
  induction l as [|e l IH]; intros pre post s fuel Hl Hp Hf.
  - unfold entries_bytes. cbn. rewrite app_nil_r. destruct fuel; cbn; by rewrite Z.leb_refl.
  - inversion Hl as [|? ? He Hl']; subst. destruct fuel as [|fuel]; [cbn in Hf; lia|]. cbn [parse_entries].
    pose proof (encode_length e) as Hle.
    assert (Hlen : Z.of_nat (length (pre ++ entries_bytes (e :: l))) = Z.of_nat (length ((pre ++ encode e) ++ entries_bytes l))).
    { unfold entries_bytes. cbn. by rewrite <- app_assoc. }
    rewrite Hlen. rewrite !length_app in *. rewrite (proj2 (Z.leb_gt _ _)) by lia. rewrite <- !length_app.
    pose proof (entry_meaning pre (entries_bytes l ++ post) e s He ltac:(rewrite length_app; lia)) as Hm.
    assert (Heq : pre ++ entries_bytes (e :: l) ++ post = pre ++ encode e ++ entries_bytes l ++ post) by (rewrite entries_split; by rewrite <- !app_assoc).
    rewrite Heq. destruct (type_field pre (entries_bytes l ++ post) e s) as (t & Et & _).
    erewrite abind_run in Hm by exact Et. erewrite abind_run by exact Et. cbn [meanings].
    unfold mbind at 1 3, AM_bind. rewrite Hm. destruct (meaning _ e s) as [|[[] s1]]; [done|].
    rewrite (abind_run _ _ _ _ _ (length_field pre (entries_bytes l ++ post) e s1)).
    rewrite app_assoc. replace (Z.of_nat (length pre) + Z.of_nat (length (encode e))) with (Z.of_nat (length (pre ++ encode e))) by (rewrite length_app; lia).
    rewrite IH by (auto; cbn in Hf; lia). rewrite length_app. by rewrite Nat2Z.inj_add, Z.add_assoc.
Qed.

Lemma count_lapics_run l : forall pre post s fuel c, Forall entry_ok l -> (length l <= fuel)%nat ->
  count_lapics (P:=P) (pre ++ entries_bytes l ++ post) fuel (Z.of_nat (length (pre ++ entries_bytes l))) (Z.of_nat (length pre)) c s =
    inr (c + Z.of_nat (length (filter (fun e => is_local e = true) l)), s).
Proof.
  induction l as [|e l IH]; intros pre post s fuel c Hl Hf.
  - unfold entries_bytes. cbn. rewrite app_nil_r, Z.add_0_r. destruct fuel; cbn; by rewrite Z.leb_refl.
  - inversion Hl as [|? ? He Hl']; subst. destruct fuel as [|fuel]; [cbn in Hf; lia|]. cbn [count_lapics].
    pose proof (encode_length e) as Hle.
    assert (Hlen : Z.of_nat (length (pre ++ entries_bytes (e :: l))) = Z.of_nat (length ((pre ++ encode e) ++ entries_bytes l))).
    { unfold entries_bytes. cbn. by rewrite <- app_assoc. }
    rewrite Hlen. rewrite !length_app in *. rewrite (proj2 (Z.leb_gt _ _)) by lia. rewrite <- !length_app.
    assert (Heq : pre ++ entries_bytes (e :: l) ++ post = pre ++ encode e ++ entries_bytes l ++ post) by (rewrite entries_split; by rewrite <- !app_assoc).
    rewrite Heq. destruct (type_field pre (entries_bytes l ++ post) e s) as (t & Et & Ht).
    erewrite abind_run by exact Et. rewrite (Ht He).
    rewrite (abind_run _ _ _ _ _ (length_field pre (entries_bytes l ++ post) e s)).
    rewrite app_assoc. replace (Z.of_nat (length pre) + Z.of_nat (length (encode e))) with (Z.of_nat (length (pre ++ encode e))) by (rewrite length_app; lia).
    rewrite IH by (auto; cbn in Hf; lia). do 2 f_equal. rewrite filter_cons. destruct (is_local e); cbn [decide]; repeat case_decide; try done; cbn [length]; lia.
Qed.

(** C26: The two passes over a table of the firmware that follows its
    specification end, the first with the number of its local controllers, the
    second having done what each entry means, in order: a processor added, a
    controller mapped, an interrupt rerouted; an entry that moves the local
    controller, though, moves it to the address of the entry itself. *)
Theorem madt_walked header l slack s fuel :
  Forall entry_ok l -> length header = 44%nat -> (2 <= length slack)%nat -> (length l <= fuel)%nat ->
  let table := header ++ entries_bytes l ++ slack in
  let size := Z.of_nat (length (header ++ entries_bytes l)) in
  count_lapics table fuel size SIZEOF_MADT 0 s = inr (Z.of_nat (length (filter (fun e => is_local e = true) l)), s) /\
  parse_entries madt table fuel size SIZEOF_MADT s = meanings (madt + SIZEOF_MADT) l s.
Proof.
  intros Hl Hh Hs Hf. cbv zeta. replace SIZEOF_MADT with (Z.of_nat (length header)) by (by rewrite Hh). split.
  - by rewrite count_lapics_run.
  - by apply parse_entries_run.
Qed.

(** A table with an entry of length zero, of whatever type, keeps the first
    pass from ever ending. *)
Theorem empty_entry_hangs table length i type c s fuel :
  0 <= i < length -> load_le table i 1 = Some type -> load_le table (i + 1) 1 = Some 0 ->
  count_lapics (P:=P) table fuel length i c s = inl (Fault Hang).
Proof.
  intros Hi Ht Hz. revert c. induction fuel as [|fuel IH]; intros c; cbn [count_lapics]; rewrite (proj2 (Z.leb_gt _ _)) by lia; [done|].
  erewrite abind_run by (by apply field_some). erewrite abind_run by (by apply field_some). rewrite Z.add_0_r. apply IH.
Qed.
End Walk.

(** ** The redirection entries *)

(** An I/O controller as its specification has it: registers behind an index,
    of which the redirection table can be written. *)
Class IoApicLaws (P : Type) `{!ApicHost P} := {
  select : Z -> P -> Z;
  reg : Z -> Z -> P -> Z;
  reg_word a j p : 0 <= reg a j p < 2 ^ 32;
  select_written a v b p : select b (io_write a IOREGSEL v p) = if decide (a = b) then v else select b p;
  select_kept a v b j p : reg b j (io_write a IOREGSEL v p) = reg b j p;
  window_read a p : io_read a IOWIN p = (reg a (select a p) p, p);
  window_written a v b j p : IOREDTBL <= select a p -> 0 <= v < 2 ^ 32 ->
    reg b j (io_write a IOWIN v p) = if decide (a = b /\ select a p = j) then v else reg b j p;
  window_select a v b p : select b (io_write a IOWIN v p) = select b p }.

Section Redirection.
Context {P : Type} `{Laws : IoApicLaws P}.
Implicit Types s : Apic P.

(** Two states that differ in the machine only. *)
Definition same_tables s s' : Prop :=
  InterruptOverrides s' = InterruptOverrides s /\ IOAPICs s' = IOAPICs s /\ LAPICs s' = LAPICs s /\ LocalAPIC s' = LocalAPIC s.
#[local] Instance same_tables_preorder : PreOrder same_tables.
Proof. split; [done|]. intros s1 s2 s3 (? & ? & ? & ?) (? & ? & ? & ?). repeat split; congruence. Qed.

(** A run that leaves every register as it was. *)
Definition quiet s s' : Prop := same_tables s s' /\ forall b j, reg b j (host s') = reg b j (host s).
#[local] Instance quiet_preorder : PreOrder quiet.
Proof.
  split; [done|]. intros s1 s2 s3 [Ht H] [Ht' H']. split; [by etrans|]. intros b j. by rewrite H', H.
Qed.

Lemma ioread_run a r s : exists s', ioread a r s = inr (reg a r (host s), s') /\ quiet s s'.
Proof.
  unfold ioread. erewrite abind_run by reflexivity. unfold call. cbn [host set_host]. rewrite window_read, select_written, decide_True by done.
  eexists. split; [by rewrite select_kept|]. split; [done|]. intros b j. apply select_kept.
Qed.

Lemma iowrite_run a r v s : IOREDTBL <= r -> 0 <= v < 2 ^ 32 ->
  exists s', iowrite a r v s = inr (tt, s') /\ same_tables s s' /\
    forall b j, reg b j (host s') = if decide (a = b /\ r = j) then v else reg b j (host s).
Proof.
  intros Hr Hv. unfold iowrite. erewrite abind_run by reflexivity. eexists. split; [reflexivity|]. split; [done|].
  intros b j. cbn [host set_host]. rewrite window_written by (rewrite ?select_written, ?decide_True; done || lia).
  rewrite select_written, (decide_True (P := a = a)), select_kept by done. done.
Qed.

Definition redirections (a : Z) (p : P) : Z := u16 (Z.land (Z.shiftr (reg a IOAPICVER p) 16) 0xFF + 1).
(** Entry [i] of the table of controller [a]. *)
Definition redirection (a i : Z) (p : P) : Z := Z.lor (reg a (IOREDTBL + i * 2) p) (Z.shiftl (reg a (IOREDTBL + i * 2 + 1) p) 32).

Lemma GetRedirectionsCount_run a s : exists s', GetRedirectionsCount a s = inr (redirections a (host s), s') /\ quiet s s'.
Proof.
  destruct (ioread_run a IOAPICVER s) as (s' & E & Hq). unfold GetRedirectionsCount. erewrite abind_run by exact E. by exists s'.
Qed.

Lemma quiet_redirection s s' a i : quiet s s' -> redirection a i (host s') = redirection a i (host s).
Proof. intros [_ H]. unfold redirection. by rewrite !H. Qed.
Lemma quiet_redirections s s' a : quiet s s' -> redirections a (host s') = redirections a (host s).
Proof. intros [_ H]. unfold redirections. by rewrite !H. Qed.

Lemma GetRedirectionEntry_run a i s : i < redirections a (host s) ->
  exists s', GetRedirectionEntry a i s = inr (redirection a i (host s), s') /\ quiet s s'.
Proof.
  intros Hi. unfold GetRedirectionEntry. destruct (GetRedirectionsCount_run a s) as (s1 & E1 & H1). erewrite abind_run by exact E1.
  rewrite (proj2 (Z.leb_gt _ _)) by done. destruct (ioread_run a (IOREDTBL + i * 2) s1) as (s2 & E2 & H2). erewrite abind_run by exact E2.
  destruct (ioread_run a (IOREDTBL + i * 2 + 1) s2) as (s3 & E3 & H3). erewrite abind_run by exact E3.
  exists s3. split; [|by do 2 (etrans; [eassumption|])]. unfold mret, AM_ret, redirection. by rewrite (proj2 H2), !(proj2 H1).
Qed.

Lemma split_word v : 0 <= v < 2 ^ 64 ->
  Z.lor (Z.land v 0xFFFFFFFF) (Z.shiftl (Z.land (Z.shiftr v 32) 0xFFFFFFFF) 32) = v /\
  0 <= Z.land v 0xFFFFFFFF < 2 ^ 32 /\ 0 <= Z.land (Z.shiftr v 32) 0xFFFFFFFF < 2 ^ 32.
Proof.
  intros Hv. change 0xFFFFFFFF with (Z.ones 32). rewrite !Z.land_ones, Z.shiftr_div_pow2 by lia.
  assert (0 <= v / 2 ^ 32 < 2 ^ 32) by (split; [apply Z.div_pos; lia|apply Z.div_lt_upper_bound; lia]).
  rewrite (Z.mod_small (v / 2 ^ 32)) by done. pose proof (Z.mod_pos_bound v (2 ^ 32) ltac:(lia)). split; [|done].
  rewrite Z.lor_comm, lor_shiftl_low by lia. rewrite (Z.div_mod v (2 ^ 32)) at 3 by lia. lia.
Qed.

(** What is left of the registers when entry [i] of [a] becomes [v]. *)
Definition entry_set (a i v : Z) s s' : Prop :=
  same_tables s s' /\ redirection a i (host s') = v /\
  forall b j, ~ (b = a /\ IOREDTBL + i * 2 <= j <= IOREDTBL + i * 2 + 1) -> reg b j (host s') = reg b j (host s).

Lemma SetRedirectionEntry_run a i v s : 0 <= i < redirections a (host s) -> 0 <= v < 2 ^ 64 ->
  exists s', SetRedirectionEntry a i v s = inr (tt, s') /\ entry_set a i v s s'.
Proof.
  intros Hi Hv. unfold SetRedirectionEntry. destruct (GetRedirectionsCount_run a s) as (s1 & E1 & H1). erewrite abind_run by exact E1.
  rewrite (proj2 (Z.ltb_lt _ _)) by lia. destruct (split_word v Hv) as (Hw & Hlow & Hhigh).
  destruct (iowrite_run a (IOREDTBL + i * 2) _ s1 ltac:(unfold IOREDTBL; lia) Hlow) as (s2 & E2 & Ht2 & H2). erewrite abind_run by exact E2.
  destruct (iowrite_run a (IOREDTBL + i * 2 + 1) _ s2 ltac:(unfold IOREDTBL; lia) Hhigh) as (s3 & E3 & Ht3 & H3).
  exists s3. split; [done|]. split; [etrans; [apply H1|by etrans]|]. split.
  - unfold redirection. rewrite !H3, !H2. rewrite decide_False by lia. rewrite decide_True by done. by rewrite decide_True by done.
  - intros b j Hn. rewrite H3, decide_False by lia. rewrite H2, decide_False by lia. apply H1.
Qed.
End Redirection.

(** ** What an entry says *)

Definition delivery_code (d : IRQDescriptor) : Z :=
  match Delivery d with FIXED => 0 | LOWEST_PRIORITY => 1 | SMI => 2 | NMI => 4 | INIT => 5 | EXT_INIT => 7 end.
Definition vector_code (d : IRQDescriptor) : Z := match Delivery d with SMI => 0 | _ => InterruptVector d end.
Definition polarity_code (d : IRQDescriptor) (old : Z) : Z :=
  match Polarity d with ACTIVE_HIGH => 0 | ACTIVE_LOW => 1 | POLARITY_RESERVED => Z.b2z (Z.testbit old 13) end.
(** Only the two ordinary deliveries may be level triggered. *)
Definition trigger_code (d : IRQDescriptor) (old : Z) : Z :=
  match Delivery d with
  | FIXED | LOWEST_PRIORITY => match Trigger d with EDGE => 0 | LEVEL => 1 | TRIGGER_RESERVED => Z.b2z (Z.testbit old 15) end
  | _ => 0
  end.
Definition destination_code (d : IRQDescriptor) : Z :=
  match DestinationMode d with Physical => Destination d mod 16 | Logical => Destination d end.

(** The entry of a descriptor, as the specification of the controller lays it
    out. *)
Definition entry_value (d : IRQDescriptor) (old : Z) : Z :=
  vector_code d + 2 ^ 8 * delivery_code d + 2 ^ 11 * (match DestinationMode d with Physical => 0 | Logical => 1 end) +
  2 ^ 13 * polarity_code d old + 2 ^ 15 * trigger_code d old + 2 ^ 16 * Z.b2z (Masked d) + 2 ^ 56 * destination_code d.

Definition descriptor_ok (d : IRQDescriptor) : Prop := 0 <= InterruptVector d < 256 /\ 0 <= Destination d < 256.

Lemma land_pow2 e k : 0 <= k -> Z.land e (2 ^ k) = 2 ^ k * Z.b2z (Z.testbit e k).
Proof.
  intros Hk. apply Z.bits_inj'. intros i Hi. rewrite Z.land_spec, Z.pow2_bits_eqb by done.
  destruct (Z.eqb_spec k i) as [<-|Hne].
  - destruct (Z.testbit e k); cbn [Z.b2z]; rewrite ?Z.mul_1_r, ?Z.mul_0_r, ?Z.bits_0, ?Z.pow2_bits_true; done.
  - rewrite andb_false_r. destruct (Z.testbit e k); cbn [Z.b2z]; rewrite ?Z.mul_1_r, ?Z.mul_0_r, ?Z.bits_0, ?Z.pow2_bits_false; done.
Qed.

Lemma b2z_le_1 b : 0 <= Z.b2z b <= 1.
Proof. destruct b; cbn; lia. Qed.

(** Or-ing a field above what is there adds it. *)
Lemma lor_above x v n : 0 <= n -> 0 <= x < 2 ^ n -> Z.lor x (2 ^ n * v) = x + 2 ^ n * v.
Proof. intros Hn Hx. rewrite Z.lor_comm, (Z.mul_comm (2 ^ n)), lor_mul_low by done. lia. Qed.

Lemma fields_sum vec code logical pol trig masked dest :
  0 <= vec < 256 -> 0 <= code < 8 -> 0 <= logical <= 1 -> 0 <= pol <= 1 -> 0 <= trig <= 1 -> 0 <= masked <= 1 ->
  Z.lor (Z.lor (Z.lor (Z.lor (Z.lor (Z.lor (2 ^ 8 * code) vec) (2 ^ 11 * logical)) (2 ^ 13 * pol)) (2 ^ 15 * trig)) (2 ^ 16 * masked)) (2 ^ 56 * dest) =
  vec + 2 ^ 8 * code + 2 ^ 11 * logical + 2 ^ 13 * pol + 2 ^ 15 * trig + 2 ^ 16 * masked + 2 ^ 56 * dest.
Proof. intros. rewrite (Z.lor_comm (2 ^ 8 * code)). 
  by rewrite (lor_above _ code 8), (lor_above _ logical 11), (lor_above _ pol 13), (lor_above _ trig 15), (lor_above _ masked 16), (lor_above _ dest 56) by lia.
Qed.

Section Setup.
Context {P : Type} `{Laws : IoApicLaws P}.
Implicit Types s : Apic P.
#[local] Existing Instances same_tables_preorder quiet_preorder.

Lemma ConvertPolarity_run a p i s : i < redirections a (host s) ->
  exists s', ConvertPolarity a p i s =
    inr (2 ^ 13 * match p with ACTIVE_HIGH => 0 | ACTIVE_LOW => 1 | POLARITY_RESERVED => Z.b2z (Z.testbit (redirection a i (host s)) 13) end, s') /\ quiet s s'.
Proof.
  intros Hi. destruct p; [by exists s..|]. destruct (GetRedirectionEntry_run a i s Hi) as (s' & E & Hq). exists s'.
  unfold ConvertPolarity. erewrite abind_run by exact E. split; [|done]. unfold mret, AM_ret. by rewrite <- land_pow2 by lia.
Qed.

Lemma ConvertTrigger_run a t i s : i < redirections a (host s) ->
  exists s', ConvertTrigger a t i s =
    inr (2 ^ 15 * match t with EDGE => 0 | LEVEL => 1 | TRIGGER_RESERVED => Z.b2z (Z.testbit (redirection a i (host s)) 15) end, s') /\ quiet s s'.
Proof.
  intros Hi. destruct t; [by exists s..|]. destruct (GetRedirectionEntry_run a i s Hi) as (s' & E & Hq). exists s'.
  unfold ConvertTrigger. erewrite abind_run by exact E. split; [|done]. unfold mret, AM_ret. by rewrite <- land_pow2 by lia.
Qed.

Lemma code_ranges d old : descriptor_ok d ->
  0 <= vector_code d < 256 /\ 0 <= delivery_code d < 8 /\ 0 <= polarity_code d old <= 1 /\ 0 <= trigger_code d old <= 1 /\ 0 <= destination_code d < 256.
Proof.
  intros [Hv Hd]. unfold vector_code, delivery_code, polarity_code, trigger_code, destination_code.
  pose proof (b2z_le_1 (Z.testbit old 13)). pose proof (b2z_le_1 (Z.testbit old 15)). pose proof (Z.mod_pos_bound (Destination d) 16 ltac:(lia)).
  destruct (Delivery d), (Polarity d), (Trigger d), (DestinationMode d); lia.
Qed.

Lemma entry_value_range d old : descriptor_ok d -> 0 <= entry_value d old < 2 ^ 64.
Proof.
  intros Hd. destruct (code_ranges d old Hd) as (? & ? & ? & ? & ?). pose proof (b2z_le_1 (Masked d)). unfold entry_value.
  destruct (DestinationMode d); lia.
Qed.

Lemma SetupRedirectionEntry_run a i d s : 0 <= i < redirections a (host s) -> descriptor_ok d ->
  exists s', SetupRedirectionEntry a i d s = inr (tt, s') /\ entry_set a i (entry_value d (redirection a i (host s))) s s'.
Proof.
  intros Hi Hd. pose proof (entry_value_range d (redirection a i (host s)) Hd) as Hr. destruct (code_ranges d (redirection a i (host s)) Hd) as (Hc1 & Hc2 & Hc3 & Hc4 & Hc5).
  unfold SetupRedirectionEntry. destruct (GetRedirectionsCount_run a s) as (s1 & E1 & H1). erewrite abind_run by exact E1.
  rewrite (proj2 (Z.ltb_lt _ _)) by lia. rewrite <- (quiet_redirection _ _ a i H1) in *. rewrite <- (quiet_redirections _ _ a H1) in Hi.
  destruct (ConvertDeliveryMode d) as [mode d'] eqn:Em.
  assert (Hm : mode = 2 ^ 8 * delivery_code d /\ InterruptVector d' = vector_code d /\ DestinationMode d' = DestinationMode d /\
      Polarity d' = Polarity d /\ Masked d' = Masked d /\ Destination d' = Destination d /\
      match Trigger d' with EDGE => 0 | LEVEL => 1 | TRIGGER_RESERVED => Z.b2z (Z.testbit (redirection a i (host s1)) 15) end = trigger_code d (redirection a i (host s1))).
  { unfold ConvertDeliveryMode in Em. unfold delivery_code, vector_code, trigger_code. destruct (Delivery d); injection Em as <- <-; done. }
  destruct Hm as (-> & -> & -> & -> & -> & -> & Ht).
  destruct (ConvertPolarity_run a (Polarity d) i s1 ltac:(lia)) as (s2 & E2 & H2). erewrite abind_run by exact E2.
  destruct (ConvertTrigger_run a (Trigger d') i s2 ltac:(rewrite (quiet_redirections _ _ a H2); lia)) as (s3 & E3 & H3).
  rewrite (quiet_redirection _ _ a i H2), Ht in E3. erewrite abind_run by exact E3.
  assert (Hsum : Z.lor (Z.lor (Z.lor (Z.lor (Z.lor (Z.lor (2 ^ 8 * delivery_code d) (vector_code d)) (ConvertDestinationMode (DestinationMode d)))
      (2 ^ 13 * polarity_code d (redirection a i (host s1)))) (2 ^ 15 * trigger_code d (redirection a i (host s1))))
      (if Masked d then RTE_MASK else 0)) (ConvertDestination (Destination d) (DestinationMode d)) = entry_value d (redirection a i (host s1))).
  { replace (ConvertDestinationMode (DestinationMode d)) with (2 ^ 11 * match DestinationMode d with Physical => 0 | Logical => 1 end) by (by destruct (DestinationMode d)).
    replace (if Masked d then RTE_MASK else 0) with (2 ^ 16 * Z.b2z (Masked d)) by (by destruct (Masked d)).
    replace (ConvertDestination (Destination d) (DestinationMode d)) with (2 ^ 56 * destination_code d).
    2: { unfold ConvertDestination, destination_code. rewrite Z.shiftl_mul_pow2, Z.mul_comm by lia. f_equal.
         destruct (DestinationMode d); [|done]. change 15 with (Z.ones 4). by rewrite Z.land_ones by lia. }
    pose proof (b2z_le_1 (Masked d)). apply fields_sum; try lia. destruct (DestinationMode d); lia. }
  assert (Hq : quiet s s3) by (do 2 (etrans; [eassumption|]); done). cbv zeta. unfold polarity_code in Hsum. rewrite Hsum.
  destruct (SetRedirectionEntry_run a i (entry_value d (redirection a i (host s1))) s3) as (s4 & E4 & Hs4 & Hv4 & Hr4);
    [rewrite (quiet_redirections _ _ a H3), (quiet_redirections _ _ a H2); lia|done|].
  exists s4. split; [exact E4|]. split; [etrans; [apply Hq|done]|]. split; [done|]. intros b j Hn. rewrite Hr4 by done. apply Hq.
Qed.

(** Whether a controller serves a global interrupt. *)
Definition serves (x : IOAPIC) (irq : Z) (p : P) : Prop :=
  GlobalSystemInterruptBase x <= irq < GlobalSystemInterruptBase x + redirections (VirtualAddress x) p.
Definition placed (p : P) (x : IOAPIC) : Prop :=
  0 <= GlobalSystemInterruptBase x /\ GlobalSystemInterruptBase x + redirections (VirtualAddress x) p < 2 ^ 32.
(** The two registers of an entry. *)
Definition its_entry (x : IOAPIC) (irq b j : Z) : Prop :=
  b = VirtualAddress x /\ IOREDTBL + (irq - GlobalSystemInterruptBase x) * 2 <= j <= IOREDTBL + (irq - GlobalSystemInterruptBase x) * 2 + 1.

Lemma redirections_range a p : 1 <= redirections a p <= 256.
Proof.
  unfold redirections. change 0xFF with (Z.ones 8). rewrite Z.land_ones by lia.
  pose proof (Z.mod_pos_bound (Z.shiftr (reg a IOAPICVER p) 16) (2 ^ 8) ltac:(lia)). rewrite wrap_small by lia. lia.
Qed.

Lemma each_ioapic_run l irq d s : NoDup (VirtualAddress <$> l) -> Forall (placed (host s)) l -> descriptor_ok d ->
  exists s', each_ioapic l irq (fun a pin => SetupRedirectionEntry a pin d) s = inr (tt, s') /\ same_tables s s' /\
    (forall x, x ∈ l -> serves x irq (host s) ->
       redirection (VirtualAddress x) (irq - GlobalSystemInterruptBase x) (host s') =
         entry_value d (redirection (VirtualAddress x) (irq - GlobalSystemInterruptBase x) (host s))) /\
    (forall b j, (forall x, x ∈ l -> serves x irq (host s) -> ~ its_entry x irq b j) -> reg b j (host s') = reg b j (host s)).
Proof.
  revert s. induction l as [|x l IH]; intros s Hn Hp Hd.
  { exists s. split; [done|]. split; [done|]. split; [by intros x Hx%elem_of_nil|done]. }
  cbn [fmap list_fmap] in Hn. apply NoDup_cons in Hn as [Hx Hn]. apply Forall_cons in Hp as [[Hb Hc] Hp].
  cbn [each_ioapic]. destruct (GetRedirectionsCount_run (VirtualAddress x) s) as (s1 & E1 & H1). erewrite abind_run by exact E1.
  pose proof (redirections_range (VirtualAddress x) (host s)) as Hr. rewrite wrap_small by lia.
  set (base := GlobalSystemInterruptBase x) in *.
  (* the controller at hand *)
  assert (Hstep : exists s2, (if (base <=? irq) && (irq <? base + redirections (VirtualAddress x) (host s))
      then SetupRedirectionEntry (VirtualAddress x) (u8 (irq - base)) d else mret tt) s1 = inr (tt, s2) /\ same_tables s s2 /\
    (serves x irq (host s) -> redirection (VirtualAddress x) (irq - base) (host s2) = entry_value d (redirection (VirtualAddress x) (irq - base) (host s))) /\
    (forall b j, (serves x irq (host s) -> ~ its_entry x irq b j) -> reg b j (host s2) = reg b j (host s))).
  { destruct (Z.leb_spec base irq), (Z.ltb_spec irq (base + redirections (VirtualAddress x) (host s))); cbn [andb].
    2-4: exists s1; split; [done|]; split; [apply H1|]; split; [intros [? ?]; unfold base in *; lia|intros; apply H1].
    rewrite wrap_small by lia.
    destruct (SetupRedirectionEntry_run (VirtualAddress x) (irq - base) d s1 ltac:(rewrite (quiet_redirections _ _ _ H1); lia) Hd) as (s2 & E2 & Ht2 & Hv2 & Hr2).
    rewrite (quiet_redirection _ _ _ _ H1) in Hv2. exists s2. split; [done|]. split; [etrans; [apply H1|done]|]. split; [done|].
    intros b j Hne. rewrite Hr2; [apply H1|]. apply Hne. split; unfold base in *; lia. }
  destruct Hstep as (s2 & E2 & Ht2 & Hv2 & Hr2). erewrite abind_run by exact E2.
  assert (Hkeep : forall y j, y ∈ l -> reg (VirtualAddress y) j (host s2) = reg (VirtualAddress y) j (host s)).
  { intros y j Hy. apply Hr2. intros _ [Hy' _]. apply Hx. rewrite <- Hy'. by apply list_elem_of_fmap_2. }
  assert (Hcount : forall y, y ∈ l -> redirections (VirtualAddress y) (host s2) = redirections (VirtualAddress y) (host s)).
  { intros y Hy. unfold redirections. by rewrite Hkeep. }
  assert (Hserves : forall y, y ∈ l -> serves y irq (host s2) <-> serves y irq (host s)).
  { intros y Hy. unfold serves. by rewrite Hcount. }
  assert (Hp2 : Forall (placed (host s2)) l).
  { rewrite Forall_forall in Hp |- *. intros y Hy. unfold placed. rewrite Hcount by done. by apply Hp. }
  destruct (IH s2 Hn Hp2 Hd) as (s3 & E3 & Ht3 & Hv3 & Hr3).
  exists s3. split; [done|]. split; [by etrans|]. split.
  - intros y [->|Hy]%elem_of_cons Hs.
    + transitivity (redirection (VirtualAddress x) (irq - base) (host s2)); [|by apply Hv2]. unfold redirection. rewrite !Hr3; [done| |];
      intros z Hz _ [Hz' _]; apply Hx; rewrite Hz'; by apply list_elem_of_fmap_2.
    + rewrite Hv3 by (rewrite ?Hserves; done). unfold redirection. by rewrite !Hkeep.
  - intros b j Hne. rewrite Hr3.
    + apply Hr2. apply Hne. left.
    + intros y Hy Hs. apply Hne; [by right|by apply Hserves].
Qed.

(** C25: Setting an interrupt up programs, in each controller that serves its
    global number (its own number, or that of its override), the one entry of
    that number with the vector, delivery, destination and mask asked for and
    with the polarity and trigger of the override, or else those asked for; no
    other register of any controller changes. *)
Theorem SetupIRQ_routes irq d s :
  0 <= irq -> descriptor_ok d -> NoDup (VirtualAddress <$> (map_to_list (IOAPICs s)).*2) ->
  Forall (placed (host s)) (map_to_list (IOAPICs s)).*2 ->
  let gsi := if irq <? 256 then GlobalSystemInterrupt (InterruptOverrides s irq) else irq in
  let d' := if irq <? 256 then overridden (InterruptOverrides s irq) d else d in
  exists s', SetupIRQ irq d s = inr (tt, s') /\ same_tables s s' /\
    (forall id x, IOAPICs s !! id = Some x -> serves x gsi (host s) ->
       redirection (VirtualAddress x) (gsi - GlobalSystemInterruptBase x) (host s') =
         entry_value d' (redirection (VirtualAddress x) (gsi - GlobalSystemInterruptBase x) (host s))) /\
    (forall b j, (forall id x, IOAPICs s !! id = Some x -> serves x gsi (host s) -> ~ its_entry x gsi b j) ->
       reg b j (host s') = reg b j (host s)).
Proof.
  intros Hi Hd Hn Hp gsi d'. assert (Hd' : descriptor_ok d') by (unfold d'; destruct (irq <? 256); done).
  destruct (each_ioapic_run _ gsi d' s Hn Hp Hd') as (s' & E & Ht & Hv & Hr). exists s'.
  split; [exact E|]. split; [done|]. split.
  - intros id x Hx Hs. apply Hv; [|done]. apply list_elem_of_fmap. exists (id, x). split; [done|]. by apply elem_of_map_to_list.
  - intros b j Hne. apply Hr. intros x Hx Hs. apply list_elem_of_fmap in Hx as ([id x'] & -> & Hx). apply elem_of_map_to_list in Hx. by apply (Hne id).
Qed.
End Setup.

(** ** Instances: one controller of 24 entries *)

Record Bus := mkBus { selected : Z -> Z; registers : Z -> Z -> Z }.

#[local] Instance Bus_host : ApicHost Bus := {|
  lapic_read _ p := (0, p); lapic_write _ _ p := p;
  io_read a o p := (u32 (registers p a (selected p a)), p);
  io_write a o v p :=
    if o =? 0 then mkBus (<[a := v]> (selected p)) (registers p)
    else if 0x10 <=? selected p a then mkBus (selected p) (<[a := <[selected p a := v]> (registers p a)]> (registers p)) else p;
  FindTable p := (None, p); MapTable _ p := (None, p); UnmapTable _ p := (true, p); MapGeneralPages a p := (Some a, p);
  has_memory p := (true, p); AllocateProcessors _ p := (true, p); AddProcessor _ _ _ _ p := p; InitializePIC p := p;
  Apic_RegisterIRQ _ p := p; cpuid_edx p := (0x200, p); rdmsr _ p := (0x800, p) |}.

#[local] Instance Bus_laws : IoApicLaws Bus.
Proof.
  refine {| select a p := selected p a; reg a j p := u32 (registers p a j) |}.
  - intros. apply wrap_range. lia.
  - intros a v b p. cbn. by rewrite upd_lookup.
  - done.
  - done.
  - intros a v b j p Hs Hv. cbn. rewrite (proj2 (Z.leb_le 16 _)) by (unfold IOREDTBL in Hs; lia). cbn [registers].
    destruct (decide (a = b)) as [->|Hne]; [|rewrite fn_lookup_insert_ne by done; by rewrite decide_False by tauto].
    rewrite fn_lookup_insert, upd_lookup. destruct (decide (selected p b = j)); [rewrite decide_True by done; apply wrap_small; lia|by rewrite decide_False by tauto].
  - intros a v b p. cbn. by destruct (_ <=? _).
Defined.

(** The keyboard, which the firmware reroutes to 2, active low. *)
Definition wired : Apic Bus :=
  mkApic 0 (Some 0xFEE00000) ∅ {[ 0 := mkIOAPIC 0xFEC00000 0xFEC00000 0 0 ]}
    (<[1 := mkOverride OP_LOW OT_CONFORM 2]> (fun i => mkOverride OP_CONFORM OT_CONFORM i)) 1
    (mkBus (fun _ => 0) (fun _ j => if j =? 1 then 0x00170020 else 0)).

Lemma SetupIRQ_routes_witness :
  exists s', SetupIRQ 1 (mkIRQ 0x41 FIXED Logical ACTIVE_HIGH EDGE false 1) wired = inr (tt, s') /\
    redirection 0xFEC00000 2 (host s') = 2 ^ 56 + 0x2841.
Proof.
  destruct (SetupIRQ_routes 1 (mkIRQ 0x41 FIXED Logical ACTIVE_HIGH EDGE false 1) wired ltac:(lia)) as (s' & E & _ & Hv & _).
  - by vm_compute.
  - apply NoDup_singleton.
  - constructor; [|constructor]. by vm_compute.
  - exists s'. split; [exact E|]. apply (Hv 0 _ eq_refl). by vm_compute.
Defined.

Definition small_madt : list entry :=
  [ELocal 1 0 1; EIo 0 0xFEC00000 0; EOverride 0 1 2 3; ERelocation 0xFEE00000; EOther 4 [0; 0; 0; 1]].

Lemma madt_walked_witness :
  count_lapics (replicate 44 0 ++ entries_bytes small_madt ++ [0; 0]) 5 (44 + 48) SIZEOF_MADT 0 wired = inr (1, wired) /\
  parse_entries 0x1000 (replicate 44 0 ++ entries_bytes small_madt ++ [0; 0]) 5 (44 + 48) SIZEOF_MADT wired =
    meanings (0x1000 + SIZEOF_MADT) small_madt wired.
Proof.
  apply (madt_walked 0x1000 (replicate 44 0) small_madt [0; 0] wired 5); [|done|cbn; lia|cbn; lia].
  repeat constructor; cbn; lia.
Defined.

Lemma empty_entry_hangs_witness :
  count_lapics (replicate 44 0 ++ [4; 0]) 1000 46 44 0 wired = inl (Fault Hang).
Proof. apply (empty_entry_hangs (replicate 44 0 ++ [4; 0]) 46 44 4); [lia|done|done]. Defined.
