(* ===== verification/Ps2.v ===== *)
(** * Component: the PS/2 controller and its keyboard
    ([kernel/src/devices/PS2/Controller.cpp], [kernel/src/devices/PS2/Keyboard.cpp])

    The commands of the controller, the bytes exchanged with the keyboard under
    a timeout, the recovery from errors, the initialisation and the interrupt
    handlers. The ports and the interrupt controllers are the class [Ps2Host];
    the decoders are those of [Keypoints], and the packets go to the queue of
    [KeyboardQueue]. *)
From S2P Require Import DataNode Keypoints KeyboardQueue Apic Prelude.

Class Ps2Host (P : Type) := {
  inb : Z -> P -> Z * P;
  outb : Z -> Z -> P -> P;
  MaskIRQ : Z -> P -> P;
  SetupIRQ : Z -> IRQDescriptor -> P -> P;
  SendEOI : P -> P;
  GetLAPICLogicalID : P -> Z * P;
  ReserveInterrupt : P -> Z * P;
  RegisterIRQ : Z -> bool -> P -> P;        (* the keyboard's handler, or the second channel's *)
  ReleaseIRQ : Z -> P -> P }.

Inductive ScanCodeSet := ScanCodeSet1 | ScanCodeSet2 | ScanCodeSet3.

Record Driver (P : Type) := mkDriver {
  forces_translation : bool; forces_port2_interrupts : bool; errorCount : Z;
  keyboardEventConverter : option ScanCodeSet;
  set1_state : kbd; set2_state : kbd; set3_state : bool;     (* the static variables of the converters *)
  keyboardMultiplexer : option Buffer; ports : P }.
Arguments mkDriver {P}. Arguments forces_translation {P}. Arguments forces_port2_interrupts {P}. Arguments errorCount {P}.
Arguments keyboardEventConverter {P}. Arguments set1_state {P}. Arguments set2_state {P}. Arguments set3_state {P}.
Arguments keyboardMultiplexer {P}. Arguments ports {P}.

Definition static_Driver {P} (p : P) : Driver P := mkDriver false false 0 None kbd_init kbd_init false None p.

Section Ps2.
Context {P : Type} `{!Ps2Host P}.

Local Abbreviation KM := (io (Driver P)).

Definition set_forces (t i : bool) (d : Driver P) : Driver P :=
  mkDriver t i (errorCount d) (keyboardEventConverter d) (set1_state d) (set2_state d) (set3_state d) (keyboardMultiplexer d) (ports d).
Definition set_errors (n : Z) (d : Driver P) : Driver P :=
  mkDriver (forces_translation d) (forces_port2_interrupts d) n (keyboardEventConverter d) (set1_state d) (set2_state d) (set3_state d) (keyboardMultiplexer d) (ports d).
Definition set_converter (c : option ScanCodeSet) (d : Driver P) : Driver P :=
  mkDriver (forces_translation d) (forces_port2_interrupts d) (errorCount d) c (set1_state d) (set2_state d) (set3_state d) (keyboardMultiplexer d) (ports d).
Definition set_decoders (s1 s2 : kbd) (s3 : bool) (d : Driver P) : Driver P :=
  mkDriver (forces_translation d) (forces_port2_interrupts d) (errorCount d) (keyboardEventConverter d) s1 s2 s3 (keyboardMultiplexer d) (ports d).
Definition set_multiplexer (q : option Buffer) (d : Driver P) : Driver P :=
  mkDriver (forces_translation d) (forces_port2_interrupts d) (errorCount d) (keyboardEventConverter d) (set1_state d) (set2_state d) (set3_state d) q (ports d).
Definition set_ports (p : P) (d : Driver P) : Driver P :=
  mkDriver (forces_translation d) (forces_port2_interrupts d) (errorCount d) (keyboardEventConverter d) (set1_state d) (set2_state d) (set3_state d) (keyboardMultiplexer d) p.

Definition this : KM (Driver P) := fun d => inr (d, d).
Definition modify (f : Driver P -> Driver P) : KM unit := fun d => inr (tt, f d).
Definition host {A} (f : P -> A * P) : KM A := fun d => let '(x, p) := f (ports d) in inr (x, set_ports p d).
Definition host_ (f : P -> P) : KM unit := fun d => inr (tt, set_ports (f (ports d)) d).

(** ** The controller *)

Definition PS2_COMMAND_PORT : Z := 0x64.
Definition PS2_STATUS_PORT : Z := 0x64.
Definition PS2_DATA_PORT : Z := 0x60.
Definition PS2_READ_CONFIG : Z := 0x20.
Definition PS2_WRITE_CONFIG : Z := 0x60.
Definition PS2_TEST_PORT_1 : Z := 0xAB.
Definition PS2_DISABLE_PORT_1 : Z := 0xAD.
Definition PS2_ENABLE_PORT_1 : Z := 0xAE.
Definition PS2_DISABLE_PORT_2 : Z := 0xA7.
Definition PS2_ENABLE_PORT_2 : Z := 0xA8.
Definition PS2_IDENTIFY : Z := 0xF2.
Definition PS2_DISABLE_SCAN : Z := 0xF5.
Definition PS2_ACK : Z := 0xFA.
Definition PS2_RESET : Z := 0xFF.
Definition PS2_RESET_PASSED : Z := 0xAA.
Definition OUTPUT_BUFFER_STATUS : Z := 0x01.
Definition INPUT_BUFFER_STATUS : Z := 0x02.
Definition PS2_CONFIG_MASK : Z := 0x26.
Definition PS2_CONFIG_INT_1 : Z := 0x01.
Definition PS2_CONFIG_INT_2 : Z := 0x02.
Definition PS2_CONFIG_PORT_2_CLK : Z := 0x20.
Definition PS2_CONFIG_TRANSLATION : Z := 0x40.
Definition TIMEOUT : nat := 1000.

Definition Delay : KM unit := host_ (outb 0x80 0x20).
Definition ReadStatus : KM Z := host (inb PS2_STATUS_PORT).
Definition IsOutputAvailable : KM bool := ReadStatus ≫= fun s => mret (hasflag s OUTPUT_BUFFER_STATUS).
Definition IsInputAvailable : KM bool := ReadStatus ≫= fun s => mret (negb (hasflag s INPUT_BUFFER_STATUS)).

(** [while (!pred());] *)
Fixpoint wait_for (fuel : nat) (pred : KM bool) : KM unit :=
  match fuel with
  | O => stop Hang
  | S fuel => pred ≫= fun ok : bool => if ok then mret tt else wait_for fuel pred
  end.
Definition WaitForOutput (fuel : nat) : KM unit := wait_for fuel IsOutputAvailable.
Definition WaitForInput (fuel : nat) : KM unit := wait_for fuel IsInputAvailable.

Definition SendCommand (command : Z) : KM unit := host_ (outb PS2_COMMAND_PORT command).
Definition ReadData : KM Z := host (inb PS2_DATA_PORT).
Definition WaitReadData (fuel : nat) : KM Z := WaitForOutput fuel ≫= fun _ => ReadData.
Definition SendData (data : Z) : KM unit := host_ (outb PS2_DATA_PORT data).
Definition WaitSendData (fuel : nat) (data : Z) : KM unit := WaitForInput fuel ≫= fun _ => SendData data.
Definition ReadConfig (fuel : nat) : KM Z := SendCommand PS2_READ_CONFIG ≫= fun _ => WaitReadData fuel.
Definition WriteConfig (fuel : nat) (config : Z) : KM unit := SendCommand PS2_WRITE_CONFIG ≫= fun _ => WaitSendData fuel config.

(** What the callback gives, if the predicate held in time. *)
Fixpoint TryTimeout {A} (timeout : nat) (pred : KM bool) (callback : KM A) : KM (option A) :=
  match timeout with
  | O => mret None
  | S timeout =>
      pred ≫= fun ok : bool =>
      if ok then callback ≫= fun x => mret (Some x) else Delay ≫= fun _ => TryTimeout timeout pred callback
  end.

Definition isSome {A} (o : option A) : bool := match o with Some _ => true | None => false end.

(** The byte is there, and it is [byte]. *)
Definition received (byte : Z) : KM bool :=
  IsOutputAvailable ≫= fun ok : bool => if ok then ReadData ≫= fun b => mret (b =? byte) else mret false.

Definition WaitForAck (timeout : nat) : KM bool := TryTimeout timeout (received PS2_ACK) (mret tt) ≫= fun o => mret (isSome o).

Definition SendCommandAndWaitAck (timeout : nat) (pred : KM bool) (command : Z) : KM bool :=
  TryTimeout timeout pred (mret tt) ≫= fun o =>
  match o with None => mret false | Some _ => SendData command ≫= fun _ => WaitForAck timeout end.

Definition IdentifyPort1 : KM (option Z) :=
  SendCommandAndWaitAck TIMEOUT IsInputAvailable PS2_DISABLE_SCAN ≫= fun ok : bool =>
  if negb ok then mret None
  else
    SendCommandAndWaitAck TIMEOUT IsInputAvailable PS2_IDENTIFY ≫= fun ok : bool =>
    if negb ok then mret None
    else
      TryTimeout TIMEOUT IsOutputAvailable ReadData ≫= fun o =>
      match o with
      | None => mret None
      | Some low =>
          TryTimeout TIMEOUT IsOutputAvailable ReadData ≫= fun o =>
          mret (Some (match o with None => low | Some high => Z.lor low (u16 (Z.shiftl high 8)) end))
      end.

Definition ResetPort1 : KM bool :=
  IdentifyPort1 ≫= fun identity =>
  match identity with
  | None => mret false
  | Some identity =>
      if identity =? 0xFFFF then mret false
      else
        TryTimeout TIMEOUT IsInputAvailable (SendData PS2_RESET) ≫= fun o =>
        if negb (isSome o) then mret false
        else
          TryTimeout TIMEOUT (received PS2_ACK) (mret tt) ≫= fun o =>
          if negb (isSome o) then mret false
          else TryTimeout TIMEOUT (received PS2_RESET_PASSED) (mret tt) ≫= fun o => mret (isSome o)
  end.

(** The second channel, if the controller has one. *)
Definition detect_port_2 (fuel : nat) : KM unit :=
  SendCommand PS2_ENABLE_PORT_2 ≫= fun _ =>
  ReadConfig fuel ≫= fun config =>
  if Z.land config PS2_CONFIG_PORT_2_CLK =? 0 then
    SendCommand PS2_DISABLE_PORT_2 ≫= fun _ =>
    ReadConfig fuel ≫= fun config =>
    WriteConfig fuel (Z.land config (bnot 8 (Z.lor PS2_CONFIG_INT_2 PS2_CONFIG_PORT_2_CLK)))
  else mret tt.

Definition InitializeController (fuel : nat) : KM bool :=
  SendCommand PS2_DISABLE_PORT_1 ≫= fun _ =>
  SendCommand PS2_DISABLE_PORT_2 ≫= fun _ =>
  ReadData ≫= fun _ =>
  ReadConfig fuel ≫= fun config =>
  let config := Z.land config PS2_CONFIG_MASK in
  WriteConfig fuel config ≫= fun _ =>
  WriteConfig fuel config ≫= fun _ =>
  detect_port_2 fuel ≫= fun _ =>
  SendCommand PS2_TEST_PORT_1 ≫= fun _ =>
  WaitReadData fuel ≫= fun result =>
  if negb (result =? 0x00) then mret false
  else
    SendCommand PS2_ENABLE_PORT_1 ≫= fun _ =>
    ReadConfig fuel ≫= fun config =>
    WriteConfig fuel (Z.lor config PS2_CONFIG_INT_1) ≫= fun _ =>
    ReadConfig fuel ≫= fun config =>
    let translation := hasflag config PS2_CONFIG_TRANSLATION in
    modify (fun d => set_forces translation (forces_port2_interrupts d) d) ≫= fun _ =>
    ReadConfig fuel ≫= fun config =>
    modify (fun d => set_forces (forces_translation d) (hasflag config PS2_CONFIG_INT_2) d) ≫= fun _ =>
    ResetPort1.

Definition ControllerForcesTranslation : KM bool := this ≫= fun d => mret (forces_translation d).
Definition ControllerForcesPort2Interrupts : KM bool := this ≫= fun d => mret (forces_port2_interrupts d).

Definition SendBytePort1 (data : Z) : KM bool :=
  TryTimeout TIMEOUT IsInputAvailable (mret tt) ≫= fun o =>
  match o with None => mret false | Some _ => SendData data ≫= fun _ => mret true end.

Definition RecvBytePort1 : KM (option Z) :=
  TryTimeout TIMEOUT IsOutputAvailable (mret tt) ≫= fun o =>
  match o with None => mret None | Some _ => ReadData ≫= fun b => mret (Some b) end.

(** ** The keyboard: commands *)

Definition SCAN_CODE_SET_1 : Z := 0x01.
Definition SCAN_CODE_SET_2 : Z := 0x02.
Definition SCAN_CODE_SET_3 : Z := 0x03.
Definition MAX_RETRY : Z := 3.
Definition FATAL_ERROR : Z := 0xDEADBEEF.
Definition INTERNAL_ERROR : Z := 0xBAAAAAAD.
Definition RESET_PASSED : Z := 0xAA.
Definition SET_LEDS : Z := 0xED.
Definition ECHO : Z := 0xEE.
Definition SCAN_CODE_SET_INTERACT : Z := 0xF0.
Definition ENABLE_SCANNING : Z := 0xF4.
Definition KBD_ACK : Z := 0xFA.
Definition KBD_RESEND : Z := 0xFE.
Definition KBD_RESET : Z := 0xFF.
Definition GET_SCAN_CODE_SET : Z := 0x00.
Definition PS2_PORT1_ISA_IRQ_VECTOR : Z := 1.
Definition PS2_PORT2_ISA_IRQ_VECTOR : Z := 12.

(** [attempt] until it answers, [n] times at most. *)
Fixpoint retry (n : nat) (attempt : KM (option Z)) : KM Z :=
  match n with
  | O => mret INTERNAL_ERROR
  | S n => attempt ≫= fun o => match o with Some status => mret status | None => retry n attempt end
  end.

Definition answered : KM (option Z) :=
  RecvBytePort1 ≫= fun o =>
  mret (match o with Some status => if status =? KBD_RESEND then None else Some status | None => None end).

Definition Keyboard_SendCommand (command : Z) : KM Z :=
  retry (Z.to_nat MAX_RETRY) (SendBytePort1 command ≫= fun ok : bool => if ok then answered else mret None).

Definition SendCommandData (command data : Z) : KM Z :=
  retry (Z.to_nat MAX_RETRY)
    (SendBytePort1 command ≫= fun ok : bool =>
     if ok then
       RecvBytePort1 ≫= fun o =>
       match o with
       | Some status =>
           if status =? KBD_ACK then SendBytePort1 data ≫= fun ok : bool => if ok then answered else mret None else mret None
       | None => mret None
       end
     else mret None).

Definition DisableKeyboard : KM unit := host_ (MaskIRQ PS2_PORT1_ISA_IRQ_VECTOR).

(** ** The keyboard: errors *)

Fixpoint HandleInternalError (fuel : nat) : KM Z :=
  match fuel with
  | O => stop Hang
  | S fuel =>
      modify (fun d => set_errors (u32 (errorCount d + 1)) d) ≫= fun _ =>
      this ≫= fun d =>
      if MAX_RETRY <=? errorCount d then DisableKeyboard ≫= fun _ => mret FATAL_ERROR
      else
        Keyboard_SendCommand KBD_RESET ≫= fun status =>
        if negb (status =? 0) then HandleInternalError fuel
        else
          RecvBytePort1 ≫= fun o =>
          match o with
          | Some b => if b =? RESET_PASSED then mret 0 else HandleInternalError fuel
          | None => HandleInternalError fuel
          end
  end.

Definition MitigateInternalError : KM unit :=
  modify (fun d => if 0 <? errorCount d then set_errors (errorCount d - 1) d else d).

(** What the four functions that follow share: an error is handled, and the
    function starts again unless the handling failed. *)
Definition or_again (fuel : nat) (again : KM Z) : KM Z :=
  HandleInternalError fuel ≫= fun r => if negb (r =? 0) then mret FATAL_ERROR else again.

(** The result and what [*scanCodeSet] becomes. *)
Fixpoint GetScanCodeSet (fuel : nat) (scanCodeSet : Z) : KM (Z * Z) :=
  match fuel with
  | O => stop Hang
  | S n =>
      let again :=
        HandleInternalError fuel ≫= fun r => if negb (r =? 0) then mret (FATAL_ERROR, scanCodeSet) else GetScanCodeSet n scanCodeSet in
      SendCommandData SCAN_CODE_SET_INTERACT GET_SCAN_CODE_SET ≫= fun status =>
      if status =? INTERNAL_ERROR then again
      else if negb (status =? KBD_ACK) then again
      else
        RecvBytePort1 ≫= fun o =>
        match o with None => again | Some code => MitigateInternalError ≫= fun _ => mret (0, code) end
  end.

Fixpoint SetScanCodeSet (fuel : nat) (scanCodeSet : Z) : KM Z :=
  match fuel with
  | O => stop Hang
  | S n =>
      SendCommandData SCAN_CODE_SET_INTERACT scanCodeSet ≫= fun status =>
      if status =? INTERNAL_ERROR then or_again fuel (SetScanCodeSet n scanCodeSet)
      else if negb (status =? KBD_ACK) then or_again fuel (SetScanCodeSet n scanCodeSet)
      else MitigateInternalError ≫= fun _ => mret 0
  end.

Fixpoint ResetLEDS (fuel : nat) : KM Z :=
  match fuel with
  | O => stop Hang
  | S n =>
      SendCommandData SET_LEDS 0 ≫= fun status =>
      if status =? INTERNAL_ERROR then or_again fuel (ResetLEDS n)
      else if negb (status =? KBD_ACK) then or_again fuel (ResetLEDS n)
      else MitigateInternalError ≫= fun _ => mret 0
  end.

Fixpoint EchoCheck (fuel : nat) : KM Z :=
  match fuel with
  | O => stop Hang
  | S n =>
      Keyboard_SendCommand ECHO ≫= fun status =>
      if status =? INTERNAL_ERROR then or_again fuel (EchoCheck n)
      else if negb (status =? ECHO) then or_again fuel (EchoCheck n)
      else MitigateInternalError ≫= fun _ => mret 0
  end.

(** The first test is the opposite of the others, as in the source. *)
Fixpoint EnableScanning (fuel : nat) : KM Z :=
  match fuel with
  | O => stop Hang
  | S n =>
      Keyboard_SendCommand ENABLE_SCANNING ≫= fun status =>
      if status =? INTERNAL_ERROR then
        HandleInternalError fuel ≫= fun r => if r =? 0 then mret FATAL_ERROR else EnableScanning n
      else if negb (status =? KBD_ACK) then HandleInternalError fuel ≫= fun _ => mret FATAL_ERROR
      else MitigateInternalError ≫= fun _ => mret 0
  end.

(** ** The keyboard: interrupts *)

(** The converter that was selected, with its own state. *)
Definition convert (byte : Z) : KM EventResponse :=
  this ≫= fun d =>
  or_stop NullAccess (keyboardEventConverter d) ≫= fun c =>
  match c with
  | ScanCodeSet1 =>
      or_stop WildAccess (KeyboardScanCodeSet1Handler (set1_state d) byte) ≫= fun '(s, r) =>
      modify (set_decoders s (set2_state d) (set3_state d)) ≫= fun _ => mret r
  | ScanCodeSet2 =>
      or_stop WildAccess (KeyboardScanCodeSet2Handler (set2_state d) byte) ≫= fun '(s, r) =>
      modify (set_decoders (set1_state d) s (set3_state d)) ≫= fun _ => mret r
  | ScanCodeSet3 =>
      or_stop WildAccess (KeyboardScanCodeSet3Handler (set3_state d) byte) ≫= fun '(s, r) =>
      modify (set_decoders (set1_state d) (set2_state d) s) ≫= fun _ => mret r
  end.

(** [keyboardMultiplexer->Write(0, sizeof(packet), &packet)] *)
Definition deliver (p : BasicKeyPacket) : KM unit :=
  this ≫= fun d =>
  or_stop NullAccess (keyboardMultiplexer d) ≫= fun q =>
  match Write bufferSize PACKET_SIZE (packet_bytes p) q with
  | inl e => stop e
  | inr (_, q) => modify (set_multiplexer (Some q))
  end.

Definition PS2KeyboardEventHandler : KM unit :=
  RecvBytePort1 ≫= fun o =>
  host_ SendEOI ≫= fun _ =>
  match o with
  | None => mret tt
  | Some byte => convert byte ≫= fun r => match r with IGNORE => mret tt | PACKET_CREATED p => deliver p end
  end.

Definition PS2FlushSecondChannel : KM unit := RecvBytePort1 ≫= fun _ => host_ SendEOI.

(** ** The keyboard: initialisation *)

(** Whether a converter was chosen, or the initialisation given up. *)
Definition select_converter (fuel : nat) : KM bool :=
  let chosen c := modify (set_converter (Some c)) ≫= fun _ => mret true in
  ControllerForcesTranslation ≫= fun forced : bool =>
  if forced then chosen ScanCodeSet1
  else
    GetScanCodeSet fuel 0 ≫= fun '(r, scanCodeSet) =>
    if r =? FATAL_ERROR then mret false
    else if scanCodeSet =? SCAN_CODE_SET_1 then chosen ScanCodeSet1
    else if scanCodeSet =? SCAN_CODE_SET_2 then chosen ScanCodeSet2
    else if scanCodeSet =? SCAN_CODE_SET_3 then chosen ScanCodeSet3
    else
      SetScanCodeSet fuel SCAN_CODE_SET_2 ≫= fun r =>
      if r =? FATAL_ERROR then mret true             (* logged, and nothing more *)
      else
        GetScanCodeSet fuel scanCodeSet ≫= fun '(r, scanCodeSet) =>
        if r =? FATAL_ERROR then mret false
        else if scanCodeSet =? SCAN_CODE_SET_2 then chosen ScanCodeSet2
        else mret false.

Definition ps2_irq (vector logical : Z) : IRQDescriptor := mkIRQ (u8 vector) FIXED Logical ACTIVE_HIGH EDGE false logical.

Definition attach_interrupts : KM bool :=
  host ReserveInterrupt ≫= fun vector =>
  if vector <? 0 then mret false
  else
    host_ (RegisterIRQ vector true) ≫= fun _ =>
    host GetLAPICLogicalID ≫= fun logical =>
    host_ (SetupIRQ PS2_PORT1_ISA_IRQ_VECTOR (ps2_irq vector logical)) ≫= fun _ =>
    ControllerForcesPort2Interrupts ≫= fun forced : bool =>
    if forced then
      host ReserveInterrupt ≫= fun vector2 =>
      if vector2 <? 0 then DisableKeyboard ≫= fun _ => host_ (ReleaseIRQ vector) ≫= fun _ => mret false
      else
        host_ (RegisterIRQ vector2 false) ≫= fun _ =>
        host GetLAPICLogicalID ≫= fun logical =>
        host_ (SetupIRQ PS2_PORT2_ISA_IRQ_VECTOR (ps2_irq vector2 logical)) ≫= fun _ => mret true
    else mret true.

(** Whether it succeeds. *)
Definition InitializeKeyboard (fuel : nat) (keyboardMultiplex : Buffer) : KM bool :=
  ResetLEDS fuel ≫= fun r =>
  if r =? FATAL_ERROR then mret false
  else
    select_converter fuel ≫= fun ok : bool =>
    if negb ok then mret false
    else
      EchoCheck fuel ≫= fun r =>
      if r =? FATAL_ERROR then mret false
      else
        EnableScanning fuel ≫= fun r =>
        if r =? FATAL_ERROR then DisableKeyboard ≫= fun _ => mret false
        else modify (set_multiplexer (Some keyboardMultiplex)) ≫= fun _ => attach_interrupts.
End Ps2.
