(* ===== verification/Ps2Props.v ===== *)
(** * From the keys of a PS/2 keyboard to the queue, and its errors *)
From S2P Require Import DataNode Keypoints KeyboardQueue KeyboardQueueProps Apic Ps2 Prelude.

Lemma kbind_run {W A B} (m : io W A) (f : A -> io W B) w x w' : m w = inr (x, w') -> (m ≫= f) w = f x w'.
Proof. intros E. unfold mbind, io_bind. by rewrite E. Qed.

(** A run that returns, whatever the state. *)
Definition total {W A} (m : io W A) : Prop := forall w, exists x w', m w = inr (x, w').

Lemma total_bind {W A B} (m : io W A) (f : A -> io W B) : total m -> (forall x, total (f x)) -> total (m ≫= f).
Proof. intros Hm Hf w. destruct (Hm w) as (x & w' & E). erewrite kbind_run by exact E. apply Hf. Qed.

Section Host.
Context {P : Type} `{!Ps2Host P}.
Implicit Types d : Driver P.

(** ** Waiting under a timeout *)

Lemma TryTimeout_now {A} n (pred : io (Driver P) bool) (callback : io (Driver P) A) d d1 :
  pred d = inr (true, d1) -> TryTimeout (S n) pred callback d = (callback ≫= fun x => mret (Some x)) d1.
Proof. intros E. cbn [TryTimeout]. by erewrite kbind_run by exact E. Qed.

Lemma TIMEOUT_succ : TIMEOUT = S 999.
Proof. reflexivity. Qed.

Lemma total_host {A} (f : P -> A * P) : total (host f).
Proof. intros d. unfold host. destruct (f (ports d)). eauto. Qed.

Lemma total_try {A} n (pred : io (Driver P) bool) (callback : io (Driver P) A) : total pred -> total callback -> total (TryTimeout n pred callback).
Proof.
  intros Hp Hc. induction n as [|n IH]; [intros d; eexists _, _; reflexivity|]. cbn [TryTimeout]. apply total_bind; [done|]. intros ok. destruct ok.
  - apply total_bind; [done|]. intros x d. eexists _, _; reflexivity.
  - apply total_bind; [intros d; eexists _, _; reflexivity|done].
Qed.

Lemma total_output : total (W:=Driver P) IsOutputAvailable.
Proof. apply total_bind; [apply total_host|]. intros x d. eexists _, _; reflexivity. Qed.

Lemma total_ret {A} (x : A) : total (W:=Driver P) (mret x).
Proof. intros d. eexists _, _. reflexivity. Qed.
Lemma total_host_ (f : P -> P) : total (host_ f).
Proof. intros d. eexists _, _. reflexivity. Qed.

Ltac totally :=
  repeat first
    [ apply total_ret | apply total_host | apply total_host_ | apply total_output
    | apply total_try | apply total_bind; [|intros ?]
    | match goal with |- total (match ?x with _ => _ end) => destruct x end ].

Lemma total_input : total (W:=Driver P) IsInputAvailable.
Proof. unfold IsInputAvailable, ReadStatus. totally. Qed.

Lemma total_SendByte b : total (W:=Driver P) (SendBytePort1 b).
Proof. unfold SendBytePort1, SendData. totally. Qed.
Lemma total_RecvByte : total (W:=Driver P) RecvBytePort1.
Proof. unfold RecvBytePort1, ReadData. totally. Qed.

Lemma total_retry n (attempt : io (Driver P) (option Z)) : total attempt -> total (retry n attempt).
Proof. intros Ha. induction n; cbn [retry]; totally; done. Qed.

Lemma total_command b : total (W:=Driver P) (Keyboard_SendCommand b).
Proof. apply total_retry. unfold answered. totally; auto using total_SendByte, total_RecvByte. Qed.
Lemma total_command_data b c : total (W:=Driver P) (SendCommandData b c).
Proof. apply total_retry. unfold answered. totally; auto using total_SendByte, total_RecvByte. Qed.

(** None of the exchanges touches the count of errors. *)
Definition keeps {A} (m : io (Driver P) A) : Prop := forall d x d', m d = inr (x, d') -> errorCount d' = errorCount d.

Lemma errors_kept_bind {A B} (m : io (Driver P) A) (f : A -> io (Driver P) B) : keeps m -> (forall x, keeps (f x)) -> keeps (m ≫= f).
Proof.
  intros Hm Hf d y d' E. unfold mbind, io_bind in E. destruct (m d) as [|[x d1]] eqn:E1; [done|].
  rewrite (Hf _ _ _ _ E). by apply (Hm _ _ _ E1).
Qed.
Lemma errors_kept_ret {A} (x : A) : keeps (mret x).
Proof. by intros d y d' [= _ ->]. Qed.
Lemma errors_kept_host {A} (f : P -> A * P) : keeps (host f).
Proof. intros d x d'. unfold host. destruct (f (ports d)). by intros [= _ <-]. Qed.
Lemma errors_kept_host_ (f : P -> P) : keeps (host_ f).
Proof. by intros d x d' [= _ <-]. Qed.
Lemma keeps_try {A} n (pred : io (Driver P) bool) (callback : io (Driver P) A) : keeps pred -> keeps callback -> keeps (TryTimeout n pred callback).
Proof.
  intros Hp Hc. induction n as [|n IH]; cbn [TryTimeout]; [apply errors_kept_ret|]. apply errors_kept_bind; [done|]. intros ok. destruct ok.
  - apply errors_kept_bind; [done|]. intros. apply errors_kept_ret.
  - apply errors_kept_bind; [apply errors_kept_host_|done].
Qed.

Ltac kept :=
  repeat first
    [ apply errors_kept_ret | apply errors_kept_host | apply errors_kept_host_ | apply keeps_try | apply errors_kept_bind; [|intros ?]
    | match goal with |- keeps (match ?x with _ => _ end) => destruct x end ].

Lemma keeps_SendByte b : keeps (SendBytePort1 b).
Proof. unfold SendBytePort1, IsInputAvailable, ReadStatus, SendData. kept. Qed.
Lemma keeps_RecvByte : keeps RecvBytePort1.
Proof. unfold RecvBytePort1, IsOutputAvailable, ReadStatus, ReadData. kept. Qed.
Lemma keeps_retry n (attempt : io (Driver P) (option Z)) : keeps attempt -> keeps (retry n attempt).
Proof. intros Ha. induction n; cbn [retry]; kept; done. Qed.
Lemma keeps_command b : keeps (Keyboard_SendCommand b).
Proof. apply keeps_retry. unfold answered. kept; auto using keeps_SendByte, keeps_RecvByte. Qed.
Lemma keeps_command_data b c : keeps (SendCommandData b c).
Proof. apply keeps_retry. unfold answered. kept; auto using keeps_SendByte, keeps_RecvByte. Qed.

(** ** The functions that recover from errors end *)

(** An error is handled, or it was one too many. *)
Lemma HandleInternalError_run fuel d : 0 <= errorCount d < 2 ^ 32 - 1 -> (0 < fuel)%nat -> 3 <= Z.of_nat fuel + errorCount d ->
  exists r d', HandleInternalError fuel d = inr (r, d') /\
    ((r = 0 /\ errorCount d < errorCount d' < 3) \/ (r = FATAL_ERROR /\ 3 <= errorCount d' < 2 ^ 32)).
Proof.
  revert d. induction fuel as [|fuel IH]; intros d Hr Hf He; [lia|]. cbn [HandleInternalError].
  erewrite kbind_run by reflexivity. erewrite kbind_run by reflexivity. cbn [errorCount set_errors]. rewrite wrap_small by lia.
  set (d1 := set_errors _ d). unfold MAX_RETRY. destruct (Z.leb_spec 3 (errorCount d + 1)).
  { erewrite kbind_run by reflexivity. eexists _, _. split; [reflexivity|]. right. cbn. split; [done|lia]. }
  destruct (total_command KBD_RESET d1) as (status & d2 & E2). erewrite kbind_run by exact E2.
  pose proof (keeps_command _ _ _ _ E2) as K2. change (errorCount d1) with (errorCount d + 1) in K2.
  assert (Hagain : forall d3, errorCount d3 = errorCount d + 1 -> exists r d', HandleInternalError fuel d3 = inr (r, d') /\
      ((r = 0 /\ errorCount d < errorCount d' < 3) \/ (r = FATAL_ERROR /\ 3 <= errorCount d' < 2 ^ 32))).
  { intros d3 H3. destruct (IH d3 ltac:(lia) ltac:(lia) ltac:(lia)) as (r & d' & E & Hd). exists r, d'. split; [done|]. lia. }
  destruct (negb (status =? 0)); [by apply Hagain|].
  destruct (total_RecvByte d2) as (o & d3 & E3). erewrite kbind_run by exact E3. pose proof (keeps_RecvByte _ _ _ E3) as K3.
  destruct o as [b|]; [destruct (b =? RESET_PASSED)|]; [|apply Hagain; lia..]. eexists _, _. split; [reflexivity|]. left. split; [done|lia].
Qed.

(** The outcome of a query: done, or an error too many. *)
Definition settled (r : Z) d : Prop :=
  (r = 0 /\ 0 <= errorCount d < 2 ^ 32 - 1) \/ (r = FATAL_ERROR /\ 3 <= errorCount d < 2 ^ 32).

Lemma mitigated d : 0 <= errorCount d < 2 ^ 32 - 1 -> exists d', MitigateInternalError d = inr (tt, d') /\ 0 <= errorCount d' < 2 ^ 32 - 1.
Proof. intros Hd. eexists. split; [reflexivity|]. destruct (Z.ltb_spec 0 (errorCount d)); cbn; lia. Qed.

Lemma or_again_run fuel d (again : io (Driver P) Z) : 0 <= errorCount d < 2 ^ 32 - 1 -> (0 < fuel)%nat -> 3 <= Z.of_nat fuel + errorCount d ->
  (forall d', errorCount d < errorCount d' < 3 -> exists r d2, again d' = inr (r, d2) /\ settled r d2) ->
  exists r d', or_again fuel again d = inr (r, d') /\ settled r d'.
Proof.
  intros Hd Hf He Hagain. unfold or_again. destruct (HandleInternalError_run fuel d Hd Hf He) as (r & d1 & E & H). erewrite kbind_run by exact E.
  destruct H as [[-> H]|[-> H]]; cbn [Z.eqb negb]; [by apply Hagain|]. eexists _, _. split; [reflexivity|]. by right.
Qed.

Ltac query n d IH lem keep :=
  destruct (lem d) as (status & d1 & E1); erewrite kbind_run by exact E1; pose proof (keep _ _ _ E1) as K1;
  destruct (status =? INTERNAL_ERROR); [|destruct (negb _)];
  [ apply or_again_run; [lia..|intros d' Hd'; apply IH; lia] | apply or_again_run; [lia..|intros d' Hd'; apply IH; lia]
  | destruct (mitigated d1 ltac:(lia)) as (d2 & E2 & H2); erewrite kbind_run by exact E2; eexists _, _; split; [reflexivity|by left] ].

Lemma ResetLEDS_run fuel d : 0 <= errorCount d < 2 ^ 32 - 1 -> (0 < fuel)%nat -> 3 <= Z.of_nat fuel + errorCount d ->
  exists r d', ResetLEDS fuel d = inr (r, d') /\ settled r d'.
Proof.
  revert d. induction fuel as [|n IH]; intros d Hd Hf He; [lia|]. cbn [ResetLEDS].
  query n d IH (total_command_data SET_LEDS 0) (keeps_command_data SET_LEDS 0).
Qed.

Lemma SetScanCodeSet_run fuel c d : 0 <= errorCount d < 2 ^ 32 - 1 -> (0 < fuel)%nat -> 3 <= Z.of_nat fuel + errorCount d ->
  exists r d', SetScanCodeSet fuel c d = inr (r, d') /\ settled r d'.
Proof.
  revert d. induction fuel as [|n IH]; intros d Hd Hf He; [lia|]. cbn [SetScanCodeSet].
  query n d IH (total_command_data SCAN_CODE_SET_INTERACT c) (keeps_command_data SCAN_CODE_SET_INTERACT c).
Qed.

Lemma EchoCheck_run fuel d : 0 <= errorCount d < 2 ^ 32 - 1 -> (0 < fuel)%nat -> 3 <= Z.of_nat fuel + errorCount d ->
  exists r d', EchoCheck fuel d = inr (r, d') /\ settled r d'.
Proof.
  revert d. induction fuel as [|n IH]; intros d Hd Hf He; [lia|]. cbn [EchoCheck].
  query n d IH (total_command ECHO) (keeps_command ECHO).
Qed.

Lemma GetScanCodeSet_run fuel c d : 0 <= errorCount d < 2 ^ 32 - 1 -> (0 < fuel)%nat -> 3 <= Z.of_nat fuel + errorCount d ->
  exists r code d', GetScanCodeSet fuel c d = inr ((r, code), d') /\ settled r d'.
Proof.
  revert d. induction fuel as [|n IH]; intros d Hd Hf He; [lia|]. cbn [GetScanCodeSet].
  destruct (total_command_data SCAN_CODE_SET_INTERACT GET_SCAN_CODE_SET d) as (status & d1 & E1). erewrite kbind_run by exact E1.
  pose proof (keeps_command_data _ _ _ _ _ E1) as K1.
  assert (Hagain : forall d1, errorCount d1 = errorCount d -> exists r code d',
    (HandleInternalError (S n) ≫= fun r => if negb (r =? 0) then mret (FATAL_ERROR, c) else GetScanCodeSet n c) d1 = inr ((r, code), d') /\ settled r d').
  { intros d2 K2. destruct (HandleInternalError_run (S n) d2 ltac:(lia) ltac:(lia) ltac:(lia)) as (r & d3 & E3 & H3). erewrite kbind_run by exact E3.
    destruct H3 as [[-> H3]|[-> H3]]; cbn [Z.eqb negb]; [apply IH; lia|]. eexists _, _, _. split; [reflexivity|]. by right. }
  destruct (status =? INTERNAL_ERROR); [by apply Hagain|]. destruct (negb (status =? KBD_ACK)); [by apply Hagain|].
  destruct (total_RecvByte d1) as (o & d2 & E2). erewrite kbind_run by exact E2. pose proof (keeps_RecvByte _ _ _ E2) as K2.
  destruct o as [code|]; [|apply Hagain; lia]. destruct (mitigated d2 ltac:(lia)) as (d3 & E3 & H3). erewrite kbind_run by exact E3.
  eexists _, _, _. split; [reflexivity|]. by left.
Qed.

(** Whatever the keyboard answers, or not, each query of the initialisation
    but the last ends after at most four attempts: it succeeded, or three errors
    were counted and it reports a fatal one. *)
Theorem queries_return fuel c d : 0 <= errorCount d < 2 ^ 32 - 1 -> (4 <= fuel)%nat ->
  (exists r d', ResetLEDS fuel d = inr (r, d') /\ settled r d') /\
  (exists r code d', GetScanCodeSet fuel c d = inr ((r, code), d') /\ settled r d') /\
  (exists r d', SetScanCodeSet fuel c d = inr (r, d') /\ settled r d') /\
  (exists r d', EchoCheck fuel d = inr (r, d') /\ settled r d').
Proof.
  intros Hd Hf. split; [apply ResetLEDS_run; lia|]. split; [apply GetScanCodeSet_run; lia|].
  split; [apply SetScanCodeSet_run; lia|apply EchoCheck_run; lia].
Qed.

(** A keyboard that never answers a reset with 0, and its specification has
    it answer with an acknowledgement, is given up at the first error: handling
    an error, three resets are sent and none is found to succeed. *)
Theorem resets_never_succeed fuel d r d' :
  (forall d x d', Keyboard_SendCommand KBD_RESET d = inr (x, d') -> x <> 0) ->
  HandleInternalError fuel d = inr (r, d') -> r = FATAL_ERROR.
Proof.
  intros Hk. revert d. induction fuel as [|fuel IH]; intros d E; [done|]. cbn [HandleInternalError] in E.
  erewrite kbind_run in E by reflexivity. erewrite kbind_run in E by reflexivity.
  destruct (MAX_RETRY <=? _); [erewrite kbind_run in E by reflexivity; by injection E as <-|].
  destruct (total_command KBD_RESET (set_errors (u32 (errorCount d + 1)) d)) as (status & d2 & E2). erewrite kbind_run in E by exact E2.
  rewrite (proj2 (Z.eqb_neq status 0)) in E by (by apply (Hk _ _ _ E2)). by apply (IH d2).
Qed.

(** ** A keyboard that is silent *)

(** The controller takes every byte, and nothing ever comes back. *)
Class Silence := {
  silent : P -> Prop;
  silent_status p : silent p -> hasflag (fst (inb PS2_STATUS_PORT p)) OUTPUT_BUFFER_STATUS = false /\
    hasflag (fst (inb PS2_STATUS_PORT p)) INPUT_BUFFER_STATUS = false /\ silent (snd (inb PS2_STATUS_PORT p));
  silent_outb a b p : silent p -> silent (outb a b p);
  silent_MaskIRQ i p : silent p -> silent (MaskIRQ i p) }.

Section Silent.
Context `{Quiet : Silence}.

Lemma silent_output d : silent (ports d) -> exists d', IsOutputAvailable d = inr (false, d') /\ silent (ports d').
Proof.
  intros Hs. destruct (silent_status _ Hs) as (Ho & _ & Hn). unfold IsOutputAvailable, ReadStatus, host.
  destruct (inb PS2_STATUS_PORT (ports d)) as [s p] eqn:E. erewrite kbind_run by (cbn; rewrite E; reflexivity).
  cbn in Ho, Hn. rewrite Ho. by eexists.
Qed.

Lemma silent_try {A} n (callback : io (Driver P) A) d : silent (ports d) ->
  exists d', TryTimeout n IsOutputAvailable callback d = inr (None, d') /\ silent (ports d').
Proof.
  revert d. induction n as [|n IH]; intros d Hs; cbn [TryTimeout]; [by exists d|].
  destruct (silent_output d Hs) as (d1 & E1 & H1). erewrite kbind_run by exact E1. cbv iota beta. erewrite kbind_run by reflexivity.
  apply IH. cbn. by apply silent_outb.
Qed.

Lemma silent_recv d : silent (ports d) -> exists d', RecvBytePort1 d = inr (None, d') /\ silent (ports d').
Proof.
  intros Hs. unfold RecvBytePort1. destruct (silent_try TIMEOUT (mret tt) d Hs) as (d1 & E1 & H1). erewrite kbind_run by exact E1. by exists d1.
Qed.

Lemma silent_send b d : silent (ports d) -> exists d', SendBytePort1 b d = inr (true, d') /\ silent (ports d').
Proof.
  intros Hs. destruct (silent_status _ Hs) as (_ & Hi & Hn). unfold SendBytePort1. rewrite TIMEOUT_succ.
  destruct (inb PS2_STATUS_PORT (ports d)) as [s p] eqn:E. cbn in Hi, Hn.
  erewrite kbind_run. 2: { erewrite TryTimeout_now; [reflexivity|]. unfold IsInputAvailable, ReadStatus, host.
    erewrite kbind_run by (cbn; rewrite E; reflexivity). rewrite Hi. reflexivity. }
  eexists. split; [reflexivity|]. cbn. by apply silent_outb.
Qed.

Lemma silent_command b d : silent (ports d) -> exists d', Keyboard_SendCommand b d = inr (INTERNAL_ERROR, d') /\ silent (ports d').
Proof.
  unfold Keyboard_SendCommand. generalize (Z.to_nat MAX_RETRY) as n. intros n. revert d. induction n as [|n IH]; intros d Hs; cbn [retry]; [by exists d|].
  destruct (silent_send b d Hs) as (d1 & E1 & H1). destruct (silent_recv d1 H1) as (d2 & E2 & H2).
  erewrite kbind_run. 2: { erewrite kbind_run by exact E1. unfold answered. erewrite kbind_run by exact E2. reflexivity. }
  by apply IH.
Qed.

Lemma silent_error fuel d : silent (ports d) ->
  HandleInternalError fuel d = inl Hang \/ exists d', HandleInternalError fuel d = inr (FATAL_ERROR, d') /\ silent (ports d').
Proof.
  revert d. induction fuel as [|fuel IH]; intros d Hs; cbn [HandleInternalError]; [by left|].
  erewrite kbind_run by reflexivity. erewrite kbind_run by reflexivity.
  destruct (MAX_RETRY <=? _).
  - right. eexists. split; [reflexivity|]. cbn. by apply silent_MaskIRQ.
  - destruct (silent_command KBD_RESET (set_errors (u32 (errorCount d + 1)) d) Hs) as (d1 & E1 & H1). erewrite kbind_run by exact E1. by apply IH.
Qed.

(** If the keyboard falls silent before its scanning is enabled, the
    initialisation never ends: the failure of the recovery is taken for its
    success, and the command is sent again for ever. *)
Theorem silent_keyboard_hangs fuel d : silent (ports d) -> EnableScanning fuel d = inl Hang.
Proof.
  revert d. induction fuel as [|fuel IH]; intros d Hs; cbn [EnableScanning]; [done|].
  destruct (silent_command ENABLE_SCANNING d Hs) as (d1 & E1 & H1). erewrite kbind_run by exact E1. rewrite Z.eqb_refl.
  destruct (silent_error (S fuel) d1 H1) as [E2|(d2 & E2 & H2)].
  - unfold mbind, io_bind. by rewrite E2.
  - erewrite kbind_run by exact E2. by apply IH.
Qed.
End Silent.

(** ** Keys *)

(** The bytes the keyboard still has to give, one at each interrupt. *)
Class Supply := {
  supplies : P -> list Z -> Prop;
  supplied p b l : supplies p (b :: l) ->
    hasflag (fst (inb PS2_STATUS_PORT p)) OUTPUT_BUFFER_STATUS = true /\
    fst (inb PS2_DATA_PORT (snd (inb PS2_STATUS_PORT p))) = b /\
    supplies (SendEOI (snd (inb PS2_DATA_PORT (snd (inb PS2_STATUS_PORT p))))) l }.

Fixpoint interrupts (n : nat) : io (Driver P) unit :=
  match n with O => mret tt | S n => PS2KeyboardEventHandler ≫= fun _ => interrupts n end.

Section Keys.
Context `{Typed : Supply}.

Lemma handler_run d b l : supplies (ports d) (b :: l) -> exists p, supplies p l /\
  PS2KeyboardEventHandler d =
    (convert b ≫= fun r => match r with IGNORE => mret tt | PACKET_CREATED p => deliver p end) (set_ports p d).
Proof.
  intros Hs. destruct (supplied _ _ _ Hs) as (Ho & Hb & Hn).
  destruct (inb PS2_STATUS_PORT (ports d)) as [st p1] eqn:E1. cbn in Ho, Hb, Hn.
  destruct (inb PS2_DATA_PORT p1) as [x p2] eqn:E2. cbn in Hb, Hn. subst x. exists (SendEOI p2). split; [done|].
  unfold PS2KeyboardEventHandler, RecvBytePort1. rewrite TIMEOUT_succ.
  erewrite kbind_run. 2: { erewrite kbind_run. 2: { erewrite TryTimeout_now; [reflexivity|]. unfold IsOutputAvailable, ReadStatus, host.
      erewrite kbind_run by (cbn; rewrite E1; reflexivity). rewrite Ho. reflexivity. }
    cbn beta iota. unfold ReadData, host. erewrite kbind_run by (cbn; rewrite E2; reflexivity). reflexivity. }
  by erewrite kbind_run by reflexivity.
Qed.

Local Abbreviation queue_ok := (queue_ok bufferSize).
Local Abbreviation contents := (contents bufferSize).
Local Abbreviation room q := (Z.to_nat (CAPACITY bufferSize - Z.of_nat (length (contents q)))).

Lemma size_facts : bufferSize mod PACKET_SIZE = 0 /\ 0 < bufferSize < 2 ^ 62.
Proof. by vm_compute. Qed.

Lemma deliver_run d q p : keyboardMultiplexer d = Some q -> queue_ok q ->
  exists q', deliver p d = inr (tt, set_multiplexer (Some q') d) /\ queue_ok q' /\ contents q' = contents q ++ take (room q) [packet_bytes p].
Proof.
  intros Hq Hok. destruct size_facts as [Hm Hr]. unfold deliver. erewrite kbind_run by reflexivity. rewrite Hq. erewrite kbind_run by reflexivity.
  destruct (written_run bufferSize Hm Hr q PACKET_SIZE (packet_bytes p) Hok ltac:(done) ltac:(cbn; unfold PACKET_SIZE; lia)) as (q' & E & Hok' & Hl & Hn & Hs).
  rewrite E. exists q'. split; [done|]. split; [done|]. rewrite (length_contents bufferSize Hm Hr q Hok).
  change (PACKET_SIZE / 4) with (Z.of_nat (length [packet_bytes p])) in *.
  pose proof (count_in _ _ Hok).
  rewrite <- packets_of_take by (repeat constructor || lia). apply contents_written; auto; [lia|].
  intros k Hk. rewrite Hs by lia. repeat case_decide; try lia; reflexivity.
Qed.

(** The two sets whose converters have a state of their own. *)
Definition handler_of (c : ScanCodeSet) := match c with ScanCodeSet1 => KeyboardScanCodeSet1Handler | _ => KeyboardScanCodeSet2Handler end.
Definition state_of (c : ScanCodeSet) (d : Driver P) : kbd := match c with ScanCodeSet1 => set1_state d | _ => set2_state d end.
Definition encode_of (c : ScanCodeSet) : event -> list Z := match c with ScanCodeSet1 => encode1 | _ => encode2 end.
Definition expressible_of (c : ScanCodeSet) : event -> bool := match c with ScanCodeSet1 => expressible1 | _ => expressible2 end.
Definition expected_of (c : ScanCodeSet) (e : event) : option BasicKeyPacket :=
  match c with
  | ScanCodeSet1 => expected scan_code_set_1_keypoints ext_1_scan_code_set_1_keypoints (encode1 e) e
  | _ => expected scan_code_set_2_keypoints ext_1_scan_code_set_2_keypoints (encode2 e) e
  end.

Lemma convert_run c d b s r : c <> ScanCodeSet3 -> keyboardEventConverter d = Some c -> handler_of c (state_of c d) b = Some (s, r) ->
  exists d', convert b d = inr (r, d') /\ keyboardEventConverter d' = Some c /\ state_of c d' = s /\
    keyboardMultiplexer d' = keyboardMultiplexer d /\ ports d' = ports d.
Proof.
  intros Hc Hk E. unfold convert. erewrite kbind_run by reflexivity. rewrite Hk. erewrite kbind_run by reflexivity.
  destruct c; [| |done]; cbn [handler_of state_of] in E; rewrite E; (erewrite kbind_run by reflexivity); cbv iota beta; (erewrite kbind_run by reflexivity);
    eexists; (split; [reflexivity|]); done.
Qed.

Lemma interrupts_feed c bytes : c <> ScanCodeSet3 -> forall d q s' ps l,
  keyboardEventConverter d = Some c -> feed (handler_of c) (state_of c d) bytes = Some (s', ps) ->
  keyboardMultiplexer d = Some q -> queue_ok q -> supplies (ports d) (bytes ++ l) ->
  exists d' q', interrupts (length bytes) d = inr (tt, d') /\ state_of c d' = s' /\ keyboardEventConverter d' = Some c /\
    keyboardMultiplexer d' = Some q' /\ queue_ok q' /\ contents q' = contents q ++ take (room q) (packet_bytes <$> ps) /\ supplies (ports d') l.
Proof.
  intros Hc. induction bytes as [|b bytes IH]; intros d q s' ps l Hk Hf Hq Hok Hs; cbn [feed] in Hf.
  { injection Hf as <- <-. exists d, q. cbn [fmap list_fmap]. rewrite take_nil, app_nil_r. done. }
  destruct (handler_of c (state_of c d) b) as [[s1 r]|] eqn:E; [|done]. cbn [mbind option_bind] in Hf.
  destruct (feed (handler_of c) s1 bytes) as [[s2 ps']|] eqn:E2; [|done]. cbn [mbind option_bind] in Hf.
  destruct (handler_run d b (bytes ++ l) Hs) as (p & Hp & Eh). cbn [length interrupts].
  destruct (convert_run c (set_ports p d) b s1 r Hc Hk E) as (d1 & E1 & Hk1 & Hs1 & Hq1 & Hp1).
  change (keyboardMultiplexer (set_ports p d)) with (keyboardMultiplexer d) in Hq1. change (ports (set_ports p d)) with p in Hp1.
  destruct r as [|pk].
  - injection Hf as <- <-. erewrite kbind_run. 2: { rewrite Eh. erewrite kbind_run by exact E1. reflexivity. }
    apply IH; try done; congruence.
  - injection Hf as <- <-. destruct (deliver_run d1 q pk ltac:(congruence) Hok) as (q1 & Ed & Hok1 & Hc1).
    erewrite kbind_run. 2: { rewrite Eh. erewrite kbind_run by exact E1. exact Ed. }
    destruct (IH (set_multiplexer (Some q1) d1) q1 s2 ps' l) as (d2 & q2 & H1 & H2 & H3 & H4 & H5 & H6 & H7); [by destruct c|destruct c; cbn in *; congruence|done|done|cbn; congruence|].
    exists d2, q2. do 5 (split; [done|]). split; [|done]. rewrite H6, Hc1. cbn [fmap list_fmap]. rewrite <- app_assoc. f_equal.
    rewrite length_app. set (n := room q). assert (Hn : n = room q) by done. clearbody n.
    replace (Z.to_nat _) with (n - 1)%nat; [|rewrite length_take; cbn [length]; clear - Hn; lia].
    destruct n as [|n]; [done|]. replace (S n - 1)%nat with n by lia. cbn. by rewrite take_nil.
Qed.

Lemma expected_has_code c e p : expected_of c e = Some p -> exists v, GetVirtualKeyPacket p = Some v.
Proof.
  assert (Ht : forall plain ext wire, Forall (fun kp => has_code kp = true) plain -> Forall (fun kp => has_code kp = true) ext ->
    expected plain ext wire e = Some p -> has_code (keypoint p) = true).
  { intros plain ext wire Hp He E. unfold expected in E. destruct (key_point plain ext (ev_key e)) as [kp|] eqn:Ek; [|done].
    injection E as <-. cbn [keypoint packet]. unfold key_point, rd in Ek.
    destruct (ev_key e) as [k|k| |]; [destruct (k <? 0); [done|]..|by injection Ek as <-|by injection Ek as <-].
    - exact (Forall_lookup_1 _ _ _ _ Hp Ek).
    - exact (Forall_lookup_1 _ _ _ _ He Ek). }
  intros E. assert (Hm : has_code (keypoint p) = true).
  { pose proof tables_have_codes as Ha. rewrite !forallb_app, !andb_true_iff in Ha. destruct Ha as (H1 & H2 & H3 & H4 & _).
    rewrite !forallb_forall in *. destruct c; cbn in E; (eapply Ht; [| |exact E]); apply Forall_forall; intros x Hx; apply list_elem_of_In in Hx; auto. }
  unfold has_code in Hm. apply andb_prop in Hm as [H1%Z.leb_le H2%Z.ltb_lt]. unfold GetVirtualKeyPacket.
  destruct (rd_in KeyboardDispatcher_KeycodeMap (keypoint p) ltac:(lia)) as [code Hr]. rewrite Hr. cbn. eauto.
Qed.

(** C18: For a keyboard of set 1 or 2, after one interrupt for each byte of a
    sequence of key events, the queue of the multiplexer holds, after what it
    held, the packets of these events in order, as many as there was room for,
    the converter is back in its idle state, and each packet has a key code. *)
Theorem typed_keys_reach_the_queue c es d q l :
  c <> ScanCodeSet3 -> keyboardEventConverter d = Some c -> state_of c d = kbd_init ->
  keyboardMultiplexer d = Some q -> queue_ok q -> forallb (expressible_of c) es = true ->
  let bytes := concat (map (encode_of c) es) in
  supplies (ports d) (bytes ++ l) ->
  exists ps d' q', mapM (expected_of c) es = Some ps /\ interrupts (length bytes) d = inr (tt, d') /\ state_of c d' = kbd_init /\
    keyboardMultiplexer d' = Some q' /\ queue_ok q' /\ contents q' = contents q ++ take (room q) (packet_bytes <$> ps) /\
    Forall (fun p => exists v, GetVirtualKeyPacket p = Some v) ps.
Proof.
  intros Hc Hk Hi Hq Hok He bytes Hs.
  destruct (feed_events (handler_of c) kbd_init (encode_of c) (expected_of c) (expressible_of c)) with (es := es) as (ps & Hm & Hf); [|done|].
  { intros e Hx. destruct c; [| |done]; apply decodes_spec; [by apply expressible_decodes1|by apply expressible_decodes2]. }
  destruct (interrupts_feed c bytes Hc d q kbd_init ps l Hk ltac:(by rewrite Hi) Hq Hok Hs) as (d' & q' & H1 & H2 & H3 & H4 & H5 & H6 & H7).
  exists ps, d', q'. do 6 (split; [done|]). apply mapM_Some in Hm. eapply Forall2_Forall_r; [exact Hm|]. apply Forall_forall. intros e _ p. apply expected_has_code.
Qed.
End Keys.
End Host.

(** ** Instances *)

(** Ports that give the bytes of a list, one after the other. *)
#[local] Instance Script : Ps2Host (list Z) := {|
  inb a p := if a =? 0x64 then (if decide (p = []) then 0 else 1, p) else (hd 0 p, tl p);
  outb _ _ p := p; MaskIRQ _ p := p; SetupIRQ _ _ p := p; SendEOI p := p; GetLAPICLogicalID p := (1, p);
  ReserveInterrupt p := (64, p); RegisterIRQ _ _ p := p; ReleaseIRQ _ p := p |}.

#[local] Instance Script_supply : Supply (P := list Z).
Proof. refine {| supplies p l := p = l |}. by intros p b l ->. Defined.

Definition ready : Driver (list Z) :=
  mkDriver false false 0 (Some ScanCodeSet2) kbd_init kbd_init false (Some (new_Buffer (replicate (Z.to_nat bufferSize) 0))) [0x1C; 0xF0; 0x1C].

(** The key A of set 2, pressed and released. *)
Lemma typed_keys_reach_the_queue_witness :
  exists d' q', interrupts 3 ready = inr (tt, d') /\ keyboardMultiplexer d' = Some q' /\
    contents bufferSize q' = [[0x1C; KEYPOINT 5 1; 0; 1]; [0x1C; KEYPOINT 5 1; 0; 0]].
Proof.
  pose (q := new_Buffer (replicate (Z.to_nat bufferSize) 0)).
  assert (Hok : queue_ok bufferSize q).
  { split; [exact (eq_trans (f_equal Z.of_nat (length_replicate _ _)) eq_refl)|done|done]. }
  destruct (typed_keys_reach_the_queue ScanCodeSet2 [{| ev_key := Plain 0x1C; ev_pressed := true |}; {| ev_key := Plain 0x1C; ev_pressed := false |}]
    ready q [] ltac:(done) eq_refl eq_refl eq_refl Hok eq_refl eq_refl) as (ps & d' & q' & Hm & E & _ & Hq & _ & Hc & _).
  exists d', q'. split; [exact E|]. split; [exact Hq|]. cbn in Hm. injection Hm as <-. rewrite Hc. change (contents bufferSize q) with (@nil (list Z)). cbn [length app fmap list_fmap]. reflexivity.
Defined.

(** Ports where every byte read is an acknowledgement. *)
#[local] Instance Acknowledging : Ps2Host unit := {|
  inb a p := if a =? 0x64 then (1, p) else (0xFA, p);
  outb _ _ p := p; MaskIRQ _ p := p; SetupIRQ _ _ p := p; SendEOI p := p; GetLAPICLogicalID p := (1, p);
  ReserveInterrupt p := (64, p); RegisterIRQ _ _ p := p; ReleaseIRQ _ p := p |}.

Lemma reset_acknowledged (d : Driver unit) x d' : Keyboard_SendCommand KBD_RESET d = inr (x, d') -> x = 0xFA.
Proof. destruct d as [a b e c s1 s2 s3 q []]. vm_compute. by intros [= <- _]. Qed.

Lemma resets_never_succeed_witness :
  exists d', HandleInternalError 3 (static_Driver tt) = inr (FATAL_ERROR, d') /\ FATAL_ERROR <> 0.
Proof.
  destruct (HandleInternalError_run 3 (static_Driver tt)) as (r & d' & E & _); [cbn; lia..|].
  exists d'. rewrite E. split; [|done]. do 2 f_equal.
  apply (resets_never_succeed 3 (static_Driver tt) r d'); [|exact E]. intros d x d1 H. by rewrite (reset_acknowledged _ _ _ H).
Defined.

Lemma queries_return_witness :
  exists r d', EchoCheck 4 (static_Driver tt) = inr (r, d') /\ settled r d'.
Proof. apply (queries_return 4 0 (static_Driver tt)); [cbn; lia|lia]. Defined.

(** Ports behind which there is nothing. *)
#[local] Instance Nothing : Ps2Host bool := {|
  inb _ p := (0, p);
  outb _ _ p := p; MaskIRQ _ p := p; SetupIRQ _ _ p := p; SendEOI p := p; GetLAPICLogicalID p := (1, p);
  ReserveInterrupt p := (64, p); RegisterIRQ _ _ p := p; ReleaseIRQ _ p := p |}.

#[local] Instance Nothing_silent : Silence (P := bool).
Proof. by refine {| silent _ := True |}. Defined.

Lemma silent_keyboard_hangs_witness : EnableScanning 1000 (static_Driver true) = inl Hang.
Proof. by apply (silent_keyboard_hangs 1000 (static_Driver true)). Defined.

(** ** The second channel

    A controller with two channels as its specification has it, its
    configuration byte the first of its memory, and a keyboard that
    acknowledges every byte. *)
Record I8042 := mkI8042 { config : Z; pending : list Z; awaits_config : bool }.

Definition keyboard_answer (v : Z) : list Z :=
  if v =? 0xF2 then [0xFA; 0xAB; 0x83] else if v =? 0xFF then [0xFA; 0xAA] else [0xFA].
Definition i8042_command (v : Z) (c : I8042) : I8042 :=
  let set b := mkI8042 b (pending c) false in
  if v =? 0x20 then mkI8042 (config c) (pending c ++ [config c]) false
  else if v =? 0x60 then mkI8042 (config c) (pending c) true
  else if v =? 0xA7 then set (Z.lor (config c) 0x20)
  else if v =? 0xA8 then set (Z.ldiff (config c) 0x20)
  else if v =? 0xAD then set (Z.lor (config c) 0x10)
  else if v =? 0xAE then set (Z.ldiff (config c) 0x10)
  else if v =? 0xAB then mkI8042 (config c) (pending c ++ [0]) false
  else c.

#[local] Instance I8042_host : Ps2Host I8042 := {|
  inb a p := if a =? 0x64 then (if decide (pending p = []) then 0 else 1, p) else (hd 0 (pending p), mkI8042 (config p) (tl (pending p)) (awaits_config p));
  outb a v p :=
    if a =? 0x64 then i8042_command v p
    else if a =? 0x60 then
      if awaits_config p then mkI8042 v (pending p) false else mkI8042 (config p) (pending p ++ keyboard_answer v) false
    else p;
  MaskIRQ _ p := p; SetupIRQ _ _ p := p; SendEOI p := p; GetLAPICLogicalID p := (1, p);
  ReserveInterrupt p := (64, p); RegisterIRQ _ _ p := p; ReleaseIRQ _ p := p |}.

(** The result and the configuration byte it leaves. *)
Definition initialised (c : Z) : option (bool * Z) :=
  match InitializeController 10 (static_Driver (mkI8042 c [] false)) with inl _ => None | inr (ok, d) => Some (ok, config (ports d)) end.

(** Whatever the configuration it finds, the initialisation succeeds on a
    sound controller and leaves the first channel with its interrupt enabled,
    without translation; but also the clock of the second channel, which it has
    just disabled, running again (bit 5 is what disables it). *)
Theorem second_channel_enabled c : 0 <= c < 256 ->
  exists final, initialised c = Some (true, final) /\ Z.testbit final 0 = true /\ Z.testbit final 6 = false /\ Z.testbit final 4 = false /\
    Z.testbit final 5 = false.
Proof.
  intros Hc.
  assert (Hs : forall c, 0 <= c < 0 + 256 -> match initialised c with
      | Some (ok, final) => ok && Z.testbit final 0 && negb (Z.testbit final 6) && negb (Z.testbit final 4) && negb (Z.testbit final 5)
      | None => false end = true).
  { intros b Hb. apply (forallb_seqZ (fun c => match initialised c with
      | Some (ok, final) => ok && Z.testbit final 0 && negb (Z.testbit final 6) && negb (Z.testbit final 4) && negb (Z.testbit final 5)
      | None => false end) 0 256); [vm_compute; reflexivity|lia]. }
  specialize (Hs c ltac:(lia)). destruct (initialised c) as [[ok final]|]; [|done]. rewrite !andb_true_iff, !negb_true_iff in Hs.
  destruct Hs as ((((-> & H0) & H6) & H4) & H5). eauto 10.
Qed.

Lemma second_channel_enabled_witness : exists final, initialised 0x67 = Some (true, final) /\ Z.testbit final 5 = false.
Proof. destruct (second_channel_enabled 0x67 ltac:(lia)) as (f & E & _ & _ & _ & H5). exists f. split; [exact E|exact H5]. Defined.
